(* ===== verification/_CoqProject ===== *)
-Q . S2P
Prelude.v
Hdlc.v
Fifo.v
MtMsg.v
MtRx.v
MtHeap.v
MtFrag.v
MtIface.v
ApiMacTypes.v
ApiMacInd.v
ApiMacReq.v
ApiMacIe.v
RandData.v
ApiMacInit.v
CStr.v
IoStream.v
MtStream.v
Ini.v
IniValue.v
Nv.v
Timer.v
Threads.v
Mutex.v
FdRw.v
UartNli.v
StrUtil.v
ConfigFile.v
IniClients.v
MtDbg.v
NcpTypes.v
SpinelPump.v
RingBuffer.v
DaemonTimer.v
HexLine.v
NcpAddresses.v
Firewall.v
