(* ===== verification/Prelude.v ===== *)
(** * Verification of the host side of a Wi-SUN gateway

    The repository holds a host stack for a radio co-processor: the C code
    under [linux-host/src] talks to the co-processor over a UART or a socket,
    the daemon and its tools stand on top of it.  This library models the C
    layers through which every byte to and from the co-processor passes, from
    the streams and the framing up to the MAC programming interface, and the
    configuration files that set them up, and proves what they guarantee.

    ** The parts and the files

    - [Prelude] (this file): what all models share.  A C function is a Rocq
      function into [outcome]: it returns ([Ret]), runs into undefined
      behaviour of a named kind or ends the program ([Undef]) or exhausts the
      fuel of a loop ([NoFuel]).  [M S] threads a state through such functions.
      A w-bit integer is a [Z] with its wrap-around written out ([u8] .. [u64],
      [int32]).  Memory is a list of bytes; [mem_read] and [mem_write] fail
      outside of it.
    - [Hdlc], module [Hdlc]: gateway_common/linux/npi_hdlc.c.  The CRC,
      [hdlc_encode], [hdlc_decode] and the receiver [pull_hdlc], byte by byte
      as the loops of the code.
    - [Fifo], module [Fifo]: gateway_common/src/fifo.c.  The ring buffer
      ([struct fifo] as the record [fifo]), its zero-copy halves
      ([FIFO_insertDMA_setup] and the like), the blocking calls over an
      arbitrary environment, and a machine in which one producer and one
      consumer thread interleave at every access to the structure, the mutex
      being a step like any other.
    - [MtMsg], module [MtMsg]: message buffers of
      mt_interface/api/src/mt_msg.c.  [struct mt_msg] and the configuration
      part of [struct mt_msg_interface] as records; checksum, classification,
      typed reads and writes, [MT_MSG_format_msg], [MT_MSG_reformat].
    - [MtRx], module [MtRx]: the receiver [mt_msg_rx].  Its labels are the
      constructors of a program counter [rx_pc]; the code between two labels
      is one function.  The device is the class [Stream] with the law
      [StreamLaw]; [script] is an instance that plays a list of events.
    - [MtHeap], module [MtHeap]: the state [mif] of an interface with the heap
      of its messages.  A pointer is a key of the heap and keys are not used
      again, so a use after free is [Undef Dangling].  Allocation, free, clone,
      the list of received messages, [MT_MSG_tx_raw].
    - [MtFrag], module [MtFrag]: long messages are sent in acknowledged blocks
      and put together again: sender, receiver, dispatch by the rx thread,
      [MT_MSG_tx], [MT_MSG_txrx].
    - [MtIface], module [MtIface]: the requests built on [MT_MSG_txrx] and the
      creation and destruction of an interface with its handles ([lif]).
    - [ApiMacTypes], [ApiMacInd], [ApiMacReq], [ApiMacIe], [ApiMacInit], each
      with a module of its name: mt_interface/api/src/api_mac.c.  The data types
      of the MAC interface (api_mac.h) with their encodings; the eighteen
      indications, taken from the list of received messages by
      [ApiMac_processIncoming] and given to callbacks, which are a log of calls;
      the requests with the routines that get and set attributes; the parser of
      information elements with its heap of records; start-up.
    - [RandData], module [RandData]: gateway_common/src/rand_data.c, the random
      numbers start-up uses and the pairs of generators that test a channel.
    - [CStr], module [CStr]: strings in memory and the number conversions of the
      C library, as far as the code uses them.
    - [IoStream], module [IoStream]: gateway_common/src/stream_common.c,
      stream_mem.c and stream_file.c.  The table of functions of a back end is
      the class [io_stream_funcs] over its state, memory and files are
      instances; [Source] states what reading text relies on.
    - [MtStream], module [MtStream]: the memory stream as a device of the
      receiver, and the simulation that carries results over to it.
    - [Ini] and [IniValue], modules of these names:
      gateway_common/src/ini_file.c.  The parser works in place in its work
      buffer, for any back end and any client; the conversions of values.
    - [IniClients], module [IniClients]: the clients of that parser,
      gateway_common/src/stream_uart_ini.c and stream_socket_ini.c and
      mt_interface/api/src/mt_msg_ini.c.  The class [IniClient] states what parsing
      a whole file needs of a client; each of the three is an instance.
    - [Nv], module [Nv]: nv/nv_linux.c, flash pages simulated in memory and kept
      in a file.  The state is the static variables and the content of the file.
    - [Timer], module [Timer]: gateway_common/src/timer.c and timer_cb.c.  The
      timers are linked records in a heap; the timer thread is cut at the points
      where it unlocks the list, so that clients, the clock and the thread
      interleave as a sequence of [action]s.
    - [Threads], module [Threads]: gateway_common/src/threads.c and the thread
      part of linux/linux_specific.c, two lists of records that answer who the
      calling thread is.
    - [Mutex], module [Mutex]: gateway_common/src/mutex.c over the lock of
      linux_specific.c, cut into the steps between which other threads run; the
      computation of absolute times and the sleep.
    - [FdRw], module [FdRw]: gateway_common/src/unix_fdrw.c, the polls, reads and
      writes of linux_specific.c, and the UART of linux/linux_uart.c.  What the
      operating system answers is a script ([line]).
    - [UartNli], module [UartNli]: the same UART built with HDLC frames.
    - [StrUtil], module [StrUtil]: src/util/string-utils.c and time-utils.c of the
      daemon: reversed buffers, hexadecimal text, masks of channels and log levels
      written as text, the time left in milliseconds.
    - [ConfigFile], module [ConfigFile]: src/util/config-file.c of the daemon and
      the command line of src/wfanctl/wfanctl.c: words are cut off a string in
      place, for any client of the configuration file.
    - [MtDbg], module [MtDbg]: mt_interface/api/src/mt_msg_dbg_load.c and
      mt_msg_dbg_core.c: descriptions of messages are read from a text, line by line,
      looked up, and give the fields of a message.
    - [HexLine], module [HexLine]: gateway_common/src/hexline.c, memory shown as
      lines of text, with the loop of LOG_hexdump.
    - [NcpTypes], module [NcpTypes]: src/wfantund/NCPTypes.cpp of the daemon: states,
      node types and flags of the co-processor and their texts.
    - [SpinelPump], module [SpinelPump]: the two protothreads of
      src/ncp-spinel/SpinelNCPInstance-DataPump.cpp.  Each call of a pump goes from
      one place of waiting to the next; the line answers each read and write as a
      script says, and what the rest of the daemon does with a frame is an argument.
    - [RingBuffer], module [RingBuffer]: the template src/util/RingBuffer.h.
    - [DaemonTimer], module [DaemonTimer]: src/util/Timer.cpp, timers on a list linked
      through the timers themselves; callbacks use the timers in turn.
    - [NcpAddresses], module [NcpAddresses]: src/wfantund/NCPInstanceBase-Addresses.cpp,
      the tables of addresses, groups, prefixes, routes and services.  What they make
      the host interface and the co-processor do is a log of effects, and an answer of
      the co-processor is a later operation ([Completed]).
    - [Firewall], module [Firewall]: src/util/IPv6PacketMatcher.cpp and the filters of
      src/wfantund/NCPInstanceBase-NetInterface.cpp: rules for packets, sets of rules,
      and what is let through in each direction while a device is commissioned.

    [MtMsg] is used by the [Mt] and [ApiMac] files after it; [MtFrag] sends and
    receives with [MtHeap] and takes its messages as [MtRx] delivers them;
    [MtIface] calls [MtFrag] and [MtHeap]; the [ApiMac] files call [MtIface] and
    [MtFrag], [ApiMacInit] also [RandData].  [MtStream] joins [MtRx] and
    [IoStream]; [Ini] and [Nv] read and write through
    [IoStream].  [Hdlc] and [Fifo] stand alone; [FdRw] fills and empties a
    [Fifo], and [UartNli] joins [FdRw] and [Hdlc].  [Mutex] asks [Threads] who
    is calling.  [StrUtil], [ConfigFile], [HexLine] and [MtDbg] use [CStr], [MtDbg]
    also [IoStream], [IniValue] and [MtMsg].
    [SpinelPump] sends and receives the frames of [Hdlc] with code of its own and asks
    [NcpTypes] for the state of the co-processor; [Firewall], which is the filter
    a pump asks about a packet, takes the states from [NcpTypes] and the masks of
    addresses from [NcpAddresses].  [RingBuffer] and [NcpAddresses] stand alone, and
    [DaemonTimer] takes from [StrUtil] only what a time in the far future is.
    [IniClients] joins [Ini] and [IniValue] with the settings of [MtIface].

    ** What is proved

    - HDLC: a content of up to 2045 bytes that was encoded is what is received,
      also in a stream of frames, and a longer one never is; a corrupted byte is
      detected; the table CRC is the bit-serial one; the receiver stays inside
      its buffer.  The encoder does not for long inputs, and a truncated frame
      passes unchecked.
    - FIFO: every sequence of calls answers as a bounded queue does; under any
      interleaving of the accesses of a producer and a consumer thread, with a
      mutex, the items come out in order and nothing faults.  Without the mutex
      an example loses the count.
    - Messages: what is built with typed writes is the frame of the format,
      forwarding keeps the payload, overflows are caught and reads stay inside
      the buffer; what one side sends the other receives and reads back; the
      receiver resynchronises after garbage and hands out only messages with a
      right checksum and all announced bytes, on every device that obeys the
      read law, and with no more than these unless a read fell short.
      It is not safe against an announced length beyond the buffer, and a frame
      cut short makes it spin or take what follows for a part of the message.
    - Memory: the list of received messages is a queue and is freed exactly; a
      clone is a deep copy.
    - Fragments: a transfer whose blocks are acknowledged completes, its blocks
      carry the payload, and the receiver rebuilds it from two blocks or more; a
      message of a single block is never returned.  The rx thread then drops
      the result; a silent peer blocks the sender; a duplicate acknowledgement
      leads to a dangling pointer; a message of unknown length is not sent.
    - Interfaces: creation is all or nothing, destruction releases everything
      once; requests are sent but their answers are not received, and an
      interface that sent one is freed twice.
    - MAC indications: each is decoded field by field and given to its callback
      once, and all memory is released; whatever bytes a message holds, handling
      it makes at most the call its command asks for and leaks nothing, and it is
      safe unless an allocation fails, which can lead to a null pointer.
    - MAC requests: each goes out as one frame from which its parameters can be
      read back.  Since no answer is received, those that want a status follow a
      null pointer and those that get a value never succeed.
    - Information elements: encoded elements are parsed to the list of them; on
      any input the parser ends, with a list that can be freed or with nothing
      left allocated, unless it reads past its input, which the end of a header
      beyond the announced length makes it do.
    - Start-up: the reset indication is waited for among twenty messages; the
      address chosen is valid; start-up cannot complete.
    - Streams: a memory stream is a tape with one byte of push-back; texts are
      read line by line whatever their line ends; discarding input ends if the
      input does; a message sent through a memory stream is received.
    - Configuration files: the client is given what the lines denote, a printed
      file with at most one leading blank per line and value is parsed back,
      parsing ends on every text within the work buffer;
      numbers, quoted strings and lists of numbers are read back.  Leading
      blanks are not all trimmed, and the range of [int] is not checked.  A file
      of settings leaves in the UARTs, the sockets or the message interface what
      its items mean, and a wrong one is reported at its line; the flag [default]
      of a UART does not do what is documented.
    - Non-volatile storage: however the work is cut into processes that load and
      save, reads answer as one flash memory does; a file of another size is
      overwritten with erased flash.
    - Timers: for every interleaving of the thread with the steps of creation and
      destruction the callbacks are those of an abstract schedule ordered by due
      time, as long as periods and delays stay below 2^31 ms; no wake-up is lost
      and the earliest expired timer is called in the next round.  A timer
      destroyed between its selection and its call is used after free: the
      schedule names exactly this fault.  Longer periods fire at once.
    - Threads and mutexes: a created thread is told its own handle, afterwards;
      a mutex is held by at most one registered thread, and two threads that are
      not registered enter together.  A sleep whose nanoseconds add up to a
      whole second never ends.
    - UART: the bytes of the line reach the application in order for every order
      of rounds of the receiving thread and reads that do not wait, and complete
      unless a read of the device fails; a write sends a
      front of its data and reports its length; with HDLC frames the peer reads
      back the messages of up to 2044 bytes.  A longer one is lost or overruns the
      buffer, a framed write may report success without it, and a
      framed read does not respect the size of its buffer.
    - Utilities of the daemon: reversing is an involution, hexadecimal text is
      parsed back to the data it was printed from and parsing stays inside the
      buffer, a mask has the bits of the channels listed; words are cut off in
      place exactly as the lexical rules say, a configuration file gives its
      settings to the client in order, and a printed one gives them back.  A
      command line of a hundred words overruns its array.
    - Descriptions and dumps: a printed description with lines of up to 97 bytes is
      loaded back, loading ends on every text, and a message is taken apart into the fields its description names;
      the lines of a memory dump show the data, the address at 2^32 apart.
    - Data pumps of the daemon: whatever arrives and however it is cut, the inbound
      pump acts as a receiver of frames inside its buffer, and messages of up to 1298
      bytes sent to it are handed over whole and in order, longer ones being dropped; the
      outbound pump sends a frame of the format over any number of partial writes and
      reports it once.  Its buffer holds the
      frames of up to 1297 bytes; escaping a longer one may overrun it.
    - Ring buffer and timers of the daemon: every sequence of operations answers as a
      bounded queue, and as an agenda ordered by fire time, whatever the callbacks of the
      timers do with timers; processing the timers leaves nothing due, and ends if the
      callbacks leave the timers alone.  Popping nothing off a full buffer turns it round, and a
      fire time beyond 2^31 ms overflows.
    - Addresses and routes of the daemon: after any operations the interface has what
      the tables say; a refresh leaves exactly the routes that are wanted and touches no
      other; a prefix that is added and removed leaves nothing behind unless another entry
      asks for its address; a refused group
      is left again.  The routes of prefixes that are forgotten stay.
    - Packet filter of the daemon: insecure packets reach the host only during a
      commissioning and only if they are of ICMP or asked for, and a connection that is
      commissioned is answered where it came from until the commissioning expires, and
      carried over to the secure channel.  A refused call in the middle
      of a commissioning lets every packet in; pings are not answered on the channel
      they came from, and one packet too many goes out after the end.

    ** Bounds and fuel

    Loops that walk over data recurse on it.  [mt_msg_rx] has a fuel of control
    transfers between its labels: a frame takes two, each byte of garbage two
    more (the theorems say how much is enough).  [frag_blocks] needs one unit
    per block, [wait_for_frag_ack] one per acknowledgement looked at; that no
    amount suffices for a silent peer is a theorem.  [free_rec], [list_last] and
    [list_destroy] get the size of the heap, which bounds the length of every
    chain without a cycle.  [ie_loop] gets one more than the size of the memory,
    since every round consumes a header.  [await_reset] has the twenty rounds of
    the code.  [trim_end] and [dequote_loop] get one more than the size of the
    work buffer; [ini_loop] needs one round per line and two more, and one per
    byte of the text and two more always suffice.  [rdDump_loop] needs one round
    per byte and per answer of the timer.  The walks over the list of timers get
    one more than the number of allocated timers.  [UNIX_fdRdThis] and
    [UNIX_fdWrThis] get one more than the answers the line still has;
    [fd_to_fifo_loop] needs one round per answer, [simple_loop] one per byte and
    [app_fifo_loop] two.  [trim_white] and [arg_loop] get one more than the size
    of the memory, [input_loop] and [config_loop] two more than the length of
    their text, each of their rounds consuming a character.  The loops of [MtDbg] that
    trim and cut get one more than the size of the line buffer, and [load_loop] one
    round per line and one more.  The reads and writes of a pump recurse on the answers
    of the line; two calls per byte and one more empty it.  The walks over the timers
    of the daemon get one more than the number of timers, [process] one reading of the
    clock per timer fired and one more, and [step] as much as calls of [process] are
    nested; [hexdump] needs a round per line and one more,
    and [erase_each] one per element of its table and one more.

    ** What is not modelled

    Logging and debug output; the variant of the message receiver under
    NPI_USE_NLI, which no build file defines.  In the message layer an operation
    on a list is one step, as its mutex makes it.  What arrives during a wait,
    whether an allocation or a lock succeeds, how much a write transfers and
    what a timer says is read from scripts or arguments.  Sockets, and the
    opening, configuring and closing of a UART, are system calls; the standard
    file handles of the stream module are globals no modelled code uses.  LOG_INI_settings
    of log_ini.c is empty: its body is commented out.  log.c is formatted output;
    semaphores, the keyboard and the terminal of the OS layer are system calls.  The
    applications around the Nanostack, the connman plugin, wfanctl beyond its command
    line and the D-Bus server are glue between libraries that are not part of the
    repository.  Of the C++ daemon the pumps, tables, filters, types, timers, ring
    buffer and utilities above are modelled; its Spinel driver, main loop and property tables live in
    objects of Boost and of the standard library and are not.  The Rust port is
    another implementation of the daemon. *)

From Stdlib Require Import ZArith Lia.
From stdpp Require Import base list option numbers.

Open Scope Z_scope.

(** ** Outcomes of C code

    A modelled C function either returns, runs into behaviour the C standard
    leaves undefined (the constructor says which kind), or exhausts the
    fuel of a loop whose bound is not structural. *)

Inductive undef : Type :=
| OutOfBounds
| NullPointer
| DivByZero
| Dangling
| Uninitialised
| SignedOverflow
| Fatal  (* the program ends itself through FATAL_printf or MAC_ASSERT *).

Inductive outcome (A : Type) : Type :=
| Ret (a : A)
| Undef (u : undef)
| NoFuel.
Arguments Ret {A} a.
Arguments Undef {A} u.
Arguments NoFuel {A}.

#[export] Instance undef_eq_dec : EqDecision undef.
Proof. solve_decision. Defined.

#[export] Instance outcome_eq_dec {A} `{EqDecision A} : EqDecision (outcome A).
Proof. solve_decision. Defined.

#[export] Instance outcome_ret : MRet outcome := @Ret.
#[export] Instance outcome_bind : MBind outcome := fun A B f m =>
  match m with
  | Ret a => f a
  | Undef u => Undef u
  | NoFuel => NoFuel
  end.
#[export] Instance outcome_fmap : FMap outcome := fun A B f m =>
  match m with
  | Ret a => Ret (f a)
  | Undef u => Undef u
  | NoFuel => NoFuel
  end.

(** A dereference: a null (absent) target is undefined. *)
Definition deref {A} (o : option A) : outcome A :=
  match o with Some a => Ret a | None => Undef NullPointer end.

Definition returns {A} (m : outcome A) : Prop :=
  match m with Ret _ => True | _ => False end.

Lemma bind_Ret_inv {A B} (m : outcome A) (f : A -> outcome B) b :
  m ≫= f = Ret b -> exists a, m = Ret a /\ f a = Ret b.
Proof. destruct m; cbn; intros; try discriminate. eauto. Qed.

Lemma bind_assoc_out {A B C} (m : outcome A) (f : A -> outcome B) (g : B -> outcome C) :
  (m ≫= f) ≫= g = m ≫= (fun a => f a ≫= g).
Proof. by destruct m. Qed.

(** ** Stateful code

    A computation on a state [S] that may fail as above. *)

Definition M (S A : Type) : Type := S -> outcome (A * S).

#[export] Instance M_ret {S} : MRet (M S) := fun A a s => Ret (a, s).
#[export] Instance M_bind {S} : MBind (M S) := fun A B f m s =>
  '(a, s) ← m s; f a s.

Definition get {S} : M S S := fun s => Ret (s, s).
Definition modify {S} (f : S -> S) : M S unit := fun s => Ret (tt, f s).
Definition lift {S A} (o : outcome A) : M S A := fun s => a ← o; Ret (a, s).
Definition undefined {S A} (u : undef) : M S A := fun _ => Undef u.
Definition out_of_fuel {S A} : M S A := fun _ => NoFuel.

Lemma M_bind_Ret {S A B} (f : A -> M S B) (m : M S A) s a s' :
  m s = Ret (a, s') -> (m ≫= f) s = f a s'.
Proof. intros E. unfold mbind, M_bind. by rewrite E. Qed.

Lemma M_bind_Undef {S A B} (f : A -> M S B) (c : M S A) s u :
  c s = Undef u -> (c ≫= f) s = Undef u.
Proof. intros E. unfold mbind, M_bind. by rewrite E. Qed.

Lemma M_bind_get {S A} (k : S -> M S A) s : (get ≫= k) s = k s s.
Proof. reflexivity. Qed.

Lemma M_bind_modify {S A} (f : S -> S) (k : unit -> M S A) s : (modify f ≫= k) s = k tt (f s).
Proof. reflexivity. Qed.

(** Run the first computation of a sequence by its equation. *)
Ltac run_step E := erewrite (M_bind_Ret _ _ _ _ _ E); cbv beta.

(** Run a [get] or a [modify] that comes first. *)
Ltac run_get := rewrite M_bind_get; cbv beta.
Ltac run_modify := rewrite M_bind_modify; cbv beta.

Lemma M_bind_inv {S A B} (f : A -> M S B) (m : M S A) s b s2 :
  (m ≫= f) s = Ret (b, s2) -> exists a s1, m s = Ret (a, s1) /\ f a s1 = Ret (b, s2).
Proof. unfold mbind, M_bind. intros ([a s1] & E & E2)%bind_Ret_inv. eauto. Qed.

(** ** Machine integers

    A w-bit unsigned integer is a [Z] reduced modulo 2^w; [int32] is the
    two's complement reduction of the C type [int]. *)

Definition u8 (z : Z) : Z := z mod 2 ^ 8.
Definition u16 (z : Z) : Z := z mod 2 ^ 16.
Definition u32 (z : Z) : Z := z mod 2 ^ 32.
Definition u64 (z : Z) : Z := z mod 2 ^ 64.
Definition int32 (z : Z) : Z := (z + 2 ^ 31) mod 2 ^ 32 - 2 ^ 31.

Definition is_byte (b : Z) : Prop := 0 <= b < 256.
Definition is_bytes (l : list Z) : Prop := Forall is_byte l.
Definition is_u16 (z : Z) : Prop := 0 <= z < 65536.

#[export] Instance is_byte_dec b : Decision (is_byte b).
Proof. unfold is_byte. apply _. Defined.
#[export] Instance is_bytes_dec l : Decision (is_bytes l).
Proof. unfold is_bytes. apply _. Defined.

Lemma u8_byte z : is_byte (u8 z).
Proof. unfold is_byte, u8. apply Z.mod_pos_bound. lia. Qed.

Lemma u8_id b : is_byte b -> u8 b = b.
Proof. intros. apply Z.mod_small. exact H. Qed.

Lemma u16_id z : 0 <= z < 65536 -> u16 z = z.
Proof. intros. apply Z.mod_small. exact H. Qed.

Lemma u64_id z : 0 <= z < 2 ^ 64 -> u64 z = z.
Proof. intros. apply Z.mod_small. exact H. Qed.

Lemma int32_id z : - 2 ^ 31 <= z < 2 ^ 31 -> int32 z = z.
Proof. intros. unfold int32. rewrite Z.mod_small; lia. Qed.

(** ** Automation

    [bytes] decides that a value is a byte, [heaps] that a pointer is live or
    fresh; [byte_const], [by_bytes] and [by_eval] settle ground facts by
    evaluation. *)

Create HintDb bytes.
Create HintDb heaps.

Ltac byte_const := cbv; split; congruence.
Ltac by_bytes := apply (bool_decide_unpack (is_bytes _)); vm_compute; exact I.
Ltac by_eval := vm_compute; repeat split; (reflexivity || discriminate).

#[export] Hint Resolve u8_byte : bytes.
#[export] Hint Extern 1 (is_byte _) => byte_const : bytes.

(** ** Bits *)

Lemma testbit_high n k i : 0 <= n < 2 ^ k -> k <= i -> Z.testbit n i = false.
Proof.
  intros Hn Hi. destruct (decide (k < 0)) as [Hk|Hk].
  { rewrite Z.pow_neg_r in Hn by lia. lia. }
  rewrite <- (Z.mod_small n (2 ^ k)) by lia.
  apply Z.mod_pow2_bits_high. lia.
Qed.

Lemma lt_pow2_bits n k :
  0 <= k -> 0 <= n -> (forall i, k <= i -> Z.testbit n i = false) -> n < 2 ^ k.
Proof.
  intros Hk Hn Hb. destruct (decide (n < 2 ^ k)) as [|Hge]; [done|exfalso].
  assert (0 < n) by (pose proof (Z.pow_pos_nonneg 2 k); lia).
  assert (k <= Z.log2 n) by (apply Z.log2_le_pow2; lia).
  pose proof (Z.bit_log2 n ltac:(lia)) as Ht. rewrite Hb in Ht by lia. done.
Qed.

Lemma lxor_bound a b k :
  0 <= k -> 0 <= a < 2 ^ k -> 0 <= b < 2 ^ k -> 0 <= Z.lxor a b < 2 ^ k.
Proof.
  intros Hk Ha Hb. assert (0 <= Z.lxor a b) by (apply Z.lxor_nonneg; lia).
  split; [done|]. apply lt_pow2_bits; [lia..|].
  intros i Hi. rewrite Z.lxor_spec, !(testbit_high _ k) by lia. done.
Qed.

Lemma lxor_byte a b : is_byte a -> is_byte b -> is_byte (Z.lxor a b).
Proof. unfold is_byte. intros. apply (lxor_bound a b 8); lia. Qed.

Lemma lxor_cancel_l a b : Z.lxor a (Z.lxor a b) = b.
Proof. rewrite <- Z.lxor_assoc, Z.lxor_nilpotent. apply Z.lxor_0_l. Qed.

Lemma lxor_cancel_mid a b c : Z.lxor (Z.lxor a b) (Z.lxor a c) = Z.lxor b c.
Proof.
  rewrite (Z.lxor_comm a b), Z.lxor_assoc. f_equal. apply lxor_cancel_l.
Qed.

Lemma lxor_inj_l a b c : Z.lxor a b = Z.lxor a c -> b = c.
Proof. intros H. rewrite <- (lxor_cancel_l a b), H. apply lxor_cancel_l. Qed.

Lemma land_ff z : Z.land z 255 = z mod 256.
Proof. apply (Z.land_ones z 8). lia. Qed.

Lemma land_ff_byte z : is_byte (Z.land z 255).
Proof. rewrite land_ff. apply Z.mod_pos_bound. lia. Qed.

#[export] Hint Resolve lxor_byte land_ff_byte : bytes.

Lemma land_low z k : 0 <= k -> Z.land z (2 ^ k - 1) = z mod 2 ^ k.
Proof.
  intros. rewrite <- Z.land_ones by lia. f_equal. rewrite Z.ones_equiv. lia.
Qed.

Lemma shiftr8 z : Z.shiftr z 8 = z / 256.
Proof. apply (Z.shiftr_div_pow2 z 8). lia. Qed.

(** Disjoint bit fields add up. *)
Lemma lor_shiftl v b x : 0 <= x -> 0 <= v < 2 ^ x -> Z.lor v (Z.shiftl b x) = v + b * 2 ^ x.
Proof.
  intros Hx Hv. rewrite <- Z.shiftl_mul_pow2 by lia.
  assert (Z.land v (Z.shiftl b x) = 0) as Hl.
  { apply Z.bits_inj'. intros i Hi. rewrite Z.land_spec, Z.bits_0.
    destruct (decide (i < x)).
    - rewrite (Z.shiftl_spec_low b) by lia. apply andb_false_r.
    - rewrite (testbit_high v x) by lia. done. }
  rewrite <- Z.lxor_lor by done. symmetry. by apply Z.add_nocarry_lxor.
Qed.

(** Splitting a 16-bit value in its two bytes. *)
Lemma split16 f : Z.lxor (Z.shiftl (Z.shiftr f 8) 8) (Z.land f 255) = f.
Proof.
  apply Z.bits_inj'. intros i Hi. change 255 with (Z.ones 8).
  rewrite Z.lxor_spec, Z.shiftl_spec, Z.land_spec by lia.
  destruct (decide (i < 8)).
  - rewrite Z.testbit_neg_r by lia. rewrite Z.ones_spec_low by lia.
    rewrite andb_true_r. done.
  - rewrite Z.shiftr_spec by lia. rewrite Z.ones_spec_high by lia.
    rewrite andb_false_r, xorb_false_r. f_equal. lia.
Qed.

(** ** Byte buffers

    [slice o n l] is what [memcpy] reads at offset [o]; [splice o d l] is
    the buffer after [memcpy] wrote [d] at offset [o]. *)

Definition zlen {A} (l : list A) : Z := Z.of_nat (length l).

Definition slice {A} (o n : nat) (l : list A) : list A := take n (drop o l).
Definition splice {A} (o : nat) (d l : list A) : list A :=
  take o l ++ d ++ drop (o + length d) l.

Definition mem_read (l : list Z) (off n : Z) : outcome (list Z) :=
  if (0 <=? off) && (0 <=? n) && (off + n <=? zlen l)
  then Ret (slice (Z.to_nat off) (Z.to_nat n) l)
  else Undef OutOfBounds.

Definition mem_write (l : list Z) (off : Z) (d : list Z) : outcome (list Z) :=
  if (0 <=? off) && (off + zlen d <=? zlen l)
  then Ret (splice (Z.to_nat off) d l)
  else Undef OutOfBounds.

Lemma zlen_nonneg {A} (l : list A) : 0 <= zlen l.
Proof. unfold zlen. lia. Qed.

Lemma zlen_app {A} (l k : list A) : zlen (l ++ k) = zlen l + zlen k.
Proof. unfold zlen. rewrite length_app. lia. Qed.

Section Buffers.
Context {A : Type}.
Implicit Types l d : list A.

Lemma length_slice o n l : (o + n <= length l)%nat -> length (slice o n l) = n.
Proof. intros. unfold slice. rewrite length_take, length_drop. lia. Qed.

Lemma length_splice o d l :
  (o + length d <= length l)%nat -> length (splice o d l) = length l.
Proof.
  intros. unfold splice. rewrite !length_app, length_take, length_drop. lia.
Qed.

Lemma slice_splice_same o d l :
  (o + length d <= length l)%nat -> slice o (length d) (splice o d l) = d.
Proof.
  intros. unfold slice, splice.
  rewrite drop_app_ge by (rewrite length_take; lia).
  rewrite length_take, (Nat.min_l o) by lia. rewrite Nat.sub_diag, drop_0.
  rewrite take_app_le by lia. apply take_ge. lia.
Qed.

Lemma lookup_slice o n l i :
  (i < n)%nat -> slice o n l !! i = l !! (o + i)%nat.
Proof. intros. unfold slice. rewrite lookup_take_lt by lia. apply lookup_drop. Qed.

Lemma lookup_splice_in o d l i :
  (o + length d <= length l)%nat -> (i < length d)%nat ->
  splice o d l !! (o + i)%nat = d !! i.
Proof.
  intros. unfold splice.
  rewrite lookup_app_r by (rewrite length_take; lia).
  rewrite length_take, Nat.min_l by lia.
  rewrite lookup_app_l by lia. f_equal. lia.
Qed.

Lemma lookup_splice_out o d l i :
  (o + length d <= length l)%nat -> (i < o \/ o + length d <= i)%nat ->
  splice o d l !! i = l !! i.
Proof.
  intros Hl [Hi|Hi]; unfold splice.
  - rewrite lookup_app_l by (rewrite length_take; lia).
    apply lookup_take_lt. lia.
  - rewrite lookup_app_r by (rewrite length_take; lia).
    rewrite length_take, Nat.min_l by lia.
    rewrite lookup_app_r by lia. rewrite lookup_drop. f_equal. lia.
Qed.

Lemma slice_splice_disjoint o d l p n :
  (o + length d <= length l)%nat -> (p + n <= length l)%nat ->
  (p + n <= o \/ o + length d <= p)%nat ->
  slice p n (splice o d l) = slice p n l.
Proof.
  intros Hl Hp Hd. apply list_eq_same_length with n.
  - rewrite length_slice by lia. done.
  - rewrite length_slice by (rewrite ?length_splice; lia). done.
  - intros i x y Hi Hx Hy.
    rewrite lookup_slice in Hx, Hy by lia.
    rewrite lookup_splice_out in Hx by lia. congruence.
Qed.

Lemma slice_slice p n o m l :
  (p + n <= m)%nat -> slice p n (slice o m l) = slice (o + p) n l.
Proof.
  intros. unfold slice.
  rewrite (take_drop_commute l m o), drop_drop, (take_drop_commute _ n).
  rewrite take_take, (take_drop_commute l). f_equal. f_equal. lia.
Qed.

Lemma slice_app o n m l :
  slice o (n + m) l = slice o n l ++ slice (o + n) m l.
Proof. unfold slice. rewrite <- take_take_drop, drop_drop. done. Qed.

Lemma slice_0_all l : slice 0 (length l) l = l.
Proof. unfold slice. rewrite drop_0. apply take_ge. lia. Qed.

Lemma take_splice o d l : (o <= length l)%nat -> take o (splice o d l) = take o l.
Proof.
  intros. unfold splice. rewrite take_app_le by (rewrite length_take; lia).
  rewrite take_take. f_equal. lia.
Qed.

Lemma drop_splice o d l :
  (o <= length l)%nat -> drop o (splice o d l) = d ++ drop (o + length d) l.
Proof.
  intros. unfold splice. rewrite drop_app_ge by (rewrite length_take; lia).
  rewrite length_take, Nat.min_l, Nat.sub_diag by lia. done.
Qed.

(** Two adjacent writes are one. *)
Lemma splice_splice_app o d1 d2 l :
  (o + length d1 + length d2 <= length l)%nat ->
  splice (o + length d1) d2 (splice o d1 l) = splice o (d1 ++ d2) l.
Proof.
  intros H. unfold splice at 1.
  assert (take (o + length d1) (splice o d1 l) = take o l ++ d1) as ->.
  { rewrite <- take_take_drop, take_splice, drop_splice by lia.
    f_equal. rewrite take_app_le by lia. apply take_ge. lia. }
  assert (drop (o + length d1 + length d2) (splice o d1 l) =
          drop (o + length d1 + length d2) l) as ->.
  { rewrite <- Nat.add_assoc, <- drop_drop, drop_splice by lia.
    rewrite drop_app_ge by lia. rewrite drop_drop. f_equal. lia. }
  unfold splice. rewrite length_app, <- !app_assoc. by rewrite Nat.add_assoc.
Qed.

Lemma splice_nil o l : splice o [] l = l.
Proof. unfold splice. simpl. rewrite Nat.add_0_r. apply take_drop. Qed.

Lemma splice_overwrite o d d' l :
  length d' = length d -> (o + length d <= length l)%nat ->
  splice o d (splice o d' l) = splice o d l.
Proof.
  intros E H. unfold splice at 1. rewrite take_splice by lia.
  rewrite <- drop_drop, drop_splice by lia.
  rewrite drop_app_ge by lia. rewrite E, Nat.sub_diag, drop_0. done.
Qed.

(** Writing right behind a known prefix extends the prefix. *)
Lemma take_splice_extend p d l :
  take (length p) l = p -> (length p + length d <= length l)%nat ->
  take (length p + length d) (splice (length p) d l) = p ++ d.
Proof.
  intros Hp Hl. rewrite <- take_take_drop, take_splice, Hp, drop_splice by lia.
  f_equal. apply take_app_length.
Qed.

End Buffers.

Lemma mem_read_ok l off n :
  0 <= off -> 0 <= n -> off + n <= zlen l ->
  mem_read l off n = Ret (slice (Z.to_nat off) (Z.to_nat n) l).
Proof. intros. unfold mem_read. by rewrite !(proj2 (Z.leb_le _ _)) by lia. Qed.

Lemma mem_write_ok l off d :
  0 <= off -> off + zlen d <= zlen l ->
  mem_write l off d = Ret (splice (Z.to_nat off) d l).
Proof. intros. unfold mem_write. by rewrite !(proj2 (Z.leb_le _ _)) by lia. Qed.

(** One byte in the middle. *)
Lemma mem_write_mid a x b y : mem_write (a ++ x :: b) (zlen a) [y] = Ret (a ++ y :: b).
Proof.
  rewrite mem_write_ok by (rewrite ?zlen_app; unfold zlen; cbn; lia). unfold splice, zlen.
  rewrite Nat2Z.id, take_app_length. do 2 f_equal. cbn [length app]. f_equal.
  rewrite drop_app_add. done.
Qed.

(** A piece in the middle. *)
Lemma mem_read_mid a d b : mem_read (a ++ d ++ b) (zlen a) (zlen d) = Ret d.
Proof.
  rewrite mem_read_ok by (rewrite ?zlen_app; unfold zlen; lia). unfold slice, zlen.
  by rewrite !Nat2Z.id, drop_app_length, take_app_length.
Qed.

Lemma mem_write_piece a d b d' :
  length d = length d' -> mem_write (a ++ d ++ b) (zlen a) d' = Ret (a ++ d' ++ b).
Proof.
  intros E. rewrite mem_write_ok by (rewrite ?zlen_app; unfold zlen; lia). unfold splice, zlen.
  rewrite Nat2Z.id, take_app_length, <- E, <- drop_drop, !drop_app_length. done.
Qed.

Lemma mem_read_inv l off n d :
  mem_read l off n = Ret d ->
  0 <= off /\ 0 <= n /\ off + n <= zlen l /\ d = slice (Z.to_nat off) (Z.to_nat n) l.
Proof.
  unfold mem_read. destruct (Z.leb_spec 0 off), (Z.leb_spec 0 n), (Z.leb_spec (off + n) (zlen l));
    cbn [andb]; try discriminate. by intros [= <-].
Qed.

Lemma mem_write_inv l off d b :
  mem_write l off d = Ret b ->
  0 <= off /\ off + zlen d <= zlen l /\ b = splice (Z.to_nat off) d l.
Proof.
  unfold mem_write. destruct (Z.leb_spec 0 off), (Z.leb_spec (off + zlen d) (zlen l));
    cbn [andb]; try discriminate. by intros [= <-].
Qed.
