(* ===== verification/Hdlc.v ===== *)
(** * HDLC framing of the serial link (linux/npi_hdlc.c)

    The host talks to the radio co-processor over a UART.  Every message is
    wrapped in an HDLC frame: a flag byte, the escaped content followed by its
    16-bit CRC, and a closing flag.  This file models the CRC step, the escape
    test, [hdlc_encode], [hdlc_decode] and [pull_hdlc], and relates them to a
    frame format written independently of the code ([frame_of]) and to the
    bitwise definition of the CRC. *)

From Stdlib Require Import ZArith Lia.
From stdpp Require Import base list option numbers.
From S2P Require Import Prelude.

Open Scope Z_scope.

Module Hdlc.

(** ** The code *)

Definition kHdlcCrcCheckValue : Z := 0xf0b8.
Definition kHdlcCrcResetValue : Z := 0xffff.
Definition MAX_FRAME_SIZE : Z := 2048.
Definition HDLC_BYTE_FLAG : Z := 0x7E.
Definition HDLC_BYTE_ESC : Z := 0x7D.
Definition HDLC_BYTE_XON : Z := 0x11.
Definition HDLC_BYTE_XOFF : Z := 0x13.
Definition HDLC_BYTE_SPECIAL : Z := 0xF8.
Definition HDLC_ESCAPE_XFORM : Z := 0x20.
Definition NLI_FLAG_FIELD : Z := 0x40.

Definition sFcsTable : list Z :=
  [0x0000; 0x1189; 0x2312; 0x329b; 0x4624; 0x57ad; 0x6536; 0x74bf;
   0x8c48; 0x9dc1; 0xaf5a; 0xbed3; 0xca6c; 0xdbe5; 0xe97e; 0xf8f7;
   0x1081; 0x0108; 0x3393; 0x221a; 0x56a5; 0x472c; 0x75b7; 0x643e;
   0x9cc9; 0x8d40; 0xbfdb; 0xae52; 0xdaed; 0xcb64; 0xf9ff; 0xe876;
   0x2102; 0x308b; 0x0210; 0x1399; 0x6726; 0x76af; 0x4434; 0x55bd;
   0xad4a; 0xbcc3; 0x8e58; 0x9fd1; 0xeb6e; 0xfae7; 0xc87c; 0xd9f5;
   0x3183; 0x200a; 0x1291; 0x0318; 0x77a7; 0x662e; 0x54b5; 0x453c;
   0xbdcb; 0xac42; 0x9ed9; 0x8f50; 0xfbef; 0xea66; 0xd8fd; 0xc974;
   0x4204; 0x538d; 0x6116; 0x709f; 0x0420; 0x15a9; 0x2732; 0x36bb;
   0xce4c; 0xdfc5; 0xed5e; 0xfcd7; 0x8868; 0x99e1; 0xab7a; 0xbaf3;
   0x5285; 0x430c; 0x7197; 0x601e; 0x14a1; 0x0528; 0x37b3; 0x263a;
   0xdecd; 0xcf44; 0xfddf; 0xec56; 0x98e9; 0x8960; 0xbbfb; 0xaa72;
   0x6306; 0x728f; 0x4014; 0x519d; 0x2522; 0x34ab; 0x0630; 0x17b9;
   0xef4e; 0xfec7; 0xcc5c; 0xddd5; 0xa96a; 0xb8e3; 0x8a78; 0x9bf1;
   0x7387; 0x620e; 0x5095; 0x411c; 0x35a3; 0x242a; 0x16b1; 0x0738;
   0xffcf; 0xee46; 0xdcdd; 0xcd54; 0xb9eb; 0xa862; 0x9af9; 0x8b70;
   0x8408; 0x9581; 0xa71a; 0xb693; 0xc22c; 0xd3a5; 0xe13e; 0xf0b7;
   0x0840; 0x19c9; 0x2b52; 0x3adb; 0x4e64; 0x5fed; 0x6d76; 0x7cff;
   0x9489; 0x8500; 0xb79b; 0xa612; 0xd2ad; 0xc324; 0xf1bf; 0xe036;
   0x18c1; 0x0948; 0x3bd3; 0x2a5a; 0x5ee5; 0x4f6c; 0x7df7; 0x6c7e;
   0xa50a; 0xb483; 0x8618; 0x9791; 0xe32e; 0xf2a7; 0xc03c; 0xd1b5;
   0x2942; 0x38cb; 0x0a50; 0x1bd9; 0x6f66; 0x7eef; 0x4c74; 0x5dfd;
   0xb58b; 0xa402; 0x9699; 0x8710; 0xf3af; 0xe226; 0xd0bd; 0xc134;
   0x39c3; 0x284a; 0x1ad1; 0x0b58; 0x7fe7; 0x6e6e; 0x5cf5; 0x4d7c;
   0xc60c; 0xd785; 0xe51e; 0xf497; 0x8028; 0x91a1; 0xa33a; 0xb2b3;
   0x4a44; 0x5bcd; 0x6956; 0x78df; 0x0c60; 0x1de9; 0x2f72; 0x3efb;
   0xd68d; 0xc704; 0xf59f; 0xe416; 0x90a9; 0x8120; 0xb3bb; 0xa232;
   0x5ac5; 0x4b4c; 0x79d7; 0x685e; 0x1ce1; 0x0d68; 0x3ff3; 0x2e7a;
   0xe70e; 0xf687; 0xc41c; 0xd595; 0xa12a; 0xb0a3; 0x8238; 0x93b1;
   0x6b46; 0x7acf; 0x4854; 0x59dd; 0x2d62; 0x3ceb; 0x0e70; 0x1ff9;
   0xf78f; 0xe606; 0xd49d; 0xc514; 0xb1ab; 0xa022; 0x92b9; 0x8330;
   0x7bc7; 0x6a4e; 0x58d5; 0x495c; 0x3de3; 0x2c6a; 0x1ef1; 0x0f78].

Definition fcs_entry (i : Z) : Z := nth (Z.to_nat i) sFcsTable 0.

(** [aFcs] is a [uint16_t] and [aByte] a [uint8_t]. *)
Definition hdlc_crc16 (aFcs aByte : Z) : Z :=
  Z.lxor (Z.shiftr aFcs 8) (fcs_entry (Z.land (Z.lxor aFcs aByte) 0xff)).

Definition hdlc_byte_needs_escape (byte : Z) : bool :=
  (byte =? HDLC_BYTE_SPECIAL) || (byte =? HDLC_BYTE_ESC) ||
  (byte =? HDLC_BYTE_FLAG) || (byte =? HDLC_BYTE_XOFF) ||
  (byte =? HDLC_BYTE_XON).

(** [add_NLI_byte]: the two results are the returned buffer ([None] for NULL)
    and the value [*outputBufLen] holds afterwards ([old] when the code does
    not write it).  [malloc_ok] says whether the allocation succeeds.  The
    allocated size is a [uint16_t], so it is 0 for a 65535-byte input, and the
    code then writes past the allocation. *)
Definition add_NLI_byte (malloc_ok : bool) (inputBuf : list Z) (nli old : Z)
  : outcome (option (list Z) * Z) :=
  if 0 <? zlen inputBuf then
    let outputBufLen := u16 (zlen inputBuf + 1) in
    if malloc_ok then
      if zlen inputBuf + 1 <=? outputBufLen then
        Ret (Some (u8 (Z.lor NLI_FLAG_FIELD (Z.shiftl nli 4)) :: inputBuf),
             outputBufLen)
      else Undef OutOfBounds
    else Ret (None, 0)
  else Ret (None, old).

(** A store [escaped_frame_buffer[escaped_frame_len++] = b]; the buffer has
    [MAX_FRAME_SIZE * 2] bytes. *)
Definition put (buf : list Z) (b : Z) : outcome (list Z) :=
  if zlen buf <? MAX_FRAME_SIZE * 2 then Ret (buf ++ [b]) else Undef OutOfBounds.

(** The block the encoder repeats for each content byte and each CRC byte. *)
Definition put_escaped (buf : list Z) (c : Z) : outcome (list Z) :=
  if hdlc_byte_needs_escape c
  then buf ← put buf HDLC_BYTE_ESC; put buf (Z.lxor c HDLC_ESCAPE_XFORM)
  else put buf c.

Fixpoint encode_loop (fcs : Z) (buf inputBuf : list Z) : outcome (Z * list Z) :=
  match inputBuf with
  | [] => Ret (fcs, buf)
  | c :: rest =>
      buf ← put_escaped buf c;
      encode_loop (hdlc_crc16 fcs c) buf rest
  end.

(** [hdlc_encode]: the two flags say whether the two allocations succeed; the
    result is the returned buffer and [*outputBufLen].  [inputBuf] holds
    exactly [inputFrameLen] bytes. *)
Definition hdlc_encode (malloc1 malloc2 isSpinel : bool) (inputBuf : list Z)
  : outcome (option (list Z) * Z) :=
  if malloc1 && (0 <? zlen inputBuf) then
    buf ← put [] HDLC_BYTE_FLAG;
    '(fcs, buf) ← encode_loop kHdlcCrcResetValue buf
                    (drop (if isSpinel then 0 else 1) inputBuf);
    let fcs := Z.lxor fcs 0xFFFF in
    buf ← put_escaped buf (Z.land fcs 0xFF);
    buf ← put_escaped buf (Z.land (Z.shiftr fcs 8) 0xFF);
    buf ← put buf HDLC_BYTE_FLAG;
    if malloc2 then Ret (Some buf, zlen buf) else Ret (None, 0)
  else Ret (None, 0).

(** Locals of the receive loop that [hdlc_decode] and [pull_hdlc] share:
    [payload] is the content of [loclaFrameBuffer] up to [localPayloadSize];
    [fcs] is [None] while the variable is uninitialised. *)
Record hdlc_rx : Type := Rx {
  unescape_next_byte : bool;
  payload : list Z;
  fcs : option Z
}.

Definition rx_reset : hdlc_rx := Rx false [] (Some kHdlcCrcResetValue).

Inductive rx_step : Type :=
| Continue (st : hdlc_rx)
| Break (st : hdlc_rx).

(** The tail of the loop body: fold the byte in the CRC and store it. *)
Definition rx_append (st : hdlc_rx) (byte : Z) : outcome rx_step :=
  match fcs st with
  | None => Undef Uninitialised
  | Some f =>
      if zlen (payload st) <? MAX_FRAME_SIZE * 2
      then Ret (Continue (Rx (unescape_next_byte st) (payload st ++ [byte])
                             (Some (hdlc_crc16 f byte))))
      else Undef OutOfBounds
  end.

Definition rx_flag (st : hdlc_rx) : outcome rx_step :=
  if zlen (payload st) <=? 2 then Ret (Continue rx_reset)
  else match fcs st with
       | None => Undef Uninitialised
       | Some f =>
           if negb (f =? kHdlcCrcCheckValue) then Ret (Continue rx_reset)
           else Ret (Break (Rx false (take (length (payload st) - 2) (payload st))
                               (Some kHdlcCrcResetValue)))
       end.

(** One iteration on the byte just read. *)
Definition rx_byte (st : hdlc_rx) (byte : Z) : outcome rx_step :=
  if MAX_FRAME_SIZE <=? zlen (payload st) then rx_append rx_reset byte
  else if byte =? HDLC_BYTE_FLAG then rx_flag st
  else if byte =? HDLC_BYTE_ESC then
    Ret (Continue (Rx true (payload st) (fcs st)))
  else if hdlc_byte_needs_escape byte then Ret (Continue st)
  else if unescape_next_byte st then
    rx_append (Rx false (payload st) (fcs st)) (Z.lxor byte HDLC_ESCAPE_XFORM)
  else rx_append st byte.

(** The loop over the input; the second result is the unread input. *)
Fixpoint rx_loop (st : hdlc_rx) (input : list Z) : outcome (hdlc_rx * list Z) :=
  match input with
  | [] => Ret (st, [])
  | byte :: rest =>
      s ← rx_byte st byte;
      match s with
      | Continue st => rx_loop st rest
      | Break st => Ret (st, rest)
      end
  end.

(** [hdlc_decode]: when the first allocation fails the code returns the
    uninitialised [outputBuf]. *)
Definition hdlc_decode (malloc1 malloc2 : bool) (inputBuf : list Z)
  : outcome (option (list Z) * Z) :=
  if malloc1 then
    '(st, _) ← rx_loop (Rx false [] None) inputBuf;
    if malloc2 then Ret (Some (payload st), zlen (payload st)) else Ret (None, 0)
  else Undef Uninitialised.

(** [pull_hdlc]: [fd] is what successive one-byte reads of the descriptor
    return before the first read that does not return 1. *)
Definition pull_hdlc (malloc1 malloc2 : bool) (fd : list Z)
  : outcome (option (list Z) * Z * list Z) :=
  if malloc1 then
    '(st, rest) ← rx_loop (Rx false [] (Some 0)) fd;
    if zlen (payload st) =? 0 then Ret (None, 0, rest)
    else if malloc2 then Ret (Some (payload st), zlen (payload st), rest)
    else Ret (None, 0, rest)
  else Ret (None, 0, fd).

(** ** The frame format, independently of the code *)

Definition esc (c : Z) : list Z :=
  if hdlc_byte_needs_escape c then [HDLC_BYTE_ESC; Z.lxor c HDLC_ESCAPE_XFORM] else [c].
Definition escaped (raw : list Z) : list Z := concat (map esc raw).

(** The frame carrying the raw content [raw] (data and CRC bytes). *)
Definition frame_of (raw : list Z) : list Z :=
  HDLC_BYTE_FLAG :: escaped raw ++ [HDLC_BYTE_FLAG].

Definition fcs_of (data : list Z) : Z := foldl hdlc_crc16 kHdlcCrcResetValue data.
Definition crc_bytes (data : list Z) : list Z :=
  let f := Z.lxor (fcs_of data) 0xFFFF in [Z.land f 0xFF; Z.land (Z.shiftr f 8) 0xFF].

(** Content of a frame with a correct CRC. *)
Definition sealed (data : list Z) : list Z := data ++ crc_bytes data.

(** The reflected CRC-16/CCITT polynomial, one bit at a time. *)
Definition crc_bit (x : Z) : Z :=
  if Z.odd x then Z.lxor (Z.shiftr x 1) 0x8408 else Z.shiftr x 1.
Definition crc_byte (f b : Z) : Z := Nat.iter 8 crc_bit (Z.lxor f b).

Definition data_of (isSpinel : bool) (buf : list Z) : list Z :=
  if isSpinel then buf else tail buf.

(** ** The CRC *)

Lemma crc_bit_lxor x y : crc_bit (Z.lxor x y) = Z.lxor (crc_bit x) (crc_bit y).
Proof.
  unfold crc_bit. rewrite Z.shiftr_lxor, <- !Z.bit0_odd, Z.lxor_spec.
  destruct (Z.testbit x 0), (Z.testbit y 0); simpl;
    apply Z.bits_inj'; intros i _; rewrite !Z.lxor_spec;
    repeat match goal with |- context [Z.testbit ?a i] => destruct (Z.testbit a i) end;
    done.
Qed.

Lemma crc_iter_lxor n x y :
  Nat.iter n crc_bit (Z.lxor x y) =
  Z.lxor (Nat.iter n crc_bit x) (Nat.iter n crc_bit y).
Proof. induction n; simpl; [done|]. rewrite IHn. apply crc_bit_lxor. Qed.

Lemma crc_bit_shiftl z k : 0 < k -> crc_bit (Z.shiftl z k) = Z.shiftl z (k - 1).
Proof.
  intros. unfold crc_bit. rewrite <- Z.bit0_odd, Z.shiftl_spec_low by lia.
  rewrite Z.shiftr_shiftl_l by lia. done.
Qed.

Lemma crc_iter_shiftl z : Nat.iter 8 crc_bit (Z.shiftl z 8) = z.
Proof.
  simpl. rewrite !crc_bit_shiftl by lia. apply Z.shiftl_0_r.
Qed.

(** A decidable statement about all bytes, checked by evaluation. *)
Lemma byte_forallb (P : Z -> bool) :
  forallb (fun i => P (Z.of_nat i)) (seq 0 256) = true ->
  forall b, is_byte b -> P b = true.
Proof.
  intros H b Hb. rewrite forallb_forall in H.
  specialize (H (Z.to_nat b)). rewrite Z2Nat.id in H by (unfold is_byte in Hb; lia).
  apply H. apply in_seq. unfold is_byte in Hb. lia.
Qed.

Lemma fcs_entry_bitwise b : is_byte b -> fcs_entry b = Nat.iter 8 crc_bit b.
Proof.
  intros Hb. apply Z.eqb_eq.
  apply (byte_forallb (fun b => fcs_entry b =? Nat.iter 8 crc_bit b)); [|done].
  vm_compute. reflexivity.
Qed.

Lemma fcs_entry_u16 b : is_byte b -> is_u16 (fcs_entry b).
Proof.
  intros Hb.
  assert ((0 <=? fcs_entry b) && (fcs_entry b <? 65536) = true) as Ht.
  { apply (byte_forallb (fun b => (0 <=? fcs_entry b) && (fcs_entry b <? 65536)));
      [|done]. vm_compute. reflexivity. }
  unfold is_u16. lia.
Qed.

(** The high byte of the table determines the index: its inverse. *)
Definition fcs_index (h : Z) : Z :=
  match find (fun i => Z.shiftr (fcs_entry (Z.of_nat i)) 8 =? h) (seq 0 256) with
  | Some i => Z.of_nat i
  | None => 0
  end.

Lemma fcs_index_entry b : is_byte b -> fcs_index (Z.shiftr (fcs_entry b) 8) = b.
Proof.
  intros Hb. apply Z.eqb_eq.
  apply (byte_forallb (fun b => fcs_index (Z.shiftr (fcs_entry b) 8) =? b)); [|done].
  vm_compute. reflexivity.
Qed.

Lemma shiftr8_byte f : is_u16 f -> is_byte (Z.shiftr f 8).
Proof.
  unfold is_u16, is_byte. intros. rewrite shiftr8.
  split; [apply Z.div_pos; lia | apply Z.div_lt_upper_bound; lia].
Qed.

Lemma shiftr8_of_byte b : is_byte b -> Z.shiftr b 8 = 0.
Proof. intros. rewrite shiftr8. apply Z.div_small. done. Qed.

Lemma crc16_u16 f b : is_u16 f -> is_u16 (hdlc_crc16 f b).
Proof.
  intros Hf. unfold hdlc_crc16, is_u16.
  apply (lxor_bound _ _ 16); [lia| |].
  - pose proof (shiftr8_byte f Hf). unfold is_byte in *. lia.
  - apply fcs_entry_u16, land_ff_byte.
Qed.

Lemma fcs_of_app f l1 l2 :
  foldl hdlc_crc16 f (l1 ++ l2) = foldl hdlc_crc16 (foldl hdlc_crc16 f l1) l2.
Proof. apply foldl_app. Qed.

Lemma fold_crc_u16 l f : is_u16 f -> is_u16 (foldl hdlc_crc16 f l).
Proof. revert f. induction l; simpl; auto using crc16_u16. Qed.

Lemma fcs_of_u16 l : is_u16 (fcs_of l).
Proof. apply fold_crc_u16. unfold is_u16, kHdlcCrcResetValue. lia. Qed.

Lemma crc16_shiftr f b :
  is_u16 f ->
  Z.shiftr (hdlc_crc16 f b) 8 = Z.shiftr (fcs_entry (Z.land (Z.lxor f b) 0xff)) 8.
Proof.
  intros. unfold hdlc_crc16.
  rewrite Z.shiftr_lxor, (shiftr8_of_byte (Z.shiftr f 8)) by auto using shiftr8_byte.
  apply Z.lxor_0_l.
Qed.

(** Equal results come from equal table indices and equal high bytes. *)
Lemma crc16_inj f g a b :
  is_u16 f -> is_u16 g -> hdlc_crc16 f a = hdlc_crc16 g b ->
  Z.land (Z.lxor f a) 0xff = Z.land (Z.lxor g b) 0xff /\
  Z.shiftr f 8 = Z.shiftr g 8.
Proof.
  intros Hf Hg E.
  assert (Z.land (Z.lxor f a) 0xff = Z.land (Z.lxor g b) 0xff) as Hl.
  { pose proof (f_equal (fun x => Z.shiftr x 8) E) as Es. simpl in Es.
    rewrite !crc16_shiftr in Es by done.
    rewrite <- (fcs_index_entry _ (land_ff_byte (Z.lxor f a))), Es.
    apply fcs_index_entry, land_ff_byte. }
  split; [done|]. unfold hdlc_crc16 in E. rewrite Hl in E.
  rewrite (Z.lxor_comm _ (fcs_entry _)), (Z.lxor_comm (Z.shiftr g 8)) in E.
  by apply lxor_inj_l in E.
Qed.

Lemma land_lxor_ff a b : Z.land (Z.lxor a b) 255 = Z.lxor (Z.land a 255) (Z.land b 255).
Proof.
  apply Z.bits_inj'. intros i _. rewrite !Z.land_spec, !Z.lxor_spec, !Z.land_spec.
  destruct (Z.testbit a i), (Z.testbit b i), (Z.testbit 255 i); done.
Qed.

Lemma land_ff_id b : is_byte b -> Z.land b 255 = b.
Proof. intros. rewrite land_ff. apply Z.mod_small. done. Qed.

(** For a fixed CRC register the step distinguishes bytes ... *)
Lemma crc16_inj_byte f a b :
  is_u16 f -> is_byte a -> is_byte b -> hdlc_crc16 f a = hdlc_crc16 f b -> a = b.
Proof.
  intros Hf Ha Hb E. destruct (crc16_inj f f a b Hf Hf E) as [El _].
  rewrite !land_lxor_ff in El. apply lxor_inj_l in El.
  by rewrite !land_ff_id in El.
Qed.

(** ... and for a fixed byte it distinguishes registers. *)
Lemma crc16_inj_fcs f g b :
  is_u16 f -> is_u16 g -> hdlc_crc16 f b = hdlc_crc16 g b -> f = g.
Proof.
  intros Hf Hg E. destruct (crc16_inj f g b b Hf Hg E) as [El Eh].
  rewrite !land_lxor_ff, !(Z.lxor_comm _ (Z.land b 255)) in El.
  apply lxor_inj_l in El.
  rewrite <- (split16 f), <- (split16 g), Eh, El. done.
Qed.

Lemma fold_crc_inj l f g :
  is_u16 f -> is_u16 g -> foldl hdlc_crc16 f l = foldl hdlc_crc16 g l -> f = g.
Proof.
  revert f g. induction l as [|b l IH]; simpl; intros f g Hf Hg E; [done|].
  apply IH in E; [|auto using crc16_u16..]. eapply crc16_inj_fcs; eauto.
Qed.

(** The register after data and its two CRC bytes is always the check value. *)
Lemma crc_residue f :
  is_u16 f ->
  hdlc_crc16 (hdlc_crc16 f (Z.land (Z.lxor f 0xFFFF) 0xFF))
             (Z.land (Z.shiftr (Z.lxor f 0xFFFF) 8) 0xFF) = kHdlcCrcCheckValue.
Proof.
  intros Hf. pose proof (shiftr8_byte f Hf) as Hh.
  assert (hdlc_crc16 f (Z.land (Z.lxor f 0xFFFF) 0xFF) =
          Z.lxor (Z.shiftr f 8) 0x0f78) as ->.
  { unfold hdlc_crc16. f_equal.
    replace (Z.land (Z.lxor f _) 255) with 255; [reflexivity|].
    rewrite (land_lxor_ff f (Z.land _ _)), (land_ff_id (Z.land _ _)) by apply land_ff_byte.
    rewrite land_lxor_ff, lxor_cancel_l. reflexivity. }
  rewrite Z.shiftr_lxor.
  rewrite land_lxor_ff, (land_ff_id (Z.shiftr f 8)) by done.
  unfold hdlc_crc16. rewrite Z.shiftr_lxor, (shiftr8_of_byte (Z.shiftr f 8)) by done.
  rewrite lxor_cancel_mid.
  reflexivity.
Qed.

Lemma sealed_check data : fcs_of (sealed data) = kHdlcCrcCheckValue.
Proof.
  unfold sealed, crc_bytes, fcs_of at 1. rewrite fcs_of_app. fold (fcs_of data).
  cbn [foldl]. apply crc_residue, fcs_of_u16.
Qed.

(** ** The encoder against the frame format *)

(** Appending a run of bytes to the encoder's buffer. *)
Definition emit (buf l : list Z) : outcome (list Z) :=
  if zlen buf + zlen l <=? MAX_FRAME_SIZE * 2
  then Ret (buf ++ l) else Undef OutOfBounds.

Lemma emit_emit buf l1 l2 : (b ← emit buf l1; emit b l2) = emit buf (l1 ++ l2).
Proof.
  unfold emit. rewrite zlen_app. pose proof (zlen_nonneg l2).
  destruct (Z.leb_spec (zlen buf + zlen l1) (MAX_FRAME_SIZE * 2)); simpl.
  - rewrite zlen_app, app_assoc. by rewrite Z.add_assoc.
  - destruct (Z.leb_spec (zlen buf + (zlen l1 + zlen l2)) (MAX_FRAME_SIZE * 2));
      [lia|done].
Qed.

Lemma put_emit buf b : put buf b = emit buf [b].
Proof.
  unfold put, emit. change (zlen [b]) with 1.
  destruct (Z.ltb_spec (zlen buf) (MAX_FRAME_SIZE * 2)),
    (Z.leb_spec (zlen buf + 1) (MAX_FRAME_SIZE * 2)); lia || done.
Qed.

Lemma put_escaped_emit buf c : put_escaped buf c = emit buf (esc c).
Proof.
  unfold put_escaped, esc. destruct (hdlc_byte_needs_escape c); rewrite put_emit; [|done].
  change [HDLC_BYTE_ESC; ?x] with ([HDLC_BYTE_ESC] ++ [x]). rewrite <- emit_emit.
  destruct (emit buf _); simpl; auto using put_emit.
Qed.

Lemma escaped_app l1 l2 : escaped (l1 ++ l2) = escaped l1 ++ escaped l2.
Proof. unfold escaped. rewrite map_app, concat_app. done. Qed.

Lemma encode_loop_emit data f buf :
  zlen buf <= MAX_FRAME_SIZE * 2 ->
  encode_loop f buf data = (fun b => (foldl hdlc_crc16 f data, b)) <$> emit buf (escaped data).
Proof.
  revert f buf. induction data as [|c data IH]; intros f buf Hb; simpl.
  { unfold emit. change (zlen (escaped [])) with 0.
    destruct (Z.leb_spec (zlen buf + 0) (MAX_FRAME_SIZE * 2)); [|lia].
    simpl. by rewrite app_nil_r. }
  change (escaped (c :: data)) with (esc c ++ escaped data).
  rewrite put_escaped_emit, <- emit_emit.
  destruct (emit buf (esc c)) as [b| |] eqn:E; simpl; [|done..].
  apply IH. unfold emit in E. destruct (Z.leb_spec (zlen buf + zlen (esc c)) (MAX_FRAME_SIZE * 2)); [|done].
  injection E as <-. rewrite zlen_app. lia.
Qed.

Lemma hdlc_encode_emit isSpinel buf :
  0 < zlen buf ->
  hdlc_encode true true isSpinel buf =
  (fun b => (Some b, zlen b)) <$> emit [] (frame_of (sealed (data_of isSpinel buf))).
Proof.
  intros H. unfold hdlc_encode.
  destruct (Z.ltb_spec 0 (zlen buf)); [|lia]. simpl.
  replace (drop (if isSpinel then 0 else 1)%nat buf) with (data_of isSpinel buf)
    by (destruct isSpinel, buf; done).
  rewrite encode_loop_emit by (cbv; congruence).
  unfold frame_of, sealed. rewrite escaped_app.
  change (escaped (crc_bytes ?d)) with
    (esc (Z.land (Z.lxor (fcs_of d) 0xFFFF) 0xFF) ++
     esc (Z.land (Z.shiftr (Z.lxor (fcs_of d) 0xFFFF) 8) 0xFF) ++ []).
  rewrite app_nil_r.
  change (HDLC_BYTE_FLAG :: ?l) with ([HDLC_BYTE_FLAG] ++ l).
  rewrite !(app_assoc [_]), <- !emit_emit. change (emit [] [HDLC_BYTE_FLAG]) with (Ret [HDLC_BYTE_FLAG]).
  simpl. unfold fcs_of.
  destruct (emit [HDLC_BYTE_FLAG] (escaped _)) as [b| |]; simpl; [|done..].
  rewrite put_escaped_emit, <- emit_emit.
  destruct (emit b _) as [b1| |]; simpl; [|done..].
  rewrite put_escaped_emit. destruct (emit b1 _) as [b2| |]; simpl; [|done..].
  rewrite put_emit. destruct (emit b2 _); done.
Qed.

(** ** The receive loop against the frame format *)

Lemma needs_escape_cases c :
  hdlc_byte_needs_escape c = true ->
  c = 0xF8 \/ c = 0x7D \/ c = 0x7E \/ c = 0x13 \/ c = 0x11.
Proof.
  unfold hdlc_byte_needs_escape, HDLC_BYTE_SPECIAL, HDLC_BYTE_ESC, HDLC_BYTE_FLAG,
    HDLC_BYTE_XOFF, HDLC_BYTE_XON. lia.
Qed.

Lemma no_escape_neq c :
  hdlc_byte_needs_escape c = false ->
  (c =? HDLC_BYTE_FLAG) = false /\ (c =? HDLC_BYTE_ESC) = false.
Proof. unfold hdlc_byte_needs_escape. intros. split; lia. Qed.

Lemma rx_append_short st c f :
  zlen (payload st) < MAX_FRAME_SIZE -> fcs st = Some f ->
  rx_append st c = Ret (Continue (Rx (unescape_next_byte st) (payload st ++ [c])
                                     (Some (hdlc_crc16 f c)))).
Proof.
  intros Hp Hf. unfold rx_append. rewrite Hf.
  destruct (Z.ltb_spec (zlen (payload st)) (MAX_FRAME_SIZE * 2)); [done|].
  unfold MAX_FRAME_SIZE in *. lia.
Qed.

(** A byte that needs no escaping is stored, after the escape transformation
    when an escape byte preceded it. *)
Lemma rx_byte_plain (u : bool) p f c :
  zlen p < MAX_FRAME_SIZE -> hdlc_byte_needs_escape c = false ->
  let c' := if u then Z.lxor c HDLC_ESCAPE_XFORM else c in
  rx_byte (Rx u p (Some f)) c =
  Ret (Continue (Rx false (p ++ [c']) (Some (hdlc_crc16 f c')))).
Proof.
  intros Hp Hc. unfold rx_byte. simpl.
  destruct (Z.leb_spec MAX_FRAME_SIZE (zlen p)); [lia|].
  destruct (no_escape_neq c Hc) as [-> ->]. rewrite Hc.
  destruct u; erewrite rx_append_short; done || (simpl; lia).
Qed.

Lemma rx_byte_esc u p f :
  zlen p < MAX_FRAME_SIZE ->
  rx_byte (Rx u p f) HDLC_BYTE_ESC = Ret (Continue (Rx true p f)).
Proof.
  intros. unfold rx_byte. simpl.
  destruct (Z.leb_spec MAX_FRAME_SIZE (zlen p)); [lia|done].
Qed.

Lemma rx_loop_escaped raw p f rest :
  zlen p + zlen raw <= MAX_FRAME_SIZE ->
  rx_loop (Rx false p (Some f)) (escaped raw ++ rest) =
  rx_loop (Rx false (p ++ raw) (Some (foldl hdlc_crc16 f raw))) rest.
Proof.
  revert p f. induction raw as [|c raw IH]; intros p f Hl.
  { by rewrite app_nil_r. }
  change (escaped (c :: raw)) with (esc c ++ escaped raw). rewrite <- app_assoc.
  assert (zlen p < MAX_FRAME_SIZE /\ zlen (p ++ [c]) + zlen raw <= MAX_FRAME_SIZE)
    as [Hp Hpc] by (rewrite zlen_app; unfold zlen in *; simpl in *; lia).
  replace (p ++ c :: raw) with ((p ++ [c]) ++ raw) by (by rewrite <- app_assoc).
  cbn [foldl]. rewrite <- IH by done. unfold esc.
  destruct (hdlc_byte_needs_escape c) eqn:E; cbn [app rx_loop].
  - rewrite rx_byte_esc by done. cbn -[rx_byte].
    rewrite rx_byte_plain; [|done|].
    + cbn -[rx_byte]. by rewrite Z.lxor_assoc, Z.lxor_nilpotent, Z.lxor_0_r.
    + apply needs_escape_cases in E. by destruct E as [->|[->|[->|[->| ->]]]].
  - by rewrite rx_byte_plain.
Qed.

Lemma rx_byte_flag u p f :
  zlen p < MAX_FRAME_SIZE -> rx_byte (Rx u p f) HDLC_BYTE_FLAG = rx_flag (Rx u p f).
Proof.
  intros. unfold rx_byte. simpl.
  destruct (Z.leb_spec MAX_FRAME_SIZE (zlen p)); [lia|done].
Qed.

(** What the loop does on one complete frame, whatever its content. *)
Lemma rx_loop_frame st raw rest :
  zlen (payload st) <= 2 -> zlen raw < MAX_FRAME_SIZE ->
  rx_loop st (frame_of raw ++ rest) =
  if (2 <? zlen raw) && (fcs_of raw =? kHdlcCrcCheckValue)
  then Ret (Rx false (take (length raw - 2) raw) (Some kHdlcCrcResetValue), rest)
  else rx_loop rx_reset rest.
Proof.
  intros Hp Hr. destruct st as [u p f]. cbn [payload] in Hp.
  unfold frame_of. rewrite <- app_comm_cons, <- app_assoc. cbn [rx_loop].
  rewrite rx_byte_flag by (unfold MAX_FRAME_SIZE; lia).
  unfold rx_flag at 1. cbn [payload].
  destruct (Z.leb_spec (zlen p) 2); [|lia]. cbn -[rx_byte rx_loop].
  change (rx_loop rx_reset (escaped raw ++ ?r)) with
    (rx_loop (Rx false [] (Some kHdlcCrcResetValue)) (escaped raw ++ r)).
  rewrite rx_loop_escaped by (unfold zlen in *; simpl; lia).
  cbn [app rx_loop]. rewrite rx_byte_flag by done.
  unfold rx_flag. cbn [payload fcs]. fold (fcs_of raw).
  destruct (Z.leb_spec (zlen raw) 2), (Z.ltb_spec 2 (zlen raw)); try lia; [done|].
  destruct (fcs_of raw =? kHdlcCrcCheckValue); done.
Qed.

Lemma length_crc_bytes d : length (crc_bytes d) = 2%nat.
Proof. done. Qed.

Lemma sealed_clip d : take (length (sealed d) - 2) (sealed d) = d.
Proof.
  unfold sealed. rewrite length_app, length_crc_bytes.
  replace (length d + 2 - 2)%nat with (length d) by lia. apply take_app_length.
Qed.

Lemma zlen_sealed d : zlen (sealed d) = zlen d + 2.
Proof. unfold sealed. rewrite zlen_app. done. Qed.

Lemma rx_loop_wire st d rest :
  zlen (payload st) <= 2 -> 0 < zlen d <= 2045 ->
  rx_loop st (frame_of (sealed d) ++ rest) =
  Ret (Rx false d (Some kHdlcCrcResetValue), rest).
Proof.
  intros. rewrite rx_loop_frame by (rewrite ?zlen_sealed; unfold MAX_FRAME_SIZE; lia).
  rewrite zlen_sealed, sealed_check, sealed_clip.
  destruct (Z.ltb_spec 2 (zlen d + 2)); [done|lia].
Qed.

Lemma zlen_escaped raw : zlen raw <= zlen (escaped raw) <= 2 * zlen raw.
Proof.
  induction raw as [|c raw IH]; [done|].
  change (escaped (c :: raw)) with (esc c ++ escaped raw). rewrite zlen_app.
  unfold esc. destruct (hdlc_byte_needs_escape c); unfold zlen in *; simpl length; lia.
Qed.

Lemma zlen_frame raw : zlen (frame_of raw) = zlen (escaped raw) + 2.
Proof.
  unfold frame_of. change (?a :: ?l) with ([a] ++ l). rewrite !zlen_app.
  change (zlen [HDLC_BYTE_FLAG]) with 1. lia.
Qed.

Lemma encode_short isSpinel buf :
  0 < zlen buf -> zlen (data_of isSpinel buf) <= 2045 ->
  let w := frame_of (sealed (data_of isSpinel buf)) in
  hdlc_encode true true isSpinel buf = Ret (Some w, zlen w).
Proof.
  intros H0 H w. rewrite hdlc_encode_emit by done. fold w.
  unfold emit. change (zlen []) with 0. simpl app.
  pose proof (zlen_escaped (sealed (data_of isSpinel buf))) as He.
  rewrite zlen_sealed in He.
  assert (zlen w <= 4096) by (unfold w; rewrite zlen_frame; lia).
  destruct (Z.leb_spec (0 + zlen w) (MAX_FRAME_SIZE * 2)); [done|].
  unfold MAX_FRAME_SIZE in *. lia.
Qed.

(** ** Safety of the receive loop *)

(** The loop invariant: the CRC register is initialised and the stored bytes
    fit in half of the buffer. *)
Definition rx_ok (st : hdlc_rx) : Prop :=
  is_Some (fcs st) /\ zlen (payload st) <= MAX_FRAME_SIZE.

Definition rx_step_ok (s : rx_step) : Prop :=
  match s with Continue st | Break st => rx_ok st end.

Lemma rx_reset_ok : rx_ok rx_reset.
Proof. split; [done|cbv; congruence]. Qed.

Lemma continue_reset_ok :
  exists s, Ret (Continue rx_reset) = Ret s /\ rx_step_ok s.
Proof. eexists. split; [done|]. apply rx_reset_ok. Qed.

Lemma rx_append_ok st c :
  is_Some (fcs st) -> zlen (payload st) < MAX_FRAME_SIZE ->
  exists s, rx_append st c = Ret s /\ rx_step_ok s.
Proof.
  intros [f Hf] Hp. rewrite (rx_append_short st c f) by done.
  eexists. split; [done|]. split; [done|]. simpl. rewrite zlen_app.
  change (zlen [c]) with 1. lia.
Qed.

Lemma rx_flag_ok st : rx_ok st -> exists s, rx_flag st = Ret s /\ rx_step_ok s.
Proof.
  intros [[f Hf] Hp]. unfold rx_flag. rewrite Hf.
  destruct (zlen (payload st) <=? 2); [apply continue_reset_ok|].
  destruct (negb (f =? kHdlcCrcCheckValue)); [apply continue_reset_ok|].
  eexists. split; [done|]. split; [done|]. cbn [payload]. unfold zlen in *.
  rewrite length_take. lia.
Qed.

Lemma rx_byte_ok st c : rx_ok st -> exists s, rx_byte st c = Ret s /\ rx_step_ok s.
Proof.
  intros Hst. pose proof Hst as [Hf Hp]. unfold rx_byte.
  destruct (Z.leb_spec MAX_FRAME_SIZE (zlen (payload st))).
  { apply rx_append_ok; [done|]. cbv. done. }
  destruct (c =? HDLC_BYTE_FLAG); [by apply rx_flag_ok|].
  destruct (c =? HDLC_BYTE_ESC); [by eexists|].
  destruct (hdlc_byte_needs_escape c); [by eexists|].
  destruct (unescape_next_byte st); by apply rx_append_ok.
Qed.

Lemma rx_loop_ok input st :
  rx_ok st -> exists st' rest, rx_loop st input = Ret (st', rest) /\ rx_ok st'.
Proof.
  revert st. induction input as [|c input IH]; intros st Hst; simpl; [eauto|].
  destruct (rx_byte_ok st c Hst) as (s & -> & Hs). simpl.
  destruct s; simpl in Hs; eauto.
Qed.

(** One byte of input adds at most one byte to the payload. *)
Lemma rx_byte_grows st c s :
  rx_byte st c = Ret s ->
  zlen (payload (match s with Continue st' => st' | Break st' => st' end)) <=
    (if MAX_FRAME_SIZE <=? zlen (payload st) then 0 else zlen (payload st)) + 1.
Proof.
  pose proof (zlen_nonneg (payload st)).
  assert (forall st' b, rx_append st' b = Ret s ->
    zlen (payload (match s with Continue x => x | Break x => x end)) = zlen (payload st') + 1)
    as Happ.
  { intros st' b. unfold rx_append. destruct (fcs st'); [|done].
    destruct (_ <? _); [|done]. intros [= <-]. cbn [payload]. by rewrite zlen_app. }
  unfold rx_byte. destruct (MAX_FRAME_SIZE <=? _).
  { intros E%Happ. rewrite E. cbv. congruence. }
  destruct (c =? HDLC_BYTE_FLAG).
  { unfold rx_flag. destruct (_ <=? 2); [intros [= <-]; cbn [payload rx_reset]; unfold zlen; simpl; lia|].
    destruct (fcs st) as [f|]; [|done].
    destruct (negb _); intros [= <-]; cbn [payload rx_reset]; unfold zlen in *;
      rewrite ?length_take; simpl; lia. }
  destruct (c =? HDLC_BYTE_ESC); [intros [= <-]; cbn [payload]; lia|].
  destruct (hdlc_byte_needs_escape c); [intros [= <-]; cbn [payload]; lia|].
  destruct (unescape_next_byte st); intros E%Happ; rewrite E; cbn [payload]; lia.
Qed.

Lemma rx_loop_grows input st st' rest :
  rx_loop st input = Ret (st', rest) -> zlen (payload st') <= zlen (payload st) + zlen input.
Proof.
  revert st. induction input as [|c input IH]; intros st; cbn [rx_loop].
  { intros [= <- _]. unfold zlen. simpl. lia. }
  pose proof (zlen_nonneg (payload st)). pose proof (zlen_nonneg input).
  replace (zlen (c :: input)) with (zlen input + 1) by (unfold zlen; simpl; lia).
  destruct (rx_byte st c) as [s| |] eqn:E; [|done..].
  apply rx_byte_grows in E. cbn [mbind outcome_bind].
  assert ((if MAX_FRAME_SIZE <=? zlen (payload st) then 0 else zlen (payload st)) <=
          zlen (payload st)) by (destruct (_ <=? _); lia).
  destruct s; [intros Hl%IH|intros [= -> _]]; lia.
Qed.

(** A frame of 2048 bytes or more is dropped at the 2048th: what is received
    after it has no more bytes than the rest of the wire. *)
Lemma rx_loop_long st raw :
  zlen (payload st) <= 2 -> MAX_FRAME_SIZE <= zlen raw ->
  exists st' rest, rx_loop st (frame_of raw) = Ret (st', rest) /\
    zlen (payload st') <= MAX_FRAME_SIZE /\
    zlen (payload st') <= 2 * (zlen raw - MAX_FRAME_SIZE) + 1.
Proof.
  intros Hp Hr. destruct st as [u p f]. cbn [payload] in Hp.
  assert (rx_loop (Rx u p f) (frame_of raw) =
    rx_loop (Rx false (take 2048 raw) (Some (fcs_of (take 2048 raw))))
      (escaped (drop 2048 raw) ++ [HDLC_BYTE_FLAG])) as E.
  { unfold frame_of. cbn [rx_loop]. rewrite rx_byte_flag by (unfold MAX_FRAME_SIZE; lia).
    unfold rx_flag at 1. cbn [payload].
    destruct (Z.leb_spec (zlen p) 2); [|lia]. cbn [mbind outcome_bind].
    rewrite <- (take_drop 2048 raw) at 1. rewrite escaped_app, <- app_assoc.
    unfold rx_reset. rewrite rx_loop_escaped; [done|].
    unfold zlen, MAX_FRAME_SIZE. rewrite length_take. cbn [length]. lia. }
  assert (zlen (take 2048 raw) = 2048) as Ht
    by (unfold zlen, MAX_FRAME_SIZE in *; rewrite length_take; lia).
  destruct (rx_loop_ok (escaped (drop 2048 raw) ++ [HDLC_BYTE_FLAG])
    (Rx false (take 2048 raw) (Some (fcs_of (take 2048 raw)))))
    as (st' & rest & E' & Hok).
  { split; [done|]. cbn [payload]. unfold MAX_FRAME_SIZE. lia. }
  exists st', rest. rewrite E, E'. destruct Hok as [_ Hb]. split_and!; [done|done|].
  assert (zlen (escaped (drop 2048 raw)) <= 2 * (zlen raw - MAX_FRAME_SIZE)) as Hd.
  { pose proof (zlen_escaped (drop 2048 raw)) as He.
    unfold zlen, MAX_FRAME_SIZE in *. rewrite length_drop in He. lia. }
  revert E' Hd. destruct (escaped (drop 2048 raw)) as [|c l]; cbn [app rx_loop]; intros E' Hd;
    (destruct (rx_byte _ _) as [s| |] eqn:Eb; [|done..]); apply rx_byte_grows in Eb;
    cbn [mbind outcome_bind payload] in *; rewrite Ht in Eb; cbn [Z.leb] in Eb;
    change (MAX_FRAME_SIZE <=? 2048) with true in Eb; cbn match in Eb.
  - destruct s; simpl in E'; inversion E'; subst; unfold MAX_FRAME_SIZE in *; lia.
  - unfold zlen in Hd. cbn [length] in Hd. destruct s.
    + apply rx_loop_grows in E'. rewrite zlen_app in E'. unfold zlen in *. simpl in *. lia.
    + inversion E'; subst. lia.
Qed.

(** ** Properties *)

(** C1: a content of up to 2045 bytes (after the NLI marker is dropped for a
    non-spinel transport) is encoded to a frame, and decoding that frame
    returns the content and its length.  The limit is that of the receiver,
    which starts afresh at the 2048th byte of a frame: when the encoder
    accepts a longer content, decoding its frame returns something else, of
    at most 2048 bytes. *)
Theorem hdlc_roundtrip isSpinel buf :
  0 < zlen buf ->
  let d := data_of isSpinel buf in
  (zlen d <= 2045 ->
    exists frame, hdlc_encode true true isSpinel buf = Ret (Some frame, zlen frame) /\
      hdlc_decode true true frame = Ret (Some d, zlen d)) /\
  (2045 < zlen d -> forall frame n,
    hdlc_encode true true isSpinel buf = Ret (Some frame, n) ->
    exists r, hdlc_decode true true frame = Ret (Some r, zlen r) /\ zlen r <= 2048 /\ r <> d).
Proof.
  intros H0 d. split.
  - intros H. eexists. split; [by apply encode_short|]. fold d. unfold hdlc_decode.
    destruct (decide (zlen d = 0)) as [E|E].
    { unfold zlen in E. destruct d; [done|simpl in E; lia]. }
    pose proof (zlen_nonneg d).
    rewrite <- (app_nil_r (frame_of _)), rx_loop_wire by (simpl; done || lia). done.
  - intros H frame n. rewrite hdlc_encode_emit by done. fold d. unfold emit. simpl app.
    destruct (_ <=? _); [|done]. intros [= <- _]. unfold hdlc_decode.
    destruct (rx_loop_long (Rx false [] None) (sealed d)) as (st & rest & -> & H1 & H2).
    { cbv. congruence. }
    { rewrite zlen_sealed. unfold MAX_FRAME_SIZE. lia. }
    exists (payload st). split_and!; [done|done|]. intros E. rewrite zlen_sealed in H2.
    rewrite E in H1, H2. unfold MAX_FRAME_SIZE in *. lia.
Qed.

Lemma hdlc_roundtrip_witness :
  let d := [0x7E; 0x11; 5] in
  (zlen d <= 2045 ->
    exists frame, hdlc_encode true true false (0x40 :: d) = Ret (Some frame, zlen frame) /\
      hdlc_decode true true frame = Ret (Some d, zlen d)) /\
  (2045 < zlen d -> forall frame n,
    hdlc_encode true true false (0x40 :: d) = Ret (Some frame, n) ->
    exists r, hdlc_decode true true frame = Ret (Some r, zlen r) /\ zlen r <= 2048 /\ r <> d).
Proof. apply (hdlc_roundtrip false [0x40; 0x7E; 0x11; 5]). byte_const || done. Defined.

(** A content of 2046 bytes is encoded, and one byte comes back: the closing
    flag. *)
Example hdlc_long_content :
  (r ← hdlc_encode true true true (replicate 2046 0);
   match fst r with
   | Some frame => hdlc_decode true true frame
   | None => Ret (None, 0)
   end) = Ret (Some [HDLC_BYTE_FLAG], 1).
Proof. vm_compute. reflexivity. Qed.

(** Pulling [n] frames off the descriptor in a row. *)
Fixpoint pull_n (n : nat) (fd : list Z) : outcome (list (option (list Z)) * list Z) :=
  match n with
  | O => Ret ([], fd)
  | S n =>
      '(r, _, rest) ← pull_hdlc true true fd;
      '(rs, rest) ← pull_n n rest;
      Ret (r :: rs, rest)
  end.

Lemma pull_wire d rest :
  0 < zlen d <= 2045 ->
  pull_hdlc true true (frame_of (sealed d) ++ rest) = Ret (Some d, zlen d, rest).
Proof.
  intros. unfold pull_hdlc. rewrite rx_loop_wire by (done || lia). cbn [payload mbind outcome_bind].
  destruct (Z.eqb_spec (zlen d) 0); [lia|done].
Qed.

(** when the encoder's frames for a list of messages (of 1 to 2045 bytes)
    arrive back to back on the descriptor, successive calls of [pull_hdlc]
    return those messages in order and leave the bytes behind them unread. *)
Theorem pull_hdlc_stream bufs frames rest :
  Forall (fun b => 0 < zlen b <= 2045) bufs ->
  Forall2 (fun b f => hdlc_encode true true true b = Ret (Some f, zlen f)) bufs frames ->
  pull_n (length bufs) (concat frames ++ rest) = Ret (Some <$> bufs, rest).
Proof.
  intros Hb Hf. induction Hf as [|b f bufs frames E Hf IH]; [done|].
  apply Forall_cons_iff in Hb as [Hb1 Hb2].
  assert (f = frame_of (sealed b)) as ->.
  { pose proof (encode_short true b ltac:(lia) ltac:(simpl; lia)) as E'.
    simpl in E'. congruence. }
  cbn [length concat]. rewrite <- app_assoc. cbn [pull_n].
  rewrite pull_wire by done. cbn [mbind outcome_bind]. rewrite (IH Hb2). done.
Qed.

Lemma pull_hdlc_stream_witness :
  pull_n 2 (concat [frame_of (sealed [0x7E]); frame_of (sealed [1; 2])] ++ [9])
  = Ret (Some <$> [[0x7E]; [1; 2]], [9]).
Proof.
  apply (pull_hdlc_stream [[0x7E]; [1; 2]]
           [frame_of (sealed [0x7E]); frame_of (sealed [1; 2])]).
  - repeat constructor; cbv; congruence || done.
  - repeat constructor; vm_compute; reflexivity.
Defined.

(** The CRC detects every corruption of a single byte of a frame: replacing
    one byte of the content (data or CRC) of an encoded message by another byte
    makes [pull_hdlc] discard the frame. *)
Theorem pull_hdlc_detects_corruption data p a s b :
  zlen data <= 2045 -> is_bytes (sealed data) -> is_byte b ->
  sealed data = p ++ a :: s -> a <> b ->
  pull_hdlc true true (frame_of (p ++ b :: s)) = Ret (None, 0, []).
Proof.
  intros Hl Hs Hb E Hab.
  assert (zlen (p ++ b :: s) = zlen data + 2) as Hz.
  { rewrite <- zlen_sealed, E, !zlen_app. done. }
  assert (is_byte a) as Ha.
  { unfold is_bytes in Hs. rewrite E, Forall_app, Forall_cons_iff in Hs. tauto. }
  assert (fcs_of (p ++ b :: s) <> kHdlcCrcCheckValue) as Hc.
  { rewrite <- (sealed_check data), E. unfold fcs_of. rewrite !fcs_of_app.
    cbn [foldl]. intros Ec. apply Hab. symmetry.
    apply fold_crc_inj in Ec; [|by apply crc16_u16, fcs_of_u16..].
    eapply crc16_inj_byte; eauto using fcs_of_u16. }
  unfold pull_hdlc. rewrite <- (app_nil_r (frame_of _)).
  rewrite rx_loop_frame by (simpl; unfold MAX_FRAME_SIZE; done || lia).
  apply Z.eqb_neq in Hc. rewrite Hc, andb_false_r. done.
Qed.

Lemma pull_hdlc_detects_corruption_witness :
  pull_hdlc true true (frame_of ([1] ++ 3 :: crc_bytes [1; 2])) = Ret (None, 0, []).
Proof.
  apply (pull_hdlc_detects_corruption [1; 2] [1] 2 (crc_bytes [1; 2]) 3).
  - cbv. congruence.
  - eapply (bool_decide_unpack (is_bytes _)). vm_compute. exact I.
  - byte_const.
  - reflexivity.
  - congruence.
Defined.

(** the table-driven CRC step computes the bit-serial reflected
    CRC-16/CCITT (polynomial 0x8408) of the 16-bit register and the byte. *)
Theorem hdlc_crc16_bitwise f b :
  is_u16 f -> is_byte b -> hdlc_crc16 f b = crc_byte f b.
Proof.
  intros Hf Hb. unfold crc_byte, hdlc_crc16.
  rewrite fcs_entry_bitwise by apply land_ff_byte.
  set (x := Z.lxor f b). rewrite <- (split16 x) at 2.
  rewrite crc_iter_lxor, crc_iter_shiftl. f_equal. unfold x.
  rewrite Z.shiftr_lxor, (shiftr8_of_byte b) by done. symmetry. apply Z.lxor_0_r.
Qed.

Lemma hdlc_crc16_bitwise_witness : hdlc_crc16 0xffff 0x31 = crc_byte 0xffff 0x31.
Proof. apply hdlc_crc16_bitwise; byte_const || done. Defined.

(** the encoder's exact behaviour on every non-empty input: it returns the
    frame of the data and its CRC when that frame fits in the 4096-byte
    scratch buffer, and otherwise writes past the buffer; inputs of at most
    2045 data bytes always fit. *)
Theorem hdlc_encode_exact isSpinel buf :
  0 < zlen buf ->
  let frame := frame_of (sealed (data_of isSpinel buf)) in
  hdlc_encode true true isSpinel buf =
    (if zlen frame <=? 4096 then Ret (Some frame, zlen frame) else Undef OutOfBounds) /\
  (zlen (data_of isSpinel buf) <= 2045 -> zlen frame <= 4096).
Proof.
  intros H0 frame. split.
  - rewrite hdlc_encode_emit by done. fold frame. unfold emit.
    change (zlen []) with 0. rewrite Z.add_0_l. change (MAX_FRAME_SIZE * 2) with 4096.
    by destruct (zlen frame <=? 4096).
  - intros. unfold frame. rewrite zlen_frame.
    pose proof (zlen_escaped (sealed (data_of isSpinel buf))) as He.
    rewrite zlen_sealed in He. lia.
Qed.

Lemma hdlc_encode_exact_witness :
  let frame := frame_of (sealed (data_of true [1])) in
  hdlc_encode true true true [1] =
    (if zlen frame <=? 4096 then Ret (Some frame, zlen frame) else Undef OutOfBounds) /\
  (zlen (data_of true [1]) <= 2045 -> zlen frame <= 4096).
Proof. apply (hdlc_encode_exact true [1]). cbv. reflexivity. Defined.

Lemma escaped_flags n :
  escaped (replicate n HDLC_BYTE_FLAG) =
  concat (replicate n [HDLC_BYTE_ESC; Z.lxor HDLC_BYTE_FLAG HDLC_ESCAPE_XFORM]).
Proof. induction n; [done|]. unfold escaped in *. simpl. by rewrite IHn. Qed.

Lemma zlen_escaped_flags n : zlen (escaped (replicate n HDLC_BYTE_FLAG)) = 2 * Z.of_nat n.
Proof.
  rewrite escaped_flags. induction n; [done|]. simpl. unfold zlen in *. simpl. lia.
Qed.

(** the length check of the transmit path (2176 bytes) does not keep the
    encoder within its buffer: for every length from 2047 bytes on there is an
    input on which the encoder writes out of bounds. *)
Theorem hdlc_encode_overflow n :
  (2047 <= n)%nat ->
  hdlc_encode true true true (replicate n HDLC_BYTE_FLAG) = Undef OutOfBounds.
Proof.
  intros Hn. rewrite hdlc_encode_emit by (unfold zlen; rewrite length_replicate; lia).
  unfold emit, data_of. change (zlen []) with 0. rewrite Z.add_0_l, zlen_frame.
  unfold sealed. rewrite escaped_app, zlen_app, zlen_escaped_flags.
  pose proof (zlen_escaped (crc_bytes (replicate n HDLC_BYTE_FLAG))) as Hc.
  change (zlen (crc_bytes _)) with 2 in Hc.
  rewrite (proj2 (Z.leb_gt _ _)) by (unfold MAX_FRAME_SIZE; lia). done.
Qed.

Lemma hdlc_encode_overflow_witness :
  hdlc_encode true true true (replicate 2176 HDLC_BYTE_FLAG) = Undef OutOfBounds.
Proof. apply hdlc_encode_overflow. lia. Defined.

(** neither receive function checks that a frame was completed: on input
    that ends before the closing flag both return the bytes received so far as
    if they were a decoded frame, whatever the CRC. *)
Theorem hdlc_truncated_accepted raw :
  0 < zlen raw <= 2048 ->
  hdlc_decode true true (HDLC_BYTE_FLAG :: escaped raw) = Ret (Some raw, zlen raw) /\
  pull_hdlc true true (HDLC_BYTE_FLAG :: escaped raw) = Ret (Some raw, zlen raw, []).
Proof.
  intros Hr.
  assert (forall f, rx_loop (Rx false [] f) (HDLC_BYTE_FLAG :: escaped raw) =
          Ret (Rx false raw (Some (fcs_of raw)), [])) as E.
  { intros f. cbn [rx_loop]. rewrite rx_byte_flag by done. cbn -[rx_loop].
    rewrite <- (app_nil_r (escaped raw)).
    apply (rx_loop_escaped raw [] kHdlcCrcResetValue []).
    change (zlen (@nil Z)) with 0. unfold MAX_FRAME_SIZE. lia. }
  unfold hdlc_decode, pull_hdlc. rewrite !E. cbn [payload mbind outcome_bind].
  rewrite (proj2 (Z.eqb_neq (zlen raw) 0)) by lia. done.
Qed.

Lemma hdlc_truncated_accepted_witness :
  hdlc_decode true true (HDLC_BYTE_FLAG :: escaped [1; 2]) = Ret (Some [1; 2], zlen [1; 2]) /\
  pull_hdlc true true (HDLC_BYTE_FLAG :: escaped [1; 2]) = Ret (Some [1; 2], zlen [1; 2], []).
Proof. apply (hdlc_truncated_accepted [1; 2]). cbv. split; congruence || done. Defined.

(** memory safety of [pull_hdlc]: on every byte sequence it returns, with
    a result of at most 2048 bytes, and never touches memory outside its
    buffer or an uninitialised CRC register. *)
Theorem pull_hdlc_safe malloc1 malloc2 fd :
  exists r n rest, pull_hdlc malloc1 malloc2 fd = Ret (r, n, rest) /\ 0 <= n <= 2048 /\
    match r with Some l => zlen l = n /\ 0 < n | None => n = 0 end.
Proof.
  unfold pull_hdlc. destruct malloc1; [|by do 3 eexists].
  destruct (rx_loop_ok fd (Rx false [] (Some 0))) as (st & rest & -> & [_ Hp]).
  { split; [done|]. cbv. congruence. }
  pose proof (zlen_nonneg (payload st)). unfold MAX_FRAME_SIZE in Hp.
  cbn [mbind outcome_bind].
  destruct (Z.eqb_spec (zlen (payload st)) 0); [by do 3 eexists|].
  destruct malloc2; do 3 eexists; (split; [done|]); (split; [lia|]); [|done].
  split; [done|lia].
Qed.

(** [hdlc_decode] reads the uninitialised CRC register on every input whose
    first byte is an ordinary data byte instead of a flag. *)
Theorem hdlc_decode_uninitialised b rest :
  hdlc_byte_needs_escape b = false ->
  hdlc_decode true true (b :: rest) = Undef Uninitialised.
Proof.
  intros Hb. unfold hdlc_decode. cbn [rx_loop]. unfold rx_byte. simpl.
  destruct (no_escape_neq b Hb) as [-> ->]. by rewrite Hb.
Qed.

Lemma hdlc_decode_uninitialised_witness :
  hdlc_decode true true [0x41; 0x7E] = Undef Uninitialised.
Proof. apply hdlc_decode_uninitialised. reflexivity. Defined.

End Hdlc.
