(* ===== verification/Fifo.v ===== *)
(** * The item FIFO (gateway_common/src/fifo.c)

    A ring buffer of [fifo_depth] items of [item_size] bytes, with optional
    semaphores counting insertions and removals.  The file models every public
    operation of fifo.c, relates the ring to the queue of bytes it holds
    ([contents]), and models a producer and a consumer thread that interleave the
    single accesses to the fields of the structure and the operations on its mutex.

    The debug name of a FIFO is not modelled.  Handles: [None] is the handle 0,
    [Some f] points to the structure [f]; a destroyed FIFO is a structure whose
    [test_ptr] no longer matches. *)

From Stdlib Require Import ZArith Lia.
From stdpp Require Import base list option numbers.
From S2P Require Import Prelude.

Open Scope Z_scope.

Module Fifo.

(** ** Data *)

Record fifo : Type := MkFifo {
  test_ptr_ok : bool;      (* test_ptr == &fifo_check *)
  pBuf : list Z;
  item_size : Z;
  fifo_depth : Z;
  cnt : Z;
  wr_idx : Z;
  rd_idx : Z;
  mutex : bool;            (* mutex handle is non zero *)
  in_sem : option Z;       (* count of the insert semaphore, if any *)
  rm_sem : option Z        (* count of the remove semaphore, if any *)
}.

#[export] Instance fifo_eq_dec : EqDecision fifo.
Proof. solve_decision. Defined.

(** The structure after [memset] zeroed it. *)
Definition fifo_zero : fifo := MkFifo false [] 0 0 0 0 0 false None None.

Definition set_cnt_wr (f : fifo) (c w : Z) (s : option Z) : fifo :=
  MkFifo (test_ptr_ok f) (pBuf f) (item_size f) (fifo_depth f) c w (rd_idx f)
         (mutex f) s (rm_sem f).
Definition set_cnt_rd (f : fifo) (c r : Z) (s : option Z) : fifo :=
  MkFifo (test_ptr_ok f) (pBuf f) (item_size f) (fifo_depth f) c (wr_idx f) r
         (mutex f) (in_sem f) s.
Definition set_buf (f : fifo) (b : list Z) : fifo :=
  MkFifo (test_ptr_ok f) b (item_size f) (fifo_depth f) (cnt f) (wr_idx f) (rd_idx f)
         (mutex f) (in_sem f) (rm_sem f).

(** [h2f]: a handle is valid when it is non-zero and its check pointer matches. *)
Definition h2f (h : option fifo) : option fifo :=
  match h with
  | Some pF => if test_ptr_ok pF then Some pF else None
  | None => None
  end.

(** ** Operations *)

(** The allocations of [FIFO_create] that can fail. *)
Record create_env : Type := CreateEnv {
  calloc_struct : bool;
  calloc_buf : bool;
  mutex_created : bool;
  in_sem_created : bool;
  rm_sem_created : bool
}.

Definition FIFO_create (e : create_env) (size depth : Z) (use_mutex : bool)
  : option fifo :=
  if negb (calloc_struct e) then None
  else if negb (calloc_buf e && (depth * size <? 2 ^ 64)) then None
  else
    let buf := replicate (Z.to_nat (depth * size)) 0 in
    if use_mutex then
      if mutex_created e && in_sem_created e && rm_sem_created e
      then Some (MkFifo true buf size depth 0 0 0 true (Some 0) (Some 0))
      else None
    else Some (MkFifo true buf size depth 0 0 0 false None None).

(** What the structure a handle points to holds after [FIFO_destroy]. *)
Definition FIFO_destroy (h : option fifo) : option fifo :=
  match h2f h with
  | None => h
  | Some _ => Some fifo_zero
  end.

Definition FIFO_getSpaceAvail (h : option fifo) : Z :=
  match h2f h with
  | None => 0
  | Some pF => int32 (u64 (fifo_depth pF - cnt pF))
  end.

Definition FIFO_getItemsAvail (h : option fifo) : Z :=
  match h2f h with
  | None => 0
  | Some pF => int32 (cnt pF)
  end.

(** The set-up operations return (r, offset of *ppMem in pBuf, count, size);
    the offset is [None] for a NULL pointer. *)
Definition FIFO_insertDMA_setup (h : option fifo) : Z * option Z * Z * Z :=
  match h2f h with
  | None => (-1, None, 0, 0)
  | Some pF =>
      let c :=
        if cnt pF =? fifo_depth pF then 0
        else if rd_idx pF <=? wr_idx pF then u64 (fifo_depth pF - wr_idx pF)
        else u64 (rd_idx pF - wr_idx pF) in
      (0, Some (u64 (wr_idx pF * item_size pF)), c, item_size pF)
  end.

Definition FIFO_removeDMA_setup (h : option fifo) : Z * option Z * Z * Z :=
  match h2f h with
  | None => (-1, None, 0, 0)
  | Some pF =>
      let c :=
        if cnt pF =? 0 then 0
        else if rd_idx pF <? wr_idx pF then u64 (wr_idx pF - rd_idx pF)
        else u64 (fifo_depth pF - rd_idx pF) in
      (0, Some (u64 (rd_idx pF * item_size pF)), c, item_size pF)
  end.

(** C's [%] on [size_t]; a zero divisor is undefined. *)
Definition size_mod (a b : Z) : outcome Z :=
  if b =? 0 then Undef DivByZero else Ret (u64 a mod b).

Definition FIFO_insertDMA_update (h : option fifo) (n_items : Z)
  : outcome (option fifo) :=
  match h2f h with
  | None => Ret h
  | Some pF =>
      w ← size_mod (wr_idx pF + n_items) (fifo_depth pF);
      Ret (Some (set_cnt_wr pF (u64 (cnt pF + n_items)) w (Z.succ <$> in_sem pF)))
  end.

Definition FIFO_removeDMA_update (h : option fifo) (actual : Z)
  : outcome (option fifo) :=
  match h2f h with
  | None => Ret h
  | Some pF =>
      r ← size_mod (rd_idx pF + actual) (fifo_depth pF);
      Ret (Some (set_cnt_rd pF (u64 (cnt pF - actual)) r (Z.succ <$> rm_sem pF)))
  end.

Section Blocking.

(** [SEMAPHORE_waitWithTimeout] and what the other threads of the process do
    to the FIFO while this thread waits: the result of the wait, the FIFO
    afterwards and the environment's next state. *)
Context {E : Type}.
Variable wait : fifo -> E -> Z * fifo * E.

(** The loop of [FIFO_insertWithTimeout]; [pData] is the data not yet copied. *)
Fixpoint insert_loop (fuel : nat) (timeout : Z) (pF : fifo) (e : E)
  (pData : list Z) (n_todo n_done : Z) : outcome (Z * fifo * E) :=
  match fuel with
  | O => NoFuel
  | S fuel =>
      let n_remain := u64 (n_todo - n_done) in
      if n_remain =? 0 then Ret (int32 n_done, pF, e)
      else
        let '(_, pMem, n_this, size) := FIFO_insertDMA_setup (Some pF) in
        if n_this =? 0 then
          if timeout =? 0 then Ret (int32 n_done, pF, e)
          else match rm_sem pF with
               | None => Ret (int32 n_done, pF, e)
               | Some _ =>
                   let '(r, pF, e) := wait pF e in
                   if 0 <? r then insert_loop fuel timeout pF e pData n_todo n_done
                   else Ret (int32 n_done, pF, e)
               end
        else
          let n_this := if n_remain <? n_this then n_remain else n_this in
          let n_bytes := u64 (size * n_this) in
          off ← deref pMem;
          d ← mem_read pData 0 n_bytes;
          buf ← mem_write (pBuf pF) off d;
          h ← FIFO_insertDMA_update (Some (set_buf pF buf)) n_this;
          pF ← deref h;
          insert_loop fuel timeout pF e (drop (Z.to_nat n_bytes) pData)
                      n_todo (u64 (n_done + n_this))
  end.

Definition FIFO_insertWithTimeout (fuel : nat) (h : option fifo) (e : E)
  (pData : list Z) (n_todo timeout_mSecs : Z) : outcome (Z * option fifo * E) :=
  match h2f h with
  | None => Ret (-1, h, e)
  | Some pF =>
      '(r, pF, e) ← insert_loop fuel timeout_mSecs pF e pData n_todo 0;
      Ret (r, Some pF, e)
  end.

(** The loop of [FIFO_removeWithTimeout]; [out] is what was copied to [pData]. *)
Fixpoint remove_loop (fuel : nat) (timeout : Z) (pF : fifo) (e : E)
  (out : list Z) (n_todo n_done : Z) : outcome (Z * list Z * fifo * E) :=
  match fuel with
  | O => NoFuel
  | S fuel =>
      let n_this := u64 (n_todo - n_done) in
      if n_this =? 0 then Ret (int32 n_done, out, pF, e)
      else
        let '(_, pMem, n_avail, size) := FIFO_removeDMA_setup (Some pF) in
        if n_avail =? 0 then
          if timeout =? 0 then Ret (int32 n_done, out, pF, e)
          else match in_sem pF with
               | None => Ret (int32 n_done, out, pF, e)
               | Some _ =>
                   let '(r, pF, e) := wait pF e in
                   if 0 <? r then remove_loop fuel timeout pF e out n_todo n_done
                   else Ret (int32 n_done, out, pF, e)
               end
        else
          let n_this := if n_avail <? n_this then n_avail else n_this in
          let n_bytes := u64 (size * n_this) in
          off ← deref pMem;
          d ← mem_read (pBuf pF) off n_bytes;
          h ← FIFO_removeDMA_update (Some pF) n_this;
          pF ← deref h;
          remove_loop fuel timeout pF e (out ++ d) n_todo (u64 (n_done + n_this))
  end.

Definition FIFO_removeWithTimeout (fuel : nat) (h : option fifo) (e : E)
  (n_todo timeout_mSecs : Z) : outcome (Z * list Z * option fifo * E) :=
  match h2f h with
  | None => Ret (-1, [], h, e)
  | Some pF =>
      '(r, out, pF, e) ← remove_loop fuel timeout_mSecs pF e [] n_todo 0;
      Ret (r, out, Some pF, e)
  end.

(** [FIFO_waitForInsert] and [FIFO_waitForRemove]. *)
Definition FIFO_waitForInsert (h : option fifo) (e : E) : Z * option fifo * E :=
  match h2f h with
  | None => (-1, h, e)
  | Some pF =>
      match in_sem pF with
      | None => (1, h, e)
      | Some _ => let '(r, pF, e) := wait pF e in (r, Some pF, e)
      end
  end.

Definition FIFO_waitForRemove (h : option fifo) (e : E) : Z * option fifo * E :=
  match h2f h with
  | None => (-1, h, e)
  | Some pF =>
      match rm_sem pF with
      | None => (1, h, e)
      | Some _ => let '(r, pF, e) := wait pF e in (r, Some pF, e)
      end
  end.

End Blocking.

(** A wait that is never reached (the non-blocking operations pass timeout 0). *)
Definition no_wait (pF : fifo) (e : unit) : Z * fifo * unit := (0, pF, e).

(** Three rounds are enough without blocking: up to the end of the buffer, up
    to the other index, and the round that finds nothing left to do. *)
Definition FIFO_insert (h : option fifo) (pData : list Z) (n_todo : Z)
  : outcome (Z * option fifo) :=
  '(r, h, _) ← FIFO_insertWithTimeout no_wait 3 h tt pData n_todo 0; Ret (r, h).

Definition FIFO_remove (h : option fifo) (n_todo : Z)
  : outcome (Z * list Z * option fifo) :=
  '(r, out, h, _) ← FIFO_removeWithTimeout no_wait 3 h tt n_todo 0; Ret (r, out, h).

(** [FIFO_fputc]: the one-byte object [b] is the source of the copy. *)
Definition FIFO_fputc (c : Z) (h : option fifo) : outcome (Z * option fifo) :=
  '(r, h) ← FIFO_insert h [u8 c] 1;
  Ret (if r =? 1 then u8 c else -1, h).

(** [FIFO_fgetc]: the destination [b] has room for one byte. *)
Definition FIFO_fgetc (h : option fifo) : outcome (Z * option fifo) :=
  '(r, out, h) ← FIFO_remove h 1;
  if 1 <? zlen out then Undef OutOfBounds
  else if r =? 1 then b ← deref (head out); Ret (b, h)
  else Ret (-1, h).

(** ** The queue a FIFO holds *)

Definition offset (f : fifo) (i : Z) : nat := Z.to_nat (i * item_size f).

(** The [cnt] items from [rd_idx] on, wrapping at the end of the buffer. *)
Definition contents (f : fifo) : list Z :=
  slice (offset f (rd_idx f)) (offset f (cnt f)) (pBuf f ++ pBuf f).

Record fifo_wf (f : fifo) : Prop := MkWf {
  wf_check : test_ptr_ok f = true;
  wf_size : 0 <= item_size f;
  wf_depth : 0 < fifo_depth f < 2 ^ 64;
  wf_bytes : fifo_depth f * item_size f < 2 ^ 64;
  wf_buf : zlen (pBuf f) = fifo_depth f * item_size f;
  wf_cnt : 0 <= cnt f <= fifo_depth f;
  wf_rd : 0 <= rd_idx f < fifo_depth f;
  wf_wr : wr_idx f =
    if rd_idx f + cnt f <? fifo_depth f then rd_idx f + cnt f
    else rd_idx f + cnt f - fifo_depth f
}.

(** ** Ring arithmetic *)

Section Ring.
Context {A : Type}.
Implicit Types b d : list A.

Lemma ring_low b r c : (r + c <= length b)%nat -> slice r c (b ++ b) = slice r c b.
Proof.
  intros. unfold slice. rewrite drop_app_le by lia.
  rewrite take_app_le by (rewrite length_drop; lia). done.
Qed.

Lemma ring_high b w n : slice (length b + w) n (b ++ b) = slice w n b.
Proof.
  unfold slice. rewrite drop_app_ge by lia. repeat f_equal. lia.
Qed.

(** A run that crosses the end of the buffer. *)
Lemma ring_cross b r c :
  (r <= length b)%nat -> (length b <= r + c)%nat ->
  slice r c (b ++ b) = slice r (length b - r) b ++ slice 0 (r + c - length b) b.
Proof.
  intros. replace c with ((length b - r) + (r + c - length b))%nat at 1 by lia.
  rewrite slice_app. f_equal.
  - apply ring_low. lia.
  - replace (r + (length b - r))%nat with (length b + 0)%nat by lia. apply ring_high.
Qed.

(** Writing [d] in the free part right behind the [c] used elements from [r]
    extends what the ring holds by [d]. *)
Lemma ring_write b d r c w :
  (r <= length b)%nat -> (c + length d <= length b)%nat ->
  (w = r + c \/ w + length b = r + c)%nat -> (w + length d <= length b)%nat ->
  slice r (c + length d) (splice w d b ++ splice w d b) =
  slice r c (b ++ b) ++ d.
Proof.
  intros Hr Hc Hw Hd. rewrite slice_app.
  pose proof (length_splice w d b Hd) as Hl.
  destruct Hw as [Hw|Hw].
  - rewrite !ring_low by lia. subst w. rewrite slice_splice_same by lia.
    rewrite slice_splice_disjoint by lia. done.
  - f_equal.
    + rewrite !ring_cross by lia. rewrite Hl.
      rewrite !slice_splice_disjoint by lia. done.
    + rewrite <- Hw, Nat.add_comm, <- Hl, ring_high. by apply slice_splice_same.
Qed.

(** Skipping the first [n] used elements. *)
Lemma ring_skip b r c n r' :
  (r <= length b)%nat -> (n <= c <= length b)%nat ->
  (r' = r + n \/ r' + length b = r + n)%nat ->
  slice r' (c - n) (b ++ b) = drop n (slice r c (b ++ b)).
Proof.
  intros Hr Hn Hr'. replace c with (n + (c - n))%nat at 2 by lia.
  rewrite slice_app, drop_app_ge; rewrite ?length_slice by (rewrite length_app; lia); [|lia].
  rewrite Nat.sub_diag, drop_0. destruct Hr' as [-> | Hr']; [done|].
  rewrite <- Hr', Nat.add_comm, ring_high. rewrite ring_low; [done|lia].
Qed.

End Ring.

(** ** One contiguous transfer *)

Definition ins_run (f : fifo) : Z :=
  if cnt f =? fifo_depth f then 0
  else if rd_idx f <=? wr_idx f then fifo_depth f - wr_idx f
  else rd_idx f - wr_idx f.

Definition rem_run (f : fifo) : Z :=
  if cnt f =? 0 then 0
  else if rd_idx f <? wr_idx f then wr_idx f - rd_idx f
  else fifo_depth f - rd_idx f.

(** Case analysis on the ring's position, with the products the offsets need. *)
Ltac fifo_facts f H :=
  pose proof (wf_check f H); pose proof (wf_size f H); pose proof (wf_depth f H);
  pose proof (wf_bytes f H); pose proof (wf_buf f H); pose proof (wf_cnt f H);
  pose proof (wf_rd f H); pose proof (wf_wr f H).

Lemma ins_run_bounds f :
  fifo_wf f ->
  0 <= ins_run f /\ cnt f + ins_run f <= fifo_depth f /\
  0 <= wr_idx f < fifo_depth f /\ wr_idx f + ins_run f <= fifo_depth f /\
  (ins_run f = 0 -> cnt f = fifo_depth f).
Proof.
  intros H. fifo_facts f H. unfold ins_run.
  destruct (Z.ltb_spec (rd_idx f + cnt f) (fifo_depth f)),
    (Z.eqb_spec (cnt f) (fifo_depth f)), (Z.leb_spec (rd_idx f) (wr_idx f)); lia.
Qed.

Lemma rem_run_bounds f :
  fifo_wf f ->
  0 <= rem_run f <= cnt f /\ rd_idx f + rem_run f <= fifo_depth f /\
  (rem_run f = 0 -> cnt f = 0).
Proof.
  intros H. fifo_facts f H. unfold rem_run.
  destruct (Z.ltb_spec (rd_idx f + cnt f) (fifo_depth f)),
    (Z.eqb_spec (cnt f) 0), (Z.ltb_spec (rd_idx f) (wr_idx f)); lia.
Qed.

Lemma mul_range a b c : 0 <= a <= b -> 0 <= c -> 0 <= a * c <= b * c.
Proof. intros. split; [apply Z.mul_nonneg_nonneg|apply Z.mul_le_mono_nonneg_r]; lia. Qed.

Lemma insert_setup_eq f :
  fifo_wf f ->
  FIFO_insertDMA_setup (Some f) =
  (0, Some (wr_idx f * item_size f), ins_run f, item_size f).
Proof.
  intros H. pose proof (ins_run_bounds f H) as (?&?&?&?&_). fifo_facts f H.
  pose proof (mul_range (wr_idx f) (fifo_depth f) (item_size f) ltac:(lia) ltac:(lia)).
  unfold FIFO_insertDMA_setup, h2f, ins_run in *. rewrite wf_check by done.
  rewrite (u64_id (_ * _)) by lia.
  destruct (cnt f =? fifo_depth f); [done|].
  destruct (Z.leb_spec (rd_idx f) (wr_idx f)); rewrite u64_id by lia; done.
Qed.

Lemma remove_setup_eq f :
  fifo_wf f ->
  FIFO_removeDMA_setup (Some f) =
  (0, Some (rd_idx f * item_size f), rem_run f, item_size f).
Proof.
  intros H. pose proof (rem_run_bounds f H) as (?&?&_). fifo_facts f H.
  pose proof (mul_range (rd_idx f) (fifo_depth f) (item_size f) ltac:(lia) ltac:(lia)).
  unfold FIFO_removeDMA_setup, h2f, rem_run in *. rewrite wf_check by done.
  rewrite (u64_id (_ * _)) by lia.
  destruct (cnt f =? 0); [done|].
  destruct (Z.ltb_spec (rd_idx f) (wr_idx f)); rewrite u64_id by lia; done.
Qed.

(** The FIFO after [n] items [d] were copied in and [n] was committed. *)
Definition inserted (f : fifo) (n : Z) (d : list Z) : fifo :=
  set_cnt_wr (set_buf f (splice (offset f (wr_idx f)) d (pBuf f)))
    (cnt f + n) ((wr_idx f + n) mod fifo_depth f) (Z.succ <$> in_sem f).

Definition removed (f : fifo) (n : Z) : fifo :=
  set_cnt_rd f (cnt f - n) ((rd_idx f + n) mod fifo_depth f) (Z.succ <$> rm_sem f).

Lemma mod_wrap a b : 0 <= a < 2 * b -> a mod b = if a <? b then a else a - b.
Proof.
  intros. destruct (Z.ltb_spec a b); [apply Z.mod_small; lia|].
  replace a with (a - b + 1 * b) at 1 by lia. rewrite Z.mod_add by lia.
  apply Z.mod_small. lia.
Qed.

Lemma insert_update_eq f n d :
  fifo_wf f -> 0 <= n <= ins_run f ->
  FIFO_insertDMA_update (Some (set_buf f (splice (offset f (wr_idx f)) d (pBuf f)))) n
  = Ret (Some (inserted f n d)).
Proof.
  intros H Hn. pose proof (ins_run_bounds f H) as (?&?&?&?&_). fifo_facts f H.
  unfold FIFO_insertDMA_update, h2f. simpl test_ptr_ok. rewrite wf_check by done.
  simpl. unfold size_mod. rewrite (proj2 (Z.eqb_neq (fifo_depth f) 0)) by lia.
  simpl. rewrite !u64_id by lia. done.
Qed.

Lemma remove_update_eq f n :
  fifo_wf f -> 0 <= n <= rem_run f ->
  FIFO_removeDMA_update (Some f) n = Ret (Some (removed f n)).
Proof.
  intros H Hn. pose proof (rem_run_bounds f H) as (?&?&_). fifo_facts f H.
  unfold FIFO_removeDMA_update, h2f. rewrite wf_check by done.
  unfold size_mod. rewrite (proj2 (Z.eqb_neq (fifo_depth f) 0)) by lia.
  simpl. rewrite !u64_id by lia. done.
Qed.

Lemma inserted_wf f n d :
  fifo_wf f -> 0 <= n <= ins_run f -> zlen d = n * item_size f ->
  fifo_wf (inserted f n d).
Proof.
  intros H Hn Hd. pose proof (ins_run_bounds f H) as (?&?&?&?&_). fifo_facts f H.
  pose proof (mul_range (wr_idx f + n) (fifo_depth f) (item_size f) ltac:(lia) ltac:(lia)).
  pose proof (mul_range (wr_idx f) (wr_idx f + n) (item_size f) ltac:(lia) ltac:(lia)).
  constructor; simpl; try lia; [done|..].
  - unfold zlen in *. rewrite length_splice; [lia|]. unfold offset. lia.
  - rewrite mod_wrap by lia.
    destruct (Z.ltb_spec (rd_idx f + cnt f) (fifo_depth f)),
      (Z.ltb_spec (wr_idx f + n) (fifo_depth f)),
      (Z.ltb_spec (rd_idx f + (cnt f + n)) (fifo_depth f)); lia.
Qed.

Lemma inserted_contents f n d :
  fifo_wf f -> 0 <= n <= ins_run f -> zlen d = n * item_size f ->
  contents (inserted f n d) = contents f ++ d.
Proof.
  intros H Hn Hd. pose proof (ins_run_bounds f H) as (?&?&?&?&_). fifo_facts f H.
  pose proof (mul_range (wr_idx f + n) (fifo_depth f) (item_size f) ltac:(lia) ltac:(lia)).
  pose proof (mul_range (wr_idx f) (wr_idx f + n) (item_size f) ltac:(lia) ltac:(lia)).
  pose proof (mul_range (rd_idx f) (fifo_depth f) (item_size f) ltac:(lia) ltac:(lia)).
  pose proof (mul_range (cnt f) (cnt f + n) (item_size f) ltac:(lia) ltac:(lia)).
  pose proof (mul_range (cnt f + n) (fifo_depth f) (item_size f) ltac:(lia) ltac:(lia)).
  unfold contents. change (pBuf (inserted f n d)) with (splice (offset f (wr_idx f)) d (pBuf f)).
  replace (offset (inserted f n d) (cnt (inserted f n d)))
    with (offset f (cnt f) + length d)%nat
    by (unfold offset, zlen in *; simpl; lia).
  change (offset (inserted f n d) (rd_idx (inserted f n d))) with (offset f (rd_idx f)).
  unfold zlen in *. apply ring_write; unfold offset; try lia.
  destruct (Z.ltb_spec (rd_idx f + cnt f) (fifo_depth f)); [left|right]; subst; nia.
Qed.

Lemma removed_wf f n : fifo_wf f -> 0 <= n <= rem_run f -> fifo_wf (removed f n).
Proof.
  intros H Hn. pose proof (rem_run_bounds f H) as (?&?&_). fifo_facts f H.
  constructor; simpl; try lia; [done|..].
  - rewrite mod_wrap by lia. destruct (Z.ltb_spec (rd_idx f + n) (fifo_depth f)); lia.
  - rewrite mod_wrap by lia.
    destruct (Z.ltb_spec (rd_idx f + cnt f) (fifo_depth f)),
      (Z.ltb_spec (rd_idx f + n) (fifo_depth f)); try lia;
      match goal with |- context [?a <? ?b] => destruct (Z.ltb_spec a b) end; lia.
Qed.

Lemma removed_contents f n :
  fifo_wf f -> 0 <= n <= rem_run f ->
  contents (removed f n) = drop (offset f n) (contents f).
Proof.
  intros H Hn. pose proof (rem_run_bounds f H) as (?&?&_). fifo_facts f H.
  pose proof (mul_range (rd_idx f) (fifo_depth f) (item_size f) ltac:(lia) ltac:(lia)).
  pose proof (mul_range n (cnt f) (item_size f) ltac:(lia) ltac:(lia)).
  pose proof (mul_range (cnt f) (fifo_depth f) (item_size f) ltac:(lia) ltac:(lia)).
  unfold contents. change (pBuf (removed f n)) with (pBuf f).
  replace (offset (removed f n) (cnt (removed f n)))
    with (offset f (cnt f) - offset f n)%nat
    by (unfold offset; simpl; lia).
  unfold zlen in *. apply ring_skip; unfold offset; try lia. simpl.
  rewrite mod_wrap by lia.
  destruct (Z.ltb_spec (rd_idx f + n) (fifo_depth f)); [left; lia|right].
  replace (rd_idx f + n - fifo_depth f) with 0 by lia.
  assert ((rd_idx f + n) * item_size f = fifo_depth f * item_size f) by (f_equal; lia).
  lia.
Qed.

(** What a removal of [n] contiguous items reads. *)
Lemma removed_data f n :
  fifo_wf f -> 0 <= n <= rem_run f ->
  mem_read (pBuf f) (rd_idx f * item_size f) (n * item_size f) =
  Ret (take (offset f n) (contents f)).
Proof.
  intros H Hn. pose proof (rem_run_bounds f H) as (?&?&_). fifo_facts f H.
  pose proof (mul_range (rd_idx f) (rd_idx f + n) (item_size f) ltac:(lia) ltac:(lia)).
  pose proof (mul_range (rd_idx f + n) (fifo_depth f) (item_size f) ltac:(lia) ltac:(lia)).
  pose proof (mul_range n (cnt f) (item_size f) ltac:(lia) ltac:(lia)).
  pose proof (mul_range (rd_idx f) (fifo_depth f) (item_size f) ltac:(lia) ltac:(lia)).
  unfold mem_read. rewrite !(proj2 (Z.leb_le _ _)) by lia. simpl. f_equal.
  unfold contents, offset, zlen in *.
  replace (Z.to_nat (cnt f * item_size f)) with
    (Z.to_nat (n * item_size f) + Z.to_nat ((cnt f - n) * item_size f))%nat by lia.
  rewrite slice_app, ring_low by lia.
  rewrite take_app_le by (rewrite length_slice; lia).
  rewrite take_ge; [done|]. rewrite length_slice; lia.
Qed.

Lemma insert_write f n d :
  fifo_wf f -> 0 <= n <= ins_run f -> zlen d = n * item_size f ->
  mem_write (pBuf f) (wr_idx f * item_size f) d =
  Ret (splice (offset f (wr_idx f)) d (pBuf f)).
Proof.
  intros H Hn Hd. pose proof (ins_run_bounds f H) as (?&?&?&?&_). fifo_facts f H.
  pose proof (mul_range (wr_idx f + n) (fifo_depth f) (item_size f) ltac:(lia) ltac:(lia)).
  pose proof (mul_range (wr_idx f) (fifo_depth f) (item_size f) ltac:(lia) ltac:(lia)).
  unfold mem_write. rewrite !(proj2 (Z.leb_le _ _)) by lia. done.
Qed.

Lemma contents_length f : fifo_wf f -> zlen (contents f) = cnt f * item_size f.
Proof.
  intros H. fifo_facts f H.
  pose proof (mul_range (cnt f) (fifo_depth f) (item_size f) ltac:(lia) ltac:(lia)).
  pose proof (mul_range (rd_idx f) (fifo_depth f) (item_size f) ltac:(lia) ltac:(lia)).
  unfold contents, zlen, offset in *. rewrite length_slice; [lia|].
  rewrite length_app. lia.
Qed.

(** ** The transfer loops *)

Definition same_shape (f g : fifo) : Prop :=
  item_size g = item_size f /\ fifo_depth g = fifo_depth f.

Lemma same_shape_refl f : same_shape f f.
Proof. done. Qed.

Lemma same_shape_trans f g h : same_shape f g -> same_shape g h -> same_shape f h.
Proof. unfold same_shape. intros [] []. split; congruence. Qed.

(** How many rounds of the loop are left. *)
Definition ins_rounds (f : fifo) : nat :=
  if ins_run f =? 0 then 1 else if cnt f + ins_run f =? fifo_depth f then 2 else 3.
Definition rem_rounds (f : fifo) : nat :=
  if rem_run f =? 0 then 1 else if rem_run f =? cnt f then 2 else 3.

Lemma ins_rounds_inserted f d :
  fifo_wf f -> 0 < ins_run f ->
  (ins_rounds (inserted f (ins_run f) d) < ins_rounds f)%nat.
Proof.
  intros H Hr. pose proof (ins_run_bounds f H) as (?&?&?&?&_). fifo_facts f H.
  unfold ins_rounds at 2. rewrite (proj2 (Z.eqb_neq (ins_run f) 0)) by lia.
  unfold ins_rounds.
  assert (ins_run (inserted f (ins_run f) d) =
          if cnt f + ins_run f =? fifo_depth f then 0 else
          fifo_depth f - (cnt f + ins_run f)) as Ei.
  { unfold ins_run at 1. simpl. destruct (Z.eqb_spec (cnt f + ins_run f) (fifo_depth f)); [done|].
    rewrite mod_wrap by lia. revert Hr n. unfold ins_run.
    destruct (Z.ltb_spec (rd_idx f + cnt f) (fifo_depth f)),
      (Z.eqb_spec (cnt f) (fifo_depth f)), (Z.leb_spec (rd_idx f) (wr_idx f));
      try lia; intros.
    - rewrite Z.add_sub_assoc, Z.add_simpl_l.
      rewrite Z.ltb_irrefl, Z.sub_diag. destruct (Z.leb_spec (rd_idx f) 0); lia. }
  rewrite Ei. simpl. destruct (Z.eqb_spec (cnt f + ins_run f) (fifo_depth f)); [simpl; lia|].
  rewrite (proj2 (Z.eqb_neq _ 0)) by lia.
  rewrite (proj2 (Z.eqb_eq _ _)) by lia. lia.
Qed.

Lemma rem_rounds_removed f :
  fifo_wf f -> 0 < rem_run f ->
  (rem_rounds (removed f (rem_run f)) < rem_rounds f)%nat.
Proof.
  intros H Hr. pose proof (rem_run_bounds f H) as (?&?&_). fifo_facts f H.
  unfold rem_rounds at 2. rewrite (proj2 (Z.eqb_neq (rem_run f) 0)) by lia.
  unfold rem_rounds.
  assert (rem_run (removed f (rem_run f)) = cnt f - rem_run f) as Ei.
  { unfold rem_run at 1. simpl. destruct (Z.eqb_spec (cnt f - rem_run f) 0); [lia|].
    rewrite mod_wrap by lia. revert Hr n. unfold rem_run.
    destruct (Z.ltb_spec (rd_idx f + cnt f) (fifo_depth f)),
      (Z.eqb_spec (cnt f) 0), (Z.ltb_spec (rd_idx f) (wr_idx f));
      try lia; intros.
    - rewrite Z.add_sub_assoc, Z.add_simpl_l.
      rewrite Z.ltb_irrefl, Z.sub_diag. destruct (Z.ltb_spec 0 (wr_idx f)); lia. }
  rewrite Ei. simpl. destruct (Z.eqb_spec (rem_run f) (cnt f)) as [<-|].
  - rewrite Z.sub_diag. simpl. lia.
  - rewrite (proj2 (Z.eqb_neq _ 0)) by lia. rewrite Z.eqb_refl. lia.
Qed.

Lemma rounds_pos f : (1 <= ins_rounds f <= 3)%nat /\ (1 <= rem_rounds f <= 3)%nat.
Proof.
  unfold ins_rounds, rem_rounds.
  destruct (ins_run f =? 0), (rem_run f =? 0), (rem_run f =? cnt f),
    (cnt f + ins_run f =? fifo_depth f); lia.
Qed.

Section Loops.
Context {E : Type}.
Variable wait : fifo -> E -> Z * fifo * E.

Lemma insert_loop_round fuel t f e d todo done :
  fifo_wf f -> 0 <= done < todo -> todo < 2 ^ 64 -> 0 < ins_run f ->
  zlen d = (todo - done) * item_size f ->
  let k := Z.min (todo - done) (ins_run f) in
  insert_loop wait (S fuel) t f e d todo done =
  insert_loop wait fuel t (inserted f k (take (offset f k) d)) e
    (drop (offset f k) d) todo (done + k).
Proof.
  intros H Hd Ht Hr Hl k. pose proof (ins_run_bounds f H) as (?&?&?&?&_). fifo_facts f H.
  pose proof (mul_range k (fifo_depth f) (item_size f) ltac:(lia) ltac:(lia)).
  pose proof (mul_range k (todo - done) (item_size f) ltac:(lia) ltac:(lia)).
  cbn [insert_loop]. rewrite (u64_id (todo - done)) by lia.
  rewrite (proj2 (Z.eqb_neq (todo - done) 0)) by lia.
  rewrite insert_setup_eq by done. rewrite (proj2 (Z.eqb_neq (ins_run f) 0)) by lia.
  replace (if todo - done <? ins_run f then todo - done else ins_run f) with k
    by (destruct (Z.ltb_spec (todo - done) (ins_run f)); lia).
  rewrite (Z.mul_comm (item_size f)), (u64_id (k * _)) by lia.
  unfold mem_read. rewrite !(proj2 (Z.leb_le _ _)) by lia.
  cbn [andb deref mbind outcome_bind]. change (slice (Z.to_nat 0) ?n d) with (take n d).
  fold (offset f k).
  assert (zlen (take (offset f k) d) = k * item_size f) as Hk.
  { unfold zlen in *. rewrite length_take. unfold offset. lia. }
  rewrite (insert_write f k) by (done || lia).
  cbn [mbind outcome_bind]. rewrite insert_update_eq by (done || lia).
  cbn [mbind outcome_bind deref]. rewrite (u64_id (done + k)) by lia. done.
Qed.

Lemma take_take_split {A} (n m : nat) (l : list A) :
  take n l ++ take m (drop n l) = take (n + m) l.
Proof. apply take_take_drop. Qed.

Lemma insert_loop_spec fuel f d todo done e :
  fifo_wf f -> 0 <= done <= todo -> todo < 2 ^ 64 ->
  zlen d = (todo - done) * item_size f ->
  ((if decide (todo = done) then 1 else ins_rounds f) <= fuel)%nat ->
  let k := Z.min (todo - done) (fifo_depth f - cnt f) in
  exists f', insert_loop wait fuel 0 f e d todo done = Ret (int32 (done + k), f', e) /\
    fifo_wf f' /\ same_shape f f' /\ cnt f' = cnt f + k /\
    contents f' = contents f ++ take (offset f k) d.
Proof.
  revert f d done. induction fuel as [|fuel IH]; intros f d done H Hd Ht Hl Hf k.
  { pose proof (rounds_pos f). destruct (decide (todo = done)); lia. }
  pose proof (ins_run_bounds f H) as (?&?&?&?&?). fifo_facts f H.
  destruct (decide (todo = done \/ ins_run f = 0)) as [Hz|Hz].
  { exists f. cbn [insert_loop]. rewrite (u64_id (todo - done)) by lia.
    rewrite insert_setup_eq by done. assert (k = 0) as -> by lia.
    rewrite Z.add_0_r. change (offset f 0) with 0%nat. rewrite take_0, app_nil_r.
    split_and!; try done; [|lia].
    destruct (Z.eqb_spec (todo - done) 0); [done|].
    rewrite (proj2 (Z.eqb_eq (ins_run f) 0)) by lia. done. }
  rewrite insert_loop_round by (done || lia).
  set (j := Z.min (todo - done) (ins_run f)).
  pose proof (mul_range j (todo - done) (item_size f) ltac:(lia) ltac:(lia)).
  pose proof (mul_range (k - j) (todo - done) (item_size f) ltac:(lia) ltac:(lia)).
  assert (zlen (take (offset f j) d) = j * item_size f) as Hj.
  { unfold zlen in *. rewrite length_take. unfold offset. lia. }
  edestruct (IH (inserted f j (take (offset f j) d)) (drop (offset f j) d) (done + j))
    as (f' & -> & Hwf & Hs & Hc & Hct);
    [apply inserted_wf; done || lia|lia|done| | |].
  - unfold zlen in *. rewrite length_drop. simpl. unfold offset. lia.
  - rewrite decide_False in Hf by tauto. pose proof (rounds_pos f).
    assert (1 < ins_rounds f)%nat.
    { unfold ins_rounds. rewrite (proj2 (Z.eqb_neq _ 0)) by tauto. destruct (_ =? _); lia. }
    destruct (decide (todo = done + j)); [lia|].
    replace j with (ins_run f) by lia.
    pose proof (ins_rounds_inserted f (take (offset f (ins_run f)) d) H). lia.
  - simpl in Hc, Hct. exists f'. split_and!; [|done|done|lia|].
    + do 4 f_equal. simpl. lia.
    + rewrite Hct, inserted_contents, <- app_assoc by (done || lia). f_equal.
      change (offset (inserted _ _ _)) with (offset f). rewrite take_take_split.
      f_equal. unfold offset. lia.
Qed.

Lemma remove_loop_round fuel t f e out todo done :
  fifo_wf f -> 0 <= done < todo -> todo < 2 ^ 64 -> 0 < rem_run f ->
  let k := Z.min (todo - done) (rem_run f) in
  remove_loop wait (S fuel) t f e out todo done =
  remove_loop wait fuel t (removed f k) e
    (out ++ take (offset f k) (contents f)) todo (done + k).
Proof.
  intros H Hd Ht Hr k. pose proof (rem_run_bounds f H) as (?&?&_). fifo_facts f H.
  pose proof (mul_range k (fifo_depth f) (item_size f) ltac:(lia) ltac:(lia)).
  cbn [remove_loop]. rewrite (u64_id (todo - done)) by lia.
  rewrite (proj2 (Z.eqb_neq (todo - done) 0)) by lia.
  rewrite remove_setup_eq by done. rewrite (proj2 (Z.eqb_neq (rem_run f) 0)) by lia.
  replace (if rem_run f <? todo - done then rem_run f else todo - done) with k
    by (destruct (Z.ltb_spec (rem_run f) (todo - done)); lia).
  rewrite (Z.mul_comm (item_size f)), (u64_id (k * _)) by lia.
  cbn [deref mbind outcome_bind]. rewrite removed_data by (done || lia).
  cbn [mbind outcome_bind]. rewrite remove_update_eq by (done || lia).
  cbn [mbind outcome_bind deref]. rewrite (u64_id (done + k)) by lia. done.
Qed.

Lemma remove_loop_spec fuel f out todo done e :
  fifo_wf f -> 0 <= done <= todo -> todo < 2 ^ 64 ->
  ((if decide (todo = done) then 1 else rem_rounds f) <= fuel)%nat ->
  let k := Z.min (todo - done) (cnt f) in
  exists f', remove_loop wait fuel 0 f e out todo done =
      Ret (int32 (done + k), out ++ take (offset f k) (contents f), f', e) /\
    fifo_wf f' /\ same_shape f f' /\ cnt f' = cnt f - k /\
    contents f' = drop (offset f k) (contents f).
Proof.
  revert f out done. induction fuel as [|fuel IH]; intros f out done H Hd Ht Hf k.
  { pose proof (rounds_pos f). destruct (decide (todo = done)); lia. }
  pose proof (rem_run_bounds f H) as (?&?&?). fifo_facts f H.
  destruct (decide (todo = done \/ rem_run f = 0)) as [Hz|Hz].
  { exists f. cbn [remove_loop]. rewrite (u64_id (todo - done)) by lia.
    rewrite remove_setup_eq by done. assert (k = 0) as -> by lia.
    rewrite Z.add_0_r. change (offset f 0) with 0%nat. rewrite take_0, app_nil_r, drop_0.
    split_and!; try done; [|lia].
    destruct (Z.eqb_spec (todo - done) 0); [done|].
    rewrite (proj2 (Z.eqb_eq (rem_run f) 0)) by lia. done. }
  rewrite remove_loop_round by (done || lia).
  set (j := Z.min (todo - done) (rem_run f)).
  pose proof (mul_range j (cnt f) (item_size f) ltac:(lia) ltac:(lia)).
  pose proof (mul_range (k - j) (cnt f) (item_size f) ltac:(lia) ltac:(lia)).
  edestruct (IH (removed f j) (out ++ take (offset f j) (contents f)) (done + j))
    as (f' & -> & Hwf & Hs & Hc & Hct);
    [apply removed_wf; done || lia|lia|done| |].
  - rewrite decide_False in Hf by tauto. pose proof (rounds_pos f).
    assert (1 < rem_rounds f)%nat.
    { unfold rem_rounds. rewrite (proj2 (Z.eqb_neq _ 0)) by tauto. destruct (_ =? _); lia. }
    destruct (decide (todo = done + j)); [lia|].
    replace j with (rem_run f) by lia. pose proof (rem_rounds_removed f H). lia.
  - simpl in Hc, Hct. exists f'. rewrite removed_contents in * by (done || lia).
    change (offset (removed _ _)) with (offset f) in *.
    replace (Z.min (todo - (done + j)) (cnt f - j)) with (k - j) in * by lia.
    assert (offset f k = offset f j + offset f (k - j))%nat as -> by (unfold offset; lia).
    split_and!; [|done|done|lia|].
    + rewrite <- app_assoc. simpl.
      replace (Z.min (todo - (done + j)) (cnt f - j)) with (k - j) by lia.
      rewrite take_take_split. do 5 f_equal. lia.
    + rewrite Hct, drop_drop. done.
Qed.

End Loops.

(** ** The bounded queue a FIFO implements *)

Lemma h2f_wf f : fifo_wf f -> h2f (Some f) = Some f.
Proof. intros H. unfold h2f. by rewrite (wf_check f H). Qed.

Lemma insert_spec f d n :
  fifo_wf f -> 0 <= n < 2 ^ 64 -> zlen d = n * item_size f ->
  let k := Z.min n (fifo_depth f - cnt f) in
  exists f', FIFO_insert (Some f) d n = Ret (int32 k, Some f') /\
    fifo_wf f' /\ same_shape f f' /\ cnt f' = cnt f + k /\
    contents f' = contents f ++ take (offset f k) d.
Proof.
  intros H Hn Hd k. unfold FIFO_insert, FIFO_insertWithTimeout. rewrite h2f_wf by done.
  pose proof (rounds_pos f).
  edestruct (insert_loop_spec no_wait 3 f d n 0 tt) as (f' & -> & Hf');
    [done|lia|lia|by rewrite Z.sub_0_r|destruct (decide (n = 0)); lia|].
  rewrite Z.sub_0_r in Hf'. exists f'. rewrite Z.sub_0_r. done.
Qed.

Lemma remove_spec f n :
  fifo_wf f -> 0 <= n < 2 ^ 64 ->
  let k := Z.min n (cnt f) in
  exists f', FIFO_remove (Some f) n =
      Ret (int32 k, take (offset f k) (contents f), Some f') /\
    fifo_wf f' /\ same_shape f f' /\ cnt f' = cnt f - k /\
    contents f' = drop (offset f k) (contents f).
Proof.
  intros H Hn k. unfold FIFO_remove, FIFO_removeWithTimeout. rewrite h2f_wf by done.
  pose proof (rounds_pos f).
  edestruct (remove_loop_spec no_wait 3 f [] n 0 tt) as (f' & -> & Hf');
    [done|lia|lia|destruct (decide (n = 0)); lia|].
  rewrite Z.sub_0_r in Hf'. exists f'. rewrite Z.sub_0_r. done.
Qed.

Lemma create_wf e size depth use_mutex f :
  0 <= size -> 0 < depth < 2 ^ 64 -> FIFO_create e size depth use_mutex = Some f ->
  fifo_wf f /\ contents f = [] /\ cnt f = 0 /\ item_size f = size /\ fifo_depth f = depth.
Proof.
  intros Hs Hd. unfold FIFO_create.
  destruct (calloc_struct e), (calloc_buf e), (Z.ltb_spec (depth * size) (2 ^ 64));
    simpl; try done.
  intros Hc.
  assert (exists m s1 s2, f = MkFifo true (replicate (Z.to_nat (depth * size)) 0)
            size depth 0 0 0 m s1 s2) as (m & s1 & s2 & ->).
  { destruct use_mutex; [|simplify_eq; eauto].
    destruct (_ && _ && _); simplify_eq; eauto. }
  split; [|done].
  constructor; cbn [test_ptr_ok pBuf item_size fifo_depth cnt wr_idx rd_idx]; try (done || lia).
  - unfold zlen. rewrite length_replicate. pose proof (Z.mul_nonneg_nonneg depth size). lia.
  - destruct (Z.ltb_spec (0 + 0) depth); lia.
Qed.

(** Client operations and their results. *)
Inductive op : Type :=
| OpInsert (data : list Z) (n : Z)
| OpRemove (n : Z).

Inductive reply : Type :=
| Inserted (r : Z)
| Removed (r : Z) (out : list Z).

Definition op_ok (size : Z) (o : op) : Prop :=
  match o with
  | OpInsert d n => 0 <= n < 2 ^ 64 /\ zlen d = n * size
  | OpRemove n => 0 <= n < 2 ^ 64
  end.

Definition run_op (h : option fifo) (o : op) : outcome (reply * option fifo) :=
  match o with
  | OpInsert d n => '(r, h) ← FIFO_insert h d n; Ret (Inserted r, h)
  | OpRemove n => '(r, out, h) ← FIFO_remove h n; Ret (Removed r out, h)
  end.

Fixpoint run_ops (h : option fifo) (os : list op) : outcome (list reply) :=
  match os with
  | [] => Ret []
  | o :: os =>
      '(r, h) ← run_op h o;
      rs ← run_ops h os;
      Ret (r :: rs)
  end.

(** The specification: a queue of bytes with room for [depth] items. *)
Record queue : Type := MkQueue { q_bytes : list Z; q_items : Z }.

Definition queue_op (size depth : Z) (q : queue) (o : op) : reply * queue :=
  match o with
  | OpInsert d n =>
      let k := Z.min n (depth - q_items q) in
      (Inserted (int32 k),
       MkQueue (q_bytes q ++ take (Z.to_nat (k * size)) d) (q_items q + k))
  | OpRemove n =>
      let k := Z.min n (q_items q) in
      (Removed (int32 k) (take (Z.to_nat (k * size)) (q_bytes q)),
       MkQueue (drop (Z.to_nat (k * size)) (q_bytes q)) (q_items q - k))
  end.

Fixpoint queue_ops (size depth : Z) (q : queue) (os : list op) : list reply :=
  match os with
  | [] => []
  | o :: os => let '(r, q) := queue_op size depth q o in r :: queue_ops size depth q os
  end.

Definition queue_of (f : fifo) : queue := MkQueue (contents f) (cnt f).

Lemma run_op_simulates f o :
  fifo_wf f -> op_ok (item_size f) o ->
  exists f', run_op (Some f) o =
      Ret (fst (queue_op (item_size f) (fifo_depth f) (queue_of f) o), Some f') /\
    fifo_wf f' /\ same_shape f f' /\
    queue_of f' = snd (queue_op (item_size f) (fifo_depth f) (queue_of f) o).
Proof.
  intros H Ho. destruct o as [d n|n]; simpl in Ho; cbn [run_op queue_op fst snd].
  - destruct (insert_spec f d n H (proj1 Ho) (proj2 Ho)) as (f' & -> & Hw & Hs & Hc & Hct).
    exists f'. split_and!; [done..|]. unfold queue_of. by rewrite Hc, Hct.
  - destruct (remove_spec f n H Ho) as (f' & -> & Hw & Hs & Hc & Hct).
    exists f'. split_and!; [done..|]. unfold queue_of. by rewrite Hc, Hct.
Qed.

Lemma run_ops_simulates os f :
  fifo_wf f -> Forall (op_ok (item_size f)) os ->
  run_ops (Some f) os = Ret (queue_ops (item_size f) (fifo_depth f) (queue_of f) os).
Proof.
  revert f. induction os as [|o os IH]; intros f H Ho; [done|].
  apply Forall_cons_iff in Ho as [Ho Hos].
  destruct (run_op_simulates f o H Ho) as (f' & E & Hw & [Hs1 Hs2] & Hq).
  cbn [run_ops queue_ops]. rewrite E. cbn [mbind outcome_bind].
  rewrite IH, Hs1, Hs2 by (rewrite ?Hs1; done). rewrite Hq.
  by destruct (queue_op _ _ (queue_of f) o).
Qed.

(** C13: a FIFO obtained from [FIFO_create] answers every sequence of
    non-blocking inserts and removes exactly as a bounded queue of [depth]
    items does: nothing is lost, duplicated or reordered, and no operation
    touches memory outside the buffer. *)
Theorem fifo_refines_queue e size depth use_mutex f os :
  0 <= size -> 0 < depth < 2 ^ 64 ->
  FIFO_create e size depth use_mutex = Some f ->
  Forall (op_ok size) os ->
  run_ops (Some f) os = Ret (queue_ops size depth (MkQueue [] 0) os).
Proof.
  intros Hs Hd Hc Ho. destruct (create_wf _ _ _ _ _ Hs Hd Hc) as (Hw & Hct & Hn & <- & <-).
  rewrite run_ops_simulates by done. unfold queue_of. by rewrite Hct, Hn.
Qed.

Definition demo_env : create_env := CreateEnv true true true true true.
Definition demo_ops : list op :=
  [OpInsert [1; 2; 3; 4] 2; OpRemove 1; OpInsert [5; 6; 7; 8; 9; 10] 3; OpRemove 9].

Lemma fifo_refines_queue_witness :
  exists f, FIFO_create demo_env 2 3 true = Some f /\
    run_ops (Some f) demo_ops = Ret (queue_ops 2 3 (MkQueue [] 0) demo_ops).
Proof.
  eexists. split; [reflexivity|].
  apply (fifo_refines_queue demo_env 2 3 true); [lia|lia|reflexivity|].
  repeat constructor; cbv; congruence.
Defined.

(** ** A producer and a consumer thread

    A transfer is a set-up, a copy and an update.  First the phases as wholes: the
    invariant of two threads if a set-up or an update were one step.  A thread holds
    the offset and the count its set-up returned. *)

Inductive phase : Type :=
| Idle
| Ready (off n : Z)             (* set-up done: offset and item count *)
| Copied (n : Z) (d : list Z).  (* data copied, update pending *)

Record system : Type := MkSystem {
  ring : fifo;
  producer : phase;
  consumer : phase;
  produced : list Z;    (* all bytes whose insertion was committed *)
  consumed : list Z     (* all bytes whose removal was committed *)
}.

Inductive phase_step : system -> system -> Prop :=
| insert_setup f c p q off avail size n :
    FIFO_insertDMA_setup (Some f) = (0, Some off, avail, size) -> 0 < n <= avail ->
    phase_step (MkSystem f Idle c p q) (MkSystem f (Ready off n) c p q)
| insert_copy f c p q off n d b :
    zlen d = n * item_size f -> mem_write (pBuf f) off d = Ret b ->
    phase_step (MkSystem f (Ready off n) c p q) (MkSystem (set_buf f b) (Copied n d) c p q)
| insert_update f c p q n d f' :
    FIFO_insertDMA_update (Some f) n = Ret (Some f') ->
    phase_step (MkSystem f (Copied n d) c p q) (MkSystem f' Idle c (p ++ d) q)
| remove_setup f c p q off avail size n :
    FIFO_removeDMA_setup (Some f) = (0, Some off, avail, size) -> 0 < n <= avail ->
    phase_step (MkSystem f c Idle p q) (MkSystem f c (Ready off n) p q)
| remove_copy f c p q off n d :
    mem_read (pBuf f) off (n * item_size f) = Ret d ->
    phase_step (MkSystem f c (Ready off n) p q) (MkSystem f c (Copied n d) p q)
| remove_update f c p q n d f' :
    FIFO_removeDMA_update (Some f) n = Ret (Some f') ->
    phase_step (MkSystem f c (Copied n d) p q) (MkSystem f' c Idle p (q ++ d)).

Definition producer_inv (f : fifo) (ph : phase) : Prop :=
  match ph with
  | Idle => True
  | Ready off n => off = wr_idx f * item_size f /\ 0 < n <= ins_run f
  | Copied n d => 0 < n <= ins_run f /\ zlen d = n * item_size f /\
      splice (offset f (wr_idx f)) d (pBuf f) = pBuf f
  end.

Definition consumer_inv (f : fifo) (ph : phase) : Prop :=
  match ph with
  | Idle => True
  | Ready off n => off = rd_idx f * item_size f /\ 0 < n <= rem_run f
  | Copied n d => 0 < n <= rem_run f /\ d = take (offset f n) (contents f)
  end.

Definition system_inv (s : system) : Prop :=
  fifo_wf (ring s) /\ producer_inv (ring s) (producer s) /\
  consumer_inv (ring s) (consumer s) /\ produced s = consumed s ++ contents (ring s).

(** The other thread's update never takes away what a set-up promised. *)
Lemma ins_run_removed f n :
  fifo_wf f -> 0 <= n <= rem_run f -> 0 < ins_run f ->
  ins_run f <= ins_run (removed f n).
Proof.
  intros H Hn. pose proof (rem_run_bounds f H) as (?&?&_). fifo_facts f H.
  unfold ins_run. simpl. rewrite mod_wrap by lia.
  destruct (Z.ltb_spec (rd_idx f + cnt f) (fifo_depth f)),
    (Z.ltb_spec (rd_idx f + n) (fifo_depth f)),
    (Z.eqb_spec (cnt f) (fifo_depth f)), (Z.eqb_spec (cnt f - n) (fifo_depth f)),
    (Z.leb_spec (rd_idx f) (wr_idx f)); try lia;
  match goal with |- context [?a <=? ?b] => destruct (Z.leb_spec a b) end; lia.
Qed.

Lemma rem_run_inserted f n d :
  fifo_wf f -> 0 <= n <= ins_run f -> 0 < rem_run f ->
  rem_run f <= rem_run (inserted f n d).
Proof.
  intros H Hn. pose proof (ins_run_bounds f H) as (?&?&?&?&_). fifo_facts f H.
  unfold rem_run. simpl. rewrite mod_wrap by lia.
  destruct (Z.ltb_spec (rd_idx f + cnt f) (fifo_depth f)),
    (Z.ltb_spec (wr_idx f + n) (fifo_depth f)),
    (Z.eqb_spec (cnt f) 0), (Z.eqb_spec (cnt f + n) 0),
    (Z.ltb_spec (rd_idx f) (wr_idx f)); try lia;
  match goal with |- context [?a <? ?b] => destruct (Z.ltb_spec a b) end; lia.
Qed.

(** Writing in the free part does not change what the ring holds. *)
Lemma contents_copy f n d :
  fifo_wf f -> 0 <= n <= ins_run f -> zlen d = n * item_size f ->
  contents (set_buf f (splice (offset f (wr_idx f)) d (pBuf f))) = contents f.
Proof.
  intros H Hn Hd. pose proof (inserted_contents f n d H Hn Hd) as Hc.
  pose proof (ins_run_bounds f H) as (?&?&?&?&_). fifo_facts f H.
  pose proof (mul_range (cnt f) (cnt f + n) (item_size f) ltac:(lia) ltac:(lia)).
  pose proof (mul_range n (cnt f + n) (item_size f) ltac:(lia) ltac:(lia)).
  unfold contents at 1 in Hc. simpl in Hc.
  replace (offset (inserted f n d) (cnt f + n)) with (offset f (cnt f) + length d)%nat in Hc
    by (unfold offset, zlen in *; simpl; lia).
  rewrite slice_app in Hc. apply app_inj_1 in Hc as [Hc _]; [exact Hc|].
  pose proof (contents_length f H) as Hl. unfold zlen in *.
  pose proof (mul_range (cnt f) (fifo_depth f) (item_size f) ltac:(lia) ltac:(lia)).
  pose proof (mul_range (rd_idx f) (fifo_depth f) (item_size f) ltac:(lia) ltac:(lia)).
  pose proof (mul_range (wr_idx f + n) (fifo_depth f) (item_size f) ltac:(lia) ltac:(lia)).
  pose proof (mul_range (wr_idx f) (fifo_depth f) (item_size f) ltac:(lia) ltac:(lia)).
  rewrite length_slice; [unfold offset; lia|].
  rewrite length_app, length_splice; unfold offset; simpl; lia.
Qed.

Lemma set_buf_wf f b : fifo_wf f -> zlen b = zlen (pBuf f) -> fifo_wf (set_buf f b).
Proof. intros H Hb. fifo_facts f H. constructor; simpl; try done. lia. Qed.

Lemma splice_id {A} o (d l : list A) :
  (o + length d <= length l)%nat -> splice o d (splice o d l) = splice o d l.
Proof.
  intros H. unfold splice at 1.
  assert (take o (splice o d l) = take o l) as ->.
  { unfold splice. rewrite take_app_le by (rewrite length_take; lia).
    rewrite take_take. f_equal. lia. }
  assert (drop (o + length d) (splice o d l) = drop (o + length d) l) as ->; [|done].
  unfold splice. rewrite drop_app_ge by (rewrite length_take; lia).
  rewrite length_take, Nat.min_l by lia. rewrite drop_app_ge by lia.
  replace (o + length d - o - length d)%nat with 0%nat by lia. apply drop_0.
Qed.

Lemma take_offset_inserted f n m d :
  fifo_wf f -> 0 <= m <= ins_run f -> zlen d = m * item_size f -> 0 <= n <= cnt f ->
  take (offset f n) (contents (inserted f m d)) = take (offset f n) (contents f).
Proof.
  intros H Hm Hd Hn. rewrite inserted_contents by done. apply take_app_le.
  pose proof (contents_length f H) as Hl. unfold zlen, offset in *.
  pose proof (mul_range n (cnt f) (item_size f) ltac:(lia) ltac:(apply wf_size; done)).
  lia.
Qed.

Lemma set_buf_id f : set_buf f (pBuf f) = f.
Proof. by destruct f. Qed.

Lemma insert_splice_fits f n (d : list Z) :
  fifo_wf f -> 0 <= n <= ins_run f -> zlen d = n * item_size f ->
  (offset f (wr_idx f) + length d <= length (pBuf f))%nat.
Proof.
  intros H Hn Hd. pose proof (ins_run_bounds f H) as (?&?&?&?&_). fifo_facts f H.
  pose proof (mul_range (wr_idx f + n) (fifo_depth f) (item_size f) ltac:(lia) ltac:(lia)).
  pose proof (mul_range (wr_idx f) (wr_idx f + n) (item_size f) ltac:(lia) ltac:(lia)).
  unfold zlen, offset in *. lia.
Qed.

(** What the update phase of each thread yields under the invariant. *)
Lemma insert_update_inv f n d f' :
  fifo_wf f -> producer_inv f (Copied n d) ->
  FIFO_insertDMA_update (Some f) n = Ret (Some f') -> f' = inserted f n d.
Proof.
  intros H (Hn & Hd & Hs) E. rewrite <- (set_buf_id f), <- Hs, insert_update_eq in E
    by (done || lia). congruence.
Qed.

Lemma remove_update_inv f n d f' :
  fifo_wf f -> consumer_inv f (Copied n d) ->
  FIFO_removeDMA_update (Some f) n = Ret (Some f') -> f' = removed f n.
Proof.
  intros H (Hn & _) E. rewrite remove_update_eq in E by (done || lia). congruence.
Qed.

Lemma consumer_inv_inserted f n d c :
  fifo_wf f -> 0 <= n <= ins_run f -> zlen d = n * item_size f ->
  consumer_inv f c -> consumer_inv (inserted f n d) c.
Proof.
  intros H Hn Hd Hc. destruct c as [|off m|m d']; [done|..]; simpl in *;
    destruct Hc as [Hc1 Hc2]; pose proof (rem_run_bounds f H) as ([? ?]&?&_).
  - split; [done|]. pose proof (rem_run_inserted f n d H Hn). lia.
  - pose proof (rem_run_inserted f n d H Hn). split; [lia|].
    change (offset (inserted f n d)) with (offset f).
    by rewrite take_offset_inserted by (done || lia).
Qed.

Lemma producer_inv_removed f n p :
  fifo_wf f -> 0 <= n <= rem_run f -> producer_inv f p -> producer_inv (removed f n) p.
Proof.
  intros H Hn Hp. pose proof (ins_run_removed f n H Hn) as Hi.
  destruct p as [|off m|m d']; [done|..]; simpl in *; destruct Hp as (Hp1 & Hp2).
  - split; [done|lia].
  - split; [lia|done].
Qed.

Lemma consumer_inv_copy f n (d : list Z) c :
  fifo_wf f -> 0 <= n <= ins_run f -> zlen d = n * item_size f -> consumer_inv f c ->
  consumer_inv (set_buf f (splice (offset f (wr_idx f)) d (pBuf f))) c.
Proof.
  intros H Hn Hd Hc. destruct c as [|off m|m d']; simpl in *; [done|done|].
  destruct Hc as [Hc ->]. split; [done|]. by erewrite contents_copy.
Qed.

Lemma phase_step_inv s t : system_inv s -> phase_step s t -> system_inv t.
Proof.
  intros (H & Hp & Hc & Ho) St. destruct St; simpl in *.
  - rewrite insert_setup_eq in H0 by done. simplify_eq. done.
  - destruct Hp as [-> Hn]. rewrite (insert_write f n d) in H1 by (done || lia).
    injection H1 as <-.
    pose proof (insert_splice_fits f n d H ltac:(lia) H0) as Hf.
    split; [|split; [split; [exact Hn|split; [done|]]|split]]; simpl.
    + apply set_buf_wf; [done|]. unfold zlen. by rewrite length_splice.
    + by apply splice_id.
    + apply (consumer_inv_copy f n); done || lia.
    + by rewrite (contents_copy f n d) by (done || lia).
  - pose proof Hp as (Hn & Hd & _).
    rewrite (insert_update_inv f n d f') by done.
    split_and!; simpl; [apply inserted_wf|done|apply consumer_inv_inserted|]; try done; try lia.
    rewrite inserted_contents by (done || lia). by rewrite Ho, app_assoc.
  - rewrite remove_setup_eq in H0 by done. simplify_eq. done.
  - destruct Hc as [-> Hn]. rewrite removed_data in H0 by (done || lia).
    injection H0 as <-. done.
  - pose proof Hc as (Hn & Hd).
    rewrite (remove_update_inv f n d f') by done.
    split_and!; simpl; [apply removed_wf|apply producer_inv_removed|done|]; try done; try lia.
    rewrite removed_contents by (done || lia). rewrite Ho, Hd, <- app_assoc.
    by rewrite take_drop.
Qed.

(** ** The threads access by access

    What really is one step is an access to a field of the structure: a set-up reads
    [cnt], compares the indices and reads them again, an update loads [cnt], stores
    it, stores an index and puts the semaphore.  Only the mutex, when the FIFO has
    one, keeps the other thread from doing the same in between; the copies are
    outside.  A thread's own index is written by that thread alone. *)

Inductive side : Type := Prod | Cons.

Inductive pc : Type :=
| Out (ph : phase)                     (* before, between and behind the locked parts *)
| Locked                               (* the set-up has begun *)
| Counted (c : Z)                      (* it has read [cnt] *)
| Compared (b : bool)                  (* it has compared the indices *)
| Computed (off avail : Z)             (* it has its results *)
| Holding (n : Z) (d : list Z)         (* the update has begun *)
| Loaded (n : Z) (d : list Z) (c : Z)  (* it has loaded [cnt] *)
| Stored (n : Z) (d : list Z)          (* it has stored the first of [cnt] and index *)
| Moved (n : Z) (d : list Z)           (* it has stored both *)
| Posted (n : Z) (d : list Z).         (* it has put the semaphore *)

Record machine : Type := MkMachine {
  m_ring : fifo;
  m_lock : option side;    (* who holds the mutex *)
  m_prod : pc;
  m_cons : pc;
  m_in : list Z;           (* what the producer's transfers have put in *)
  m_out : list Z           (* what the consumer's transfers have taken out *)
}.

(** [MUTEX_lock], [MUTEX_unLock] of a FIFO that may have no mutex; a thread that
    cannot have the mutex stays where it is. *)
Definition acquire (who : side) (f : fifo) (l : option side) (next stay : pc) : fifo * option side * pc :=
  if mutex f then match l with None => (f, Some who, next) | Some _ => (f, l, stay) end else (f, l, next).
Definition release (f : fifo) (l : option side) : option side := if mutex f then None else l.

(** The caller wants [want] items and transfers what it can, or gives up. *)
Definition go (off avail want : Z) : phase := if 0 <? Z.min want avail then Ready off (Z.min want avail) else Idle.

(** One access of the producer, which has the bytes [d0] (filled up with zeros) to
    write when it copies; also what its transfer has put in when it is complete. *)
Definition ins_turn (want : Z) (d0 : list Z) (f : fifo) (l : option side) (x : pc)
  : outcome (fifo * option side * pc * list Z) :=
  match x with
  | Out Idle => Ret (acquire Prod f l Locked x, [])
  | Locked => Ret (f, l, Counted (cnt f), [])
  | Counted c =>
      if c =? fifo_depth f then Ret (f, l, Computed (u64 (wr_idx f * item_size f)) 0, [])
      else Ret (f, l, Compared (rd_idx f <=? wr_idx f), [])
  | Compared b =>
      let avail := if b then u64 (fifo_depth f - wr_idx f) else u64 (rd_idx f - wr_idx f) in
      Ret (f, l, Computed (u64 (wr_idx f * item_size f)) avail, [])
  | Computed off avail => Ret (f, release f l, Out (go off avail want), [])
  | Out (Ready off n) =>
      let d := resize (Z.to_nat (n * item_size f)) 0 d0 in
      b ← mem_write (pBuf f) off d; Ret (set_buf f b, l, Out (Copied n d), [])
  | Out (Copied n d) => Ret (acquire Prod f l (Holding n d) x, [])
  | Holding n d => Ret (f, l, Loaded n d (cnt f), [])
  | Loaded n d c => Ret (set_cnt_wr f (u64 (c + n)) (wr_idx f) (in_sem f), l, Stored n d, [])
  | Stored n d =>
      w ← size_mod (wr_idx f + n) (fifo_depth f);
      Ret (set_cnt_wr f (cnt f) w (in_sem f), l, Moved n d, [])
  | Moved n d => Ret (set_cnt_wr f (cnt f) (wr_idx f) (Z.succ <$> in_sem f), l, Posted n d, [])
  | Posted n d => Ret (f, release f l, Out Idle, d)
  end.

(** One access of the consumer; its update stores the index first. *)
Definition rem_turn (want : Z) (f : fifo) (l : option side) (x : pc)
  : outcome (fifo * option side * pc * list Z) :=
  match x with
  | Out Idle => Ret (acquire Cons f l Locked x, [])
  | Locked => Ret (f, l, Counted (cnt f), [])
  | Counted c =>
      if c =? 0 then Ret (f, l, Computed (u64 (rd_idx f * item_size f)) 0, [])
      else Ret (f, l, Compared (rd_idx f <? wr_idx f), [])
  | Compared b =>
      let avail := if b then u64 (wr_idx f - rd_idx f) else u64 (fifo_depth f - rd_idx f) in
      Ret (f, l, Computed (u64 (rd_idx f * item_size f)) avail, [])
  | Computed off avail => Ret (f, release f l, Out (go off avail want), [])
  | Out (Ready off n) => d ← mem_read (pBuf f) off (n * item_size f); Ret (f, l, Out (Copied n d), [])
  | Out (Copied n d) => Ret (acquire Cons f l (Holding n d) x, [])
  | Holding n d =>
      r ← size_mod (rd_idx f + n) (fifo_depth f);
      Ret (set_cnt_rd f (cnt f) r (rm_sem f), l, Stored n d, [])
  | Stored n d => Ret (f, l, Loaded n d (cnt f), [])
  | Loaded n d c => Ret (set_cnt_rd f (u64 (c - n)) (rd_idx f) (rm_sem f), l, Moved n d, [])
  | Moved n d => Ret (set_cnt_rd f (cnt f) (rd_idx f) (Z.succ <$> rm_sem f), l, Posted n d, [])
  | Posted n d => Ret (f, release f l, Out Idle, d)
  end.

(** Whose turn it is, how many items it wants and, for the producer, its bytes. *)
Inductive turn : Type := Produce (want : Z) (d : list Z) | Consume (want : Z).

Definition step (t : turn) (m : machine) : outcome machine :=
  match t with
  | Produce want d =>
      '(f, l, x, out) ← ins_turn want d (m_ring m) (m_lock m) (m_prod m);
      Ret (MkMachine f l x (m_cons m) (m_in m ++ out) (m_out m))
  | Consume want =>
      '(f, l, x, out) ← rem_turn want (m_ring m) (m_lock m) (m_cons m);
      Ret (MkMachine f l (m_prod m) x (m_in m) (m_out m ++ out))
  end.

Fixpoint steps (ts : list turn) (m : machine) : outcome machine :=
  match ts with [] => Ret m | t :: ts => m ← step t m; steps ts m end.

Definition initial (f : fifo) : machine := MkMachine f None (Out Idle) (Out Idle) [] [].

(** *** What the accesses amount to under the mutex *)

(** The phase a thread is in as long as its locked part has not ended. *)
Definition phase_of (x : pc) : phase :=
  match x with
  | Out ph => ph
  | Locked | Counted _ | Compared _ | Computed _ _ => Idle
  | Holding n d | Loaded n d _ | Stored n d | Moved n d | Posted n d => Copied n d
  end.

Definition inside (x : pc) : Prop := match x with Out _ => False | _ => True end.

(** The structure in the middle of an update that began with [f0]. *)
Definition part_ins (f0 : fifo) (x : pc) : fifo :=
  let w n := (wr_idx f0 + n) mod fifo_depth f0 in
  match x with
  | Stored n _ => set_cnt_wr f0 (cnt f0 + n) (wr_idx f0) (in_sem f0)
  | Moved n _ => set_cnt_wr f0 (cnt f0 + n) (w n) (in_sem f0)
  | Posted n _ => set_cnt_wr f0 (cnt f0 + n) (w n) (Z.succ <$> in_sem f0)
  | _ => f0
  end.
Definition part_rem (f0 : fifo) (x : pc) : fifo :=
  let r n := (rd_idx f0 + n) mod fifo_depth f0 in
  match x with
  | Stored n _ | Loaded n _ _ => set_cnt_rd f0 (cnt f0) (r n) (rm_sem f0)
  | Moved n _ => set_cnt_rd f0 (cnt f0 - n) (r n) (rm_sem f0)
  | Posted n _ => set_cnt_rd f0 (cnt f0 - n) (r n) (Z.succ <$> rm_sem f0)
  | _ => f0
  end.

(** What a thread inside remembers is still so. *)
Definition locals_ins (f0 : fifo) (x : pc) : Prop :=
  match x with
  | Counted c | Loaded _ _ c => c = cnt f0
  | Compared b => cnt f0 <> fifo_depth f0 /\ b = (rd_idx f0 <=? wr_idx f0)
  | Computed off avail => off = wr_idx f0 * item_size f0 /\ avail = ins_run f0
  | _ => True
  end.
Definition locals_rem (f0 : fifo) (x : pc) : Prop :=
  match x with
  | Counted c | Loaded _ _ c => c = cnt f0
  | Compared b => cnt f0 <> 0 /\ b = (rd_idx f0 <? wr_idx f0)
  | Computed off avail => off = rd_idx f0 * item_size f0 /\ avail = rem_run f0
  | _ => True
  end.

(** At most the holder of the mutex is inside, and without its unfinished update the
    two threads are as the phases allow. *)
Definition machine_inv (m : machine) : Prop :=
  exists f0, system_inv (MkSystem f0 (phase_of (m_prod m)) (phase_of (m_cons m)) (m_in m) (m_out m)) /\ mutex f0 = true /\
    match m_lock m with
    | None => m_ring m = f0 /\ ~ inside (m_prod m) /\ ~ inside (m_cons m)
    | Some Prod => m_ring m = part_ins f0 (m_prod m) /\ inside (m_prod m) /\ locals_ins f0 (m_prod m) /\ ~ inside (m_cons m)
    | Some Cons => m_ring m = part_rem f0 (m_cons m) /\ inside (m_cons m) /\ locals_rem f0 (m_cons m) /\ ~ inside (m_prod m)
    end.

Lemma size_mod_ok f n : fifo_wf f -> 0 <= n < 2 ^ 64 -> size_mod n (fifo_depth f) = Ret (n mod fifo_depth f).
Proof. intros H Hn. fifo_facts f H. unfold size_mod. rewrite (proj2 (Z.eqb_neq _ 0)) by lia. by rewrite u64_id by lia. Qed.

(** The producer inside. *)
Lemma ins_inside want d f0 x c p q :
  system_inv (MkSystem f0 (phase_of x) c p q) -> mutex f0 = true -> inside x -> locals_ins f0 x ->
  exists f1 x' l' out, ins_turn want d (part_ins f0 x) (Some Prod) x = Ret (part_ins f1 x', l', x', out) /\
    system_inv (MkSystem f1 (phase_of x') c (p ++ out) q) /\ mutex f1 = true /\
    (l' = Some Prod /\ inside x' /\ locals_ins f1 x' \/ l' = None /\ ~ inside x').
Proof.
  intros Hs Hm Hi Hl. pose proof Hs as (H & Hp & _ & _). cbn [ring producer] in H, Hp.
  pose proof (ins_run_bounds f0 H) as (Hr0 & Hr1 & Hw & Hr2 & _). pose proof (insert_setup_eq f0 H) as Eset.
  fifo_facts f0 H. unfold FIFO_insertDMA_setup, h2f in Eset. rewrite wf_check in Eset by done.
  assert (u64 (wr_idx f0 * item_size f0) = wr_idx f0 * item_size f0) as Eoff by (simplify_eq; congruence).
  destruct x as [ph| |k|b|off avail|n e|n e k|n e|n e|n e]; [done|..]; cbn [ins_turn part_ins phase_of locals_ins] in *.
  - exists f0, (Counted (cnt f0)), (Some Prod), []. rewrite app_nil_r. split; [done|]. split; [done|]. split; [done|]. by left.
  - subst k. destruct (Z.eqb_spec (cnt f0) (fifo_depth f0)) as [E|E];
      [exists f0, (Computed (u64 (wr_idx f0 * item_size f0)) 0), (Some Prod), []|exists f0, (Compared (rd_idx f0 <=? wr_idx f0)), (Some Prod), []];
      rewrite app_nil_r; (split; [done|]); (split; [done|]); (split; [done|]); left; split_and!; try done.
    split; congruence.
  - destruct Hl as [Hne ->]. exists f0, (Computed (wr_idx f0 * item_size f0) (ins_run f0)), (Some Prod), []. rewrite app_nil_r.
    split; [|split; [done|split; [done|by left]]]. rewrite (proj2 (Z.eqb_neq _ _)) in Eset by done. cbv zeta. do 3 f_equal. f_equal; congruence.
  - destruct Hl as [-> ->]. unfold release. rewrite Hm. exists f0, (Out (go (wr_idx f0 * item_size f0) (ins_run f0) want)), None, [].
    rewrite app_nil_r. split; [done|]. split; [|split; [done|right; split; [done|tauto]]]. cbn [phase_of]. unfold go.
    destruct (Z.ltb_spec 0 (Z.min want (ins_run f0))); [|done].
    eapply phase_step_inv; [exact Hs|]. eapply insert_setup; [by apply insert_setup_eq|lia].
  - exists f0, (Loaded n e (cnt f0)), (Some Prod), []. rewrite app_nil_r. split; [done|]. split; [done|]. split; [done|]. by left.
  - subst k. destruct Hp as (Hn & _). exists f0, (Stored n e), (Some Prod), []. rewrite app_nil_r, u64_id by lia. split; [done|]. split; [done|]. split; [done|]. by left.
  - destruct Hp as (Hn & _). exists f0, (Moved n e), (Some Prod), []. rewrite app_nil_r.
    cbn [set_cnt_wr wr_idx fifo_depth]. rewrite (size_mod_ok f0) by (done || lia). split; [done|]. split; [done|]. split; [done|]. by left.
  - exists f0, (Posted n e), (Some Prod), []. rewrite app_nil_r. split; [done|]. split; [done|]. split; [done|]. by left.
  - unfold release. cbn [set_cnt_wr mutex]. rewrite Hm. destruct Hp as (Hn & Hd & Hb).
    assert (FIFO_insertDMA_update (Some f0) n = Ret (Some (inserted f0 n e))) as E.
    { rewrite <- (insert_update_eq f0 n e) by (done || lia). by rewrite Hb, set_buf_id. }
    exists (inserted f0 n e), (Out Idle), None, e. split; [|split; [|split; [done|right; split; [done|tauto]]]].
    + unfold inserted. by rewrite Hb, set_buf_id.
    + eapply phase_step_inv; [exact Hs|]. by apply insert_update.
Qed.

(** The consumer inside. *)
Lemma rem_inside want f0 x c p q :
  system_inv (MkSystem f0 c (phase_of x) p q) -> mutex f0 = true -> inside x -> locals_rem f0 x ->
  exists f1 x' l' out, rem_turn want (part_rem f0 x) (Some Cons) x = Ret (part_rem f1 x', l', x', out) /\
    system_inv (MkSystem f1 c (phase_of x') p (q ++ out)) /\ mutex f1 = true /\
    (l' = Some Cons /\ inside x' /\ locals_rem f1 x' \/ l' = None /\ ~ inside x').
Proof.
  intros Hs Hm Hi Hl. pose proof Hs as (H & _ & Hc & _). cbn [ring consumer] in H, Hc.
  pose proof (rem_run_bounds f0 H) as (Hr0 & Hr1 & _). pose proof (remove_setup_eq f0 H) as Eset.
  fifo_facts f0 H. unfold FIFO_removeDMA_setup, h2f in Eset. rewrite wf_check in Eset by done.
  assert (u64 (rd_idx f0 * item_size f0) = rd_idx f0 * item_size f0) as Eoff by (simplify_eq; congruence).
  destruct x as [ph| |k|b|off avail|n e|n e k|n e|n e|n e]; [done|..]; cbn [rem_turn part_rem phase_of locals_rem] in *.
  - exists f0, (Counted (cnt f0)), (Some Cons), []. rewrite app_nil_r. split; [done|]. split; [done|]. split; [done|]. by left.
  - subst k. destruct (Z.eqb_spec (cnt f0) 0) as [E|E];
      [exists f0, (Computed (u64 (rd_idx f0 * item_size f0)) 0), (Some Cons), []|exists f0, (Compared (rd_idx f0 <? wr_idx f0)), (Some Cons), []];
      rewrite app_nil_r; (split; [done|]); (split; [done|]); (split; [done|]); left; split_and!; try done.
    split; congruence.
  - destruct Hl as [Hne ->]. exists f0, (Computed (rd_idx f0 * item_size f0) (rem_run f0)), (Some Cons), []. rewrite app_nil_r.
    split; [|split; [done|split; [done|by left]]]. rewrite (proj2 (Z.eqb_neq _ _)) in Eset by done. cbv zeta. do 3 f_equal. f_equal; congruence.
  - destruct Hl as [-> ->]. unfold release. rewrite Hm. exists f0, (Out (go (rd_idx f0 * item_size f0) (rem_run f0) want)), None, [].
    rewrite app_nil_r. split; [done|]. split; [|split; [done|right; split; [done|tauto]]]. cbn [phase_of]. unfold go.
    destruct (Z.ltb_spec 0 (Z.min want (rem_run f0))); [|done].
    eapply phase_step_inv; [exact Hs|]. eapply remove_setup; [by apply remove_setup_eq|lia].
  - destruct Hc as (Hn & _). exists f0, (Stored n e), (Some Cons), []. rewrite app_nil_r. rewrite (size_mod_ok f0) by (done || lia).
    split; [done|]. split; [done|]. split; [done|]. by left.
  - subst k. destruct Hc as (Hn & _). exists f0, (Moved n e), (Some Cons), []. rewrite app_nil_r, u64_id by lia. split; [done|]. split; [done|]. split; [done|]. by left.
  - exists f0, (Loaded n e (cnt f0)), (Some Cons), []. rewrite app_nil_r. split; [done|]. split; [done|]. split; [done|]. by left.
  - exists f0, (Posted n e), (Some Cons), []. rewrite app_nil_r. split; [done|]. split; [done|]. split; [done|]. by left.
  - unfold release. cbn [set_cnt_rd mutex]. rewrite Hm. destruct Hc as (Hn & Hd).
    exists (removed f0 n), (Out Idle), None, e. split; [done|]. split; [|split; [done|right; split; [done|tauto]]].
    eapply phase_step_inv; [exact Hs|]. apply remove_update. by apply remove_update_eq; [|lia].
Qed.

(** The producer outside, while the consumer may be inside: it copies or asks for the
    mutex. *)
Lemma ins_outside want d f0 y ph p q l :
  system_inv (MkSystem f0 ph (phase_of y) p q) -> mutex f0 = true ->
  exists f1 x' l', ins_turn want d (part_rem f0 y) l (Out ph) = Ret (part_rem f1 y, l', x', []) /\
    system_inv (MkSystem f1 (phase_of x') (phase_of y) p q) /\ mutex f1 = true /\
    (forall z, locals_rem f0 z -> locals_rem f1 z) /\
    (l' = l /\ ~ inside x' \/ l = None /\ l' = Some Prod /\ inside x' /\ locals_ins f1 x' /\ part_ins f1 x' = f1).
Proof.
  intros Hs Hm. assert (mutex (part_rem f0 y) = true) as Hm' by (by destruct y).
  assert (forall nxt stay, acquire Prod (part_rem f0 y) l nxt stay =
    match l with None => (part_rem f0 y, Some Prod, nxt) | Some _ => (part_rem f0 y, l, stay) end) as Ea.
  { intros. unfold acquire. by rewrite Hm'. }
  destruct ph as [|off n|n e]; cbn [ins_turn].
  - rewrite Ea. destruct l as [w|]; [exists f0, (Out Idle), (Some w)|exists f0, Locked, (Some Prod)]; split_and!; try done; [left; split; [done|tauto]|by right].
  - pose proof Hs as (H & [Eo Hn] & _ & _). cbn [ring producer] in H, Eo, Hn. fifo_facts f0 H.
    assert (item_size (part_rem f0 y) = item_size f0) as -> by (by destruct y).
    assert (pBuf (part_rem f0 y) = pBuf f0) as -> by (by destruct y). set (e := resize _ _ d).
    assert (zlen e = n * item_size f0) as He.
    { unfold zlen, e. rewrite length_resize. rewrite Z2Nat.id; [done|]. apply Z.mul_nonneg_nonneg; lia. }
    pose proof (insert_write f0 n e H ltac:(lia) He) as Ew. rewrite <- Eo in Ew. rewrite Ew. cbn [mbind outcome_bind].
    eexists (set_buf f0 _), (Out (Copied n e)), l. split; [by destruct y|]. split; [|split; [done|split; [done|left; split; [done|tauto]]]].
    eapply phase_step_inv; [exact Hs|]. by apply insert_copy with (off := off).
  - rewrite Ea. destruct l as [w|]; [exists f0, (Out (Copied n e)), (Some w)|exists f0, (Holding n e), (Some Prod)]; split_and!; try done;
      [left; split; [done|tauto]|by right].
Qed.

(** The consumer outside, while the producer may be inside. *)
Lemma rem_outside want f0 y ph p q l :
  system_inv (MkSystem f0 (phase_of y) ph p q) -> mutex f0 = true ->
  exists x' l', rem_turn want (part_ins f0 y) l (Out ph) = Ret (part_ins f0 y, l', x', []) /\
    system_inv (MkSystem f0 (phase_of y) (phase_of x') p q) /\
    (l' = l /\ ~ inside x' \/ l = None /\ l' = Some Cons /\ inside x' /\ locals_rem f0 x' /\ part_rem f0 x' = f0).
Proof.
  intros Hs Hm. assert (mutex (part_ins f0 y) = true) as Hm' by (by destruct y).
  assert (forall nxt stay, acquire Cons (part_ins f0 y) l nxt stay =
    match l with None => (part_ins f0 y, Some Cons, nxt) | Some _ => (part_ins f0 y, l, stay) end) as Ea.
  { intros. unfold acquire. by rewrite Hm'. }
  destruct ph as [|off n|n e]; cbn [rem_turn].
  - rewrite Ea. destruct l as [w|]; [exists (Out Idle), (Some w)|exists Locked, (Some Cons)]; split_and!; try done; [left; split; [done|tauto]|by right].
  - pose proof Hs as (H & _ & [Eo Hn] & _). cbn [ring consumer] in H, Eo, Hn.
    assert (item_size (part_ins f0 y) = item_size f0) as -> by (by destruct y).
    assert (pBuf (part_ins f0 y) = pBuf f0) as -> by (by destruct y).
    pose proof (removed_data f0 n H ltac:(lia)) as Er. rewrite <- Eo in Er. rewrite Er. cbn [mbind outcome_bind].
    eexists (Out (Copied n _)), l. split; [reflexivity|]. split; [|left; split; [done|tauto]].
    eapply phase_step_inv; [exact Hs|]. by apply remove_copy with (off := off).
  - rewrite Ea. destruct l as [w|]; [exists (Out (Copied n e)), (Some w)|exists (Holding n e), (Some Cons)]; split_and!; try done;
      [left; split; [done|tauto]|by right].
Qed.

Lemma out_pc x : ~ inside x -> exists ph, x = Out ph.
Proof. destruct x; [by eexists|..]; by intros []. Qed.

Lemma step_inv t m : machine_inv m -> exists m', step t m = Ret m' /\ machine_inv m'.
Proof.
  intros (f0 & Hs & Hm & Hl). destruct m as [g l x y p q]. cbn [m_ring m_lock m_prod m_cons m_in m_out] in *.
  destruct t as [want d|want]; cbn [step m_ring m_lock m_prod m_cons m_in m_out].
  - destruct l as [[]|].
    + destruct Hl as (-> & Hi & Hlo & Ho). destruct (ins_inside want d f0 x _ p q Hs Hm Hi Hlo) as (f1 & x' & l' & out & -> & Hs' & Hm' & Hx).
      eexists. split; [reflexivity|]. exists f1. split; [done|]. split; [done|]. destruct Hx as [(-> & ? & ?)|(-> & Hx)]; [done|].
      destruct (out_pc x' Hx) as [ph ->]. done.
    + destruct Hl as (-> & Hi & Hlo & Ho). destruct (out_pc x Ho) as [ph ->].
      destruct (ins_outside want d f0 y ph p q (Some Cons) Hs Hm) as (f1 & x' & l' & -> & Hs' & Hm' & Hloc & Hx).
      eexists. split; [reflexivity|]. exists f1. cbn. rewrite app_nil_r. split; [done|]. split; [done|].
      destruct Hx as [(-> & ?)|(? & _)]; [|done]. by auto.
    + destruct Hl as (-> & Ho & Hoy). destruct (out_pc x Ho) as [ph ->]. destruct (out_pc y Hoy) as [phc ->].
      destruct (ins_outside want d f0 (Out phc) ph p q None Hs Hm) as (f1 & x' & l' & E & Hs' & Hm' & _ & Hx).
      cbn [part_rem] in E. rewrite E. eexists. split; [reflexivity|]. exists f1. cbn. rewrite app_nil_r. split; [done|]. split; [done|].
      destruct Hx as [(-> & ?)|(_ & -> & ? & ? & ?)]; done.
  - destruct l as [[]|].
    + destruct Hl as (-> & Hi & Hlo & Ho). destruct (out_pc y Ho) as [ph ->].
      destruct (rem_outside want f0 x ph p q (Some Prod) Hs Hm) as (y' & l' & -> & Hs' & Hx).
      eexists. split; [reflexivity|]. exists f0. cbn. rewrite app_nil_r. split; [done|]. split; [done|].
      destruct Hx as [(-> & ?)|(? & _)]; done.
    + destruct Hl as (-> & Hi & Hlo & Ho). destruct (rem_inside want f0 y _ p q Hs Hm Hi Hlo) as (f1 & y' & l' & out & -> & Hs' & Hm' & Hx).
      eexists. split; [reflexivity|]. exists f1. split; [done|]. split; [done|]. destruct Hx as [(-> & ? & ?)|(-> & Hx)]; [done|].
      destruct (out_pc y' Hx) as [ph ->]. done.
    + destruct Hl as (-> & Ho & Hoy). destruct (out_pc x Ho) as [ph ->]. destruct (out_pc y Hoy) as [phc ->].
      destruct (rem_outside want f0 (Out ph) phc p q None Hs Hm) as (y' & l' & E & Hs' & Hx).
      cbn [part_ins] in E. rewrite E. eexists. split; [reflexivity|]. exists f0. cbn. rewrite app_nil_r. split; [done|]. split; [done|].
      destruct Hx as [(-> & ?)|(_ & -> & ? & ? & ?)]; done.
Qed.

Lemma steps_inv ts : forall m, machine_inv m -> exists m', steps ts m = Ret m' /\ machine_inv m'.
Proof.
  induction ts as [|t ts IH]; intros m Hm; [by exists m|]. destruct (step_inv t m Hm) as (m1 & E & H1).
  cbn [steps]. rewrite E. by apply IH.
Qed.

Lemma initial_inv f : fifo_wf f -> contents f = [] -> mutex f = true -> machine_inv (initial f).
Proof. intros H Hc Hm. exists f. split; [by split_and!|]. split; [done|]. cbn. tauto. Qed.

Lemma phases_prefix s : system_inv s -> consumed s `prefix_of` produced s.
Proof. intros (_ & _ & _ & ->). by eexists. Qed.

(** C38: one producer and one consumer thread of a FIFO with a mutex, interleaved at
    every access to the fields of the structure, at the calls of the mutex and at the
    copies (a copy being one step), in any order: no access leaves the buffer or
    divides by zero, what the completed removals have taken out is always a front of
    what the completed insertions have put in, and whenever the mutex is free the
    FIFO is well-formed and holds exactly the rest; nothing is lost, duplicated,
    reordered or corrupted.  Without a mutex this is false ([race_without_mutex]). *)
Theorem spsc_order f ts :
  fifo_wf f -> contents f = [] -> mutex f = true ->
  exists m, steps ts (initial f) = Ret m /\ m_out m `prefix_of` m_in m /\
    (m_lock m = None -> fifo_wf (m_ring m) /\ m_in m = m_out m ++ contents (m_ring m)).
Proof.
  intros H Hc Hm. destruct (steps_inv ts (initial f)) as (m & E & f0 & Hs & _ & Hl); [by apply initial_inv|].
  exists m. split; [done|]. split; [exact (phases_prefix _ Hs)|]. intros El. rewrite El in Hl. destruct Hl as (-> & _ & _).
  by destruct Hs as (? & _ & _ & ?).
Qed.

Definition demo_fifo : fifo := MkFifo true [0; 0; 0; 0] 2 2 0 0 0 true (Some 0) (Some 0).

Lemma demo_fifo_wf : fifo_wf demo_fifo.
Proof. constructor; cbv; try done; try (split; congruence). Qed.

(** One item is put in; then both threads transfer an item at the same time, their
    set-ups and updates alternating access by access. *)
Definition demo_turns : list turn :=
  replicate 12 (Produce 1 [7; 8]) ++ concat (replicate 24 [Consume 1; Produce 1 [9; 10]]).

Lemma spsc_order_witness :
  match steps demo_turns (initial demo_fifo) with
  | Ret m => m_in m = [7; 8; 9; 10] /\ m_out m = [7; 8] | _ => False end /\
  exists m, steps demo_turns (initial demo_fifo) = Ret m /\ m_out m `prefix_of` m_in m /\
    (m_lock m = None -> fifo_wf (m_ring m) /\ m_in m = m_out m ++ contents (m_ring m)).
Proof.
  split; [vm_compute; split; reflexivity|].
  apply (spsc_order demo_fifo demo_turns demo_fifo_wf eq_refl eq_refl).
Defined.

(** Without a mutex: the consumer has loaded the count when the producer completes a
    transfer, and then stores its own; an item is in the FIFO, and the count says
    there are none. *)
Example race_without_mutex :
  match steps (replicate 12 (Produce 1 [7; 8]) ++ replicate 9 (Consume 1) ++ replicate 12 (Produce 1 [9; 10]) ++ replicate 3 (Consume 1))
    (initial (MkFifo true [0; 0; 0; 0] 2 2 0 0 0 false None None)) with
  | Ret m => m_in m = [7; 8; 9; 10] /\ m_out m = [7; 8] /\ contents (m_ring m) = [] | _ => False end.
Proof. vm_compute. auto. Qed.

(** after [FIFO_destroy] the handle is dead: every operation on it reports
    failure and changes nothing, and it can be destroyed again. *)
Theorem fifo_destroyed_inert f data n c :
  test_ptr_ok f = true ->
  let h := FIFO_destroy (Some f) in
  FIFO_insert h data n = Ret (-1, h) /\ FIFO_remove h n = Ret (-1, [], h) /\
  FIFO_fputc c h = Ret (-1, h) /\ FIFO_fgetc h = Ret (-1, h) /\
  FIFO_getItemsAvail h = 0 /\ FIFO_getSpaceAvail h = 0 /\
  FIFO_insertDMA_setup h = (-1, None, 0, 0) /\ FIFO_removeDMA_setup h = (-1, None, 0, 0) /\
  FIFO_insertDMA_update h n = Ret h /\ FIFO_removeDMA_update h n = Ret h /\
  FIFO_destroy h = h.
Proof.
  intros H h. unfold h, FIFO_destroy, h2f. rewrite H. split_and!; reflexivity.
Qed.

Lemma fifo_destroyed_inert_witness :
  FIFO_insert (FIFO_destroy (Some demo_fifo)) [1] 1 =
  Ret (-1, FIFO_destroy (Some demo_fifo)).
Proof. apply (fifo_destroyed_inert demo_fifo [1] 1 0 eq_refl). Defined.

Lemma head_take_1 {A} (l : list A) : head (take 1 l) = head l.
Proof. by destruct l. Qed.

(** the character interface: on a FIFO of bytes with room, [FIFO_fputc]
    returns the low byte it stored and appends it to the queue; [FIFO_fgetc]
    returns and removes the oldest byte, and reports end of file exactly when
    the FIFO is empty. *)
Theorem fifo_char_io f c :
  fifo_wf f -> item_size f = 1 ->
  (cnt f < fifo_depth f -> exists f', FIFO_fputc c (Some f) = Ret (u8 c, Some f') /\
     fifo_wf f' /\ contents f' = contents f ++ [u8 c]) /\
  (cnt f = fifo_depth f -> exists f', FIFO_fputc c (Some f) = Ret (-1, Some f') /\
     contents f' = contents f) /\
  exists f', fifo_wf f' /\ contents f' = tail (contents f) /\
    FIFO_fgetc (Some f) = Ret (match contents f with b :: _ => b | [] => -1 end, Some f').
Proof.
  intros H H1. fifo_facts f H. pose proof (contents_length f H) as Hl. rewrite H1 in *.
  destruct (insert_spec f [u8 c] 1 H) as (f1 & E1 & Hw1 & _ & _ & Hc1);
    [lia|rewrite H1; done|].
  destruct (remove_spec f 1 H) as (f2 & E2 & Hw2 & _ & _ & Hc2); [lia|].
  unfold FIFO_fputc, FIFO_fgetc. rewrite E1, E2. cbn [mbind outcome_bind].
  unfold offset in *. rewrite H1 in *. split_and!.
  - intros. replace (Z.min 1 _) with 1 in * by lia. exists f1. done.
  - intros. replace (Z.min 1 _) with 0 in * by lia. exists f1. split; [done|].
    rewrite Hc1. simpl. by rewrite app_nil_r.
  - exists f2. unfold zlen in *. destruct (contents f) as [|b l]; simpl in Hl.
    + replace (Z.min 1 _) with 0 in * by lia. done.
    + replace (Z.min 1 _) with 1 in * by lia. done.
Qed.

Lemma fifo_char_io_witness :
  exists f', FIFO_fputc 0x141 (Some (MkFifo true [0; 0] 1 2 0 0 0 false None None)) =
    Ret (0x41, Some f') /\ contents f' = [0x41].
Proof.
  destruct (fifo_char_io (MkFifo true [0; 0] 1 2 0 0 0 false None None) 0x141)
    as (Hp & _ & _).
  - constructor; cbv; try done; try (split; congruence).
  - reflexivity.
  - destruct (Hp ltac:(reflexivity)) as (f' & E & _ & Hc). exists f'. split; [exact E|exact Hc].
Defined.

End Fifo.
