(* ===== verification/MtMsg.v ===== *)
(** * MT messages (mt_interface/api/src/mt_msg.c, first half)

    The MT protocol layer keeps every message in a fixed 4096-byte buffer with a
    read/write index.  This file models the message structure, the typed reads
    and writes of its payload, the classification of messages
    ([MT_MSG_set_type]), the checksum, and the formatting of a message for an
    interface.  Operations of one message are functions on the structure; the
    heap of messages and the interface state are in MtHeap.v. *)

From Stdlib Require Import ZArith Lia.
From stdpp Require Import base list option numbers.
From S2P Require Import Prelude.

Open Scope Z_scope.

Module MtMsg.

(** ** Bit fields (gateway_common/inc/bitsnbits.h) *)

Definition bitsXYof (value msb lsb : Z) : Z :=
  Z.land (Z.shiftr value lsb) (Z.shiftl 1 (msb - lsb + 1) - 1).
Definition inrange (v l hplus1 : Z) : bool := (l <=? v) && (v <? hplus1).
Definition bit7 : Z := Z.shiftl 1 7.

(** ** Data *)

(** The configuration part of [struct mt_msg_interface]; it is fixed once
    [MT_MSG_interfaceCreate] returned, so a pointer to an interface is
    represented by its configuration. *)
Record mt_iface : Type := MkIface {
  frame_sync : bool;
  include_chksum : bool;
  len_2bytes : bool;
  is_socket : bool;        (* s_cfg != NULL, else a UART *)
  stack_id : Z;
  tx_frag_size : Z;
  retry_max : Z
}.

#[export] Instance mt_iface_eq_dec : EqDecision mt_iface.
Proof. solve_decision. Defined.

Inductive mt_msg_type : Type :=
| T_unknown | T_sreq | T_srsp | T_poll | T_areq
| T_sreq_stack | T_srsp_stack | T_poll_stack | T_areq_stack
| T_sreq_frag_data | T_sreq_frag_ack | T_sreq_ext_status
| T_srsp_frag_data | T_srsp_frag_ack | T_srsp_ext_status
| T_areq_frag_data | T_areq_frag_ack | T_areq_ext_status.

#[export] Instance mt_msg_type_eq_dec : EqDecision mt_msg_type.
Proof. solve_decision. Defined.

Definition IOBUF_SIZE : Z := 4096.

Record mt_msg : Type := MkMsg {
  sequence_id : Z;
  pSrcIface : option mt_iface;
  pDestIface : option mt_iface;
  m_type : mt_msg_type;
  was_formatted : bool;
  expected_len : Z;
  cmd0 : Z;
  cmd1 : Z;
  chksum : Z;
  is_error : bool;
  iobuf_idx : Z;
  iobuf_nvalid : Z;
  iobuf_idx_max : Z;
  iobuf : list Z;
  pSrsp : option positive;
  pListNext : option positive
}.

#[export] Instance mt_msg_eq_dec : EqDecision mt_msg.
Proof. solve_decision. Defined.

Section Setters.
Variable m : mt_msg.

Definition set_io (err : bool) (idx nv : Z) (b : list Z) : mt_msg :=
  MkMsg (sequence_id m) (pSrcIface m) (pDestIface m) (m_type m) (was_formatted m)
    (expected_len m) (cmd0 m) (cmd1 m) (chksum m) err idx nv (iobuf_idx_max m) b
    (pSrsp m) (pListNext m).
Definition set_error : mt_msg :=
  set_io true (iobuf_idx m) (iobuf_nvalid m) (iobuf m).
Definition set_idx (idx : Z) : mt_msg := set_io (is_error m) idx (iobuf_nvalid m) (iobuf m).
Definition set_nvalid (nv : Z) : mt_msg := set_io (is_error m) (iobuf_idx m) nv (iobuf m).
Definition set_hdr (t : mt_msg_type) (len c0 c1 ck : Z) : mt_msg :=
  MkMsg (sequence_id m) (pSrcIface m) (pDestIface m) t (was_formatted m)
    len c0 c1 ck (is_error m) (iobuf_idx m) (iobuf_nvalid m) (iobuf_idx_max m) (iobuf m)
    (pSrsp m) (pListNext m).
Definition set_mtype (t : mt_msg_type) : mt_msg :=
  set_hdr t (expected_len m) (cmd0 m) (cmd1 m) (chksum m).
Definition set_len (len : Z) : mt_msg := set_hdr (m_type m) len (cmd0 m) (cmd1 m) (chksum m).
Definition set_cmds (c0 c1 : Z) : mt_msg := set_hdr (m_type m) (expected_len m) c0 c1 (chksum m).
Definition set_chksum (ck : Z) : mt_msg :=
  set_hdr (m_type m) (expected_len m) (cmd0 m) (cmd1 m) ck.
Definition set_ifaces (src dst : option mt_iface) : mt_msg :=
  MkMsg (sequence_id m) src dst (m_type m) (was_formatted m)
    (expected_len m) (cmd0 m) (cmd1 m) (chksum m) (is_error m) (iobuf_idx m)
    (iobuf_nvalid m) (iobuf_idx_max m) (iobuf m) (pSrsp m) (pListNext m).
Definition set_links (srsp next : option positive) : mt_msg :=
  MkMsg (sequence_id m) (pSrcIface m) (pDestIface m) (m_type m) (was_formatted m)
    (expected_len m) (cmd0 m) (cmd1 m) (chksum m) (is_error m) (iobuf_idx m)
    (iobuf_nvalid m) (iobuf_idx_max m) (iobuf m) srsp next.
Definition set_ident (seq : Z) (fmt : bool) : mt_msg :=
  MkMsg seq (pSrcIface m) (pDestIface m) (m_type m) fmt
    (expected_len m) (cmd0 m) (cmd1 m) (chksum m) (is_error m) (iobuf_idx m)
    (iobuf_nvalid m) (iobuf_idx_max m) (iobuf m) (pSrsp m) (pListNext m).

End Setters.

(** Where the payload starts on an interface: the expression the code repeats
    in a dozen places. *)
Definition payload_start (i : mt_iface) : Z :=
  (if frame_sync i then 1 else 0) + (if len_2bytes i then 2 else 1) + 1 + 1.

(** ** Checksum and classification *)

(** [MT_MSG_calc_chksum]; [i] is the source or destination interface the
    caller selects with 'f' or 't'. *)
Definition MT_MSG_calc_chksum (m : mt_msg) (i : option mt_iface) (len : Z) : outcome Z :=
  i ← deref i;
  let x := if frame_sync i then 1 else 0 in
  if len <=? x then Ret 0
  else d ← mem_read (iobuf m) x (len - x); Ret (Z.land (foldl Z.lxor 0 d) 0xff).

Definition lut_major (major : Z) : mt_msg_type :=
  if major =? 0 then T_poll else if major =? 1 then T_sreq
  else if major =? 2 then T_areq else T_srsp.

Definition lut_minor (minor major : Z) : option mt_msg_type :=
  let pick a b c :=
    Some (if major =? 0 then T_unknown else if major =? 1 then a
          else if major =? 2 then b else c) in
  if minor =? 1 then pick T_sreq_stack T_areq_stack T_srsp_stack
  else if minor =? 2 then pick T_sreq_frag_data T_areq_frag_data T_srsp_frag_data
  else if minor =? 3 then pick T_sreq_frag_ack T_areq_frag_ack T_srsp_frag_ack
  else if minor =? 4 then pick T_sreq_ext_status T_areq_ext_status T_srsp_ext_status
  else None.

Definition MT_MSG_set_type (m : mt_msg) (pMI : option mt_iface) : outcome mt_msg :=
  let m := set_mtype m T_unknown in
  if (cmd0 m <? 0) || (255 <? cmd0 m) then Ret m
  else
    let major := bitsXYof (cmd0 m) 7 5 in
    if (0 <=? major) && (major <=? 3) then Ret (set_mtype m (lut_major major))
    else match pMI with
         | None => Ret m
         | Some pMI =>
             let x := payload_start pMI in
             if iobuf_nvalid m <? x then Ret m
             else
               d ← mem_read (iobuf m) x 1;
               ext ← deref (head d);
               match lut_minor (bitsXYof ext 7 3) (Z.land major 3) with
               | Some t => Ret (set_mtype m t)
               | None => Ret m
               end
         end.

(** ** Writing *)

Definition init_wr_idx (m : mt_msg) : outcome mt_msg :=
  if 0 <=? iobuf_idx m then Ret m
  else i ← deref (pDestIface m); Ret (set_idx m (payload_start i)).

(** The loop of [MT_MSG_wrUX_DBG]: [n] bytes, least significant first. *)
Fixpoint wr_loop (n : nat) (m : mt_msg) (value : Z) : outcome mt_msg :=
  match n with
  | O => Ret m
  | S n =>
      let x := iobuf_idx m in
      if negb (inrange x 0 (iobuf_idx_max m)) then Ret (set_error m)
      else
        b ← mem_write (iobuf m) x [u8 value];
        wr_loop n (set_io m (is_error m) (x + 1) (x + 1) b) (Z.shiftr value 8)
  end.

(** [nbits] is a multiple of 8 in every call. *)
Definition MT_MSG_wrUX_DBG (m : mt_msg) (value nbits : Z) : outcome mt_msg :=
  if is_error m then Ret m
  else m ← init_wr_idx m; wr_loop (Z.to_nat (nbits / 8)) m value.

Definition MT_MSG_wrU8_DBG (m : mt_msg) (value : Z) : outcome mt_msg :=
  MT_MSG_wrUX_DBG m (u32 value) 8.
Definition MT_MSG_wrU16_DBG (m : mt_msg) (value : Z) : outcome mt_msg :=
  MT_MSG_wrUX_DBG m (u32 value) 16.
Definition MT_MSG_wrU32_DBG (m : mt_msg) (value : Z) : outcome mt_msg :=
  MT_MSG_wrUX_DBG m (u32 value) 32.
Definition MT_MSG_wrU64_DBG (m : mt_msg) (value : Z) : outcome mt_msg :=
  MT_MSG_wrUX_DBG m (u64 value) 64.

(** [pData] is [None] for a dummy write. *)
Definition MT_MSG_wrBuf_DBG (m : mt_msg) (pData : option (list Z)) (nbytes : Z)
  : outcome mt_msg :=
  if is_error m then Ret m
  else
    m ← init_wr_idx m;
    if nbytes =? 0 then Ret m
    else if iobuf_idx_max m <? iobuf_idx m + int32 nbytes then Ret (set_error m)
    else
      b ← match pData with
          | None => Ret (iobuf m)
          | Some d => d ← mem_read d 0 nbytes; mem_write (iobuf m) (iobuf_idx m) d
          end;
      Ret (set_io m (is_error m) (iobuf_idx m + int32 nbytes)
                  (iobuf_nvalid m + int32 nbytes) b).

(** ** Reading *)

(** Reads start at byte 0 of a message whose index is not set. *)
Definition init_rd_idx (m : mt_msg) : mt_msg :=
  if iobuf_idx m <? 0 then set_idx m 0 else m.

Definition MT_MSG_Peek_u8_DBG (m : mt_msg) (ofset : Z) : outcome (Z * mt_msg) :=
  let m := init_rd_idx m in
  let x := iobuf_idx m + ofset in
  if negb (inrange x 0 (iobuf_nvalid m)) then Ret (-1, m)
  else
    d ← mem_read (iobuf m) x 1;
    b ← deref (head d);
    Ret (Z.land b 0xff, m).

(** The loop of [MT_MSG_rdUX_DBG]: [x] is the bit position. *)
Fixpoint rd_loop (n : nat) (m : mt_msg) (x v : Z) : outcome (Z * mt_msg) :=
  match n with
  | O => Ret (v, m)
  | S n =>
      let y := iobuf_idx m in
      if negb (inrange y 0 (iobuf_nvalid m)) then Ret (u64 (-1), m)
      else
        d ← mem_read (iobuf m) y 1;
        b ← deref (head d);
        rd_loop n (set_idx m (y + 1)) (x + 8) (Z.lor v (u64 (Z.shiftl b x)))
  end.

Definition MT_MSG_rdUX_DBG (m : mt_msg) (nbits : Z) : outcome (Z * mt_msg) :=
  if is_error m then Ret (0, m)
  else rd_loop (Z.to_nat (nbits / 8)) (init_rd_idx m) 0 0.

Definition MT_MSG_rdU8_DBG (m : mt_msg) : outcome (Z * mt_msg) :=
  '(v, m) ← MT_MSG_rdUX_DBG m 8; Ret (u8 v, m).
Definition MT_MSG_rdU16_DBG (m : mt_msg) : outcome (Z * mt_msg) :=
  '(v, m) ← MT_MSG_rdUX_DBG m 16; Ret (u16 v, m).
Definition MT_MSG_rdU32_DBG (m : mt_msg) : outcome (Z * mt_msg) :=
  '(v, m) ← MT_MSG_rdUX_DBG m 32; Ret (u32 v, m).
Definition MT_MSG_rdU64_DBG (m : mt_msg) : outcome (Z * mt_msg) :=
  MT_MSG_rdUX_DBG m 64.

(** [MT_MSG_rdBuf_DBG]: the bytes copied to [pData] ([None] when nothing is
    copied: an error is pending, the length is 0, or the bound check fails);
    [copy] is false for a dummy read. *)
Definition MT_MSG_rdBuf_DBG (m : mt_msg) (copy : bool) (nbytes : Z)
  : outcome (option (list Z) * mt_msg) :=
  if is_error m then Ret (None, m)
  else
    let m := init_rd_idx m in
    if nbytes =? 0 then Ret (None, m)
    else if iobuf_idx_max m <? iobuf_idx m + int32 nbytes then Ret (None, set_error m)
    else if copy then
      d ← mem_read (iobuf m) (iobuf_idx m) nbytes;
      Ret (Some d, set_idx m (iobuf_idx m + int32 nbytes))
    else Ret (None, set_idx m (iobuf_idx m + int32 nbytes)).

Definition MT_MSG_parseComplete (m : mt_msg) : outcome mt_msg :=
  i ← deref (pSrcIface m);
  if iobuf_idx m =? payload_start i + expected_len m then Ret m
  else Ret (set_error m).

(** ** Formatting *)

Definition MT_MSG_format_msg (m : mt_msg) : outcome mt_msg :=
  i ← deref (pDestIface m);
  let n := payload_start i in
  let m := if iobuf_idx m <? 0 then set_idx m n else m in
  let m := if expected_len m <? 0 then set_len m (iobuf_idx m - n) else m in
  let m := set_idx m 0 in
  m ← (if frame_sync i then MT_MSG_wrU8_DBG m 0xfe else Ret m);
  m ← (if len_2bytes i then MT_MSG_wrU16_DBG m (expected_len m)
       else MT_MSG_wrU8_DBG m (expected_len m));
  m ← MT_MSG_wrU8_DBG m (cmd0 m);
  m ← MT_MSG_wrU8_DBG m (cmd1 m);
  m ← MT_MSG_wrBuf_DBG m None (u64 (expected_len m));
  let m := set_nvalid m (iobuf_idx m) in
  if include_chksum i then
    ck ← MT_MSG_calc_chksum m (pDestIface m) (iobuf_nvalid m);
    let m := set_chksum m ck in
    MT_MSG_wrU8_DBG m (chksum m)
  else Ret m.

(** [MT_MSG_reformat]: move the payload from where the source interface puts
    it to where the destination interface expects it. *)
Definition MT_MSG_reformat (m : mt_msg) : outcome mt_msg :=
  f ← deref (pSrcIface m);
  t ← deref (pDestIface m);
  let F_start := payload_start f in
  let T_start := payload_start t in
  b ← (if negb (expected_len m =? 0) && negb (F_start =? T_start) then
         d ← mem_read (iobuf m) F_start (expected_len m);
         mem_write (iobuf m) T_start d
       else Ret (iobuf m));
  Ret (set_io m (is_error m) (T_start + expected_len m) (T_start + expected_len m) b).

(** ** Creation *)

(** [MT_MSG_resetMsg]. *)
Definition MT_MSG_resetMsg (m : mt_msg) (len c0 c1 : Z) : outcome mt_msg :=
  let m := set_io (set_cmds m c0 c1) false (-1) 0 (iobuf m) in
  m ← MT_MSG_set_type m None;
  Ret (set_len m len).

(** The structure [MT_MSG_alloc] builds from zeroed memory. *)
Definition MT_MSG_new (seq len c0 c1 : Z) : outcome mt_msg :=
  MT_MSG_resetMsg
    (MkMsg seq None None T_unknown false 0 0 0 0 false 0 0 IOBUF_SIZE
           (replicate (Z.to_nat IOBUF_SIZE) 0) None None) len c0 c1.

Definition MT_MSG_setDestIface (m : mt_msg) (i : option mt_iface) : outcome mt_msg :=
  init_wr_idx (set_ifaces m (pSrcIface m) i).
Definition MT_MSG_setSrcIface (m : mt_msg) (i : option mt_iface) : mt_msg :=
  set_ifaces m i (pDestIface m).

(** The four [MT_MSG_cmd0_*] functions. *)
Definition MT_MSG_cmd0_poll (c : Z) : Z := u8 (Z.lor (Z.shiftl 0 5) (bitsXYof c 4 0)).
Definition MT_MSG_cmd0_sreq (c : Z) : Z := u8 (Z.lor (Z.shiftl 1 5) (bitsXYof c 4 0)).
Definition MT_MSG_cmd0_areq (c : Z) : Z := u8 (Z.lor (Z.shiftl 2 5) (bitsXYof c 4 0)).
Definition MT_MSG_cmd0_srsp (c : Z) : Z := u8 (Z.lor (Z.shiftl 3 5) (bitsXYof c 4 0)).

(** ** Little-endian encoding *)

Fixpoint le_bytes (n : nat) (v : Z) : list Z :=
  match n with
  | O => []
  | S n => u8 v :: le_bytes n (Z.shiftr v 8)
  end.

Fixpoint le_val (l : list Z) : Z :=
  match l with
  | [] => 0
  | b :: l => b + 256 * le_val l
  end.

Lemma length_le_bytes n v : length (le_bytes n v) = n.
Proof. revert v. induction n; simpl; auto. Qed.

Lemma le_bytes_bytes n v : is_bytes (le_bytes n v).
Proof. revert v. induction n; simpl; constructor; [apply u8_byte|apply IHn]. Qed.
#[export] Hint Resolve le_bytes_bytes : bytes.

Lemma le_val_bytes n v : 0 <= v -> le_val (le_bytes n v) = v mod 2 ^ (8 * Z.of_nat n).
Proof.
  revert v. induction n as [|n IH]; intros v Hv.
  { simpl. by rewrite Z.mod_1_r. }
  cbn [le_bytes le_val]. rewrite shiftr8. rewrite IH by (apply Z.div_pos; lia).
  replace (8 * Z.of_nat (S n)) with (8 + 8 * Z.of_nat n) by lia.
  rewrite Z.pow_add_r by lia. rewrite Z.rem_mul_r by (try apply Z.pow_pos_nonneg; lia).
  done.
Qed.

Lemma le_val_bound l : is_bytes l -> 0 <= le_val l < 2 ^ (8 * zlen l).
Proof.
  unfold zlen. induction l as [|b l IH]; intros H; [simpl; lia|].
  apply Forall_cons_iff in H as [Hb Hl]. specialize (IH Hl).
  cbn [le_val length]. replace (8 * Z.of_nat (S (length l))) with (8 + 8 * Z.of_nat (length l)) by lia.
  rewrite Z.pow_add_r by lia. unfold is_byte in Hb. lia.
Qed.

(** ** Well-formed messages *)

Record msg_wf (m : mt_msg) : Prop := MkMsgWf {
  mwf_buf : zlen (iobuf m) = IOBUF_SIZE;
  mwf_bytes : is_bytes (iobuf m);
  mwf_max : iobuf_idx_max m = IOBUF_SIZE;
  mwf_idx : -1 <= iobuf_idx m <= IOBUF_SIZE;
  mwf_nvalid : 0 <= iobuf_nvalid m <= IOBUF_SIZE
}.

Lemma payload_start_bounds i : 3 <= payload_start i <= 5.
Proof. unfold payload_start. destruct (frame_sync i), (len_2bytes i); lia. Qed.

Lemma is_bytes_splice o d l : is_bytes d -> is_bytes l -> is_bytes (splice o d l).
Proof.
  intros Hd Hl. unfold splice, is_bytes in *. rewrite !Forall_app.
  split_and!; [by apply Forall_take|done|by apply Forall_drop].
Qed.

Lemma is_bytes_slice o n l : is_bytes l -> is_bytes (slice o n l).
Proof. intros. apply Forall_take, Forall_drop. done. Qed.

Lemma set_io_wf m err idx nv b :
  msg_wf m -> zlen b = IOBUF_SIZE -> is_bytes b -> -1 <= idx <= IOBUF_SIZE ->
  0 <= nv <= IOBUF_SIZE -> msg_wf (set_io m err idx nv b).
Proof. intros [] ????. by constructor. Qed.

Lemma set_error_wf m : msg_wf m -> msg_wf (set_error m).
Proof. intros []. by constructor. Qed.

Lemma set_idx_wf m x : msg_wf m -> -1 <= x <= IOBUF_SIZE -> msg_wf (set_idx m x).
Proof. intros [] ?. by constructor. Qed.

Lemma init_rd_idx_wf m : msg_wf m -> msg_wf (init_rd_idx m).
Proof.
  intros H. unfold init_rd_idx. destruct (_ <? _); [|done].
  apply set_idx_wf; [done|]. unfold IOBUF_SIZE. lia.
Qed.

Lemma mem_read_1 l off :
  0 <= off < zlen l ->
  exists b, l !! Z.to_nat off = Some b /\ mem_read l off 1 = Ret [b].
Proof.
  intros H. destruct (lookup_lt_is_Some_2 l (Z.to_nat off)) as [b Hb]; [unfold zlen in H; lia|].
  exists b. split; [done|]. rewrite mem_read_ok by lia.
  unfold slice. change (Z.to_nat 1) with 1%nat.
  rewrite (drop_S l b (Z.to_nat off)) by done. done.
Qed.

(** One round of the write loop. *)
Lemma wr_loop_step n m v :
  msg_wf m -> 0 <= iobuf_idx m < IOBUF_SIZE ->
  let m1 := set_io m (is_error m) (iobuf_idx m + 1) (iobuf_idx m + 1)
              (splice (Z.to_nat (iobuf_idx m)) [u8 v] (iobuf m)) in
  wr_loop (S n) m v = wr_loop n m1 (Z.shiftr v 8) /\ msg_wf m1.
Proof.
  intros H H0 m1. pose proof H as [Hb Hby Hm _ _]. split.
  - cbn [wr_loop].
    unfold inrange. rewrite Hm, (proj2 (Z.leb_le _ _)), (proj2 (Z.ltb_lt _ _)) by lia.
    cbn [andb negb].
    rewrite mem_write_ok by (rewrite ?Hb; change (zlen [u8 v]) with 1; lia). done.
  - apply set_io_wf; try done; try lia.
    + unfold zlen in *. rewrite length_splice; [done|]. unfold IOBUF_SIZE in *. simpl. lia.
    + apply is_bytes_splice; [|done]. repeat constructor; apply u8_byte.
Qed.

(** Writing [n] bytes that fit stores their little-endian encoding. *)
Lemma wr_loop_spec n m v :
  msg_wf m -> 0 <= iobuf_idx m -> iobuf_idx m + Z.of_nat (S n) <= IOBUF_SIZE ->
  wr_loop (S n) m v =
  Ret (set_io m (is_error m) (iobuf_idx m + Z.of_nat (S n)) (iobuf_idx m + Z.of_nat (S n))
         (splice (Z.to_nat (iobuf_idx m)) (le_bytes (S n) v) (iobuf m))).
Proof.
  revert m v. induction n as [|n IH]; intros m v H H0 Hn.
  { by destruct (wr_loop_step 0 m v H ltac:(lia)) as [-> H1]. }
  destruct (wr_loop_step (S n) m v H ltac:(lia)) as [-> H1].
  rewrite IH; [|done|simpl; lia|simpl; lia].
  f_equal. unfold set_io. cbn [iobuf_idx iobuf is_error]. f_equal; [simpl; lia..|].
  replace (Z.to_nat (iobuf_idx m + 1)) with (Z.to_nat (iobuf_idx m) + length [u8 v])%nat
    by (simpl; lia).
  cbn [sequence_id iobuf]. rewrite splice_splice_app; [done|].
  rewrite length_le_bytes. pose proof (mwf_buf m H). unfold zlen, IOBUF_SIZE in *. simpl. lia.
Qed.

Lemma slice_cons {A} o n (l : list A) b :
  l !! o = Some b -> slice o (S n) l = b :: slice (S o) n l.
Proof. intros H. unfold slice. by rewrite (drop_S l b o H). Qed.

(** Reading [n] valid bytes yields the value they encode. *)
Lemma rd_loop_spec n m x v :
  msg_wf m -> 0 <= iobuf_idx m -> iobuf_idx m + Z.of_nat n <= iobuf_nvalid m ->
  0 <= x -> x + 8 * Z.of_nat n <= 64 -> 0 <= v < 2 ^ x ->
  rd_loop n m x v =
  Ret (v + 2 ^ x * le_val (slice (Z.to_nat (iobuf_idx m)) n (iobuf m)),
       set_idx m (iobuf_idx m + Z.of_nat n)).
Proof.
  revert m x v. induction n as [|n IH]; intros m x v H H0 Hn Hx H64 Hv.
  { cbn. rewrite Z.mul_0_r, !Z.add_0_r. by destruct m. }
  pose proof H as [Hb Hby Hm _ Hnv].
  destruct (mem_read_1 (iobuf m) (iobuf_idx m)) as (b & Hl & Hr); [lia|].
  assert (is_byte b) as Hbb by (eapply Forall_lookup_1; eauto).
  cbn [rd_loop]. unfold inrange.
  rewrite (proj2 (Z.leb_le _ _)), (proj2 (Z.ltb_lt _ _)) by lia.
  cbn [andb negb]. rewrite Hr. cbn [mbind outcome_bind head deref].
  assert (0 <= b * 2 ^ x /\ b * 2 ^ x + 2 ^ x <= 2 ^ (x + 8)) as Hbx.
  { rewrite Z.pow_add_r by lia. unfold is_byte in Hbb. nia. }
  assert (2 ^ (x + 8) <= 2 ^ 64) by (apply Z.pow_le_mono_r; lia).
  rewrite Z.shiftl_mul_pow2, u64_id, <- Z.shiftl_mul_pow2 by lia.
  rewrite lor_shiftl by lia.
  rewrite IH; simpl iobuf_idx; simpl iobuf_nvalid; simpl iobuf; try lia.
  - rewrite (slice_cons _ n _ b Hl). cbn [le_val].
    replace (Z.to_nat (iobuf_idx m + 1)) with (S (Z.to_nat (iobuf_idx m))) by lia.
    rewrite Z.pow_add_r by lia. f_equal. f_equal; [ring|].
    unfold set_idx, set_io. cbn. f_equal. lia.
  - apply set_idx_wf; [done|lia].
Qed.

(** Reading past the valid bytes yields all ones and leaves [is_error] alone. *)
Lemma rd_loop_underflow n m x v :
  msg_wf m -> 0 <= iobuf_idx m <= iobuf_nvalid m ->
  iobuf_nvalid m < iobuf_idx m + Z.of_nat n ->
  rd_loop n m x v = Ret (2 ^ 64 - 1, set_idx m (iobuf_nvalid m)).
Proof.
  revert m x v. induction n as [|n IH]; intros m x v H H0 Hn; [lia|].
  cbn [rd_loop]. unfold inrange. rewrite (proj2 (Z.leb_le _ _)) by lia. cbn [andb].
  destruct (Z.ltb_spec (iobuf_idx m) (iobuf_nvalid m)); cbn [negb].
  - destruct (mem_read_1 (iobuf m) (iobuf_idx m)) as (b & Hl & ->).
    { destruct H. lia. }
    cbn [mbind outcome_bind head deref]. rewrite IH; simpl; [done| |lia|lia].
    apply set_idx_wf; [done|]. destruct H. lia.
  - replace (iobuf_nvalid m) with (iobuf_idx m) by lia. by destruct m.
Qed.

(** ** Runs of writes *)

(** The message after writing the bytes [d] at the index. *)
Definition wrote (m : mt_msg) (d : list Z) : mt_msg :=
  set_io m (is_error m) (iobuf_idx m + zlen d) (iobuf_idx m + zlen d)
    (splice (Z.to_nat (iobuf_idx m)) d (iobuf m)).

Definition fits (m : mt_msg) (d : list Z) : Prop :=
  0 <= iobuf_idx m /\ iobuf_idx m + zlen d <= IOBUF_SIZE.

Lemma wrote_wf m d : msg_wf m -> is_bytes d -> fits m d -> msg_wf (wrote m d).
Proof.
  intros H Hd [H0 Hf]. pose proof H as [Hb Hby Hm _ _]. unfold zlen in *.
  apply set_io_wf; unfold zlen; try done; try lia; [|by apply is_bytes_splice].
  rewrite length_splice; unfold IOBUF_SIZE in *; lia.
Qed.

Lemma wrote_wrote m d1 d2 :
  msg_wf m -> fits m (d1 ++ d2) -> wrote (wrote m d1) d2 = wrote m (d1 ++ d2).
Proof.
  intros H [H0 Hf]. pose proof (mwf_buf m H). unfold wrote, set_io, zlen in *.
  cbn [iobuf_idx iobuf is_error iobuf_idx_max]. rewrite length_app in *.
  replace (Z.to_nat (iobuf_idx m + Z.of_nat (length d1)))
    with (Z.to_nat (iobuf_idx m) + length d1)%nat by lia.
  rewrite splice_splice_app by (unfold IOBUF_SIZE in *; lia).
  by rewrite Nat2Z.inj_add, Z.add_assoc.
Qed.

Lemma wrUX_wrote k m v nbits :
  msg_wf m -> is_error m = false -> nbits = 8 * Z.of_nat (S k) ->
  fits m (le_bytes (S k) v) ->
  MT_MSG_wrUX_DBG m v nbits = Ret (wrote m (le_bytes (S k) v)).
Proof.
  intros H He -> [H0 Hf]. unfold zlen in Hf. rewrite length_le_bytes in Hf.
  unfold MT_MSG_wrUX_DBG, init_wr_idx. rewrite He, (proj2 (Z.leb_le _ _)) by lia.
  cbn [mbind outcome_bind]. rewrite Z.mul_comm, Z.div_mul, Nat2Z.id by lia.
  rewrite wr_loop_spec by done. unfold wrote, zlen. by rewrite length_le_bytes.
Qed.

Lemma wrU8_wrote m b :
  msg_wf m -> is_error m = false -> is_byte b -> fits m [b] ->
  MT_MSG_wrU8_DBG m b = Ret (wrote m [b]).
Proof.
  intros H He Hb Hf. unfold is_byte in Hb.
  assert (le_bytes 1 (u32 b) = [b]) as E.
  { simpl. unfold u32. rewrite (Z.mod_small b) by lia. by rewrite u8_id. }
  unfold MT_MSG_wrU8_DBG. rewrite (wrUX_wrote 0), E by (rewrite ?E; done). done.
Qed.

Lemma wrU16_wrote m v :
  msg_wf m -> is_error m = false -> 0 <= v < 2 ^ 32 -> fits m (le_bytes 2 v) ->
  MT_MSG_wrU16_DBG m v = Ret (wrote m (le_bytes 2 v)).
Proof.
  intros H He Hb Hf. unfold MT_MSG_wrU16_DBG, u32. rewrite Z.mod_small by lia.
  by rewrite (wrUX_wrote 1).
Qed.

(** ** The frame format *)

Definition sync_bytes (i : mt_iface) : list Z := if frame_sync i then [0xfe] else [].
Definition len_width (i : mt_iface) : nat := if len_2bytes i then 2 else 1.
Definition mt_header (i : mt_iface) (len c0 c1 : Z) : list Z :=
  sync_bytes i ++ le_bytes (len_width i) len ++ [c0; c1].
Definition mt_body (i : mt_iface) (c0 c1 : Z) (p : list Z) : list Z :=
  mt_header i (zlen p) c0 c1 ++ p.
(** The xor of everything behind the sync byte. *)
Definition mt_chk (i : mt_iface) (body : list Z) : Z :=
  Z.land (foldl Z.lxor 0 (drop (length (sync_bytes i)) body)) 0xff.
Definition mt_frame (i : mt_iface) (c0 c1 : Z) (p : list Z) : list Z :=
  mt_body i c0 c1 p ++
  (if include_chksum i then [mt_chk i (mt_body i c0 c1 p)] else []).

(** Payload lengths the length field can carry. *)
Definition len_ok (i : mt_iface) (len : Z) : Prop :=
  0 <= len < (if len_2bytes i then 65536 else 256).

Lemma zlen_header i len c0 c1 : zlen (mt_header i len c0 c1) = payload_start i.
Proof.
  unfold mt_header, sync_bytes, len_width, payload_start, zlen.
  rewrite !length_app, length_le_bytes.
  destruct (frame_sync i), (len_2bytes i); simpl; lia.
Qed.

Lemma frame_length i c0 c1 p :
  zlen (mt_frame i c0 c1 p) = payload_start i + zlen p + (if include_chksum i then 1 else 0).
Proof.
  unfold mt_frame, mt_body. rewrite !zlen_app, zlen_header.
  destruct (include_chksum i); [change (zlen [_]) with 1|change (zlen []) with 0]; lia.
Qed.

Lemma header_bytes i len c0 c1 :
  is_byte c0 -> is_byte c1 -> is_bytes (mt_header i len c0 c1).
Proof.
  intros. unfold mt_header, is_bytes, sync_bytes. rewrite !Forall_app. split_and!.
  - destruct (frame_sync i); [constructor; [byte_const|constructor]|constructor].
  - apply le_bytes_bytes.
  - by apply Forall_cons_2; [|apply Forall_cons_2; [|apply Forall_nil_2]].
Qed.

(** The format after a run of writes extends the run. *)
Lemma wrote_wrU8 m d b :
  msg_wf m -> is_error m = false -> is_bytes d -> is_byte b -> fits m (d ++ [b]) ->
  MT_MSG_wrU8_DBG (wrote m d) b = Ret (wrote m (d ++ [b])).
Proof.
  intros H He Hd Hb [H0 Hf]. unfold zlen in Hf. rewrite length_app in Hf. simpl in Hf.
  rewrite wrU8_wrote; try done.
  - rewrite wrote_wrote; try done. split; [done|]. unfold zlen. rewrite length_app. simpl. lia.
  - apply wrote_wf; try done. split; unfold zlen; lia.
  - split; cbn [wrote set_io iobuf_idx]; unfold zlen; simpl; lia.
Qed.

(** The payload the formatter finds in the buffer: the bytes [p] behind the
    header, with the index just behind them (or not set at all when there is
    no payload) and the length field either unset or right; a length that is
    right makes the index irrelevant. *)
Record has_payload (m : mt_msg) (i : mt_iface) (p : list Z) : Prop := MkPayload {
  hp_wf : msg_wf m;
  hp_dest : pDestIface m = Some i;
  hp_noerr : is_error m = false;
  hp_cmd0 : is_byte (cmd0 m);
  hp_cmd1 : is_byte (cmd1 m);
  hp_bytes : slice (Z.to_nat (payload_start i)) (length p) (iobuf m) = p;
  hp_idx : iobuf_idx m = payload_start i + zlen p \/ (iobuf_idx m = -1 /\ p = []) \/
    expected_len m = zlen p;
  hp_len : expected_len m = zlen p \/ expected_len m < 0;
  hp_len_ok : len_ok i (zlen p);
  hp_fits : payload_start i + zlen p + 1 <= IOBUF_SIZE
}.

Lemma wr_len m i len :
  msg_wf m -> is_error m = false -> len_ok i len -> fits m (le_bytes (len_width i) len) ->
  (if len_2bytes i then MT_MSG_wrU16_DBG m len else MT_MSG_wrU8_DBG m len) =
  Ret (wrote m (le_bytes (len_width i) len)).
Proof.
  intros H He Hl Hf. unfold len_ok, len_width in *. destruct (len_2bytes i).
  - apply wrU16_wrote; try done. lia.
  - cbn [le_bytes] in *. rewrite u8_id in Hf |- * by done. by apply wrU8_wrote.
Qed.

Lemma sync_len m i len :
  msg_wf m -> is_error m = false -> iobuf_idx m = 0 -> expected_len m = len -> len_ok i len ->
  (m ← (if frame_sync i then MT_MSG_wrU8_DBG m 0xfe else Ret m);
   (if len_2bytes i then MT_MSG_wrU16_DBG m (expected_len m)
        else MT_MSG_wrU8_DBG m (expected_len m))) =
  Ret (wrote m (sync_bytes i ++ le_bytes (len_width i) len)).
Proof.
  intros H He Hi El Hl.
  assert (length (le_bytes (len_width i) len) <= 2)%nat as Hll.
  { rewrite length_le_bytes. unfold len_width. destruct (len_2bytes i); lia. }
  assert (forall d : list Z, (length d <= 3)%nat -> fits m d) as Hfit.
  { intros d Hd. split; unfold IOBUF_SIZE, zlen; lia. }
  assert (is_byte 0xfe) by (byte_const).
  assert (is_bytes [0xfe]) by (constructor; [done|constructor]).
  unfold sync_bytes. destruct (frame_sync i).
  - rewrite wrU8_wrote; [|done..|apply Hfit; simpl; lia].
    cbn [mbind outcome_bind]. replace (expected_len (wrote m [254])) with len by done.
    rewrite wr_len; [|by apply wrote_wf; [..|apply Hfit; simpl; lia]|done..|].
    + rewrite wrote_wrote; try done. apply Hfit. rewrite length_app. simpl. lia.
    + split; cbn [wrote set_io iobuf_idx]; unfold zlen, IOBUF_SIZE; simpl length; lia.
  - cbn [mbind outcome_bind app]. rewrite El. apply wr_len; try done. apply Hfit. lia.
Qed.

(** The header writes, as one run. *)
Lemma format_header {B} m i len (k : mt_msg -> outcome B) :
  msg_wf m -> is_error m = false -> iobuf_idx m = 0 -> expected_len m = len ->
  len_ok i len -> is_byte (cmd0 m) -> is_byte (cmd1 m) ->
  (m ← (if frame_sync i then MT_MSG_wrU8_DBG m 0xfe else Ret m);
   m ← (if len_2bytes i then MT_MSG_wrU16_DBG m (expected_len m)
        else MT_MSG_wrU8_DBG m (expected_len m));
   m ← MT_MSG_wrU8_DBG m (cmd0 m);
   m ← MT_MSG_wrU8_DBG m (cmd1 m); k m) =
  k (wrote m (mt_header i len (cmd0 m) (cmd1 m))).
Proof.
  intros H He Hi El Hl H0 H1. rewrite <- bind_assoc_out, sync_len with (len := len) by done.
  set (d := sync_bytes i ++ _).
  assert (is_bytes d) as Hd.
  { pose proof (header_bytes i len (cmd0 m) (cmd1 m) H0 H1) as Hh.
    unfold mt_header in Hh. rewrite app_assoc in Hh. apply Forall_app in Hh as [Hh _]. done. }
  assert (zlen (d ++ [cmd0 m; cmd1 m]) <= 5) as Hz.
  { pose proof (zlen_header i len (cmd0 m) (cmd1 m)) as Hz.
    unfold mt_header in Hz. rewrite app_assoc in Hz. fold d in Hz. rewrite Hz. apply payload_start_bounds. }
  unfold zlen in Hz. rewrite length_app in Hz. simpl in Hz.
  assert (forall e : list Z, (length e <= 5)%nat -> fits m e) as Hfit.
  { intros e Hd'. split; unfold IOBUF_SIZE, zlen; lia. }
  cbn [mbind outcome_bind].
  replace (cmd0 (wrote m d)) with (cmd0 m) by done.
  rewrite wrote_wrU8; [|done..|apply Hfit; rewrite length_app; simpl; lia].
  cbn [mbind outcome_bind].
  replace (cmd1 (wrote m (d ++ [cmd0 m]))) with (cmd1 m) by done.
  rewrite wrote_wrU8; [|done..| |done|apply Hfit; rewrite !length_app; simpl; lia].
  - cbn [mbind outcome_bind]. unfold mt_header, d. by rewrite <- !app_assoc.
  - apply Forall_app; split; [done|]. by apply Forall_cons_2; [|apply Forall_nil_2].
Qed.

(** The length and index the formatter works with. *)
Definition prepared (m : mt_msg) (i : mt_iface) (p : list Z) : mt_msg :=
  set_idx (set_len m (zlen p)) 0.

Lemma format_prepared m i p :
  has_payload m i p ->
  (let m := if iobuf_idx m <? 0 then set_idx m (payload_start i) else m in
   let m := if expected_len m <? 0 then set_len m (iobuf_idx m - payload_start i) else m in
   set_idx m 0) = prepared m i p.
Proof.
  intros [Hwf Hd He H0 H1 Hb Hi Hl Hlo Hf]. unfold prepared.
  pose proof (payload_start_bounds i). pose proof (zlen_nonneg p).
  assert (expected_len m = zlen p \/ expected_len m < 0 /\
          (iobuf_idx m = payload_start i + zlen p \/ iobuf_idx m < 0 /\ zlen p = 0)) as Hc.
  { destruct Hl as [Hl|Hl]; [by left|]. destruct Hi as [Hi|[[Hi ->]|Hi]]; [right..|by left];
      (split; [done|]); [by left|right; split; [lia|done]]. }
  destruct (Z.ltb_spec (iobuf_idx m) 0); cbn [set_idx set_io expected_len iobuf_idx];
    (destruct (Z.ltb_spec (expected_len m) 0);
     unfold set_len, set_idx, set_hdr, set_io; cbn; f_equal; lia).
Qed.

Lemma prepared_wf m i p : msg_wf m -> msg_wf (prepared m i p).
Proof.
  intros []. unfold prepared. by constructor.
Qed.

(** The formatted message carries the frame in its valid bytes. *)
Record formatted (m : mt_msg) (i : mt_iface) (p : list Z) (m' : mt_msg) : Prop := MkFmt {
  fmt_wf : msg_wf m';
  fmt_noerr : is_error m' = false;
  fmt_nvalid : iobuf_nvalid m' = zlen (mt_frame i (cmd0 m) (cmd1 m) p);
  fmt_idx : iobuf_idx m' = iobuf_nvalid m';
  fmt_bytes : take (Z.to_nat (iobuf_nvalid m')) (iobuf m') = mt_frame i (cmd0 m) (cmd1 m) p;
  fmt_same : cmd0 m' = cmd0 m /\ cmd1 m' = cmd1 m /\ expected_len m' = zlen p /\
             m_type m' = m_type m /\ sequence_id m' = sequence_id m /\
             pSrcIface m' = pSrcIface m /\ pDestIface m' = Some i
}.

(** The dummy write skips over the payload. *)
Lemma wrBuf_skip m (p : list Z) :
  msg_wf m -> is_error m = false -> fits m p ->
  exists nv, MT_MSG_wrBuf_DBG m None (u64 (zlen p)) =
             Ret (set_io m false (iobuf_idx m + zlen p) nv (iobuf m)).
Proof.
  intros H He [H0 Hf]. pose proof (zlen_nonneg p).
  unfold MT_MSG_wrBuf_DBG, init_wr_idx.
  rewrite He, (proj2 (Z.leb_le _ _)) by lia. cbn [mbind outcome_bind].
  unfold IOBUF_SIZE in Hf. rewrite u64_id by lia.
  destruct (Z.eqb_spec (zlen p) 0) as [E|E].
  - exists (iobuf_nvalid m). rewrite E, Z.add_0_r. destruct m; cbn in *. by subst.
  - rewrite int32_id by lia. rewrite (mwf_max m H), (proj2 (Z.ltb_ge _ _)) by (unfold IOBUF_SIZE; lia).
    rewrite He. eauto.
Qed.

Lemma foldl_lxor_byte (l : list Z) a : is_bytes l -> is_byte a -> is_byte (foldl Z.lxor a l).
Proof.
  revert a. induction l as [|b l IH]; intros a H Ha; [done|].
  apply Forall_cons_iff in H as [Hb Hl]. cbn. apply IH; [done|]. auto with bytes.
Qed.

(** The checksum of a buffer that starts with [body] is the frame's. *)
Lemma calc_chksum_body m i body :
  take (length body) (iobuf m) = body -> (length (sync_bytes i) <= length body)%nat ->
  MT_MSG_calc_chksum m (Some i) (zlen body) = Ret (mt_chk i body).
Proof.
  intros Hb Hs. unfold MT_MSG_calc_chksum, mt_chk. cbn [deref mbind outcome_bind].
  assert ((if frame_sync i then 1 else 0) = zlen (sync_bytes i)) as ->
    by (unfold sync_bytes; destruct (frame_sync i); done).
  assert (length body <= length (iobuf m))%nat.
  { rewrite <- Hb at 1. rewrite length_take. lia. }
  unfold zlen. destruct (Z.leb_spec (Z.of_nat (length body)) (Z.of_nat (length (sync_bytes i)))).
  - rewrite drop_ge by lia. done.
  - rewrite mem_read_ok by (unfold zlen; lia). cbn [mbind outcome_bind].
    do 3 f_equal. rewrite <- Hb at 2. rewrite Nat2Z.id. unfold slice.
    rewrite take_drop_commute. do 2 f_equal. lia.
Qed.

Lemma mt_chk_byte i b : is_byte (mt_chk i b).
Proof. apply land_ff_byte. Qed.

(** What the buffer holds when the header is in front of the payload. *)
Lemma body_in_buffer m i p :
  has_payload m i p ->
  let b := iobuf (wrote (prepared m i p) (mt_header i (zlen p) (cmd0 m) (cmd1 m))) in
  let body := mt_body i (cmd0 m) (cmd1 m) p in
  take (length body) b = body.
Proof.
  intros [[Hb _ _ _ _] Hd He H0 H1 Hs Hi Hl Hlo Hf] b body.
  pose proof (payload_start_bounds i).
  unfold b, body, mt_body. set (h := mt_header _ _ _ _).
  assert (Z.to_nat (payload_start i) = length h) as Eh.
  { unfold h. rewrite <- (zlen_header i (zlen p) (cmd0 m) (cmd1 m)). unfold zlen. lia. }
  rewrite Eh in Hs. unfold zlen, IOBUF_SIZE in *.
  assert (Z.of_nat (length h) = payload_start i) as Eh' by lia.
  cbn [wrote set_io iobuf iobuf_idx prepared set_idx]. change (Z.to_nat 0) with 0%nat.
  cbn [set_len set_hdr iobuf].
  rewrite length_app. rewrite <- take_take_drop.
  assert (take (length h) (splice 0 h (iobuf m)) = h) as ->.
  { change (splice 0 h (iobuf m)) with (h ++ drop (length h) (iobuf m)). apply take_app_length. }
  f_equal. change (slice (length h) (length p) (splice 0 h (iobuf m)) = p).
  rewrite slice_splice_disjoint by lia. done.
Qed.

Lemma formatted_intro m i p m' d :
  msg_wf m' -> is_error m' = false ->
  mt_frame i (cmd0 m) (cmd1 m) p = d ->
  iobuf_nvalid m' = zlen d -> iobuf_idx m' = zlen d -> take (length d) (iobuf m') = d ->
  cmd0 m' = cmd0 m -> cmd1 m' = cmd1 m -> expected_len m' = zlen p ->
  m_type m' = m_type m -> sequence_id m' = sequence_id m ->
  pSrcIface m' = pSrcIface m -> pDestIface m' = Some i -> formatted m i p m'.
Proof.
  intros Hwf He <- Hn Hi Ht. constructor; try done; [congruence|].
  rewrite Hn. unfold zlen. by rewrite Nat2Z.id.
Qed.

Lemma format_spec m i p :
  has_payload m i p -> exists m', MT_MSG_format_msg m = Ret m' /\ formatted m i p m'.
Proof.
  intros Hp. pose proof (format_prepared m i p Hp) as Eprep.
  pose proof (body_in_buffer m i p Hp) as Ebody. cbv zeta in Ebody.
  destruct Hp as [Hwf Hd He H0 H1 Hs Hi Hl Hlo Hf].
  set (mp := prepared m i p) in *. assert (msg_wf mp) as Hmp by by apply prepared_wf.
  unfold MT_MSG_format_msg. rewrite Hd. cbn [deref mbind outcome_bind]. cbv zeta in Eprep |- *.
  rewrite Eprep. rewrite (format_header mp i (zlen p)) by done.
  change (cmd0 mp) with (cmd0 m). change (cmd1 mp) with (cmd1 m).
  set (h := mt_header i (zlen p) (cmd0 m) (cmd1 m)) in *.
  set (body := mt_body i (cmd0 m) (cmd1 m) p) in *.
  assert (zlen h = payload_start i) as Eh by apply zlen_header.
  assert (zlen body = payload_start i + zlen p) as Eb by (unfold body, mt_body; rewrite zlen_app; fold h; lia).
  pose proof (zlen_nonneg p). pose proof (payload_start_bounds i).
  assert (fits mp h) as Hfh by (split; cbn; [done|rewrite Eh; lia]).
  assert (msg_wf (wrote mp h)) as Hwh by (apply wrote_wf; [done|by apply header_bytes|done]).
  assert (iobuf_idx (wrote mp h) = payload_start i) as Eih by exact Eh.
  change (expected_len (wrote mp h)) with (zlen p).
  destruct (wrBuf_skip (wrote mp h) p) as [nv ->]; [done..|split; lia|].
  cbn [mbind outcome_bind]. rewrite Eih.
  set (mb := set_nvalid _ _). assert (iobuf_nvalid mb = zlen body) as Enb by (rewrite Eb; done).
  assert (msg_wf mb) as Hmb.
  { destruct Hwh. constructor; try done; cbn; lia. }
  change (pDestIface mb) with (pDestIface m). rewrite Enb, Hd.
  assert (length (sync_bytes i) <= length body)%nat as Hsb.
  { unfold body, mt_body, mt_header. rewrite !length_app. lia. }
  destruct (include_chksum i) eqn:Ei.
  - rewrite calc_chksum_body by done. cbn [mbind outcome_bind].
    set (mc := set_chksum mb _). change (chksum mc) with (mt_chk i body).
    assert (iobuf_idx mc = zlen body) as Eic by done.
    assert (fits mc [mt_chk i body]) as Hfc.
    { split; rewrite Eic, Eb; [lia|]. change (zlen [_]) with 1. lia. }
    rewrite wrU8_wrote; [|by destruct Hmb|done|apply mt_chk_byte|done].
    assert (msg_wf mc) as Hmc by by destruct Hmb.
    eexists. split; [done|]. apply (formatted_intro m i p _ (body ++ [mt_chk i body])); try done.
    + apply wrote_wf; [done| |done].
      apply Forall_cons_2; [apply mt_chk_byte|apply Forall_nil_2].
    + unfold mt_frame. by rewrite Ei.
    + cbn [wrote set_io iobuf_nvalid]. rewrite Eic, zlen_app. done.
    + cbn [wrote set_io iobuf_idx]. rewrite Eic, zlen_app. done.
    + cbn [wrote set_io iobuf]. rewrite Eic, length_app. unfold zlen. rewrite Nat2Z.id.
      apply take_splice_extend; [done|]. pose proof (mwf_buf _ Hmc).
      unfold zlen, IOBUF_SIZE in *. cbn [length]. lia.
  - eexists. split; [done|]. apply (formatted_intro m i p _ body); try done; try (cbn; lia).
    unfold mt_frame. rewrite Ei. by rewrite app_nil_r.
Qed.

(** Formatting does not touch the links. *)
Lemma wr_loop_links n m v m' :
  wr_loop n m v = Ret m' -> pListNext m' = pListNext m /\ pSrsp m' = pSrsp m.
Proof.
  revert m v. induction n as [|n IH]; intros m v; cbn [wr_loop]; [by intros [= <-]|].
  destruct (negb _); [by intros [= <-]|]. intros (b & _ & E)%bind_Ret_inv.
  by apply IH in E.
Qed.

Lemma wrUX_links m v n m' :
  MT_MSG_wrUX_DBG m v n = Ret m' -> pListNext m' = pListNext m /\ pSrsp m' = pSrsp m.
Proof.
  unfold MT_MSG_wrUX_DBG. destruct (is_error m); [by intros [= <-]|].
  unfold init_wr_idx. destruct (_ <=? _); [apply wr_loop_links|].
  intros (m1 & (i & _ & [= <-])%bind_Ret_inv & E)%bind_Ret_inv. by apply wr_loop_links in E.
Qed.

Lemma wrBuf_links m d n m' :
  MT_MSG_wrBuf_DBG m d n = Ret m' -> pListNext m' = pListNext m /\ pSrsp m' = pSrsp m.
Proof.
  unfold MT_MSG_wrBuf_DBG. destruct (is_error m); [by intros [= <-]|].
  intros (m1 & E1 & E)%bind_Ret_inv.
  assert (pListNext m1 = pListNext m /\ pSrsp m1 = pSrsp m) as [<- <-].
  { unfold init_wr_idx in E1. destruct (_ <=? _); [by injection E1 as <-|].
    by apply bind_Ret_inv in E1 as (i & _ & [= <-]). }
  destruct (n =? 0); [by injection E as <-|]. destruct (_ <? _); [by injection E as <-|].
  by apply bind_Ret_inv in E as (b & _ & [= <-]).
Qed.

Lemma format_links m m' :
  MT_MSG_format_msg m = Ret m' -> pListNext m' = pListNext m /\ pSrsp m' = pSrsp m.
Proof.
  unfold MT_MSG_format_msg. intros (i & _ & E)%bind_Ret_inv.
  set (m0 := set_idx _ 0) in E.
  assert (pListNext m0 = pListNext m /\ pSrsp m0 = pSrsp m) as [A0 B0].
  { unfold m0. destruct (iobuf_idx m <? 0), (expected_len _ <? 0); done. }
  apply bind_Ret_inv in E as (m1 & E1 & E). apply bind_Ret_inv in E as (m2 & E2 & E).
  assert (pListNext m1 = pListNext m0 /\ pSrsp m1 = pSrsp m0) as [A1 B1].
  { destruct (frame_sync i); [by apply wrUX_links in E1|by injection E1 as <-]. }
  assert (pListNext m2 = pListNext m1 /\ pSrsp m2 = pSrsp m1) as [A2 B2].
  { destruct (len_2bytes i); by apply wrUX_links in E2. }
  apply bind_Ret_inv in E as (m3 & [A3 B3]%wrUX_links & E).
  apply bind_Ret_inv in E as (m4 & [A4 B4]%wrUX_links & E).
  apply bind_Ret_inv in E as (m5 & [A5 B5]%wrBuf_links & E).
  destruct (include_chksum i).
  - apply bind_Ret_inv in E as (ck & _ & [A6 B6]%wrUX_links). cbn in A6, B6.
    split; congruence.
  - injection E as <-. cbn. split; congruence.
Qed.

(** ** Typed fields

    Applications build a payload with a sequence of typed writes and take it
    apart with the same sequence of typed reads. *)

Inductive field : Type :=
| F8 (v : Z) | F16 (v : Z) | F32 (v : Z) | F64 (v : Z) | FBuf (d : list Z).

Definition field_ok (f : field) : Prop :=
  match f with
  | F8 v => 0 <= v < 2 ^ 8
  | F16 v => 0 <= v < 2 ^ 16
  | F32 v => 0 <= v < 2 ^ 32
  | F64 v => 0 <= v < 2 ^ 64
  | FBuf d => is_bytes d /\ d <> []
  end.

Definition field_enc (f : field) : list Z :=
  match f with
  | F8 v => le_bytes 1 v
  | F16 v => le_bytes 2 v
  | F32 v => le_bytes 4 v
  | F64 v => le_bytes 8 v
  | FBuf d => d
  end.

Definition fields_enc (fs : list field) : list Z := flat_map field_enc fs.

Lemma fields_enc_app f g : fields_enc (f ++ g) = fields_enc f ++ fields_enc g.
Proof. apply flat_map_app. Qed.

Definition write_field (m : mt_msg) (f : field) : outcome mt_msg :=
  match f with
  | F8 v => MT_MSG_wrU8_DBG m v
  | F16 v => MT_MSG_wrU16_DBG m v
  | F32 v => MT_MSG_wrU32_DBG m v
  | F64 v => MT_MSG_wrU64_DBG m v
  | FBuf d => MT_MSG_wrBuf_DBG m (Some d) (zlen d)
  end.

Fixpoint write_fields (m : mt_msg) (fs : list field) : outcome mt_msg :=
  match fs with
  | [] => Ret m
  | f :: fs => m ← write_field m f; write_fields m fs
  end.

(** Reading with the layout of [f]; the value read replaces the one in [f]. *)
Definition read_field (m : mt_msg) (f : field) : outcome (field * mt_msg) :=
  match f with
  | F8 _ => '(v, m) ← MT_MSG_rdU8_DBG m; Ret (F8 v, m)
  | F16 _ => '(v, m) ← MT_MSG_rdU16_DBG m; Ret (F16 v, m)
  | F32 _ => '(v, m) ← MT_MSG_rdU32_DBG m; Ret (F32 v, m)
  | F64 _ => '(v, m) ← MT_MSG_rdU64_DBG m; Ret (F64 v, m)
  | FBuf d => '(o, m) ← MT_MSG_rdBuf_DBG m true (zlen d); Ret (FBuf (default [] o), m)
  end.

Fixpoint read_fields (m : mt_msg) (fs : list field) : outcome (list field * mt_msg) :=
  match fs with
  | [] => Ret ([], m)
  | f :: fs =>
      '(g, m) ← read_field m f;
      '(gs, m) ← read_fields m fs;
      Ret (g :: gs, m)
  end.

Lemma field_enc_bytes f : field_ok f -> is_bytes (field_enc f).
Proof. destruct f; intros H; try apply le_bytes_bytes. apply H. Qed.

Lemma field_enc_pos f : field_ok f -> 0 < zlen (field_enc f).
Proof. unfold zlen. destruct f as [| | | |[]]; simpl; intros H; try lia. by destruct H. Qed.

Lemma fields_enc_bytes fs : Forall field_ok fs -> is_bytes (fields_enc fs).
Proof.
  induction 1; cbn; [constructor|]. apply Forall_app; split; [by apply field_enc_bytes|done].
Qed.

(** A message the bytes [d] were appended to, from index [o]. *)
Record appended (m : mt_msg) (o : Z) (d : list Z) (m' : mt_msg) : Prop := MkApp {
  app_wf : msg_wf m';
  app_noerr : is_error m' = false;
  app_idx : iobuf_idx m' = o + zlen d;
  app_nvalid : iobuf_nvalid m' <= iobuf_idx m';
  app_buf : iobuf m' = splice (Z.to_nat o) d (iobuf m);
  app_same : cmd0 m' = cmd0 m /\ cmd1 m' = cmd1 m /\ expected_len m' = expected_len m /\
             m_type m' = m_type m /\ sequence_id m' = sequence_id m /\
             pSrcIface m' = pSrcIface m /\ pDestIface m' = pDestIface m
}.

Lemma appended_trans m1 m2 m3 o d1 d2 :
  0 <= o -> o + zlen d1 + zlen d2 <= IOBUF_SIZE -> msg_wf m1 ->
  appended m1 o d1 m2 -> appended m2 (o + zlen d1) d2 m3 -> appended m1 o (d1 ++ d2) m3.
Proof.
  intros Ho Hl H1 [] []. constructor; try done.
  - rewrite zlen_app. lia.
  - rewrite app_buf1, app_buf0. unfold zlen in *.
    replace (Z.to_nat (o + Z.of_nat (length d1))) with (Z.to_nat o + length d1)%nat by lia.
    apply splice_splice_app. pose proof (mwf_buf _ H1). unfold zlen, IOBUF_SIZE in *. lia.
  - destruct_and!. split_and!; congruence.
Qed.

Lemma appended_wrote m d :
  msg_wf m -> is_error m = false -> is_bytes d -> fits m d ->
  appended m (iobuf_idx m) d (wrote m d).
Proof. intros. constructor; try done; by apply wrote_wf. Qed.

Lemma wrBuf_appended m d :
  msg_wf m -> is_error m = false -> iobuf_nvalid m <= iobuf_idx m ->
  is_bytes d -> fits m d ->
  exists m', MT_MSG_wrBuf_DBG m (Some d) (zlen d) = Ret m' /\ appended m (iobuf_idx m) d m'.
Proof.
  intros H He Hn Hd [H0 Hf]. pose proof (zlen_nonneg d).
  pose proof H as [Hb Hby Hm Hi Hv]. unfold MT_MSG_wrBuf_DBG, init_wr_idx.
  rewrite He, (proj2 (Z.leb_le _ _)) by lia. cbn [mbind outcome_bind].
  destruct (Z.eqb_spec (zlen d) 0) as [E|E].
  - assert (d = []) as -> by (destruct d; [done|discriminate E]).
    exists m. split; [done|]. constructor; try done; [lia|by rewrite splice_nil].
  - unfold IOBUF_SIZE in *. rewrite Hm, int32_id by lia. rewrite (proj2 (Z.ltb_ge _ _)) by lia.
    rewrite mem_read_ok by lia. cbn [mbind outcome_bind].
    replace (slice (Z.to_nat 0) (Z.to_nat (zlen d)) d) with d
      by (unfold zlen; rewrite Nat2Z.id; symmetry; apply slice_0_all).
    rewrite mem_write_ok by lia. cbn [mbind outcome_bind]. eexists. split; [done|].
    constructor; try done; [|cbn; lia]. apply set_io_wf; try done; unfold IOBUF_SIZE; try lia.
    + unfold zlen in *. rewrite length_splice; lia.
    + by apply is_bytes_splice.
Qed.

Lemma write_field_ok m f :
  msg_wf m -> is_error m = false -> iobuf_nvalid m <= iobuf_idx m ->
  field_ok f -> fits m (field_enc f) ->
  exists m', write_field m f = Ret m' /\ appended m (iobuf_idx m) (field_enc f) m'.
Proof.
  intros H He Hn Hf Hfit. pose proof (field_enc_bytes f Hf) as Hb.
  destruct f; cbn [write_field field_enc field_ok] in *; [..|by apply wrBuf_appended];
    eexists; (split; [|by apply appended_wrote]).
  - unfold MT_MSG_wrU8_DBG, u32. rewrite Z.mod_small by lia. by rewrite (wrUX_wrote 0).
  - apply wrU16_wrote; try done; lia.
  - unfold MT_MSG_wrU32_DBG, u32. rewrite Z.mod_small by lia. by rewrite (wrUX_wrote 3).
  - unfold MT_MSG_wrU64_DBG, u64. rewrite Z.mod_small by lia. by rewrite (wrUX_wrote 7).
Qed.

Lemma write_fields_ok fs m :
  msg_wf m -> is_error m = false -> iobuf_nvalid m <= iobuf_idx m ->
  Forall field_ok fs -> fits m (fields_enc fs) ->
  exists m', write_fields m fs = Ret m' /\ appended m (iobuf_idx m) (fields_enc fs) m'.
Proof.
  revert m. induction fs as [|f fs IH]; intros m H He Hn Hf Hfit.
  - exists m. split; [done|]. change (fields_enc []) with (@nil Z).
    constructor; try done; [change (zlen []) with 0; lia|by rewrite splice_nil].
  - apply Forall_cons_iff in Hf as [Hf Hfs]. cbn [fields_enc flat_map] in Hfit.
    destruct Hfit as [H0 Hfit]. fold (fields_enc fs) in Hfit. rewrite zlen_app in Hfit.
    pose proof (zlen_nonneg (fields_enc fs)).
    destruct (write_field_ok m f) as (m1 & E1 & A1); try done; [split; lia|].
    pose proof A1 as [W1 N1 I1 V1 _ _]. pose proof (field_enc_pos f Hf).
    destruct (IH m1) as (m2 & E2 & A2); try done; [split; lia|].
    exists m2. cbn [write_fields]. rewrite E1. cbn [mbind outcome_bind]. split; [done|].
    rewrite I1 in A2. change (fields_enc (f :: fs)) with (field_enc f ++ fields_enc fs).
    apply (appended_trans m m1 m2); try done. lia.
Qed.

(** Writes that do not fit set [is_error] and leave the message well formed. *)
Lemma wr_loop_overflow n m v :
  msg_wf m -> 0 <= iobuf_idx m -> IOBUF_SIZE < iobuf_idx m + Z.of_nat n ->
  exists m', wr_loop n m v = Ret m' /\ is_error m' = true /\ msg_wf m'.
Proof.
  revert m v. induction n as [|n IH]; intros m v H H0 Hn; pose proof H as [_ _ Hm Hi _]; [lia|].
  destruct (decide (iobuf_idx m < IOBUF_SIZE)).
  - destruct (wr_loop_step n m v H ltac:(lia)) as [-> H1]. apply IH; cbn; [done|lia|lia].
  - cbn [wr_loop]. unfold inrange. rewrite Hm, (proj2 (Z.ltb_ge _ _)), andb_false_r by lia.
    cbn [negb]. eexists. split; [done|]. split; [done|]. by apply set_error_wf.
Qed.

Lemma wrUX_overflow m v k :
  msg_wf m -> is_error m = false -> 0 <= iobuf_idx m -> IOBUF_SIZE < iobuf_idx m + Z.of_nat k ->
  exists m', MT_MSG_wrUX_DBG m v (8 * Z.of_nat k) = Ret m' /\ is_error m' = true /\ msg_wf m'.
Proof.
  intros H He H0 Hk. unfold MT_MSG_wrUX_DBG, init_wr_idx.
  rewrite He, (proj2 (Z.leb_le _ _)) by lia. cbn [mbind outcome_bind].
  rewrite Z.mul_comm, Z.div_mul, Nat2Z.id by lia. by apply wr_loop_overflow.
Qed.

Lemma write_field_overflow m f :
  msg_wf m -> is_error m = false -> 0 <= iobuf_idx m -> field_ok f ->
  zlen (field_enc f) < 2 ^ 31 -> IOBUF_SIZE < iobuf_idx m + zlen (field_enc f) ->
  exists m', write_field m f = Ret m' /\ is_error m' = true /\ msg_wf m'.
Proof.
  intros H He H0 Hf H31 Ho. destruct f; cbn [write_field field_enc field_ok] in *;
    try (unfold zlen in Ho; rewrite length_le_bytes in Ho).
  - by apply (wrUX_overflow m (u32 v) 1).
  - by apply (wrUX_overflow m (u32 v) 2).
  - by apply (wrUX_overflow m (u32 v) 4).
  - by apply (wrUX_overflow m (u64 v) 8).
  - pose proof H as [_ _ Hm Hi _]. pose proof (zlen_nonneg d).
    unfold MT_MSG_wrBuf_DBG, init_wr_idx.
    rewrite He, (proj2 (Z.leb_le _ _)) by lia. cbn [mbind outcome_bind].
    rewrite (proj2 (Z.eqb_neq _ _)), int32_id, Hm, (proj2 (Z.ltb_lt _ _)) by lia.
    eexists. split; [done|]. split; [done|]. by apply set_error_wf.
Qed.

Lemma write_field_error m f : is_error m = true -> write_field m f = Ret m.
Proof.
  intros He. destruct f; cbn [write_field];
    unfold MT_MSG_wrU8_DBG, MT_MSG_wrU16_DBG, MT_MSG_wrU32_DBG, MT_MSG_wrU64_DBG,
      MT_MSG_wrUX_DBG, MT_MSG_wrBuf_DBG; by rewrite He.
Qed.

Lemma write_fields_error m fs : is_error m = true -> write_fields m fs = Ret m.
Proof.
  intros He. induction fs as [|f fs IH]; [done|].
  cbn [write_fields]. rewrite write_field_error by done. exact IH.
Qed.

Lemma write_fields_overflow fs m :
  msg_wf m -> is_error m = false -> 0 <= iobuf_idx m -> iobuf_nvalid m <= iobuf_idx m ->
  Forall field_ok fs -> zlen (fields_enc fs) < 2 ^ 31 ->
  IOBUF_SIZE < iobuf_idx m + zlen (fields_enc fs) ->
  exists m', write_fields m fs = Ret m' /\ is_error m' = true /\ msg_wf m'.
Proof.
  revert m. induction fs as [|f fs IH]; intros m H He H0 Hn Hf H31 Ho.
  { change (zlen (fields_enc [])) with 0 in Ho. destruct H. lia. }
  apply Forall_cons_iff in Hf as [Hf Hfs]. cbn [fields_enc flat_map] in H31, Ho.
  fold (fields_enc fs) in H31, Ho. rewrite zlen_app in H31, Ho.
  pose proof (zlen_nonneg (fields_enc fs)). pose proof (field_enc_pos f Hf).
  cbn [write_fields].
  destruct (decide (iobuf_idx m + zlen (field_enc f) <= IOBUF_SIZE)).
  - destruct (write_field_ok m f) as (m1 & -> & [W1 N1 I1 V1 _ _]); try done.
    cbn [mbind outcome_bind]. apply IH; try done; lia.
  - destruct (write_field_overflow m f) as (m1 & -> & E1 & W1); try done; [lia..|].
    cbn [mbind outcome_bind]. exists m1. split; [by apply write_fields_error|done].
Qed.

(** ** Typed reads *)

(** The bytes [d] are next to be read. *)
Record ahead (m : mt_msg) (d : list Z) : Prop := MkAhead {
  ah_wf : msg_wf m;
  ah_noerr : is_error m = false;
  ah_idx : 0 <= iobuf_idx m;
  ah_valid : iobuf_idx m + zlen d <= iobuf_nvalid m;
  ah_bytes : slice (Z.to_nat (iobuf_idx m)) (length d) (iobuf m) = d
}.

Lemma ahead_app m d1 d2 :
  ahead m (d1 ++ d2) ->
  ahead m d1 /\ ahead (set_idx m (iobuf_idx m + zlen d1)) d2.
Proof.
  intros [H He H0 Hv Hs]. rewrite zlen_app in Hv. rewrite length_app, slice_app in Hs.
  pose proof (mwf_nvalid m H). pose proof (mwf_buf m H).
  pose proof (zlen_nonneg d1). pose proof (zlen_nonneg d2). unfold zlen in *.
  apply app_inj_1 in Hs as [Hs1 Hs2]; [|apply length_slice; lia].
  split; constructor; try done; unfold zlen; cbn; try lia.
  - apply set_idx_wf; [done|lia].
  - rewrite <- Hs2 at 2. f_equal. lia.
Qed.

Lemma rdUX_ahead m n v nbits :
  ahead m (le_bytes n v) -> nbits = 8 * Z.of_nat n -> (n <= 8)%nat -> 0 <= v < 2 ^ (8 * Z.of_nat n) ->
  MT_MSG_rdUX_DBG m nbits = Ret (v, set_idx m (iobuf_idx m + Z.of_nat n)).
Proof.
  intros [H He H0 Hv Hs] -> Hn Hr. unfold MT_MSG_rdUX_DBG, init_rd_idx.
  unfold zlen in Hv. rewrite length_le_bytes in Hv, Hs.
  rewrite He, (proj2 (Z.ltb_ge _ _)) by lia.
  rewrite Z.mul_comm, Z.div_mul, Nat2Z.id by lia.
  rewrite rd_loop_spec by (done || lia). rewrite Hs, le_val_bytes, Z.mod_small by lia.
  do 2 f_equal. lia.
Qed.

Lemma rdBuf_ahead m d :
  ahead m d -> d <> [] ->
  MT_MSG_rdBuf_DBG m true (zlen d) = Ret (Some d, set_idx m (iobuf_idx m + zlen d)).
Proof.
  intros [H He H0 Hv Hs] Hd. pose proof H as [Hb _ Hm _ Hnv].
  assert (0 < zlen d) by (unfold zlen; destruct d; [done|simpl; lia]).
  unfold IOBUF_SIZE in *. unfold MT_MSG_rdBuf_DBG, init_rd_idx.
  rewrite He, (proj2 (Z.ltb_ge _ _)), (proj2 (Z.eqb_neq _ _)) by lia.
  rewrite int32_id, Hm, (proj2 (Z.ltb_ge _ _)) by lia.
  rewrite mem_read_ok by lia. cbn [mbind outcome_bind]. unfold zlen at 1.
  by rewrite Nat2Z.id, Hs.
Qed.

Lemma read_field_ahead m f :
  ahead m (field_enc f) -> field_ok f ->
  read_field m f = Ret (f, set_idx m (iobuf_idx m + zlen (field_enc f))).
Proof.
  intros Ha Hf. destruct f as [v|v|v|v|d]; cbn [read_field field_enc field_ok] in *.
  - unfold MT_MSG_rdU8_DBG. rewrite (rdUX_ahead m 1 v) by (done || lia).
    cbn [mbind outcome_bind]. unfold u8. rewrite Z.mod_small by lia. done.
  - unfold MT_MSG_rdU16_DBG. rewrite (rdUX_ahead m 2 v) by (done || lia).
    cbn [mbind outcome_bind]. unfold u16. rewrite Z.mod_small by lia. done.
  - unfold MT_MSG_rdU32_DBG. rewrite (rdUX_ahead m 4 v) by (done || lia).
    cbn [mbind outcome_bind]. unfold u32. rewrite Z.mod_small by lia. done.
  - unfold MT_MSG_rdU64_DBG. rewrite (rdUX_ahead m 8 v) by (done || lia). done.
  - rewrite rdBuf_ahead by (done || apply Hf). done.
Qed.

Lemma read_fields_ahead fs m :
  ahead m (fields_enc fs) -> Forall field_ok fs ->
  read_fields m fs = Ret (fs, set_idx m (iobuf_idx m + zlen (fields_enc fs))).
Proof.
  revert m. induction fs as [|f fs IH]; intros m Ha Hf.
  - cbn [read_fields]. change (zlen (fields_enc [])) with 0. rewrite Z.add_0_r. by destruct m.
  - apply Forall_cons_iff in Hf as [Hf Hfs].
    change (fields_enc (f :: fs)) with (field_enc f ++ fields_enc fs) in *.
    apply ahead_app in Ha as [Ha1 Ha2]. cbn [read_fields].
    rewrite read_field_ahead by done. cbn [mbind outcome_bind]. rewrite IH by done.
    cbn [mbind outcome_bind set_idx set_io iobuf_idx]. rewrite zlen_app. do 2 f_equal.
    unfold set_idx, set_io. cbn. f_equal. lia.
Qed.

(** ** Building a message from scratch *)

Lemma set_type_None m : exists t, MT_MSG_set_type m None = Ret (set_mtype m t).
Proof.
  unfold MT_MSG_set_type. cbn [set_mtype set_hdr cmd0].
  destruct (_ || _); [by eexists|].
  destruct (_ && _); [|by eexists]. eexists. cbn. done.
Qed.

Lemma new_spec seq len c0 c1 :
  exists m, MT_MSG_new seq len c0 c1 = Ret m /\ msg_wf m /\ is_error m = false /\
    iobuf_idx m = -1 /\ iobuf_nvalid m = 0 /\ cmd0 m = c0 /\ cmd1 m = c1 /\
    expected_len m = len /\ sequence_id m = seq /\ pSrsp m = None /\ pListNext m = None.
Proof.
  unfold MT_MSG_new, MT_MSG_resetMsg.
  edestruct set_type_None as [t ->]. cbn [mbind outcome_bind]. eexists. split; [done|].
  split; [|done]. constructor; try done.
  cbn [set_io set_len set_mtype set_hdr set_cmds iobuf].
  apply Forall_replicate. byte_const.
Qed.

Definition start_msg (seq : Z) (i : mt_iface) (c0 c1 : Z) : outcome mt_msg :=
  m ← MT_MSG_new seq (-1) c0 c1; MT_MSG_setDestIface m (Some i).

Lemma start_msg_spec seq i c0 c1 :
  exists m, start_msg seq i c0 c1 = Ret m /\ msg_wf m /\ is_error m = false /\
    iobuf_idx m = payload_start i /\ iobuf_nvalid m = 0 /\ cmd0 m = c0 /\ cmd1 m = c1 /\
    expected_len m = -1 /\ pDestIface m = Some i.
Proof.
  unfold start_msg. destruct (new_spec seq (-1) c0 c1) as
    (m & -> & Hwf & He & Hi & Hn & H0 & H1 & Hl & _).
  cbn [mbind outcome_bind]. unfold MT_MSG_setDestIface, init_wr_idx.
  cbn [set_ifaces iobuf_idx pDestIface]. rewrite (proj2 (Z.leb_gt _ _)) by lia.
  cbn [deref mbind outcome_bind]. eexists. split; [done|]. split; [|done].
  destruct Hwf. pose proof (payload_start_bounds i).
  constructor; cbn; try done. unfold IOBUF_SIZE. lia.
Qed.

Lemma write_fields_links fs m m' :
  write_fields m fs = Ret m' -> pListNext m' = pListNext m /\ pSrsp m' = pSrsp m.
Proof.
  revert m. induction fs as [|f fs IH]; intros m; cbn [write_fields]; [by intros [= <-]|].
  intros (m1 & E1 & [A B]%IH)%bind_Ret_inv. rewrite A, B.
  destruct f; cbn [write_field] in E1; (by apply wrUX_links in E1) || by apply wrBuf_links in E1.
Qed.

(** A message ready for its payload, and what the typed writes make of it. *)
Record writable (m : mt_msg) (i : mt_iface) : Prop := MkWritable {
  wa_wf : msg_wf m;
  wa_noerr : is_error m = false;
  wa_idx : iobuf_idx m = payload_start i;
  wa_nvalid : iobuf_nvalid m <= iobuf_idx m;
  wa_dest : pDestIface m = Some i;
  wa_cmd0 : is_byte (cmd0 m);
  wa_cmd1 : is_byte (cmd1 m)
}.

Lemma write_payload m i fs :
  writable m i -> Forall field_ok fs -> len_ok i (zlen (fields_enc fs)) ->
  expected_len m = zlen (fields_enc fs) \/ expected_len m < 0 ->
  payload_start i + zlen (fields_enc fs) + 1 <= IOBUF_SIZE ->
  exists m', write_fields m fs = Ret m' /\ has_payload m' i (fields_enc fs) /\
    cmd0 m' = cmd0 m /\ cmd1 m' = cmd1 m /\ pListNext m' = pListNext m /\ pSrsp m' = pSrsp m.
Proof.
  intros [Hwf He Hi Hn Hd H0 H1] Hf Hl Hel Hfit. pose proof (payload_start_bounds i).
  destruct (write_fields_ok fs m) as (m1 & E & A); try done; [split; lia|].
  apply write_fields_links in E as Hk.
  destruct A as [W N I V B (S0 & S1 & S2 & S3 & S4 & S5 & S6)].
  exists m1. split; [done|]. split; [|done].
  rewrite <- S0 in H0. rewrite <- S1 in H1. rewrite <- S2 in Hel. rewrite Hd in S6.
  constructor; try done; [|left; lia].
  rewrite B, Hi. apply slice_splice_same. pose proof (mwf_buf m Hwf).
  unfold zlen, IOBUF_SIZE in *. lia.
Qed.

(** A message built with typed writes and formatted. *)
Definition build_msg (seq : Z) (i : mt_iface) (c0 c1 : Z) (fs : list field) : outcome mt_msg :=
  m ← start_msg seq i c0 c1; m ← write_fields m fs; MT_MSG_format_msg m.

Lemma build_spec seq i c0 c1 fs :
  is_byte c0 -> is_byte c1 -> Forall field_ok fs -> len_ok i (zlen (fields_enc fs)) ->
  payload_start i + zlen (fields_enc fs) + 1 <= IOBUF_SIZE ->
  exists m', build_msg seq i c0 c1 fs = Ret m' /\ msg_wf m' /\ is_error m' = false /\
    take (Z.to_nat (iobuf_nvalid m')) (iobuf m') = mt_frame i c0 c1 (fields_enc fs).
Proof.
  intros H0 H1 Hf Hl Hfit. unfold build_msg. pose proof (payload_start_bounds i).
  destruct (start_msg_spec seq i c0 c1) as (m & -> & Hwf & He & Hi & Hn & E0 & E1 & El & Ed).
  cbn [mbind outcome_bind].
  destruct (write_payload m i fs) as (m1 & -> & Hp & C0 & C1 & _); try done; [|by right; lia|].
  { constructor; try done; [lia|congruence|congruence]. }
  cbn [mbind outcome_bind]. destruct (format_spec m1 i (fields_enc fs) Hp) as (m' & -> & F).
  exists m'. split; [done|]. destruct F as [Fw Fe _ _ Fb _].
  split; [done|]. split; [done|]. rewrite Fb. congruence.
Qed.

(** ** Forwarding *)

(** A received message: the payload [p] stands where the source interface
    puts it and the length field agrees. *)
Record received (m : mt_msg) (f : mt_iface) (p : list Z) : Prop := MkReceived {
  rc_wf : msg_wf m;
  rc_src : pSrcIface m = Some f;
  rc_noerr : is_error m = false;
  rc_cmd0 : is_byte (cmd0 m);
  rc_cmd1 : is_byte (cmd1 m);
  rc_len : expected_len m = zlen p;
  rc_fits : payload_start f + zlen p <= IOBUF_SIZE;
  rc_bytes : slice (Z.to_nat (payload_start f)) (length p) (iobuf m) = p
}.

Lemma reformat_spec m f i p :
  received m f p -> len_ok i (zlen p) -> payload_start i + zlen p + 1 <= IOBUF_SIZE ->
  exists m', MT_MSG_reformat (set_ifaces m (Some f) (Some i)) = Ret m' /\ has_payload m' i p /\
    cmd0 m' = cmd0 m /\ cmd1 m' = cmd1 m.
Proof.
  intros [Hwf Hsrc He H0 H1 Hl Hf Hb] Hlo Hfit.
  pose proof (payload_start_bounds f). pose proof (payload_start_bounds i).
  pose proof (zlen_nonneg p). pose proof Hwf as [Wb Wby Wm Wi Wn].
  unfold MT_MSG_reformat. cbn [set_ifaces pSrcIface pDestIface deref mbind outcome_bind].
  cbn [set_ifaces expected_len iobuf]. rewrite Hl.
  assert (exists b, (if negb (zlen p =? 0) && negb (payload_start f =? payload_start i) then
     d ← mem_read (iobuf m) (payload_start f) (zlen p); mem_write (iobuf m) (payload_start i) d
     else Ret (iobuf m)) = Ret b /\ zlen b = IOBUF_SIZE /\ is_bytes b /\
     slice (Z.to_nat (payload_start i)) (length p) b = p) as (b & -> & B1 & B2 & B3).
  { destruct (Z.eqb_spec (zlen p) 0) as [E|E]; cbn [negb andb].
    { exists (iobuf m). assert (p = []) as -> by (destruct p; [done|discriminate E]). done. }
    destruct (Z.eqb_spec (payload_start f) (payload_start i)) as [E2|E2]; cbn [negb].
    { exists (iobuf m). by rewrite <- E2. }
    rewrite mem_read_ok by lia.
    replace (Z.to_nat (zlen p)) with (length p) by (unfold zlen; lia). rewrite Hb.
    cbn [mbind outcome_bind]. rewrite mem_write_ok by lia.
    assert (is_bytes p) by (rewrite <- Hb; by apply is_bytes_slice).
    unfold zlen, IOBUF_SIZE in *. eexists. split; [done|].
    rewrite length_splice by lia. split; [done|]. split; [by apply is_bytes_splice|].
    apply slice_splice_same. lia. }
  cbn [mbind outcome_bind]. eexists. split; [done|]. split; [|done].
  constructor; try done; [|by left|by left].
  unfold IOBUF_SIZE in *. constructor; cbn; try done; unfold IOBUF_SIZE; lia.
Qed.

(** ** Classification *)

Lemma bits40 c : bitsXYof c 4 0 = c mod 32.
Proof. unfold bitsXYof. rewrite Z.shiftr_0_r. apply (land_low c 5). lia. Qed.

(** A check over all the bytes. *)
Lemma all_bytes (P : Z -> bool) :
  forallb P (map Z.of_nat (seq 0 256)) = true -> forall b, is_byte b -> P b = true.
Proof.
  rewrite forallb_forall. intros H b Hb. unfold is_byte in Hb. apply H.
  apply in_map_iff. exists (Z.to_nat b). split; [lia|]. apply in_seq. lia.
Qed.

Lemma set_type_major m i c :
  cmd0 m = c -> is_byte c -> Z.shiftr c 5 <= 3 ->
  MT_MSG_set_type m i = Ret (set_mtype m (lut_major (Z.shiftr c 5))).
Proof.
  intros E Hc H3. unfold MT_MSG_set_type. cbn [set_mtype set_hdr cmd0]. rewrite E.
  unfold is_byte in Hc. rewrite (proj2 (Z.ltb_ge _ _)), (proj2 (Z.ltb_ge _ _)) by lia.
  assert (0 <= Z.shiftr c 5 < 8) as Hs.
  { rewrite Z.shiftr_div_pow2 by lia. change (2 ^ 5) with 32.
    split; [apply Z.div_pos; lia|apply Z.div_lt_upper_bound; lia]. }
  assert (bitsXYof c 7 5 = Z.shiftr c 5) as ->.
  { unfold bitsXYof. change (Z.shiftl 1 (7 - 5 + 1) - 1) with (2 ^ 3 - 1).
    rewrite land_low by lia. apply Z.mod_small. lia. }
  cbn [orb]. rewrite (proj2 (Z.leb_le _ _)), (proj2 (Z.leb_le _ _)) by lia. done.
Qed.

(** With the extension bit the type comes from the first payload byte. *)
Lemma set_type_ext m i c b :
  cmd0 m = c -> is_byte c -> 4 <= Z.shiftr c 5 ->
  zlen (iobuf m) = IOBUF_SIZE -> payload_start i <= iobuf_nvalid m ->
  iobuf m !! Z.to_nat (payload_start i) = Some b ->
  MT_MSG_set_type m (Some i) =
  Ret (set_mtype m (default T_unknown (lut_minor (bitsXYof b 7 3) (Z.shiftr c 5 - 4)))).
Proof.
  intros E Hc H4 Hz Hn Hb. pose proof (payload_start_bounds i).
  unfold MT_MSG_set_type. cbn [set_mtype set_hdr cmd0]. rewrite E.
  unfold is_byte in Hc. rewrite (proj2 (Z.ltb_ge _ _)), (proj2 (Z.ltb_ge _ _)) by lia.
  assert (0 <= Z.shiftr c 5 < 8) as Hs.
  { rewrite Z.shiftr_div_pow2 by lia. change (2 ^ 5) with 32.
    split; [apply Z.div_pos; lia|apply Z.div_lt_upper_bound; lia]. }
  assert (bitsXYof c 7 5 = Z.shiftr c 5) as ->.
  { unfold bitsXYof. change (Z.shiftl 1 (7 - 5 + 1) - 1) with (2 ^ 3 - 1).
    rewrite land_low by lia. apply Z.mod_small. lia. }
  cbn [orb]. rewrite (proj2 (Z.leb_le _ _)), (proj2 (Z.leb_gt _ _)) by lia. cbn [andb].
  cbn [set_mtype set_hdr iobuf_nvalid iobuf]. rewrite (proj2 (Z.ltb_ge _ _)) by lia.
  destruct (mem_read_1 (iobuf m) (payload_start i)) as (b' & Hb' & ->); [unfold IOBUF_SIZE in *; lia|].
  cbn [mbind outcome_bind head deref]. assert (b' = b) as -> by congruence.
  assert (Z.land (Z.shiftr c 5) 3 = Z.shiftr c 5 - 4) as ->.
  { rewrite (land_low _ 2) by lia. symmetry. apply (Zmod_unique _ _ 1); lia. }
  by destruct (lut_minor _ _).
Qed.

Lemma set_type_total m i :
  zlen (iobuf m) = IOBUF_SIZE -> exists t, MT_MSG_set_type m (Some i) = Ret (set_mtype m t).
Proof.
  intros Hz. unfold MT_MSG_set_type. cbn [set_mtype set_hdr cmd0].
  destruct (_ || _); [by eexists|]. destruct (_ && _); [by eexists|].
  destruct (_ <? _); [by eexists|]. pose proof (payload_start_bounds i).
  destruct (mem_read_1 (iobuf m) (payload_start i)) as (b & _ & E); [unfold IOBUF_SIZE in *; lia|].
  cbn [set_mtype set_hdr iobuf]. rewrite E. cbn [mbind outcome_bind head deref].
  destruct (lut_minor _ _); by eexists.
Qed.

Lemma cmd0_kind k c : 0 <= k <= 3 ->
  let r := u8 (Z.lor (Z.shiftl k 5) (bitsXYof c 4 0)) in is_byte r /\ Z.shiftr r 5 = k.
Proof.
  intros Hk. rewrite bits40. pose proof (Z.mod_pos_bound c 32 ltac:(lia)) as Hm.
  rewrite Z.lor_comm, lor_shiftl by (change (2 ^ 5) with 32; lia).
  cbv zeta. rewrite u8_id by (unfold is_byte; lia). split; [unfold is_byte; lia|].
  rewrite Z.shiftr_div_pow2 by lia. change (2 ^ 5) with 32.
  rewrite Z.div_add, Z.div_small by lia. lia.
Qed.

(** ** Reading never faults *)

Inductive read_op : Type :=
| RdU8 | RdU16 | RdU32 | RdU64 | RdBuf (copy : bool) (n : Z) | Peek (o : Z).

Definition run_read (m : mt_msg) (o : read_op) : outcome mt_msg :=
  match o with
  | RdU8 => '(_, m) ← MT_MSG_rdU8_DBG m; Ret m
  | RdU16 => '(_, m) ← MT_MSG_rdU16_DBG m; Ret m
  | RdU32 => '(_, m) ← MT_MSG_rdU32_DBG m; Ret m
  | RdU64 => '(_, m) ← MT_MSG_rdU64_DBG m; Ret m
  | RdBuf copy n => '(_, m) ← MT_MSG_rdBuf_DBG m copy n; Ret m
  | Peek o => '(_, m) ← MT_MSG_Peek_u8_DBG m o; Ret m
  end.

Definition read_op_ok (o : read_op) : Prop :=
  match o with RdBuf _ n => 0 <= n < 2 ^ 31 - IOBUF_SIZE | _ => True end.

(** A read changes the index and the error flag, nothing else. *)
Definition same_content (m m' : mt_msg) : Prop :=
  exists err idx, m' = set_io m err idx (iobuf_nvalid m) (iobuf m).

Lemma same_content_refl m : same_content m m.
Proof. exists (is_error m), (iobuf_idx m). by destruct m. Qed.

Lemma same_content_trans m1 m2 m3 :
  same_content m1 m2 -> same_content m2 m3 -> same_content m1 m3.
Proof. intros (e1 & x1 & ->) (e2 & x2 & ->). by exists e2, x2. Qed.

#[export] Instance same_content_preorder : PreOrder same_content.
Proof. split; [exact same_content_refl|exact same_content_trans]. Qed.

Lemma rd_loop_safe n m x v :
  msg_wf m -> 0 <= iobuf_idx m ->
  exists r m', rd_loop n m x v = Ret (r, m') /\ msg_wf m' /\ same_content m m'.
Proof.
  revert m x v. induction n as [|n IH]; intros m x v H H0.
  { do 2 eexists. split; [done|]. split; [done|]. reflexivity. }
  cbn [rd_loop]. pose proof H as [Hb _ _ _ Hn].
  unfold inrange. destruct (_ && _) eqn:E; cbn [negb].
  - apply andb_true_iff in E as [_ E]. apply Z.ltb_lt in E.
    destruct (mem_read_1 (iobuf m) (iobuf_idx m)) as (b & _ & ->); [lia|].
    cbn [mbind outcome_bind head deref].
    destruct (IH (set_idx m (iobuf_idx m + 1)) (x + 8) (Z.lor v (u64 (Z.shiftl b x))))
      as (r & m' & -> & W & S); [apply set_idx_wf; [done|lia]|cbn; lia|].
    do 2 eexists. split; [done|]. split; [done|]. etrans; [|exact S]. by do 2 eexists.
  - do 2 eexists. split; [done|]. split; [done|]. reflexivity.
Qed.

Lemma init_rd_idx_spec m :
  msg_wf m -> msg_wf (init_rd_idx m) /\ 0 <= iobuf_idx (init_rd_idx m) /\
  same_content m (init_rd_idx m).
Proof.
  intros H. split; [by apply init_rd_idx_wf|]. unfold init_rd_idx.
  destruct (Z.ltb_spec (iobuf_idx m) 0); (split; [cbn; lia|]); [by do 2 eexists|reflexivity].
Qed.

Lemma rdUX_safe m n :
  msg_wf m -> exists r m', MT_MSG_rdUX_DBG m n = Ret (r, m') /\ msg_wf m' /\ same_content m m'.
Proof.
  intros H. unfold MT_MSG_rdUX_DBG. destruct (is_error m).
  { do 2 eexists. split; [done|]. split; [done|]. reflexivity. }
  destruct (init_rd_idx_spec m H) as (W & I & S).
  destruct (rd_loop_safe (Z.to_nat (n / 8)) (init_rd_idx m) 0 0 W I) as (r & m' & -> & W' & S').
  do 2 eexists. split; [done|]. split; [done|]. by etrans.
Qed.

Lemma run_read_safe m o :
  msg_wf m -> read_op_ok o -> exists m', run_read m o = Ret m' /\ msg_wf m' /\ same_content m m'.
Proof.
  intros H Ho. destruct o as [| | | |copy n|o]; cbn [run_read read_op_ok] in *;
    unfold MT_MSG_rdU8_DBG, MT_MSG_rdU16_DBG, MT_MSG_rdU32_DBG, MT_MSG_rdU64_DBG;
    try (edestruct rdUX_safe as (r & m' & -> & W & S); [exact H|]; by exists m').
  - unfold MT_MSG_rdBuf_DBG. destruct (is_error m).
    { eexists. split; [done|]. split; [done|]. reflexivity. }
    destruct (init_rd_idx_spec m H) as (W & I & S). pose proof W as [Wb _ Wm Wi _].
    destruct (n =? 0); [by eexists|]. unfold IOBUF_SIZE in *. rewrite int32_id, Wm by lia.
    destruct (Z.ltb_spec 4096 (iobuf_idx (init_rd_idx m) + n)).
    { eexists. split; [done|]. split; [by apply set_error_wf|]. etrans; [exact S|].
      by do 2 eexists. }
    assert (msg_wf (set_idx (init_rd_idx m) (iobuf_idx (init_rd_idx m) + n)) /\
            same_content m (set_idx (init_rd_idx m) (iobuf_idx (init_rd_idx m) + n))) as [W2 S2].
    { split; [apply set_idx_wf; [done|unfold IOBUF_SIZE; lia]|]. etrans; [exact S|].
      by do 2 eexists. }
    destruct copy; [rewrite mem_read_ok by lia|]; by eexists.
  - unfold MT_MSG_Peek_u8_DBG. destruct (init_rd_idx_spec m H) as (W & I & S).
    unfold inrange. destruct (_ && _) eqn:E; cbn [negb]; [|by eexists].
    apply andb_true_iff in E as [E1 E2]. apply Z.leb_le in E1. apply Z.ltb_lt in E2.
    edestruct mem_read_1 as (b & _ & ->); [|by eexists]. destruct W. lia.
Qed.

Fixpoint run_reads (m : mt_msg) (os : list read_op) : outcome mt_msg :=
  match os with [] => Ret m | o :: os => m ← run_read m o; run_reads m os end.

(** ** Properties *)

(** A message built from scratch with typed writes and then formatted for
    an interface holds exactly the frame of the MT format in its valid bytes:
    the optional sync byte 0xfe, the one- or two-byte little-endian payload
    length, the two command bytes, the payload, and, where the interface
    wants it, the xor of everything behind the sync byte. *)
Theorem mt_build_frame seq i c0 c1 fs :
  is_byte c0 -> is_byte c1 -> Forall field_ok fs -> len_ok i (zlen (fields_enc fs)) ->
  payload_start i + zlen (fields_enc fs) + 1 <= IOBUF_SIZE ->
  exists m', build_msg seq i c0 c1 fs = Ret m' /\ msg_wf m' /\ is_error m' = false /\
    take (Z.to_nat (iobuf_nvalid m')) (iobuf m') = mt_frame i c0 c1 (fields_enc fs).
Proof. apply build_spec. Qed.

(** The configuration the applications use on the UART. *)
Definition uart_iface : mt_iface := MkIface true true true false 0 247 3.

Lemma mt_build_frame_witness :
  exists m', build_msg 1 uart_iface 0x2a 0x43 [F8 7; F16 0x1234; FBuf [1; 2]] = Ret m' /\
    msg_wf m' /\ is_error m' = false /\
    take (Z.to_nat (iobuf_nvalid m')) (iobuf m') =
    [0xfe; 5; 0; 0x2a; 0x43; 7; 0x34; 0x12; 1; 2; 0x4e].
Proof.
  refine (mt_build_frame 1 uart_iface 0x2a 0x43 [F8 7; F16 0x1234; FBuf [1; 2]] _ _ _ _ _).
  - byte_const.
  - byte_const.
  - repeat (apply Forall_cons_2; [cbn; try lia|]); [|apply Forall_nil_2].
    split; [|done]. apply (bool_decide_unpack (is_bytes _)). vm_compute. exact I.
  - byte_const.
  - cbv. congruence.
Defined.

(** Typed writes that run past the 4096-byte buffer are caught: whatever
    the sequence of writes, if the payload does not fit behind the header the
    message comes back well formed with [is_error] set, and no write leaves
    the buffer. *)
Theorem mt_write_overflow_caught seq i c0 c1 fs :
  Forall field_ok fs -> zlen (fields_enc fs) < 2 ^ 31 ->
  IOBUF_SIZE < payload_start i + zlen (fields_enc fs) ->
  exists m', (m ← start_msg seq i c0 c1; write_fields m fs) = Ret m' /\
    is_error m' = true /\ msg_wf m'.
Proof.
  intros Hf H31 Ho. destruct (start_msg_spec seq i c0 c1) as (m & -> & Hwf & He & Hi & Hn & _).
  pose proof (payload_start_bounds i). cbn [mbind outcome_bind].
  apply write_fields_overflow; try done; lia.
Qed.

Lemma mt_write_overflow_caught_witness :
  exists m', (m ← start_msg 1 uart_iface 0x2a 0x43; write_fields m [FBuf (replicate 4090 1); F16 3])
             = Ret m' /\ is_error m' = true /\ msg_wf m'.
Proof.
  refine (mt_write_overflow_caught 1 uart_iface 0x2a 0x43 [FBuf (replicate 4090 1); F16 3] _ _ _).
  - apply Forall_cons_2; [|apply Forall_cons_2; [cbn; lia|apply Forall_nil_2]].
    split; [|done]. apply (bool_decide_unpack (is_bytes _)). vm_compute. exact I.
  - vm_compute. done.
  - vm_compute. done.
Defined.

(** Forwarding keeps the payload: a message received on one interface,
    reformatted for another one (whose header may have another width, in which
    case the payload moves inside the buffer) and formatted, is the frame of
    the destination with the same commands and payload. *)
Theorem mt_forward_frame m f i p :
  received m f p -> len_ok i (zlen p) -> payload_start i + zlen p + 1 <= IOBUF_SIZE ->
  exists m', (m ← MT_MSG_reformat (MT_MSG_setSrcIface (set_ifaces m None (Some i)) (Some f));
              MT_MSG_format_msg m) = Ret m' /\ is_error m' = false /\
    take (Z.to_nat (iobuf_nvalid m')) (iobuf m') = mt_frame i (cmd0 m) (cmd1 m) p.
Proof.
  intros Hr Hl Hf. destruct (reformat_spec m f i p Hr Hl Hf) as (m1 & E1 & Hp & C0 & C1).
  change (MT_MSG_setSrcIface (set_ifaces m None (Some i)) (Some f))
    with (set_ifaces m (Some f) (Some i)).
  rewrite E1. cbn [mbind outcome_bind].
  destruct (format_spec m1 i p Hp) as (m2 & -> & F). exists m2. split; [done|].
  destruct F as [_ Fe _ _ Fb _]. split; [done|]. rewrite Fb. congruence.
Qed.

(** The socket configuration: a frame without sync byte and checksum. *)
Definition socket_iface : mt_iface := MkIface false false true true 0 1024 3.

Definition forward_example : mt_msg :=
  MkMsg 1 (Some uart_iface) None T_sreq false 3 0x21 0x02 0 false 5 8 IOBUF_SIZE
    ([0xfe; 3; 0; 0x21; 0x02; 10; 11; 12] ++ replicate 4088 0) None None.

Lemma mt_forward_frame_witness :
  exists m', (m ← MT_MSG_reformat
                   (MT_MSG_setSrcIface (set_ifaces forward_example None (Some socket_iface))
                      (Some uart_iface));
              MT_MSG_format_msg m) = Ret m' /\ is_error m' = false /\
    take (Z.to_nat (iobuf_nvalid m')) (iobuf m') = [3; 0; 0x21; 0x02; 10; 11; 12].
Proof.
  refine (mt_forward_frame forward_example uart_iface socket_iface [10; 11; 12] _ _ _).
  - constructor; [constructor|..]; try (vm_compute; done);
      try (byte_const); try (cbv; congruence).
    apply (bool_decide_unpack (is_bytes _)). vm_compute. exact I.
  - byte_const.
  - cbv. congruence.
Defined.

(** The four constructors of [cmd0] and the classification agree: whatever
    subsystem number is passed, a message with the resulting command is
    classified as a poll, a synchronous request, an asynchronous request and a
    synchronous response respectively, and nothing else of it changes. *)
Theorem mt_type_of_cmd0 m i c :
  MT_MSG_set_type (set_cmds m (MT_MSG_cmd0_poll c) (cmd1 m)) i =
    Ret (set_mtype (set_cmds m (MT_MSG_cmd0_poll c) (cmd1 m)) T_poll) /\
  MT_MSG_set_type (set_cmds m (MT_MSG_cmd0_sreq c) (cmd1 m)) i =
    Ret (set_mtype (set_cmds m (MT_MSG_cmd0_sreq c) (cmd1 m)) T_sreq) /\
  MT_MSG_set_type (set_cmds m (MT_MSG_cmd0_areq c) (cmd1 m)) i =
    Ret (set_mtype (set_cmds m (MT_MSG_cmd0_areq c) (cmd1 m)) T_areq) /\
  MT_MSG_set_type (set_cmds m (MT_MSG_cmd0_srsp c) (cmd1 m)) i =
    Ret (set_mtype (set_cmds m (MT_MSG_cmd0_srsp c) (cmd1 m)) T_srsp).
Proof.
  assert (forall k, 0 <= k <= 3 ->
    let r := u8 (Z.lor (Z.shiftl k 5) (bitsXYof c 4 0)) in
    MT_MSG_set_type (set_cmds m r (cmd1 m)) i =
    Ret (set_mtype (set_cmds m r (cmd1 m)) (lut_major k))) as H.
  { intros k Hk r. destruct (cmd0_kind k c Hk) as [Hb Hs]. fold r in Hb, Hs.
    rewrite (set_type_major _ i r); [by rewrite Hs|done..|lia]. }
  split_and!; [apply (H 0)|apply (H 1)|apply (H 2)|apply (H 3)]; lia.
Qed.

(** Reading is memory safe: any sequence of typed reads, buffer reads and
    peeks on a well-formed message returns, whatever the received bytes are
    and however far the reads run, and leaves the bytes, the header fields and
    the number of valid bytes as they were. *)
Theorem mt_reads_safe os m :
  msg_wf m -> Forall read_op_ok os ->
  exists m', run_reads m os = Ret m' /\ msg_wf m' /\ same_content m m'.
Proof.
  revert m. induction os as [|o os IH]; intros m H Ho.
  { exists m. split; [done|]. split; [done|]. reflexivity. }
  apply Forall_cons_iff in Ho as [Ho Hos]. cbn [run_reads].
  destruct (run_read_safe m o H Ho) as (m1 & -> & W1 & S1).
  destruct (IH m1 W1 Hos) as (m2 & E2 & W2 & S2). exists m2.
  split; [done|]. split; [done|]. by etrans.
Qed.

Lemma mt_reads_safe_witness :
  exists m', run_reads forward_example [RdU64; Peek (-9); RdBuf true 4096; RdU8] = Ret m' /\
    msg_wf m' /\ same_content forward_example m'.
Proof.
  refine (mt_reads_safe [RdU64; Peek (-9); RdBuf true 4096; RdU8] forward_example _ _).
  - constructor; try (vm_compute; done); try (byte_const).
    apply (bool_decide_unpack (is_bytes _)). vm_compute. exact I.
  - repeat (apply Forall_cons_2; [cbn; unfold IOBUF_SIZE; try lia; done|]). apply Forall_nil_2.
Defined.

(** A typed read past the valid bytes does not raise the error flag that
    the header file documents for it: it consumes what is left, returns all
    ones and leaves [is_error] false. *)
Theorem mt_read_underflow_silent m k :
  msg_wf m -> is_error m = false -> 0 <= iobuf_idx m <= iobuf_nvalid m ->
  iobuf_nvalid m < iobuf_idx m + Z.of_nat k ->
  MT_MSG_rdUX_DBG m (8 * Z.of_nat k) = Ret (2 ^ 64 - 1, set_idx m (iobuf_nvalid m)).
Proof.
  intros H He Hi Hk. unfold MT_MSG_rdUX_DBG, init_rd_idx.
  rewrite He, (proj2 (Z.ltb_ge _ _)) by lia.
  rewrite Z.mul_comm, Z.div_mul, Nat2Z.id by lia. by apply rd_loop_underflow.
Qed.

Lemma mt_read_underflow_silent_witness :
  MT_MSG_rdUX_DBG forward_example (8 * Z.of_nat 4) =
  Ret (2 ^ 64 - 1, set_idx forward_example 8).
Proof.
  refine (mt_read_underflow_silent forward_example 4 _ _ _ _).
  - constructor; try (vm_compute; done); try (byte_const).
    apply (bool_decide_unpack (is_bytes _)). vm_compute. exact I.
  - done.
  - byte_const.
  - cbv. done.
Defined.

End MtMsg.
