(* ===== verification/MtRx.v ===== *)
(** * Receiving MT messages (mt_interface/api/src/mt_msg.c)

    [mt_msg_rx_bytes] and [mt_msg_rx] turn the byte stream of a UART or socket
    into messages: hunt for the sync byte, read the header, read the payload,
    check the checksum.  The device is behind the interface [Stream]; the
    theorems about every device use its law only, the theorems about
    particular byte sequences use the scripted stream of this file. *)

From Stdlib Require Import ZArith Lia.
From stdpp Require Import base list option numbers.
From S2P Require Import Prelude MtMsg.

Open Scope Z_scope.

(** ** The device interface *)

(** Result of a read: some bytes, a timeout (0), or a failure (negative). *)
Inductive rd_result : Type :=
| Got (bs : list Z)
| Silent
| Failed.

Class Stream (S : Type) : Type := {
  rdBytes : S -> Z -> rd_result * S;
  rdDump : S -> S;
  isConnected : S -> bool
}.

(** A read returns at least one and at most as many bytes as asked for. *)
Class StreamLaw (S : Type) `{Stream S} : Prop := {
  rdBytes_got s n bs s' : rdBytes s n = (Got bs, s') -> 0 < zlen bs <= n
}.

Module MtRx.
Import MtMsg.

Section Receive.
Context {S : Type} `{Stream S}.

(** The parts of the interface the receiver works on: the message under
    construction, the device and [is_dead]. *)
Record rx_state : Type := MkRx {
  rx_msg : mt_msg;
  rx_dev : S;
  is_dead : bool
}.

Definition with_msg (st : rx_state) (m : mt_msg) : rx_state :=
  MkRx m (rx_dev st) (is_dead st).

(** [mt_msg_rx_bytes]: the number of valid bytes afterwards, or [n] when
    there were enough already. *)
Definition mt_msg_rx_bytes (pMI : mt_iface) (st : rx_state) (n : Z) : outcome (Z * rx_state) :=
  let pMsg := rx_msg st in
  if n <=? iobuf_nvalid pMsg then Ret (n, st)
  else
    let nneed := n - iobuf_nvalid pMsg in
    let '(r, s) := rdBytes (rx_dev st) nneed in
    match r with
    | Got bs =>
        b ← mem_write (iobuf pMsg) (iobuf_nvalid pMsg) bs;
        let m := set_io pMsg (is_error pMsg) (iobuf_idx pMsg) (iobuf_nvalid pMsg + zlen bs) b in
        Ret (iobuf_nvalid m, MkRx m s (is_dead st))
    | Silent | Failed =>
        let dead :=
          if is_socket pMI then (if negb (isConnected s) then true else is_dead st)
          else match r with Failed => true | _ => is_dead st end in
        Ret (iobuf_nvalid pMsg, MkRx pMsg s dead)
    end.

(** The bytes a message needs before its length is known. *)
Definition rx_base (pMI : mt_iface) : Z :=
  (if frame_sync pMI then 1 else 0) + (if len_2bytes pMI then 2 else 1) + 1 + 1 + 0 +
  (if include_chksum pMI then 1 else 0).

(** [memchr] for the sync byte. *)
Fixpoint find_sync (l : list Z) : option nat :=
  match l with
  | [] => None
  | b :: l => if b =? 0xfe then Some O else Datatypes.S <$> find_sync l
  end.

(** Where control goes after a section of [mt_msg_rx]. *)
Inductive rx_pc : Type :=
| TryAgain (st : rx_state)
| ReadMore (st : rx_state) (nneed : Z)
| Return (st : rx_state) (received : bool).

(** The code at label [try_again]. *)
Definition rx_try_again (pMI : mt_iface) (st : rx_state) : rx_pc :=
  let m := rx_msg st in
  ReadMore (with_msg st (set_io m (is_error m) (iobuf_idx m) 0
                           (replicate (Z.to_nat (iobuf_idx_max m)) 0)))
           (rx_base pMI).

(** Hunting for the sync byte and moving it to byte 0. *)
Inductive hunt : Type :=
| NotFound
| Shifted (m : mt_msg)     (* more bytes are needed *)
| InPlace (m : mt_msg).

Definition rx_hunt (m : mt_msg) (nneed : Z) : outcome hunt :=
  d ← mem_read (iobuf m) 0 (iobuf_nvalid m);
  match find_sync d with
  | None => Ret NotFound
  | Some O => Ret (InPlace m)
  | Some k =>
      let n := iobuf_nvalid m - Z.of_nat k in
      d ← mem_read (iobuf m) (Z.of_nat k) n;
      b ← mem_write (iobuf m) 0 d;
      b ← mem_write b n (replicate (Z.to_nat (iobuf_nvalid m - n)) 0);
      let m := set_io m (is_error m) (iobuf_idx m) n b in
      if iobuf_nvalid m <? nneed then Ret (Shifted m) else Ret (InPlace m)
  end.

(** From "Found start" to the second read: the header fields. *)
Definition rx_header (pMI : mt_iface) (m : mt_msg) : outcome mt_msg :=
  '(len, m) ← (if len_2bytes pMI then MT_MSG_rdU16_DBG m else MT_MSG_rdU8_DBG m);
  let m := set_len m len in
  '(c0, m) ← MT_MSG_rdU8_DBG m;
  let m := set_cmds m c0 (cmd1 m) in
  '(c1, m) ← MT_MSG_rdU8_DBG m;
  Ret (set_cmds m (cmd0 m) c1).

(** The code behind the payload read: skip the payload, check the checksum,
    classify. *)
Definition rx_finish (pMI : mt_iface) (st : rx_state) : outcome rx_pc :=
  let m := rx_msg st in
  '(_, m) ← MT_MSG_rdBuf_DBG m false (u64 (expected_len m));
  r ← (if include_chksum pMI then MT_MSG_calc_chksum m (pSrcIface m) (iobuf_nvalid m) else Ret 0);
  if negb (r =? 0) then Ret (TryAgain (MkRx m (rdDump (rx_dev st)) (is_dead st)))
  else
    m ← MT_MSG_set_type m (pSrcIface m);
    Ret (Return (with_msg st (set_idx m (payload_start pMI))) true).

(** An addition of two [int]s. *)
Definition add_int (a b : Z) : outcome Z :=
  if a + b <? 2 ^ 31 then Ret (a + b) else Undef SignedOverflow.

(** The code at label [read_more]. *)
Definition rx_read_more (pMI : mt_iface) (st : rx_state) (nneed : Z) : outcome rx_pc :=
  '(r, st) ← mt_msg_rx_bytes pMI st nneed;
  if (r =? 0) || (r <? 0) then Ret (Return st false)
  else
    let m := set_idx (rx_msg st) 0 in
    h ← (if frame_sync pMI then rx_hunt m nneed else Ret (InPlace m));
    match h with
    | NotFound => Ret (TryAgain (with_msg st m))
    | Shifted m => Ret (ReadMore (with_msg st m) nneed)
    | InPlace m =>
        '(_, m) ← (if frame_sync pMI then MT_MSG_rdU8_DBG m else Ret (0, m));
        m ← rx_header pMI m;
        nneed ← add_int nneed (expected_len m);
        '(r, st) ← mt_msg_rx_bytes pMI (with_msg st m) nneed;
        if negb (r =? nneed) then
          if 0 <? r then Ret (ReadMore st nneed)
          else Ret (TryAgain (MkRx (rx_msg st) (rdDump (rx_dev st)) (is_dead st)))
        else rx_finish pMI st
    end.

Definition rx_goto (pMI : mt_iface) (pc : rx_pc) : outcome rx_pc :=
  match pc with
  | TryAgain st => Ret (rx_try_again pMI st)
  | ReadMore st nneed => rx_read_more pMI st nneed
  | Return st ok => Ret pc
  end.

Fixpoint rx_run (fuel : nat) (pMI : mt_iface) (pc : rx_pc) : outcome (bool * rx_state) :=
  match pc with
  | Return st ok => Ret (ok, st)
  | _ =>
      match fuel with
      | O => NoFuel
      | Datatypes.S fuel => pc ← rx_goto pMI pc; rx_run fuel pMI pc
      end
  end.

(** [mt_msg_rx]: [cur] is [pCurRxMsg]; a new message takes the sequence number
    [seq].  The results are the message returned, [pCurRxMsg] afterwards, the
    device and [is_dead]. *)
Definition mt_msg_rx (fuel : nat) (pMI : mt_iface) (seq : Z) (cur : option mt_msg) (s : S)
    (dead : bool) : outcome (option mt_msg * option mt_msg * S * bool) :=
  m ← match cur with
      | None => m ← MT_MSG_new seq (-1) (-1) (-1); Ret (MT_MSG_setSrcIface m (Some pMI))
      | Some m => MT_MSG_resetMsg m (-1) (-1) (-1)
      end;
  '(ok, st) ← rx_run fuel pMI (TryAgain (MkRx m s dead));
  if (ok : bool) then Ret (Some (rx_msg st), None, rx_dev st, is_dead st)
  else Ret (None, Some (rx_msg st), rx_dev st, is_dead st).

End Receive.

(** ** The scripted stream *)

(** What happens at successive reads: bytes arrive, nothing arrives before
    the timeout, the device fails, the peer hangs up. *)
Inductive event : Type :=
| RdBytes (bs : list Z)
| RdNone
| RdFail
| RdHangup.

Record script : Type := MkScript { events : list event; connected : bool }.

(** A read takes what it can use of the bytes that are there and leaves the
    rest for the next one; an exhausted script stays silent. *)
Definition script_read (s : script) (n : Z) : rd_result * script :=
  match events s with
  | RdBytes bs :: es =>
      let d := take (Z.to_nat n) bs in
      match d with
      | [] => (Silent, MkScript es (connected s))
      | _ => (Got d, MkScript (match drop (Z.to_nat n) bs with
                               | [] => es
                               | rest => RdBytes rest :: es
                               end) (connected s))
      end
  | RdNone :: es => (Silent, MkScript es (connected s))
  | RdFail :: es => (Failed, MkScript es (connected s))
  | RdHangup :: es => (Failed, MkScript es false)
  | [] => (Silent, s)
  end.

(** [STREAM_rdDump] (gateway_common/src/stream_common.c): read and discard
    until the device has been silent for the timeout, or fails. *)
Fixpoint script_dump (es : list event) (c : bool) : script :=
  match es with
  | RdBytes _ :: es => script_dump es c
  | RdNone :: es => MkScript es c
  | RdFail :: es => MkScript es c
  | RdHangup :: es => MkScript es false
  | [] => MkScript [] c
  end.

#[export] Instance script_stream : Stream script := {|
  rdBytes := script_read;
  rdDump s := script_dump (events s) (connected s);
  isConnected := connected
|}.

(** Everything at once. *)
Definition one_chunk (d : list Z) : script := MkScript [RdBytes d] true.

Definition rx_result (o : outcome (option mt_msg * option mt_msg * script * bool))
  : option (Z * Z * Z * list Z * list event) :=
  match o with
  | Ret (Some m, _, s, _) =>
      Some (expected_len m, cmd0 m, cmd1 m, take (Z.to_nat (iobuf_nvalid m)) (iobuf m), events s)
  | _ => None
  end.

Example rx_demo :
  rx_result (mt_msg_rx 10 uart_iface 1 None
     (one_chunk ([1; 2; 3; 4; 5; 6; 7] ++ mt_frame uart_iface 0x21 2 [10; 11; 12] ++ [9; 9])) false)
  = Some (3, 0x21, 2, mt_frame uart_iface 0x21 2 [10; 11; 12], [RdBytes [9; 9]]).
Proof. vm_compute. reflexivity. Qed.

#[export] Instance script_law : StreamLaw script.
Proof.
  constructor. intros [es c] n bs s'. cbn. unfold script_read. cbn.
  destruct es as [|[b| | |] es]; try discriminate.
  destruct (take (Z.to_nat n) b) as [|x l] eqn:E; [discriminate|].
  intros [= <- _]. unfold zlen. pose proof (length_take b (Z.to_nat n)) as Hl.
  rewrite E in Hl. cbn [length] in *. lia.
Qed.

(** ** The receive buffer *)

(** The message holds exactly the bytes [d], the rest of its buffer is zero. *)
Record rxbuf (i : mt_iface) (m : mt_msg) (d : list Z) : Prop := MkRxBuf {
  rb_buf : iobuf m = d ++ replicate (Z.to_nat IOBUF_SIZE - length d) 0;
  rb_nvalid : iobuf_nvalid m = zlen d;
  rb_max : iobuf_idx_max m = IOBUF_SIZE;
  rb_noerr : is_error m = false;
  rb_src : pSrcIface m = Some i;
  rb_bytes : is_bytes d;
  rb_fits : zlen d <= IOBUF_SIZE
}.

Lemma rxbuf_length i m d : rxbuf i m d -> zlen (iobuf m) = IOBUF_SIZE.
Proof.
  intros []. rewrite rb_buf0, zlen_app. unfold zlen, IOBUF_SIZE in *.
  rewrite length_replicate. lia.
Qed.

Lemma rxbuf_set_idx i m d x : rxbuf i m d -> rxbuf i (set_idx m x) d.
Proof. by intros []. Qed.

Lemma rxbuf_set_hdr i m d t l c0 c1 k : rxbuf i m d -> rxbuf i (set_hdr m t l c0 c1 k) d.
Proof. by intros []. Qed.

Lemma rxbuf_wf i m d : rxbuf i m d -> 0 <= iobuf_idx m <= IOBUF_SIZE -> msg_wf m.
Proof.
  intros Hb Hi. pose proof (rxbuf_length i m d Hb). destruct Hb.
  pose proof (zlen_nonneg d). constructor; try done; try lia.
  rewrite rb_buf0. apply Forall_app; split; [done|].
  apply Forall_replicate. byte_const.
Qed.

Lemma rxbuf_ahead i m d : rxbuf i m d -> ahead (set_idx m 0) d.
Proof.
  intros Hb. pose proof Hb as []. constructor; cbn; try done; try lia.
  - eapply rxbuf_wf; [by apply rxbuf_set_idx|]. cbn. unfold IOBUF_SIZE. lia.
  - rewrite rb_buf0. unfold slice. apply take_app_length.
Qed.

Lemma rxbuf_write i m d bs :
  rxbuf i m d -> is_bytes bs -> zlen d + zlen bs <= IOBUF_SIZE ->
  exists b, mem_write (iobuf m) (iobuf_nvalid m) bs = Ret b /\
    rxbuf i (set_io m (is_error m) (iobuf_idx m) (iobuf_nvalid m + zlen bs) b) (d ++ bs).
Proof.
  intros Hb Hbs Hl. pose proof (rxbuf_length i m d Hb) as Hz. destruct Hb.
  pose proof (zlen_nonneg d). rewrite rb_nvalid0, mem_write_ok by lia.
  eexists. split; [done|]. constructor; cbn; try done.
  - rewrite rb_buf0. unfold zlen, IOBUF_SIZE in *. rewrite Nat2Z.id. unfold splice.
    rewrite take_app_length, <- app_assoc. do 2 f_equal.
    rewrite <- drop_drop, drop_app_length. rewrite length_app.
    rewrite drop_replicate. f_equal. lia.
  - by rewrite zlen_app.
  - apply Forall_app; done.
  - by rewrite zlen_app.
Qed.

(** ** Bytes that are already there *)

(** The device has the bytes [w] ready, then [es]. *)
Definition pend (w : list Z) (es : list event) : list event :=
  match w with [] => es | _ => RdBytes w :: es end.

Lemma script_read_pend w es c n :
  0 < n <= zlen w ->
  script_read (MkScript (pend w es) c) n =
  (Got (take (Z.to_nat n) w), MkScript (pend (drop (Z.to_nat n) w) es) c).
Proof.
  intros Hn. unfold zlen in Hn. destruct w as [|b w]; [cbn in Hn; lia|].
  unfold script_read. cbn [pend events connected].
  destruct (Z.to_nat n) as [|k] eqn:E; [lia|]. cbn [take drop].
  by destruct (drop k w).
Qed.

Lemma rx_bytes_chunk i m d w es c dead n :
  rxbuf i m d -> is_bytes w -> zlen d < n <= zlen d + zlen w -> n <= IOBUF_SIZE ->
  exists m', mt_msg_rx_bytes i (MkRx m (MkScript (pend w es) c) dead) n =
    Ret (n, MkRx m' (MkScript (pend (drop (Z.to_nat (n - zlen d)) w) es) c) dead) /\
    rxbuf i m' (d ++ take (Z.to_nat (n - zlen d)) w) /\ iobuf_idx m' = iobuf_idx m /\
    expected_len m' = expected_len m /\ cmd0 m' = cmd0 m /\ cmd1 m' = cmd1 m.
Proof.
  intros Hb Hw Hn Hs. unfold mt_msg_rx_bytes. cbn [rx_msg rx_dev is_dead].
  rewrite (rb_nvalid _ _ _ Hb), (proj2 (Z.leb_gt _ _)) by lia.
  change rdBytes with script_read. rewrite script_read_pend by lia.
  set (bs := take _ w). assert (zlen bs = n - zlen d) as Hz.
  { unfold bs, zlen in *. rewrite length_take. lia. }
  destruct (rxbuf_write i m d bs) as (b & E & Hb'); [done|by apply Forall_take|lia|].
  rewrite (rb_nvalid _ _ _ Hb) in E, Hb'. rewrite E. cbn [mbind outcome_bind].
  eexists. split; [|done]. cbn [set_io iobuf_nvalid]. rewrite Hz. do 2 f_equal. lia.
Qed.

Lemma rx_bytes_enough i st (n : Z) :
  n <= iobuf_nvalid (rx_msg (S := script) st) -> mt_msg_rx_bytes i st n = Ret (n, st).
Proof. intros. unfold mt_msg_rx_bytes. by rewrite (proj2 (Z.leb_le _ _)). Qed.

(** ** Hunting *)

Lemma find_sync_none g : Forall (fun b => b <> 0xfe) g -> find_sync g = None.
Proof.
  induction 1 as [|b g Hb _ IH]; [done|]. cbn.
  by rewrite (proj2 (Z.eqb_neq _ _)), IH.
Qed.

Lemma find_sync_app g l :
  Forall (fun b => b <> 0xfe) g -> find_sync (g ++ 0xfe :: l) = Some (length g).
Proof.
  induction 1 as [|b g Hb _ IH]; [done|]. cbn.
  by rewrite (proj2 (Z.eqb_neq _ _)), IH.
Qed.

Lemma hunt_in_place i m l n :
  rxbuf i m (0xfe :: l) -> rx_hunt m n = Ret (InPlace m).
Proof.
  intros Hb. pose proof (rxbuf_length _ _ _ Hb). pose proof Hb as [].
  pose proof (zlen_nonneg (0xfe :: l)). unfold rx_hunt.
  rewrite mem_read_ok by lia. cbn [mbind outcome_bind].
  replace (slice (Z.to_nat 0) (Z.to_nat (iobuf_nvalid m)) (iobuf m)) with (0xfe :: l); [done|].
  rewrite rb_nvalid0, rb_buf0. unfold zlen. rewrite Nat2Z.id. unfold slice. symmetry.
  apply take_app_length.
Qed.

Lemma rxbuf_valid i m d : rxbuf i m d -> mem_read (iobuf m) 0 (iobuf_nvalid m) = Ret d.
Proof.
  intros Hb. pose proof (rxbuf_length _ _ _ Hb). pose proof Hb as []. pose proof (zlen_nonneg d).
  rewrite mem_read_ok, rb_nvalid0, rb_buf0 by lia. f_equal. unfold zlen. rewrite Nat2Z.id.
  unfold slice. apply take_app_length.
Qed.

Lemma hunt_not_found i m d n :
  rxbuf i m d -> Forall (fun b => b <> 0xfe) d -> rx_hunt m n = Ret NotFound.
Proof.
  intros Hb Hd. unfold rx_hunt. rewrite (rxbuf_valid _ _ _ Hb). cbn [mbind outcome_bind].
  by rewrite find_sync_none.
Qed.

Lemma hunt_shifted i m g l n :
  rxbuf i m (g ++ 0xfe :: l) -> Forall (fun b => b <> 0xfe) g -> g <> [] ->
  zlen (0xfe :: l) < n ->
  exists m', rx_hunt m n = Ret (Shifted m') /\ rxbuf i m' (0xfe :: l) /\
    iobuf_idx m' = iobuf_idx m.
Proof.
  intros Hb Hg Hne Hn. unfold rx_hunt. rewrite (rxbuf_valid _ _ _ Hb). cbn [mbind outcome_bind].
  rewrite find_sync_app by done. pose proof (rxbuf_length _ _ _ Hb) as Hz. pose proof Hb as [].
  set (f := 0xfe :: l) in *. rewrite zlen_app in rb_nvalid0, rb_fits0.
  assert (exists k, length g = Datatypes.S k) as [k Ek] by (destruct g; [done|by eexists]).
  rewrite Ek. rewrite <- Ek.
  replace (iobuf_nvalid m - Z.of_nat (length g)) with (zlen f) by (unfold zlen in *; lia).
  unfold zlen, IOBUF_SIZE in *.
  rewrite mem_read_ok by (unfold zlen; lia). rewrite !Nat2Z.id.
  assert (slice (length g) (length f) (iobuf m) = f) as ->.
  { rewrite rb_buf0. unfold slice. rewrite <- app_assoc, drop_app_length. apply take_app_length. }
  cbn [mbind outcome_bind]. rewrite mem_write_ok by (unfold zlen; lia).
  cbn [mbind outcome_bind]. change (Z.to_nat 0) with 0%nat.
  set (z := replicate _ 0). assert (length z = length g) as Lz.
  { unfold z. rewrite length_replicate. lia. }
  rewrite mem_write_ok by (unfold zlen; rewrite ?length_splice; lia). cbn [mbind outcome_bind].
  cbn [set_io iobuf_nvalid]. rewrite (proj2 (Z.ltb_lt _ _)) by lia.
  eexists. split; [done|]. split; [|done]. apply Forall_app in rb_bytes0 as [Bg Bf].
  constructor; try done; cbn [iobuf set_io]; [|unfold zlen, IOBUF_SIZE; lia].
  rewrite Nat2Z.id. change (length f) with (0 + length f)%nat at 1.
  rewrite splice_splice_app by lia. unfold splice.
  change (take 0 (iobuf m)) with (@nil Z). rewrite app_nil_l, <- app_assoc. f_equal.
  rewrite length_app, Lz, rb_buf0. cbn [Nat.add].
  replace (length f + length g)%nat with (length (g ++ f)) by (rewrite length_app; lia).
  rewrite drop_app_length. unfold z, IOBUF_SIZE. rewrite <- replicate_add. f_equal.
  rewrite length_app. lia.
Qed.

(** ** The header *)

Lemma rd8_ahead m b : ahead m [b] -> is_byte b ->
  MT_MSG_rdU8_DBG m = Ret (b, set_idx m (iobuf_idx m + 1)).
Proof.
  intros Ha Hb. unfold is_byte in Hb. assert (le_bytes 1 b = [b]) as E by (cbn; by rewrite u8_id).
  unfold MT_MSG_rdU8_DBG. rewrite (rdUX_ahead m 1 b); [|by rewrite E|done|lia|cbn; lia].
  cbn [mbind outcome_bind]. by rewrite u8_id.
Qed.

Lemma rd_len_ahead i m len :
  ahead m (le_bytes (len_width i) len) -> len_ok i len ->
  (if len_2bytes i then MT_MSG_rdU16_DBG m else MT_MSG_rdU8_DBG m) =
  Ret (len, set_idx m (iobuf_idx m + Z.of_nat (len_width i))).
Proof.
  unfold len_ok, len_width. destruct (len_2bytes i); intros Ha Hl.
  - unfold MT_MSG_rdU16_DBG. rewrite (rdUX_ahead m 2 len); [|done|done|lia|cbn; lia].
    cbn [mbind outcome_bind]. by rewrite u16_id.
  - cbn [le_bytes] in Ha. rewrite u8_id in Ha by done. by apply rd8_ahead.
Qed.

(** Nothing of a read sequence depends on the header fields of the structure. *)
Lemma ahead_set_hdr m t l c0 c1 k d : ahead m d -> ahead (set_hdr m t l c0 c1 k) d.
Proof. intros [[]]. by constructor. Qed.

Lemma ahead_cons m b d : ahead m (b :: d) -> ahead m [b] /\ ahead (set_idx m (iobuf_idx m + 1)) d.
Proof. apply (ahead_app m [b] d). Qed.

Lemma rx_header_spec i m len c0 c1 x :
  ahead m (le_bytes (len_width i) len ++ [c0; c1] ++ x) ->
  len_ok i len -> is_byte c0 -> is_byte c1 ->
  rx_header i m = Ret (set_cmds (set_len
    (set_idx m (iobuf_idx m + Z.of_nat (len_width i) + 2)) len) c0 c1).
Proof.
  intros Ha Hl H0 H1. unfold rx_header. apply ahead_app in Ha as [Ha Hc].
  rewrite (rd_len_ahead i m len) by done. cbn [mbind outcome_bind].
  unfold zlen in Hc. rewrite length_le_bytes in Hc.
  set (m1 := set_idx m _) in *. cbn [app] in Hc. apply ahead_cons in Hc as [Hc Hd].
  apply ahead_cons in Hd as [Hd _].
  rewrite (rd8_ahead _ c0) by (try done; by apply ahead_set_hdr).
  cbn [mbind outcome_bind]. rewrite (rd8_ahead _ c1); [|by apply (ahead_set_hdr (set_idx m1 _))|done].
  cbn [mbind outcome_bind]. f_equal. unfold m1. clear. destruct m. cbn.
  replace (iobuf_idx0 + Z.of_nat (len_width i) + 1 + 1)
    with (iobuf_idx0 + Z.of_nat (len_width i) + 2) by lia. reflexivity.
Qed.

(** ** Checking and classifying *)

Lemma frame_xor_zero i c0 c1 p :
  is_byte c0 -> is_byte c1 -> is_bytes p -> include_chksum i = true ->
  mt_chk i (mt_frame i c0 c1 p) = 0.
Proof.
  intros H0 H1 Hp Hi. unfold mt_frame. rewrite Hi. unfold mt_chk.
  set (body := mt_body i c0 c1 p). assert (length (sync_bytes i) <= length body)%nat.
  { unfold body, mt_body, mt_header. rewrite !length_app. lia. }
  rewrite drop_app_le by done. rewrite foldl_app. cbn [foldl].
  assert (is_byte (foldl Z.lxor 0 (drop (length (sync_bytes i)) body))) as Hb.
  { apply foldl_lxor_byte; [|byte_const]. apply Forall_drop.
    apply Forall_app; split; [by apply header_bytes|done]. }
  set (x := foldl Z.lxor 0 _) in *.
  assert (Z.land x 255 = x) as -> by (rewrite land_ff; apply Z.mod_small; exact Hb).
  by rewrite Z.lxor_nilpotent.
Qed.

(** The type depends on the command, the valid count and the bytes only. *)
Lemma set_type_cong m m' i t :
  cmd0 m' = cmd0 m -> iobuf_nvalid m' = iobuf_nvalid m -> iobuf m' = iobuf m ->
  MT_MSG_set_type m i = Ret (set_mtype m t) -> MT_MSG_set_type m' i = Ret (set_mtype m' t).
Proof.
  intros E0 En Eb.
  assert (forall a, @Ret mt_msg (set_mtype m a) = Ret (set_mtype m t) -> a = t) as Hinj
    by (intros a [= ->]; done).
  unfold MT_MSG_set_type. cbn [set_mtype set_hdr cmd0 iobuf_nvalid iobuf m_type].
  rewrite E0, En, Eb. destruct (_ || _); [by intros <-%Hinj|].
  destruct (_ && _); [by intros <-%Hinj|]. destruct i as [i|]; [|by intros <-%Hinj].
  destruct (_ <? _); [by intros <-%Hinj|]. destruct (mem_read _ _ _); [|done..].
  cbn [mbind outcome_bind]. destruct (head a); [|done]. cbn [deref mbind outcome_bind].
  destruct (lut_minor _ _); by intros <-%Hinj.
Qed.

(** ** A frame that is there is received *)

Record delivered (i : mt_iface) (m : mt_msg) (c0 c1 : Z) (p : list Z) : Prop := MkDelivered {
  dl_buf : rxbuf i m (mt_frame i c0 c1 p);
  dl_cmd0 : cmd0 m = c0;
  dl_cmd1 : cmd1 m = c1;
  dl_len : expected_len m = zlen p;
  dl_idx : iobuf_idx m = payload_start i;
  dl_type : MT_MSG_set_type m (Some i) = Ret m
}.

Lemma base_start i : rx_base i = payload_start i + (if include_chksum i then 1 else 0).
Proof. unfold rx_base, payload_start. lia. Qed.

Lemma base_frame i c0 c1 p : zlen (mt_frame i c0 c1 p) = rx_base i + zlen p.
Proof.
  unfold mt_frame, mt_body. rewrite !zlen_app, zlen_header, base_start.
  destruct (include_chksum i); [change (zlen [_]) with 1|change (zlen []) with 0]; lia.
Qed.

Lemma rx_finish_spec i m c0 c1 p s dead :
  rxbuf i m (mt_frame i c0 c1 p) -> cmd0 m = c0 -> cmd1 m = c1 -> expected_len m = zlen p ->
  iobuf_idx m = payload_start i -> is_byte c0 -> is_byte c1 -> is_bytes p ->
  exists m', rx_finish i (MkRx (S := script) m s dead) = Ret (Return (MkRx m' s dead) true) /\
    delivered i m' c0 c1 p.
Proof.
  intros Hb E0 E1 El Ei H0 H1 Hp. pose proof (payload_start_bounds i). pose proof (zlen_nonneg p).
  assert (payload_start i + zlen p <= IOBUF_SIZE) as Hfit.
  { pose proof (rb_fits _ _ _ Hb) as Hf. rewrite base_frame, base_start in Hf.
    destruct (include_chksum i); lia. }
  unfold rx_finish. cbn [rx_msg rx_dev is_dead].
  assert (exists x, MT_MSG_rdBuf_DBG m false (u64 (expected_len m)) = Ret (None, set_idx m x)) as [x ->].
  { unfold MT_MSG_rdBuf_DBG, init_rd_idx. rewrite (rb_noerr _ _ _ Hb), (proj2 (Z.ltb_ge _ _)) by lia.
    unfold IOBUF_SIZE in *. rewrite El, u64_id by lia. destruct (Z.eqb_spec (zlen p) 0).
    - exists (iobuf_idx m). by destruct m.
    - rewrite int32_id, (rb_max _ _ _ Hb), (proj2 (Z.ltb_ge _ _)) by (unfold IOBUF_SIZE; lia).
      by eexists. }
  cbn [mbind outcome_bind]. apply (rxbuf_set_idx _ _ _ x) in Hb as Hb'.
  rewrite (rb_src _ _ _ Hb'), (rb_nvalid _ _ _ Hb').
  assert ((if include_chksum i then MT_MSG_calc_chksum (set_idx m x) (Some i)
             (zlen (mt_frame i c0 c1 p)) else Ret 0) = Ret 0) as ->.
  { destruct (include_chksum i) eqn:Ec; [|done]. rewrite calc_chksum_body.
    - by rewrite frame_xor_zero.
    - rewrite (rb_buf _ _ _ Hb'). apply take_app_length.
    - unfold mt_frame, mt_body, mt_header. rewrite !length_app. lia. }
  cbn [mbind outcome_bind negb Z.eqb].
  destruct (set_type_total (set_idx m x) i) as [t Et]; [by eapply rxbuf_length|].
  rewrite Et. cbn [mbind outcome_bind]. eexists. split; [done|].
  constructor; try done; [by apply rxbuf_set_idx, rxbuf_set_hdr|].
  exact (set_type_cong (set_idx m x) (set_idx (set_mtype (set_idx m x) t) (payload_start i)) _ _
           eq_refl eq_refl eq_refl Et).
Qed.

Lemma frame_bytes i c0 c1 p :
  is_byte c0 -> is_byte c1 -> is_bytes p -> is_bytes (mt_frame i c0 c1 p).
Proof.
  intros. unfold mt_frame, mt_body, is_bytes. rewrite !Forall_app. split_and!; try done.
  - by apply header_bytes.
  - destruct (include_chksum i); [|constructor].
    constructor; [apply mt_chk_byte|constructor].
Qed.

(** Reading up to a known boundary. *)
Lemma rx_bytes_upto i m d w es c dead f rest n :
  rxbuf i m d -> d ++ w = f ++ rest -> zlen f = n -> zlen d <= n <= IOBUF_SIZE -> is_bytes w ->
  exists m', mt_msg_rx_bytes i (MkRx m (MkScript (pend w es) c) dead) n =
    Ret (n, MkRx m' (MkScript (pend rest es) c) dead) /\
    rxbuf i m' f /\ iobuf_idx m' = iobuf_idx m /\
    expected_len m' = expected_len m /\ cmd0 m' = cmd0 m /\ cmd1 m' = cmd1 m.
Proof.
  intros Hb E Hf Hd Hw. destruct (decide (zlen d = n)) as [En|En].
  - apply app_inj_1 in E as [-> ->]; [|unfold zlen in *; lia].
    exists m. rewrite rx_bytes_enough; [done|]. rewrite <- (rb_nvalid _ _ _ Hb) in En. cbn; lia.
  - assert (zlen d + zlen w = zlen f + zlen rest) as Hl by (by rewrite <- !zlen_app, E).
    pose proof (zlen_nonneg rest).
    destruct (rx_bytes_chunk i m d w es c dead n) as (m' & -> & Hb' & R); try done; [lia..|].
    assert (length f = length d + Z.to_nat (n - zlen d))%nat as Lf by (unfold zlen in *; lia).
    assert (d ++ take (Z.to_nat (n - zlen d)) w = f) as Ed.
    { replace f with (take (length f) (f ++ rest)) by apply take_app_length.
      rewrite <- E, take_app_ge by lia. do 2 f_equal. lia. }
    assert (drop (Z.to_nat (n - zlen d)) w = rest) as ->.
    { rewrite <- (drop_app_length f rest), <- E, drop_app_ge by lia. f_equal. lia. }
    rewrite Ed in Hb'. by exists m'.
Qed.

(** The first bytes of a frame, as the receiver needs them. *)
Lemma frame_split i c0 c1 p rest :
  exists x, take (Z.to_nat (rx_base i)) (mt_frame i c0 c1 p ++ rest) =
    sync_bytes i ++ (le_bytes (len_width i) (zlen p) ++ [c0; c1] ++ x).
Proof.
  set (h := mt_header i (zlen p) c0 c1).
  assert (exists y, mt_frame i c0 c1 p ++ rest = h ++ y) as [y ->].
  { unfold mt_frame, mt_body. rewrite <- !app_assoc. by eexists. }
  assert (Z.of_nat (length h) = payload_start i) as Lh by apply zlen_header.
  rewrite take_app_ge by (pose proof (base_start i); destruct (include_chksum i); lia).
  eexists. unfold h, mt_header. by rewrite <- !app_assoc.
Qed.

(** Reading the sync byte and the header of a frame in place. *)
Lemma header_in_place {B} i m c0 c1 len (x : list Z) (k : mt_msg -> outcome B) :
  rxbuf i m (sync_bytes i ++ (le_bytes (len_width i) len ++ [c0; c1] ++ x)) ->
  len_ok i len -> is_byte c0 -> is_byte c1 ->
  ('(_, m) ← (if frame_sync i then MT_MSG_rdU8_DBG (set_idx m 0) else Ret (0, set_idx m 0));
   m ← rx_header i m; k m) =
  k (set_cmds (set_len (set_idx m (payload_start i)) len) c0 c1).
Proof.
  intros Hb Hl H0 H1. apply rxbuf_ahead in Hb as Ha. apply ahead_app in Ha as [Hs Ha].
  assert ((if frame_sync i then MT_MSG_rdU8_DBG (set_idx m 0) else Ret (0, set_idx m 0)) =
          Ret (if frame_sync i then 0xfe else 0, set_idx m (zlen (sync_bytes i)))) as ->.
  { unfold sync_bytes in *. destruct (frame_sync i); [|done].
    rewrite (rd8_ahead _ 0xfe); [done|done|byte_const]. }
  cbn [mbind outcome_bind]. change (iobuf_idx (set_idx m 0)) with 0 in Ha. cbn [Z.add] in Ha.
  rewrite (rx_header_spec i _ len c0 c1 x); [|exact Ha|done..]. cbn [mbind outcome_bind].
  f_equal. unfold set_cmds, set_len, set_hdr, set_idx, set_io. cbn. f_equal.
  unfold payload_start, len_width, sync_bytes. destruct (frame_sync i), (len_2bytes i); done.
Qed.

Lemma base_pos i : 0 < rx_base i.
Proof.
  rewrite base_start. pose proof (payload_start_bounds i). destruct (include_chksum i); lia.
Qed.

Lemma hunt_frame i m y n :
  rxbuf i m (sync_bytes i ++ y) ->
  (if frame_sync i then rx_hunt (set_idx m 0) n else Ret (InPlace (set_idx m 0))) =
  Ret (InPlace (set_idx m 0)).
Proof.
  unfold sync_bytes. destruct (frame_sync i); [|done]. intros Hb.
  eapply hunt_in_place. by apply rxbuf_set_idx.
Qed.

Lemma rx_read_more_frame i m d w es c dead c0 c1 p rest :
  rxbuf i m d -> d ++ w = mt_frame i c0 c1 p ++ rest -> zlen d < rx_base i ->
  is_bytes rest -> is_byte c0 -> is_byte c1 -> is_bytes p ->
  len_ok i (zlen p) -> rx_base i + zlen p <= IOBUF_SIZE ->
  exists m', rx_read_more i (MkRx m (MkScript (pend w es) c) dead) (rx_base i) =
    Ret (Return (MkRx m' (MkScript (pend rest es) c) dead) true) /\ delivered i m' c0 c1 p.
Proof.
  intros Hb Hd Hlt Hr H0 H1 Hp Hl Hfit. set (f := mt_frame i c0 c1 p) in *.
  pose proof (base_frame i c0 c1 p) as Hf. fold f in Hf. pose proof (zlen_nonneg p).
  pose proof (zlen_nonneg rest). pose proof (zlen_nonneg d).
  assert (is_bytes (d ++ w)) as Hdw.
  { rewrite Hd. apply Forall_app; split; [by apply frame_bytes|done]. }
  assert (zlen d + zlen w = rx_base i + zlen p + zlen rest) as Hlen
    by (rewrite <- zlen_app, Hd, zlen_app; lia).
  apply Forall_app in Hdw as Hw. destruct Hw as [_ Hw].
  set (n1 := Z.to_nat (rx_base i)). assert (0 < rx_base i) as Hpos by apply base_pos.
  assert (zlen (take n1 (f ++ rest)) = rx_base i) as Lt.
  { unfold zlen in *. rewrite length_take, length_app. lia. }
  destruct (rx_bytes_upto i m d w es c dead (take n1 (f ++ rest)) (drop n1 (f ++ rest)) (rx_base i))
    as (m1 & E1 & Hb1 & _); try done; [by rewrite take_drop|lia|].
  unfold rx_read_more. rewrite E1. cbn [mbind outcome_bind].
  rewrite (proj2 (Z.eqb_neq _ _)), (proj2 (Z.ltb_ge _ _)) by lia. cbn [orb].
  destruct (frame_split i c0 c1 p rest) as [x Ex]. fold f n1 in Ex.
  rewrite Ex in Hb1. cbn [rx_msg].
  rewrite (hunt_frame i m1 _ _ Hb1). cbn [mbind outcome_bind].
  erewrite header_in_place; [|done..].
  apply (rxbuf_set_idx _ _ _ (payload_start i)) in Hb1. rewrite <- Ex in Hb1.
  apply (rxbuf_set_hdr _ _ _ (m_type m1) (zlen p) c0 c1 (chksum m1)) in Hb1.
  set (m2 := set_cmds _ c0 c1). change (set_hdr _ _ _ _ _ _) with m2 in Hb1.
  change (expected_len m2) with (zlen p). unfold add_int.
  rewrite (proj2 (Z.ltb_lt _ _)) by (unfold IOBUF_SIZE in *; lia). cbn [mbind outcome_bind].
  destruct (rx_bytes_upto i m2 _ (drop n1 (f ++ rest)) es c dead f rest (rx_base i + zlen p) Hb1)
    as (m3 & E3 & Hb3 & I3 & L3 & C3 & D3); [by rewrite take_drop|done|lia|by apply Forall_drop; rewrite <- Hd|].
  unfold with_msg. cbn [rx_dev is_dead]. rewrite E3. cbn [mbind outcome_bind].
  rewrite Z.eqb_refl. cbn [negb].
  destruct (rx_finish_spec i m3 c0 c1 p (MkScript (pend rest es) c) dead) as (m4 & E4 & D4); try done.
  by exists m4.
Qed.

(** ** Whole receptions *)

(** What the receiver relies on between messages. *)
Record rx_ready (i : mt_iface) (m : mt_msg) : Prop := MkReady {
  rr_max : iobuf_idx_max m = IOBUF_SIZE;
  rr_noerr : is_error m = false;
  rr_src : pSrcIface m = Some i
}.

Definition cur_ok (i : mt_iface) (cur : option mt_msg) : Prop :=
  match cur with
  | None => True
  | Some m => iobuf_idx_max m = IOBUF_SIZE /\ pSrcIface m = Some i
  end.

Lemma rxbuf_ready i m d : rxbuf i m d -> rx_ready i m.
Proof. by intros []. Qed.

Lemma try_again_ready {S} `{Stream S} i m (s : S) dead :
  rx_ready i m ->
  exists m', rx_try_again i (MkRx m s dead) = ReadMore (MkRx m' s dead) (rx_base i) /\
    rxbuf i m' [].
Proof.
  intros []. unfold rx_try_again. cbn [rx_msg]. rewrite rr_max0. eexists. split; [done|].
  constructor; try done. constructor.
Qed.

(** The message [mt_msg_rx] starts with. *)
Lemma rx_start {S} `{Stream S} fuel i seq cur (s : S) dead :
  cur_ok i cur ->
  exists m, rx_ready i m /\
    mt_msg_rx fuel i seq cur s dead =
    ('(ok, st) ← rx_run fuel i (TryAgain (MkRx m s dead));
     if (ok : bool) then Ret (Some (rx_msg st), None, rx_dev st, is_dead st)
     else Ret (None, Some (rx_msg st), rx_dev st, is_dead st)).
Proof.
  intros Hc. destruct cur as [m|]; unfold mt_msg_rx.
  - destruct Hc as [Hm Hs]. unfold MT_MSG_resetMsg.
    edestruct set_type_None as [t ->]. cbn [mbind outcome_bind]. eexists. split; [|done]. done.
  - destruct (new_spec seq (-1) (-1) (-1)) as (m & -> & Hwf & He & _).
    cbn [mbind outcome_bind]. eexists. split; [|done]. destruct Hwf. done.
Qed.

Lemma start_src i seq cur m :
  cur_ok i cur ->
  match cur with
  | None => m ← MT_MSG_new seq (-1) (-1) (-1); Ret (MT_MSG_setSrcIface m (Some i))
  | Some m => MT_MSG_resetMsg m (-1) (-1) (-1)
  end = Ret m -> pSrcIface m = Some i.
Proof.
  intros Hc. destruct cur as [m1|].
  - destruct Hc as [_ Hs]. unfold MT_MSG_resetMsg. edestruct set_type_None as [t ->].
    by intros [= <-].
  - by intros (m1 & _ & [= <-])%bind_Ret_inv.
Qed.

(** A full read without a sync byte is dropped. *)
Lemma read_more_garbage i m g y es c dead :
  frame_sync i = true -> rxbuf i m [] -> Forall (fun b => b <> 0xfe) g ->
  zlen g = rx_base i -> is_bytes (g ++ y) ->
  exists m', rx_read_more i (MkRx m (MkScript (pend (g ++ y) es) c) dead) (rx_base i) =
    Ret (TryAgain (MkRx m' (MkScript (pend y es) c) dead)) /\ rx_ready i m'.
Proof.
  intros Hs Hb Hg Lg Bw. pose proof (base_pos i) as Hpos.
  assert (rx_base i <= IOBUF_SIZE) as Hfit.
  { rewrite base_start. pose proof (payload_start_bounds i). unfold IOBUF_SIZE.
    destruct (include_chksum i); lia. }
  destruct (rx_bytes_upto i m [] (g ++ y) es c dead g y (rx_base i)) as (m1 & E1 & Hb1 & _);
    try done; [change (zlen []) with 0; lia|].
  unfold rx_read_more. rewrite E1. cbn [mbind outcome_bind].
  rewrite (proj2 (Z.eqb_neq _ _)), (proj2 (Z.ltb_ge _ _)) by lia. cbn [orb rx_msg].
  rewrite Hs. apply (rxbuf_set_idx _ _ _ 0) in Hb1.
  rewrite (hunt_not_found i _ g) by done. cbn [mbind outcome_bind].
  eexists. split; [done|]. by eapply rxbuf_ready.
Qed.

(** A read that starts with garbage and ends inside a frame is shifted. *)
Lemma read_more_shift i m g f1 y es c dead :
  frame_sync i = true -> rxbuf i m [] -> Forall (fun b => b <> 0xfe) g -> g <> [] ->
  zlen (g ++ 0xfe :: f1) = rx_base i -> is_bytes ((g ++ 0xfe :: f1) ++ y) ->
  exists m', rx_read_more i (MkRx m (MkScript (pend ((g ++ 0xfe :: f1) ++ y) es) c) dead) (rx_base i) =
    Ret (ReadMore (MkRx m' (MkScript (pend y es) c) dead) (rx_base i)) /\
    rxbuf i m' (0xfe :: f1).
Proof.
  intros Hs Hb Hg Hne Lg Bw. pose proof (base_pos i) as Hpos.
  assert (rx_base i <= IOBUF_SIZE) as Hfit.
  { rewrite base_start. pose proof (payload_start_bounds i). unfold IOBUF_SIZE.
    destruct (include_chksum i); lia. }
  destruct (rx_bytes_upto i m [] ((g ++ 0xfe :: f1) ++ y) es c dead (g ++ 0xfe :: f1) y (rx_base i) Hb)
    as (m1 & E1 & Hb1 & _); try done; [change (zlen []) with 0; lia|].
  unfold rx_read_more. rewrite E1. cbn [mbind outcome_bind].
  rewrite (proj2 (Z.eqb_neq _ _)), (proj2 (Z.ltb_ge _ _)) by lia. cbn [orb rx_msg].
  rewrite Hs. apply (rxbuf_set_idx _ _ _ 0) in Hb1.
  destruct (hunt_shifted i _ g f1 (rx_base i) Hb1) as (m2 & -> & Hb2 & _); try done.
  { rewrite <- Lg, zlen_app. unfold zlen. destruct g; [done|cbn [length]; lia]. }
  cbn [mbind outcome_bind]. by exists m2.
Qed.

(** Garbage without a sync byte in front of a frame is skipped. *)
Lemma rx_run_garbage fuel i m g es c dead c0 c1 p rest :
  frame_sync i = true -> rx_ready i m -> Forall (fun b => b <> 0xfe) g -> is_bytes g ->
  (2 * length g + 3 <= fuel)%nat ->
  is_bytes rest -> is_byte c0 -> is_byte c1 -> is_bytes p ->
  len_ok i (zlen p) -> rx_base i + zlen p <= IOBUF_SIZE ->
  exists m', rx_run fuel i
      (TryAgain (MkRx m (MkScript (pend (g ++ mt_frame i c0 c1 p ++ rest) es) c) dead)) =
    Ret (true, MkRx m' (MkScript (pend rest es) c) dead) /\ delivered i m' c0 c1 p.
Proof.
  intros Hs Hr Hg Bg Hfuel Br H0 H1 Hp Hl Hfit. revert m g Hr Hg Bg Hfuel.
  pose proof (base_frame i c0 c1 p) as Lf. pose proof (frame_bytes i c0 c1 p H0 H1 Hp) as Bf.
  pose proof (base_pos i) as Hpos. pose proof (zlen_nonneg p).
  assert (exists f', mt_frame i c0 c1 p = 0xfe :: f') as [f' Ef].
  { unfold mt_frame, mt_body, mt_header, sync_bytes. rewrite Hs. by eexists. }
  set (f := mt_frame i c0 c1 p) in *.
  induction fuel as [fuel IH] using lt_wf_ind; intros m g Hr Hg Bg Hfuel.
  destruct fuel as [|[|[|fuel]]]; [lia..|].
  assert (is_bytes (g ++ f ++ rest)) as Bw by (unfold is_bytes; rewrite !Forall_app; done).
  destruct (try_again_ready i m (MkScript (pend (g ++ f ++ rest) es) c) dead Hr) as (m1 & E1 & Hb1).
  cbn [rx_run rx_goto]. rewrite E1. cbn [mbind outcome_bind rx_run rx_goto].
  destruct (decide (rx_base i <= zlen g)) as [Hge|Hlt].
  - set (n := Z.to_nat (rx_base i)). rewrite <- (take_drop n g) in Hg, Bw |- *.
    apply Forall_app in Hg as [Hg1 Hg2]. rewrite <- app_assoc in Bw |- *.
    assert (zlen (take n g) = rx_base i) as Ln by (unfold zlen in *; rewrite length_take; lia).
    destruct (read_more_garbage i m1 (take n g) (drop n g ++ f ++ rest) es c dead)
      as (m2 & -> & Hr2); try done.
    apply (IH (Datatypes.S fuel)); try done; [lia|by apply Forall_drop|].
    rewrite length_drop. unfold zlen in *. lia.
  - destruct (decide (g = [])) as [->|Hne].
    { destruct (rx_read_more_frame i m1 [] (f ++ rest) es c dead c0 c1 p rest) as (m2 & E2 & D2);
        try done. cbn [app]. rewrite E2. by exists m2. }
    set (n := Z.to_nat (rx_base i - zlen g)).
    assert (exists k, n = Datatypes.S k) as [k Ek] by (unfold n; exists (Nat.pred n); unfold n; lia).
    assert (f ++ rest = (0xfe :: take k f') ++ (drop n f ++ rest)) as Ew.
    { rewrite <- (take_drop n f) at 1. rewrite <- app_assoc. f_equal. by rewrite Ef, Ek. }
    assert (zlen (0xfe :: take k f') = rx_base i - zlen g) as Lk.
    { change (0xfe :: take k f') with (take (Datatypes.S k) (0xfe :: f')). rewrite <- Ek, <- Ef.
      unfold zlen in *. rewrite length_take. lia. }
    rewrite Ew, app_assoc in Bw |- *.
    destruct (read_more_shift i m1 g (take k f') (drop n f ++ rest) es c dead)
      as (m2 & -> & Hb2); try done; [rewrite zlen_app; lia|].
    cbn [mbind outcome_bind rx_run rx_goto].
    destruct (rx_read_more_frame i m2 _ (drop n f ++ rest) es c dead c0 c1 p rest Hb2)
      as (m3 & -> & D3); try done; [destruct g; [done|unfold zlen in *; cbn [length] in *; lia]|].
    exists m3. split; [|done]. by destruct fuel.
Qed.

(** Any interface receives a frame that is next. *)
Lemma rx_run_frame fuel i m es c dead c0 c1 p rest :
  rx_ready i m -> (2 <= fuel)%nat ->
  is_bytes rest -> is_byte c0 -> is_byte c1 -> is_bytes p ->
  len_ok i (zlen p) -> rx_base i + zlen p <= IOBUF_SIZE ->
  exists m', rx_run fuel i
      (TryAgain (MkRx m (MkScript (pend (mt_frame i c0 c1 p ++ rest) es) c) dead)) =
    Ret (true, MkRx m' (MkScript (pend rest es) c) dead) /\ delivered i m' c0 c1 p.
Proof.
  intros Hr Hfuel Br H0 H1 Hp Hl Hfit. destruct fuel as [|[|fuel]]; [lia..|].
  set (f := mt_frame i c0 c1 p). pose proof (base_pos i).
  destruct (try_again_ready i m (MkScript (pend (f ++ rest) es) c) dead Hr) as (m1 & E1 & Hb1).
  cbn [rx_run rx_goto]. rewrite E1. cbn [mbind outcome_bind rx_run rx_goto].
  destruct (rx_read_more_frame i m1 [] (f ++ rest) es c dead c0 c1 p rest) as (m2 & -> & D2);
    try done. exists m2. split; [|done]. by destruct fuel.
Qed.

(** The payload of a delivered message is next to be read. *)
Lemma delivered_ahead i m c0 c1 p : rxbuf i m (mt_frame i c0 c1 p) ->
  iobuf_idx m = payload_start i -> ahead m p.
Proof.
  intros Hb Hi. apply rxbuf_ahead in Hb as Ha. unfold mt_frame, mt_body in Ha.
  rewrite <- app_assoc in Ha. apply ahead_app in Ha as [_ Ha].
  apply ahead_app in Ha as [Ha _]. rewrite zlen_header in Ha.
  assert (set_idx (set_idx m 0) (iobuf_idx (set_idx m 0) + payload_start i) = m) as E
    by (rewrite <- Hi; by destruct m).
  by rewrite E in Ha.
Qed.

(** ** What is delivered, on any device *)

Lemma rd_loop_same n m x v r m' : rd_loop n m x v = Ret (r, m') -> same_content m m'.
Proof.
  revert m x v. induction n as [|n IH]; intros m x v; cbn [rd_loop].
  { intros [= _ <-]. reflexivity. }
  destruct (negb _); [intros [= _ <-]; reflexivity|].
  destruct (mem_read _ _ _) as [d| |]; try discriminate. cbn [mbind outcome_bind].
  destruct (head d); try discriminate. cbn [deref mbind outcome_bind]. intros E%IH.
  etrans; [|exact E]. by do 2 eexists.
Qed.

Lemma rdUX_same m n r m' : MT_MSG_rdUX_DBG m n = Ret (r, m') -> same_content m m'.
Proof.
  unfold MT_MSG_rdUX_DBG. destruct (is_error m); [intros [= _ <-]; reflexivity|].
  intros E%rd_loop_same. etrans; [|exact E]. unfold init_rd_idx.
  destruct (_ <? _); [by do 2 eexists|reflexivity].
Qed.

Lemma rdU8_same m r m' : MT_MSG_rdU8_DBG m = Ret (r, m') -> same_content m m' /\ 0 <= r.
Proof.
  unfold MT_MSG_rdU8_DBG. intros ([v m1] & E1 & [= <- <-])%bind_Ret_inv.
  split; [by eapply rdUX_same|]. apply u8_byte.
Qed.

Lemma rdU16_same m r m' : MT_MSG_rdU16_DBG m = Ret (r, m') -> same_content m m' /\ 0 <= r.
Proof.
  unfold MT_MSG_rdU16_DBG. intros ([v m1] & E1 & [= <- <-])%bind_Ret_inv.
  split; [by eapply rdUX_same|]. apply Z.mod_pos_bound. lia.
Qed.

(** The parts of a message the header reads leave alone. *)
Definition same_bytes (m m' : mt_msg) : Prop :=
  iobuf m' = iobuf m /\ iobuf_nvalid m' = iobuf_nvalid m /\ pSrcIface m' = pSrcIface m.

#[export] Instance same_bytes_preorder : PreOrder same_bytes.
Proof. split; [done|]. intros a b d (?&?&?) (?&?&?). split_and!; congruence. Qed.

Lemma same_content_bytes m m' : same_content m m' -> same_bytes m m'.
Proof. by intros (e & x & ->). Qed.

Lemma rx_header_same i m m' : rx_header i m = Ret m' -> same_bytes m m' /\ 0 <= expected_len m'.
Proof.
  unfold rx_header. intros ([len m1] & E1 & E)%bind_Ret_inv.
  assert (same_content m m1 /\ 0 <= len) as [(e1 & x1 & ->) Hl].
  { destruct (len_2bytes i); [by apply rdU16_same|by apply rdU8_same]. }
  apply bind_Ret_inv in E as ([v2 m2] & [(e2 & x2 & ->) _]%rdU8_same & E).
  apply bind_Ret_inv in E as ([v3 m3] & [(e3 & x3 & ->) _]%rdU8_same & [= <-]).
  done.
Qed.

Section AnyDevice.
Context {S : Type} `{StreamLaw S}.

(** A read keeps what was there and reports either the request or the total. *)
Lemma rx_bytes_inv i (st st' : rx_state (S := S)) n r :
  mt_msg_rx_bytes i st n = Ret (r, st') -> 0 <= iobuf_nvalid (rx_msg st) ->
  (r = n /\ n <= iobuf_nvalid (rx_msg st') \/ r = iobuf_nvalid (rx_msg st')) /\
  iobuf_nvalid (rx_msg st) <= iobuf_nvalid (rx_msg st') /\
  (0 < iobuf_nvalid (rx_msg st) -> iobuf (rx_msg st') !! 0%nat = iobuf (rx_msg st) !! 0%nat) /\
  pSrcIface (rx_msg st') = pSrcIface (rx_msg st) /\
  expected_len (rx_msg st') = expected_len (rx_msg st).
Proof.
  intros E Hn. unfold mt_msg_rx_bytes in E.
  destruct (Z.leb_spec n (iobuf_nvalid (rx_msg st))).
  { injection E as <- <-. split; [by left|]. split; [lia|done]. }
  destruct (rdBytes (rx_dev st) _) as [[bs| |] s] eqn:Er.
  - apply rdBytes_got in Er. apply bind_Ret_inv in E as (b & Ew & [= <- <-]). cbn.
    split; [by right|]. split; [lia|]. split; [|done]. intros Hpos.
    unfold mem_write in Ew. destruct (_ && _) eqn:Ec; [|discriminate]. injection Ew as <-.
    apply andb_true_iff in Ec as [_ Ec%Z.leb_le]. unfold zlen in *.
    apply lookup_splice_out; lia.
  - injection E as <- <-. cbn. split; [by right|]. split; [lia|done].
  - injection E as <- <-. cbn. split; [by right|]. split; [lia|done].
Qed.

(** What the hunt leaves at byte 0. *)
Lemma find_sync_some l k : find_sync l = Some k -> l !! k = Some 0xfe.
Proof.
  revert k. induction l as [|b l IH]; intros k; cbn; [done|].
  destruct (Z.eqb_spec b 0xfe) as [->|]; [by intros [= <-]|].
  destruct (find_sync l) as [j|]; [|done]. intros [= <-]. cbn. by apply IH.
Qed.

Definition at_sync (src : option mt_iface) (m : mt_msg) : Prop :=
  iobuf m !! 0%nat = Some 0xfe /\ 0 < iobuf_nvalid m /\ pSrcIface m = src.

Lemma hunt_inv m n h :
  rx_hunt m n = Ret h ->
  match h with NotFound => True | InPlace m' | Shifted m' => at_sync (pSrcIface m) m' end.
Proof.
  unfold rx_hunt. intros (d & (_ & Hn & Hz & ->)%mem_read_inv & E)%bind_Ret_inv.
  change (Z.to_nat 0) with 0%nat in E.
  destruct (find_sync _) as [k|] eqn:Ef; [|by injection E as <-].
  apply find_sync_some in Ef as Hk.
  assert (k < Z.to_nat (iobuf_nvalid m))%nat as Hkn.
  { apply lookup_lt_Some in Hk. unfold slice in Hk. rewrite length_take in Hk. lia. }
  rewrite lookup_slice in Hk by done. cbn [Nat.add] in Hk.
  destruct k as [|k']; [injection E as <-; split; [done|split; [lia|done]]|].
  set (k := Datatypes.S k') in *.
  apply bind_Ret_inv in E as (d & (_ & _ & _ & ->)%mem_read_inv & E).
  apply bind_Ret_inv in E as (b1 & (_ & Hw & ->)%mem_write_inv & E).
  apply bind_Ret_inv in E as (b2 & (_ & Hw2 & ->)%mem_write_inv & E).
  assert (at_sync (pSrcIface m) (set_io m (is_error m) (iobuf_idx m) (iobuf_nvalid m - Z.of_nat k)
    (splice (Z.to_nat (iobuf_nvalid m - Z.of_nat k))
       (replicate (Z.to_nat (iobuf_nvalid m - (iobuf_nvalid m - Z.of_nat k))) 0)
       (splice (Z.to_nat 0) (slice (Z.to_nat (Z.of_nat k)) (Z.to_nat (iobuf_nvalid m - Z.of_nat k))
          (iobuf m)) (iobuf m))))) as Hs.
  { unfold zlen in *. split; [|cbn; split; [lia|done]]. cbn [set_io iobuf].
    rewrite lookup_splice_out by lia. rewrite !Nat2Z.id in *. change (Z.to_nat 0) with 0%nat in *.
    set (s := slice k _ _). assert (0 < length s <= length (iobuf m))%nat.
    { unfold s. rewrite length_slice; lia. }
    pose proof (lookup_splice_in 0 s (iobuf m) 0) as Hl. cbn [Nat.add] in Hl.
    rewrite Hl by lia. unfold s.
    rewrite lookup_slice by lia. by rewrite Nat.add_0_r. }
  destruct (_ <? _); injection E as <-; exact Hs.
Qed.

(** A message [mt_msg_rx] may return. *)
Record checked (i : mt_iface) (m : mt_msg) : Prop := MkChecked {
  ck_src : pSrcIface m = Some i;
  ck_idx : iobuf_idx m = payload_start i;
  ck_len : 0 <= expected_len m /\ rx_base i + expected_len m <= iobuf_nvalid m;
  ck_chk : include_chksum i = true ->
           mt_chk i (take (Z.to_nat (iobuf_nvalid m)) (iobuf m)) = 0;
  ck_sync : frame_sync i = true -> iobuf m !! 0%nat = Some 0xfe
}.

Definition pc_ok (i : mt_iface) (pc : rx_pc (S := S)) : Prop :=
  match pc with
  | TryAgain st => pSrcIface (rx_msg st) = Some i
  | ReadMore st nneed =>
      pSrcIface (rx_msg st) = Some i /\ rx_base i <= nneed /\ 0 <= iobuf_nvalid (rx_msg st)
  | Return st true => checked i (rx_msg st)
  | Return st false => True
  end.

Lemma set_type_same m i m' :
  MT_MSG_set_type m i = Ret m' -> exists t, m' = set_mtype m t.
Proof.
  unfold MT_MSG_set_type. cbn [set_mtype set_hdr cmd0 iobuf_nvalid iobuf m_type].
  repeat (case_match; try (intros [= <-]; by eexists)).
  intros (d & _ & (x & _ & E)%bind_Ret_inv)%bind_Ret_inv.
  destruct (lut_minor _ _); injection E as <-; by eexists.
Qed.

Lemma rdBuf_same m c n o m' : MT_MSG_rdBuf_DBG m c n = Ret (o, m') -> same_content m m'.
Proof.
  assert (same_content m (init_rd_idx m)) as Hi.
  { unfold init_rd_idx. destruct (_ <? _); [by do 2 eexists|reflexivity]. }
  unfold MT_MSG_rdBuf_DBG. destruct (is_error m); [intros [= _ <-]; reflexivity|].
  destruct (n =? 0); [by intros [= _ <-]|].
  destruct (_ <? _); [intros [= _ <-]; etrans; [exact Hi|by do 2 eexists]|].
  destruct c.
  - intros (d & _ & [= _ <-])%bind_Ret_inv. etrans; [exact Hi|by do 2 eexists].
  - intros [= _ <-]. etrans; [exact Hi|by do 2 eexists].
Qed.

Lemma calc_chksum_inv m i n ck :
  MT_MSG_calc_chksum m (Some i) n = Ret ck -> 0 <= n ->
  ck = mt_chk i (take (Z.to_nat n) (iobuf m)).
Proof.
  unfold MT_MSG_calc_chksum, mt_chk. cbn [deref mbind outcome_bind].
  assert ((if frame_sync i then 1 else 0) = zlen (sync_bytes i)) as ->
    by (unfold sync_bytes; destruct (frame_sync i); done).
  intros E Hn. destruct (Z.leb_spec n (zlen (sync_bytes i))) as [Hl|Hl].
  - injection E as <-. rewrite drop_ge; [done|]. rewrite length_take. unfold zlen in Hl. lia.
  - apply bind_Ret_inv in E as (d & (_ & _ & Hz & ->)%mem_read_inv & [= <-]).
    do 2 f_equal. unfold zlen. rewrite Nat2Z.id. unfold slice.
    rewrite take_drop_commute. do 2 f_equal. unfold zlen in Hl. lia.
Qed.

Lemma rx_finish_inv i (st : rx_state (S := S)) pc :
  rx_finish i st = Ret pc -> pSrcIface (rx_msg st) = Some i ->
  0 <= expected_len (rx_msg st) -> rx_base i + expected_len (rx_msg st) <= iobuf_nvalid (rx_msg st) ->
  (frame_sync i = true -> iobuf (rx_msg st) !! 0%nat = Some 0xfe) -> pc_ok i pc.
Proof.
  intros E Hs Hl Hv Hsync. unfold rx_finish in E. pose proof (base_pos i).
  apply bind_Ret_inv in E as ([o m] & (e & x & ->)%rdBuf_same & E).
  apply bind_Ret_inv in E as (r & Er & E).
  destruct (Z.eqb_spec r 0) as [->|]; cbn [negb] in E; [|by injection E as <-].
  apply bind_Ret_inv in E as (m' & (t & ->)%set_type_same & [= <-]).
  constructor; try done. intros Hi. cbn. rewrite Hi in Er. cbn [set_io pSrcIface] in Er.
  rewrite Hs in Er. apply calc_chksum_inv in Er; [done|]. cbn. lia.
Qed.

Lemma rx_goto_ok i (pc pc' : rx_pc (S := S)) :
  rx_goto i pc = Ret pc' -> pc_ok i pc -> pc_ok i pc'.
Proof.
  destruct pc as [st|st n|st ok]; cbn [rx_goto]; [intros [= <-] ?; by split| |by intros [= <-]].
  intros E (Hsrc & Hn & Hv0). unfold rx_read_more in E. pose proof (base_pos i).
  apply bind_Ret_inv in E as ([r st1] & E1 & E).
  apply rx_bytes_inv in E1 as (Hr & Hv1 & _ & Hsrc1 & _); [|done].
  destruct (_ || _) eqn:Er0; [by injection E as <-|].
  apply orb_false_iff in Er0 as [Er1%Z.eqb_neq Er2%Z.ltb_ge].
  apply bind_Ret_inv in E as (h & Eh & E).
  assert (match h with NotFound => True | InPlace m' | Shifted m' =>
    pSrcIface m' = Some i /\ 0 < iobuf_nvalid m' /\
    (frame_sync i = true -> iobuf m' !! 0%nat = Some 0xfe) end) as Hh.
  { destruct (frame_sync i).
    - apply hunt_inv in Eh. destruct h; try done; destruct Eh as (?&?&?);
        (split; [cbn in *; congruence|done]).
    - injection Eh as <-. cbn. split; [congruence|]. split; [lia|done]. }
  destruct h as [|m|m].
  - injection E as <-. cbn. congruence.
  - injection E as <-. cbn. destruct Hh as (?&?&_). split_and!; [done|done|lia].
  - destruct Hh as (Hs & Hv & Hsync).
    apply bind_Ret_inv in E as ([v m1] & E2 & E).
    assert (same_bytes m m1) as S1.
    { destruct (frame_sync i); [apply rdU8_same in E2 as [? _]; by apply same_content_bytes|].
      injection E2 as _ <-. reflexivity. }
    apply bind_Ret_inv in E as (m2 & [S2 Hl]%rx_header_same & E).
    assert (same_bytes m m2) as (B1 & B2 & B3) by (by etrans).
    apply bind_Ret_inv in E as (n2 & En & E). unfold add_int in En.
    destruct (_ <? _); [|done]. injection En as <-.
    apply bind_Ret_inv in E as ([r2 st2] & E3 & E).
    apply rx_bytes_inv in E3 as (Hr2 & Hv2 & Hk & Hs2 & Hl2); cbn [with_msg rx_msg] in *; [|lia].
    assert (pSrcIface (rx_msg st2) = Some i) as Hs3 by congruence.
    destruct (Z.eqb_spec r2 (n + expected_len m2)) as [->|]; cbn [negb] in E.
    + eapply rx_finish_inv; [exact E|done|lia|lia|]. intros Hf. rewrite Hk by lia.
      rewrite B1. by apply Hsync.
    + destruct (0 <? r2); injection E as <-; cbn; [|done]. split_and!; [done|lia|lia].
Qed.

Lemma rx_run_ok fuel i (pc : rx_pc (S := S)) st :
  rx_run fuel i pc = Ret (true, st) -> pc_ok i pc -> checked i (rx_msg st).
Proof.
  revert pc. induction fuel as [|fuel IH]; intros pc E Hpc.
  { destruct pc; try discriminate. by injection E as -> ->. }
  destruct pc as [st0|st0 n|st0 ok]; cbn [rx_run] in E.
  - apply bind_Ret_inv in E as (pc' & E1 & E). eapply IH; [exact E|]. by eapply rx_goto_ok.
  - apply bind_Ret_inv in E as (pc' & E1 & E). eapply IH; [exact E|]. by eapply rx_goto_ok.
  - by injection E as -> ->.
Qed.

End AnyDevice.

(** ** A device under watch

    The same device with a flag that is set by a read that brings less than was
    asked for. *)
Record watched (S : Type) : Type := Watch { w_dev : S; w_short : bool }.
Arguments Watch {S}. Arguments w_dev {S}. Arguments w_short {S}.

Definition brings_less (n : Z) (r : rd_result) : bool :=
  match r with Got bs => zlen bs <? n | Silent | Failed => true end.

#[export] Instance watched_stream {S} `{Stream S} : Stream (watched S) := {|
  rdBytes w n := let '(r, s) := rdBytes (w_dev w) n in (r, Watch s (w_short w || brings_less n r));
  rdDump w := Watch (rdDump (w_dev w)) (w_short w);
  isConnected w := isConnected (w_dev w)
|}.

#[export] Instance watched_law {S} `{StreamLaw S} : StreamLaw (watched S).
Proof.
  constructor. intros w n bs w'. cbn. destruct (rdBytes (w_dev w) n) as [r s] eqn:E.
  intros [= -> _]. by eapply rdBytes_got.
Qed.

Section Watching.
Context {S : Type} `{StreamLaw S}.

Definition watch (b : bool) (st : rx_state (S := S)) : rx_state (S := watched S) :=
  MkRx (rx_msg st) (Watch (rx_dev st) b) (is_dead st).
Definition watch_pc (b : bool) (pc : rx_pc (S := S)) : rx_pc (S := watched S) :=
  match pc with
  | TryAgain st => TryAgain (watch b st)
  | ReadMore st n => ReadMore (watch b st) n
  | Return st ok => Return (watch b st) ok
  end.

(** Watching changes nothing for the receiver. *)
Lemma rx_bytes_watch i st n b :
  exists b', mt_msg_rx_bytes i (watch b st) n = ('(r, st') ← mt_msg_rx_bytes i st n; Ret (r, watch b' st')).
Proof.
  unfold mt_msg_rx_bytes. cbn [watch rx_msg rx_dev is_dead].
  destruct (n <=? _); [by exists b|].
  change (rdBytes (Watch (rx_dev st) b) (n - iobuf_nvalid (rx_msg st))) with
    (let '(r, s) := rdBytes (rx_dev st) (n - iobuf_nvalid (rx_msg st)) in
     (r, Watch s (b || brings_less (n - iobuf_nvalid (rx_msg st)) r))).
  destruct (rdBytes _ _) as [r s]. eexists. destruct r; [|done..].
  destruct (mem_write _ _ _); done.
Qed.

Lemma rx_finish_watch i st b :
  rx_finish i (watch b st) = (pc ← rx_finish i st; Ret (watch_pc b pc)).
Proof.
  unfold rx_finish. cbn [watch rx_msg rx_dev is_dead].
  destruct (MT_MSG_rdBuf_DBG _ _ _) as [[o m]|u|]; [|done..]. cbn [mbind outcome_bind].
  destruct (if include_chksum i then _ else _) as [r|u|]; [|done..]. cbn [mbind outcome_bind].
  destruct (negb _); [done|]. destruct (MT_MSG_set_type _ _); done.
Qed.

Lemma rx_read_more_watch i st n b :
  exists b', rx_read_more i (watch b st) n = (pc ← rx_read_more i st n; Ret (watch_pc b' pc)).
Proof.
  unfold rx_read_more. destruct (rx_bytes_watch i st n b) as [b1 ->].
  destruct (mt_msg_rx_bytes i st n) as [[r st1]|u|]; [|by exists b..]. cbn [mbind outcome_bind].
  destruct (_ || _); [by exists b1|]. cbn [watch rx_msg].
  destruct (if frame_sync i then _ else _) as [h|u|]; [|by exists b..]. cbn [mbind outcome_bind].
  destruct h as [|m|m]; [by exists b1..|].
  destruct (if frame_sync i then _ else _) as [[v m1]|u|]; [|by exists b..]. cbn [mbind outcome_bind].
  destruct (rx_header i m1) as [m2|u|]; [|by exists b..]. cbn [mbind outcome_bind].
  destruct (add_int n (expected_len m2)) as [k|u|]; [|by exists b..]. cbn [mbind outcome_bind].
  change (with_msg (watch b1 st1) m2) with (watch b1 (with_msg st1 m2)).
  destruct (rx_bytes_watch i (with_msg st1 m2) k b1) as [b2 ->].
  destruct (mt_msg_rx_bytes i (with_msg st1 m2) k) as [[r2 st2]|u|]; [|by exists b..]. cbn [mbind outcome_bind].
  exists b2. destruct (negb _); [by destruct (0 <? r2)|]. by rewrite rx_finish_watch.
Qed.

Lemma rx_run_watch fuel i pc ok st b :
  rx_run fuel i pc = Ret (ok, st) -> exists b', rx_run fuel i (watch_pc b pc) = Ret (ok, watch b' st).
Proof.
  revert pc b. induction fuel as [|fuel IH]; intros pc b E.
  { destruct pc; try discriminate. injection E as -> ->. by exists b. }
  destruct pc as [st0|st0 n|st0 ok0]; cbn [rx_run watch_pc rx_goto] in E |- *.
  - apply (IH _ b) in E as [b' E]. by exists b'.
  - destruct (rx_read_more_watch i st0 n b) as [b1 ->].
    apply bind_Ret_inv in E as (pc' & -> & E). cbn [mbind outcome_bind]. by apply IH.
  - injection E as -> ->. by exists b.
Qed.

(** As long as no read falls short, the receiver asks for the bytes every
    message has, then for the announced payload. *)
Definition pc_full (i : mt_iface) (pc : rx_pc (S := watched S)) : Prop :=
  match pc with
  | TryAgain _ | Return _ false => True
  | ReadMore st n => w_short (rx_dev st) = false -> n = rx_base i /\ 0 <= iobuf_nvalid (rx_msg st) <= n
  | Return st true =>
      w_short (rx_dev st) = false -> iobuf_nvalid (rx_msg st) = rx_base i + expected_len (rx_msg st)
  end.

Lemma rx_bytes_full i (st st' : rx_state (S := watched S)) n r :
  mt_msg_rx_bytes i st n = Ret (r, st') -> w_short (rx_dev st') = false ->
  w_short (rx_dev st) = false /\
  (iobuf_nvalid (rx_msg st) <= n -> r = n /\ iobuf_nvalid (rx_msg st') = n) /\
  expected_len (rx_msg st') = expected_len (rx_msg st).
Proof.
  unfold mt_msg_rx_bytes. destruct (Z.leb_spec n (iobuf_nvalid (rx_msg st))).
  { intros [= <- <-] ->. split; [done|]. split; [lia|done]. }
  cbn. destruct (rdBytes (w_dev (rx_dev st)) _) as [[bs| |] s] eqn:Er.
  - apply rdBytes_got in Er. intros (b & _ & [= <- <-])%bind_Ret_inv. cbn.
    intros [-> ?%Z.ltb_ge]%orb_false_iff. split; [done|]. split; [lia|done].
  - intros [= <- <-]. cbn. by intros [_ ?]%orb_false_iff.
  - intros [= <- <-]. cbn. by intros [_ ?]%orb_false_iff.
Qed.

(** The hunt leaves all bytes in place, or says that some are missing. *)
Lemma hunt_count m n h :
  rx_hunt m n = Ret h -> 0 <= iobuf_nvalid m <= n ->
  match h with
  | NotFound => True
  | Shifted m' => 0 <= iobuf_nvalid m' <= n
  | InPlace m' => iobuf_nvalid m' = iobuf_nvalid m
  end.
Proof.
  unfold rx_hunt. intros (d & (_ & _ & _ & ->)%mem_read_inv & E)%bind_Ret_inv Hv.
  destruct (find_sync _) as [k|] eqn:Ef; [|by injection E as <-].
  apply find_sync_some, lookup_lt_Some in Ef. unfold slice in Ef. rewrite length_take in Ef.
  destruct k as [|k]; [by injection E as <-|].
  apply bind_Ret_inv in E as (d & _ & E). apply bind_Ret_inv in E as (b1 & _ & E).
  apply bind_Ret_inv in E as (b2 & _ & E). cbn [set_io iobuf_nvalid] in E.
  destruct (Z.ltb_spec (iobuf_nvalid m - Z.of_nat (Datatypes.S k)) n); injection E as <-; cbn; lia.
Qed.

Lemma rx_finish_full i (st : rx_state (S := watched S)) pc :
  rx_finish i st = Ret pc ->
  (w_short (rx_dev st) = false -> iobuf_nvalid (rx_msg st) = rx_base i + expected_len (rx_msg st)) ->
  pc_full i pc.
Proof.
  intros E Hv. unfold rx_finish in E.
  apply bind_Ret_inv in E as ([o m] & (e & x & ->)%rdBuf_same & E).
  apply bind_Ret_inv in E as (r & _ & E). destruct (negb _); [by injection E as <-|].
  apply bind_Ret_inv in E as (m' & (t & ->)%set_type_same & [= <-]). exact Hv.
Qed.

Lemma rx_goto_full i (pc pc' : rx_pc (S := watched S)) :
  rx_goto i pc = Ret pc' -> pc_full i pc -> pc_full i pc'.
Proof.
  pose proof (base_pos i) as Hpos.
  destruct pc as [st|st n|st ok]; cbn [rx_goto]; [intros [= <-] _; cbn; lia| |by intros [= <-]].
  intros E Hpc. unfold rx_read_more in E. apply bind_Ret_inv in E as ([r st1] & E1 & E).
  assert (w_short (rx_dev st1) = false -> n = rx_base i /\ iobuf_nvalid (rx_msg st1) = n) as HA1.
  { intros Hw. destruct (rx_bytes_full i _ _ _ _ E1 Hw) as (Hw0 & Hn & _).
    destruct (Hpc Hw0) as [-> [_ Hv]]. by destruct (Hn Hv). }
  destruct (_ || _); [by injection E as <-|]. apply bind_Ret_inv in E as (h & Eh & E).
  assert (w_short (rx_dev st1) = false -> match h with
    | NotFound => True | Shifted m' => 0 <= iobuf_nvalid m' <= n | InPlace m' => iobuf_nvalid m' = n end) as HA2.
  { intros [-> Hv]%HA1. destruct (frame_sync i).
    - apply hunt_count in Eh; cbn [set_idx iobuf_nvalid] in Eh; [|cbn; lia]. destruct h; try done. cbn in Eh. congruence.
    - by injection Eh as <-. }
  destruct h as [|m|m]; [by injection E as <-|injection E as <-; cbn; intros Hw; by destruct (HA1 Hw); auto|].
  apply bind_Ret_inv in E as ([v m1] & E2 & E).
  assert (same_bytes m m1) as S1.
  { destruct (frame_sync i); [apply rdU8_same in E2 as [? _]; by apply same_content_bytes|].
    injection E2 as _ <-. reflexivity. }
  apply bind_Ret_inv in E as (m2 & [S2 Hl]%rx_header_same & E).
  assert (same_bytes m m2) as (_ & B2 & _) by (by etrans).
  apply bind_Ret_inv in E as (k & Ek & E). unfold add_int in Ek.
  destruct (_ <? _); [|done]. injection Ek as <-. apply bind_Ret_inv in E as ([r2 st2] & E3 & E).
  assert (w_short (rx_dev st2) = false ->
    r2 = n + expected_len m2 /\ iobuf_nvalid (rx_msg st2) = rx_base i + expected_len (rx_msg st2)) as HA3.
  { intros Hw. destruct (rx_bytes_full i _ _ _ _ E3 Hw) as (Hw0 & Hn & ->). cbn [with_msg rx_msg rx_dev] in *.
    destruct (HA1 Hw0) as [-> _]. pose proof (HA2 Hw0). destruct Hn as [-> ->]; [lia|done]. }
  destruct (Z.eqb_spec r2 (n + expected_len m2)) as [->|]; cbn [negb] in E.
  - eapply rx_finish_full; [exact E|]. by intros [_ ?]%HA3.
  - destruct (0 <? r2); injection E as <-; cbn; [|done]. by intros [? _]%HA3.
Qed.

Lemma rx_run_full fuel i (pc : rx_pc (S := watched S)) st :
  rx_run fuel i pc = Ret (true, st) -> pc_full i pc -> pc_full i (Return st true).
Proof.
  revert pc. induction fuel as [|fuel IH]; intros pc E Hpc.
  { destruct pc; try discriminate. by injection E as -> ->. }
  destruct pc as [st0|st0 n|st0 ok]; cbn [rx_run] in E; [..|by injection E as -> ->].
  all: apply bind_Ret_inv in E as (pc' & E1 & E); eapply IH; [exact E|]; by eapply rx_goto_full.
Qed.

End Watching.

(** ** Two ways the receiver goes wrong *)

Definition raw_frame (i : mt_iface) (len c0 c1 : Z) (w : list Z) : list Z :=
  mt_header i len c0 c1 ++ w.

Lemma raw_split i len c0 c1 w :
  exists x, take (Z.to_nat (rx_base i)) (raw_frame i len c0 c1 w) =
    sync_bytes i ++ (le_bytes (len_width i) len ++ [c0; c1] ++ x).
Proof.
  unfold raw_frame. set (h := mt_header i len c0 c1).
  assert (Z.of_nat (length h) = payload_start i) as Lh by apply zlen_header.
  rewrite take_app_ge by (pose proof (base_start i); destruct (include_chksum i); lia).
  eexists. unfold h, mt_header. by rewrite <- !app_assoc.
Qed.

(** Up to the second read, with the header in place. *)
Lemma read_more_header i st0 m d n c0 c1 len x s dead k :
  rxbuf i m d -> d = sync_bytes i ++ (le_bytes (len_width i) len ++ [c0; c1] ++ x) ->
  len_ok i len -> is_byte c0 -> is_byte c1 -> 0 < k ->
  mt_msg_rx_bytes i st0 n = Ret (k, MkRx m s dead) ->
  rx_read_more (S := script) i st0 n =
  (n2 ← add_int n len;
   '(r, st) ← mt_msg_rx_bytes i
      (MkRx (set_cmds (set_len (set_idx m (payload_start i)) len) c0 c1) s dead) n2;
   if negb (r =? n2) then
     if 0 <? r then Ret (ReadMore st n2)
     else Ret (TryAgain (MkRx (rx_msg st) (rdDump (rx_dev st)) (is_dead st)))
   else rx_finish i st).
Proof.
  intros Hb -> Hl H0 H1 Hk E. unfold rx_read_more. rewrite E. cbn [mbind outcome_bind].
  rewrite (proj2 (Z.eqb_neq _ _)), (proj2 (Z.ltb_ge _ _)) by lia. cbn [orb rx_msg].
  rewrite (hunt_frame i m _ _ Hb). cbn [mbind outcome_bind].
  by erewrite header_in_place.
Qed.

(** A chunk shorter than the request is all the receiver gets. *)
Lemma rx_bytes_short i m d w c dead n :
  rxbuf i m d -> is_bytes w -> zlen d + zlen w < n -> zlen d + zlen w <= IOBUF_SIZE ->
  exists m' dead', mt_msg_rx_bytes i (MkRx m (MkScript (pend w []) c) dead) n =
    Ret (zlen d + zlen w, MkRx m' (MkScript [] c) dead') /\ rxbuf i m' (d ++ w).
Proof.
  intros Hb Hw Hn Hs. pose proof (zlen_nonneg w). destruct w as [|b w].
  - exists m. rewrite app_nil_r. change (zlen []) with 0 in *. unfold mt_msg_rx_bytes.
    cbn [rx_msg rx_dev is_dead pend].
    rewrite (rb_nvalid _ _ _ Hb), (proj2 (Z.leb_gt _ _)) by lia. rewrite Z.add_0_r. by eexists.
  - set (v := b :: w) in *. unfold mt_msg_rx_bytes. cbn [rx_msg rx_dev is_dead].
    rewrite (rb_nvalid _ _ _ Hb), (proj2 (Z.leb_gt _ _)) by lia.
    change (pend v []) with [RdBytes v].
    change rdBytes with script_read. unfold script_read. cbn [events connected].
    assert (take (Z.to_nat (n - zlen d)) v = v) as -> by (apply take_ge; unfold zlen in *; lia).
    assert (drop (Z.to_nat (n - zlen d)) v = []) as -> by (apply drop_ge; unfold zlen in *; lia).
    destruct (rxbuf_write i m d v) as (b' & E & Hb'); try done.
    rewrite (rb_nvalid _ _ _ Hb) in E, Hb'. cbn [mbind outcome_bind v]. fold v. rewrite E.
    by do 2 eexists.
Qed.

(** Nothing arrives any more: the receiver asks for ever more bytes. *)
Lemma rx_run_spins fuel i m d n c dead c0 c1 len x :
  rxbuf i m d -> d = sync_bytes i ++ (le_bytes (len_width i) len ++ [c0; c1] ++ x) ->
  len_ok i len -> is_byte c0 -> is_byte c1 -> zlen d < n ->
  rx_run fuel i (ReadMore (MkRx m (MkScript [] c) dead) n) = NoFuel \/
  rx_run fuel i (ReadMore (MkRx m (MkScript [] c) dead) n) = Undef SignedOverflow.
Proof.
  revert m n dead. induction fuel as [|fuel IH]; intros m n dead Hb Ed Hl H0 H1 Hn; [by left|].
  assert (0 < zlen d) as Hpos.
  { rewrite Ed. unfold zlen. rewrite !length_app. cbn [length]. lia. }
  assert (forall m dead n, rxbuf i m d -> zlen d < n -> exists dead',
    mt_msg_rx_bytes i (MkRx m (MkScript [] c) dead) n =
    Ret (zlen d, MkRx m (MkScript [] c) dead')) as Hrx.
  { intros m1 dead1 n1 Hb1 Hn1. unfold mt_msg_rx_bytes. cbn [rx_msg rx_dev is_dead].
    rewrite (rb_nvalid _ _ _ Hb1), (proj2 (Z.leb_gt _ _)) by lia. by eexists. }
  destruct (Hrx m dead n Hb Hn) as [dead1 E1].
  cbn [rx_run rx_goto]. rewrite (read_more_header i _ m d n c0 c1 len x _ _ _ Hb Ed Hl H0 H1 Hpos E1).
  unfold add_int. destruct (_ <? _); [|by right]. cbn [mbind outcome_bind].
  assert (0 <= len) by (unfold len_ok in Hl; lia).
  set (m2 := set_cmds _ c0 c1).
  assert (rxbuf i m2 d) as Hb2 by (by apply rxbuf_set_hdr, rxbuf_set_hdr, rxbuf_set_idx).
  destruct (Hrx m2 dead1 (n + len) Hb2 ltac:(lia)) as [dead2 E2]. rewrite E2.
  cbn [mbind outcome_bind].
  rewrite (proj2 (Z.eqb_neq _ _)), (proj2 (Z.ltb_lt _ _)) by lia. cbn [negb mbind outcome_bind].
  apply IH; try done. lia.
Qed.


(** A frame of typed fields is received and read back. *)
Lemma rx_reads_back fuel i seq c0 c1 fs rest cur dead :
  is_byte c0 -> is_byte c1 -> Forall field_ok fs -> len_ok i (zlen (fields_enc fs)) ->
  rx_base i + zlen (fields_enc fs) <= IOBUF_SIZE -> is_bytes rest -> cur_ok i cur ->
  (2 <= fuel)%nat ->
  exists m m', mt_msg_rx fuel i seq cur
      (MkScript (pend (mt_frame i c0 c1 (fields_enc fs) ++ rest) []) true) dead =
      Ret (Some m, None, MkScript (pend rest []) true, dead) /\
    cmd0 m = c0 /\ cmd1 m = c1 /\
    read_fields m fs = Ret (fs, m') /\ MT_MSG_parseComplete m' = Ret m' /\ is_error m' = false.
Proof.
  intros H0 H1 Hf Hl Hfit Br Hc Hfuel.
  assert (is_bytes (fields_enc fs)) as Bp by by apply fields_enc_bytes.
  destruct (rx_start fuel i seq cur
    (MkScript (pend (mt_frame i c0 c1 (fields_enc fs) ++ rest) []) true) dead Hc) as (m0 & R0 & ->).
  destruct (rx_run_frame fuel i m0 [] true dead c0 c1 (fields_enc fs) rest)
    as (m & -> & [Db D0 D1 Dl Di _]); try done; [].
  exists m. eexists. split; [done|]. split; [done|]. split; [done|].
  rewrite (read_fields_ahead fs m) by (try done; by eapply delivered_ahead).
  split; [done|]. split; [|by destruct Db].
  unfold MT_MSG_parseComplete. cbn [set_idx set_io pSrcIface iobuf_idx expected_len].
  rewrite (rb_src _ _ _ Db). cbn [deref mbind outcome_bind]. by rewrite Di, Dl, Z.eqb_refl.
Qed.

(** ** Properties *)



(** Resynchronisation: on an interface with a sync byte, any run of garbage
    that contains no sync byte in front of a frame is skipped and the frame is
    delivered, wherever the reads happen to cut the garbage and the frame.  Two
    control transfers per garbage byte and three more are enough. *)
Theorem mt_rx_resync fuel i seq cur g c0 c1 p rest es dead :
  frame_sync i = true -> cur_ok i cur -> Forall (fun b => b <> 0xfe) g -> is_bytes g ->
  is_bytes rest -> is_byte c0 -> is_byte c1 -> is_bytes p ->
  len_ok i (zlen p) -> rx_base i + zlen p <= IOBUF_SIZE -> (2 * length g + 3 <= fuel)%nat ->
  exists m, mt_msg_rx fuel i seq cur
      (MkScript (pend (g ++ mt_frame i c0 c1 p ++ rest) es) true) dead =
      Ret (Some m, None, MkScript (pend rest es) true, dead) /\ delivered i m c0 c1 p.
Proof.
  intros Hs Hc Hg Bg Br H0 H1 Bp Hl Hfit Hfuel.
  destruct (rx_start fuel i seq cur
    (MkScript (pend (g ++ mt_frame i c0 c1 p ++ rest) es) true) dead Hc) as (m0 & R0 & ->).
  destruct (rx_run_garbage fuel i m0 g es true dead c0 c1 p rest) as (m & -> & D); try done.
  exists m. done.
Qed.

Lemma mt_rx_resync_witness :
  exists m, mt_msg_rx 17 uart_iface 1 None
      (MkScript [RdBytes ([1; 2; 3; 4; 5; 6; 7] ++ mt_frame uart_iface 0x21 2 [10; 11] ++ [9])] true)
      false = Ret (Some m, None, MkScript [RdBytes [9]] true, false) /\
    delivered uart_iface m 0x21 2 [10; 11].
Proof.
  refine (mt_rx_resync 17 uart_iface 1 None [1; 2; 3; 4; 5; 6; 7] 0x21 2 [10; 11] [9] [] false
            eq_refl I _ _ _ _ _ _ _ _ _).
  - apply (bool_decide_unpack (Forall (fun b => b <> 0xfe) _)). vm_compute. exact I.
  - apply (bool_decide_unpack (is_bytes _)). vm_compute. exact I.
  - apply (bool_decide_unpack (is_bytes _)). vm_compute. exact I.
  - byte_const.
  - byte_const.
  - apply (bool_decide_unpack (is_bytes _)). vm_compute. exact I.
  - byte_const.
  - cbv. congruence.
  - cbn. lia.
Defined.

(** Receiving [n] messages in a row. *)
Fixpoint rx_n (fuel n : nat) (i : mt_iface) (cur : option mt_msg) (s : script)
  : outcome (list (option mt_msg) * script) :=
  match n with
  | O => Ret ([], s)
  | Datatypes.S n =>
      '(r, cur, s, _) ← mt_msg_rx fuel i 0 cur s false;
      '(l, s) ← rx_n fuel n i cur s;
      Ret (r :: l, s)
  end.

(** A message to be sent: commands and payload. *)
Definition frame_ok (i : mt_iface) (f : Z * Z * list Z) : Prop :=
  let '(c0, c1, p) := f in
  is_byte c0 /\ is_byte c1 /\ is_bytes p /\ len_ok i (zlen p) /\
  rx_base i + zlen p <= IOBUF_SIZE.

Definition frames (i : mt_iface) (fs : list (Z * Z * list Z)) : list Z :=
  flat_map (fun '(c0, c1, p) => mt_frame i c0 c1 p) fs.

Lemma frames_bytes i fs : Forall (frame_ok i) fs -> is_bytes (frames i fs).
Proof.
  induction 1 as [|[[c0 c1] p] fs (H0 & H1 & Hp & _) _ IH]; [constructor|].
  apply Forall_app; split; [by apply frame_bytes|done].
Qed.

(** A byte stream that is a sequence of frames is cut at the frame
    boundaries: receiving as many messages as there are frames delivers each
    of them, in order, and leaves exactly what follows the last one. *)
Theorem mt_rx_stream i fs cur rest es :
  cur_ok i cur -> Forall (frame_ok i) fs -> is_bytes rest ->
  exists ms, rx_n 2 (length fs) i cur (MkScript (pend (frames i fs ++ rest) es) true) =
      Ret (ms, MkScript (pend rest es) true) /\
    Forall2 (fun r '(c0, c1, p) => exists m, r = Some m /\ delivered i m c0 c1 p) ms fs.
Proof.
  intros Hc Hf Br. revert cur Hc. induction Hf as [|[[c0 c1] p] fs Hx Hf IH]; intros cur Hc.
  { eexists. split; [done|constructor]. }
  destruct Hx as (H0 & H1 & Bp & Hl & Hfit). cbn [length rx_n frames flat_map].
  fold (frames i fs). rewrite <- app_assoc.
  assert (is_bytes (frames i fs ++ rest)) as Br'.
  { apply Forall_app; split; [by apply frames_bytes|done]. }
  destruct (rx_start 2 i 0 cur
    (MkScript (pend (mt_frame i c0 c1 p ++ frames i fs ++ rest) es) true) false Hc) as (m0 & R0 & ->).
  destruct (rx_run_frame 2 i m0 es true false c0 c1 p (frames i fs ++ rest)) as (m & -> & D);
    try done.
  cbn [mbind outcome_bind rx_msg rx_dev is_dead]. destruct (IH None I) as (ms & -> & F).
  eexists. split; [done|]. constructor; [by exists m|done].
Qed.

Lemma mt_rx_stream_witness :
  exists ms, rx_n 2 2 uart_iface None
      (MkScript [RdBytes (frames uart_iface [(0x21, 1, []); (0x41, 2, [0xfe; 0xfe])] ++ [5])] true) =
      Ret (ms, MkScript [RdBytes [5]] true) /\
    Forall2 (fun r '(c0, c1, p) => exists m, r = Some m /\ delivered uart_iface m c0 c1 p) ms
      [(0x21, 1, []); (0x41, 2, [0xfe; 0xfe])].
Proof.
  refine (mt_rx_stream uart_iface [(0x21, 1, []); (0x41, 2, [0xfe; 0xfe])] None [5] [] I _ _).
  - repeat (apply Forall_cons_2; [|]); [..|apply Forall_nil_2];
      (split_and!; try (byte_const); try (cbv; congruence);
       apply (bool_decide_unpack (is_bytes _)); vm_compute; exact I).
  - apply (bool_decide_unpack (is_bytes _)). vm_compute. exact I.
Defined.

(** C39: Whatever device the interface reads from and however the reads are cut,
    a message the receiver hands out is checked: it starts with the sync byte
    where the interface has one, it has at least the bytes of the header, the
    announced payload and the checksum, the checksum over all its bytes is right
    where the interface has one, and its index stands at the payload.  It has
    exactly these bytes unless one of the reads brought less than was asked for:
    after such a read the receiver adds the announced length to what it asks for
    once more, and the message may be longer.  (The theorem watches the reads;
    the device is the same.) *)
Theorem mt_rx_delivers_checked {S} `{StreamLaw S} fuel i seq cur (s : S) dead m cur' s' dead' :
  cur_ok i cur ->
  mt_msg_rx fuel i seq cur s dead = Ret (Some m, cur', s', dead') ->
  cur' = None /\ checked i m /\
  exists short, mt_msg_rx fuel i seq cur (Watch s false) dead = Ret (Some m, None, Watch s' short, dead') /\
    (short = false -> iobuf_nvalid m = rx_base i + expected_len m).
Proof.
  intros Hc. unfold mt_msg_rx at 1 2. intros (m0 & E0 & ([ok st] & E & E2)%bind_Ret_inv)%bind_Ret_inv.
  rewrite E0. cbn [mbind outcome_bind].
  destruct ok; [|discriminate]. injection E2 as <- <- <- <-. split; [done|].
  destruct (rx_run_watch _ _ _ _ _ false E) as [b Eb]. split.
  - eapply rx_run_ok; [exact E|]. by eapply start_src.
  - exists b. unfold watch_pc, watch in Eb. cbn [rx_msg rx_dev is_dead] in Eb. rewrite Eb. split; [done|].
    exact (rx_run_full _ _ _ _ Eb I).
Qed.

Lemma mt_rx_delivers_checked_witness :
  exists m short, mt_msg_rx 10 uart_iface 1 None
      (MkScript [RdBytes [1; 0xfe; 1; 0; 0x21; 2; 7; 0x25]] true) false =
      Ret (Some m, None, MkScript [] true, false) /\ checked uart_iface m /\ iobuf_nvalid m = 7 /\
    mt_msg_rx 10 uart_iface 1 None
      (Watch (MkScript [RdBytes [1; 0xfe; 1; 0; 0x21; 2; 7; 0x25]] true) false) false =
      Ret (Some m, None, Watch (MkScript [] true) short, false).
Proof.
  edestruct (mt_rx_delivers_checked 10 uart_iface 1 None
    (MkScript [RdBytes [1; 0xfe; 1; 0; 0x21; 2; 7; 0x25]] true) false) as (_ & C & short & W & L);
    [exact I|vm_compute; reflexivity|].
  do 2 eexists. split; [vm_compute; reflexivity|]. split; [exact C|]. split; [reflexivity|exact W].
Defined.

(** When the payload comes in two pieces the message is longer than its length
    field says: two bytes of what follows on the line are taken for a part of
    it, and the checksum covers them too. *)
Example rx_short_read_longer :
  exists m, mt_msg_rx 10 uart_iface 1 None
      (MkScript [RdBytes [0xfe; 2; 0; 0x21; 2; 7]; RdBytes [9]; RdBytes [0x2f; 1; 1]] true) false =
      Ret (Some m, None, MkScript [] true, false) /\
    expected_len m = 2 /\ iobuf_nvalid m = rx_base uart_iface + expected_len m + 2.
Proof. eexists. split; [vm_compute; reflexivity|done]. Qed.

(** The receiver does not check the length field against its buffer: on an
    interface with a two-byte length, a header that announces more than the
    4096-byte buffer can hold, followed by that many bytes, makes it write past
    the end of the message. *)
Theorem mt_rx_length_overflow fuel i seq cur len c0 c1 w es dead :
  cur_ok i cur -> len_2bytes i = true -> is_byte c0 -> is_byte c1 -> is_bytes w ->
  0 <= len < 65536 -> IOBUF_SIZE < rx_base i + len ->
  rx_base i + len <= payload_start i + zlen w -> (2 <= fuel)%nat ->
  mt_msg_rx fuel i seq cur (MkScript [RdBytes (raw_frame i len c0 c1 w)] es) dead =
  Undef OutOfBounds.
Proof.
  intros Hc H2 H0 H1 Bw Hl Ho Hw Hfuel. destruct fuel as [|[|fuel]]; [lia..|].
  set (f := raw_frame i len c0 c1 w).
  assert (zlen f = payload_start i + zlen w) as Lf by (unfold f, raw_frame; rewrite zlen_app, zlen_header; lia).
  assert (is_bytes f) as Bf by (apply Forall_app; split; [by apply header_bytes|done]).
  pose proof (base_pos i) as Hpos. set (n1 := Z.to_nat (rx_base i)).
  destruct (rx_start (Datatypes.S (Datatypes.S fuel)) i seq cur (MkScript [RdBytes f] es) dead Hc)
    as (m0 & R0 & ->).
  destruct (try_again_ready i m0 (MkScript [RdBytes f] es) dead R0) as (m1 & E1 & Hb1).
  cbn [rx_run rx_goto]. rewrite E1. cbn [mbind outcome_bind rx_run rx_goto].
  assert (rx_base i <= 6) as Hb6
    by (rewrite base_start; pose proof (payload_start_bounds i); destruct (include_chksum i); lia).
  assert (zlen (take n1 f) = rx_base i) as Lt by (unfold zlen, IOBUF_SIZE in *; rewrite length_take; lia).
  assert ([RdBytes f] = pend f []) as -> by (destruct f; [change (zlen []) with 0 in Lf; pose proof (payload_start_bounds i); pose proof (zlen_nonneg w); lia|done]).
  destruct (rx_bytes_upto i m1 [] f [] es dead (take n1 f) (drop n1 f) (rx_base i))
    as (m2 & E2 & Hb2 & _); try done; [by rewrite take_drop|unfold IOBUF_SIZE; change (zlen []) with 0; lia|].
  destruct (raw_split i len c0 c1 w) as [x Ex]. fold f n1 in Ex.
  assert (len_ok i len) as Hlo by (unfold len_ok; by rewrite H2).
  rewrite (read_more_header i _ m2 _ _ c0 c1 len x _ _ _ Hb2 Ex Hlo H0 H1 Hpos E2).
  unfold add_int. rewrite (proj2 (Z.ltb_lt _ _)) by lia. cbn [mbind outcome_bind].
  unfold mt_msg_rx_bytes. cbn [rx_msg rx_dev is_dead].
  cbn [set_cmds set_len set_hdr set_idx set_io iobuf_nvalid iobuf].
  rewrite (rb_nvalid _ _ _ Hb2), Lt, (proj2 (Z.leb_gt _ _)) by (unfold IOBUF_SIZE in *; lia).
  change rdBytes with script_read. rewrite script_read_pend.
  2: { unfold zlen, IOBUF_SIZE in *. rewrite length_drop. lia. }
  cbn [mbind outcome_bind]. unfold mem_write. rewrite (rxbuf_length _ _ _ Hb2).
  set (bs := take _ (drop n1 f)). assert (zlen bs = len) as Lbs.
  { unfold bs, zlen, IOBUF_SIZE in *. rewrite length_take, length_drop. lia. }
  rewrite Lbs, (proj2 (Z.leb_gt (rx_base i + len) _)) by lia. by rewrite andb_false_r.
Qed.

Lemma mt_rx_length_overflow_witness :
  mt_msg_rx 2 uart_iface 1 None
    (MkScript [RdBytes (raw_frame uart_iface 5000 0x41 1 (replicate (Z.to_nat 5001) 0))] true) false =
  Undef OutOfBounds.
Proof.
  refine (mt_rx_length_overflow 2 uart_iface 1 None 5000 0x41 1 (replicate (Z.to_nat 5001) 0) true false
            I eq_refl _ _ _ _ _ _ _).
  - byte_const.
  - byte_const.
  - apply Forall_replicate. byte_const.
  - lia.
  - cbv. done.
  - vm_compute. congruence.
  - lia.
Defined.

(** A frame that stops short of its payload blocks the receiver for good:
    when the header arrived but the device then stays silent, [mt_msg_rx]
    returns for no amount of fuel, because each round adds the payload length
    to the requested count once more and a short count always means another
    round (in the end the counter overflows). *)
Theorem mt_rx_short_frame_spins fuel i seq cur c0 c1 p k c dead :
  cur_ok i cur -> is_byte c0 -> is_byte c1 -> is_bytes p -> len_ok i (zlen p) ->
  rx_base i + zlen p <= IOBUF_SIZE -> rx_base i <= k < rx_base i + zlen p ->
  let o := mt_msg_rx fuel i seq cur
             (MkScript [RdBytes (take (Z.to_nat k) (mt_frame i c0 c1 p))] c) dead in
  o = NoFuel \/ o = Undef SignedOverflow.
Proof.
  intros Hc H0 H1 Bp Hl Hfit Hk o. unfold o. clear o. pose proof (base_pos i) as Hpos.
  set (f := mt_frame i c0 c1 p). pose proof (base_frame i c0 c1 p) as Lf. fold f in Lf.
  assert (is_bytes f) as Bf by by apply frame_bytes.
  set (g := take (Z.to_nat k) f). set (n1 := Z.to_nat (rx_base i)).
  assert (zlen g = k) as Lg by (unfold g, zlen in *; rewrite length_take; lia).
  assert (is_bytes g) as Bg by by apply Forall_take.
  assert (take n1 g = take n1 (f ++ [])) as Eg.
  { unfold g. rewrite take_take, app_nil_r. f_equal. lia. }
  assert (zlen (take n1 g) = rx_base i) as Lt by (unfold zlen in *; rewrite length_take; lia).
  assert ([RdBytes g] = pend g []) as ->
    by (destruct g; [change (zlen []) with 0 in Lg; lia|done]).
  destruct (rx_start fuel i seq cur (MkScript (pend g []) c) dead Hc) as (m0 & R0 & ->).
  destruct fuel as [|[|fuel]]; [by left|by left|].
  destruct (try_again_ready i m0 (MkScript (pend g []) c) dead R0) as (m1 & E1 & Hb1).
  cbn [rx_run rx_goto]. rewrite E1. cbn [mbind outcome_bind rx_run rx_goto].
  destruct (rx_bytes_upto i m1 [] g [] c dead (take n1 g) (drop n1 g) (rx_base i))
    as (m2 & E2 & Hb2 & _); try done; [by rewrite take_drop|change (zlen []) with 0; lia|].
  destruct (frame_split i c0 c1 p []) as [x Ex]. fold f n1 in Ex. rewrite <- Eg in Ex.
  rewrite (read_more_header i _ m2 _ _ c0 c1 _ x _ _ _ Hb2 Ex Hl H0 H1 Hpos E2).
  unfold add_int. unfold IOBUF_SIZE in Hfit. rewrite (proj2 (Z.ltb_lt _ _)) by lia.
  cbn [mbind outcome_bind]. set (m3 := set_cmds _ c0 c1).
  assert (rxbuf i m3 (take n1 g)) as Hb3 by (by apply rxbuf_set_hdr, rxbuf_set_hdr, rxbuf_set_idx).
  assert (zlen (take n1 g) + zlen (drop n1 g) = k) as Lk by (rewrite <- zlen_app, take_drop; done).
  destruct (rx_bytes_short i m3 _ (drop n1 g) c dead (rx_base i + zlen p) Hb3)
    as (m4 & dead4 & E4 & Hb4); [by apply Forall_drop|lia|unfold IOBUF_SIZE; lia|].
  rewrite E4. cbn [mbind outcome_bind].
  rewrite (proj2 (Z.eqb_neq _ _)), (proj2 (Z.ltb_lt _ _)) by lia. cbn [negb mbind outcome_bind].
  rewrite <- zlen_app in Lk. rewrite Ex, <- !app_assoc in Hb4, Lk.
  edestruct (rx_run_spins fuel i m4) as [-> | ->]; [exact Hb4|reflexivity|done..|lia|by left|by right].
Qed.

Lemma mt_rx_short_frame_spins_witness :
  let o := mt_msg_rx 1000 uart_iface 1 None
             (MkScript [RdBytes (take (Z.to_nat 7) (mt_frame uart_iface 0x41 1 [1; 2; 3]))] true) false in
  o = NoFuel \/ o = Undef SignedOverflow.
Proof.
  refine (mt_rx_short_frame_spins 1000 uart_iface 1 None 0x41 1 [1; 2; 3] 7 true false I _ _ _ _ _ _).
  - byte_const.
  - byte_const.
  - apply (bool_decide_unpack (is_bytes _)). vm_compute. exact I.
  - byte_const.
  - cbv. congruence.
  - cbv. split; [congruence|done].
Defined.

End MtRx.
