(* ===== verification/MtHeap.v ===== *)
(** * Messages in memory (mt_interface/api/src/mt_msg.c)

    Messages are allocated, linked in lists and freed.  The state of an
    interface holds the heap of live messages; a pointer is a key of the heap
    and keys are not reused, so a use of a freed message is found as
    [Dangling].  The outside world is in scripts: which allocations succeed,
    how many bytes each write transfers, which messages arrive during a wait.
    There is one interface; a message names it by its configuration. *)

From Stdlib Require Import ZArith Lia.
From stdpp Require Import base list option numbers gmap.
From S2P Require Import Prelude MtMsg.

Open Scope Z_scope.

Module MtHeap.
Import MtMsg.

(** ** State *)

(** [struct mt_msg_iface_frag_info]. *)
Record frag_info : Type := MkFrag {
  fi_is_error : bool;
  fi_pMsg : option positive;
  fi_pTxFragData : option positive;
  block_cur : Z;
  block_count : Z;
  total_size : Z;
  this_frag_size : Z;
  fi_pTxFragAck : option positive
}.

Definition frag_zero : frag_info := MkFrag false None None 0 0 0 0 None.

Section FragSetters.
Variable f : frag_info.
Definition fi_error : frag_info :=
  MkFrag true (fi_pMsg f) (fi_pTxFragData f) (block_cur f) (block_count f) (total_size f)
    (this_frag_size f) (fi_pTxFragAck f).
Definition fi_set_msg (p : option positive) : frag_info :=
  MkFrag (fi_is_error f) p (fi_pTxFragData f) (block_cur f) (block_count f) (total_size f)
    (this_frag_size f) (fi_pTxFragAck f).
Definition fi_set_data (p : option positive) : frag_info :=
  MkFrag (fi_is_error f) (fi_pMsg f) p (block_cur f) (block_count f) (total_size f)
    (this_frag_size f) (fi_pTxFragAck f).
Definition fi_set_ack (p : option positive) : frag_info :=
  MkFrag (fi_is_error f) (fi_pMsg f) (fi_pTxFragData f) (block_cur f) (block_count f)
    (total_size f) (this_frag_size f) p.
Definition fi_set_cur (n : Z) : frag_info :=
  MkFrag (fi_is_error f) (fi_pMsg f) (fi_pTxFragData f) n (block_count f)
    (total_size f) (this_frag_size f) (fi_pTxFragAck f).
End FragSetters.

(** What the outside world does next. *)
Record world : Type := MkWorld {
  mallocs : list bool;            (* does the next allocation succeed? (default: yes) *)
  writes : list (option Z);       (* bytes the next write transfers (default: all) *)
  locks : list bool;              (* is the transmit lock acquired? (default: yes) *)
  arrivals : list (list mt_msg)   (* messages received during the next waits *)
}.

(** The interface: its configuration and its mutable part. *)
Record mif : Type := MkMif {
  cfg : mt_iface;
  heap : gmap positive mt_msg;
  next_ptr : positive;
  msg_sequence_counter : Z;
  pCurSreq : option positive;
  rx_list : option positive;
  tx_frag : frag_info;
  rx_frag : frag_info;
  wire : list (list Z);           (* what was written to the device *)
  num_tx_pkt : Z;
  num_err_bad_tx_len : Z;
  outside : world
}.

Section MifSetters.
Variable s : mif.
Definition set_heap (h : gmap positive mt_msg) : mif :=
  MkMif (cfg s) h (next_ptr s) (msg_sequence_counter s) (pCurSreq s) (rx_list s)
    (tx_frag s) (rx_frag s) (wire s) (num_tx_pkt s) (num_err_bad_tx_len s) (outside s).
Definition set_alloc (h : gmap positive mt_msg) (n : positive) (q : Z) : mif :=
  MkMif (cfg s) h n q (pCurSreq s) (rx_list s)
    (tx_frag s) (rx_frag s) (wire s) (num_tx_pkt s) (num_err_bad_tx_len s) (outside s).
Definition set_sreq (p : option positive) : mif :=
  MkMif (cfg s) (heap s) (next_ptr s) (msg_sequence_counter s) p (rx_list s)
    (tx_frag s) (rx_frag s) (wire s) (num_tx_pkt s) (num_err_bad_tx_len s) (outside s).
Definition set_rx_list (p : option positive) : mif :=
  MkMif (cfg s) (heap s) (next_ptr s) (msg_sequence_counter s) (pCurSreq s) p
    (tx_frag s) (rx_frag s) (wire s) (num_tx_pkt s) (num_err_bad_tx_len s) (outside s).
Definition set_frags (t r : frag_info) : mif :=
  MkMif (cfg s) (heap s) (next_ptr s) (msg_sequence_counter s) (pCurSreq s) (rx_list s)
    t r (wire s) (num_tx_pkt s) (num_err_bad_tx_len s) (outside s).
Definition set_wire (w : list (list Z)) (n e : Z) : mif :=
  MkMif (cfg s) (heap s) (next_ptr s) (msg_sequence_counter s) (pCurSreq s) (rx_list s)
    (tx_frag s) (rx_frag s) w n e (outside s).
Definition set_world (w : world) : mif :=
  MkMif (cfg s) (heap s) (next_ptr s) (msg_sequence_counter s) (pCurSreq s) (rx_list s)
    (tx_frag s) (rx_frag s) (wire s) (num_tx_pkt s) (num_err_bad_tx_len s) w.
End MifSetters.

(** An interface before anything happened. *)
Definition mif_init (i : mt_iface) (w : world) : mif :=
  MkMif i ∅ 1 0 None None frag_zero frag_zero [] 0 0 w.

Abbreviation IO := (M mif).

(** ** Memory *)

Definition load (p : positive) : IO mt_msg := fun s =>
  match heap s !! p with Some m => Ret (m, s) | None => Undef Dangling end.
Definition store (p : positive) (m : mt_msg) : IO unit := fun s =>
  match heap s !! p with
  | Some _ => Ret (tt, set_heap s (<[p := m]> (heap s)))
  | None => Undef Dangling
  end.
(** Run an operation on the message behind a pointer. *)
Definition on_msg (p : positive) (f : mt_msg -> outcome mt_msg) : IO unit :=
  m ← load p; m ← lift (f m); store p m.
Definition read_msg (p : positive) (f : mt_msg -> outcome (Z * mt_msg)) : IO Z :=
  m ← load p; '(v, m) ← lift (f m); store p m;; mret v.

(** [calloc], which the script may refuse. *)
Definition malloc_ok : IO bool := fun s =>
  match mallocs (outside s) with
  | b :: bs => Ret (b, set_world s (MkWorld bs (writes (outside s)) (locks (outside s)) (arrivals (outside s))))
  | [] => Ret (true, s)
  end.

Definition MT_MSG_alloc (len c0 c1 : Z) : IO (option positive) :=
  ok ← malloc_ok;
  if (ok : bool) then
    s ← get;
    m ← lift (MT_MSG_new (msg_sequence_counter s) len c0 c1);
    modify (fun s => set_alloc s (<[next_ptr s := m]> (heap s)) (Pos.succ (next_ptr s))
                               (u32 (msg_sequence_counter s + 1)));;
    mret (Some (next_ptr s))
  else mret None.

(** [MT_MSG_free]: the rest of the list first, then the response, then the
    message itself.  [fuel] bounds the depth of the recursion. *)
Fixpoint free_rec (fuel : nat) (p : option positive) : IO unit :=
  match p with
  | None => mret tt
  | Some p =>
      match fuel with
      | O => out_of_fuel
      | S fuel =>
          m ← load p;
          (match pListNext m with
           | Some q => free_rec fuel (Some q);;
                       on_msg p (fun m => Ret (set_links m (pSrsp m) None))
           | None => mret tt
           end);;
          m ← load p;
          (match pSrsp m with
           | Some q => free_rec fuel (Some q);;
                       on_msg p (fun m => Ret (set_links m None (pListNext m)))
           | None => mret tt
           end);;
          load p;;
          modify (fun s => set_heap s (delete p (heap s)))
      end
  end.

Definition MT_MSG_free (p : option positive) : IO unit := fun s =>
  free_rec (S (size (heap s))) p s.

(** [MT_MSG_clone]: a copy with a sequence number of its own, a clone of the
    response, and no list link. *)
Fixpoint clone_rec (fuel : nat) (pOrig : positive) : IO (option positive) :=
  match fuel with
  | O => out_of_fuel
  | S fuel =>
      orig ← load pOrig;
      o ← MT_MSG_alloc (expected_len orig) (cmd0 orig) (cmd1 orig);
      match o with
      | None => mret None
      | Some p =>
          fresh ← load p;
          let save_id := sequence_id fresh in
          (match pSrcIface orig, pDestIface orig with
           | None, None => undefined Fatal
           | _, _ => mret tt
           end);;
          orig ← load pOrig;
          store p (set_ident orig save_id (was_formatted orig));;
          (match pSrsp orig with
           | Some q =>
               c ← clone_rec fuel q;
               on_msg p (fun m => Ret (set_links m c (pListNext m)))
           | None => mret tt
           end);;
          on_msg p (fun m => Ret (set_ident (set_links m (pSrsp m) None) (sequence_id m) false));;
          mret (Some p)
      end
  end.

Definition MT_MSG_clone (p : positive) : IO (option positive) := fun s =>
  clone_rec (S (size (heap s))) p s.

(** ** Message lists *)

(** The walk of [MT_MSG_LIST_insert] to the last link. *)
Fixpoint list_last (fuel : nat) (p : positive) : IO positive :=
  match fuel with
  | O => out_of_fuel
  | S fuel =>
      m ← load p;
      match pListNext m with
      | None => mret p
      | Some q => list_last fuel q
      end
  end.

Definition MT_MSG_LIST_insert (p : positive) : IO unit :=
  on_msg p (fun m => Ret (set_links m (pSrsp m) None));;
  s ← get;
  match rx_list s with
  | None => modify (fun s => set_rx_list s (Some p))
  | Some h =>
      l ← list_last (S (size (heap s))) h;
      on_msg l (fun m => Ret (set_links m (pSrsp m) (Some p)))
  end.

Definition MT_MSG_LIST_remove : IO (option positive) :=
  s ← get;
  match rx_list s with
  | None => mret None
  | Some p =>
      m ← load p;
      modify (fun s => set_rx_list s (pListNext m));;
      on_msg p (fun m => Ret (set_links m (pSrsp m) None));;
      mret (Some p)
  end.

(** The loop of [MT_MSG_LIST_destroy]. *)
Fixpoint list_destroy (fuel : nat) : IO unit :=
  s ← get;
  match rx_list s with
  | None => mret tt
  | Some p =>
      match fuel with
      | O => out_of_fuel
      | S fuel =>
          m ← load p;
          modify (fun s => set_rx_list s (pListNext m));;
          on_msg p (fun m => Ret (set_links m (pSrsp m) None));;
          MT_MSG_free (Some p);;
          list_destroy fuel
      end
  end.

Definition MT_MSG_LIST_destroy : IO unit := fun s => list_destroy (S (size (heap s))) s.

(** ** Transmission *)

Definition next_write (n : Z) : IO Z := fun s =>
  let w := outside s in
  match writes w with
  | o :: os =>
      Ret (match o with Some k => k | None => n end,
           set_world s (MkWorld (mallocs w) os (locks w) (arrivals w)))
  | [] => Ret (n, s)
  end.

Definition MT_MSG_tx_raw (p : positive) : IO Z :=
  on_msg p MT_MSG_format_msg;;
  m ← load p;
  if 2176 <? iobuf_nvalid m then
    modify (fun s => set_wire s (wire s) (num_tx_pkt s) (num_err_bad_tx_len s + 1));; mret 0
  else
    d ← lift (mem_read (iobuf m) 0 (iobuf_nvalid m));
    r ← next_write (iobuf_nvalid m);
    modify (fun s => set_wire s (wire s ++ [take (Z.to_nat r) d]) (num_tx_pkt s)
                              (num_err_bad_tx_len s));;
    if r =? iobuf_nvalid m then mret 1 else mret 0.

(** ** Lists in the heap *)

(** [chain h o l]: following [pListNext] from [o] visits exactly [l]. *)
Fixpoint chain (h : gmap positive mt_msg) (o : option positive) (l : list positive) : Prop :=
  match l with
  | [] => o = None
  | p :: l => o = Some p /\ exists m, h !! p = Some m /\ chain h (pListNext m) l
  end.

(** The heap up to the list links. *)
Definition unlinked (m : mt_msg) : mt_msg := set_links m (pSrsp m) None.

Lemma chain_live h o l p : chain h o l -> p ∈ l -> is_Some (h !! p).
Proof.
  revert o. induction l as [|q l IH]; intros o Hc Hp; [by apply elem_of_nil in Hp|].
  destruct Hc as (-> & m & Hm & Hc). apply elem_of_cons in Hp as [->|Hp]; [by exists m|eauto].
Qed.

Lemma chain_insert_other h o l p m :
  chain h o l -> p ∉ l -> chain (<[p := m]> h) o l.
Proof.
  revert o. induction l as [|q l IH]; intros o Hc Hp; [done|].
  apply not_elem_of_cons in Hp as [Hne Hp]. destruct Hc as (-> & mq & Hq & Hc).
  split; [done|]. exists mq. split; [by rewrite lookup_insert_ne|eauto].
Qed.

Lemma chain_delete_other h o l p : chain h o l -> p ∉ l -> chain (delete p h) o l.
Proof.
  revert o. induction l as [|q l IH]; intros o Hc Hp; [done|].
  apply not_elem_of_cons in Hp as [Hne Hp]. destruct Hc as (-> & mq & Hq & Hc).
  split; [done|]. exists mq. split; [by rewrite lookup_delete_ne|eauto].
Qed.

(** A chain without repetition is no longer than the heap. *)
Lemma chain_size h o l : chain h o l -> NoDup l -> (length l <= size h)%nat.
Proof.
  intros Hc Hn. rewrite <- (size_dom h).
  rewrite <- (size_list_to_set (C := gset positive) l) by done.
  apply subseteq_size. intros p Hp%elem_of_list_to_set. apply elem_of_dom. by eapply chain_live.
Qed.

Lemma list_last_spec fuel s p l :
  chain (heap s) (Some p) l -> (length l <= fuel)%nat ->
  exists q l' m, l = l' ++ [q] /\ heap s !! q = Some m /\ pListNext m = None /\
    list_last fuel p s = Ret (q, s).
Proof.
  revert p l. induction fuel as [|fuel IH]; intros p l Hc Hl.
  { destruct l as [|x l]; [done|cbn in Hl; lia]. }
  destruct l as [|x l]; [done|]. destruct Hc as ([= <-] & m & Hm & Hc).
  cbn [list_last]. unfold mbind, M_bind at 1. unfold load. rewrite Hm. cbn [mbind outcome_bind].
  destruct l as [|y l].
  - cbn in Hc. rewrite Hc. exists p, [], m. done.
  - destruct (pListNext m) as [q|] eqn:Eq; [|by destruct Hc].
    destruct (IH q (y :: l)) as (z & l' & mz & El & Hz & Hn & E); [done|cbn in *; lia|].
    exists z, (p :: l'), mz. split; [by rewrite El|done].
Qed.

Lemma chain_snoc h o l q p m mp :
  chain h o (l ++ [q]) -> h !! q = Some m -> h !! p = Some mp -> pListNext mp = None ->
  p ∉ l ++ [q] -> NoDup (l ++ [q]) ->
  chain (<[q := set_links m (pSrsp m) (Some p)]> h) o (l ++ [q; p]).
Proof.
  revert o. induction l as [|x l IH]; intros o Hc Hq Hp Hn Hin Hnd.
  - cbn in *. destruct Hc as (-> & m' & Hm' & Hc). split; [done|].
    eexists. split; [apply lookup_insert_eq|]. split; [done|]. exists mp. split; [|done].
    rewrite lookup_insert_ne; [done|]. apply not_elem_of_cons in Hin as [? _]. congruence.
  - cbn [app] in *. destruct Hc as (-> & mx & Hx & Hc).
    apply not_elem_of_cons in Hin as [Hne Hin]. apply NoDup_cons in Hnd as [Hx' Hnd].
    split; [done|]. exists mx. split; [|by apply IH].
    rewrite lookup_insert_ne; [done|]. intros <-. apply Hx'. apply elem_of_app. right. by left.
Qed.

(** The abstract queue of the application: the pointers in the list. *)
Record list_inv (s : mif) (l : list positive) : Prop := MkListInv {
  li_chain : chain (heap s) (rx_list s) l;
  li_nodup : NoDup l
}.

Lemma on_msg_run p f s m m' :
  heap s !! p = Some m -> f m = Ret m' ->
  on_msg p f s = Ret (tt, set_heap s (<[p := m']> (heap s))).
Proof.
  intros Hm Hf. unfold on_msg, mbind, M_bind, load, lift, store. rewrite Hm.
  cbn [mbind outcome_bind]. rewrite Hf. cbn [mbind outcome_bind]. by rewrite Hm.
Qed.

(** The state with [m] stored at [p]: the normal form of runs on one message. *)
Definition put (p : positive) (m : mt_msg) (s : mif) : mif :=
  set_heap s (<[p := m]> (heap s)).

Lemma put_id p m s : heap s !! p = Some m -> put p m s = s.
Proof. intros H. unfold put. rewrite insert_id by done. by destruct s. Qed.

Lemma put_put p m m' s : put p m' (put p m s) = put p m' s.
Proof. unfold put. cbn [set_heap heap]. by rewrite insert_insert_eq. Qed.

Lemma put_comm p q m m' s : p <> q -> put p m (put q m' s) = put q m' (put p m s).
Proof. intros. unfold put. cbn [set_heap heap]. by rewrite insert_insert_ne by done. Qed.

Lemma heap_put p m s : heap (put p m s) !! p = Some m.
Proof. apply lookup_insert_eq. Qed.

Lemma heap_put_ne p q m s : p <> q -> heap (put p m s) !! q = heap s !! q.
Proof. intros. by apply lookup_insert_ne. Qed.

Lemma on_msg_put p f s m m' :
  f m = Ret m' -> on_msg p f (put p m s) = Ret (tt, put p m' s).
Proof.
  intros Hf. rewrite (on_msg_run p f (put p m s) m m') by (done || apply heap_put).
  by rewrite <- (put_put p m m' s).
Qed.

(** Run the next operation on the message at hand by its equation. *)
Ltac run_msg E := erewrite (M_bind_Ret _ (on_msg _ _)) by (eapply on_msg_put; exact E); cbv beta.

Lemma load_put p m s : load p (put p m s) = Ret (m, put p m s).
Proof. unfold load. by rewrite heap_put. Qed.

Lemma read_msg_put p f s m v m' :
  f m = Ret (v, m') -> read_msg p f (put p m s) = Ret (v, put p m' s).
Proof.
  intros Hf. unfold read_msg. rewrite (M_bind_Ret _ _ _ _ _ (load_put p m s)).
  unfold lift, store, mbind, M_bind. rewrite Hf. cbn [mbind outcome_bind].
  rewrite heap_put. cbn [mbind outcome_bind]. by rewrite <- (put_put p m m' s).
Qed.

Lemma load_run p s m : heap s !! p = Some m -> load p s = Ret (m, s).
Proof. intros Hm. unfold load. by rewrite Hm. Qed.

Lemma list_insert_spec s l p m :
  list_inv s l -> heap s !! p = Some m -> p ∉ l ->
  exists s', MT_MSG_LIST_insert p s = Ret (tt, s') /\ list_inv s' (l ++ [p]) /\
    unlinked <$> heap s' = unlinked <$> heap s.
Proof.
  intros [Hc Hn] Hm Hp. unfold MT_MSG_LIST_insert.
  erewrite (M_bind_Ret _ (on_msg _ _)) by (by apply (on_msg_run p _ s m)).
  set (s1 := set_heap s _).
  assert (unlinked <$> heap s1 = unlinked <$> heap s) as Hu1.
  { unfold s1. cbn [set_heap heap]. rewrite fmap_insert. apply insert_id.
    rewrite lookup_fmap, Hm. done. }
  assert (chain (heap s1) (rx_list s1) l) as Hc1 by (by apply chain_insert_other).
  assert (heap s1 !! p = Some (set_links m (pSrsp m) None)) as Hp1 by apply lookup_insert_eq.
  assert (NoDup (l ++ [p])) as Hnd.
  { apply NoDup_app. split; [done|]. split; [|apply NoDup_singleton].
    intros x Hx ->%list_elem_of_singleton. done. }
  rewrite (M_bind_Ret _ get s1 s1 s1) by done.
  destruct (rx_list s1) as [h|] eqn:Eh.
  - destruct (list_last_spec (S (size (heap s1))) s1 h l) as (q & l' & mq & -> & Hq & Hnx & E);
      [done|by apply chain_size in Hc1; [lia|]|].
    rewrite (M_bind_Ret _ _ _ _ _ E). erewrite (on_msg_run q) by done.
    eexists. split; [done|]. split.
    + constructor; [|done]. cbn [set_heap heap rx_list]. rewrite Eh, <- app_assoc.
      by eapply chain_snoc.
    + rewrite <- Hu1. cbn [set_heap heap]. rewrite fmap_insert. apply insert_id.
      rewrite lookup_fmap, Hq. done.
  - eexists. split; [done|]. destruct l; [|by destruct Hc1].
    split; [|done]. constructor; [|done]. cbn. split; [done|]. by eexists.
Qed.

Lemma list_remove_spec s l :
  list_inv s l ->
  match l with
  | [] => MT_MSG_LIST_remove s = Ret (None, s)
  | p :: l => exists s' m, MT_MSG_LIST_remove s = Ret (Some p, s') /\ list_inv s' l /\
      heap s' !! p = Some m /\ pListNext m = None /\ unlinked <$> heap s' = unlinked <$> heap s
  end.
Proof.
  intros [Hc Hn]. unfold MT_MSG_LIST_remove. run_get.
  destruct l as [|p l]; [by rewrite Hc|]. destruct Hc as (-> & m & Hm & Hc).
  apply NoDup_cons in Hn as [Hp Hn].
  rewrite (M_bind_Ret _ _ _ _ _ (load_run p s m Hm)).
  cbv beta. erewrite (M_bind_Ret _ (modify _)) by done. set (s1 := set_rx_list s _).
  erewrite (M_bind_Ret _ (on_msg _ _)) by (by apply (on_msg_run p _ s1 m)).
  eexists. exists (set_links m (pSrsp m) None). split; [done|]. split; [|split_and!].
  - constructor; [|done]. by apply chain_insert_other.
  - apply lookup_insert_eq.
  - done.
  - cbn [set_heap heap s1 set_rx_list]. rewrite fmap_insert. apply insert_id.
    rewrite lookup_fmap, Hm. done.
Qed.

(** ** Freeing *)

Definition no_responses (h : gmap positive mt_msg) (l : list positive) : Prop :=
  forall q m, q ∈ l -> h !! q = Some m -> pSrsp m = None.

Lemma lookup_foldr_delete (h : gmap positive mt_msg) l p :
  p ∉ l -> foldr delete h l !! p = h !! p.
Proof.
  induction l as [|q l IH]; intros Hp; [done|]. apply not_elem_of_cons in Hp as [Hne Hp].
  cbn [foldr]. rewrite lookup_delete_ne by done. by apply IH.
Qed.

Lemma free_chain fuel s o l :
  chain (heap s) o l -> NoDup l -> no_responses (heap s) l -> (length l <= fuel)%nat ->
  free_rec fuel o s = Ret (tt, set_heap s (foldr delete (heap s) l)).
Proof.
  revert s o l. induction fuel as [|fuel IH]; intros s o l Hc Hn Hr Hl.
  { destruct l; [|cbn in Hl; lia]. cbn in Hc. subst o. cbn. by destruct s. }
  destruct l as [|p l]; [cbn in Hc; subst o; cbn; by destruct s|].
  destruct Hc as (-> & m & Hm & Hc). apply NoDup_cons in Hn as [Hp Hn]. cbn [length] in Hl.
  assert (pSrsp m = None) as Hs by (eapply Hr; [by left|done]).
  set (h' := foldr delete (heap s) l).
  assert (h' !! p = Some m) as Hp' by (unfold h'; by rewrite lookup_foldr_delete).
  cbn [free_rec]. run_step (load_run p s m Hm).
  assert (exists m1 h1, pSrsp m1 = None /\ h1 !! p = Some m1 /\ delete p h1 = delete p h' /\
    (match pListNext m with
     | Some q => free_rec fuel (Some q);; on_msg p (fun m => Ret (set_links m (pSrsp m) None))
     | None => mret tt
     end) s = Ret (tt, set_heap s h1)) as (m1 & h1 & Hs1 & Hp1 & Hd & E).
  { destruct (pListNext m) as [q|] eqn:Eq.
    - assert (free_rec fuel (Some q) s = Ret (tt, set_heap s h')) as Ef.
      { apply IH; try done; [|lia]. intros x mx Hx. apply Hr. by right. }
      exists (set_links m (pSrsp m) None), (<[p := set_links m (pSrsp m) None]> h').
      split; [done|]. split; [apply lookup_insert_eq|]. split; [by rewrite delete_insert_eq|].
      run_step Ef. by erewrite (on_msg_run p _ (set_heap s h') m).
    - destruct l as [|x l]; [|by destruct Hc]. exists m, (heap s).
      split; [done|]. split; [done|]. split; [done|]. by destruct s. }
  run_step E. run_step (load_run p (set_heap s h1) m1 Hp1). rewrite Hs1.
  run_step (eq_refl (@Ret (unit * mif) (tt, set_heap s h1))).
  run_step (load_run p (set_heap s h1) m1 Hp1).
  unfold modify. cbn [foldr]. fold h'. by rewrite <- Hd.
Qed.

Lemma foldr_delete_comm (h : gmap positive mt_msg) l p :
  foldr delete (delete p h) l = delete p (foldr delete h l).
Proof. induction l as [|q l IH]; [done|]. cbn [foldr]. rewrite IH. apply delete_delete. Qed.

Lemma free_single s p m :
  heap s !! p = Some m -> pListNext m = None -> pSrsp m = None ->
  MT_MSG_free (Some p) s = Ret (tt, set_heap s (delete p (heap s))).
Proof.
  intros Hm Hn Hs. unfold MT_MSG_free. apply (free_chain _ s (Some p) [p]).
  - split; [done|]. by exists m.
  - apply NoDup_singleton.
  - intros q mq ->%list_elem_of_singleton Hq. congruence.
  - cbn. lia.
Qed.

Lemma list_destroy_spec fuel s l :
  list_inv s l -> no_responses (heap s) l -> (length l <= fuel)%nat ->
  list_destroy fuel s = Ret (tt, set_rx_list (set_heap s (foldr delete (heap s) l)) None).
Proof.
  revert s l. induction fuel as [|fuel IH]; intros s l [Hc Hn] Hr Hl.
  { destruct l; [|cbn in Hl; lia]. cbn in Hc. cbn [list_destroy].
    run_get. rewrite Hc. cbn. rewrite <- Hc. by destruct s. }
  cbn [list_destroy]. run_get.
  destruct l as [|p l]; [rewrite Hc; cbn in *; rewrite <- Hc; by destruct s|].
  destruct Hc as (-> & m & Hm & Hc). apply NoDup_cons in Hn as [Hp Hn]. cbn [length] in Hl.
  assert (pSrsp m = None) as Hs by (eapply Hr; [by left|done]).
  run_step (load_run p s m Hm).
  run_modify. set (s1 := set_rx_list s _).
  assert (on_msg p (fun m => Ret (set_links m (pSrsp m) None)) s1 =
    Ret (tt, set_heap s1 (<[p := set_links m (pSrsp m) None]> (heap s1)))) as E1
    by (by apply (on_msg_run p _ s1 m)).
  run_step E1. set (s2 := set_heap s1 _).
  assert (heap s2 !! p = Some (set_links m (pSrsp m) None)) as Hp2 by apply lookup_insert_eq.
  run_step (free_single s2 p _ Hp2 eq_refl Hs).
  assert (delete p (heap s2) = delete p (heap s)) as Ed by apply delete_insert_eq.
  rewrite Ed. rewrite (IH _ l).
  - cbn [set_heap heap]. rewrite foldr_delete_comm. done.
  - constructor; [|done]. by apply chain_delete_other.
  - intros q mq Hq Hlk. cbn [set_heap heap] in Hlk. rewrite lookup_delete_ne in Hlk by (intros <-; done).
    eapply Hr; [by right|done].
  - lia.
Qed.

(** Freeing a message that is in no list. *)
(** Taking the first message of the list. *)
Lemma list_remove_head s p q m :
  list_inv s (p :: q) -> heap s !! p = Some m ->
  exists s', MT_MSG_LIST_remove s = Ret (Some p, put p (unlinked m) s') /\
    list_inv (put p (unlinked m) s') q /\ (p ∉ q) /\ heap s' = heap s /\ outside s' = outside s /\
    cfg s' = cfg s /\ wire s' = wire s.
Proof.
  intros [Hc Hn] Hm. apply NoDup_cons in Hn as [Hp Hn].
  destruct Hc as (Hr & m' & Hm' & Hc). rewrite Hm in Hm'. injection Hm' as <-.
  exists (set_rx_list s (pListNext m)). split.
  { unfold MT_MSG_LIST_remove. run_get. rewrite Hr. run_step (load_run p s m Hm). run_modify.
    set (s1 := set_rx_list s _).
    assert (on_msg p (fun m => Ret (set_links m (pSrsp m) None)) s1 =
            Ret (tt, put p (unlinked m) s1)) as E by (by apply (on_msg_run p _ s1 m)).
    by run_step E. }
  split; [|done]. constructor; [|done]. by apply chain_insert_other.
Qed.

(** Taking it and freeing it. *)
Lemma list_drop_head s p q m :
  list_inv s (p :: q) -> heap s !! p = Some m -> pSrsp m = None ->
  exists s1 s2, MT_MSG_LIST_remove s = Ret (Some p, put p (unlinked m) s1) /\
    MT_MSG_free (Some p) (put p (unlinked m) s1) = Ret (tt, s2) /\
    list_inv s2 q /\ heap s2 = delete p (heap s) /\ wire s2 = wire s /\ cfg s2 = cfg s.
Proof.
  intros Hl Hm Hs. destruct (list_remove_head s p q m Hl Hm) as (s1 & Er & Hq & Hpq & E1 & _ & Ec & Ew).
  exists s1. eexists. split; [done|]. split; [by apply (free_single _ p (unlinked m)); [apply heap_put|..]|].
  cbn. rewrite delete_insert_eq, E1. split; [|done].
  constructor; [|apply Hq]. destruct Hq as [Hc _]. cbn in *.
  rewrite <- (delete_insert_eq (heap s) p (unlinked m)), <- E1. by apply chain_delete_other.
Qed.

Lemma free_put p m s :
  heap s !! p = None -> pListNext m = None -> pSrsp m = None ->
  MT_MSG_free (Some p) (put p m s) = Ret (tt, s).
Proof.
  intros Hp Hn Hr. rewrite (free_single (put p m s) p m) by (done || apply heap_put).
  unfold put. cbn [set_heap heap]. rewrite delete_insert_id by done. by destruct s.
Qed.

Lemma free_put_live p m s :
  pListNext m = None -> pSrsp m = None ->
  MT_MSG_free (Some p) (put p m s) = Ret (tt, set_heap s (delete p (heap s))).
Proof.
  intros Hn Hr. rewrite (free_single (put p m s) p m) by (done || apply heap_put).
  unfold put. cbn [set_heap heap]. by rewrite delete_insert_eq.
Qed.

(** ** Transmission of one message *)

(** The world lets everything through. *)
Definition fair (s : mif) : Prop := mallocs (outside s) = [] /\ writes (outside s) = [].

(** The state after [d] was written to the device. *)
Definition sent (d : list Z) (s : mif) : mif :=
  set_wire s (wire s ++ [d]) (num_tx_pkt s) (num_err_bad_tx_len s).

Lemma tx_raw_spec p m s i d :
  fair s -> has_payload m i d -> zlen (mt_frame i (cmd0 m) (cmd1 m) d) <= 2176 ->
  exists m', MT_MSG_tx_raw p (put p m s) =
      Ret (1, put p m' (sent (mt_frame i (cmd0 m) (cmd1 m) d) s)) /\
    formatted m i d m' /\ pListNext m' = pListNext m /\ pSrsp m' = pSrsp m.
Proof.
  intros [_ Hw] Hp Hl. destruct (format_spec m i d Hp) as (m' & E & F).
  pose proof F as [Wf _ Fn _ Fb _].
  unfold MT_MSG_tx_raw. run_step (on_msg_put p MT_MSG_format_msg s m m' E).
  run_step (load_put p m' s). rewrite (proj2 (Z.ltb_ge _ _)) by lia.
  pose proof (mwf_buf m' Wf) as Wb. pose proof (mwf_nvalid m' Wf) as Wn.
  unfold lift. rewrite mem_read_ok by lia. change (Z.to_nat 0) with 0%nat.
  unfold slice. rewrite drop_0, Fb.
  unfold mbind at 1, M_bind at 1. cbn [mbind outcome_bind].
  unfold mbind at 1, M_bind at 1. unfold next_write. change (outside (put p m' s)) with (outside s).
  rewrite Hw. cbn [mbind outcome_bind]. unfold mbind, M_bind, modify. cbn [mbind outcome_bind].
  rewrite Z.eqb_refl. exists m'. split; [|split; [done|by apply format_links]].
  rewrite take_ge; [done|]. rewrite Fn. unfold zlen. lia.
Qed.

(** The state after an allocation, the new message aside. *)
Definition bumped (s : mif) : mif :=
  set_alloc s (heap s) (Pos.succ (next_ptr s)) (u32 (msg_sequence_counter s + 1)).

(** Fresh memory: no live message at or above the next key. *)
Definition fresh (s : mif) : Prop := forall p, (next_ptr s <= p)%positive -> heap s !! p = None.

Lemma fresh_bumped s : fresh s -> fresh (bumped s).
Proof. intros H p Hp. apply H. cbn in Hp. lia. Qed.

Lemma fresh_put p m s : fresh s -> (p < next_ptr s)%positive -> fresh (put p m s).
Proof.
  intros H Hp q Hq. cbn in Hq. rewrite heap_put_ne by lia. by apply H.
Qed.

#[export] Hint Resolve heap_put fresh_bumped fresh_put : heaps.

Lemma fresh_live s p m : fresh s -> heap s !! p = Some m -> (p < next_ptr s)%positive.
Proof.
  intros H Hm. destruct (decide (p < next_ptr s)%positive) as [|Hn]; [done|].
  rewrite H in Hm by lia. done.
Qed.

Lemma alloc_run s len c0 c1 :
  fair s ->
  exists m, MT_MSG_alloc len c0 c1 s = Ret (Some (next_ptr s), put (next_ptr s) m (bumped s)) /\
    msg_wf m /\ is_error m = false /\ iobuf_idx m = -1 /\ iobuf_nvalid m = 0 /\
    cmd0 m = c0 /\ cmd1 m = c1 /\ expected_len m = len /\ pSrsp m = None /\ pListNext m = None.
Proof.
  intros [Hm _]. unfold MT_MSG_alloc, malloc_ok, mbind, M_bind. rewrite Hm.
  cbn [mbind outcome_bind get]. unfold lift.
  destruct (new_spec (msg_sequence_counter s) len c0 c1)
    as (m & -> & W & E & I & N & C0 & C1 & L & _ & Hs & Hl).
  exists m. split; [reflexivity|done].
Qed.

(** Setting the destination of a message whose index is unset. *)
Lemma setDest_writable m i :
  msg_wf m -> is_error m = false -> iobuf_idx m = -1 -> iobuf_nvalid m = 0 ->
  is_byte (cmd0 m) -> is_byte (cmd1 m) ->
  exists m', MT_MSG_setDestIface m (Some i) = Ret m' /\ writable m' i /\
    cmd0 m' = cmd0 m /\ cmd1 m' = cmd1 m /\ expected_len m' = expected_len m /\
    pListNext m' = pListNext m /\ pSrsp m' = pSrsp m.
Proof.
  intros Hwf He Hi Hn H0 H1. pose proof (payload_start_bounds i).
  unfold MT_MSG_setDestIface, init_wr_idx. cbn [set_ifaces iobuf_idx pDestIface].
  rewrite (proj2 (Z.leb_gt _ _)) by lia. cbn [deref mbind outcome_bind].
  eexists. split; [done|]. split; [|done]. destruct Hwf.
  constructor; cbn; try done; [|lia]. constructor; cbn; try done. unfold IOBUF_SIZE. lia.
Qed.

(** ** Sequences of list operations *)

Inductive list_op : Type := Insert (p : positive) | Remove.

(** The queue the list stands for. *)
Definition queue_step (q : list positive) (o : list_op) : option positive * list positive :=
  match o with
  | Insert p => (None, q ++ [p])
  | Remove => (head q, tail q)
  end.

Definition list_step (o : list_op) : IO (option positive) :=
  match o with
  | Insert p => MT_MSG_LIST_insert p;; mret None
  | Remove => MT_MSG_LIST_remove
  end.

(** A message is inserted only while it is live and not in the list. *)
Fixpoint ops_ok (live : gset positive) (q : list positive) (os : list list_op) : Prop :=
  match os with
  | [] => True
  | o :: os =>
      match o with Insert p => p ∈ live /\ p ∉ q | Remove => True end /\
      ops_ok live (queue_step q o).2 os
  end.

Fixpoint list_run (os : list list_op) : IO (list (option positive)) :=
  match os with
  | [] => mret []
  | o :: os => r ← list_step o; rs ← list_run os; mret (r :: rs)
  end.

Fixpoint queue_run (q : list positive) (os : list list_op) : list (option positive) * list positive :=
  match os with
  | [] => ([], q)
  | o :: os => let '(r, q) := queue_step q o in
               let '(rs, q) := queue_run q os in (r :: rs, q)
  end.

(** ** Properties *)

(** C40: The list of received messages is a queue: whatever sequence of inserts
    and removes runs on it, the removes return the messages in the order of
    their insertion (or nothing when the queue is empty), every pointer
    followed is live, and apart from the links no message changes. *)
Theorem mt_list_refines_queue os s q :
  list_inv s q -> ops_ok (dom (heap s)) q os ->
  exists s', list_run os s = Ret ((queue_run q os).1, s') /\
    list_inv s' (queue_run q os).2 /\ unlinked <$> heap s' = unlinked <$> heap s.
Proof.
  revert s q. induction os as [|o os IH]; intros s q Hi Hok; [by exists s|].
  cbn [list_run queue_run ops_ok] in *. destruct Hok as [Ho Hok].
  assert (exists s1, list_step o s = Ret ((queue_step q o).1, s1) /\
    list_inv s1 (queue_step q o).2 /\ unlinked <$> heap s1 = unlinked <$> heap s)
    as (s1 & E1 & Hi1 & Hu1).
  { destruct o as [p|]; cbn [list_step queue_step fst snd].
    - destruct Ho as [[m Hm]%elem_of_dom Hp].
      destruct (list_insert_spec s q p m Hi Hm Hp) as (s1 & E & Hi1 & Hu).
      exists s1. split; [by run_step E|done].
    - pose proof (list_remove_spec s q Hi) as Hr. destruct q as [|p q]; [by exists s|].
      destruct Hr as (s1 & m & E & Hi1 & _ & _ & Hu). by exists s1. }
  run_step E1. destruct (queue_step q o) as [r q1] eqn:Eq. cbn [fst snd] in *.
  assert (dom (heap s1) = dom (heap s)) as Hd
    by (rewrite <- (dom_fmap_L unlinked (heap s1)), Hu1; apply dom_fmap_L).
  destruct (IH s1 q1) as (s2 & E2 & Hi2 & Hu2); [done|by rewrite Hd|].
  run_step E2. destruct (queue_run q1 os) as [rs q2] eqn:Er. cbn [fst snd] in *.
  exists s2. split; [done|]. split; [done|]. congruence.
Qed.

Definition demo_world : world := MkWorld [] [] [] [].
Definition demo_msg : mt_msg :=
  MkMsg 0 None None T_areq false 0 0x41 0 0 false 5 5 IOBUF_SIZE [] None None.
(** Three messages, the first two in the list. *)
Definition demo_mif : mif :=
  set_rx_list (set_heap (mif_init uart_iface demo_world)
    (<[1%positive := set_links demo_msg None (Some 2%positive)]>
      (<[2%positive := demo_msg]> {[3%positive := demo_msg]}))) (Some 1%positive).

Lemma demo_mif_inv : list_inv demo_mif [1%positive; 2%positive].
Proof.
  constructor.
  - split; [done|]. eexists. split; [reflexivity|]. split; [done|]. eexists. by split.
  - apply (bool_decide_unpack (NoDup _)). vm_compute. exact I.
Qed.

Lemma mt_list_refines_queue_witness :
  exists s', list_run [Insert 3; Remove; Remove; Remove; Remove] demo_mif =
      Ret ([None; Some 1%positive; Some 2%positive; Some 3%positive; None], s') /\
    list_inv s' [] /\ unlinked <$> heap s' = unlinked <$> heap demo_mif.
Proof.
  apply (mt_list_refines_queue [Insert 3; Remove; Remove; Remove; Remove] demo_mif
           [1%positive; 2%positive] demo_mif_inv).
  split; [|done]. split.
  - apply elem_of_dom. by eexists.
  - apply (bool_decide_unpack (_ ∉ _)). vm_compute. exact I.
Defined.

(** Destroying a list frees every message in it exactly once, touches no
    freed memory, leaves all other messages alone and the list empty. *)
Theorem mt_list_destroy_frees s l :
  list_inv s l -> no_responses (heap s) l ->
  exists s', MT_MSG_LIST_destroy s = Ret (tt, s') /\ rx_list s' = None /\
    forall p, heap s' !! p = if decide (p ∈ l) then None else heap s !! p.
Proof.
  intros Hi Hr. unfold MT_MSG_LIST_destroy. rewrite (list_destroy_spec _ s l Hi Hr).
  - eexists. split; [done|]. split; [done|]. intros p. cbn [set_rx_list set_heap heap].
    clear Hi Hr. induction l as [|q l IH]; [done|]. cbn [foldr].
    destruct (decide (p = q)) as [->|Hne].
    { rewrite lookup_delete_eq. by rewrite decide_True by (by left). }
    rewrite lookup_delete_ne, IH by done.
    destruct (decide (p ∈ l)); [by rewrite decide_True by (by right)|].
    by rewrite decide_False by (by intros [|]%elem_of_cons).
  - destruct Hi as [Hc Hn]. apply chain_size in Hc; [lia|done].
Qed.

Lemma mt_list_destroy_frees_witness :
  exists s', MT_MSG_LIST_destroy demo_mif = Ret (tt, s') /\ rx_list s' = None /\
    forall p, heap s' !! p =
      if decide (p ∈ [1%positive; 2%positive]) then None else heap demo_mif !! p.
Proof.
  apply (mt_list_destroy_frees demo_mif [1%positive; 2%positive] demo_mif_inv).
  intros q m [->|[->|[]%elem_of_nil]%elem_of_cons]%elem_of_cons Hq;
    injection Hq as <-; reflexivity.
Defined.

(** ** Cloning *)

(** The responses hanging off a message, each with an interface. *)
Fixpoint resp_chain (h : gmap positive mt_msg) (o : option positive) (l : list positive) : Prop :=
  match l with
  | [] => o = None
  | p :: l => o = Some p /\ exists m, h !! p = Some m /\
      (pSrcIface m <> None \/ pDestIface m <> None) /\ resp_chain h (pSrsp m) l
  end.

(** A clone: a new number, its own response, in no list, not formatted. *)
Definition cloned (m : mt_msg) (id : Z) (srsp : option positive) : mt_msg :=
  set_ident (set_links m srsp None) id false.

(** In [h'] there is at [o] a clone, in memory new to [h], of each of [l]. *)
Fixpoint copies (h h' : gmap positive mt_msg) (l : list positive) (o : option positive) : Prop :=
  match l with
  | [] => o = None
  | p :: l => exists p' m id o', o = Some p' /\ h !! p = Some m /\ h !! p' = None /\
      h' !! p' = Some (cloned m id o') /\ copies h h' l o'
  end.

Lemma resp_chain_mono h h' o l : h ⊆ h' -> resp_chain h o l -> resp_chain h' o l.
Proof.
  intros Hs. revert o. induction l as [|p l IH]; intros o Hc; [done|].
  destruct Hc as (-> & m & Hm & Hi & Hc). split; [done|]. exists m.
  split; [by eapply lookup_weaken|]. auto.
Qed.

Lemma resp_chain_size h o l : resp_chain h o l -> NoDup l -> (length l <= size h)%nat.
Proof.
  intros Hc Hn. rewrite <- (size_dom h).
  rewrite <- (size_list_to_set (C := gset positive) l) by done.
  apply subseteq_size. intros p Hp%elem_of_list_to_set. apply elem_of_dom.
  clear Hn. revert o Hc. induction l as [|q l IH]; intros o Hc; [by apply elem_of_nil in Hp|].
  destruct Hc as (_ & m & Hm & _ & Hc). apply elem_of_cons in Hp as [->|Hp]; [by exists m|eauto].
Qed.

(** Clones made in a larger heap, with one more message written. *)
Lemma copies_mono h1 h2 h x mx l o o0 :
  h ⊆ h1 -> resp_chain h o0 l -> h1 !! x <> None ->
  copies h1 h2 l o -> copies h (<[x := mx]> h2) l o.
Proof.
  intros Hs Hr Hx. revert o o0 Hr. induction l as [|p l IH]; intros o o0 Hr Hc; [done|].
  destruct Hc as (p' & m & id & o' & -> & Hm & Hn & Hp' & Hc).
  destruct Hr as (_ & m0 & Hm0 & _ & Hr).
  assert (m0 = m) as -> by (apply (lookup_weaken _ h1) in Hm0; [congruence|done]).
  exists p', m, id, o'. split; [done|]. split; [done|]. split; [by eapply lookup_weaken_None|].
  split; [rewrite lookup_insert_ne; [done|congruence]|]. by eapply IH.
Qed.

(** The write at the end of a clone. *)
Lemma clone_finish p m s id srsp :
  (on_msg p (fun m => Ret (set_ident (set_links m (pSrsp m) None) (sequence_id m) false));;
   mret (Some p)) (put p (set_links (set_ident m id (was_formatted m)) srsp (pListNext m)) s) =
  Ret (Some p, put p (cloned m id srsp) s).
Proof. run_msg (eq_refl (Ret (cloned m id srsp))). done. Qed.

(** The first half of a clone: a copy in new memory. *)
Lemma clone_start fuel s p m :
  fair s -> fresh s -> heap s !! p = Some m -> pSrcIface m <> None \/ pDestIface m <> None ->
  exists id, clone_rec (S fuel) p s =
    ((match pSrsp m with
      | Some q => c ← clone_rec fuel q;
                  on_msg (next_ptr s) (fun m => Ret (set_links m c (pListNext m)))
      | None => mret tt
      end);;
     on_msg (next_ptr s) (fun m => Ret (set_ident (set_links m (pSrsp m) None) (sequence_id m) false));;
     mret (Some (next_ptr s)))
    (put (next_ptr s) (set_ident m id (was_formatted m)) (bumped s)).
Proof.
  intros Hf Hfr Hm Hi. cbn [clone_rec]. run_step (load_run p s m Hm).
  destruct (alloc_run s (expected_len m) (cmd0 m) (cmd1 m) Hf) as (m0 & Ea & _).
  run_step Ea. set (p' := next_ptr s). exists (sequence_id m0).
  run_step (load_put p' m0 (bumped s)).
  assert ((match pSrcIface m, pDestIface m with None, None => undefined Fatal | _, _ => mret tt end)
    (put p' m0 (bumped s)) = Ret (tt, put p' m0 (bumped s))) as Ei.
  { destruct (pSrcIface m); [done|]. destruct (pDestIface m); [done|]. by destruct Hi. }
  run_step Ei. assert (p < p')%positive as Hlt by by eapply fresh_live.
  assert (heap (put p' m0 (bumped s)) !! p = Some m) as Hm1 by (rewrite heap_put_ne by lia; done).
  run_step (load_run p _ m Hm1). set (m1 := set_ident m _ _).
  assert (store p' m1 (put p' m0 (bumped s)) = Ret (tt, put p' m1 (bumped s))) as Es.
  { unfold store. rewrite heap_put. by rewrite <- (put_put p' m0 m1). }
  by run_step Es.
Qed.

Lemma clone_chain fuel s p l :
  fair s -> fresh s -> resp_chain (heap s) (Some p) l -> (length l <= fuel)%nat ->
  exists s', clone_rec fuel p s = Ret (Some (next_ptr s), s') /\ fair s' /\ fresh s' /\
    heap s ⊆ heap s' /\ copies (heap s) (heap s') l (Some (next_ptr s)).
Proof.
  revert s p l. induction fuel as [|fuel IH]; intros s p l Hf Hfr Hc Hl;
    (destruct l as [|p0 l]; [done|]); [cbn in Hl; lia|].
  pose proof Hc as ([= <-] & m & Hm & Hi & Hr). cbn [length] in Hl.
  destruct (clone_start fuel s p m Hf Hfr Hm Hi) as (id & ->).
  set (p' := next_ptr s). set (m1 := set_ident m id (was_formatted m)). set (s1 := put p' m1 (bumped s)).
  assert (heap s !! p' = None) as Hn by (apply Hfr; unfold p'; lia).
  assert (heap s ⊆ heap s1) as Hsub by (by apply insert_subseteq).
  assert (fresh s1) as Hfr1 by (apply fresh_put; [by apply fresh_bumped|cbn; unfold p'; lia]).
  destruct l as [|q l].
  - cbn in Hr. rewrite Hr. run_step (eq_refl (@Ret (unit * mif) (tt, s1))).
    assert (m1 = set_links m1 None (pListNext m)) as Em by (unfold m1; rewrite <- Hr; by destruct m).
    pose proof (clone_finish p' m (bumped s) id None) as Ec. fold m1 in Ec. rewrite <- Em in Ec.
    fold s1 in Ec. rewrite Ec. eexists. split; [done|]. split; [done|].
    split; [apply fresh_put; [by apply fresh_bumped|cbn; unfold p'; lia]|].
    split; [by apply insert_subseteq|].
    exists p', m, id, None. split_and!; try done. apply heap_put.
  - destruct (pSrsp m) as [q'|] eqn:Eq; [|by destruct Hr]. pose proof Hr as ([= <-] & _).
    destruct (IH s1 q' (q' :: l)) as (s2 & E2 & Hf2 & Hfr2 & Hs2 & Hc2);
      [done|done|by eapply resp_chain_mono|lia|].
    assert (heap s2 !! p' = Some m1) as Hp2 by (eapply lookup_weaken; [apply heap_put|done]).
    set (o := Some (next_ptr s1)) in *.
    assert ((c ← clone_rec fuel q'; on_msg p' (fun m => Ret (set_links m c (pListNext m)))) s1 =
      Ret (tt, put p' (set_links m1 o (pListNext m)) s2)) as E3.
    { run_step E2. rewrite <- (put_id p' m1 s2 Hp2) at 1.
      by rewrite (on_msg_put p' _ s2 m1 (set_links m1 o (pListNext m1))). }
    pose proof (clone_finish p' m s2 id o) as Ec. fold m1 in Ec.
    run_step E3. rewrite Ec. eexists. split; [done|]. split; [done|].
    assert (p' < next_ptr s2)%positive as Hlt2 by by eapply fresh_live.
    split; [by apply fresh_put|]. split.
    + apply insert_subseteq_r; [done|]. by etrans.
    + exists p', m, id, o. split; [done|]. split; [done|]. split; [done|]. split; [apply heap_put|].
      eapply copies_mono; [exact Hsub|exact Hr| |exact Hc2]. unfold s1. by rewrite heap_put.
Qed.

(** a clone is a deep copy: cloning a message with any number of responses
    hanging off each other gives, in memory that was free before, a message
    with the same contents and clones of all the responses in the same order,
    each with a number of its own, in no list; no message that existed before
    is changed, so original and clone can be freed independently. *)
Theorem mt_clone_deep_copy s p l :
  fair s -> fresh s -> resp_chain (heap s) (Some p) l -> NoDup l ->
  exists s', MT_MSG_clone p s = Ret (Some (next_ptr s), s') /\
    heap s ⊆ heap s' /\ copies (heap s) (heap s') l (Some (next_ptr s)).
Proof.
  intros Hf Hfr Hc Hn. pose proof (resp_chain_size _ _ _ Hc Hn).
  destruct (clone_chain (S (size (heap s))) s p l) as (s' & E & _ & _ & Hs & Hcp); try done; [lia|].
  by exists s'.
Qed.

Definition demo_request : mif :=
  let m := set_ifaces demo_msg (Some uart_iface) None in
  set_alloc (mif_init uart_iface demo_world)
    (<[1%positive := set_links m (Some 2%positive) None]> {[2%positive := m]}) 3 2.

Lemma mt_clone_deep_copy_witness :
  exists s', MT_MSG_clone 1 demo_request = Ret (Some 3%positive, s') /\
    copies (heap demo_request) (heap s') [1%positive; 2%positive] (Some 3%positive).
Proof.
  destruct (mt_clone_deep_copy demo_request 1 [1%positive; 2%positive]) as (s' & E & _ & C).
  - by_eval.
  - intros p Hp. cbn in Hp. unfold demo_request. cbn [set_alloc heap].
    rewrite lookup_insert_ne, lookup_singleton_ne by lia. reflexivity.
  - split; [reflexivity|]. eexists. split; [reflexivity|]. split; [by left|].
    split; [reflexivity|]. eexists. split; [reflexivity|]. split; [by left|]. reflexivity.
  - apply (bool_decide_unpack (NoDup _)). vm_compute. exact I.
  - exists s'. split; [exact E|exact C].
Defined.

End MtHeap.
