(* ===== verification/MtFrag.v ===== *)
(** * Fragmentation (mt_interface/api/src/mt_msg.c)

    Long messages are cut into blocks that are acknowledged one by one; the
    receiver puts them together again.  This file models both sides, the
    dispatch of received messages by the rx thread and the transmit functions. *)

From Stdlib Require Import ZArith Lia.
From stdpp Require Import base list option numbers gmap.
From S2P Require Import Prelude MtMsg MtRx MtHeap.

Open Scope Z_scope.

Module MtFrag.
Import MtMsg MtHeap.

Definition FRAG_STATUS_success : Z := 0.
Definition FRAG_STATUS_resend_last : Z := 1.
Definition FRAG_STATUS_block_out_of_order : Z := 3.
Definition FRAG_STATUS_block_len_changed : Z := 4.
Definition FRAG_STATUS_frag_complete : Z := 6.
Definition EXT_STATUS_frag_complete : Z := 6.
Definition EXT_STATUS_frag_aborted : Z := 7.

(** The two fragmentation records of an interface. *)
Inductive side : Type := TX | RX.

Definition frag (sd : side) (s : mif) : frag_info :=
  match sd with TX => tx_frag s | RX => rx_frag s end.
Definition upd_frag (sd : side) (f : frag_info -> frag_info) : IO unit :=
  modify (fun s => match sd with
                   | TX => set_frags s (f (tx_frag s)) (rx_frag s)
                   | RX => set_frags s (tx_frag s) (f (rx_frag s))
                   end).

(** Run an update of a fragmentation record that comes first. *)
Ltac run_frag := erewrite (M_bind_Ret _ (upd_frag _ _)) by reflexivity; cbv beta.

(** The message a fragmentation record works on. *)
Definition frag_msg (sd : side) : IO positive :=
  s ← get; lift (deref (fi_pMsg (frag sd s))).

(** ** Status packets *)

Definition common_send_status (sd : side) (blocktype statuscode : Z) : IO unit :=
  pm ← frag_msg sd; m ← load pm;
  o ← MT_MSG_alloc 3 (Z.lor (cmd0 m) bit7) (cmd1 m);
  match o with
  | None => upd_frag sd fi_error
  | Some p =>
      s ← get;
      on_msg p (fun m => MT_MSG_setDestIface m (Some (cfg s)));;
      on_msg p (fun m => MT_MSG_wrU8_DBG m (Z.lor (Z.shiftl blocktype 3) (stack_id (cfg s))));;
      on_msg p (fun m => MT_MSG_wrU8_DBG m (block_cur (frag sd s)));;
      on_msg p (fun m => MT_MSG_wrU8_DBG m statuscode);;
      MT_MSG_tx_raw p;;
      MT_MSG_free (Some p)
  end.

Definition send_extended_status (sd : side) (statuscode : Z) : IO unit :=
  common_send_status sd 4 statuscode.
Definition send_frag_ack_packet (sd : side) (statuscode : Z) : IO unit :=
  common_send_status sd 3 statuscode.
Definition send_frag_abort_outoforder (sd : side) : IO unit :=
  send_frag_ack_packet sd FRAG_STATUS_block_out_of_order.

Definition send_frag_ack (sd : side) : IO unit :=
  pm ← frag_msg sd; m ← load pm;
  o ← MT_MSG_alloc 3 (Z.lor (cmd0 m) bit7) (cmd1 m);
  match o with
  | None => mret tt
  | Some p =>
      s ← get;
      on_msg p (fun m => MT_MSG_setDestIface m (Some (cfg s)));;
      on_msg p (fun m => MT_MSG_wrU8_DBG m (Z.lor (Z.shiftl 3 3) (stack_id (cfg s))));;
      on_msg p (fun m => MT_MSG_wrU8_DBG m (block_cur (frag sd s)));;
      on_msg p (fun m => MT_MSG_wrU8_DBG m
        (if block_cur (frag sd s) + 1 =? block_count (frag sd s)
         then FRAG_STATUS_frag_complete else FRAG_STATUS_success));;
      MT_MSG_tx_raw p;;
      MT_MSG_free (Some p)
  end.

(** ** Receiving *)

Definition handle_ext_status (p : positive) : IO (option positive) :=
  read_msg p MT_MSG_rdU8_DBG;;
  read_msg p MT_MSG_rdU8_DBG;;
  read_msg p MT_MSG_rdU8_DBG;;
  MT_MSG_free (Some p);;
  mret None.

(** Division of two [int]s. *)
Definition div_int (a b : Z) : IO Z :=
  if b =? 0 then undefined DivByZero else mret (Z.quot a b).

Definition rx_first_frag_block (p : positive) : IO Z :=
  s ← get;
  let pMI := cfg s in
  upd_frag RX (fun f => MkFrag false (Some p) None (block_cur f) (block_count f)
                               (total_size f) (this_frag_size f) None);;
  read_msg p MT_MSG_rdU8_DBG;;
  blk ← read_msg p MT_MSG_rdU8_DBG;
  total ← read_msg p MT_MSG_rdU16_DBG;
  m ← load p;
  let size := expected_len m - 4 in
  upd_frag RX (fun f => MkFrag (fi_is_error f) (fi_pMsg f) (fi_pTxFragData f) blk
                               (block_count f) total size (fi_pTxFragAck f));;
  count ← div_int (total + size - 1) size;
  upd_frag RX (fun f => MkFrag (fi_is_error f) (fi_pMsg f) (fi_pTxFragData f) (block_cur f)
                               count (total_size f) (this_frag_size f) (fi_pTxFragAck f));;
  if negb (blk =? 0) then
    send_frag_abort_outoforder RX;;
    MT_MSG_free (Some p);;
    upd_frag RX (fun f => fi_set_msg f None);;
    mret 0
  else
    let wr_loc := payload_start pMI in
    let rd_loc := wr_loc + 4 in
    on_msg p (fun m =>
      d ← mem_read (iobuf m) rd_loc size;
      b ← mem_write (iobuf m) wr_loc d;
      Ret (set_cmds (set_len (set_io m (is_error m) (iobuf_idx m) (iobuf_nvalid m) b) total)
                    (Z.land (cmd0 m) 0x7f) (cmd1 m)));;
    send_frag_ack RX;;
    mret 1.

(** The label [abort_clean_up] of [handle_data_fragment]. *)
Definition abort_clean_up (pRxFrag : positive) : IO (option positive) :=
  s ← get;
  (match fi_pMsg (rx_frag s) with
   | Some q => MT_MSG_free (Some q);; upd_frag RX (fun f => fi_set_msg f None)
   | None => mret tt
   end);;
  MT_MSG_free (Some pRxFrag);;
  mret None.

Definition handle_data_fragment (pRxFrag : positive) : IO (option positive) :=
  s ← get;
  let pMI := cfg s in
  match fi_pMsg (rx_frag s) with
  | None => rx_first_frag_block pRxFrag;; mret None
  | Some pWhole =>
      read_msg pRxFrag MT_MSG_rdU8_DBG;;
      this_block ← read_msg pRxFrag MT_MSG_rdU8_DBG;
      this_len ← read_msg pRxFrag MT_MSG_rdU16_DBG;
      let f := rx_frag s in
      if block_cur f =? this_block then abort_clean_up pRxFrag
      else if negb (total_size f =? this_len) then
        send_frag_abort_outoforder RX;; abort_clean_up pRxFrag
      else
        let last_block := this_block + 1 =? block_count f in
        if negb (block_cur f + 1 =? this_block) then
          send_frag_abort_outoforder RX;; abort_clean_up pRxFrag
        else
          m ← load pRxFrag;
          let this_len := expected_len m - 4 in
          let bad := if last_block then this_frag_size f <? this_len
                     else negb (this_len =? this_frag_size f) in
          if bad then
            send_frag_ack_packet RX FRAG_STATUS_block_len_changed;; abort_clean_up pRxFrag
          else
            upd_frag RX (fun f => fi_set_cur f this_block);;
            let rd_loc := 4 + payload_start pMI in
            let wr_loc := this_block * this_frag_size f + payload_start pMI in
            d ← lift (mem_read (iobuf m) rd_loc this_len);
            on_msg pWhole (fun w =>
              b ← mem_write (iobuf w) wr_loc d;
              Ret (set_io w (is_error w) (iobuf_idx w) (iobuf_nvalid w) b));;
            send_frag_ack RX;;
            MT_MSG_free (Some pRxFrag);;
            if last_block then
              send_extended_status RX EXT_STATUS_frag_complete;;
              upd_frag RX (fun f => fi_set_msg f None);;
              on_msg pWhole (fun w => Ret (set_idx w (payload_start pMI)));;
              mret (Some pWhole)
            else mret None
  end.

(** [handle_extend_packet]: the message is kept only as a complete one. *)
Definition handle_extend_packet (p : positive) : IO (option positive) :=
  m ← load p;
  match m_type m with
  | T_sreq_frag_ack | T_areq_frag_ack | T_srsp_frag_ack =>
      s ← get;
      on_msg p (fun m => Ret (set_links m (pSrsp m) (fi_pTxFragAck (tx_frag s))));;
      upd_frag TX (fun f => fi_set_ack f (Some p));;
      mret None
  | T_sreq_frag_data | T_areq_frag_data | T_srsp_frag_data => handle_data_fragment p
  | T_sreq_ext_status | T_areq_ext_status | T_srsp_ext_status => handle_ext_status p
  | _ => mret None
  end.

(** The body of the loop of [mt_msg_rx_thread] on a message received: requests
    and polls go to the list of the application, anything else is freed. *)
Definition mt_msg_rx_thread_body (p : positive) : IO unit :=
  m ← load p;
  o ← (if negb (Z.land (cmd0 m) bit7 =? 0) then handle_extend_packet p else mret (Some p));
  match o with
  | None => mret tt
  | Some p =>
      m ← load p;
      match m_type m with
      | T_areq | T_poll | T_sreq => MT_MSG_LIST_insert p
      | _ => MT_MSG_free (Some p)
      end
  end.

(** A message that [mt_msg_rx] returned, as a new block of memory. *)
Definition rx_arrive (m : mt_msg) : IO positive :=
  s ← get;
  modify (fun s => set_alloc s (<[next_ptr s := m]> (heap s)) (Pos.succ (next_ptr s))
                             (u32 (msg_sequence_counter s + 1)));;
  mret (next_ptr s).

Fixpoint rx_thread_all (ms : list mt_msg) : IO unit :=
  match ms with
  | [] => mret tt
  | m :: ms => p ← rx_arrive m; mt_msg_rx_thread_body p;; rx_thread_all ms
  end.

(** ** Sending *)

(** A wait on a semaphore: the rx thread runs on what arrives meanwhile. *)
Definition wait_arrivals : IO unit :=
  s ← get;
  let w := outside s in
  match arrivals w with
  | ms :: rest =>
      modify (fun s => set_world s (MkWorld (mallocs w) (writes w) (locks w) rest));;
      rx_thread_all ms
  | [] => mret tt
  end.

Fixpoint wait_for_frag_ack (fuel : nat) : IO Z :=
  match fuel with
  | O => out_of_fuel
  | S fuel =>
      wait_arrivals;;
      s ← get;
      match fi_pTxFragAck (tx_frag s) with
      | None => mret 0
      | Some pAck =>
          m ← load pAck;
          upd_frag TX (fun f => fi_set_ack f (pListNext m));;
          read_msg pAck MT_MSG_rdU8_DBG;;
          ack_block ← read_msg pAck MT_MSG_rdU8_DBG;
          ack_status ← read_msg pAck MT_MSG_rdU8_DBG;
          on_msg pAck MT_MSG_parseComplete;;
          m ← load pAck;
          s ← get;
          let f := tx_frag s in
          let done r := MT_MSG_free (Some pAck);; mret r in
          let bad_status :=
            upd_frag TX fi_error;; send_frag_abort_outoforder TX;; done 0 in
          if is_error m then
            send_frag_abort_outoforder TX;; upd_frag TX fi_error;; done 0
          else if negb (ack_block =? block_cur f) then wait_for_frag_ack fuel
          else if ack_status =? FRAG_STATUS_resend_last then done 0
          else if ack_status =? FRAG_STATUS_success then
            if ack_block =? block_cur f then done 1 else bad_status
          else if (ack_status =? FRAG_STATUS_frag_complete) && (ack_block + 1 =? block_count f)
               then done 1
          else bad_status
      end
  end.

Definition frag_tx_one_block : IO unit :=
  pm ← frag_msg TX; big ← load pm;
  s ← get;
  let pMI := cfg s in
  let f := tx_frag s in
  pd ← lift (deref (fi_pTxFragData f));
  on_msg pd (fun m => MT_MSG_resetMsg m (-1) (Z.lor (cmd0 big) bit7) (cmd1 big));;
  on_msg pd (fun m => Ret (MT_MSG_setSrcIface m None));;
  on_msg pd (fun m => MT_MSG_setDestIface m (Some pMI));;
  on_msg pd (fun m => MT_MSG_wrU8_DBG m (Z.lor (Z.shiftl 2 3) (stack_id pMI)));;
  on_msg pd (fun m => MT_MSG_wrU8_DBG m (block_cur f));;
  on_msg pd (fun m => MT_MSG_wrU16_DBG m (total_size f));;
  let rd_offset := block_cur f * this_frag_size f in
  let n := expected_len big - rd_offset in
  let n := if this_frag_size f <? n then this_frag_size f else n in
  let rd_offset := rd_offset + payload_start pMI in
  on_msg pd (fun m => MT_MSG_wrBuf_DBG m (Some (drop (Z.to_nat rd_offset) (iobuf big))) (u64 n));;
  on_msg pd (fun m => MT_MSG_set_type m (Some pMI));;
  MT_MSG_tx_raw pd;;
  mret tt.

(** [tries] is the number of rounds left; [r] the last result. *)
Fixpoint frag_tries (ackfuel tries : nat) (r : Z) : IO Z :=
  match tries with
  | O => mret r
  | S tries =>
      frag_tx_one_block;;
      s ← get;
      if fi_is_error (tx_frag s) then mret r
      else
        r ← wait_for_frag_ack ackfuel;
        s ← get;
        if (0 <? r) || fi_is_error (tx_frag s) then mret r
        else frag_tries ackfuel tries r
  end.

Definition frag_txrx_one_block (ackfuel : nat) : IO Z :=
  s ← get; frag_tries ackfuel (Z.to_nat (retry_max (cfg s))) 0.

(** The loop over the blocks. *)
Fixpoint frag_blocks (fuel ackfuel : nat) : IO unit :=
  s ← get;
  let f := tx_frag s in
  if block_cur f <? block_count f then
    if fi_is_error f then mret tt
    else match fuel with
         | O => out_of_fuel
         | S fuel =>
             r ← frag_txrx_one_block ackfuel;
             upd_frag TX (fun f => fi_set_cur f (block_cur f + r));;
             frag_blocks fuel ackfuel
         end
  else mret tt.

(** From "what is our result?" on: the closing status and the cleanup. *)
Definition frag_finish : IO Z :=
  s ← get;
  r ← (if fi_is_error (tx_frag s) then
         send_extended_status TX EXT_STATUS_frag_aborted;; mret 0
       else
         upd_frag TX (fun f => fi_set_cur f (block_cur f - 1));;
         send_extended_status TX EXT_STATUS_frag_complete;; mret 1);
  upd_frag TX (fun f => fi_set_ack (fi_set_msg f None) None);;
  s ← get;
  (match fi_pTxFragData (tx_frag s) with
   | Some d => MT_MSG_free (Some d);; upd_frag TX (fun f => fi_set_data f None)
   | None => mret tt
   end);;
  mret r.

Definition MT_MSG_tx_fragment (fuel ackfuel : nat) (p : positive) : IO Z :=
  m ← load p;
  pMI ← lift (deref (pDestIface m));
  upd_frag TX (fun f => MkFrag false (Some p) (fi_pTxFragData f) 0 (block_count f)
                               (expected_len m) (tx_frag_size pMI) (fi_pTxFragAck f));;
  count ← div_int (expected_len m + tx_frag_size pMI - 1) (tx_frag_size pMI);
  upd_frag TX (fun f => MkFrag (fi_is_error f) (fi_pMsg f) (fi_pTxFragData f) (block_cur f) count
                               (total_size f) (this_frag_size f) (fi_pTxFragAck f));;
  o ← MT_MSG_alloc (-1) (Z.lor (cmd0 m) bit7) (cmd1 m);
  upd_frag TX (fun f => fi_set_data f o);;
  (match o with
   | None => upd_frag TX fi_error
   | Some _ => frag_blocks fuel ackfuel
   end);;
  frag_finish.

Definition MT_MSG_tx (fuel ackfuel : nat) (p : positive) : IO Z :=
  on_msg p (fun m => MT_MSG_set_type m (pDestIface m));;
  modify (fun s => set_wire s (wire s) (num_tx_pkt s + 1) (num_err_bad_tx_len s));;
  m ← load p;
  if is_error m || bool_decide (m_type m = T_unknown) then mret 0
  else
    pMI ← lift (deref (pDestIface m));
    if len_2bytes pMI then MT_MSG_tx_raw p
    else if (256 <? iobuf_nvalid m) || (tx_frag_size pMI <=? iobuf_nvalid m)
         then MT_MSG_tx_fragment fuel ackfuel p
         else MT_MSG_tx_raw p.

Definition tx_lock : IO bool := fun s =>
  let w := outside s in
  match locks w with
  | b :: bs => Ret (b, set_world s (MkWorld (mallocs w) (writes w) bs (arrivals w)))
  | [] => Ret (true, s)
  end.

Definition MT_MSG_txrx (fuel ackfuel : nat) (p : positive) : IO Z :=
  m ← load p;
  pMI ← lift (deref (pDestIface m));
  ok ← tx_lock;
  if negb ok then mret 0
  else
    on_msg p (fun m => Ret (set_links m None (pListNext m)));;
    on_msg p (fun m => MT_MSG_set_type m (Some pMI));;
    modify (fun s => set_sreq s (Some p));;
    r ← MT_MSG_tx fuel ackfuel p;
    if negb (r =? 1) then
      modify (fun s => set_sreq s None);;
      on_msg p (fun m => Ret (set_error m));;
      mret 0
    else mret 1.

(** ** Status packets on the wire *)

(** A three-byte extended packet for the message [m]. *)
Definition status_frame (i : mt_iface) (m : mt_msg) (blocktype block status : Z) : list Z :=
  mt_frame i (Z.lor (cmd0 m) bit7) (cmd1 m)
    [Z.lor (Z.shiftl blocktype 3) (stack_id i); block; status].

Definition iface_ok (i : mt_iface) : Prop := 0 <= stack_id i < 8.

Lemma lor_bit7_byte c : is_byte c -> is_byte (Z.lor c bit7).
Proof.
  intros Hc. apply (all_bytes (fun b => (0 <=? Z.lor b bit7) && (Z.lor b bit7 <? 256))) in Hc;
    [|vm_compute; reflexivity].
  apply andb_true_iff in Hc as [H1%Z.leb_le H2%Z.ltb_lt]. done.
Qed.

#[export] Hint Resolve lor_bit7_byte : bytes.

Lemma ext_byte_ok b k : 0 <= b < 16 -> 0 <= k < 8 -> is_byte (Z.lor (Z.shiftl b 3) k).
Proof.
  intros Hb Hk. rewrite Z.lor_comm, lor_shiftl by lia. change (2 ^ 3) with 8. unfold is_byte. lia.
Qed.

Lemma write_three m i a b c :
  writable m i -> expected_len m = 3 -> is_byte a -> is_byte b -> is_byte c ->
  exists m1 m2 m3, MT_MSG_wrU8_DBG m a = Ret m1 /\ MT_MSG_wrU8_DBG m1 b = Ret m2 /\
    MT_MSG_wrU8_DBG m2 c = Ret m3 /\ has_payload m3 i [a; b; c] /\
    cmd0 m3 = cmd0 m /\ cmd1 m3 = cmd1 m /\ pListNext m3 = pListNext m /\ pSrsp m3 = pSrsp m.
Proof.
  intros Hw Hl Ha Hb Hc. pose proof (payload_start_bounds i).
  assert (fields_enc [F8 a; F8 b; F8 c] = [a; b; c]) as Ee by (cbn; by rewrite !u8_id).
  destruct (write_payload m i [F8 a; F8 b; F8 c]) as (m3 & E & Hp & C0 & C1 & L1 & L2);
    rewrite ?Ee; try done.
  - by repeat (apply Forall_cons_2; [done|]).
  - unfold len_ok. change (zlen [a; b; c]) with 3. destruct (len_2bytes i); lia.
  - by left.
  - change (zlen [a; b; c]) with 3. unfold IOBUF_SIZE. lia.
  - cbn [write_fields write_field] in E.
    apply bind_Ret_inv in E as (m1 & E1 & E). apply bind_Ret_inv in E as (m2 & E2 & E).
    apply bind_Ret_inv in E as (m4 & E3 & [= ->]). rewrite Ee in Hp. by exists m1, m2, m3.
Qed.

(** Both status senders build the same packet. *)
Lemma send_packet sd s pm m blocktype status :
  fair s -> fresh s -> iface_ok (cfg s) -> fi_pMsg (frag sd s) = Some pm ->
  heap s !! pm = Some m -> is_byte (cmd0 m) -> is_byte (cmd1 m) ->
  is_byte (block_cur (frag sd s)) -> is_byte status -> 0 <= blocktype < 16 ->
  exists p m0 m1 m2 m3 m4 m5,
    MT_MSG_alloc 3 (Z.lor (cmd0 m) bit7) (cmd1 m) s = Ret (Some p, put p m0 (bumped s)) /\
    MT_MSG_setDestIface m0 (Some (cfg s)) = Ret m1 /\
    MT_MSG_wrU8_DBG m1 (Z.lor (Z.shiftl blocktype 3) (stack_id (cfg s))) = Ret m2 /\
    MT_MSG_wrU8_DBG m2 (block_cur (frag sd s)) = Ret m3 /\
    MT_MSG_wrU8_DBG m3 status = Ret m4 /\
    (MT_MSG_tx_raw p) (put p m4 (bumped s)) =
      Ret (1, put p m5 (sent (status_frame (cfg s) m blocktype (block_cur (frag sd s)) status)
                             (bumped s))) /\
    (MT_MSG_free (Some p)) (put p m5 (sent (status_frame (cfg s) m blocktype
        (block_cur (frag sd s)) status) (bumped s))) =
      Ret (tt, sent (status_frame (cfg s) m blocktype (block_cur (frag sd s)) status) (bumped s)).
Proof.
  intros Hf Hfr Hi Hpm Hm H0 H1 Hb Hs Ht. pose proof (payload_start_bounds (cfg s)).
  destruct (alloc_run s 3 (Z.lor (cmd0 m) bit7) (cmd1 m) Hf)
    as (m0 & Ea & W0 & E0 & I0 & N0 & C0 & C1 & L0 & S0 & P0).
  destruct (setDest_writable m0 (cfg s)) as (m1 & E1 & Wr & D0 & D1 & D2 & D3 & D4); try done.
  { rewrite C0. auto with bytes. } { by rewrite C1. }
  destruct (write_three m1 (cfg s) (Z.lor (Z.shiftl blocktype 3) (stack_id (cfg s)))
              (block_cur (frag sd s)) status)
    as (m2 & m3 & m4 & E2 & E3 & E4 & Hp & F0 & F1 & F2 & F3); try done; [lia|by apply ext_byte_ok|].
  destruct (tx_raw_spec (next_ptr s) m4 (bumped s) (cfg s) _ Hf Hp) as (m5 & E5 & _ & G1 & G2).
  { unfold mt_frame, mt_body. rewrite !zlen_app, zlen_header. change (zlen [_; _; _]) with 3.
    destruct (include_chksum _); [change (zlen [_]) with 1|change (zlen []) with 0]; lia. }
  exists (next_ptr s), m0, m1, m2, m3, m4, m5. split_and!; try done.
  - rewrite E5. unfold status_frame. rewrite F0, F1, D0, D1, C0, C1. done.
  - apply free_put; [|congruence|congruence]. apply Hfr. lia.
Qed.

Lemma common_send_status_run sd s pm m blocktype status :
  fair s -> fresh s -> iface_ok (cfg s) -> fi_pMsg (frag sd s) = Some pm ->
  heap s !! pm = Some m -> is_byte (cmd0 m) -> is_byte (cmd1 m) ->
  is_byte (block_cur (frag sd s)) -> is_byte status -> 0 <= blocktype < 16 ->
  common_send_status sd blocktype status s =
  Ret (tt, sent (status_frame (cfg s) m blocktype (block_cur (frag sd s)) status) (bumped s)).
Proof.
  intros Hf Hfr Hi Hpm Hm H0 H1 Hb Hs Ht.
  destruct (send_packet sd s pm m blocktype status) as
    (p & m0 & m1 & m2 & m3 & m4 & m5 & Ea & E1 & E2 & E3 & E4 & E5 & E6); try done.
  unfold common_send_status, frag_msg.
  assert ((s0 ← get; lift (deref (fi_pMsg (frag sd s0)))) s = Ret (pm, s)) as Eg
    by (unfold mbind, M_bind, get, lift; cbn; by rewrite Hpm).
  run_step Eg. run_step (load_run pm s m Hm). run_step Ea.
  run_get.
  change (cfg (put p m0 (bumped s))) with (cfg s).
  replace (frag sd (put p m0 (bumped s))) with (frag sd s) by (by destruct sd).
  run_msg E1. run_msg E2. run_msg E3. run_msg E4.
  run_step E5. exact E6.
Qed.

(** The status an acknowledgement of the current block carries. *)
Definition ack_status (f : frag_info) : Z :=
  if block_cur f + 1 =? block_count f then FRAG_STATUS_frag_complete else FRAG_STATUS_success.

Lemma frag_msg_run sd s pm : fi_pMsg (frag sd s) = Some pm -> frag_msg sd s = Ret (pm, s).
Proof. intros H. unfold frag_msg, mbind, M_bind, get, lift. cbn. by rewrite H. Qed.

Lemma send_frag_ack_run sd s pm m :
  fair s -> fresh s -> iface_ok (cfg s) -> fi_pMsg (frag sd s) = Some pm ->
  heap s !! pm = Some m -> is_byte (cmd0 m) -> is_byte (cmd1 m) ->
  is_byte (block_cur (frag sd s)) ->
  send_frag_ack sd s =
  Ret (tt, sent (status_frame (cfg s) m 3 (block_cur (frag sd s)) (ack_status (frag sd s))) (bumped s)).
Proof.
  intros Hf Hfr Hi Hpm Hm H0 H1 Hb. set (status := ack_status (frag sd s)).
  destruct (send_packet sd s pm m 3 status) as
    (p & m0 & m1 & m2 & m3 & m4 & m5 & Ea & E1 & E2 & E3 & E4 & E5 & E6); try done.
  { unfold status, ack_status. destruct (_ =? _); byte_const. }
  unfold send_frag_ack. run_step (frag_msg_run sd s pm Hpm). run_step (load_run pm s m Hm). run_step Ea.
  run_get.
  change (cfg (put p m0 (bumped s))) with (cfg s).
  replace (frag sd (put p m0 (bumped s))) with (frag sd s) by (by destruct sd).
  run_msg E1. run_msg E2. run_msg E3. run_msg E4.
  run_step E5. exact E6.
Qed.

(** ** Data blocks on the wire *)

(** Block [k] of the payload [d] cut in pieces of [sz] bytes. *)
Definition chunk (sz : Z) (d : list Z) (k : Z) : list Z :=
  slice (Z.to_nat (k * sz)) (Z.to_nat sz) d.

(** The payload of a data fragment packet. *)
Definition block_payload (i : mt_iface) (sz : Z) (d : list Z) (k : Z) : list Z :=
  [Z.lor (Z.shiftl 2 3) (stack_id i); k] ++ le_bytes 2 (zlen d) ++ chunk sz d k.

Definition block_frame (i : mt_iface) (m : mt_msg) (sz : Z) (d : list Z) (k : Z) : list Z :=
  mt_frame i (Z.lor (cmd0 m) bit7) (cmd1 m) (block_payload i sz d k).

(** The length of block [k]. *)
Definition chunk_len (sz len k : Z) : Z := Z.min sz (len - k * sz).

Lemma zlen_chunk sz d k :
  0 <= k -> 0 < sz -> k * sz <= zlen d -> zlen (chunk sz d k) = chunk_len sz (zlen d) k.
Proof.
  intros Hk Hs Hl. unfold chunk, chunk_len, slice, zlen in *. rewrite length_take, length_drop. nia.
Qed.

(** [MT_MSG_wrBuf_DBG] reads only the first [n] bytes of its source. *)
Lemma wrBuf_prefix m d n :
  0 <= n <= zlen d ->
  MT_MSG_wrBuf_DBG m (Some d) n = MT_MSG_wrBuf_DBG m (Some (take (Z.to_nat n) d)) n.
Proof.
  intros Hn. unfold MT_MSG_wrBuf_DBG. destruct (is_error m); [done|].
  destruct (init_wr_idx m) as [m1| |]; [|done..]. cbn [mbind outcome_bind].
  destruct (n =? 0); [done|]. destruct (_ <? _); [done|].
  rewrite !mem_read_ok by (unfold zlen in *; rewrite ?length_take; lia).
  unfold slice. change (Z.to_nat 0) with 0%nat. rewrite !drop_0, take_take.
  by replace (Z.to_nat n `min` Z.to_nat n)%nat with (Z.to_nat n) by lia.
Qed.

(** A message whose payload [d] stands in its buffer. *)
Record holds (i : mt_iface) (m : mt_msg) (d : list Z) : Prop := MkHolds {
  ho_len : expected_len m = zlen d;
  ho_buf : zlen (iobuf m) = IOBUF_SIZE;
  ho_fits : payload_start i + zlen d <= IOBUF_SIZE;
  ho_bytes : slice (Z.to_nat (payload_start i)) (length d) (iobuf m) = d;
  ho_isb : is_bytes d;
  ho_cmd0 : is_byte (cmd0 m);
  ho_cmd1 : is_byte (cmd1 m)
}.

Lemma holds_chunk i m d sz k :
  holds i m d -> 0 <= k -> 0 < sz -> k * sz <= zlen d ->
  take (Z.to_nat (chunk_len sz (zlen d) k))
       (drop (Z.to_nat (k * sz + payload_start i)) (iobuf m)) = chunk sz d k.
Proof.
  intros [Hl Hb Hf Hs _ _ _] Hk Hsz Hle. unfold chunk. rewrite <- Hs at 2.
  pose proof (payload_start_bounds i). unfold chunk_len, zlen, IOBUF_SIZE in *.
  destruct (decide (k * sz + sz <= Z.of_nat (length d))) as [Hc|Hc].
  - rewrite slice_slice by lia. unfold slice.
    replace (Z.to_nat (payload_start i) + Z.to_nat (k * sz))%nat
      with (Z.to_nat (k * sz + payload_start i)) by lia.
    f_equal. lia.
  - set (n := Z.to_nat (Z.of_nat (length d) - k * sz)).
    assert (slice (Z.to_nat (k * sz)) (Z.to_nat sz)
              (slice (Z.to_nat (payload_start i)) (length d) (iobuf m)) =
            slice (Z.to_nat (k * sz)) n
              (slice (Z.to_nat (payload_start i)) (length d) (iobuf m))) as ->.
    { unfold slice at 1 3. rewrite !take_ge; [done|..]; rewrite length_drop, length_slice; lia. }
    rewrite slice_slice by lia. unfold slice.
    replace (Z.to_nat (payload_start i) + Z.to_nat (k * sz))%nat
      with (Z.to_nat (k * sz + payload_start i)) by lia.
    f_equal. unfold n. lia.
Qed.

Lemma resetMsg_run m len c0 c1 :
  msg_wf m ->
  exists m', MT_MSG_resetMsg m len c0 c1 = Ret m' /\ msg_wf m' /\ is_error m' = false /\
    iobuf_idx m' = -1 /\ iobuf_nvalid m' = 0 /\ cmd0 m' = c0 /\ cmd1 m' = c1 /\
    expected_len m' = len /\ pListNext m' = pListNext m /\ pSrsp m' = pSrsp m.
Proof.
  intros []. unfold MT_MSG_resetMsg. edestruct set_type_None as [t ->].
  cbn [mbind outcome_bind]. eexists. split; [done|]. split; [|done].
  constructor; cbn; try done; unfold IOBUF_SIZE; lia.
Qed.

Lemma has_payload_mtype m i d t : has_payload m i d -> has_payload (set_mtype m t) i d.
Proof. intros [Hwf]. constructor; try done. by destruct Hwf. Qed.

Lemma zlen_block_payload i sz d k :
  0 <= k -> 0 < sz -> k * sz <= zlen d ->
  zlen (block_payload i sz d k) = 4 + chunk_len sz (zlen d) k.
Proof.
  intros. unfold block_payload. rewrite !zlen_app, zlen_chunk by lia.
  change (zlen [_; _]) with 2. change (zlen (le_bytes 2 _)) with 2. lia.
Qed.

(** The writes of one data fragment. *)
Lemma write_block i m3 m sz d k :
  writable m3 i -> expected_len m3 < 0 -> iface_ok i -> holds i m d -> 0 <= k < 256 -> 0 < sz ->
  k * sz < zlen d -> zlen d < 65536 -> len_ok i (4 + sz) -> payload_start i + 4 + sz + 1 <= 2176 ->
  exists m4 m5 m6 m7,
    MT_MSG_wrU8_DBG m3 (Z.lor (Z.shiftl 2 3) (stack_id i)) = Ret m4 /\
    MT_MSG_wrU8_DBG m4 k = Ret m5 /\ MT_MSG_wrU16_DBG m5 (zlen d) = Ret m6 /\
    MT_MSG_wrBuf_DBG m6 (Some (drop (Z.to_nat (k * sz + payload_start i)) (iobuf m)))
      (u64 (chunk_len sz (zlen d) k)) = Ret m7 /\
    has_payload m7 i (block_payload i sz d k) /\ cmd0 m7 = cmd0 m3 /\ cmd1 m7 = cmd1 m3 /\
    pListNext m7 = pListNext m3 /\ pSrsp m7 = pSrsp m3.
Proof.
  intros Wr He Hi Hh Hk Hpos Hkd H64 Hlen Hfr. pose proof Hh as [_ Hb Hfi _ Bd _ _].
  assert (zlen (chunk sz d k) = chunk_len sz (zlen d) k) as Lc by (apply zlen_chunk; lia).
  assert (0 < chunk_len sz (zlen d) k <= sz) as Hcl by (unfold chunk_len; lia).
  set (fs := [F8 (Z.lor (Z.shiftl 2 3) (stack_id i)); F8 k; F16 (zlen d); FBuf (chunk sz d k)]).
  assert (is_byte (Z.lor (Z.shiftl 2 3) (stack_id i))) as Bx by (apply ext_byte_ok; [lia|done]).
  assert (fields_enc fs = block_payload i sz d k) as Ee.
  { unfold fs, block_payload. cbn [fields_enc flat_map field_enc]. rewrite app_nil_r.
    cbn [le_bytes app]. by rewrite (u8_id _ Bx), (u8_id k). }
  pose proof (zlen_block_payload i sz d k ltac:(lia) Hpos ltac:(lia)) as Lb.
  pose proof (payload_start_bounds i). pose proof (zlen_nonneg d).
  destruct (write_payload m3 i fs) as (m7 & E7 & Hp & F0 & F1 & F2 & F3);
    rewrite ?Ee, ?Lb; try done.
  { unfold fs. repeat (apply Forall_cons_2; [cbn; try lia; try done|]); [|apply Forall_nil_2].
    split; [by apply Forall_take, Forall_drop|]. intros Hn. rewrite Hn in Lc. change (zlen []) with 0 in Lc. lia. }
  { unfold len_ok in *. destruct (len_2bytes i); lia. }
  { by right. } { unfold IOBUF_SIZE. lia. }
  rewrite Ee in Hp. cbn [fs write_fields write_field] in E7.
  apply bind_Ret_inv in E7 as (m4 & E4 & E). apply bind_Ret_inv in E as (m5 & E5 & E).
  apply bind_Ret_inv in E as (m6 & E6 & E). apply bind_Ret_inv in E as (m7' & E7 & [= ->]).
  exists m4, m5, m6, m7. split_and!; try done.
  rewrite u64_id, wrBuf_prefix; [|try lia..].
  - rewrite (holds_chunk i m d sz k), <- Lc by (done || lia). exact E7.
  - unfold chunk_len, zlen, IOBUF_SIZE in *. rewrite length_drop. lia.
Qed.

(** What a sender needs of its message, its packet buffer and the geometry. *)
Record sending (s : mif) (pm pd : positive) (m md : mt_msg) (d : list Z) (sz : Z) : Prop := MkSending {
  sg_fair : fair s;
  sg_cfg : iface_ok (cfg s);
  sg_ne : pm <> pd;
  sg_m : heap s !! pm = Some m;
  sg_holds : holds (cfg s) m d;
  sg_md : heap s !! pd = Some md;
  sg_mdwf : msg_wf md /\ pListNext md = None /\ pSrsp md = None;
  sg_pm : fi_pMsg (tx_frag s) = Some pm;
  sg_pd : fi_pTxFragData (tx_frag s) = Some pd;
  sg_total : total_size (tx_frag s) = zlen d;
  sg_size : this_frag_size (tx_frag s) = sz;
  sg_sz : 0 < sz;
  sg_d : zlen d < 65536;
  sg_len : len_ok (cfg s) (4 + sz);
  sg_frame : payload_start (cfg s) + 4 + sz + 1 <= 2176
}.

Lemma frag_tx_one_block_run s pm pd m md d sz :
  sending s pm pd m md d sz -> 0 <= block_cur (tx_frag s) < 256 ->
  block_cur (tx_frag s) * sz < zlen d ->
  exists md', frag_tx_one_block s =
      Ret (tt, put pd md' (sent (block_frame (cfg s) m sz d (block_cur (tx_frag s))) s)) /\
    msg_wf md' /\ pListNext md' = None /\ pSrsp md' = None.
Proof.
  intros [Hf Hi Hne Hm Hh Hmd (Wd & Ld & Rd) Hpm Hpd Ht Hsz Hpos H64 Hlen Hfr] Hk Hkd.
  set (i := cfg s) in *. set (k := block_cur (tx_frag s)) in *. pose proof Hh as [Hml _ _ _ _ B0 B1].
  destruct (resetMsg_run md (-1) (Z.lor (cmd0 m) bit7) (cmd1 m) Wd)
    as (m1 & E1 & W1 & R1 & I1 & N1 & C01 & C11 & L1 & K1 & Q1).
  set (m2 := MT_MSG_setSrcIface m1 None).
  destruct (setDest_writable m2 i) as (m3 & E3 & Wr & D0 & D1 & D2 & D3 & D4); try done.
  { by destruct W1. } { cbn. rewrite C01. auto with bytes. } { cbn. by rewrite C11. }
  destruct (write_block i m3 m sz d k) as (m4 & m5 & m6 & m7 & E4 & E5 & E6 & E7 & Hp & F0 & F1 & F2 & F3);
    try done; [cbn in D2; lia|].
  destruct (set_type_total m7 i) as [t Et]; [by destruct Hp as [[]]|].
  destruct (tx_raw_spec pd (set_mtype m7 t) s i (block_payload i sz d k) Hf
              (has_payload_mtype _ _ _ t Hp)) as (m9 & E9 & F9 & G1 & G2).
  { rewrite frame_length, zlen_block_payload by lia. unfold chunk_len. destruct (include_chksum i); lia. }
  exists m9. split; [|split_and!; [by destruct F9|cbn in *; congruence|cbn in *; congruence]].
  unfold frag_tx_one_block. run_step (frag_msg_run TX s pm Hpm). run_step (load_run pm s m Hm).
  run_get. fold i k. rewrite Hpd.
  run_step (eq_refl (@Ret (positive * mif) (pd, s))).
  rewrite <- (put_id pd md s Hmd) at 1. rewrite Ht, Hsz, Hml.
  run_msg E1. run_msg (eq_refl (Ret m2)). run_msg E3. run_msg E4. run_msg E5. run_msg E6.
  assert ((if sz <? zlen d - k * sz then sz else zlen d - k * sz) = chunk_len sz (zlen d) k) as ->.
  { unfold chunk_len. destruct (Z.ltb_spec sz (zlen d - k * sz)); lia. }
  run_msg E7. run_msg Et. run_step E9. cbn [set_mtype set_hdr cmd0 cmd1].
  unfold block_frame. rewrite F0, F1, D0, D1. cbn. by rewrite C01, C11.
Qed.

(** ** The sender *)

(** How many blocks a payload takes. *)
Definition blocks (sz len : Z) : Z := Z.quot (len + sz - 1) sz.

Lemma blocks_bounds sz len : 0 < sz -> 0 <= len ->
  0 <= blocks sz len /\ (blocks sz len - 1) * sz < len \/ blocks sz len = 0 /\ len = 0.
Proof.
  intros Hs Hl. unfold blocks. rewrite Z.quot_div_nonneg by lia.
  pose proof (Z.div_mod (len + sz - 1) sz ltac:(lia)) as Hd.
  pose proof (Z.mod_pos_bound (len + sz - 1) sz Hs) as Hm. nia.
Qed.

Lemma blocks_cover sz len : 0 < sz -> 0 <= len -> len <= blocks sz len * sz.
Proof.
  intros Hs Hl. unfold blocks. rewrite Z.quot_div_nonneg by lia.
  pose proof (Z.div_mod (len + sz - 1) sz ltac:(lia)) as Hd.
  pose proof (Z.mod_pos_bound (len + sz - 1) sz Hs) as Hm. nia.
Qed.

Lemma block_start sz len k : 0 < sz -> 0 <= k < blocks sz len -> k * sz < len.
Proof.
  intros Hs Hk. assert (0 <= len).
  { unfold blocks in Hk. destruct (decide (0 <= len)); [done|exfalso].
    assert (len + sz - 1 < sz) by lia.
    destruct (decide (0 <= len + sz - 1)).
    - rewrite Z.quot_small in Hk by lia. lia.
    - assert (Z.quot (len + sz - 1) sz <= 0) by (apply Z.quot_le_upper_bound; lia). lia. }
  destruct (blocks_bounds sz len Hs) as [[_ Hb]|[Hb _]]; [lia|nia|lia].
Qed.

(** The state in which the first block is sent. *)
Lemma tx_fragment_start fuel ackfuel p s m d sz :
  fair s -> fresh s -> iface_ok (cfg s) -> heap s !! p = Some m -> holds (cfg s) m d ->
  pDestIface m = Some (cfg s) -> tx_frag_size (cfg s) = sz -> 0 < sz -> zlen d < 65536 ->
  len_ok (cfg s) (4 + sz) -> payload_start (cfg s) + 4 + sz + 1 <= 2176 ->
  exists s1 pd md,
    sending s1 p pd m md d sz /\ fresh s1 /\ cfg s1 = cfg s /\ pd = next_ptr s /\
    heap s1 = <[pd := md]> (heap s) /\ outside s1 = outside s /\ wire s1 = wire s /\
    block_cur (tx_frag s1) = 0 /\ block_count (tx_frag s1) = blocks sz (zlen d) /\
    fi_is_error (tx_frag s1) = false /\ fi_pTxFragAck (tx_frag s1) = fi_pTxFragAck (tx_frag s) /\
    MT_MSG_tx_fragment fuel ackfuel p s = (frag_blocks fuel ackfuel;; frag_finish) s1.
Proof.
  intros Hf Hfr Hi Hm Hh Hd Hsz Hpos H64 Hlen Hfrm. pose proof Hh as [Hl _ _ _ _ H0 H1].
  unfold MT_MSG_tx_fragment. run_step (load_run p s m Hm). rewrite Hd.
  run_step (eq_refl (@Ret (mt_iface * mif) (cfg s, s))). rewrite Hl, Hsz.
  run_frag.
  set (f1 := MkFrag false _ _ _ _ _ _ _). set (s1 := set_frags s f1 _).
  assert (div_int (zlen d + sz - 1) sz s1 = Ret (blocks sz (zlen d), s1)) as Ed.
  { unfold div_int. rewrite (proj2 (Z.eqb_neq _ _)) by lia. done. }
  run_step Ed. run_frag.
  set (s2 := set_frags s1 _ _).
  destruct (alloc_run s2 (-1) (Z.lor (cmd0 m) bit7) (cmd1 m) Hf)
    as (md & Ea & Wd & _ & _ & _ & _ & _ & _ & Sd & Ld).
  run_step Ea. change (next_ptr s2) with (next_ptr s).
  run_frag.
  set (s3 := set_frags _ _ _).
  assert (p <> next_ptr s) as Hne by (intros ->; rewrite Hfr in Hm by lia; done).
  exists s3, (next_ptr s), md. split; [|split].
  - constructor; try done; try (cbn; by rewrite ?lookup_insert_ne).
    cbn. apply lookup_insert_eq.
  - intros q Hq. cbn in Hq |- *. rewrite lookup_insert_ne by lia. apply Hfr. lia.
  - split_and!; reflexivity.
Qed.

(** Nobody answers. *)
Record quiet (s : mif) : Prop := MkQuiet {
  qu_arr : arrivals (outside s) = [];
  qu_ack : fi_pTxFragAck (tx_frag s) = None;
  qu_err : fi_is_error (tx_frag s) = false
}.

Lemma wait_quiet fuel s : quiet s -> wait_for_frag_ack (S fuel) s = Ret (0, s).
Proof.
  intros []. cbn [wait_for_frag_ack].
  assert (wait_arrivals s = Ret (tt, s)) as Ew
    by (unfold wait_arrivals, mbind, M_bind, get; cbn; by rewrite qu_arr0).
  run_step Ew. run_get. by rewrite qu_ack0.
Qed.

(** The sender's state after some blocks went out: only the packet buffer and
    the wire changed. *)
Lemma sending_put s pm pd m md md' d sz w :
  sending s pm pd m md d sz -> msg_wf md' /\ pListNext md' = None /\ pSrsp md' = None ->
  sending (put pd md' (sent w s)) pm pd m md' d sz.
Proof.
  intros [] ?. constructor; try done.
  - cbn. rewrite lookup_insert_ne; done.
  - apply heap_put.
Qed.

Lemma tries_quiet ackfuel n s pm pd m md d sz :
  sending s pm pd m md d sz -> quiet s -> 0 <= block_cur (tx_frag s) < 256 ->
  block_cur (tx_frag s) * sz < zlen d ->
  exists s' md', frag_tries (S ackfuel) n 0 s = Ret (0, s') /\
    sending s' pm pd m md' d sz /\ quiet s' /\ tx_frag s' = tx_frag s /\ cfg s' = cfg s.
Proof.
  revert s md. induction n as [|n IH]; intros s md Hs Hq Hk Hkd.
  { exists s, md. done. }
  destruct (frag_tx_one_block_run s pm pd m md d sz Hs Hk Hkd) as (md1 & E1 & W1).
  cbn [frag_tries]. run_step E1. set (s1 := put pd md1 _).
  run_get. change (tx_frag s1) with (tx_frag s).
  rewrite (qu_err s Hq).
  assert (quiet s1) as Hq1 by by destruct Hq.
  run_step (wait_quiet ackfuel s1 Hq1). run_get.
  change (tx_frag s1) with (tx_frag s). rewrite (qu_err s Hq). cbn [orb Z.ltb Z.compare].
  destruct (IH s1 md1) as (s' & md' & E & S' & Q' & T' & C'); try done; [by eapply sending_put|].
  exists s', md'. split; [exact E|]. split; [done|]. split; [done|]. by rewrite T', C'.
Qed.

Lemma blocks_quiet fuel ackfuel s pm pd m md d sz :
  sending s pm pd m md d sz -> quiet s -> 0 <= block_cur (tx_frag s) < 256 ->
  block_cur (tx_frag s) * sz < zlen d -> block_cur (tx_frag s) < block_count (tx_frag s) ->
  frag_blocks fuel (S ackfuel) s = NoFuel.
Proof.
  revert s md. induction fuel as [|fuel IH]; intros s md Hs Hq Hk Hkd Hc.
  - cbn [frag_blocks]. run_get.
    rewrite (proj2 (Z.ltb_lt _ _)) by lia. by rewrite (qu_err s Hq).
  - cbn [frag_blocks]. run_get.
    rewrite (proj2 (Z.ltb_lt _ _)) by lia. rewrite (qu_err s Hq).
    destruct (tries_quiet ackfuel (Z.to_nat (retry_max (cfg s))) s pm pd m md d sz)
      as (s' & md' & E & S' & Q' & T' & C'); try done.
    assert (frag_txrx_one_block (S ackfuel) s = Ret (0, s')) as E1.
    { unfold frag_txrx_one_block. run_get. exact E. }
    run_step E1. run_frag.
    rewrite Z.add_0_r.
    assert (set_frags s' (fi_set_cur (tx_frag s') (block_cur (tx_frag s'))) (rx_frag s') = s') as ->.
    { destruct s' as [? ? ? ? ? ? [] ? ? ? ? ?]. done. }
    by apply (IH s' md'); rewrite ?T'.
Qed.

(** ** Acknowledgements *)

(** A received acknowledgement of block [blk] with status [st]. *)
Record ack_msg (i : mt_iface) (a : mt_msg) (blk st : Z) : Prop := MkAck {
  ac_src : pSrcIface a = Some i;
  ac_idx : iobuf_idx a = payload_start i;
  ac_len : expected_len a = 3;
  ac_bytes : exists x, is_byte x /\ ahead a [x; blk; st];
  ac_blk : is_byte blk;
  ac_st : is_byte st;
  ac_srsp : pSrsp a = None;
  ac_ext : Z.land (cmd0 a) bit7 <> 0;
  ac_type : m_type a = T_sreq_frag_ack \/ m_type a = T_areq_frag_ack \/ m_type a = T_srsp_frag_ack
}.

(** The status lets the sender of block [k] of [n] go on. *)
Definition good_ack (n k st : Z) : Prop :=
  st = FRAG_STATUS_success \/ (st = FRAG_STATUS_frag_complete /\ k + 1 = n).

Lemma rd8_run m b d : ahead m (b :: d) -> is_byte b ->
  MT_MSG_rdU8_DBG m = Ret (b, set_idx m (iobuf_idx m + 1)) /\ ahead (set_idx m (iobuf_idx m + 1)) d.
Proof.
  intros Ha Hb. apply (ahead_app m [b] d) in Ha as [Ha Hd]. split; [|exact Hd].
  unfold is_byte in Hb. assert (le_bytes 1 b = [b]) as E by (cbn; by rewrite u8_id).
  unfold MT_MSG_rdU8_DBG. rewrite (rdUX_ahead m 1 b); [|by rewrite E|done|lia|cbn; lia].
  cbn [mbind outcome_bind]. by rewrite u8_id.
Qed.

(** The state with the list of pending acknowledgements set. *)
Definition with_ack (o : option positive) (s : mif) : mif :=
  set_frags s (fi_set_ack (tx_frag s) o) (rx_frag s).

(** The rx thread queues an acknowledgement. *)
Lemma rx_thread_ack s a i blk st :
  ack_msg i a blk st -> fi_pTxFragAck (tx_frag s) = None ->
  rx_thread_all [a] s =
  Ret (tt, put (next_ptr s) (set_links a None None) (with_ack (Some (next_ptr s)) (bumped s))).
Proof.
  intros [Hs Hi Hl _ _ _ Hr Hx Ht] Hn. cbn [rx_thread_all].
  assert (rx_arrive a s = Ret (next_ptr s, put (next_ptr s) a (bumped s))) as Ea by reflexivity.
  run_step Ea. set (p := next_ptr s).
  assert (mt_msg_rx_thread_body p (put p a (bumped s)) =
    Ret (tt, put p (set_links a None None) (with_ack (Some p) (bumped s)))) as Eb.
  { unfold mt_msg_rx_thread_body. run_step (load_put p a (bumped s)).
    rewrite (proj2 (Z.eqb_neq _ _)) by done. cbn [negb].
    assert (handle_extend_packet p (put p a (bumped s)) =
      Ret (None, put p (set_links a None None) (with_ack (Some p) (bumped s)))) as Ee.
    { unfold handle_extend_packet. run_step (load_put p a (bumped s)).
      assert ((s0 ← get;
        on_msg p (fun m => Ret (set_links m (pSrsp m) (fi_pTxFragAck (tx_frag s0))));;
        upd_frag TX (fun f => fi_set_ack f (Some p));; mret (None (A := positive)))
        (put p a (bumped s)) =
        Ret (None, put p (set_links a None None) (with_ack (Some p) (bumped s)))) as Ek.
      { run_get.
        change (fi_pTxFragAck (tx_frag (put p a (bumped s)))) with (fi_pTxFragAck (tx_frag s)).
        rewrite Hn. run_msg (eq_refl (Ret (set_links a (pSrsp a) None))). rewrite Hr. done. }
      destruct Ht as [-> | [-> | ->]]; exact Ek. }
    run_step Ee. done. }
  run_step Eb. done.
Qed.

Definition popped (s : mif) (rest : list (list mt_msg)) : mif :=
  bumped (set_world s (MkWorld (mallocs (outside s)) (writes (outside s)) (locks (outside s)) rest)).

(** One acknowledgement arrives during the wait and lets the sender go on. *)
Lemma wait_acked fuel s a st rest :
  fresh s -> arrivals (outside s) = [a] :: rest -> fi_pTxFragAck (tx_frag s) = None ->
  ack_msg (cfg s) a (block_cur (tx_frag s)) st ->
  good_ack (block_count (tx_frag s)) (block_cur (tx_frag s)) st ->
  wait_for_frag_ack (S fuel) s = Ret (1, popped s rest).
Proof.
  intros Hfr Harr Hn Ha Hg. cbn [wait_for_frag_ack].
  set (s0 := set_world s (MkWorld (mallocs (outside s)) (writes (outside s)) (locks (outside s)) rest)).
  set (p := next_ptr s). set (a0 := set_links a None None).
  assert (wait_arrivals s = Ret (tt, put p a0 (with_ack (Some p) (bumped s0)))) as Ew.
  { unfold wait_arrivals. run_get. rewrite Harr.
    run_modify. fold s0.
    by apply (rx_thread_ack s0 a (cfg s) (block_cur (tx_frag s)) st). }
  pose proof Ha as [Hs Hi Hl (x & Hx & Hah) Hb Hst Hr _ _].
  run_step Ew. set (s1 := with_ack (Some p) (bumped s0)).
  run_get.
  change (fi_pTxFragAck (tx_frag (put p a0 s1))) with (Some p). cbv iota.
  run_step (load_put p a0 s1).
  run_frag.
  set (s2 := with_ack None (bumped s0)).
  match goal with |- context [set_frags (put p a0 s1) ?t ?r] =>
    change (set_frags (put p a0 s1) t r) with (put p a0 s2) end.
  assert (ahead a0 [x; block_cur (tx_frag s); st]) as Hah0 by (by destruct Hah as [[]]).
  destruct (rd8_run a0 _ _ Hah0 Hx) as [E1 Hah1].
  destruct (rd8_run _ _ _ Hah1 Hb) as [E2 Hah2]. destruct (rd8_run _ _ _ Hah2 Hst) as [E3 _].
  run_step (read_msg_put p MT_MSG_rdU8_DBG s2 a0 _ _ E1).
  run_step (read_msg_put p MT_MSG_rdU8_DBG s2 _ _ _ E2).
  run_step (read_msg_put p MT_MSG_rdU8_DBG s2 _ _ _ E3).
  set (a3 := set_idx (set_idx (set_idx a0 _) _) _).
  assert (MT_MSG_parseComplete a3 = Ret a3) as Ep.
  { unfold MT_MSG_parseComplete, a3. cbn [set_idx set_io pSrcIface a0 set_links iobuf_idx expected_len].
    rewrite Hs. cbn [deref mbind outcome_bind]. rewrite Hi, Hl.
    by rewrite (proj2 (Z.eqb_eq _ _)) by lia. }
  run_msg Ep. run_step (load_put p a3 s2).
  run_get.
  assert (is_error a3 = false) as -> by (destruct Hah; done).
  change (tx_frag (put p a3 s2)) with (fi_set_ack (tx_frag s) None).
  cbn [fi_set_ack block_cur block_count]. rewrite Z.eqb_refl. cbn [negb].
  assert ((MT_MSG_free (Some p);; mret 1) (put p a3 s2) = Ret (1, popped s rest)) as Efin.
  { assert (s2 = popped s rest) as Es2.
    { unfold s2, with_ack, popped, s0. clear -Hn. destruct s as [? ? ? ? ? ? [] ? ? ? ? ?].
      cbn in Hn. by subst. }
    assert (MT_MSG_free (Some p) (put p a3 s2) = Ret (tt, s2)) as Ef
      by (apply free_put; try done; apply Hfr; lia).
    run_step Ef. by rewrite Es2. }
  destruct Hg as [-> | [-> Hc]]; cbn [Z.eqb]; [exact Efin|].
  cbn [FRAG_STATUS_frag_complete FRAG_STATUS_resend_last FRAG_STATUS_success Z.eqb andb].
  rewrite Hc, Z.eqb_refl. exact Efin.
Qed.

(** The acknowledgements for blocks [k], [k+1], ... of [n], one per wait. *)
Definition acks_for (i : mt_iface) (n k : Z) (acks : list mt_msg) : Prop :=
  forall j a, acks !! j = Some a ->
    exists st, ack_msg i a (k + Z.of_nat j) st /\ good_ack n (k + Z.of_nat j) st.

(** The frames of blocks [k] up to [k + c - 1]. *)
Definition block_frames (i : mt_iface) (m : mt_msg) (sz : Z) (d : list Z) (k : Z) (c : nat)
  : list (list Z) :=
  map (fun j => block_frame i m sz d (k + Z.of_nat j)) (seq 0 c).

Lemma block_frames_S i m sz d k c :
  block_frames i m sz d k (S c) = block_frame i m sz d k :: block_frames i m sz d (k + 1) c.
Proof.
  unfold block_frames. cbn [seq map]. rewrite Z.add_0_r. f_equal.
  rewrite <- seq_shift, map_map. apply map_ext. intros j. f_equal. lia.
Qed.

(** One block is sent and acknowledged. *)
Lemma txrx_acked ackfuel s pm pd m md d sz a acks st :
  sending s pm pd m md d sz -> fresh s -> fi_pTxFragAck (tx_frag s) = None ->
  fi_is_error (tx_frag s) = false -> 0 < retry_max (cfg s) ->
  0 <= block_cur (tx_frag s) < 256 -> block_cur (tx_frag s) * sz < zlen d ->
  arrivals (outside s) = [a] :: acks ->
  ack_msg (cfg s) a (block_cur (tx_frag s)) st ->
  good_ack (block_count (tx_frag s)) (block_cur (tx_frag s)) st ->
  exists md', frag_txrx_one_block (S ackfuel) s =
      Ret (1, popped (put pd md' (sent (block_frame (cfg s) m sz d (block_cur (tx_frag s))) s)) acks) /\
    msg_wf md' /\ pListNext md' = None /\ pSrsp md' = None.
Proof.
  intros Hs Hfr Hn He Hret Hk Hkd Harr Ha Hg.
  destruct (frag_tx_one_block_run s pm pd m md d sz Hs Hk Hkd) as (md1 & E1 & W1).
  exists md1. split; [|done]. unfold frag_txrx_one_block.
  run_get.
  destruct (Z.to_nat (retry_max (cfg s))) as [|n] eqn:En; [lia|]. cbn [frag_tries].
  run_step E1. set (s1 := put pd md1 _). run_get.
  change (tx_frag s1) with (tx_frag s). rewrite He.
  assert (fresh s1) as Hfr1.
  { apply (fresh_put pd md1 (sent _ s)); [exact Hfr|]. eapply fresh_live; [exact Hfr|apply Hs]. }
  run_step (wait_acked ackfuel s1 a st acks Hfr1 Harr Hn Ha Hg). done.
Qed.

Lemma blocks_acked fuel ackfuel acks s pm pd m md d sz :
  sending s pm pd m md d sz -> fresh s -> fi_pTxFragAck (tx_frag s) = None ->
  fi_is_error (tx_frag s) = false -> 0 < retry_max (cfg s) ->
  0 <= block_cur (tx_frag s) -> block_count (tx_frag s) = blocks sz (zlen d) ->
  blocks sz (zlen d) <= 256 ->
  block_cur (tx_frag s) + zlen acks = block_count (tx_frag s) ->
  arrivals (outside s) = map (fun a => [a]) acks ->
  acks_for (cfg s) (block_count (tx_frag s)) (block_cur (tx_frag s)) acks ->
  (length acks <= fuel)%nat ->
  exists s' md', frag_blocks fuel (S ackfuel) s = Ret (tt, s') /\
    sending s' pm pd m md' d sz /\ fresh s' /\ cfg s' = cfg s /\
    heap s' = <[pd := md']> (heap s) /\ fi_is_error (tx_frag s') = false /\
    block_cur (tx_frag s') = block_count (tx_frag s) /\
    wire s' = wire s ++ block_frames (cfg s) m sz d (block_cur (tx_frag s)) (length acks).
Proof.
  revert fuel s md. induction acks as [|a acks IH];
    intros fuel s md Hs Hfr Hn He Hret Hk Hc H256 Hsum Harr Hacks Hfuel.
  - change (zlen []) with 0 in Hsum. exists s, md. unfold block_frames. cbn [length seq map].
    rewrite app_nil_r. split; [|split_and!; try done; [|lia]].
    + destruct fuel; cbn [frag_blocks]; run_get;
        by rewrite (proj2 (Z.ltb_ge _ _)) by lia.
    + symmetry. apply insert_id, Hs.
  - destruct fuel as [|fuel]; [cbn in Hfuel; lia|].
    assert (zlen (a :: acks) = zlen acks + 1) as Lz by (unfold zlen; cbn [length]; lia).
    pose proof (zlen_nonneg acks). set (k := block_cur (tx_frag s)) in *.
    destruct (Hacks 0%nat a eq_refl) as (st & Ha & Hg). rewrite Z.add_0_r in Ha, Hg.
    assert (0 < sz) as Hsz by apply Hs.
    assert (k * sz < zlen d) as Hkd by (apply block_start; [done|lia]).
    destruct (txrx_acked ackfuel s pm pd m md d sz a (map (fun a => [a]) acks) st)
      as (md1 & E1 & W1); try done; [fold k; lia|].
    cbn [frag_blocks]. run_get. fold k.
    rewrite (proj2 (Z.ltb_lt _ _)) by lia. rewrite He. run_step E1.
    run_frag. fold k.
    set (s1 := popped _ _). set (s2 := set_frags s1 _ _).
    assert (sending s2 pm pd m md1 d sz) as Hs2.
    { destruct Hs. constructor; try done.
      - cbn. by rewrite lookup_insert_ne.
      - cbn. apply lookup_insert_eq. }
    assert (fresh s2) as Hfr2.
    { intros q Hq. cbn in Hq |- *. rewrite lookup_insert_ne; [apply Hfr; lia|].
      intros ->. pose proof (fresh_live s q md Hfr ltac:(apply Hs)). lia. }
    destruct (IH fuel s2 md1) as (s' & md' & E & S' & F' & C' & H' & R' & B' & W'); try done.
    + cbn. lia.
    + cbn. fold k. lia.
    + intros j b Hj. destruct (Hacks (S j) b Hj) as (st' & Hb). exists st'. cbn. fold k.
      replace (k + 1 + Z.of_nat j) with (k + Z.of_nat (S j)) by lia. exact Hb.
    + cbn in Hfuel. lia.
    + exists s', md'. split; [exact E|]. split_and!; try done.
      * rewrite H'. cbn. by rewrite insert_insert_eq.
      * rewrite W'. cbn [length]. rewrite block_frames_S. cbn. by rewrite <- app_assoc.
Qed.

Lemma frag_finish_run s pm pd m md d sz :
  sending s pm pd m md d sz -> fresh s -> fi_is_error (tx_frag s) = false ->
  is_byte (block_cur (tx_frag s) - 1) ->
  exists s', frag_finish s = Ret (1, s') /\ heap s' = delete pd (heap s) /\
    wire s' = wire s ++ [status_frame (cfg s) m 4 (block_cur (tx_frag s) - 1) EXT_STATUS_frag_complete] /\
    fi_pMsg (tx_frag s') = None /\ fi_pTxFragData (tx_frag s') = None /\
    fi_pTxFragAck (tx_frag s') = None.
Proof.
  intros Hs Hfr He Hb. pose proof Hs as [Hf Hi Hne Hm Hh Hmd (Wd & Ld & Rd) Hpm Hpd _ _ _ _ _ _].
  unfold frag_finish. run_get. rewrite He.
  set (s1 := set_frags s (fi_set_cur (tx_frag s) (block_cur (tx_frag s) - 1)) (rx_frag s)).
  set (w := status_frame _ _ _ _ _).
  assert (send_extended_status TX EXT_STATUS_frag_complete s1 = Ret (tt, sent w (bumped s1))) as E1.
  { apply (common_send_status_run TX s1 pm m); try done; apply Hh. }
  assert ((upd_frag TX (fun f => fi_set_cur f (block_cur f - 1));;
           send_extended_status TX EXT_STATUS_frag_complete;; mret 1) s =
          Ret (1, sent w (bumped s1))) as E2.
  { run_frag. run_step E1. done. }
  run_step E2. run_frag.
  set (s3 := set_frags _ _ _). run_get.
  change (fi_pTxFragData (tx_frag s3)) with (fi_pTxFragData (tx_frag s)). rewrite Hpd.
  assert ((MT_MSG_free (Some pd);; upd_frag TX (fun f => fi_set_data f None)) s3 =
    Ret (tt, set_frags (set_heap s3 (delete pd (heap s3))) (fi_set_data (tx_frag s3) None) (rx_frag s3)))
    as E4.
  { assert (MT_MSG_free (Some pd) s3 = Ret (tt, set_heap s3 (delete pd (heap s3)))) as Ef
      by (by apply (free_single s3 pd md)).
    run_step Ef. done. }
  run_step E4. eexists. split; [done|]. done.
Qed.

(** ** The receiver *)

(** A received data fragment: block [k] of the payload [d] in pieces of [sz]. *)
Record block_msg (i : mt_iface) (b : mt_msg) (c1 sz : Z) (d : list Z) (k : Z) : Prop := MkBlock {
  bm_wf : msg_wf b;
  bm_src : pSrcIface b = Some i;
  bm_idx : iobuf_idx b = payload_start i;
  bm_ahead : exists x, is_byte x /\ ahead b ([x; k] ++ le_bytes 2 (zlen d) ++ chunk sz d k);
  bm_len : expected_len b = 4 + zlen (chunk sz d k);
  bm_cmd0 : is_byte (cmd0 b);
  bm_cmd1 : cmd1 b = c1 /\ is_byte c1;
  bm_links : pSrsp b = None /\ pListNext b = None
}.

(** The header reads of a data fragment. *)
Lemma block_header i b c1 sz d k :
  block_msg i b c1 sz d k -> is_byte k -> zlen d < 65536 ->
  exists b1 b2 b3 x, MT_MSG_rdU8_DBG b = Ret (x, b1) /\ MT_MSG_rdU8_DBG b1 = Ret (k, b2) /\
    MT_MSG_rdU16_DBG b2 = Ret (zlen d, b3) /\ b3 = set_idx b (payload_start i + 4) /\
    slice (Z.to_nat (payload_start i + 4)) (length (chunk sz d k)) (iobuf b) = chunk sz d k.
Proof.
  intros [Hwf Hs Hi (x & Hx & Ha) Hl H0 H1 Hr] Hk Hd. pose proof (zlen_nonneg d).
  cbn [app] in Ha. destruct (rd8_run b _ _ Ha Hx) as [E1 A1]. destruct (rd8_run _ _ _ A1 Hk) as [E2 A2].
  apply ahead_app in A2 as [A2 A3].
  exists (set_idx b (iobuf_idx b + 1)). eexists. eexists. exists x.
  split; [exact E1|]. split; [exact E2|].
  unfold MT_MSG_rdU16_DBG. rewrite (rdUX_ahead _ 2 (zlen d)); [|exact A2|done|lia|cbn; lia].
  cbn [mbind outcome_bind]. rewrite u16_id by lia. split; [done|].
  split.
  - cbn [set_idx set_io iobuf_idx]. rewrite Hi. clear. destruct b. cbn.
    unfold set_idx, set_io. cbn. f_equal. lia.
  - destruct A3 as [_ _ _ _ A3]. cbn [set_idx set_io iobuf_idx iobuf] in A3. rewrite Hi in A3.
    rewrite <- A3 at 2. f_equal. change (zlen (le_bytes 2 (zlen d))) with 2. lia.
Qed.

(** The message under reassembly after the first [n] payload bytes. *)
Record partial (i : mt_iface) (w : mt_msg) (c1 : Z) (d : list Z) (n : nat) : Prop := MkPartial {
  pa_buf : zlen (iobuf w) = IOBUF_SIZE;
  pa_bytes : slice (Z.to_nat (payload_start i)) n (iobuf w) = take n d;
  pa_len : expected_len w = zlen d;
  pa_cmd0 : is_byte (cmd0 w);
  pa_cmd1 : cmd1 w = c1 /\ is_byte c1;
  pa_links : pSrsp w = None /\ pListNext w = None
}.

(** How many payload bytes the first [k] blocks carry. *)
Definition upto (sz : Z) (d : list Z) (k : Z) : nat := Z.to_nat (Z.min (k * sz) (zlen d)).

(** The receiver's state between blocks [k] and [k + 1]. *)
Record assembling (s : mif) (p : positive) (w : mt_msg) (c1 sz : Z) (d : list Z) (k : Z) : Prop :=
  MkAssembling {
  as_fair : fair s;
  as_fresh : fresh s;
  as_cfg : iface_ok (cfg s);
  as_w : heap s !! p = Some w;
  as_partial : partial (cfg s) w c1 d (upto sz d (k + 1));
  as_frag : rx_frag s = MkFrag false (Some p) None k (blocks sz (zlen d)) (zlen d) sz None
}.

(** What both reassembly theorems assume of the geometry. *)
Record geometry (i : mt_iface) (sz : Z) (d : list Z) : Prop := MkGeometry {
  ge_sz : 0 < sz <= zlen d;
  ge_d : zlen d < 65536;
  ge_blocks : blocks sz (zlen d) <= 256;
  ge_fits : payload_start i + zlen d <= IOBUF_SIZE;
  ge_isb : is_bytes d
}.

Definition ack_of (i : mt_iface) (w : mt_msg) (sz : Z) (d : list Z) (k : Z) : list Z :=
  status_frame i w 3 k (if k + 1 =? blocks sz (zlen d) then FRAG_STATUS_frag_complete
                        else FRAG_STATUS_success).

Lemma chunk_full sz d k :
  0 <= k -> 0 < sz -> (k + 1) * sz <= zlen d -> zlen (chunk sz d k) = sz.
Proof. intros. rewrite zlen_chunk by nia. unfold chunk_len. lia. Qed.

Lemma land_7f_byte c : is_byte c -> is_byte (Z.land c 0x7f).
Proof.
  intros Hc. apply (all_bytes (fun b => (0 <=? Z.land b 0x7f) && (Z.land b 0x7f <? 256))) in Hc;
    [|vm_compute; reflexivity].
  apply andb_true_iff in Hc as [H1%Z.leb_le H2%Z.ltb_lt]. done.
Qed.

(** The move itself. *)
Lemma first_moved i b b3 c1 sz d :
  block_msg i b c1 sz d 0 -> b3 = set_idx b (payload_start i + 4) -> 0 < sz -> sz <= zlen d ->
  slice (Z.to_nat (payload_start i + 4)) (length (chunk sz d 0)) (iobuf b) = chunk sz d 0 ->
  exists w,
    (d0 ← mem_read (iobuf b3) (payload_start i + 4) sz;
     b' ← mem_write (iobuf b3) (payload_start i) d0;
     Ret (set_cmds (set_len (set_io b3 (is_error b3) (iobuf_idx b3) (iobuf_nvalid b3) b') (zlen d))
                   (Z.land (cmd0 b3) 0x7f) (cmd1 b3))) = Ret w /\
    partial i w c1 d (upto sz d (0 + 1)) /\ m_type w = m_type b /\
    cmd0 w = Z.land (cmd0 b) 0x7f.
Proof.
  intros [Hwf Hs Hix (x & Hx & Ha) Hl H0 (H1 & H1b) (Hr & Hk)] -> Hsz Hle Hsl.
  pose proof (payload_start_bounds i) as Hps. pose proof (mwf_buf b Hwf) as Hz.
  assert (zlen (chunk sz d 0) = sz) as Lc by (apply chunk_full; lia).
  assert (chunk sz d 0 = take (Z.to_nat sz) d) as Ec by (unfold chunk, slice; by rewrite drop_0).
  assert (payload_start i + 4 + sz <= IOBUF_SIZE) as Hfit.
  { destruct Ha as [Hw _ _ Hv _]. rewrite !zlen_app, Lc, Hix in Hv. destruct Hw.
    change (zlen [x; 0]) with 2 in Hv. change (zlen (le_bytes 2 (zlen d))) with 2 in Hv. lia. }
  cbn [set_idx set_io iobuf]. rewrite mem_read_ok by lia. cbn [mbind outcome_bind].
  replace (Z.to_nat sz) with (length (chunk sz d 0)) by (unfold zlen in Lc; lia).
  rewrite Hsl. rewrite mem_write_ok by lia. cbn [mbind outcome_bind].
  eexists. split; [done|]. split; [|done]. unfold zlen, IOBUF_SIZE in *.
  constructor; cbn; try done.
  - unfold zlen. rewrite length_splice by lia. done.
  - replace (upto sz d (0 + 1)) with (length (chunk sz d 0)) by (unfold upto, zlen; lia).
    rewrite slice_splice_same by lia. rewrite Ec. f_equal. rewrite length_take. lia.
  - by apply land_7f_byte.
Qed.

(** Block 0 is moved to the front of its own message. *)
Lemma rx_first_run s p b c1 sz d :
  fair s -> fresh s -> iface_ok (cfg s) -> (p < next_ptr s)%positive -> geometry (cfg s) sz d ->
  block_msg (cfg s) b c1 sz d 0 ->
  exists w s', rx_first_frag_block p (put p b s) = Ret (1, s') /\
    assembling s' p w c1 sz d 0 /\ cfg s' = cfg s /\ heap s' = <[p := w]> (heap s) /\
    wire s' = wire s ++ [ack_of (cfg s) w sz d 0] /\ rx_list s' = rx_list s /\
    m_type w = m_type b /\ cmd0 w = Z.land (cmd0 b) 0x7f /\ outside s' = outside s.
Proof.
  intros Hf Hfr Hi Hp [Hsz Hd Hbl Hfit Bd] Hb. set (i := cfg s) in *.
  pose proof (payload_start_bounds i) as Hps.
  destruct (block_header i b c1 sz d 0 Hb) as (b1 & b2 & b3 & x & E1 & E2 & E3 & Eb3 & Hsl);
    [byte_const|done|].
  pose proof Hb as [Hwf Hs Hix _ Hl H0 (H1 & H1b) (Hr & Hk)].
  assert (zlen (chunk sz d 0) = sz) as Lc by (apply chunk_full; lia). rewrite Lc in Hl.
  unfold rx_first_frag_block.
  run_get.
  change (cfg (put p b s)) with i.
  run_frag.
  match goal with |- context [set_frags (put p b s) ?t ?r] => set (r1 := r) end.
  change (set_frags (put p b s) (tx_frag (put p b s)) r1) with (put p b (set_frags s (tx_frag s) r1)).
  set (s1 := set_frags s (tx_frag s) r1).
  run_step (read_msg_put p MT_MSG_rdU8_DBG s1 b _ _ E1).
  run_step (read_msg_put p MT_MSG_rdU8_DBG s1 b1 _ _ E2).
  run_step (read_msg_put p MT_MSG_rdU16_DBG s1 b2 _ _ E3).
  run_step (load_put p b3 s1).
  assert (expected_len b3 - 4 = sz) as -> by (subst b3; cbn; lia).
  run_frag.
  match goal with |- context [set_frags (put p b3 s1) ?t ?r] => set (r2 := r) end.
  change (set_frags (put p b3 s1) (tx_frag (put p b3 s1)) r2)
    with (put p b3 (set_frags s (tx_frag s) r2)).
  assert (div_int (zlen d + sz - 1) sz (put p b3 (set_frags s (tx_frag s) r2)) =
    Ret (blocks sz (zlen d), put p b3 (set_frags s (tx_frag s) r2))) as Ed.
  { unfold div_int. rewrite (proj2 (Z.eqb_neq _ _)) by lia. done. }
  run_step Ed. run_frag.
  set (r3 := MkFrag false (Some p) None 0 (blocks sz (zlen d)) (zlen d) sz None).
  match goal with |- context [set_frags (put p b3 ?a) ?t ?r] =>
    change (set_frags (put p b3 a) t r) with (put p b3 (set_frags s (tx_frag s) r3)) end.
  set (s3 := set_frags s (tx_frag s) r3). cbn [Z.eqb negb].
  destruct (first_moved i b b3 c1 sz d) as (w & Ew & Pw & Tw & Cw); try done; [lia|lia|].
  run_msg Ew.
  assert (fresh (put p w s3)) as Hfr3 by (by apply fresh_put).
  assert (send_frag_ack RX (put p w s3) =
    Ret (tt, sent (ack_of i w sz d 0) (bumped (put p w s3)))) as Ea.
  { apply (send_frag_ack_run RX (put p w s3) p w); try done; [apply heap_put|apply Pw|].
    destruct (pa_cmd1 _ _ _ _ _ Pw) as [-> ?]. done. }
  run_step Ea. exists w. eexists. split; [done|]. split; [|done].
  constructor; try done; [by apply fresh_bumped|apply heap_put].
Qed.

(** Copying block [k] behind the bytes already there. *)
Lemma next_copied i w b b3 c1 sz d k :
  geometry i sz d -> partial i w c1 d (upto sz d k) -> block_msg i b c1 sz d k ->
  b3 = set_idx b (payload_start i + 4) -> 0 < k < blocks sz (zlen d) ->
  slice (Z.to_nat (payload_start i + 4)) (length (chunk sz d k)) (iobuf b) = chunk sz d k ->
  mem_read (iobuf b3) (4 + payload_start i) (expected_len b3 - 4) = Ret (chunk sz d k) /\
  exists w', (b' ← mem_write (iobuf w) (k * sz + payload_start i) (chunk sz d k);
              Ret (set_io w (is_error w) (iobuf_idx w) (iobuf_nvalid w) b')) = Ret w' /\
    partial i w' c1 d (upto sz d (k + 1)) /\ m_type w' = m_type w /\ cmd0 w' = cmd0 w.
Proof.
  intros [Hsz Hd Hbl Hfit Bd] [Wb Ws Wl W0 W1 Wk] [Hwf _ Hix (x & Hx & Ha) Hl _ _ _] -> Hk Hsl.
  pose proof (payload_start_bounds i) as Hps. pose proof (mwf_buf b Hwf) as Hz.
  assert (k * sz < zlen d) as Hkd by (apply block_start; lia). assert (0 <= k * sz) by lia.
  assert (zlen (chunk sz d k) = chunk_len sz (zlen d) k) as Lc by (apply zlen_chunk; lia).
  assert (0 < chunk_len sz (zlen d) k <= zlen d - k * sz) as Hc by (unfold chunk_len; lia).
  assert (payload_start i + 4 + zlen (chunk sz d k) <= IOBUF_SIZE) as Hfb.
  { destruct Ha as [Hw _ _ Hv _]. rewrite !zlen_app, Hix in Hv. destruct Hw.
    change (zlen [x; k]) with 2 in Hv. change (zlen (le_bytes 2 (zlen d))) with 2 in Hv. lia. }
  cbn [set_idx set_io iobuf expected_len]. split.
  - rewrite Hl, mem_read_ok by lia. f_equal. rewrite <- Hsl at 2. unfold zlen. f_equal; lia.
  - rewrite mem_write_ok by lia. cbn [mbind outcome_bind]. eexists. split; [done|]. split; [|done].
    assert (upto sz d (k + 1) = upto sz d k + length (chunk sz d k))%nat as Eu.
    { unfold upto, chunk_len, zlen in *. lia. }
    assert (take (upto sz d (k + 1)) d = take (upto sz d k) d ++ chunk sz d k) as Et.
    { rewrite Eu, <- take_take_drop. f_equal. unfold chunk, slice, upto.
      replace (Z.min (k * sz) (zlen d)) with (k * sz) by lia.
      rewrite length_take, <- take_take. f_equal. apply take_ge. lia. }
    assert (Z.to_nat (k * sz + payload_start i) = Z.to_nat (payload_start i) + upto sz d k)%nat as Eo
      by (unfold upto; lia).
    assert (Z.to_nat (payload_start i) + upto sz d k + length (chunk sz d k) <= length (iobuf w))%nat as Hle
      by (unfold upto, zlen, IOBUF_SIZE in *; lia).
    constructor; cbn; try done.
    + unfold zlen in *. rewrite Eo, length_splice by lia. done.
    + rewrite Et, Eu, Eo, slice_app. f_equal.
      * rewrite slice_splice_disjoint by lia. done.
      * apply slice_splice_same. lia.
Qed.

(** Where the receiver stands after copying block [k] and acknowledging it. *)
Definition after_block (s : mif) (p : positive) (w : mt_msg) (sz : Z) (d : list Z) (k : Z) : mif :=
  sent (ack_of (cfg s) w sz d k)
    (bumped (put p w (set_frags s (tx_frag s) (fi_set_cur (rx_frag s) k)))).

(** The length check every block of a payload passes. *)
Lemma block_size_ok sz (d : list Z) k : 0 < sz -> 0 <= k < blocks sz (zlen d) ->
  (if k + 1 =? blocks sz (zlen d) then sz <? chunk_len sz (zlen d) k
   else negb (chunk_len sz (zlen d) k =? sz)) = false.
Proof.
  intros Hs Hk. unfold chunk_len. destruct (Z.eqb_spec (k + 1) (blocks sz (zlen d))).
  - apply Z.ltb_ge. lia.
  - assert ((k + 1) * sz < zlen d) by (apply block_start; lia).
    rewrite (proj2 (Z.eqb_eq _ _)); [done|lia].
Qed.

Lemma next_block_run s p q w b c1 sz d k :
  assembling s p w c1 sz d (k - 1) -> geometry (cfg s) sz d -> block_msg (cfg s) b c1 sz d k ->
  0 < k < blocks sz (zlen d) -> (q < next_ptr s)%positive -> heap s !! q = None ->
  exists w', partial (cfg s) w' c1 d (upto sz d (k + 1)) /\ m_type w' = m_type w /\
    cmd0 w' = cmd0 w /\
    handle_data_fragment q (put q b s) =
    (if k + 1 =? blocks sz (zlen d) then
       send_extended_status RX EXT_STATUS_frag_complete;;
       upd_frag RX (fun f => fi_set_msg f None);;
       on_msg p (fun w => Ret (set_idx w (payload_start (cfg s))));;
       mret (Some p)
     else mret None) (after_block s p w' sz d k).
Proof.
  intros [Hf Hfr Hi Hw Hpa Hfg] Hge Hb Hk Hq Hqn. set (i := cfg s) in *.
  pose proof Hge as [Hsz Hd Hbl Hfit Bd]. pose proof Hb as [_ _ _ _ Hl _ _ (Hr & Hkl)].
  assert (is_byte k) as Bk by (unfold is_byte; lia).
  destruct (block_header i b c1 sz d k Hb Bk Hd) as (b1 & b2 & b3 & x & E1 & E2 & E3 & Eb3 & Hsl).
  replace (k - 1 + 1) with k in Hpa by lia.
  destruct (next_copied i w b b3 c1 sz d k Hge Hpa Hb Eb3 Hk Hsl) as (Erd & w' & Ew & Pw & Tw & Cw).
  exists w'. split; [done|]. split; [done|]. split; [done|].
  assert (k * sz < zlen d) as Hkd by (apply block_start; lia).
  assert (zlen (chunk sz d k) = chunk_len sz (zlen d) k) as Lc by (apply zlen_chunk; lia).
  assert (p <> q) as Hne by (intros ->; congruence).
  unfold handle_data_fragment.
  run_get.
  change (rx_frag (put q b s)) with (rx_frag s). rewrite Hfg.
  cbn [fi_pMsg block_cur total_size block_count this_frag_size].
  change (cfg (put q b s)) with i.
  run_step (read_msg_put q MT_MSG_rdU8_DBG s b _ _ E1).
  run_step (read_msg_put q MT_MSG_rdU8_DBG s b1 _ _ E2).
  run_step (read_msg_put q MT_MSG_rdU16_DBG s b2 _ _ E3).
  rewrite (proj2 (Z.eqb_neq (k - 1) k)), Z.eqb_refl by lia. cbn [negb].
  rewrite (proj2 (Z.eqb_eq (k - 1 + 1) k)) by lia. cbn [negb].
  run_step (load_put q b3 s).
  assert (expected_len b3 - 4 = chunk_len sz (zlen d) k) as El by (subst b3; cbn; lia).
  rewrite El, (block_size_ok sz d k) by lia.
  run_frag.
  set (s1 := set_frags s (tx_frag s) (fi_set_cur (rx_frag s) k)).
  match goal with |- context [set_frags (put q b3 s) ?t ?r] =>
    change (set_frags (put q b3 s) t r) with (put q b3 s1) end.
  assert (lift (mem_read (iobuf b3) (4 + payload_start i) (chunk_len sz (zlen d) k)) (put q b3 s1) =
    Ret (chunk sz d k, put q b3 s1)) as Erd' by (unfold lift; by rewrite <- El, Erd).
  run_step Erd'.
  rewrite <- (put_id p w (put q b3 s1)) by (rewrite heap_put_ne by congruence; done).
  run_msg Ew.
  assert (fresh (put p w' (put q b3 s1))) as Hfr1.
  { apply fresh_put; [by apply fresh_put|]. eapply (fresh_live s p w); done. }
  assert (send_frag_ack RX (put p w' (put q b3 s1)) =
    Ret (tt, sent (ack_of i w' sz d k) (bumped (put p w' (put q b3 s1))))) as Ea.
  { rewrite (send_frag_ack_run RX (put p w' (put q b3 s1)) p w'); try done.
    - unfold ack_status, ack_of. cbn. by rewrite Hfg.
    - cbn. by rewrite Hfg.
    - apply heap_put.
    - apply Pw.
    - destruct (pa_cmd1 _ _ _ _ _ Pw) as [-> ?]. done. }
  run_step Ea. rewrite (put_comm p q) by done.
  change (sent (ack_of i w' sz d k) (bumped (put q b3 (put p w' s1))))
    with (put q b3 (after_block s p w' sz d k)).
  assert (MT_MSG_free (Some q) (put q b3 (after_block s p w' sz d k)) =
    Ret (tt, after_block s p w' sz d k)) as Ef.
  { apply free_put; [|by subst b3|by subst b3]. cbn. by rewrite lookup_insert_ne by done. }
  run_step Ef. done.
Qed.

(** Feeding received fragments to the handler, as the rx thread does. *)
Fixpoint reassemble (ms : list mt_msg) : IO (list (option positive)) :=
  match ms with
  | [] => mret []
  | m :: ms => p ← rx_arrive m; o ← handle_data_fragment p; os ← reassemble ms; mret (o :: os)
  end.

(** The acknowledgement of block [k] of [n]. *)
Definition ack_frame (i : mt_iface) (c0 c1 n k : Z) : list Z :=
  mt_frame i (Z.lor c0 bit7) c1
    [Z.lor (Z.shiftl 3 3) (stack_id i); k;
     if k + 1 =? n then FRAG_STATUS_frag_complete else FRAG_STATUS_success].

(** The closing status of the receiver. *)
Definition complete_frame (i : mt_iface) (c0 c1 n : Z) : list Z :=
  mt_frame i (Z.lor c0 bit7) c1
    [Z.lor (Z.shiftl 4 3) (stack_id i); n - 1; EXT_STATUS_frag_complete].

Definition ack_frames (i : mt_iface) (c0 c1 n k : Z) (c : nat) : list (list Z) :=
  map (fun j => ack_frame i c0 c1 n (k + Z.of_nat j)) (seq 0 c).

Lemma ack_frames_S i c0 c1 n k c :
  ack_frames i c0 c1 n k (S c) = ack_frame i c0 c1 n k :: ack_frames i c0 c1 n (k + 1) c.
Proof.
  unfold ack_frames. cbn [seq map]. rewrite Z.add_0_r. f_equal.
  rewrite <- seq_shift, map_map. apply map_ext. intros j. f_equal. lia.
Qed.

Lemma assembling_bumped s p w c1 sz d k :
  assembling s p w c1 sz d k -> assembling (bumped s) p w c1 sz d k.
Proof. intros []. constructor; try done. auto with heaps. Qed.

Lemma after_block_assembling s p w w' c1 sz d k :
  assembling s p w c1 sz d (k - 1) -> partial (cfg s) w' c1 d (upto sz d (k + 1)) ->
  assembling (after_block s p w' sz d k) p w' c1 sz d k.
Proof.
  intros [Hf Hfr Hi Hw Hpa Hfg] Hp. constructor; try done.
  - apply fresh_bumped, fresh_put; [done|]. eapply (fresh_live s p w); done.
  - apply heap_put.
  - cbn. by rewrite Hfg.
Qed.

(** The last steps of a reassembly. *)
Lemma reassembly_end s p w c1 sz d k :
  assembling s p w c1 sz d k -> k + 1 = blocks sz (zlen d) -> 0 <= k < 256 ->
  (send_extended_status RX EXT_STATUS_frag_complete;;
   upd_frag RX (fun f => fi_set_msg f None);;
   on_msg p (fun w => Ret (set_idx w (payload_start (cfg s))));;
   mret (Some p)) s =
  Ret (Some p, put p (set_idx w (payload_start (cfg s)))
    (set_frags (sent (complete_frame (cfg s) (cmd0 w) c1 (k + 1)) (bumped s))
       (tx_frag s) (fi_set_msg (rx_frag s) None))).
Proof.
  intros [Hf Hfr Hi Hw Hpa Hfg] Hk Hb. pose proof Hpa as [_ _ _ H0 (H1 & H1b) _].
  assert (send_extended_status RX EXT_STATUS_frag_complete s =
    Ret (tt, sent (status_frame (cfg s) w 4 k EXT_STATUS_frag_complete) (bumped s))) as E.
  { assert (block_cur (frag RX s) = k) as Ek by (cbn; by rewrite Hfg).
    rewrite <- Ek at 1. apply (common_send_status_run RX s p w); try done.
    - cbn. by rewrite Hfg.
    - by rewrite H1.
    - by rewrite Ek. }
  run_step E. run_frag.
  assert (status_frame (cfg s) w 4 k EXT_STATUS_frag_complete =
          complete_frame (cfg s) (cmd0 w) c1 (k + 1)) as ->.
  { unfold status_frame, complete_frame. rewrite H1. do 3 f_equal. lia. }
  set (s1 := set_frags _ _ _).
  assert (heap s1 !! p = Some w) as Hw1 by exact Hw.
  rewrite <- (put_id p w s1 Hw1) at 1.
  run_msg (eq_refl (Ret (set_idx w (payload_start (cfg s))))). done.
Qed.

Lemma reassemble_rest bs s p w c1 sz d k :
  assembling s p w c1 sz d (k - 1) -> geometry (cfg s) sz d ->
  (forall j b, bs !! j = Some b -> block_msg (cfg s) b c1 sz d (k + Z.of_nat j)) ->
  0 < k -> 0 < zlen bs -> k + zlen bs = blocks sz (zlen d) ->
  exists s' w', reassemble bs s = Ret (replicate (length bs - 1) None ++ [Some p], s') /\
    heap s' = <[p := w']> (heap s) /\ partial (cfg s) w' c1 d (length d) /\
    cmd0 w' = cmd0 w /\ m_type w' = m_type w /\ iobuf_idx w' = payload_start (cfg s) /\
    wire s' = wire s ++ ack_frames (cfg s) (cmd0 w) c1 (blocks sz (zlen d)) k (length bs) ++
                [complete_frame (cfg s) (cmd0 w) c1 (blocks sz (zlen d))] /\
    fi_pMsg (rx_frag s') = None /\ rx_list s' = rx_list s.
Proof.
  revert s w k. induction bs as [|b bs IH]; intros s w k Has Hge Hbs Hk Hz Hn.
  { change (zlen []) with 0 in Hz. lia. }
  assert (zlen (b :: bs) = zlen bs + 1) as Lz by (unfold zlen; cbn [length]; lia).
  pose proof (zlen_nonneg bs) as Hz0. pose proof (ge_blocks _ _ _ Hge) as H256.
  pose proof (Hbs 0%nat b eq_refl) as Hb. rewrite Z.add_0_r in Hb.
  set (q := next_ptr s).
  assert (assembling (bumped s) p w c1 sz d (k - 1)) as Has1 by (by apply assembling_bumped).
  destruct (next_block_run (bumped s) p q w b c1 sz d k) as (w' & Pw & Tw & Cw & E);
    try done; [lia|cbn; lia|apply Has; lia|].
  set (s1 := after_block (bumped s) p w' sz d k) in *.
  assert (assembling s1 p w' c1 sz d k) as Has2 by (by apply after_block_assembling with w).
  assert (ack_of (cfg s) w' sz d k = ack_frame (cfg s) (cmd0 w) c1 (blocks sz (zlen d)) k) as Ea.
  { unfold ack_of, ack_frame, status_frame. rewrite Cw. by destruct (pa_cmd1 _ _ _ _ _ Pw) as [-> _]. }
  assert (wire s1 = wire s ++ [ack_frame (cfg s) (cmd0 w) c1 (blocks sz (zlen d)) k]) as W1
    by (rewrite <- Ea; done).
  cbn [reassemble].
  run_step (eq_refl (@Ret (positive * mif) (q, put q b (bumped s)))).
  change (cfg (bumped s)) with (cfg s) in *. change (cfg s1) with (cfg s) in *.
  destruct (Z.eqb_spec (k + 1) (blocks sz (zlen d))) as [Hl|Hl].
  - assert (bs = []) as -> by (destruct bs; [done|unfold zlen in *; cbn [length] in *; lia]).
    pose proof (reassembly_end s1 p w' c1 sz d k Has2 Hl ltac:(lia)) as E2.
    change (cfg s1) with (cfg s) in E2. rewrite E2 in E. run_step E.
    eexists. exists (set_idx w' (payload_start (cfg s))). split; [reflexivity|].
    split; [cbn; by rewrite insert_insert_eq|]. split; [|split_and!; try done].
    + pose proof (blocks_cover sz (zlen d)) as Hcov. pose proof Hge as [Hsz _ _ _ _].
      assert (upto sz d (k + 1) = length d) as Hu by (rewrite Hl; unfold upto, zlen in *; nia).
      rewrite Hu in Pw. by destruct Pw.
    + cbn [put set_heap wire set_frags sent set_wire]. change (wire (bumped s1)) with (wire s1).
      change (length [b]) with 1%nat. rewrite W1, ack_frames_S, Cw, Hl. cbn. by rewrite <- app_assoc.
  - run_step E. destruct (IH s1 w' (k + 1)) as (s' & w2 & E' & H' & P' & C' & T' & I' & W' & F' & R').
    + by replace (k + 1 - 1) with k by lia.
    + done.
    + intros j x Hj. replace (k + 1 + Z.of_nat j) with (k + Z.of_nat (S j)) by lia. by apply Hbs.
    + lia.
    + unfold zlen in *; lia.
    + lia.
    + change (cfg s1) with (cfg s) in *. run_step E'.
      exists s', w2. split.
      { destruct bs as [|b2 bs]; [change (zlen []) with 0 in *; lia|]. cbn.
        by rewrite Nat.sub_0_r. }
      split; [rewrite H'; cbn; by rewrite insert_insert_eq|]. split_and!; try congruence; try done.
      rewrite W', W1, Cw. cbn [length]. rewrite ack_frames_S. by rewrite <- app_assoc.
Qed.

(** ** Messages as the receiver delivers them *)

(** A message that [mt_msg_rx] returned for a frame, not yet in any list. *)
Definition received (i : mt_iface) (b : mt_msg) (c0 c1 : Z) (pl : list Z) : Prop :=
  MtRx.delivered i b c0 c1 pl /\ pSrsp b = None /\ pListNext b = None.

Lemma ext_major c : 0 <= c < 128 ->
  is_byte (Z.lor c bit7) /\ bitsXYof (Z.lor c bit7) 7 5 = 4 + Z.shiftr c 5 /\
  Z.land (4 + Z.shiftr c 5) 3 = Z.shiftr c 5 /\ Z.land (Z.lor c bit7) bit7 <> 0 /\
  Z.land (Z.lor c bit7) 0x7f = c.
Proof.
  intros Hc. assert (is_byte c) as Hb by (unfold is_byte; lia).
  split; [auto with bytes|].
  apply (all_bytes (fun c => negb (c <? 128) ||
    ((bitsXYof (Z.lor c bit7) 7 5 =? 4 + Z.shiftr c 5) &&
     (Z.land (4 + Z.shiftr c 5) 3 =? Z.shiftr c 5) &&
     negb (Z.land (Z.lor c bit7) bit7 =? 0) && (Z.land (Z.lor c bit7) 0x7f =? c)))) in Hb;
    [|vm_compute; reflexivity].
  rewrite (proj2 (Z.ltb_lt c 128)) in Hb by lia. cbn [negb orb] in Hb.
  apply andb_true_iff in Hb as [[[H1 H2]%andb_true_iff H3]%andb_true_iff H4].
  apply Z.eqb_eq in H1, H2, H4. apply negb_true_iff, Z.eqb_neq in H3. done.
Qed.

Lemma ext_minor t k : 0 <= t < 32 -> 0 <= k < 8 -> bitsXYof (Z.lor (Z.shiftl t 3) k) 7 3 = t.
Proof.
  intros Ht Hk. rewrite Z.lor_comm, lor_shiftl by lia. change (2 ^ 3) with 8.
  assert (is_byte (k + t * 8)) as Hb by (unfold is_byte; lia).
  apply (all_bytes (fun b => bitsXYof b 7 3 =? b / 8)) in Hb; [|vm_compute; reflexivity].
  apply Z.eqb_eq in Hb. rewrite Hb. symmetry. apply (Z.div_unique _ _ _ k); lia.
Qed.

(** The type the receiver gives an extended packet. *)
Lemma received_type i b c0 c1 t pl :
  received i b (Z.lor c0 bit7) c1 (Z.lor (Z.shiftl t 3) (stack_id i) :: pl) ->
  iface_ok i -> 0 <= c0 < 128 -> 0 <= t < 32 ->
  lut_minor t (Z.shiftr c0 5) = Some (m_type b) \/ lut_minor t (Z.shiftr c0 5) = None.
Proof.
  intros [[Hb H0 _ _ Hi Ht] _] Hok Hc Htr.
  destruct (ext_major c0 Hc) as (B0 & Em & El & _ & _).
  pose proof (MtRx.delivered_ahead i b _ _ _ Hb Hi) as Ha.
  apply (ahead_app b [_] pl) in Ha as [Ha _]. destruct Ha as [Hw _ Hx Hv Hs].
  change (zlen [_]) with 1 in Hv.
  assert (mem_read (iobuf b) (payload_start i) 1 = Ret [Z.lor (Z.shiftl t 3) (stack_id i)]) as Er.
  { rewrite mem_read_ok; [|lia|lia|]; [|destruct Hw; lia].
    rewrite <- Hi. f_equal. exact Hs. }
  unfold MT_MSG_set_type in Ht. cbn [set_mtype set_hdr cmd0 iobuf_nvalid iobuf] in Ht.
  rewrite H0 in Ht. unfold is_byte in B0.
  rewrite (proj2 (Z.ltb_ge _ 0)), (proj2 (Z.ltb_ge 255 _)) in Ht by lia. cbn [orb] in Ht.
  pose proof (Z.shiftr_nonneg c0 5) as [_ Hsn].
  rewrite Em, (proj2 (Z.leb_gt (4 + _) 3)), andb_false_r in Ht by lia.
  rewrite (proj2 (Z.ltb_ge _ _)) in Ht by lia. rewrite Er in Ht. cbn [mbind outcome_bind head deref] in Ht.
  rewrite ext_minor, El in Ht by done.
  destruct (lut_minor t (Z.shiftr c0 5)) as [ty|]; [|by right]. left.
  injection Ht as Ht. by rewrite <- Ht.
Qed.

Lemma received_block i b c0 c1 sz d k :
  received i b (Z.lor c0 bit7) c1 (block_payload i sz d k) -> iface_ok i -> 0 <= c0 < 128 ->
  is_byte c1 -> block_msg i b c1 sz d k.
Proof.
  intros [[Hb H0 H1 Hl Hi Ht] Hr] Hok Hc Hc1. pose proof (payload_start_bounds i).
  constructor; try done.
  - eapply MtRx.rxbuf_wf; [exact Hb|]. unfold IOBUF_SIZE. lia.
  - apply Hb.
  - eexists. split; [|by eapply MtRx.delivered_ahead]. by apply ext_byte_ok.
  - rewrite Hl. unfold block_payload. rewrite !zlen_app. change (zlen [_; _]) with 2.
    change (zlen (le_bytes 2 _)) with 2. lia.
  - rewrite H0. by apply ext_major.
Qed.

Lemma received_ack i a c0 c1 blk st :
  received i a (Z.lor c0 bit7) c1 [Z.lor (Z.shiftl 3 3) (stack_id i); blk; st] ->
  iface_ok i -> 32 <= c0 < 128 -> is_byte blk -> is_byte st -> ack_msg i a blk st.
Proof.
  intros Hrc Hok Hc Hb Hs. pose proof (received_type i a c0 c1 3 [blk; st] Hrc Hok ltac:(lia) ltac:(lia)) as Ht.
  destruct Hrc as [[Hbf H0 H1 Hl Hi _] [Hr _]]. constructor; try done.
  - apply Hbf.
  - eexists. split; [|by eapply MtRx.delivered_ahead]. by apply ext_byte_ok.
  - rewrite H0. apply ext_major. lia.
  - unfold lut_minor in Ht. cbn [Z.eqb] in Ht. destruct Ht as [[= Ht]|]; [|done].
    assert (Z.shiftr c0 5 <> 0) as Hz.
    { rewrite Z.shiftr_div_pow2 by lia. change (2 ^ 5) with 32. 
      pose proof (Z.div_le_lower_bound c0 32 1 ltac:(lia) ltac:(lia)). lia. }
    rewrite (proj2 (Z.eqb_neq _ 0)) in Ht by done. rewrite <- Ht.
    destruct (_ =? 1); [by left|]. destruct (_ =? 2); auto.
Qed.

(** ** Whole transfers *)

(** A message ready to be sent in blocks. *)
Record tx_ready (s : mif) (p : positive) (m : mt_msg) (d : list Z) : Prop := MkTxReady {
  tr_fair : fair s;
  tr_fresh : fresh s;
  tr_cfg : iface_ok (cfg s);
  tr_m : heap s !! p = Some m;
  tr_holds : holds (cfg s) m d;
  tr_dest : pDestIface m = Some (cfg s);
  tr_some : 0 < zlen d;
  tr_ack : fi_pTxFragAck (tx_frag s) = None;
  tr_sz : 0 < tx_frag_size (cfg s);
  tr_len : len_ok (cfg s) (4 + tx_frag_size (cfg s));
  tr_frame : payload_start (cfg s) + 4 + tx_frag_size (cfg s) + 1 <= 2176
}.

Lemma holds_small i m d : holds i m d -> zlen d < 65536.
Proof. intros []. pose proof (payload_start_bounds i). unfold IOBUF_SIZE in *. lia. Qed.

Lemma blocks_pos sz len : 0 < sz -> 0 < len -> 0 < blocks sz len.
Proof.
  intros. pose proof (blocks_cover sz len). destruct (decide (0 < blocks sz len)); [done|nia].
Qed.

(** The blocks of a payload carry all of it, in order. *)
Lemma chunks_upto sz d k : 0 < sz ->
  concat (map (fun j => chunk sz d (Z.of_nat j)) (seq 0 k)) = take (Z.to_nat (Z.of_nat k * sz)) d.
Proof.
  intros Hs. induction k as [|k IH]; [done|].
  rewrite seq_S, map_app, concat_app, IH. cbn [map concat Nat.add]. rewrite app_nil_r.
  unfold chunk, slice. rewrite take_take_drop. f_equal. lia.
Qed.

Lemma chunks_all sz d : 0 < sz ->
  concat (map (fun j => chunk sz d (Z.of_nat j)) (seq 0 (Z.to_nat (blocks sz (zlen d))))) = d.
Proof.
  intros Hs. pose proof (zlen_nonneg d). pose proof (blocks_cover sz (zlen d) Hs ltac:(done)).
  assert (0 <= blocks sz (zlen d)) by (destruct (blocks_bounds sz (zlen d) Hs); lia).
  rewrite chunks_upto, Z2Nat.id by lia. apply take_ge. unfold zlen in *. lia.
Qed.

(** C14: a payload is sent completely in blocks: when every block is answered
    in time by an acknowledgement of it, [MT_MSG_tx_fragment] reports success
    after exactly one data frame per block, in order and together carrying
    the whole payload, and one closing status that names the last block; all
    the memory it allocated is freed again. *)
Theorem mt_fragment_transfer fuel ackfuel p s m d acks :
  let i := cfg s in let sz := tx_frag_size i in let n := blocks sz (zlen d) in
  tx_ready s p m d -> 0 < retry_max i -> n <= 256 -> zlen acks = n ->
  arrivals (outside s) = map (fun a => [a]) acks -> acks_for i n 0 acks ->
  n <= Z.of_nat fuel ->
  concat (map (fun j => chunk sz d (Z.of_nat j)) (seq 0 (Z.to_nat n))) = d /\
  exists s', MT_MSG_tx_fragment fuel (S ackfuel) p s = Ret (1, s') /\ heap s' = heap s /\
    wire s' = wire s ++ block_frames i m sz d 0 (Z.to_nat n) ++
                [status_frame i m 4 (n - 1) EXT_STATUS_frag_complete] /\
    fi_pMsg (tx_frag s') = None /\ fi_pTxFragData (tx_frag s') = None /\
    fi_pTxFragAck (tx_frag s') = None.
Proof.
  intros i sz n [Hf Hfr Hi Hm Hh Hd Hpos Hak Hsz Hl Hfm] Hret Hn Hac Harr Hacks Hfuel.
  split; [by apply chunks_all|].
  destruct (tx_fragment_start fuel (S ackfuel) p s m d sz) as
    (s1 & pd & md & S1 & F1 & C1 & Epd & H1 & O1 & W1 & B1 & N1 & R1 & A1 & E);
    try done; [by eapply holds_small|].
  assert (0 < n) as Hn0 by (by apply blocks_pos).
  destruct (blocks_acked fuel ackfuel acks s1 p pd m md d sz) as
    (s2 & md' & E2 & S2 & F2 & C2 & H2 & R2 & B2 & W2);
    rewrite ?A1, ?C1, ?B1, ?N1, ?O1; fold n; try done; [unfold zlen in *; lia|].
  destruct (frag_finish_run s2 p pd m md' d sz) as (s3 & E3 & H3 & W3 & P3 & D3 & A3); try done.
  { rewrite B2, N1. fold n. unfold is_byte. lia. }
  exists s3. split; [rewrite E; run_step E2; exact E3|]. split; [|split; [|done]].
  - rewrite H3, H2, H1, insert_insert_eq, Epd. apply delete_insert_id, Hfr. lia.
  - rewrite W3, W2, W1, B2, B1, N1, C2, C1, <- app_assoc. fold n i.
    replace (length acks) with (Z.to_nat n) by (unfold zlen in Hac; lia). done.
Qed.

(** a peer that never answers blocks the sender forever: no number of
    rounds lets [MT_MSG_tx_fragment] return, although each block is only
    tried [retry_max] times. *)
Theorem mt_tx_fragment_silent_peer fuel ackfuel p s m d :
  tx_ready s p m d -> arrivals (outside s) = [] ->
  MT_MSG_tx_fragment fuel (S ackfuel) p s = NoFuel.
Proof.
  intros [Hf Hfr Hi Hm Hh Hd Hpos Hak Hsz Hl Hfm] Harr.
  destruct (tx_fragment_start fuel (S ackfuel) p s m d (tx_frag_size (cfg s))) as
    (s1 & pd & md & S1 & F1 & C1 & Epd & H1 & O1 & W1 & B1 & N1 & R1 & A1 & E);
    try done; [by eapply holds_small|].
  pose proof (blocks_pos _ _ Hsz Hpos).
  assert (frag_blocks fuel (S ackfuel) s1 = NoFuel) as Eb.
  { apply (blocks_quiet fuel ackfuel s1 p pd m md d (tx_frag_size (cfg s))); rewrite ?B1, ?N1;
      try done; try lia. constructor; congruence. }
  rewrite E. unfold mbind, M_bind. by rewrite Eb.
Qed.

(** The blocks of a payload, each as received from its frame. *)
Definition received_blocks (i : mt_iface) (c0 c1 sz : Z) (d : list Z) (bs : list mt_msg) : Prop :=
  zlen bs = blocks sz (zlen d) /\
  forall j b, bs !! j = Some b ->
    received i b (Z.lor c0 bit7) c1 (block_payload i sz d (Z.of_nat j)).

(** A receiver that is not in the middle of a reassembly. *)
Record rx_idle (s : mif) : Prop := MkRxIdle {
  ri_fair : fair s;
  ri_fresh : fresh s;
  ri_cfg : iface_ok (cfg s);
  ri_frag : fi_pMsg (rx_frag s) = None
}.

Lemma blocks_two sz len : 0 < sz < len -> 1 < blocks sz len.
Proof. intros H. pose proof (blocks_cover sz len). destruct (decide (1 < blocks sz len)); [done|nia]. Qed.

Lemma reassemble_all s bs c0 c1 sz d :
  rx_idle s -> geometry (cfg s) sz d -> sz < zlen d -> 0 <= c0 < 128 -> is_byte c1 ->
  received_blocks (cfg s) c0 c1 sz d bs ->
  let n := blocks sz (zlen d) in
  exists s' w b, head bs = Some b /\
    reassemble bs s = Ret (replicate (length bs - 1) None ++ [Some (next_ptr s)], s') /\
    heap s' = <[next_ptr s := w]> (heap s) /\ partial (cfg s) w c1 d (length d) /\
    cmd0 w = c0 /\ iobuf_idx w = payload_start (cfg s) /\ m_type w = m_type b /\
    wire s' = wire s ++ ack_frames (cfg s) c0 c1 n 0 (length bs) ++
                [complete_frame (cfg s) c0 c1 n] /\
    fi_pMsg (rx_frag s') = None /\ rx_list s' = rx_list s.
Proof.
  intros [Hf Hfr Hi Hfg] Hge Hlt Hc0 Hc1 [Hz Hbs] n.
  pose proof (blocks_two sz (zlen d) ltac:(destruct (ge_sz _ _ _ Hge); lia)) as H2.
  assert (forall j b, bs !! j = Some b -> block_msg (cfg s) b c1 sz d (Z.of_nat j)) as Hbm
    by (intros j b Hj; eapply received_block; eauto).
  destruct bs as [|b bs]; [change (zlen []) with 0 in Hz; lia|].
  assert (zlen (b :: bs) = zlen bs + 1) as Lz by (unfold zlen; cbn [length]; lia).
  destruct (rx_first_run (bumped s) (next_ptr s) b c1 sz d) as
    (w & s1 & E1 & A1 & C1 & H1 & W1 & R1 & T1 & D1 & _);
    try done; [auto with heaps|cbn; lia|by apply (Hbm 0%nat)|].
  change (cfg (bumped s)) with (cfg s) in *.
  assert (cmd0 w = c0) as Ec.
  { rewrite D1. destruct (Hbs 0%nat b eq_refl) as [[_ -> _ _ _ _] _]. by apply ext_major. }
  destruct (reassemble_rest bs s1 (next_ptr s) w c1 sz d 1) as
    (s' & w' & E' & H' & P' & C' & T' & I' & W' & F' & R'); rewrite ?C1; try done; try lia.
  { intros j x Hj. replace (1 + Z.of_nat j) with (Z.of_nat (S j)) by lia. by apply Hbm. }
  rewrite C1 in *. exists s', w', b. split; [done|]. split.
  { cbn [reassemble].
    run_step (eq_refl (@Ret (positive * mif) (next_ptr s, put (next_ptr s) b (bumped s)))).
    assert (handle_data_fragment (next_ptr s) (put (next_ptr s) b (bumped s)) = Ret (None, s1)) as Eh.
    { unfold handle_data_fragment.
      run_get.
      change (rx_frag (put (next_ptr s) b (bumped s))) with (rx_frag s). rewrite Hfg. by run_step E1. }
    run_step Eh. run_step E'. destruct bs as [|b2 bs]; [change (zlen []) with 0 in *; lia|].
    cbn. by rewrite Nat.sub_0_r. }
  split; [rewrite H', H1; by rewrite insert_insert_eq|]. split_and!; try congruence; try done;
    [|by rewrite R', R1].
  rewrite W', W1, Ec. cbn [length]. rewrite ack_frames_S, <- app_assoc. fold n. cbn [app].
  do 3 f_equal. unfold ack_of, ack_frame, status_frame. rewrite Ec.
  by destruct (pa_cmd1 _ _ _ _ _ (as_partial _ _ _ _ _ _ _ A1)) as [-> _].
Qed.

Lemma partial_holds i w c1 sz d : geometry i sz d -> partial i w c1 d (length d) -> holds i w d.
Proof.
  intros [] P. pose proof P as [Hb Hs Hl H0 (H1 & ?) _]. constructor; try done.
  - rewrite Hs. by apply take_ge.
  - by rewrite H1.
Qed.

(** What a sender with blocks of [sz] bytes sends a payload as. *)
Record transferable (i : mt_iface) (sz : Z) (d : list Z) : Prop := MkTransferable {
  se_sz : 0 < sz;
  se_d : 0 < zlen d < 65536;
  se_blocks : blocks sz (zlen d) <= 256;
  se_fits : payload_start i + zlen d <= IOBUF_SIZE;
  se_isb : is_bytes d
}.

Lemma blocks_one sz len : 0 < len <= sz -> blocks sz len = 1.
Proof.
  intros H. unfold blocks. replace (len + sz - 1) with (1 * sz + (len - 1)) by lia. rewrite Z.quot_div_nonneg by lia.
  rewrite Z.div_add_l by lia. rewrite Z.div_small by lia. lia.
Qed.

Lemma transferable_geometry i sz d : transferable i sz d -> geometry i (Z.min sz (zlen d)) d.
Proof.
  intros []. destruct (Z.min_spec sz (zlen d)) as [[? ->]|[? ->]]; constructor; try done; try lia.
  rewrite blocks_one by lia. lia.
Qed.

(** A payload that fits one block is sent in one, however long a block may be. *)
Lemma one_block i c0 c1 sz d bs :
  0 < zlen d <= sz -> received_blocks i c0 c1 sz d bs ->
  exists b, bs = [b] /\ received i b (Z.lor c0 bit7) c1 (block_payload i (zlen d) d 0).
Proof.
  intros Hd [Hz Hbs]. rewrite blocks_one in Hz by done. destruct bs as [|b [|b2 bs]]; [done| |unfold zlen in Hz; cbn [length] in Hz; lia].
  exists b. split; [done|]. specialize (Hbs 0%nat b eq_refl). cbn [Z.of_nat] in Hbs.
  assert (chunk sz d 0 = chunk (zlen d) d 0) as Ec.
  { unfold chunk. rewrite !Z.mul_0_l. unfold slice. rewrite !take_ge; [done|..]; rewrite length_drop; unfold zlen in *; lia. }
  unfold block_payload in *. by rewrite <- Ec.
Qed.

(** The one block of a payload: it is taken as the first of several. *)
Lemma reassemble_one s b c0 c1 d :
  rx_idle s -> geometry (cfg s) (zlen d) d -> 0 <= c0 < 128 -> is_byte c1 ->
  received (cfg s) b (Z.lor c0 bit7) c1 (block_payload (cfg s) (zlen d) d 0) ->
  exists s' w, reassemble [b] s = Ret ([None], s') /\ heap s' = <[next_ptr s := w]> (heap s) /\
    partial (cfg s) w c1 d (length d) /\ cmd0 w = c0 /\ wire s' = wire s ++ [ack_frame (cfg s) c0 c1 1 0] /\
    fi_pMsg (rx_frag s') = Some (next_ptr s) /\ rx_list s' = rx_list s.
Proof.
  intros [Hf Hfr Hi Hfg] Hge Hc0 Hc1 Hb. pose proof (ge_sz _ _ _ Hge) as Hsz.
  destruct (rx_first_run (bumped s) (next_ptr s) b c1 (zlen d) d) as (w & s1 & E1 & A1 & C1 & H1 & W1 & R1 & T1 & D1 & _);
    try done; [auto with heaps|cbn; lia|eapply received_block; eauto; destruct Hge; lia|].
  change (cfg (bumped s)) with (cfg s) in *.
  assert (cmd0 w = c0) as Ec.
  { rewrite D1. destruct Hb as [[_ -> _ _ _ _] _]. by apply ext_major. }
  exists s1, w. split.
  { cbn [reassemble]. run_step (eq_refl (@Ret (positive * mif) (next_ptr s, put (next_ptr s) b (bumped s)))).
    assert (handle_data_fragment (next_ptr s) (put (next_ptr s) b (bumped s)) = Ret (None, s1)) as Eh.
    { unfold handle_data_fragment. run_get. change (rx_frag (put (next_ptr s) b (bumped s))) with (rx_frag s). rewrite Hfg. by run_step E1. }
    by run_step Eh. }
  pose proof (as_partial _ _ _ _ _ _ _ A1) as P. rewrite C1 in P.
  assert (upto (zlen d) d (0 + 1) = length d) as Hu by (unfold upto, zlen; lia). rewrite Hu in P.
  split; [done|]. split; [done|]. split; [done|]. split; [|split; [by rewrite (as_frag _ _ _ _ _ _ _ A1)|by rewrite R1]].
  rewrite W1. do 2 f_equal. unfold ack_of, ack_frame, status_frame. rewrite Ec, blocks_one by lia.
  by destruct (pa_cmd1 _ _ _ _ _ P) as [-> _].
Qed.

(** C33: reassembly inverts fragmentation into at least two blocks: when the frames of
    all the blocks of a payload arrive in order, [handle_data_fragment] keeps every
    block but the last to itself and returns with the last one a single message that
    holds the whole payload, the original commands without the extension bit, and a
    read position at the payload; each block is acknowledged on the wire, the last as
    complete, and all the other messages are freed.  A payload that fits one block is
    not returned: its block is acknowledged as complete, and its message, with the
    whole payload in it, is kept as a reassembly that has only begun. *)
Theorem mt_fragment_reassembly s bs c0 c1 sz d :
  rx_idle s -> transferable (cfg s) sz d -> 0 <= c0 < 128 -> is_byte c1 ->
  received_blocks (cfg s) c0 c1 sz d bs ->
  let n := blocks sz (zlen d) in
  exists s' w,
    heap s' = <[next_ptr s := w]> (heap s) /\ holds (cfg s) w d /\ cmd0 w = c0 /\ cmd1 w = c1 /\
    if zlen d <=? sz then
      reassemble bs s = Ret ([None], s') /\
      wire s' = wire s ++ [ack_frame (cfg s) c0 c1 1 0] /\ fi_pMsg (rx_frag s') = Some (next_ptr s)
    else
      reassemble bs s = Ret (replicate (length bs - 1) None ++ [Some (next_ptr s)], s') /\
      iobuf_idx w = payload_start (cfg s) /\
      wire s' = wire s ++ ack_frames (cfg s) c0 c1 n 0 (length bs) ++
                  [complete_frame (cfg s) c0 c1 n] /\
      fi_pMsg (rx_frag s') = None.
Proof.
  intros Hid Hse Hc0 Hc1 Hbs n. pose proof (transferable_geometry _ _ _ Hse) as Hge. pose proof (se_d _ _ _ Hse) as Hd.
  destruct (Z.leb_spec (zlen d) sz) as [Hle|Hlt].
  - rewrite Z.min_r in Hge by done. destruct (one_block (cfg s) c0 c1 sz d bs) as (b & -> & Hb); [lia|done|].
    destruct (reassemble_one s b c0 c1 d Hid Hge Hc0 Hc1 Hb) as (s' & w & E & H & P & C & W & F & _).
    exists s', w. split; [done|]. split; [by eapply partial_holds|]. split; [done|]. split; [apply P|done].
  - rewrite Z.min_l in Hge by lia. destruct (reassemble_all s bs c0 c1 sz d Hid Hge Hlt Hc0 Hc1 Hbs) as
      (s' & w & b & _ & E & H & P & C & I & _ & W & F & _).
    exists s', w. split; [done|]. split; [by eapply partial_holds|]. split; [done|]. split; [apply P|done].
Qed.

(** ** What the rx thread does with the result *)

Definition is_frag_data (t : mt_msg_type) : Prop :=
  t = T_sreq_frag_data \/ t = T_areq_frag_data \/ t = T_srsp_frag_data.

Lemma received_frag_data i b c0 c1 sz d k :
  received i b (Z.lor c0 bit7) c1 (block_payload i sz d k) -> iface_ok i -> 32 <= c0 < 128 ->
  is_frag_data (m_type b) /\ Z.land (cmd0 b) bit7 <> 0.
Proof.
  intros Hrc Hok Hc.
  pose proof (received_type i b c0 c1 2 _ Hrc Hok ltac:(lia) ltac:(lia)) as Ht.
  destruct Hrc as [[_ -> _ _ _ _] _]. split; [|apply ext_major; lia].
  unfold lut_minor in Ht. cbn [Z.eqb] in Ht. destruct Ht as [[= Ht]|]; [|done].
  assert (Z.shiftr c0 5 <> 0) as Hz.
  { rewrite Z.shiftr_div_pow2 by lia. change (2 ^ 5) with 32.
    pose proof (Z.div_le_lower_bound c0 32 1 ltac:(lia) ltac:(lia)). lia. }
  rewrite (proj2 (Z.eqb_neq _ 0)) in Ht by done. rewrite <- Ht.
  destruct (_ =? 1); [by left|]. destruct (_ =? 2); [right; by left|right; by right].
Qed.

(** One data fragment in the rx thread. *)
Lemma rx_thread_fragment b s o s1 :
  is_frag_data (m_type b) -> Z.land (cmd0 b) bit7 <> 0 ->
  handle_data_fragment (next_ptr s) (put (next_ptr s) b (bumped s)) = Ret (o, s1) ->
  mt_msg_rx_thread_body (next_ptr s) (put (next_ptr s) b (bumped s)) =
  (match o with
   | None => mret tt
   | Some p => m ← load p;
       match m_type m with
       | T_areq | T_poll | T_sreq => MT_MSG_LIST_insert p
       | _ => MT_MSG_free (Some p)
       end
   end) s1.
Proof.
  intros Ht Hx E. unfold mt_msg_rx_thread_body.
  run_step (load_put (next_ptr s) b (bumped s)). rewrite (proj2 (Z.eqb_neq _ _)) by done. cbn [negb].
  assert (handle_extend_packet (next_ptr s) (put (next_ptr s) b (bumped s)) = Ret (o, s1)) as Eh.
  { unfold handle_extend_packet. run_step (load_put (next_ptr s) b (bumped s)).
    destruct Ht as [-> | [-> | ->]]; exact E. }
  run_step Eh. done.
Qed.

(** The rx thread frees what a reassembly returns. *)
Lemma rx_thread_reassembled bs s p w s' :
  Forall (fun b => is_frag_data (m_type b) /\ Z.land (cmd0 b) bit7 <> 0) bs -> bs <> [] ->
  reassemble bs s = Ret (replicate (length bs - 1) None ++ [Some p], s') ->
  heap s' !! p = Some w -> is_frag_data (m_type w) ->
  rx_thread_all bs s = MT_MSG_free (Some p) s'.
Proof.
  intros Hf. revert s. induction Hf as [|b bs [Hb Hx] Hf IH]; intros s Hne E Hw Ht; [done|].
  cbn [rx_thread_all]. set (s0 := put (next_ptr s) b (bumped s)).
  run_step (eq_refl (@Ret (positive * mif) (next_ptr s, s0))).
  cbn [reassemble] in E. unfold mbind, M_bind, rx_arrive at 1 in E. cbn [get modify] in E.
  apply bind_Ret_inv in E as ([q s1] & E1 & E). injection E1 as <- <-. fold s0 in E.
  apply bind_Ret_inv in E as ([o s1] & E1 & E).
  apply bind_Ret_inv in E as ([os s2] & E2 & E). injection E as E <-.
  pose proof (rx_thread_fragment b s o s1 Hb Hx E1) as Et. fold s0 in Et.
  destruct bs as [|b2 bs].
  - cbn in E, E2. injection E2 as <- <-. injection E as ->.
    assert (mt_msg_rx_thread_body (next_ptr s) s0 = MT_MSG_free (Some p) s1) as Eb.
    { rewrite Et. run_step (load_run p s1 w Hw). destruct Ht as [-> | [-> | ->]]; done. }
    unfold mbind, M_bind. rewrite Eb. destruct (MT_MSG_free _ _) as [[[] ?]|? |]; done.
  - cbn [length] in E. replace (S (S (length bs)) - 1)%nat with (S (length bs)) in E by lia.
    cbn [replicate app] in E. injection E as -> ->.
    run_step Et. apply IH; try done. rewrite E2. cbn [length]. by rewrite Nat.sub_succ, Nat.sub_0_r.
Qed.

(** a fragmented message never reaches the application: although every
    block is acknowledged and the transfer is reported complete to the sender,
    the rx thread frees the message it reassembled, because its type is still
    that of a data fragment; the list of received messages and the heap are
    what they were before. *)
Theorem mt_fragments_never_delivered s bs c0 c1 sz d :
  rx_idle s -> geometry (cfg s) sz d -> sz < zlen d -> 32 <= c0 < 128 -> is_byte c1 ->
  received_blocks (cfg s) c0 c1 sz d bs ->
  let n := blocks sz (zlen d) in
  exists s', rx_thread_all bs s = Ret (tt, s') /\ heap s' = heap s /\ rx_list s' = rx_list s /\
    wire s' = wire s ++ ack_frames (cfg s) c0 c1 n 0 (length bs) ++
                [complete_frame (cfg s) c0 c1 n].
Proof.
  intros Hid Hge Hlt Hc0 Hc1 Hbs n.
  destruct (reassemble_all s bs c0 c1 sz d Hid Hge Hlt ltac:(lia) Hc1 Hbs) as
    (s' & w & b & Hh & E & H & P & C & I & T & W & F & R).
  assert (Forall (fun b => is_frag_data (m_type b) /\ Z.land (cmd0 b) bit7 <> 0) bs) as Hall.
  { apply Forall_lookup. intros j x Hj. eapply received_frag_data; [by apply Hbs|apply Hid|done]. }
  destruct bs as [|b0 bs]; [done|]. injection Hh as ->.
  pose proof (Forall_inv Hall) as [Hb _].
  pose proof P as [_ _ _ _ _ (Hs & Hl)].
  exists (set_heap s' (delete (next_ptr s) (heap s'))).
  rewrite (rx_thread_reassembled _ s (next_ptr s) w s'); try done.
  - rewrite (free_single s' _ w) by (done || by rewrite H, lookup_insert_eq).
    split; [done|]. split; [|done]. cbn. rewrite H. apply delete_insert_id, Hid. lia.
  - by rewrite H, lookup_insert_eq.
  - by rewrite T.
Qed.

(** ** Concrete transfers *)

(** A serial interface that sends 10 bytes per block and tries each 3 times. *)
Definition demo_iface : mt_iface := MkIface true true false false 0 10 3.

Definition demo_payload : list Z := map Z.of_nat (seq 1 25).

#[local] Existing Instance MtRx.script_stream.

(** The message a frame is received as. *)
Definition demo_received (c0 c1 : Z) (pl : list Z) : mt_msg :=
  match MtRx.mt_msg_rx 3 demo_iface 0 None
          (MtRx.one_chunk (mt_frame demo_iface c0 c1 pl)) false with
  | Ret (Some m, _, _, _) => m
  | _ => demo_msg
  end.

Definition demo_acks : list mt_msg :=
  [demo_received 0xc1 1 [24; 0; 0]; demo_received 0xc1 1 [24; 1; 0]; demo_received 0xc1 1 [24; 2; 6]].
Definition demo_blocks : list mt_msg :=
  map (fun k => demo_received 0xc1 1 (block_payload demo_iface 10 demo_payload k)) [0; 1; 2].

(** An unsent message with a payload. *)
Definition demo_big (len : Z) : mt_msg :=
  match (m ← MT_MSG_new 0 len 0x41 1; m ← MT_MSG_setDestIface m (Some demo_iface);
         MT_MSG_wrBuf_DBG m (Some demo_payload) 25) with
  | Ret m => m
  | _ => demo_msg
  end.
Definition demo_tx (len : Z) (arr : list (list mt_msg)) : mif :=
  set_alloc (mif_init demo_iface (MkWorld [] [] [] arr)) {[1%positive := demo_big len]} 2 1.

Ltac by_receive :=
  split; [constructor; [constructor; first [by_bytes | by_eval] | by_eval ..] | by_eval].

Lemma demo_tx_ready arr : tx_ready (demo_tx 25 arr) 1 (demo_big 25) demo_payload.
Proof.
  constructor; [by_eval|..|by_eval|by_eval|by_eval|by_eval|by_eval|by_eval].
  - intros p Hp. apply lookup_singleton_ne. cbn in Hp. lia.
  - by_eval.
  - reflexivity.
  - constructor; first [by_bytes | by_eval].
Qed.

Lemma lookup_three {A} (P : nat -> A -> Prop) x y z :
  P 0%nat x -> P 1%nat y -> P 2%nat z -> forall j a, [x; y; z] !! j = Some a -> P j a.
Proof. intros Hx Hy Hz [|[|[|j]]] a Ha; [..|done]; by injection Ha as <-. Qed.

Lemma demo_ack_ok k st : 0 <= k < 3 -> st = 0 \/ st = 6 /\ k = 2 ->
  received demo_iface (demo_received 0xc1 1 [24; k; st]) 0xc1 1 [24; k; st] ->
  exists st', ack_msg demo_iface (demo_received 0xc1 1 [24; k; st]) k st' /\ good_ack 3 k st'.
Proof.
  intros Hk Hs Hr. exists st. split.
  - apply (received_ack demo_iface _ 0x41 1); [exact Hr|by_eval|by_eval|unfold is_byte; lia..].
  - destruct Hs as [-> | [-> ->]]; [by left|by right].
Qed.

Lemma demo_acks_ok : acks_for demo_iface 3 0 demo_acks.
Proof.
  unfold demo_acks. refine (lookup_three (fun j a => exists st, ack_msg demo_iface a (0 + Z.of_nat j) st /\
           good_ack 3 (0 + Z.of_nat j) st) _ _ _ _ _ _).
  - apply (demo_ack_ok 0 0); [lia|by left|by_receive].
  - apply (demo_ack_ok 1 0); [lia|by left|by_receive].
  - apply (demo_ack_ok 2 6); [lia|by right|by_receive].
Qed.

Lemma demo_blocks_ok : received_blocks demo_iface 0x41 1 10 demo_payload demo_blocks.
Proof.
  split; [by_eval|]. unfold demo_blocks. cbn [map].
  refine (lookup_three (fun j b => received demo_iface b _ 1
            (block_payload demo_iface 10 demo_payload (Z.of_nat j))) _ _ _ _ _ _); by_receive.
Qed.

Lemma demo_rx_idle : rx_idle (mif_init demo_iface demo_world).
Proof. constructor; by_eval. Qed.

Lemma demo_geometry : geometry demo_iface 10 demo_payload.
Proof. constructor; first [by_bytes | by_eval]. Qed.

Lemma demo_transferable : transferable demo_iface 10 demo_payload.
Proof. constructor; first [by_bytes | by_eval]. Qed.

Lemma mt_fragment_transfer_witness :
  exists s', MT_MSG_tx_fragment 3 1 1 (demo_tx 25 (map (fun a => [a]) demo_acks)) = Ret (1, s') /\
    wire s' = block_frames demo_iface (demo_big 25) 10 demo_payload 0 3 ++
                [status_frame demo_iface (demo_big 25) 4 2 EXT_STATUS_frag_complete].
Proof.
  destruct (mt_fragment_transfer 3 0 1 (demo_tx 25 (map (fun a => [a]) demo_acks)) (demo_big 25)
    demo_payload demo_acks (demo_tx_ready _)) as (_ & s' & E & _ & W & _);
    [by_eval|by_eval|by_eval|reflexivity|exact demo_acks_ok|by_eval|].
  exists s'. split; [exact E|exact W].
Defined.

Lemma mt_tx_fragment_silent_peer_witness :
  MT_MSG_tx_fragment 1000 1 1 (demo_tx 25 []) = NoFuel.
Proof.
  exact (mt_tx_fragment_silent_peer 1000 0 1 (demo_tx 25 []) (demo_big 25) demo_payload
           (demo_tx_ready []) eq_refl).
Defined.

Lemma mt_fragment_reassembly_witness :
  exists s' w, reassemble demo_blocks (mif_init demo_iface demo_world) =
      Ret ([None; None; Some 1%positive], s') /\ heap s' = {[1%positive := w]} /\
    holds demo_iface w demo_payload /\ cmd0 w = 0x41.
Proof.
  destruct (mt_fragment_reassembly (mif_init demo_iface demo_world) demo_blocks 0x41 1 10
    demo_payload demo_rx_idle demo_transferable) as (s' & w & H & Ho & C & _ & E & _);
    [by_eval|by_eval|exact demo_blocks_ok|].
  exists s', w. split; [exact E|]. split; [exact H|]. split; [exact Ho|exact C].
Defined.

Lemma mt_fragments_never_delivered_witness :
  exists s', rx_thread_all demo_blocks (mif_init demo_iface demo_world) = Ret (tt, s') /\
    heap s' = ∅ /\ rx_list s' = None.
Proof.
  destruct (mt_fragments_never_delivered (mif_init demo_iface demo_world) demo_blocks 0x41 1 10
    demo_payload demo_rx_idle demo_geometry) as (s' & E & H & R & _);
    [by_eval|by_eval|by_eval|exact demo_blocks_ok|].
  exists s'. split; [exact E|]. split; [exact H|exact R].
Defined.

(** a message of 25 bytes that was allocated without its length, as the
    allocator allows, is too long for one packet; [MT_MSG_txrx] reports that it
    was transmitted, but the only frame on the wire is the status that ends the
    transfer, naming block 255 as the last: none of the payload is sent. *)
Theorem mt_unknown_length_not_sent fuel ackfuel arr :
  exists s', MT_MSG_txrx fuel ackfuel 1 (demo_tx (-1) arr) = Ret (1, s') /\
    wire s' = [mt_frame demo_iface 0xc1 1 [32; 255; EXT_STATUS_frag_complete]].
Proof. destruct fuel; eexists; (split; [vm_compute; reflexivity|vm_compute; reflexivity]). Qed.

(** a peer that acknowledges a block twice makes the sender follow a freed
    pointer: both acknowledgements are queued, freeing the one that was read
    frees the one behind it too, and the wait for the next block reads it. *)
Theorem mt_duplicate_ack_dangling fuel ackfuel :
  MT_MSG_txrx (2 + fuel) (1 + ackfuel) 1
    (demo_tx 25 [[demo_received 0xc1 1 [24; 0; 0]; demo_received 0xc1 1 [24; 0; 0]]]) =
  Undef Dangling.
Proof. vm_compute. reflexivity. Qed.

End MtFrag.
