(* ===== verification/MtIface.v ===== *)
(** * Requests and the life cycle of an interface (mt_interface/api/src/mt_msg.c)

    The functions an application calls: the reset, version, address and
    loopback requests, which build a message, send it with [MT_MSG_txrx] and
    free it; and the creation and destruction of an interface with the handles
    it owns.  What the operating system answers when a device, a lock or a
    thread is asked for is an argument. *)

From Stdlib Require Import ZArith Lia.
From stdpp Require Import base list option numbers gmap.
From S2P Require Import Prelude MtMsg MtRx MtHeap MtFrag.

Open Scope Z_scope.

Module MtIface.
Import MtMsg MtHeap MtFrag.

(** ** Requests *)

Section Requests.

(** Rounds for the blocks and the acknowledgements of a long request. *)
Variables (fuel ackfuel : nat).

Definition SYS_RESET_REQ_cmd0 : Z := 0x41.
Definition SYS_RESET_REQ_cmd1 : Z := 0x00.
Definition MT_UTIL_GET_EXT_ADDR_cmd0 : Z := 0x27.
Definition MT_UTIL_GET_EXT_ADDR_cmd1 : Z := 0xee.
Definition SYS_VERSION_REQ_cmd0 : Z := 0x21.
Definition SYS_VERSION_REQ_cmd1 : Z := 0x02.
Definition MT_UTIL_LOOPBACK_cmd0 : Z := 0x27.
Definition MT_UTIL_LOOPBACK_cmd1 : Z := 0x10.

Definition set_dest (p : positive) : IO unit :=
  s ← get; on_msg p (fun m => MT_MSG_setDestIface m (Some (cfg s))).

Definition srsp_of (p : positive) : IO positive :=
  m ← load p; lift (deref (pSrsp m)).

Definition MT_MSG_reset (type : Z) : IO unit :=
  o ← MT_MSG_alloc 1 SYS_RESET_REQ_cmd0 SYS_RESET_REQ_cmd1;
  match o with
  | None => mret tt
  | Some p =>
      set_dest p;;
      on_msg p (fun m => MT_MSG_wrU8_DBG m (u8 type));;
      MT_MSG_txrx fuel ackfuel p;;
      MT_MSG_free (Some p)
  end.

(** [for (x = ...; x < 8; x++) result[x] = MT_MSG_rdU8(pReply);] with [n] left. *)
Fixpoint read_addr (n : nat) (x : Z) (q : positive) (result : list Z) : IO (list Z) :=
  match n with
  | O => mret result
  | S n =>
      v ← read_msg q MT_MSG_rdU8_DBG;
      result ← lift (mem_write result x [v]);
      read_addr n (x + 1) q result
  end.

(** [result] is [None] for a null pointer, else the caller's buffer. *)
Definition get_extAddr (typecode : Z) (result : option (list Z)) : IO (Z * option (list Z)) :=
  match result with
  | None => mret (0, None)
  | Some result =>
      result ← lift (mem_write result 0 [0]);
      o ← MT_MSG_alloc 1 MT_UTIL_GET_EXT_ADDR_cmd0 MT_UTIL_GET_EXT_ADDR_cmd1;
      match o with
      | None => mret (0, Some result)
      | Some p =>
          set_dest p;;
          on_msg p (fun m => MT_MSG_wrU8_DBG m (u8 typecode));;
          r ← MT_MSG_txrx fuel ackfuel p;
          '(r, result) ←
            (if r =? 2 then
               pReply ← srsp_of p;
               read_msg pReply MT_MSG_rdU8_DBG;;
               result ← read_addr 8 0 pReply result;
               on_msg pReply MT_MSG_parseComplete;;
               m ← load pReply;
               mret (if is_error m then 0 else r, result)
             else mret (r, result));
          MT_MSG_free (Some p);;
          mret (r, Some result)
      end
  end.

Definition MT_MSG_getExtAddress (pib primary usr_cfg : option (list Z))
  : IO (Z * option (list Z) * option (list Z) * option (list Z)) :=
  '(r0, pib) ← get_extAddr 0 pib;
  '(r1, primary) ← get_extAddr 1 primary;
  '(r2, usr_cfg) ← get_extAddr 2 usr_cfg;
  mret (r0 + r1 + r2, pib, primary, usr_cfg).

Record mt_version_info : Type := MkVersion {
  transport : Z;
  product : Z;
  major : Z;
  minor : Z;
  maint : Z
}.

Definition version_zero : mt_version_info := MkVersion 0 0 0 0 0.

(** [want] says whether the caller passed a place for the answer. *)
Definition MT_MSG_getVersion (want : bool) : IO (Z * option mt_version_info) :=
  let pInfo := if want then Some version_zero else None in
  o ← MT_MSG_alloc 0 SYS_VERSION_REQ_cmd0 SYS_VERSION_REQ_cmd1;
  match o with
  | None => mret (0, pInfo)
  | Some p =>
      set_dest p;;
      r ← MT_MSG_txrx fuel ackfuel p;
      if negb (r =? 2) then
        MT_MSG_free (Some p);; mret (r, pInfo)
      else
        '(r, pInfo) ←
          (if want then
             q ← srsp_of p;
             a ← read_msg q MT_MSG_rdU8_DBG;
             b ← read_msg q MT_MSG_rdU8_DBG;
             c ← read_msg q MT_MSG_rdU8_DBG;
             d ← read_msg q MT_MSG_rdU8_DBG;
             e ← read_msg q MT_MSG_rdU8_DBG;
             on_msg q MT_MSG_parseComplete;;
             m ← load q;
             mret (if is_error m then (0, Some version_zero)
                   else (r, Some (MkVersion a b c d e)))
           else mret (r, pInfo));
        MT_MSG_free (Some p);;
        mret (r, pInfo)
  end.

(** [length] is a [size_t]; [pPayload] the bytes at the caller's pointer. *)
Definition MT_MSG_loopback (repeatCount mSec_rate length : Z) (pPayload : list Z) : IO Z :=
  len ← lift (MtRx.add_int 5 (int32 length));
  o ← MT_MSG_alloc len MT_UTIL_LOOPBACK_cmd0 MT_UTIL_LOOPBACK_cmd1;
  match o with
  | None => mret 0
  | Some p =>
      set_dest p;;
      on_msg p (fun m => MT_MSG_wrU8_DBG m repeatCount);;
      on_msg p (fun m => MT_MSG_wrU32_DBG m mSec_rate);;
      on_msg p (fun m => MT_MSG_wrBuf_DBG m (Some pPayload) length);;
      r ← MT_MSG_txrx fuel ackfuel p;
      r ← (if r =? 2 then
             q ← srsp_of p;
             read_msg q MT_MSG_rdU8_DBG;;
             read_msg q MT_MSG_rdU32_DBG;;
             m ← load q;
             let pReply := iobuf_idx m in
             on_msg q (fun m => '(_, m) ← MT_MSG_rdBuf_DBG m false length; Ret m);;
             on_msg q MT_MSG_parseComplete;;
             m ← load p;
             if is_error m then mret 0
             else
               q' ← load q;
               a ← lift (mem_read (iobuf q') pReply length);
               b ← lift (mem_read pPayload 0 length);
               mret (if bool_decide (a = b) then r else 0)
           else mret r);
      MT_MSG_free (Some p);;
      mret r
  end.

End Requests.

(** ** The life cycle *)

(** What an interface owns besides its messages. *)
Inductive handle : Type :=
| Hstream | Hrx_thread | Hlist_name | Hlist_sem | Hlist_lock | Hsrsp_semaphore
| Htx_ack_semaphore | Htx_lock.

#[export] Instance handle_eq_dec : EqDecision handle.
Proof. solve_decision. Defined.

Record timeouts : Type := MkTimeouts {
  frag_timeout_mSecs : Z;
  intersymbol_timeout_mSecs : Z;
  srsp_timeout_mSecs : Z;
  flush_timeout_mSecs : Z;
  intermsg_timeout_mSecs : Z;
  tx_lock_timeout : Z
}.

(** [held] are the handle fields that are not 0, [live] the handles that were
    created and not destroyed. *)
Record lif : Type := MkLif {
  mi : mif;
  is_dead : bool;
  pCurRxMsg : option positive;
  held : handle -> bool;
  live : list handle;
  tmo : timeouts;
  s_cfg : option bool;          (* a socket configuration: is it a server? *)
  u_cfg : bool                  (* a UART configuration *)
}.

Abbreviation LIF := (M lif).

Definition upd (h : handle) (b : bool) (f : handle -> bool) : handle -> bool :=
  fun h' => if decide (h' = h) then b else f h'.

Section LifSetters.
Variable l : lif.
Definition lif_mi (s : mif) : lif :=
  MkLif s (is_dead l) (pCurRxMsg l) (held l) (live l) (tmo l) (s_cfg l) (u_cfg l).
Definition lif_dead (b : bool) : lif :=
  MkLif (mi l) b (pCurRxMsg l) (held l) (live l) (tmo l) (s_cfg l) (u_cfg l).
Definition lif_cur (p : option positive) : lif :=
  MkLif (mi l) (is_dead l) p (held l) (live l) (tmo l) (s_cfg l) (u_cfg l).
Definition lif_held (h : handle) (b : bool) (lv : list handle) : lif :=
  MkLif (mi l) (is_dead l) (pCurRxMsg l) (upd h b (held l)) lv (tmo l) (s_cfg l) (u_cfg l).
Definition lif_tmo (t : timeouts) : lif :=
  MkLif (mi l) (is_dead l) (pCurRxMsg l) (held l) (live l) t (s_cfg l) (u_cfg l).
End LifSetters.

(** An operation on the messages of the interface. *)
Definition zoom {A} (f : IO A) : LIF A := fun l =>
  '(a, s) ← f (mi l); Ret (a, lif_mi l s).

Fixpoint remove_one (h : handle) (l : list handle) : option (list handle) :=
  match l with
  | [] => None
  | x :: l => if decide (x = h) then Some l else cons x <$> remove_one h l
  end.

(** A field is set to the result of a create function: 0 when it failed. *)
Definition create (h : handle) (ok : bool) : LIF unit :=
  modify (fun l => lif_held l h ok (if ok then h :: live l else live l)).

(** The destroy function of a handle, then [field = 0]. *)
Definition destroy (h : handle) : LIF unit :=
  l ← get;
  lv ← lift (match remove_one h (live l) with Some lv => Ret lv | None => Undef Dangling end);
  modify (fun l => lif_held l h false lv).

(** [if (field) { destroy(field); field = 0; }] *)
Definition destroy_if (h : handle) : LIF unit :=
  l ← get; if held l h then destroy h else mret tt.

(** [MT_MSG_LIST_destroy] with the semaphore and the name of the list. *)
Definition list_destroy_all : LIF unit :=
  zoom MT_MSG_LIST_destroy;; destroy_if Hlist_sem;; destroy_if Hlist_name.

(** The middle of [MT_MSG_interfaceDestroy]: the connection, the thread, the
    list of received messages, the locks and the semaphores. *)
Definition close_all : LIF unit :=
  destroy_if Hstream;; destroy_if Hrx_thread;; list_destroy_all;;
  destroy_if Hlist_lock;; destroy_if Hsrsp_semaphore;; destroy_if Htx_ack_semaphore;;
  destroy_if Htx_lock.

Definition MT_MSG_interfaceDestroy : LIF unit :=
  modify (fun l => lif_dead l true);;
  l ← get;
  (match pCurRxMsg l with
   | Some p => zoom (MT_MSG_free (Some p));; modify (fun l => lif_cur l None)
   | None => mret tt
   end);;
  close_all;;
  l ← get;
  zoom (MT_MSG_free (pCurSreq (mi l)));;
  modify (fun l => lif_mi l (set_sreq (mi l) None)).

(** What the system answers to the requests of [MT_MSG_interfaceCreate]. *)
Record os : Type := MkOs {
  os_socket : bool;          (* SOCKET_CLIENT_create *)
  os_connect : Z;            (* SOCKET_CLIENT_connect *)
  os_uart : bool;            (* STREAM_createUart *)
  os_name : bool;            (* calloc of the list name *)
  os_list_sem : bool;
  os_tx_lock : bool;
  os_srsp : bool;
  os_ack : bool;
  os_list_lock : bool;
  os_thread : bool
}.

Section Create.
Variable o : os.

Definition MT_MSG_LIST_create : LIF Z :=
  modify (fun l => lif_mi (lif_held (lif_held l Hlist_name false (live l)) Hlist_sem false (live l))
                          (set_rx_list (mi l) None));;
  create Hlist_name (os_name o);;
  create Hlist_sem (os_list_sem o);;
  modify (fun l => lif_mi l (set_rx_list (mi l) None));;
  l ← get;
  if negb (held l Hlist_name) || negb (held l Hlist_sem) then
    list_destroy_all;; mret (-1)
  else mret 0.

(** The connection, unless the caller brought one. *)
Definition open_stream : LIF unit :=
  l ← get;
  match s_cfg l with
  | Some true => mret tt
  | Some false =>
      create Hstream (os_socket o);;
      if os_socket o then
        if os_connect o <? 0 then destroy Hstream else mret tt
      else mret tt
  | None => if u_cfg l then create Hstream (os_uart o) else mret tt
  end.

Definition or_default (v d : Z) : Z := if v =? 0 then d else v.

Definition set_defaults (l : lif) : lif :=
  let i := cfg (mi l) in
  let t := tmo l in
  let s := mi l in
  let i := MkIface (frame_sync i) (include_chksum i) (len_2bytes i) (is_socket i) (stack_id i)
             (or_default (tx_frag_size i) 247) (or_default (retry_max i) 3) in
  lif_tmo (lif_mi l (MkMif i (heap s) (next_ptr s) (msg_sequence_counter s) (pCurSreq s) (rx_list s)
                       (tx_frag s) (rx_frag s) (wire s) (num_tx_pkt s) (num_err_bad_tx_len s)
                       (outside s)))
    (MkTimeouts (or_default (frag_timeout_mSecs t) 2000) (or_default (intersymbol_timeout_mSecs t) 100)
       (or_default (srsp_timeout_mSecs t) 3000) (or_default (flush_timeout_mSecs t) 50)
       (or_default (intermsg_timeout_mSecs t) 3000) (or_default (tx_lock_timeout t) 3000)).

(** The label [bad]. *)
Definition create_bad : LIF Z := MT_MSG_interfaceDestroy;; mret (-1).

Definition MT_MSG_interfaceCreate : LIF Z :=
  modify (fun l => lif_dead l false);;
  open_stream;;
  l ← get;
  if negb (held l Hstream) then create_bad
  else
    r ← MT_MSG_LIST_create;
    if negb (r =? 0) then create_bad
    else
      create Htx_lock (os_tx_lock o);;
      create Hsrsp_semaphore (os_srsp o);;
      create Htx_ack_semaphore (os_ack o);;
      create Hlist_lock (os_list_lock o);;
      l ← get;
      if negb (held l Htx_lock) || negb (held l Hsrsp_semaphore) ||
         negb (held l Htx_ack_semaphore) || negb (held l Hlist_lock) then create_bad
      else
        modify set_defaults;;
        create Hrx_thread (os_thread o);;
        l ← get;
        if negb (held l Hstream) || negb (held l Hrx_thread) then create_bad else mret 0.

End Create.

(** ** Sending a request *)

(** The interface works and nobody holds the transmit lock; a request fits
    one packet. *)
Record ready (s : mif) : Prop := MkReadyIf {
  rd_fair : fair s;
  rd_locks : locks (outside s) = [];
  rd_fresh : fresh s;
  rd_small : len_2bytes (cfg s) = true \/ 16 <= tx_frag_size (cfg s)
}.

(** The state after the request [w] of message [p] was sent. *)
Definition after_request (p : positive) (w : list Z) (s : mif) : mif :=
  set_wire (set_sreq s (Some p)) (wire s ++ [w]) (num_tx_pkt s + 1) (num_err_bad_tx_len s).

Lemma write_short m i fs :
  writable m i -> Forall field_ok fs -> zlen (fields_enc fs) <= 8 ->
  expected_len m = zlen (fields_enc fs) ->
  exists m', write_fields m fs = Ret m' /\ has_payload m' i (fields_enc fs) /\
    iobuf_nvalid m' <= 13 /\
    cmd0 m' = cmd0 m /\ cmd1 m' = cmd1 m /\ pListNext m' = pListNext m /\ pSrsp m' = pSrsp m.
Proof.
  intros Hw Hf Hl He. pose proof (payload_start_bounds i). pose proof (zlen_nonneg (fields_enc fs)).
  destruct (write_payload m i fs Hw Hf) as (m' & E & Hp & Hs); [..|by left| |].
  { unfold len_ok. destruct (len_2bytes i); lia. } { unfold IOBUF_SIZE; lia. }
  exists m'. split; [done|]. split; [done|]. split; [|done].
  destruct Hw as [Hwf Hn Hi Hv _ _ _].
  destruct (write_fields_ok fs m) as (m2 & E2 & [_ _ I2 V2 _ _]); try done.
  { split; unfold IOBUF_SIZE; lia. }
  rewrite E in E2. injection E2 as <-. lia.
Qed.

Lemma lut_major_known k : lut_major k <> T_unknown.
Proof. unfold lut_major. repeat destruct (_ =? _); done. Qed.

(** [n] bytes of an unformatted message need no fragmentation. *)
Definition one_frame (i : mt_iface) (n : Z) : Prop :=
  len_2bytes i = true \/ n <= 256 /\ n < tx_frag_size i.

(** A message of a known type that needs no fragmentation goes out as one frame. *)
Lemma txrx_frame fuel ackfuel p m s d :
  fair s -> locks (outside s) = [] -> has_payload m (cfg s) d -> 0 <= cmd0 m < 128 ->
  pListNext m = None -> one_frame (cfg s) (iobuf_nvalid m) -> zlen (mt_frame (cfg s) (cmd0 m) (cmd1 m) d) <= 2176 ->
  exists m', MT_MSG_txrx fuel ackfuel p (put p m s) =
      Ret (1, put p m' (after_request p (mt_frame (cfg s) (cmd0 m) (cmd1 m) d) s)) /\
    pListNext m' = None /\ pSrsp m' = None.
Proof.
  intros Hf Hlk Hp Hc Hl Hsm Hfl. set (i := cfg s) in *.
  pose proof Hp as [Hwf Hd He H0 H1 _ _ _ _ _].
  assert (Z.shiftr (cmd0 m) 5 <= 3) as H3.
  { rewrite Z.shiftr_div_pow2 by lia. change (2 ^ 5) with 32.
    pose proof (Z.div_lt_upper_bound (cmd0 m) 32 4). lia. }
  unfold MT_MSG_txrx. run_step (load_put p m s). rewrite Hd.
  run_step (eq_refl (@Ret (mt_iface * mif) (i, put p m s))).
  assert (tx_lock (put p m s) = Ret (true, put p m s)) as El.
  { unfold tx_lock. change (outside (put p m s)) with (outside s). by rewrite Hlk. }
  run_step El. cbn [negb]. run_msg (eq_refl (Ret (set_links m None (pListNext m)))).
  set (m1 := set_links m None (pListNext m)).
  run_msg (set_type_major m1 (Some i) (cmd0 m) eq_refl H0 H3).
  set (t := lut_major (Z.shiftr (cmd0 m) 5)). set (m2 := set_mtype m1 t).
  run_modify.
  set (s1 := set_sreq s (Some p)).
  change (set_sreq (put p m2 s) (Some p)) with (put p m2 s1).
  set (s2 := set_wire s1 (wire s1) (num_tx_pkt s1 + 1) (num_err_bad_tx_len s1)).
  assert (has_payload m2 i d) as Hp2 by (apply has_payload_mtype; by destruct Hp as [[]]).
  destruct (tx_raw_spec p m2 s2 i d Hf Hp2 Hfl) as (m3 & E3 & _ & L3 & R3).
  assert (MT_MSG_tx fuel ackfuel p (put p m2 s1) = MT_MSG_tx_raw p (put p m2 s2)) as Et.
  { unfold MT_MSG_tx. assert (pDestIface m2 = Some i) as Hd2 by apply Hp2.
    run_msg (set_type_major m2 (pDestIface m2) (cmd0 m) eq_refl H0 H3).
    change (set_mtype m2 (lut_major (Z.shiftr (cmd0 m) 5))) with m2.
    run_modify.
    match goal with |- context [set_wire (put p m2 s1) ?a ?b ?c] =>
      change (set_wire (put p m2 s1) a b c) with (put p m2 s2) end.
    run_step (load_put p m2 s2). assert (is_error m2 = false) as -> by apply Hp2.
    rewrite bool_decide_false by apply lut_major_known. cbn [orb]. rewrite Hd2.
    run_step (eq_refl (@Ret (mt_iface * mif) (i, put p m2 s2))).
    destruct Hsm as [-> | [Hsz1 Hsz2]]; [done|]. destruct (len_2bytes i); [done|].
    change (iobuf_nvalid m2) with (iobuf_nvalid m).
    by rewrite (proj2 (Z.ltb_ge _ _)), (proj2 (Z.leb_gt _ _)) by lia. }
  rewrite <- Et in E3. run_step E3. exists m3. split; [done|]. rewrite L3, R3. done.
Qed.

(** A short message, on any interface that is ready. *)
Lemma txrx_run fuel ackfuel p m s d :
  ready s -> has_payload m (cfg s) d -> 0 <= cmd0 m < 128 -> pListNext m = None ->
  iobuf_nvalid m <= 13 -> zlen (mt_frame (cfg s) (cmd0 m) (cmd1 m) d) <= 2176 ->
  exists m', MT_MSG_txrx fuel ackfuel p (put p m s) =
      Ret (1, put p m' (after_request p (mt_frame (cfg s) (cmd0 m) (cmd1 m) d) s)) /\
    pListNext m' = None /\ pSrsp m' = None.
Proof.
  intros [Hf Hlk Hfr Hsm] Hp Hc Hl Hnv Hfl. apply txrx_frame; try done.
  destruct Hsm; [by left|right; lia].
Qed.

(** Allocating a request and naming its destination. *)
Lemma request_alloc s len c0 c1 :
  ready s -> is_byte c0 -> is_byte c1 ->
  exists m0 m, MT_MSG_alloc len c0 c1 s = Ret (Some (next_ptr s), put (next_ptr s) m0 (bumped s)) /\
    set_dest (next_ptr s) (put (next_ptr s) m0 (bumped s)) = Ret (tt, put (next_ptr s) m (bumped s)) /\
    writable m (cfg s) /\ cmd0 m = c0 /\ cmd1 m = c1 /\ expected_len m = len /\
    pListNext m = None /\ pSrsp m = None.
Proof.
  intros [Hf _ _ _] H0 H1.
  destruct (alloc_run s len c0 c1 Hf) as (m0 & Ea & W0 & E0 & I0 & N0 & C0 & C1 & L0 & S0 & P0).
  destruct (setDest_writable m0 (cfg s)) as (m1 & E1 & Wr & D0 & D1 & D2 & D3 & D4); try congruence.
  exists m0, m1. split; [done|]. split; [|split_and!; congruence].
  unfold set_dest. set (s1 := put _ _ _). run_get.
  by apply on_msg_put.
Qed.

Lemma ready_bumped s : ready s -> ready (bumped s).
Proof. intros []. constructor; try done. auto with heaps. Qed.

(** A request of up to eight bytes: sent, then freed. *)
Lemma request_run fuel ackfuel s m fs :
  ready s -> writable m (cfg s) -> 0 <= cmd0 m < 128 -> Forall field_ok fs ->
  zlen (fields_enc fs) <= 8 -> expected_len m = zlen (fields_enc fs) ->
  pListNext m = None -> pSrsp m = None ->
  let p := next_ptr s in
  let s' := after_request p (mt_frame (cfg s) (cmd0 m) (cmd1 m) (fields_enc fs)) (bumped s) in
  exists m1 m2, write_fields m fs = Ret m1 /\
    MT_MSG_txrx fuel ackfuel p (put p m1 (bumped s)) = Ret (1, put p m2 s') /\
    MT_MSG_free (Some p) (put p m2 s') = Ret (tt, s').
Proof.
  intros Hr Hw Hc Hf H8 Hl Hn Hs p s'.
  destruct (write_short m (cfg s) fs) as (m1 & E1 & Hp & Hv & C0 & C1 & L1 & R1); try done.
  destruct (txrx_run fuel ackfuel p m1 (bumped s) (fields_enc fs)) as (m2 & E2 & L2 & R2);
    try done; [by apply ready_bumped|lia|congruence| |].
  { rewrite frame_length. pose proof (payload_start_bounds (cfg (bumped s))).
    destruct (include_chksum _); lia. }
  exists m1, m2. split; [done|]. split; [rewrite E2, C0, C1; done|].
  apply free_put; try done. apply Hr. unfold p. lia.
Qed.

(** ** What the requests do *)

(** Whatever happens, [MT_MSG_txrx] counts one message at most. *)
Lemma txrx_result fuel ackfuel p s r s' :
  MT_MSG_txrx fuel ackfuel p s = Ret (r, s') -> r = 0 \/ r = 1.
Proof.
  unfold MT_MSG_txrx. intros E.
  apply bind_Ret_inv in E as ([m s1] & _ & E). apply bind_Ret_inv in E as ([i s2] & _ & E).
  apply bind_Ret_inv in E as ([ok s3] & _ & E).
  destruct ok; cbn [negb] in E; [|injection E as <- _; by left].
  apply bind_Ret_inv in E as ([[] s4] & _ & E). apply bind_Ret_inv in E as ([[] s5] & _ & E).
  apply bind_Ret_inv in E as ([[] s6] & _ & E). apply bind_Ret_inv in E as ([r1 s7] & _ & E).
  destruct (r1 =? 1); cbn [negb] in E; [injection E as <- _; by right|].
  apply bind_Ret_inv in E as ([[] s8] & _ & E). apply bind_Ret_inv in E as ([[] s9] & _ & E).
  injection E as <- _. by left.
Qed.

Lemma version_result fuel ackfuel want s r v s' :
  MT_MSG_getVersion fuel ackfuel want s = Ret ((r, v), s') ->
  (r = 0 \/ r = 1) /\ v = if want then Some version_zero else None.
Proof.
  intros E. unfold MT_MSG_getVersion in E.
  apply bind_Ret_inv in E as ([[p|] s1] & _ & E); [|injection E as <- <- _; split; [by left|done]].
  apply bind_Ret_inv in E as ([[] s2] & _ & E). apply bind_Ret_inv in E as ([r1 s3] & E3 & E).
  apply txrx_result in E3 as [-> | ->]; cbn [Z.eqb Pos.eqb negb] in E;
    apply bind_Ret_inv in E as ([[] s4] & _ & E); injection E as <- <- _;
    (split; [auto|done]).
Qed.

Lemma getVersion_run fuel ackfuel want s :
  ready s ->
  MT_MSG_getVersion fuel ackfuel want s =
  Ret ((1, if want then Some version_zero else None),
       after_request (next_ptr s) (mt_frame (cfg s) 0x21 0x02 []) (bumped s)).
Proof.
  intros Hr. unfold MT_MSG_getVersion.
  destruct (request_alloc s 0 SYS_VERSION_REQ_cmd0 SYS_VERSION_REQ_cmd1)
    as (m0 & m & Ea & Ed & Hw & C0 & C1 & L & N & R); [done|by_eval|by_eval|].
  run_step Ea. run_step Ed.
  destruct (request_run fuel ackfuel s m []) as (m1 & m2 & E1 & E2 & E3); try done;
    [rewrite C0; by_eval|].
  cbn in E1. injection E1 as <-. run_step E2. cbn [Z.eqb Pos.eqb negb].
  run_step E3. rewrite C0, C1. done.
Qed.

(** on a working interface a version request is sent as one frame, its
    message is freed and the result is always 1 with the answer left at zero;
    on no interface whatever is the result 2, which is the documented sign of
    success: responses are not received. *)
Theorem mt_version_never_received fuel ackfuel want :
  (forall s, ready s ->
     exists s', MT_MSG_getVersion fuel ackfuel want s =
         Ret ((1, if want then Some version_zero else None), s') /\
       wire s' = wire s ++ [mt_frame (cfg s) 0x21 0x02 []] /\ heap s' = heap s) /\
  (forall s r v s', MT_MSG_getVersion fuel ackfuel want s = Ret ((r, v), s') ->
     (r = 0 \/ r = 1) /\ v = if want then Some version_zero else None).
Proof.
  split.
  - intros s Hr. eexists. split; [by apply getVersion_run|]. done.
  - intros s r v s'. apply version_result.
Qed.

Lemma get_extAddr_run fuel ackfuel t b bs s :
  ready s -> 0 <= t < 256 ->
  get_extAddr fuel ackfuel t (Some (b :: bs)) s =
  Ret ((1, Some (0 :: bs)),
       after_request (next_ptr s) (mt_frame (cfg s) 0x27 0xee [t]) (bumped s)).
Proof.
  intros Hr Ht. unfold get_extAddr.
  assert (lift (mem_write (b :: bs) 0 [0]) s = Ret (0 :: bs, s)) as Em.
  { unfold lift. rewrite mem_write_ok; [|lia|change (zlen [0]) with 1; unfold zlen; cbn [length]; lia].
    done. }
  run_step Em.
  destruct (request_alloc s 1 MT_UTIL_GET_EXT_ADDR_cmd0 MT_UTIL_GET_EXT_ADDR_cmd1)
    as (m0 & m & Ea & Ed & Hw & C0 & C1 & L & N & R); [done|by_eval|by_eval|].
  run_step Ea. run_step Ed. assert (fields_enc [F8 (u8 t)] = [t]) as Ef
    by (rewrite (u8_id t) by done; cbn; by rewrite u8_id).
  destruct (request_run fuel ackfuel s m [F8 (u8 t)]) as (m1 & m2 & E1 & E2 & E3); rewrite ?Ef; try done.
  { rewrite C0. by_eval. }
  { apply Forall_cons_2; [|done]. cbn. by rewrite u8_id. }
  cbn [write_fields write_field] in E1. apply bind_Ret_inv in E1 as (m1' & E1 & [= ->]).
  run_msg E1. run_step E2. cbn [Z.eqb Pos.eqb].
  run_step (eq_refl (@Ret (Z * list Z * mif) ((1, 0 :: bs), put (next_ptr s) m2
    (after_request (next_ptr s) (mt_frame (cfg s) (cmd0 m) (cmd1 m) (fields_enc [F8 (u8 t)])) (bumped s))))).
  run_step E3. rewrite C0, C1, Ef. done.
Qed.

Lemma ready_after p w s : ready s -> ready (after_request p w s).
Proof. by intros []. Qed.

(** asking for all three addresses sends the three requests in order and
    frees them; the result is 3, never the documented 6, and the caller's
    buffers keep their contents except for a first byte set to zero. *)
Theorem mt_addresses_never_received fuel ackfuel s a b c xs ys zs :
  ready s ->
  exists s', MT_MSG_getExtAddress fuel ackfuel (Some (a :: xs)) (Some (b :: ys)) (Some (c :: zs)) s =
      Ret ((3, Some (0 :: xs), Some (0 :: ys), Some (0 :: zs)), s') /\
    wire s' = wire s ++ map (fun t => mt_frame (cfg s) 0x27 0xee [t]) [0; 1; 2] /\ heap s' = heap s.
Proof.
  intros H0. unfold MT_MSG_getExtAddress. pose proof (fun p w s H => ready_after p w _ (ready_bumped s H)) as Hn.
  run_step (get_extAddr_run fuel ackfuel 0 a xs s H0 ltac:(lia)). set (s1 := after_request _ _ _).
  assert (ready s1) as H1 by by apply Hn.
  run_step (get_extAddr_run fuel ackfuel 1 b ys s1 H1 ltac:(lia)). set (s2 := after_request _ _ (bumped s1)).
  assert (ready s2) as H2 by by apply Hn.
  run_step (get_extAddr_run fuel ackfuel 2 c zs s2 H2 ltac:(lia)).
  eexists. split; [done|]. split; [|done]. cbn. by rewrite <- !app_assoc.
Qed.

Lemma demo_iface_ready : ready (mif_init uart_iface demo_world).
Proof. constructor; [by_eval|by_eval|intros p _; apply lookup_empty|by left]. Qed.

Lemma mt_version_never_received_witness :
  exists s', MT_MSG_getVersion 1 1 true (mif_init uart_iface demo_world) =
      Ret ((1, Some version_zero), s') /\ wire s' = [mt_frame uart_iface 0x21 0x02 []].
Proof.
  destruct (proj1 (mt_version_never_received 1 1 true) _ demo_iface_ready) as (s' & E & W & _).
  exists s'. split; [exact E|exact W].
Defined.

Lemma mt_addresses_never_received_witness :
  exists s', MT_MSG_getExtAddress 1 1 (Some [1; 2]) (Some [3; 4]) (Some [5; 6])
      (mif_init uart_iface demo_world) = Ret ((3, Some [0; 2], Some [0; 4], Some [0; 6]), s') /\
    wire s' = map (fun t => mt_frame uart_iface 0x27 0xee [t]) [0; 1; 2].
Proof.
  destruct (mt_addresses_never_received 1 1 _ 1 3 5 [2] [4] [6] demo_iface_ready) as (s' & E & W & _).
  exists s'. split; [exact E|exact W].
Defined.

(** ** Handles are neither leaked nor destroyed twice *)

(** The handle fields name exactly the handles that exist. *)
Record handles_ok (l : lif) : Prop := MkHandlesOk {
  hk_nodup : NoDup (live l);
  hk_held : forall h, h ∈ live l <-> held l h = true
}.

(** Everything but the handles is as before. *)
Record same_rest (l l' : lif) : Prop := MkSameRest {
  sr_mi : mi l' = mi l;
  sr_dead : is_dead l' = is_dead l;
  sr_cur : pCurRxMsg l' = pCurRxMsg l;
  sr_tmo : tmo l' = tmo l;
  sr_cfg : s_cfg l' = s_cfg l /\ u_cfg l' = u_cfg l
}.

#[export] Instance same_rest_preorder : PreOrder same_rest.
Proof.
  split; [done|]. intros x y z [] []. constructor; try congruence. destruct_and!. split; congruence.
Qed.

Lemma upd_eq h b f : upd h b f h = b.
Proof. unfold upd. by rewrite decide_True. Qed.

Lemma upd_ne h b f h' : h' <> h -> upd h b f h' = f h'.
Proof. intros. unfold upd. by rewrite decide_False. Qed.

Lemma remove_one_spec h l : h ∈ l -> NoDup l ->
  exists l', remove_one h l = Some l' /\ NoDup l' /\ forall x, x ∈ l' <-> x ∈ l /\ x <> h.
Proof.
  induction l as [|y l IH]; intros Hin Hn; [by apply elem_of_nil in Hin|].
  apply NoDup_cons in Hn as [Hy Hn]. cbn [remove_one].
  destruct (decide (y = h)) as [->|Hne].
  - exists l. split; [done|]. split; [done|]. intros x. rewrite elem_of_cons. split.
    + intros Hx. split; [by right|]. by intros ->.
    + by intros [[->|Hx] Hxh].
  - apply elem_of_cons in Hin as [->|Hin]; [done|].
    destruct (IH Hin Hn) as (l' & -> & Hn' & Hx'). exists (y :: l'). split; [done|]. split.
    + apply NoDup_cons. split; [|done]. rewrite Hx'. by intros [? _].
    + intros x. rewrite !elem_of_cons, Hx'. split; [|tauto].
      intros [-> | [? ?]]; [by split; [left|]|by split; [right|]].
Qed.

Lemma create_run h ok l : handles_ok l -> held l h = false ->
  exists l', create h ok l = Ret (tt, l') /\ handles_ok l' /\ same_rest l l' /\
    forall h', held l' h' = upd h ok (held l) h'.
Proof.
  intros [Hn Hh] Hf. eexists. split; [reflexivity|]. split; [|split; [done|done]].
  assert (h ∉ live l) as Hnin by (rewrite Hh; congruence).
  constructor; cbn [lif_held live held].
  - destruct ok; [|done]. by apply NoDup_cons.
  - intros h'. destruct (decide (h' = h)) as [->|Hne].
    + rewrite upd_eq. destruct ok; [split; [done|by left]|]. split; [done|congruence].
    + rewrite upd_ne by done. rewrite <- Hh. destruct ok; [|done]. rewrite elem_of_cons. tauto.
Qed.

Lemma destroy_run h l : handles_ok l -> held l h = true ->
  exists l', destroy h l = Ret (tt, l') /\ handles_ok l' /\ same_rest l l' /\
    forall h', held l' h' = upd h false (held l) h'.
Proof.
  intros [Hn Hh] Ht. destruct (remove_one_spec h (live l)) as (lv & E & Hn' & Hx); [by apply Hh|done|].
  unfold destroy. run_get. rewrite E.
  eexists. split; [reflexivity|]. split; [|done]. constructor; [done|].
  intros h'. cbn [lif_held live held]. rewrite Hx, Hh.
  destruct (decide (h' = h)) as [->|Hne]; [rewrite upd_eq; split; [by intros [_ ?]|done]|].
  rewrite upd_ne by done. tauto.
Qed.

Lemma destroy_if_run h l : handles_ok l ->
  exists l', destroy_if h l = Ret (tt, l') /\ handles_ok l' /\ same_rest l l' /\
    forall h', held l' h' = upd h false (held l) h'.
Proof.
  intros Hk. unfold destroy_if. run_get.
  destruct (held l h) eqn:Eh; [by apply destroy_run|].
  exists l. split; [done|]. split; [done|]. split; [done|]. intros h'.
  destruct (decide (h' = h)) as [->|Hne]; [by rewrite upd_eq|by rewrite upd_ne].
Qed.

Lemma zoom_run {A} (f : IO A) l a s :
  f (mi l) = Ret (a, s) -> zoom f l = Ret (a, lif_mi l s).
Proof. intros E. unfold zoom. by rewrite E. Qed.

Lemma handles_ok_mi l s : handles_ok l -> handles_ok (lif_mi l s).
Proof. by intros []. Qed.

(** A message of the interface that can be freed alone. *)
Definition lone (s : mif) (p : positive) : Prop :=
  exists m, heap s !! p = Some m /\ pListNext m = None /\ pSrsp m = None.

(** The messages an interface owns: the list, the message being received and
    the pending request. *)
Record messages_ok (l : lif) (q : list positive) : Prop := MkMessagesOk {
  mk_list : list_inv (mi l) q;
  mk_resp : no_responses (heap (mi l)) q;
  mk_cur : forall p, pCurRxMsg l = Some p -> lone (mi l) p /\ p ∉ q;
  mk_sreq : forall p, pCurSreq (mi l) = Some p -> lone (mi l) p /\ (p ∉ q) /\ pCurRxMsg l <> Some p
}.

(** The heap without some messages. *)
Definition without (h : gmap positive mt_msg) (ps : list positive) : gmap positive mt_msg :=
  foldr delete h ps.

Lemma lookup_without h ps p : without h ps !! p = (if decide (p ∈ ps) then None else h !! p).
Proof.
  unfold without. induction ps as [|q ps IH]; [done|]. cbn [foldr].
  destruct (decide (p = q)) as [->|Hne].
  { rewrite lookup_delete_eq. by rewrite decide_True by (by left). }
  rewrite lookup_delete_ne, IH by done.
  destruct (decide (p ∈ ps)); [by rewrite decide_True by (by right)|].
  by rewrite decide_False by (by intros [|]%elem_of_cons).
Qed.

Lemma free_option s o :
  (forall p, o = Some p -> lone s p) ->
  MT_MSG_free o s = Ret (tt, set_heap s (without (heap s) (option_list o))).
Proof.
  destruct o as [p|]; intros H; [|by destruct s]. destruct (H p eq_refl) as (m & Hm & Hn & Hr).
  by rewrite (free_single s p m).
Qed.

Lemma lone_without s s' ps p :
  heap s' = without (heap s) ps -> lone s p -> p ∉ ps -> lone s' p.
Proof.
  intros Hh (m & Hm & Hx) Hp. exists m. rewrite Hh, lookup_without, decide_False by done. done.
Qed.

Lemma option_list_elem {A} (o : option A) x : x ∈ option_list o <-> o = Some x.
Proof.
  destruct o as [y|]; cbn.
  - rewrite list_elem_of_singleton. split; [by intros ->|by intros [= ->]].
  - split; [by intros ?%elem_of_nil|done].
Qed.

Lemma list_destroy_run l q :
  list_inv (mi l) q -> no_responses (heap (mi l)) q ->
  zoom MT_MSG_LIST_destroy l =
  Ret (tt, lif_mi l (set_rx_list (set_heap (mi l) (without (heap (mi l)) q)) None)).
Proof.
  intros Hi Hr. apply zoom_run. unfold MT_MSG_LIST_destroy.
  apply (list_destroy_spec _ (mi l) q Hi Hr).
  destruct Hi as [Hc Hn]. apply chain_size in Hc; [lia|done].
Qed.

Lemma close_all_run l q :
  handles_ok l -> list_inv (mi l) q -> no_responses (heap (mi l)) q ->
  exists l', close_all l = Ret (tt, l') /\ live l' = [] /\ (forall h, held l' h = false) /\
    same_rest (lif_mi l (set_rx_list (set_heap (mi l) (without (heap (mi l)) q)) None)) l'.
Proof.
  intros Hk Hi Hr. unfold close_all, list_destroy_all.
  destruct (destroy_if_run Hstream l Hk) as (l0 & E0 & K0 & R0 & H0).
  destruct (destroy_if_run Hrx_thread l0 K0) as (l1 & E1 & K1 & R1 & H1).
  assert (mi l1 = mi l) as Em by (destruct R0, R1; congruence).
  set (s1 := set_rx_list (set_heap (mi l) (without (heap (mi l)) q)) None).
  assert (zoom MT_MSG_LIST_destroy l1 = Ret (tt, lif_mi l1 s1)) as Ez
    by (rewrite (list_destroy_run l1 q); rewrite Em; done).
  destruct (destroy_if_run Hlist_sem (lif_mi l1 s1) (handles_ok_mi _ _ K1)) as (l2 & E2 & K2 & R2 & H2).
  destruct (destroy_if_run Hlist_name l2 K2) as (l3 & E3 & K3 & R3 & H3).
  destruct (destroy_if_run Hlist_lock l3 K3) as (l4 & E4 & K4 & R4 & H4).
  destruct (destroy_if_run Hsrsp_semaphore l4 K4) as (l5 & E5 & K5 & R5 & H5).
  destruct (destroy_if_run Htx_ack_semaphore l5 K5) as (l6 & E6 & K6 & R6 & H6).
  destruct (destroy_if_run Htx_lock l6 K6) as (l7 & E7 & K7 & R7 & H7).
  assert ((zoom MT_MSG_LIST_destroy;; destroy_if Hlist_sem;; destroy_if Hlist_name) l1 = Ret (tt, l3))
    as Eall by (run_step Ez; run_step E2; exact E3).
  run_step E0. run_step E1. run_step Eall. run_step E4. run_step E5. run_step E6.
  assert (forall h, held l7 h = false) as Hall.
  { intros h. rewrite H7. unfold upd. rewrite H6. unfold upd. rewrite H5. unfold upd.
    rewrite H4. unfold upd. rewrite H3. unfold upd. rewrite H2. unfold upd. cbn [lif_mi held].
    rewrite H1. unfold upd. rewrite H0. unfold upd. by destruct h. }
  exists l7. split; [exact E7|]. split; [|split; [done|]].
  - destruct (live l7) as [|h lv] eqn:El; [done|]. exfalso.
    assert (held l7 h = true) as Ht by (apply K7; rewrite El; by left). by rewrite Hall in Ht.
  - etrans; [|exact R7]. etrans; [|exact R6]. etrans; [|exact R5]. etrans; [|exact R4].
    etrans; [|exact R3]. etrans; [|exact R2]. destruct R0 as [], R1 as [].
    constructor; cbn; try congruence. destruct_and!. split; congruence.
Qed.

(** Everything an interface owns is released. *)
Lemma interfaceDestroy_run l q :
  handles_ok l -> messages_ok l q ->
  exists l', MT_MSG_interfaceDestroy l = Ret (tt, l') /\
    live l' = [] /\ (forall h, held l' h = false) /\ is_dead l' = true /\
    pCurRxMsg l' = None /\ rx_list (mi l') = None /\ pCurSreq (mi l') = None /\
    forall p, heap (mi l') !! p =
      if decide (p ∈ option_list (pCurRxMsg l) ++ q ++ option_list (pCurSreq (mi l)))
      then None else heap (mi l) !! p.
Proof.
  intros Hk [Hi Hr Hc Hs]. unfold MT_MSG_interfaceDestroy.
  run_modify.
  set (l0 := lif_dead l true). run_get.
  set (cur := option_list (pCurRxMsg l)).
  set (s1 := set_heap (mi l) (without (heap (mi l)) cur)).
  set (l1 := lif_cur (lif_mi l0 s1) None).
  assert ((match pCurRxMsg l0 with
    | Some p => zoom (MT_MSG_free (Some p));; modify (fun l => lif_cur l None)
    | None => mret tt
    end) l0 = Ret (tt, l1)) as E1.
  { change (pCurRxMsg l0) with (pCurRxMsg l).
    assert (MT_MSG_free (pCurRxMsg l) (mi l0) = Ret (tt, s1)) as Ef
      by (apply free_option; intros p Hp; apply (Hc p Hp)).
    unfold l1, s1, cur. destruct (pCurRxMsg l) as [p|] eqn:Ec.
    - run_step (zoom_run _ _ _ _ Ef). done.
    - cbn. unfold l0. destruct l as [[] ? ? ? ? ? ? ?]. cbn in Ec. by rewrite Ec. }
  run_step E1.
  assert (forall p, p ∈ q -> p ∉ cur) as Hdis.
  { intros p Hp Hx%option_list_elem. by destruct (Hc p Hx) as [_ ?]. }
  assert (list_inv s1 q) as Hi1.
  { destruct Hi as [Hch Hn]. constructor; [|done]. unfold s1. cbn [set_heap heap rx_list].
    clear -Hch Hdis. unfold cur in *. destruct (pCurRxMsg l) as [c|]; [|done]. cbn.
    apply chain_delete_other; [done|]. intros Hp. apply (Hdis c Hp). by left. }
  assert (no_responses (heap s1) q) as Hr1.
  { intros p m Hp Hm. eapply Hr; [done|]. unfold s1 in Hm. cbn [set_heap heap] in Hm.
    by rewrite lookup_without, decide_False in Hm by by apply Hdis. }
  destruct (close_all_run l1 q) as (l2 & E2 & L2 & F2 & [M2 D2 C2 _ _]); [by destruct Hk|done|done|].
  run_step E2. run_get.
  change (mi l1) with s1 in M2. cbn [lif_mi mi] in M2.
  assert (pCurSreq (mi l2) = pCurSreq (mi l)) as Eq by (by rewrite M2).
  assert (heap (mi l2) = without (without (heap (mi l)) cur) q) as Eh by (by rewrite M2).
  assert (MT_MSG_free (pCurSreq (mi l2)) (mi l2) =
    Ret (tt, set_heap (mi l2) (without (heap (mi l2)) (option_list (pCurSreq (mi l2)))))) as Ef.
  { apply free_option. intros p Hp. rewrite Eq in Hp. destruct (Hs p Hp) as (Hlo & Hpq & Hpc).
    apply (lone_without s1 _ q); [by rewrite Eh| |done].
    apply (lone_without (mi l) _ cur); [done|done|]. intros Hx%option_list_elem. done. }
  run_step (zoom_run _ _ _ _ Ef). eexists. split; [reflexivity|].
  cbn [lif_mi mi live held is_dead pCurRxMsg set_sreq set_heap rx_list pCurSreq heap].
  split; [done|]. split; [done|]. split; [by rewrite D2|]. split; [by rewrite C2|].
  split; [by rewrite M2|]. split; [done|]. intros p. rewrite Eq, Eh, !lookup_without. clear.
  destruct (decide (p ∈ cur)), (decide (p ∈ q)), (decide (p ∈ option_list (pCurSreq (mi l)))),
    (decide (p ∈ cur ++ q ++ option_list (pCurSreq (mi l)))) as [Hx|Hx];
    try done; exfalso; rewrite !elem_of_app in Hx; tauto.
Qed.

(** destroying an interface destroys each handle it has exactly once and
    none that it does not have, frees the messages it owns (received, being
    received, pending) and no other, without touching freed memory, and leaves
    it so that destroying it again does nothing. *)
Theorem mt_interfaceDestroy_releases l q :
  handles_ok l -> messages_ok l q ->
  exists l', MT_MSG_interfaceDestroy l = Ret (tt, l') /\
    live l' = [] /\ (forall h, held l' h = false) /\
    (forall p, heap (mi l') !! p =
       if decide (p ∈ option_list (pCurRxMsg l) ++ q ++ option_list (pCurSreq (mi l)))
       then None else heap (mi l) !! p) /\
    exists l'', MT_MSG_interfaceDestroy l' = Ret (tt, l'') /\ live l'' = [] /\
      heap (mi l'') = heap (mi l').
Proof.
  intros Hk Hm. destruct (interfaceDestroy_run l q Hk Hm) as (l1 & E1 & L1 & F1 & _ & C1 & R1 & S1 & H1).
  exists l1. do 4 (split; [done|]).
  destruct (interfaceDestroy_run l1 []) as (l2 & E2 & L2 & _ & _ & _ & _ & _ & H2).
  - constructor; rewrite L1; [apply NoDup_nil_2|]. intros h. rewrite F1.
    split; [by intros ?%elem_of_nil|done].
  - constructor; try congruence; [constructor; [done|apply NoDup_nil_2]|].
    by intros ? ? ?%elem_of_nil.
  - exists l2. split; [done|]. split; [done|]. apply map_eq. intros p. by rewrite H2, C1, S1.
Qed.

(** ** Creation *)

(** An interface before its creation: nothing but perhaps a connection. *)
Record blank (l : lif) : Prop := MkBlank {
  bl_ok : handles_ok l;
  bl_held : forall h, h <> Hstream -> held l h = false;
  bl_stream : (s_cfg l = Some false \/ (s_cfg l = None /\ u_cfg l = true)) -> held l Hstream = false;
  bl_cur : pCurRxMsg l = None;
  bl_list : rx_list (mi l) = None;
  bl_sreq : pCurSreq (mi l) = None
}.

(** No message is owned. *)
Definition no_messages (l : lif) : Prop :=
  pCurRxMsg l = None /\ rx_list (mi l) = None /\ pCurSreq (mi l) = None.

Lemma no_messages_ok l : no_messages l -> messages_ok l [].
Proof.
  intros (C & R & S). constructor; try congruence; [constructor; [done|apply NoDup_nil_2]|].
  by intros ? ? ?%elem_of_nil.
Qed.

Lemma create_bad_run l :
  handles_ok l -> no_messages l ->
  exists l', create_bad l = Ret (-1, l') /\ live l' = [] /\ (forall h, held l' h = false) /\
    heap (mi l') = heap (mi l).
Proof.
  intros Hk Hm. pose proof Hm as (C & R & S).
  destruct (interfaceDestroy_run l [] Hk (no_messages_ok l Hm)) as (l' & E & L & F & _ & _ & _ & _ & H).
  exists l'. unfold create_bad. split; [by run_step E|]. split; [done|]. split; [done|].
  apply map_eq. intros p. by rewrite H, C, S.
Qed.

Lemma open_stream_run o l :
  blank l ->
  exists l', open_stream o l = Ret (tt, l') /\ handles_ok l' /\ same_rest l l' /\
    forall h, h <> Hstream -> held l' h = false.
Proof.
  intros [Hk Hh Hs _ _ _]. unfold open_stream. run_get.
  destruct (s_cfg l) as [[]|] eqn:Es.
  - exists l. done.
  - destruct (create_run Hstream (os_socket o) l Hk (Hs (or_introl eq_refl))) as (l1 & E1 & K1 & R1 & H1).
    run_step E1. destruct (os_socket o).
    + destruct (os_connect o <? 0).
      * destruct (destroy_run Hstream l1 K1) as (l2 & E2 & K2 & R2 & H2); [by rewrite H1, upd_eq|].
        exists l2. split; [done|]. split; [done|]. split; [by etrans|].
        intros h Hne. rewrite H2, upd_ne, H1, upd_ne by done. auto.
      * exists l1. split; [done|]. split; [done|]. split; [done|].
        intros h Hne. rewrite H1, upd_ne by done. auto.
    + exists l1. split; [done|]. split; [done|]. split; [done|].
      intros h Hne. rewrite H1, upd_ne by done. auto.
  - destruct (u_cfg l); [|by exists l].
    destruct (create_run Hstream (os_uart o) l Hk) as (l1 & E1 & K1 & R1 & H1); [by apply Hs; right|].
    exists l1. split; [done|]. split; [done|]. split; [done|].
    intros h Hne. rewrite H1, upd_ne by done. auto.
Qed.

(** The list is made, or what was made of it is taken back. *)
Lemma list_create_run o l :
  handles_ok l -> no_messages l -> held l Hlist_name = false -> held l Hlist_sem = false ->
  exists r l', MT_MSG_LIST_create o l = Ret (r, l') /\ handles_ok l' /\ no_messages l' /\
    heap (mi l') = heap (mi l) /\ cfg (mi l') = cfg (mi l) /\ tmo l' = tmo l /\
    ((r = 0 /\ held l' Hlist_name = true /\ held l' Hlist_sem = true) \/ r = -1) /\
    forall h, h <> Hlist_name -> h <> Hlist_sem -> held l' h = held l h.
Proof.
  intros [Hn Hh] (C & R & S) H1 H2. unfold MT_MSG_LIST_create.
  run_modify.
  set (l0 := lif_mi _ _).
  assert (forall h, held l0 h = held l h) as F0.
  { intros h. cbn [l0 lif_mi held lif_held]. unfold upd. repeat case_decide; congruence. }
  assert (handles_ok l0) as K0 by (constructor; [done|intros h; rewrite F0; apply Hh]).
  destruct (create_run Hlist_name (os_name o) l0 K0) as (l1 & E1 & K1 & [M1 D1 C1 T1 _] & F1);
    [by rewrite F0|].
  destruct (create_run Hlist_sem (os_list_sem o) l1 K1) as (l2 & E2 & K2 & [M2 D2 C2 T2 _] & F2).
  { rewrite F1, upd_ne, F0 by done. done. }
  run_step E1. run_step E2. run_modify.
  set (l3 := lif_mi l2 _). run_get.
  change (held l3) with (held l2). assert (handles_ok l3) as K3 by by apply handles_ok_mi.
  rewrite F2, upd_ne, F1, upd_eq, F2, upd_eq by done.
  assert (forall h, h <> Hlist_name -> h <> Hlist_sem -> held l3 h = held l h) as Fr.
  { intros h Ha Hb. change (held l3 h) with (held l2 h). by rewrite F2, upd_ne, F1, upd_ne, F0. }
  assert (heap (mi l3) = heap (mi l) /\ cfg (mi l3) = cfg (mi l) /\ rx_list (mi l3) = None /\
          pCurSreq (mi l3) = None) as (G1 & G2 & G3 & G4).
  { cbn [l3 lif_mi mi set_rx_list heap cfg rx_list pCurSreq]. rewrite M2, M1. done. }
  assert (pCurRxMsg l3 = None) as G5 by (cbn [l3 lif_mi pCurRxMsg]; rewrite C2, C1; exact C).
  assert (tmo l3 = tmo l) as G6 by (cbn [l3 lif_mi tmo]; rewrite T2, T1; done).
  destruct (os_name o && os_list_sem o) eqn:Eo.
  - apply andb_true_iff in Eo as [Ea Eb]. rewrite Ea, Eb. cbn [negb orb].
    exists 0, l3. split; [done|]. split; [done|]. split; [done|]. do 2 (split; [done|]).
    split; [done|]. split; [|done]. left. split; [done|].
    change (held l3) with (held l2). rewrite F2, upd_ne, F1, upd_eq, F2, upd_eq by done. done.
  - assert (negb (os_name o) || negb (os_list_sem o) = true) as -> by (by destruct (os_name o), (os_list_sem o)).
    assert (zoom MT_MSG_LIST_destroy l3 =
      Ret (tt, lif_mi l3 (set_rx_list (set_heap (mi l3) (heap (mi l3))) None))) as Ez.
    { apply (list_destroy_run l3 []); [constructor; [done|apply NoDup_nil_2]|].
      by intros ? ? ?%elem_of_nil. }
    set (l4 := lif_mi l3 _) in Ez.
    destruct (destroy_if_run Hlist_sem l4 (handles_ok_mi _ _ K3)) as (l5 & E5 & K5 & [M5 D5 C5 T5 _] & F5).
    destruct (destroy_if_run Hlist_name l5 K5) as (l6 & E6 & K6 & [M6 D6 C6 T6 _] & F6).
    assert (list_destroy_all l3 = Ret (tt, l6)) as Ed
      by (unfold list_destroy_all; run_step Ez; run_step E5; exact E6).
    run_step Ed. exists (-1), l6. split; [done|]. split; [done|].
    assert (mi l6 = mi l4) as M46 by congruence.
    split; [split; [|rewrite M46; split; [done|done]]; rewrite C6, C5; done|].
    rewrite M46. do 2 (split; [done|]). split; [rewrite T6, T5; exact G6|].
    split; [by right|]. intros h Ha Hb. rewrite F6, upd_ne, F5, upd_ne by done. by apply Fr.
Qed.

(** What [MT_MSG_interfaceCreate] leaves behind. *)
Definition created (l : lif) (r : Z) (l' : lif) : Prop :=
  heap (mi l') = heap (mi l) /\
  ((r = 0 /\ NoDup (live l') /\ (forall h, h ∈ live l' /\ held l' h = true) /\
    cfg (mi l') = cfg (mi (set_defaults l)) /\ tmo l' = tmo (set_defaults l)) \/
   (r = -1 /\ live l' = [] /\ forall h, held l' h = false)).

Lemma created_bad l l0 :
  handles_ok l -> no_messages l -> heap (mi l) = heap (mi l0) ->
  exists l', create_bad l = Ret (-1, l') /\ created l0 (-1) l'.
Proof.
  intros Hk Hm Hh. destruct (create_bad_run l Hk Hm) as (l' & E & L & F & H).
  exists l'. split; [done|]. split; [congruence|]. by right.
Qed.

(** The second half, once the connection and the list exist. *)
Lemma create_rest_run o l0 l :
  handles_ok l -> no_messages l -> heap (mi l) = heap (mi l0) -> cfg (mi l) = cfg (mi l0) ->
  tmo l = tmo l0 ->
  (forall h, held l h = bool_decide (h = Hstream \/ h = Hlist_name \/ h = Hlist_sem)) ->
  exists r l', (create Htx_lock (os_tx_lock o);;
      create Hsrsp_semaphore (os_srsp o);;
      create Htx_ack_semaphore (os_ack o);;
      create Hlist_lock (os_list_lock o);;
      l ← get;
      if negb (held l Htx_lock) || negb (held l Hsrsp_semaphore) ||
         negb (held l Htx_ack_semaphore) || negb (held l Hlist_lock) then create_bad
      else
        modify set_defaults;;
        create Hrx_thread (os_thread o);;
        l ← get;
        if negb (held l Hstream) || negb (held l Hrx_thread) then create_bad else mret 0) l =
    Ret (r, l') /\ created l0 r l'.
Proof.
  intros Hk (C & R & S) Hh Hc Ht Hl.
  destruct (create_run Htx_lock (os_tx_lock o) l Hk) as (l1 & E1 & K1 & [M1 _ C1 T1 _] & F1).
  { by rewrite Hl. }
  destruct (create_run Hsrsp_semaphore (os_srsp o) l1 K1) as (l2 & E2 & K2 & [M2 _ C2 T2 _] & F2).
  { by rewrite F1, upd_ne, Hl. }
  destruct (create_run Htx_ack_semaphore (os_ack o) l2 K2) as (l3 & E3 & K3 & [M3 _ C3 T3 _] & F3).
  { by rewrite F2, upd_ne, F1, upd_ne, Hl. }
  destruct (create_run Hlist_lock (os_list_lock o) l3 K3) as (l4 & E4 & K4 & [M4 _ C4 T4 _] & F4).
  { by rewrite F3, upd_ne, F2, upd_ne, F1, upd_ne, Hl. }
  run_step E1. run_step E2. run_step E3. run_step E4.
  run_get.
  assert (mi l4 = mi l) as M by congruence.
  assert (no_messages l4) as N4 by (split_and!; rewrite ?M; congruence).
  assert (heap (mi l4) = heap (mi l0)) as H4 by (by rewrite M).
  destruct (_ || _) eqn:Eb.
  { destruct (created_bad l4 l0) as (l' & E & Hb); try done. by exists (-1), l'. }
  repeat (apply orb_false_iff in Eb as [Eb ?%negb_false_iff]). apply negb_false_iff in Eb.
  run_modify. set (l5 := set_defaults l4).
  destruct (create_run Hrx_thread (os_thread o) l5) as (l6 & E6 & K6 & [M6 _ C6 T6 _] & F6).
  { by destruct K4. }
  { change (held l5) with (held l4). by rewrite F4, upd_ne, F3, upd_ne, F2, upd_ne, F1, upd_ne, Hl. }
  run_step E6. run_get.
  assert (heap (mi l6) = heap (mi l0)) as H6 by (by rewrite M6).
  destruct (_ || _) eqn:Eb2.
  { destruct (created_bad l6 l0) as (l' & E & Hb); try done; [|by exists (-1), l'].
    split_and!; rewrite ?C6, ?M6; apply N4. }
  apply orb_false_iff in Eb2 as [Ea1 Ea2%negb_false_iff].
  exists 0, l6. split; [done|]. split; [done|]. left. split; [done|]. split; [apply K6|].
  assert (forall h, held l6 h = true) as Hall.
  { intros h. destruct (decide (h = Hrx_thread)) as [->|Hne]; [done|].
    rewrite F6, upd_ne by done. change (held l5 h) with (held l4 h).
    destruct h; try done;
      rewrite F4, upd_ne, F3, upd_ne, F2, upd_ne, F1, upd_ne, Hl by done; done. }
  split; [intros h; by rewrite (hk_held l6 K6), Hall|].
  rewrite M6, T6. unfold l5. cbn [set_defaults lif_tmo lif_mi mi cfg tmo].
  rewrite M, Hc. split; [done|]. assert (tmo l4 = tmo l0) as -> by congruence. done.
Qed.

(** creating an interface is all or nothing, whatever of the connection,
    the locks, the semaphores and the thread the system refuses: either the
    result is 0 and every handle exists once, with a default in place of each
    setting that was 0, or the result is -1 and everything that was created
    has been destroyed again, exactly once. *)
Theorem mt_interfaceCreate_all_or_nothing o l :
  blank l -> exists r l', MT_MSG_interfaceCreate o l = Ret (r, l') /\ created l r l'.
Proof.
  intros [Hk Hh Hs C R S]. unfold MT_MSG_interfaceCreate. run_modify.
  set (l0 := lif_dead l false).
  destruct (open_stream_run o l0) as (l1 & E1 & K1 & [M1 _ C1 T1 _] & F1); [by destruct Hk|].
  run_step E1. run_get.
  change (mi l0) with (mi l) in M1.
  assert (no_messages l1) as N1 by (split_and!; rewrite ?M1, ?C1; done).
  destruct (held l1 Hstream) eqn:Est; cbn [negb].
  2:{ destruct (created_bad l1 l) as (l' & E & Hb); try done; [by rewrite M1|]. by exists (-1), l'. }
  destruct (list_create_run o l1) as (r & l2 & E2 & K2 & N2 & H2 & G2 & T2 & Hr & F2);
    [done|done|by apply F1|by apply F1|].
  run_step E2. assert (heap (mi l2) = heap (mi l)) as Hh2 by (by rewrite H2, M1).
  destruct Hr as [(-> & Ha & Hb)| ->]; cbn [Z.eqb negb].
  2:{ destruct (created_bad l2 l) as (l' & E & Hb); try done. by exists (-1), l'. }
  apply (create_rest_run o l l2); try done; [by rewrite G2, M1|by rewrite T2, T1|].
  intros h. destruct (decide (h = Hlist_name)) as [->|]; [by rewrite Ha|].
  destruct (decide (h = Hlist_sem)) as [->|]; [by rewrite Hb|]. rewrite F2 by done.
  destruct (decide (h = Hstream)) as [->|]; [by rewrite Est|].
  rewrite F1 by done. symmetry. apply bool_decide_eq_false. intuition.
Qed.

(** an interface that sent a request cannot be destroyed safely: the
    request was freed but is still recorded as pending, and the destruction
    frees it a second time. *)
Theorem mt_destroy_after_request fuel ackfuel want l q :
  handles_ok l -> messages_ok l q -> ready (mi l) -> pCurRxMsg l = None ->
  (zoom (MT_MSG_getVersion fuel ackfuel want);; MT_MSG_interfaceDestroy) l = Undef Dangling.
Proof.
  intros Hk [Hi Hr _ _] Hrd Hc. pose proof (zoom_run _ l _ _ (getVersion_run fuel ackfuel want _ Hrd)) as E.
  run_step E. set (s1 := after_request _ _ _). unfold MT_MSG_interfaceDestroy. run_modify.
  set (l1 := lif_dead (lif_mi l s1) true). run_get.
  change (pCurRxMsg l1) with (pCurRxMsg l). rewrite Hc.
  run_step (eq_refl (@Ret (unit * lif) (tt, l1))).
  destruct (close_all_run l1 q) as (l2 & E2 & _ & _ & [M2 _ _ _ _]); [by destruct Hk|by destruct Hi|done|].
  run_step E2. run_get. cbn [lif_mi mi] in M2.
  assert (zoom (MT_MSG_free (pCurSreq (mi l2))) l2 = Undef Dangling) as Ef.
  { unfold zoom. rewrite M2. change (pCurSreq _) with (Some (next_ptr (mi l))) at 1.
    set (s2 := set_rx_list _ _). unfold MT_MSG_free. cbn [free_rec].
    assert (heap s2 !! next_ptr (mi l) = None) as Hn.
    { change (heap s2) with (without (heap (mi l)) q). rewrite lookup_without.
      destruct (decide _); [done|]. apply (rd_fresh _ Hrd). lia. }
    unfold mbind, M_bind, load. by rewrite Hn. }
  unfold mbind at 1, M_bind. by rewrite Ef.
Qed.

(** ** Concrete interfaces *)

Definition all_handles : list handle :=
  [Hstream; Hrx_thread; Hlist_name; Hlist_sem; Hlist_lock; Hsrsp_semaphore; Htx_ack_semaphore;
   Htx_lock].
Definition zero_timeouts : timeouts := MkTimeouts 0 0 0 0 0 0.

(** A running interface with messages [1] and [2] received and [3] in progress. *)
Definition demo_lif (s : mif) (cur : option positive) : lif :=
  MkLif s false cur (fun _ => true) all_handles zero_timeouts None true.

Lemma demo_handles s cur : handles_ok (demo_lif s cur).
Proof.
  constructor; [apply (bool_decide_unpack (NoDup _)); by_eval|].
  intros h. split; [done|intros _]. apply (bool_decide_unpack (h ∈ all_handles)). by destruct h.
Qed.

Lemma demo_messages : messages_ok (demo_lif demo_mif (Some 3%positive)) [1%positive; 2%positive].
Proof.
  constructor.
  - exact demo_mif_inv.
  - intros p m [->|[->|[]%elem_of_nil]%elem_of_cons]%elem_of_cons Hp; by injection Hp as <-.
  - intros p [= <-]. split; [by exists demo_msg|].
    apply (bool_decide_unpack (_ ∉ _)). vm_compute. exact I.
  - done.
Qed.

Lemma mt_interfaceDestroy_releases_witness :
  exists l', MT_MSG_interfaceDestroy (demo_lif demo_mif (Some 3%positive)) = Ret (tt, l') /\
    live l' = [] /\ heap (mi l') !! 3%positive = None.
Proof.
  destruct (mt_interfaceDestroy_releases _ _ (demo_handles demo_mif (Some 3%positive)) demo_messages)
    as (l' & E & L & _ & H & _).
  exists l'. split; [exact E|]. split; [exact L|]. rewrite H. reflexivity.
Defined.

(** A UART interface to be created on a system that has no threads left. *)
Definition demo_blank : lif :=
  MkLif (mif_init (MkIface true true true false 0 0 0) demo_world) false None (fun _ => false) []
    zero_timeouts None true.
Definition demo_os : os := MkOs true 0 true true true true true true true false.

Lemma demo_blank_ok : blank demo_blank.
Proof.
  constructor; try done. constructor; [apply NoDup_nil_2|]. intros h.
  split; [by intros ?%elem_of_nil|done].
Qed.

Lemma mt_interfaceCreate_all_or_nothing_witness :
  exists r l', MT_MSG_interfaceCreate demo_os demo_blank = Ret (r, l') /\ r = -1 /\ live l' = [].
Proof.
  destruct (mt_interfaceCreate_all_or_nothing demo_os demo_blank demo_blank_ok)
    as (r & l' & E & _ & H).
  exists r, l'. split; [exact E|].
  assert (r = -1) as Hr by (vm_compute in E; by injection E as <- _).
  split; [exact Hr|]. destruct H as [(H0 & _)|(_ & L & _)]; [lia|exact L].
Defined.

Lemma mt_destroy_after_request_witness :
  (zoom (MT_MSG_getVersion 1 1 true);; MT_MSG_interfaceDestroy)
    (demo_lif (mif_init uart_iface demo_world) None) = Undef Dangling.
Proof.
  apply (mt_destroy_after_request 1 1 true _ [] (demo_handles _ _)).
  - by apply no_messages_ok.
  - exact demo_iface_ready.
  - reflexivity.
Defined.

End MtIface.
