(* ===== verification/ApiMacTypes.v ===== *)
(** * Data of the MAC API (mt_interface/api/inc/api_mac.h, api_mac_linux.h)

    The structures that requests take and indications carry, the constants of
    the message tables, and the wire layout of the parts they share: addresses,
    security settings, capabilities and transmit options.

    The union of a short and an extended address is its eight bytes of
    storage; the short address is the little-endian value of the first two. *)

From Stdlib Require Import ZArith Lia.
From stdpp Require Import base list option numbers.
From S2P Require Import Prelude MtMsg.

Open Scope Z_scope.

Module ApiMacTypes.
Import MtMsg.

(** ** Constants *)

Definition APIMAC_SADDR_EXT_LEN : Z := 8.
Definition APIMAC_KEY_SOURCE_MAX_LEN : Z := 8.
Definition APIMAC_KEY_MAX_LEN : Z := 16.
Definition APIMAC_MAX_KEY_LOOKUP_LEN : Z := 9.
Definition APIMAC_154G_CHANNEL_BITMAP_SIZ : Z := (129 + 7) / 8.
Definition APIMAC_FH_MAX_BIT_MAP_SIZE : Z := 32.
Definition APIMAC_FH_NET_NAME_SIZE_MAX : Z := 32.
Definition APIMAC_FH_GTK_HASH_SIZE : Z := 8.

(** [ApiMac_addrType_t]. *)
Definition addrType_none : Z := 0.
Definition addrType_short : Z := 2.
Definition addrType_extended : Z := 3.

(** [ApiMac_beaconType_t]. *)
Definition beaconType_normal : Z := 0.
Definition beaconType_enhanced : Z := 1.

(** [ApiMac_scantype_t]. *)
Definition scantype_energyDetect : Z := 0.
Definition scantype_active : Z := 1.
Definition scantype_passive : Z := 2.
Definition scantype_orphan : Z := 3.
Definition scantype_activeEnhanced : Z := 5.

(** The members of [ApiMac_status_t] the module uses. *)
Definition status_success : Z := 0.
Definition status_invalidParameter : Z := 0xE8.
Definition status_unsupportedAttribute : Z := 0xF4.
Definition status_unsupported : Z := 0x18.
Definition status_badState : Z := 0x19.
Definition status_noResources : Z := 0x1A.
Definition status_noData : Z := 0xEB.

(** [int8_t] from a byte. *)
Definition int8 (z : Z) : Z := (z + 2 ^ 7) mod 2 ^ 8 - 2 ^ 7.
(** [bool] from a byte. *)
Definition to_bool (z : Z) : bool := negb (z =? 0).

(** ** Shared parts *)

Record ApiMac_sAddr : Type := MkAddr {
  addrMode : Z;
  addr : list Z
}.

Definition sAddr_zero : ApiMac_sAddr := MkAddr 0 (replicate 8 0).

(** [addr.shortAddr]. *)
Definition shortAddr (a : ApiMac_sAddr) : Z := le_val (take 2 (addr a)).

Record ApiMac_sec : Type := MkSec {
  keySource : list Z;
  securityLevel : Z;
  keyIdMode : Z;
  keyIndex : Z
}.

Definition sec_zero : ApiMac_sec := MkSec (replicate 8 0) 0 0 0.

(** [ApiMac_sData_t]: the bytes behind the pointer ([None] for a null pointer)
    and the length. *)
Record ApiMac_sData : Type := MkData {
  sd_p : option (list Z);
  sd_len : Z
}.

Record ApiMac_capabilityInfo : Type := MkCap {
  panCoord : bool;
  ffd : bool;
  mainsPower : bool;
  rxOnWhenIdle : bool;
  security : bool;
  allocAddr : bool
}.

Record ApiMac_txOptions : Type := MkTxOptions {
  ack : bool;
  indirect : bool;
  pendingBit : bool;
  noRetransmits : bool;
  noConfirm : bool;
  useAltBE : bool;
  usePowerAndChannel : bool;
  useGreenPower : bool
}.

(** ** Indications and confirmations *)

Record ApiMac_mcpsDataInd : Type := MkDataInd {
  di_srcAddr : ApiMac_sAddr;
  di_dstAddr : ApiMac_sAddr;
  di_timestamp : Z;
  di_timestamp2 : Z;
  di_srcPanId : Z;
  di_dstPanId : Z;
  di_mpduLinkQuality : Z;
  di_correlation : Z;
  di_rssi : Z;
  di_dsn : Z;
  di_payloadIeLen : Z;
  di_pPayloadIE : option (list Z);
  di_fhFrameType : Z;
  di_fhProtoDispatch : Z;
  di_frameCntr : Z;
  di_sec : ApiMac_sec;
  di_msdu : ApiMac_sData
}.

Record ApiMac_mcpsDataCnf : Type := MkDataCnf {
  dc_status : Z;
  dc_msduHandle : Z;
  dc_timestamp : Z;
  dc_timestamp2 : Z;
  dc_retries : Z;
  dc_mpduLinkQuality : Z;
  dc_correlation : Z;
  dc_rssi : Z;
  dc_frameCntr : Z
}.

Record ApiMac_panDesc : Type := MkPanDesc {
  pd_coordAddress : ApiMac_sAddr;
  pd_coordPanId : Z;
  pd_superframeSpec : Z;
  pd_logicalChannel : Z;
  pd_channelPage : Z;
  pd_gtsPermit : bool;
  pd_linkQuality : Z;
  pd_timestamp : Z;
  pd_securityFailure : bool;
  pd_sec : ApiMac_sec
}.

Definition panDesc_zero : ApiMac_panDesc :=
  MkPanDesc sAddr_zero 0 0 0 0 false 0 0 false sec_zero.

(** [ApiMac_beaconData_t]; a pointer is the memory behind it. *)
Record ApiMac_beaconData : Type := MkBeacon {
  numPendShortAddr : Z;
  pShortAddrList : option (list Z);
  numPendExtAddr : Z;
  pExtAddrList : option (list Z);
  sduLength : Z;
  pSdu : option (list Z)
}.

Record ApiMac_coexist : Type := MkCoexist {
  co_beaconOrder : Z;
  co_superFrameOrder : Z;
  co_finalCapSlot : Z;
  co_eBeaconOrder : Z;
  co_offsetTimeSlot : Z;
  co_capBackOff : Z;
  co_eBeaconOrderNBPAN : Z
}.

(** The union [beaconData] of [ApiMac_mlmeBeaconNotifyInd_t]. *)
Inductive beaconData_u : Type :=
| U_beacon (b : ApiMac_beaconData)
| U_eBeacon (c : ApiMac_coexist).

Record ApiMac_mlmeBeaconNotifyInd : Type := MkBeaconNotify {
  bn_beaconType : Z;
  bn_bsn : Z;
  bn_panDesc : ApiMac_panDesc;
  bn_beaconData : beaconData_u
}.

(** The union [result] of [ApiMac_mlmeScanCnf_t]: the memory behind its
    pointer, [ScanNone] for a null pointer. *)
Inductive scan_result : Type :=
| ScanNone
| EnergyDetect (b : list Z)
| PanDescriptor (l : list ApiMac_panDesc).

Record ApiMac_mlmeScanCnf : Type := MkScanCnf {
  sc_status : Z;
  sc_scanType : Z;
  sc_channelPage : Z;
  sc_phyId : Z;
  sc_unscannedChannels : list Z;
  sc_resultListSize : Z;
  sc_result : scan_result
}.

Record ApiMac_mlmeAssociateInd : Type := MkAssocInd {
  ai_deviceAddress : list Z;
  ai_capabilityInformation : ApiMac_capabilityInfo;
  ai_sec : ApiMac_sec
}.
Record ApiMac_mlmeAssociateCnf : Type := MkAssocCnf {
  ac_status : Z;
  ac_assocShortAddress : Z;
  ac_sec : ApiMac_sec
}.
Record ApiMac_mlmeDisassociateInd : Type := MkDisInd {
  ii_deviceAddress : list Z;
  ii_disassociateReason : Z;
  ii_sec : ApiMac_sec
}.
Record ApiMac_mlmeDisassociateCnf : Type := MkDisCnf {
  ic_status : Z;
  ic_deviceAddress : ApiMac_sAddr;
  ic_panId : Z
}.
Record ApiMac_mlmeOrphanInd : Type := MkOrphanInd {
  oi_orphanAddress : list Z;
  oi_sec : ApiMac_sec
}.
Record ApiMac_mlmeSyncLossInd : Type := MkSyncLoss {
  sl_reason : Z;
  sl_panId : Z;
  sl_logicalChannel : Z;
  sl_channelPage : Z;
  sl_phyID : Z;
  sl_sec : ApiMac_sec
}.
Record ApiMac_mlmeCommStatusInd : Type := MkCommStatus {
  cs_status : Z;
  cs_srcAddr : ApiMac_sAddr;
  cs_dstAddr : ApiMac_sAddr;
  cs_panId : Z;
  cs_reason : Z;
  cs_sec : ApiMac_sec
}.
Record ApiMac_mlmePollInd : Type := MkPollInd {
  pi_srcAddr : ApiMac_sAddr;
  pi_srcPanId : Z;
  pi_noRsp : bool
}.

(** ** Requests

    A pointer with its length is the memory behind it ([None] for a null
    pointer) and the length. *)

Record ApiMac_mcpsDataReq_t : Type := MkDataReq {
  dr_dstAddr : ApiMac_sAddr;
  dr_dstPanId : Z;
  dr_srcAddrMode : Z;
  dr_msduHandle : Z;
  dr_txOptions : ApiMac_txOptions;
  dr_channel : Z;
  dr_power : Z;
  dr_pIEList : option (list Z);
  dr_payloadIELen : Z;
  dr_fhProtoDispatch : Z;
  dr_includeFhIEs : Z;
  dr_msdu : ApiMac_sData;
  dr_sec : ApiMac_sec;
  dr_gpOffset : Z;
  dr_gpDuration : Z
}.
Record ApiMac_mlmeAssociateReq_t : Type := MkAssocReq {
  ar_sec : ApiMac_sec;
  ar_logicalChannel : Z;
  ar_channelPage : Z;
  ar_phyID : Z;
  ar_coordAddress : ApiMac_sAddr;
  ar_coordPanId : Z;
  ar_capabilityInformation : ApiMac_capabilityInfo
}.
Record ApiMac_mlmeAssociateRsp_t : Type := MkAssocRsp {
  as_sec : ApiMac_sec;
  as_deviceAddress : list Z;
  as_assocShortAddress : Z;
  as_status : Z
}.
Record ApiMac_mlmeDisassociateReq_t : Type := MkDisReq {
  ir_sec : ApiMac_sec;
  ir_deviceAddress : ApiMac_sAddr;
  ir_devicePanId : Z;
  ir_disassociateReason : Z;
  ir_txIndirect : bool
}.
Record ApiMac_mlmeOrphanRsp_t : Type := MkOrphanRsp {
  or_sec : ApiMac_sec;
  or_orphanAddress : list Z;
  or_shortAddress : Z;
  or_associatedMember : bool
}.
Record ApiMac_mlmePollReq_t : Type := MkPollReq {
  pr_coordAddress : ApiMac_sAddr;
  pr_coordPanId : Z;
  pr_sec : ApiMac_sec
}.
Record ApiMac_mlmeScanReq_t : Type := MkScanReq {
  sr_scanChannels : list Z;
  sr_scanType : Z;
  sr_scanDuration : Z;
  sr_channelPage : Z;
  sr_phyID : Z;
  sr_maxResults : Z;
  sr_permitJoining : bool;
  sr_linkQuality : Z;
  sr_percentFilter : Z;
  sr_sec : ApiMac_sec;
  sr_MPMScan : bool;
  sr_MPMScanType : Z;
  sr_MPMScanDuration : Z
}.
Record ApiMac_mpmParams : Type := MkMpm {
  mp_eBeaconOrder : Z;
  mp_offsetTimeSlot : Z;
  mp_NBPANEBeaconOrder : Z;
  mp_pIEIDs : option (list Z);
  mp_numIEs : Z
}.
Record ApiMac_mlmeStartReq_t : Type := MkStartReq {
  st_startTime : Z;
  st_panId : Z;
  st_logicalChannel : Z;
  st_channelPage : Z;
  st_phyID : Z;
  st_beaconOrder : Z;
  st_superframeOrder : Z;
  st_panCoordinator : bool;
  st_batteryLifeExt : bool;
  st_coordRealignment : bool;
  st_realignSec : ApiMac_sec;
  st_beaconSec : ApiMac_sec;
  st_mpmParams : ApiMac_mpmParams;
  st_startFH : bool
}.
Record ApiMac_mlmeSyncReq_t : Type := MkSyncReq {
  sy_logicalChannel : Z;
  sy_channelPage : Z;
  sy_phyID : Z;
  sy_trackBeacon : Z
}.
Record ApiMac_mlmeWSAsyncReq_t : Type := MkWSAsyncReq {
  wr_sec : ApiMac_sec;
  wr_operation : Z;
  wr_frameType : Z;
  wr_channels : list Z
}.
Record ApiMac_secAddDevice_t : Type := MkAddDevice {
  ad_panID : Z;
  ad_shortAddr : Z;
  ad_extAddr : list Z;
  ad_exempt : bool;
  ad_keyIdLookupDataSize : Z;
  ad_keyIdLookupData : list Z;
  ad_frameCounter : Z;
  ad_uniqueDevice : bool;
  ad_duplicateDevFlag : bool
}.
Record ApiMac_secAddKeyInitFrameCounter_t : Type := MkAddKey {
  ak_key : list Z;
  ak_frameCounter : Z;
  ak_replaceKeyIndex : Z;
  ak_newKeyFlag : bool;
  ak_lookupDataSize : Z;
  ak_lookupData : list Z
}.

(** ** Entries of the security tables *)

Record ApiMac_securityPibKeyIdLookupEntry : Type := MkKeyIdLookup {
  kl_keyIndex : Z;
  kl_keyIdLookupIndex : Z;
  kl_lookupData : list Z;
  kl_lookupDataSize : Z
}.
Record ApiMac_securityPibKeyDeviceEntry : Type := MkKeyDevice {
  kd_keyIndex : Z;
  kd_keyDeviceIndex : Z;
  kd_deviceDescriptorHandle : Z;
  kd_uniqueDevice : bool;
  kd_blackListed : bool
}.
Record ApiMac_securityPibKeyUsageEntry : Type := MkKeyUsage {
  ku_keyIndex : Z;
  ku_keyUsageIndex : Z;
  ku_frameType : Z;
  ku_cmdFrameId : Z
}.
Record ApiMac_securityPibKeyEntry : Type := MkKeyEntry {
  ke_keyIndex : Z;
  ke_keyEntry : list Z;
  ke_frameCounter : Z
}.
(** The frame counter and the key index of the one node key
    ([API_MAX_NODE_KEY_ENTRIES]); [None] for a null [frameCntr]. *)
Record ApiMac_securityPibDeviceEntry : Type := MkDeviceEntry {
  de_deviceIndex : Z;
  de_panID : Z;
  de_shortAddress : Z;
  de_extAddress : list Z;
  de_frameCntr : option (Z * Z);
  de_exempt : bool
}.
Record ApiMac_securityPibSecurityLevelEntry : Type := MkLevelEntry {
  le_levelIndex : Z;
  le_frameType : Z;
  le_commandFrameIdentifier : Z;
  le_securityMinimum : Z;
  le_securityOverrideSecurityMinimum : bool
}.

(** ** Attributes of the MAC tables the common routines name *)

Definition attribute_beaconPayload : Z := 0x45.
Definition attribute_coordExtendedAddress : Z := 0x4A.
Definition attribute_extendedAddress : Z := 0xE2.
Definition securityAttribute_securityLevelTableEntries : Z := 0x83.
Definition securityAttribute_autoRequestSecurityLevel : Z := 0x85.
Definition securityAttribute_autoRequestKeyIdMode : Z := 0x86.
Definition securityAttribute_autoRequestKeyIndex : Z := 0x88.
Definition securityAttribute_keyTableEntries : Z := 0x81.
Definition securityAttribute_deviceTableEntries : Z := 0x82.
Definition securityAttribute_panCoordShortAddress : Z := 0x8B.
Definition securityAttribute_autoRequestKeySource : Z := 0x87.
Definition securityAttribute_defaultKeySource : Z := 0x89.
Definition securityAttribute_panCoordExtendedAddress : Z := 0x8A.
Definition securityAttribute_keyTable : Z := 0x71.
Definition securityAttribute_keyIdLookupEntry : Z := 0xD0.
Definition securityAttribute_keyDeviceEntry : Z := 0xD1.
Definition securityAttribute_keyUsageEntry : Z := 0xD2.
Definition securityAttribute_keyEntry : Z := 0xD3.
Definition securityAttribute_deviceEntry : Z := 0xD4.
Definition securityAttribute_securityLevelEntry : Z := 0xD5.
Definition FHAttribute_trackParentEUI : Z := 0x2000.
Definition FHAttribute_unicastExcludedChannels : Z := 0x2002.
Definition FHAttribute_broadcastExcludedChannels : Z := 0x2003.
Definition FHAttribute_netName : Z := 0x2013.
Definition FHAttribute_gtk0Hash : Z := 0x2015.
Definition FHAttribute_gtk1Hash : Z := 0x2016.
Definition FHAttribute_gtk2Hash : Z := 0x2017.
Definition FHAttribute_gtk3Hash : Z := 0x2018.

(** ** Wire layout of the shared parts

    A list of fields is a sequence of typed writes, one call for each. *)

(** A [bool], written as one byte. *)
Definition bool_field (b : bool) : field := F8 (if b then 1 else 0).

(** [encode_Sec]. *)
Definition encode_Sec (s : ApiMac_sec) : list field :=
  [FBuf (keySource s); F8 (securityLevel s); F8 (keyIdMode s); F8 (keyIndex s)].

(** [encode_Addr]. *)
Definition encode_Addr (a : ApiMac_sAddr) : list field :=
  F8 (addrMode a) ::
  if addrMode a =? addrType_none then replicate 8 (F8 0)
  else if addrMode a =? addrType_short then F16 (shortAddr a) :: replicate 6 (F8 0)
  else if addrMode a =? addrType_extended then F8 <$> addr a
  else [F32 0; F32 0].

Definition CAPABLE_PAN_COORD : Z := 0x01.
Definition CAPABLE_FFD : Z := 0x02.
Definition CAPABLE_MAINS_POWER : Z := 0x04.
Definition CAPABLE_RX_ON_IDLE : Z := 0x08.
Definition CAPABLE_SECURITY : Z := 0x40.
Definition CAPABLE_ALLOC_ADDR : Z := 0x80.

(** [if (b) { v |= bit; }] *)
Definition or_if (b : bool) (bit v : Z) : Z := if b then Z.lor v bit else v.

Definition ApiMac_convertCapabilityInfo (p : ApiMac_capabilityInfo) : Z :=
  let c := 0 in
  let c := or_if (panCoord p) CAPABLE_PAN_COORD c in
  let c := or_if (ffd p) CAPABLE_FFD c in
  let c := or_if (mainsPower p) CAPABLE_MAINS_POWER c in
  let c := or_if (rxOnWhenIdle p) CAPABLE_RX_ON_IDLE c in
  let c := or_if (security p) CAPABLE_SECURITY c in
  let c := or_if (allocAddr p) CAPABLE_ALLOC_ADDR c in
  u8 c.

(** [if (v & bit)] *)
Definition has_bit (v bit : Z) : bool := negb (Z.land v bit =? 0).

(** The bits are only ever set: [p] is what the structure holds before. *)
Definition ApiMac_buildMsgCapInfo (cInfo : Z) (p : ApiMac_capabilityInfo) : ApiMac_capabilityInfo :=
  MkCap (panCoord p || has_bit cInfo CAPABLE_PAN_COORD) (ffd p || has_bit cInfo CAPABLE_FFD)
    (mainsPower p || has_bit cInfo CAPABLE_MAINS_POWER)
    (rxOnWhenIdle p || has_bit cInfo CAPABLE_RX_ON_IDLE)
    (security p || has_bit cInfo CAPABLE_SECURITY)
    (allocAddr p || has_bit cInfo CAPABLE_ALLOC_ADDR).

Definition cap_zero : ApiMac_capabilityInfo := MkCap false false false false false false.

Definition MAC_TXOPTION_ACK : Z := 0x0001.
Definition MAC_TXOPTION_INDIRECT : Z := 0x0004.
Definition MAC_TXOPTION_PEND_BIT : Z := 0x0008.
Definition MAC_TXOPTION_NO_RETRANS : Z := 0x0010.
Definition MAC_TXOPTION_NO_CNF : Z := 0x0020.
Definition MAC_TXOPTION_ALT_BE : Z := 0x0040.
Definition MAC_TXOPTION_PWR_CHAN : Z := 0x0080.

Definition convertTxOptions (o : ApiMac_txOptions) : Z :=
  let r := 0 in
  let r := or_if (ack o) MAC_TXOPTION_ACK r in
  let r := or_if (indirect o) MAC_TXOPTION_INDIRECT r in
  let r := or_if (pendingBit o) MAC_TXOPTION_PEND_BIT r in
  let r := or_if (noRetransmits o) MAC_TXOPTION_NO_RETRANS r in
  let r := or_if (noConfirm o) MAC_TXOPTION_NO_CNF r in
  let r := or_if (useAltBE o) MAC_TXOPTION_ALT_BE r in
  let r := or_if (usePowerAndChannel o) MAC_TXOPTION_PWR_CHAN r in
  u16 r.

Definition is_bad_addr (p : list Z) : bool := forallb (fun b => b =? 0xff) p.

End ApiMacTypes.
