(* ===== verification/ApiMacInd.v ===== *)
(** * Indications of the MAC API (mt_interface/api/src/api_mac.c)

    An asynchronous message is taken from the list of received messages, found
    in the dispatch table, taken apart by its handler and given to the
    application's callback.  Callbacks belong to the application: the model
    records which one was called and with what.  A handler works on the
    message, on the memory it allocates (the script of the interface may
    refuse an allocation) and on that record. *)

From Stdlib Require Import ZArith Lia.
From stdpp Require Import base list option numbers gmap.
From S2P Require Import Prelude MtMsg MtHeap ApiMacTypes.

Open Scope Z_scope.

Module ApiMacInd.
Import MtMsg MtHeap ApiMacTypes.

(** ** Callbacks *)

(** [ApiMac_callbacks_t]: which function pointers are not null. *)
Record callbacks : Type := MkCallbacks {
  pAssocIndCb : bool;
  pAssocCnfCb : bool;
  pDisassociateIndCb : bool;
  pDisassociateCnfCb : bool;
  pBeaconNotifyIndCb : bool;
  pOrphanIndCb : bool;
  pScanCnfCb : bool;
  pStartCnfCb : bool;
  pSyncLossIndCb : bool;
  pPollCnfCb : bool;
  pCommStatusCb : bool;
  pPollIndCb : bool;
  pDataCnfCb : bool;
  pDataIndCb : bool;
  pResetIndCb : bool;
  pPurgeCnfCb : bool;
  pWsAsyncIndCb : bool;
  pWsAsyncCnfCb : bool;
  pUnprocessedCb : bool
}.

(** A call of a callback with its argument. *)
Inductive indication : Type :=
| AssocInd (x : ApiMac_mlmeAssociateInd)
| AssocCnf (x : ApiMac_mlmeAssociateCnf)
| DisassociateInd (x : ApiMac_mlmeDisassociateInd)
| DisassociateCnf (x : ApiMac_mlmeDisassociateCnf)
| BeaconNotifyInd (x : ApiMac_mlmeBeaconNotifyInd)
| OrphanInd (x : ApiMac_mlmeOrphanInd)
| ScanCnf (x : ApiMac_mlmeScanCnf)
| StartCnf (status : Z)
| SyncLossInd (x : ApiMac_mlmeSyncLossInd)
| PollCnf (status framePending : Z)
| CommStatusInd (x : ApiMac_mlmeCommStatusInd)
| PollInd (x : ApiMac_mlmePollInd)
| DataCnf (x : ApiMac_mcpsDataCnf)
| DataInd (x : ApiMac_mcpsDataInd)
| ResetInd (reason : Z)
| PurgeCnf (status msduHandle : Z)
| WsAsyncInd (x : ApiMac_mcpsDataInd)
| WsAsyncCnf (status : Z)
| Unprocessed (param1 param2 : Z) (pMsg : positive).

(** ** Handlers *)

(** What a handler works on: the message, the script of allocations, the
    number of blocks it holds, the calls made so far. *)
Record hst : Type := MkHst {
  h_msg : mt_msg;
  h_mallocs : list bool;
  h_blocks : Z;
  h_calls : list indication
}.

Abbreviation R := (M hst).

Definition with_msg (h : hst) (m : mt_msg) : hst :=
  MkHst m (h_mallocs h) (h_blocks h) (h_calls h).

Definition rd (f : mt_msg -> outcome (Z * mt_msg)) : R Z := fun h =>
  '(v, m) ← f (h_msg h); Ret (v, with_msg h m).
Definition rdU8 : R Z := rd MT_MSG_rdU8_DBG.
Definition rdU16 : R Z := rd MT_MSG_rdU16_DBG.
Definition rdU32 : R Z := rd MT_MSG_rdU32_DBG.

(** [MT_MSG_rdBuf_DBG] to offset [o] of the memory [dst]; a null [dst] skips. *)
Definition rdBufAt (dst : option (list Z)) (o n : Z) : R (option (list Z)) := fun h =>
  '(d, m) ← MT_MSG_rdBuf_DBG (h_msg h) (bool_decide (is_Some dst)) n;
  dst ← match dst, d with
        | Some b, Some d => b ← mem_write b o d; Ret (Some b)
        | _, _ => Ret dst
        end;
  Ret (dst, with_msg h m).
(** To the start of an array that is not null. *)
Definition rdBuf (dst : list Z) (n : Z) : R (list Z) :=
  d ← rdBufAt (Some dst) 0 n; lift (deref d).
Definition skipBuf (n : Z) : R unit := rdBufAt None 0 n;; mret tt.

Definition parseComplete : R unit := fun h =>
  m ← MT_MSG_parseComplete (h_msg h); Ret (tt, with_msg h m).
Definition msg_is_error : R bool := h ← get; mret (is_error (h_msg h)).
Definition fail_msg : R unit := modify (fun h => with_msg h (set_error (h_msg h))).
Definition get_idx : R Z := h ← get; mret (iobuf_idx (h_msg h)).
Definition set_msg_idx (x : Z) : R unit := modify (fun h => with_msg h (set_idx (h_msg h) x)).
(** What stands at offset [o] of the message. *)
Definition view (o n : Z) : R (list Z) := h ← get; lift (mem_read (iobuf (h_msg h)) o n).

Definition call (x : indication) : R unit :=
  modify (fun h => MkHst (h_msg h) (h_mallocs h) (h_blocks h) (h_calls h ++ [x])).
(** [if(cb) { ( *cb )(&indication); }] *)
Definition call_if (cb : bool) (x : indication) : R unit := if cb then call x else mret tt.

(** The end of most handlers: the whole message was parsed, or nothing is
    delivered. *)
Definition deliver (cb : bool) (x : indication) : R unit :=
  parseComplete;;
  e ← msg_is_error;
  if (e : bool) then mret tt else call_if cb x.

(** [api_mac_callocMem]: was the memory granted? *)
Definition api_mac_callocMem : R bool := fun h =>
  match h_mallocs h with
  | b :: bs => Ret (b, MkHst (h_msg h) bs (h_blocks h + if b then 1 else 0) (h_calls h))
  | [] => Ret (true, MkHst (h_msg h) [] (h_blocks h + 1) (h_calls h))
  end.
(** Zeroed memory of [n] items, or a null pointer. *)
Definition calloc {A} (zero : A) (n : Z) : R (option (list A)) :=
  ok ← api_mac_callocMem;
  mret (if (ok : bool) then Some (replicate (Z.to_nat n) zero) else None).
(** [if(p) { api_mac_freeMem(p); }] *)
Definition api_mac_freeMem {A} (p : option A) : R unit :=
  match p with
  | Some _ => modify (fun h => MkHst (h_msg h) (h_mallocs h) (h_blocks h - 1) (h_calls h))
  | None => mret tt
  end.

(** ** Decoding the shared parts *)

Definition decode_Sec (s : ApiMac_sec) : R ApiMac_sec :=
  k ← rdBuf (keySource s) APIMAC_KEY_SOURCE_MAX_LEN;
  l ← rdU8;
  m ← rdU8;
  i ← rdU8;
  mret (MkSec k l m i).

(** [for(x = x; x < 8; x++) extAddr[x] = MT_MSG_rdU8(pMsg);] with [n] left. *)
Fixpoint rd_ext (n : nat) (x : Z) (b : list Z) : R (list Z) :=
  match n with
  | O => mret b
  | S n => v ← rdU8; b ← lift (mem_write b x [v]); rd_ext n (x + 1) b
  end.
Fixpoint rd_filler (n : nat) : R unit :=
  match n with O => mret tt | S n => rdU8;; rd_filler n end.

(** [decode_Addr] into the structure [a]. *)
Definition decode_Addr (a : ApiMac_sAddr) : R ApiMac_sAddr :=
  mode ← rdU8;
  if mode =? addrType_short then
    v ← rdU16;
    b ← lift (mem_write (addr a) 0 (le_bytes 2 v));
    rd_filler 6;;
    mret (MkAddr mode b)
  else
    (* none, extended, and every other value *)
    b ← rd_ext 8 0 (addr a);
    mret (MkAddr mode b).

Definition api_rd_panDesc (d : ApiMac_panDesc) : R ApiMac_panDesc :=
  a ← decode_Addr (pd_coordAddress d);
  pan ← rdU16;
  spec ← rdU16;
  chan ← rdU8;
  page ← rdU8;
  gts ← rdU8;
  lqi ← rdU8;
  ts ← rdU32;
  sf ← rdU8;
  s ← decode_Sec (pd_sec d);
  mret (MkPanDesc a pan spec chan page (to_bool gts) lqi ts (to_bool sf) s).

Section Handlers.
Variable cb : callbacks.

Definition process_areq_associate_ind : R unit :=
  a ← rdBuf (replicate 8 0) APIMAC_SADDR_EXT_LEN;
  r ← rdU8;
  s ← decode_Sec sec_zero;
  deliver (pAssocIndCb cb) (AssocInd (MkAssocInd a (ApiMac_buildMsgCapInfo (u8 r) cap_zero) s)).

Definition process_areq_sync_loss_ind : R unit :=
  reason ← rdU8;
  pan ← rdU16;
  chan ← rdU8;
  page ← rdU8;
  phy ← rdU8;
  s ← decode_Sec sec_zero;
  deliver (pSyncLossIndCb cb) (SyncLossInd (MkSyncLoss reason pan chan page phy s)).

Definition process_areq_data_cnf : R unit :=
  status ← rdU8;
  hdl ← rdU8;
  ts ← rdU32;
  ts2 ← rdU16;
  retries ← rdU8;
  lqi ← rdU8;
  corr ← rdU8;
  rssi ← rdU8;
  fc ← rdU32;
  deliver (pDataCnfCb cb)
    (DataCnf (MkDataCnf status hdl ts ts2 retries lqi corr (int8 rssi) fc)).

(** The data and the information elements are not copied: the callback gets
    pointers into the message. *)
Definition process_areq_data_ind : R unit :=
  src ← decode_Addr sAddr_zero;
  dst ← decode_Addr sAddr_zero;
  ts ← rdU32;
  ts2 ← rdU16;
  srcPan ← rdU16;
  dstPan ← rdU16;
  lqi ← rdU8;
  corr ← rdU8;
  rssi ← rdU8;
  dsn ← rdU8;
  s ← decode_Sec sec_zero;
  fc ← rdU32;
  len ← rdU16;
  ieLen ← rdU16;
  p ← get_idx;
  skipBuf len;;
  q ← get_idx;
  skipBuf ieLen;;
  parseComplete;;
  e ← msg_is_error;
  if (e : bool) then mret tt
  else
    msdu ← view p len;
    ie ← view q ieLen;
    call_if (pDataIndCb cb)
      (DataInd (MkDataInd src dst ts ts2 srcPan dstPan lqi corr (int8 rssi) dsn ieLen (Some ie)
                  0 0 fc s (MkData (Some msdu) len))).

Definition process_areq_purge_cnf : R unit :=
  status ← rdU8;
  hdl ← rdU8;
  deliver (pPurgeCnfCb cb) (PurgeCnf status hdl).

Definition process_areq_orphan_ind : R unit :=
  a ← rdBuf (replicate 8 0) APIMAC_SADDR_EXT_LEN;
  s ← decode_Sec sec_zero;
  deliver (pOrphanIndCb cb) (OrphanInd (MkOrphanInd a s)).

Definition process_areq_associate_cnf : R unit :=
  status ← rdU8;
  a ← rdU16;
  s ← decode_Sec sec_zero;
  deliver (pAssocCnfCb cb) (AssocCnf (MkAssocCnf status a s)).

(** The loops that fill the lists of a beacon, [n] items left; a store
    through a null pointer is undefined. *)
Fixpoint rd_short_list (n : nat) (x : Z) (p : option (list Z)) : R (option (list Z)) :=
  match n with
  | O => mret p
  | S n =>
      v ← rdU16;
      b ← lift (deref p);
      b ← lift (mem_write b x [v]);
      rd_short_list n (x + 1) (Some b)
  end.

(** [pExtAddrList + (x * 8)]: null only when [x] is 0; a later item of a null
    list is written through a pointer to no object. *)
Fixpoint rd_ext_list (n : nat) (x : Z) (p : option (list Z)) : R (option (list Z)) :=
  match n with
  | O => mret p
  | S n =>
      (match p with
       | None => if x =? 0 then mret tt else undefined NullPointer
       | Some _ => mret tt
       end);;
      p ← rdBufAt p (x * 8) 8;
      rd_ext_list n (x + 1) p
  end.

(** The second pass over the lists of a beacon: memory is allocated and the lists
    are read into it, from [idx_save] on; [ind] is the indication they are part of. *)
Definition beacon_lists (nShort nExt nSdu : Z) (ind : option (list Z) -> option (list Z) -> option (list Z) -> indication)
  (idx_save : Z) : R unit :=
  pShort ← calloc 0 (nShort + 1);
  pExt ← calloc 0 ((nExt + 1) * 8);
  pSdu ← calloc 0 (nSdu + 1);
  e ← msg_is_error;
  (if (e : bool) then mret tt
   else
     set_msg_idx idx_save;;
     sl ← rd_short_list (Z.to_nat nShort) 0 pShort;
     el ← rd_ext_list (Z.to_nat nExt) 0 pExt;
     sdu ← rdBufAt pSdu 0 nSdu;
     parseComplete;;
     e ← msg_is_error;
     if (e : bool) then mret tt else call (ind sl el sdu));;
  api_mac_freeMem pShort;;
  api_mac_freeMem pExt;;
  api_mac_freeMem pSdu.

(** A standard beacon from the time stamp on. *)
Definition beacon_normal (bsn : Z) : R unit :=
  ts ← rdU32;
  a ← decode_Addr sAddr_zero;
  pan ← rdU16;
  spec ← rdU16;
  chan ← rdU8;
  page ← rdU8;
  gts ← rdU8;
  lqi ← rdU8;
  sf ← rdU8;
  s ← decode_Sec sec_zero;
  nShort ← rdU8;
  nExt ← rdU8;
  nSdu ← rdU8;
  let pd := MkPanDesc a pan spec chan page (to_bool gts) lqi ts (to_bool sf) s in
  idx_save ← get_idx;
  skipBuf (2 * nShort);;
  skipBuf (8 * nExt);;
  skipBuf nSdu;;
  parseComplete;;
  e ← msg_is_error;
  if (e : bool) then mret tt     (* fail_1: nothing was allocated *)
  else
    beacon_lists nShort nExt nSdu
      (fun sl el sdu => BeaconNotifyInd (MkBeaconNotify beaconType_normal bsn pd
                          (U_beacon (MkBeacon nShort sl nExt el nSdu sdu)))) idx_save.

Definition beacon_enhanced (bsn : Z) : R unit :=
  a ← rdU8;
  b ← rdU8;
  c ← rdU8;
  d ← rdU8;
  e ← rdU8;
  f ← rdU8;
  g ← rdU16;
  deliver (pBeaconNotifyIndCb cb)
    (BeaconNotifyInd (MkBeaconNotify beaconType_enhanced bsn panDesc_zero
                        (U_eBeacon (MkCoexist a b c d e f g)))).

Definition process_areq_beacon_notify : R unit :=
  if negb (pBeaconNotifyIndCb cb) then mret tt
  else
    beaconType ← rdU8;
    bsn ← rdU8;
    if beaconType =? beaconType_normal then beacon_normal bsn
    else if beaconType =? beaconType_enhanced then beacon_enhanced bsn
    else mret tt.

Definition process_areq_disassociate_ind : R unit :=
  a ← rdBuf (replicate 8 0) APIMAC_SADDR_EXT_LEN;
  reason ← rdU8;
  s ← decode_Sec sec_zero;
  deliver (pDisassociateIndCb cb) (DisassociateInd (MkDisInd a reason s)).

Definition process_areq_disassociate_cnf : R unit :=
  status ← rdU8;
  a ← decode_Addr sAddr_zero;
  pan ← rdU16;
  deliver (pDisassociateCnfCb cb) (DisassociateCnf (MkDisCnf status a pan)).

Definition process_areq_poll_cnf : R unit :=
  status ← rdU8;
  pending ← rdU8;
  deliver (pPollCnfCb cb) (PollCnf status pending).

(** [for(x = 0; x < resultListSize; x++) api_rd_panDesc(pMsg, pPD + x);] into
    the memory [l], the items before [l] done. *)
Fixpoint rd_panDescs (n : nat) (x : nat) (p : option (list ApiMac_panDesc))
  : R (option (list ApiMac_panDesc)) :=
  match n with
  | O => mret p
  | S n =>
      l ← lift (deref p);
      d ← lift (match l !! x with Some d => Ret d | None => Undef OutOfBounds end);
      d ← api_rd_panDesc d;
      rd_panDescs n (S x) (Some (<[x := d]> l))
  end.

Definition process_areq_scan_cnf : R unit :=
  status ← rdU8;
  scanType ← rdU8;
  page ← rdU8;
  phy ← rdU8;
  chans ← rdBuf (replicate 17 0) 17;
  size ← rdU8;
  '(pU8, pPD) ←
    (if scanType =? scantype_orphan then mret (None, None)
     else if scanType =? scantype_energyDetect then
       pU8 ← calloc 0 (size + 1);
       e ← msg_is_error;
       (if (e : bool) then mret (pU8, None)
        else pU8 ← rdBufAt pU8 0 size; mret (pU8, None))
     else if (scanType =? scantype_activeEnhanced) || (scanType =? scantype_active)
             || (scanType =? scantype_passive) then
       pPD ← calloc panDesc_zero (size + 1);
       e ← msg_is_error;
       (if (e : bool) then mret (None, pPD)
        else pPD ← rd_panDescs (Z.to_nat size) 0 pPD; mret (None, pPD))
     else fail_msg;; mret (None, None));
  parseComplete;;
  e ← msg_is_error;
  (if (e : bool) then mret tt
   else call_if (pScanCnfCb cb)
          (ScanCnf (MkScanCnf status scanType page phy chans size
             (match pU8, pPD with
              | Some b, _ => EnergyDetect b
              | _, Some l => PanDescriptor l
              | None, None => ScanNone
              end))));;
  api_mac_freeMem pPD;;
  api_mac_freeMem pU8.

Definition process_areq_comm_status_ind : R unit :=
  status ← rdU8;
  src ← decode_Addr sAddr_zero;
  dst ← decode_Addr sAddr_zero;
  pan ← rdU16;
  reason ← rdU8;
  s ← decode_Sec sec_zero;
  deliver (pCommStatusCb cb) (CommStatusInd (MkCommStatus status src dst pan reason s)).

Definition process_areq_start_cnf : R unit :=
  status ← rdU8;
  deliver (pStartCnfCb cb) (StartCnf status).

Definition process_areq_ws_async_cnf : R unit :=
  status ← rdU8;
  deliver (pWsAsyncCnfCb cb) (WsAsyncCnf status).

(** [if(len) { p = callocMem(len); rdBuf(p, len); }] *)
Definition rd_copy (len : Z) : R (option (list Z)) :=
  if len =? 0 then mret None else p ← calloc 0 len; rdBufAt p 0 len.

Definition process_areq_ws_async_ind : R unit :=
  src ← decode_Addr sAddr_zero;
  dst ← decode_Addr sAddr_zero;
  ts ← rdU32;
  ts2 ← rdU16;
  srcPan ← rdU16;
  dstPan ← rdU16;
  lqi ← rdU8;
  corr ← rdU8;
  rssi ← rdU8;
  dsn ← rdU8;
  s ← decode_Sec sec_zero;
  fc ← rdU32;
  ft ← rdU8;
  len ← rdU16;
  ieLen ← rdU16;
  msdu ← rd_copy len;
  ie ← rd_copy ieLen;
  parseComplete;;
  e ← msg_is_error;
  (if (e : bool) then mret tt
   else call_if (pWsAsyncIndCb cb)
          (WsAsyncInd (MkDataInd src dst ts ts2 srcPan dstPan lqi corr (int8 rssi) dsn ieLen ie
                         ft 0 fc s (MkData msdu len))));;
  api_mac_freeMem msdu;;
  api_mac_freeMem ie.

(** The structure of this handler is not cleared first: [junk] is what the
    address holds before. *)
Definition process_areq_poll_ind (junk : ApiMac_sAddr) : R unit :=
  src ← decode_Addr junk;
  pan ← rdU16;
  noRsp ← rdU8;
  deliver (pPollIndCb cb) (PollInd (MkPollInd src pan (to_bool noRsp))).

Definition process_areq_reset_ind : R unit :=
  reason ← rdU8;
  transport ← rdU8;
  product ← rdU8;
  major ← rdU8;
  minor ← rdU8;
  maint ← rdU8;
  deliver (pResetIndCb cb) (ResetInd reason).

(** The table of [process_areq], in its order. *)
Definition lut (junk : ApiMac_sAddr) : list (Z * Z * R unit) :=
  [(0x42, 0x80, process_areq_sync_loss_ind);
   (0x42, 0x81, process_areq_associate_ind);
   (0x42, 0x82, process_areq_associate_cnf);
   (0x42, 0x83, process_areq_beacon_notify);
   (0x42, 0x84, process_areq_data_cnf);
   (0x42, 0x85, process_areq_data_ind);
   (0x42, 0x86, process_areq_disassociate_ind);
   (0x42, 0x87, process_areq_disassociate_cnf);
   (0x42, 0x8A, process_areq_orphan_ind);
   (0x42, 0x8B, process_areq_poll_cnf);
   (0x42, 0x8C, process_areq_scan_cnf);
   (0x42, 0x8D, process_areq_comm_status_ind);
   (0x42, 0x8E, process_areq_start_cnf);
   (0x42, 0x90, process_areq_purge_cnf);
   (0x42, 0x91, process_areq_poll_ind junk);
   (0x42, 0x92, process_areq_ws_async_cnf);
   (0x42, 0x93, process_areq_ws_async_ind);
   (0x41, 0x80, process_areq_reset_ind)].

Definition lookup_handler (junk : ApiMac_sAddr) (m : mt_msg) : option (R unit) :=
  snd <$> List.find (fun '(c0, c1, _) => (c0 =? Z.land (cmd0 m) 0x7F) && (c1 =? cmd1 m)) (lut junk).

End Handlers.

(** ** The module *)

(** The interface, [pApiMac_callbacks], the blocks handlers allocated and did
    not free, the calls made so far. *)
Record api : Type := MkApi {
  a_mi : mif;
  pApiMac_callbacks : option callbacks;
  a_blocks : Z;
  a_calls : list indication
}.

Abbreviation API := (M api).

Definition on_mi {A} (f : IO A) : API A := fun a =>
  '(x, s) ← f (a_mi a); Ret (x, MkApi s (pApiMac_callbacks a) (a_blocks a) (a_calls a)).

Definition ApiMac_registerCallbacks (p : option callbacks) : API unit :=
  modify (fun a => MkApi (a_mi a) p (a_blocks a) (a_calls a)).

(** Run a handler on the message behind [p]. *)
Definition run_handler (p : positive) (f : R unit) : API unit := fun a =>
  '(m, s) ← load p (a_mi a);
  let w := outside s in
  '(_, h) ← f (MkHst m (mallocs w) (a_blocks a) (a_calls a));
  '(_, s) ← store p (h_msg h)
              (set_world s (MkWorld (h_mallocs h) (writes w) (locks w) (arrivals w)));
  Ret (tt, MkApi s (pApiMac_callbacks a) (h_blocks h) (h_calls h)).

(** Give a message nobody handles to the application. *)
Definition unprocessed (p : positive) : API unit :=
  a ← get;
  match pApiMac_callbacks a with
  | None => mret tt
  | Some cb => if pUnprocessedCb cb
               then modify (fun a => MkApi (a_mi a) (pApiMac_callbacks a) (a_blocks a)
                                           (a_calls a ++ [Unprocessed 0 0 p]))
               else mret tt
  end.

Section Incoming.
(** What the stack holds when [process_areq_poll_ind] starts. *)
Variable junk : ApiMac_sAddr.

Definition process_areq (p : positive) : API unit :=
  a ← get;
  match pApiMac_callbacks a with
  | None => mret tt
  | Some cb =>
      m ← on_mi (load p);
      match lookup_handler cb junk m with
      | Some f => run_handler p f
      | None => unprocessed p
      end
  end.

Definition ApiMac_processIncoming : API unit :=
  o ← on_mi MT_MSG_LIST_remove;
  match o with
  | None => mret tt
  | Some p =>
      m ← on_mi (load p);
      (if bool_decide (m_type m = T_areq) || bool_decide (m_type m = T_areq_frag_data)
       then process_areq p else unprocessed p);;
      on_mi (MT_MSG_free (Some p))
  end.

End Incoming.

(** ** Reading what is there *)

(** The state after [n] bytes of the message were read. *)
Definition adv (h : hst) (n : Z) : hst :=
  with_msg h (set_idx (h_msg h) (iobuf_idx (h_msg h) + n)).

Lemma adv_adv h a b : adv (adv h a) b = adv h (a + b).
Proof. unfold adv, with_msg. cbn. f_equal. unfold set_idx, set_io. cbn. f_equal. lia. Qed.

Lemma adv_0 h : adv h 0 = h.
Proof. destruct h as [m]. unfold adv, with_msg. cbn. f_equal. rewrite Z.add_0_r. by destruct m. Qed.

(** [c] reads the bytes [d] and returns [a]. *)
Definition consumes {A} (c : R A) (d : list Z) (a : A) : Prop :=
  forall h rest, ahead (h_msg h) (d ++ rest) -> c h = Ret (a, adv h (zlen d)).

Lemma consumes_ret {A} (a : A) : consumes (mret a) [] a.
Proof. intros h rest _. change (zlen []) with 0. by rewrite adv_0. Qed.

Lemma consumes_bind {A B} (c : R A) (k : A -> R B) d1 d2 a b :
  consumes c d1 a -> consumes (k a) d2 b -> consumes (c ≫= k) (d1 ++ d2) b.
Proof.
  intros H1 H2 h rest Ha. rewrite <- app_assoc in Ha. run_step (H1 h _ Ha).
  apply ahead_app in Ha as [_ Ha].
  rewrite (H2 (adv h (zlen d1)) rest Ha), adv_adv, zlen_app. done.
Qed.

(** A step that reads nothing. *)
Lemma consumes_lift {A B} (o : outcome A) (k : A -> R B) d a b :
  o = Ret a -> consumes (k a) d b -> consumes (lift o ≫= k) d b.
Proof. intros -> H h rest Ha. by apply (H h rest). Qed.

Lemma consumes_field (f : field) (c : R Z) g v :
  c = rd g -> (forall m, read_field m f = ('(x, m) ← g m; Ret (match f with
    F8 _ => F8 x | F16 _ => F16 x | F32 _ => F32 x | _ => F64 x end, m))) ->
  field_ok f -> (f = F8 v \/ f = F16 v \/ f = F32 v) -> consumes c (field_enc f) v.
Proof.
  intros -> Hg Hf Hv h rest Ha. apply ahead_app in Ha as [Ha _].
  apply read_field_ahead in Ha as E; [|done]. rewrite Hg in E.
  apply bind_Ret_inv in E as ([x m] & E & E2). unfold rd. rewrite E. cbn [mbind outcome_bind].
  unfold adv. destruct Hv as [-> | [-> | ->]]; injection E2 as -> ->; done.
Qed.

Lemma rdU8_consumes v : is_byte v -> consumes rdU8 (field_enc (F8 v)) v.
Proof. intros H. by apply (consumes_field (F8 v) _ MT_MSG_rdU8_DBG); auto. Qed.
Lemma rdU16_consumes v : is_u16 v -> consumes rdU16 (field_enc (F16 v)) v.
Proof. intros H. by apply (consumes_field (F16 v) _ MT_MSG_rdU16_DBG); auto. Qed.
Definition is_u32 (z : Z) : Prop := 0 <= z < 2 ^ 32.
Lemma rdU32_consumes v : is_u32 v -> consumes rdU32 (field_enc (F32 v)) v.
Proof. intros H. by apply (consumes_field (F32 v) _ MT_MSG_rdU32_DBG); auto. Qed.

Create HintDb reads.
#[export] Hint Resolve rdU8_consumes rdU16_consumes rdU32_consumes : reads.

(** Copying bytes into memory; a null pointer or no byte at all copies nothing. *)
Lemma rdBufAt_consumes dst o n d dst' :
  n = zlen d -> (0 < n -> match dst with Some b => mem_write b o d = Ret dst' | None => True end) ->
  consumes (rdBufAt dst o n) d
    (match dst with Some b => Some (if n =? 0 then b else dst') | None => None end).
Proof.
  intros -> Hd h rest Ha. apply ahead_app in Ha as [Ha _]. pose proof Ha as [H He H0 Hv Hs].
  pose proof (mwf_nvalid _ H). pose proof (zlen_nonneg d). unfold rdBufAt.
  destruct (Z.eqb_spec (zlen d) 0) as [E0|E0].
  { unfold MT_MSG_rdBuf_DBG, init_rd_idx. rewrite He, (proj2 (Z.ltb_ge _ _)), E0 by lia.
    cbn [Z.eqb mbind outcome_bind]. rewrite adv_0. destruct dst; by destruct h. }
  destruct dst as [b|].
  - rewrite bool_decide_true by done. rewrite rdBuf_ahead by (done || by destruct d).
    cbn [mbind outcome_bind]. rewrite Hd by lia. done.
  - rewrite bool_decide_false by (by intros [? ?]). unfold MT_MSG_rdBuf_DBG, init_rd_idx.
    rewrite He, (proj2 (Z.ltb_ge _ _)), (proj2 (Z.eqb_neq _ _)) by lia.
    rewrite (mwf_max _ H). unfold IOBUF_SIZE in *.
    rewrite int32_id, (proj2 (Z.ltb_ge _ _)) by lia. done.
Qed.

Lemma mem_write_all (b d : list Z) : zlen b = zlen d -> mem_write b 0 d = Ret d.
Proof.
  intros E. rewrite mem_write_ok by lia. unfold splice. cbn. unfold zlen in E.
  rewrite drop_ge, app_nil_r by lia. done.
Qed.

(** A fixed array is filled. *)
Lemma rdBuf_consumes dst n d :
  n = zlen d -> zlen dst = zlen d -> consumes (rdBuf dst n) (field_enc (FBuf d)) d.
Proof.
  intros -> E. unfold rdBuf. rewrite <- (app_nil_r (field_enc _)).
  eapply consumes_bind; [apply (rdBufAt_consumes (Some dst) 0 _ d d); [done|]|].
  - intros _. by apply mem_write_all.
  - intros h rest _. change (zlen []) with 0. rewrite adv_0.
    destruct (Z.eqb_spec (zlen d) 0) as [E0|]; [|done].
    unfold zlen in *. destruct d; [|cbn in E0; lia]. destruct dst; [done|cbn in E; lia].
Qed.

Lemma skipBuf_consumes n d : n = zlen d -> consumes (skipBuf n) d tt.
Proof.
  intros E. unfold skipBuf. rewrite <- (app_nil_r d).
  eapply consumes_bind; [|apply consumes_ret].
  apply (rdBufAt_consumes None 0 n d []); [done|auto].
Qed.

Lemma fields_enc_cons f fs : fields_enc (f :: fs) = field_enc f ++ fields_enc fs.
Proof. done. Qed.

(** Read a field list in its order. *)
Ltac reads :=
  repeat first
    [ apply consumes_ret
    | rewrite fields_enc_cons; eapply consumes_bind; [solve [eauto with reads]|]; cbv beta ].

(** ** The shared parts *)

Definition sec_ok (s : ApiMac_sec) : Prop :=
  zlen (keySource s) = 8 /\ is_bytes (keySource s) /\ is_byte (securityLevel s) /\
  is_byte (keyIdMode s) /\ is_byte (keyIndex s).

(** An address as [decode_Addr] leaves it in memory that held [a0]. *)
Definition addr_ok (a0 a : ApiMac_sAddr) : Prop :=
  is_byte (addrMode a) /\ zlen (addr a) = 8 /\ is_bytes (addr a) /\
  (addrMode a = addrType_extended \/
   addrMode a = addrType_short /\ drop 2 (addr a) = drop 2 (addr a0) \/
   addrMode a <> addrType_short /\ addr a = replicate 8 0).

Lemma decode_Sec_consumes s0 s :
  zlen (keySource s0) = 8 -> sec_ok s ->
  consumes (decode_Sec s0) (fields_enc (encode_Sec s)) s.
Proof.
  intros H0 (Hk & Hb & Hl & Hm & Hi). destruct s as [k l m i].
  cbn [keySource securityLevel keyIdMode keyIndex] in *. unfold decode_Sec, encode_Sec.
  cbn [keySource securityLevel keyIdMode keyIndex]. rewrite fields_enc_cons.
  eapply consumes_bind; [apply rdBuf_consumes; [by rewrite Hk|lia]|].
  reads.
Qed.

Lemma fields_enc_bytes8 l : is_bytes l -> fields_enc (F8 <$> l) = l.
Proof.
  induction 1 as [|b l Hb Hl IH]; [done|]. cbn. fold (fields_enc (F8 <$> l)). rewrite IH.
  by rewrite u8_id.
Qed.

Lemma rd_ext_consumes l : forall n x b,
  n = length l -> 0 <= x -> x + zlen l = zlen b -> is_bytes l ->
  consumes (rd_ext n x b) (fields_enc (F8 <$> l)) (splice (Z.to_nat x) l b).
Proof.
  induction l as [|v l IH]; intros n x b -> Hx Hl Hb; cbn [rd_ext length].
  { rewrite splice_nil. apply consumes_ret. }
  apply Forall_cons_iff in Hb as [Hv Hb]. rewrite fmap_cons.
  change (fields_enc (F8 v :: (F8 <$> l))) with (field_enc (F8 v) ++ fields_enc (F8 <$> l)).
  eapply consumes_bind; [by apply rdU8_consumes|].
  unfold zlen in Hl. cbn [length] in Hl.
  eapply consumes_lift; [apply mem_write_ok; unfold zlen; cbn; lia|].
  replace (splice (Z.to_nat x) (v :: l) b)
    with (splice (Z.to_nat (x + 1)) l (splice (Z.to_nat x) [v] b)).
  - apply IH; [done|lia| |done]. unfold zlen. rewrite length_splice; cbn; lia.
  - rewrite Z2Nat.inj_add by lia. change (Z.to_nat 1) with (length [v]).
    rewrite splice_splice_app by (cbn; lia). done.
Qed.

Lemma rd_filler_consumes n : consumes (rd_filler n) (fields_enc (replicate n (F8 0))) tt.
Proof.
  induction n; [apply consumes_ret|]. eapply consumes_bind; [by apply rdU8_consumes|done].
Qed.

Lemma encode_none_bytes a : addrMode a <> addrType_short -> addrMode a <> addrType_extended ->
  fields_enc (encode_Addr a) = fields_enc (F8 (addrMode a) :: (F8 <$> replicate 8 0)).
Proof.
  intros H1 H2. unfold encode_Addr. cbn [fields_enc flat_map]. f_equal.
  destruct (_ =? addrType_none); [done|].
  rewrite (proj2 (Z.eqb_neq _ _)), (proj2 (Z.eqb_neq _ _)) by done. done.
Qed.

Lemma decode_Addr_consumes a0 a :
  zlen (addr a0) = 8 -> addr_ok a0 a ->
  consumes (decode_Addr a0) (fields_enc (encode_Addr a)) a.
Proof.
  intros H0 (Hm & Hl & Hb & Hc). destruct a as [mode l]. cbn [addrMode addr] in *.
  assert (forall d, is_bytes d -> zlen d = 8 -> mode <> addrType_short ->
    consumes (decode_Addr a0) (fields_enc (F8 mode :: (F8 <$> d))) (MkAddr mode d)) as Hgen.
  { intros d Hd H8 Hs. unfold decode_Addr.
    change (fields_enc (F8 mode :: (F8 <$> d))) with (field_enc (F8 mode) ++ fields_enc (F8 <$> d)).
    eapply consumes_bind; [by apply rdU8_consumes|]. rewrite (proj2 (Z.eqb_neq _ _)) by done.
    rewrite <- (app_nil_r (fields_enc (F8 <$> d))).
    eapply consumes_bind; [apply rd_ext_consumes; try done; unfold zlen in *; lia|].
    unfold splice. change (Z.to_nat 0) with 0%nat.
    rewrite take_0, drop_ge, app_nil_l, app_nil_r by (unfold zlen in *; lia). apply consumes_ret. }
  destruct Hc as [-> | [[-> Hd] | [Hs ->]]].
  - by apply Hgen.
  - unfold decode_Addr, encode_Addr. cbn [addrMode Z.eqb addrType_short addrType_none].
    rewrite !fields_enc_cons.
    eapply consumes_bind; [apply rdU8_consumes; cbv; split; congruence|]. cbn [Z.eqb addrType_short].
    assert (is_bytes (take 2 l)) as Hb2 by (by apply Forall_take).
    apply le_val_bound in Hb2 as Hv. unfold zlen in *. rewrite length_take, Nat.min_l in Hv by lia.
    eapply consumes_bind; [by apply rdU16_consumes|].
    eapply consumes_lift; [apply mem_write_ok; [done|]; unfold zlen; rewrite length_le_bytes; lia|].
    rewrite <- (app_nil_r (fields_enc (replicate 6 _))). eapply consumes_bind; [apply rd_filler_consumes|].
    unfold shortAddr, splice. cbn [addr]. change (Z.to_nat 0) with 0%nat. rewrite length_le_bytes, take_0.
    assert (le_bytes 2 (le_val (take 2 l)) = take 2 l) as ->.
    { destruct l as [|x [|y l]]; try (cbn in Hl; lia). cbn [take le_val].
      apply Forall_cons_iff in Hb as [Hx Hb]. apply Forall_cons_iff in Hb as [Hy _].
      unfold is_byte in *. cbn [le_bytes]. unfold u8. rewrite !shiftr8.
      f_equal; [rewrite <- (Z.mod_small x 256) at 2 by lia; rewrite (Z.mul_comm 256), Z.add_0_r;
                rewrite Z.mod_add by lia; done|].
      f_equal. rewrite Z.mul_0_r, Z.add_0_r, (Z.mul_comm 256), Z.div_add by lia.
      rewrite (Z.div_small x) by lia. apply Z.mod_small. lia. }
    cbn [app]. rewrite Nat.add_0_l, <- Hd, take_drop. apply consumes_ret.
  - destruct (decide (mode = addrType_extended)) as [->|Hne]; [by apply Hgen|].
    rewrite encode_none_bytes by done. by apply Hgen.
Qed.

(** ** Handling a message whose payload is as expected *)

(** The bytes [d] are what is left of the payload. *)
Record pending (h : hst) (d : list Z) : Prop := MkPending {
  pe_ahead : ahead (h_msg h) d;
  pe_left : exists i, pSrcIface (h_msg h) = Some i /\
    iobuf_idx (h_msg h) + zlen d = payload_start i + expected_len (h_msg h);
  pe_mallocs : h_mallocs h = []
}.

(** [n] more blocks are held. *)
Definition own (n : Z) (h : hst) : hst :=
  MkHst (h_msg h) (h_mallocs h) (h_blocks h + n) (h_calls h).

Lemma own_0 h : own 0 h = h.
Proof. destruct h. unfold own. cbn. by rewrite Z.add_0_r. Qed.

Lemma pending_adv h d1 d2 : pending h (d1 ++ d2) -> pending (adv h (zlen d1)) d2.
Proof.
  intros [Ha (i & Hs & Hl) Hm]. rewrite zlen_app in Hl. apply ahead_app in Ha as [_ Ha].
  constructor; [done| |done]. exists i. split; [done|]. cbn. lia.
Qed.

Lemma pending_own n h d : pending h d -> pending (own n h) d.
Proof. by intros []. Qed.

(** [c] finds the payload [d], calls the application once, with [x], and
    releases [n] blocks more than it allocates. *)
Definition handles (n : Z) (c : R unit) (d : list Z) (x : indication) : Prop :=
  forall h, pending h d -> exists h', c h = Ret (tt, h') /\ h_calls h' = h_calls h ++ [x] /\
    h_blocks h' = h_blocks h - n /\ h_mallocs h' = [] /\ same_content (h_msg h) (h_msg h').

Lemma same_content_adv h n : same_content (h_msg h) (h_msg (adv h n)).
Proof. by do 2 eexists. Qed.

Lemma handles_read {A} n (c : R A) (k : A -> R unit) d d' a x :
  consumes c d a -> handles n (k a) d' x -> handles n (c ≫= k) (d ++ d') x.
Proof.
  intros Hc Hk h Hp. run_step (Hc h d' (pe_ahead _ _ Hp)).
  destruct (Hk _ (pending_adv h d d' Hp)) as (h' & E & Hcs & Hbs & Hms & Hs).
  exists h'. split; [done|]. split; [done|]. split; [done|]. split; [done|].
  etrans; [apply same_content_adv|exact Hs].
Qed.

Lemma handles_read_end {A} n (c : R A) (k : A -> R unit) d a x :
  consumes c d a -> handles n (k a) [] x -> handles n (c ≫= k) d x.
Proof. intros Hc Hk. rewrite <- (app_nil_r d). by apply (handles_read n c k d [] a x). Qed.

Lemma handles_error n (k : bool -> R unit) d x :
  handles n (k false) d x -> handles n (msg_is_error ≫= k) d x.
Proof.
  intros Hk h Hp. assert (msg_is_error h = Ret (false, h)) as E.
  { unfold msg_is_error. run_get. by rewrite (ah_noerr _ _ (pe_ahead _ _ Hp)). }
  run_step E. by apply Hk.
Qed.

Lemma parse_pending h : pending h [] -> parseComplete h = Ret (tt, h).
Proof.
  intros [_ (i & Hs & Hl) _]. unfold parseComplete, MT_MSG_parseComplete. rewrite Hs.
  cbn [deref mbind outcome_bind]. change (zlen []) with 0 in Hl.
  rewrite (proj2 (Z.eqb_eq _ _)) by lia. by destruct h.
Qed.

Lemma handles_parse n (k : unit -> R unit) x :
  handles n (k tt) [] x -> handles n (parseComplete ≫= k) [] x.
Proof. intros Hk h Hp. run_step (parse_pending h Hp). by apply Hk. Qed.

Lemma handles_calloc {A} n (z : A) c (k : option (list A) -> R unit) d x :
  handles (n + 1) (k (Some (replicate (Z.to_nat c) z))) d x -> handles n (calloc z c ≫= k) d x.
Proof.
  intros Hk h Hp. assert (calloc z c h = Ret (Some (replicate (Z.to_nat c) z), own 1 h)) as E.
  { unfold calloc, api_mac_callocMem, mbind, M_bind, own. by rewrite (pe_mallocs _ _ Hp). }
  run_step E. destruct (Hk _ (pending_own 1 h d Hp)) as (h' & E' & Hcs & Hbs & Hms & Hs).
  exists h'. split; [done|]. split; [done|]. split; [cbn in Hbs; lia|]. done.
Qed.

(** The end of a handler: [n] blocks are released. *)
Definition cleans (n : Z) (c : R unit) : Prop := forall h, c h = Ret (tt, own (- n) h).

Lemma cleans_ret : cleans 0 (mret tt).
Proof. intros h. change (own (- 0) h) with (own 0 h). by rewrite own_0. Qed.

Lemma cleans_free {A} n (p : option A) : n = (match p with Some _ => 1 | None => 0 end) -> cleans n (api_mac_freeMem p).
Proof. intros -> h. destruct p; [done|apply cleans_ret]. Qed.

Lemma cleans_seq n m c k : cleans n c -> cleans m (k tt) -> cleans (n + m) (c ≫= k).
Proof.
  intros Hc Hk h. run_step (Hc h). rewrite Hk. unfold own. cbn. do 3 f_equal. lia.
Qed.

Lemma handles_call n (k : unit -> R unit) x :
  cleans n (k tt) -> handles n (call x ≫= k) [] x.
Proof.
  intros Hk h Hp. unfold call. run_modify. rewrite Hk. eexists. split; [done|].
  split; [done|]. split; [cbn; lia|]. split; [apply Hp|]. apply same_content_refl.
Qed.

Lemma bind_ret_r (c : R unit) h : (c ≫= fun _ => mret tt) h = c h.
Proof. unfold mbind, M_bind. destruct (c h) as [[[] h']| |]; done. Qed.

Lemma handles_seq_ret n c d x : handles n (c ≫= fun _ => mret tt) d x -> handles n c d x.
Proof. intros H h Hp. destruct (H h Hp) as (h' & E & Hr). rewrite bind_ret_r in E. by exists h'. Qed.

Lemma handles_deliver x : handles 0 (deliver true x) [] x.
Proof.
  unfold deliver. apply handles_parse, handles_error. apply handles_seq_ret.
  apply handles_call, cleans_ret.
Qed.

Lemma handles_assoc {A B} n (c : R A) (k : A -> R B) (l : B -> R unit) d x :
  handles n (c ≫= fun a => k a ≫= l) d x -> handles n ((c ≫= k) ≫= l) d x.
Proof.
  intros H h Hp. destruct (H h Hp) as (h' & E & Hr). exists h'. split; [|done]. rewrite <- E.
  unfold mbind, M_bind. destruct (c h) as [[]| |]; done.
Qed.

Lemma handles_pure {A} n (a : A) (k : A -> R unit) d x :
  handles n (k a) d x -> handles n (mret a ≫= k) d x.
Proof. intros H h Hp. exact (H h Hp). Qed.

(** ** The wire format of the indications *)

(** A pan descriptor in a scan result. *)
Definition panDesc_fields (d : ApiMac_panDesc) : list field :=
  encode_Addr (pd_coordAddress d) ++
  [F16 (pd_coordPanId d); F16 (pd_superframeSpec d); F8 (pd_logicalChannel d);
   F8 (pd_channelPage d); bool_field (pd_gtsPermit d); F8 (pd_linkQuality d);
   F32 (pd_timestamp d); bool_field (pd_securityFailure d)] ++ encode_Sec (pd_sec d).

(** The common part of data and asynchronous indications. *)
Definition data_fields (x : ApiMac_mcpsDataInd) : list field :=
  encode_Addr (di_srcAddr x) ++ encode_Addr (di_dstAddr x) ++
  [F32 (di_timestamp x); F16 (di_timestamp2 x); F16 (di_srcPanId x); F16 (di_dstPanId x);
   F8 (di_mpduLinkQuality x); F8 (di_correlation x); F8 (u8 (di_rssi x)); F8 (di_dsn x)] ++
  encode_Sec (di_sec x) ++ [F32 (di_frameCntr x)].

Definition data_tail (x : ApiMac_mcpsDataInd) : list field :=
  [F16 (sd_len (di_msdu x)); F16 (di_payloadIeLen x);
   FBuf (default [] (sd_p (di_msdu x))); FBuf (default [] (di_pPayloadIE x))].

Definition beacon_fields (x : ApiMac_mlmeBeaconNotifyInd) : list field :=
  let d := bn_panDesc x in
  match bn_beaconData x with
  | U_beacon b =>
      [F32 (pd_timestamp d)] ++ encode_Addr (pd_coordAddress d) ++
      [F16 (pd_coordPanId d); F16 (pd_superframeSpec d); F8 (pd_logicalChannel d);
       F8 (pd_channelPage d); bool_field (pd_gtsPermit d); F8 (pd_linkQuality d);
       bool_field (pd_securityFailure d)] ++ encode_Sec (pd_sec d) ++
      [F8 (numPendShortAddr b); F8 (numPendExtAddr b); F8 (sduLength b)] ++
      (F16 <$> take (Z.to_nat (numPendShortAddr b)) (default [] (pShortAddrList b))) ++
      [FBuf (take (Z.to_nat (8 * numPendExtAddr b)) (default [] (pExtAddrList b)));
       FBuf (take (Z.to_nat (sduLength b)) (default [] (pSdu b)))]
  | U_eBeacon c =>
      [F8 (co_beaconOrder c); F8 (co_superFrameOrder c); F8 (co_finalCapSlot c);
       F8 (co_eBeaconOrder c); F8 (co_offsetTimeSlot c); F8 (co_capBackOff c);
       F16 (co_eBeaconOrderNBPAN c)]
  end.

Definition scan_fields (x : ApiMac_mlmeScanCnf) : list field :=
  match sc_result x with
  | ScanNone => []
  | EnergyDetect b => [FBuf (take (Z.to_nat (sc_resultListSize x)) b)]
  | PanDescriptor l => take (Z.to_nat (sc_resultListSize x)) l ≫= panDesc_fields
  end.

(** The payload that carries [x]; [ver] are the version bytes of a reset
    indication, which are not passed on. *)
Definition ind_fields (ver : list Z) (x : indication) : list field :=
  match x with
  | AssocInd x => [FBuf (ai_deviceAddress x);
                   F8 (ApiMac_convertCapabilityInfo (ai_capabilityInformation x))] ++
                  encode_Sec (ai_sec x)
  | AssocCnf x => [F8 (ac_status x); F16 (ac_assocShortAddress x)] ++ encode_Sec (ac_sec x)
  | DisassociateInd x => [FBuf (ii_deviceAddress x); F8 (ii_disassociateReason x)] ++
                         encode_Sec (ii_sec x)
  | DisassociateCnf x => [F8 (ic_status x)] ++ encode_Addr (ic_deviceAddress x) ++ [F16 (ic_panId x)]
  | BeaconNotifyInd x => [F8 (bn_beaconType x); F8 (bn_bsn x)] ++ beacon_fields x
  | OrphanInd x => [FBuf (oi_orphanAddress x)] ++ encode_Sec (oi_sec x)
  | ScanCnf x => [F8 (sc_status x); F8 (sc_scanType x); F8 (sc_channelPage x); F8 (sc_phyId x);
                  FBuf (sc_unscannedChannels x); F8 (sc_resultListSize x)] ++ scan_fields x
  | StartCnf s | WsAsyncCnf s => [F8 s]
  | SyncLossInd x => [F8 (sl_reason x); F16 (sl_panId x); F8 (sl_logicalChannel x);
                      F8 (sl_channelPage x); F8 (sl_phyID x)] ++ encode_Sec (sl_sec x)
  | PollCnf s f => [F8 s; F8 f]
  | CommStatusInd x => [F8 (cs_status x)] ++ encode_Addr (cs_srcAddr x) ++
                       encode_Addr (cs_dstAddr x) ++ [F16 (cs_panId x); F8 (cs_reason x)] ++
                       encode_Sec (cs_sec x)
  | PollInd x => encode_Addr (pi_srcAddr x) ++ [F16 (pi_srcPanId x); bool_field (pi_noRsp x)]
  | DataCnf x => [F8 (dc_status x); F8 (dc_msduHandle x); F32 (dc_timestamp x);
                  F16 (dc_timestamp2 x); F8 (dc_retries x); F8 (dc_mpduLinkQuality x);
                  F8 (dc_correlation x); F8 (u8 (dc_rssi x)); F32 (dc_frameCntr x)]
  | DataInd x => data_fields x ++ data_tail x
  | ResetInd r => F8 r :: (F8 <$> ver)
  | PurgeCnf s h => [F8 s; F8 h]
  | WsAsyncInd x => data_fields x ++ [F8 (di_fhFrameType x)] ++ data_tail x
  | Unprocessed _ _ _ => []
  end.

(** Its command bytes. *)
Definition ind_cmd (x : indication) : Z * Z :=
  match x with
  | SyncLossInd _ => (0x42, 0x80) | AssocInd _ => (0x42, 0x81) | AssocCnf _ => (0x42, 0x82)
  | BeaconNotifyInd _ => (0x42, 0x83) | DataCnf _ => (0x42, 0x84) | DataInd _ => (0x42, 0x85)
  | DisassociateInd _ => (0x42, 0x86) | DisassociateCnf _ => (0x42, 0x87)
  | OrphanInd _ => (0x42, 0x8A) | PollCnf _ _ => (0x42, 0x8B) | ScanCnf _ => (0x42, 0x8C)
  | CommStatusInd _ => (0x42, 0x8D) | StartCnf _ => (0x42, 0x8E) | PurgeCnf _ _ => (0x42, 0x90)
  | PollInd _ => (0x42, 0x91) | WsAsyncCnf _ => (0x42, 0x92) | WsAsyncInd _ => (0x42, 0x93)
  | ResetInd _ => (0x41, 0x80) | Unprocessed _ _ _ => (0, 0)
  end.

(** Is its callback registered? *)
Definition cb_of (cb : callbacks) (x : indication) : bool :=
  match x with
  | SyncLossInd _ => pSyncLossIndCb cb | AssocInd _ => pAssocIndCb cb
  | AssocCnf _ => pAssocCnfCb cb | BeaconNotifyInd _ => pBeaconNotifyIndCb cb
  | DataCnf _ => pDataCnfCb cb | DataInd _ => pDataIndCb cb
  | DisassociateInd _ => pDisassociateIndCb cb | DisassociateCnf _ => pDisassociateCnfCb cb
  | OrphanInd _ => pOrphanIndCb cb | PollCnf _ _ => pPollCnfCb cb | ScanCnf _ => pScanCnfCb cb
  | CommStatusInd _ => pCommStatusCb cb | StartCnf _ => pStartCnfCb cb
  | PurgeCnf _ _ => pPurgeCnfCb cb | PollInd _ => pPollIndCb cb
  | WsAsyncCnf _ => pWsAsyncCnfCb cb | WsAsyncInd _ => pWsAsyncIndCb cb
  | ResetInd _ => pResetIndCb cb | Unprocessed _ _ _ => pUnprocessedCb cb
  end.

(** ** Values a callback can get *)

(** [aok a0 a] says which addresses are found in memory that held [a0]. *)
Section Values.
Variable aok : ApiMac_sAddr -> ApiMac_sAddr -> Prop.

Definition ext_ok (b : list Z) : Prop := zlen b = 8 /\ is_bytes b.
Definition is_i8 (z : Z) : Prop := - 128 <= z < 128.

Definition panDesc_ok (d : ApiMac_panDesc) : Prop :=
  aok sAddr_zero (pd_coordAddress d) /\ is_u16 (pd_coordPanId d) /\
  is_u16 (pd_superframeSpec d) /\ is_byte (pd_logicalChannel d) /\ is_byte (pd_channelPage d) /\
  is_byte (pd_linkQuality d) /\ is_u32 (pd_timestamp d) /\ sec_ok (pd_sec d).

(** Memory of [n] items and one more that stays zero. *)
Definition padded {A} (zero : A) (n k : Z) (o : option (list A)) : Prop :=
  exists l, o = Some (l ++ replicate (Z.to_nat k) zero) /\ zlen l = n.

Definition beacon_ok (x : ApiMac_mlmeBeaconNotifyInd) : Prop :=
  is_byte (bn_bsn x) /\
  match bn_beaconData x with
  | U_beacon b =>
      bn_beaconType x = beaconType_normal /\ panDesc_ok (bn_panDesc x) /\
      is_byte (numPendShortAddr b) /\ is_byte (numPendExtAddr b) /\ is_byte (sduLength b) /\
      padded 0 (numPendShortAddr b) 1 (pShortAddrList b) /\
      Forall is_u16 (default [] (pShortAddrList b)) /\
      padded 0 (8 * numPendExtAddr b) 8 (pExtAddrList b) /\ is_bytes (default [] (pExtAddrList b)) /\
      padded 0 (sduLength b) 1 (pSdu b) /\ is_bytes (default [] (pSdu b))
  | U_eBeacon c =>
      bn_beaconType x = beaconType_enhanced /\ bn_panDesc x = panDesc_zero /\
      is_byte (co_beaconOrder c) /\ is_byte (co_superFrameOrder c) /\ is_byte (co_finalCapSlot c) /\
      is_byte (co_eBeaconOrder c) /\ is_byte (co_offsetTimeSlot c) /\ is_byte (co_capBackOff c) /\
      is_u16 (co_eBeaconOrderNBPAN c)
  end.

Definition scan_ok (x : ApiMac_mlmeScanCnf) : Prop :=
  is_byte (sc_status x) /\ is_byte (sc_channelPage x) /\ is_byte (sc_phyId x) /\
  zlen (sc_unscannedChannels x) = 17 /\ is_bytes (sc_unscannedChannels x) /\
  is_byte (sc_resultListSize x) /\
  match sc_result x with
  | ScanNone => sc_scanType x = scantype_orphan
  | EnergyDetect b => sc_scanType x = scantype_energyDetect /\
                      padded 0 (sc_resultListSize x) 1 (Some b) /\ is_bytes b
  | PanDescriptor l =>
      sc_scanType x ∈ [scantype_active; scantype_passive; scantype_activeEnhanced] /\
      padded panDesc_zero (sc_resultListSize x) 1 (Some l) /\ Forall panDesc_ok l
  end.

Definition data_ok (x : ApiMac_mcpsDataInd) : Prop :=
  aok sAddr_zero (di_srcAddr x) /\ aok sAddr_zero (di_dstAddr x) /\
  is_u32 (di_timestamp x) /\ is_u16 (di_timestamp2 x) /\ is_u16 (di_srcPanId x) /\
  is_u16 (di_dstPanId x) /\ is_byte (di_mpduLinkQuality x) /\ is_byte (di_correlation x) /\
  is_i8 (di_rssi x) /\ is_byte (di_dsn x) /\ sec_ok (di_sec x) /\ is_u32 (di_frameCntr x) /\
  is_u16 (sd_len (di_msdu x)) /\ is_u16 (di_payloadIeLen x) /\
  sd_len (di_msdu x) = zlen (default [] (sd_p (di_msdu x))) /\
  di_payloadIeLen x = zlen (default [] (di_pPayloadIE x)) /\
  is_bytes (default [] (sd_p (di_msdu x))) /\ is_bytes (default [] (di_pPayloadIE x)).

(** [junk] is what an address structure that is not cleared holds before. *)
Definition ind_ok (junk : ApiMac_sAddr) (x : indication) : Prop :=
  match x with
  | AssocInd x => ext_ok (ai_deviceAddress x) /\ sec_ok (ai_sec x)
  | AssocCnf x => is_byte (ac_status x) /\ is_u16 (ac_assocShortAddress x) /\ sec_ok (ac_sec x)
  | DisassociateInd x => ext_ok (ii_deviceAddress x) /\ is_byte (ii_disassociateReason x) /\
                         sec_ok (ii_sec x)
  | DisassociateCnf x => is_byte (ic_status x) /\ aok sAddr_zero (ic_deviceAddress x) /\
                         is_u16 (ic_panId x)
  | BeaconNotifyInd x => beacon_ok x
  | OrphanInd x => ext_ok (oi_orphanAddress x) /\ sec_ok (oi_sec x)
  | ScanCnf x => scan_ok x
  | StartCnf s | WsAsyncCnf s | ResetInd s => is_byte s
  | SyncLossInd x => is_byte (sl_reason x) /\ is_u16 (sl_panId x) /\ is_byte (sl_logicalChannel x) /\
                     is_byte (sl_channelPage x) /\ is_byte (sl_phyID x) /\ sec_ok (sl_sec x)
  | PollCnf s f => is_byte s /\ is_byte f
  | CommStatusInd x => is_byte (cs_status x) /\ aok sAddr_zero (cs_srcAddr x) /\
                       aok sAddr_zero (cs_dstAddr x) /\ is_u16 (cs_panId x) /\
                       is_byte (cs_reason x) /\ sec_ok (cs_sec x)
  | PollInd x => aok junk (pi_srcAddr x) /\ is_u16 (pi_srcPanId x)
  | DataCnf x => is_byte (dc_status x) /\ is_byte (dc_msduHandle x) /\ is_u32 (dc_timestamp x) /\
                 is_u16 (dc_timestamp2 x) /\ is_byte (dc_retries x) /\
                 is_byte (dc_mpduLinkQuality x) /\ is_byte (dc_correlation x) /\
                 is_i8 (dc_rssi x) /\ is_u32 (dc_frameCntr x)
  | DataInd x => data_ok x /\ is_Some (sd_p (di_msdu x)) /\ is_Some (di_pPayloadIE x) /\
                 di_fhFrameType x = 0 /\ di_fhProtoDispatch x = 0
  | PurgeCnf s h => is_byte s /\ is_byte h
  | WsAsyncInd x => data_ok x /\ is_byte (di_fhFrameType x) /\ di_fhProtoDispatch x = 0 /\
                    (sd_p (di_msdu x) = None <-> sd_len (di_msdu x) = 0) /\
                    (di_pPayloadIE x = None <-> di_payloadIeLen x = 0)
  | Unprocessed _ _ _ => False
  end.

End Values.

(** Well typed whatever the address mode. *)
Definition addr_typed (a0 a : ApiMac_sAddr) : Prop :=
  is_byte (addrMode a) /\ zlen (addr a) = 8 /\ is_bytes (addr a).

(** ** Every well-formed indication is handled *)

Lemma to_bool_field (b : bool) : to_bool (if b then 1 else 0) = b.
Proof. by destruct b. Qed.

Lemma bool_byte b : is_byte (if (b : bool) then 1 else 0).
Proof. destruct b; byte_const. Qed.

Lemma int8_u8 z : is_i8 z -> int8 (u8 z) = z.
Proof.
  unfold is_i8, int8, u8. intros H. rewrite Zplus_mod_idemp_l. rewrite Z.mod_small; lia.
Qed.

Lemma cap_roundtrip p : ApiMac_buildMsgCapInfo (u8 (ApiMac_convertCapabilityInfo p)) cap_zero = p.
Proof. destruct p as [[] [] [] [] [] []]; reflexivity. Qed.

Lemma cap_byte p : is_byte (ApiMac_convertCapabilityInfo p).
Proof. apply u8_byte. Qed.

Lemma ext_consumes b n : ext_ok b -> n = 8 -> consumes (rdBuf (replicate 8 0) n) (field_enc (FBuf b)) b.
Proof. intros [H _] ->. apply rdBuf_consumes; [by rewrite H|by rewrite H]. Qed.

Lemma sec_consumes s : sec_ok s -> consumes (decode_Sec sec_zero) (fields_enc (encode_Sec s)) s.
Proof. by apply decode_Sec_consumes. Qed.

Lemma addr_consumes a : addr_ok sAddr_zero a ->
  consumes (decode_Addr sAddr_zero) (fields_enc (encode_Addr a)) a.
Proof. by apply decode_Addr_consumes. Qed.

#[local] Hint Resolve bool_byte cap_byte ext_consumes sec_consumes addr_consumes : reads.
#[local] Hint Resolve u8_byte : reads.
#[local] Hint Extern 1 (is_byte beaconType_normal) => byte_const : reads.
#[local] Hint Extern 1 (is_byte beaconType_enhanced) => byte_const : reads.

(** Walk through a handler whose reads follow the layout. *)
Ltac layout :=
  repeat first [rewrite fields_enc_app | rewrite fields_enc_cons];
  change (fields_enc []) with (@nil Z);
  rewrite <- ?app_assoc, ?app_nil_l.
Ltac handle :=
  layout; repeat (eapply handles_read; [solve [eauto with reads]|]; cbv beta);
  try (eapply handles_read_end; [solve [eauto with reads]|]; cbv beta).

Ltac unfold_head c := lazymatch c with ?f _ => unfold_head f | _ => unfold c end.

(** The handler the table holds for [x]. *)
Definition handler_for (cb : callbacks) (junk : ApiMac_sAddr) (x : indication) : R unit :=
  match x with
  | SyncLossInd _ => process_areq_sync_loss_ind cb
  | AssocInd _ => process_areq_associate_ind cb
  | AssocCnf _ => process_areq_associate_cnf cb
  | BeaconNotifyInd _ => process_areq_beacon_notify cb
  | DataCnf _ => process_areq_data_cnf cb
  | DataInd _ => process_areq_data_ind cb
  | DisassociateInd _ => process_areq_disassociate_ind cb
  | DisassociateCnf _ => process_areq_disassociate_cnf cb
  | OrphanInd _ => process_areq_orphan_ind cb
  | PollCnf _ _ => process_areq_poll_cnf cb
  | ScanCnf _ => process_areq_scan_cnf cb
  | CommStatusInd _ => process_areq_comm_status_ind cb
  | StartCnf _ => process_areq_start_cnf cb
  | PurgeCnf _ _ => process_areq_purge_cnf cb
  | PollInd _ => process_areq_poll_ind cb junk
  | WsAsyncCnf _ => process_areq_ws_async_cnf cb
  | WsAsyncInd _ => process_areq_ws_async_ind cb
  | ResetInd _ => process_areq_reset_ind cb
  | Unprocessed _ _ _ => mret tt
  end.

Definition ver_ok (ver : list Z) : Prop := zlen ver = 5 /\ is_bytes ver.

(** The indications of fixed size. *)
Definition fixed_size (x : indication) : bool :=
  match x with
  | DataInd _ | WsAsyncInd _ | BeaconNotifyInd _ | ScanCnf _ | Unprocessed _ _ _ => false
  | _ => true
  end.

Lemma handle_fixed cb ver junk x :
  fixed_size x = true -> ver_ok ver -> zlen (addr junk) = 8 -> ind_ok addr_ok junk x ->
  cb_of cb x = true -> handles 0 (handler_for cb junk x) (fields_enc (ind_fields ver x)) x.
Proof.
  intros Hfx [Hv5 Hvb] Hj Hok Hcb.
  destruct x; try discriminate Hfx; cbn [ind_ok cb_of handler_for ind_fields app] in *;
    destruct_and? Hok;
    match goal with |- handles _ ?c _ _ => unfold_head c end.
  all: try (handle; rewrite ?cap_roundtrip, ?to_bool_field, ?int8_u8, Hcb by done;
            try destruct x; apply handles_deliver).
  - layout. eapply handles_read; [by apply decode_Addr_consumes|]; cbv beta. handle.
    rewrite to_bool_field, Hcb. destruct x. apply handles_deliver.
  - unfold zlen in Hv5. do 6 (destruct ver as [|? ver]; try (cbn in Hv5; lia)).
    unfold is_bytes in Hvb. repeat match goal with H : Forall _ (_ :: _) |- _ => apply Forall_cons_iff in H as [? ?] end.
    cbn [fmap list_fmap]. handle. rewrite Hcb. apply handles_deliver.
Qed.

(** *** Data indications *)

Lemma get_idx_run h : get_idx h = Ret (iobuf_idx (h_msg h), h).
Proof. done. Qed.

Lemma no_error_run h d : ahead (h_msg h) d -> msg_is_error h = Ret (false, h).
Proof. intros [_ He _ _ _]. unfold msg_is_error. run_get. by rewrite He. Qed.

(** What a pointer into the message shows later. *)
Lemma view_run h h' d : ahead (h_msg h) d -> iobuf (h_msg h') = iobuf (h_msg h) ->
  view (iobuf_idx (h_msg h)) (zlen d) h' = Ret (d, h').
Proof.
  intros [H He H0 Hv Hs] E. pose proof (mwf_nvalid _ H). pose proof (mwf_buf _ H).
  pose proof (zlen_nonneg d). unfold view. run_get. unfold lift. rewrite E.
  rewrite mem_read_ok by lia. unfold zlen at 1. rewrite Nat2Z.id, Hs. done.
Qed.

Lemma handle_data_ind cb ver junk x :
  ind_ok addr_ok junk (DataInd x) -> pDataIndCb cb = true ->
  handles 0 (process_areq_data_ind cb) (fields_enc (ind_fields ver (DataInd x))) (DataInd x).
Proof.
  cbn [ind_ok]. intros (Hd & [md Hm] & [ie Hi] & Hf1 & Hf2) Hcb. unfold data_ok in Hd.
  destruct_and? Hd. unfold process_areq_data_ind. cbn [ind_fields]. unfold data_fields, data_tail.
  rewrite Hm, Hi in *. change (default [] (Some md)) with md in *.
  change (default [] (Some ie)) with ie in *. handle. rewrite app_nil_r.
  match goal with H : sd_len _ = _ |- _ => rewrite H end.
  match goal with H : di_payloadIeLen _ = _ |- _ => rewrite H end.
  intros h Hp. run_step (get_idx_run h).
  run_step (skipBuf_consumes _ md eq_refl h ie (pe_ahead _ _ Hp)).
  pose proof (pending_adv h md ie Hp) as Hp1. set (h1 := adv h (zlen md)) in *.
  run_step (get_idx_run h1). rewrite <- (app_nil_r ie) in Hp1.
  run_step (skipBuf_consumes _ ie eq_refl h1 [] (pe_ahead _ _ Hp1)).
  pose proof (pending_adv h1 ie [] Hp1) as Hp2. set (h2 := adv h1 (zlen ie)) in *.
  run_step (parse_pending h2 Hp2). run_step (no_error_run h2 [] (pe_ahead _ _ Hp2)).
  apply pe_ahead, ahead_app in Hp as [Ha _]. rewrite app_nil_r in Hp1. apply pe_ahead in Hp1.
  run_step (view_run h h2 md Ha eq_refl). run_step (view_run h1 h2 ie Hp1 eq_refl).
  rewrite Hcb, int8_u8 by done. eexists. split; [done|]. split; [|split_and!].
  - cbn. do 2 f_equal. destruct x as [? ? ? ? ? ? ? ? ? ? ? ? ? ? ? ? []]. cbn in *. by subst.
  - cbn. lia.
  - apply Hp2.
  - by do 2 eexists.
Qed.

(** A block held for [p]. *)
Definition held_by {A} (p : option A) : Z := match p with Some _ => 1 | None => 0 end.

Lemma handles_copy n len d (k : option (list Z) -> R unit) o d' x :
  len = zlen d -> o = (if len =? 0 then None else Some d) ->
  handles (n + held_by o) (k o) d' x -> handles n (rd_copy len ≫= k) (d ++ d') x.
Proof.
  intros -> -> Hk. unfold rd_copy. destruct (Z.eqb_spec (zlen d) 0) as [E|E].
  { apply handles_pure. assert (d = []) as -> by (unfold zlen in E; destruct d; [done|cbn in E; lia]).
    cbn in Hk. by rewrite Z.add_0_r in Hk. }
  apply handles_assoc, handles_calloc. eapply handles_read; [|exact Hk].
  pose proof (rdBufAt_consumes (Some (replicate (Z.to_nat (zlen d)) 0)) 0 (zlen d) d d eq_refl) as Hc.
  rewrite (proj2 (Z.eqb_neq _ _)) in Hc by done. apply Hc. intros _. apply mem_write_all.
  unfold zlen. rewrite length_replicate. lia.
Qed.

Lemma cleans_two {A B} (p : option A) (q : option B) n :
  n = held_by p + held_by q -> cleans n (api_mac_freeMem p;; api_mac_freeMem q).
Proof. intros ->. apply cleans_seq; by apply cleans_free. Qed.

Lemma handle_ws_async_ind cb ver junk x :
  ind_ok addr_ok junk (WsAsyncInd x) -> pWsAsyncIndCb cb = true ->
  handles 0 (process_areq_ws_async_ind cb) (fields_enc (ind_fields ver (WsAsyncInd x))) (WsAsyncInd x).
Proof.
  cbn [ind_ok]. intros (Hd & Hft & Hf2 & Hm & Hi) Hcb. unfold data_ok in Hd.
  destruct_and? Hd. unfold process_areq_ws_async_ind. cbn [ind_fields].
  unfold data_fields, data_tail. handle.
  assert (forall (o : option (list Z)) len, len = zlen (default [] o) -> (o = None <-> len = 0) ->
    o = if len =? 0 then None else Some (default [] o)) as Ho.
  { intros o len Hl Hn. destruct (Z.eqb_spec len 0); [by apply Hn|]. destruct o; [done|].
    by destruct n; apply Hn. }
  eapply handles_copy; [eassumption|by apply Ho|].
  eapply handles_copy; [eassumption|by apply Ho|].
  apply handles_parse, handles_error. rewrite Hcb, int8_u8 by done. cbn [call_if].
  replace (MkDataInd _ _ _ _ _ _ _ _ _ _ _ _ _ _ _ _ _) with x
    by (destruct x as [? ? ? ? ? ? ? ? ? ? ? ? ? ? ? ? []]; cbn in *; by subst).
  apply handles_call, cleans_two. lia.
Qed.

(** *** Scan results *)

Lemma panDesc_consumes d : panDesc_ok addr_ok d ->
  consumes (api_rd_panDesc panDesc_zero) (fields_enc (panDesc_fields d)) d.
Proof.
  unfold panDesc_ok. intros Hd. destruct_and? Hd. unfold api_rd_panDesc, panDesc_fields. layout.
  repeat (eapply consumes_bind; [solve [eauto with reads]|]; cbv beta).
  rewrite <- (app_nil_r (fields_enc _)). eapply consumes_bind; [by apply sec_consumes|].
  rewrite !to_bool_field. destruct d. apply consumes_ret.
Qed.

Lemma rd_panDescs_consumes ds : forall pre, Forall (panDesc_ok addr_ok) ds ->
  consumes (rd_panDescs (length ds) (length pre)
              (Some (pre ++ replicate (S (length ds)) panDesc_zero)))
    (fields_enc (ds ≫= panDesc_fields)) (Some (pre ++ ds ++ [panDesc_zero])).
Proof.
  induction ds as [|d ds IH]; intros pre Hd; [apply consumes_ret|].
  apply Forall_cons_iff in Hd as [Hd Hds]. cbn [length rd_panDescs mbind list_bind].
  rewrite fields_enc_app. apply (consumes_lift _ _ _ (pre ++ panDesc_zero :: replicate (S (length ds)) panDesc_zero)); [done|].
  apply (consumes_lift _ _ _ panDesc_zero).
  { by rewrite list_lookup_middle. }
  eapply consumes_bind; [by apply panDesc_consumes|].
  rewrite insert_app_r_alt, Nat.sub_diag by done. cbn [insert list_insert].
  specialize (IH (pre ++ [d]) Hds). rewrite length_app, Nat.add_1_r in IH.
  by rewrite <- !app_assoc in IH.
Qed.

(** Filling all but the last item of cleared memory. *)
Lemma mem_write_padded (d : list Z) k n : n = zlen d + Z.of_nat k ->
  mem_write (replicate (Z.to_nat n) 0) 0 d = Ret (d ++ replicate k 0).
Proof.
  intros ->. unfold zlen. rewrite mem_write_ok.
  - unfold splice. cbn [app]. change (Z.to_nat 0) with 0%nat. rewrite take_0, drop_replicate.
    by replace (Z.to_nat _ - (0 + length d))%nat with k by lia.
  - done.
  - unfold zlen. rewrite length_replicate. lia.
Qed.

Lemma rdBufAt_padded (d : list Z) k n m : m = zlen d -> n = zlen d + Z.of_nat k ->
  consumes (rdBufAt (Some (replicate (Z.to_nat n) 0)) 0 m) d (Some (d ++ replicate k 0)).
Proof.
  intros -> Hn.
  pose proof (rdBufAt_consumes (Some (replicate (Z.to_nat n) 0)) 0 (zlen d) d _ eq_refl
    (fun _ => mem_write_padded d k n Hn)) as Hc.
  destruct (Z.eqb_spec (zlen d) 0) as [E|E]; [|exact Hc].
  assert (d = []) as -> by (unfold zlen in E; destruct d; [done|cbn in E; lia]).
  cbn in Hc. rewrite Hn in *. unfold zlen in *. cbn [length app] in *.
  by replace (Z.to_nat (Z.of_nat 0 + Z.of_nat k)) with k in * by lia.
Qed.

Lemma handle_scan_cnf cb ver junk x :
  ind_ok addr_ok junk (ScanCnf x) -> pScanCnfCb cb = true ->
  handles 0 (process_areq_scan_cnf cb) (fields_enc (ind_fields ver (ScanCnf x))) (ScanCnf x).
Proof.
  cbn [ind_ok]. unfold scan_ok. intros (Hs & Hp & Hy & Hu & Hub & Hz & Hr) Hcb.
  assert (is_byte (sc_scanType x)) as Ht.
  { destruct (sc_result x); [by rewrite Hr; byte_const|destruct Hr as [-> _]; byte_const|].
    destruct Hr as [Hr _]. set_unfold in Hr. destruct_or! Hr; rewrite Hr; byte_const. }
  assert (consumes (rdBuf (replicate 17 0) 17) (field_enc (FBuf (sc_unscannedChannels x)))
            (sc_unscannedChannels x)) as Hch by (apply rdBuf_consumes; by rewrite Hu).
  unfold process_areq_scan_cnf. cbn [ind_fields app]. unfold scan_fields.
  destruct x as [st ty pg phy ch sz res].
  cbn [sc_status sc_scanType sc_channelPage sc_phyId sc_unscannedChannels sc_resultListSize
       sc_result] in *. rewrite Hcb.
  do 6 (rewrite fields_enc_cons; eapply handles_read; [solve [eauto with reads]|]; cbv beta).
  destruct res as [|b|l].
  - rewrite Hr. cbn [Z.eqb scantype_orphan]. apply handles_pure, handles_parse, handles_error.
    apply handles_call. by apply (cleans_two (@None (list ApiMac_panDesc)) (@None (list Z))).
  - destruct Hr as (-> & (d & [= ->] & Hl) & Hb). cbn [Z.eqb scantype_orphan scantype_energyDetect].
    apply handles_assoc, handles_calloc, handles_assoc, handles_error.
    layout. rewrite app_nil_r. unfold zlen in Hl.
    rewrite take_app_le, take_ge by lia. eapply handles_assoc, handles_read_end.
    { apply (rdBufAt_padded d 1); unfold zlen; lia. }
    apply handles_pure, handles_parse, handles_error, handles_call.
    by apply (cleans_two (@None (list ApiMac_panDesc)) (Some (d ++ replicate 1 0))).
  - destruct Hr as (Hty & (d & [= ->] & Hl) & Hf). apply Forall_app in Hf as [Hf _].
    unfold zlen in Hl. rewrite take_app_le, take_ge by lia.
    assert ((ty =? scantype_orphan) = false /\ (ty =? scantype_energyDetect) = false /\
      (ty =? scantype_activeEnhanced) || (ty =? scantype_active) || (ty =? scantype_passive) = true)
      as (-> & -> & ->) by (set_unfold in Hty; destruct_or! Hty; by rewrite Hty).
    apply handles_assoc, handles_calloc, handles_assoc, handles_error.
    eapply handles_assoc, handles_read_end.
    { replace (Z.to_nat sz) with (length d) by lia.
      replace (Z.to_nat (sz + 1)) with (S (length d)) by lia.
      by apply (rd_panDescs_consumes d []). }
    apply handles_pure, handles_parse, handles_error, handles_call.
    by apply (cleans_two (Some (d ++ [panDesc_zero])) (@None (list Z))).
Qed.

(** *** Beacons *)

(** Filling the next cell of cleared memory. *)
Lemma mem_write_next (pre : list Z) v n :
  mem_write (pre ++ replicate (S (S n)) 0) (zlen pre) [v] = Ret ((pre ++ [v]) ++ replicate (S n) 0).
Proof.
  rewrite mem_write_ok.
  - f_equal. unfold splice, zlen. rewrite Nat2Z.id, take_app_length.
    rewrite <- app_assoc. f_equal. cbn [length app]. f_equal.
    rewrite drop_app_ge by lia. by replace (length pre + 1 - length pre)%nat with 1%nat by lia.
  - apply zlen_nonneg.
  - rewrite zlen_app. unfold zlen. cbn. lia.
Qed.

Lemma rd_short_list_consumes l : forall pre, Forall is_u16 l ->
  consumes (rd_short_list (length l) (zlen pre) (Some (pre ++ replicate (S (length l)) 0)))
    (fields_enc (F16 <$> l)) (Some (pre ++ l ++ [0])).
Proof.
  induction l as [|v l IH]; intros pre Hl; [apply consumes_ret|].
  apply Forall_cons_iff in Hl as [Hv Hl]. rewrite fmap_cons, fields_enc_cons.
  cbn [length rd_short_list]. eapply consumes_bind; [by apply rdU16_consumes|].
  eapply consumes_lift; [done|].
  apply (consumes_lift _ _ _ ((pre ++ [v]) ++ replicate (S (length l)) 0)).
  { by rewrite mem_write_next. }
  specialize (IH (pre ++ [v]) Hl). rewrite zlen_app in IH.
  by replace (pre ++ (v :: l) ++ [0]) with ((pre ++ [v]) ++ l ++ [0]) by (by rewrite <- app_assoc).
Qed.

Lemma rd_ext_list_consumes n : forall e pre x,
  length e = (8 * n)%nat -> zlen pre = 8 * x ->
  consumes (rd_ext_list n x (Some (pre ++ replicate (8 * S n) 0))) e (Some (pre ++ e ++ replicate 8 0)).
Proof.
  induction n as [|n IH]; intros e pre x He Hp.
  { assert (e = []) as -> by (destruct e; [done|cbn in He; lia]). apply consumes_ret. }
  cbn [rd_ext_list]. rewrite <- (take_drop 8 e).
  assert (length (take 8 e) = 8%nat) as Ht by (rewrite length_take; lia).
  apply (consumes_bind _ _ [] _ tt _); [apply consumes_ret|].
  pose proof (rdBufAt_consumes (Some (pre ++ replicate (8 * S (S n)) 0)) (x * 8) 8 (take 8 e)
    ((pre ++ take 8 e) ++ replicate (8 * S n) 0)) as Hc. cbn [Z.eqb] in Hc.
  eapply consumes_bind; [apply Hc|].
  - unfold zlen. lia.
  - intros _. unfold zlen in Hp. rewrite mem_write_ok.
    + f_equal. unfold splice. replace (Z.to_nat (x * 8)) with (length pre) by lia.
      rewrite take_app_length, <- app_assoc. do 2 f_equal. rewrite Ht, drop_app_ge by lia.
      replace (length pre + 8 - length pre)%nat with 8%nat by lia. rewrite drop_replicate.
      f_equal. lia.
    + lia.
    + rewrite zlen_app. unfold zlen. rewrite Ht, length_replicate. lia.
  - replace (pre ++ (take 8 e ++ drop 8 e) ++ replicate 8 0)
      with ((pre ++ take 8 e) ++ drop 8 e ++ replicate 8 0) by (by rewrite <- !app_assoc).
    apply IH; [rewrite length_drop; lia|]. rewrite zlen_app. unfold zlen in *. lia.
Qed.

Lemma calloc_run {A} (z : A) c h : h_mallocs h = [] ->
  calloc z c h = Ret (Some (replicate (Z.to_nat c) z), own 1 h).
Proof. intros Hm. unfold calloc, api_mac_callocMem, mbind, M_bind, own. by rewrite Hm. Qed.

Lemma rewind h n k : set_msg_idx (iobuf_idx (h_msg h)) (own k (adv h n)) = Ret (tt, own k h).
Proof. destruct h as [[]]. reflexivity. Qed.

Lemma own_own a b h : own a (own b h) = own (b + a) h.
Proof. unfold own. cbn. f_equal. lia. Qed.

Lemma zlen_u16s l : zlen (fields_enc (F16 <$> l)) = 2 * zlen l.
Proof.
  induction l as [|v l IH]; [done|]. rewrite fmap_cons, fields_enc_cons, zlen_app, IH.
  unfold zlen. cbn [field_enc]. rewrite length_le_bytes. cbn [length]. lia.
Qed.

Lemma cleans_three {A B C} (p : A) (q : B) (r : C) :
  cleans 3 (api_mac_freeMem (Some p);; api_mac_freeMem (Some q);; api_mac_freeMem (Some r)).
Proof. change 3 with (1 + 2). apply cleans_seq; [by apply cleans_free|]. by apply cleans_two. Qed.

(** The second pass over the lists, which fills the memory. *)
Lemma handle_beacon_lists sl el sd ne x :
  Forall is_u16 sl -> zlen el = 8 * ne ->
  handles 3
    ((sl' ← rd_short_list (length sl) 0 (Some (replicate (Z.to_nat (zlen sl + 1)) 0));
      el' ← rd_ext_list (Z.to_nat ne) 0 (Some (replicate (Z.to_nat ((ne + 1) * 8)) 0));
      sdu ← rdBufAt (Some (replicate (Z.to_nat (zlen sd + 1)) 0)) 0 (zlen sd);
      parseComplete;;
      e ← msg_is_error;
      if (e : bool) then mret tt else call (x sl' el' sdu));;
     api_mac_freeMem (Some (replicate (Z.to_nat (zlen sl + 1)) 0));;
     api_mac_freeMem (Some (replicate (Z.to_nat ((ne + 1) * 8)) 0));;
     api_mac_freeMem (Some (replicate (Z.to_nat (zlen sd + 1)) 0)))
    (fields_enc (F16 <$> sl) ++ el ++ sd)
    (x (Some (sl ++ [0])) (Some (el ++ replicate 8 0)) (Some (sd ++ [0]))).
Proof.
  intros Hs He. unfold zlen in He. apply handles_assoc. eapply handles_read.
  { replace (Z.to_nat (zlen sl + 1)) with (S (length sl)) by (unfold zlen; lia).
    apply (rd_short_list_consumes sl []), Hs. }
  apply handles_assoc. eapply handles_read.
  { replace (Z.to_nat ((ne + 1) * 8)) with (8 * S (Z.to_nat ne))%nat by lia.
    apply (rd_ext_list_consumes (Z.to_nat ne) el [] 0); [lia|done]. }
  apply handles_assoc. eapply handles_read_end; [by apply (rdBufAt_padded sd 1)|].
  apply handles_assoc, handles_parse, handles_assoc, handles_error, handles_call.
  apply cleans_three.
Qed.

(** The first pass, which only skips, and the return to where it began. *)
Lemma handles_two_passes n d1 d2 d3 a b c (na nb nc : Z)
  (k : option (list Z) -> option (list Z) -> option (list Z) -> R unit)
  (f : option (list Z) -> option (list Z) -> option (list Z) -> R unit) x :
  a = zlen d1 -> b = zlen d2 -> c = zlen d3 ->
  let zeros n := Some (replicate (Z.to_nat n) 0) in
  handles (n + 3) (k (zeros na) (zeros nb) (zeros nc);; f (zeros na) (zeros nb) (zeros nc))
    (d1 ++ d2 ++ d3) x ->
  handles n
    (i ← get_idx;
     skipBuf a;; skipBuf b;; skipBuf c;; parseComplete;;
     e ← msg_is_error;
     if (e : bool) then mret tt
     else
       p ← calloc 0 na; q ← calloc 0 nb; r ← calloc 0 nc;
       e ← msg_is_error;
       (if (e : bool) then mret tt else set_msg_idx i;; k p q r);; f p q r)
    (d1 ++ d2 ++ d3) x.
Proof.
  intros -> -> -> zeros Hk h Hp. run_step (get_idx_run h).
  run_step (skipBuf_consumes _ d1 eq_refl h _ (pe_ahead _ _ Hp)).
  pose proof (pending_adv h d1 _ Hp) as H1. set (h1 := adv h (zlen d1)) in *.
  run_step (skipBuf_consumes _ d2 eq_refl h1 _ (pe_ahead _ _ H1)).
  pose proof (pending_adv h1 d2 _ H1) as H2. set (h2 := adv h1 (zlen d2)) in *.
  rewrite <- (app_nil_r d3) in H2.
  run_step (skipBuf_consumes _ d3 eq_refl h2 _ (pe_ahead _ _ H2)).
  pose proof (pending_adv h2 d3 _ H2) as H3. set (h3 := adv h2 (zlen d3)) in *.
  run_step (parse_pending h3 H3). run_step (no_error_run h3 [] (pe_ahead _ _ H3)).
  pose proof (pe_mallocs _ _ Hp) as Hm.
  run_step (calloc_run (A := Z) 0 na h3 Hm). run_step (calloc_run (A := Z) 0 nb (own 1 h3) Hm).
  run_step (calloc_run (A := Z) 0 nc (own 1 (own 1 h3)) Hm). rewrite !own_own.
  set (h4 := own (1 + (1 + 1)) h3). assert (msg_is_error h4 = Ret (false, h4)) as E4
    by (apply (no_error_run h4 []), H3). run_step E4.
  assert (h4 = own 3 (adv h (zlen d1 + zlen d2 + zlen d3))) as ->.
  { unfold h4, h3, h2, h1. rewrite !adv_adv. by rewrite ?Z.add_assoc. }
  destruct (Hk _ (pending_own 3 h _ Hp)) as (h' & E & Hc & Hb & Hr).
  exists h'. split; [|split; [done|]; split; [cbn in Hb; lia|done]].
  rewrite <- E. unfold mbind at 1 2, M_bind at 1 2. by rewrite rewind.
Qed.

Lemma handle_beacon cb ver junk x :
  ind_ok addr_ok junk (BeaconNotifyInd x) -> pBeaconNotifyIndCb cb = true ->
  handles 0 (process_areq_beacon_notify cb) (fields_enc (ind_fields ver (BeaconNotifyInd x)))
    (BeaconNotifyInd x).
Proof.
  cbn [ind_ok]. unfold beacon_ok. intros [Hb Hx] Hcb. unfold process_areq_beacon_notify.
  rewrite Hcb. cbn [negb ind_fields app]. unfold beacon_fields.
  destruct x as [ty bsn pd [b|c]]; cbn [bn_beaconData bn_bsn bn_beaconType bn_panDesc] in *.
  2:{ destruct Hx as (-> & -> & Hx). destruct_and? Hx.
      do 2 (rewrite fields_enc_cons; eapply handles_read; [solve [eauto with reads]|]; cbv beta).
      cbn [Z.eqb beaconType_normal beaconType_enhanced]. unfold beacon_enhanced. handle.
      rewrite Hcb. destruct c. apply handles_deliver. }
  destruct Hx as (-> & Hpd & Hs & He & Hu & (sl & Hsl & Hsz) & Hsf & (el & Hel & Hez) & Hef &
                  (sd & Hsd & Hdz) & Hdf). unfold panDesc_ok in Hpd. destruct_and? Hpd.
  destruct b as [ns ps ne pe nd pb]. cbn [numPendShortAddr pShortAddrList numPendExtAddr pExtAddrList
    sduLength pSdu] in *. subst ps pe pb. cbn [default from_option] in *. unfold id in *.
  apply Forall_app in Hsf as [Hsf _].
  replace (Z.to_nat ns) with (length sl) by (unfold zlen in Hsz; lia).
  replace (Z.to_nat (8 * ne)) with (length el) by (unfold zlen in Hez; lia).
  replace (Z.to_nat nd) with (length sd) by (unfold zlen in Hdz; lia).
  rewrite !take_app_length.
  do 2 (rewrite fields_enc_cons; eapply handles_read; [solve [eauto with reads]|]; cbv beta).
  cbn [Z.eqb beaconType_normal]. unfold beacon_normal. layout. rewrite app_nil_r. cbn [field_enc].
  repeat (eapply handles_read; [solve [eauto with reads]|]; cbv beta).
  rewrite !to_bool_field. eapply handles_two_passes; [by rewrite zlen_u16s, Hsz|done|done|].
  subst ns nd. replace (Z.to_nat (zlen sl)) with (length sl) by (unfold zlen; lia).
  destruct pd. eapply (handle_beacon_lists sl el sd ne (fun a b c => BeaconNotifyInd (MkBeaconNotify
    beaconType_normal bsn _ (U_beacon (MkBeacon (zlen sl) a ne b (zlen sd) c))))); done.
Qed.

Lemma handle_all cb ver junk x :
  ver_ok ver -> zlen (addr junk) = 8 -> ind_ok addr_ok junk x -> cb_of cb x = true ->
  handles 0 (handler_for cb junk x) (fields_enc (ind_fields ver x)) x.
Proof.
  intros Hv Hj Hok Hcb. destruct (fixed_size x) eqn:E; [by apply handle_fixed|].
  destruct x; try discriminate E;
    eauto using handle_beacon, handle_scan_cnf, handle_data_ind, handle_ws_async_ind. by destruct Hok.
Qed.

(** ** Dispatch *)

Lemma lookup_handler_for cb junk m x :
  ind_ok addr_ok junk x -> ind_cmd x = ((Z.land (cmd0 m) 0x7F), cmd1 m) ->
  lookup_handler cb junk m = Some (handler_for cb junk x).
Proof.
  intros Hok Hc. unfold lookup_handler, lut.
  destruct x; cbn [ind_cmd] in Hc; injection Hc as H0 H1; rewrite <- H0, <- H1;
    (reflexivity || by destruct Hok).
Qed.

(** The script of allocations a handler leaves. *)
Definition after (ml : list bool) (s : mif) : mif :=
  set_world s (MkWorld ml (writes (outside s)) (locks (outside s)) (arrivals (outside s))).

(** Running a handler on the message behind a pointer. *)
Lemma run_handler_run p f a m s h :
  f (MkHst m (mallocs (outside s)) (a_blocks a) (a_calls a)) = Ret (tt, h) ->
  run_handler p f (MkApi (put p m s) (pApiMac_callbacks a) (a_blocks a) (a_calls a)) =
  Ret (tt, MkApi (put p (h_msg h) (after (h_mallocs h) s)) (pApiMac_callbacks a) (h_blocks h) (h_calls h)).
Proof.
  intros E. unfold run_handler. cbn [a_mi a_blocks a_calls pApiMac_callbacks]. rewrite load_put.
  cbn [mbind outcome_bind]. change (outside (put p m s)) with (outside s). rewrite E.
  cbn [mbind outcome_bind]. unfold store.
  change (heap (set_world (put p m s) ?w)) with (heap (put p m s)). rewrite heap_put.
  cbn [mbind outcome_bind]. do 3 f_equal. unfold put, after. cbn. by rewrite insert_insert_eq.
Qed.

Lemma run_handler_undef p f a m s u :
  f (MkHst m (mallocs (outside s)) (a_blocks a) (a_calls a)) = Undef u ->
  run_handler p f (MkApi (put p m s) (pApiMac_callbacks a) (a_blocks a) (a_calls a)) = Undef u.
Proof.
  intros E. unfold run_handler. cbn [a_mi a_blocks a_calls pApiMac_callbacks]. rewrite load_put.
  cbn [mbind outcome_bind]. change (outside (put p m s)) with (outside s). by rewrite E.
Qed.

(** An asynchronous message waits at the head of the list. *)
Record waiting (a : api) (p : positive) (q : list positive) (m : mt_msg) : Prop := MkWaiting {
  in_list : list_inv (a_mi a) (p :: q);
  in_heap : heap (a_mi a) !! p = Some m;
  in_type : m_type m = T_areq \/ m_type m = T_areq_frag_data;
  in_srsp : pSrsp m = None
}.

(** And there is memory for everything. *)
Record incoming (a : api) (p : positive) (q : list positive) (m : mt_msg) : Prop := MkIncoming {
  in_waiting : waiting a p q m;
  in_mallocs : mallocs (outside (a_mi a)) = []
}.

(** The module after the message at the head of the list was handled: the
    message is gone, and the calls [xs] were made. *)
Record handled (a : api) (p : positive) (q : list positive) (xs : list indication) (a' : api)
  : Prop := MkHandled {
  hd_list : list_inv (a_mi a') q;
  hd_heap : heap (a_mi a') = delete p (heap (a_mi a));
  hd_wire : wire (a_mi a') = wire (a_mi a);
  hd_cbs : pApiMac_callbacks a' = pApiMac_callbacks a;
  hd_blocks : a_blocks a' = a_blocks a;
  hd_calls : a_calls a' = a_calls a ++ xs
}.

Lemma on_mi_run {A} (f : IO A) a x s :
  f (a_mi a) = Ret (x, s) ->
  on_mi f a = Ret (x, MkApi s (pApiMac_callbacks a) (a_blocks a) (a_calls a)).
Proof. intros E. unfold on_mi. by rewrite E. Qed.

(** Up to the handler [f] that the table holds. *)
Lemma processIncoming_head junk a p q m cb f :
  waiting a p q m -> pApiMac_callbacks a = Some cb -> lookup_handler cb junk m = Some f ->
  exists s, list_inv (put p (unlinked m) s) q /\ (p ∉ q) /\ heap s = heap (a_mi a) /\ wire s = wire (a_mi a) /\ mallocs (outside s) = mallocs (outside (a_mi a)) /\
    ApiMac_processIncoming junk a =
    (run_handler p f;; on_mi (MT_MSG_free (Some p))) (MkApi (put p (unlinked m) s) (pApiMac_callbacks a) (a_blocks a) (a_calls a)).
Proof.
  intros [Hl Hh Ht Hs] Hcb Hf.
  destruct (list_remove_head (a_mi a) p q m Hl Hh) as (s & Er & Hq & Hpq & E1 & E2 & _ & E4).
  exists s. split_and!; try done; [by rewrite E2|].
  unfold ApiMac_processIncoming. run_step (on_mi_run _ a _ _ Er). cbv match.
  set (a1 := MkApi (put p (unlinked m) s) _ _ _).
  assert (on_mi (load p) a1 = Ret (unlinked m, a1)) as El
    by exact (on_mi_run (load p) a1 _ _ (load_put p (unlinked m) s)).
  run_step El.
  assert (bool_decide (m_type (unlinked m) = T_areq) ||
          bool_decide (m_type (unlinked m) = T_areq_frag_data) = true) as ->.
  { change (m_type (unlinked m)) with (m_type m). by destruct Ht as [-> | ->]. }
  assert (process_areq junk p a1 = run_handler p f a1) as Ep.
  { unfold process_areq. run_get. assert (pApiMac_callbacks a1 = Some cb) as -> by exact Hcb. run_step El.
    by assert (lookup_handler cb junk (unlinked m) = Some f) as -> by exact Hf. }
  unfold mbind, M_bind. by rewrite Ep.
Qed.

(** [f] behaves on the message. *)
Lemma processIncoming_run junk a p q m cb f xs :
  waiting a p q m -> pApiMac_callbacks a = Some cb -> lookup_handler cb junk m = Some f ->
  (exists h, f (MkHst (unlinked m) (mallocs (outside (a_mi a))) (a_blocks a) (a_calls a)) = Ret (tt, h) /\
     h_calls h = a_calls a ++ xs /\ h_blocks h = a_blocks a /\ same_content (unlinked m) (h_msg h)) ->
  exists a', ApiMac_processIncoming junk a = Ret (tt, a') /\ handled a p q xs a'.
Proof.
  intros Hw Hcb Hf (h & E & Hc & Hb & (er & ix & Hsc)).
  destruct (processIncoming_head junk a p q m cb f Hw Hcb Hf) as (s & Hq & Hpq & E1 & Ew & E2 & ->).
  pose proof (run_handler_run p f a (unlinked m) s h) as Eh. rewrite E2 in Eh. specialize (Eh E). run_step Eh.
  set (s1 := after (h_mallocs h) s). set (a2 := MkApi _ _ _ _).
  assert (on_mi (MT_MSG_free (Some p)) a2 = Ret (tt, MkApi (set_heap (put p (h_msg h) s1)
    (delete p (heap (put p (h_msg h) s1)))) (pApiMac_callbacks a) (h_blocks h) (h_calls h))) as Ef.
  { apply (on_mi_run _ a2). apply (free_single _ p (h_msg h)); [apply heap_put|by rewrite Hsc|rewrite Hsc; exact (in_srsp _ _ _ _ Hw)]. }
  rewrite Ef. eexists. split; [done|]. constructor; try done.
  - constructor; [|apply Hq]. apply chain_delete_other; [|done].
    cbn [put set_heap heap a_mi]. rewrite <- (insert_insert_eq (heap s1) p (h_msg h) (unlinked m)).
    apply chain_insert_other; [apply Hq|done].
  - cbn. by rewrite delete_insert_eq, E1.
Qed.

(** [f] does not behave. *)
Lemma processIncoming_undef junk a p q m cb f u :
  waiting a p q m -> pApiMac_callbacks a = Some cb -> lookup_handler cb junk m = Some f ->
  f (MkHst (unlinked m) (mallocs (outside (a_mi a))) (a_blocks a) (a_calls a)) = Undef u ->
  ApiMac_processIncoming junk a = Undef u.
Proof.
  intros Hw Hcb Hf E. destruct (processIncoming_head junk a p q m cb f Hw Hcb Hf) as (s & _ & _ & _ & _ & E2 & ->).
  pose proof (run_handler_undef p f a (unlinked m) s u) as Eh. rewrite E2 in Eh. specialize (Eh E).
  unfold mbind, M_bind. by rewrite Eh.
Qed.

(** ** Any message at all *)

Section Memory.
(** Is there memory for everything? *)
Variable G : Prop.

(** What a handler may find: a well-formed message of some interface whose
    read index is set. *)
Record hwf (h : hst) : Prop := MkHwf {
  hw_msg : msg_wf (h_msg h);
  hw_src : is_Some (pSrcIface (h_msg h));
  hw_idx : is_error (h_msg h) = true \/ 0 <= iobuf_idx (h_msg h);
  hw_mallocs : G -> false ∉ h_mallocs h
}.

(** Nothing but the read position and the error flag changed, and an error
    stays one. *)
Definition steps (h h' : hst) : Prop :=
  same_content (h_msg h) (h_msg h') /\
  (is_error (h_msg h) = true -> is_error (h_msg h') = true).

#[local] Instance steps_preorder : PreOrder steps.
Proof.
  split.
  - intros h. split; [reflexivity|done].
  - intros a b c [S1 E1] [S2 E2]. split; [by etrans|auto].
Qed.

(** [c] returns a value of [P], makes no call and holds [n] blocks more. *)
Definition safe {A} (n : Z) (c : R A) (P : A -> Prop) : Prop :=
  forall h, hwf h -> exists a h', c h = Ret (a, h') /\ P a /\ hwf h' /\ steps h h' /\
    h_blocks h' = h_blocks h + n /\ h_calls h' = h_calls h.

(** From [h] the computation returns [h'], makes at most one call, with a value of
    [P], and releases [n] blocks more than it allocates. *)
Definition finished (P : indication -> Prop) (n : Z) (h : hst) (h' : hst) : Prop :=
  exists xs, steps h h' /\ h_blocks h' = h_blocks h - n /\ h_calls h' = h_calls h ++ xs /\
    (xs = [] \/ exists x, xs = [x] /\ P x).
(** [c] does that, or uses a null pointer because there was no memory. *)
Definition finishes (P : indication -> Prop) (n : Z) (c : R unit) : Prop :=
  forall h, hwf h -> (exists h', c h = Ret (tt, h') /\ finished P n h h') \/ ~ G /\ c h = Undef NullPointer.

Lemma finished_after P n m h h1 h2 :
  steps h h1 -> h_blocks h1 = h_blocks h + m -> h_calls h1 = h_calls h -> finished P (n + m) h1 h2 -> finished P n h h2.
Proof.
  intros S1 B1 C1 (xs & S2 & B2 & C2 & X2). exists xs. split; [by etrans|]. split; [lia|]. split; [congruence|done].
Qed.

Lemma finished_idle P n h h' :
  steps h h' -> h_blocks h' = h_blocks h - n -> h_calls h' = h_calls h -> finished P n h h'.
Proof. intros S B C. exists []. rewrite app_nil_r. split_and!; try done. by left. Qed.

Lemma safe_bind {A B} n m (c : R A) (k : A -> R B) P Q :
  safe n c P -> (forall a, P a -> safe m (k a) Q) -> safe (n + m) (c ≫= k) Q.
Proof.
  intros Hc Hk h Hh. destruct (Hc h Hh) as (a & h1 & E1 & Pa & H1 & S1 & B1 & C1).
  destruct (Hk a Pa h1 H1) as (b & h2 & E2 & Pb & H2 & S2 & B2 & C2).
  exists b, h2. run_step E1. split; [done|]. split; [done|]. split; [done|].
  split; [by etrans|]. split; [lia|congruence].
Qed.

Lemma safe_ret {A} (a : A) (P : A -> Prop) : P a -> safe 0 (mret a) P.
Proof. intros Pa h Hh. exists a, h. split_and!; try done. lia. Qed.

Lemma safe_weaken {A} n (c : R A) (P Q : A -> Prop) :
  safe n c P -> (forall a, P a -> Q a) -> safe n c Q.
Proof. intros Hc Hpq h Hh. destruct (Hc h Hh) as (a & h1 & E & Pa & Hr). exists a, h1. auto. Qed.

Lemma safe_lift {A B} (o : outcome A) (k : A -> R B) n a Q :
  o = Ret a -> safe n (k a) Q -> safe n (lift o ≫= k) Q.
Proof. by intros ->. Qed.

Lemma finishes_bind {A} P n m (c : R A) (k : A -> R unit) Q :
  safe m c Q -> (forall a, Q a -> finishes P (n + m) (k a)) -> finishes P n (c ≫= k).
Proof.
  intros Hc Hk h Hh. destruct (Hc h Hh) as (a & h1 & E1 & Pa & H1 & S1 & B1 & C1).
  unfold mbind, M_bind. rewrite E1. cbn [mbind outcome_bind].
  destruct (Hk a Pa h1 H1) as [(h2 & E2 & F2)|E2]; [left|by right]. exists h2. split; [done|by eapply finished_after].
Qed.

(** Reads that allocate nothing. *)
Lemma finishes_rd {A} P n (c : R A) (k : A -> R unit) Q :
  safe 0 c Q -> (forall a, Q a -> finishes P n (k a)) -> finishes P n (c ≫= k).
Proof. intros Hc Hk. eapply finishes_bind; [exact Hc|]. intros a Ha. rewrite Z.add_0_r. auto. Qed.

Lemma safe_rd {A B} n (c : R A) (k : A -> R B) P Q :
  safe 0 c P -> (forall a, P a -> safe n (k a) Q) -> safe n (c ≫= k) Q.
Proof. intros. change n with (0 + n). by eapply safe_bind. Qed.

(** A read operation of the message. *)
Lemma read_safe h m' :
  hwf h -> msg_wf m' -> same_content (h_msg h) m' ->
  (is_error (h_msg h) = true -> is_error m' = true) ->
  is_error m' = true \/ 0 <= iobuf_idx m' ->
  hwf (with_msg h m') /\ steps h (with_msg h m').
Proof.
  intros [W S I M] W' (e & x & ->) He Hi. split; [by constructor|]. split; [by do 2 eexists|done].
Qed.

Lemma rd_loop_idx n : forall m x v r m', rd_loop n m x v = Ret (r, m') -> 0 <= iobuf_idx m ->
  is_error m' = is_error m /\ 0 <= iobuf_idx m'.
Proof.
  induction n as [|n IH]; intros m x v r m' E Hi; cbn [rd_loop] in E; [by injection E as _ <-|].
  destruct (negb _); [by injection E as _ <-|].
  apply bind_Ret_inv in E as (d & _ & E). apply bind_Ret_inv in E as (b & _ & E).
  apply IH in E; [done|]. cbn. lia.
Qed.

Lemma rdUX_typed h n : hwf h ->
  exists r m', MT_MSG_rdUX_DBG (h_msg h) n = Ret (r, m') /\ hwf (with_msg h m') /\
    steps h (with_msg h m').
Proof.
  intros Hh. pose proof Hh as [W S I M]. destruct (rdUX_safe (h_msg h) n W) as (r & m' & E & W' & C).
  exists r, m'. split; [done|]. unfold MT_MSG_rdUX_DBG in E.
  destruct (is_error (h_msg h)) eqn:Ee.
  - injection E as _ <-. apply read_safe; try done; by left.
  - destruct I as [I|I]; [done|]. unfold init_rd_idx in E. rewrite (proj2 (Z.ltb_ge _ _)) in E by done.
    apply rd_loop_idx in E as [E1 E2]; [|done]. apply read_safe; try done; [congruence|by right].
Qed.

Lemma rdU8_safe : safe 0 rdU8 is_byte.
Proof.
  intros h Hh. destruct (rdUX_typed h 8 Hh) as (r & m' & E & H' & S').
  exists (u8 r), (with_msg h m'). unfold rdU8, rd, MT_MSG_rdU8_DBG. rewrite E.
  split; [done|]. split; [apply u8_byte|]. split_and!; try done. cbn. lia.
Qed.
Lemma rdU16_safe : safe 0 rdU16 is_u16.
Proof.
  intros h Hh. destruct (rdUX_typed h 16 Hh) as (r & m' & E & H' & S').
  exists (u16 r), (with_msg h m'). unfold rdU16, rd, MT_MSG_rdU16_DBG. rewrite E.
  split; [done|]. split; [apply Z.mod_pos_bound; lia|]. split_and!; try done. cbn. lia.
Qed.
Lemma rdU32_safe : safe 0 rdU32 is_u32.
Proof.
  intros h Hh. destruct (rdUX_typed h 32 Hh) as (r & m' & E & H' & S').
  exists (u32 r), (with_msg h m'). unfold rdU32, rd, MT_MSG_rdU32_DBG. rewrite E.
  split; [done|]. split; [apply Z.mod_pos_bound; lia|]. split_and!; try done. cbn. lia.
Qed.

(** The bytes of a buffer read: all or nothing. *)
Lemma rdBuf_typed h copy n : hwf h -> 0 <= n < 2 ^ 31 - IOBUF_SIZE ->
  exists d m', MT_MSG_rdBuf_DBG (h_msg h) copy n = Ret (d, m') /\ hwf (with_msg h m') /\
    steps h (with_msg h m') /\
    (forall b, d = Some b -> zlen b = n /\ is_bytes b) /\
    (is_error m' = false -> 0 <= iobuf_idx (h_msg h) /\ iobuf_idx (h_msg h) + n <= IOBUF_SIZE).
Proof.
  intros Hh Hn. pose proof Hh as [W S I M]. pose proof W as [Wb Wy Wm Wi _].
  unfold MT_MSG_rdBuf_DBG. destruct (is_error (h_msg h)) eqn:Ee.
  { destruct (read_safe h (h_msg h)) as [Hw Hs]; try done; [by left|].
    do 2 eexists. split; [done|]. split; [done|]. split; [done|]. split; [done|congruence]. }
  destruct I as [I|I]; [done|]. unfold init_rd_idx. rewrite (proj2 (Z.ltb_ge _ _)) by done.
  destruct (Z.eqb_spec n 0) as [->|Hn0].
  { destruct (read_safe h (h_msg h)) as [Hw Hs]; try done; [by right|].
    do 2 eexists. split; [done|]. split; [done|]. split; [done|]. split; [done|lia]. }
  unfold IOBUF_SIZE in *. rewrite int32_id, Wm by lia.
  destruct (Z.ltb_spec 4096 (iobuf_idx (h_msg h) + n)) as [Hlt|Hlt].
  { destruct (read_safe h (set_error (h_msg h))) as [Hw Hs]; try done;
      [by apply set_error_wf|by do 2 eexists|by left|].
    do 2 eexists. split; [done|]. split; [done|]. split; [done|]. split; done. }
  assert (hwf (with_msg h (set_idx (h_msg h) (iobuf_idx (h_msg h) + n))) /\
          steps h (with_msg h (set_idx (h_msg h) (iobuf_idx (h_msg h) + n)))) as [Hw Hs].
  { apply read_safe; [done|apply set_idx_wf; [done|unfold IOBUF_SIZE; lia]|by do 2 eexists| |].
    - cbn. congruence.
    - right. cbn. lia. }
  destruct copy; [rewrite mem_read_ok by lia|]; do 2 eexists; (split; [done|]); (split; [done|]);
    (split; [done|]); (split; [|done]); [|done].
  intros b [= <-]. split; [|by apply is_bytes_slice]. unfold zlen in *. rewrite length_slice; lia.
Qed.

Lemma rdBufAt_safe b o n : 0 <= n < 2 ^ 31 - IOBUF_SIZE -> 0 <= o -> o + n <= zlen b ->
  safe 0 (rdBufAt (Some b) o n) (fun r => r = Some b \/
    exists d, zlen d = n /\ is_bytes d /\ r = Some (splice (Z.to_nat o) d b)).
Proof.
  intros Hn Ho Hb h Hh. destruct (rdBuf_typed h true n Hh Hn) as (d & m' & E & Hw & Hs & Hd & _).
  unfold rdBufAt. rewrite bool_decide_true by done. rewrite E. cbn [mbind outcome_bind].
  destruct d as [d|].
  - destruct (Hd d eq_refl) as [Hl Hy]. rewrite mem_write_ok by lia. do 2 eexists. split; [done|].
    split; [right; by exists d|]. split; [done|]. split; [done|]. split; [cbn; lia|done].
  - do 2 eexists. split; [done|]. split; [by left|]. split; [done|]. split; [done|].
    split; [cbn; lia|done].
Qed.

Lemma rdBuf_safe dst n : zlen dst = n -> n < 2 ^ 31 - IOBUF_SIZE -> is_bytes dst ->
  safe 0 (rdBuf dst n) (fun b => zlen b = n /\ is_bytes b).
Proof.
  intros Hl Hn Hb. pose proof (zlen_nonneg dst). eapply safe_rd; [apply rdBufAt_safe; lia|].
  intros r Hr. assert (exists b, r = Some b /\ zlen b = n /\ is_bytes b) as (b & -> & Hz & Hy).
  { destruct Hr as [-> | (d & Hd & Hdb & ->)]; [by exists dst|]. eexists. split; [done|].
    split; [|by apply is_bytes_splice]. unfold zlen in *. rewrite length_splice; cbn; lia. }
  intros h Hh. exists b, h. split; [done|]. split_and!; try done. lia.
Qed.

Lemma skipBuf_run h n : hwf h -> 0 <= n < 2 ^ 31 - IOBUF_SIZE ->
  exists h', skipBuf n h = Ret (tt, h') /\ hwf h' /\ steps h h' /\
    h_blocks h' = h_blocks h /\ h_calls h' = h_calls h /\
    (is_error (h_msg h') = false ->
     0 <= iobuf_idx (h_msg h) /\ iobuf_idx (h_msg h) + n <= IOBUF_SIZE).
Proof.
  intros Hh Hn. destruct (rdBuf_typed h false n Hh Hn) as (d & m' & E & Hw & Hs & _ & Hi).
  exists (with_msg h m'). split; [|done]. unfold skipBuf, mbind at 1, M_bind at 1. unfold rdBufAt.
  rewrite bool_decide_false by (by intros [? ?]). rewrite E. by destruct d.
Qed.

Lemma skipBuf_safe n : 0 <= n < 2 ^ 31 - IOBUF_SIZE -> safe 0 (skipBuf n) (fun _ => True).
Proof.
  intros Hn h Hh. destruct (skipBuf_run h n Hh Hn) as (h' & E & Hw & Hs & Hb & Hc & _).
  exists tt, h'. split_and!; try done. lia.
Qed.

Lemma parse_safe : safe 0 parseComplete (fun _ => True).
Proof.
  intros h Hh. pose proof Hh as [W [i Hi] I M].
  unfold parseComplete, MT_MSG_parseComplete. rewrite Hi.
  cbn [deref mbind outcome_bind]. destruct (_ =? _).
  - exists tt, h. split; [by destruct h|]. split; [done|]. split; [done|]. split; [reflexivity|].
    split; [lia|done].
  - destruct (read_safe h (set_error (h_msg h))) as [Hw Hs];
      [done|by apply set_error_wf|by do 2 eexists|done|by left|].
    do 2 eexists. split; [done|]. split; [done|]. split; [done|]. split; [done|].
    split; [cbn; lia|done].
Qed.

Lemma error_safe : safe 0 msg_is_error (fun _ => True).
Proof. intros h Hh. exists (is_error (h_msg h)), h. split_and!; try done. lia. Qed.

Create HintDb safe.
#[local] Hint Resolve rdU8_safe rdU16_safe rdU32_safe parse_safe error_safe : safe.

Ltac safely := repeat (eapply safe_rd; [solve [eauto with safe]|]; intros ? ?); cbv beta.
Ltac finish1 :=
  lazymatch goal with |- finishes _ _ (@mbind _ _ _ _ _ _) =>
    eapply finishes_rd; [solve [eauto with safe]|] end.
Ltac finish := repeat (finish1; intros ? ?); cbv beta.

Lemma decode_Sec_safe s : zlen (keySource s) = 8 -> is_bytes (keySource s) ->
  safe 0 (decode_Sec s) sec_ok.
Proof.
  intros Hl Hb. unfold decode_Sec. eapply safe_rd; [apply rdBuf_safe; [done|by_eval|done]|].
  intros k [Hk Hkb].
  safely. apply safe_ret. unfold sec_ok. by split_and!.
Qed.

Lemma rd_ext_safe n : forall x b, 0 <= x -> x + Z.of_nat n <= zlen b -> is_bytes b ->
  safe 0 (rd_ext n x b) (fun r => zlen r = zlen b /\ is_bytes r).
Proof.
  induction n as [|n IH]; intros x b Hx Hl Hb; cbn [rd_ext]; [by apply safe_ret|].
  eapply safe_rd; [apply rdU8_safe|]. intros v Hv.
  eapply safe_lift; [apply mem_write_ok; unfold zlen in *; cbn; lia|].
  assert (zlen (splice (Z.to_nat x) [v] b) = zlen b) as Hz
    by (unfold zlen in *; rewrite length_splice; cbn; lia).
  eapply safe_weaken; [apply IH; [lia|lia|]|by rewrite Hz].
  apply is_bytes_splice; [by apply Forall_singleton|done].
Qed.

Lemma rd_filler_safe n : safe 0 (rd_filler n) (fun _ => True).
Proof. induction n; cbn [rd_filler]; [by apply safe_ret|]. by safely. Qed.

Lemma decode_Addr_safe a0 : zlen (addr a0) = 8 -> is_bytes (addr a0) ->
  safe 0 (decode_Addr a0) (addr_typed a0).
Proof.
  intros Hl Hb. unfold decode_Addr. eapply safe_rd; [apply rdU8_safe|]. intros mode Hm.
  destruct (mode =? addrType_short).
  - eapply safe_rd; [apply rdU16_safe|]. intros v Hv.
    eapply safe_lift; [apply mem_write_ok; [done|]; unfold zlen in *; rewrite length_le_bytes; lia|].
    eapply safe_rd; [apply rd_filler_safe|]. intros _ _. apply safe_ret.
    unfold addr_typed. cbn [addr addrMode]. split; [done|]. split; [unfold zlen in *; rewrite length_splice; rewrite ?length_le_bytes; cbn; lia|].
    apply is_bytes_splice; [apply le_bytes_bytes|done].
  - eapply safe_rd; [apply rd_ext_safe; [done|by rewrite Hl|done]|]. intros b [Hbl Hbb].
    apply safe_ret. unfold addr_typed. cbn [addr addrMode]. by rewrite Hbl.
Qed.

Lemma zeros_bytes n : is_bytes (replicate n 0).
Proof. apply Forall_replicate. byte_const. Qed.

Lemma sec_safe : safe 0 (decode_Sec sec_zero) sec_ok.
Proof. by apply decode_Sec_safe; [|apply zeros_bytes]. Qed.
Lemma addr_safe : safe 0 (decode_Addr sAddr_zero) (addr_typed sAddr_zero).
Proof. by apply decode_Addr_safe; [|apply zeros_bytes]. Qed.
Lemma ext_safe : safe 0 (rdBuf (replicate 8 0) APIMAC_SADDR_EXT_LEN) ext_ok.
Proof. apply rdBuf_safe; [done|by_eval|apply zeros_bytes]. Qed.
#[local] Hint Resolve sec_safe addr_safe ext_safe : safe.

Lemma finishes_clean P n c : cleans n c -> finishes P n c.
Proof.
  intros Hc h Hh. left. rewrite Hc. exists (own (- n) h). split; [done|]. apply finished_idle; [by split|cbn; lia|done].
Qed.

Lemma finishes_call_if P n cb x (k : unit -> R unit) :
  P x -> cleans n (k tt) -> finishes P n (call_if cb x ≫= k).
Proof.
  intros Px Hk. destruct cb; [|by apply finishes_clean].
  intros h Hh. left. unfold call_if, call. run_modify. rewrite Hk. eexists. split; [done|]. exists [x].
  split; [by split|]. split; [cbn; lia|]. split; [done|]. right. by exists x.
Qed.

Lemma finishes_seq_ret P n c : finishes P n (c ≫= fun _ => mret tt) -> finishes P n c.
Proof.
  intros H h Hh. specialize (H h Hh). by rewrite bind_ret_r in H.
Qed.

Lemma finishes_tail (P : indication -> Prop) n cb x (k : unit -> R unit) :
  P x -> cleans n (k tt) ->
  finishes P n (parseComplete;; e ← msg_is_error;
                ((if (e : bool) then mret tt else call_if cb x) ≫= k)).
Proof.
  intros Px Hk. finish1; intros _ _. finish1; intros e _.
  destruct e; [by apply finishes_clean|by apply finishes_call_if].
Qed.

Lemma finishes_assoc {A B} P n (c : R A) (k : A -> R B) (l : B -> R unit) :
  finishes P n (c ≫= fun a => k a ≫= l) -> finishes P n ((c ≫= k) ≫= l).
Proof.
  intros H h Hh. specialize (H h Hh). unfold mbind, M_bind in *. destruct (c h) as [[]| |]; done.
Qed.

Lemma set_idx_safe i : 0 <= i <= IOBUF_SIZE -> safe 0 (set_msg_idx i) (fun _ => True).
Proof.
  intros Hi h [W S I M]. exists tt, (with_msg h (set_idx (h_msg h) i)). split; [done|]. split; [done|].
  split; [constructor; [apply set_idx_wf; [done|lia]|done|right; exact (proj1 Hi)|done]|].
  split; [split; [by do 2 eexists|done]|]. split; [cbn; lia|done].
Qed.

(** The two passes over the lists of a beacon: what follows the first one. *)
Lemma finishes_two_passes P a b c (k : Z -> R unit) :
  0 <= a < 65536 -> 0 <= b < 65536 -> 0 <= c < 65536 ->
  (forall i, 0 <= i <= IOBUF_SIZE -> finishes P 0 (k i)) ->
  finishes P 0
    (i ← get_idx;
     skipBuf a;; skipBuf b;; skipBuf c;; parseComplete;;
     e ← msg_is_error;
     if (e : bool) then mret tt else k i).
Proof.
  intros Ha Hb Hc Hk h Hh. run_step (get_idx_run h).
  destruct (skipBuf_run h a Hh) as (h1 & E1 & W1 & S1 & B1 & C1 & _); [unfold IOBUF_SIZE; lia|].
  destruct (skipBuf_run h1 b W1) as (h2 & E2 & W2 & S2 & B2 & C2 & _); [unfold IOBUF_SIZE; lia|].
  destruct (skipBuf_run h2 c W2) as (h3 & E3 & W3 & S3 & B3 & C3 & _); [unfold IOBUF_SIZE; lia|].
  run_step E1. run_step E2. run_step E3.
  destruct (parse_safe h3 W3) as ([] & h4 & E4 & _ & W4 & S4 & B4 & C4). run_step E4.
  assert (steps h h4) as S by (do 2 (etrans; [eassumption|]); by etrans).
  assert (msg_is_error h4 = Ret (is_error (h_msg h4), h4)) as E5 by done. run_step E5.
  destruct (is_error (h_msg h4)) eqn:Ee.
  { left. exists h4. split; [done|]. apply finished_idle; [done|lia|congruence]. }
  assert (is_error (h_msg h) = false) as Eh.
  { destruct S as [_ Hs]. destruct (is_error (h_msg h)); [|done]. by rewrite Hs in Ee. }
  destruct (hw_idx _ Hh) as [I|I]; [congruence|]. pose proof (mwf_idx _ (hw_msg _ Hh)).
  destruct (Hk (iobuf_idx (h_msg h)) ltac:(lia) h4 W4) as [(h5 & E6 & F)|F]; [left|by right].
  exists h5. split; [done|]. apply (finished_after P 0 0 h h4); [done|lia|congruence|done].
Qed.

Lemma finishes_deliver (P : indication -> Prop) cb x : P x -> finishes P 0 (deliver cb x).
Proof.
  intros Px. unfold deliver. finish1; intros _ _. finish1; intros e _.
  destruct e; [by apply finishes_clean, cleans_ret|].
  apply finishes_seq_ret, finishes_call_if; [done|apply cleans_ret].
Qed.

Section AnyMessage.
Variables (cb : callbacks) (junk : ApiMac_sAddr).
Hypothesis junk_ok : zlen (addr junk) = 8 /\ is_bytes (addr junk).

(** What the application is given, with the command [c]. *)
Definition told (c : Z * Z) (x : indication) : Prop := ind_cmd x = c /\ (G -> ind_ok addr_typed junk x).
Local Abbreviation typed := (ind_ok addr_typed junk).

Lemma junk_safe : safe 0 (decode_Addr junk) (addr_typed junk).
Proof. apply decode_Addr_safe; apply junk_ok. Qed.
#[local] Hint Resolve junk_safe : safe.

Lemma int8_range z : is_i8 (int8 z).
Proof. unfold is_i8, int8. pose proof (Z.mod_pos_bound (z + 2 ^ 7) (2 ^ 8)). lia. Qed.

#[local] Arguments is_byte : simpl never.
#[local] Arguments is_u16 : simpl never.
#[local] Arguments is_u32 : simpl never.
#[local] Arguments is_i8 : simpl never.

Ltac typed_goal :=
  split; [reflexivity|intros _];
  repeat match goal with H : ext_ok _ |- _ => destruct H end;
  cbn [ind_ok]; unfold data_ok, ext_ok; cbn;
  repeat match goal with |- _ /\ _ => split end; try done; try apply int8_range.

Lemma fixed_finish x : fixed_size x = true -> finishes (told (ind_cmd x)) 0 (handler_for cb junk x).
Proof.
  destruct x; try discriminate; intros _; cbn [handler_for];
    match goal with |- finishes _ _ ?c => unfold_head c end;
    finish; apply finishes_deliver; typed_goal.
Qed.

Lemma data_ind_finish : finishes (told (0x42, 0x85)) 0 (process_areq_data_ind cb).
Proof.
  unfold process_areq_data_ind. do 12 (finish1; intros ? ?). finish1; intros len Hlen.
  finish1; intros ieLen HieLen. intros h Hh. run_step (get_idx_run h). unfold is_u16 in *.
  destruct (skipBuf_run h len Hh) as (h1 & E1 & W1 & S1 & B1 & C1 & I1); [unfold IOBUF_SIZE; lia|].
  run_step E1. run_step (get_idx_run h1).
  destruct (skipBuf_run h1 ieLen W1) as (h2 & E2 & W2 & S2 & B2 & C2 & I2); [unfold IOBUF_SIZE; lia|].
  run_step E2. destruct (parse_safe h2 W2) as ([] & h3 & E3 & _ & W3 & S3 & B3 & C3). run_step E3.
  assert (msg_is_error h3 = Ret (is_error (h_msg h3), h3)) as E4 by done. run_step E4.
  assert (steps h h3) as S by (etrans; [exact S1|]; by etrans).
  destruct (is_error (h_msg h3)) eqn:Ee.
  { left. exists h3. split; [done|]. apply finished_idle; [done|lia|congruence]. }
  assert (forall k, steps k h3 -> is_error (h_msg k) = false) as Hne.
  { intros k [_ Hk]. destruct (is_error (h_msg k)); [|done]. by rewrite Hk in Ee. }
  destruct (I1 (Hne h1 ltac:(by etrans))) as [P1 P2].
  destruct (I2 (Hne h2 S3)) as [Q1 Q2].
  assert (forall o n, 0 <= o -> 0 <= n -> o + n <= IOBUF_SIZE ->
    exists b, view o n h3 = Ret (b, h3) /\ zlen b = n /\ is_bytes b) as Hv.
  { intros o n Ho Hn Hon. destruct (hw_msg _ W3) as [Wb Wy _ _ _]. eexists.
    unfold view. rewrite M_bind_get. unfold lift. rewrite mem_read_ok by lia. split; [done|].
    split; [|by apply is_bytes_slice]. unfold zlen in *. rewrite length_slice; lia. }
  destruct (Hv (iobuf_idx (h_msg h)) len) as (b & Eb & Lb & Yb); [done|lia|done|]. run_step Eb.
  destruct (Hv (iobuf_idx (h_msg h1)) ieLen) as (b' & Eb' & Lb' & Yb'); [done|lia|done|]. run_step Eb'.
  match goal with |- (exists h', call_if _ (DataInd ?x) _ = _ /\ _) \/ _ => set (y := x) end.
  assert (told (0x42, 0x85) (DataInd y)) as Ty by (subst y; typed_goal).
  pose proof (finishes_call_if _ 0 (pDataIndCb cb) (DataInd y) (fun _ => mret tt) Ty cleans_ret h3 W3) as [(h4 & E5 & F5)|F5];
    rewrite bind_ret_r in *; [left|by right].
  exists h4. split; [done|]. apply (finished_after _ 0 0 h h3); [done|lia|congruence|done].
Qed.

(** A message already in error: nothing is delivered. *)
Lemma finishes_failed P n (c : R unit) (k : unit -> R unit) h :
  hwf h -> is_error (h_msg h) = true -> cleans n (k tt) ->
  exists h', (parseComplete;; e ← msg_is_error; ((if (e : bool) then mret tt else c) ≫= k)) h
      = Ret (tt, h') /\ finished P n h h'.
Proof.
  intros Hh He Hk. destruct (parse_safe h Hh) as ([] & h1 & E1 & _ & W1 & [S1 M1] & B1 & C1).
  run_step E1. assert (msg_is_error h1 = Ret (true, h1)) as E2
    by (unfold msg_is_error; run_get; by rewrite M1). run_step E2.
  exists (own (- n) h1). split; [exact (Hk h1)|]. apply finished_idle; [by split|cbn; lia|done].
Qed.

(** The scan types that do not exist. *)
Lemma scan_failed status ty page phy ch size :
  finishes (told (0x42, 0x8C)) 0
    ('(pU8, pPD) ← (fail_msg;; mret (@None (list Z), @None (list ApiMac_panDesc)));
     parseComplete;; e ← msg_is_error;
     (if (e : bool) then mret tt
      else call_if (pScanCnfCb cb)
             (ScanCnf (MkScanCnf status ty page phy ch size
                (match pU8, pPD with Some b, _ => EnergyDetect b | _, Some l => PanDescriptor l | None, None => ScanNone end))));;
     api_mac_freeMem pPD;; api_mac_freeMem pU8).
Proof.
  intros h Hh. left. destruct (read_safe h (set_error (h_msg h))) as [Hw Hs];
    [done|apply set_error_wf, Hh|by do 2 eexists|done|by left|].
  set (h1 := with_msg h (set_error (h_msg h))) in *.
  assert ((fail_msg ≫= fun _ => mret (@None (list Z), @None (list ApiMac_panDesc))) h =
          Ret ((None, None), h1)) as E1 by done. run_step E1.
  destruct (finishes_failed (told (0x42, 0x8C)) 0 (call_if (pScanCnfCb cb) (ScanCnf
    (MkScanCnf status ty page phy ch size ScanNone)))
    (fun _ => api_mac_freeMem (@None (list ApiMac_panDesc));; api_mac_freeMem (@None (list Z))) h1 Hw eq_refl
    (cleans_two (@None (list ApiMac_panDesc)) (@None (list Z)) 0 eq_refl))
    as (h2 & E2 & F2).
  exists h2. split; [exact E2|]. apply (finished_after _ 0 0 h h1); [done|cbn; lia|done|done].
Qed.

(** *** There is memory for everything *)

Section Granted.
Hypothesis HG : G.

Lemma calloc_safe {A} (z : A) c : safe 1 (calloc z c) (fun o => o = Some (replicate (Z.to_nat c) z)).
Proof.
  intros h [W S I M]. specialize (M HG). unfold calloc, api_mac_callocMem, mbind at 1, M_bind at 1.
  destruct (h_mallocs h) as [|[|] bs] eqn:E; [..|by destruct M; left]; do 2 eexists; (split; [reflexivity|]); (split; [done|]);
    (split; [constructor; try done|by split_and!]); cbn [h_mallocs].
  intros _ Hin. apply M. by right.
Qed.

(** The size of the list and its last, zero, item are not changed. *)
Lemma write_padded k n (b : list Z) :
  b = replicate (Z.to_nat n) 0 \/ (exists d, zlen d = n - Z.of_nat k /\ is_bytes d /\
     b = splice 0 d (replicate (Z.to_nat n) 0)) -> Z.of_nat k <= n ->
  padded 0 (n - Z.of_nat k) (Z.of_nat k) (Some b) /\ is_bytes b.
Proof.
  intros Hb Hk. destruct Hb as [-> | (e & He & Hy & ->)].
  - split; [|apply zeros_bytes]. exists (replicate (Z.to_nat (n - Z.of_nat k)) 0).
    rewrite <- replicate_add. split; [do 2 f_equal; lia|]. unfold zlen. rewrite length_replicate. lia.
  - split; [|apply is_bytes_splice; [done|apply zeros_bytes]]. exists e. split; [|done].
    unfold splice. cbn [take app]. rewrite take_0, drop_replicate. unfold zlen in He.
    by replace (Z.to_nat n - (0 + length e))%nat with (Z.to_nat (Z.of_nat k)) by lia.
Qed.

Lemma rd_copy_safe len : is_u16 len ->
  safe (if len =? 0 then 0 else 1) (rd_copy len) (fun o => held_by o = (if len =? 0 then 0 else 1) /\
    (o = None <-> len = 0) /\ len = zlen (default [] o) /\ is_bytes (default [] o)).
Proof.
  intros Hl. unfold is_u16 in Hl. unfold rd_copy. destruct (Z.eqb_spec len 0) as [->|Hn].
  { apply safe_ret. split_and!; try done. constructor. }
  change 1 with (1 + 0). eapply safe_bind; [apply calloc_safe|]. intros o ->.
  eapply safe_weaken.
  { apply rdBufAt_safe; [unfold IOBUF_SIZE; lia|done|]. unfold zlen. rewrite length_replicate. lia. }
  intros r Hr. assert (exists b, r = Some b /\ zlen b = len /\ is_bytes b) as (b & -> & Hz & Hy).
  { destruct Hr as [-> | (d & Hd & Hy & ->)]; eexists; (split; [done|]).
    - split; [unfold zlen; rewrite length_replicate; lia|apply zeros_bytes].
    - split; [|by apply is_bytes_splice; [|apply zeros_bytes]].
      unfold zlen in *. rewrite length_splice; rewrite ?length_replicate; cbn; lia. }
  split; [done|]. split; [split; [done|lia]|]. done.
Qed.

Lemma ws_async_ind_finish : finishes (told (0x42, 0x93)) 0 (process_areq_ws_async_ind cb).
Proof.
  unfold process_areq_ws_async_ind. do 13 (finish1; intros ? ?). finish1; intros len Hlen.
  finish1; intros ieLen HieLen.
  eapply finishes_bind; [by apply rd_copy_safe|]. intros o (Ho1 & Ho2 & Ho3 & Ho4).
  eapply finishes_bind; [by apply rd_copy_safe|]. intros o' (Ho1' & Ho2' & Ho3' & Ho4').
  rewrite <- Ho1, <- Ho1'. apply finishes_tail; [typed_goal|by apply cleans_two].
Qed.

Lemma panDesc_safe : safe 0 (api_rd_panDesc panDesc_zero) (panDesc_ok addr_typed).
Proof. unfold api_rd_panDesc. safely. apply safe_ret. unfold panDesc_ok. cbn. by split_and!. Qed.

Lemma rd_panDescs_safe n : forall pre, Forall (panDesc_ok addr_typed) pre ->
  safe 0 (rd_panDescs n (length pre) (Some (pre ++ replicate (S n) panDesc_zero)))
    (fun r => exists l, r = Some (l ++ [panDesc_zero]) /\ length l = (length pre + n)%nat /\
       Forall (panDesc_ok addr_typed) l).
Proof.
  induction n as [|n IH]; intros pre Hp; cbn [rd_panDescs].
  { apply safe_ret. exists pre. split; [done|]. split; [lia|done]. }
  apply (safe_lift _ _ _ (pre ++ panDesc_zero :: replicate (S n) panDesc_zero)); [done|].
  apply (safe_lift _ _ _ panDesc_zero); [by rewrite list_lookup_middle|].
  eapply safe_rd; [apply panDesc_safe|]. intros d Hd.
  rewrite insert_app_r_alt, Nat.sub_diag by done. cbn [insert list_insert].
  specialize (IH (pre ++ [d])). rewrite length_app, Nat.add_1_r, <- app_assoc in IH.
  eapply safe_weaken; [apply IH, Forall_app; split; [done|by apply Forall_singleton]|].
  intros r (l & -> & Hl & Hf). exists l. split; [done|]. split; [lia|done].
Qed.

Lemma zero_panDesc_typed : panDesc_ok addr_typed panDesc_zero.
Proof.
  unfold panDesc_ok, addr_typed, sec_ok. cbn.
  split_and!; try byte_const; try apply (zeros_bytes 8); done.
Qed.

Lemma scan_cnf_finish : finishes (told (0x42, 0x8C)) 0 (process_areq_scan_cnf cb).
Proof.
  unfold process_areq_scan_cnf. finish1; intros status Hst. finish1; intros ty Hty.
  finish1; intros page Hpg. finish1; intros phy Hphy.
  eapply finishes_rd; [apply rdBuf_safe; [done|by_eval|apply zeros_bytes]|]. intros ch [Hch Hchb].
  finish1; intros size Hsz.
  assert (forall res, match res with
      | ScanNone => ty = scantype_orphan
      | EnergyDetect b => ty = scantype_energyDetect /\ padded 0 size 1 (Some b) /\ is_bytes b
      | PanDescriptor l => ty ∈ [scantype_active; scantype_passive; scantype_activeEnhanced] /\
          padded panDesc_zero size 1 (Some l) /\ Forall (panDesc_ok addr_typed) l
      end -> told (0x42, 0x8C) (ScanCnf (MkScanCnf status ty page phy ch size res))) as Hres.
  { intros res Hr. split; [done|intros _]. cbn. unfold scan_ok. cbn. by split_and!. }
  unfold is_byte in Hsz.
  destruct (Z.eqb_spec ty scantype_orphan) as [->|Hno].
  { eapply finishes_rd; [apply (safe_ret _ (fun r => r = (None, None))); done|]. intros ? ->.
    apply finishes_tail; [by apply Hres|].
    by apply (cleans_two (@None (list ApiMac_panDesc)) (@None (list Z))). }
  destruct (Z.eqb_spec ty scantype_energyDetect) as [->|Hne].
  { eapply (finishes_bind _ _ 1 _ _ (fun r => exists b, r = (Some b, None) /\
      padded 0 size 1 (Some b) /\ is_bytes b)).
    - change 1 with (1 + 0) at 1. eapply safe_bind; [apply calloc_safe|]. intros o ->.
      assert (forall b, b = replicate (Z.to_nat (size + 1)) 0 \/ (exists d, zlen d = size + 1 - Z.of_nat 1 /\
        is_bytes d /\ b = splice 0 d (replicate (Z.to_nat (size + 1)) 0)) ->
        padded 0 size 1 (Some b) /\ is_bytes b) as Hpad.
      { intros b Hb. replace size with (size + 1 - Z.of_nat 1) at 1 by lia.
        by apply (write_padded 1 (size + 1)); [|lia]. }
      eapply safe_rd; [apply error_safe|]. intros e _. destruct e.
      { apply safe_ret. eexists. split; [done|]. apply Hpad. by left. }
      eapply safe_rd.
      { apply (rdBufAt_safe _ 0 size); [unfold IOBUF_SIZE; lia|done|].
        unfold zlen. rewrite length_replicate. lia. }
      intros r Hr. apply safe_ret. destruct Hr as [-> | (d & Hd & Hy & ->)]; eexists;
        (split; [done|]); apply Hpad; [by left|]. right. exists d. split; [lia|done].
    - intros ? (b & -> & Hp & Hy). apply finishes_tail; [by apply Hres|].
      by apply (cleans_two (@None (list ApiMac_panDesc)) (Some b)). }
  destruct (_ || _) eqn:Ety.
  { assert (ty ∈ [scantype_active; scantype_passive; scantype_activeEnhanced]) as Hin.
    { rewrite !orb_true_iff, !Z.eqb_eq in Ety.
      destruct Ety as [[-> | ->] | ->]; by repeat constructor. }
    eapply (finishes_bind _ _ 1 _ _ (fun r => exists l, r = (None, Some l) /\
      padded panDesc_zero size 1 (Some l) /\ Forall (panDesc_ok addr_typed) l)).
    - change 1 with (1 + 0) at 1. eapply safe_bind; [apply calloc_safe|]. intros o ->.
      eapply safe_rd; [apply error_safe|]. intros e _.
      replace (Z.to_nat (size + 1)) with (S (Z.to_nat size)) by lia. destruct e.
      { apply safe_ret. eexists. split; [done|].
        split; [|apply Forall_replicate, zero_panDesc_typed].
        exists (replicate (Z.to_nat size) panDesc_zero). change (Z.to_nat 1) with 1%nat.
        rewrite <- replicate_add, Nat.add_1_r. split; [done|].
        unfold zlen. rewrite length_replicate. lia. }
      eapply safe_rd; [by apply (rd_panDescs_safe (Z.to_nat size) [])|].
      intros r (l & -> & Hl & Hf). apply safe_ret. eexists. split; [done|].
      split; [exists l; split; [done|unfold zlen; cbn in Hl; lia]|].
      apply Forall_app. split; [done|]. apply Forall_singleton, zero_panDesc_typed.
    - intros ? (l & -> & Hp & Hf). apply finishes_tail; [by apply Hres|].
      by apply (cleans_two (Some l) (@None (list Z))). }
  apply scan_failed.
Qed.

(** The second pass over the lists of a beacon. *)
Lemma rd_short_list_safe n : forall pre, Forall is_u16 pre ->
  safe 0 (rd_short_list n (zlen pre) (Some (pre ++ replicate (S n) 0)))
    (fun r => exists l, r = Some (l ++ [0]) /\ length l = (length pre + n)%nat /\ Forall is_u16 l).
Proof.
  induction n as [|n IH]; intros pre Hp; cbn [rd_short_list].
  { apply safe_ret. exists pre. split; [done|]. split; [lia|done]. }
  eapply safe_rd; [apply rdU16_safe|]. intros v Hv. eapply safe_lift; [done|].
  apply (safe_lift _ _ _ ((pre ++ [v]) ++ replicate (S n) 0)).
  { by rewrite mem_write_next. }
  specialize (IH (pre ++ [v])). rewrite zlen_app, length_app in IH.
  eapply safe_weaken; [apply IH, Forall_app; split; [done|by apply Forall_singleton]|].
  intros r (l & -> & Hl & Hf). exists l. split; [done|]. split; [cbn in Hl; lia|done].
Qed.

Lemma rd_ext_list_safe n : forall pre x, is_bytes pre -> zlen pre = 8 * x ->
  safe 0 (rd_ext_list n x (Some (pre ++ replicate (8 * S n) 0)))
    (fun r => exists l, r = Some (l ++ replicate 8 0) /\ length l = (length pre + 8 * n)%nat /\
       is_bytes l).
Proof.
  induction n as [|n IH]; intros pre x Hp Hx; cbn [rd_ext_list].
  { apply safe_ret. exists pre. split; [done|]. split; [lia|done]. }
  pose proof (zlen_nonneg pre).
  eapply safe_rd; [by apply (safe_ret tt (fun _ => True))|]. intros _ _.
  eapply safe_rd.
  { apply (rdBufAt_safe _ (x * 8) 8); [unfold IOBUF_SIZE; lia|lia|].
    rewrite zlen_app. unfold zlen at 2. rewrite length_replicate. lia. }
  intros r Hr.
  assert (exists d, r = Some ((pre ++ d) ++ replicate (8 * S n) 0) /\ length d = 8%nat /\ is_bytes d)
    as (d & -> & Hd & Hdb).
  { destruct Hr as [-> | (d & Hd & Hy & ->)].
    - exists (replicate 8 0). split; [|split; [done|apply zeros_bytes]].
      rewrite <- app_assoc, <- replicate_add. do 3 f_equal. lia.
    - exists d. unfold zlen in *. split; [|split; [lia|done]]. f_equal. unfold splice.
      replace (Z.to_nat (x * 8)) with (length pre) by lia.
      rewrite take_app_length, <- app_assoc. do 2 f_equal. rewrite drop_app_ge by lia.
      rewrite drop_replicate. f_equal. lia. }
  specialize (IH (pre ++ d) (x + 1)). rewrite zlen_app, length_app in IH.
  eapply safe_weaken; [apply IH; [by apply Forall_app|unfold zlen in *; lia]|].
  intros r (l & -> & Hl & Hf). exists l. split; [done|]. split; [lia|done].
Qed.

Lemma beacon_lists_finish ns ne nd x :
  is_byte ns -> is_byte ne -> is_byte nd ->
  (forall sl el sdu, padded 0 ns 1 sl -> Forall is_u16 (default [] sl) ->
     padded 0 (8 * ne) 8 el -> is_bytes (default [] el) ->
     padded 0 nd 1 sdu -> is_bytes (default [] sdu) -> told (0x42, 0x83) (x sl el sdu)) ->
  let zeros n := Some (replicate (Z.to_nat n) 0) in
  finishes (told (0x42, 0x83)) 3
    ((sl' ← rd_short_list (Z.to_nat ns) 0 (zeros (ns + 1));
      el' ← rd_ext_list (Z.to_nat ne) 0 (zeros ((ne + 1) * 8));
      sdu ← rdBufAt (zeros (nd + 1)) 0 nd;
      parseComplete;;
      e ← msg_is_error;
      if (e : bool) then mret tt else call (x sl' el' sdu));;
     api_mac_freeMem (zeros (ns + 1));; api_mac_freeMem (zeros ((ne + 1) * 8));;
     api_mac_freeMem (zeros (nd + 1))).
Proof.
  unfold is_byte. intros Hs He Hd Hx. cbv zeta. apply finishes_assoc. eapply finishes_rd.
  { replace (Z.to_nat (ns + 1)) with (S (Z.to_nat ns)) by lia.
    apply (rd_short_list_safe (Z.to_nat ns) []). constructor. }
  intros sl (l1 & -> & L1 & F1). apply finishes_assoc. eapply finishes_rd.
  { replace (Z.to_nat ((ne + 1) * 8)) with (8 * S (Z.to_nat ne))%nat by lia.
    apply (rd_ext_list_safe (Z.to_nat ne) [] 0); [constructor|done]. }
  intros el (l2 & -> & L2 & F2). apply finishes_assoc. eapply finishes_rd.
  { apply (rdBufAt_safe _ 0 nd); [unfold IOBUF_SIZE; lia|done|].
    unfold zlen. rewrite length_replicate. lia. }
  intros sdu Hr.
  assert (padded 0 nd 1 sdu /\ is_bytes (default [] sdu)) as [P3 Y3].
  { replace nd with (nd + 1 - Z.of_nat 1) at 1 by lia.
    destruct Hr as [-> | (d & Hl & Hy & ->)]; apply (write_padded 1 (nd + 1)); try lia; [by left|].
    right. exists d. split; [lia|done]. }
  apply finishes_assoc. finish1; intros _ _. apply finishes_assoc. finish1; intros e _.
  cbn [length] in *. destruct e.
  - apply finishes_clean. apply cleans_three.
  - apply (finishes_call_if _ 3 true); [|apply cleans_three].
    apply Hx; try done.
    + exists l1. split; [done|]. unfold zlen. lia.
    + apply Forall_app. split; [done|]. by apply Forall_singleton.
    + exists l2. split; [done|]. unfold zlen. lia.
    + apply Forall_app. split; [done|apply zeros_bytes].
Qed.

(** The lists of a beacon. *)
Lemma beacon_granted ns ne nd x i :
  is_byte ns -> is_byte ne -> is_byte nd -> 0 <= i <= IOBUF_SIZE ->
  (forall sl el sdu, padded 0 ns 1 sl -> Forall is_u16 (default [] sl) ->
     padded 0 (8 * ne) 8 el -> is_bytes (default [] el) ->
     padded 0 nd 1 sdu -> is_bytes (default [] sdu) -> told (0x42, 0x83) (x sl el sdu)) ->
  finishes (told (0x42, 0x83)) 0 (beacon_lists ns ne nd x i).
Proof.
  intros Hs He Hd Hi Hx. unfold beacon_lists.
  eapply (finishes_bind _ 0 1); [apply calloc_safe|]. intros ? ->.
  eapply (finishes_bind _ _ 1); [apply calloc_safe|]. intros ? ->.
  eapply (finishes_bind _ _ 1); [apply calloc_safe|]. intros ? ->. change (0 + 1 + 1 + 1) with 3.
  finish1; intros e _. destruct e; [apply finishes_clean, cleans_three|].
  apply finishes_assoc. eapply finishes_rd; [by apply set_idx_safe|]. intros _ _. by apply beacon_lists_finish.
Qed.

End Granted.

(** *** An allocation may fail

    The handlers do not look at the result of an allocation: they skip what would be
    copied to a null pointer, or store through it. *)

Section Short.
Hypothesis NG : ~ G.

(** [c] returns a value of [P] and makes no call, or uses a null pointer; it holds
    more blocks, as its result says. *)
Definition tries {A} (n : A -> Z) (c : R A) (P : A -> Prop) : Prop :=
  forall h, hwf h -> c h = Undef NullPointer \/
    exists a h', c h = Ret (a, h') /\ P a /\ hwf h' /\ steps h h' /\ h_blocks h' = h_blocks h + n a /\ h_calls h' = h_calls h.

Lemma tries_safe {A} (c : R A) P : safe 0 c P -> tries (fun _ => 0) c P.
Proof. intros Hc h Hh. right. exact (Hc h Hh). Qed.

Lemma tries_ret {A} (a : A) n (P : A -> Prop) : n a = 0 -> P a -> tries n (mret a) P.
Proof. intros Hn Pa h Hh. right. exists a, h. split_and!; try done. lia. Qed.

Lemma tries_null {A B} (k : A -> R B) n P : tries n (lift (deref None) ≫= k) P.
Proof. intros h _. by left. Qed.

Lemma tries_bind {A B} n m (c : R A) (k : A -> R B) P Q :
  tries n c P -> (forall a, P a -> tries (fun b => m b - n a) (k a) Q) -> tries m (c ≫= k) Q.
Proof.
  intros Hc Hk h Hh. unfold mbind, M_bind. destruct (Hc h Hh) as [E|(a & h1 & E & Pa & W1 & S1 & B1 & C1)]; rewrite E; [by left|].
  cbn [mbind outcome_bind]. destruct (Hk a Pa h1 W1) as [E2|(b & h2 & E2 & Pb & W2 & S2 & B2 & C2)]; [by left|right].
  exists b, h2. split_and!; try done; [by etrans|lia|congruence].
Qed.

Lemma tries_ext {A} n m (c : R A) P Q :
  tries n c P -> (forall a, P a -> n a = m a /\ Q a) -> tries m c Q.
Proof.
  intros Hc Hn h Hh. destruct (Hc h Hh) as [E|(a & h1 & E & Pa & W1 & S1 & B1 & C1)]; [by left|right].
  destruct (Hn a Pa) as [En Qa]. exists a, h1. split_and!; try done. lia.
Qed.

Lemma finishes_tries {A} P n m (c : R A) (k : A -> R unit) Q :
  tries m c Q -> (forall a, Q a -> finishes P (n + m a) (k a)) -> finishes P n (c ≫= k).
Proof.
  intros Hc Hk h Hh. unfold mbind, M_bind. destruct (Hc h Hh) as [E|(a & h1 & E & Pa & W1 & S1 & B1 & C1)]; rewrite E; [by right|].
  cbn [mbind outcome_bind]. destruct (Hk a Pa h1 W1) as [(h2 & E2 & F2)|F2]; [left|by right].
  exists h2. split; [done|by eapply finished_after].
Qed.

(** Memory, or a null pointer. *)
Definition maybe {A} (z : A) (c : Z) (o : option (list A)) : Prop := o = None \/ o = Some (replicate (Z.to_nat c) z).

Lemma calloc_tries {A} (z : A) c : tries held_by (calloc z c) (maybe z c).
Proof.
  intros h [W S I M]. right. unfold calloc, api_mac_callocMem, mbind at 1, M_bind at 1.
  destruct (h_mallocs h) as [|[|] bs] eqn:E; do 2 eexists; (split; [reflexivity|]);
    (split; [first [by right|by left]|split; [by constructor|by split_and!]]).
Qed.

Lemma rdBufAt_null o n : 0 <= n < 2 ^ 31 - IOBUF_SIZE -> safe 0 (rdBufAt None o n) (fun r => r = None).
Proof.
  intros Hn h Hh. destruct (rdBuf_typed h false n Hh Hn) as (d & m' & E & Hw & Hs & _ & Hi).
  exists None, (with_msg h m'). split; [|split_and!; try done; cbn; lia]. unfold rdBufAt.
  rewrite bool_decide_false by (by intros [? ?]). rewrite E. by destruct d.
Qed.

Lemma rdBufAt_maybe n c p : 0 <= n < 2 ^ 31 - IOBUF_SIZE -> n <= c -> maybe 0 c p ->
  tries (fun _ => 0) (rdBufAt p 0 n) (fun r => held_by r = held_by p).
Proof.
  intros Hn Hc [-> | ->]; apply tries_safe; (eapply safe_weaken; [first [by apply (rdBufAt_null 0)|apply (rdBufAt_safe _ 0 n); [done|done|]]|]).
  - by intros ? ->.
  - unfold zlen. rewrite length_replicate. lia.
  - intros r [-> | (d & _ & _ & ->)]; done.
Qed.

Lemma rd_short_maybe n p : 0 <= n -> maybe 0 (n + 1) p -> tries (fun _ => 0) (rd_short_list (Z.to_nat n) 0 p) (fun _ => True).
Proof.
  intros Hn [-> | ->].
  - destruct (Z.to_nat n); cbn [rd_short_list]; [by apply tries_ret|].
    eapply tries_bind; [apply tries_safe, rdU16_safe|]. intros v _. apply tries_null.
  - replace (Z.to_nat (n + 1)) with (S (Z.to_nat n)) by lia. apply tries_safe.
    eapply safe_weaken; [apply (rd_short_list_safe (Z.to_nat n) []); constructor|done].
Qed.

Lemma rd_ext_maybe n p : 0 <= n -> maybe 0 ((n + 1) * 8) p -> tries (fun _ => 0) (rd_ext_list (Z.to_nat n) 0 p) (fun _ => True).
Proof.
  intros Hn [-> | ->].
  - destruct (Z.to_nat n) as [|[|k]]; cbn [rd_ext_list Z.eqb]; [by apply tries_ret| |];
      (eapply tries_bind; [by apply (tries_ret tt (fun _ => 0) (fun _ => True))|]; intros [] _;
       eapply tries_bind; [apply tries_safe, rdBufAt_null; unfold IOBUF_SIZE; lia|]; intros ? ->).
    + by apply tries_ret.
    + intros h _. by left.
  - replace (Z.to_nat ((n + 1) * 8)) with (8 * S (Z.to_nat n))%nat by lia. apply tries_safe.
    eapply safe_weaken; [apply (rd_ext_list_safe (Z.to_nat n) [] 0); [constructor|done]|done].
Qed.

Lemma beacon_short ns ne nd x i :
  is_byte ns -> is_byte ne -> is_byte nd -> 0 <= i <= IOBUF_SIZE ->
  (forall sl el sdu, ind_cmd (x sl el sdu) = (0x42, 0x83)) ->
  finishes (told (0x42, 0x83)) 0 (beacon_lists ns ne nd x i).
Proof.
  unfold is_byte. intros Hs He Hd Hi Hx. unfold beacon_lists.
  eapply finishes_tries; [apply calloc_tries|]. intros p Hp.
  eapply finishes_tries; [apply calloc_tries|]. intros q Hq.
  eapply finishes_tries; [apply calloc_tries|]. intros r Hr.
  assert (cleans (0 + held_by p + held_by q + held_by r) (api_mac_freeMem p;; api_mac_freeMem q;; api_mac_freeMem r)) as Hcl.
  { replace (0 + held_by p + held_by q + held_by r) with (held_by p + (held_by q + held_by r)) by lia.
    apply (cleans_seq (held_by p)); [by apply cleans_free|]. by apply cleans_two. }
  finish1; intros e _. destruct e; [by apply finishes_clean|].
  apply finishes_assoc. eapply finishes_rd; [by apply set_idx_safe|]. intros _ _.
  apply finishes_assoc. eapply finishes_tries; [apply rd_short_maybe; [lia|done]|]. intros sl _.
  apply finishes_assoc. eapply finishes_tries; [apply rd_ext_maybe; [lia|done]|]. intros el _.
  apply finishes_assoc. eapply finishes_tries; [apply (rdBufAt_maybe nd (nd + 1)); [unfold IOBUF_SIZE; lia|lia|done]|]. intros sdu _.
  rewrite !Z.add_0_r. apply finishes_assoc. finish1; intros _ _. apply finishes_assoc. finish1; intros e _.
  destruct e; [by apply finishes_clean|]. apply (finishes_call_if _ _ true); [|done]. by split.
Qed.

Lemma rd_copy_short len : is_u16 len -> tries held_by (rd_copy len) (fun _ => True).
Proof.
  unfold is_u16. intros Hl. unfold rd_copy. destruct (Z.eqb_spec len 0) as [->|Hn]; [by apply tries_ret|].
  eapply tries_bind; [apply calloc_tries|]. intros p Hp.
  eapply tries_ext; [apply (rdBufAt_maybe len len); [unfold IOBUF_SIZE; lia|lia|done]|]. intros r E. cbv beta in E. split; [lia|done].
Qed.

Lemma ws_async_short : finishes (told (0x42, 0x93)) 0 (process_areq_ws_async_ind cb).
Proof.
  unfold process_areq_ws_async_ind. do 13 (finish1; intros ? ?). finish1; intros len Hlen.
  finish1; intros ieLen HieLen.
  eapply finishes_tries; [by apply rd_copy_short|]. intros o _.
  eapply finishes_tries; [by apply rd_copy_short|]. intros o' _.
  apply finishes_tail; [by split|by apply cleans_two].
Qed.

Lemma rd_panDescs_maybe n p : 0 <= n -> maybe panDesc_zero (n + 1) p ->
  tries (fun _ => 0) (rd_panDescs (Z.to_nat n) 0 p) (fun r => held_by r = held_by p).
Proof.
  intros Hn [-> | ->].
  - destruct (Z.to_nat n); cbn [rd_panDescs]; [by apply tries_ret|apply tries_null].
  - replace (Z.to_nat (n + 1)) with (S (Z.to_nat n)) by lia. apply tries_safe.
    eapply safe_weaken; [by apply (rd_panDescs_safe (Z.to_nat n) [])|]. by intros ? (l & -> & _).
Qed.

Lemma scan_cnf_short : finishes (told (0x42, 0x8C)) 0 (process_areq_scan_cnf cb).
Proof.
  unfold process_areq_scan_cnf. finish1; intros status _. finish1; intros ty _.
  finish1; intros page _. finish1; intros phy _.
  eapply finishes_rd; [apply rdBuf_safe; [done|by_eval|apply zeros_bytes]|]. intros ch _.
  finish1; intros size Hsz. unfold is_byte in Hsz.
  assert (forall c : R (option (list Z) * option (list ApiMac_panDesc)),
    tries (fun r => held_by r.2 + held_by r.1) c (fun _ => True) ->
    finishes (told (0x42, 0x8C)) 0
      ('(pU8, pPD) ← c;
       parseComplete;; e ← msg_is_error;
       (if (e : bool) then mret tt
        else call_if (pScanCnfCb cb)
               (ScanCnf (MkScanCnf status ty page phy ch size
                  (match pU8, pPD with Some b, _ => EnergyDetect b | _, Some l => PanDescriptor l | None, None => ScanNone end))));;
       api_mac_freeMem pPD;; api_mac_freeMem pU8)) as Hgo.
  { intros c Hc. eapply finishes_tries; [exact Hc|]. intros [u d] _. apply finishes_tail; [by split|]. by apply cleans_two. }
  destruct (ty =? scantype_orphan); [by apply Hgo, tries_ret|].
  destruct (ty =? scantype_energyDetect).
  { apply Hgo. eapply tries_bind; [apply calloc_tries|]. intros p Hp.
    eapply tries_bind; [apply tries_safe, error_safe|]. intros [] _.
    - intros h Hh. right. exists (p, None), h. split_and!; try done. cbn. lia.
    - eapply tries_bind; [apply (rdBufAt_maybe size (size + 1)); [unfold IOBUF_SIZE; lia|lia|done]|]. intros r Er.
      intros h Hh. right. exists (r, None), h. split_and!; try done. cbn in *. lia. }
  destruct (_ || _); [|apply scan_failed].
  apply Hgo. eapply tries_bind; [apply calloc_tries|]. intros p Hp.
  eapply tries_bind; [apply tries_safe, error_safe|]. intros [] _.
  - intros h Hh. right. exists (None, p), h. split_and!; try done. cbn. lia.
  - eapply tries_bind; [apply rd_panDescs_maybe; [lia|done]|]. intros r Er.
    intros h Hh. right. exists (None, r), h. split_and!; try done. cbn in *. lia.
Qed.

End Short.

(** *** The handlers that allocate *)

Hypothesis G_dec : G \/ ~ G.

Lemma ws_async_finish : finishes (told (0x42, 0x93)) 0 (process_areq_ws_async_ind cb).
Proof. destruct G_dec; [by apply ws_async_ind_finish|by apply ws_async_short]. Qed.

Lemma scan_finish : finishes (told (0x42, 0x8C)) 0 (process_areq_scan_cnf cb).
Proof. destruct G_dec; [by apply scan_cnf_finish|by apply scan_cnf_short]. Qed.

Lemma beacon_finish : finishes (told (0x42, 0x83)) 0 (process_areq_beacon_notify cb).
Proof.
  unfold process_areq_beacon_notify. destruct (negb _); [by apply finishes_clean, cleans_ret|].
  finish1; intros ty Hty. finish1; intros bsn Hbsn.
  destruct (ty =? beaconType_normal).
  2:{ destruct (ty =? beaconType_enhanced); [|by apply finishes_clean, cleans_ret].
      unfold beacon_enhanced. finish. apply finishes_deliver. split; [done|intros _]. cbn. unfold beacon_ok. cbn.
      by split_and!. }
  unfold beacon_normal. do 10 (finish1; intros ? ?). finish1; intros ns Hns.
  finish1; intros ne Hne. finish1; intros nd Hnd. apply finishes_two_passes; [unfold is_byte in *; lia..|]. intros i Hi.
  destruct G_dec; [apply beacon_granted|apply beacon_short]; done.
Qed.

End AnyMessage.

(** *** Every entry of the table *)

Lemma handler_finish cb junk m f :
  G \/ ~ G -> zlen (addr junk) = 8 /\ is_bytes (addr junk) -> lookup_handler cb junk m = Some f ->
  finishes (told junk (Z.land (cmd0 m) 0x7F, cmd1 m)) 0 f.
Proof.
  intros HG Hj Hf. unfold lookup_handler in Hf. destruct (List.find _ _) as [[[c0 c1] g]|] eqn:E; [|done].
  injection Hf as <-. apply List.find_some in E as [Hin Hc]. apply andb_true_iff in Hc as [H0%Z.eqb_eq H1%Z.eqb_eq].
  rewrite <- H0, <- H1. clear H0 H1.
  assert (forall x, fixed_size x = true -> finishes (told junk (ind_cmd x)) 0 (handler_for cb junk x)) as Hfix
    by (by apply fixed_finish).
  pose (x8 := replicate 8 0).
  assert (Forall (fun e => finishes (told junk e.1) 0 e.2) (lut cb junk)) as Hall.
  { repeat apply Forall_cons_2; cbn [fst snd]; [..|by apply Forall_nil_2].
    - exact (Hfix (SyncLossInd (MkSyncLoss 0 0 0 0 0 sec_zero)) eq_refl).
    - exact (Hfix (AssocInd (MkAssocInd x8 cap_zero sec_zero)) eq_refl).
    - exact (Hfix (AssocCnf (MkAssocCnf 0 0 sec_zero)) eq_refl).
    - by apply beacon_finish.
    - exact (Hfix (DataCnf (MkDataCnf 0 0 0 0 0 0 0 0 0)) eq_refl).
    - by apply data_ind_finish.
    - exact (Hfix (DisassociateInd (MkDisInd x8 0 sec_zero)) eq_refl).
    - exact (Hfix (DisassociateCnf (MkDisCnf 0 sAddr_zero 0)) eq_refl).
    - exact (Hfix (OrphanInd (MkOrphanInd x8 sec_zero)) eq_refl).
    - exact (Hfix (PollCnf 0 0) eq_refl).
    - by apply scan_finish.
    - exact (Hfix (CommStatusInd (MkCommStatus 0 sAddr_zero sAddr_zero 0 0 sec_zero)) eq_refl).
    - exact (Hfix (StartCnf 0) eq_refl).
    - exact (Hfix (PurgeCnf 0 0) eq_refl).
    - exact (Hfix (PollInd (MkPollInd sAddr_zero 0 false)) eq_refl).
    - exact (Hfix (WsAsyncCnf 0) eq_refl).
    - by apply ws_async_finish.
    - exact (Hfix (ResetInd 0) eq_refl). }
  exact (proj1 (List.Forall_forall _ _) Hall _ Hin).
Qed.

End Memory.

(** ** Properties *)

(** C15: An indication of the co-processor reaches the application: whatever
    well-formed indication or confirmation [x] a received asynchronous message
    carries, encoded as the MAC API lays it out, one round of
    [ApiMac_processIncoming] on a list with that message at its head makes
    exactly one call, of the callback of that kind, with exactly [x]; the
    message is freed, the rest of the list stays, and every block the handler
    allocated was released. *)
Theorem mac_indication_delivered junk ver x cb a p q m i :
  zlen (addr junk) = 8 -> ver_ok ver -> ind_ok addr_ok junk x ->
  pApiMac_callbacks a = Some cb -> cb_of cb x = true ->
  incoming a p q m -> ahead m (fields_enc (ind_fields ver x)) -> pSrcIface m = Some i ->
  iobuf_idx m = payload_start i -> expected_len m = zlen (fields_enc (ind_fields ver x)) ->
  ind_cmd x = (Z.land (cmd0 m) 0x7F, cmd1 m) ->
  exists a', ApiMac_processIncoming junk a = Ret (tt, a') /\ handled a p q [x] a'.
Proof.
  intros Hj Hv Hok Hcb Hreg Hin Ha Hs Hi Hl Hc.
  destruct Hin as [Hin Hml]. eapply processIncoming_run; [done|done|by apply lookup_handler_for|]. rewrite Hml.
  destruct (handle_all cb ver junk x Hv Hj Hok Hreg (MkHst (unlinked m) [] (a_blocks a) (a_calls a)))
    as (h & E & Cs & Bs & Ms & Sc).
  - constructor; [|exists i; split; [done|cbn; lia]|done]. by destruct Ha as [[]].
  - exists h. split; [done|]. split; [done|]. split; [cbn in Bs; lia|done].
Qed.

(** C21: No message from the co-processor can corrupt the host while there is memory:
    on any well-formed message that a handler of the table takes, however its length,
    its counts and its contents lie, one round of [ApiMac_processIncoming] returns,
    without any access outside the message or the memory the handler allocated, frees
    the message and all that memory, and makes at most one call, of the callback that
    belongs to the command of the message; unless an allocation fails its argument has
    every field within its C type and every list as long as its count says.  If an
    allocation fails the round still does so, with what was to be copied skipped, or
    it ends in the use of a null pointer; nothing else can happen. *)
Theorem mac_any_message_safe junk cb a p q m f :
  zlen (addr junk) = 8 -> is_bytes (addr junk) -> pApiMac_callbacks a = Some cb ->
  waiting a p q m -> msg_wf m -> is_Some (pSrcIface m) -> 0 <= iobuf_idx m ->
  lookup_handler cb junk m = Some f ->
  let failing := false ∈ mallocs (outside (a_mi a)) in
  (exists a' xs, ApiMac_processIncoming junk a = Ret (tt, a') /\ handled a p q xs a' /\
     (xs = [] \/ exists x, xs = [x] /\ ind_cmd x = (Z.land (cmd0 m) 0x7F, cmd1 m) /\ (~ failing -> ind_ok addr_typed junk x))) \/
  failing /\ ApiMac_processIncoming junk a = Undef NullPointer.
Proof.
  intros Hj Hjb Hcb Hin Hw Hs Hi Hf failing.
  assert (~ failing \/ ~ ~ failing) as HG by (unfold failing; destruct (decide (false ∈ mallocs (outside (a_mi a)))); auto).
  set (h0 := MkHst (unlinked m) (mallocs (outside (a_mi a))) (a_blocks a) (a_calls a)).
  destruct (handler_finish (~ failing) cb junk m f HG (conj Hj Hjb) Hf h0) as [(h & E & xs & [Sc _] & Bs & Cs & Xs)|[Hn E]].
  - constructor; [|done|by right|done]. by destruct Hw.
  - left. destruct (processIncoming_run junk a p q m cb f xs Hin Hcb Hf) as (a' & E' & H').
    + exists h. split; [done|]. split; [done|]. split; [cbn in Bs; lia|done].
    + exists a', xs. done.
  - right. split; [by apply dec_stable|]. by eapply processIncoming_undef.
Qed.

(** A read behind the last valid byte gives 255 and moves nothing. *)
Lemma rdU8_behind h :
  ahead (h_msg h) [] -> iobuf_nvalid (h_msg h) = iobuf_idx (h_msg h) -> rdU8 h = Ret (255, h).
Proof.
  intros [H He H0 _ _] Hn. unfold rdU8, rd, MT_MSG_rdU8_DBG, MT_MSG_rdUX_DBG, init_rd_idx.
  rewrite He, (proj2 (Z.ltb_ge _ _)) by lia. change (Z.to_nat (8 / 8)) with 1%nat. cbn [rd_loop].
  unfold inrange. rewrite Hn, Z.ltb_irrefl, andb_false_r. cbn [negb mbind outcome_bind].
  change (u8 (u64 (-1))) with 255. by destruct h.
Qed.

(** A confirmation that is too short is delivered with an invented value
    when the interface has no checksum: a poll confirmation whose payload ends
    after the status passes the check for a complete message, since the read
    of the missing byte does not move the index, and the application is told
    that [framePending] is 255. *)
Theorem mac_short_poll_confirm_accepted junk s cb a p q m i :
  is_byte s -> pApiMac_callbacks a = Some cb -> pPollCnfCb cb = true ->
  incoming a p q m -> ahead m [s] -> pSrcIface m = Some i -> include_chksum i = false ->
  iobuf_idx m = payload_start i -> expected_len m = 1 ->
  iobuf_nvalid m = payload_start i + expected_len m ->
  Z.land (cmd0 m) 0x7F = 0x42 -> cmd1 m = 0x8B ->
  exists a', ApiMac_processIncoming junk a = Ret (tt, a') /\ handled a p q [PollCnf s 255] a'.
Proof.
  intros Hs Hcb Hreg [Hin Hml] Ha Hi _ Hx Hl Hn H0 H1.
  eapply (processIncoming_run junk a p q m cb (process_areq_poll_cnf cb)); [done|done| |].
  { change (process_areq_poll_cnf cb) with (handler_for cb sAddr_zero (PollCnf 0 0)).
    apply (lookup_handler_for cb junk m (PollCnf 0 0)); [split; byte_const|]. cbn. congruence. }
  rewrite Hml. set (h := MkHst (unlinked m) [] (a_blocks a) (a_calls a)).
  assert (field_enc (F8 s) = [s]) as Ef by (cbn; by rewrite u8_id).
  assert (ahead (h_msg h) (field_enc (F8 s) ++ [])) as Ha' by (rewrite Ef; by destruct Ha as [[]]).
  unfold process_areq_poll_cnf. run_step (rdU8_consumes s Hs h [] Ha').
  assert (pending (adv h (zlen (field_enc (F8 s)))) []) as Hp.
  { apply pending_adv. constructor; [done|exists i; split; [done|]|done]. rewrite Ef.
    change (zlen ([s] ++ [])) with 1. change (iobuf_idx (h_msg h)) with (iobuf_idx m).
    change (expected_len (h_msg h)) with (expected_len m). lia. }
  rewrite Ef in *. set (h1 := adv h (zlen [s])) in *.
  assert (rdU8 h1 = Ret (255, h1)) as E2.
  { apply rdU8_behind; [apply Hp|]. change (iobuf_nvalid m = iobuf_idx m + 1). lia. }
  run_step E2. rewrite Hreg. destruct (handles_deliver (PollCnf s 255) h1 Hp)
    as (h2 & E & Cs & Bs & Ms & Sc).
  exists h2. split; [exact E|]. split; [done|]. split; [cbn in Bs; lia|].
  etrans; [|exact Sc]. by do 2 eexists.
Qed.

(** ** Examples *)

Definition all_callbacks : callbacks :=
  MkCallbacks true true true true true true true true true true true true true true true true true
    true true.

(** A received message with the payload [d] and nothing behind its frame. *)
Definition demo_areq (i : mt_iface) (c1 : Z) (d : list Z) : mt_msg :=
  let f := mt_frame i 0x42 c1 d in
  MkMsg 0 (Some i) None T_areq false (zlen d) 0x42 c1 0 false (payload_start i) (zlen f) IOBUF_SIZE
    (f ++ replicate (Z.to_nat IOBUF_SIZE - length f) 0) None None.

Definition demo_api (bs : list bool) (m : mt_msg) : api :=
  let s := mif_init uart_iface (MkWorld bs [] [] []) in
  MkApi (set_rx_list (put 1%positive m s) (Some 1%positive)) (Some all_callbacks) 0 [].

Definition demo_addr : ApiMac_sAddr := MkAddr addrType_extended [1; 2; 3; 4; 5; 6; 7; 8].
Definition demo_short : ApiMac_sAddr := MkAddr addrType_short [0x34; 0x12; 0; 0; 0; 0; 0; 0].
Definition demo_sec : ApiMac_sec := MkSec [8; 7; 6; 5; 4; 3; 2; 1] 5 3 1.
Definition demo_data : indication :=
  DataInd (MkDataInd demo_addr demo_short 100000 200 0xface 0xcafe 200 30 (-70) 9
             2 (Some [4; 5]) 0 0 77 demo_sec (MkData (Some [10; 11; 12]) 3)).

Definition uart_plain : mt_iface := MkIface true false true false 0 247 3.

Definition demo_beacon : indication :=
  BeaconNotifyInd (MkBeaconNotify beaconType_normal 7
    (MkPanDesc demo_short 0xface 0x8fff 11 9 true 200 5 false demo_sec)
    (U_beacon (MkBeacon 2 (Some [0x1122; 0x3344; 0]) 1 (Some ([1; 2; 3; 4; 5; 6; 7; 8] ++ replicate 8 0))
                 2 (Some [33; 44; 0])))).

(** When memory runs out a beacon crashes the host: the allocation helper
    reports the failure nowhere the handler looks (it does not mark the
    message), so the handler goes on and stores the first pending short
    address through a null pointer. The same message is delivered when memory
    is available. *)
Example mac_beacon_out_of_memory :
  let m := demo_areq uart_iface 0x83 (fields_enc (ind_fields [] demo_beacon)) in
  ApiMac_processIncoming sAddr_zero (demo_api [false] m) = Undef NullPointer /\
  match ApiMac_processIncoming sAddr_zero (demo_api [] m) with
  | Ret (_, a) => a_calls a = [demo_beacon] /\ a_blocks a = 0
  | _ => False
  end.
Proof. vm_compute. split; [reflexivity|split; reflexivity]. Qed.

Lemma demo_waiting bs i c1 d : waiting (demo_api bs (demo_areq i c1 d)) 1 [] (demo_areq i c1 d).
Proof.
  constructor; [|apply lookup_insert_eq|by left|done].
  constructor; [|apply NoDup_singleton]. split; [done|]. eexists. split; [apply lookup_insert_eq|done].
Qed.

Lemma demo_incoming i c1 d : incoming (demo_api [] (demo_areq i c1 d)) 1 [] (demo_areq i c1 d).
Proof. split; [apply demo_waiting|done]. Qed.

(** A ground message: its buffer is well formed and its payload is next. *)
Ltac ground_ahead :=
  constructor; [constructor; [reflexivity|by_bytes|reflexivity|by_eval|by_eval]
               |reflexivity|by_eval|by_eval|vm_compute; reflexivity].

Lemma mac_indication_delivered_witness :
  let m := demo_areq uart_iface 0x85 (fields_enc (ind_fields [0; 0; 0; 0; 0] demo_data)) in
  exists a', ApiMac_processIncoming sAddr_zero (demo_api [] m) = Ret (tt, a') /\
    handled (demo_api [] m) 1 [] [demo_data] a'.
Proof.
  intros m.
  apply (mac_indication_delivered sAddr_zero [0; 0; 0; 0; 0] demo_data all_callbacks
           (demo_api [] m) 1 [] m uart_iface).
  - reflexivity.
  - split; [reflexivity|by_bytes].
  - cbn. unfold data_ok, addr_ok, sec_ok. cbn.
    repeat split; try done; try by_bytes; try by_eval; try (by eexists);
      first [by left | by (right; left)].
  - reflexivity.
  - reflexivity.
  - apply demo_incoming.
  - ground_ahead.
  - reflexivity.
  - reflexivity.
  - reflexivity.
  - reflexivity.
Defined.

Lemma mac_any_message_safe_witness :
  let m := demo_areq uart_iface 0x8C [1; 0; 3; 4; 5] in
  let a := demo_api [true; false] m in
  let failing := false ∈ mallocs (outside (a_mi a)) in
  (exists a' xs, ApiMac_processIncoming sAddr_zero a = Ret (tt, a') /\ handled a 1 [] xs a' /\
     (xs = [] \/ exists x, xs = [x] /\ ind_cmd x = (Z.land (cmd0 m) 0x7F, cmd1 m) /\ (~ failing -> ind_ok addr_typed sAddr_zero x))) \/
  failing /\ ApiMac_processIncoming sAddr_zero a = Undef NullPointer.
Proof.
  intros m a.
  apply (mac_any_message_safe sAddr_zero all_callbacks a 1 [] m
           (process_areq_scan_cnf all_callbacks)).
  - reflexivity.
  - by_bytes.
  - reflexivity.
  - apply demo_waiting.
  - constructor; [reflexivity|by_bytes|reflexivity|by_eval|by_eval].
  - by eexists.
  - by_eval.
  - reflexivity.
Defined.

Lemma mac_short_poll_confirm_accepted_witness :
  let m := demo_areq uart_plain 0x8B [0] in
  exists a', ApiMac_processIncoming sAddr_zero (demo_api [] m) = Ret (tt, a') /\
    handled (demo_api [] m) 1 [] [PollCnf 0 255] a'.
Proof.
  intros m.
  apply (mac_short_poll_confirm_accepted sAddr_zero 0 all_callbacks (demo_api [] m) 1 [] m uart_plain);
    try reflexivity; [byte_const|apply demo_incoming|ground_ahead].
Defined.

End ApiMacInd.
