(* ===== verification/ApiMacReq.v ===== *)
(** * Requests of the MAC API (mt_interface/api/src/api_mac.c)

    What an application asks of the co-processor.  A request allocates a
    message, writes its parameters with the typed writes, hands it to
    [MT_MSG_txrx] and reads the answer; the attributes of the MAC tables are
    read and written by a few common routines.  Each function is one
    definition over the state of the interface; the memory an out parameter
    points to is passed in and returned. *)

From Stdlib Require Import ZArith Lia.
From stdpp Require Import base list option numbers gmap.
From S2P Require Import Prelude MtMsg MtRx MtHeap MtFrag MtIface ApiMacTypes.

Open Scope Z_scope.

Module ApiMacReq.
Import MtMsg MtHeap MtFrag MtIface ApiMacTypes.
#[local] Existing Instance MtRx.script_stream.

(** One write call: a typed one, or [MT_MSG_wrBuf_DBG] of [n] bytes from a
    pointer ([None] for a null pointer). *)
Inductive wr : Type :=
| Wr (f : field)
| WrBuf (p : option (list Z)) (n : Z).

Definition write_one (m : mt_msg) (w : wr) : outcome mt_msg :=
  match w with
  | Wr f => write_field m f
  | WrBuf p n => MT_MSG_wrBuf_DBG m p n
  end.

Fixpoint write_all (m : mt_msg) (ws : list wr) : outcome mt_msg :=
  match ws with
  | [] => Ret m
  | w :: ws => m ← write_one m w; write_all m ws
  end.

(** The write calls a function makes on message [p]. *)
Definition emit (p : positive) (ws : list wr) : IO unit := on_msg p (fun m => write_all m ws).

Section Requests.

(** Rounds for the blocks and the acknowledgements of a long request. *)
Variables (fuel ackfuel : nat).

Definition api_new_msg (len c0 c1 : Z) : IO (option positive) :=
  o ← MT_MSG_alloc len c0 c1;
  match o with
  | None => mret None
  | Some p =>
      on_msg p (fun m => Ret (MT_MSG_setSrcIface m None));;
      set_dest p;;
      mret (Some p)
  end.

(** A typed read from the response to [p]. *)
Definition rsp (p : positive) (f : mt_msg -> outcome (Z * mt_msg)) : IO Z :=
  q ← srsp_of p; read_msg q f.
Definition rsp_complete (p : positive) : IO unit := q ← srsp_of p; on_msg q MT_MSG_parseComplete.
(** [MT_MSG_rdBuf_DBG] of [n] bytes from the response into the array [dst]. *)
Definition rsp_buf (p : positive) (dst : list Z) (n : Z) : IO (list Z) :=
  q ← srsp_of p;
  m ← load q;
  '(d, m) ← lift (MT_MSG_rdBuf_DBG m true n);
  store q m;;
  match d with Some d => lift (mem_write dst 0 d) | None => mret dst end.
(** [pMsg->is_error || pMsg->pSrsp->is_error] *)
Definition any_error (p : positive) : IO bool :=
  m ← load p;
  if is_error m then mret true else q ← srsp_of p; m ← load q; mret (is_error m).

(** The part of [API_MAC_TxRx_Status] after the exchange. *)
Definition read_status (p : positive) : IO Z :=
  r ← rsp p MT_MSG_rdU8_DBG;
  rsp_complete p;;
  e ← any_error p;
  MT_MSG_free (Some p);;
  mret (if (e : bool) then status_invalidParameter else r).

Definition API_MAC_TxRx_Status (p : positive) : IO Z :=
  MT_MSG_txrx fuel ackfuel p;; read_status p.

(** The shape most requests share: allocate, write, exchange. *)
Definition request (len c1 : Z) (ws : list wr) : IO Z :=
  o ← api_new_msg len 0x22 c1;
  match o with
  | None => mret status_noResources
  | Some p => emit p ws;; API_MAC_TxRx_Status p
  end.

Definition ApiMac_mcpsDataReq (d : ApiMac_mcpsDataReq_t) : IO Z :=
  request (0x23 + sd_len (dr_msdu d) + dr_payloadIELen d) 0x05
    (map Wr (encode_Addr (dr_dstAddr d) ++
             [F16 (dr_dstPanId d); F8 (dr_srcAddrMode d); F8 (dr_msduHandle d);
              F8 (convertTxOptions (dr_txOptions d)); F8 (dr_channel d); F8 (dr_power d)] ++
             encode_Sec (dr_sec d) ++
             [F32 (dr_includeFhIEs d); F16 (sd_len (dr_msdu d)); F16 (dr_payloadIELen d)]) ++
     [WrBuf (sd_p (dr_msdu d)) (sd_len (dr_msdu d)); WrBuf (dr_pIEList d) (dr_payloadIELen d)]).

Definition ApiMac_mcpsPurgeReq (msduHandle : Z) : IO Z := request 1 0x0e [Wr (F8 msduHandle)].

Definition ApiMac_mlmeAssociateReq (d : ApiMac_mlmeAssociateReq_t) : IO Z :=
  request 0x1a 0x06
    (map Wr ([F8 (ar_logicalChannel d); F8 (ar_channelPage d); F8 (ar_phyID d)] ++
             encode_Addr (ar_coordAddress d) ++
             [F16 (ar_coordPanId d);
              F8 (ApiMac_convertCapabilityInfo (ar_capabilityInformation d))] ++
             encode_Sec (ar_sec d))).

Definition ApiMac_mlmeDisassociateReq (d : ApiMac_mlmeDisassociateReq_t) : IO Z :=
  request 0x18 0x07
    (map Wr (encode_Addr (ir_deviceAddress d) ++
             [F16 (ir_devicePanId d); F8 (ir_disassociateReason d); bool_field (ir_txIndirect d)] ++
             encode_Sec (ir_sec d))).

Definition ApiMac_mlmeOrphanRsp (d : ApiMac_mlmeOrphanRsp_t) : IO Z :=
  request 0x16 0x51
    (WrBuf (Some (or_orphanAddress d)) APIMAC_SADDR_EXT_LEN ::
     map Wr ([F16 (or_shortAddress d); bool_field (or_associatedMember d)] ++
             encode_Sec (or_sec d))).

Definition ApiMac_mlmePollReq (d : ApiMac_mlmePollReq_t) : IO Z :=
  request 0x16 0x0d
    (map Wr (encode_Addr (pr_coordAddress d) ++ [F16 (pr_coordPanId d)] ++ encode_Sec (pr_sec d))).

Definition ApiMac_mlmeResetReq (setDefaultPib : bool) : IO Z :=
  request 0x01 0x01 [Wr (bool_field setDefaultPib)].

Definition ApiMac_mlmeScanReq (d : ApiMac_mlmeScanReq_t) : IO Z :=
  request (23 + 17) 0x0c
    (map Wr ([F8 (sr_scanType d); F8 (sr_scanDuration d); F8 (sr_channelPage d); F8 (sr_phyID d);
              F8 (sr_maxResults d); bool_field (sr_permitJoining d); F8 (sr_linkQuality d);
              F8 (sr_percentFilter d); bool_field (sr_MPMScan d); F8 (sr_MPMScanType d);
              F16 (sr_MPMScanDuration d)] ++ encode_Sec (sr_sec d)) ++
     [WrBuf (Some (sr_scanChannels d)) APIMAC_154G_CHANNEL_BITMAP_SIZ]).

Definition ApiMac_mlmeStartReq (d : ApiMac_mlmeStartReq_t) : IO Z :=
  let mpm := st_mpmParams d in
  request (0x2a + mp_numIEs mpm) 0x03
    (map Wr ([F32 (st_startTime d); F16 (st_panId d); F8 (st_logicalChannel d);
              F8 (st_channelPage d); F8 (st_phyID d); F8 (st_beaconOrder d);
              F8 (st_superframeOrder d); bool_field (st_panCoordinator d);
              bool_field (st_batteryLifeExt d); bool_field (st_coordRealignment d)] ++
             encode_Sec (st_realignSec d) ++ encode_Sec (st_beaconSec d) ++
             [bool_field (st_startFH d); F8 (mp_eBeaconOrder mpm); F8 (mp_offsetTimeSlot mpm);
              F16 (mp_NBPANEBeaconOrder mpm); F8 (mp_numIEs mpm)]) ++
     [WrBuf (mp_pIEIDs mpm) (mp_numIEs mpm)]).

Definition ApiMac_mlmeSyncReq (d : ApiMac_mlmeSyncReq_t) : IO Z :=
  request 0x04 0x04
    (map Wr [F8 (sy_logicalChannel d); F8 (sy_channelPage d); F8 (sy_trackBeacon d);
             F8 (sy_phyID d)]).

Definition ApiMac_updatePanId (panId : Z) : IO Z := request 0x02 0x32 [Wr (F16 panId)].

Definition ApiMac_srcMatchEnable : IO Z := request 0 0x39 [].

Definition ApiMac_mlmeWSAsyncReq (d : ApiMac_mlmeWSAsyncReq_t) : IO Z :=
  request (13 + 17) 0x44
    (map Wr ([F8 (wr_operation d); F8 (wr_frameType d)] ++ encode_Sec (wr_sec d)) ++
     [WrBuf (Some (wr_channels d)) APIMAC_154G_CHANNEL_BITMAP_SIZ]).

Definition ApiMac_startFH : IO Z := request 0 0x41 [].

Definition ApiMac_enableFH : IO Z := request 0 0x40 [].

Definition ApiMac_mlmeAssociateRsp (d : ApiMac_mlmeAssociateRsp_t) : IO Z :=
  request 0x16 0x50
    (WrBuf (Some (as_deviceAddress d)) APIMAC_SADDR_EXT_LEN ::
     map Wr ([F16 (as_assocShortAddress d); F8 (as_status d)] ++ encode_Sec (as_sec d))).

Definition ApiMac_secAddDevice (d : ApiMac_secAddDevice_t) : IO Z :=
  request 0x1d 0x33
    ([Wr (F16 (ad_panID d)); Wr (F16 (ad_shortAddr d));
      WrBuf (Some (ad_extAddr d)) APIMAC_SADDR_EXT_LEN; Wr (F32 (ad_frameCounter d));
      Wr (bool_field (ad_exempt d)); Wr (bool_field (ad_uniqueDevice d));
      Wr (bool_field (ad_duplicateDevFlag d)); Wr (F8 (ad_keyIdLookupDataSize d));
      WrBuf (Some (ad_keyIdLookupData d)) APIMAC_MAX_KEY_LOOKUP_LEN]).

Definition ApiMac_secDeleteDevice (pExtAddr : list Z) : IO Z :=
  request 0x08 0x34 [WrBuf (Some pExtAddr) APIMAC_SADDR_EXT_LEN].

Definition ApiMac_secDeleteKeyAndAssocDevices (keyIndex : Z) : IO Z :=
  request 0x01 0x36 [Wr (F8 keyIndex)].

Definition ApiMac_secDeleteAllDevices : IO Z := request 0 0x35 [].

Definition ApiMac_secAddKeyInitFrameCounter (d : ApiMac_secAddKeyInitFrameCounter_t) : IO Z :=
  request 0x21 0x38
    [Wr (bool_field (ak_newKeyFlag d)); Wr (F16 (ak_replaceKeyIndex d));
     WrBuf (Some (ak_key d)) APIMAC_KEY_MAX_LEN; Wr (F32 (ak_frameCounter d));
     Wr (F8 (ak_lookupDataSize d)); WrBuf (Some (ak_lookupData d)) APIMAC_MAX_KEY_LOOKUP_LEN].

(** The frame counter at [pFrameCounter] is returned with the status. *)
Definition ApiMac_secGetDefaultSourceKey (keyId pFrameCounter : Z) : IO (Z * Z) :=
  o ← api_new_msg 1 0x22 0x37;
  match o with
  | None => mret (status_noResources, pFrameCounter)
  | Some p =>
      emit p [Wr (F8 keyId)];;
      r ← MT_MSG_txrx fuel ackfuel p;
      '(r, c) ←
        (if negb (r =? 2) then mret (status_badState, pFrameCounter)
         else
           r ← rsp p MT_MSG_rdU8_DBG;
           c ← rsp p MT_MSG_rdU32_DBG;
           rsp_complete p;;
           e ← any_error p;
           mret (if (e : bool) then status_invalidParameter else r, c));
      MT_MSG_free (Some p);;
      mret (r, c)
  end.

(** ** Attributes of the MAC tables *)

(** The attributes that carry two index fields. *)
Definition is_security_attribute (att : Z) : bool :=
  existsb (Z.eqb att)
    [securityAttribute_autoRequestKeySource; securityAttribute_defaultKeySource;
     securityAttribute_panCoordExtendedAddress; securityAttribute_securityLevelTableEntries;
     securityAttribute_autoRequestSecurityLevel; securityAttribute_autoRequestKeyIdMode;
     securityAttribute_autoRequestKeyIndex; securityAttribute_keyTableEntries;
     securityAttribute_deviceTableEntries; securityAttribute_panCoordShortAddress].

(** The value on the wire: nothing for a size that is none of these. *)
Definition wr_value (wiresize v : Z) : list wr :=
  if wiresize =? 1 then [Wr (F8 (u8 v))]
  else if wiresize =? 2 then [Wr (F16 (u16 v))]
  else if wiresize =? 4 then [Wr (F32 (u32 v))]
  else if wiresize =? 8 then [Wr (F64 v)]
  else [].

Definition rd_value (p : positive) (wiresize : Z) : IO Z :=
  if wiresize =? 1 then rsp p MT_MSG_rdU8_DBG
  else if wiresize =? 2 then rsp p MT_MSG_rdU16_DBG
  else if wiresize =? 4 then rsp p MT_MSG_rdU32_DBG
  else if wiresize =? 8 then rsp p MT_MSG_rdU64_DBG
  else mret 0.

(** The store through the caller's pointer, to the memory [pValue]. *)
Definition store_value (datasize v : Z) (pValue : list Z) : outcome (list Z) :=
  if (datasize =? 1) || (datasize =? 2) || (datasize =? 4) || (datasize =? 8)
  then mem_write pValue 0 (le_bytes (Z.to_nat datasize) v)
  else Ret pValue.

(** The part of [API_MAC_Get_Common] after a response arrived. *)
Definition get_response (p : positive) (wiresize datasize : Z) (pValue : list Z)
  : IO (Z * list Z) :=
  r ← rsp p MT_MSG_rdU8_DBG;
  if negb (r =? status_success) then mret (r, pValue)
  else
    '(v, pValue) ←
      (if wiresize <? 0 then d ← rsp_buf p pValue (- wiresize); mret (0, d)
       else v ← rd_value p wiresize; mret (v, pValue));
    rsp_complete p;;
    q ← srsp_of p;
    m ← load q;
    if is_error m then mret (status_unsupportedAttribute, pValue)
    else
      pValue ← (if datasize <? 0 then mret pValue else lift (store_value datasize v pValue));
      mret (status_success, pValue).

Definition API_MAC_Get_Common (c0 c1 att_id wiresize datasize : Z) (pValue : list Z)
  : IO (Z * list Z) :=
  let l := if 0x100 <? att_id then 2 else 1 in
  o ← api_new_msg l c0 c1;
  match o with
  | None => mret (status_noResources, pValue)
  | Some p =>
      emit p (Wr (if l =? 1 then F8 att_id else F16 att_id) ::
              if is_security_attribute att_id then [Wr (F16 0); Wr (F16 0)] else []);;
      r ← MT_MSG_txrx fuel ackfuel p;
      '(r, pValue) ← (if negb (r =? 2) then mret (status_badState, pValue)
                      else get_response p wiresize datasize pValue);
      MT_MSG_free (Some p);;
      mret (r, pValue)
  end.

(** The bytes of the value and how many they are, [n_wrote] in the code. *)
Definition wire_count (wiresize : Z) : Z :=
  if (wiresize =? 1) || (wiresize =? 2) || (wiresize =? 4) || (wiresize =? 8) then wiresize else 0.

Definition API_MAC_Set_Common (c0 c1 att_id wiresize v : Z) : IO Z :=
  let len := if att_id <? 0x0100 then 1 + 16 else 1 + 1 + wiresize in
  o ← api_new_msg len c0 c1;
  match o with
  | None => mret status_noResources
  | Some p =>
      let id := if 0x100 <? att_id then F16 att_id else F8 att_id in
      let n_wrote := (if 0x100 <? att_id then 2 else 1) + wire_count wiresize in
      emit p (Wr id :: wr_value wiresize v ++ replicate (Z.to_nat (len - n_wrote)) (Wr (F8 0)));;
      API_MAC_TxRx_Status p
  end.

(** How many bytes an array attribute has on the wire; 0 if it is unknown. *)
Definition array_wiresize (att : Z) : Z :=
  if att =? attribute_beaconPayload then 16
  else if existsb (Z.eqb att)
            [securityAttribute_autoRequestKeySource; securityAttribute_defaultKeySource;
             securityAttribute_panCoordExtendedAddress; attribute_coordExtendedAddress;
             attribute_extendedAddress; FHAttribute_trackParentEUI] then 8
  else if existsb (Z.eqb att)
            [FHAttribute_gtk0Hash; FHAttribute_gtk1Hash; FHAttribute_gtk2Hash;
             FHAttribute_gtk3Hash] then APIMAC_FH_GTK_HASH_SIZE
  else if existsb (Z.eqb att)
            [FHAttribute_unicastExcludedChannels; FHAttribute_broadcastExcludedChannels]
       then APIMAC_FH_MAX_BIT_MAP_SIZE
  else if att =? FHAttribute_netName then APIMAC_FH_NET_NAME_SIZE_MAX
  else 0.

(** [datasize] is not set for the excluded channels and the network name. *)
Definition array_datasize (att : Z) : Z :=
  if existsb (Z.eqb att)
       [FHAttribute_unicastExcludedChannels; FHAttribute_broadcastExcludedChannels;
        FHAttribute_netName] then 0
  else array_wiresize att.

Definition array_is_secure (att : Z) : bool :=
  existsb (Z.eqb att)
    [securityAttribute_autoRequestKeySource; securityAttribute_defaultKeySource;
     securityAttribute_panCoordExtendedAddress].

Definition API_MAC_SetGetArray_Common (is_set : bool) (c0 c1 pib_attribute : Z) (pValue : list Z)
  : IO (Z * list Z) :=
  let wiresize := array_wiresize pib_attribute in
  if wiresize =? 0 then mret (status_unsupportedAttribute, pValue)
  else if negb is_set then
    API_MAC_Get_Common c0 c1 pib_attribute (- wiresize) (- array_datasize pib_attribute) pValue
  else
    let is_secure := array_is_secure pib_attribute in
    let n := (if pib_attribute <? 0x100 then 1 else 2) + (if is_secure then 4 else 0) + wiresize in
    o ← api_new_msg n c0 c1;
    match o with
    | None => mret (status_noResources, pValue)
    | Some p =>
        emit p (Wr (if pib_attribute <? 0x100 then F8 pib_attribute else F16 pib_attribute) ::
                (if is_secure then [Wr (F16 0); Wr (F16 0)] else []) ++
                [WrBuf (Some pValue) wiresize]);;
        r ← API_MAC_TxRx_Status p;
        mret (r, pValue)
    end.

Definition API_MAC_SetSecurity_Common (c0 c1 att_id wiresize value : Z) : IO Z :=
  o ← api_new_msg (-1) c0 c1;
  match o with
  | None => mret status_noResources
  | Some p =>
      emit p (Wr (if 0x100 <? att_id then F16 att_id else F8 att_id) ::
              [Wr (F16 0); Wr (F16 0)] ++ wr_value wiresize value);;
      r ← MT_MSG_txrx fuel ackfuel p;
      r ← (if negb (r =? 2) then mret status_badState
           else
             rsp p MT_MSG_rdU8_DBG;;
             rsp_complete p;;
             e ← any_error p;
             mret (if (e : bool) then status_badState else status_success));
      MT_MSG_free (Some p);;
      mret r
  end.

Definition ApiMac_mlmeGetReqBool (att : Z) (pValue : list Z) : IO (Z * list Z) :=
  API_MAC_Get_Common 0x22 0x08 att 1 1 pValue.
Definition ApiMac_mlmeGetReqUint8 (att : Z) (pValue : list Z) : IO (Z * list Z) :=
  API_MAC_Get_Common 0x22 0x08 att 1 1 pValue.
Definition ApiMac_mlmeGetReqUint16 (att : Z) (pValue : list Z) : IO (Z * list Z) :=
  API_MAC_Get_Common 0x22 0x08 att 2 2 pValue.
Definition ApiMac_mlmeGetReqUint32 (att : Z) (pValue : list Z) : IO (Z * list Z) :=
  API_MAC_Get_Common 0x22 0x08 att 4 4 pValue.
Definition ApiMac_mlmeGetReqArray (att : Z) (pValue : list Z) : IO (Z * list Z) :=
  API_MAC_SetGetArray_Common false 0x22 0x08 att pValue.
Definition ApiMac_mlmeSetReqArray (att : Z) (pValue : list Z) : IO (Z * list Z) :=
  API_MAC_SetGetArray_Common true 0x22 0x09 att pValue.
Definition ApiMac_mlmeGetFhReqUint8 (att : Z) (pValue : list Z) : IO (Z * list Z) :=
  API_MAC_Get_Common 0x22 0x42 att 1 1 pValue.
Definition ApiMac_mlmeGetFhReqUint16 (att : Z) (pValue : list Z) : IO (Z * list Z) :=
  API_MAC_Get_Common 0x22 0x42 att 2 2 pValue.
(** Two bytes on the wire, as in the code. *)
Definition ApiMac_mlmeGetFhReqUint32 (att : Z) (pValue : list Z) : IO (Z * list Z) :=
  API_MAC_Get_Common 0x22 0x42 att 2 4 pValue.
Definition ApiMac_mlmeSetFhReqArray (att : Z) (pValue : list Z) : IO (Z * list Z) :=
  API_MAC_SetGetArray_Common true 0x22 0x43 att pValue.
Definition ApiMac_mlmeGetFhReqArray (att : Z) (pValue : list Z) : IO (Z * list Z) :=
  API_MAC_SetGetArray_Common false 0x22 0x42 att pValue.
Definition ApiMac_mlmeGetSecurityReqUint8 (att : Z) (pValue : list Z) : IO (Z * list Z) :=
  API_MAC_Get_Common 0x22 0x30 att 1 1 pValue.
Definition ApiMac_mlmeGetSecurityReqUint16 (att : Z) (pValue : list Z) : IO (Z * list Z) :=
  API_MAC_Get_Common 0x22 0x30 att 2 2 pValue.
Definition ApiMac_mlmeGetSecurityReqArray (att : Z) (pValue : list Z) : IO (Z * list Z) :=
  API_MAC_SetGetArray_Common false 0x22 0x30 att pValue.
Definition ApiMac_mlmeSetReqBool (att : Z) (value : bool) : IO Z :=
  API_MAC_Set_Common 0x22 0x09 att 1 (if value then 1 else 0).
Definition ApiMac_mlmeSetReqUint8 (att value : Z) : IO Z :=
  API_MAC_Set_Common 0x22 0x09 att 1 value.
Definition ApiMac_mlmeSetReqUint16 (att value : Z) : IO Z :=
  API_MAC_Set_Common 0x22 0x09 att 2 value.
Definition ApiMac_mlmeSetReqUint32 (att value : Z) : IO Z :=
  API_MAC_Set_Common 0x22 0x09 att 4 value.
Definition ApiMac_mlmeSetSecurityReqUint8 (att value : Z) : IO Z :=
  API_MAC_SetSecurity_Common 0x22 0x31 att 1 value.
Definition ApiMac_mlmeSetSecurityReqUint16 (att value : Z) : IO Z :=
  API_MAC_SetSecurity_Common 0x22 0x31 att 2 value.
Definition ApiMac_mlmeSetSecurityReqArray (att : Z) (pValue : list Z) : IO (Z * list Z) :=
  API_MAC_SetGetArray_Common true 0x22 0x31 att pValue.
Definition ApiMac_mlmeSetFhReqUint8 (att value : Z) : IO Z :=
  API_MAC_Set_Common 0x22 0x43 att 1 value.
Definition ApiMac_mlmeSetFhReqUint16 (att value : Z) : IO Z :=
  API_MAC_Set_Common 0x22 0x43 att 2 value.
Definition ApiMac_mlmeSetFhReqUint32 (att value : Z) : IO Z :=
  API_MAC_Set_Common 0x22 0x43 att 4 value.

(** ** Entries of the security tables *)

(** What the [void *] of a request for a table entry points to. *)
Inductive sec_entry : Type :=
| KeyIdLookupEntry (e : ApiMac_securityPibKeyIdLookupEntry)
| KeyDeviceEntry (e : ApiMac_securityPibKeyDeviceEntry)
| KeyUsageEntry (e : ApiMac_securityPibKeyUsageEntry)
| KeyEntry (e : ApiMac_securityPibKeyEntry)
| DeviceEntry (e : ApiMac_securityPibDeviceEntry)
| LevelEntry (e : ApiMac_securityPibSecurityLevelEntry).

Record secPibStruct : Type := MkSecPib {
  sp_pMsg : positive;
  sp_result : Z;
  sp_n_msgs : Z;
  sp_is_error : bool;
  sp_is_set : bool;
  sp_attr : Z;
  sp_pValue : option sec_entry
}.

Section SecPibSetters.
Variable p : secPibStruct.
Definition sp_done (n r : Z) : secPibStruct :=
  MkSecPib (sp_pMsg p) r n (sp_is_error p) (sp_is_set p) (sp_attr p) (sp_pValue p).
Definition sp_entry (e : sec_entry) : secPibStruct :=
  MkSecPib (sp_pMsg p) (sp_result p) (sp_n_msgs p) (sp_is_error p) (sp_is_set p) (sp_attr p) (Some e).
Definition sp_fail : secPibStruct :=
  MkSecPib (sp_pMsg p) (sp_result p) (sp_n_msgs p) true (sp_is_set p) (sp_attr p) (sp_pValue p).
End SecPibSetters.

(** The end all handlers share: exchange, and the status if there was a
    response; a set is done then, a get goes on with [k]. *)
Definition sec_exchange (p : secPibStruct) (k : IO sec_entry) : IO secPibStruct :=
  n ← MT_MSG_txrx fuel ackfuel (sp_pMsg p);
  if negb (n =? 2) then mret (sp_done p n (sp_result p))
  else
    r ← rsp (sp_pMsg p) MT_MSG_rdU8_DBG;
    let p := sp_done p n r in
    if sp_is_set p then mret p else e ← k; mret (sp_entry p e).

Definition sec_pib_ApiMac_securityAttribute_keyTable (p : secPibStruct) : IO secPibStruct :=
  if negb (sp_is_set p) || bool_decide (is_Some (sp_pValue p)) then mret (sp_fail p)
  else
    emit (sp_pMsg p) [Wr (F8 (sp_attr p)); Wr (F16 0); Wr (F16 0)];;
    n ← MT_MSG_txrx fuel ackfuel (sp_pMsg p);
    if n =? 2 then r ← rsp (sp_pMsg p) MT_MSG_rdU8_DBG; mret (sp_done p n r)
    else mret (sp_done p n (sp_result p)).

Definition when_set (p : secPibStruct) (ws : list wr) : list wr := if sp_is_set p then ws else [].

Definition sec_pib_ApiMac_securityAttribute_keyIdLookupEntry (p : secPibStruct)
    (e : ApiMac_securityPibKeyIdLookupEntry) : IO secPibStruct :=
  let pMsg := sp_pMsg p in
  emit pMsg ([Wr (F8 (sp_attr p)); Wr (F16 (kl_keyIndex e)); Wr (F8 (kl_keyIdLookupIndex e))] ++
             when_set p [WrBuf (Some (kl_lookupData e)) APIMAC_MAX_KEY_LOOKUP_LEN;
                         Wr (F8 (kl_lookupDataSize e))]);;
  sec_exchange p
    (i ← rsp pMsg MT_MSG_rdU16_DBG;
     j ← rsp pMsg MT_MSG_rdU8_DBG;
     d ← rsp_buf pMsg (kl_lookupData e) APIMAC_MAX_KEY_LOOKUP_LEN;
     n ← rsp pMsg MT_MSG_rdU8_DBG;
     mret (KeyIdLookupEntry (MkKeyIdLookup i j d n))).

Definition sec_pib_ApiMac_securityAttribute_keyDeviceEntry (p : secPibStruct)
    (e : ApiMac_securityPibKeyDeviceEntry) : IO secPibStruct :=
  let pMsg := sp_pMsg p in
  emit pMsg ([Wr (F8 (sp_attr p)); Wr (F16 (kd_keyIndex e)); Wr (F16 (kd_keyDeviceIndex e))] ++
             when_set p [Wr (F16 (kd_deviceDescriptorHandle e)); Wr (bool_field (kd_uniqueDevice e));
                         Wr (bool_field (kd_blackListed e))]);;
  sec_exchange p
    (i ← rsp pMsg MT_MSG_rdU16_DBG;
     j ← rsp pMsg MT_MSG_rdU16_DBG;
     h ← rsp pMsg MT_MSG_rdU16_DBG;
     u ← rsp pMsg MT_MSG_rdU8_DBG;
     b ← rsp pMsg MT_MSG_rdU8_DBG;
     mret (KeyDeviceEntry (MkKeyDevice i j h (to_bool u) (to_bool b)))).

Definition sec_pib_ApiMac_securityAttribute_keyUsageEntry (p : secPibStruct)
    (e : ApiMac_securityPibKeyUsageEntry) : IO secPibStruct :=
  let pMsg := sp_pMsg p in
  emit pMsg ([Wr (F8 (sp_attr p)); Wr (F16 (ku_keyIndex e)); Wr (F8 (ku_keyUsageIndex e))] ++
             when_set p [Wr (F8 (ku_frameType e)); Wr (F8 (ku_cmdFrameId e))]);;
  sec_exchange p
    (i ← rsp pMsg MT_MSG_rdU16_DBG;
     j ← rsp pMsg MT_MSG_rdU8_DBG;
     f ← rsp pMsg MT_MSG_rdU8_DBG;
     c ← rsp pMsg MT_MSG_rdU8_DBG;
     mret (KeyUsageEntry (MkKeyUsage i j f c))).

Definition sec_pib_ApiMac_securityAttribute_keyEntry (p : secPibStruct)
    (e : ApiMac_securityPibKeyEntry) : IO secPibStruct :=
  let pMsg := sp_pMsg p in
  emit pMsg ([Wr (F8 (sp_attr p)); Wr (F16 (ke_keyIndex e)); Wr (F8 0)] ++
             when_set p [WrBuf (Some (ke_keyEntry e)) APIMAC_KEY_MAX_LEN;
                         Wr (F32 (ke_frameCounter e))]);;
  sec_exchange p
    (i ← rsp pMsg MT_MSG_rdU16_DBG;
     rsp pMsg MT_MSG_rdU8_DBG;;
     k ← rsp_buf pMsg (ke_keyEntry e) APIMAC_KEY_MAX_LEN;
     c ← rsp pMsg MT_MSG_rdU32_DBG;
     mret (KeyEntry (MkKeyEntry i k c))).

(** The loops over [frameCntr] run once; the pointer may be null. *)
Definition sec_pib_ApiMac_securityAttribute_deviceEntry (p : secPibStruct)
    (e : ApiMac_securityPibDeviceEntry) : IO secPibStruct :=
  let pMsg := sp_pMsg p in
  emit pMsg ([Wr (F8 (sp_attr p)); Wr (F8 (de_deviceIndex e)); Wr (F8 0)] ++
             when_set p [Wr (F16 (de_panID e)); Wr (F16 (de_shortAddress e));
                         WrBuf (Some (de_extAddress e)) APIMAC_SADDR_EXT_LEN;
                         Wr (bool_field (de_exempt e))]);;
  (if sp_is_set p
   then '(c, k) ← lift (deref (de_frameCntr e)); emit pMsg [Wr (F32 c); Wr (F16 k)]
   else mret tt);;
  sec_exchange p
    (i ← rsp pMsg MT_MSG_rdU8_DBG;
     rsp pMsg MT_MSG_rdU8_DBG;;
     pan ← rsp pMsg MT_MSG_rdU16_DBG;
     a ← rsp pMsg MT_MSG_rdU16_DBG;
     x ← rsp_buf pMsg (de_extAddress e) APIMAC_SADDR_EXT_LEN;
     ex ← rsp pMsg MT_MSG_rdU8_DBG;
     c ← rsp pMsg MT_MSG_rdU32_DBG;
     lift (deref (de_frameCntr e));;
     k ← rsp pMsg MT_MSG_rdU16_DBG;
     mret (DeviceEntry (MkDeviceEntry i pan a x (Some (c, k)) (to_bool ex)))).

Definition sec_pib_ApiMac_securityAttribute_securityLevelEntry (p : secPibStruct)
    (e : ApiMac_securityPibSecurityLevelEntry) : IO secPibStruct :=
  let pMsg := sp_pMsg p in
  emit pMsg ([Wr (F8 (sp_attr p)); Wr (F8 (le_levelIndex e)); Wr (F8 0); Wr (F16 0)] ++
             when_set p [Wr (F8 (le_frameType e)); Wr (F8 (le_commandFrameIdentifier e));
                         Wr (F8 (le_securityMinimum e));
                         Wr (bool_field (le_securityOverrideSecurityMinimum e))]);;
  sec_exchange p
    (i ← rsp pMsg MT_MSG_rdU8_DBG;
     rsp pMsg MT_MSG_rdU8_DBG;;
     rsp pMsg MT_MSG_rdU16_DBG;;
     f ← rsp pMsg MT_MSG_rdU8_DBG;
     c ← rsp pMsg MT_MSG_rdU8_DBG;
     s ← rsp pMsg MT_MSG_rdU8_DBG;
     o ← rsp pMsg MT_MSG_rdU8_DBG;
     mret (LevelEntry (MkLevelEntry i f c s (to_bool o)))).

(** The table of handlers.  An attribute with an entry of another type makes
    the handler read that memory through a pointer of the wrong type. *)
Definition sec_pib_handler (attr : Z) : option (secPibStruct -> IO secPibStruct) :=
  let with_entry {A} (sel : sec_entry -> option A) (f : secPibStruct -> A -> IO secPibStruct) :=
    Some (fun p => match sp_pValue p with
                   | None => undefined NullPointer
                   | Some v => match sel v with Some e => f p e | None => undefined OutOfBounds end
                   end) in
  if attr =? securityAttribute_keyTable then Some sec_pib_ApiMac_securityAttribute_keyTable
  else if attr =? securityAttribute_keyIdLookupEntry then
    with_entry (fun v => match v with KeyIdLookupEntry e => Some e | _ => None end)
               sec_pib_ApiMac_securityAttribute_keyIdLookupEntry
  else if attr =? securityAttribute_keyDeviceEntry then
    with_entry (fun v => match v with KeyDeviceEntry e => Some e | _ => None end)
               sec_pib_ApiMac_securityAttribute_keyDeviceEntry
  else if attr =? securityAttribute_keyUsageEntry then
    with_entry (fun v => match v with KeyUsageEntry e => Some e | _ => None end)
               sec_pib_ApiMac_securityAttribute_keyUsageEntry
  else if attr =? securityAttribute_keyEntry then
    with_entry (fun v => match v with KeyEntry e => Some e | _ => None end)
               sec_pib_ApiMac_securityAttribute_keyEntry
  else if attr =? securityAttribute_deviceEntry then
    with_entry (fun v => match v with DeviceEntry e => Some e | _ => None end)
               sec_pib_ApiMac_securityAttribute_deviceEntry
  else if attr =? securityAttribute_securityLevelEntry then
    with_entry (fun v => match v with LevelEntry e => Some e | _ => None end)
               sec_pib_ApiMac_securityAttribute_securityLevelEntry
  else None.

Definition common_ApiMac_mlmeGetSetSecurityReqStruct (is_set : bool) (attr : Z)
    (pValue : option sec_entry) : IO (Z * option sec_entry) :=
  o ← api_new_msg (-1) 0x22 (if is_set then 0x31 else 0x30);
  match o with
  | None => mret (status_noResources, pValue)
  | Some pMsg =>
      '(r, v) ←
        match sec_pib_handler attr with
        | None => mret (status_unsupportedAttribute, pValue)
        | Some h =>
            p ← h (MkSecPib pMsg status_invalidParameter 0 false is_set attr pValue);
            if negb (sp_n_msgs p =? 2) then mret (status_badState, sp_pValue p)
            else
              rsp_complete pMsg;;
              e ← any_error pMsg;
              mret (if (e : bool) then status_badState else sp_result p, sp_pValue p)
        end;
      MT_MSG_free (Some pMsg);;
      mret (r, v)
  end.

Definition ApiMac_mlmeGetSecurityReqStruct (att : Z) (pValue : option sec_entry)
  : IO (Z * option sec_entry) := common_ApiMac_mlmeGetSetSecurityReqStruct false att pValue.
Definition ApiMac_mlmeSetSecurityReqStruct (att : Z) (pValue : option sec_entry)
  : IO (Z * option sec_entry) := common_ApiMac_mlmeGetSetSecurityReqStruct true att pValue.

End Requests.

(** ** What the writes leave in the message *)

(** The field one write call appends. *)
Definition wr_field (w : wr) : list field :=
  match w with
  | Wr f => [f]
  | WrBuf (Some d) n => if n =? 0 then [] else [FBuf (take (Z.to_nat n) d)]
  | WrBuf None _ => []
  end.
Definition wr_fields (ws : list wr) : list field := flat_map wr_field ws.

(** The values fit their width, and a buffer holds the bytes to be written. *)
Definition wr_ok (w : wr) : Prop :=
  match w with
  | Wr f => field_ok f
  | WrBuf p n => n = 0 \/ exists d, p = Some d /\ is_bytes d /\ 0 < n <= zlen d
  end.

Lemma take_bytes n d : is_bytes d -> is_bytes (take n d).
Proof. apply Forall_take. Qed.

(** A buffer with its length is a field, or nothing. *)
Lemma wrBuf_take m d n :
  0 < n <= zlen d -> MT_MSG_wrBuf_DBG m (Some d) n =
    MT_MSG_wrBuf_DBG m (Some (take (Z.to_nat n) d)) (zlen (take (Z.to_nat n) d)).
Proof.
  intros Hn. assert (zlen (take (Z.to_nat n) d) = n) as El by (unfold zlen in *; rewrite length_take; lia).
  unfold MT_MSG_wrBuf_DBG. rewrite El. destruct (is_error m); [done|].
  destruct (init_wr_idx m) as [m'| |]; [|done..]. cbn [mbind outcome_bind].
  destruct (n =? 0); [done|]. destruct (_ <? _); [done|].
  rewrite !mem_read_ok by lia. cbn [mbind outcome_bind]. unfold slice. rewrite !drop_0.
  by rewrite take_take, Nat.min_id.
Qed.

Lemma wr_field_ok w : wr_ok w -> Forall field_ok (wr_field w).
Proof.
  destruct w as [f|[d|] n]; cbn; [by constructor| |by constructor].
  destruct (Z.eqb_spec n 0); [by constructor|].
  intros [?|(? & [= <-] & Hb & Hn)]; [done|]. constructor; [|constructor].
  split; [by apply take_bytes|]. unfold zlen in Hn.
  destruct d; [cbn in Hn; lia|]. destruct (Z.to_nat n) eqn:E; [lia|done].
Qed.

Lemma write_one_ok m w :
  msg_wf m -> is_error m = false -> iobuf_nvalid m <= iobuf_idx m -> wr_ok w ->
  fits m (fields_enc (wr_field w)) ->
  exists m', write_one m w = Ret m' /\ appended m (iobuf_idx m) (fields_enc (wr_field w)) m'.
Proof.
  intros Hw He Hn Hok Hf. pose proof (wr_field_ok w Hok) as Hfs.
  destruct w as [f|p n]; cbn [write_one wr_ok] in *.
  - destruct (write_fields_ok [f] m) as (m' & E & A); try done.
    exists m'. split; [|done]. cbn [write_fields] in E. by apply bind_Ret_inv in E as (? & E & [= ->]).
  - destruct Hok as [-> | (d & -> & Hb & Hn')].
    + exists m. assert (fields_enc (wr_field (WrBuf p 0)) = []) as -> by by destruct p.
      destruct Hf as [H0 _]. unfold MT_MSG_wrBuf_DBG, init_wr_idx.
      rewrite He, (proj2 (Z.leb_le _ _)) by done. split; [done|].
      constructor; try done; [change (zlen []) with 0; lia|by rewrite splice_nil].
    + rewrite wrBuf_take by done. cbn [wr_field] in *.
      destruct (Z.eqb_spec n 0); [lia|]. cbn [fields_enc flat_map field_enc] in *.
      rewrite app_nil_r in *. apply wrBuf_appended; try done. by apply take_bytes.
Qed.

Lemma write_all_ok ws m :
  msg_wf m -> is_error m = false -> iobuf_nvalid m <= iobuf_idx m -> Forall wr_ok ws ->
  fits m (fields_enc (wr_fields ws)) ->
  exists m', write_all m ws = Ret m' /\ appended m (iobuf_idx m) (fields_enc (wr_fields ws)) m'.
Proof.
  revert m. induction ws as [|w ws IH]; intros m Hw He Hn Hok Hf.
  - exists m. split; [done|]. change (fields_enc (wr_fields [])) with (@nil Z).
    constructor; try done; [change (zlen []) with 0; lia|by rewrite splice_nil].
  - apply Forall_cons_iff in Hok as [Hok Hoks].
    change (wr_fields (w :: ws)) with (wr_field w ++ wr_fields ws) in *.
    rewrite fields_enc_app in *. destruct Hf as [H0 Hf]. rewrite zlen_app in Hf.
    pose proof (zlen_nonneg (fields_enc (wr_fields ws))).
    pose proof (zlen_nonneg (fields_enc (wr_field w))).
    destruct (write_one_ok m w) as (m1 & E1 & A1); try done; [split; lia|].
    pose proof A1 as [W1 N1 I1 V1 _ _].
    destruct (IH m1) as (m2 & E2 & A2); try done; [split; lia|].
    exists m2. cbn [write_all]. rewrite E1. cbn [mbind outcome_bind]. split; [done|].
    rewrite I1 in A2. apply (appended_trans m m1 m2); try done. lia.
Qed.

Lemma write_one_links m w m' :
  write_one m w = Ret m' -> pListNext m' = pListNext m /\ pSrsp m' = pSrsp m.
Proof.
  destruct w as [f|p n]; cbn [write_one]; [|apply wrBuf_links].
  intros E. apply (write_fields_links [f] m m'). cbn [write_fields]. by rewrite E.
Qed.

Lemma write_all_links ws m m' :
  write_all m ws = Ret m' -> pListNext m' = pListNext m /\ pSrsp m' = pSrsp m.
Proof.
  revert m. induction ws as [|w ws IH]; intros m; cbn [write_all]; [by intros [= <-]|].
  intros (m1 & [A B]%write_one_links & [A' B']%IH)%bind_Ret_inv. by rewrite A', B', A, B.
Qed.

(** Writes behind the announced length are in the buffer but not in the
    payload: [d] is announced, [cut] is not. *)
Lemma write_all_payload m i ws d cut :
  writable m i -> Forall wr_ok ws -> fields_enc (wr_fields ws) = d ++ cut -> len_ok i (zlen d) ->
  expected_len m = zlen d \/ (expected_len m < 0 /\ cut = []) ->
  payload_start i + zlen (d ++ cut) + 1 <= IOBUF_SIZE ->
  exists m', write_all m ws = Ret m' /\ has_payload m' i d /\
    iobuf_nvalid m' <= payload_start i + zlen (d ++ cut) /\
    cmd0 m' = cmd0 m /\ cmd1 m' = cmd1 m /\ pListNext m' = pListNext m /\ pSrsp m' = pSrsp m.
Proof.
  intros [Hwf He Hi Hn Hd H0 H1] Hok Hdc Hl Hel Hfit. pose proof (payload_start_bounds i).
  destruct (write_all_ok ws m) as (m1 & E & A); try done; [split; [lia|rewrite Hdc; lia]|].
  apply write_all_links in E as Hk.
  destruct A as [W N I V B (S0 & S1 & S2 & S3 & S4 & S5 & S6)]. rewrite Hdc in *.
  exists m1. split; [done|]. split; [|split; [lia|done]].
  rewrite <- S0 in H0. rewrite <- S1 in H1. rewrite Hd in S6.
  rewrite zlen_app in *. pose proof (zlen_nonneg cut). pose proof (zlen_nonneg d).
  constructor; try done; try lia.
  - rewrite B, Hi, <- (splice_splice_app _ d cut), slice_splice_disjoint, slice_splice_same;
      try done; pose proof (mwf_buf m Hwf); unfold zlen, IOBUF_SIZE in *;
      rewrite ?length_splice; lia.
  - rewrite S2. destruct Hel as [Hel|[Hel ->]]; [by right; right|left].
    change (zlen []) with 0 in *. lia.
Qed.

(** ** Sending *)

(** A payload of [n] bytes, [k] bytes written in all, goes out in one frame. *)
Record sendable (i : mt_iface) (n k : Z) : Prop := MkSendable {
  sb_len : len_ok i n;
  sb_frame : one_frame i (payload_start i + k);
  sb_size : payload_start i + k + 1 <= 2176;
  sb_cut : n <= k
}.

Lemma one_frame_mono i j k : one_frame i k -> j <= k -> one_frame i j.
Proof. intros [?|[? ?]] ?; [by left|right; lia]. Qed.

Lemma api_new_msg_run s len c0 c1 :
  ready s -> is_byte c0 -> is_byte c1 ->
  exists m, api_new_msg len c0 c1 s = Ret (Some (next_ptr s), put (next_ptr s) m (bumped s)) /\
    writable m (cfg s) /\ cmd0 m = c0 /\ cmd1 m = c1 /\ expected_len m = len /\
    pListNext m = None /\ pSrsp m = None.
Proof.
  intros [Hf _ _ _] H0 H1.
  destruct (alloc_run s len c0 c1 Hf) as (m0 & Ea & W0 & E0 & I0 & N0 & C0 & C1 & L0 & S0 & P0).
  set (m1 := MT_MSG_setSrcIface m0 None). assert (msg_wf m1) as W1 by by destruct W0.
  destruct (setDest_writable m1 (cfg s)) as (m2 & E2 & Wr & D0 & D1 & D2 & D3 & D4);
    try (cbn; congruence).
  exists m2. split; [|split_and!; cbn in *; congruence].
  unfold api_new_msg. run_step Ea. run_msg (eq_refl (Ret m1)).
  assert (set_dest (next_ptr s) (put (next_ptr s) m1 (bumped s)) =
          Ret (tt, put (next_ptr s) m2 (bumped s))) as Ed.
  { unfold set_dest. run_get. by apply on_msg_put. }
  by run_step Ed.
Qed.

(** The interface after the request [d] was sent: its message is still live. *)
Definition requested (s : mif) (c1 : Z) (d : list Z) : mif :=
  after_request (next_ptr s) (mt_frame (cfg s) 0x22 c1 d) (bumped s).

Lemma exchange_run fuel ackfuel s len c1 ws d cut :
  ready s -> is_byte c1 -> Forall wr_ok ws -> fields_enc (wr_fields ws) = d ++ cut ->
  len = zlen d \/ (len < 0 /\ cut = []) -> sendable (cfg s) (zlen d) (zlen (d ++ cut)) ->
  let p := next_ptr s in
  exists m m1 m2, api_new_msg len 0x22 c1 s = Ret (Some p, put p m (bumped s)) /\
    emit p ws (put p m (bumped s)) = Ret (tt, put p m1 (bumped s)) /\
    MT_MSG_txrx fuel ackfuel p (put p m1 (bumped s)) = Ret (1, put p m2 (requested s c1 d)) /\
    pListNext m2 = None /\ pSrsp m2 = None.
Proof.
  intros Hr H1 Hok Hdc Hlen [Hlo Hof Hsz Hcut] p. pose proof (payload_start_bounds (cfg s)).
  destruct (api_new_msg_run s len 0x22 c1) as (m & Ea & Hw & C0 & C1 & L & N & S); try done.
  destruct (write_all_payload m (cfg s) ws d cut) as (m1 & E1 & Hp & V1 & D0 & D1 & N1 & S1); try done.
  { by rewrite L. } { unfold IOBUF_SIZE. lia. }
  pose proof (ready_bumped s Hr) as [Hf Hlk _ _].
  destruct (txrx_frame fuel ackfuel p m1 (bumped s) d) as (m2 & E2 & N2 & S2); try done.
  { rewrite D0, C0. lia. } { congruence. } { by eapply one_frame_mono. }
  { rewrite frame_length. change (cfg (bumped s)) with (cfg s). destruct (include_chksum _); lia. }
  exists m, m1, m2. split; [done|]. split; [by apply on_msg_put|]. split; [|done].
  rewrite E2, D0, D1, C0, C1. done.
Qed.

(** ** The requests that expect a status *)

Inductive mac_request : Type :=
| DataReq (d : ApiMac_mcpsDataReq_t)
| PurgeReq (msduHandle : Z)
| AssociateReq (d : ApiMac_mlmeAssociateReq_t)
| AssociateRsp (d : ApiMac_mlmeAssociateRsp_t)
| DisassociateReq (d : ApiMac_mlmeDisassociateReq_t)
| OrphanRsp (d : ApiMac_mlmeOrphanRsp_t)
| PollReq (d : ApiMac_mlmePollReq_t)
| ResetReq (setDefaultPib : bool)
| ScanReq (d : ApiMac_mlmeScanReq_t)
| StartReq (d : ApiMac_mlmeStartReq_t)
| SyncReq (d : ApiMac_mlmeSyncReq_t)
| UpdatePanId (panId : Z)
| SrcMatchEnable
| WSAsyncReq (d : ApiMac_mlmeWSAsyncReq_t)
| StartFH
| EnableFH
| SecAddDevice (d : ApiMac_secAddDevice_t)
| SecDeleteDevice (a : list Z)
| SecDeleteKeyAndAssocDevices (keyIndex : Z)
| SecDeleteAllDevices
| SecAddKeyInitFrameCounter (d : ApiMac_secAddKeyInitFrameCounter_t)
| SetReqBool (att : Z) (v : bool)
| SetReqUint8 (att v : Z)
| SetReqUint16 (att v : Z)
| SetReqUint32 (att v : Z)
| SetFhReqUint8 (att v : Z)
| SetFhReqUint16 (att v : Z)
| SetFhReqUint32 (att v : Z).

Definition run_request (fuel ackfuel : nat) (r : mac_request) : IO Z :=
  match r with
  | DataReq d => ApiMac_mcpsDataReq fuel ackfuel d
  | PurgeReq h => ApiMac_mcpsPurgeReq fuel ackfuel h
  | AssociateReq d => ApiMac_mlmeAssociateReq fuel ackfuel d
  | AssociateRsp d => ApiMac_mlmeAssociateRsp fuel ackfuel d
  | DisassociateReq d => ApiMac_mlmeDisassociateReq fuel ackfuel d
  | OrphanRsp d => ApiMac_mlmeOrphanRsp fuel ackfuel d
  | PollReq d => ApiMac_mlmePollReq fuel ackfuel d
  | ResetReq b => ApiMac_mlmeResetReq fuel ackfuel b
  | ScanReq d => ApiMac_mlmeScanReq fuel ackfuel d
  | StartReq d => ApiMac_mlmeStartReq fuel ackfuel d
  | SyncReq d => ApiMac_mlmeSyncReq fuel ackfuel d
  | UpdatePanId x => ApiMac_updatePanId fuel ackfuel x
  | SrcMatchEnable => ApiMac_srcMatchEnable fuel ackfuel
  | WSAsyncReq d => ApiMac_mlmeWSAsyncReq fuel ackfuel d
  | StartFH => ApiMac_startFH fuel ackfuel
  | EnableFH => ApiMac_enableFH fuel ackfuel
  | SecAddDevice d => ApiMac_secAddDevice fuel ackfuel d
  | SecDeleteDevice a => ApiMac_secDeleteDevice fuel ackfuel a
  | SecDeleteKeyAndAssocDevices k => ApiMac_secDeleteKeyAndAssocDevices fuel ackfuel k
  | SecDeleteAllDevices => ApiMac_secDeleteAllDevices fuel ackfuel
  | SecAddKeyInitFrameCounter d => ApiMac_secAddKeyInitFrameCounter fuel ackfuel d
  | SetReqBool a v => ApiMac_mlmeSetReqBool fuel ackfuel a v
  | SetReqUint8 a v => ApiMac_mlmeSetReqUint8 fuel ackfuel a v
  | SetReqUint16 a v => ApiMac_mlmeSetReqUint16 fuel ackfuel a v
  | SetReqUint32 a v => ApiMac_mlmeSetReqUint32 fuel ackfuel a v
  | SetFhReqUint8 a v => ApiMac_mlmeSetFhReqUint8 fuel ackfuel a v
  | SetFhReqUint16 a v => ApiMac_mlmeSetFhReqUint16 fuel ackfuel a v
  | SetFhReqUint32 a v => ApiMac_mlmeSetFhReqUint32 fuel ackfuel a v
  end.

(** The second command byte of each request. *)
Definition req_cmd1 (r : mac_request) : Z :=
  match r with
  | ResetReq _ => 0x01 | StartReq _ => 0x03 | SyncReq _ => 0x04 | DataReq _ => 0x05
  | AssociateReq _ => 0x06 | DisassociateReq _ => 0x07
  | SetReqBool _ _ | SetReqUint8 _ _ | SetReqUint16 _ _ | SetReqUint32 _ _ => 0x09
  | ScanReq _ => 0x0c | PollReq _ => 0x0d | PurgeReq _ => 0x0e
  | UpdatePanId _ => 0x32 | SecAddDevice _ => 0x33 | SecDeleteDevice _ => 0x34
  | SecDeleteAllDevices => 0x35 | SecDeleteKeyAndAssocDevices _ => 0x36
  | SecAddKeyInitFrameCounter _ => 0x38 | SrcMatchEnable => 0x39
  | EnableFH => 0x40 | StartFH => 0x41
  | SetFhReqUint8 _ _ | SetFhReqUint16 _ _ | SetFhReqUint32 _ _ => 0x43
  | WSAsyncReq _ => 0x44 | AssociateRsp _ => 0x50 | OrphanRsp _ => 0x51
  end.

(** A pointer with its length: no field when there is nothing to send. *)
Definition opt_buf (p : option (list Z)) (n : Z) : list field :=
  if n =? 0 then [] else match p with Some d => [FBuf (take (Z.to_nat n) d)] | None => [] end.

(** A plain attribute and its value are padded to 17 bytes. *)
Definition plain_set (att : Z) (v : field) : list field :=
  F8 att :: v :: replicate (16 - length (field_enc v)) (F8 0).

(** The wire layout: the fields of each request, in order. *)
Definition req_fields (r : mac_request) : list field :=
  match r with
  | DataReq d =>
      encode_Addr (dr_dstAddr d) ++
      [F16 (dr_dstPanId d); F8 (dr_srcAddrMode d); F8 (dr_msduHandle d);
       F8 (convertTxOptions (dr_txOptions d)); F8 (dr_channel d); F8 (dr_power d)] ++
      encode_Sec (dr_sec d) ++
      [F32 (dr_includeFhIEs d); F16 (sd_len (dr_msdu d)); F16 (dr_payloadIELen d)] ++
      opt_buf (sd_p (dr_msdu d)) (sd_len (dr_msdu d)) ++
      opt_buf (dr_pIEList d) (dr_payloadIELen d)
  | PurgeReq h => [F8 h]
  | AssociateReq d =>
      [F8 (ar_logicalChannel d); F8 (ar_channelPage d); F8 (ar_phyID d)] ++
      encode_Addr (ar_coordAddress d) ++
      [F16 (ar_coordPanId d); F8 (ApiMac_convertCapabilityInfo (ar_capabilityInformation d))] ++
      encode_Sec (ar_sec d)
  | AssociateRsp d =>
      [FBuf (as_deviceAddress d); F16 (as_assocShortAddress d); F8 (as_status d)] ++
      encode_Sec (as_sec d)
  | DisassociateReq d =>
      encode_Addr (ir_deviceAddress d) ++
      [F16 (ir_devicePanId d); F8 (ir_disassociateReason d); bool_field (ir_txIndirect d)] ++
      encode_Sec (ir_sec d)
  | OrphanRsp d =>
      [FBuf (or_orphanAddress d); F16 (or_shortAddress d); bool_field (or_associatedMember d)] ++
      encode_Sec (or_sec d)
  | PollReq d => encode_Addr (pr_coordAddress d) ++ [F16 (pr_coordPanId d)] ++ encode_Sec (pr_sec d)
  | ResetReq b => [bool_field b]
  | ScanReq d =>
      [F8 (sr_scanType d); F8 (sr_scanDuration d); F8 (sr_channelPage d); F8 (sr_phyID d);
       F8 (sr_maxResults d); bool_field (sr_permitJoining d); F8 (sr_linkQuality d);
       F8 (sr_percentFilter d); bool_field (sr_MPMScan d); F8 (sr_MPMScanType d);
       F16 (sr_MPMScanDuration d)] ++ encode_Sec (sr_sec d) ++ [FBuf (sr_scanChannels d)]
  | StartReq d =>
      let mpm := st_mpmParams d in
      [F32 (st_startTime d); F16 (st_panId d); F8 (st_logicalChannel d); F8 (st_channelPage d);
       F8 (st_phyID d); F8 (st_beaconOrder d); F8 (st_superframeOrder d);
       bool_field (st_panCoordinator d); bool_field (st_batteryLifeExt d);
       bool_field (st_coordRealignment d)] ++
      encode_Sec (st_realignSec d) ++ encode_Sec (st_beaconSec d) ++
      [bool_field (st_startFH d); F8 (mp_eBeaconOrder mpm); F8 (mp_offsetTimeSlot mpm);
       F16 (mp_NBPANEBeaconOrder mpm); F8 (mp_numIEs mpm)] ++
      opt_buf (mp_pIEIDs mpm) (mp_numIEs mpm)
  | SyncReq d =>
      [F8 (sy_logicalChannel d); F8 (sy_channelPage d); F8 (sy_trackBeacon d); F8 (sy_phyID d)]
  | UpdatePanId x => [F16 x]
  | SrcMatchEnable | StartFH | EnableFH | SecDeleteAllDevices => []
  | WSAsyncReq d =>
      [F8 (wr_operation d); F8 (wr_frameType d)] ++ encode_Sec (wr_sec d) ++ [FBuf (wr_channels d)]
  | SecAddDevice d =>
      [F16 (ad_panID d); F16 (ad_shortAddr d); FBuf (ad_extAddr d); F32 (ad_frameCounter d);
       bool_field (ad_exempt d); bool_field (ad_uniqueDevice d); bool_field (ad_duplicateDevFlag d);
       F8 (ad_keyIdLookupDataSize d); FBuf (ad_keyIdLookupData d)]
  | SecDeleteDevice a => [FBuf a]
  | SecDeleteKeyAndAssocDevices k => [F8 k]
  | SecAddKeyInitFrameCounter d =>
      [bool_field (ak_newKeyFlag d); F16 (ak_replaceKeyIndex d); FBuf (ak_key d);
       F32 (ak_frameCounter d); F8 (ak_lookupDataSize d); FBuf (ak_lookupData d)]
  | SetReqBool a v => plain_set a (bool_field v)
  | SetReqUint8 a v => plain_set a (F8 v)
  | SetReqUint16 a v => plain_set a (F16 v)
  | SetReqUint32 a v => plain_set a (F32 v)
  | SetFhReqUint8 a v => [F16 a; F8 v]
  | SetFhReqUint16 a v => [F16 a; F16 v]
  | SetFhReqUint32 a v => [F16 a; F32 v]
  end.

(** What an array of [n] bytes is. *)
Definition arr (n : Z) (b : list Z) : Prop := zlen b = n /\ is_bytes b.
Definition buf_ok (p : option (list Z)) (n : Z) : Prop :=
  n = 0 \/ exists d, p = Some d /\ is_bytes d /\ 0 < n <= zlen d.

(** The arrays of a request have the lengths of their types. *)
Definition req_arrays (r : mac_request) : Prop :=
  let sec s := arr 8 (keySource s) in
  let adr a := arr 8 (addr a) in
  match r with
  | DataReq d => adr (dr_dstAddr d) /\ sec (dr_sec d) /\
                 buf_ok (sd_p (dr_msdu d)) (sd_len (dr_msdu d)) /\
                 buf_ok (dr_pIEList d) (dr_payloadIELen d)
  | AssociateReq d => adr (ar_coordAddress d) /\ sec (ar_sec d)
  | AssociateRsp d => arr 8 (as_deviceAddress d) /\ sec (as_sec d)
  | DisassociateReq d => adr (ir_deviceAddress d) /\ sec (ir_sec d)
  | OrphanRsp d => arr 8 (or_orphanAddress d) /\ sec (or_sec d)
  | PollReq d => adr (pr_coordAddress d) /\ sec (pr_sec d)
  | ScanReq d => arr 17 (sr_scanChannels d) /\ sec (sr_sec d)
  | StartReq d => sec (st_realignSec d) /\ sec (st_beaconSec d) /\
                  buf_ok (mp_pIEIDs (st_mpmParams d)) (mp_numIEs (st_mpmParams d))
  | WSAsyncReq d => arr 17 (wr_channels d) /\ sec (wr_sec d)
  | SecAddDevice d => arr 8 (ad_extAddr d) /\ arr 9 (ad_keyIdLookupData d)
  | SecDeleteDevice a => arr 8 a
  | SecAddKeyInitFrameCounter d => arr 16 (ak_key d) /\ arr 9 (ak_lookupData d)
  | SetReqBool a _ | SetReqUint8 a _ | SetReqUint16 a _ | SetReqUint32 a _ => 0 <= a < 0x100
  | SetFhReqUint8 a _ | SetFhReqUint16 a _ | SetFhReqUint32 a _ => 0x100 < a
  | _ => True
  end.

(** A well-formed request: its scalars fit their widths too. *)
Definition req_ok (r : mac_request) : Prop := req_arrays r /\ Forall field_ok (req_fields r).

Definition field_size (f : field) : Z :=
  match f with F8 _ => 1 | F16 _ => 2 | F32 _ => 4 | F64 _ => 8 | FBuf d => zlen d end.

Lemma zlen_enc_cons f fs : zlen (fields_enc (f :: fs)) = field_size f + zlen (fields_enc fs).
Proof.
  change (fields_enc (f :: fs)) with (field_enc f ++ fields_enc fs). rewrite zlen_app. f_equal.
  by destruct f.
Qed.

Lemma zlen_enc_app f g : zlen (fields_enc (f ++ g)) = zlen (fields_enc f) + zlen (fields_enc g).
Proof. by rewrite fields_enc_app, zlen_app. Qed.

Lemma zlen_enc_Sec x : arr 8 (keySource x) -> zlen (fields_enc (encode_Sec x)) = 11.
Proof. intros [H _]. unfold encode_Sec. rewrite !zlen_enc_cons. cbn [field_size]. change (zlen (fields_enc [])) with 0. lia. Qed.

Lemma zlen_enc_F8s l : zlen (fields_enc (F8 <$> l)) = zlen l.
Proof.
  induction l as [|x l IH]; [done|]. rewrite fmap_cons, zlen_enc_cons, IH.
  unfold zlen. cbn [field_size length]. lia.
Qed.

Lemma zlen_enc_Addr a : arr 8 (addr a) -> zlen (fields_enc (encode_Addr a)) = 9.
Proof.
  intros [H _]. unfold encode_Addr. rewrite zlen_enc_cons. cbn [field_size].
  destruct (_ =? addrType_none); [done|]. destruct (_ =? addrType_short); [done|].
  destruct (_ =? addrType_extended); [|done]. rewrite zlen_enc_F8s. lia.
Qed.

Lemma zlen_opt_buf p n : buf_ok p n -> zlen (fields_enc (opt_buf p n)) = n.
Proof.
  unfold opt_buf. intros [-> | (d & -> & _ & Hn)]; [done|]. destruct (Z.eqb_spec n 0); [lia|].
  rewrite zlen_enc_cons. cbn [field_size]. change (zlen (fields_enc [])) with 0.
  unfold zlen in *. rewrite length_take. lia.
Qed.

Lemma wr_fields_app u v : wr_fields (u ++ v) = wr_fields u ++ wr_fields v.
Proof. apply flat_map_app. Qed.

Lemma wr_fields_map fs : wr_fields (map Wr fs) = fs.
Proof. induction fs as [|f fs IH]; [done|]. cbn. f_equal. exact IH. Qed.

Lemma wr_field_opt p n : wr_field (WrBuf p n) = opt_buf p n.
Proof. unfold opt_buf. destruct p; cbn; by destruct (n =? 0). Qed.

Lemma wr_field_arr n b : 0 < n -> arr n b -> wr_field (WrBuf (Some b) n) = [FBuf b].
Proof.
  intros Hn [<- _]. cbn. destruct (Z.eqb_spec (zlen b) 0); [lia|]. unfold zlen. by rewrite Nat2Z.id, firstn_all.
Qed.

Lemma wr_fields_Wr f ws : wr_fields (Wr f :: ws) = f :: wr_fields ws.
Proof. done. Qed.
Lemma wr_fields_arr n b ws :
  0 < n -> arr n b -> wr_fields (WrBuf (Some b) n :: ws) = FBuf b :: wr_fields ws.
Proof.
  intros. change (wr_fields (?w :: ws)) with (wr_field w ++ wr_fields ws). by rewrite wr_field_arr.
Qed.
Lemma wr_fields_opt p n ws : wr_fields (WrBuf p n :: ws) = opt_buf p n ++ wr_fields ws.
Proof. change (wr_fields (?w :: ws)) with (wr_field w ++ wr_fields ws). by rewrite wr_field_opt. Qed.

(** The buffers of a list of writes are there. *)
Definition bufs_ok (ws : list wr) : Prop :=
  Forall (fun w => match w with Wr _ => True | WrBuf p n => buf_ok p n end) ws.

Lemma bufs_ok_map fs : bufs_ok (map Wr fs).
Proof. induction fs; by constructor. Qed.

Lemma arr_buf n b : 0 < n -> arr n b -> buf_ok (Some b) n.
Proof. intros Hn [<- Hb]. right. exists b. split; [done|]. split; [done|lia]. Qed.

Lemma wr_ok_fields ws : bufs_ok ws -> Forall field_ok (wr_fields ws) -> Forall wr_ok ws.
Proof.
  induction 1 as [|w ws Hw Hws IH]; [done|].
  change (wr_fields (w :: ws)) with (wr_field w ++ wr_fields ws). intros [H1 H2]%Forall_app.
  constructor; [|by apply IH]. destruct w; [by apply Forall_cons_iff in H1 as [? _]|done].
Qed.

(** The writes of a function make exactly the fields of the layout, and the
    length it announces is theirs. *)
Record lays_out (len : Z) (ws : list wr) (fs : list field) : Prop := MkLay {
  ly_fields : wr_fields ws = fs;
  ly_bufs : bufs_ok ws;
  ly_len : len = zlen (fields_enc fs)
}.

Ltac lay_bufs :=
  repeat first [apply Forall_app; split | apply bufs_ok_map | apply Forall_cons; split | apply Forall_nil
               | exact I | by apply arr_buf | assumption].
Ltac lay_fields :=
  repeat first [rewrite wr_fields_app | rewrite wr_fields_map | rewrite wr_fields_Wr
               | rewrite wr_fields_arr by (done || lia) | rewrite wr_fields_opt
               | progress rewrite app_nil_r | progress rewrite <- app_assoc]; try reflexivity.
Ltac lay_len :=
  unfold bool_field;
  repeat first [rewrite zlen_enc_app | rewrite zlen_enc_cons | rewrite zlen_enc_Sec by done
               | rewrite zlen_enc_Addr by done | rewrite zlen_opt_buf by done];
  cbn [field_size]; change (zlen (fields_enc [])) with 0; unfold arr in *; lia.

Lemma set_plain fuel ackfuel c1 att w v :
  att < 0x100 ->
  API_MAC_Set_Common fuel ackfuel 0x22 c1 att w v =
  request fuel ackfuel 17 c1
    (Wr (F8 att) :: wr_value w v ++ replicate (Z.to_nat (17 - (1 + wire_count w))) (Wr (F8 0))).
Proof.
  intros H. unfold API_MAC_Set_Common. by rewrite (proj2 (Z.ltb_lt att 0x100)), (proj2 (Z.ltb_ge 0x100 att)) by lia.
Qed.

Lemma set_hopping fuel ackfuel c1 att w v :
  0x100 < att ->
  API_MAC_Set_Common fuel ackfuel 0x22 c1 att w v =
  request fuel ackfuel (2 + w) c1
    (Wr (F16 att) :: wr_value w v ++ replicate (Z.to_nat (2 + w - (2 + wire_count w))) (Wr (F8 0))).
Proof.
  intros H. unfold API_MAC_Set_Common. by rewrite (proj2 (Z.ltb_ge att 0x100)), (proj2 (Z.ltb_lt 0x100 att)) by lia.
Qed.

(** A set of a value of one of the widths. *)
Ltac lay_set L :=
  eexists _, _; split; [unfold run_request; apply L; lia|];
  match goal with H : Forall field_ok _ |- _ =>
    unfold req_fields, plain_set in H; apply Forall_cons_iff in H as [_ H];
    apply Forall_cons_iff in H as [H _]; cbn [field_ok bool_field] in H end;
  unfold wr_value; cbn [Z.eqb Pos.eqb app];
  unfold u8, u16, u32; rewrite ?Z.mod_small by lia;
  constructor; [reflexivity|cbn; repeat constructor|reflexivity].

Lemma run_request_shape fuel ackfuel r :
  req_ok r ->
  exists len ws, run_request fuel ackfuel r = request fuel ackfuel len (req_cmd1 r) ws /\
    lays_out len ws (req_fields r).
Proof.
  intros [Ha Hf]. destruct r; cbn [req_arrays] in Ha;
    try (eexists _, _; split; [reflexivity|]; cbn [req_fields];
         destruct_and?; constructor; [lay_fields|lay_bufs|lay_len]).
  1: destruct v.
  1-5: lay_set set_plain.
  all: lay_set set_hopping.
Qed.

(** ** What the functions do *)

(** The part of a request up to the exchange: message and result. *)
Definition send (fuel ackfuel : nat) (len c1 : Z) (ws : list wr) : IO (option positive * Z) :=
  o ← api_new_msg len 0x22 c1;
  match o with
  | None => mret (None, 0)
  | Some p => emit p ws;; r ← MT_MSG_txrx fuel ackfuel p; mret (Some p, r)
  end.

Lemma send_run fuel ackfuel s len c1 ws d cut :
  ready s -> is_byte c1 -> Forall wr_ok ws -> fields_enc (wr_fields ws) = d ++ cut ->
  len = zlen d \/ (len < 0 /\ cut = []) -> sendable (cfg s) (zlen d) (zlen (d ++ cut)) ->
  exists m, send fuel ackfuel len c1 ws s =
      Ret ((Some (next_ptr s), 1), put (next_ptr s) m (requested s c1 d)) /\
    pListNext m = None /\ pSrsp m = None.
Proof.
  intros Hr H1 Hok Hdc Hl Hs.
  destruct (exchange_run fuel ackfuel s len c1 ws d cut) as (m & m1 & m2 & Ea & Ee & Et & Hn & Hp); try done.
  exists m2. split; [|done]. unfold send. run_step Ea. run_step Ee. by run_step Et.
Qed.

Lemma srsp_null p m s : pSrsp m = None -> srsp_of p (put p m s) = Undef NullPointer.
Proof. intros H. unfold srsp_of. run_step (load_put p m s). by rewrite H. Qed.

Lemma read_status_null p m s : pSrsp m = None -> read_status p (put p m s) = Undef NullPointer.
Proof.
  intros H. unfold read_status. do 2 apply M_bind_Undef. by apply srsp_null.
Qed.

(** A request is the sending of its message and the reading of the status. *)
Lemma request_send fuel ackfuel len c1 ws s p r m s' :
  send fuel ackfuel len c1 ws s = Ret ((Some p, r), put p m s') -> pSrsp m = None ->
  request fuel ackfuel len c1 ws s = Undef NullPointer.
Proof.
  unfold send, request, API_MAC_TxRx_Status. intros (o & s1 & Ea & E)%M_bind_inv Hm.
  run_step Ea. destruct o as [q|]; [|by injection E].
  apply M_bind_inv in E as (u & s2 & Ee & E). run_step Ee.
  apply M_bind_inv in E as (v & s3 & Et & E). run_step Et.
  injection E as -> -> ->. by apply read_status_null.
Qed.

Lemma api_new_msg_none len c0 c1 s bs :
  mallocs (outside s) = false :: bs ->
  api_new_msg len c0 c1 s =
  Ret (None, set_world s (MkWorld bs (writes (outside s)) (locks (outside s)) (arrivals (outside s)))).
Proof.
  intros H. unfold api_new_msg, MT_MSG_alloc, malloc_ok, mbind, M_bind. by rewrite H.
Qed.

(** A request of [r] fits one frame of the interface. *)
Definition req_fits (i : mt_iface) (r : mac_request) : Prop :=
  let n := zlen (fields_enc (req_fields r)) in sendable i n n.

Lemma req_cmd1_byte r : is_byte (req_cmd1 r).
Proof. destruct r; by_eval. Qed.

Lemma send_request fuel ackfuel r s :
  ready s -> req_ok r -> req_fits (cfg s) r ->
  exists len ws m, run_request fuel ackfuel r = request fuel ackfuel len (req_cmd1 r) ws /\
    send fuel ackfuel len (req_cmd1 r) ws s =
      Ret ((Some (next_ptr s), 1),
           put (next_ptr s) m (requested s (req_cmd1 r) (fields_enc (req_fields r)))) /\
    pListNext m = None /\ pSrsp m = None.
Proof.
  intros Hr Hok Hf. destruct (run_request_shape fuel ackfuel r Hok) as (len & ws & E & [Lf Lb Ll]).
  destruct (send_run fuel ackfuel s len (req_cmd1 r) ws (fields_enc (req_fields r)) [])
    as (m & Es & Hm); try done.
  - apply req_cmd1_byte.
  - apply wr_ok_fields; [done|]. rewrite Lf. apply Hok.
  - by rewrite Lf, app_nil_r.
  - by left.
  - by rewrite app_nil_r.
  - by exists len, ws, m.
Qed.

(** No routine that looks for two messages finds them. *)
Lemma get_common_result fuel ackfuel c0 c1 att w d pv s r v s' :
  API_MAC_Get_Common fuel ackfuel c0 c1 att w d pv s = Ret ((r, v), s') ->
  (r = status_noResources \/ r = status_badState) /\ v = pv.
Proof.
  unfold API_MAC_Get_Common. intros (o & s1 & _ & E)%M_bind_inv.
  destruct o as [p|]; [|injection E as <- <- _; auto].
  apply M_bind_inv in E as (u & s2 & _ & E). apply M_bind_inv in E as (n & s3 & Et & E).
  assert ((n =? 2) = false) as Hn by by apply txrx_result in Et as [-> | ->].
  rewrite Hn in E. apply M_bind_inv in E as ([r1 v1] & s4 & [= <- <- _] & E).
  apply M_bind_inv in E as (u' & s5 & _ & [= <- <- _]). auto.
Qed.

Lemma get_array_result fuel ackfuel c0 c1 att pv s r v s' :
  API_MAC_SetGetArray_Common fuel ackfuel false c0 c1 att pv s = Ret ((r, v), s') ->
  (r = status_noResources \/ r = status_badState \/ r = status_unsupportedAttribute) /\ v = pv.
Proof.
  unfold API_MAC_SetGetArray_Common. destruct (_ =? 0); [intros [= <- <- _]; auto|].
  intros [[|] ->]%get_common_result; auto.
Qed.

Lemma set_security_result fuel ackfuel c0 c1 att w v s r s' :
  API_MAC_SetSecurity_Common fuel ackfuel c0 c1 att w v s = Ret (r, s') ->
  r = status_noResources \/ r = status_badState.
Proof.
  unfold API_MAC_SetSecurity_Common. intros (o & s1 & _ & E)%M_bind_inv.
  destruct o as [p|]; [|injection E as <- _; auto].
  apply M_bind_inv in E as (u & s2 & _ & E). apply M_bind_inv in E as (n & s3 & Et & E).
  assert ((n =? 2) = false) as Hn by by apply txrx_result in Et as [-> | ->].
  rewrite Hn in E. apply M_bind_inv in E as (r1 & s4 & [= <- _] & E).
  apply M_bind_inv in E as (u' & s5 & _ & [= <- _]). auto.
Qed.

Lemma source_key_result fuel ackfuel k c s r c' s' :
  ApiMac_secGetDefaultSourceKey fuel ackfuel k c s = Ret ((r, c'), s') ->
  (r = status_noResources \/ r = status_badState) /\ c' = c.
Proof.
  unfold ApiMac_secGetDefaultSourceKey. intros (o & s1 & _ & E)%M_bind_inv.
  destruct o as [p|]; [|injection E as <- <- _; auto].
  apply M_bind_inv in E as (u & s2 & _ & E). apply M_bind_inv in E as (n & s3 & Et & E).
  assert ((n =? 2) = false) as Hn by by apply txrx_result in Et as [-> | ->].
  rewrite Hn in E. apply M_bind_inv in E as ([r1 c1] & s4 & [= <- <- _] & E).
  apply M_bind_inv in E as (u' & s5 & _ & [= <- <- _]). auto.
Qed.

Definition not_two (p p' : secPibStruct) : Prop :=
  (sp_n_msgs p' =? 2) = false /\ sp_pValue p' = sp_pValue p.

Lemma sec_exchange_result fuel ackfuel p k s p' s' :
  sec_exchange fuel ackfuel p k s = Ret (p', s') -> not_two p p'.
Proof.
  unfold sec_exchange. intros (n & s1 & Et & E)%M_bind_inv.
  assert ((n =? 2) = false) as Hn by by apply txrx_result in Et as [-> | ->].
  rewrite Hn in E. injection E as <- _. done.
Qed.

Lemma sec_handler_result fuel ackfuel attr h p s p' s' :
  sec_pib_handler fuel ackfuel attr = Some h -> sp_n_msgs p = 0 -> h p s = Ret (p', s') -> not_two p p'.
Proof.
  unfold sec_pib_handler. intros Hh H0 E.
  repeat (destruct (attr =? _); [injection Hh as <-|]); [..|done].
  1: { unfold sec_pib_ApiMac_securityAttribute_keyTable in E. destruct (_ || _).
       - injection E as <- _. split; cbn; [by rewrite H0|done].
       - apply M_bind_inv in E as (u & s1 & _ & E). apply M_bind_inv in E as (n & s2 & Et & E).
         assert ((n =? 2) = false) as Hn by by apply txrx_result in Et as [-> | ->].
         rewrite Hn in E. injection E as <- _. done. }
  all: destruct (sp_pValue p) as [[]|]; try done;
       cbv beta in E; apply M_bind_inv in E as (u & s1 & _ & E); try by eapply sec_exchange_result.
  apply M_bind_inv in E as (u' & s2 & _ & E). by eapply sec_exchange_result.
Qed.

Lemma sec_struct_result fuel ackfuel is_set attr pv s r v s' :
  common_ApiMac_mlmeGetSetSecurityReqStruct fuel ackfuel is_set attr pv s = Ret ((r, v), s') ->
  (r = status_noResources \/ r = status_badState \/ r = status_unsupportedAttribute) /\ v = pv.
Proof.
  unfold common_ApiMac_mlmeGetSetSecurityReqStruct. intros (o & s1 & _ & E)%M_bind_inv.
  destruct o as [pMsg|]; [|injection E as <- <- _; auto].
  apply M_bind_inv in E as ([r1 v1] & s2 & Eh & E).
  apply M_bind_inv in E as (u & s3 & _ & [= <- <- _]).
  destruct (sec_pib_handler fuel ackfuel attr) as [h|] eqn:Hh; [|injection Eh as <- <- _; auto].
  apply M_bind_inv in Eh as (p' & s4 & Ep & E).
  eapply sec_handler_result in Ep as [Hn Hv]; [|done|done]. rewrite Hn in E.
  injection E as <- <- _. auto.
Qed.

(** The result and the state of a request, without the caller's memory. *)
Definition status_of (o : outcome (Z * option sec_entry * mif)) : outcome (Z * mif) :=
  '((r, _), s) ← o; Ret (r, s).

Lemma write_F8_wraps m v : write_field m (F8 (v + 256)) = write_field m (F8 v).
Proof.
  cbn [write_field]. unfold MT_MSG_wrU8_DBG, MT_MSG_wrUX_DBG. destruct (is_error m); [done|].
  destruct (init_wr_idx m) as [m'| |]; [|done..]. cbn [mbind outcome_bind].
  change (Z.to_nat (8 / 8)) with 1%nat. cbn [wr_loop]. destruct (negb _); [done|].
  assert (u8 (u32 (v + 256)) = u8 (u32 v)) as ->; [|done]. unfold u8, u32.
  rewrite !Z.mod_mod_divide by (exists (2 ^ 24); done).
  replace (v + 256) with (v + 1 * 2 ^ 8) by lia. by rewrite Z.mod_add.
Qed.

(** The same entry, 256 places further on. *)
Definition next_page (e : ApiMac_securityPibDeviceEntry) : ApiMac_securityPibDeviceEntry :=
  MkDeviceEntry (de_deviceIndex e + 256) (de_panID e) (de_shortAddress e) (de_extAddress e)
    (de_frameCntr e) (de_exempt e).

Lemma emit_wraps p a v ws s :
  emit p (Wr a :: Wr (F8 (v + 256)) :: ws) s = emit p (Wr a :: Wr (F8 v) :: ws) s.
Proof.
  unfold emit, on_msg, mbind, M_bind. destruct (load p s) as [[m s1]| |]; [|done..].
  cbn [mbind outcome_bind]. unfold lift. cbn [write_all write_one].
  destruct (write_field m a) as [m1| |]; [|done..]. cbn [mbind outcome_bind].
  by rewrite write_F8_wraps.
Qed.

(** Two runs of a handler that end alike, neither with a response. *)
Definition alike (o o' : outcome (secPibStruct * mif)) : Prop :=
  match o, o' with
  | Ret (q, s), Ret (q', s') => s = s' /\ (sp_n_msgs q =? 2) = false /\ (sp_n_msgs q' =? 2) = false
  | Undef u, Undef u' => u = u'
  | NoFuel, NoFuel => True
  | _, _ => False
  end.

Lemma alike_bind {A} (c c' : IO A) (f g : A -> IO secPibStruct) s :
  c s = c' s -> (forall a s1, alike (f a s1) (g a s1)) -> alike ((c ≫= f) s) ((c' ≫= g) s).
Proof.
  intros E Hk. unfold mbind, M_bind. rewrite <- E.
  destruct (c s) as [[a s1]| |]; cbn [mbind outcome_bind]; [apply Hk|done..].
Qed.

Lemma sec_exchange_alike fuel ackfuel p p' k k' s :
  sp_pMsg p = sp_pMsg p' -> alike (sec_exchange fuel ackfuel p k s) (sec_exchange fuel ackfuel p' k' s).
Proof.
  intros Hp. unfold sec_exchange, mbind, M_bind. rewrite Hp.
  destruct (MT_MSG_txrx fuel ackfuel (sp_pMsg p') s) as [[n s1]| |] eqn:E; [|done..].
  cbn [mbind outcome_bind].
  assert ((n =? 2) = false) as Hn by by apply txrx_result in E as [-> | ->]. by rewrite Hn.
Qed.

Lemma device_handler_alike fuel ackfuel e pMsg r s v v' :
  let p := MkSecPib pMsg r 0 false true securityAttribute_deviceEntry in
  alike (sec_pib_ApiMac_securityAttribute_deviceEntry fuel ackfuel (p v') (next_page e) s)
        (sec_pib_ApiMac_securityAttribute_deviceEntry fuel ackfuel (p v) e s).
Proof.
  intros p. unfold sec_pib_ApiMac_securityAttribute_deviceEntry. cbv zeta.
  cbn [sp_pMsg sp_attr sp_is_set p next_page de_deviceIndex de_panID de_shortAddress de_extAddress
       de_frameCntr de_exempt when_set app].
  apply alike_bind; [apply emit_wraps|intros _ s1].
  apply alike_bind; [done|intros _ s2]. by apply sec_exchange_alike.
Qed.

(** ** Properties *)

(** C16: Every request of the MAC API reaches the co-processor as it was asked
    for: for each of the 28 requests that expect a status, with parameters
    that fit their types, the function allocates one message, announces exactly
    the length of what it writes and puts exactly one frame on the wire; a
    receiver with the same framing gets from it a message with the command
    bytes of the request, whose typed reads give back the parameters in the
    order of the layout and whose parse is complete. *)
Theorem mac_request_roundtrip fuel ackfuel r s fuel' seq rest cur dead :
  ready s -> req_ok r -> req_fits (cfg s) r -> is_bytes rest -> MtRx.cur_ok (cfg s) cur ->
  (2 <= fuel')%nat ->
  exists len ws s' m m', run_request fuel ackfuel r = request fuel ackfuel len (req_cmd1 r) ws /\
    send fuel ackfuel len (req_cmd1 r) ws s = Ret ((Some (next_ptr s), 1), s') /\
    wire s' = wire s ++ [mt_frame (cfg s) 0x22 (req_cmd1 r) (fields_enc (req_fields r))] /\
    MtRx.mt_msg_rx fuel' (cfg s) seq cur
      (MtRx.MkScript (MtRx.pend
         (mt_frame (cfg s) 0x22 (req_cmd1 r) (fields_enc (req_fields r)) ++ rest) []) true) dead =
      Ret (Some m, None, MtRx.MkScript (MtRx.pend rest []) true, dead) /\
    cmd0 m = 0x22 /\ cmd1 m = req_cmd1 r /\
    read_fields m (req_fields r) = Ret (req_fields r, m') /\
    MT_MSG_parseComplete m' = Ret m' /\ is_error m' = false.
Proof.
  intros Hr Hok Hf Br Hc Hfu. pose proof Hf as [Hl _ Hsz _].
  destruct (send_request fuel ackfuel r s Hr Hok Hf) as (len & ws & m0 & E & Es & _).
  destruct (MtRx.rx_reads_back fuel' (cfg s) seq 0x22 (req_cmd1 r) (req_fields r) rest cur dead)
    as (m & m' & H); try done.
  - apply req_cmd1_byte.
  - apply Hok.
  - rewrite MtRx.base_start. unfold IOBUF_SIZE. destruct (include_chksum _); lia.
  - exists len, ws. eexists. exists m, m'. split; [done|]. split; [exact Es|]. split; [done|exact H].
Qed.

(** Every request that expects a status fails on a working interface: the
    request is sent, but the code goes on to read the status from the response,
    which [MT_MSG_txrx] never provides, and so follows a null pointer.  Only
    when the message cannot be allocated does the function return, with
    [ApiMac_status_noResources] and nothing sent. *)
Theorem mac_request_null_response fuel ackfuel r s :
  req_ok r ->
  (ready s -> req_fits (cfg s) r -> run_request fuel ackfuel r s = Undef NullPointer) /\
  (forall bs, mallocs (outside s) = false :: bs ->
     exists s', run_request fuel ackfuel r s = Ret (status_noResources, s') /\
       heap s' = heap s /\ wire s' = wire s).
Proof.
  intros Hok. split.
  - intros Hr Hf. destruct (send_request fuel ackfuel r s Hr Hok Hf) as (len & ws & m & -> & Es & _ & Hm).
    by eapply request_send.
  - intros bs Hb. destruct (run_request_shape fuel ackfuel r Hok) as (len & ws & -> & _).
    eexists. unfold request. run_step (api_new_msg_none len 0x22 (req_cmd1 r) s bs Hb).
    split; [done|]. split; done.
Qed.

(** No attribute can be read: whatever the state of the interface, the
    attribute and the caller's memory, a function that gets an attribute, a
    table entry or the frame counter of a key, and a function that sets a
    security attribute, never reports success and leaves the caller's memory
    as it was, because it waits for two messages and [MT_MSG_txrx] counts at
    most one. *)
Theorem mac_get_never_succeeds fuel ackfuel :
  Forall (fun get => forall att pv s r v s',
      get att pv s = Ret ((r, v), s') -> r <> status_success /\ v = pv)
    [ApiMac_mlmeGetReqBool fuel ackfuel; ApiMac_mlmeGetReqUint8 fuel ackfuel;
     ApiMac_mlmeGetReqUint16 fuel ackfuel; ApiMac_mlmeGetReqUint32 fuel ackfuel;
     ApiMac_mlmeGetReqArray fuel ackfuel; ApiMac_mlmeGetFhReqUint8 fuel ackfuel;
     ApiMac_mlmeGetFhReqUint16 fuel ackfuel; ApiMac_mlmeGetFhReqUint32 fuel ackfuel;
     ApiMac_mlmeGetFhReqArray fuel ackfuel; ApiMac_mlmeGetSecurityReqUint8 fuel ackfuel;
     ApiMac_mlmeGetSecurityReqUint16 fuel ackfuel; ApiMac_mlmeGetSecurityReqArray fuel ackfuel] /\
  Forall (fun acc => forall att pv s r v s',
      acc att pv s = Ret ((r, v), s') -> r <> status_success /\ v = pv)
    [ApiMac_mlmeGetSecurityReqStruct fuel ackfuel; ApiMac_mlmeSetSecurityReqStruct fuel ackfuel] /\
  Forall (fun set => forall att (v : Z) s r s', set att v s = Ret (r, s') -> r <> status_success)
    [ApiMac_mlmeSetSecurityReqUint8 fuel ackfuel; ApiMac_mlmeSetSecurityReqUint16 fuel ackfuel] /\
  (forall k c s r c' s',
     ApiMac_secGetDefaultSourceKey fuel ackfuel k c s = Ret ((r, c'), s') ->
     r <> status_success /\ c' = c).
Proof.
  split; [|split; [|split]].
  - repeat (constructor; [intros att pv s r v s' E|]); [..|constructor];
      unfold ApiMac_mlmeGetReqBool, ApiMac_mlmeGetReqUint8, ApiMac_mlmeGetReqUint16,
        ApiMac_mlmeGetReqUint32, ApiMac_mlmeGetReqArray, ApiMac_mlmeGetFhReqUint8,
        ApiMac_mlmeGetFhReqUint16, ApiMac_mlmeGetFhReqUint32, ApiMac_mlmeGetFhReqArray,
        ApiMac_mlmeGetSecurityReqUint8, ApiMac_mlmeGetSecurityReqUint16,
        ApiMac_mlmeGetSecurityReqArray in E;
      lazymatch type of E with
      | API_MAC_Get_Common _ _ _ _ _ _ _ _ _ = _ => apply get_common_result in E as [[-> | ->] ->]
      | _ => apply get_array_result in E as [[-> | [-> | ->]] ->]
      end; (split; [by_eval|done]).
  - repeat (constructor; [intros att pv s r v s' E|]); [..|constructor];
      unfold ApiMac_mlmeGetSecurityReqStruct, ApiMac_mlmeSetSecurityReqStruct in E;
      apply sec_struct_result in E as [[-> | [-> | ->]] ->]; (split; [by_eval|done]).
  - repeat (constructor; [intros att v s r s' E|]); [..|constructor];
      unfold ApiMac_mlmeSetSecurityReqUint8, ApiMac_mlmeSetSecurityReqUint16 in E;
      apply set_security_result in E as [-> | ->]; by_eval.
  - intros k c s r c' s' [[-> | ->] ->]%source_key_result; (split; [by_eval|done]).
Qed.

(** What a request for an attribute puts on the wire: on a working
    interface it is one frame whose payload is the attribute number alone, one
    byte or two, whether or not the attribute is one of the security tables,
    for which the code writes two index fields behind it: the announced length
    does not count them and they are cut off.  The result is
    [ApiMac_status_badState], the caller's memory is kept and the message is
    freed. *)
Theorem mac_get_index_not_sent fuel ackfuel c1 att w d pv s :
  ready s -> is_byte c1 -> 0 <= att < 65536 -> att <> 0x100 -> sendable (cfg s) 2 6 ->
  exists s', API_MAC_Get_Common fuel ackfuel 0x22 c1 att w d pv s = Ret ((status_badState, pv), s') /\
    wire s' = wire s ++
      [mt_frame (cfg s) 0x22 c1 (le_bytes (if 0x100 <? att then 2 else 1) att)] /\
    heap s' = heap s.
Proof.
  intros Hr H1 Ha Hne [Hl Hof Hsz _].
  set (l := if 0x100 <? att then 2 else 1).
  set (ws := Wr (if l =? 1 then F8 att else F16 att) ::
             if is_security_attribute att then [Wr (F16 0); Wr (F16 0)] else []).
  set (cut := if is_security_attribute att then [0; 0; 0; 0] else []).
  assert (zlen cut <= 4) by (unfold cut; destruct (is_security_attribute att); by_eval).
  assert (fields_enc (wr_fields ws) = le_bytes (if 0x100 <? att then 2 else 1) att ++ cut /\
          Forall wr_ok ws /\ l = zlen (le_bytes (if 0x100 <? att then 2 else 1) att)) as (Ef & Hok & El).
  { unfold ws, l, cut. destruct (Z.ltb_spec 0x100 att); cbn [Z.eqb Pos.eqb];
      (split; [by destruct (is_security_attribute att)|]; split; [|done]);
      (constructor; [cbn; lia|]); destruct (is_security_attribute att); repeat constructor; cbn; lia. }
  assert (0 < l <= 2) by (unfold l; destruct (0x100 <? att); lia).
  destruct (exchange_run fuel ackfuel s l c1 ws _ cut Hr H1 Hok Ef (or_introl El))
    as (m & m1 & m2 & Ea & Ee & Et & Hn & Hp).
  { rewrite zlen_app, <- El. pose proof (zlen_nonneg cut). constructor; try lia.
    - unfold len_ok in *. destruct (len_2bytes _); lia.
    - eapply one_frame_mono; [done|lia]. }
  eexists. split; [|split].
  - unfold API_MAC_Get_Common. fold l. run_step Ea. fold ws. run_step Ee. run_step Et.
    cbn [Z.eqb Pos.eqb negb]. unfold mret at 1, M_ret.
    run_step (eq_refl (@Ret (Z * list Z * mif) ((status_badState, pv),
      put (next_ptr s) m2 (requested s c1 (le_bytes (if 0x100 <? att then 2 else 1) att))))).
    erewrite M_bind_Ret; [reflexivity|]. apply free_put; try done. apply Hr. cbn. lia.
  - done.
  - done.
Qed.

(** The index of a device table entry, sixteen bits wide in the structure,
    is written as one byte: on any interface in any state, setting entry [i]
    and setting entry [i + 256] send the same bytes and have the same result. *)
Theorem mac_device_index_truncated fuel ackfuel e s :
  status_of (ApiMac_mlmeSetSecurityReqStruct fuel ackfuel securityAttribute_deviceEntry
               (Some (DeviceEntry (next_page e))) s) =
  status_of (ApiMac_mlmeSetSecurityReqStruct fuel ackfuel securityAttribute_deviceEntry
               (Some (DeviceEntry e)) s).
Proof.
  unfold ApiMac_mlmeSetSecurityReqStruct, common_ApiMac_mlmeGetSetSecurityReqStruct.
  cbn [sec_pib_handler Z.eqb Pos.eqb securityAttribute_deviceEntry securityAttribute_keyTable
       securityAttribute_keyIdLookupEntry securityAttribute_keyDeviceEntry
       securityAttribute_keyUsageEntry securityAttribute_keyEntry].
  unfold mbind, M_bind. destruct (api_new_msg _ _ _ s) as [[[p|] s1]| |]; [|done..].
  cbn [mbind outcome_bind sp_pValue].
  pose proof (device_handler_alike fuel ackfuel e p status_invalidParameter s1
    (Some (DeviceEntry e)) (Some (DeviceEntry (next_page e)))) as Ha. cbv zeta in Ha.
  change 0xD4 with securityAttribute_deviceEntry.
  destruct (sec_pib_ApiMac_securityAttribute_deviceEntry _ _ _ (next_page e) s1) as [[q' s2']| |],
    (sec_pib_ApiMac_securityAttribute_deviceEntry _ _ _ e s1) as [[q s2]| |]; try done.
  - destruct Ha as (-> & Hn' & Hn). cbn [mbind outcome_bind]. rewrite Hn, Hn'. cbn [negb].
    unfold mret, M_ret. cbn [mbind outcome_bind].
    by destruct (MT_MSG_free (Some p) s2) as [[[] s3]| |].
  - cbn in Ha |- *. congruence.
Qed.

(** ** Instances *)

Definition demo_req_addr : ApiMac_sAddr := MkAddr addrType_extended [1; 2; 3; 4; 5; 6; 7; 8].
Definition demo_req_sec : ApiMac_sec := MkSec [8; 7; 6; 5; 4; 3; 2; 1] 5 3 1.
Definition demo_data_req : mac_request :=
  DataReq (MkDataReq demo_req_addr 0xface 3 9 (MkTxOptions true false true false false false false true)
             7 20 (Some [0xaa; 0xbb]) 2 0 0x102 (MkData (Some [10; 11; 12; 13]) 3) demo_req_sec 0 0).

(** A ground list of fields. *)
Ltac ground_fields :=
  match goal with |- Forall field_ok ?l =>
    let l' := eval vm_compute in l in change (Forall field_ok l') end;
  repeat match goal with
  | |- Forall _ [] => apply Forall_nil_2
  | |- Forall _ (_ :: _) => apply Forall_cons_2
  | |- field_ok (FBuf _) => split; [by_bytes|discriminate]
  | |- field_ok _ => cbn; lia
  end.

Lemma demo_data_req_ok : req_ok demo_data_req.
Proof.
  split; [|ground_fields].
  assert (arr 8 [1; 2; 3; 4; 5; 6; 7; 8] /\ arr 8 [8; 7; 6; 5; 4; 3; 2; 1]) as [H1 H2]
    by (split; (split; [reflexivity|by_bytes])).
  split; [exact H1|]. split; [exact H2|].
  split; right; eexists; (split; [reflexivity|]); (split; [by_bytes|by_eval]).
Qed.

Lemma demo_data_req_fits : req_fits (cfg (mif_init uart_iface demo_world)) demo_data_req.
Proof. constructor; [by_eval|by left|by_eval|by_eval]. Qed.

Lemma mac_request_roundtrip_witness :
  exists len ws s' m m', run_request 1 1 demo_data_req = request 1 1 len 5 ws /\
    send 1 1 len 5 ws (mif_init uart_iface demo_world) = Ret ((Some 1%positive, 1), s') /\
    wire s' = [mt_frame uart_iface 0x22 5 (fields_enc (req_fields demo_data_req))] /\
    MtRx.mt_msg_rx 2 uart_iface 1 None
      (MtRx.MkScript (MtRx.pend
         (mt_frame uart_iface 0x22 5 (fields_enc (req_fields demo_data_req)) ++ [0xfe]) []) true) false =
      Ret (Some m, None, MtRx.MkScript (MtRx.pend [0xfe] []) true, false) /\
    cmd0 m = 0x22 /\ cmd1 m = 5 /\
    read_fields m (req_fields demo_data_req) = Ret (req_fields demo_data_req, m') /\
    MT_MSG_parseComplete m' = Ret m' /\ is_error m' = false.
Proof.
  apply (mac_request_roundtrip 1 1 demo_data_req (mif_init uart_iface demo_world) 2 1 [0xfe] None false).
  - exact demo_iface_ready.
  - exact demo_data_req_ok.
  - exact demo_data_req_fits.
  - by_bytes.
  - exact I.
  - lia.
Defined.

Lemma mac_request_null_response_witness :
  run_request 1 1 demo_data_req (mif_init uart_iface demo_world) = Undef NullPointer.
Proof.
  apply (mac_request_null_response 1 1 demo_data_req (mif_init uart_iface demo_world) demo_data_req_ok).
  - exact demo_iface_ready.
  - exact demo_data_req_fits.
Defined.

(** The key table size, a security attribute. *)
Lemma mac_get_index_not_sent_witness :
  exists s', API_MAC_Get_Common 1 1 0x22 0x30 securityAttribute_keyTableEntries 2 2 [0; 0]
      (mif_init uart_iface demo_world) = Ret ((status_badState, [0; 0]), s') /\
    wire s' = [mt_frame uart_iface 0x22 0x30 [0x81]] /\ heap s' = heap (mif_init uart_iface demo_world).
Proof.
  apply (mac_get_index_not_sent 1 1 0x30 securityAttribute_keyTableEntries 2 2 [0; 0]
           (mif_init uart_iface demo_world)).
  - exact demo_iface_ready.
  - by_eval.
  - by_eval.
  - by_eval.
  - constructor; [by_eval|by left|by_eval|by_eval].
Defined.

End ApiMacReq.
