(* ===== verification/ApiMacIe.v ===== *)
(** * Payload information elements (mt_interface/api/src/api_mac.c)

    [parsePayloadIEs] walks over a buffer of information elements and builds a
    linked list of records that point into it; [ApiMac_freeIEList] frees such a
    list.  Records are keys of a heap, so a record that is used after it was
    freed is an outcome; the buffer is a list of bytes, and a read past its end
    is one too.  A script says which allocations are granted. *)

From Stdlib Require Import ZArith Lia.
From stdpp Require Import base list option numbers gmap fin_maps.
From S2P Require Import Prelude MtMsg ApiMacTypes.

Open Scope Z_scope.

Module ApiMacIe.
Import ApiMacTypes.

Record ApiMac_payloadIeItem : Type := MkItem {
  ieTypeLong : bool;
  ieId : Z;
  ieContentLen : Z;
  pIEContent : Z       (* an offset in the buffer *)
}.
Record ApiMac_payloadIeRec : Type := MkRec {
  pNext : option positive;
  item : ApiMac_payloadIeItem
}.

(** The records that were allocated and not freed, the next key, the script. *)
Record recs : Type := MkRecs {
  live_recs : gmap positive ApiMac_payloadIeRec;
  next_rec : positive;
  rec_mallocs : list bool
}.

Abbreviation IE := (M recs).

Definition set_recs (s : recs) (h : gmap positive ApiMac_payloadIeRec) : recs :=
  MkRecs h (next_rec s) (rec_mallocs s).

Definition zero_rec : ApiMac_payloadIeRec := MkRec None (MkItem false 0 0 0).

(** [malloc] and [memset] of a record. *)
Definition malloc_rec : IE (option positive) := fun s =>
  let p := next_rec s in
  let grant bs := Ret (Some p, MkRecs (<[p := zero_rec]> (live_recs s)) (Pos.succ p) bs) in
  match rec_mallocs s with
  | true :: bs => grant bs
  | false :: bs => Ret (None, MkRecs (live_recs s) p bs)
  | [] => grant []
  end.

Definition load_rec (p : positive) : IE ApiMac_payloadIeRec := fun s =>
  match live_recs s !! p with Some r => Ret (r, s) | None => Undef Dangling end.
Definition on_rec (p : positive) (f : ApiMac_payloadIeRec -> ApiMac_payloadIeRec) : IE unit :=
  r ← load_rec p; modify (fun s => set_recs s (<[p := f r]> (live_recs s))).
Definition free_rec (p : positive) : IE unit :=
  load_rec p;; modify (fun s => set_recs s (delete p (live_recs s))).

(** ** Headers *)

Definition PAYLOAD_IE_HEADER_LEN : Z := 2.
Definition payloadIEGroup_term : Z := 0x0F.

Definition MAKE_UINT16 (low high : Z) : Z :=
  Z.lor (Z.land low 0x00FF) (Z.shiftl (Z.land high 0x00FF) 8).
Definition IE_UNPACKING (var size position : Z) : Z :=
  Z.land (Z.shiftr (u16 var) position) (Z.shiftl 1 size - 1).

Definition GET_SUBIE_TYPE (hdr : Z) : bool := to_bool (IE_UNPACKING hdr 1 15).
Definition GET_SUBIE_ID_LONG (hdr : Z) : Z := u8 (IE_UNPACKING hdr 4 11).
Definition GET_SUBIE_LEN_LONG (hdr : Z) : Z := u16 (IE_UNPACKING hdr 11 0).
Definition GET_SUBIE_ID_SHORT (hdr : Z) : Z := u8 (IE_UNPACKING hdr 7 8).
Definition GET_SUBIE_LEN_SHORT (hdr : Z) : Z := u16 (IE_UNPACKING hdr 8 0).

(** ** The parser *)

(** The loop that frees a list. *)
Fixpoint free_list (fuel : nat) (p : option positive) : IE unit :=
  match p with
  | None => mret tt
  | Some q =>
      match fuel with
      | O => out_of_fuel
      | S fuel => r ← load_rec q; free_rec q;; free_list fuel (pNext r)
      end
  end.

(** A list has no more records than there are. *)
Definition free_all (p : option positive) : IE unit := fun s =>
  free_list (size (live_recs s)) p s.

Definition ApiMac_freeIEList (p : option positive) : IE unit := free_all p.

Section Parse.
(** The memory [pContent] points into, and the arguments. *)
Variables (mem : list Z) (contentLen : Z) (group : bool).

Definition rd_at (o : Z) : outcome Z :=
  if (0 <=? o) && (o <? zlen mem)
  then match mem !! Z.to_nat o with Some b => Ret b | None => Undef OutOfBounds end
  else Undef OutOfBounds.

(** The loop: [pos] is [pContent], [pIe] the last record, [pl] is [*pList]. *)
Fixpoint ie_loop (fuel : nat) (pos lenContent : Z) (pIe pl : option positive)
  : IE (Z * option positive) :=
  if negb (lenContent <? contentLen) then mret (status_success, pl)
  else
    match fuel with
    | O => out_of_fuel
    | S fuel =>
        lo ← lift (rd_at pos);
        hi ← lift (rd_at (pos + 1));
        let hdr := MAKE_UINT16 lo hi in
        let pos := pos + PAYLOAD_IE_HEADER_LEN in
        let typeLong := GET_SUBIE_TYPE hdr in
        let id := if typeLong then GET_SUBIE_ID_LONG hdr else GET_SUBIE_ID_SHORT hdr in
        if group && negb typeLong then mret (status_unsupported, pl)
        else if group && (payloadIEGroup_term =? id) then mret (status_success, pl)
        else
          o ← malloc_rec;
          match o with
          | None => mret (status_noResources, pl)
          | Some p =>
              pl ← (match pl with
                    | None => mret (Some p)
                    | Some _ =>
                        q ← lift (deref pIe);
                        on_rec q (fun r => MkRec (Some p) (item r));;
                        mret pl
                    end);
              let len := if typeLong then GET_SUBIE_LEN_LONG hdr else GET_SUBIE_LEN_SHORT hdr in
              on_rec p (fun r => MkRec (pNext r) (MkItem typeLong id len pos));;
              ie_loop fuel (pos + len) (u16 (lenContent + (PAYLOAD_IE_HEADER_LEN + len))) (Some p) pl
          end
    end.

(** [pContent] is null or an offset; [pl] is what the caller's pointer holds.
    The position grows by two or more in every round: half the memory is
    enough fuel. *)
Definition parsePayloadIEs (pContent : option Z) (pl : option positive) : IE (Z * option positive) :=
  match pContent with
  | None => mret (status_noData, pl)
  | Some pos =>
      if contentLen =? 0 then mret (status_noData, pl)
      else
        '(status, pl) ← ie_loop (S (length mem)) pos 0 None None;
        if negb (status =? status_success) && bool_decide (is_Some pl)
        then free_all pl;; mret (status, None)
        else mret (status, pl)
  end.
End Parse.

Definition ApiMac_parsePayloadGroupIEs (mem : list Z) (pPayload : option Z) (payloadLen : Z)
    (pl : option positive) : IE (Z * option positive) :=
  parsePayloadIEs mem payloadLen true pPayload pl.
Definition ApiMac_parsePayloadSubIEs (mem : list Z) (pContent : option Z) (contentLen : Z)
    (pl : option positive) : IE (Z * option positive) :=
  parsePayloadIEs mem contentLen false pContent pl.

(** ** The format *)

(** An information element. *)
Record ie : Type := MkIe { i_long : bool; i_id : Z; i_content : list Z }.

Definition ie_header (x : ie) : Z :=
  if i_long x then 2 ^ 15 + i_id x * 2 ^ 11 + zlen (i_content x)
  else i_id x * 2 ^ 8 + zlen (i_content x).
Definition ie_enc (x : ie) : list Z :=
  [ie_header x mod 256; ie_header x / 256] ++ i_content x.
Definition ies_enc (l : list ie) : list Z := flat_map ie_enc l.

(** Identifier and length fit their fields. *)
Definition ie_ok (x : ie) : Prop :=
  if i_long x then 0 <= i_id x < 16 /\ zlen (i_content x) < 2048
  else 0 <= i_id x < 128 /\ zlen (i_content x) < 256.

(** The elements a group may hold before its end. *)
Definition in_group (x : ie) : Prop := i_long x = true /\ i_id x <> payloadIEGroup_term.

Lemma unpack_div v size position :
  0 <= v < 2 ^ 16 -> 0 <= size -> 0 <= position ->
  IE_UNPACKING v size position = (v / 2 ^ position) mod 2 ^ size.
Proof.
  intros Hv Hs Hp. unfold IE_UNPACKING, u16. rewrite Z.mod_small by lia.
  rewrite Z.shiftr_div_pow2, Z.shiftl_1_l by done.
  replace (2 ^ size - 1) with (Z.ones size) by (rewrite Z.ones_equiv; lia). by apply Z.land_ones.
Qed.

Lemma make_uint16 lo hi : is_byte lo -> is_byte hi -> MAKE_UINT16 lo hi = lo + hi * 256.
Proof.
  intros Hl Hh. unfold MAKE_UINT16. change 0x00FF with (Z.ones 8).
  rewrite !Z.land_ones, !Z.mod_small by (unfold is_byte in *; lia).
  rewrite lor_shiftl by (unfold is_byte in *; lia). change (2 ^ 8) with 256. lia.
Qed.

Lemma ie_header_bounds x : ie_ok x -> 0 <= ie_header x < 2 ^ 16.
Proof.
  unfold ie_ok, ie_header. pose proof (zlen_nonneg (i_content x)). destruct (i_long x); lia.
Qed.

(** Linear arithmetic with quotients and remainders. *)
Ltac by_division := Z.to_euclidean_division_equations; lia.

(** What the parser reads from the two header bytes. *)
Lemma header_fields x :
  ie_ok x ->
  let h := MAKE_UINT16 (ie_header x mod 256) (ie_header x / 256) in
  GET_SUBIE_TYPE h = i_long x /\
  (if i_long x then GET_SUBIE_ID_LONG h else GET_SUBIE_ID_SHORT h) = i_id x /\
  (if i_long x then GET_SUBIE_LEN_LONG h else GET_SUBIE_LEN_SHORT h) = zlen (i_content x).
Proof.
  intros Hok. pose proof (ie_header_bounds x Hok) as Hb. cbv zeta.
  assert (MAKE_UINT16 (ie_header x mod 256) (ie_header x / 256) = ie_header x) as ->.
  { change (2 ^ 16) with 65536 in Hb. rewrite make_uint16; unfold is_byte; by_division. }
  unfold GET_SUBIE_TYPE, GET_SUBIE_ID_LONG, GET_SUBIE_ID_SHORT, GET_SUBIE_LEN_LONG,
    GET_SUBIE_LEN_SHORT, u8, u16, to_bool.
  rewrite !unpack_div by lia. unfold ie_ok, ie_header in *. pose proof (zlen_nonneg (i_content x)).
  change (2 ^ 15) with 32768 in *. change (2 ^ 11) with 2048 in *. change (2 ^ 8) with 256 in *.
  change (2 ^ 1) with 2. change (2 ^ 4) with 16. change (2 ^ 7) with 128. change (2 ^ 0) with 1.
  change (2 ^ 16) with 65536 in *.
  destruct (i_long x); (split; [|split]).
  - apply negb_true_iff, Z.eqb_neq. by_division.
  - by_division.
  - by_division.
  - apply negb_false_iff, Z.eqb_eq. by_division.
  - by_division.
  - by_division.
Qed.

(** ** Lists of records *)

Abbreviation rec_heap := (gmap positive ApiMac_payloadIeRec).

(** Following [pNext] from [o] visits the records [ps], which hold [its]. *)
Fixpoint rchain (h : rec_heap) (o : option positive) (ps : list positive)
    (its : list ApiMac_payloadIeItem) : Prop :=
  match ps, its with
  | [], [] => o = None
  | p :: ps, it :: its => o = Some p /\ exists n, h !! p = Some (MkRec n it) /\ rchain h n ps its
  | _, _ => False
  end.

Lemma rchain_other h o ps its p r :
  rchain h o ps its -> p ∉ ps -> rchain (<[p := r]> h) o ps its.
Proof.
  revert o its. induction ps as [|q ps IH]; intros o [|it its] Hc Hp; try done.
  apply not_elem_of_cons in Hp as [Hne Hp]. destruct Hc as (-> & n & Hq & Hc).
  split; [done|]. exists n. rewrite lookup_insert_ne by done. auto.
Qed.

Lemma rchain_live h o ps its p : rchain h o ps its -> p ∈ ps -> is_Some (h !! p).
Proof.
  revert o its. induction ps as [|q ps IH]; intros o [|it its] Hc Hp; try done.
  { by apply elem_of_nil in Hp. }
  destruct Hc as (_ & n & Hq & Hc). apply elem_of_cons in Hp as [->|Hp]; [by exists (MkRec n it)|eauto].
Qed.

(** The last record of a list that is not empty. *)
Lemma rchain_last h o ps its q :
  rchain h o ps its -> last ps = Some q -> exists it, h !! q = Some (MkRec None it).
Proof.
  revert o its. induction ps as [|p ps IH]; intros o [|it its] Hc Hl; try done.
  destruct Hc as (-> & n & Hp & Hc). destruct ps as [|p' ps].
  - injection Hl as ->. destruct its; [|done]. cbn in Hc. subst n. by exists it.
  - rewrite last_cons_cons in Hl. by eapply IH.
Qed.

(** Linking a new record behind the last one. *)
Lemma rchain_snoc h o ps its q p it :
  rchain h o ps its -> NoDup ps -> last ps = Some q -> p ∉ ps -> h !! p = Some (MkRec None it) ->
  exists it', h !! q = Some (MkRec None it') /\
    rchain (<[q := MkRec (Some p) it']> h) o (ps ++ [p]) (its ++ [it]).
Proof.
  revert o its. induction ps as [|p0 ps IH]; intros o [|it0 its] Hc Hn Hl Hp Hh; try done.
  destruct Hc as (-> & n & Hp0 & Hc). apply NoDup_cons in Hn as [Hni Hn].
  apply not_elem_of_cons in Hp as [Hne Hp]. destruct ps as [|p1 ps].
  - injection Hl as <-. destruct its; [|done]. cbn in Hc. subst n. exists it0. split; [done|].
    split; [done|]. exists (Some p). rewrite lookup_insert_eq. split; [done|].
    split; [done|]. exists None. by rewrite lookup_insert_ne.
  - rewrite last_cons_cons in Hl. destruct (IH n its) as (it' & Hq & Hc'); try done.
    exists it'. split; [done|]. split; [done|]. exists n. rewrite lookup_insert_ne.
    + done.
    + intros ->. apply Hni. apply last_Some in Hl as [l ->]. apply elem_of_app. right. by left.
Qed.

(** What the loop has built: a list of [its] with [pIe] its last record, in
    memory that was free before; the rest is as in [base]. *)
Record built (base : rec_heap) (s : recs) (pl pIe : option positive)
    (its : list ApiMac_payloadIeItem) (ps : list positive) : Prop := MkBuilt {
  bt_chain : rchain (live_recs s) pl ps its;
  bt_nodup : NoDup ps;
  bt_last : pIe = last ps;
  bt_rest : forall k, k ∉ ps -> live_recs s !! k = base !! k;
  bt_new : forall k, k ∈ ps -> base !! k = None;
  bt_fresh : forall k, (next_rec s <= k)%positive -> live_recs s !! k = None
}.

Lemma built_fresh base s pl pIe its ps k :
  built base s pl pIe its ps -> (next_rec s <= k)%positive -> (k ∉ ps) /\ base !! k = None.
Proof.
  intros [Hc Hn _ Hr _ Hf] Hk. assert (Hp : k ∉ ps).
  { intros Hin. destruct (rchain_live _ _ _ _ _ Hc Hin) as [r Hr']. by rewrite Hf in Hr'. }
  split; [done|]. rewrite <- Hr by done. by apply Hf.
Qed.

(** The next allocation is granted. *)
Definition granted (bs : list bool) : Prop := match bs with false :: _ => False | _ => True end.

Lemma malloc_granted s :
  granted (rec_mallocs s) ->
  malloc_rec s = Ret (Some (next_rec s),
    MkRecs (<[next_rec s := zero_rec]> (live_recs s)) (Pos.succ (next_rec s)) (tail (rec_mallocs s))).
Proof. unfold malloc_rec. by destruct (rec_mallocs s) as [|[|] bs]. Qed.

Lemma on_rec_run p f s r :
  live_recs s !! p = Some r -> on_rec p f s = Ret (tt, set_recs s (<[p := f r]> (live_recs s))).
Proof. intros H. unfold on_rec, load_rec, mbind, M_bind. by rewrite H. Qed.

(** The head of the list after [p] was appended. *)
Definition head_after (pl : option positive) (p : positive) : option positive :=
  match pl with Some _ => pl | None => Some p end.

(** Memory that differs from a list by one record more at its end. *)
Lemma built_extend base s pl pIe its ps it h bs :
  built base s pl pIe its ps ->
  let p := next_rec s in
  (forall k, k ∉ ps ++ [p] -> h !! k = live_recs s !! k) ->
  rchain h (head_after pl p) (ps ++ [p]) (its ++ [it]) ->
  built base (MkRecs h (Pos.succ p) bs) (head_after pl p) (Some p) (its ++ [it]) (ps ++ [p]).
Proof.
  intros Hb p Ho Hc. destruct (built_fresh _ _ _ _ _ _ p Hb) as [Hp Hbp]; [lia|].
  pose proof Hb as [_ Hn _ Hr Hw Hf]. constructor; cbn; [done| | | | |].
  - apply NoDup_app. split; [done|]. split; [|apply NoDup_singleton].
    by intros k Hk ->%list_elem_of_singleton.
  - by rewrite last_snoc.
  - intros k Hk. rewrite Ho by done. apply Hr. intros Hin. apply Hk, elem_of_app. by left.
  - intros k [Hk | ->%list_elem_of_singleton]%elem_of_app; auto.
  - intros k Hk. assert (p < k)%positive by lia. rewrite Ho; [apply Hf; lia|].
    intros [Hin | ->%list_elem_of_singleton]%elem_of_app; [|lia].
    destruct (built_fresh _ _ _ _ _ _ k Hb) as [? _]; [lia|done].
Qed.

(** One more record: link, fill. *)
Lemma built_append base s pl pIe its ps it :
  built base s pl pIe its ps ->
  let p := next_rec s in
  let s1 := MkRecs (<[p := zero_rec]> (live_recs s)) (Pos.succ p) (tail (rec_mallocs s)) in
  exists s2 s3,
    (match pl with
     | None => mret (Some p)
     | Some _ => q ← lift (deref pIe); on_rec q (fun r => MkRec (Some p) (item r));; mret pl
     end) s1 = Ret (head_after pl p, s2) /\
    on_rec p (fun r => MkRec (pNext r) it) s2 = Ret (tt, s3) /\
    built base s3 (head_after pl p) (Some p) (its ++ [it]) (ps ++ [p]) /\
    rec_mallocs s3 = tail (rec_mallocs s).
Proof.
  intros Hb p s1. destruct (built_fresh _ _ _ _ _ _ p Hb) as [Hp Hbp]; [lia|].
  pose proof Hb as [Hc Hn Hl Hr Hw Hf]. destruct pl as [h0|].
  - assert (exists q, last ps = Some q) as [q Hq].
    { destruct ps as [|x ps]; [by destruct its|]. destruct (last (x :: ps)) eqn:E; [by eexists|].
      by apply last_None in E. }
    destruct (rchain_snoc (<[p := MkRec None it]> (live_recs s)) (Some h0) ps its q p it)
      as (it' & Hq' & Hc'); try done.
    { by apply rchain_other. } { apply lookup_insert_eq. }
    assert (Hqp : q <> p) by (intros ->; apply Hp; apply last_Some in Hq as [l ->]; set_solver).
    rewrite lookup_insert_ne in Hq' by done.
    eexists _, _. split; [|split; [|split]].
    + rewrite Hl, Hq. unfold mbind, M_bind. cbn [lift deref mbind outcome_bind].
      erewrite on_rec_run by (cbn; rewrite lookup_insert_ne by done; exact Hq'). reflexivity.
    + apply on_rec_run. cbn. rewrite lookup_insert_ne by done. apply lookup_insert_eq.
    + refine (built_extend base s (Some h0) pIe its ps it _ (tail (rec_mallocs s)) Hb _ _).
      * intros k [Hk1 Hk2]%not_elem_of_app. assert (p <> k) by (intros E; apply Hk2; rewrite <- E; by left).
        assert (q <> k) by (intros ->; apply Hk1; apply last_Some in Hq as [l ->]; set_solver).
        cbn. by rewrite !lookup_insert_ne by done.
      * cbn. rewrite insert_insert_ne, insert_insert_eq by done. exact Hc'.
    + done.
  - assert (ps = [] /\ its = []) as [-> ->] by (destruct ps, its; try done; by destruct Hc).
    eexists _, _. split; [reflexivity|]. split; [|split].
    + apply on_rec_run. cbn. apply lookup_insert_eq.
    + refine (built_extend base s None pIe [] [] it _ (tail (rec_mallocs s)) Hb _ _).
      * intros k Hk. assert (p <> k) by (intros E; apply Hk; rewrite <- E; by left).
        cbn. by rewrite !lookup_insert_ne by done.
      * split; [done|]. exists None. cbn. by rewrite lookup_insert_eq.
    + done.
Qed.

(** ** The loop *)

(** The item for the element [x] whose header is at [pos]. *)
Definition item_at (pos : Z) (x : ie) : ApiMac_payloadIeItem :=
  MkItem (i_long x) (i_id x) (zlen (i_content x)) (pos + 2).

Fixpoint items_from (pos : Z) (l : list ie) : list ApiMac_payloadIeItem :=
  match l with [] => [] | x :: l => item_at pos x :: items_from (pos + zlen (ie_enc x)) l end.

Lemma zlen_ie x : zlen (ie_enc x) = 2 + zlen (i_content x).
Proof. unfold ie_enc. by rewrite zlen_app. Qed.

Lemma zlen_ies x l : zlen (ies_enc (x :: l)) = zlen (ie_enc x) + zlen (ies_enc l).
Proof. unfold ies_enc. cbn [flat_map]. by rewrite zlen_app. Qed.

Lemma rd_at_slice mem o d b rest :
  0 <= o -> slice (Z.to_nat o) (length d) mem = d -> d = b :: rest -> rd_at mem o = Ret b.
Proof.
  intros Ho Hs ->. cbn [length] in Hs.
  assert (mem !! Z.to_nat o = Some b) as Hl.
  { unfold slice in Hs. rewrite <- (Nat.add_0_r (Z.to_nat o)), <- lookup_drop.
    destruct (drop (Z.to_nat o) mem); [done|]. by injection Hs as -> _. }
  pose proof (lookup_lt_Some _ _ _ Hl). unfold rd_at, zlen.
  rewrite (proj2 (Z.leb_le 0 o)), (proj2 (Z.ltb_lt _ _)) by lia. cbn [andb]. by rewrite Hl.
Qed.

Lemma slice_tail_ie (mem : list Z) o b d : slice o (length (b :: d)) mem = b :: d -> slice (S o) (length d) mem = d.
Proof.
  unfold slice. cbn [length]. intros H. destruct (drop o mem) as [|x m] eqn:E; [done|].
  injection H as -> H. assert (drop (S o) mem = m) as ->; [|done].
  replace (S o) with (o + 1)%nat by lia. by rewrite <- drop_drop, E.
Qed.

(** The bytes [d] stand at [pos]. *)
Definition stands (mem : list Z) (pos : Z) (d : list Z) : Prop :=
  0 <= pos /\ slice (Z.to_nat pos) (length d) mem = d.

Lemma stands_app mem pos d1 d2 :
  stands mem pos (d1 ++ d2) -> stands mem pos d1 /\ stands mem (pos + zlen d1) d2.
Proof.
  intros [H0 Hs]. rewrite length_app, slice_app in Hs. pose proof (zlen_nonneg d1).
  unfold stands, zlen. rewrite Z2Nat.inj_add, Nat2Z.id by lia.
  assert (length (slice (Z.to_nat pos) (length d1) mem) = length d1) as El.
  { assert (length (slice (Z.to_nat pos) (length d1) mem) <= length d1)%nat
      by (unfold slice; rewrite length_take; lia).
    assert (length (slice (Z.to_nat pos + length d1) (length d2) mem) <= length d2)%nat
      by (unfold slice; rewrite length_take; lia).
    apply (f_equal length) in Hs. rewrite !length_app in Hs. lia. }
  apply app_inj_1 in Hs as [Hs1 Hs2]; [|done]. split; (split; [lia|done]).
Qed.

Section Loop.
Variables (mem : list Z) (contentLen : Z) (group : bool).

(** The two header bytes of an element. *)
Lemma rd_header pos x :
  stands mem pos (ie_enc x) ->
  rd_at mem pos = Ret (ie_header x mod 256) /\ rd_at mem (pos + 1) = Ret (ie_header x / 256).
Proof.
  intros [H0 Hs]. unfold ie_enc in Hs. cbn [app] in Hs. split.
  - by eapply rd_at_slice.
  - apply slice_tail_ie in Hs. replace (S (Z.to_nat pos)) with (Z.to_nat (pos + 1)) in Hs by lia.
    eapply rd_at_slice; [lia|exact Hs|done].
Qed.

(** One round over an element the parser takes. *)
Lemma ie_loop_take fuel pos len0 base s pl pIe its ps x :
  built base s pl pIe its ps -> granted (rec_mallocs s) -> len0 < contentLen ->
  stands mem pos (ie_enc x) -> ie_ok x -> (group = true -> in_group x) ->
  exists s', ie_loop mem contentLen group (S fuel) pos len0 pIe pl s =
      ie_loop mem contentLen group fuel (pos + zlen (ie_enc x)) (u16 (len0 + zlen (ie_enc x)))
        (Some (next_rec s)) (head_after pl (next_rec s)) s' /\
    built base s' (head_after pl (next_rec s)) (Some (next_rec s)) (its ++ [item_at pos x])
      (ps ++ [next_rec s]) /\
    rec_mallocs s' = tail (rec_mallocs s).
Proof.
  intros Hb Hg Hl Hs Hok Hgr. destruct (rd_header pos x Hs) as [E0 E1].
  destruct (header_fields x Hok) as (Ft & Fi & Fl).
  destruct (built_append base s pl pIe its ps (item_at pos x) Hb) as (s2 & s3 & El & Ef & Hb' & Hm).
  exists s3. split; [|done]. cbn [ie_loop]. rewrite (proj2 (Z.ltb_lt _ _)) by done. cbn [negb].
  assert (lift (rd_at mem pos) s = Ret (ie_header x mod 256, s)) as L0 by (unfold lift; by rewrite E0).
  assert (lift (rd_at mem (pos + 1)) s = Ret (ie_header x / 256, s)) as L1 by (unfold lift; by rewrite E1).
  run_step L0. run_step L1. cbv zeta in Fi, Fl, Ft |- *. rewrite Ft, Fi, Fl.
  assert ((group && negb (i_long x) = false) /\ (group && (payloadIEGroup_term =? i_id x) = false)) as [-> ->].
  { destruct group; [|done]. destruct (Hgr eq_refl) as [-> Hne]. split; [done|].
    apply Z.eqb_neq. congruence. }
  run_step (malloc_granted s Hg). run_step El.
  assert (on_rec (next_rec s) (fun r => MkRec (pNext r)
            (MkItem (i_long x) (i_id x) (zlen (i_content x)) (pos + PAYLOAD_IE_HEADER_LEN))) s2 =
          Ret (tt, s3)) as Ef' by exact Ef.
  run_step Ef'. rewrite zlen_ie. unfold PAYLOAD_IE_HEADER_LEN. by rewrite <- Z.add_assoc.
Qed.

(** Rounds over a sequence of elements. *)
Lemma ie_loop_run l : forall fuel pos len0 base s pl pIe its ps,
  built base s pl pIe its ps -> Forall (eq true) (take (length l) (rec_mallocs s)) ->
  len0 + zlen (ies_enc l) <= contentLen -> contentLen < 65536 -> 0 <= len0 ->
  stands mem pos (ies_enc l) -> Forall ie_ok l -> (group = true -> Forall in_group l) ->
  exists s' pl' pIe' ps',
    ie_loop mem contentLen group (length l + fuel) pos len0 pIe pl s =
      ie_loop mem contentLen group fuel (pos + zlen (ies_enc l)) (len0 + zlen (ies_enc l)) pIe' pl' s' /\
    built base s' pl' pIe' (its ++ items_from pos l) ps' /\
    rec_mallocs s' = drop (length l) (rec_mallocs s).
Proof.
  induction l as [|x l IH]; intros fuel pos len0 base s pl pIe its ps Hb Hm Hle H16 H0 Hs Hok Hgr.
  { exists s, pl, pIe, ps. change (zlen (ies_enc [])) with 0. rewrite !Z.add_0_r, app_nil_r. done. }
  apply Forall_cons_iff in Hok as [Hx Hok]. rewrite zlen_ies in *.
  change (ies_enc (x :: l)) with (ie_enc x ++ ies_enc l) in Hs. apply stands_app in Hs as [Hs1 Hs2].
  pose proof (zlen_nonneg (ies_enc l)). pose proof (zlen_nonneg (i_content x)). pose proof (zlen_ie x).
  destruct (ie_loop_take (length l + fuel) pos len0 base s pl pIe its ps x) as (s1 & E & Hb1 & Hm1); try done.
  { destruct (rec_mallocs s) as [|[|] bs]; [done..|]. by apply Forall_cons_iff in Hm as [? _]. }
  { lia. } { intros Hg. by apply Hgr, Forall_cons_iff in Hg as [? _]. }
  unfold u16 in E. rewrite Z.mod_small in E by lia.
  destruct (IH fuel (pos + zlen (ie_enc x)) (len0 + zlen (ie_enc x)) base s1 _ _ _ _ Hb1)
    as (s' & pl' & pIe' & ps' & E' & Hb' & Hm'); try done; try lia.
  { rewrite Hm1. destruct (rec_mallocs s); [cbn [tail]; by rewrite take_nil|]. by apply Forall_cons_iff in Hm as [_ ?]. }
  { intros Hg. by apply Hgr, Forall_cons_iff in Hg as [_ ?]. }
  exists s', pl', pIe', ps'. split; [|split].
  - cbn [length Nat.add]. rewrite E, E', !Z.add_assoc. done.
  - cbn [items_from]. by rewrite <- app_assoc in Hb'.
  - rewrite Hm', Hm1. cbn [length]. destruct (rec_mallocs s); cbn [tail drop]; by rewrite ?drop_nil.
Qed.
End Loop.

(** ** Freeing *)

Lemma free_list_run fuel s o ps its :
  rchain (live_recs s) o ps its -> NoDup ps -> (length ps <= fuel)%nat ->
  free_list fuel o s = Ret (tt, set_recs s (foldr delete (live_recs s) (rev ps))).
Proof.
  revert s o ps its. induction fuel as [|fuel IH]; intros s o [|p ps] [|it its] Hc Hn Hl; try done;
    try (cbn in Hl; lia).
  1,2: cbn in Hc; subst o; cbn; by destruct s.
  destruct Hc as (-> & n & Hp & Hc). apply NoDup_cons in Hn as [Hni Hn]. cbn [free_list].
  assert (load_rec p s = Ret (MkRec n it, s)) as El by (unfold load_rec; by rewrite Hp).
  assert (free_rec p s = Ret (tt, set_recs s (delete p (live_recs s)))) as Ef
    by (unfold free_rec; by run_step El).
  run_step El. run_step Ef. cbn [pNext]. rewrite (IH _ n ps its); [|clear -Hc Hni|done|cbn in Hl; lia].
  - cbn [rev]. rewrite foldr_app. done.
  - cbn. revert n its Hc. induction ps as [|q ps IH]; intros n [|it its] Hc; try done.
    apply not_elem_of_cons in Hni as [Hne Hni]. destruct Hc as (-> & n' & Hq & Hc).
    split; [done|]. exists n'. rewrite lookup_delete_ne by done. auto.
Qed.

Lemma lookup_foldr_delete_in (h : rec_heap) ps k :
  foldr delete h ps !! k = if decide (k ∈ ps) then None else h !! k.
Proof.
  induction ps as [|p ps IH]; cbn [foldr]; [done|].
  destruct (decide (p = k)) as [->|Hne].
  - rewrite lookup_delete_eq. by rewrite decide_True by (by left).
  - rewrite lookup_delete_ne, IH by done. destruct (decide (k ∈ ps)) as [Hin|Hin].
    + by rewrite decide_True by (by right).
    + rewrite decide_False; [done|]. by intros [->|?]%elem_of_cons.
Qed.

(** Freeing the list of a successful parse gives back exactly its memory. *)
Lemma free_all_built base s pl pIe its ps :
  built base s pl pIe its ps -> free_all pl s = Ret (tt, set_recs s base).
Proof.
  intros [Hc Hn _ Hr Hw _]. unfold free_all.
  rewrite (free_list_run _ s pl ps its Hc Hn).
  - do 2 f_equal. unfold set_recs. f_equal. apply map_eq. intros k.
    rewrite lookup_foldr_delete_in. destruct (decide (k ∈ rev ps)) as [Hin|Hin].
    + symmetry. apply Hw. by rewrite list_elem_of_In, <- in_rev, <- list_elem_of_In in Hin.
    + apply Hr. intros Hk. apply Hin. by rewrite list_elem_of_In, <- in_rev, <- list_elem_of_In.
  - rewrite <- (size_dom (live_recs s)), <- (size_list_to_set (C := gset positive) ps) by done.
    apply subseteq_size. intros k Hk%elem_of_list_to_set. apply elem_of_dom. by eapply rchain_live.
Qed.

(** No record at or above the next key. *)
Definition recs_fresh (s : recs) : Prop :=
  forall k, (next_rec s <= k)%positive -> live_recs s !! k = None.

Lemma built_nil s : recs_fresh s -> built (live_recs s) s None None [] [].
Proof. intros H. constructor; try done. apply NoDup_nil_2. by intros k ?%elem_of_nil. Qed.

(** Each element takes two bytes of the memory or more. *)
Lemma ies_enc_length l : (2 * length l <= length (ies_enc l))%nat.
Proof.
  induction l as [|x l IH]; [done|]. change (ies_enc (x :: l)) with (ie_enc x ++ ies_enc l).
  rewrite length_app. cbn [length]. unfold ie_enc. rewrite length_app. cbn [length]. lia.
Qed.

Lemma stands_length mem pos d : stands mem pos d -> d <> [] -> pos + zlen d <= zlen mem.
Proof.
  intros [H0 Hs] Hd. unfold slice in Hs. apply (f_equal length) in Hs.
  rewrite length_take, length_drop in Hs. unfold zlen. destruct d; [done|]. cbn [length] in *. lia.
Qed.

(** The contents the items point to. *)
Lemma items_content mem l : forall pos,
  stands mem pos (ies_enc l) ->
  Forall2 (fun it x => mem_read mem (pIEContent it) (ieContentLen it) = Ret (i_content x))
    (items_from pos l) l.
Proof.
  induction l as [|x l IH]; intros pos Hs; [constructor|].
  change (ies_enc (x :: l)) with (ie_enc x ++ ies_enc l) in Hs. apply stands_app in Hs as [Hs1 Hs2].
  cbn [items_from]. constructor; [|by apply IH].
  pose proof (stands_length mem pos (ie_enc x) Hs1) as Hlen. rewrite zlen_ie in Hlen.
  specialize (Hlen ltac:(done)). pose proof (zlen_nonneg (i_content x)).
  unfold ie_enc in Hs1. apply stands_app in Hs1 as [_ [H0 Hs]]. change (zlen [_; _]) with 2 in *.
  cbn [item_at pIEContent ieContentLen]. rewrite mem_read_ok by lia. f_equal.
  unfold zlen at 1. by rewrite Nat2Z.id.
Qed.

(** How a run of elements ends: the announced length is used up, or, in a
    group, a termination element follows. *)
Inductive ends (group : bool) (n contentLen : Z) : list Z -> Prop :=
| ends_length : contentLen = n -> ends group n contentLen []
| ends_term c : group = true -> n < contentLen -> zlen c < 2048 ->
    ends group n contentLen (ie_enc (MkIe true payloadIEGroup_term c)).

Lemma ie_loop_ends mem contentLen group fuel pos n pIe pl s d :
  ends group n contentLen d -> stands mem pos d ->
  ie_loop mem contentLen group (S fuel) pos n pIe pl s = Ret ((status_success, pl), s).
Proof.
  intros [-> | c -> Hn Hc] Hs; cbn [ie_loop].
  - by rewrite (proj2 (Z.ltb_ge _ _)) by lia.
  - rewrite (proj2 (Z.ltb_lt _ _)) by done. cbn [negb].
    assert (ie_ok (MkIe true payloadIEGroup_term c)) as Hok by (split; [cbn; unfold payloadIEGroup_term; lia|done]).
    destruct (rd_header mem pos _ Hs) as [E0 E1]. destruct (header_fields _ Hok) as (Ft & Fi & _).
    cbv zeta in Ft, Fi. cbn [i_long i_id] in Ft, Fi. unfold lift, mbind, M_bind.
    rewrite E0, E1. cbn [mbind outcome_bind]. by rewrite Ft, Fi.
Qed.

(** ** Any input *)

Lemma rd_at_any mem o :
  rd_at mem o = Undef OutOfBounds \/ exists b, rd_at mem o = Ret b /\ 0 <= o < zlen mem.
Proof.
  unfold rd_at. destruct (Z.leb_spec 0 o), (Z.ltb_spec o (zlen mem)); cbn [andb]; auto.
  destruct (mem !! Z.to_nat o); [right; eauto|by left].
Qed.

Lemma ie_len_nonneg (b : bool) h :
  0 <= if b then GET_SUBIE_LEN_LONG h else GET_SUBIE_LEN_SHORT h.
Proof. destruct b; apply Z.mod_pos_bound; done. Qed.

Definition ie_status (st : Z) : Prop :=
  st = status_success \/ st = status_unsupported \/ st = status_noResources.

(** Every outcome of the loop: a read past the memory, or a status and a
    well-formed list of new records. *)
Lemma ie_loop_any mem contentLen group fuel : forall pos len0 base s pl pIe its ps,
  built base s pl pIe its ps -> Z.max 0 (zlen mem - pos) < 2 * Z.of_nat fuel ->
  ie_loop mem contentLen group fuel pos len0 pIe pl s = Undef OutOfBounds \/
  exists st s' pl' pIe' its' ps',
    ie_loop mem contentLen group fuel pos len0 pIe pl s = Ret ((st, pl'), s') /\
    built base s' pl' pIe' its' ps' /\ ie_status st.
Proof.
  induction fuel as [|fuel IH]; intros pos len0 base s pl pIe its ps Hb Hf; [lia|]. cbn [ie_loop].
  assert (forall st, ie_status st -> exists st' s' pl' pIe' its' ps',
            @Ret (Z * option positive * recs) ((st, pl), s) = Ret ((st', pl'), s') /\
            built base s' pl' pIe' its' ps' /\ ie_status st') as Hstop
    by (intros st Hst; by exists st, s, pl, pIe, its, ps).
  destruct (negb _); [right; apply Hstop; by left|].
  destruct (rd_at_any mem pos) as [E0|(lo & E0 & B0)].
  { left. unfold lift, mbind, M_bind. by rewrite E0. }
  destruct (rd_at_any mem (pos + 1)) as [E1|(hi & E1 & B1)].
  { left. unfold lift, mbind, M_bind. by rewrite E0, E1. }
  assert (lift (rd_at mem pos) s = Ret (lo, s)) as L0 by (unfold lift; by rewrite E0).
  assert (lift (rd_at mem (pos + 1)) s = Ret (hi, s)) as L1 by (unfold lift; by rewrite E1).
  run_step L0. run_step L1. cbv zeta. set (h := MAKE_UINT16 lo hi). set (tl := GET_SUBIE_TYPE h).
  set (id := if tl then _ else _). set (len := if tl then GET_SUBIE_LEN_LONG h else _).
  pose proof (ie_len_nonneg tl h) as Hlen. fold len in Hlen. unfold PAYLOAD_IE_HEADER_LEN.
  destruct (group && negb tl); [right; apply Hstop; right; by left|].
  destruct (group && _); [right; apply Hstop; by left|].
  destruct (rec_mallocs s) as [|[|] bs] eqn:Em.
  3: { right. unfold malloc_rec, mbind, M_bind. rewrite Em. cbn [mbind outcome_bind].
       exists status_noResources, (MkRecs (live_recs s) (next_rec s) bs), pl, pIe, its, ps.
       split; [done|]. split; [by destruct Hb|by right; right]. }
  all: assert (granted (rec_mallocs s)) as Hg by by rewrite Em.
  all: destruct (built_append base s pl pIe its ps (MkItem tl id len (pos + 2)) Hb)
         as (s2 & s3 & El & Ef & Hb' & _).
  all: run_step (malloc_granted s Hg); run_step El; run_step Ef.
  all: eapply IH; [exact Hb'|lia].
Qed.

Lemma ie_loop_start mem contentLen group pos s :
  recs_fresh s ->
  ie_loop mem contentLen group (S (length mem)) pos 0 None None s = Undef OutOfBounds \/
  exists st s' pl' pIe' its' ps',
    ie_loop mem contentLen group (S (length mem)) pos 0 None None s = Ret ((st, pl'), s') /\
    built (live_recs s) s' pl' pIe' its' ps' /\ ie_status st.
Proof.
  intros Hf. destruct (decide (0 <= pos)) as [Hp|Hp].
  - eapply ie_loop_any; [by apply built_nil|]. unfold zlen. lia.
  - cbn [ie_loop]. destruct (negb _).
    + right. exists status_success, s, None, None, [], []. split; [done|].
      split; [by apply built_nil|by left].
    + left. destruct (rd_at_any mem pos) as [E|(? & _ & ?)]; [|lia].
      unfold lift, mbind, M_bind. by rewrite E.
Qed.

(** ** Properties *)

(** C31: What an encoder of information elements writes, the parser finds: for
    any sequence of elements whose identifiers and lengths fit, laid out
    anywhere in memory and ended by the announced length or, in a group of long
    elements, by a termination element, the parser returns success and a list
    with one record for each element, in order, with its type, identifier and
    length and a pointer to its content; the rest of the memory is untouched,
    and [ApiMac_freeIEList] of the list gives all of it back. *)
Theorem mac_ie_parse_roundtrip mem contentLen group pos l trailer pl0 s :
  recs_fresh s -> Forall (eq true) (take (length l) (rec_mallocs s)) ->
  Forall ie_ok l -> (group = true -> Forall in_group l) ->
  stands mem pos (ies_enc l ++ trailer) -> ends group (zlen (ies_enc l)) contentLen trailer ->
  0 < contentLen < 65536 ->
  exists s' pl ps, parsePayloadIEs mem contentLen group (Some pos) pl0 s = Ret ((status_success, pl), s') /\
    rchain (live_recs s') pl ps (items_from pos l) /\
    Forall2 (fun it x => mem_read mem (pIEContent it) (ieContentLen it) = Ret (i_content x))
      (items_from pos l) l /\
    (forall k, k ∉ ps -> live_recs s' !! k = live_recs s !! k) /\
    ApiMac_freeIEList pl s' = Ret (tt, set_recs s' (live_recs s)).
Proof.
  intros Hf Hm Hok Hgr Hs He Hc. destruct (stands_app _ _ _ _ Hs) as [Hs1 Hs2].
  assert (length l <= length mem)%nat as Hlen.
  { pose proof (ies_enc_length l). destruct (ies_enc l) as [|b d] eqn:E; [cbn in *; lia|].
    pose proof (stands_length mem pos (b :: d) Hs1 ltac:(done)). destruct Hs1. unfold zlen in *. lia. }
  assert (zlen (ies_enc l) <= contentLen) by (destruct He; lia).
  destruct (ie_loop_run mem contentLen group l (S (length mem - length l)) pos 0 (live_recs s) s
    None None [] [] (built_nil s Hf)) as (s' & pl & pIe & ps & E & Hb & _); try done; try lia.
  replace (length l + S (length mem - length l))%nat with (S (length mem)) in E by lia.
  rewrite Z.add_0_l in E. rewrite (ie_loop_ends _ _ _ _ _ _ _ _ _ _ He Hs2) in E.
  exists s', pl, ps. split; [|split; [|split; [|split]]].
  - unfold parsePayloadIEs. rewrite (proj2 (Z.eqb_neq _ _)) by lia. by run_step E.
  - apply Hb.
  - by apply items_content.
  - apply Hb.
  - by eapply free_all_built.
Qed.

(** C32: The parser ends and is tidy on any input: whatever the memory, the
    announced length, the position and the allocations, it stops within half
    the size of the memory, and either it read past the end of the memory, or
    it returns one of the four statuses; on success the list it returns can be
    freed, which gives back exactly the memory it took, and on failure it has
    freed everything itself and the list is empty. *)
Theorem mac_ie_parse_any_input mem contentLen group pContent pl0 s :
  recs_fresh s ->
  parsePayloadIEs mem contentLen group pContent pl0 s = Undef OutOfBounds \/
  exists st pl s', parsePayloadIEs mem contentLen group pContent pl0 s = Ret ((st, pl), s') /\
    ((st = status_noData /\ pl = pl0 /\ s' = s) \/
     (st = status_success /\ ApiMac_freeIEList pl s' = Ret (tt, set_recs s' (live_recs s))) \/
     ((st = status_unsupported \/ st = status_noResources) /\ pl = None /\ live_recs s' = live_recs s)).
Proof.
  intros Hf. unfold parsePayloadIEs.
  destruct pContent as [pos|]; [|right; exists status_noData, pl0, s; auto].
  destruct (contentLen =? 0); [right; exists status_noData, pl0, s; auto|].
  destruct (ie_loop_start mem contentLen group pos s Hf)
    as [E|(st & s' & pl & pIe & its & ps & E & Hb & Hst)].
  { left. by apply M_bind_Undef. }
  right. run_step E. pose proof (free_all_built _ _ _ _ _ _ Hb) as Efree.
  destruct Hst as [-> | Hst]; [cbn; exists status_success, pl, s'; auto|].
  assert ((st =? status_success) = false) as -> by by destruct Hst as [-> | ->]. cbn [negb andb].
  case_bool_decide as Hpl.
  - run_step Efree. exists st, None, (set_recs s' (live_recs s)). split; [done|]. auto.
  - exists st, pl, s'. split; [done|]. right. right. split; [done|].
    destruct pl; [by destruct Hpl|]. split; [done|].
    assert (free_all None s' = Ret (tt, s')) as En by (unfold free_all; by destruct (size _)).
    rewrite En in Efree. injection Efree as Es. by apply (f_equal live_recs) in Es.
Qed.

(** A header that the announced length cuts in half is not noticed: when a
    buffer ends one byte after its last element and the announced length
    counts that byte, the parser reads the second header byte from behind the
    buffer. *)
Theorem mac_ie_truncated_header group l b pl0 s :
  recs_fresh s -> rec_mallocs s = [] -> Forall ie_ok l -> (group = true -> Forall in_group l) ->
  zlen (ies_enc l) < 65535 ->
  parsePayloadIEs (ies_enc l ++ [b]) (zlen (ies_enc l) + 1) group (Some 0) pl0 s = Undef OutOfBounds.
Proof.
  intros Hf Hm Hok Hgr Hlen. set (mem := ies_enc l ++ [b]). pose proof (zlen_nonneg (ies_enc l)).
  assert (stands mem 0 mem) as Hs by (split; [lia|apply slice_0_all]).
  apply stands_app in Hs as [Hs1 _]. pose proof (ies_enc_length l).
  assert (length mem = length (ies_enc l) + 1)%nat as Hml by (unfold mem; by rewrite length_app).
  destruct (ie_loop_run mem (zlen (ies_enc l) + 1) group l (S (length mem - length l)) 0 0 (live_recs s) s
    None None [] [] (built_nil s Hf)) as (s' & pl & pIe & ps & E & Hb & _); try done; try lia.
  { by rewrite Hm, take_nil. }
  replace (length l + S (length mem - length l))%nat with (S (length mem)) in E by lia.
  rewrite !Z.add_0_l in E.
  unfold parsePayloadIEs. rewrite (proj2 (Z.eqb_neq _ _)) by lia. apply M_bind_Undef. rewrite E.
  cbn [ie_loop]. rewrite (proj2 (Z.ltb_lt _ _)) by lia. cbn [negb].
  unfold lift, mbind, M_bind. destruct (rd_at_any mem (zlen (ies_enc l))) as [-> | (x & -> & _)]; [done|].
  cbn [mbind outcome_bind].
  destruct (rd_at_any mem (zlen (ies_enc l) + 1)) as [-> | (y & _ & Hy)]; [done|].
  unfold zlen in Hy. lia.
Qed.

(** ** Instances *)

Definition no_recs : recs := MkRecs ∅ 1 [].
Definition demo_group : list ie := [MkIe true 4 [1; 2; 3]; MkIe true 1 []].
Definition demo_term : list Z := ie_enc (MkIe true payloadIEGroup_term []).

Lemma no_recs_fresh : recs_fresh no_recs.
Proof. intros k _. apply lookup_empty. Qed.

Lemma demo_group_ok : Forall ie_ok demo_group /\ Forall in_group demo_group.
Proof. split; repeat (constructor; [by_eval|]); constructor. Qed.

Lemma mac_ie_parse_roundtrip_witness :
  let mem := ies_enc demo_group ++ demo_term in
  exists s' pl ps, parsePayloadIEs mem 9 true (Some 0) None no_recs = Ret ((status_success, pl), s') /\
    rchain (live_recs s') pl ps (items_from 0 demo_group) /\
    Forall2 (fun it x => mem_read mem (pIEContent it) (ieContentLen it) = Ret (i_content x))
      (items_from 0 demo_group) demo_group /\
    (forall k, k ∉ ps -> live_recs s' !! k = live_recs no_recs !! k) /\
    ApiMac_freeIEList pl s' = Ret (tt, set_recs s' (live_recs no_recs)).
Proof.
  intros mem. apply (mac_ie_parse_roundtrip mem 9 true 0 demo_group demo_term None no_recs).
  - exact no_recs_fresh.
  - constructor.
  - apply demo_group_ok.
  - intros _. apply demo_group_ok.
  - split; [lia|reflexivity].
  - constructor; [reflexivity|by_eval|by_eval].
  - lia.
Defined.

Lemma mac_ie_parse_any_input_witness :
  parsePayloadIEs [0; 0; 7] 3 false (Some 0) None no_recs = Undef OutOfBounds \/
  exists st pl s', parsePayloadIEs [0; 0; 7] 3 false (Some 0) None no_recs = Ret ((st, pl), s') /\
    ((st = status_noData /\ pl = None /\ s' = no_recs) \/
     (st = status_success /\ ApiMac_freeIEList pl s' = Ret (tt, set_recs s' (live_recs no_recs))) \/
     ((st = status_unsupported \/ st = status_noResources) /\ pl = None /\
      live_recs s' = live_recs no_recs)).
Proof. apply (mac_ie_parse_any_input [0; 0; 7] 3 false (Some 0) None no_recs no_recs_fresh). Defined.

Lemma mac_ie_truncated_header_witness :
  parsePayloadIEs (ies_enc demo_group ++ [0]) 8 false (Some 0) None no_recs = Undef OutOfBounds.
Proof.
  apply (mac_ie_truncated_header false demo_group 0 None no_recs).
  - exact no_recs_fresh.
  - reflexivity.
  - apply demo_group_ok.
  - discriminate.
  - by_eval.
Defined.

End ApiMacIe.
