(* ===== verification/RandData.v ===== *)
(** * Test data (gateway_common/src/rand_data.c)

    A linear congruential generator, used in pairs to test a channel: what the
    transmit side generates the receive side can verify.  The generators are
    state that the functions pass on; a buffer is the list of its bytes. *)

From Stdlib Require Import ZArith Lia.
From stdpp Require Import base list option numbers.
From S2P Require Import Prelude.

Open Scope Z_scope.

Module RandData.

Record rand_data_one : Type := MkRand { cnt : Z; next : Z }.
Record rand_data_pair : Type := MkPair { tx : rand_data_one; rx : rand_data_one }.

Definition RAND_DATA_initOne (seed : Z) : rand_data_one := MkRand 0 (u32 seed).
Definition RAND_DATA_initPair (seed : Z) : rand_data_pair :=
  MkPair (RAND_DATA_initOne seed) (RAND_DATA_initOne seed).

Definition RAND_DATA_nextByte (g : rand_data_one) : Z * rand_data_one :=
  let n := u32 (next g * 1103515245 + 12345) in
  (u8 (Z.land (Z.shiftr n 16) 0x0ff), MkRand (u32 (cnt g + 1)) n).

Definition RAND_DATA_nextTx (p : rand_data_pair) : Z * rand_data_pair :=
  let '(b, g) := RAND_DATA_nextByte (tx p) in (b, MkPair g (rx p)).
Definition RAND_DATA_nextRx (p : rand_data_pair) : Z * rand_data_pair :=
  let '(b, g) := RAND_DATA_nextByte (rx p) in (b, MkPair (tx p) g).

(** The [n] bytes written to the buffer. *)
Fixpoint RAND_DATA_generateBuf (g : rand_data_one) (n : nat) : list Z * rand_data_one :=
  match n with
  | O => ([], g)
  | S n =>
      let '(b, g) := RAND_DATA_nextByte g in
      let '(bs, g) := RAND_DATA_generateBuf g n in (b :: bs, g)
  end.

(** The loop of [RAND_DATA_verifyBuf] at index [x]. *)
Fixpoint verify_from (g : rand_data_one) (x : Z) (buf : list Z) : Z * rand_data_one :=
  match buf with
  | [] => (0, g)
  | b :: buf =>
      let '(cv, g) := RAND_DATA_nextByte g in
      if negb (b =? cv) then (int32 (- int32 (x + 1)), g) else verify_from g (x + 1) buf
  end.
Definition RAND_DATA_verifyBuf (g : rand_data_one) (buf : list Z) : Z * rand_data_one :=
  verify_from g 0 buf.

Definition RAND_DATA_txGenerate (p : rand_data_pair) (n : nat) : list Z * rand_data_pair :=
  let '(bs, g) := RAND_DATA_generateBuf (tx p) n in (bs, MkPair g (rx p)).
Definition RAND_DATA_rxVerify (p : rand_data_pair) (buf : list Z) : Z * rand_data_pair :=
  let '(r, g) := RAND_DATA_verifyBuf (rx p) buf in (r, MkPair (tx p) g).

Lemma next_byte_range g : is_byte (fst (RAND_DATA_nextByte g)).
Proof. apply u8_byte. Qed.

Lemma length_generate n g : length (fst (RAND_DATA_generateBuf g n)) = n.
Proof.
  revert g. induction n as [|n IH]; intros g; [done|]. cbn [RAND_DATA_generateBuf].
  destruct (RAND_DATA_nextByte g) as [b g1]. specialize (IH g1).
  destruct (RAND_DATA_generateBuf g1 n). cbn in *. by rewrite IH.
Qed.

(** Generating in two pieces is generating at once. *)
Lemma generate_app n m g :
  RAND_DATA_generateBuf g (n + m) =
  let '(a, g) := RAND_DATA_generateBuf g n in
  let '(b, g) := RAND_DATA_generateBuf g m in (a ++ b, g).
Proof.
  revert g. induction n as [|n IH]; intros g; cbn [Nat.add RAND_DATA_generateBuf].
  { by destruct (RAND_DATA_generateBuf g m). }
  destruct (RAND_DATA_nextByte g) as [b g1]. rewrite IH.
  destruct (RAND_DATA_generateBuf g1 n) as [a g2]. by destruct (RAND_DATA_generateBuf g2 m).
Qed.

(** What was generated verifies, and both generators are then in step. *)
Lemma verify_generated n g x :
  verify_from g x (fst (RAND_DATA_generateBuf g n)) = (0, snd (RAND_DATA_generateBuf g n)).
Proof.
  revert g x. induction n as [|n IH]; intros g x; [done|]. cbn [RAND_DATA_generateBuf].
  destruct (RAND_DATA_nextByte g) as [b g1] eqn:E. specialize (IH g1 (x + 1)).
  destruct (RAND_DATA_generateBuf g1 n) as [bs g2]. cbn [fst snd verify_from] in *.
  by rewrite E, Z.eqb_refl.
Qed.

(** The first difference is reported by its index. *)
Lemma verify_differs n g x b rest :
  0 <= x -> x + Z.of_nat n + 1 < 2 ^ 31 ->
  b <> fst (RAND_DATA_nextByte (snd (RAND_DATA_generateBuf g n))) ->
  fst (verify_from g x (fst (RAND_DATA_generateBuf g n) ++ b :: rest)) = - (x + Z.of_nat n + 1).
Proof.
  revert g x. induction n as [|n IH]; intros g x Hx Hn Hb.
  - cbn [RAND_DATA_generateBuf fst snd app verify_from] in *.
    destruct (RAND_DATA_nextByte g) as [cv g1]. cbn [fst] in Hb.
    rewrite (proj2 (Z.eqb_neq _ _)) by done. cbn [negb fst]. rewrite (int32_id (x + 1)) by lia. rewrite int32_id; lia.
  - cbn [RAND_DATA_generateBuf] in *. destruct (RAND_DATA_nextByte g) as [c g1] eqn:E.
    specialize (IH g1 (x + 1)). destruct (RAND_DATA_generateBuf g1 n) as [bs g2].
    cbn [fst snd app verify_from] in *. rewrite E, Z.eqb_refl. cbn [negb].
    rewrite IH by (done || lia). lia.
Qed.

(** A sequence of blocks, sent and checked one after the other. *)
Fixpoint exchange (p : rand_data_pair) (sizes : list nat) : list Z * rand_data_pair :=
  match sizes with
  | [] => ([], p)
  | n :: sizes =>
      let '(buf, p) := RAND_DATA_txGenerate p n in
      let '(r, p) := RAND_DATA_rxVerify p buf in
      let '(rs, p) := exchange p sizes in (r :: rs, p)
  end.

Lemma exchange_in_step sizes p :
  tx p = rx p -> fst (exchange p sizes) = replicate (length sizes) 0 /\
  tx (snd (exchange p sizes)) = rx (snd (exchange p sizes)).
Proof.
  revert p. induction sizes as [|n sizes IH]; intros p Hp; [done|]. cbn [exchange].
  unfold RAND_DATA_txGenerate, RAND_DATA_rxVerify, RAND_DATA_verifyBuf.
  pose proof (verify_generated n (rx p) 0) as Hv. rewrite Hp in *.
  destruct (RAND_DATA_generateBuf (rx p) n) as [buf g]. cbn [fst snd rx tx] in *. rewrite Hv.
  destruct (IH (MkPair g g) eq_refl) as [H1 H2].
  destruct (exchange (MkPair g g) sizes) as [rs p']. cbn [fst snd length replicate] in *.
  by rewrite H1.
Qed.

(** ** Properties *)

(** Two sides that start from the same seed stay in step: however the data
    is cut into blocks, every block the transmit side generates verifies on the
    receive side; and when a block arrives whose first [k] bytes are right and
    whose next byte is not, the verification returns [-(k+1)]. *)
Theorem rand_data_pair_in_step seed sizes k b rest :
  let p := RAND_DATA_initPair seed in
  fst (exchange p sizes) = replicate (length sizes) 0 /\
  (Z.of_nat k + 1 < 2 ^ 31 ->
   let p' := snd (exchange p sizes) in
   let '(good, p1) := RAND_DATA_txGenerate p' k in
   b <> fst (RAND_DATA_nextTx p1) ->
   fst (RAND_DATA_rxVerify p' (good ++ b :: rest)) = - (Z.of_nat k + 1)).
Proof.
  intros p. destruct (exchange_in_step sizes p eq_refl) as [H1 H2]. split; [done|].
  intros Hk p'. unfold RAND_DATA_txGenerate. fold p' in H2.
  pose proof (verify_differs k (tx p') 0 b rest) as Hv. unfold RAND_DATA_nextTx.
  destruct (RAND_DATA_generateBuf (tx p') k) as [good g]. cbn [fst snd tx] in *.
  intros Hb. unfold RAND_DATA_rxVerify, RAND_DATA_verifyBuf. rewrite <- H2.
  destruct (RAND_DATA_nextByte g) as [cv g1]. cbn [fst] in *.
  destruct (verify_from (tx p') 0 (good ++ b :: rest)). cbn [fst] in *.
  rewrite Hv by (done || lia). done.
Qed.

End RandData.
