(* ===== verification/ApiMacInit.v ===== *)
(** * Start-up of the MAC API (mt_interface/api/src/api_mac.c)

    [ApiMac_init] creates the interface, resets the co-processor and waits for
    its reset indication, asks for its version, resets the MAC and chooses the
    address of the device.  The state is that of the interface with its handles
    together with the module's static variables.  [FATAL_printf] ends the
    program: it is the outcome [Undef Fatal]. *)

From Stdlib Require Import ZArith Lia.
From stdpp Require Import base list option numbers gmap.
From S2P Require Import Prelude MtMsg MtRx MtHeap MtFrag MtIface ApiMacTypes ApiMacReq RandData.

Open Scope Z_scope.

Module ApiMacInit.
Import MtMsg MtHeap MtFrag MtIface ApiMacTypes ApiMacReq RandData.

(** The interface and the static variables of the module. *)
Record mac : Type := MkMac {
  mac_if : lif;
  initialMacInit : bool;
  MT_DEVICE_version_info : mt_version_info;
  rand_data_source : rand_data_one
}.

Abbreviation MAC := (M mac).

Definition on_lif {A} (f : LIF A) : MAC A := fun s =>
  '(a, l) ← f (mac_if s);
  Ret (a, MkMac l (initialMacInit s) (MT_DEVICE_version_info s) (rand_data_source s)).
Definition on_io {A} (f : IO A) : MAC A := on_lif (zoom f).

Definition fatal {S A} : M S A := undefined Fatal.

Definition ApiMac_randomByte : MAC Z := fun s =>
  let '(b, g) := RAND_DATA_nextByte (rand_data_source s) in
  Ret (b, MkMac (mac_if s) (initialMacInit s) (MT_DEVICE_version_info s) g).

Section Init.
(** Rounds for long requests, the answers of the system when the interface is
    created, the time, and what the two address arrays hold at first. *)
Variables (fuel ackfuel : nat) (o : os) (now : Z) (prim0 cfg0 : list Z).

Definition MAX_MSGS_PROCESSED_POST_RESET : nat := 20.

(** The loop of [resetCoPDevice] with [n] attempts left: was the indication
    among the messages?  What arrives while it waits is on the list when it
    looks. *)
Fixpoint await_reset (n : nat) : IO bool :=
  match n with
  | O => mret false
  | S n =>
      p ← MT_MSG_LIST_remove;
      match p with
      | None => MT_MSG_free None;; await_reset n
      | Some q =>
          m ← load q;
          if negb (0x41 =? Z.land (cmd0 m) 0x7F) || negb (0x80 =? cmd1 m)
          then MT_MSG_free (Some q);; await_reset n
          else MT_MSG_free (Some q);; mret true
      end
  end.

Definition resetCoPDevice : IO unit :=
  MT_MSG_reset fuel ackfuel 1;;
  ok ← await_reset MAX_MSGS_PROCESSED_POST_RESET;
  if (ok : bool) then mret tt else fatal.

(** The handle of the semaphore that is returned. *)
Definition createInterface : LIF bool :=
  r ← MT_MSG_interfaceCreate o;
  if negb (r =? 0) then fatal
  else
    zoom resetCoPDevice;;
    l ← get;
    mret (held l Hlist_sem).

Fixpoint random_addr (n : nat) (x : Z) (a : list Z) : MAC (list Z) :=
  match n with
  | O => mret a
  | S n => b ← ApiMac_randomByte; a ← lift (mem_write a x [b]); random_addr n (x + 1) a
  end.

(** [cfg[0] |= 2; cfg[0] &= ~1;] *)
Definition local_unicast (a : list Z) : list Z :=
  match a with b :: a => Z.land (Z.lor b 2) (Z.lnot 1) :: a | [] => [] end.

(** The address: the configured one, else the factory one, else a random one. *)
Definition choose_addr (prim cfg : list Z) : MAC (list Z) :=
  let cfg := if is_bad_addr cfg then prim else cfg in
  if is_bad_addr cfg then
    modify (fun s => MkMac (mac_if s) (initialMacInit s) (MT_DEVICE_version_info s)
                           (RAND_DATA_initOne (u32 now)));;
    a ← random_addr 8 0 cfg;
    mret (local_unicast a)
  else mret cfg.

Definition ApiMac_init (enableFH : bool) : MAC bool :=
  s ← get;
  sem ← (if initialMacInit s then
           r ← on_lif createInterface;
           modify (fun s => MkMac (mac_if s) false (MT_DEVICE_version_info s) (rand_data_source s));;
           mret (Some r)
         else mret None);
  '(r, v) ← on_io (MT_MSG_getVersion fuel ackfuel true);
  modify (fun s => MkMac (mac_if s) (initialMacInit s) (default version_zero v) (rand_data_source s));;
  if negb (r =? 2) then fatal
  else
    (if enableFH then on_io (ApiMac_enableFH fuel ackfuel);; mret tt else mret tt);;
    on_io (ApiMac_mlmeResetReq fuel ackfuel true);;
    '(r, _, prim, cfg) ← on_io (MT_MSG_getExtAddress fuel ackfuel None (Some prim0) (Some cfg0));
    if negb (r =? 4) then fatal
    else
      a ← choose_addr (default [] prim) (default [] cfg);
      on_io (ApiMac_mlmeSetReqArray fuel ackfuel attribute_extendedAddress a);;
      match sem with
      | Some h => mret h
      | None => undefined Uninitialised     (* [sem] was not assigned *)
      end.
End Init.

(** ** Waiting for the reset indication *)

Definition is_reset_ind (m : mt_msg) : bool :=
  (0x41 =? Z.land (cmd0 m) 0x7F) && (0x80 =? cmd1 m).

(** A message that may be on the list: live, without a response. *)
Definition plain (s : mif) (b : bool) (p : positive) : Prop :=
  exists m, heap s !! p = Some m /\ pSrsp m = None /\ is_reset_ind m = b.

Lemma plain_delete s s' b p q :
  heap s' = delete p (heap s) -> p <> q -> plain s b q -> plain s' b q.
Proof. intros E Hne (m & Hm & H). exists m. rewrite E, lookup_delete_ne by done. done. Qed.

(** One message that is taken off the list. *)
Lemma await_step n s p q b :
  list_inv s (p :: q) -> plain s b p ->
  exists s', await_reset (S n) s = (if b then Ret (true, s') else await_reset n s') /\
    list_inv s' q /\ heap s' = delete p (heap s) /\ wire s' = wire s.
Proof.
  intros Hl (m & Hm & Hs & Hb). destruct (list_drop_head s p q m Hl Hm Hs) as (s1 & s2 & Er & Ef & Hq & Eh & Ew & _).
  exists s2. split; [|done]. cbn [await_reset]. run_step Er.
  run_step (load_put p (unlinked m) s1). rewrite <- negb_andb.
  change (_ && _) with (is_reset_ind m). rewrite Hb. destruct b; cbn [negb]; by run_step Ef.
Qed.

Lemma await_none n s : rx_list s = None -> await_reset n s = Ret (false, s).
Proof.
  intros Hl. induction n as [|n IH]; [done|]. cbn [await_reset].
  assert (MT_MSG_LIST_remove s = Ret (None, s)) as Er
    by (unfold MT_MSG_LIST_remove; run_get; by rewrite Hl).
  run_step Er. by run_step (eq_refl (MT_MSG_free None s)).
Qed.

(** The messages before the indication, and the indication, are taken off. *)
Lemma await_found n : forall s a r rest,
  list_inv s (a ++ r :: rest) -> (length a < n)%nat -> Forall (plain s false) a -> plain s true r ->
  exists s', await_reset n s = Ret (true, s') /\ list_inv s' rest /\
    heap s' = foldr delete (heap s) (rev (a ++ [r])) /\ wire s' = wire s.
Proof.
  induction n as [|n IH]; intros s a r rest Hl Hn Ha Hr; [lia|]. destruct a as [|p a].
  - destruct (await_step n s r rest true Hl Hr) as (s' & E & H). exists s'. done.
  - apply Forall_cons_iff in Ha as [Hp Ha]. cbn [app] in Hl.
    destruct (await_step n s p (a ++ r :: rest) false Hl Hp) as (s1 & E & Hl1 & Eh & Ew).
    pose proof (li_nodup _ _ Hl) as [Hni _]%NoDup_cons.
    destruct (IH s1 a r rest) as (s' & E' & Hl' & Eh' & Ew'); [done|cbn in Hn; lia| | |].
    { apply Forall_forall. intros q Hq. eapply plain_delete; [done| |by eapply Forall_forall in Ha].
      intros ->. apply Hni. apply elem_of_app. by left. }
    { eapply plain_delete; [done| |done]. intros ->. apply Hni. apply elem_of_app. right. by left. }
    exists s'. split; [by rewrite E|]. split; [done|]. split; [|congruence].
    cbn [app rev]. rewrite foldr_app. cbn [foldr]. by rewrite <- Eh.
Qed.

(** No indication among the first [n] messages. *)
Lemma await_missing n : forall s l,
  list_inv s l -> Forall (plain s false) l -> exists s', await_reset n s = Ret (false, s').
Proof.
  induction n as [|n IH]; intros s l Hl Ha; [by exists s|]. destruct l as [|p l].
  - exists s. apply await_none. by destruct Hl.
  - apply Forall_cons_iff in Ha as [Hp Ha].
    destruct (await_step n s p l false Hl Hp) as (s1 & -> & Hl1 & Eh & _).
    pose proof (li_nodup _ _ Hl) as [Hni _]%NoDup_cons. apply (IH s1 l Hl1).
    apply Forall_forall. intros q Hq. eapply plain_delete; [done| |by eapply Forall_forall in Ha].
    by intros ->.
Qed.

Lemma reset_run fuel ackfuel s :
  ready s ->
  MT_MSG_reset fuel ackfuel 1 s =
  Ret (tt, after_request (next_ptr s) (mt_frame (cfg s) 0x41 0x00 [1]) (bumped s)).
Proof.
  intros Hr. unfold MT_MSG_reset.
  destruct (request_alloc s 1 SYS_RESET_REQ_cmd0 SYS_RESET_REQ_cmd1)
    as (m0 & m & Ea & Ed & Hw & C0 & C1 & L & N & R); [done|by_eval|by_eval|].
  run_step Ea. run_step Ed.
  destruct (request_run fuel ackfuel s m [F8 (u8 1)]) as (m1 & m2 & E1 & E2 & E3); try done.
  { rewrite C0. by_eval. } { by repeat constructor. }
  cbn [write_fields] in E1. apply bind_Ret_inv in E1 as (m1' & E1 & [= ->]).
  run_msg E1. run_step E2. rewrite E3, C0, C1. done.
Qed.

(** The list is not touched by a request. *)
Lemma list_inv_request s p w l : list_inv s l -> list_inv (after_request p w (bumped s)) l.
Proof. by intros []. Qed.

(** ** The address *)

Lemma random_addr_run n : forall x a s,
  0 <= x -> x + Z.of_nat n <= zlen a ->
  exists a' s', random_addr n x a s = Ret (a', s') /\ zlen a' = zlen a.
Proof.
  induction n as [|n IH]; intros x a s Hx Hn; [by exists a, s|]. cbn [random_addr].
  unfold ApiMac_randomByte at 1, mbind at 1, M_bind at 1.
  destruct (RAND_DATA_nextByte (rand_data_source s)) as [b g]. cbn [mbind outcome_bind].
  unfold lift at 1, mbind at 1, M_bind at 1.
  rewrite mem_write_ok by (change (zlen [b]) with 1; lia). cbn [mbind outcome_bind].
  set (a1 := splice _ _ _). assert (zlen a1 = zlen a) as Hz.
  { unfold a1, zlen. rewrite length_splice; [done|]. unfold zlen in Hn. cbn [length]. lia. }
  destruct (IH (x + 1) a1 (MkMac (mac_if s) (initialMacInit s) (MT_DEVICE_version_info s) g))
    as (a' & s' & E & Hl); [lia|lia|].
  exists a', s'. split; [exact E|lia].
Qed.

(** The two bits of the first octet. *)
Lemma local_unicast_bits b : Z.land (Z.land (Z.lor b 2) (Z.lnot 1)) 3 = 2.
Proof.
  apply Z.bits_inj'. intros i Hi. rewrite !Z.land_spec, Z.lor_spec.
  destruct (decide (i = 0)) as [->|]; [change (Z.testbit (Z.lnot 1) 0) with false; by rewrite andb_false_r|].
  destruct (decide (i = 1)) as [->|]; [change (Z.testbit 2 1) with true; by rewrite orb_true_r|].
  replace (Z.testbit 3 i) with false; [|symmetry; apply Z.bits_above_log2; [lia|cbn; lia]].
  rewrite andb_false_r. symmetry. apply Z.bits_above_log2; [lia|cbn; lia].
Qed.

(** ** Properties *)

(** The reset of the co-processor at start-up: on a working interface the
    reset request is sent as one frame; if a reset indication is among the
    first twenty messages on the list, the messages before it and it are taken
    off and freed, the rest stays and start-up goes on; if the list holds no
    indication, however long it is, the program gives up after twenty looks. *)
Theorem mac_reset_waits_for_indication fuel ackfuel s l :
  ready s -> list_inv s l ->
  (forall a r rest, l = a ++ r :: rest -> (length a < 20)%nat ->
     Forall (plain s false) a -> plain s true r ->
     exists s', resetCoPDevice fuel ackfuel s = Ret (tt, s') /\ list_inv s' rest /\
       heap s' = foldr delete (heap s) (rev (a ++ [r])) /\
       wire s' = wire s ++ [mt_frame (cfg s) 0x41 0x00 [1]]) /\
  (Forall (plain s false) l -> resetCoPDevice fuel ackfuel s = Undef Fatal).
Proof.
  intros Hr Hl. unfold resetCoPDevice. set (w := mt_frame (cfg s) 0x41 0x00 [1]).
  set (s1 := after_request (next_ptr s) w (bumped s)).
  assert (list_inv s1 l) as Hl1 by by apply list_inv_request.
  split.
  - intros a r rest -> Hn Ha Hp.
    destruct (await_found MAX_MSGS_PROCESSED_POST_RESET s1 a r rest) as (s' & E & H1 & H2 & H3); try done.
    exists s'. split; [|done]. run_step (reset_run fuel ackfuel s Hr). by run_step E.
  - intros Ha. destruct (await_missing MAX_MSGS_PROCESSED_POST_RESET s1 l) as (s' & E); try done.
    run_step (reset_run fuel ackfuel s Hr). by run_step E.
Qed.

(** The address the device takes: the configured one when it is set, else
    the factory one when that is set, else eight bytes of which the first marks
    the address as locally administered and unicast; in no case all ones. *)
Theorem mac_chosen_addr_valid now prim cfg s :
  zlen prim = 8 -> zlen cfg = 8 ->
  exists a s', choose_addr now prim cfg s = Ret (a, s') /\ zlen a = 8 /\ is_bad_addr a = false /\
    (is_bad_addr cfg = false -> a = cfg) /\
    (is_bad_addr cfg = true -> is_bad_addr prim = false -> a = prim) /\
    (is_bad_addr cfg = true -> is_bad_addr prim = true ->
     exists b rest, a = b :: rest /\ Z.land b 3 = 2).
Proof.
  intros Hp Hc. unfold choose_addr. cbv zeta.
  destruct (is_bad_addr cfg) eqn:Ec; [destruct (is_bad_addr prim) eqn:Ep|].
  - run_modify. set (s1 := MkMac _ _ _ _).
    destruct (random_addr_run 8 0 prim s1) as (a & s' & E & Hl); [lia|lia|]. run_step E.
    destruct a as [|b a]; [rewrite Hp in Hl; discriminate|].
    exists (local_unicast (b :: a)), s'. cbn [local_unicast]. split; [done|].
    pose proof (local_unicast_bits b) as Hb. set (b' := Z.land (Z.lor b 2) (Z.lnot 1)) in *.
    split; [unfold zlen in *; cbn [length] in *; lia|]. split; [|split; [done|split; [done|]]].
    + cbn. destruct (Z.eqb_spec b' 0xff) as [E'|]; [|done]. rewrite E' in Hb. discriminate Hb.
    + intros _ _. by exists b', a.
  - exists prim, s. done.
  - exists cfg, s. rewrite Ec. done.
Qed.

(** Start-up never completes: whatever the state of the module, the answers
    of the system and the messages that arrive, [ApiMac_init] does not return,
    because it ends the program unless the version request counts two messages;
    on a working interface that was created before it ends there. *)
Theorem mac_init_never_completes fuel ackfuel o now prim0 cfg0 enableFH s :
  (forall b s', ApiMac_init fuel ackfuel o now prim0 cfg0 enableFH s <> Ret (b, s')) /\
  (initialMacInit s = false -> ready (mi (mac_if s)) ->
   ApiMac_init fuel ackfuel o now prim0 cfg0 enableFH s = Undef Fatal).
Proof.
  split.
  - intros b s' E. unfold ApiMac_init in E. apply M_bind_inv in E as (s0 & s1 & _ & E).
    apply M_bind_inv in E as (sem & s2 & _ & E). apply M_bind_inv in E as ([r v] & s3 & Ev & E).
    unfold on_io, on_lif, zoom in Ev. apply bind_Ret_inv in Ev as ([x l] & Ev & [= -> _]).
    apply bind_Ret_inv in Ev as ([x' m] & Ev & [= -> _]). apply version_result in Ev as [Hr _].
    apply M_bind_inv in E as ([] & s4 & _ & E).
    by destruct Hr as [-> | ->].
  - intros Hi Hr. unfold ApiMac_init. run_get. rewrite Hi.
    run_step (eq_refl (@Ret (option bool * mac) (None, s))).
    assert (exists s1, on_io (MT_MSG_getVersion fuel ackfuel true) s = Ret ((1, Some version_zero), s1)) as [s1 E].
    { eexists. unfold on_io, on_lif, zoom. rewrite (getVersion_run fuel ackfuel true _ Hr). reflexivity. }
    run_step E. by run_modify.
Qed.

(** ** Instances *)

Definition demo_rx (c0 c1 : Z) (n : option positive) : mt_msg :=
  MkMsg 0 (Some uart_iface) None T_areq false 0 c0 c1 0 false 5 5 IOBUF_SIZE [] None n.

(** A data indication and a reset indication on the list. *)
Definition demo_reset : mif :=
  set_rx_list (put 1%positive (demo_rx 0x42 0x85 (Some 2%positive))
                 (put 2%positive (demo_rx 0x41 0x80 None) (bumped (bumped (mif_init uart_iface demo_world)))))
    (Some 1%positive).

Lemma demo_reset_ready : ready demo_reset.
Proof.
  constructor; [by_eval|by_eval| |by left]. intros p Hp. cbn in Hp. cbn.
  rewrite !lookup_insert_ne by lia. apply lookup_empty.
Qed.

Lemma demo_reset_list : list_inv demo_reset [1%positive; 2%positive].
Proof.
  constructor.
  - split; [done|]. eexists. split; [reflexivity|]. split; [done|]. eexists. by split; [reflexivity|].
  - apply (bool_decide_unpack (NoDup [1%positive; 2%positive])). vm_compute. exact I.
Qed.

Lemma mac_reset_waits_for_indication_witness :
  exists s', resetCoPDevice 1 1 demo_reset = Ret (tt, s') /\ list_inv s' [] /\
    heap s' = foldr delete (heap demo_reset) [2%positive; 1%positive] /\
    wire s' = wire demo_reset ++ [mt_frame (cfg demo_reset) 0x41 0x00 [1]].
Proof.
  apply (proj1 (mac_reset_waits_for_indication 1 1 demo_reset [1%positive; 2%positive]
                  demo_reset_ready demo_reset_list) [1%positive] 2%positive []).
  - reflexivity.
  - cbn. lia.
  - constructor; [|constructor]. eexists. split; [reflexivity|]. by split.
  - eexists. split; [reflexivity|]. by split.
Defined.

Definition demo_mac : mac :=
  MkMac (MkLif (mif_init uart_iface demo_world) false None (fun _ => false) []
           (MkTimeouts 0 0 0 0 0 0) None false) false version_zero (MkRand 0 0).

Lemma mac_chosen_addr_valid_witness :
  exists a s', choose_addr 7 (replicate 8 0xff) (replicate 8 0xff) demo_mac = Ret (a, s') /\
    zlen a = 8 /\ is_bad_addr a = false.
Proof.
  destruct (mac_chosen_addr_valid 7 (replicate 8 0xff) (replicate 8 0xff) demo_mac eq_refl eq_refl)
    as (a & s' & E & Hl & Hb & _).
  exists a, s'. split; [exact E|]. split; [exact Hl|exact Hb].
Defined.

End ApiMacInit.
