(* ===== verification/CStr.v ===== *)
(** * C strings

    Strings of the C library as the modelled code uses them: a string in memory
    is the bytes from an offset to the first zero, and reading one that does not
    end is out of bounds.  [strtol] and its relatives are modelled on the bytes
    of a string; a decimal numeral is read back as the number it was printed
    from. *)

From Stdlib Require Import ZArith Lia String Ascii.
From stdpp Require Import base list option numbers.
From S2P Require Import Prelude.

Open Scope Z_scope.

(** A string literal as a list of bytes. *)
Definition str (s : string) : list Z :=
  map (fun a => Z.of_N (Ascii.N_of_ascii a)) (String.list_ascii_of_string s).

Module CStr.

(** ** Strings in memory *)

Definition byte (mem : list Z) (off : Z) : outcome Z :=
  d ← mem_read mem off 1;
  match d with b :: _ => Ret b | [] => Undef OutOfBounds end.

(** The bytes up to the first zero. *)
Fixpoint until_zero (l : list Z) : option (list Z) :=
  match l with
  | [] => None
  | b :: l => if b =? 0 then Some [] else cons b <$> until_zero l
  end.

Definition cstr (mem : list Z) (off : Z) : outcome (list Z) :=
  if 0 <=? off then
    match until_zero (drop (Z.to_nat off) mem) with
    | Some s => Ret s
    | None => Undef OutOfBounds
    end
  else Undef OutOfBounds.

Definition strlen (mem : list Z) (off : Z) : outcome Z := s ← cstr mem off; Ret (zlen s).

(** Position of a character, from the left and from the right. *)
Fixpoint strchr (c : Z) (s : list Z) : option nat :=
  match s with
  | [] => None
  | b :: s => if b =? c then Some O else S <$> strchr c s
  end.
Fixpoint strrchr (c : Z) (s : list Z) : option nat :=
  match s with
  | [] => None
  | b :: s => match strrchr c s with
              | Some n => Some (S n)
              | None => if b =? c then Some O else None
              end
  end.

Definition no_zero (s : list Z) : Prop := Forall (fun b => b <> 0) s.

Lemma until_zero_app s rest : no_zero s -> until_zero (s ++ 0 :: rest) = Some s.
Proof.
  induction 1 as [|b s Hb _ IH]; [done|]. cbn [app until_zero].
  rewrite (proj2 (Z.eqb_neq b 0)) by done. by rewrite IH.
Qed.

(** The string behind a prefix. *)
Lemma cstr_at pre s rest : no_zero s -> cstr (pre ++ s ++ 0 :: rest) (zlen pre) = Ret s.
Proof.
  intros Hs. unfold cstr. rewrite (proj2 (Z.leb_le 0 _)) by apply zlen_nonneg.
  unfold zlen. rewrite Nat2Z.id, drop_app_length, until_zero_app by done. done.
Qed.

Lemma strlen_at pre s rest : no_zero s -> strlen (pre ++ s ++ 0 :: rest) (zlen pre) = Ret (zlen s).
Proof. intros Hs. unfold strlen. by rewrite cstr_at. Qed.

Lemma byte_at pre b rest : byte (pre ++ b :: rest) (zlen pre) = Ret b.
Proof.
  unfold byte. rewrite mem_read_ok by (rewrite ?zlen_app; unfold zlen; cbn; lia).
  unfold slice, zlen. by rewrite Nat2Z.id, drop_app_length.
Qed.

Lemma strchr_at c a b : Forall (fun x => x <> c) a -> strchr c (a ++ c :: b) = Some (length a).
Proof.
  induction 1 as [|x a Hx _ IH]; cbn [app strchr]; [by rewrite Z.eqb_refl|].
  rewrite (proj2 (Z.eqb_neq x c)) by done. by rewrite IH.
Qed.

Lemma strchr_none c a : Forall (fun x => x <> c) a -> strchr c a = None.
Proof.
  induction 1 as [|x a Hx _ IH]; [done|]. cbn. by rewrite (proj2 (Z.eqb_neq x c)), IH.
Qed.

Lemma strrchr_none c a : Forall (fun x => x <> c) a -> strrchr c a = None.
Proof.
  induction 1 as [|x a Hx _ IH]; [done|]. cbn. by rewrite IH, (proj2 (Z.eqb_neq x c)).
Qed.

Lemma strrchr_at c a b : Forall (fun x => x <> c) b -> strrchr c (a ++ c :: b) = Some (length a).
Proof.
  intros Hb. induction a as [|x a IH]; cbn [app strrchr length].
  - by rewrite strrchr_none, Z.eqb_refl.
  - by rewrite IH.
Qed.

(** ** Numbers *)

Definition is_space (c : Z) : bool := (c =? 32) || ((9 <=? c) && (c <=? 13)).

(** The value of a digit in the largest base used. *)
Definition digit (c : Z) : option Z :=
  if (48 <=? c) && (c <=? 57) then Some (c - 48)
  else if (97 <=? c) && (c <=? 102) then Some (c - 87)
  else if (65 <=? c) && (c <=? 70) then Some (c - 55)
  else None.

Definition digit_in (base c : Z) : option Z :=
  match digit c with
  | Some v => if v <? base then Some v else None
  | None => None
  end.

(** The digits in front: value and number of digits. *)
Fixpoint digits (base : Z) (v : Z) (s : list Z) : Z * nat :=
  match s with
  | [] => (v, O)
  | c :: s =>
      match digit_in base c with
      | Some d => let '(v, n) := digits base (v * base + d) s in (v, S n)
      | None => (v, O)
      end
  end.

(** Digits with their prefix: base 0 looks at the prefix.  A prefix [0x] without a
    digit behind it is the number zero. *)
Definition scan_digits (base : Z) (s : list Z) : Z * nat :=
  let hex := match s with
             | z :: x :: h :: _ => (z =? 48) && ((x =? 120) || (x =? 88)) && bool_decide (is_Some (digit_in 16 h))
             | _ => false
             end in
  if (base =? 0) && hex then let '(v, n) := digits 16 0 (drop 2 s) in (v, S (S n))
  else
    let b := if base =? 0 then match s with z :: _ => if z =? 48 then 8 else 10 | [] => 10 end else base in
    digits b 0 s.

Fixpoint skip_spaces (s : list Z) : nat :=
  match s with
  | c :: s => if is_space c then S (skip_spaces s) else O
  | [] => O
  end.

(** Sign, magnitude and number of bytes used, zero of them without a digit. *)
Definition scan_number (base : Z) (s : list Z) : bool * Z * nat :=
  let k := skip_spaces s in
  let s1 := drop k s in
  let '(neg, j) := match s1 with
                   | c :: _ => if c =? 45 then (true, 1%nat) else if c =? 43 then (false, 1%nat) else (false, O)
                   | [] => (false, O)
                   end in
  let '(v, n) := scan_digits base (drop j s1) in
  if (n =? 0)%nat then (false, 0, O) else (neg, v, (k + j + n)%nat).

(** The result and where the conversion stopped; out of range values saturate. *)
Definition strtoll (base : Z) (s : list Z) : Z * nat :=
  let '(neg, v, n) := scan_number base s in
  let x := if (neg : bool) then - v else v in
  (Z.max (- 2 ^ 63) (Z.min (2 ^ 63 - 1) x), n).
Definition strtol := strtoll.      (* [long] has 64 bits *)
Definition strtoull (base : Z) (s : list Z) : Z * nat :=
  let '(neg, v, n) := scan_number base s in
  (if 2 ^ 64 - 1 <? v then 2 ^ 64 - 1 else if (neg : bool) then u64 (- v) else v, n).

(** ** Printing numbers *)

Fixpoint dec_digits (fuel : nat) (n : Z) : list Z :=
  match fuel with
  | O => []
  | S fuel => if n <? 10 then [48 + n] else dec_digits fuel (n / 10) ++ [48 + n mod 10]
  end.
Definition print_nat (n : Z) : list Z := dec_digits (S (Z.to_nat (Z.log2 n))) n.
Definition print_int (n : Z) : list Z := if n <? 0 then 45 :: print_nat (- n) else print_nat n.

Definition dec_char (c : Z) : Prop := 48 <= c <= 57.

Lemma digit_dec c base : dec_char c -> base = 8 \/ base = 10 -> c - 48 < base -> digit_in base c = Some (c - 48).
Proof.
  unfold dec_char, digit_in, digit. intros Hc Hb Hl.
  rewrite (proj2 (Z.leb_le 48 c)), (proj2 (Z.leb_le c 57)) by lia. cbn [andb].
  by rewrite (proj2 (Z.ltb_lt _ _)).
Qed.

Lemma digits_app s : forall v r, Forall dec_char s ->
  digits 10 v (s ++ r) = let '(v1, n) := digits 10 v s in let '(v2, m) := digits 10 v1 r in (v2, (n + m)%nat).
Proof.
  induction s as [|c s IH]; intros v r Hs; [cbn; by destruct (digits 10 v r)|].
  apply Forall_cons_iff in Hs as [Hc Hs]. cbn [app digits].
  rewrite (digit_dec c 10) by (unfold dec_char in *; lia || auto). rewrite IH by done.
  destruct (digits 10 (v * 10 + (c - 48)) s) as [v1 n]. by destruct (digits 10 v1 r).
Qed.

Lemma dec_digits_ok fuel : forall n,
  0 <= n < 2 ^ Z.of_nat fuel ->
  Forall dec_char (dec_digits fuel n) /\ digits 10 0 (dec_digits fuel n) = (n, length (dec_digits fuel n)).
Proof.
  induction fuel as [|fuel IH]; intros n Hn; [change (2 ^ Z.of_nat 0) with 1 in Hn; by replace n with 0 by lia|].
  cbn [dec_digits]. rewrite Nat2Z.inj_succ, Z.pow_succ_r in Hn by lia. destruct (Z.ltb_spec n 10).
  - split; [repeat constructor; lia|]. cbn [digits].
    rewrite (digit_dec _ 10) by (unfold dec_char; lia || auto). cbn. f_equal. lia.
  - assert (0 <= n / 10 < 2 ^ Z.of_nat fuel) as Hq by (Z.to_euclidean_division_equations; lia).
    assert (0 <= n mod 10 < 10) as Hm by (apply Z.mod_pos_bound; lia).
    destruct (IH _ Hq) as [H1 H2]. split; [apply Forall_app; split; [done|repeat constructor; lia]|].
    rewrite digits_app, H2 by done. cbn [digits].
    rewrite (digit_dec _ 10) by (unfold dec_char; lia || auto). rewrite length_app. cbn [length].
    f_equal. rewrite (Z.div_mod n 10) at 3 by lia. lia.
Qed.

Lemma print_nat_fuel n : 0 <= n -> 0 <= n < 2 ^ Z.of_nat (S (Z.to_nat (Z.log2 n))).
Proof.
  intros Hn. split; [done|]. rewrite Nat2Z.inj_succ, Z2Nat.id by apply Z.log2_nonneg.
  destruct (decide (n = 0)) as [->|]; [done|]. apply Z.log2_spec. lia.
Qed.

Lemma dec_digits_head fuel : forall n, 0 < n < 2 ^ Z.of_nat fuel ->
  exists c r, dec_digits fuel n = c :: r /\ 49 <= c <= 57.
Proof.
  induction fuel as [|fuel IH]; intros n Hn; [change (2 ^ Z.of_nat 0) with 1 in Hn; lia|].
  cbn [dec_digits]. rewrite Nat2Z.inj_succ, Z.pow_succ_r in Hn by lia. destruct (Z.ltb_spec n 10).
  - exists (48 + n), []. split; [done|lia].
  - destruct (IH (n / 10)) as (c & r & -> & Hc); [Z.to_euclidean_division_equations; lia|]. by eexists _, _.
Qed.

(** A printed number is followed by something that is not part of a number. *)
Definition ends_number (rest : list Z) : Prop :=
  match rest with [] => True | c :: _ => digit c = None /\ c <> 120 /\ c <> 88 end.

Lemma digits_stop base v rest : ends_number rest -> digits base v rest = (v, O).
Proof. destruct rest as [|c rest]; [done|]. intros [H _]. cbn. unfold digit_in. by rewrite H. Qed.

Lemma scan_zero base rest :
  base = 0 \/ base = 10 -> ends_number rest -> scan_digits base (48 :: rest) = (0, 1%nat).
Proof.
  intros Hb Hr. unfold scan_digits. destruct rest as [|x rest]; [by destruct Hb as [-> | ->]|].
  destruct Hr as (Hx & H1 & H2).
  assert (forall b, digit_in b x = None) as Eb by (intros b; unfold digit_in; by rewrite Hx).
  assert ((48 =? 48) && ((x =? 120) || (x =? 88)) = false) as Ex
    by (by rewrite (proj2 (Z.eqb_neq _ _) H1), (proj2 (Z.eqb_neq _ _) H2)).
  replace (_ && _) with false; [|destruct rest; [by rewrite andb_false_r|by rewrite Ex, andb_false_r]].
  destruct Hb as [-> | ->]; change (48 =? 48) with true; cbn [Z.eqb digits];
    (rewrite digit_dec by (unfold dec_char; lia || auto)); by rewrite Eb.
Qed.

(** The digits of a number, with the base found or given. *)
Lemma scan_print_nat base n rest :
  base = 0 \/ base = 10 -> 0 <= n -> ends_number rest ->
  scan_digits base (print_nat n ++ rest) = (n, length (print_nat n)) /\
  exists c r, print_nat n = c :: r /\ dec_char c.
Proof.
  intros Hb Hn Hr. pose proof (print_nat_fuel n Hn) as Hf. unfold print_nat in *.
  set (fuel := S (Z.to_nat (Z.log2 n))) in *. destruct (dec_digits_ok fuel n Hf) as [Hd Hv].
  assert (digits 10 0 (dec_digits fuel n ++ rest) = (n, length (dec_digits fuel n))) as H10.
  { rewrite digits_app, Hv by done. rewrite digits_stop by done. by rewrite Nat.add_0_r. }
  destruct (decide (n = 0)) as [->|H0].
  { change (dec_digits fuel 0) with [48]. split; [by apply scan_zero|].
    exists 48, []. split; [done|unfold dec_char; lia]. }
  destruct (dec_digits_head fuel n) as (c & r & Ec & Hc); [lia|]. rewrite Ec in *.
  split; [|exists c, r; split; [done|unfold dec_char; lia]]. unfold scan_digits.
  assert ((c =? 48) = false) as Ec48 by (apply Z.eqb_neq; lia).
  destruct Hb as [-> | ->]; [|by destruct (r ++ rest) as [|? [|? ?]]]. cbn [app].
  destruct (r ++ rest) as [|x [|h l]] eqn:El; cbn [app] in *; rewrite ?El in *; rewrite Ec48; cbn [andb]; done.
Qed.

(** A number is read back. *)
Lemma scan_print_int base n rest :
  base = 0 \/ base = 10 -> ends_number rest ->
  scan_number base (print_int n ++ rest) = (n <? 0, Z.abs n, length (print_int n)).
Proof.
  intros Hb Hr. unfold scan_number, print_int.
  destruct (scan_print_nat base (Z.abs n) rest Hb ltac:(lia) Hr) as [E (c & r & Ec & Hc)].
  unfold dec_char in Hc. destruct (Z.ltb_spec n 0).
  - replace (- n) with (Z.abs n) by lia. change (skip_spaces ((45 :: print_nat (Z.abs n)) ++ rest)) with 0%nat.
    rewrite drop_0. change ((45 :: ?a) ++ rest) with (45 :: a ++ rest). cbn [app Z.eqb Pos.eqb].
    change (drop 1 (45 :: print_nat (Z.abs n) ++ rest)) with (print_nat (Z.abs n) ++ rest).
    rewrite E, Ec. done.
  - rewrite Z.abs_eq in * by lia. rewrite Ec in *. cbn [app skip_spaces].
    replace (is_space c) with false
      by (symmetry; unfold is_space; apply orb_false_iff; split; [apply Z.eqb_neq; lia|apply andb_false_iff; right; apply Z.leb_gt; lia]).
    rewrite drop_0. rewrite (proj2 (Z.eqb_neq c 45)), (proj2 (Z.eqb_neq c 43)) by lia.
    rewrite !drop_0. cbn [app] in E. by rewrite E.
Qed.

Lemma strtoll_print base n rest :
  base = 0 \/ base = 10 -> ends_number rest -> - 2 ^ 63 <= n < 2 ^ 63 ->
  strtoll base (print_int n ++ rest) = (n, length (print_int n)).
Proof.
  intros Hb Hr Hn. unfold strtoll. rewrite scan_print_int by done. f_equal.
  destruct (Z.ltb_spec n 0); lia.
Qed.

Lemma strtoull_print base n rest :
  base = 0 \/ base = 10 -> ends_number rest -> 0 <= n < 2 ^ 64 ->
  strtoull base (print_int n ++ rest) = (n, length (print_int n)).
Proof.
  intros Hb Hr Hn. unfold strtoull. rewrite scan_print_int by done. f_equal.
  rewrite (proj2 (Z.ltb_ge (2 ^ 64 - 1) _)), (proj2 (Z.ltb_ge n 0)) by lia. lia.
Qed.

(** Evaluating comparisons of concrete strings. *)
Ltac eval_strings :=
  repeat match goal with
         | |- context [bool_decide (@eq (list Z) ?a ?b)] =>
             let r := eval vm_compute in (bool_decide (a = b)) in
             match r with true => idtac | false => idtac end;
             change (bool_decide (a = b)) with r
         end; cbn [mbind outcome_bind].

End CStr.
