(* ===== verification/IoStream.v ===== *)
(** * Streams (gateway_common/src/stream_common.c, stream_mem.c, stream_file.c)

    A stream is a structure [io_stream] with a table of functions of its back
    end.  The table is the class [io_stream_funcs] over the state of the back
    end; the functions of stream_common.c are defined for every instance, with
    the one byte of push-back they keep themselves.  The memory and file back
    ends are instances.  [Source] says what the reading functions rely on; the
    theorems about lines are proved against it. *)

From Stdlib Require Import ZArith Lia String Ascii.
From stdpp Require Import base list option numbers.
From S2P Require Import Prelude CStr.

Open Scope Z_scope.

Module IoStream.

(** The structure behind a handle: in use, cleared (its check value is gone, so
    it is not taken for a stream, as the null handle is not) or freed. *)
Inductive life : Type := Live | Cleared | Freed.

(** [struct io_stream_funcs].  A read gives its result and the bytes it stored;
    a function pointer that may be null is an option. *)
Class io_stream_funcs (D : Type) : Type := {
  close_fn : D -> outcome (life * D);
  wr_fn : list Z -> Z -> D -> outcome (Z * D);
  rd_fn : Z -> Z -> D -> outcome (Z * list Z * D);
  poll_fn : Z -> D -> outcome (bool * D);
  flush_fn : D -> outcome (Z * D);
  clear_fn : option (D -> outcome (unit * D))
}.

Record io_stream (D : Type) : Type := MkIo {
  check_ptr : life;
  opaque_ptr : D;
  unget_buf : Z;
  is_error : bool
}.
Arguments MkIo {D} _ _ _ _.
Arguments check_ptr {D} _.
Arguments opaque_ptr {D} _.
Arguments unget_buf {D} _.
Arguments is_error {D} _.

Definition EOF : Z := -1.
Definition CR : Z := 13.
Definition LF : Z := 10.

Section Common.
Context {D : Type} `{io_stream_funcs D}.

Abbreviation IO := (M (io_stream D)).

Definition set_unget (c : Z) : IO unit :=
  modify (fun p => MkIo (check_ptr p) (opaque_ptr p) c (is_error p)).
Definition set_error (e : bool) : IO unit :=
  modify (fun p => MkIo (check_ptr p) (opaque_ptr p) (unget_buf p) e).

(** A function of the back end. *)
Definition on_dev {A} (f : D -> outcome (A * D)) : IO A := fun p =>
  '(a, d) ← f (opaque_ptr p); Ret (a, MkIo (check_ptr p) d (unget_buf p) (is_error p)).

(** [calloc] as an argument: does it succeed? *)
Definition STREAM_createPrivate (mem : bool) (opaque : D) : option (io_stream D) :=
  if mem then Some (MkIo Live opaque 0 false) else None.

(** Is the handle that of a stream? *)
Definition STREAM_hToStruct : IO bool := fun p =>
  match check_ptr p with
  | Live => Ret (true, p)
  | Cleared => Ret (false, p)
  | Freed => Undef Dangling
  end.

Definition STREAM_isError : IO bool :=
  ok ← STREAM_hToStruct;
  p ← get;
  mret (if (ok : bool) then is_error p else true).

Definition STREAM_wrBytes (databytes : list Z) (timeout_mSecs : Z) : IO Z :=
  ok ← STREAM_hToStruct;
  if negb ok then mret (-1) else on_dev (wr_fn databytes timeout_mSecs).

(** The result and the bytes stored. *)
Definition STREAM_rdBytes (nbytes timeout_mSecs : Z) : IO (Z * list Z) :=
  if nbytes =? 0 then mret (0, [])
  else
    ok ← STREAM_hToStruct;
    if negb ok then mret (-1, [])
    else
      p ← get;
      if unget_buf p =? 0 then on_dev (rd_fn nbytes timeout_mSecs)
      else
        let b := Z.land (unget_buf p) 0x0ff in
        set_unget 0;;
        if nbytes - 1 =? 0 then mret (1, [b])
        else
          '(r, bs) ← on_dev (rd_fn (nbytes - 1) timeout_mSecs);
          if 0 <=? r then mret (int32 (r + 1), b :: bs) else mret (1, b :: bs).

(** [text] is what [vsnprintf] formats, [None] when that fails. *)
Definition STREAM_vprintf (text : option (list Z)) : IO Z :=
  match text with
  | None => mret (-1)
  | Some t =>
      let buf := take 1023 t ++ [0] in
      let r := int32 (zlen t) in
      if r <=? 0 then mret r
      else
        let r := if 1024 <? r then 1024 else r in
        d ← lift (mem_read buf 0 r);
        STREAM_wrBytes d (-1)
  end.
Definition STREAM_printf (text : option (list Z)) : IO Z := STREAM_vprintf text.

Definition STREAM_fputc (c : Z) : IO Z :=
  r ← STREAM_wrBytes [u8 c] (-1);
  mret (if r =? 1 then Z.land c 0x0ff else EOF).

Definition STREAM_ungetc (c : Z) : IO Z :=
  ok ← STREAM_hToStruct;
  if negb ok then mret (-1)
  else set_unget (Z.lor (Z.land c 0x0ff) 0x0100);; mret 0.

Definition STREAM_fgetc : IO Z :=
  ok ← STREAM_hToStruct;
  if negb ok then mret (-1)
  else
    p ← get;
    if negb (unget_buf p =? 0) then
      set_unget 0;; mret (Z.land (unget_buf p) 0x0ff)
    else
      '(r, bs) ← STREAM_rdBytes 1 (-1);
      if 0 <? r then
        match bs with
        | b :: _ => mret (Z.land b 0x0ff)
        | [] => undefined Uninitialised
        end
      else if r =? 0 then mret EOF
      else set_error true;; mret EOF.

(** The loop of [STREAM_fgets] with room for [k] more bytes: the last character,
    the number of bytes stored, the buffer. *)
Fixpoint fgets_loop (k : nat) (n c : Z) (buf : list Z) : IO (Z * Z * list Z) :=
  match k with
  | O => mret (c, n, buf)
  | S k =>
      c ← STREAM_fgetc;
      if c <? 0 then mret (c, n, buf)
      else
        buf ← lift (mem_write buf (n + 1) [0]);
        buf ← lift (mem_write buf (n + 0) [Z.land c 0x0ff]);
        if (c =? LF) || (c =? CR) then mret (c, n + 1, buf)
        else fgets_loop k (n + 1) c buf
  end.

(** What [STREAM_fgets] does after a carriage return. *)
Definition fgets_cr (size c n : Z) (buf : list Z) : IO (Z * list Z) :=
  if c =? CR then
    c ← STREAM_fgetc;
    if c <? 0 then mret (n, buf)
    else if negb (c =? LF) then STREAM_ungetc c;; mret (n, buf)
    else if size <=? n then mret (n, buf)
    else
      buf ← lift (mem_write buf (n + 0) [c]);
      buf ← lift (mem_write buf (n + 1) [0]);
      mret (n + 1, buf)
  else mret (n, buf).

(** Is the result not null, and the buffer. *)
Definition STREAM_fgets (buf : list Z) (size : Z) : IO (bool * list Z) :=
  buf ← lift (mem_write buf 0 [0]);
  buf ← lift (mem_write buf (size - 1) [0]);
  let size := size - 1 in
  '(c, n, buf) ← fgets_loop (Z.to_nat size) 0 0 buf;
  '(n, buf) ← fgets_cr size c n buf;
  mret (negb (n =? 0), buf).

Definition STREAM_fputs (s : list Z) : IO Z := STREAM_wrBytes s (-1).

Definition STREAM_rxAvail (timeout_mSec : Z) : IO Z :=
  ok ← STREAM_hToStruct;
  if negb ok then mret 0
  else
    p ← get;
    if negb (unget_buf p =? 0) then mret 1
    else b ← on_dev (poll_fn timeout_mSec); mret (if (b : bool) then 1 else 0).

Definition STREAM_flush : IO Z :=
  ok ← STREAM_hToStruct;
  if negb ok then mret (-1) else on_dev flush_fn.

Definition STREAM_close : IO unit :=
  ok ← STREAM_hToStruct;
  if negb ok then mret tt
  else
    l ← on_dev close_fn;
    modify (fun p => match l with
                     | Live => p
                     | _ => MkIo l (opaque_ptr p) 0 false
                     end).

Definition STREAM_clearErrors : IO unit :=
  ok ← STREAM_hToStruct;
  if negb ok then mret tt
  else
    match clear_fn with
    | Some f => on_dev f;; set_error false
    | None => undefined NullPointer
    end.

(** [expired] holds the answers of the timer, an exhausted list says yes;
    [BUG_HERE] expands to nothing. *)
Fixpoint rdDump_loop (fuel : nat) (total : Z) (expired : list bool) : IO unit :=
  match fuel with
  | O => out_of_fuel
  | S fuel =>
      '(r, _) ← STREAM_rdBytes 256 0;
      if 0 <? r then
        if 2 ^ 31 <=? total + r then undefined SignedOverflow
        else rdDump_loop fuel (total + r) expired
      else if r <? 0 then mret tt
      else
        match expired with
        | false :: e => rdDump_loop fuel total e
        | _ => mret tt
        end
  end.
Definition STREAM_rdDump (fuel : nat) (expired : list bool) : IO unit :=
  rdDump_loop fuel 0 expired.

End Common.

(** ** Memory streams *)

Record mem_stream_details : Type := MkMem {
  is_wr : bool;
  is_rd : bool;
  pBytes : list Z;
  alloc : bool;
  cursor : Z;
  bufsiz : Z
}.

Definition with_bytes (m : mem_stream_details) (b : list Z) (c : Z) : mem_stream_details :=
  MkMem (is_wr m) (is_rd m) b (alloc m) c (bufsiz m).

(** [getM] gives [None] when the check value is not that of a memory stream. *)
Abbreviation mem_dev := (option mem_stream_details).

Definition mem_close (d : mem_dev) : outcome (life * mem_dev) :=
  match d with
  | Some m => Ret (Cleared, None)
  | None => Ret (Live, d)
  end.

Definition mem_wr (bs : list Z) (timeout_mSecs : Z) (d : mem_dev) : outcome (Z * mem_dev) :=
  match d with
  | None => Ret (-1, d)
  | Some m =>
      if negb (is_wr m) then Ret (-1, d)
      else
        let space := u64 (bufsiz m - cursor m) in
        let nbytes := if space <? zlen bs then space else zlen bs in
        if nbytes =? 0 then Ret (int32 nbytes, d)
        else
          b ← mem_write (pBytes m) (cursor m) (take (Z.to_nat nbytes) bs);
          Ret (int32 nbytes, Some (with_bytes m b (u64 (cursor m + nbytes))))
  end.

Definition mem_rd (nbytes timeout_mSecs : Z) (d : mem_dev) : outcome (Z * list Z * mem_dev) :=
  match d with
  | None => Ret (-1, [], d)
  | Some m =>
      if negb (is_rd m) then Ret (-1, [], d)
      else
        let avail := u64 (bufsiz m - cursor m) in
        let nbytes := if avail <? nbytes then avail else nbytes in
        if nbytes =? 0 then Ret (int32 nbytes, [], d)
        else
          bs ← mem_read (pBytes m) (cursor m) nbytes;
          Ret (int32 nbytes, bs, Some (with_bytes m (pBytes m) (u64 (cursor m + nbytes))))
  end.

Definition mem_poll (timeout_mSec : Z) (d : mem_dev) : outcome (bool * mem_dev) :=
  match d with
  | None => Ret (true, d)      (* -1 converted to bool *)
  | Some m => Ret (is_rd m && (cursor m <? bufsiz m), d)
  end.

Definition mem_flush (d : mem_dev) : outcome (Z * mem_dev) := Ret (0, d).

#[export] Instance mem_funcs : io_stream_funcs mem_dev := {|
  close_fn := mem_close;
  wr_fn := mem_wr;
  rd_fn := mem_rd;
  poll_fn := mem_poll;
  flush_fn := mem_flush;
  clear_fn := None
|}.

Arguments mem_rd : simpl never.
Arguments mem_wr : simpl never.

(** The answers of the three allocations are arguments; a null [bytes] asks for
    a buffer of its own. *)
Definition _mem_create (mem1 mem2 mem3 : bool) (bytes : option (list Z)) (nbytes : Z) (wr rd : bool)
  : option (io_stream mem_dev) :=
  if negb mem1 then None
  else
    let '(b, own) := match bytes with
                     | Some b => (Some b, false)
                     | None => (if mem2 then Some (replicate (Z.to_nat (nbytes + 1)) 0) else None, true)
                     end in
    match b with
    | None => None
    | Some b => STREAM_createPrivate mem3 (Some (MkMem wr rd b own 0 nbytes))
    end.

(** [s] is the string without its terminating zero. *)
Definition STREAM_stringCreate (mem1 mem3 : bool) (s : list Z) : option (io_stream mem_dev) :=
  _mem_create mem1 true mem3 (Some (s ++ [0])) (zlen s) false true.
Definition STREAM_memCreate (mem1 mem2 mem3 : bool) (bytes : option (list Z)) (nbytes : Z)
  : option (io_stream mem_dev) :=
  _mem_create mem1 mem2 mem3 bytes nbytes true true.

(** ** File streams *)

(** What the code sees of a [FILE]: the bytes not yet read, the bytes written and
    how many more it takes, the flags of [feof] and [ferror], and whether its
    descriptor polls as readable. *)
Record FILE : Type := MkFile {
  f_rest : list Z;
  f_out : list Z;
  f_room : Z;
  f_eof : bool;
  f_err : bool;
  f_ready : bool
}.
(** A null pointer after the stream was closed. *)
Abbreviation file_dev := (option FILE).

Definition fread (n : Z) (f : FILE) : list Z * FILE :=
  let got := take (Z.to_nat n) (f_rest f) in
  (got, MkFile (drop (Z.to_nat n) (f_rest f)) (f_out f) (f_room f)
          (f_eof f || (zlen got <? n)) (f_err f) (f_ready f)).
Definition fwrite (bs : list Z) (f : FILE) : Z * FILE :=
  let k := Z.min (zlen bs) (f_room f) in
  (k, MkFile (f_rest f) (f_out f ++ take (Z.to_nat k) bs) (f_room f - k)
        (f_eof f) (f_err f || (k <? zlen bs)) (f_ready f)).

Definition _file_close_fn (d : file_dev) : outcome (life * file_dev) := Ret (Freed, None).

Definition _file_wr_fn (bs : list Z) (timeout_mSecs : Z) (d : file_dev) : outcome (Z * file_dev) :=
  match d with
  | Some fp =>
      let '(r, fp) := fwrite bs fp in
      Ret (if negb (r =? zlen bs) then -1 else int32 (zlen bs), Some fp)
  | None => Ret (-1, d)
  end.

Definition _file_rd_fn (n timeout_mSecs : Z) (d : file_dev) : outcome (Z * list Z * file_dev) :=
  match d with
  | Some fp =>
      let '(got, fp) := fread n fp in
      Ret (if zlen got =? n then int32 n else -1, got, Some fp)
  | None => Ret (-1, [], d)
  end.

Definition _file_poll_rx_avail (timeout_mSec : Z) (d : file_dev) : outcome (bool * file_dev) :=
  match d with
  | Some fp => Ret (if f_eof fp || f_err fp then false else f_ready fp, d)
  | None => Ret (false, d)
  end.

Definition _file_flush_fn (d : file_dev) : outcome (Z * file_dev) :=
  match d with
  | Some fp => Ret (if f_err fp then -1 else 0, d)
  | None => Ret (-1, d)
  end.

#[export] Instance _file_funcs : io_stream_funcs file_dev := {|
  close_fn := _file_close_fn;
  wr_fn := _file_wr_fn;
  rd_fn := _file_rd_fn;
  poll_fn := _file_poll_rx_avail;
  flush_fn := _file_flush_fn;
  clear_fn := None
|}.

Inductive std_file : Type := Std_out | Std_in | Std_err.

Definition is_dev_std (fn : list Z) : option std_file :=
  if decide (fn = str "/dev/stdout") then Some Std_out
  else if decide (fn = str "/dev/stdin") then Some Std_in
  else if decide (fn = str "/dev/stderr") then Some Std_err
  else None.

Definition STREAM_createFpFile (mem : bool) (fp : option FILE) : option (io_stream file_dev) :=
  match fp with
  | None => None
  | Some fp => STREAM_createPrivate mem (Some fp)
  end.

Section Open.
(** The file system and the standard files. *)
Variables (fopen : list Z -> option FILE) (std : std_file -> FILE) (mem : bool).

Definition STREAM_createWrFile (filename : list Z) : option (io_stream file_dev) :=
  match is_dev_std filename with
  | Some Std_out => STREAM_createFpFile mem (Some (std Std_out))
  | Some Std_err => STREAM_createFpFile mem (Some (std Std_err))
  | _ => STREAM_createFpFile mem (fopen filename)
  end.
Definition STREAM_createRdFile (filename : list Z) : option (io_stream file_dev) :=
  match is_dev_std filename with
  | Some Std_in => STREAM_createFpFile mem (Some (std Std_in))
  | _ => STREAM_createFpFile mem (fopen filename)
  end.
End Open.

(** ** What the reading functions rely on *)

(** A back end that hands out the bytes of a text one after the other; at the
    end a read for one byte gives zero or an error. *)
Class Source (D : Type) `{io_stream_funcs D} : Type := {
  pending : D -> list Z;
  src_ok : D -> Prop;
  src_bytes d : src_ok d -> is_bytes (pending d);
  src_more d b rest :
    src_ok d -> pending d = b :: rest ->
    exists d', rd_fn 1 (-1) d = Ret (1, [b], d') /\ src_ok d' /\ pending d' = rest;
  src_end d :
    src_ok d -> pending d = [] ->
    exists r d', rd_fn 1 (-1) d = Ret (r, [], d') /\ r <= 0 /\ src_ok d' /\ pending d' = []
}.

(** The memory stream is one, ... *)
Record mem_ok (m : mem_stream_details) : Prop := MkMemOk {
  mo_rd : is_rd m = true;
  mo_cursor : 0 <= cursor m <= bufsiz m;
  mo_size : bufsiz m <= zlen (pBytes m);
  mo_small : bufsiz m < 2 ^ 31 - 1;
  mo_bytes : is_bytes (pBytes m)
}.

Definition mem_pending (m : mem_stream_details) : list Z :=
  slice (Z.to_nat (cursor m)) (Z.to_nat (bufsiz m - cursor m)) (pBytes m).

Lemma mem_pending_length m : mem_ok m -> zlen (mem_pending m) = bufsiz m - cursor m.
Proof.
  intros []. unfold mem_pending, zlen in *. rewrite length_slice; lia.
Qed.

(** Every read of a memory stream. *)
Lemma mem_rd_run m n t :
  mem_ok m -> 0 <= n ->
  let k := Z.min n (bufsiz m - cursor m) in
  mem_rd n t (Some m) =
    Ret (k, take (Z.to_nat n) (mem_pending m), Some (with_bytes m (pBytes m) (cursor m + k))) /\
  mem_ok (with_bytes m (pBytes m) (cursor m + k)) /\
  mem_pending (with_bytes m (pBytes m) (cursor m + k)) = drop (Z.to_nat n) (mem_pending m).
Proof.
  intros Hm Hn k. pose proof (mem_pending_length m Hm) as Hl. destruct Hm.
  assert (0 <= k /\ cursor m + k <= bufsiz m) as [Hk0 Hk] by lia.
  split; [|split].
  - unfold mem_rd. rewrite mo_rd0. cbn [negb]. rewrite (u64_id (bufsiz m - cursor m)) by lia.
    replace (if _ <? n then _ else n) with k; [|destruct (Z.ltb_spec (bufsiz m - cursor m) n); lia].
    destruct (Z.eqb_spec k 0) as [E|E].
    + rewrite E, Z.add_0_r. replace (with_bytes m (pBytes m) (cursor m)) with m by by destruct m.
      destruct (decide (n = 0)) as [->|]; [done|].
      destruct (mem_pending m); [by rewrite take_nil|unfold zlen in Hl; cbn in Hl; lia].
    + rewrite mem_read_ok by lia. cbn [mbind outcome_bind]. rewrite int32_id, u64_id by lia.
      do 3 f_equal. unfold mem_pending, slice. rewrite take_take. f_equal. lia.
  - constructor; cbn; try done; lia.
  - unfold mem_pending, slice. cbn [with_bytes bufsiz cursor pBytes].
    destruct (decide (n <= bufsiz m - cursor m)).
    + replace (Z.to_nat (bufsiz m - cursor m))
        with (Z.to_nat n + Z.to_nat (bufsiz m - (cursor m + k)))%nat by lia.
      rewrite <- take_drop_commute, drop_drop. do 2 f_equal. lia.
    + replace (Z.to_nat (bufsiz m - (cursor m + k))) with 0%nat by lia.
      rewrite take_0, drop_ge; [done|]. rewrite length_take. lia.
Qed.

#[export] Program Instance mem_source : Source mem_dev := {|
  pending d := from_option mem_pending [] d;
  src_ok d := exists m, d = Some m /\ mem_ok m
|}.
Next Obligation.
  intros d (m & -> & Hm). destruct Hm. apply Forall_take, Forall_drop, mo_bytes0.
Qed.
Next Obligation.
  intros d b rest (m & -> & Hm) Hp. cbn [from_option] in Hp.
  destruct (mem_rd_run m 1 (-1) Hm) as (E & Ho & Hr); [lia|].
  pose proof (mem_pending_length m Hm) as Hl. rewrite Hp in *. cbn [rd_fn mem_funcs].
  rewrite E. unfold zlen in Hl. cbn in Hl. replace (Z.min 1 _) with 1 in * by lia.
  eexists. split; [done|]. split; [by eexists|]. cbn. by rewrite Hr.
Qed.
Next Obligation.
  intros d (m & -> & Hm) Hp. cbn [from_option] in Hp.
  destruct (mem_rd_run m 1 (-1) Hm) as (E & Ho & Hr); [lia|].
  pose proof (mem_pending_length m Hm) as Hl. rewrite Hp in *. cbn [rd_fn mem_funcs].
  rewrite E. unfold zlen in Hl. cbn in Hl. eexists _, _. split; [done|].
  split; [lia|]. split; [by eexists|]. cbn. by rewrite Hr.
Qed.

(** ... and so is a file, whose end is reported as an error. *)
#[export] Program Instance file_source : Source file_dev := {|
  pending d := from_option f_rest [] d;
  src_ok d := exists f, d = Some f /\ is_bytes (f_rest f)
|}.
Next Obligation. by intros d (f & -> & H). Qed.
Next Obligation.
  intros d b rest (f & -> & Hb) Hp. cbn in Hp. cbn [rd_fn _file_funcs _file_rd_fn fread].
  rewrite Hp in *. eexists. split; [reflexivity|]. apply Forall_cons_iff in Hb as [_ Hb].
  split; [by eexists|done].
Qed.
Next Obligation.
  intros d (f & -> & Hb) Hp. cbn in Hp. cbn [rd_fn _file_funcs _file_rd_fn fread].
  rewrite Hp in *. eexists _, _. split; [reflexivity|]. split; [by vm_compute|].
  split; [by eexists|done].
Qed.

(** ** Characters and lines *)

Section Reading.
Context {D : Type} `{Source D}.

(** A stream on such a back end, and the bytes it will hand out. *)
Definition stream_ok (p : io_stream D) : Prop :=
  check_ptr p = Live /\ src_ok (opaque_ptr p) /\ 0 <= unget_buf p.
Definition stream_pending (p : io_stream D) : list Z :=
  (if unget_buf p =? 0 then [] else [Z.land (unget_buf p) 0x0ff]) ++ pending (opaque_ptr p).

Lemma stream_bytes p : stream_ok p -> is_bytes (stream_pending p).
Proof.
  intros (_ & Hs & _). unfold stream_pending. apply Forall_app. split; [|by apply src_bytes].
  case_match; [done|]. constructor; [apply land_ff_byte|done].
Qed.

Lemma fgetc_more p b rest :
  stream_ok p -> stream_pending p = b :: rest ->
  exists p', STREAM_fgetc p = Ret (b, p') /\ stream_ok p' /\ stream_pending p' = rest /\
    is_error p' = is_error p /\ unget_buf p' = 0.
Proof.
  intros Hp Hb. pose proof (stream_bytes p Hp) as Hy. rewrite Hb in Hy.
  apply Forall_cons_iff in Hy as [Hy _]. destruct p as [c d u e], Hp as (Hc & Hs & Hu).
  unfold stream_pending in Hb. cbn in *. subst c.
  unfold STREAM_fgetc, STREAM_rdBytes, STREAM_hToStruct, on_dev, set_unget, get, modify, mret, M_ret, mbind, M_bind. cbn.
  destruct (Z.eqb_spec u 0) as [->|Hne]; cbn in *.
  - destruct (src_more d b rest Hs Hb) as (d' & -> & Hs' & Hr). cbn.
    eexists. unfold is_byte in Hy. rewrite land_ff, Z.mod_small by lia. split; [reflexivity|].
    by unfold stream_ok, stream_pending.
  - injection Hb as <- Hb. eexists. split; [reflexivity|]. by unfold stream_ok, stream_pending.
Qed.

Lemma fgetc_end p :
  stream_ok p -> stream_pending p = [] ->
  exists p', STREAM_fgetc p = Ret (EOF, p') /\ stream_ok p' /\ stream_pending p' = [].
Proof.
  destruct p as [c d u e]. intros (Hc & Hs & Hu) Hb. unfold stream_pending in Hb. cbn in *. subst c.
  unfold STREAM_fgetc, STREAM_rdBytes, STREAM_hToStruct, on_dev, set_unget, set_error, get, modify, mret, M_ret, mbind, M_bind. cbn.
  destruct (Z.eqb_spec u 0) as [->|Hne]; cbn in *; [|discriminate].
  destruct (src_end d Hs Hb) as (r & d' & -> & Hr & Hs' & Hp). cbn.
  rewrite (proj2 (Z.ltb_ge 0 r)) by lia.
  destruct (r =? 0); eexists; (split; [reflexivity|]); by unfold stream_ok, stream_pending.
Qed.

Lemma ungetc_run p c :
  stream_ok p -> is_byte c -> unget_buf p = 0 ->
  exists p', STREAM_ungetc c p = Ret (0, p') /\ stream_ok p' /\
    stream_pending p' = c :: stream_pending p /\ is_error p' = is_error p.
Proof.
  destruct p as [k d u e]. intros (Hk & Hs & Hu) Hc Hz. cbn in *. subst k u.
  eexists. split; [reflexivity|]. unfold is_byte in Hc.
  assert (Z.lor (Z.land c 255) 256 = c + 256) as E.
  { rewrite land_ff, Z.mod_small by lia. change 256 with (Z.shiftl 1 8) at 1.
    rewrite lor_shiftl; [|lia|change (2 ^ 8) with 256; lia]. change (2 ^ 8) with 256. lia. }
  split; [unfold stream_ok; cbn; rewrite E; repeat split; [done|lia]|].
  unfold stream_pending. cbn. rewrite E, (proj2 (Z.eqb_neq _ 0)) by lia. split; [|done].
  rewrite land_ff. cbn [app]. f_equal. rewrite <- (Z.add_mod_idemp_r c 256), Z.mod_same, Z.add_0_r; [|lia..].
  by rewrite Z.mod_small by lia.
Qed.

(** A line as the loop of [STREAM_fgets] reads it, with room for [k] bytes, and
    what is left. *)
Fixpoint line_of (k : nat) (bs : list Z) : list Z * list Z :=
  match k, bs with
  | S k, b :: rest =>
      if (b =? LF) || (b =? CR) then ([b], rest)
      else let '(l, rest) := line_of k rest in (b :: l, rest)
  | _, _ => ([], bs)
  end.

(** The line a call returns, and what is left.  A line feed behind a carriage
    return belongs to the line, and is lost when there is no room for it. *)
Definition join_lf (room : nat) (l rest : list Z) : list Z * list Z :=
  match rest with
  | b :: rest' =>
      if bool_decide (list.last l = Some CR) && (b =? LF)
      then (if (room <=? length l)%nat then l else l ++ [LF], rest') else (l, rest)
  | [] => (l, rest)
  end.
Definition next_line (room : nat) (bs : list Z) : list Z * list Z :=
  let '(l, rest) := line_of room bs in join_lf room l rest.

Lemma fgets_loop_run k : forall n c done tail p,
  stream_ok p -> zlen done = n -> (k <= length tail)%nat -> c <> CR ->
  let '(l, rest) := line_of k (stream_pending p) in
  exists c' p',
    fgets_loop k n c (done ++ 0 :: tail) p =
      Ret ((c', n + zlen l, (done ++ l) ++ 0 :: drop (length l) tail), p') /\
    stream_ok p' /\ stream_pending p' = rest /\ (c' =? CR) = bool_decide (list.last l = Some CR).
Proof.
  induction k as [|k IH]; intros n c done tail p Hp Hn Ht Hc.
  { cbn [line_of]. exists c, p. cbn. rewrite Z.add_0_r, app_nil_r. unfold mret, M_ret.
    by rewrite (proj2 (Z.eqb_neq _ _) Hc). }
  destruct (stream_pending p) as [|b bs] eqn:Eb; cbn [line_of fgets_loop].
  { destruct (fgetc_end p Hp Eb) as (p' & E & Hp' & Hr). run_step E. exists EOF, p'.
    cbn. rewrite Z.add_0_r, app_nil_r. done. }
  destruct (fgetc_more p b bs Hp Eb) as (p1 & E & Hp1 & Hb1 & _ & Hu1). run_step E.
  pose proof (stream_bytes p Hp) as Hy. rewrite Eb in Hy. apply Forall_cons_iff in Hy as [Hy _].
  unfold is_byte in Hy. rewrite (proj2 (Z.ltb_ge _ _)) by lia.
  destruct tail as [|t tail]; [cbn in Ht; lia|].
  assert (forall q : io_stream D, lift (mem_write (done ++ 0 :: t :: tail) (n + 1) [0]) q = Ret (done ++ 0 :: 0 :: tail, q)) as W1.
  { intros q. pose proof (mem_write_mid (done ++ [0]) t tail 0) as W. rewrite <- !app_assoc in W. cbn [app] in W.
    rewrite zlen_app in W. change (zlen [0]) with 1 in W. rewrite <- Hn. unfold lift. by rewrite W. }
  assert (forall q : io_stream D, lift (mem_write (done ++ 0 :: 0 :: tail) (n + 0) [Z.land b 0x0ff]) q = Ret (done ++ b :: 0 :: tail, q)) as W2.
  { intros q. rewrite Z.add_0_r, <- Hn. unfold lift. by rewrite mem_write_mid, land_ff, Z.mod_small by lia. }
  run_step (W1 p1). run_step (W2 p1). destruct ((b =? LF) || (b =? CR)) eqn:El.
  - exists b, p1. split; [unfold mret, M_ret; rewrite <- app_assoc; done|].
    split; [done|]. split; [done|]. cbn.
    by destruct (Z.eqb_spec b CR) as [->|]; case_bool_decide; congruence.
  - apply orb_false_iff in El as [_ El%Z.eqb_neq].
    assert (zlen (done ++ [b]) = n + 1) as Hz by (rewrite zlen_app, Hn; done).
    specialize (IH (n + 1) b (done ++ [b]) tail p1 Hp1 Hz ltac:(cbn in Ht; lia) El).
    rewrite Hb1 in IH. destruct (line_of k bs) as [l rest] eqn:Ek.
    destruct IH as (c' & p' & E' & Hp' & Hr & Hc'). exists c', p'.
    rewrite <- app_assoc in E'. cbn [app] in E'. rewrite E'. split.
    { replace (n + zlen (b :: l)) with (n + 1 + zlen l) by (unfold zlen; cbn; lia).
      cbn [length drop]. by rewrite <- !app_assoc. }
    split; [done|]. split; [done|]. rewrite Hc'. destruct l; [|done]. cbn.
    by rewrite !bool_decide_eq_false_2 by congruence.
Qed.

Lemma line_of_length k bs : (length (fst (line_of k bs)) <= k)%nat.
Proof.
  revert bs. induction k as [|k IH]; intros [|b bs]; cbn; try lia.
  destruct (_ || _); cbn; [lia|]. specialize (IH bs). destruct (line_of k bs). cbn in *. lia.
Qed.

(** The line feed behind a carriage return is stored. *)
Lemma put_char l y tail c (q : io_stream D) :
  tail <> [] ->
  (buf ← lift (mem_write (l ++ y :: tail) (zlen l + 0) [c]);
   buf ← lift (mem_write buf (zlen l + 1) [0]);
   mret (zlen l + 1, buf)) q = Ret ((zlen (l ++ [c]), (l ++ [c]) ++ 0 :: drop 1 tail), q).
Proof.
  intros Ht. destruct tail as [|t tail]; [done|].
  rewrite Z.add_0_r, zlen_app. unfold lift, mbind, M_bind. rewrite mem_write_mid. cbn [mbind outcome_bind].
  pose proof (mem_write_mid (l ++ [c]) t tail 0) as W. rewrite zlen_app, <- app_assoc in W.
  cbn [app] in W. change (zlen [c]) with 1 in *. rewrite W. reflexivity.
Qed.

Lemma fgets_cr_run room c l tail p :
  stream_ok p -> (length l <= room)%nat -> length tail = room ->
  (c =? CR) = bool_decide (list.last l = Some CR) ->
  let '(l', rest) := join_lf room l (stream_pending p) in
  exists p',
    fgets_cr (Z.of_nat room) c (zlen l) (l ++ 0 :: drop (length l) tail) p =
      Ret ((zlen l', l' ++ 0 :: drop (length l') tail), p') /\
    stream_ok p' /\ stream_pending p' = rest.
Proof.
  intros Hp Hl Ht Hc. unfold fgets_cr. rewrite Hc.
  destruct (stream_pending p) as [|b rest] eqn:Eb; cbn [join_lf].
  { destruct (fgetc_end p Hp Eb) as (p' & E & Hp' & Hr).
    destruct (bool_decide _); [|by exists p]. run_step E. by exists p'. }
  destruct (bool_decide _); cbn [andb]; [|by exists p].
  destruct (fgetc_more p b rest Hp Eb) as (p1 & E & Hp1 & Hr & _ & Hu). run_step E.
  pose proof (stream_bytes p Hp) as Hy. rewrite Eb in Hy. apply Forall_cons_iff in Hy as [Hy _].
  rewrite (proj2 (Z.ltb_ge _ _)) by (unfold is_byte in Hy; lia).
  destruct (Z.eqb_spec b LF) as [->|Hb]; cbn [negb].
  - replace (Z.of_nat room <=? zlen l) with (room <=? length l)%nat;
      [|unfold zlen; destruct (Nat.leb_spec room (length l)), (Z.leb_spec (Z.of_nat room) (Z.of_nat (length l))); lia].
    destruct (Nat.leb_spec room (length l)); [by exists p1|].
    exists p1. rewrite put_char.
    2:{ intros E0%(f_equal length). rewrite length_drop in E0. cbn in E0. lia. }
    rewrite drop_drop, length_app. done.
  - destruct (ungetc_run p1 b Hp1 Hy Hu) as (p2 & E2 & Hp2 & Hr2 & _). run_step E2. exists p2.
    by rewrite <- Hr, <- Hr2.
Qed.

(** One call of [STREAM_fgets] on a buffer of [room + 1] bytes. *)
Lemma fgets_run room x tail p :
  stream_ok p -> length tail = room ->
  let '(l, rest) := next_line room (stream_pending p) in
  exists tail' p',
    STREAM_fgets (x :: tail) (Z.of_nat room + 1) p =
      Ret ((negb (bool_decide (l = [])), l ++ 0 :: drop (length l) tail'), p') /\
    stream_ok p' /\ stream_pending p' = rest /\ length tail' = room /\
    (Forall (.= 0) tail -> Forall (.= 0) tail') /\ list.last (0 :: tail') = Some 0.
Proof.
  intros Hp Ht. unfold STREAM_fgets.
  assert (exists tail', length tail' = room /\ ((Forall (.= 0) tail -> Forall (.= 0) tail') /\ list.last (0 :: tail') = Some 0) /\
    mem_write (0 :: tail) (Z.of_nat room + 1 - 1) [0] = Ret (0 :: tail')) as (tail' & Hl & Hz & W).
  { rewrite Z.add_simpl_r. destruct tail as [|t tail _] using rev_ind.
    { exists []. rewrite <- Ht. done. }
    exists (tail ++ [0]). rewrite length_app in *. split; [done|]. split.
    - split; [|rewrite app_comm_cons; apply last_snoc]. rewrite !Forall_app. intros [? _]. by split; [|constructor].
    - cbn in Ht. pose proof (mem_write_mid (0 :: tail) t [] 0) as W.
      replace (zlen (0 :: tail)) with (Z.of_nat room) in W by (unfold zlen; cbn; lia). exact W. }
  assert (lift (mem_write (x :: tail) 0 [0]) p = Ret (0 :: tail, p)) as W0
    by (unfold lift; change (mem_write (x :: tail) 0 [0]) with (mem_write ([] ++ x :: tail) (zlen (@nil Z)) [0]);
        by rewrite mem_write_mid).
  run_step W0. assert (lift (mem_write (0 :: tail) (Z.of_nat room + 1 - 1) [0]) p = Ret (0 :: tail', p)) as W1
    by (unfold lift; by rewrite W).
  run_step W1. cbv zeta. rewrite Z.add_simpl_r, Nat2Z.id. unfold next_line.
  pose proof (fgets_loop_run room 0 0 [] tail' p Hp eq_refl ltac:(lia) ltac:(done)) as Hloop.
  pose proof (line_of_length room (stream_pending p)) as Hlen.
  destruct (line_of room (stream_pending p)) as [l rest] eqn:El. cbn [fst app] in Hlen, Hloop.
  destruct Hloop as (c' & p1 & E & Hp1 & Hr & Hc). rewrite Z.add_0_l in E. run_step E.
  pose proof (fgets_cr_run room c' l tail' p1 Hp1 Hlen Hl Hc) as Hcr. rewrite Hr in Hcr.
  destruct (join_lf room l rest) as [l' rest']. destruct Hcr as (p' & E' & Hp' & Hr').
  run_step E'. exists tail', p'. split; [|done]. unfold mret, M_ret. do 4 f_equal.
  destruct l'; [done|]. by rewrite bool_decide_eq_false_2.
Qed.

(** ** Text files *)

Inductive eol : Type := Unix | Dos | Mac.
Definition eol_bytes (e : eol) : list Z :=
  match e with Unix => [LF] | Dos => [CR; LF] | Mac => [CR] end.

(** A line: its characters and how it ends. *)
Definition line : Type := list Z * eol.
Definition line_bytes (l : line) : list Z := fst l ++ eol_bytes (snd l).

Definition in_line (c : Z) : Prop := c <> LF /\ c <> CR.

(** Lines that fit the buffer; a line feed that is a line of its own cannot be
    told from the end of a Dos line when a Mac line comes before it. *)
Fixpoint text_ok (room : nat) (ls : list line) : Prop :=
  match ls with
  | [] => True
  | l :: ls =>
      Forall in_line (fst l) /\ (length (fst l) + 2 <= room)%nat /\
      (snd l = Mac -> head (concat (map line_bytes ls)) <> Some LF) /\ text_ok room ls
  end.

Lemma line_of_eol k s c rest :
  Forall in_line s -> (length s < k)%nat -> c = LF \/ c = CR ->
  line_of k (s ++ c :: rest) = (s ++ [c], rest).
Proof.
  intros Hs Hk Hc. revert k Hk. induction Hs as [|b s [Hb1 Hb2] _ IH]; intros [|k] Hk; cbn in Hk; try lia; cbn [app line_of].
  - by destruct Hc as [-> | ->].
  - rewrite (proj2 (Z.eqb_neq _ _) Hb1), (proj2 (Z.eqb_neq _ _) Hb2). cbn [orb].
    rewrite IH by lia. done.
Qed.

Lemma line_of_rest k s : Forall in_line s -> (length s <= k)%nat -> line_of k s = (s, []).
Proof.
  intros Hs. revert k. induction Hs as [|b s [Hb1 Hb2] _ IH]; intros [|k] Hk; cbn in Hk; try lia; try done.
  cbn [line_of]. rewrite (proj2 (Z.eqb_neq _ _) Hb1), (proj2 (Z.eqb_neq _ _) Hb2). cbn [orb].
  by rewrite IH by lia.
Qed.

Lemma next_line_line room s e rest :
  Forall in_line s -> (length s + 2 <= room)%nat -> (e = Mac -> head rest <> Some LF) ->
  next_line room (s ++ eol_bytes e ++ rest) = (s ++ eol_bytes e, rest).
Proof.
  intros Hs Hl He. unfold next_line, join_lf. destruct e; cbn [eol_bytes app];
    (rewrite line_of_eol; [|done|lia|by (left + right)]); rewrite ?last_snoc.
  - rewrite bool_decide_eq_false_2 by done. by destruct rest.
  - rewrite bool_decide_eq_true_2 by done. rewrite length_app. cbn [length].
    destruct (Nat.leb_spec room (length s + 1)); [lia|]. by rewrite <- app_assoc.
  - rewrite bool_decide_eq_true_2 by done. destruct rest as [|b rest]; [done|]. cbn [andb].
    destruct (Z.eqb_spec b LF) as [->|]; [|done]. by destruct (He eq_refl).
Qed.

Lemma next_line_rest room s :
  Forall in_line s -> (length s <= room)%nat -> next_line room s = (s, []).
Proof. intros Hs Hl. unfold next_line. by rewrite line_of_rest. Qed.

(** Read lines into a buffer until there are no more: the buffers. *)
Fixpoint gets (fuel : nat) (buf : list Z) : M (io_stream D) (list (list Z)) :=
  match fuel with
  | O => out_of_fuel
  | S fuel =>
      '(ok, buf) ← STREAM_fgets buf (zlen buf);
      if (ok : bool) then ls ← gets fuel buf; mret (buf :: ls) else mret []
  end.

(** The buffer holds the string [l]. *)
Definition holds_string (buf l : list Z) : Prop := (l ++ [0]) `prefix_of` buf.

(** One round, for a line that is not empty. *)
Lemma gets_step fuel room buf p l rest :
  stream_ok p -> length buf = S room -> next_line room (stream_pending p) = (l, rest) -> l <> [] ->
  exists buf' p', stream_ok p' /\ stream_pending p' = rest /\ length buf' = S room /\
    holds_string buf' l /\
    forall ls p2, gets fuel buf' p' = Ret (ls, p2) -> gets (S fuel) buf p = Ret (buf' :: ls, p2).
Proof.
  intros Hp Hb Hl Hne. destruct buf as [|x tail]; [done|]. injection Hb as Hb.
  pose proof (fgets_run room x tail p Hp Hb) as Hf. pose proof (line_of_length room (stream_pending p)) as Hlen.
  rewrite Hl in Hf. destruct Hf as (tail' & p' & E & Hp' & Hr & Ht & _).
  assert (length l <= room)%nat as Hlr.
  { unfold next_line in Hl. destruct (line_of room (stream_pending p)) as [l0 r0]. cbn [fst] in Hlen.
    unfold join_lf in Hl. repeat case_match; simplify_eq; try lia. rewrite length_app. cbn.
    match goal with E : (_ <=? _)%nat = false |- _ => apply Nat.leb_gt in E; lia end. }
  exists (l ++ 0 :: drop (length l) tail'), p'. split; [done|]. split; [done|]. split.
  { rewrite length_app. cbn [length]. rewrite length_drop. lia. }
  split; [exists (drop (length l) tail'); by rewrite <- app_assoc|]. intros ls p2 E2.
  cbn [gets]. replace (zlen (x :: tail)) with (Z.of_nat room + 1) by (unfold zlen; cbn; lia).
  run_step E. rewrite bool_decide_eq_false_2 by done. cbn [negb]. by run_step E2.
Qed.

Lemma gets_end fuel room buf p :
  stream_ok p -> length buf = S room -> stream_pending p = [] ->
  exists p', gets (S fuel) buf p = Ret ([], p') /\ stream_ok p' /\ stream_pending p' = [].
Proof.
  intros Hp Hb Hl. destruct buf as [|x tail]; [done|]. injection Hb as Hb.
  pose proof (fgets_run room x tail p Hp Hb) as Hf.
  rewrite Hl, (next_line_rest room []) in Hf by (done || cbn; lia).
  destruct Hf as (tail' & p' & E & Hp' & Hr & _). exists p'. split; [|done].
  cbn [gets]. replace (zlen (x :: tail)) with (Z.of_nat room + 1) by (unfold zlen; cbn; lia).
  run_step E. done.
Qed.

Lemma gets_lines room ls : forall fuel buf fin p,
  stream_ok p -> length buf = S room -> text_ok room ls -> Forall in_line fin -> (length fin <= room)%nat ->
  stream_pending p = concat (map line_bytes ls) ++ fin -> (length ls + 2 <= fuel)%nat ->
  exists bufs p', gets fuel buf p = Ret (bufs, p') /\ stream_pending p' = [] /\
    Forall2 holds_string bufs (map line_bytes ls ++ (if decide (fin = []) then [] else [fin])).
Proof.
  induction ls as [|[s e] ls IH]; intros fuel buf fin p Hp Hb Hok Hf Hfl Hpd Hfu; destruct fuel as [|fuel]; try (cbn in Hfu; lia).
  - cbn [map concat app] in *. destruct fin as [|c fin].
    { destruct (gets_end fuel room buf p Hp Hb Hpd) as (p' & E & _ & Hr). exists [], p'. by repeat split. }
    destruct (gets_step fuel room buf p (c :: fin) []) as (buf' & p1 & Hp1 & Hr & Hb' & Hs & Hg); try done.
    { rewrite Hpd. by apply next_line_rest. }
    destruct fuel as [|fuel]; [cbn in Hfu; lia|].
    destruct (gets_end fuel room buf' p1 Hp1 Hb' Hr) as (p2 & E & _ & Hr2).
    exists [buf'], p2. split; [by apply Hg|]. split; [done|]. by constructor.
  - destruct Hok as (Hs & Hl & He & Hok). cbn [fst snd] in *. cbn [map concat] in Hpd.
    unfold line_bytes at 1 in Hpd. cbn [fst snd] in Hpd.
    destruct (gets_step fuel room buf p (s ++ eol_bytes e) (concat (map line_bytes ls) ++ fin))
      as (buf' & p1 & Hp1 & Hr & Hb' & Hst & Hg); try done.
    { rewrite Hpd, <- !app_assoc. apply next_line_line; [done|done|]. intros ->.
      specialize (He eq_refl). destruct ls as [|l2 ls].
      { cbn. destruct Hf as [|c fin [Hc _]]; [done|]. cbn. congruence. }
      cbn [map concat] in *. destruct l2 as [s2 e2]. by destruct s2, e2. }
    { by destruct s, e. }
    destruct (IH fuel buf' fin p1) as (bufs & p2 & E & Hr2 & H2); try done.
    { cbn in Hfu. lia. }
    exists (buf' :: bufs), p2. split; [by apply Hg|]. split; [done|]. by constructor.
Qed.

End Reading.

(** ** Memory streams as tapes *)

(** What a memory stream promises: a tape of fixed size with a position, and one
    byte of push-back in front of it. *)
Record tape : Type := MkTape { t_bytes : list Z; t_pos : nat; t_back : option Z }.

Inductive op : Type :=
| Rd (n : Z)
| Wr (bs : list Z)
| Getc
| Ungetc (c : Z)
| Putc (c : Z)
| Avail
| Flush.

Definition op_ok (o : op) : Prop :=
  match o with
  | Rd n => 0 <= n
  | Wr bs => is_bytes bs /\ zlen bs < 2 ^ 31
  | _ => True
  end.

(** The answer of a call: its result and the bytes it stored. *)
Definition ahead (t : tape) : list Z := drop (t_pos t) (t_bytes t).
Definition tape_read (n : nat) (t : tape) : (Z * list Z) * tape :=
  let bs := take n (option_list (t_back t) ++ ahead t) in
  let back := if decide (n = 0)%nat then t_back t else None in
  (zlen bs, bs, MkTape (t_bytes t)
     (t_pos t + (length bs - (if decide (n = 0)%nat then 0 else length (option_list (t_back t))))) back).
Definition tape_write (bs : list Z) (t : tape) : Z * tape :=
  let d := take (length (t_bytes t) - t_pos t) bs in
  (zlen d, MkTape (splice (t_pos t) d (t_bytes t)) (t_pos t + length d) (t_back t)).

Definition tape_step (t : tape) (o : op) : (Z * list Z) * tape :=
  match o with
  | Rd n => tape_read (Z.to_nat n) t
  | Wr bs => let '(r, t) := tape_write bs t in (r, [], t)
  | Getc => let '(_, bs, t) := tape_read 1 t in (from_option id EOF (head bs), [], t)
  | Ungetc c => (0, [], MkTape (t_bytes t) (t_pos t) (Some (u8 c)))
  | Putc c => let '(r, t) := tape_write [u8 c] t in (if r =? 1 then u8 c else EOF, [], t)
  | Avail => (if decide (option_list (t_back t) ++ ahead t = []) then 0 else 1, [], t)
  | Flush => (0, [], t)
  end.

Definition stream_step (o : op) : M (io_stream mem_dev) (Z * list Z) :=
  match o with
  | Rd n => STREAM_rdBytes n (-1)
  | Wr bs => r ← STREAM_wrBytes bs (-1); mret (r, [])
  | Getc => r ← STREAM_fgetc; mret (r, [])
  | Ungetc c => r ← STREAM_ungetc c; mret (r, [])
  | Putc c => r ← STREAM_fputc c; mret (r, [])
  | Avail => r ← STREAM_rxAvail (-1); mret (r, [])
  | Flush => r ← STREAM_flush; mret (r, [])
  end.

Fixpoint stream_run (os : list op) : M (io_stream mem_dev) (list (Z * list Z)) :=
  match os with
  | [] => mret []
  | o :: os => a ← stream_step o; l ← stream_run os; mret (a :: l)
  end.
Fixpoint tape_run (t : tape) (os : list op) : list (Z * list Z) * tape :=
  match os with
  | [] => ([], t)
  | o :: os =>
      let '(a, t) := tape_step t o in
      let '(l, t) := tape_run t os in (a :: l, t)
  end.

Definition back_of (o : option Z) : Z := from_option (fun b => b + 256) 0 o.

Record mem_sim (p : io_stream mem_dev) (t : tape) : Prop := MkSim {
  ms_live : check_ptr p = Live;
  ms_back : unget_buf p = back_of (t_back t);
  ms_byte : is_bytes (option_list (t_back t));
  ms_mem : exists m, opaque_ptr p = Some m /\ mem_ok m /\ is_wr m = true /\
    take (Z.to_nat (bufsiz m)) (pBytes m) = t_bytes t /\ cursor m = Z.of_nat (t_pos t)
}.

Lemma pending_ahead m t :
  mem_ok m -> take (Z.to_nat (bufsiz m)) (pBytes m) = t_bytes t -> cursor m = Z.of_nat (t_pos t) ->
  mem_pending m = ahead t.
Proof.
  intros [] Hb Hc. unfold mem_pending, slice, ahead. rewrite <- Hb, Hc, Nat2Z.id.
  rewrite take_drop_commute. do 2 f_equal. lia.
Qed.

Lemma mem_wr_run m bs t :
  mem_ok m -> is_wr m = true -> is_bytes bs -> zlen bs < 2 ^ 31 ->
  let d := take (Z.to_nat (bufsiz m - cursor m)) bs in
  let m' := with_bytes m (splice (Z.to_nat (cursor m)) d (pBytes m)) (cursor m + zlen d) in
  mem_wr bs t (Some m) = Ret (zlen d, Some m') /\ mem_ok m' /\
  take (Z.to_nat (bufsiz m)) (pBytes m') =
    splice (Z.to_nat (cursor m)) d (take (Z.to_nat (bufsiz m)) (pBytes m)).
Proof.
  intros [] Hw Hbs Hl d m'. pose proof (zlen_nonneg bs).
  assert (zlen d = Z.min (bufsiz m - cursor m) (zlen bs)) as Hd
    by (unfold d, zlen in *; rewrite length_take; lia).
  split; [|split].
  - unfold mem_wr. rewrite Hw. cbn [negb]. rewrite (u64_id (bufsiz m - cursor m)) by lia.
    replace (if _ <? zlen bs then _ else _) with (zlen d)
      by (destruct (Z.ltb_spec (bufsiz m - cursor m) (zlen bs)); lia).
    rewrite int32_id by lia. destruct (Z.eqb_spec (zlen d) 0) as [E|E].
    + unfold m'. destruct d; [|unfold zlen in E; cbn in E; lia]. rewrite splice_nil, E, Z.add_0_r.
      by destruct m.
    + replace (take (Z.to_nat (zlen d)) bs) with d.
      2:{ rewrite Hd. unfold d. destruct (Z.min_spec (bufsiz m - cursor m) (zlen bs)) as [[? ->]|[? ->]]; [done|].
          rewrite !take_ge; [done|unfold zlen; lia|unfold zlen in *; lia]. }
      rewrite mem_write_ok, u64_id by lia. done.
  - assert (length (splice (Z.to_nat (cursor m)) d (pBytes m)) = length (pBytes m)) as Hs
      by (apply length_splice; unfold zlen in *; lia).
    unfold m'. constructor; cbn; try done; [lia|unfold zlen in *; lia|].
    unfold splice, is_bytes. rewrite !Forall_app. split; [by apply Forall_take|].
    split; [by apply Forall_take|by apply Forall_drop].
  - cbn. unfold splice. unfold zlen in *. rewrite take_take, Nat.min_l by lia.
    rewrite take_app_ge by (rewrite length_take; lia).
    rewrite length_take, Nat.min_l by lia. rewrite take_app_ge by lia. do 2 f_equal.
    rewrite take_drop_commute. do 2 f_equal. lia.
Qed.

(** The back end reads what is ahead of the position. *)
Lemma sim_dev_read m t n tmo :
  mem_ok m -> take (Z.to_nat (bufsiz m)) (pBytes m) = t_bytes t -> cursor m = Z.of_nat (t_pos t) ->
  0 <= n ->
  let bs := take (Z.to_nat n) (ahead t) in
  exists m', mem_rd n tmo (Some m) = Ret (zlen bs, bs, Some m') /\ mem_ok m' /\ is_wr m' = is_wr m /\
    take (Z.to_nat (bufsiz m')) (pBytes m') = t_bytes t /\ cursor m' = Z.of_nat (t_pos t + length bs) /\
    zlen bs <= bufsiz m < 2 ^ 31 - 1.
Proof.
  intros Hm Hb Hc Hn bs. destruct (mem_rd_run m n tmo Hm Hn) as (E & Hm' & _).
  pose proof (mem_pending_length m Hm) as Hl. rewrite (pending_ahead m t) in * by done.
  assert (zlen bs = Z.min n (bufsiz m - cursor m)) as Hz
    by (unfold bs, zlen in *; rewrite length_take; lia).
  rewrite <- Hz in *. eexists. split; [exact E|]. split; [done|]. cbn. split; [done|].
  split; [done|]. destruct Hm. unfold zlen in *. lia.
Qed.

Lemma back_land b : is_byte b -> Z.land (b + 256) 0x0ff = b /\ (b + 256 =? 0) = false.
Proof.
  unfold is_byte. intros Hb. rewrite land_ff. split; [|apply Z.eqb_neq; lia].
  rewrite <- (Z.add_mod_idemp_r b 256), Z.mod_same, Z.add_0_r by lia. apply Z.mod_small. lia.
Qed.

(** [STREAM_rdBytes] without and with a byte pushed back. *)
Lemma rdBytes_plain (d : mem_dev) e n tmo r bs d' :
  n <> 0 -> mem_rd n tmo d = Ret (r, bs, d') ->
  STREAM_rdBytes n tmo (MkIo Live d 0 e) = Ret ((r, bs), MkIo Live d' 0 e).
Proof.
  intros Hn E. unfold STREAM_rdBytes. rewrite (proj2 (Z.eqb_neq n 0)) by done.
  unfold mbind, M_bind, on_dev. cbn. by rewrite E.
Qed.

Lemma rdBytes_back (d : mem_dev) e b n tmo r bs d' :
  is_byte b -> 1 < n -> mem_rd (n - 1) tmo d = Ret (r, bs, d') -> 0 <= r < 2 ^ 31 - 1 ->
  STREAM_rdBytes n tmo (MkIo Live d (b + 256) e) = Ret ((r + 1, b :: bs), MkIo Live d' 0 e).
Proof.
  intros Hb Hn E Hr. destruct (back_land b Hb) as [E1 E2]. unfold STREAM_rdBytes.
  rewrite (proj2 (Z.eqb_neq n 0)) by lia. unfold mbind, M_bind, on_dev, mret, M_ret. cbn.
  rewrite E2. cbn. rewrite (proj2 (Z.eqb_neq (n - 1) 0)) by lia. unfold M_bind. cbn. rewrite E. cbn.
  by rewrite E1, (proj2 (Z.leb_le 0 r)), int32_id by lia.
Qed.

Lemma rdBytes_only_back (d : mem_dev) e b tmo :
  is_byte b -> STREAM_rdBytes 1 tmo (MkIo Live d (b + 256) e) = Ret ((1, [b]), MkIo Live d 0 e).
Proof.
  intros Hb. destruct (back_land b Hb) as [E1 E2]. unfold STREAM_rdBytes.
  unfold mbind, M_bind, mret, M_ret. cbn. rewrite E2. cbn. by rewrite E1.
Qed.

Lemma sim_read p t n tmo :
  mem_sim p t -> 0 <= n ->
  let '(r, bs, t') := tape_read (Z.to_nat n) t in
  exists p', STREAM_rdBytes n tmo p = Ret ((r, bs), p') /\ mem_sim p' t' /\ is_error p' = is_error p.
Proof.
  intros [Hv Hu Hy (m & Hd & Hm & Hw & Hb & Hc)] Hn. unfold tape_read.
  destruct p as [c d u e]. cbn in *. subst c d u.
  destruct (Z.eqb_spec n 0) as [->|Hn0].
  { cbn. rewrite Nat.add_0_r. eexists. split; [reflexivity|]. split; [|done]. destruct t.
    constructor; cbn; eauto 10. }
  rewrite !decide_False by lia.
  destruct (t_back t) as [b|] eqn:Ek; cbn [back_of from_option option_list app length] in *.
  - apply Forall_cons_iff in Hy as [Hy _]. destruct (Z.eqb_spec n 1) as [->|H1].
    + rewrite rdBytes_only_back by done. change (Z.to_nat 1) with 1%nat. cbn [take firstn app length Nat.sub].
      eexists. split; [reflexivity|]. rewrite Nat.add_0_r. split; [|done].
      constructor; cbn; [done|done|by constructor|eauto 10].
    + destruct (sim_dev_read m t (n - 1) tmo) as (m' & E & Hm' & Hw' & Hb' & Hc' & Hs); [done..|lia|].
      set (bs := take (Z.to_nat (n - 1)) (ahead t)) in *. pose proof (zlen_nonneg bs).
      erewrite rdBytes_back by (done || lia).
      replace (Z.to_nat n) with (S (Z.to_nat (n - 1))) by lia.
      change (take (S _) (option_list (Some b) ++ ahead t)) with (b :: bs).
      change (length (option_list (Some b))) with 1%nat.
      replace (zlen (b :: bs)) with (zlen bs + 1) by (unfold zlen; cbn; lia).
      eexists. split; [reflexivity|]. cbn [length]. replace (S (length bs) - 1)%nat with (length bs) by lia. split; [|done].
      constructor; cbn; [done|done|by constructor|]. exists m'. split_and!; try done; congruence.
  - destruct (sim_dev_read m t n tmo) as (m' & E & Hm' & Hw' & Hb' & Hc' & _); [done..|lia|].
    erewrite rdBytes_plain by done.
    eexists. split; [reflexivity|]. rewrite Nat.sub_0_r. split; [|done]. constructor; cbn; [done|done|done|].
    exists m'. split_and!; try done; congruence.
Qed.

Lemma sim_write p t bs tmo :
  mem_sim p t -> is_bytes bs -> zlen bs < 2 ^ 31 ->
  let '(r, t') := tape_write bs t in
  exists p', STREAM_wrBytes bs tmo p = Ret (r, p') /\ mem_sim p' t'.
Proof.
  intros [Hv Hu Hy (m & Hd & Hm & Hw & Hb & Hc)] Hbs Hl. unfold tape_write.
  destruct p as [c d u e]. cbn in *. subst c d.
  destruct (mem_wr_run m bs tmo Hm Hw Hbs Hl) as (E & Hm' & Hs).
  assert (length (t_bytes t) - t_pos t = Z.to_nat (bufsiz m - cursor m))%nat as ->.
  { rewrite <- Hb, length_take. destruct Hm. unfold zlen in *. lia. }
  set (d := take (Z.to_nat (bufsiz m - cursor m)) bs) in *.
  eexists. unfold STREAM_wrBytes, mbind, M_bind, on_dev. cbn. rewrite E. cbn.
  split; [reflexivity|]. constructor; cbn; [done|done|done|]. eexists. split; [reflexivity|].
  split; [done|]. split; [done|]. split; [|cbn; unfold zlen; lia]. cbn in Hs |- *. by rewrite Hs, Hb, Hc, Nat2Z.id.
Qed.

(** Reading a character is reading one byte. *)
Lemma fgetc_rdBytes (p : io_stream mem_dev) r bs p' :
  check_ptr p = Live -> STREAM_rdBytes 1 (-1) p = Ret ((r, bs), p') ->
  (forall b, bs = [b] -> r = 1 /\ is_byte b) -> (bs = [] -> r = 0) -> (length bs <= 1)%nat ->
  STREAM_fgetc p = Ret (from_option id EOF (head bs), p').
Proof.
  intros Hv E H1 H0 Hl. destruct p as [c d u e]. cbn in Hv. subst c. unfold STREAM_fgetc.
  run_step (eq_refl : STREAM_hToStruct (MkIo Live d u e) = Ret (true, MkIo Live d u e)). cbn [negb]. run_get.
  cbn [unget_buf]. destruct (Z.eqb_spec u 0) as [->|Hu]; cbn [negb].
  - run_step E. destruct bs as [|b [|]]; [by rewrite (H0 eq_refl)| |cbn in Hl; lia].
    destruct (H1 b eq_refl) as [-> Hb]. cbn. unfold is_byte in Hb. by rewrite land_ff, Z.mod_small by lia.
  - revert E. unfold STREAM_rdBytes, mbind, M_bind, mret, M_ret. cbn.
    rewrite (proj2 (Z.eqb_neq u 0)) by done. cbn. by intros [= <- <- <-].
Qed.

Lemma tape_bytes p t : mem_sim p t -> is_bytes (option_list (t_back t) ++ ahead t).
Proof.
  intros [_ _ Hy (m & _ & Hm & _ & Hb & _)]. apply Forall_app. split; [done|].
  apply Forall_drop. rewrite <- Hb. apply Forall_take, mo_bytes, Hm.
Qed.

Lemma sim_avail p t :
  mem_sim p t ->
  STREAM_rxAvail (-1) p = Ret (if decide (option_list (t_back t) ++ ahead t = []) then 0 else 1, p).
Proof.
  intros [Hv Hu Hy (m & Hd & Hm & Hw & Hb & Hc)]. destruct p as [k d u e]. cbn in Hv, Hu, Hd. subst k d.
  pose proof (mem_pending_length m Hm) as Hl. rewrite (pending_ahead m t Hm Hb Hc) in Hl.
  unfold STREAM_rxAvail, mbind, M_bind, mret, M_ret. cbn.
  destruct (t_back t) as [b|]; cbn [back_of from_option] in Hu; subst u.
  - apply Forall_cons_iff in Hy as [Hy _]. by destruct (back_land b Hy) as [_ ->].
  - cbn. unfold M_bind, on_dev. cbn. rewrite (mo_rd m Hm). cbn. unfold zlen in Hl. destruct (ahead t); cbn in Hl.
    + rewrite (proj2 (Z.ltb_ge _ _)) by lia. by rewrite decide_True.
    + rewrite (proj2 (Z.ltb_lt _ _)) by lia. by rewrite decide_False.
Qed.

(** One call answers as the tape does. *)
Lemma sim_step p t o :
  mem_sim p t -> op_ok o ->
  let '(a, t') := tape_step t o in exists p', stream_step o p = Ret (a, p') /\ mem_sim p' t'.
Proof.
  intros Hs Ho. destruct o; cbn [tape_step stream_step] in *.
  - pose proof (sim_read p t n (-1) Hs Ho) as Hr. destruct (tape_read (Z.to_nat n) t) as [[r bs] t'].
    destruct Hr as (p' & E & Hs' & _). by exists p'.
  - destruct Ho as [Hb Hl]. pose proof (sim_write p t bs (-1) Hs Hb Hl) as Hr.
    destruct (tape_write bs t) as [r t']. destruct Hr as (p' & E & Hs'). exists p'. by run_step E.
  - pose proof (sim_read p t 1 (-1) Hs ltac:(lia)) as Hr. pose proof (tape_bytes p t Hs) as Hy.
    change (Z.to_nat 1) with 1%nat in Hr. unfold tape_read in *. cbn [decide] in *.
    destruct Hr as (p' & E & Hs' & _). exists p'. split; [|done].
    erewrite M_bind_Ret; [reflexivity|]. eapply fgetc_rdBytes; [by destruct Hs|exact E|..].
    + intros b Eb. rewrite Eb. split; [done|]. destruct (option_list (t_back t) ++ ahead t) as [|x l]; [done|].
      injection Eb as ->. by apply Forall_cons_iff in Hy as [? _].
    + by intros ->.
    + rewrite length_take. lia.
  - destruct Hs as [Hv Hu Hy Hm], p as [k d u e]. cbn in Hv. subst k. eexists. split; [reflexivity|].
    constructor; cbn; [done| |constructor; [apply u8_byte|done]|done].
    rewrite land_ff. change 256 with (Z.shiftl 1 8) at 2. rewrite lor_shiftl; [done|lia|].
    change (2 ^ 8) with 256. apply Z.mod_pos_bound. lia.
  - assert (is_bytes [u8 c]) as Hb by (constructor; [apply u8_byte|done]).
    pose proof (sim_write p t [u8 c] (-1) Hs Hb ltac:(done)) as Hr. destruct (tape_write [u8 c] t) as [r t'].
    destruct Hr as (p' & E & Hs'). exists p'. unfold STREAM_fputc.
    erewrite M_bind_Ret; [|run_step E; reflexivity]. unfold mret, M_ret. by rewrite land_ff.
  - exists p. split; [|done]. by run_step (sim_avail p t Hs).
  - pose proof Hs as [Hv _ _ _]. destruct p as [k d u e]. cbn in Hv. subst k. eexists. by split; [reflexivity|].
Qed.

Lemma sim_run os : forall p t,
  mem_sim p t -> Forall op_ok os ->
  exists p', stream_run os p = Ret (fst (tape_run t os), p') /\ mem_sim p' (snd (tape_run t os)).
Proof.
  induction os as [|o os IH]; intros p t Hs Ho; [by exists p|].
  apply Forall_cons_iff in Ho as [Ho1 Ho2]. pose proof (sim_step p t o Hs Ho1) as Hr. cbn [stream_run tape_run].
  destruct (tape_step t o) as [a t1]. destruct Hr as (p1 & E & Hs1). run_step E.
  destruct (IH p1 t1 Hs1 Ho2) as (p2 & E2 & Hs2). run_step E2. exists p2.
  destruct (tape_run t1 os) as [l t2]. done.
Qed.

(** A stream that was just created. *)
Lemma mem_create_sim bytes n :
  is_bytes bytes -> 0 <= n <= zlen bytes -> n < 2 ^ 31 - 1 ->
  exists p, STREAM_memCreate true true true (Some bytes) n = Some p /\
    mem_sim p (MkTape (take (Z.to_nat n) bytes) 0 None).
Proof.
  intros Hb Hn Hs. eexists. split; [reflexivity|]. constructor; cbn; [done|done|by constructor|].
  eexists. split; [reflexivity|]. split; [by constructor; cbn; try done; lia|]. done.
Qed.

(** ** Discarding input *)

Lemma drop_min {A} n (l : list A) : drop (length (take n l)) l = drop n l.
Proof.
  rewrite length_take. destruct (Nat.le_gt_cases n (length l)); [by rewrite Nat.min_l|].
  by rewrite !drop_ge by lia.
Qed.

(** A read leaves what it did not take. *)
Lemma tape_read_rest n t :
  n <> 0%nat ->
  let t' := snd (tape_read n t) in
  option_list (t_back t') ++ ahead t' = drop n (option_list (t_back t) ++ ahead t) /\
  t_bytes t' = t_bytes t.
Proof.
  intros Hn. unfold tape_read. rewrite !decide_False by done. split; [|done].
  unfold ahead at 1. cbn. rewrite <- drop_drop. fold (ahead t).
  destruct (t_back t) as [b|]; cbn [option_list app length].
  - destruct n as [|n]; [done|]. change (take (S n) (option_list (Some b) ++ ahead t)) with (b :: take n (ahead t)).
    change (length (option_list (Some b))) with 1%nat. cbn [length]. rewrite Nat.sub_succ, Nat.sub_0_r.
    exact (drop_min n (ahead t)).
  - rewrite Nat.sub_0_r. exact (drop_min n (ahead t)).
Qed.

Lemma rdDump_ends fuel : forall p t total expired,
  mem_sim p t -> (length (option_list (t_back t) ++ ahead t) + length expired < fuel)%nat ->
  0 <= total -> total + zlen (option_list (t_back t) ++ ahead t) < 2 ^ 31 ->
  exists p' t', rdDump_loop fuel total expired p = Ret (tt, p') /\ mem_sim p' t' /\
    t_bytes t' = t_bytes t /\ option_list (t_back t') ++ ahead t' = [].
Proof.
  induction fuel as [|fuel IH]; intros p t total expired Hs Hf Ht Hl; [lia|]. cbn [rdDump_loop].
  pose proof (sim_read p t 256 0 Hs ltac:(lia)) as Hr.
  destruct (tape_read_rest (Z.to_nat 256) t ltac:(lia)) as [Hd Hb].
  change (tape_read (Z.to_nat 256) t) with (tape_read 256 t) in *. set (w := option_list (t_back t) ++ ahead t) in *.
  assert (fst (tape_read 256 t) = (zlen (take 256 w), take 256 w)) as Hbs by done.
  destruct (tape_read 256 t) as [[r bs] t1]. injection Hbs as -> ->. cbn [snd] in Hd, Hb.
  destruct Hr as (p1 & E & Hs1 & _). run_step E. change (Z.to_nat 256) with 256%nat in Hd.
  assert (length (drop 256 w) = length w - length (take 256 w))%nat as Hx by (rewrite length_drop, length_take; lia).
  assert (length (take 256 w) <= length w)%nat by (rewrite length_take; lia).
  destruct (decide (w = [])) as [Ew|Ew].
  - rewrite Ew in *. cbn. destruct expired as [|[|] expired]; [by exists p1, t1..|].
    destruct (IH p1 t1 total expired) as (p' & t' & E' & H1 & H2 & H3); try done;
      [rewrite Hd; cbn in Hf |- *; lia|by rewrite Hd|].
    exists p', t'. split_and!; [done|done|congruence|done].
  - assert (1 <= length (take 256 w))%nat by (destruct w; [done|]; rewrite length_take; cbn [length]; lia).
    rewrite (proj2 (Z.ltb_lt 0 _)) by (unfold zlen; lia).
    rewrite (proj2 (Z.leb_gt (2 ^ 31) _)) by (unfold zlen in *; lia).
    destruct (IH p1 t1 (total + zlen (take 256 w)) expired) as (p' & t' & E' & H1 & H2 & H3);
      [done|rewrite Hd; lia|unfold zlen; lia|rewrite Hd; unfold zlen in *; lia|].
    exists p', t'. split_and!; [done|done|congruence|done].
Qed.

(** A back end that always has more. *)
Definition spews {D} `{io_stream_funcs D} : Prop :=
  forall d : D, exists bs d', rd_fn 256 0 d = Ret (256, bs, d').

Lemma rdDump_spews {D} `{io_stream_funcs D} fuel : spews -> forall (p : io_stream D) total expired,
  check_ptr p = Live -> unget_buf p = 0 ->
  rdDump_loop fuel total expired p = NoFuel \/ rdDump_loop fuel total expired p = Undef SignedOverflow.
Proof.
  intros Hd. induction fuel as [|fuel IH]; intros [c d u e] total expired Hc Hu; [by left|].
  cbn in Hc, Hu. subst c u. cbn [rdDump_loop]. destruct (Hd d) as (bs & d' & E).
  assert (STREAM_rdBytes 256 0 (MkIo Live d 0 e) = Ret ((256, bs), MkIo Live d' 0 e)) as E'.
  { unfold STREAM_rdBytes, mbind, M_bind, on_dev. cbn. by rewrite E. }
  rewrite (M_bind_Ret _ _ _ _ _ E'). cbn [Z.ltb Z.compare].
  destruct (2 ^ 31 <=? total + 256); [by right|]. by apply IH.
Qed.

(** ** Properties *)

(** A text is read line by line on every back end that hands out its bytes:
    whatever mixture of Unix, Dos and Mac line ends it uses, when its lines fit
    the buffer, calling [STREAM_fgets] until it returns null gives exactly its
    lines, each with its line end and terminated by a zero, the last one also
    when it has no line end, and nothing of the text is left. *)
Theorem stream_fgets_lines {D} `{Source D} room ls fin buf (p : io_stream D) :
  stream_ok p -> length buf = S room -> text_ok room ls -> Forall in_line fin -> (length fin <= room)%nat ->
  stream_pending p = concat (map line_bytes ls) ++ fin ->
  exists bufs p', gets (length ls + 2) buf p = Ret (bufs, p') /\ stream_pending p' = [] /\
    Forall2 holds_string bufs (map line_bytes ls ++ (if decide (fin = []) then [] else [fin])).
Proof. intros. by eapply gets_lines. Qed.

(** C23: A memory stream is a tape: every sequence of reads, writes, character
    calls, push-backs and polls on a newly created stream of [n] bytes answers
    as the tape with these bytes does, and stays inside its buffer. *)
Theorem mem_stream_refines_tape bytes n os :
  is_bytes bytes -> 0 <= n <= zlen bytes -> n < 2 ^ 31 - 1 -> Forall op_ok os ->
  exists p p', STREAM_memCreate true true true (Some bytes) n = Some p /\
    stream_run os p = Ret (fst (tape_run (MkTape (take (Z.to_nat n) bytes) 0 None) os), p') /\
    mem_sim p' (snd (tape_run (MkTape (take (Z.to_nat n) bytes) 0 None) os)).
Proof.
  intros Hb Hn Hs Ho. destruct (mem_create_sim bytes n Hb Hn Hs) as (p & E & Hp).
  destruct (sim_run os p _ Hp Ho) as (p' & H'). by exists p, p'.
Qed.

(** Discarding input ends on a stream that runs dry and does not on one that
    does not: on a memory stream [STREAM_rdDump] returns after reading
    everything, with one round per byte and per answer of the timer at most; a
    back end that always has more keeps it in its loop whatever the time, until
    the count of discarded bytes overflows, because the check for a device that
    spews bytes expands to nothing. *)
Theorem stream_rdDump_drains p t expired {D} `{io_stream_funcs D} (q : io_stream D) fuel :
  mem_sim p t -> zlen (option_list (t_back t) ++ ahead t) < 2 ^ 31 ->
  check_ptr q = Live -> unget_buf q = 0 -> @spews D _ ->
  (exists p' t', STREAM_rdDump (S (length (option_list (t_back t) ++ ahead t) + length expired)) expired p = Ret (tt, p') /\
    mem_sim p' t' /\ t_bytes t' = t_bytes t /\ option_list (t_back t') ++ ahead t' = []) /\
  ~ returns (STREAM_rdDump fuel expired q).
Proof.
  intros Hs Hl Hq Hu Hd. split; [apply rdDump_ends; [done|lia|done|lia]|].
  unfold STREAM_rdDump. by destruct (rdDump_spews fuel Hd q 0 expired Hq Hu) as [-> | ->]; intros [].
Qed.

(** A file stream loses the end of its file: a read that asks for more than is
    left takes the bytes that are left, reports an error instead of their
    number, and the next read finds nothing. *)
Theorem file_short_read_lost f n tmo :
  0 < zlen (f_rest f) < n ->
  let p := MkIo Live (Some f) 0 false in
  exists f', STREAM_rdBytes n tmo p = Ret ((-1, f_rest f), MkIo Live (Some f') 0 false) /\ f_rest f' = [].
Proof.
  intros Hn p. unfold STREAM_rdBytes. rewrite (proj2 (Z.eqb_neq n 0)) by lia.
  unfold p, mbind, M_bind, on_dev. cbn. rewrite take_ge, drop_ge by (unfold zlen in Hn; lia).
  rewrite (proj2 (Z.eqb_neq _ _)) by lia. by eexists.
Qed.

(** ** Instances *)

Definition demo_text : list line := [(str "[a]", Unix); ([], Dos); (str "b = 1", Mac); (str "c", Dos)].

Definition demo_file : io_stream file_dev :=
  MkIo Live (Some (MkFile (concat (map line_bytes demo_text) ++ str "d") [] 0 false false true)) 0 false.

Lemma stream_fgets_lines_witness :
  exists bufs p', gets 6 (replicate 9 7) demo_file = Ret (bufs, p') /\ stream_pending p' = [] /\
    Forall2 holds_string bufs (map line_bytes demo_text ++ [str "d"]).
Proof.
  apply (stream_fgets_lines 8 demo_text (str "d") (replicate 9 7) demo_file).
  - split; [reflexivity|]. split; [|cbn; lia]. eexists. split; [reflexivity|]. apply (bool_decide_unpack (is_bytes _)). vm_compute. exact I.
  - reflexivity.
  - cbn. repeat (split || constructor); cbn; lia || discriminate.
  - constructor; [split; discriminate|constructor].
  - cbn. lia.
  - reflexivity.
Defined.

Lemma mem_stream_refines_tape_witness :
  exists p p', STREAM_memCreate true true true (Some [1; 2; 3; 4]) 3 = Some p /\
    stream_run [Getc; Ungetc 9; Rd 2; Wr [5; 6]; Getc; Avail] p
      = Ret ([(1, []); (0, []); (2, [9; 2]); (1, []); (EOF, []); (0, [])], p') /\
    mem_sim p' (MkTape [1; 2; 5] 3 None).
Proof.
  apply (mem_stream_refines_tape [1; 2; 3; 4] 3 [Getc; Ungetc 9; Rd 2; Wr [5; 6]; Getc; Avail]).
  - apply (bool_decide_unpack (is_bytes _)). vm_compute. exact I.
  - unfold zlen. cbn. lia.
  - lia.
  - repeat constructor; cbn; unfold zlen; cbn; lia.
Defined.

(** A device that always has 256 zeros. *)
Definition zeros_funcs : io_stream_funcs unit := {|
  close_fn d := Ret (Live, d);
  wr_fn bs _ d := Ret (0, d);
  rd_fn n _ d := Ret (n, replicate (Z.to_nat n) 0, d);
  poll_fn _ d := Ret (true, d);
  flush_fn d := Ret (0, d);
  clear_fn := None
|}.

Lemma stream_rdDump_drains_witness :
  exists p t,
  (exists p' t', STREAM_rdDump 4 [false] p = Ret (tt, p') /\
    mem_sim p' t' /\ t_bytes t' = t_bytes t /\ option_list (t_back t') ++ ahead t' = []) /\
  ~ returns (@STREAM_rdDump unit zeros_funcs 7 [false] (MkIo Live tt 0 false)).
Proof.
  destruct (mem_create_sim [1; 2] 2) as (p & _ & Hp); [apply (bool_decide_unpack (is_bytes _)); vm_compute; exact I|done|lia|].
  exists p, (MkTape [1; 2] 0 None).
  apply (@stream_rdDump_drains p (MkTape [1; 2] 0 None) [false] unit zeros_funcs (MkIo Live tt 0 false) 7 Hp).
  - reflexivity.
  - reflexivity.
  - reflexivity.
  - intros d. eexists _, _. reflexivity.
Defined.

Lemma file_short_read_lost_witness :
  let f := MkFile [1; 2; 3] [] 0 false false true in
  exists f', STREAM_rdBytes 5 (-1) (MkIo Live (Some f) 0 false) = Ret ((-1, [1; 2; 3]), MkIo Live (Some f') 0 false) /\
    f_rest f' = [].
Proof. apply (file_short_read_lost (MkFile [1; 2; 3] [] 0 false false true) 5 (-1)). unfold zlen. cbn. lia. Defined.

End IoStream.
