(* ===== verification/MtStream.v ===== *)
(** * Receiving messages from a stream

    The receiver of [MtRx] works on any device; the functions of [IoStream] are
    one.  A simulation shows that what the receiver does depends only on the
    answers of the device, so that what is proved about scripted input holds for
    a memory stream that holds these bytes. *)

From Stdlib Require Import ZArith Lia.
From stdpp Require Import base list option numbers.
From S2P Require Import Prelude MtMsg MtRx IoStream.

Open Scope Z_scope.

Module MtStream.
Import MtMsg MtRx IoStream.

(** ** Devices that answer alike *)

(** Both computations end in the same way, with related results. *)
Definition out_rel {A B} (P : A -> B -> Prop) (x : outcome A) (y : outcome B) : Prop :=
  match x, y with
  | Ret a, Ret b => P a b
  | Undef u, Undef v => u = v
  | NoFuel, NoFuel => True
  | _, _ => False
  end.

Lemma out_rel_bind {A B C E} (P : A -> B -> Prop) (Q : C -> E -> Prop) x y f g :
  out_rel P x y -> (forall a b, P a b -> out_rel Q (f a) (g b)) ->
  out_rel Q (x ≫= f) (y ≫= g).
Proof. destruct x, y; cbn; try done. eauto. Qed.

(** The same computation on both sides. *)
Lemma out_rel_same {A C E} (Q : C -> E -> Prop) (x : outcome A) f g :
  (forall a, out_rel Q (f a) (g a)) -> out_rel Q (x ≫= f) (x ≫= g).
Proof. destruct x; cbn; auto. Qed.

Section Simulation.
Context {S1 S2 : Type} `{Stream S1} `{Stream S2} (R : S1 -> S2 -> Prop).
Hypothesis R_rd : forall s1 s2 n, R s1 s2 -> 0 < n ->
  fst (rdBytes s1 n) = fst (rdBytes s2 n) /\ R (snd (rdBytes s1 n)) (snd (rdBytes s2 n)).
Hypothesis R_dump : forall s1 s2, R s1 s2 -> R (rdDump s1) (rdDump s2).
Hypothesis R_conn : forall s1 s2, R s1 s2 -> isConnected s1 = isConnected s2.

Definition st_rel (a : rx_state (S := S1)) (b : rx_state (S := S2)) : Prop :=
  rx_msg a = rx_msg b /\ is_dead a = is_dead b /\ R (rx_dev a) (rx_dev b).

Inductive pc_rel : rx_pc (S := S1) -> rx_pc (S := S2) -> Prop :=
| PcTry a b : st_rel a b -> pc_rel (TryAgain a) (TryAgain b)
| PcMore a b n : st_rel a b -> pc_rel (ReadMore a n) (ReadMore b n)
| PcRet a b ok : st_rel a b -> pc_rel (Return a ok) (Return b ok).

Lemma rx_bytes_rel i a b n :
  st_rel a b ->
  out_rel (fun x y => fst x = fst y /\ st_rel (snd x) (snd y)) (mt_msg_rx_bytes i a n) (mt_msg_rx_bytes i b n).
Proof.
  destruct a as [m s1 d], b as [m' s2 d']. intros (Em & Ed & Hr). cbn in Em, Ed, Hr. subst m' d'.
  unfold mt_msg_rx_bytes. cbn. destruct (Z.leb_spec n (iobuf_nvalid m)); [by cbn|].
  destruct (R_rd s1 s2 (n - iobuf_nvalid m) Hr) as [E1 E2]; [lia|].
  destruct (rdBytes s1 _) as [r t1], (rdBytes s2 _) as [r' t2]. cbn in E1, E2. subst r'.
  destruct r; [apply out_rel_same; by cbn|..]; by rewrite (R_conn t1 t2 E2).
Qed.

Lemma rx_finish_rel i a b : st_rel a b -> out_rel pc_rel (rx_finish i a) (rx_finish i b).
Proof.
  destruct a as [m s1 d], b as [m' s2 d']. intros (Em & Ed & Hr). cbn in Em, Ed, Hr. subst m' d'.
  unfold rx_finish. cbn [rx_msg rx_dev is_dead with_msg]. apply out_rel_same. intros [bs m1].
  apply out_rel_same. intros r. destruct (negb _).
  - cbn. constructor. split_and!; cbn; auto.
  - apply out_rel_same. intros m2. cbn. constructor. by split_and!.
Qed.

Lemma rx_read_more_rel i a b n :
  st_rel a b -> out_rel pc_rel (rx_read_more i a n) (rx_read_more i b n).
Proof.
  intros Hr. unfold rx_read_more. eapply out_rel_bind; [by apply rx_bytes_rel|].
  intros [r [m s1 d]] [r' [m' s2 d']] [E (Em & Ed & Hr')]. cbn in E, Em, Ed, Hr'. subst r' m' d'.
  cbv beta iota. destruct (_ || _); [by cbn; constructor|]. apply out_rel_same. intros h.
  destruct h as [|m1|m1]; [by cbn; constructor..|].
  apply out_rel_same. intros [c m2]. apply out_rel_same. intros m3. apply out_rel_same. intros k.
  eapply out_rel_bind; [by apply rx_bytes_rel; split_and!|].
  intros [r2 [m4 t1 d4]] [r3 [m5 t2 d5]] [E (Em & Ed & Hr2)]. cbn in E, Em, Ed, Hr2. subst r3 m5 d5.
  cbv beta iota. destruct (negb _); [|by apply rx_finish_rel].
  destruct (0 <? r2); cbn; constructor; split_and!; cbn; auto.
Qed.

Lemma rx_run_rel fuel i : forall pa pb,
  pc_rel pa pb ->
  out_rel (fun x y => fst x = fst y /\ st_rel (snd x) (snd y)) (rx_run fuel i pa) (rx_run fuel i pb).
Proof.
  induction fuel as [|fuel IH]; intros pa pb [a b Hr|a b n Hr|a b ok Hr]; try done; cbn [rx_run rx_goto].
  - apply (IH (rx_try_again i a) (rx_try_again i b)). destruct Hr as (Em & Ed & Hr). unfold rx_try_again.
    rewrite Em. constructor. by split_and!.
  - eapply out_rel_bind; [by apply rx_read_more_rel|]. intros. by apply IH.
Qed.

(** Receiving from related devices. *)
Lemma mt_msg_rx_rel fuel i seq cur s1 s2 dead :
  R s1 s2 ->
  out_rel (fun x y => fst (fst (fst x)) = fst (fst (fst y)) /\ snd (fst (fst x)) = snd (fst (fst y)) /\
                      R (snd (fst x)) (snd (fst y)) /\ snd x = snd y)
    (mt_msg_rx fuel i seq cur s1 dead) (mt_msg_rx fuel i seq cur s2 dead).
Proof.
  intros Hr. unfold mt_msg_rx. apply out_rel_same. intros m.
  eapply out_rel_bind; [apply rx_run_rel; constructor; by split_and!|].
  intros [ok [m1 t1 d1]] [ok' [m2 t2 d2]] [E (Em & Ed & Hr2)]. cbn in E, Em, Ed, Hr2. subst ok' m2 d2.
  by destruct ok.
Qed.

End Simulation.

(** ** The memory stream as a device *)

(** A positive result of [STREAM_rdBytes] counts bytes, zero is a timeout. *)
Definition mem_rdBytes (p : io_stream mem_dev) (n : Z) : rd_result * io_stream mem_dev :=
  if n <=? 0 then (Silent, p)
  else
    match STREAM_rdBytes n (-1) p with
    | Ret ((r, bs), p') => (if 0 <? r then Got bs else if r =? 0 then Silent else Failed, p')
    | _ => (Failed, p)
    end.
Definition mem_room (p : io_stream mem_dev) : nat :=
  from_option (fun m => Z.to_nat (bufsiz m)) 0%nat (opaque_ptr p).
Definition mem_rdDump (p : io_stream mem_dev) : io_stream mem_dev :=
  match STREAM_rdDump (mem_room p + 2) [] p with
  | Ret (_, p') => p'
  | _ => p
  end.

#[export] Instance mem_stream : Stream (io_stream mem_dev) := {|
  rdBytes := mem_rdBytes;
  rdDump := mem_rdDump;
  isConnected p := true
|}.

(** A memory stream and a script that hold the same bytes. *)
Definition same_input (p : io_stream mem_dev) (s : script) : Prop :=
  exists t, mem_sim p t /\ s = MkScript (pend (option_list (t_back t) ++ ahead t) []) true.

Lemma script_read_all w n :
  0 < n -> script_read (MkScript (pend w []) true) n =
  (match w with [] => Silent | _ => Got (take (Z.to_nat n) w) end,
   MkScript (pend (drop (Z.to_nat n) w) []) true).
Proof.
  intros Hn. destruct w as [|b w]; [by rewrite drop_nil|].
  unfold script_read. cbn [pend events connected]. destruct (Z.to_nat n) as [|k] eqn:E; [lia|].
  cbn [take drop firstn skipn]. by destruct (drop k w).
Qed.

Lemma same_rd p s n :
  same_input p s -> 0 < n ->
  fst (mem_rdBytes p n) = fst (script_read s n) /\
  same_input (snd (mem_rdBytes p n)) (snd (script_read s n)).
Proof.
  intros (t & Hs & ->) Hn. rewrite script_read_all by done. unfold mem_rdBytes.
  rewrite (proj2 (Z.leb_gt n 0)) by done.
  pose proof (sim_read p t n (-1) Hs ltac:(lia)) as Hr.
  destruct (tape_read_rest (Z.to_nat n) t ltac:(lia)) as [Hd _].
  set (w := option_list (t_back t) ++ ahead t) in *.
  assert (fst (tape_read (Z.to_nat n) t) = (zlen (take (Z.to_nat n) w), take (Z.to_nat n) w)) as Hb by done.
  destruct (tape_read (Z.to_nat n) t) as [[r bs] t1]. injection Hb as -> ->. cbn [snd] in Hd.
  destruct Hr as (p' & -> & Hs' & _). cbn [fst snd]. split.
  - destruct w as [|b w]; [by rewrite take_nil|]. rewrite (proj2 (Z.ltb_lt 0 _)); [done|].
    unfold zlen. rewrite length_take. cbn [length]. lia.
  - exists t1. split; [done|]. by rewrite Hd.
Qed.

Lemma same_dump p s : same_input p s -> same_input (mem_rdDump p) (rdDump s).
Proof.
  intros (t & Hs & ->). set (w := option_list (t_back t) ++ ahead t).
  assert (rdDump (MkScript (pend w []) true) = MkScript [] true) as -> by (by destruct w).
  assert ((length w <= mem_room p + 1)%nat /\ zlen w < 2 ^ 31) as [Hl Hz].
  { destruct Hs as [_ _ _ (m & Hd & Hm & _ & Hb & Hc)]. unfold mem_room, w, zlen. rewrite Hd. cbn.
    pose proof (mem_pending_length m Hm) as Hl. rewrite (pending_ahead m t Hm Hb Hc) in Hl.
    rewrite length_app. destruct Hm. unfold zlen in *. destruct (t_back t); cbn; lia. }
  destruct (rdDump_ends (mem_room p + 2) p t 0 [] Hs) as (p' & t' & E & Hs' & _ & He);
    [fold w; cbn; lia|lia|fold w; lia|].
  unfold mem_rdDump, STREAM_rdDump. rewrite E. exists t'. split; [done|]. by rewrite He.
Qed.

(** What is received from a script is received from memory. *)
Lemma rx_from_memory fuel i seq cur p w rest dead m :
  same_input p (MkScript (pend w []) true) ->
  mt_msg_rx fuel i seq cur (MkScript (pend w []) true) dead =
    Ret (Some m, None, MkScript (pend rest []) true, dead) ->
  exists p', mt_msg_rx fuel i seq cur p dead = Ret (Some m, None, p', dead) /\
    same_input p' (MkScript (pend rest []) true).
Proof.
  intros Hp E. pose proof (mt_msg_rx_rel same_input same_rd same_dump) as Hr.
  specialize (Hr ltac:(by intros p0 s0 (t0 & _ & ->)) fuel i seq cur _ _ dead Hp). rewrite E in Hr.
  destruct (mt_msg_rx fuel i seq cur p dead) as [[[[a b] p'] d]| |]; try done.
  cbn in Hr. destruct Hr as (-> & -> & Hr & ->). by exists p'.
Qed.

(** Writing to a new stream and reading the same memory with another one. *)
Lemma memory_pipe frame size :
  is_bytes frame -> zlen frame <= size < 2 ^ 31 - 1 ->
  exists w w' m p,
    STREAM_memCreate true true true None size = Some w /\
    STREAM_wrBytes frame (-1) w = Ret (zlen frame, w') /\ opaque_ptr w' = Some m /\
    STREAM_memCreate true true true (Some (pBytes m)) (zlen frame) = Some p /\
    same_input p (MkScript (pend frame []) true).
Proof.
  intros Hf Hs. pose proof (zlen_nonneg frame). eexists. set (zs := replicate (Z.to_nat (size + 1)) 0).
  assert (mem_sim (MkIo Live (Some (MkMem true true zs true 0 size)) 0 false) (MkTape (take (Z.to_nat size) zs) 0 None)) as H0.
  { constructor; [done|done|by constructor|]. eexists. split; [reflexivity|]. split; [|done].
    constructor; cbn; [done|lia|unfold zs, zlen; rewrite length_replicate; lia|lia|by apply Forall_replicate]. }
  pose proof (sim_write _ _ frame (-1) H0 Hf ltac:(lia)) as Hw. unfold tape_write in Hw. cbn [t_bytes t_pos] in Hw.
  rewrite Nat.sub_0_r, length_take, (take_ge frame) in Hw
    by (unfold zs, zlen in *; rewrite length_replicate; lia).
  destruct Hw as (w' & Ew & [_ _ _ (m & Em & Hm & _ & Hb & _)]). cbn [t_bytes] in Hb.
  assert (zlen frame <= bufsiz m <= zlen (pBytes m)) as Hz.
  { destruct Hm. split; [|done]. apply (f_equal length) in Hb. rewrite length_take in Hb.
    rewrite length_splice in Hb by (unfold zs, zlen in *; rewrite length_take, length_replicate; lia).
    rewrite length_take in Hb. unfold zs, zlen in *. rewrite length_replicate in Hb. lia. }
  destruct (mem_create_sim (pBytes m) (zlen frame) (mo_bytes m Hm)) as (p & Ep & Hp); [lia|lia|].
  exists w', m, p. split_and!; try done. eexists. split; [exact Hp|]. do 2 f_equal. cbn.
  rewrite drop_0. apply (f_equal (take (length frame))) in Hb. rewrite take_take, Nat.min_l in Hb by (unfold zlen in *; lia).
  unfold splice in Hb. rewrite take_0, app_nil_l, take_app_length in Hb. unfold zlen. by rewrite Nat2Z.id.
Qed.

(** ** Properties *)

(** C22: From one side to the other through a stream: a message that is built with
    typed writes, written to a memory stream and received from a stream on the
    same memory is the message that was sent: same command, and the fields are
    read back one by one; all input is used up. *)
Theorem mt_memory_stream_roundtrip fuel i seq seq' c0 c1 fs cur dead size :
  is_byte c0 -> is_byte c1 -> Forall field_ok fs -> len_ok i (zlen (fields_enc fs)) ->
  rx_base i + zlen (fields_enc fs) < IOBUF_SIZE -> cur_ok i cur -> (2 <= fuel)%nat ->
  zlen (mt_frame i c0 c1 (fields_enc fs)) <= size < 2 ^ 31 - 1 ->
  exists sent w w' k mem p p' m m',
    build_msg seq i c0 c1 fs = Ret sent /\
    STREAM_memCreate true true true None size = Some w /\
    STREAM_wrBytes (take (Z.to_nat (iobuf_nvalid sent)) (iobuf sent)) (-1) w = Ret (k, w') /\
    opaque_ptr w' = Some mem /\
    STREAM_memCreate true true true (Some (pBytes mem)) k = Some p /\
    mt_msg_rx fuel i seq' cur p dead = Ret (Some m, None, p', dead) /\
    cmd0 m = c0 /\ cmd1 m = c1 /\ read_fields m fs = Ret (fs, m') /\
    MT_MSG_parseComplete m' = Ret m' /\ MtMsg.is_error m' = false /\
    same_input p' (MkScript [] true).
Proof.
  intros H0 H1 Hf Hl Hfit Hc Hfuel Hs.
  destruct (build_spec seq i c0 c1 fs) as (sent & Es & _ & _ & Eb); try done.
  { rewrite base_start in Hfit. destruct (include_chksum i); lia. }
  assert (is_bytes (mt_frame i c0 c1 (fields_enc fs))) as Hb
    by (apply frame_bytes; [done..|by apply fields_enc_bytes]).
  destruct (memory_pipe _ size Hb Hs) as (w & w' & mem & p & Ew & Er & Em & Ep & Hp).
  destruct (rx_reads_back fuel i seq' c0 c1 fs [] cur dead) as (m & m' & E & Hm); try done; [lia|by constructor|].
  rewrite app_nil_r in E.
  destruct (rx_from_memory fuel i seq' cur p _ [] dead m Hp E) as (p' & E' & Hp').
  exists sent, w, w', (zlen (mt_frame i c0 c1 (fields_enc fs))), mem, p, p', m, m'.
  rewrite Eb. destruct Hm as (? & ? & ? & ? & ?). done.
Qed.

Lemma mt_memory_stream_roundtrip_witness :
  exists sent w w' k mem p p' m m',
    build_msg 1 uart_iface 0x2a 0x43 [F8 7; F16 0x1234; FBuf [1; 2]] = Ret sent /\
    STREAM_memCreate true true true None 20 = Some w /\
    STREAM_wrBytes (take (Z.to_nat (iobuf_nvalid sent)) (iobuf sent)) (-1) w = Ret (k, w') /\
    opaque_ptr w' = Some mem /\
    STREAM_memCreate true true true (Some (pBytes mem)) k = Some p /\
    mt_msg_rx 2 uart_iface 2 None p false = Ret (Some m, None, p', false) /\
    cmd0 m = 0x2a /\ cmd1 m = 0x43 /\ read_fields m [F8 7; F16 0x1234; FBuf [1; 2]] = Ret ([F8 7; F16 0x1234; FBuf [1; 2]], m') /\
    MT_MSG_parseComplete m' = Ret m' /\ MtMsg.is_error m' = false /\
    same_input p' (MkScript [] true).
Proof.
  apply (mt_memory_stream_roundtrip 2 uart_iface 1 2 0x2a 0x43 [F8 7; F16 0x1234; FBuf [1; 2]] None false 20).
  - byte_const.
  - byte_const.
  - repeat (apply Forall_cons_2; [cbn; try lia|]); [|apply Forall_nil_2].
    split; [|done]. apply (bool_decide_unpack (is_bytes _)). vm_compute. exact I.
  - byte_const.
  - cbv. done.
  - exact I.
  - lia.
  - vm_compute. split; congruence || reflexivity.
Defined.

End MtStream.
