(* ===== verification/Ini.v ===== *)
(** * Configuration files (gateway_common/src/ini_file.c)

    The parser reads lines with [STREAM_fgets], edits them in place in its work
    buffer and gives sections and items to a callback.  The work buffer is
    memory, names and values are offsets into it; the string functions work on
    that memory.  The conversions of values are in [IniValue]. *)

From Stdlib Require Import ZArith Lia String Ascii.
From stdpp Require Import base list option numbers.
From S2P Require Import Prelude CStr IoStream.

Open Scope Z_scope.

Module Ini.
Import CStr IoStream.

Record ini_parser : Type := MkIni {
  ini_error : bool;
  did_dequote : bool;
  lineno : Z;
  workbuf : list Z;
  cur_section : list Z;        (* the string in it *)
  item_name : option Z;        (* null or an offset in [workbuf] *)
  item_value : option Z
}.

Definition WORKBUF_SIZE : Z := 4096.
Definition SECTION_SIZE : Z := 50.

Definition set_workbuf (d : ini_parser) (b : list Z) : ini_parser :=
  MkIni (ini_error d) (did_dequote d) (lineno d) b (cur_section d) (item_name d) (item_value d).
Definition set_items (d : ini_parser) (n v : option Z) : ini_parser :=
  MkIni (ini_error d) (did_dequote d) (lineno d) (workbuf d) (cur_section d) n v.
Definition set_section (d : ini_parser) (s : list Z) : ini_parser :=
  MkIni (ini_error d) (did_dequote d) (lineno d) (workbuf d) s (item_name d) (item_value d).
Definition set_dequote (d : ini_parser) (b : bool) : ini_parser :=
  MkIni (ini_error d) b (lineno d) (workbuf d) (cur_section d) (item_name d) (item_value d).
Definition set_lineno (d : ini_parser) (n : Z) : ini_parser :=
  MkIni (ini_error d) (did_dequote d) n (workbuf d) (cur_section d) (item_name d) (item_value d).

(** The message is not printed. *)
Definition INI_vsyntaxError (d : ini_parser) : ini_parser :=
  MkIni true (did_dequote d) (lineno d) (workbuf d) (cur_section d) (item_name d) (item_value d).
Definition INI_syntaxError (d : ini_parser) : ini_parser := INI_vsyntaxError d.

(** A null argument is [None]. *)
Definition INI_itemMatches (d : ini_parser) (sectionstr namestr : option (list Z)) : outcome bool :=
  let sectionstr := default (str "*") sectionstr in
  let namestr := default (str "*") namestr in
  let a1 := bool_decide (sectionstr = str "*") || bool_decide (cur_section d = sectionstr) in
  if bool_decide (namestr = str "*") then Ret a1
  else match item_name d with
       | None => Ret false
       | Some n => s ← cstr (workbuf d) n; Ret (a1 && bool_decide (s = namestr))
       end.

Definition is_blank (c : Z) : bool := (c =? 32) || (c =? 9) || (c =? 10) || (c =? 13).

(** The loop that trims the end: the string at [s] gets shorter by one. *)
Fixpoint trim_end (fuel : nat) (mem : list Z) (s : Z) : outcome (list Z) :=
  match fuel with
  | O => NoFuel
  | S fuel =>
      c0 ← byte mem s;
      if c0 =? 0 then Ret mem
      else
        n ← strlen mem s;
        let cp := s + n - 1 in
        c ← byte mem cp;
        if is_blank c then mem ← mem_write mem cp [0]; trim_end fuel mem s
        else Ret mem
  end.

Fixpoint strspn_blank (s : list Z) : Z :=
  match s with
  | c :: s => if is_blank c then 1 + strspn_blank s else 0
  | [] => 0
  end.

Definition _trim_spaces (mem : list Z) (s : Z) : outcome (list Z) :=
  mem ← trim_end (S (length mem)) mem s;
  t ← cstr mem s;
  if strspn_blank t =? 0 then Ret mem
  else
    let l := zlen t + 1 in
    d ← mem_read mem (s + 1) l;
    mem_write mem s d.

Definition _section_name (d : ini_parser) : outcome ini_parser :=
  b ← mem_write (workbuf d) 0 [32];
  let d := set_workbuf d b in
  s ← cstr b 0;
  match strrchr 93 s with
  | None => Ret (INI_syntaxError d)
  | Some cp =>
      b ← mem_write b (Z.of_nat cp) [0];
      b ← _trim_spaces b 0;
      let d := set_workbuf d b in
      s ← cstr b 0;
      if SECTION_SIZE - 1 <? zlen s then Ret (INI_syntaxError d)
      else Ret (set_items (set_section d s) None None)
  end.

Definition _item_name_value (d : ini_parser) : outcome ini_parser :=
  b ← _trim_spaces (workbuf d) 0;
  let d := set_workbuf d b in
  s ← cstr b 0;
  match strchr 61 s with
  | None => Ret (INI_syntaxError d)
  | Some cp =>
      b ← mem_write b (Z.of_nat cp) [0];
      let v := Z.of_nat cp + 1 in
      b ← _trim_spaces b 0;
      b ← _trim_spaces b v;
      Ret (set_items (set_workbuf d b) (Some 0) (Some v))
  end.

Definition ini_init : ini_parser :=
  MkIni false false 0 (replicate (Z.to_nat WORKBUF_SIZE) 0) [] None None.

Definition has_eol (s : list Z) : bool := bool_decide (is_Some (strchr LF s)) || bool_decide (is_Some (strchr CR s)).

(** Blank or comment? *)
Definition is_comment (b : list Z) : outcome bool :=
  c ← byte b 0;
  if (c =? 0) || (c =? 59) || (c =? 35) then Ret true
  else if c =? 47 then c1 ← byte b 1; Ret (c1 =? 47)
  else Ret false.

(** What the loop does after looking at a line: go on, stop, call the client. *)
Inductive step : Type := Continue | Break | Call.

(** The line in the work buffer, up to the call of the client. *)
Definition ini_scan (d : ini_parser) : outcome (ini_parser * step) :=
  s ← cstr (workbuf d) 0;
  if negb (has_eol s) then Ret (INI_syntaxError d, Continue)
  else
    let d := set_dequote (set_items (set_lineno d (int32 (lineno d + 1))) None None) false in
    b ← _trim_spaces (workbuf d) 0;
    let d := set_workbuf d b in
    skip ← is_comment b;
    if (skip : bool) then Ret (d, Continue)
    else
      c ← byte b 0;
      d ← (if c =? 91 then _section_name d else _item_name_value d);
      Ret (d, if ini_error d then Break else Call).

Section Parse.
(** The stream, and the callback with the state of its client: its result, the
    flag [handled], and both states. *)
Context {D : Type} `{io_stream_funcs D} {C : Type}.
Variable callback_fn : ini_parser -> C -> outcome (Z * bool * ini_parser * C).

(** The call, and whether the loop goes on. *)
Definition ini_call (d : ini_parser) (c : C) : outcome (ini_parser * C * bool) :=
  '(r, handled, d, c) ← callback_fn d c;
  if r <? 0 then Ret (d, c, false)
  else if (handled : bool) then Ret (d, c, true)
  else match item_name d with
       | None => Ret (d, c, true)
       | Some _ => Ret (INI_syntaxError d, c, true)
       end.

Definition ini_line (d : ini_parser) (c : C) : outcome (ini_parser * C * bool) :=
  '(d, st) ← ini_scan d;
  match st with
  | Continue => Ret (d, c, true)
  | Break => Ret (d, c, false)
  | Call => ini_call d c
  end.

Fixpoint ini_loop (fuel : nat) (d : ini_parser) (c : C) (s : io_stream D)
  : outcome (ini_parser * C * io_stream D) :=
  match fuel with
  | O => NoFuel
  | S fuel =>
      if ini_error d then Ret (d, c, s)
      else
        '(ok, b, s) ← STREAM_fgets (replicate (Z.to_nat WORKBUF_SIZE) 0) WORKBUF_SIZE s;
        let d := set_workbuf d b in
        if negb ok then Ret (d, c, s)
        else
          '(d, c, more) ← ini_line d c;
          if (more : bool) then ini_loop fuel d c s else Ret (d, c, s)
  end.

Definition INI_parse (fuel : nat) (c : C) (s : io_stream D) : outcome (Z * C * io_stream D) :=
  '(d, c, s) ← ini_loop fuel ini_init c s;
  Ret (if ini_error d then -1 else 0, c, s).

End Parse.

(** [INI_read]: a file that cannot be opened gives -1. *)
Definition INI_read {C} (fopen : list Z -> option FILE) (std : std_file -> FILE) (mem : bool)
    (callback_fn : ini_parser -> C -> outcome (Z * bool * ini_parser * C)) (fuel : nat)
    (filename : list Z) (c : C) : outcome (Z * C) :=
  match STREAM_createRdFile fopen std mem filename with
  | None => Ret (-1, c)
  | Some s =>
      '(r, c, s) ← INI_parse callback_fn fuel c s;
      '(_, s) ← STREAM_close s;
      Ret (r, c)
  end.

(** ** A client that records what it is given *)

Inductive ini_event : Type :=
| EvSection (line : Z) (name : list Z)
| EvItem (line : Z) (section name value : list Z).

#[export] Instance ini_event_eq_dec : EqDecision ini_event.
Proof. solve_decision. Defined.

Definition recorder (d : ini_parser) (log : list ini_event)
  : outcome (Z * bool * ini_parser * list ini_event) :=
  match item_name d, item_value d with
  | Some n, Some v =>
      n ← cstr (workbuf d) n;
      v ← cstr (workbuf d) v;
      Ret (0, true, d, log ++ [EvItem (lineno d) (cur_section d) n v])
  | _, _ => Ret (0, true, d, log ++ [EvSection (lineno d) (cur_section d)])
  end.

Definition text_stream (text : list Z) : io_stream file_dev :=
  MkIo Live (Some (MkFile text [] 0 false false true)) 0 false.

Definition parse_text (text : list Z) : option (Z * list ini_event) :=
  match INI_parse recorder (S (S (length text))) [] (text_stream text) with
  | Ret (r, log, _) => Some (r, log)
  | _ => None
  end.

Example ini_demo :
  parse_text (str "; c" ++ [10] ++ str "[strings]" ++ [13; 10] ++ [10] ++ str " quoted = ab c  " ++ [13] ++ str "x=" ++ [10])
  = Some (0, [EvSection 2 (str "strings"); EvItem 4 (str "strings") (str "quoted") (str "ab c");
              EvItem 5 (str "strings") (str "x") []]).
Proof. vm_compute. reflexivity. Qed.

Example ini_demo_blanks :
  parse_text (str "[ a ]" ++ [10] ++ str "x =   y" ++ [10])
  = Some (0, [EvSection 1 (str " a"); EvItem 2 (str " a") (str "x") (str "  y")]).
Proof. vm_compute. reflexivity. Qed.

(** ** Trimming *)

(** The trailing blanks of a string, and one leading blank. *)
Fixpoint rtrim (s : list Z) : list Z :=
  match s with
  | [] => []
  | c :: s => match rtrim s with
              | [] => if is_blank c then [] else [c]
              | t => c :: t
              end
  end.
Definition ltrim1 (s : list Z) : list Z :=
  match s with c :: s' => if is_blank c then s' else s | [] => [] end.
Definition trim (s : list Z) : list Z := ltrim1 (rtrim s).

Lemma rtrim_snoc_blank s c : is_blank c = true -> rtrim (s ++ [c]) = rtrim s.
Proof. intros Hc. induction s as [|x s IH]; cbn; [by rewrite Hc|by rewrite IH]. Qed.

Lemma rtrim_snoc s c : is_blank c = false -> rtrim (s ++ [c]) = s ++ [c].
Proof.
  intros Hc. induction s as [|x s IH]; cbn; [by rewrite Hc|]. rewrite IH. by destruct s.
Qed.

Lemma rtrim_length s : (length (rtrim s) <= length s)%nat.
Proof. induction s as [|c s IH]; cbn; [lia|]. destruct (rtrim s); [destruct (is_blank c)|]; cbn in *; lia. Qed.

Lemma rtrim_no_zero s : no_zero s -> no_zero (rtrim s).
Proof.
  induction 1 as [|c s Hc _ IH]; [constructor|]. cbn. destruct (rtrim s).
  - destruct (is_blank c); repeat constructor; done.
  - by constructor.
Qed.

Lemma trim_end_run fuel pre : forall s post,
  no_zero s -> (length s < fuel)%nat ->
  trim_end fuel (pre ++ s ++ 0 :: post) (zlen pre) =
    Ret (pre ++ rtrim s ++ 0 :: replicate (length s - length (rtrim s)) 0 ++ post).
Proof.
  induction fuel as [|fuel IH]; intros s post Hs Hf; [lia|]. cbn [trim_end].
  destruct s as [|c s _] using rev_ind.
  { cbn [app]. rewrite byte_at. done. }
  apply Forall_app in Hs as [Hs Hc]. apply Forall_cons_iff in Hc as [Hc _].
  assert (byte (pre ++ (s ++ [c]) ++ 0 :: post) (zlen pre) = Ret (hd c s)) as Eb.
  { destruct s as [|x s]; cbn; apply byte_at. }
  rewrite Eb. cbn [mbind outcome_bind].
  assert (hd c s <> 0) as Hh by (destruct Hs; done). rewrite (proj2 (Z.eqb_neq _ _) Hh).
  rewrite strlen_at by (apply Forall_app; split; [done|by constructor]). cbn [mbind outcome_bind].
  assert (pre ++ (s ++ [c]) ++ 0 :: post = (pre ++ s) ++ c :: 0 :: post) as Em by (by rewrite <- !app_assoc).
  assert (zlen pre + zlen (s ++ [c]) - 1 = zlen (pre ++ s)) as El
    by (rewrite !zlen_app; unfold zlen; cbn; lia).
  rewrite Em, El, byte_at. cbn [mbind outcome_bind]. destruct (is_blank c) eqn:Bc.
  - rewrite mem_write_mid. cbn [mbind outcome_bind]. rewrite <- app_assoc, IH; [|done|rewrite length_app in Hf; cbn in Hf; lia].
    rewrite rtrim_snoc_blank by done. pose proof (rtrim_length s). rewrite length_app. cbn [length].
    replace (length s + 1 - length (rtrim s))%nat with (S (length s - length (rtrim s))) by lia.
    do 4 f_equal. rewrite replicate_S_end. by rewrite <- app_assoc.
  - rewrite rtrim_snoc by done. rewrite Nat.sub_diag. cbn. by rewrite <- !app_assoc.
Qed.

Lemma strspn_zero s : (strspn_blank s =? 0) = match s with c :: _ => negb (is_blank c) | [] => true end.
Proof.
  destruct s as [|c s]; [done|]. cbn. destruct (is_blank c); [|done].
  assert (0 <= strspn_blank s) by (induction s as [|x s IH]; cbn; [lia|destruct (is_blank x); lia]).
  apply Z.eqb_neq. lia.
Qed.

(** [_trim_spaces] on the string between [pre] and [post], which is not empty unless
    there is something to trim at the end: the string becomes its trimmed form,
    and nothing changes outside of it. *)
Lemma trim_spaces_run pre s post :
  no_zero s -> (length (rtrim s) < length s)%nat \/ post <> [] ->
  exists junk, _trim_spaces (pre ++ s ++ 0 :: post) (zlen pre) = Ret (pre ++ trim s ++ 0 :: junk ++ post) /\
    (length (trim s) + length junk = length s)%nat.
Proof.
  intros Hs Hp. unfold _trim_spaces. rewrite trim_end_run; [|done|rewrite !length_app; cbn; lia].
  cbn [mbind outcome_bind]. pose proof (rtrim_no_zero s Hs) as Hr. pose proof (rtrim_length s) as Hl.
  rewrite cstr_at by done. cbn [mbind outcome_bind]. rewrite strspn_zero. unfold trim.
  set (k := (length s - length (rtrim s))%nat) in *.
  destruct (rtrim s) as [|c t] eqn:Er; [exists (replicate k 0); split; [done|rewrite length_replicate; cbn in *; lia]|].
  cbn [ltrim1]. destruct (is_blank c); cbn [negb].
  2:{ exists (replicate k 0). split; [done|]. rewrite length_replicate. unfold k. cbn [length] in *. lia. }
  assert (exists x rest, replicate k 0 ++ post = x :: rest /\ length rest = (k + length post - 1)%nat) as (x & rest & Ex & Hx).
  { destruct k eqn:Ek; [destruct post; [destruct Hp; [unfold k in Ek; lia|done]|]; eexists _, _; split; [done|cbn; lia]|].
    eexists _, _. split; [done|]. rewrite length_app, length_replicate. lia. }
  assert (zlen (c :: t) + 1 = zlen (t ++ [0; x])) as Ez by (rewrite zlen_app; unfold zlen; cbn; lia).
  rewrite Ex, Ez. assert (pre ++ (c :: t) ++ 0 :: x :: rest = (pre ++ [c]) ++ (t ++ [0; x]) ++ rest) as Em
    by (rewrite <- !app_assoc; done).
  rewrite Em. replace (zlen pre + 1) with (zlen (pre ++ [c])) by (rewrite zlen_app; done).
  rewrite mem_read_mid. cbn [mbind outcome_bind].
  replace ((pre ++ [c]) ++ (t ++ [0; x]) ++ rest) with (pre ++ (c :: t ++ [0]) ++ x :: rest)
    by (rewrite <- !app_assoc; cbn; by rewrite <- app_assoc).
  rewrite mem_write_piece by (cbn; rewrite !length_app; cbn; lia).
  exists (x :: replicate k 0). split.
  - do 2 f_equal. cbn [app]. rewrite Ex, <- app_assoc. done.
  - cbn [length] in *. rewrite length_replicate. unfold k. cbn [length]. lia.
Qed.

(** ** What a line means *)

Inductive parsed : Type :=
| PSkip
| PBad
| PSection (name : list Z)
| PItem (name value : list Z).

#[export] Instance parsed_eq_dec : EqDecision parsed.
Proof. solve_decision. Defined.

Definition skips (t : list Z) : bool :=
  match t with
  | [] => true
  | c :: r => (c =? 59) || (c =? 35) || ((c =? 47) && match r with c1 :: _ => c1 =? 47 | [] => false end)
  end.

Definition parse_section (r : list Z) : parsed :=
  match strrchr 93 (32 :: r) with
  | None => PBad
  | Some k => let n := trim (take k (32 :: r)) in if SECTION_SIZE - 1 <? zlen n then PBad else PSection n
  end.
Definition parse_item (t : list Z) : parsed :=
  match strchr 61 t with
  | None => PBad
  | Some k => PItem (trim (take k t)) (trim (drop (S k) t))
  end.

Definition parse_line (s : list Z) : parsed :=
  let t := trim s in
  if skips t then PSkip
  else match t with
       | c :: r => if c =? 91 then parse_section r else parse_item (trim t)
       | [] => PSkip
       end.

Lemma trim_no_zero s : no_zero s -> no_zero (trim s).
Proof.
  intros Hs%rtrim_no_zero. unfold trim. destruct Hs as [|c t Hc Ht]; [constructor|].
  cbn. destruct (is_blank c); [done|by constructor].
Qed.

Lemma trim_length s : (length (trim s) <= length (rtrim s))%nat.
Proof. unfold trim. destruct (rtrim s) as [|c t]; cbn; [lia|]. destruct (is_blank c); cbn; lia. Qed.

Lemma strchr_split c s k : strchr c s = Some k -> s = take k s ++ c :: drop (S k) s.
Proof.
  revert k. induction s as [|b s IH]; intros k; [done|]. cbn [strchr]. destruct (Z.eqb_spec b c) as [->|].
  - by intros [= <-].
  - destruct (strchr c s) as [j|]; [|done]. intros [= <-]. cbn. by rewrite <- IH.
Qed.

Lemma strrchr_split c s k : strrchr c s = Some k -> s = take k s ++ c :: drop (S k) s.
Proof.
  revert k. induction s as [|b s IH]; intros k; [done|]. cbn [strrchr]. destruct (strrchr c s) as [n|].
  - intros [= <-]. cbn. by rewrite <- IH.
  - destruct (Z.eqb_spec b c) as [->|]; [|done]. by intros [= <-].
Qed.

Lemma is_comment_run t rest : no_zero t -> is_comment (t ++ 0 :: rest) = Ret (skips t).
Proof.
  intros Ht. unfold is_comment. destruct t as [|c r].
  { by rewrite (byte_at [] 0 rest : byte ([] ++ 0 :: rest) 0 = Ret 0). }
  rewrite (byte_at [] c (r ++ 0 :: rest) : byte ((c :: r) ++ 0 :: rest) 0 = Ret c). cbn [mbind outcome_bind].
  apply Forall_cons_iff in Ht as [Hc Hr]. rewrite (proj2 (Z.eqb_neq c 0)) by done. cbn [orb skips].
  destruct ((c =? 59) || (c =? 35)); [done|]. cbn [orb]. destruct (c =? 47); [|done]. cbn [andb].
  destruct r as [|c1 r].
  - by rewrite (byte_at [c] 0 rest : byte ([c] ++ 0 :: rest) 1 = Ret 0).
  - by rewrite (byte_at [c] c1 (r ++ 0 :: rest) : byte ((c :: c1 :: r) ++ 0 :: rest) 1 = Ret c1).
Qed.

(** Name and value in the work buffer, one behind the other and with memory behind. *)
Definition shows_item (d : ini_parser) (n v : list Z) : Prop :=
  no_zero n /\ no_zero v /\ exists j post, item_value d = Some (zlen (n ++ 0 :: j)) /\
    workbuf d = (n ++ 0 :: j) ++ v ++ 0 :: post /\ post <> [].

Lemma shows_item_value d n v : shows_item d n v -> exists o, item_value d = Some o /\
  cstr (workbuf d) 0 = Ret n /\ cstr (workbuf d) o = Ret v.
Proof.
  intros (Hn & Hv & j & post & Ho & Hw & _). exists (zlen (n ++ 0 :: j)). split; [done|]. rewrite Hw. split; [|by apply cstr_at].
  rewrite <- app_assoc. by apply (cstr_at [] n).
Qed.

(** The parser when the client is called. *)
Definition shows (d : ini_parser) (sec : list Z) (p : parsed) : Prop :=
  match p with
  | PSection n => cur_section d = n /\ item_name d = None /\ item_value d = None
  | PItem n v => cur_section d = sec /\ item_name d = Some 0 /\ shows_item d n v
  | _ => cur_section d = sec
  end.

Lemma section_name_run d r rest :
  workbuf d = 91 :: r ++ 0 :: rest -> no_zero r -> rest <> [] -> ini_error d = false ->
  exists d', _section_name d = Ret d' /\ lineno d' = lineno d /\ did_dequote d' = did_dequote d /\
    ini_error d' = bool_decide (parse_section r = PBad) /\ shows d' (cur_section d) (parse_section r).
Proof.
  intros Hw Hr Hp He. unfold _section_name, parse_section. rewrite Hw.
  rewrite (mem_write_mid [] 91 (r ++ 0 :: rest) 32 : mem_write (91 :: r ++ 0 :: rest) 0 [32] = _).
  cbn [mbind outcome_bind app]. assert (no_zero (32 :: r)) as Hz by (by constructor).
  rewrite (cstr_at [] (32 :: r) rest Hz : cstr (32 :: r ++ 0 :: rest) 0 = _). cbn [mbind outcome_bind].
  destruct (strrchr 93 (32 :: r)) as [k|] eqn:Ek.
  2:{ eexists. split; [reflexivity|]. by rewrite bool_decide_eq_true_2. }
  apply strrchr_split in Ek. set (a := take k (32 :: r)) in *. set (b := drop (S k) (32 :: r)) in *.
  assert (k = length a) as Hk.
  { unfold a. rewrite length_take. apply (f_equal length) in Ek. unfold a, b in Ek.
    rewrite length_app, length_take in Ek. cbn [length] in Ek. rewrite length_drop in Ek. cbn [length] in Ek |- *. lia. }
  assert (no_zero a) as Ha by (by apply Forall_take).
  change (32 :: r ++ 0 :: rest) with ((32 :: r) ++ 0 :: rest). rewrite Ek, <- app_assoc, Hk.
  change (Z.of_nat (length a)) with (zlen a). cbn [app]. rewrite mem_write_mid. cbn [mbind outcome_bind].
  destruct (trim_spaces_run [] a (b ++ 0 :: rest) Ha) as (junk & E & _); [right; by destruct b|].
  cbn [app] in E. change (zlen (@nil Z)) with 0 in E. rewrite E. cbn [mbind outcome_bind].
  rewrite (cstr_at [] (trim a) _ (trim_no_zero _ Ha) : cstr (trim a ++ 0 :: junk ++ b ++ 0 :: rest) 0 = _).
  cbn [mbind outcome_bind]. destruct (SECTION_SIZE - 1 <? zlen (trim a)).
  - eexists. split; [reflexivity|]. by rewrite bool_decide_eq_true_2.
  - eexists. split; [reflexivity|]. by rewrite bool_decide_eq_false_2.
Qed.

Lemma item_run d t rest :
  workbuf d = t ++ 0 :: rest -> no_zero t -> rest <> [] -> ini_error d = false ->
  exists d', _item_name_value d = Ret d' /\ lineno d' = lineno d /\ did_dequote d' = did_dequote d /\
    ini_error d' = bool_decide (parse_item (trim t) = PBad) /\ shows d' (cur_section d) (parse_item (trim t)).
Proof.
  intros Hw Ht Hp He. unfold _item_name_value, parse_item. rewrite Hw.
  destruct (trim_spaces_run [] t rest Ht) as (junk & E & _); [by right|].
  cbn [app] in E. change (zlen (@nil Z)) with 0 in E. rewrite E. cbn [mbind outcome_bind].
  pose proof (trim_no_zero t Ht) as Hz. set (u := trim t) in *. set (rest1 := junk ++ rest).
  assert (rest1 <> []) as Hp1 by (unfold rest1; by destruct junk).
  rewrite (cstr_at [] u rest1 Hz : cstr (u ++ 0 :: rest1) 0 = _). cbn [mbind outcome_bind].
  destruct (strchr 61 u) as [k|] eqn:Ek.
  2:{ eexists. split; [reflexivity|]. by rewrite bool_decide_eq_true_2. }
  apply strchr_split in Ek. set (a := take k u) in *. set (b := drop (S k) u) in *.
  assert (k = length a) as Hk.
  { unfold a. rewrite length_take. apply (f_equal length) in Ek. unfold a, b in Ek.
    rewrite length_app, length_take in Ek. cbn [length] in Ek. rewrite length_drop in Ek. lia. }
  assert (no_zero a) as Ha by (by apply Forall_take). assert (no_zero b) as Hb by (by apply Forall_drop).
  replace (u ++ 0 :: rest1) with (a ++ 61 :: b ++ 0 :: rest1) by (by rewrite Ek at 1; rewrite <- app_assoc).
  rewrite Hk. change (Z.of_nat (length a)) with (zlen a). rewrite mem_write_mid. cbn [mbind outcome_bind].
  destruct (trim_spaces_run [] a (b ++ 0 :: rest1) Ha) as (j1 & E1 & L1); [right; by destruct b|].
  cbn [app] in E1. change (zlen (@nil Z)) with 0 in E1. rewrite E1. cbn [mbind outcome_bind].
  set (pre := trim a ++ 0 :: j1). assert (zlen a + 1 = zlen pre) as El.
  { unfold pre, zlen. rewrite length_app. cbn [length]. lia. }
  replace (trim a ++ 0 :: j1 ++ b ++ 0 :: rest1) with (pre ++ b ++ 0 :: rest1) by (unfold pre; by rewrite <- app_assoc).
  destruct (trim_spaces_run pre b rest1 Hb) as (j2 & E2 & _); [by right|].
  rewrite El, E2. cbn [mbind outcome_bind]. eexists. split; [reflexivity|]. cbn.
  rewrite bool_decide_eq_false_2 by done. split; [done|]. split; [done|]. split; [done|]. split; [done|].
  split; [done|]. split; [by apply trim_no_zero|]. split; [by apply trim_no_zero|]. exists j1, (j2 ++ rest1).
  split; [done|]. split; [done|]. by destruct j2.
Qed.

Lemma ini_scan_run d s post :
  workbuf d = s ++ 0 :: post -> no_zero s -> has_eol s = true -> (length (rtrim s) < length s)%nat ->
  ini_error d = false ->
  exists d', ini_scan d = Ret (d', match parse_line s with PSkip => Continue | PBad => Break | _ => Call end) /\
    lineno d' = int32 (lineno d + 1) /\ did_dequote d' = false /\
    ini_error d' = bool_decide (parse_line s = PBad) /\ shows d' (cur_section d) (parse_line s).
Proof.
  intros Hw Hs Hl Hr He. unfold ini_scan. rewrite Hw.
  rewrite (cstr_at [] s post Hs : cstr (s ++ 0 :: post) 0 = _). cbn [mbind outcome_bind]. rewrite Hl. cbn [negb workbuf set_dequote set_items set_lineno].
  rewrite Hw. destruct (trim_spaces_run [] s post Hs) as (junk & E & Lj); [by left|].
  cbn [app] in E. change (zlen (@nil Z)) with 0 in E. rewrite E. cbn [mbind outcome_bind].
  pose proof (trim_no_zero s Hs) as Hz. pose proof (trim_length s). set (rest := junk ++ post).
  assert (rest <> []) as Hp by (unfold rest; destruct junk; [cbn in Lj; lia|done]).
  rewrite is_comment_run by done. cbn [mbind outcome_bind]. unfold parse_line.
  destruct (skips (trim s)) eqn:Ek.
  { eexists. split; [reflexivity|]. by rewrite bool_decide_eq_false_2. }
  destruct (trim s) as [|c r] eqn:Et; [done|].
  rewrite (byte_at [] c (r ++ 0 :: rest) : byte ((c :: r) ++ 0 :: rest) 0 = Ret c). cbn [mbind outcome_bind].
  apply Forall_cons_iff in Hz as [Hc Hz].
  set (d1 := set_workbuf _ _). assert (exists d', (if c =? 91 then _section_name d1 else _item_name_value d1) = Ret d' /\
    lineno d' = lineno d1 /\ did_dequote d' = did_dequote d1 /\
    ini_error d' = bool_decide ((if c =? 91 then parse_section r else parse_item (trim (c :: r))) = PBad) /\
    shows d' (cur_section d1) (if c =? 91 then parse_section r else parse_item (trim (c :: r)))) as (d' & E1 & H1 & H2 & H3 & H4).
  { destruct (Z.eqb_spec c 91) as [->|]; [apply section_name_run with rest|apply item_run with rest]; try done.
    by constructor. }
  rewrite E1. cbn [mbind outcome_bind]. exists d'. split; [|done]. rewrite H3. do 2 f_equal.
  destruct (c =? 91).
  - unfold parse_section. destruct (strrchr _ _); [|done]. cbv zeta. by destruct (_ <? _).
  - unfold parse_item. by destruct (strchr _ _).
Qed.

(** ** Lines of a text *)

(** What [STREAM_fgets] delivers ends a line at most at its end. *)
Lemma line_of_shape k : forall bs, exists a e,
  fst (line_of k bs) = a ++ e /\ Forall in_line a /\ (e = [] \/ e = [LF] \/ e = [CR]).
Proof.
  induction k as [|k IH]; intros bs; [exists [], []; cbn; auto|]. destruct bs as [|b bs]; [exists [], []; cbn; auto|].
  cbn [line_of]. destruct (Z.eqb_spec b LF) as [->|H1]; [exists [], [LF]; cbn; auto|].
  destruct (Z.eqb_spec b CR) as [->|H2]; [exists [], [CR]; cbn; auto|]. cbn [orb].
  destruct (IH bs) as (a & e & E & Ha & He). destruct (line_of k bs) as [l r]. cbn in *. subst l.
  exists (b :: a), e. split; [done|]. split; [|done]. by constructor.
Qed.

Lemma next_line_shape k bs : exists a e,
  fst (next_line k bs) = a ++ e /\ Forall in_line a /\ Forall (fun c => is_blank c = true) e.
Proof.
  unfold next_line. destruct (line_of_shape k bs) as (a & e & E & Ha & He).
  destruct (line_of k bs) as [l r]. cbn [fst] in E. subst l. unfold join_lf.
  assert (Forall (fun c => is_blank c = true) e) as Hb by (destruct He as [-> |[-> | ->]]; repeat constructor).
  destruct r as [|b r]; [by exists a, e|]. destruct (_ && _); [|by exists a, e].
  destruct (k <=? _)%nat; [by exists a, e|]. exists a, (e ++ [LF]). cbn. rewrite app_assoc.
  split; [done|]. split; [done|]. apply Forall_app. split; [done|]. by repeat constructor.
Qed.

Lemma has_eol_none s : Forall in_line s -> has_eol s = false.
Proof.
  intros Hs. unfold has_eol. rewrite !strchr_none; [done|revert Hs; apply Forall_impl; by intros ? []..].
Qed.

Lemma until_zero_split l : Forall (fun b => b <> 0) l \/ exists s r, l = s ++ 0 :: r /\ no_zero s.
Proof.
  induction l as [|b l [IH|(s & r & -> & Hs)]]; [by left|..].
  - destruct (decide (b = 0)) as [->|]; [right; exists [], l; split; [done|constructor]|left; by constructor].
  - right. destruct (decide (b = 0)) as [->|]; [exists [], (s ++ 0 :: r); split; [done|constructor]|].
    exists (b :: s), r. split; [done|]. by constructor.
Qed.

Lemma rtrim_app_blank s e : Forall (fun c => is_blank c = true) e -> rtrim (s ++ e) = rtrim s.
Proof.
  intros He. induction e as [|c e IH] using rev_ind; [by rewrite app_nil_r|].
  apply Forall_app in He as [He Hc]. apply Forall_cons_iff in Hc as [Hc _].
  rewrite app_assoc, rtrim_snoc_blank; auto.
Qed.

(** The parser when the client is called. *)
Definition callable (d : ini_parser) : Prop :=
  match item_name d with
  | None => item_value d = None
  | Some o => o = 0 /\ exists n v, shows_item d n v
  end.

(** Any line is taken without a fault. *)
Lemma ini_scan_any d k bs post :
  ini_error d = false -> workbuf d = fst (next_line k bs) ++ 0 :: post ->
  exists d' st, ini_scan d = Ret (d', st) /\ (st = Call -> callable d').
Proof.
  intros He Hw. destruct (next_line_shape k bs) as (a & e & El & Ha & Hb). rewrite El in Hw.
  assert (forall s post, workbuf d = s ++ 0 :: post -> no_zero s -> has_eol s = false ->
    exists d' st, ini_scan d = Ret (d', st) /\ (st = Call -> callable d')) as Hno.
  { intros s post' Hs Hz Hn. exists (INI_syntaxError d), Continue. unfold ini_scan. rewrite Hs.
    rewrite (cstr_at [] s post' Hz : cstr (s ++ 0 :: post') 0 = _). cbn. by rewrite Hn. }
  destruct (until_zero_split a) as [Za|(s & r & -> & Hs)].
  2:{ rewrite <- !app_assoc in Hw. apply (Hno _ _ Hw Hs), has_eol_none. by apply Forall_app in Ha as [? _]. }
  assert (no_zero (a ++ e)) as Hz.
  { apply Forall_app. split; [done|]. revert Hb. apply Forall_impl. intros c Hc ->. done. }
  destruct (has_eol (a ++ e)) eqn:Hn; [|by apply (Hno _ _ Hw Hz)].
  assert (length (rtrim (a ++ e)) < length (a ++ e))%nat as Hl.
  { rewrite rtrim_app_blank by done. pose proof (rtrim_length a). rewrite length_app.
    destruct e; [rewrite app_nil_r, has_eol_none in Hn by done; done|cbn; lia]. }
  destruct (ini_scan_run d (a ++ e) post Hw Hz Hn Hl He) as (d' & E & _ & _ & _ & Hsh).
  eexists d', _. split; [exact E|].
  destruct (parse_line (a ++ e)); try done; cbn [shows] in Hsh; unfold callable.
  - by destruct Hsh as (_ & -> & ->).
  - destruct Hsh as (_ & -> & Hi). intros _. split; [done|]. by eexists _, _.
Qed.

Section Loop.
Context {D : Type} `{Source D} {C : Type}.
Variable callback_fn : ini_parser -> C -> outcome (Z * bool * ini_parser * C).

(** One round of the loop: the line is put into the work buffer and handled. *)
Lemma ini_loop_step fuel d c p l rest :
  stream_ok p -> ini_error d = false -> next_line 4095 (stream_pending p) = (l, rest) ->
  exists p' post, stream_ok p' /\ stream_pending p' = rest /\
    ini_loop callback_fn (S fuel) d c p =
      if bool_decide (l = []) then Ret (set_workbuf d (l ++ 0 :: post), c, p')
      else '(d, c, more) ← ini_line callback_fn (set_workbuf d (l ++ 0 :: post)) c;
           if (more : bool) then ini_loop callback_fn fuel d c p' else Ret (d, c, p').
Proof.
  intros Hp He Hl. cbn [ini_loop]. rewrite He.
  change (replicate (Z.to_nat WORKBUF_SIZE) 0) with (0 :: replicate 4095 0).
  pose proof (fgets_run 4095 0 (replicate 4095 0) p Hp (length_replicate _ _)) as Hf.
  rewrite Hl in Hf. destruct Hf as (tail & p' & E & Hp' & Hr & _).
  change (Z.of_nat 4095 + 1) with WORKBUF_SIZE in E. exists p', (drop (length l) tail).
  split; [done|]. split; [done|]. rewrite E. cbn [mbind outcome_bind]. by destruct (bool_decide (l = [])).
Qed.

Lemma next_line_consumes k bs : (0 < k)%nat -> bs <> [] ->
  (length (snd (next_line k bs)) < length bs)%nat.
Proof.
  intros Hk Hb. destruct k as [|k]; [lia|].
  assert (forall k bs, length (snd (line_of k bs)) <= length bs)%nat as Hle.
  { clear. induction k as [|k IH]; intros [|b bs]; cbn; try lia. destruct (_ || _); cbn; [lia|].
    specialize (IH bs). destruct (line_of k bs). cbn in *. lia. }
  assert (length (snd (line_of (S k) bs)) < length bs)%nat as Hlt.
  { destruct bs as [|b bs]; [done|]. cbn [line_of]. destruct (_ || _); cbn; [lia|].
    specialize (Hle k bs). destruct (line_of k bs). cbn in *. lia. }
  unfold next_line, join_lf. destruct (line_of (S k) bs) as [l r]. cbn in Hlt.
  destruct r as [|b r]; [done|]. destruct (_ && _); [|done]. destruct (_ <=? _)%nat; cbn in *; lia.
Qed.

Lemma ini_loop_returns : (forall d c, callable d -> returns (callback_fn d c)) -> forall fuel d c p,
  stream_ok p -> (length (stream_pending p) + 2 <= fuel)%nat \/ (ini_error d = true /\ (1 <= fuel)%nat) ->
  returns (ini_loop callback_fn fuel d c p).
Proof.
  intros Hcb. induction fuel as [|fuel IH]; intros d c p Hp Hf; [lia|].
  destruct (ini_error d) eqn:He; [cbn; by rewrite He|].
  destruct Hf as [Hf|[? _]]; [|done].
  destruct (next_line 4095 (stream_pending p)) as [l rest] eqn:El.
  destruct (ini_loop_step fuel d c p l rest Hp He El) as (p' & post & Hp' & Hr & ->).
  case_bool_decide as Hl; [exact I|].
  assert (length rest + 2 <= fuel)%nat as Hrest.
  { pose proof (next_line_consumes 4095 (stream_pending p)) as Hn. rewrite El in Hn. cbn [snd] in Hn.
    destruct (stream_pending p) eqn:Ep; [by injection El as <- _|].
    specialize (Hn ltac:(lia) ltac:(done)). cbn [length] in *. lia. }
  unfold ini_line.
  destruct (ini_scan_any (set_workbuf d (l ++ 0 :: post)) 4095 (stream_pending p) post) as (d1 & st & -> & Hc);
    [done|by rewrite El|]. cbn [mbind outcome_bind].
  destruct st; cbn [mbind outcome_bind]; [apply IH; [done|left; by rewrite Hr]|exact I|].
  unfold ini_call. pose proof (Hcb d1 c (Hc eq_refl)) as Hb.
  destruct (callback_fn d1 c) as [[[[r h] d2] c2]| |]; [|done|done]. cbn [mbind outcome_bind].
  destruct (r <? 0); [exact I|]. destruct h; [|destruct (item_name d2)];
    (apply IH; [done|left; by rewrite Hr]).
Qed.

End Loop.

(** ** What a file means *)

(** The events of the lines [ls] behind line [n] of section [sec], up to the first
    bad line, and whether there is none. *)
Fixpoint ini_events (n : Z) (sec : list Z) (ls : list (list Z)) : bool * list ini_event :=
  match ls with
  | [] => (true, [])
  | s :: ls =>
      let n := int32 (n + 1) in
      match parse_line s with
      | PBad => (false, [])
      | PSkip => ini_events n sec ls
      | PSection name => let '(ok, l) := ini_events n name ls in (ok, EvSection n name :: l)
      | PItem name v => let '(ok, l) := ini_events n sec ls in (ok, EvItem n sec name v :: l)
      end
  end.

Lemma eol_blank e : Forall (fun c => is_blank c = true) (eol_bytes e).
Proof. destruct e; repeat constructor. Qed.

(** The line end plays no role. *)
Lemma parse_line_eol l : parse_line (line_bytes l) = parse_line (fst l).
Proof. unfold parse_line, trim, line_bytes. by rewrite rtrim_app_blank by apply eol_blank. Qed.

Lemma has_eol_line l : has_eol (line_bytes l) = true.
Proof.
  unfold has_eol, line_bytes. destruct l as [s e]. cbn [fst snd].
  assert (forall c s1 s2, is_Some (strchr c (s1 ++ c :: s2))) as Hc.
  { intros c s1 s2. induction s1 as [|x s1 IH]; cbn; [by rewrite Z.eqb_refl|].
    destruct (x =? c); [done|]. by apply fmap_is_Some. }
  apply orb_true_iff. destruct e; cbn [eol_bytes].
  - left. by apply bool_decide_eq_true_2.
  - right. by apply bool_decide_eq_true_2.
  - right. by apply bool_decide_eq_true_2.
Qed.

Lemma line_shorter l : (length (rtrim (line_bytes l)) < length (line_bytes l))%nat.
Proof.
  unfold line_bytes. rewrite rtrim_app_blank by apply eol_blank. pose proof (rtrim_length (fst l)).
  rewrite length_app. destruct (snd l); cbn; lia.
Qed.

Section Events.
Context {D : Type} `{Source D}.

(** A complete line and the recording client. *)
Lemma recorder_line d l post log :
  ini_error d = false -> no_zero (fst l) ->
  exists d', ini_line recorder (set_workbuf d (line_bytes l ++ 0 :: post)) log =
    Ret (d', log ++ match parse_line (fst l) with
                    | PSection n => [EvSection (int32 (lineno d + 1)) n]
                    | PItem n v => [EvItem (int32 (lineno d + 1)) (cur_section d) n v]
                    | _ => []
                    end, negb (bool_decide (parse_line (fst l) = PBad))) /\
    lineno d' = int32 (lineno d + 1) /\ ini_error d' = bool_decide (parse_line (fst l) = PBad) /\
    cur_section d' = match parse_line (fst l) with PSection n => n | _ => cur_section d end.
Proof.
  intros He Hz. set (d0 := set_workbuf d _).
  assert (no_zero (line_bytes l)) as Hz' by (apply Forall_app; split; [done|destruct (snd l); repeat constructor; done]).
  destruct (ini_scan_run d0 (line_bytes l) post eq_refl Hz' (has_eol_line l) (line_shorter l) He) as (d' & E & H1 & H2 & H3 & H4).
  rewrite parse_line_eol in *. unfold ini_line. rewrite E. cbn [mbind outcome_bind].
  exists d'. split; [|split; [done|split; [done|]]].
  - destruct (parse_line (fst l)) as [| |n|n v]; cbn [shows] in H4; rewrite ?app_nil_r; [done|done|..]; unfold ini_call, recorder.
    + destruct H4 as (-> & -> & _). cbn. by rewrite H1.
    + destruct H4 as (-> & -> & (o & -> & -> & ->)%shows_item_value). cbn. by rewrite H1.
  - destruct (parse_line (fst l)) as [| |n|n v]; cbn [shows] in H4; try done; by destruct H4.
Qed.

(** The rest of a file behind its last line end. *)
Lemma ini_loop_tail fuel d log p fin :
  stream_ok p -> ini_error d = false -> stream_pending p = fin -> Forall in_line fin -> no_zero fin ->
  (length fin <= 4095)%nat -> (2 <= fuel)%nat ->
  exists d' p', ini_loop recorder fuel d log p = Ret (d', log, p') /\ ini_error d' = negb (bool_decide (fin = [])).
Proof.
  intros Hp He Hf Hi Hz Hl Hfu. destruct fuel as [|[|fuel]]; [lia|lia|].
  destruct (ini_loop_step recorder (S fuel) d log p fin []) as (p' & post & Hp' & Hr & E);
    [done|done|rewrite Hf; by apply next_line_rest|]. rewrite E.
  case_bool_decide as Hn; [by eexists _, _|]. unfold ini_line, ini_scan. cbn [workbuf set_workbuf].
  rewrite (cstr_at [] fin post Hz : cstr (fin ++ 0 :: post) 0 = _). cbn [mbind outcome_bind].
  rewrite has_eol_none by done. cbn. by eexists _, _.
Qed.

Lemma ini_loop_events ls : forall fuel d log p fin,
  stream_ok p -> ini_error d = false -> text_ok 4095 ls -> Forall (fun l => no_zero (fst l)) ls ->
  Forall in_line fin -> no_zero fin -> (length fin <= 4095)%nat ->
  stream_pending p = concat (map line_bytes ls) ++ fin -> (length ls + 2 <= fuel)%nat ->
  exists d' p', ini_loop recorder fuel d log p =
      Ret (d', log ++ snd (ini_events (lineno d) (cur_section d) (map fst ls)), p') /\
    ini_error d' = negb (fst (ini_events (lineno d) (cur_section d) (map fst ls)) && bool_decide (fin = [])).
Proof.
  induction ls as [|[s e] ls IH]; intros fuel d log p fin Hp He Hok Hz Hfi Hfz Hfl Hpd Hfu; cbn [map ini_events fst snd].
  { rewrite app_nil_r. cbn [andb]. by apply ini_loop_tail. }
  destruct Hok as (Hs & Hl & Hm & Hok). apply Forall_cons_iff in Hz as [Hz1 Hz]. cbn [fst snd] in *.
  destruct fuel as [|fuel]; [cbn in Hfu; lia|]. cbn [map concat] in Hpd. rewrite <- app_assoc in Hpd.
  destruct (ini_loop_step recorder fuel d log p (line_bytes (s, e)) (concat (map line_bytes ls) ++ fin))
    as (p1 & post & Hp1 & Hr & E); [done|done| |].
  { rewrite Hpd. unfold line_bytes at 1 3. cbn [fst snd]. rewrite <- app_assoc. apply next_line_line; [done|done|]. intros ->.
    specialize (Hm eq_refl). destruct ls as [|[s2 e2] ls].
    - cbn. destruct Hfi as [|c fin [Hc _]]; [done|]. cbn. congruence.
    - cbn [map concat] in *. by destruct s2, e2. }
  rewrite E, bool_decide_eq_false_2 by (by destruct s, e).
  destruct (recorder_line d (s, e) post log He Hz1) as (d1 & E1 & H1 & H2 & H3). cbn [fst] in *.
  rewrite E1. cbn [mbind outcome_bind].
  assert (length ls + 2 <= fuel)%nat as Hfu' by (cbn in Hfu; lia).
  destruct (parse_line s) as [| |n|n v] eqn:Ep.
  - rewrite bool_decide_eq_false_2 in * by done. cbn [negb]. rewrite app_nil_r.
    rewrite <- H1, <- H3. by apply IH.
  - rewrite bool_decide_eq_true_2 in * by done. cbn [negb]. by eexists d1, p1.
  - rewrite bool_decide_eq_false_2 in * by done. cbn [negb].
    destruct (IH fuel d1 (log ++ [EvSection (int32 (lineno d + 1)) n]) p1 fin) as (d' & p' & E' & He'); try done.
    rewrite H1, H3 in E', He'. destruct (ini_events _ _ _) as [ok l]. exists d', p'.
    rewrite E', <- app_assoc. done.
  - rewrite bool_decide_eq_false_2 in * by done. cbn [negb].
    destruct (IH fuel d1 (log ++ [EvItem (int32 (lineno d + 1)) (cur_section d) n v]) p1 fin) as (d' & p' & E' & He'); try done.
    rewrite H1, H3 in E', He'. destruct (ini_events _ _ _) as [ok l]. exists d', p'.
    rewrite E', <- app_assoc. done.
Qed.

Lemma ini_parse_events ls fin p fuel :
  stream_ok p -> text_ok 4095 ls -> Forall (fun l => no_zero (fst l)) ls ->
  Forall in_line fin -> no_zero fin -> (length fin <= 4095)%nat ->
  stream_pending p = concat (map line_bytes ls) ++ fin -> (length ls + 2 <= fuel)%nat ->
  let '(ok, evs) := ini_events 0 [] (map fst ls) in
  exists p', INI_parse recorder fuel [] p = Ret (if ok && bool_decide (fin = []) then 0 else -1, evs, p').
Proof.
  intros. destruct (ini_loop_events ls fuel ini_init [] p fin) as (d' & p' & E & He); try done.
  cbn [lineno cur_section ini_init] in *. destruct (ini_events 0 [] (map fst ls)) as [ok evs].
  exists p'. unfold INI_parse. rewrite E. cbn [mbind outcome_bind fst snd app] in *. rewrite He.
  by destruct (ok && _).
Qed.

End Events.

(** ** Printing a file *)

(** Blanks within a line. *)
Definition ws (w : list Z) : Prop := Forall (fun c => c = 32 \/ c = 9) w.

Inductive comment_mark : Type := Semicolon | Hash | Slashes.
Definition mark_bytes (m : comment_mark) : list Z :=
  match m with Semicolon => [59] | Hash => [35] | Slashes => [47; 47] end.

(** Lines of a file with the blanks around their parts. *)
Inductive entry : Type :=
| Blank (w : list Z)
| Comment (w1 : list Z) (m : comment_mark) (text : list Z)
| Section' (w1 name w2 w3 : list Z)
| Item (w1 name w2 w3 value w4 : list Z).

Definition print_entry (e : entry) : list Z :=
  match e with
  | Blank w => w
  | Comment w1 m text => w1 ++ mark_bytes m ++ text
  | Section' w1 name w2 w3 => w1 ++ [91] ++ name ++ w2 ++ [93] ++ w3
  | Item w1 name w2 w3 value w4 => w1 ++ name ++ w2 ++ [61] ++ w3 ++ value ++ w4
  end.

(** No blanks at the ends. *)
Definition tight (s : list Z) : Prop :=
  rtrim s = s /\ match s with c :: _ => is_blank c = false | [] => True end.

Definition plain_char (c : Z) : Prop := in_line c /\ c <> 0.

Definition entry_ok (e : entry) : Prop :=
  match e with
  | Blank w => ws w
  | Comment w1 m text => ws w1 /\ (length w1 <= 1)%nat /\ Forall plain_char text
  | Section' w1 name w2 w3 =>
      ws w1 /\ (length w1 <= 1)%nat /\ ws w2 /\ ws w3 /\
      Forall plain_char name /\ rtrim name = name /\ zlen name < SECTION_SIZE
  | Item w1 name w2 w3 value w4 =>
      ws w1 /\ (length w1 <= 1)%nat /\ ws w2 /\ ws w3 /\ (length w3 <= 1)%nat /\ ws w4 /\
      Forall plain_char name /\ tight name /\ name <> [] /\ Forall (fun c => c <> 61) name /\
      skips name = false /\ head name <> Some 91 /\
      Forall plain_char value /\ rtrim value = value /\ (w3 = [] -> tight value)
  end.

Fixpoint entry_events (n : Z) (sec : list Z) (es : list entry) : list ini_event :=
  match es with
  | [] => []
  | e :: es =>
      let n := int32 (n + 1) in
      match e with
      | Section' _ name _ _ => EvSection n name :: entry_events n name es
      | Item _ name _ _ value _ => EvItem n sec name value :: entry_events n sec es
      | _ => entry_events n sec es
      end
  end.

Lemma ws_blank w : ws w -> Forall (fun c => is_blank c = true) w.
Proof. apply Forall_impl. by intros c [-> | ->]. Qed.

Lemma ws_nil : ws [].
Proof. by apply Forall_nil. Qed.

Lemma rtrim_blank w : ws w -> rtrim w = [].
Proof. intros Hw. apply (rtrim_app_blank [] w), ws_blank, Hw. Qed.

Lemma rtrim_app a b : rtrim b <> [] -> rtrim (a ++ b) = a ++ rtrim b.
Proof.
  intros Hb. induction a as [|c a IH]; [done|]. cbn. rewrite IH.
  destruct (a ++ rtrim b) eqn:E; [|done]. apply app_nil in E as [_ E]. done.
Qed.

Lemma rtrim_cons c s : is_blank c = false -> rtrim (c :: s) = c :: rtrim s.
Proof. intros Hc. cbn. destruct (rtrim s); [by rewrite Hc|done]. Qed.

(** One blank in front, any number behind. *)
Lemma trim_pad w1 s w2 : ws w1 -> (length w1 <= 1)%nat -> tight s -> ws w2 -> trim (w1 ++ s ++ w2) = s.
Proof.
  intros H1 Hl [Hs Hh] H2. unfold trim. rewrite app_assoc, rtrim_app_blank by by apply ws_blank.
  destruct s as [|c s]; [by rewrite app_nil_r, rtrim_blank|].
  rewrite rtrim_app by (by rewrite Hs). rewrite Hs. destruct w1 as [|b [|]]; [cbn; by rewrite Hh| |cbn in Hl; lia].
  apply ws_blank, Forall_cons_iff in H1 as [Hb _]. cbn. by rewrite Hb.
Qed.

Lemma trim_tight s : tight s -> trim s = s.
Proof. intros Hs. rewrite <- (app_nil_r s) at 1. apply (trim_pad [] s []); auto using ws_nil; cbn; lia. Qed.

(** With a blank in front, the string may start with blanks of its own. *)
Lemma trim_one b s w2 : ws [b] -> rtrim s = s -> ws w2 -> trim (b :: s ++ w2) = s.
Proof.
  intros Hb Hs H2. unfold trim. rewrite app_comm_cons, rtrim_app_blank by by apply ws_blank.
  destruct s as [|c s]; [by rewrite rtrim_blank|]. change (b :: c :: s) with ([b] ++ c :: s).
  rewrite rtrim_app by (by rewrite Hs). rewrite Hs. cbn.
  apply ws_blank, Forall_cons_iff in Hb as [-> _]. done.
Qed.

Lemma tight_snoc c a b : is_blank c = false -> (b <> [] -> rtrim b = b) ->
  is_blank (hd c a) = false -> tight (a ++ c :: b).
Proof.
  intros Hc Hb Ha. split; [|by destruct a].
  assert (rtrim (c :: b) = c :: b) as E.
  { rewrite rtrim_cons by done. f_equal. destruct b; [done|by apply Hb]. }
  rewrite rtrim_app by (by rewrite E). by rewrite E.
Qed.

Lemma parse_print_section w1 name w2 w3 :
  entry_ok (Section' w1 name w2 w3) -> parse_line (print_entry (Section' w1 name w2 w3)) = PSection name.
Proof.
  intros (H1 & L1 & H2 & H3 & Hp & Ht & Hl). unfold parse_line. cbn [print_entry].
  replace (w1 ++ [91] ++ name ++ w2 ++ [93] ++ w3) with (w1 ++ (91 :: name ++ w2 ++ [93]) ++ w3)
    by (cbn; rewrite <- !app_assoc; done).
  rewrite trim_pad; [|done|done| |done].
  2:{ replace (91 :: name ++ w2 ++ [93]) with ((91 :: name ++ w2) ++ 93 :: []) by (cbn; by rewrite <- app_assoc).
      by apply tight_snoc. }
  cbn. unfold parse_section.
  assert (strrchr 93 (32 :: name ++ w2 ++ [93]) = Some (length (32 :: name ++ w2))) as E.
  { replace (32 :: name ++ w2 ++ [93]) with ((32 :: name ++ w2) ++ 93 :: []) by (cbn; by rewrite <- app_assoc).
    by apply strrchr_at. }
  rewrite E. replace (32 :: name ++ w2 ++ [93]) with ((32 :: name ++ w2) ++ [93]) by (cbn; by rewrite <- app_assoc).
  rewrite take_app_length. rewrite trim_one; [|by repeat constructor|done|done]. cbv zeta.
  by rewrite (proj2 (Z.ltb_ge _ _)) by (unfold SECTION_SIZE in *; lia).
Qed.

Lemma parse_print_item w1 name w2 w3 value w4 :
  entry_ok (Item w1 name w2 w3 value w4) ->
  parse_line (print_entry (Item w1 name w2 w3 value w4)) = PItem name value.
Proof.
  intros (H1 & L1 & H2 & H3 & L3 & H4 & Hn & Ht & Hne & Heq & Hsk & Hbr & Hv & Hv1 & Hvt).
  (* the part that is left when the line is trimmed *)
  assert (exists v3, trim (print_entry (Item w1 name w2 w3 value w4)) = (name ++ w2) ++ 61 :: v3 /\
    tight ((name ++ w2) ++ 61 :: v3) /\ trim v3 = value) as (v3 & Et & Htt & Ev).
  { assert (forall v3, (v3 <> [] -> rtrim v3 = v3) -> tight ((name ++ w2) ++ 61 :: v3)) as Hx.
    { intros v3 Hv3. apply tight_snoc; [done|done|]. destruct Ht as [_ Ht]. by destruct name. }
    cbn [print_entry]. destruct value as [|c value].
    - exists []. split; [|by split; [apply Hx|]].
      replace (w1 ++ name ++ w2 ++ [61] ++ w3 ++ [] ++ w4) with (w1 ++ ((name ++ w2) ++ [61]) ++ (w3 ++ w4))
        by (by rewrite <- !app_assoc).
      apply trim_pad; [done|done|by apply Hx|by apply Forall_app].
    - exists (w3 ++ c :: value). split; [|split].
      + replace (w1 ++ name ++ w2 ++ [61] ++ w3 ++ (c :: value) ++ w4)
          with (w1 ++ ((name ++ w2) ++ 61 :: w3 ++ c :: value) ++ w4) by (rewrite <- !app_assoc; cbn; by rewrite <- !app_assoc).
        apply trim_pad; [done|done| |done]. apply Hx. intros _. rewrite rtrim_app; by rewrite Hv1.
      + apply Hx. intros _. rewrite rtrim_app; by rewrite Hv1.
      + destruct w3 as [|b [|]]; [by apply trim_tight, Hvt| |cbn in L3; lia].
        cbn [app]. rewrite <- (app_nil_r (c :: value)) at 1. by apply trim_one; auto using ws_nil. }
  unfold parse_line. rewrite Et. destruct name as [|c name]; [done|].
  assert (skips (((c :: name) ++ w2) ++ 61 :: v3) = false) as ->.
  { cbn in Hsk |- *. destruct name; [|done]. cbn. apply orb_false_iff in Hsk as [-> _]. cbn [orb].
    destruct w2 as [|b w2]; cbn; [by destruct (c =? 47)|].
    apply Forall_cons_iff in H2 as [[-> | ->] _]; by destruct (c =? 47). }
  cbn [app]. rewrite (proj2 (Z.eqb_neq c 91)) by (intros ->; by apply Hbr).
  change (c :: (name ++ w2) ++ 61 :: v3) with (((c :: name) ++ w2) ++ 61 :: v3).
  rewrite trim_tight by done. unfold parse_item. rewrite strchr_at.
  - rewrite take_app_length.
    assert (drop (S (length ((c :: name) ++ w2))) (((c :: name) ++ w2) ++ 61 :: v3) = v3) as ->
      by (rewrite <- Nat.add_1_r, <- drop_drop, drop_app_length; done).
    rewrite Ev. f_equal. change (trim ([] ++ (c :: name) ++ w2) = c :: name). apply trim_pad; auto using ws_nil; cbn; lia.
  - apply Forall_app. split; [done|]. revert H2. apply Forall_impl. by intros b [-> | ->].
Qed.

Lemma parse_print_comment w1 m text :
  entry_ok (Comment w1 m text) -> parse_line (print_entry (Comment w1 m text)) = PSkip.
Proof.
  intros (H1 & L1 & Hp). unfold parse_line, trim. cbn [print_entry].
  assert (rtrim (mark_bytes m ++ text) = mark_bytes m ++ rtrim text) as E
    by (destruct m; cbn [mark_bytes app]; by rewrite !rtrim_cons).
  rewrite rtrim_app by (rewrite E; by destruct m). rewrite E.
  assert (ltrim1 (w1 ++ mark_bytes m ++ rtrim text) = mark_bytes m ++ rtrim text) as ->; [|by destruct m].
  destruct w1 as [|b [|]]; [by destruct m| |cbn in L1; lia].
  apply ws_blank, Forall_cons_iff in H1 as [Hb _]. cbn. by rewrite Hb.
Qed.

(** What a printed entry is parsed to. *)
Definition entry_parsed (e : entry) : parsed :=
  match e with
  | Section' _ name _ _ => PSection name
  | Item _ name _ _ value _ => PItem name value
  | _ => PSkip
  end.

Lemma parse_print_entry e : entry_ok e -> parse_line (print_entry e) = entry_parsed e.
Proof.
  destruct e; intros He.
  - unfold parse_line, trim. cbn [print_entry]. by rewrite rtrim_blank.
  - by apply parse_print_comment.
  - by apply parse_print_section.
  - by apply parse_print_item.
Qed.

(** The events of a printed file are its entries. *)
Lemma print_events es : forall n sec,
  Forall entry_ok es -> ini_events n sec (map print_entry es) = (true, entry_events n sec es).
Proof.
  induction es as [|e es IH]; intros n sec Hes; [done|]. apply Forall_cons_iff in Hes as [He Hes].
  cbn [map ini_events entry_events]. rewrite parse_print_entry by done. destruct e; cbn [entry_parsed]; by rewrite IH.
Qed.

Lemma ws_plain w : ws w -> Forall plain_char w.
Proof. apply Forall_impl. intros c [-> | ->]; by repeat split. Qed.

Lemma print_plain e : entry_ok e -> Forall plain_char (print_entry e).
Proof.
  assert (forall c, c = 91 \/ c = 93 \/ c = 61 \/ c = 59 \/ c = 35 \/ c = 47 -> plain_char c) as Hc.
  { intros c Hc. unfold plain_char, in_line, LF, CR. lia. }
  destruct e; cbn [entry_ok print_entry]; intros He; destruct_and?;
    rewrite ?Forall_app; repeat split; auto using ws_plain.
  all: try (destruct m); repeat constructor; apply Hc; tauto.
Qed.

(** The printed file, each entry with its line end. *)
Definition print_file (es : list (entry * eol)) : list line := map (fun e => (print_entry (fst e), snd e)) es.

Lemma print_file_plain es :
  Forall (fun e => entry_ok (fst e)) es -> Forall (fun l => no_zero (fst l)) (print_file es).
Proof.
  intros He. apply Forall_map. revert He. apply Forall_impl. intros [e k] He%print_plain. cbn in *.
  revert He. apply Forall_impl. by intros c [].
Qed.

(** ** Properties *)

(** C27: What a configuration file means: for every text without zeros whose lines
    fit the buffer, on every back end, the client of [INI_parse] is given exactly
    the sections and items that the lines denote, with their line numbers and in
    order, up to the first line that is neither; the result is 0 if there is no
    such line and the text ends with a line end, else -1. *)
Theorem ini_parse_refines_lines {D} `{Source D} ls fin (p : io_stream D) fuel :
  stream_ok p -> text_ok 4095 ls -> Forall (fun l => no_zero (fst l)) ls ->
  Forall in_line fin -> no_zero fin -> (length fin <= 4095)%nat ->
  stream_pending p = concat (map line_bytes ls) ++ fin -> (length ls + 2 <= fuel)%nat ->
  exists p', INI_parse recorder fuel [] p =
    Ret (if fst (ini_events 0 [] (map fst ls)) && bool_decide (fin = []) then 0 else -1,
         snd (ini_events 0 [] (map fst ls)), p').
Proof.
  intros. pose proof (ini_parse_events ls fin p fuel) as Hp. destruct (ini_events 0 [] (map fst ls)). by apply Hp.
Qed.

(** C17: Printing and parsing a configuration: a file made of blank lines, comments,
    sections and items, with any blanks behind names, values and brackets, at
    most one blank in front of a line and of a value, and any mixture of line
    ends, its lines no longer than the buffer, is parsed without error and the
    client is given the sections and items that were printed.  Further blanks in
    front of the name of a section or of a value are kept by the code: they are
    part of the name or value that is printed and given to the client. *)
Theorem ini_print_parse {D} `{Source D} es (p : io_stream D) fuel :
  stream_ok p -> Forall (fun e => entry_ok (fst e)) es -> text_ok 4095 (print_file es) ->
  stream_pending p = concat (map line_bytes (print_file es)) -> (length es + 2 <= fuel)%nat ->
  exists p', INI_parse recorder fuel [] p = Ret (0, entry_events 0 [] (map fst es), p').
Proof.
  intros Hp He Ht Hs Hf. pose proof (ini_parse_events (print_file es) [] p fuel) as Hx.
  assert (map fst (print_file es) = map print_entry (map fst es)) as Em
    by (unfold print_file; rewrite !map_map; by apply map_ext).
  rewrite Em, print_events in Hx by (by apply Forall_map). apply Hx; try done.
  - by apply print_file_plain.
  - constructor.
  - cbn. lia.
  - by rewrite app_nil_r.
  - unfold print_file. by rewrite length_map.
Qed.

(** Parsing ends on every text, whatever bytes it holds, and never leaves the
    work buffer, for every client that returns when it is given strings: one
    round per byte of the text and two more are enough. *)
Theorem ini_parse_any_text {D} `{Source D} {C} (callback_fn : ini_parser -> C -> outcome (Z * bool * ini_parser * C))
    (p : io_stream D) c :
  stream_ok p -> (forall d c, callable d -> returns (callback_fn d c)) ->
  returns (INI_parse callback_fn (length (stream_pending p) + 2) c p).
Proof.
  intros Hp Hc. unfold INI_parse.
  pose proof (ini_loop_returns callback_fn Hc (length (stream_pending p) + 2) ini_init c p Hp (or_introl (le_n _))) as Hr.
  by destruct (ini_loop _ _ _ _ _) as [[[d c'] p']| |].
Qed.

(** Leading blanks are not trimmed as the comments say: blanks between a bracket
    and the name of a section become part of the name, and of the blanks in
    front of a value all but one become part of the value. *)
Theorem ini_leading_blanks_kept {D} `{Source D} b w name key value (p : io_stream D) :
  let w' := b :: w in
  let sec := Section' [] (w' ++ name) [] [] in
  let item := Item [] key [] [b] (w ++ value) [] in
  stream_ok p -> ws w' -> entry_ok sec -> entry_ok item -> text_ok 4095 (print_file [(sec, Unix); (item, Unix)]) ->
  stream_pending p = ([91] ++ w' ++ name ++ [93; LF]) ++ (key ++ [61] ++ w' ++ value ++ [LF]) ->
  exists p', INI_parse recorder 4 [] p =
    Ret (0, [EvSection 1 (w' ++ name); EvItem 2 (w' ++ name) key (w ++ value)], p').
Proof.
  intros w' sec item Hp Hw Hs Hi Ht Hpd.
  pose proof (ini_parse_events (print_file [(sec, Unix); (item, Unix)]) [] p 4 Hp Ht) as Hx.
  change (map fst (print_file [(sec, Unix); (item, Unix)])) with (map print_entry [sec; item]) in Hx.
  rewrite print_events in Hx by (constructor; [exact Hs|constructor; [exact Hi|constructor]]).
  apply Hx; try done.
  - apply print_file_plain. constructor; [exact Hs|constructor; [exact Hi|constructor]].
  - constructor.
  - cbn; lia.
  - rewrite Hpd. cbn. by rewrite <- !app_assoc, !app_nil_r; cbn; rewrite <- !app_assoc.
Qed.

(** ** Instances *)

#[export] Instance in_line_dec c : Decision (in_line c).
Proof. unfold in_line. apply _. Defined.
#[export] Instance plain_char_dec c : Decision (plain_char c).
Proof. unfold plain_char. apply _. Defined.

(** Conditions on concrete lines. *)
Ltac by_forall :=
  match goal with |- Forall ?P ?l => apply (bool_decide_unpack (Forall P l)); vm_compute; exact I end.
Ltac by_entry :=
  cbn [entry_ok fst snd text_ok print_file map print_entry];
  repeat match goal with |- _ /\ _ => split end;
  unfold ws, no_zero, tight; try solve [by_forall | apply Nat.leb_le; vm_compute; reflexivity | done | vm_compute; done | intros; done].

Definition demo_ini : list (entry * eol) :=
  [(Comment [] Semicolon (str " settings"), Unix); (Blank [32; 9], Dos);
   (Section' [] (str "uart-0") [32] [], Mac); (Item [9] (str "baud rate") [32; 32] [32] (str "115200") [32], Dos);
   (Item [] (str "x") [] [] [] [], Unix)].

Definition demo_pending : list Z := concat (map line_bytes (print_file demo_ini)).

Lemma demo_stream_ok l : is_bytes l -> stream_ok (text_stream l).
Proof. intros Hl. split; [done|]. split; [|cbn; lia]. eexists. split; [reflexivity|]. exact Hl. Qed.

Lemma ini_print_parse_witness :
  exists p', INI_parse recorder 7 [] (text_stream demo_pending) =
    Ret (0, [EvSection 3 (str "uart-0"); EvItem 4 (str "uart-0") (str "baud rate") (str "115200");
             EvItem 5 (str "uart-0") (str "x") []], p').
Proof.
  apply (ini_print_parse demo_ini (text_stream demo_pending) 7).
  - apply demo_stream_ok. unfold is_bytes. by_forall.
  - repeat (apply Forall_cons_2; [by_entry|]). apply Forall_nil_2.
  - unfold demo_ini. by_entry.
  - reflexivity.
  - cbn. lia.
Defined.

Lemma ini_parse_refines_lines_witness :
  exists p', INI_parse recorder 9 [] (text_stream (str "[a]" ++ [10] ++ str "b" ++ [13; 10] ++ str "c = 1")) =
    Ret (-1, [EvSection 1 (str "a")], p').
Proof.
  apply (ini_parse_refines_lines [(str "[a]", Unix); (str "b", Dos)] (str "c = 1")
           (text_stream (str "[a]" ++ [10] ++ str "b" ++ [13; 10] ++ str "c = 1")) 9).
  - apply demo_stream_ok. unfold is_bytes. by_forall.
  - by_entry.
  - repeat (apply Forall_cons_2; [by_entry|]). apply Forall_nil_2.
  - by_forall.
  - by_entry.
  - cbn. lia.
  - reflexivity.
  - cbn. lia.
Defined.

Lemma ini_parse_any_text_witness :
  let p := text_stream [0; 91; 10; 255; 13; 61] in
  returns (INI_parse recorder (length (stream_pending p) + 2) [] p).
Proof.
  apply (ini_parse_any_text recorder (text_stream [0; 91; 10; 255; 13; 61]) []).
  - apply demo_stream_ok. unfold is_bytes. by_forall.
  - intros d c Hd. unfold callable in Hd. unfold recorder. destruct (item_name d), (item_value d) eqn:Ev; try done.
    destruct Hd as (-> & n & v & (o & Eo & -> & Ec)%shows_item_value). rewrite Ev in Eo. injection Eo as <-.
    by rewrite Ec.
Defined.

Lemma ini_leading_blanks_kept_witness :
  exists p', INI_parse recorder 4 [] (text_stream ((str "[  a]" ++ [10]) ++ (str "k=  v" ++ [10]))) =
    Ret (0, [EvSection 1 (str "  a"); EvItem 2 (str "  a") (str "k") (str " v")], p').
Proof.
  apply (ini_leading_blanks_kept 32 [32] (str "a") (str "k") (str "v")
           (text_stream ((str "[  a]" ++ [10]) ++ (str "k=  v" ++ [10])))).
  - apply demo_stream_ok. unfold is_bytes. by_forall.
  - by_entry.
  - by_entry.
  - by_entry.
  - by_entry.
  - reflexivity.
Defined.

End Ini.
