(* ===== verification/IniValue.v ===== *)
(** * Values in configuration files (gateway_common/src/ini_file.c)

    The functions a client calls on the value of an item: numbers, booleans,
    quoted strings, flags, indexed sections and lists of numbers.  They read the
    string in the work buffer of the parser, and some edit it in place. *)

From Stdlib Require Import ZArith Lia String Ascii.
From stdpp Require Import base list option numbers.
From S2P Require Import Prelude CStr IoStream Ini.

Open Scope Z_scope.

Module IniValue.
Import CStr IoStream Ini.

Definition INT_MAX : Z := 2 ^ 31 - 1.
Definition INT_MIN : Z := - 2 ^ 31.

(** The value is not null when the client is called for an item. *)
Definition value_at (d : ini_parser) : outcome Z := deref (item_value d).

Definition _dehex (v : Z) : Z :=
  if (97 <=? v) && (v <=? 102) then 10 + v - 97
  else if (65 <=? v) && (v <=? 70) then 10 + v - 65
  else if (48 <=? v) && (v <=? 57) then 0 + v - 48
  else -1.

(** The one-letter escapes. *)
Definition simple_escape (a : Z) : option Z :=
  if a =? 97 then Some 0x07
  else if a =? 98 then Some 0x08
  else if a =? 102 then Some 0x0c
  else if a =? 110 then Some 0x0a
  else if a =? 114 then Some 0x0d
  else if a =? 116 then Some 0x09
  else if a =? 118 then Some 0x0b
  else if a =? 34 then Some 34
  else if a =? 92 then Some 92
  else if a =? 39 then Some 39
  else None.

(** The length of the escape [abc] and its value. *)
Definition escape_value (a b c : Z) : option (Z * Z) :=
  match simple_escape a with
  | Some v => Some (1, v)
  | None =>
      if a =? 120 then
        let b := _dehex b in
        let c := _dehex c in
        if (b <? 0) || (c <? 0) then None else Some (3, b * 16 + c)
      else
        let a := _dehex a in
        let b := _dehex b in
        let c := _dehex c in
        if (a <? 0) || (b <? 0) || (c <? 0) || (3 <? a) || (7 <? b) || (7 <? c) then None
        else Some (3, a * 8 * 8 + b * 8 + c)
  end.

(** Where reading goes on, and the value. *)
Definition _parse_backslash (mem : list Z) (rd : Z) : outcome (option (Z * Z)) :=
  a ← byte mem (rd + 0);
  b ← byte mem (rd + 1);
  c ← byte mem (rd + 2);
  Ret (match escape_value a b c with
       | Some (len, value) => Some (rd + len, value)
       | None => None
       end).

Definition _single_quote_number (d : ini_parser) : outcome (option Z) :=
  iv ← value_at d;
  let mem := workbuf d in
  q ← byte mem (iv + 0);
  if negb (q =? 39) then Ret None
  else
    c1 ← byte mem (iv + 1);
    r ← (if c1 =? 92 then _parse_backslash mem (iv + 2)
         else Ret (Some (iv + 2, Z.land c1 0x0ff)));
    match r with
    | None => Ret None
    | Some (cp, val) =>
        e0 ← byte mem (cp + 0);
        if negb (e0 =? 39) then Ret None
        else e1 ← byte mem (cp + 1); Ret (if e1 =? 0 then Some val else None)
    end.

(** A number that uses up the string, or a quoted character. *)
Definition whole_number (d : ini_parser) (conv : list Z -> Z * nat) : outcome (option Z) :=
  iv ← value_at d;
  q ← byte (workbuf d) iv;
  if q =? 39 then _single_quote_number d
  else
    s ← cstr (workbuf d) iv;
    let '(v, n) := conv s in
    e ← byte (workbuf d) (iv + Z.of_nat n);
    Ret (if negb (e =? 0) || (n =? 0)%nat then None else Some v).

Definition INI_isValueU64 (d : ini_parser) : outcome (option Z) :=
  v ← whole_number d (strtoull 0); Ret (option_map u64 v).
Definition INI_isValueS64 (d : ini_parser) : outcome (option Z) := whole_number d (strtoll 0).

Definition number_or_error (d : ini_parser) (v : option Z) : Z * ini_parser :=
  match v with Some v => (v, d) | None => (0, INI_syntaxError d) end.

Definition INI_valueAsU64 (d : ini_parser) : outcome (Z * ini_parser) :=
  v ← INI_isValueU64 d; Ret (number_or_error d v).
Definition INI_valueAsS64 (d : ini_parser) : outcome (Z * ini_parser) :=
  v ← INI_isValueS64 d; Ret (number_or_error d v).

Definition INI_isValueInt (d : ini_parser) : outcome (option Z * ini_parser) :=
  v ← INI_isValueS64 d;
  match v with
  | None => Ret (None, d)
  | Some v64 =>
      if (v64 <? INT_MIN) && (INT_MAX <? v64) then Ret (None, INI_syntaxError d)
      else Ret (Some (int32 v64), d)
  end.
Definition INI_valueAsInt (d : ini_parser) : outcome (Z * ini_parser) :=
  '(v, d) ← INI_isValueInt d; Ret (number_or_error d v).

(** Floating point numbers: their type, the conversion of an [int] and [strtod],
    which gives the number and where it stopped, are arguments. *)
Section Double.
Context {F : Type}.
Variables (of_int : Z -> F) (strtod : list Z -> F * nat).

Definition INI_isValueDouble (d : ini_parser) : outcome (option F) :=
  iv ← value_at d;
  q ← byte (workbuf d) iv;
  if q =? 39 then v ← _single_quote_number d; Ret (option_map of_int v)
  else
    s ← cstr (workbuf d) iv;
    let '(v, n) := strtod s in
    e ← byte (workbuf d) (iv + Z.of_nat n);
    Ret (if negb (e =? 0) || (n =? 0)%nat then None else Some v).
Definition INI_valueAsDouble (d : ini_parser) : outcome (F * ini_parser) :=
  v ← INI_isValueDouble d;
  Ret (match v with Some v => (v, d) | None => (of_int 0, INI_syntaxError d) end).
End Double.

(** ASCII letters are compared without case. *)
Definition tolower (c : Z) : Z := if (65 <=? c) && (c <=? 90) then c + 32 else c.
Definition strcaseeq (a b : list Z) : bool := bool_decide (map tolower a = map tolower b).

Definition t_strs : list (list Z) := map str ["y"; "yes"; "t"; "true"; "1"]%string.
Definition f_strs : list (list Z) := map str ["n"; "no"; "f"; "false"; "0"]%string.

Definition INI_isValueBool (d : ini_parser) : outcome (option bool) :=
  iv ← value_at d;
  s ← cstr (workbuf d) iv;
  Ret (if existsb (fun t => strcaseeq t s) t_strs then Some true
       else if existsb (fun t => strcaseeq t s) f_strs then Some false
       else None).
Definition INI_valueAsBool (d : ini_parser) : outcome (bool * ini_parser) :=
  v ← INI_isValueBool d;
  Ret (match v with Some b => (b, d) | None => (false, INI_syntaxError d) end).

(** ** Quoted strings *)

(** One character [c] of a quoted string, the rest of its escape at [rd]. *)
Definition read_char (d : ini_parser) (c rd : Z) : outcome (Z * Z * ini_parser) :=
  if c =? 92 then
    r ← _parse_backslash (workbuf d) rd;
    match r with
    | Some (rd, v) => Ret (v, rd, d)
    | None => Ret (63, rd, INI_syntaxError d)
    end
  else Ret (c, rd, d).

(** The loop of [INI_dequote]: where writing stopped, and the parser. *)
Fixpoint dequote_loop (fuel : nat) (d : ini_parser) (quotechar rd wr : Z) : outcome (Z * ini_parser) :=
  match fuel with
  | O => NoFuel
  | S fuel =>
      if ini_error d then Ret (wr, d)
      else
        c ← byte (workbuf d) rd;
        let rd := rd + 1 in
        if c =? 0 then Ret (wr, d)
        else if c =? quotechar then Ret (wr, INI_syntaxError d)
        else
          '(c, rd, d) ← read_char d c rd;
          b ← mem_write (workbuf d) wr [u8 c];
          dequote_loop fuel (set_workbuf d b) quotechar rd (wr + 1)
  end.

Definition INI_dequote (d : ini_parser) : outcome (Z * ini_parser) :=
  if did_dequote d then Ret (0, d)
  else
    let d := set_dequote d true in
    iv ← value_at d;
    c ← byte (workbuf d) iv;
    if negb ((c =? 34) || (c =? 39)) then n ← strlen (workbuf d) iv; Ret (int32 n, d)
    else
      c1 ← byte (workbuf d) (iv + 1);
      if c1 =? 0 then Ret (0, INI_syntaxError d)
      else
        let iv := iv + 1 in
        let d := set_items d (item_name d) (Some iv) in
        n ← strlen (workbuf d) iv;
        let cp := iv + n - 1 in
        e ← byte (workbuf d) cp;
        if negb (e =? c) then Ret (0, INI_syntaxError d)
        else
          b ← mem_write (workbuf d) cp [0];
          '(wr, d) ← dequote_loop (S (length b)) (set_workbuf d b) c iv iv;
          b ← mem_write (workbuf d) wr [0];
          Ret (int32 (wr - iv), set_workbuf d b).

(** [mem] tells whether [strdup] gets memory. *)
Definition INI_itemValue_strdup (mem : bool) (d : ini_parser) : outcome (option (list Z) * ini_parser) :=
  '(_, d) ← INI_dequote d;
  iv ← value_at d;
  s ← cstr (workbuf d) iv;
  if mem then Ret (Some s, d) else Ret (None, INI_syntaxError d).

(** ** Flags and indexed sections *)

Record ini_flag_name : Type := MkFlag { flag_name : list Z; flag_value : Z }.

(** The entry found, and whether the name was negated. *)
Definition INI_flagLookup (flags : list ini_flag_name) (s : list Z) : option ini_flag_name * bool :=
  let isnot := bool_decide (take 4 s = str "not-") in
  let s := if isnot then drop 4 s else s in
  (List.find (fun f => bool_decide (flag_name f = s)) flags, isnot).

(** The index, and whether it is one. *)
Definition INI_isNth (d : ini_parser) (sectionprefix : list Z) : Z * bool * ini_parser :=
  let l := length sectionprefix in
  if negb (bool_decide (take l (cur_section d) = sectionprefix)) then (0, false, d)
  else
    let cp := drop l (cur_section d) in
    let '(n, ep) := strtol 10 cp in
    let nth := u32 (int32 n) in
    if (ep =? 0)%nat || negb (ep =? length cp)%nat then (nth, false, INI_syntaxError d)
    else (nth, true, d).

(** ** Lists of numbers *)

(** [struct ini_numlist]; the parser it points to is passed along. *)
Record ini_numlist : Type := MkList { nl_value : Z; nl_error : bool }.

Definition starts_number (c : Z) : bool := (c =? 45) || ((48 <=? c) && (c <=? 57)).

Definition INI_valueAsNumberList_init (d : ini_parser) : outcome (ini_numlist * ini_parser) :=
  iv ← value_at d;
  b ← _trim_spaces (workbuf d) iv;
  let d := set_workbuf d b in
  c ← byte b iv;
  Ret (MkList 0 false, if starts_number c then d else INI_syntaxError d).

Definition INI_valueAsNumberList_next (p : ini_numlist) (d : ini_parser) : outcome (Z * ini_numlist * ini_parser) :=
  if nl_error p then Ret (EOF, p, d)
  else
    cp ← value_at d;
    b ← _trim_spaces (workbuf d) cp;
    let d := set_workbuf d b in
    c ← byte b cp;
    if c =? 0 then Ret (EOF, p, d)
    else
      s ← cstr b cp;
      let '(v, n) := strtol 0 s in
      let p := MkList (int32 v) (nl_error p) in
      if (n =? 0)%nat then Ret (EOF, MkList (nl_value p) true, INI_syntaxError d)
      else
        let ep := cp + Z.of_nat n in
        b ← _trim_spaces b ep;
        Ret (0, p, set_items (set_workbuf d b) (item_name d) (Some ep)).

(** ** Numbers *)

(** The value of the item is the string [s], between [pre] and [post]. *)
Record holds (d : ini_parser) (pre s post : list Z) : Prop := MkHolds {
  h_buf : workbuf d = pre ++ s ++ 0 :: post;
  h_at : item_value d = Some (zlen pre);
  h_str : no_zero s
}.

Lemma byte_off a l k b : l !! k = Some b -> byte (a ++ l) (zlen a + Z.of_nat k) = Ret b.
Proof.
  intros Hk. rewrite <- (take_drop_middle l k b Hk), app_assoc.
  replace (zlen a + Z.of_nat k) with (zlen (a ++ take k l)); [apply byte_at|].
  rewrite zlen_app. unfold zlen. rewrite length_take. apply lookup_lt_Some in Hk. lia.
Qed.

Lemma print_int_digits n : Forall (fun c => c = 45 \/ dec_char c) (print_int n).
Proof.
  assert (forall m, 0 <= m -> Forall (fun c => c = 45 \/ dec_char c) (print_nat m)) as Hm.
  { intros m Hm. destruct (dec_digits_ok _ _ (print_nat_fuel m Hm)) as [Hd _]. revert Hd. apply Forall_impl. auto. }
  unfold print_int. destruct (Z.ltb_spec n 0); [constructor; [by left|]|]; apply Hm; lia.
Qed.

Lemma print_int_last n : exists r c, print_int n = r ++ [c] /\ dec_char c.
Proof.
  assert (forall m, 0 <= m -> exists r c, print_nat m = r ++ [c] /\ dec_char c) as Hm.
  { intros m Hm. unfold print_nat. cbn [dec_digits]. destruct (Z.ltb_spec m 10).
    - exists [], (48 + m). split; [done|unfold dec_char; lia].
    - eexists _, _. split; [reflexivity|]. pose proof (Z.mod_pos_bound m 10). unfold dec_char. lia. }
  unfold print_int. destruct (Z.ltb_spec n 0); [|by apply Hm].
  destruct (Hm (- n)) as (r & c & -> & Hc); [lia|]. by exists (45 :: r), c.
Qed.

Lemma dec_char_facts c : c = 45 \/ dec_char c -> c <> 0 /\ c <> 39 /\ is_blank c = false /\ is_space c = false.
Proof.
  unfold dec_char, is_blank, is_space. intros Hc.
  rewrite !(proj2 (Z.eqb_neq c _)) by lia. rewrite (proj2 (Z.leb_gt c 13)) by lia. rewrite andb_false_r. lia.
Qed.

Lemma print_int_no_zero n : no_zero (print_int n).
Proof.
  pose proof (print_int_digits n) as H. revert H. apply Forall_impl. intros c Hc. by apply dec_char_facts.
Qed.

Lemma print_int_cons n : exists c r, print_int n = c :: r /\ (c = 45 \/ dec_char c).
Proof.
  pose proof (print_int_digits n) as Hd. destruct (print_int n) as [|c r] eqn:E.
  - destruct (print_int_last n) as (r & c & E' & _). rewrite E in E'. by destruct r.
  - apply Forall_cons_iff in Hd as [Hc _]. by exists c, r.
Qed.

(** A printed number is converted as a whole. *)
Lemma whole_number_print d pre n post conv :
  holds d pre (print_int n) post -> conv (print_int n) = (n, length (print_int n)) ->
  whole_number d conv = Ret (Some n).
Proof.
  intros [Hb Ha Hs] Hc. unfold whole_number, value_at. rewrite Ha, Hb. cbn [deref mbind outcome_bind].
  destruct (print_int_cons n) as (c & r & E & Hd). pose proof (byte_off pre (print_int n ++ 0 :: post)) as Hy.
  specialize (Hy (length (print_int n)) 0) as Hy0.
  rewrite E in Hy. specialize (Hy 0%nat c eq_refl). rewrite Z.add_0_r, <- E in Hy. rewrite Hy. cbn [mbind outcome_bind].
  destruct (dec_char_facts c Hd) as (_ & Hq & _). rewrite (proj2 (Z.eqb_neq c 39)) by done.
  rewrite cstr_at by done. cbn [mbind outcome_bind]. rewrite Hc.
  rewrite Hy0 by (rewrite lookup_app_r, Nat.sub_diag by lia; done). cbn [mbind outcome_bind].
  rewrite E. done.
Qed.

(** ** Quoting *)

Definition hexc (v : Z) : Z := if v <? 10 then 48 + v else 87 + v.

Definition esc (b : Z) : list Z :=
  if b =? 34 then [92; 34]
  else if b =? 92 then [92; 92]
  else if (32 <=? b) && (b <? 127) then [b]
  else [92; 120; hexc (b / 16); hexc (b mod 16)].
Definition enc (s : list Z) : list Z := concat (map esc s).
Definition quote (s : list Z) : list Z := 34 :: enc s ++ [34].

Lemma dehex_hexc v : 0 <= v < 16 -> _dehex (hexc v) = v.
Proof.
  intros Hv. unfold _dehex, hexc. destruct (Z.ltb_spec v 10).
  - rewrite (proj2 (Z.leb_gt 97 _)), (proj2 (Z.leb_gt 65 _)), (proj2 (Z.leb_le 48 _)), (proj2 (Z.leb_le _ 57)) by lia. cbn. lia.
  - rewrite (proj2 (Z.leb_le 97 _)), (proj2 (Z.leb_le _ 102)) by lia. cbn. lia.
Qed.

Lemma esc_shape b : is_byte b ->
  (esc b = [b] /\ b <> 0 /\ b <> 34 /\ b <> 92) \/ (exists x, esc b = [92; x] /\ simple_escape x = Some b /\ x <> 0) \/
  esc b = [92; 120; hexc (b / 16); hexc (b mod 16)].
Proof.
  intros Hb. unfold esc, is_byte in *. destruct (Z.eqb_spec b 34) as [->|]; [right; left; by exists 34|].
  destruct (Z.eqb_spec b 92) as [->|]; [right; left; by exists 92|].
  destruct (Z.leb_spec 32 b); [|by right; right]. destruct (Z.ltb_spec b 127); [|by right; right].
  left. split; [done|lia].
Qed.

Lemma hexc_bound v : 0 <= v < 16 -> 48 <= hexc v <= 102.
Proof. unfold hexc. destruct (Z.ltb_spec v 10); lia. Qed.

Lemma nibbles b : is_byte b -> 0 <= b / 16 < 16 /\ 0 <= b mod 16 < 16 /\ b / 16 * 16 + b mod 16 = b.
Proof. unfold is_byte. intros. Z.to_euclidean_division_equations. lia. Qed.

Lemma enc_no_zero s : is_bytes s -> no_zero (enc s).
Proof.
  induction 1 as [|b s Hb _ IH]; [by apply Forall_nil|]. apply Forall_app. split; [|done].
  destruct (nibbles b Hb) as (H1%hexc_bound & H2%hexc_bound & _).
  destruct (esc_shape b Hb) as [(-> & ? & _)|[(x & -> & _ & ?)| ->]]; repeat (constructor; [lia|]); by apply Forall_nil.
Qed.

Lemma enc_length s : is_bytes s -> (length s <= length (enc s))%nat.
Proof.
  induction 1 as [|b s Hb _ IH]; [done|]. unfold enc in *. cbn [map concat]. rewrite length_app. cbn [length].
  destruct (esc_shape b Hb) as [(-> & _)|[(x & -> & _)| ->]]; cbn; lia.
Qed.

Lemma read_esc d a b rest :
  is_byte b -> (3 <= length rest)%nat -> workbuf d = a ++ esc b ++ rest ->
  exists c, byte (workbuf d) (zlen a) = Ret c /\ c <> 0 /\ c <> 34 /\
    read_char d c (zlen a + 1) = Ret (b, zlen a + zlen (esc b), d).
Proof.
  intros Hb Hr Hw. unfold read_char. rewrite Hw.
  assert (forall k x, (esc b ++ rest) !! k = Some x -> byte (a ++ esc b ++ rest) (zlen a + Z.of_nat k) = Ret x) as Hy
    by (intros; by apply byte_off).
  destruct rest as [|r0 [|r1 [|r2 rest]]]; try (cbn in Hr; lia).
  destruct (nibbles b Hb) as (H1 & H2 & H3). pose proof (hexc_bound _ H1). pose proof (hexc_bound _ H2).
  assert (forall x y z len v, (esc b ++ r0 :: r1 :: r2 :: rest) !! 1%nat = Some x ->
    (esc b ++ r0 :: r1 :: r2 :: rest) !! 2%nat = Some y -> (esc b ++ r0 :: r1 :: r2 :: rest) !! 3%nat = Some z ->
    escape_value x y z = Some (len, v) ->
    _parse_backslash (a ++ esc b ++ r0 :: r1 :: r2 :: rest) (zlen a + 1) = Ret (Some (zlen a + 1 + len, v))) as Hpb.
  { intros x y z len v Hx Hyy Hz He. unfold _parse_backslash.
    replace (zlen a + 1 + 0) with (zlen a + Z.of_nat 1) by lia.
    replace (zlen a + 1 + 1) with (zlen a + Z.of_nat 2) by lia.
    replace (zlen a + 1 + 2) with (zlen a + Z.of_nat 3) by lia.
    rewrite (Hy _ _ Hx), (Hy _ _ Hyy), (Hy _ _ Hz). cbn [mbind outcome_bind]. by rewrite He. }
  destruct (esc_shape b Hb) as [(E & N0 & N1 & N2)|[(x & E & Hx & _)|E]]; rewrite E in *;
    pose proof (Hy 0%nat _ eq_refl) as Y0; rewrite Z.add_0_r in Y0; rewrite Y0.
  - exists b. rewrite (proj2 (Z.eqb_neq b 92)) by done. by split_and!.
  - exists 92. split_and!; try done. cbn [Z.eqb Pos.eqb].
    rewrite (Hpb x r0 r1 1 b); try done; [|unfold escape_value; by rewrite Hx]. cbn [mbind outcome_bind].
    do 3 f_equal. unfold zlen. cbn. lia.
  - exists 92. split_and!; try done. cbn [Z.eqb Pos.eqb].
    rewrite (Hpb 120 (hexc (b / 16)) (hexc (b mod 16)) 3 b); try done.
    + cbn [mbind outcome_bind]. do 3 f_equal. unfold zlen. cbn. lia.
    + unfold escape_value. change (simple_escape 120) with (@None Z). change (120 =? 120) with true. cbv beta iota zeta.
      rewrite !dehex_hexc by done. rewrite !(proj2 (Z.ltb_ge _ 0)) by lia. cbn [orb]. by rewrite H3.
Qed.

Lemma set_workbuf_same d b : workbuf d = b -> set_workbuf d b = d.
Proof. intros <-. by destruct d. Qed.

(** The loop: [done] is written, [gap] lies between writing and reading. *)
Lemma dequote_loop_run s : forall fuel d done gap post,
  is_bytes s -> (length s < fuel)%nat -> (2 <= length post)%nat -> ini_error d = false ->
  workbuf d = done ++ gap ++ enc s ++ 0 :: post ->
  exists x rest, dequote_loop fuel d 34 (zlen (done ++ gap)) (zlen done) =
    Ret (zlen (done ++ s), set_workbuf d ((done ++ s) ++ x :: rest)) /\
    length ((done ++ s) ++ x :: rest) = length (workbuf d).
Proof.
  induction s as [|b s IH]; intros fuel d done gap post Hs Hf Hp He Hw; destruct fuel as [|fuel]; try (cbn in Hf; lia);
    cbn [dequote_loop]; rewrite He.
  - change (enc []) with (@nil Z) in Hw. cbn [app] in Hw. rewrite app_assoc in Hw.
    rewrite Hw, byte_at. cbn [mbind outcome_bind Z.eqb]. rewrite app_nil_r, <- app_assoc in *. destruct gap as [|g gap].
    + exists 0, post. by rewrite set_workbuf_same.
    + exists g, (gap ++ 0 :: post). by rewrite set_workbuf_same.
  - apply Forall_cons_iff in Hs as [Hb Hs]. change (enc (b :: s)) with (esc b ++ enc s) in Hw.
    rewrite <- app_assoc, app_assoc in Hw. destruct (read_esc d (done ++ gap) b (enc s ++ 0 :: post)) as (c & E0 & N0 & N1 & E1);
      [done|rewrite length_app; cbn; lia|done|].
    rewrite E0. cbn [mbind outcome_bind]. rewrite (proj2 (Z.eqb_neq c 0)), (proj2 (Z.eqb_neq c 34)) by done.
    rewrite E1. cbn [mbind outcome_bind].
    assert (exists g t, gap ++ esc b = g :: t) as (g & t & Eg).
    { destruct gap as [|g gap]; [|by eexists _, _]. cbn.
      destruct (esc_shape b Hb) as [(-> & _)|[(x & -> & _)| ->]]; by eexists _, _. }
    assert (workbuf d = done ++ g :: t ++ enc s ++ 0 :: post) as Hw2.
    { rewrite Hw, <- app_assoc, (app_assoc gap), Eg. done. }
    rewrite Hw2, mem_write_mid. cbn [mbind outcome_bind]. unfold is_byte in Hb. rewrite u8_id by done.
    replace (zlen done + 1) with (zlen (done ++ [b])) by (rewrite zlen_app; done).
    replace (zlen (done ++ gap) + zlen (esc b)) with (zlen ((done ++ [b]) ++ t)).
    2:{ apply (f_equal zlen) in Eg. rewrite !zlen_app in *. unfold zlen in *. cbn [length] in *. lia. }
    set (d1 := set_workbuf d _). destruct (IH fuel d1 (done ++ [b]) t post) as (x & rest & E & Hl); try done.
    { cbn in Hf. lia. } { unfold d1. cbn. by rewrite <- app_assoc. }
    exists x, rest. rewrite E. rewrite <- !app_assoc in *. cbn [app] in *. split; [done|]. rewrite Hl.
    unfold d1. cbn. by rewrite !length_app.
Qed.

(** ** Lists of numbers *)

(** A list as it is printed: blanks in front of every number but the first. *)
Fixpoint print_more (l : list (list Z * Z)) : list Z :=
  match l with [] => [] | (w, n) :: l => w ++ print_int n ++ print_more l end.
Definition more_ok (l : list (list Z * Z)) : Prop :=
  Forall (fun wn => ws (fst wn) /\ fst wn <> [] /\ - 2 ^ 63 <= snd wn < 2 ^ 63) l.

(** Read numbers until there are no more. *)
Fixpoint read_list (fuel : nat) (p : ini_numlist) (d : ini_parser) : outcome (list Z * ini_numlist * ini_parser) :=
  match fuel with
  | O => NoFuel
  | S fuel =>
      '(r, p, d) ← INI_valueAsNumberList_next p d;
      if r <? 0 then Ret ([], p, d)
      else '(l, p', d) ← read_list fuel p d; Ret (nl_value p :: l, p', d)
  end.

Lemma skip_spaces_ws w c s : ws w -> is_space c = false -> skip_spaces (w ++ c :: s) = length w.
Proof.
  intros Hw Hc. induction Hw as [|b w Hb _ IH]; cbn; [by rewrite Hc|].
  replace (is_space b) with true by (by destruct Hb as [-> | ->]). by rewrite IH.
Qed.

Lemma strtol_spaces w n rest :
  ws w -> ends_number rest -> - 2 ^ 63 <= n < 2 ^ 63 ->
  strtol 0 (w ++ print_int n ++ rest) = (n, (length w + length (print_int n))%nat).
Proof.
  intros Hw Hr Hn. pose proof (strtoll_print 0 n rest (or_introl eq_refl) Hr Hn) as E.
  unfold strtol, strtoll, scan_number in *. destruct (print_int_cons n) as (c & r & Ec & Hc).
  destruct (dec_char_facts c Hc) as (_ & _ & _ & Hs). rewrite Ec in *. cbn [app] in *.
  rewrite skip_spaces_ws by done. change (skip_spaces (c :: r ++ rest)) with (if is_space c then S (skip_spaces (r ++ rest)) else O) in E. rewrite Hs in E.
  rewrite drop_app_length. cbn [length] in E. rewrite drop_0 in E.
  destruct (if c =? 45 then _ else _) as [neg j]. destruct (scan_digits 0 (drop j (c :: r ++ rest))) as [v k].
  destruct (k =? 0)%nat; [by injection E as _ E|]. injection E as E1 E2. rewrite E1. f_equal. cbn [length] in *. lia.
Qed.

Lemma number_rtrim n m : rtrim m = m -> rtrim (print_int n ++ m) = print_int n ++ m.
Proof.
  intros Hm. destruct (print_int_last n) as (r & c & -> & Hc). destruct (dec_char_facts c (or_intror Hc)) as (_ & _ & Hb & _).
  destruct m as [|x m]; [rewrite app_nil_r; by apply rtrim_snoc|]. rewrite rtrim_app; by rewrite Hm.
Qed.

Lemma more_facts l : more_ok l ->
  no_zero (print_more l) /\ rtrim (print_more l) = print_more l /\ ends_number (print_more l).
Proof.
  induction 1 as [|[w n] l (Hw & Hne & _) _ (IH1 & IH2 & IH3)]; [by repeat split; try apply Forall_nil|]. cbn [fst] in *.
  pose proof (number_rtrim n _ IH2) as E.
  destruct (print_int_cons n) as (c & r & Ec & Hc). split; [|split].
  - cbn [print_more]. apply Forall_app. split; [revert Hw; apply Forall_impl; by intros b [-> | ->]|].
    apply Forall_app. split; [apply print_int_no_zero|done].
  - cbn [print_more]. rewrite rtrim_app; rewrite E; [done|by rewrite Ec].
  - cbn [print_more]. destruct Hw as [|b w [-> | ->] _]; [done|..]; by cbn.
Qed.

(** Trimming leaves blanks and the same number in front. *)
Lemma trim_number w n l :
  ws w -> more_ok l ->
  exists w', ws w' /\ trim (w ++ print_int n ++ print_more l) = w' ++ print_int n ++ print_more l.
Proof.
  intros Hw Hl. destruct (more_facts l Hl) as (_ & Hr & _). set (x := print_int n ++ print_more l).
  assert (rtrim x = x) as E by by apply number_rtrim.
  destruct (print_int_cons n) as (c & r & Ec & Hc). destruct (dec_char_facts c Hc) as (_ & _ & Hb & _).
  assert (x = c :: r ++ print_more l) as Ex by (unfold x; by rewrite Ec).
  unfold trim. rewrite rtrim_app by (rewrite E, Ex; done). rewrite E. destruct w as [|b w].
  - exists []. split; [done|]. rewrite Ex. cbn. by rewrite Hb.
  - exists w. apply ws_blank in Hw as Hw'. apply Forall_cons_iff in Hw as [_ Hw]. split; [done|].
    apply Forall_cons_iff in Hw' as [Hb' _]. cbn. by rewrite Hb'.
Qed.

Lemma number_no_zero w n l : ws w -> more_ok l -> no_zero (w ++ print_int n ++ print_more l).
Proof.
  intros Hw Hl. apply Forall_app. split; [revert Hw; apply Forall_impl; by intros b [-> | ->]|].
  apply Forall_app. split; [apply print_int_no_zero|by apply more_facts].
Qed.

(** One number is taken; the rest of the list, trimmed, is the value that is left. *)
Lemma list_next p d pre w n l post :
  holds d pre (w ++ print_int n ++ print_more l) post -> post <> [] -> nl_error p = false ->
  ws w -> more_ok l -> - 2 ^ 63 <= n < 2 ^ 63 ->
  exists d' pre' post', INI_valueAsNumberList_next p d = Ret (0, MkList (int32 n) false, d') /\
    holds d' pre' (trim (print_more l)) post' /\ post' <> [] /\ ini_error d' = ini_error d.
Proof.
  intros [Hb Ha Hs] Hp He Hw Hl Hn. unfold INI_valueAsNumberList_next, value_at. rewrite He, Ha, Hb.
  cbn [deref mbind outcome_bind].
  destruct (trim_spaces_run pre _ post Hs (or_intror Hp)) as (junk & E & _). rewrite E. cbn [mbind outcome_bind].
  destruct (trim_number w n l Hw Hl) as (w' & Hw' & ->). set (s := w' ++ print_int n ++ print_more l) in *.
  assert (no_zero s) as Hz by by apply number_no_zero.
  destruct (print_int_cons n) as (c & r & Ec & Hc).
  assert (exists x y, s = x :: y /\ x <> 0) as (x & y & Ex & Hx).
  { unfold s. rewrite Ec. destruct w' as [|b w2]; [exists c; eexists; split; [done|by apply dec_char_facts]|].
    exists b. eexists. split; [done|]. by apply Forall_cons_iff in Hw' as [[-> | ->] _]. }
  rewrite Ex. cbn [app]. rewrite byte_at. cbn [mbind outcome_bind]. rewrite (proj2 (Z.eqb_neq x 0)) by done.
  change (x :: y ++ 0 :: junk ++ post) with ((x :: y) ++ 0 :: junk ++ post). rewrite <- Ex, cstr_at by done.
  cbn [mbind outcome_bind]. destruct (more_facts l Hl) as (Hz2 & _ & Hends).
  assert (strtol 0 s = (n, (length w' + length (print_int n))%nat)) as Et by by apply strtol_spaces.
  rewrite Et. assert ((length w' + length (print_int n) =? 0)%nat = false) as -> by (apply Nat.eqb_neq; rewrite Ec; cbn; lia).
  set (pre' := pre ++ w' ++ print_int n). assert (zlen pre + Z.of_nat (length w' + length (print_int n)) = zlen pre') as Ep.
  { unfold pre'. rewrite !zlen_app. unfold zlen. lia. }
  replace (pre ++ s ++ 0 :: junk ++ post) with (pre' ++ print_more l ++ 0 :: junk ++ post)
    by (unfold pre', s; by rewrite <- !app_assoc).
  destruct (trim_spaces_run pre' (print_more l) (junk ++ post) Hz2) as (j2 & E2 & _); [right; by destruct junk|].
  rewrite Ep, E2. cbn [mbind outcome_bind nl_error]. eexists _, pre', (j2 ++ junk ++ post). split; [reflexivity|].
  split; [constructor; [done|done|by apply trim_no_zero]|]. split; [by destruct j2, junk|done].
Qed.

Lemma list_end p d pre post :
  holds d pre [] post -> post <> [] -> nl_error p = false ->
  exists d', INI_valueAsNumberList_next p d = Ret (EOF, p, d') /\ ini_error d' = ini_error d.
Proof.
  intros [Hb Ha Hs] Hp He. unfold INI_valueAsNumberList_next, value_at. rewrite He, Ha, Hb. cbn [deref mbind outcome_bind].
  destruct (trim_spaces_run pre _ post Hs (or_intror Hp)) as (junk & E & _). rewrite E. cbn [mbind outcome_bind].
  cbn [trim rtrim ltrim1 app]. rewrite byte_at. cbn. by eexists.
Qed.

Lemma read_list_run l : forall fuel p d pre post,
  holds d pre (trim (print_more l)) post -> post <> [] -> nl_error p = false -> more_ok l -> (length l < fuel)%nat ->
  exists p' d', read_list fuel p d = Ret (map (fun wn => int32 (snd wn)) l, p', d') /\
    nl_error p' = false /\ ini_error d' = ini_error d.
Proof.
  induction l as [|[w n] l IH]; intros fuel p d pre post Hd Hp He Hl Hf; destruct fuel as [|fuel]; try (cbn in Hf; lia);
    cbn [read_list].
  - destruct (list_end p d pre post Hd Hp He) as (d' & -> & H'). cbn. by eexists _, _.
  - apply Forall_cons_iff in Hl as [(Hw & _ & Hn) Hl]. cbn [fst snd print_more] in *.
    destruct (trim_number w n l Hw Hl) as (w' & Hw' & Et). rewrite Et in Hd.
    destruct (list_next p d pre w' n l post Hd Hp He Hw' Hl Hn) as (d1 & pre' & post' & E & Hd1 & Hp1 & He1).
    rewrite E. cbn [mbind outcome_bind Z.ltb Z.compare].
    destruct (IH fuel (MkList (int32 n) false) d1 pre' post' Hd1 Hp1 eq_refl Hl) as (p' & d' & E' & H1 & H2); [cbn in Hf; lia|].
    rewrite E'. cbn. eexists _, _. split; [done|]. split; [done|congruence].
Qed.

(** ** Properties *)

Lemma int_print d pre n post :
  holds d pre (print_int n) post -> - 2 ^ 63 <= n < 2 ^ 63 ->
  INI_isValueS64 d = Ret (Some n) /\ INI_isValueInt d = Ret (Some (int32 n), d).
Proof.
  intros Hd Hn. assert (INI_isValueS64 d = Ret (Some n)) as Hs.
  { eapply whole_number_print; [done|]. rewrite <- (app_nil_r (print_int n)) at 1. apply strtoll_print; [by left|done|done]. }
  split; [done|]. unfold INI_isValueInt. rewrite Hs. cbn [mbind outcome_bind].
  replace ((n <? INT_MIN) && (INT_MAX <? n)) with false; [done|].
  unfold INT_MIN, INT_MAX. destruct (Z.ltb_spec n (- 2 ^ 31)), (Z.ltb_spec (2 ^ 31 - 1) n); cbn; lia || done.
Qed.

(** Numbers are read back: a value that is the decimal numeral of [n] is
    converted to [n] by the 64 bit conversions within their range, and by the
    [int] conversion within the range of [int]; beyond it, the [int] conversion
    gives the number modulo 2^32 and reports no error, because its range check
    can never hold. *)
Theorem ini_number_roundtrip d pre n post :
  holds d pre (print_int n) post ->
  (- 2 ^ 63 <= n < 2 ^ 63 -> INI_valueAsS64 d = Ret (n, d) /\ INI_valueAsInt d = Ret (int32 n, d)) /\
  (0 <= n < 2 ^ 64 -> INI_valueAsU64 d = Ret (n, d)) /\
  (INT_MIN <= n <= INT_MAX -> INI_valueAsInt d = Ret (n, d)).
Proof.
  intros Hd.
  assert (- 2 ^ 63 <= n < 2 ^ 63 -> INI_valueAsInt d = Ret (int32 n, d)) as Hi.
  { intros Hn. destruct (int_print d pre n post Hd Hn) as [_ E]. unfold INI_valueAsInt. by rewrite E. }
  split; [|split].
  - intros Hn. split; [|by apply Hi]. unfold INI_valueAsS64. by rewrite (proj1 (int_print d pre n post Hd Hn)).
  - intros Hn. unfold INI_valueAsU64, INI_isValueU64. erewrite whole_number_print; [|done|].
    + cbn. by rewrite u64_id.
    + rewrite <- (app_nil_r (print_int n)) at 1. apply strtoull_print; [by left|done|done].
  - unfold INT_MIN, INT_MAX. intros Hn. rewrite Hi by lia. by rewrite int32_id by lia.
Qed.

Lemma dequote_quoted d pre s post :
  is_bytes s -> zlen s < 2 ^ 31 -> holds d pre (quote s) post -> post <> [] ->
  did_dequote d = false -> ini_error d = false ->
  exists d' rest, INI_dequote d = Ret (zlen s, d') /\ item_value d' = Some (zlen pre + 1) /\
    workbuf d' = (pre ++ [34]) ++ s ++ 0 :: rest /\ length (workbuf d') = length (workbuf d) /\
    did_dequote d' = true /\ ini_error d' = false /\
    cur_section d' = cur_section d /\ item_name d' = item_name d.
Proof.
  intros Hs Hl [Hb Ha _] Hp Hq He. unfold INI_dequote, value_at. rewrite Hq. cbn [set_dequote item_value workbuf]. rewrite Ha.
  cbn [deref mbind outcome_bind]. unfold quote in Hb. pose proof (enc_no_zero s Hs) as Hz.
  assert (no_zero (enc s ++ [34])) as Hz2 by (apply Forall_app; split; [done|by constructor]).
  assert (workbuf d = pre ++ 34 :: enc s ++ 34 :: 0 :: post) as Hb1 by (rewrite Hb; cbn; by rewrite <- app_assoc).
  assert (workbuf d = (pre ++ [34]) ++ (enc s ++ [34]) ++ 0 :: post) as Hb2 by (rewrite Hb1, <- !app_assoc; done).
  assert (workbuf d = ((pre ++ [34]) ++ enc s) ++ 34 :: 0 :: post) as Hb3 by (rewrite Hb1, <- !app_assoc; done).
  rewrite Hb1, byte_at, <- Hb1. cbn [mbind outcome_bind Z.eqb Pos.eqb orb negb].
  assert (zlen pre + 1 = zlen (pre ++ [34])) as Ep by (rewrite zlen_app; done). rewrite Ep.
  assert (exists c y, enc s ++ [34] = c :: y /\ c <> 0) as (c & y & Ec & Hc).
  { destruct (enc s ++ [34]) as [|c y] eqn:E; [by apply app_nil in E as [_ ?]|]. exists c, y.
    split; [done|]. by apply Forall_cons_iff in Hz2 as [? _]. }
  assert (byte (workbuf d) (zlen (pre ++ [34])) = Ret c) as -> by (rewrite Hb2, Ec; apply byte_at).
  cbn [mbind outcome_bind]. rewrite (proj2 (Z.eqb_neq c 0)) by done.
  cbn [set_items set_dequote workbuf item_name]. rewrite Hb2, strlen_at, <- Hb2 by done. cbn [mbind outcome_bind].
  replace (zlen (pre ++ [34]) + zlen (enc s ++ [34]) - 1) with (zlen ((pre ++ [34]) ++ enc s))
    by (rewrite (zlen_app (enc s)), (zlen_app _ (enc s)); unfold zlen; cbn; lia).
  rewrite Hb3, byte_at, mem_write_mid. cbn [mbind outcome_bind Z.eqb Pos.eqb negb].
  set (b := ((pre ++ [34]) ++ enc s) ++ 0 :: 0 :: post). set (d1 := set_workbuf _ b).
  destruct (dequote_loop_run s (S (length b)) d1 (pre ++ [34]) [] (0 :: post)) as (x & rest & E & Hlen); try done.
  { unfold b. rewrite !length_app. pose proof (enc_length s Hs). cbn. lia. }
  { cbn. destruct post; [done|cbn; lia]. }
  { unfold d1, b. cbn. by rewrite <- app_assoc. }
  rewrite app_nil_r in E. rewrite E. cbn [mbind outcome_bind set_workbuf workbuf]. rewrite mem_write_mid. cbn [mbind outcome_bind].
  rewrite zlen_app, Z.add_simpl_l, int32_id by (pose proof (zlen_nonneg s); lia).
  eexists _, rest. split; [reflexivity|]. cbn. split; [done|]. rewrite <- !app_assoc. split; [done|].
  split; [|done]. unfold d1, b in Hlen. cbn in Hlen. rewrite !length_app in *. cbn in *.
  rewrite ?length_app in *. cbn in *. lia.
Qed.

(** Quoting is undone: for every sequence of bytes [s], zeros included, a value
    that is the quoted and escaped form of [s] is turned by [INI_dequote] into
    [s] followed by a zero, in place, and the length of [s] is returned. *)
Theorem ini_dequote_roundtrip d pre s post :
  is_bytes s -> zlen s < 2 ^ 31 -> holds d pre (quote s) post -> post <> [] ->
  did_dequote d = false -> ini_error d = false ->
  exists d' rest, INI_dequote d = Ret (zlen s, d') /\ item_value d' = Some (zlen pre + 1) /\
    workbuf d' = (pre ++ [34]) ++ s ++ 0 :: rest /\ length (workbuf d') = length (workbuf d) /\
    did_dequote d' = true /\ ini_error d' = false.
Proof.
  intros. destruct (dequote_quoted d pre s post) as (d' & rest & ? & ? & ? & ? & ? & ? & _); try done. by exists d', rest.
Qed.

(** A list of numbers is read back: the numbers of a printed list, separated by
    any blanks, come out one by one in order, reduced to [int], then the end is
    reported, and no error. *)
Theorem ini_number_list_roundtrip d pre w n l post :
  ws w -> (length w <= 1)%nat -> more_ok l -> - 2 ^ 63 <= n < 2 ^ 63 ->
  holds d pre (w ++ print_int n ++ print_more l) post -> post <> [] -> ini_error d = false ->
  exists p d1 p' d', INI_valueAsNumberList_init d = Ret (p, d1) /\
    read_list (length l + 2) p d1 = Ret (int32 n :: map (fun wn => int32 (snd wn)) l, p', d') /\
    nl_error p' = false /\ ini_error d' = false.
Proof.
  intros Hw Hwl Hl Hn [Hb Ha Hs] Hp He. unfold INI_valueAsNumberList_init, value_at. rewrite Ha, Hb.
  cbn [deref mbind outcome_bind]. destruct (trim_spaces_run pre _ post Hs (or_intror Hp)) as (junk & E & _).
  set (s := print_int n ++ print_more l) in *. assert (trim (w ++ s) = s) as Et.
  { destruct (more_facts l Hl) as (_ & Hr & _). rewrite <- (app_nil_r s) at 1. apply trim_pad; [done|done| |apply ws_nil].
    destruct (print_int_cons n) as (c & r & Ec & Hc). split; [by apply number_rtrim|].
    unfold s. rewrite Ec. by apply dec_char_facts. }
  rewrite Et in E. rewrite E. cbn [mbind outcome_bind].
  destruct (print_int_cons n) as (c & r & Ec & Hc).
  assert (byte (pre ++ s ++ 0 :: junk ++ post) (zlen pre) = Ret c) as -> by (unfold s; rewrite Ec; apply byte_at).
  cbn [mbind outcome_bind]. assert (starts_number c = true) as ->.
  { unfold starts_number, dec_char in *. destruct Hc as [-> |Hc]; [done|].
    rewrite (proj2 (Z.leb_le 48 c)), (proj2 (Z.leb_le c 57)) by lia. by rewrite orb_true_r. }
  set (d1 := set_workbuf d _).
  assert (holds d1 pre ([] ++ print_int n ++ print_more l) (junk ++ post)) as Hd1.
  { constructor; [done|done|]. by apply (number_no_zero [] n l ws_nil). }
  destruct (list_next (MkList 0 false) d1 pre [] n l (junk ++ post) Hd1) as (d2 & pre' & post' & E2 & Hd2 & Hp2 & He2);
    [by destruct junk|done|apply ws_nil|done|done|].
  destruct (read_list_run l (length l + 1) (MkList (int32 n) false) d2 pre' post' Hd2 Hp2 eq_refl Hl) as (p' & d' & E3 & H1 & H2); [lia|].
  eexists (MkList 0 false), d1, p', d'. split; [done|]. replace (length l + 2)%nat with (S (length l + 1)) by lia.
  cbn [read_list]. rewrite E2. cbn [mbind outcome_bind Z.ltb Z.compare]. rewrite E3. cbn. split; [done|].
  split; [done|]. rewrite H2, He2. done.
Qed.

(** ** Instances *)

Definition demo_item (s : list Z) : ini_parser :=
  MkIni false false 1 (str "x" ++ [0] ++ s ++ 0 :: replicate 5 0) [] (Some 0) (Some 2).

Lemma demo_item_holds s : no_zero s -> holds (demo_item s) [120; 0] s (replicate 5 0).
Proof. by constructor. Qed.

Lemma ini_number_roundtrip_witness :
  INI_valueAsInt (demo_item (str "-42")) = Ret (-42, demo_item (str "-42")) /\
  INI_valueAsInt (demo_item (str "4294967298")) = Ret (2, demo_item (str "4294967298")).
Proof.
  split.
  - apply (ini_number_roundtrip (demo_item (str "-42")) [120; 0] (-42) (replicate 5 0)).
    + apply (demo_item_holds (print_int (-42))), print_int_no_zero.
    + unfold INT_MIN, INT_MAX. lia.
  - apply (ini_number_roundtrip (demo_item (str "4294967298")) [120; 0] 4294967298 (replicate 5 0)).
    + apply (demo_item_holds (print_int 4294967298)), print_int_no_zero.
    + lia.
Defined.

Lemma ini_dequote_roundtrip_witness :
  let d := demo_item (quote [72; 34; 0; 255]) in
  exists d' rest, INI_dequote d = Ret (4, d') /\ item_value d' = Some 3 /\
    workbuf d' = [120; 0; 34] ++ [72; 34; 0; 255] ++ 0 :: rest /\ length (workbuf d') = length (workbuf d) /\
    did_dequote d' = true /\ ini_error d' = false.
Proof.
  apply (ini_dequote_roundtrip (demo_item (quote [72; 34; 0; 255])) [120; 0] [72; 34; 0; 255] (replicate 5 0)).
  - apply (bool_decide_unpack (is_bytes _)). vm_compute. exact I.
  - reflexivity.
  - apply demo_item_holds, (bool_decide_unpack (Forall (fun b => b <> 0) _)). vm_compute. exact I.
  - discriminate.
  - reflexivity.
  - reflexivity.
Defined.

Lemma ini_number_list_roundtrip_witness :
  exists p d1 p' d', INI_valueAsNumberList_init (demo_item (str " 1  -4 30")) = Ret (p, d1) /\
    read_list 4 p d1 = Ret ([1; -4; 30], p', d') /\ nl_error p' = false /\ ini_error d' = false.
Proof.
  apply (ini_number_list_roundtrip (demo_item (str " 1  -4 30")) [120; 0] [32] 1 [([32; 32], -4); ([32], 30)] (replicate 5 0)).
  - by repeat constructor.
  - cbn. lia.
  - repeat (apply Forall_cons_2; [split_and!; [by repeat constructor|done|cbn; lia|cbn; lia]|]). apply Forall_nil_2.
  - lia.
  - apply (demo_item_holds (str " 1  -4 30")), (bool_decide_unpack (Forall (fun b => b <> 0) _)). vm_compute. exact I.
  - discriminate.
  - reflexivity.
Defined.

End IniValue.
