(* ===== verification/Nv.v ===== *)
(** * Non-volatile storage (nv/nv_linux.c)

    Flash pages are simulated in memory and kept in a file: loaded at start-up,
    written back as a whole by [NV_LINUX_save].  The state is the static
    variables and the content of the file; whether memory can be had, the file
    opened and how much of it written are arguments.  [MAC_ASSERT(0)], which is
    [assert(0)], ends the program. *)

From Stdlib Require Import ZArith Lia String.
From stdpp Require Import base list option numbers.
From S2P Require Import Prelude CStr IoStream.

Open Scope Z_scope.

Module Nv.
Import IoStream.

Definition FLASH_PAGE_SIZE : Z := Z.shiftl 1 13.
Definition nvBegPage : Z := 0.
Definition nvEndPage : Z := 0 + 2 - 1.
Definition nvPageSize : Z := FLASH_PAGE_SIZE.
Definition NVOCMP_ERASEDBYTE : Z := 0xff.
(** The name of a router node; that of a border router ends in -br.bin. *)
Definition NV_filename : list Z := str "nv-simulation-rn.bin".

Record nv : Type := MkNv {
  NV_ramSim : option (list Z);
  NV_ramLength : Z;
  nv_disk : option (list Z)      (* the content of the regular file of that name, if there is one *)
}.

(** The answers of the system. *)
Record world : Type := MkWorld {
  w_calloc : bool;
  w_fopen : bool;
  w_stream : bool;
  w_room : Z
}.

Definition set_ram (r : list Z) : M nv unit := modify (fun s => MkNv (Some r) (NV_ramLength s) (nv_disk s)).
Definition set_disk (c : list Z) : M nv unit := modify (fun s => MkNv (NV_ramSim s) (NV_ramLength s) (Some c)).
Definition ram : M nv (list Z) := s ← get; lift (deref (NV_ramSim s)).

(** [STREAM_FS_fileExists] and [STREAM_FS_getSize] of linux_specific.c, given
    the content of the regular file of that name, if there is one. *)
Definition STREAM_FS_fileExists (d : option (list Z)) : bool :=
  match d with None => false | Some _ => true end.
Definition STREAM_FS_getSize (d : option (list Z)) : Z :=
  match d with None => -1 | Some c => zlen c end.

(** A file opened for reading. *)
Definition fopen_r (d : option (list Z)) : option FILE :=
  match d with None => None | Some c => Some (MkFile c [] 0 false false true) end.

(** The offset in [NV_ramSim]. *)
Definition NVOCMP_FLASHADDR (pg ofs : Z) : Z := u32 (pg * FLASH_PAGE_SIZE + ofs).

Section System.
Variables (w : world) (std : std_file -> FILE).

(** A file opened for writing is empty. *)
Definition NV_LINUX_save : M nv unit :=
  (if w_fopen w then set_disk [] else mret tt);;
  let fopen _ := if w_fopen w then Some (MkFile [] [] (w_room w) false false true) else None in
  match STREAM_createWrFile fopen std (w_stream w) NV_filename with
  | None => undefined Fatal
  | Some f =>
      s ← get;
      r ← ram;
      d ← lift (mem_read r 0 (NV_ramLength s));
      '(_, f) ← lift (STREAM_wrBytes d 0 f);
      set_disk (from_option f_out [] (opaque_ptr f));;
      lift (STREAM_close f);;
      mret tt
  end.

Definition NV_LINUX_load : M nv unit :=
  let len := u32 ((nvEndPage - nvBegPage + 1) * nvPageSize) in
  modify (fun s => MkNv (NV_ramSim s) len (nv_disk s));;
  if negb (w_calloc w) then undefined NullPointer
  else
    set_ram (replicate (Z.to_nat len) NVOCMP_ERASEDBYTE);;
    s ← get;
    if negb (STREAM_FS_fileExists (nv_disk s)) then NV_LINUX_save
    else if STREAM_FS_getSize (nv_disk s) =? len then
      let fopen _ := if w_fopen w then fopen_r (nv_disk s) else None in
      match STREAM_createRdFile fopen std (w_stream w) NV_filename with
      | None => undefined Fatal
      | Some f =>
          '(r, d, _) ← lift (STREAM_rdBytes len 0 f);
          m ← ram;
          m ← lift (mem_write m 0 d);
          set_ram m;;
          if negb (r =? int32 len) then undefined Fatal else mret tt
      end
    else NV_LINUX_save.

Definition NV_LINUX_init : M nv unit := NV_LINUX_load.
End System.

Definition NVS_STATUS_SUCCESS : Z := 0.

(** The bytes read, and the result. *)
Definition NV_LINUX_read (pg off len : Z) : M nv (Z * list Z) :=
  r ← ram;
  d ← lift (mem_read r (NVOCMP_FLASHADDR pg off) len);
  mret (NVS_STATUS_SUCCESS, d).

Definition NV_LINUX_write (dstPg off : Z) (pBuf : list Z) : M nv Z :=
  r ← ram;
  r ← lift (mem_write r (NVOCMP_FLASHADDR dstPg off) pBuf);
  set_ram r;;
  mret NVS_STATUS_SUCCESS.

Definition NV_LINUX_erase (dstPg : Z) : M nv Z :=
  r ← ram;
  r ← lift (mem_write r (NVOCMP_FLASHADDR dstPg 0) (replicate (Z.to_nat nvPageSize) NVOCMP_ERASEDBYTE));
  set_ram r;;
  mret NVS_STATUS_SUCCESS.

(** ** Flash as a function of the address *)

Definition NV_SIZE : Z := 16384.

Inductive nv_op : Type :=
| NvRead (pg off len : Z)
| NvWrite (pg off : Z) (d : list Z)
| NvErase (pg : Z).

Definition nv_op_ok (o : nv_op) : Prop :=
  match o with
  | NvRead pg off len => 0 <= pg < 256 /\ 0 <= off < 65536 /\ 0 <= len /\ pg * 8192 + off + len <= NV_SIZE
  | NvWrite pg off d => 0 <= pg < 256 /\ 0 <= off < 65536 /\ pg * 8192 + off + zlen d <= NV_SIZE
  | NvErase pg => 0 <= pg < 2
  end.

(** What is at an address after [d] was written at [a]. *)
Definition put (f : Z -> Z) (a : Z) (d : list Z) : Z -> Z := fun x =>
  match d !! Z.to_nat (x - a) with
  | Some b => if a <=? x then b else f x
  | None => f x
  end.
Definition peek (f : Z -> Z) (a len : Z) : list Z := map (fun i => f (a + Z.of_nat i)) (seq 0 (Z.to_nat len)).

Definition flash_step (f : Z -> Z) (o : nv_op) : list Z * (Z -> Z) :=
  match o with
  | NvRead pg off len => (peek f (pg * 8192 + off) len, f)
  | NvWrite pg off d => ([], put f (pg * 8192 + off) d)
  | NvErase pg => ([], fun x => if (pg * 8192 <=? x) && (x <? pg * 8192 + 8192) then 0xff else f x)
  end.
Fixpoint flash_run (f : Z -> Z) (os : list nv_op) : list (list Z) * (Z -> Z) :=
  match os with
  | [] => ([], f)
  | o :: os => let '(a, f) := flash_step f o in let '(l, f) := flash_run f os in (a :: l, f)
  end.

Definition nv_step (o : nv_op) : M nv (list Z) :=
  match o with
  | NvRead pg off len => '(_, d) ← NV_LINUX_read pg off len; mret d
  | NvWrite pg off d => NV_LINUX_write pg off d;; mret []
  | NvErase pg => NV_LINUX_erase pg;; mret []
  end.
Fixpoint nv_run (os : list nv_op) : M nv (list (list Z)) :=
  match os with
  | [] => mret []
  | o :: os => a ← nv_step o; l ← nv_run os; mret (a :: l)
  end.

(** The memory holds [f]. *)
Record nv_sim (s : nv) (f : Z -> Z) (disk : option (list Z)) : Prop := MkNvSim {
  ns_len : NV_ramLength s = NV_SIZE;
  ns_disk : nv_disk s = disk;
  ns_ram : NV_ramSim s = Some (peek f 0 NV_SIZE)
}.

Lemma length_peek f a n : length (peek f a n) = Z.to_nat n.
Proof. unfold peek. by rewrite length_map, length_seq. Qed.

Lemma zlen_peek f a n : 0 <= n -> zlen (peek f a n) = n.
Proof. intros. unfold zlen. rewrite length_peek. lia. Qed.

Lemma lookup_peek f a n i : (i < Z.to_nat n)%nat -> peek f a n !! i = Some (f (a + Z.of_nat i)).
Proof.
  intros Hi. unfold peek. change (map ?g ?l) with (g <$> l). rewrite list_lookup_fmap, lookup_seq_lt by done. done.
Qed.

(** Lists of bytes that agree with a function are its values. *)
Lemma peek_eq f a n l :
  length l = Z.to_nat n -> (forall i, (i < Z.to_nat n)%nat -> l !! i = Some (f (a + Z.of_nat i))) -> l = peek f a n.
Proof.
  intros Hl Hf. apply list_eq_same_length with (Z.to_nat n); [apply length_peek|done|].
  intros i x y Hi Hx Hy. rewrite Hf in Hx by done. rewrite lookup_peek in Hy by done. congruence.
Qed.

Lemma slice_peek f a n N : 0 <= a -> 0 <= n -> a + n <= N -> slice (Z.to_nat a) (Z.to_nat n) (peek f 0 N) = peek f a n.
Proof.
  intros Ha Hn HN. apply peek_eq; [apply length_slice; rewrite length_peek; lia|].
  intros i Hi. rewrite lookup_slice, lookup_peek by lia. do 2 f_equal. lia.
Qed.

Lemma splice_peek f a d N : 0 <= a -> a + zlen d <= N -> splice (Z.to_nat a) d (peek f 0 N) = peek (put f a d) 0 N.
Proof.
  unfold zlen. intros Ha HN. apply peek_eq; [rewrite length_splice by (rewrite length_peek; lia); apply length_peek|].
  intros i Hi. unfold put. destruct (decide (Z.to_nat a <= i < Z.to_nat a + length d)%nat) as [Hin|Hout].
  - replace i with (Z.to_nat a + (i - Z.to_nat a))%nat at 1 by lia.
    rewrite lookup_splice_in by (rewrite ?length_peek; lia).
    replace (Z.to_nat (0 + Z.of_nat i - a)) with (i - Z.to_nat a)%nat by lia.
    destruct (lookup_lt_is_Some_2 d (i - Z.to_nat a)) as [b Hb]; [lia|]. rewrite Hb.
    by rewrite (proj2 (Z.leb_le a _)) by lia.
  - rewrite lookup_splice_out, lookup_peek by (rewrite ?length_peek; lia).
    destruct (d !! Z.to_nat (0 + Z.of_nat i - a)) as [b|] eqn:Hb; [|done].
    destruct (Z.leb_spec a (0 + Z.of_nat i)); [|done]. apply lookup_lt_Some in Hb. lia.
Qed.

Lemma flashaddr pg ofs : 0 <= pg < 256 -> 0 <= ofs < 65536 -> NVOCMP_FLASHADDR pg ofs = pg * 8192 + ofs.
Proof. intros. unfold NVOCMP_FLASHADDR, u32. change FLASH_PAGE_SIZE with 8192. apply Z.mod_small. lia. Qed.

Lemma ram_run s f disk : nv_sim s f disk -> ram s = Ret (peek f 0 NV_SIZE, s).
Proof. intros [_ _ Hr]. unfold ram. run_get. unfold lift. by rewrite Hr. Qed.

(** Writing at an address, as the operations do. *)
Lemma poke_run s f disk a d :
  nv_sim s f disk -> 0 <= a -> a + zlen d <= NV_SIZE ->
  exists s', (r ← ram; r ← lift (mem_write r a d); set_ram r;; mret NVS_STATUS_SUCCESS) s = Ret (0, s') /\
    nv_sim s' (put f a d) disk.
Proof.
  intros Hs Ha HN. pose proof (ram_run s f disk Hs) as Er. destruct Hs as [Hl Hd _]. run_step Er.
  assert (lift (mem_write (peek f 0 NV_SIZE) a d) s = Ret (peek (put f a d) 0 NV_SIZE, s)) as Ew.
  { unfold lift. rewrite mem_write_ok by (rewrite ?zlen_peek by done; lia). rewrite splice_peek by done. done. }
  run_step Ew. eexists. split; [reflexivity|]. by constructor.
Qed.

Lemma nv_sim_ext s f g disk :
  (forall x, 0 <= x < NV_SIZE -> f x = g x) -> nv_sim s f disk -> nv_sim s g disk.
Proof.
  intros Hx [Hl Hd Hr]. constructor; [done|done|]. rewrite Hr. f_equal. apply peek_eq; [apply length_peek|].
  intros i Hi. rewrite lookup_peek by done. f_equal. apply Hx. lia.
Qed.

Lemma nv_step_run s f disk o :
  nv_sim s f disk -> nv_op_ok o ->
  exists s', nv_step o s = Ret (fst (flash_step f o), s') /\ nv_sim s' (snd (flash_step f o)) disk.
Proof.
  intros Hs Ho. destruct o as [pg off len|pg off d|pg]; cbn [nv_step flash_step fst snd nv_op_ok] in *.
  - exists s. split; [|done]. unfold NV_LINUX_read. rewrite flashaddr by lia.
    assert ((r ← ram; d ← lift (mem_read r (pg * 8192 + off) len); mret (NVS_STATUS_SUCCESS, d)) s =
      Ret ((0, peek f (pg * 8192 + off) len), s)) as E; [|by run_step E].
    run_step (ram_run s f disk Hs). unfold lift, mbind, M_bind.
    rewrite mem_read_ok by (rewrite ?zlen_peek by done; lia). rewrite slice_peek by lia. done.
  - unfold NV_LINUX_write. rewrite flashaddr by lia.
    destruct (poke_run s f disk (pg * 8192 + off) d Hs) as (s' & E & Hs'); [lia|lia|].
    exists s'. split; [|done]. by run_step E.
  - unfold NV_LINUX_erase. rewrite flashaddr by lia. set (d := replicate (Z.to_nat nvPageSize) NVOCMP_ERASEDBYTE).
    assert (length d = Z.to_nat 8192) as Hd by apply length_replicate.
    destruct (poke_run s f disk (pg * 8192 + 0) d Hs) as (s' & E & Hs'); [lia|unfold zlen, NV_SIZE; rewrite Hd; lia|].
    exists s'. split; [by run_step E|]. revert Hs'. apply nv_sim_ext. intros x Hx. unfold put.
    rewrite Z.add_0_r. destruct (Z.leb_spec (pg * 8192) x); cbn [andb].
    + destruct (Z.ltb_spec x (pg * 8192 + 8192)).
      * unfold d. rewrite lookup_replicate_2; [done|]. change nvPageSize with 8192. lia.
      * rewrite lookup_ge_None_2; [done|]. rewrite Hd. lia.
    + by destruct (d !! _).
Qed.

Lemma nv_run_run os : forall s f disk,
  nv_sim s f disk -> Forall nv_op_ok os ->
  exists s', nv_run os s = Ret (fst (flash_run f os), s') /\ nv_sim s' (snd (flash_run f os)) disk.
Proof.
  induction os as [|o os IH]; intros s f disk Hs Ho; [by exists s|]. apply Forall_cons_iff in Ho as [Ho1 Ho].
  cbn [nv_run flash_run]. destruct (nv_step_run s f disk o Hs Ho1) as (s1 & E & Hs1). run_step E.
  destruct (flash_step f o) as [a f1]. cbn [fst snd] in *. destruct (IH s1 f1 disk Hs1 Ho) as (s2 & E2 & Hs2). run_step E2.
  exists s2. destruct (flash_run f1 os) as [l f2]. done.
Qed.

(** ** Saving and loading *)

(** A system on which everything works. *)
Definition works (w : world) : Prop :=
  w_calloc w = true /\ w_fopen w = true /\ w_stream w = true /\ NV_SIZE <= w_room w.

Lemma name_not_std : is_dev_std NV_filename = None.
Proof. vm_compute. reflexivity. Qed.

Lemma save_run w std s f disk :
  works w -> nv_sim s f disk ->
  exists s', NV_LINUX_save w std s = Ret (tt, s') /\ nv_sim s' f (Some (peek f 0 NV_SIZE)).
Proof.
  intros (_ & Ho & Hm & Hr) Hs. unfold NV_LINUX_save. rewrite Ho. unfold set_disk. cbv iota. run_modify. cbv zeta.
  unfold STREAM_createWrFile. rewrite name_not_std. unfold STREAM_createFpFile, STREAM_createPrivate. rewrite Hm.
  set (s1 := MkNv _ _ _). assert (nv_sim s1 f (Some [])) as Hs1 by (destruct Hs; by constructor).
  run_get. run_step (ram_run s1 f _ Hs1). destruct Hs1 as [Hl Hd Hram].
  set (d := peek f 0 NV_SIZE) in *. assert (zlen d = NV_SIZE) as Hz by (apply zlen_peek; done).
  assert (lift (mem_read d 0 (NV_ramLength s1)) s1 = Ret (d, s1)) as E1.
  { unfold lift. rewrite Hl, mem_read_ok by (rewrite ?Hz; done). rewrite <- Hz. unfold zlen. rewrite Nat2Z.id.
    change (Z.to_nat 0) with 0%nat. by rewrite slice_0_all. }
  run_step E1. set (fl := MkIo Live _ 0 false).
  assert (exists fp, STREAM_wrBytes d 0 fl = Ret (int32 (zlen d), MkIo Live (Some fp) 0 false) /\ f_out fp = d) as (fp & E2 & Ef).
  { eexists. unfold STREAM_wrBytes, fl, mbind, M_bind, on_dev, STREAM_hToStruct. cbn [check_ptr mbind outcome_bind negb wr_fn _file_funcs _file_wr_fn opaque_ptr fwrite unget_buf is_error].
    cbn [f_room f_rest f_out f_eof f_err f_ready]. rewrite (Z.min_l (zlen d) (w_room w)) by lia.
    rewrite Z.eqb_refl. cbn [negb mbind outcome_bind]. split; [reflexivity|]. cbn [f_out app].
    unfold zlen. rewrite Nat2Z.id. by rewrite take_ge. }
  assert (lift (STREAM_wrBytes d 0 fl) s1 = Ret ((int32 (zlen d), MkIo Live (Some fp) 0 false), s1)) as E3
    by (unfold lift; by rewrite E2).
  run_step E3. cbn [opaque_ptr from_option]. rewrite Ef. run_modify.
  eexists. split; [reflexivity|]. by constructor.
Qed.

Lemma nv_load_run w std s :
  works w ->
  (forall c, nv_disk s = Some c -> zlen c = NV_SIZE ->
    exists s', NV_LINUX_load w std s = Ret (tt, s') /\ NV_ramSim s' = Some c /\
      NV_ramLength s' = NV_SIZE /\ nv_disk s' = Some c) /\
  ((nv_disk s = None \/ exists c, nv_disk s = Some c /\ zlen c <> NV_SIZE) ->
    exists s', NV_LINUX_load w std s = Ret (tt, s') /\
      nv_sim s' (fun _ => 0xff) (Some (peek (fun _ => 0xff) 0 NV_SIZE))).
Proof.
  intros Hw. pose proof Hw as (Hc & Ho & Hm & Hr). unfold NV_LINUX_load.
  change (u32 ((nvEndPage - nvBegPage + 1) * nvPageSize)) with NV_SIZE. cbv zeta. rewrite Hc. cbn [negb].
  unfold set_ram. set (er := replicate (Z.to_nat NV_SIZE) NVOCMP_ERASEDBYTE).
  assert (length er = Z.to_nat NV_SIZE) as Her by apply length_replicate.
  assert (er = peek (fun _ => 0xff) 0 NV_SIZE) as Eer.
  { apply peek_eq; [done|]. intros i Hi. by apply lookup_replicate_2. }
  clearbody er. split.
  - intros c Hd Hz. run_modify. run_modify. run_get. cbn [nv_disk NV_ramSim NV_ramLength]. rewrite Hd.
    cbn [STREAM_FS_fileExists STREAM_FS_getSize fopen_r negb]. rewrite Hz, Z.eqb_refl.
    unfold STREAM_createRdFile. rewrite name_not_std. unfold STREAM_createFpFile, STREAM_createPrivate. rewrite Ho, Hm.
    set (s1 := MkNv _ _ _). set (fl := MkIo Live _ 0 false).
    assert (exists f', STREAM_rdBytes NV_SIZE 0 fl = Ret ((int32 NV_SIZE, c), f')) as (f' & E).
    { eexists. unfold STREAM_rdBytes. change (NV_SIZE =? 0) with false.
      unfold fl, mbind, M_bind, on_dev, STREAM_hToStruct, get.
      cbn [check_ptr mbind outcome_bind negb rd_fn _file_funcs _file_rd_fn opaque_ptr fread unget_buf is_error f_rest Z.eqb].
      rewrite take_ge by (unfold zlen in Hz; lia). rewrite Hz, Z.eqb_refl. reflexivity. }
    assert (lift (STREAM_rdBytes NV_SIZE 0 fl) s1 = Ret (((int32 NV_SIZE, c), f'), s1)) as E1 by (unfold lift; by rewrite E).
    run_step E1. run_step (eq_refl : ram s1 = Ret (er, s1)).
    assert (lift (mem_write er 0 c) s1 = Ret (c, s1)) as E2.
    { unfold lift. rewrite mem_write_ok by (unfold zlen in *; rewrite ?Her; lia). change (Z.to_nat 0) with 0%nat.
      unfold splice. rewrite take_0, app_nil_l, Nat.add_0_l, drop_ge, app_nil_r by (unfold zlen in *; lia). done. }
    run_step E2. run_modify. rewrite Z.eqb_refl. cbn [negb]. eexists. split; [reflexivity|]. by repeat split.
  - intros Hd. run_modify. run_modify. run_get. cbn [nv_disk NV_ramSim NV_ramLength].
    assert (forall disk, nv_sim (MkNv (Some er) NV_SIZE disk) (fun _ => 0xff) disk) as Hs
      by (intros disk; constructor; [done|done|by rewrite Eer]).
    destruct Hd as [Hd|(c & Hd & Hz)]; rewrite Hd;
      cbn [STREAM_FS_fileExists STREAM_FS_getSize negb].
    + by eapply save_run.
    + rewrite (proj2 (Z.eqb_neq _ _)) by done. by eapply save_run.
Qed.

(** ** Restarts *)

(** A process starts with nothing in memory, loads the file, works, and saves. *)
Definition nv_session (w : world) (std : std_file -> FILE) (os : list nv_op) : M nv (list (list Z)) :=
  modify (fun s => MkNv None 0 (nv_disk s));;
  NV_LINUX_init w std;;
  l ← nv_run os;
  NV_LINUX_save w std;;
  mret l.
Fixpoint nv_life (w : world) (std : std_file -> FILE) (ss : list (list nv_op)) : M nv (list (list Z)) :=
  match ss with
  | [] => mret []
  | os :: ss => l ← nv_session w std os; l2 ← nv_life w std ss; mret (l ++ l2)
  end.

(** The file holds [f], or there is none and [f] is erased flash. *)
Definition kept (disk : option (list Z)) (f : Z -> Z) : Prop :=
  disk = Some (peek f 0 NV_SIZE) \/ (disk = None /\ f = fun _ => 0xff).

Lemma flash_run_app f os1 os2 :
  flash_run f (os1 ++ os2) =
  (fst (flash_run f os1) ++ fst (flash_run (snd (flash_run f os1)) os2), snd (flash_run (snd (flash_run f os1)) os2)).
Proof.
  revert f. induction os1 as [|o os1 IH]; intros f; cbn [app flash_run fst snd]; [by destruct (flash_run f os2)|].
  destruct (flash_step f o) as [a f1]. rewrite IH. destruct (flash_run f1 os1) as [l f2]. done.
Qed.

Lemma init_run w std disk f :
  works w -> kept disk f ->
  exists s' disk', NV_LINUX_init w std (MkNv None 0 disk) = Ret (tt, s') /\ nv_sim s' f disk'.
Proof.
  intros Hw Hk. destruct (nv_load_run w std (MkNv None 0 disk) Hw) as [Hl Hn]. destruct Hk as [Hk|[Hk Hf]].
  - destruct (Hl _ Hk) as (s' & E & Hr & Hlen & Hd); [by apply zlen_peek|]. exists s', (nv_disk s'). by split.
  - subst f. destruct Hn as (s' & E & Hs); [by left|]. by eexists s', _.
Qed.

Lemma session_run w std os s f :
  works w -> kept (nv_disk s) f -> Forall nv_op_ok os ->
  exists s', nv_session w std os s = Ret (fst (flash_run f os), s') /\ kept (nv_disk s') (snd (flash_run f os)).
Proof.
  intros Hw Hk Ho. unfold nv_session. run_modify.
  destruct (init_run w std (nv_disk s) f Hw Hk) as (s1 & d & E1 & H1). run_step E1.
  destruct (nv_run_run os s1 f d H1 Ho) as (s2 & E2 & H2). run_step E2.
  destruct (save_run w std s2 _ d Hw H2) as (s3 & E3 & H3). run_step E3.
  exists s3. split; [done|]. left. apply H3.
Qed.

(** C28: flash survives restarts.  However the work is cut into sessions, each of
    which starts as a new process, loads the file ([NV_LINUX_init]), reads, writes
    and erases within the pages, and ends with [NV_LINUX_save], the reads answer
    what one uninterrupted flash memory that starts erased would answer: a write is
    seen by every later read of its bytes, a page erased reads 0xff, nothing else
    changes, and nothing is lost or shifted by the file. *)
Theorem nv_survives_restarts (w : world) (std : std_file -> FILE) (ss : list (list nv_op)) (s : nv) :
  works w -> nv_disk s = None -> Forall (Forall nv_op_ok) ss ->
  exists s', nv_life w std ss s = Ret (fst (flash_run (fun _ => 0xff) (concat ss)), s').
Proof.
  intros Hw Hd. assert (kept (nv_disk s) (fun _ => 0xff)) as Hk by (by right). revert Hk. clear Hd.
  generalize (fun _ : Z => 0xff). revert s. induction ss as [|os ss IH]; intros s f Hk Ho; [by exists s|].
  apply Forall_cons_iff in Ho as [Ho1 Ho]. cbn [nv_life concat].
  destruct (session_run w std os s f Hw Hk Ho1) as (s1 & E1 & H1). run_step E1.
  destruct (IH s1 _ H1 Ho) as (s2 & E2). run_step E2. exists s2. rewrite flash_run_app. done.
Qed.

Definition std0 (_ : std_file) : FILE := MkFile [] [] 0 false false true.
Definition good_world : world := MkWorld true true true 16384.

Lemma nv_survives_restarts_witness :
  exists s', nv_life good_world std0 [[NvWrite 1 4 [7; 8; 9]]; [NvErase 0; NvRead 1 3 5]] (MkNv None 0 None) =
    Ret ([[]; []; [0xff; 7; 8; 9; 0xff]], s').
Proof.
  destruct (nv_survives_restarts good_world std0 [[NvWrite 1 4 [7; 8; 9]]; [NvErase 0; NvRead 1 3 5]] (MkNv None 0 None))
    as (s' & E).
  - done.
  - reflexivity.
  - repeat first [apply Forall_nil_2 | apply Forall_cons_2]; unfold nv_op_ok, NV_SIZE, zlen; cbn [length]; lia.
  - exists s'. etransitivity; [exact E|]. vm_compute. reflexivity.
Defined.

(** A file of another size is not loaded: whatever it held, the memory is
    erased flash afterwards and the file has been overwritten with it, so its
    content is gone. *)
Theorem nv_foreign_file_overwritten (w : world) (std : std_file -> FILE) (s : nv) (c : list Z) :
  works w -> nv_disk s = Some c -> zlen c <> NV_SIZE ->
  exists s', NV_LINUX_init w std s = Ret (tt, s') /\
    NV_ramSim s' = Some (replicate (Z.to_nat NV_SIZE) 0xff) /\ nv_disk s' = Some (replicate (Z.to_nat NV_SIZE) 0xff).
Proof.
  intros Hw Hd Hz. destruct (nv_load_run w std s Hw) as [_ Hn]. destruct Hn as (s' & E & [_ Hd' Hr]); [by right; eauto|].
  assert (peek (fun _ => 0xff) 0 NV_SIZE = replicate (Z.to_nat NV_SIZE) 0xff) as Ep.
  { symmetry. apply peek_eq; [apply length_replicate|]. intros i Hi. by apply lookup_replicate_2. }
  rewrite Ep in Hd', Hr. exact (ex_intro _ s' (conj E (conj Hr Hd'))).
Qed.

Lemma nv_foreign_file_overwritten_witness :
  exists s', NV_LINUX_init good_world std0 (MkNv None 0 (Some [1; 2; 3])) = Ret (tt, s') /\
    NV_ramSim s' = Some (replicate (Z.to_nat NV_SIZE) 0xff) /\ nv_disk s' = Some (replicate (Z.to_nat NV_SIZE) 0xff).
Proof. apply (nv_foreign_file_overwritten good_world std0 _ [1; 2; 3]); [done|reflexivity|done]. Defined.

End Nv.
