(* ===== verification/Timer.v ===== *)
(** * Time-outs and timers with a callback (timer.c, timer_cb.c)

    Time is counted in milliseconds since an epoch and compared modulo 2^32.  A
    timer is a record on the heap; the active ones are linked in the order in
    which they expire, and one thread takes them from the head, calls them, and
    links the periodic ones in again.

    The state holds the static variables of both files, the heap, the clock, the
    count of the semaphore the thread sleeps on and the place where the thread is.
    What the code does with the list locked is one step.  What it does before and
    behind that, with the list unlocked, are steps of their own: the call of a
    callback, the wake-up behind the creation of a timer, the freeing behind its
    destruction.  A pointer is a key of the heap and keys are not used again, so a
    timer used after it was freed is [Undef Dangling]. *)

From Stdlib Require Import ZArith Lia Sorting.Sorted.
From stdpp Require Import base list option numbers gmap.
From S2P Require Import Prelude.

Open Scope Z_scope.

Module Timer.

Record timer_cb_details : Type := MkTmr {
  check_ptr : bool;            (* points to timer_check *)
  dbg_name : option (list Z);
  expire_time : Z;
  periodic : bool;
  period_mSec : Z;
  callback : Z;
  cookie : Z;
  pNext : option Z
}.

(** Where the timer thread is: not created, at the top of its loop, in the wait
    for the semaphore until a time, about to call a timer, in the callback. *)
Inductive place : Type :=
| NotStarted
| Top
| Sleeping (until : Z)
| Calling (p : Z)
| InCallback.

Record timers : Type := MkTimers {
  heap : gmap Z timer_cb_details;
  next_ptr : Z;
  pTMR_InService : option Z;
  pTMR_ActiveList : option Z;
  timer_done_once : bool;
  sem_count : Z;
  thread : place;
  abs_now : Z;                 (* _TIMER_getAbsNow *)
  epoch_msecs : Z
}.

Definition set_next (n : option Z) (t : timer_cb_details) : timer_cb_details :=
  MkTmr (check_ptr t) (dbg_name t) (expire_time t) (periodic t) (period_mSec t) (callback t) (cookie t) n.
Definition set_expire (x : Z) (t : timer_cb_details) : timer_cb_details :=
  MkTmr (check_ptr t) (dbg_name t) x (periodic t) (period_mSec t) (callback t) (cookie t) (pNext t).

Definition with_list (h : gmap Z timer_cb_details) (a : option Z) (s : timers) : timers :=
  MkTimers h (next_ptr s) (pTMR_InService s) a (timer_done_once s) (sem_count s) (thread s) (abs_now s) (epoch_msecs s).
Definition set_service (v : option Z) (s : timers) : timers :=
  MkTimers (heap s) (next_ptr s) v (pTMR_ActiveList s) (timer_done_once s) (sem_count s) (thread s) (abs_now s) (epoch_msecs s).
Definition set_thread (pc : place) (s : timers) : timers :=
  MkTimers (heap s) (next_ptr s) (pTMR_InService s) (pTMR_ActiveList s) (timer_done_once s) (sem_count s) pc (abs_now s) (epoch_msecs s).
Definition set_sem (n : Z) (s : timers) : timers :=
  MkTimers (heap s) (next_ptr s) (pTMR_InService s) (pTMR_ActiveList s) (timer_done_once s) n (thread s) (abs_now s) (epoch_msecs s).
Definition set_epoch (e : Z) (s : timers) : timers :=
  MkTimers (heap s) (next_ptr s) (pTMR_InService s) (pTMR_ActiveList s) (timer_done_once s) (sem_count s) (thread s) (abs_now s) e.
Definition set_now (n : Z) (s : timers) : timers :=
  MkTimers (heap s) (next_ptr s) (pTMR_InService s) (pTMR_ActiveList s) (timer_done_once s) (sem_count s) (thread s) n (epoch_msecs s).

(** ** timer.c *)

Definition TIMER_getAbsNow : M timers Z := s ← get; mret (abs_now s).

Definition _epoch_init : M timers unit :=
  s ← get;
  if epoch_msecs s =? 0 then t ← TIMER_getAbsNow; modify (set_epoch t) else mret tt.

Definition TIMER_getEpoch : M timers Z :=
  s ← get;
  (if epoch_msecs s =? 0 then _epoch_init else mret tt);;
  s ← get;
  mret (epoch_msecs s).

Definition TIMER_init : M timers unit := TIMER_getEpoch;; mret tt.

Definition TIMER_getNow : M timers Z :=
  s ← get;
  (if epoch_msecs s =? 0 then _epoch_init else mret tt);;
  t ← TIMER_getAbsNow;
  s ← get;
  mret (u32 (u64 (t - epoch_msecs s))).

Definition TIMER_timeoutStart : M timers Z := TIMER_getNow.

Definition TIMER_timeoutIsExpired (tstart v : Z) : M timers bool :=
  if v <? 0 then mret false
  else if v =? 0 then mret true
  else
    let tend := u32 (tstart + v) in
    tnow ← TIMER_getNow;
    let diff := int32 (u32 (tend - tnow)) in
    if diff <? 0 then mret true else mret false.

(** ** The list of active timers *)

Definition load (p : Z) : M timers timer_cb_details :=
  s ← get; match heap s !! p with Some t => mret t | None => undefined Dangling end.
Definition store (p : Z) (t : timer_cb_details) : M timers unit :=
  modify (fun s => with_list (<[p := t]> (heap s)) (pTMR_ActiveList s) s).

(** [ppTMR] points to the head or to the link of a timer. *)
Inductive slot : Type :=
| AtHead
| AtNext (q : Z).

Definition read_slot (sl : slot) : M timers (option Z) :=
  match sl with
  | AtHead => s ← get; mret (pTMR_ActiveList s)
  | AtNext q => t ← load q; mret (pNext t)
  end.
Definition write_slot (sl : slot) (v : option Z) : M timers unit :=
  match sl with
  | AtHead => modify (fun s => with_list (heap s) v s)
  | AtNext q => t ← load q; store q (set_next v t)
  end.

Definition timer_cb_h2tmr (h : Z) : M timers (option Z) :=
  if h =? 0 then mret None
  else t ← load h; if negb (check_ptr t) then mret None else mret (Some h).

Fixpoint insert_walk (fuel : nat) (expire : Z) (ppTMR : slot) : M timers slot :=
  match fuel with
  | O => out_of_fuel
  | S fuel =>
      o ← read_slot ppTMR;
      match o with
      | None => mret ppTMR
      | Some q =>
          t ← load q;
          let tval := int32 (u32 (expire - expire_time t)) in
          if tval <=? 0 then mret ppTMR else insert_walk fuel expire (AtNext q)
      end
  end.

Definition _timer_insert (pTMR : Z) : M timers unit :=
  now ← TIMER_getNow;
  t ← load pTMR;
  let e := u32 (now + period_mSec t) in
  store pTMR (set_expire e t);;
  s ← get;
  ppTMR ← insert_walk (S (size (heap s))) e AtHead;
  n ← read_slot ppTMR;
  t ← load pTMR;
  store pTMR (set_next n t);;
  write_slot ppTMR (Some pTMR).

Fixpoint find_walk (fuel : nat) (pTMR : Z) (ppTMR : slot) : M timers (option slot) :=
  match fuel with
  | O => out_of_fuel
  | S fuel =>
      o ← read_slot ppTMR;
      match o with
      | None => mret None
      | Some q => if q =? pTMR then mret (Some ppTMR) else find_walk fuel pTMR (AtNext q)
      end
  end.

(** ** The timer thread, between the points where the list is unlocked *)

Definition SEMAPHORE_put : M timers unit := s ← get; modify (set_sem (sem_count s + 1)).

(** From the top of the loop to the wait or to the unlocking for the call. *)
Definition thread_look : M timers unit :=
  s ← get;
  timeout_mSecs ←
    match pTMR_ActiveList s with
    | Some pTMR =>
        t ← load pTMR;
        tnow ← TIMER_getNow;
        mret (int32 (u32 (expire_time t - tnow)))
    | None => mret (60 * 1000)
    end;
  if 0 <? timeout_mSecs then modify (set_thread (Sleeping (abs_now s + timeout_mSecs)))
  else
    pTMR ← lift (deref (pTMR_ActiveList s));
    t ← load pTMR;
    write_slot AtHead (pNext t);;
    store pTMR (set_next None t);;
    modify (set_service (Some pTMR));;
    modify (set_thread (Calling pTMR)).

(** The wait ends when the semaphore was posted or the time is over. *)
Definition thread_wake (until : Z) : M timers unit :=
  s ← get;
  if 0 <? sem_count s then modify (set_sem (sem_count s - 1));; modify (set_thread Top)
  else if until <=? abs_now s then modify (set_thread Top)
  else mret tt.

(** The call, with the arguments the callback is given: its function, the timer
    and the cookie. *)
Definition thread_call (pTMR : Z) : M timers (Z * Z * Z) :=
  t ← load pTMR;
  modify (set_thread InCallback);;
  mret (callback t, pTMR, cookie t).

(** After the callback. *)
Definition thread_return : M timers unit :=
  s ← get;
  let pTMR := pTMR_InService s in
  modify (set_service None);;
  match pTMR with
  | None => mret tt
  | Some p => t ← load p; if periodic t then _timer_insert p else mret tt
  end;;
  modify (set_thread Top).

(** ** Creating and destroying *)

Definition timer_once_routine : M timers unit :=
  s ← get;
  if timer_done_once s then mret tt
  else modify (fun s => MkTimers (heap s) (next_ptr s) (pTMR_InService s) (pTMR_ActiveList s) true 1 Top
                          (abs_now s) (epoch_msecs s)).

(** The creation up to the unlocking of the list.  [mem] and [dup] tell whether
    calloc and strdup succeed. *)
Definition create_insert (mem dup : bool) (name : option (list Z)) (pCbFunc cook period : Z) (per : bool) : M timers Z :=
  timer_once_routine;;
  if negb mem then mret 0
  else
    s ← get;
    let pTMR := next_ptr s in
    let nm := if dup then Some (default [116; 109; 114; 45; 110; 111; 45; 110; 97; 109; 101] name) else None in
    let period := if period =? 0 then 1 else period in
    modify (fun s => MkTimers (<[pTMR := MkTmr true nm 0 per period pCbFunc cook None]> (heap s)) (pTMR + 1)
                       (pTMR_InService s) (pTMR_ActiveList s) (timer_done_once s) (sem_count s) (thread s)
                       (abs_now s) (epoch_msecs s));;
    _timer_insert pTMR;;
    mret pTMR.

Definition TIMER_CB_create (mem dup : bool) (name : option (list Z)) (pCbFunc cook period : Z) (per : bool) : M timers Z :=
  pTMR ← create_insert mem dup name pCbFunc cook period per;
  if mem then SEMAPHORE_put;; mret pTMR else mret 0.

(** The destruction up to the unlocking of the list: the timer to free, if any. *)
Definition destroy_unlink (h : Z) : M timers (option Z) :=
  o ← timer_cb_h2tmr h;
  match o with
  | None => mret None
  | Some pTMR =>
      s ← get;
      (if bool_decide (pTMR_InService s = Some pTMR) then modify (set_service None) else mret tt);;
      sl ← find_walk (S (size (heap s))) pTMR AtHead;
      match sl with
      | Some ppTMR =>
          t ← load pTMR;
          write_slot ppTMR (pNext t);;
          t ← load pTMR;
          store pTMR (set_next None t)
      | None => mret tt
      end;;
      mret (Some pTMR)
  end.

(** Behind it the name and the record are freed. *)
Definition destroy_free (pTMR : Z) : M timers unit :=
  load pTMR;;
  modify (fun s => with_list (delete pTMR (heap s)) (pTMR_ActiveList s) s).

Definition TIMER_CB_destroy (h : Z) : M timers unit :=
  o ← destroy_unlink h;
  match o with None => mret tt | Some pTMR => destroy_free pTMR end.

Definition TIMER_CB_isValid (h : Z) : M timers bool :=
  o ← timer_cb_h2tmr h; mret (match o with Some _ => true | None => false end).

Definition TIMER_CB_getRemain (h : Z) : M timers Z :=
  o ← timer_cb_h2tmr h;
  match o with
  | Some pTMR => t ← load pTMR; tnow ← TIMER_getNow; mret (int32 (u32 (expire_time t - tnow)))
  | None => mret (-1)
  end.

(** ** Steps of the system

    Time passes, clients call, the thread goes on.  A call that creates a timer is
    the step [Create] and, behind the unlocking of the list, the step [Post]; one that
    destroys a timer is [Destroy] and [Free]; steps of others may come in between.  A
    step of the thread that its place does not allow does nothing. *)

Inductive action : Type :=
| Tick (d : Z)
| Create (mem dup : bool) (name : option (list Z)) (cb cook period : Z) (per : bool)
| Post
| Destroy (h : Z)
| Free (h : Z)
| Remain (h : Z)
| Wake
| Look
| Call
| Return.

Inductive event : Type :=
| Silent
| Created (h : Z)
| Remains (ms : Z)
| Called (cb h cook : Z).

Definition sys_step (a : action) : M timers event :=
  s ← get;
  match a with
  | Tick d => modify (set_now (abs_now s + d));; mret Silent
  | Create mem dup name cb cook period per =>
      h ← create_insert mem dup name cb cook period per; mret (Created h)
  | Post => SEMAPHORE_put;; mret Silent
  | Destroy h => destroy_unlink h;; mret Silent
  | Free h => destroy_free h;; mret Silent
  | Remain h => z ← TIMER_CB_getRemain h; mret (Remains z)
  | Wake => match thread s with Sleeping u => thread_wake u;; mret Silent | _ => mret Silent end
  | Look => match thread s with Top => thread_look;; mret Silent | _ => mret Silent end
  | Call =>
      match thread s with
      | Calling p => '(cb, h, ck) ← thread_call p; mret (Called cb h ck)
      | _ => mret Silent
      end
  | Return => match thread s with InCallback => thread_return;; mret Silent | _ => mret Silent end
  end.

Fixpoint sys_run (l : list action) : M timers (list event) :=
  match l with
  | [] => mret []
  | a :: l => e ← sys_step a; es ← sys_run l; mret (e :: es)
  end.

(** The static variables when the program starts at time [t]. *)
Definition timers0 (t : Z) : timers := MkTimers ∅ 1 None None false 0 NotStarted t 0.

(** ** A schedule

    What the timers promise, with unbounded time and without memory: pending
    timers in the order of the times at which they are due. *)

Record entry : Type := MkEntry {
  e_ptr : Z;
  e_due : Z;
  e_period : Z;
  e_periodic : bool;
  e_cb : Z;
  e_cookie : Z
}.

(** [taken] is the timer the thread took from the list last, [serving] the same
    until it is destroyed; [leaving] are timers that are destroyed but not freed,
    [owed] counts the creations whose wake-up is still to come. *)
Record sched : Type := MkSched {
  pending : list entry;
  serving : option entry;
  taken : option entry;
  live : gset Z;
  leaving : gset Z;
  fresh : Z;
  posts : Z;
  owed : Z;
  phase : place;
  now : Z
}.

Fixpoint insert_due (e : entry) (l : list entry) : list entry :=
  match l with
  | [] => [e]
  | x :: l => if e_due e <=? e_due x then e :: x :: l else x :: insert_due e l
  end.

Definition rearmed (t : Z) (e : entry) : entry :=
  MkEntry (e_ptr e) (t + e_period e) (e_period e) (e_periodic e) (e_cb e) (e_cookie e).

Definition start (sp : sched) : sched :=
  match phase sp with
  | NotStarted => MkSched (pending sp) (serving sp) (taken sp) (live sp) (leaving sp) (fresh sp) 1 (owed sp) Top (now sp)
  | _ => sp
  end.
Definition goto (pc : place) (sp : sched) : sched :=
  MkSched (pending sp) (serving sp) (taken sp) (live sp) (leaving sp) (fresh sp) (posts sp) (owed sp) pc (now sp).

Definition spec_step (a : action) (sp : sched) : event * sched :=
  match a with
  | Tick d =>
      (Silent, MkSched (pending sp) (serving sp) (taken sp) (live sp) (leaving sp) (fresh sp) (posts sp) (owed sp) (phase sp) (now sp + d))
  | Create mem _ _ cb ck period per =>
      let sp := start sp in
      if mem then
        let period := Z.max 1 period in
        let e := MkEntry (fresh sp) (now sp + period) period per cb ck in
        (Created (fresh sp),
         MkSched (insert_due e (pending sp)) (serving sp) (taken sp) ({[fresh sp]} ∪ live sp) (leaving sp) (fresh sp + 1)
           (posts sp) (owed sp + 1) (phase sp) (now sp))
      else (Created 0, sp)
  | Post =>
      (Silent, MkSched (pending sp) (serving sp) (taken sp) (live sp) (leaving sp) (fresh sp) (posts sp + 1) (owed sp - 1) (phase sp) (now sp))
  | Destroy h =>
      if bool_decide (h = 0) then (Silent, sp)
      else
        (Silent,
         MkSched (filter (fun e => e_ptr e <> h) (pending sp))
           (if bool_decide (e_ptr <$> serving sp = Some h) then None else serving sp) (taken sp)
           (live sp ∖ {[h]}) ({[h]} ∪ leaving sp) (fresh sp) (posts sp) (owed sp) (phase sp) (now sp))
  | Free h =>
      (Silent, MkSched (pending sp) (serving sp) (taken sp) (live sp) (leaving sp ∖ {[h]}) (fresh sp) (posts sp) (owed sp) (phase sp) (now sp))
  | Remain h =>
      (Remains (from_option (fun e => e_due e - now sp) (-1) (head (filter (fun e => e_ptr e = h) (pending sp)))), sp)
  | Wake =>
      match phase sp with
      | Sleeping u =>
          if 0 <? posts sp then
            (Silent, MkSched (pending sp) (serving sp) (taken sp) (live sp) (leaving sp) (fresh sp) (posts sp - 1) (owed sp) Top (now sp))
          else if u <=? now sp then (Silent, goto Top sp) else (Silent, sp)
      | _ => (Silent, sp)
      end
  | Look =>
      match phase sp with
      | Top =>
          match pending sp with
          | [] => (Silent, goto (Sleeping (now sp + 60000)) sp)
          | e :: l =>
              if now sp <? e_due e then (Silent, goto (Sleeping (e_due e)) sp)
              else (Silent, MkSched l (Some e) (Some e) (live sp) (leaving sp) (fresh sp) (posts sp) (owed sp) (Calling (e_ptr e)) (now sp))
          end
      | _ => (Silent, sp)
      end
  | Call =>
      match phase sp, taken sp with
      | Calling _, Some e => (Called (e_cb e) (e_ptr e) (e_cookie e), goto InCallback sp)
      | _, _ => (Silent, sp)
      end
  | Return =>
      match phase sp with
      | InCallback =>
          let l := match serving sp with
                   | Some e => if e_periodic e then insert_due (rearmed (now sp) e) (pending sp) else pending sp
                   | None => pending sp
                   end in
          (Silent, MkSched l None (taken sp) (live sp) (leaving sp) (fresh sp) (posts sp) (owed sp) Top (now sp))
      | _ => (Silent, sp)
      end
  end.

(** The one step that cannot be done: the call of a timer that was destroyed and
    freed after the thread took it from the list. *)
Definition faults (a : action) (sp : sched) : bool :=
  match a, phase sp with
  | Call, Calling p => bool_decide (p ∉ live sp ∪ leaving sp)
  | _, _ => false
  end.

Fixpoint spec_run (l : list action) (sp : sched) : outcome (list event * sched) :=
  match l with
  | [] => Ret ([], sp)
  | a :: l =>
      if faults a sp then Undef Dangling
      else let '(e, sp) := spec_step a sp in '(es, sp) ← spec_run l sp; Ret (e :: es, sp)
  end.

Definition sched0 (t : Z) : sched := MkSched [] None None ∅ ∅ 1 0 0 NotStarted t.

(** Use within bounds: periods of at most [P] milliseconds; no pending timer is
    more than [L] milliseconds late when time passes; a timer is destroyed once, by a
    handle that is valid, and then freed once; a creation is followed by one wake-up. *)
Definition ok_action (P L : Z) (sp : sched) (a : action) : Prop :=
  match a with
  | Tick d => 0 <= d /\ now sp + d < 2 ^ 64 /\ Forall (fun e => now sp + d - e_due e <= L) (pending sp)
  | Create _ _ _ _ _ period _ => 0 <= period <= P
  | Post => 0 < owed sp
  | Destroy h => h = 0 \/ h ∈ live sp
  | Free h => h ∈ leaving sp
  | Remain h => h ∈ e_ptr <$> pending sp
  | Wake | Look | Call | Return => True
  end.
Fixpoint ok_run (P L : Z) (sp : sched) (l : list action) : Prop :=
  match l with
  | [] => True
  | a :: l => ok_action P L sp a /\ (faults a sp = false -> ok_run P L (snd (spec_step a sp)) l)
  end.

#[export] Instance place_eq_dec : EqDecision place.
Proof. solve_decision. Defined.
#[export] Instance ok_action_dec P L sp a : Decision (ok_action P L sp a).
Proof. destruct a; cbn [ok_action]; apply _. Defined.
#[export] Instance ok_run_dec P L l : forall sp, Decision (ok_run P L sp l).
Proof. induction l; intros sp; cbn [ok_run]; apply _. Defined.

(** ** Times modulo 2^32 *)

Lemma int32_mod z : int32 (u32 z) = int32 z.
Proof. unfold int32, u32. by rewrite Z.add_mod_idemp_l by lia. Qed.

Lemma u32_u64 z : u32 (u64 z) = u32 z.
Proof.
  unfold u32, u64. change (2 ^ 64) with (2 ^ 32 * 2 ^ 32). rewrite Z.rem_mul_r by lia.
  rewrite (Z.mul_comm (2 ^ 32)), Z.mod_add by lia. apply Z.mod_mod. lia.
Qed.

(** The difference of two times less than 2^31 apart is found from their values
    modulo 2^32, wherever the epoch is. *)
Lemma int32_diff x y e :
  - 2 ^ 31 <= x - y < 2 ^ 31 -> int32 (u32 (u32 (x - e) - u32 (y - e))) = x - y.
Proof.
  intros H. unfold u32. rewrite <- Zminus_mod. replace (x - e - (y - e)) with (x - y) by lia.
  change ((x - y) mod 2 ^ 32) with (u32 (x - y)). rewrite int32_mod. by apply int32_id.
Qed.

(** The clock works: a time of 64 bits, not before the epoch. *)
Definition clock_ok (s : timers) : Prop := 0 < abs_now s < 2 ^ 64 /\ 0 <= epoch_msecs s <= abs_now s.
Definition epoch_of (s : timers) : Z := if epoch_msecs s =? 0 then abs_now s else epoch_msecs s.

Lemma set_epoch_same s : set_epoch (epoch_msecs s) s = s.
Proof. by destruct s. Qed.

Lemma getNow_run s : TIMER_getNow s = Ret (u32 (abs_now s - epoch_of s), set_epoch (epoch_of s) s).
Proof.
  unfold TIMER_getNow, epoch_of. run_get. destruct (epoch_msecs s =? 0) eqn:E.
  - unfold _epoch_init, TIMER_getAbsNow, mbind, M_bind, get, modify. cbn -[u32 u64 Z.eqb]. rewrite E.
    cbn -[u32 u64]. by rewrite u32_u64.
  - unfold TIMER_getAbsNow, mbind, M_bind. cbn -[u32 u64]. by rewrite u32_u64, set_epoch_same.
Qed.

(** ** The list as a chain *)

Fixpoint chain (h : gmap Z timer_cb_details) (o : option Z) (l : list Z) : Prop :=
  match l with
  | [] => o = None
  | p :: l => o = Some p /\ exists t, h !! p = Some t /\ chain h (pNext t) l
  end.

(** The slot behind a prefix of the list. *)
Definition slot_of (l : list Z) : slot := match last l with None => AtHead | Some q => AtNext q end.

(** What a timer is apart from its link. *)
Definition data (t : timer_cb_details) : timer_cb_details := set_next None t.

Lemma chain_ext h h' o l : (forall p, p ∈ l -> h' !! p = h !! p) -> chain h o l -> chain h' o l.
Proof.
  revert o. induction l as [|p l IH]; intros o Hh; [done|]. intros (-> & t & Hp & Hc).
  split; [done|]. exists t. split; [rewrite Hh by set_solver; done|]. apply IH; [|done]. intros q Hq. apply Hh. set_solver.
Qed.

Lemma chain_in h o l p : chain h o l -> p ∈ l -> is_Some (h !! p).
Proof.
  revert o. induction l as [|q l IH]; intros o; [set_solver|]. intros (_ & t & Hq & Hc) [->|Hp]%elem_of_cons; [by eexists|].
  by eapply IH.
Qed.

Lemma chain_length h o l : chain h o l -> NoDup l -> (length l <= size h)%nat.
Proof.
  intros Hc Hn. rewrite <- size_dom, <- (size_list_to_set (C := gset Z) l) by done. apply subseteq_size. intros p Hp.
  apply elem_of_list_to_set in Hp. apply elem_of_dom. by eapply chain_in.
Qed.

Lemma chain_app h o l1 l2 :
  chain h o (l1 ++ l2) ->
  match last l1 with
  | None => chain h o l2
  | Some q => exists t, h !! q = Some t /\ chain h (pNext t) l2
  end.
Proof.
  revert o. induction l1 as [|p l1 IH]; intros o; [done|]. intros (-> & t & Hp & Hc).
  apply IH in Hc. rewrite last_cons. destruct (last l1); [done|]. by exists t.
Qed.

Lemma chain_hd h o l : chain h o l -> o = head l.
Proof. destruct l; [done|]. by intros [-> _]. Qed.

Lemma load_tmr p s t : heap s !! p = Some t -> load p s = Ret (t, s).
Proof. intros H. unfold load. run_get. by rewrite H. Qed.

Lemma with_list_same s : with_list (heap s) (pTMR_ActiveList s) s = s.
Proof. by destruct s. Qed.

Lemma read_slot_run s l1 l2 :
  chain (heap s) (pTMR_ActiveList s) (l1 ++ l2) -> read_slot (slot_of l1) s = Ret (head l2, s).
Proof.
  intros Hc%chain_app. unfold slot_of. destruct (last l1) as [q|]; cbn [read_slot].
  - destruct Hc as (t & Hq & Hc). run_step (load_tmr q s t Hq). by rewrite (chain_hd _ _ _ Hc).
  - run_get. by rewrite (chain_hd _ _ _ Hc).
Qed.

(** Linking another tail behind a prefix. *)
Lemma chain_relink h h' o v l1 l2 l3 :
  chain h o (l1 ++ l2) -> NoDup (l1 ++ l3) ->
  (forall p, p ∈ l1 -> last l1 <> Some p -> h' !! p = h !! p) ->
  (forall q, last l1 = Some q -> h' !! q = set_next v <$> h !! q) ->
  (last l1 = None -> o = v) ->
  chain h' v l3 -> chain h' o (l1 ++ l3).
Proof.
  revert o. induction l1 as [|p l1 IH]; intros o Hc Hn Hh Hl Ho Hv; [by rewrite Ho|].
  destruct Hc as (-> & t & Hp & Hc). cbn [app] in Hn |- *. apply NoDup_cons in Hn as [Hp1 Hn]. split; [done|].
  rewrite last_cons in Hh, Hl, Ho. destruct (last l1) as [q|] eqn:E.
  - exists t. split; [rewrite Hh; [done|set_solver|]|].
    { intros [= ->]. apply Hp1, elem_of_app. left. by apply last_Some_elem_of. }
    apply IH; [done|done| |done|done|done]. intros p' Hp'. apply Hh. set_solver.
  - apply last_None in E as ->. exists (set_next v t). split; [by rewrite (Hl p), Hp|]. done.
Qed.

Lemma write_slot_run s l1 l2 l3 v :
  chain (heap s) (pTMR_ActiveList s) (l1 ++ l2) -> NoDup (l1 ++ l3) -> chain (heap s) v l3 ->
  exists h' a', write_slot (slot_of l1) v s = Ret (tt, with_list h' a' s) /\
    chain h' a' (l1 ++ l3) /\ data <$> h' = data <$> heap s.
Proof.
  intros Hc Hn Hv. unfold slot_of. destruct (last l1) as [q|] eqn:E; cbn [write_slot].
  - pose proof (chain_app _ _ _ _ Hc) as H. rewrite E in H. destruct H as (t & Hq & _).
    exists (<[q := set_next v t]> (heap s)), (pTMR_ActiveList s). split_and!.
    + by run_step (load_tmr q s t Hq).
    + apply (chain_relink (heap s) _ _ v l1 l2 l3); [done|done| | |by rewrite E|].
      * intros p Hp Hpq. rewrite lookup_insert_ne; [done|]. congruence.
      * intros q' Eq. rewrite E in Eq. injection Eq as <-. rewrite Hq. apply lookup_insert_eq.
      * eapply chain_ext; [|done]. intros p Hp. apply lookup_insert_ne. intros ->.
        apply NoDup_app in Hn as (_ & Hd & _). eapply Hd; [|done]. by apply last_Some_elem_of.
    + rewrite fmap_insert. apply insert_id. by rewrite lookup_fmap, Hq.
  - apply last_None in E as ->. exists (heap s), v. split_and!; done.
Qed.

(** ** Timers as entries of the schedule *)

Definition shows (t : timer_cb_details) (e : entry) : Prop :=
  check_ptr t = true /\ period_mSec t = e_period e /\ periodic t = e_periodic e /\ callback t = e_cb e /\
  cookie t = e_cookie e.

(** The timer [e] is on the heap and expires when [e] is due. *)
Definition holds (h : gmap Z timer_cb_details) (ep : Z) (e : entry) : Prop :=
  exists t, h !! e_ptr e = Some t /\ shows t e /\ expire_time t = u32 (e_due e - ep).

Lemma shows_data t t' e : data t = data t' -> shows t e -> shows t' e /\ expire_time t' = expire_time t.
Proof. destruct t, t'. by intros [= -> -> -> -> -> -> ->]. Qed.

Lemma data_lookup {h h' : gmap Z timer_cb_details} {p t} :
  data <$> h' !! p = data <$> h !! p -> h !! p = Some t -> exists t', h' !! p = Some t' /\ data t = data t'.
Proof.
  intros E Hp. rewrite Hp in E. destruct (h' !! p) as [t'|]; [|done].
  exists t'. split; [done|]. change (Some (data t') = Some (data t)) in E. congruence.
Qed.

Lemma data_all (h h' : gmap Z timer_cb_details) p : data <$> h' = data <$> h -> data <$> h' !! p = data <$> h !! p.
Proof. intros E. by rewrite <- !lookup_fmap, E. Qed.

Lemma holds_data h h' ep e :
  data <$> h' !! e_ptr e = data <$> h !! e_ptr e -> holds h ep e -> holds h' ep e.
Proof.
  intros E (t & Ht & Hs & Hx). destruct (data_lookup E Ht) as (t' & Ht' & Ed).
  destruct (shows_data t t' e Ed Hs) as [Hs' Hx']. exists t'. by rewrite Hx'.
Qed.

Abbreviation ptrs := (@fmap list list_fmap entry Z e_ptr).

Lemma slot_of_snoc l q : slot_of (l ++ [q]) = AtNext q.
Proof. unfold slot_of. by rewrite last_snoc. Qed.

Lemma insert_walk_run e ep s l2 : forall l1 fuel,
  chain (heap s) (pTMR_ActiveList s) (ptrs (l1 ++ l2)) ->
  Forall (holds (heap s) ep) l2 ->
  Forall (fun x => - 2 ^ 31 <= e_due e - e_due x < 2 ^ 31) l2 ->
  (length l2 < fuel)%nat ->
  exists la lb, l2 = la ++ lb /\ insert_due e l2 = la ++ e :: lb /\
    insert_walk fuel (u32 (e_due e - ep)) (slot_of (ptrs l1)) s = Ret (slot_of (ptrs (l1 ++ la)), s).
Proof.
  induction l2 as [|x l2 IH]; intros l1 [|fuel] Hc Hh Hw Hf; cbn [length] in Hf; try lia; cbn [insert_walk insert_due];
    pose proof Hc as Hr; rewrite fmap_app in Hr; run_step (read_slot_run s _ _ Hr); cbn [fmap list_fmap head].
  { exists [], []. by rewrite (app_nil_r l1). }
  apply Forall_cons in Hh as [(t & Ht & _ & Hx) Hh]. apply Forall_cons in Hw as [Hw1 Hw].
  run_step (load_tmr _ s t Ht). rewrite Hx, int32_diff by done.
  destruct (Z.leb_spec (e_due e - e_due x) 0), (Z.leb_spec (e_due e) (e_due x)); try lia.
  { exists [], (x :: l2). by rewrite (app_nil_r l1). }
  rewrite <- (slot_of_snoc (ptrs l1)).
  change (ptrs l1 ++ [e_ptr x]) with (ptrs l1 ++ ptrs [x]). rewrite <- fmap_app.
  destruct (IH (l1 ++ [x]) fuel) as (la & lb & -> & -> & E); [by rewrite <- app_assoc|done|done|lia|].
  exists (x :: la), lb. by rewrite E, <- app_assoc.
Qed.

Lemma timer_insert_run s p t e l :
  heap s !! p = Some t -> shows t e -> e_ptr e = p ->
  chain (heap s) (pTMR_ActiveList s) (ptrs l) -> NoDup (p :: ptrs l) ->
  Forall (holds (heap s) (epoch_of s)) l ->
  Forall (fun x => - 2 ^ 31 <= abs_now s + e_period e - e_due x < 2 ^ 31) l ->
  let e := rearmed (abs_now s) e in
  exists h' a', _timer_insert p s = Ret (tt, with_list h' a' (set_epoch (epoch_of s) s)) /\
    chain h' a' (ptrs (insert_due e l)) /\ holds h' (epoch_of s) e /\
    forall q, q <> p -> data <$> h' !! q = data <$> heap s !! q.
Proof.
  intros Ht Hs Ep Hc Hn Hh Hw e'. unfold _timer_insert. run_step (getNow_run s).
  set (s1 := set_epoch (epoch_of s) s). run_step (load_tmr p s1 t Ht).
  set (x := u32 _). assert (x = u32 (e_due e' - epoch_of s)) as Ex.
  { subst x e'. destruct Hs as (_ & -> & _). cbn [rearmed e_due]. unfold u32. rewrite Z.add_mod_idemp_l by lia. f_equal. lia. }
  unfold store. run_modify. set (s2 := with_list _ _ s1). run_get.
  apply NoDup_cons in Hn as [Hp Hn].
  assert (forall q, q ∈ ptrs l -> heap s2 !! q = heap s !! q) as Hs2.
  { intros q Hq. apply lookup_insert_ne. intros ->. done. }
  assert (chain (heap s2) (pTMR_ActiveList s2) (ptrs l)) as Hc2 by (eapply chain_ext; [|exact Hc]; done).
  assert (Forall (holds (heap s2) (epoch_of s)) l) as Hh2.
  { rewrite Forall_forall in Hh |- *. intros y Hy. eapply holds_data; [|by apply Hh]. rewrite Hs2; [done|]. by apply list_elem_of_fmap_2. }
  destruct (insert_walk_run e' (epoch_of s) s2 l [] (S (size (heap s2))) Hc2 Hh2) as (la & lb & El & Ei & E).
  { done. }
  { pose proof (chain_length _ _ _ Hc2 Hn) as Hl. rewrite length_fmap in Hl. lia. }
  rewrite Ex. change AtHead with (slot_of (ptrs [])). run_step E. cbn [app].
  rewrite El, fmap_app in Hc2. run_step (read_slot_run s2 _ _ Hc2).
  assert (heap s2 !! p = Some (set_expire x t)) as Hp2 by apply lookup_insert_eq.
  run_step (load_tmr p s2 _ Hp2). run_modify. set (t3 := set_next (head (ptrs lb)) (set_expire x t)).
  set (s3 := with_list _ _ s2).
  assert (NoDup (ptrs la ++ p :: ptrs lb)) as Hn3.
  { rewrite <- Permutation_middle, <- fmap_app, <- El. by apply NoDup_cons. }
  assert (forall q, q <> p -> heap s3 !! q = heap s2 !! q) as Hs3 by (intros q Hq; by apply lookup_insert_ne).
  assert (p ∉ ptrs la ++ ptrs lb) as Hp3 by (by rewrite <- fmap_app, <- El).
  destruct (write_slot_run s3 (ptrs la) (ptrs lb) (p :: ptrs lb) (Some p)) as (h' & a' & Ew & Hc' & Hd').
  { eapply chain_ext; [|exact Hc2]. intros q Hq. apply Hs3. by intros ->. }
  { done. }
  { split; [done|]. exists t3. split; [apply lookup_insert_eq|]. cbn [t3 set_next pNext].
    pose proof (chain_app _ _ _ _ Hc2) as Hb.
    assert (chain (heap s2) (head (ptrs lb)) (ptrs lb)) as Hb'.
    { destruct (last (ptrs la)); [destruct Hb as (? & _ & Hb)|]; pose proof (chain_hd _ _ _ Hb) as Eb; by rewrite <- Eb. }
    eapply chain_ext; [|exact Hb']. intros q Hq. apply Hs3. intros ->. apply Hp3, elem_of_app. by right. }
  exists h', a'. rewrite Ew. split; [done|]. rewrite Ei, fmap_app. cbn [fmap list_fmap]. 
  split; [by rewrite <- Ep in Hc' at 1|]. split.
  - destruct (data_lookup (p := p) (data_all _ _ p Hd') (lookup_insert_eq _ p t3)) as (t' & Ht' & Ed).
    destruct (shows_data t3 t' e' Ed) as [Hs' Hx']; [done|]. exists t'. cbn [e' rearmed e_ptr]. rewrite Ep, Hx'. done.
  - intros q Hq. rewrite (data_all _ _ q Hd'), Hs3 by done. cbn [s2 s1 heap with_list set_epoch]. by rewrite lookup_insert_ne.
Qed.

Lemma find_walk_run s p l2 : forall l1 fuel,
  chain (heap s) (pTMR_ActiveList s) (l1 ++ l2) -> (length l2 < fuel)%nat ->
  ((p ∉ l2) /\ find_walk fuel p (slot_of l1) s = Ret (None, s)) \/
  (exists la lb, l2 = la ++ p :: lb /\ find_walk fuel p (slot_of l1) s = Ret (Some (slot_of (l1 ++ la)), s)).
Proof.
  induction l2 as [|q l2 IH]; intros l1 [|fuel] Hc Hf; cbn [length] in Hf; try lia; cbn [find_walk];
    run_step (read_slot_run s _ _ Hc); cbn [head].
  { left. split; [by apply not_elem_of_nil|done]. }
  destruct (Z.eqb_spec q p) as [->|Hq].
  { right. exists [], l2. by rewrite (app_nil_r l1). }
  rewrite <- (slot_of_snoc l1). destruct (IH (l1 ++ [q]) fuel) as [[Hp E]|(la & lb & -> & E)]; [by rewrite <- app_assoc|lia| |].
  - left. split; [by apply not_elem_of_cons|done].
  - right. exists (q :: la), lb. by rewrite E, <- app_assoc.
Qed.

Lemma filter_other (h : Z) l : h ∉ ptrs l -> filter (fun e => e_ptr e <> h) l = l.
Proof.
  induction l as [|e l IH]; intros H; [done|]. cbn [fmap list_fmap] in H. apply not_elem_of_cons in H as [H1 H2].
  rewrite filter_cons_True by auto. by rewrite IH.
Qed.

(** Taking the timer [h] out of the list. *)
Lemma unlink_run s h t l :
  heap s !! h = Some t -> chain (heap s) (pTMR_ActiveList s) (ptrs l) -> NoDup (ptrs l) ->
  exists h' a', (sl ← find_walk (S (size (heap s))) h AtHead;
      match sl with
      | Some ppTMR => t ← load h; write_slot ppTMR (pNext t);; t ← load h; store h (set_next None t)
      | None => mret tt
      end) s = Ret (tt, with_list h' a' s) /\
    chain h' a' (ptrs (filter (fun e => e_ptr e <> h) l)) /\ data <$> h' = data <$> heap s /\
    h ∉ ptrs (filter (fun e => e_ptr e <> h) l).
Proof.
  intros Ht Hc Hn. change AtHead with (slot_of []).
  destruct (find_walk_run s h (ptrs l) [] (S (size (heap s))) Hc) as [[Hp E]|(pa & pb & Ep & E)].
  { pose proof (chain_length _ _ _ Hc Hn). lia. }
  - exists (heap s), (pTMR_ActiveList s). run_step E. rewrite filter_other by done.
    rewrite with_list_same. by split_and!.
  - run_step E. run_step (load_tmr h s t Ht). cbn [app].
    apply fmap_app_inv in Ep as (la & [|e lb] & -> & Eb & ->); [done|]. injection Eb as Eh ->.
    rewrite fmap_app in Hc, Hn. cbn [fmap list_fmap] in Hc, Hn. change (list_fmap _ _ e_ptr lb) with (ptrs lb) in *.
    rewrite Eh in *.
    assert (NoDup (e_ptr e :: ptrs la ++ ptrs lb)) as Hn2 by (by rewrite Permutation_middle).
    apply NoDup_cons in Hn2 as [He Hn2].
    assert (filter (fun x => e_ptr x <> e_ptr e) (la ++ e :: lb) = la ++ lb) as ->.
    { rewrite filter_app, filter_cons_False by auto. rewrite !filter_other by (intros Hx; apply He, elem_of_app; auto). done. }
    rewrite fmap_app.
    assert (chain (heap s) (pNext t) (ptrs lb)) as Hb.
    { pose proof Hc as H. rewrite (cons_middle (e_ptr e)), app_assoc in H. apply chain_app in H. rewrite last_snoc in H.
      destruct H as (t' & Ht' & H). congruence. }
    destruct (write_slot_run s (ptrs la) (e_ptr e :: ptrs lb) (ptrs lb) (pNext t) Hc Hn2 Hb) as (h' & a' & Ew & Hc' & Hd).
    run_step Ew. destruct (data_lookup (data_all _ _ (e_ptr e) Hd) Ht) as (t' & Ht' & Ed).
    run_step (load_tmr (e_ptr e) (with_list h' a' s) t' Ht').
    exists (<[e_ptr e := set_next None t']> h'), a'. split_and!; [done| | |done].
    + eapply chain_ext; [|exact Hc']. intros q Hq. apply lookup_insert_ne. intros <-. done.
    + rewrite fmap_insert, insert_id; [done|]. by rewrite lookup_fmap, Ht'.
Qed.

Lemma destroy_unlink_run s h t l :
  heap s !! h = Some t -> check_ptr t = true -> h <> 0 ->
  chain (heap s) (pTMR_ActiveList s) (ptrs l) -> NoDup (ptrs l) ->
  exists h' a', destroy_unlink h s =
      Ret (Some h, with_list h' a' (set_service (if bool_decide (pTMR_InService s = Some h) then None else pTMR_InService s) s)) /\
    chain h' a' (ptrs (filter (fun e => e_ptr e <> h) l)) /\ data <$> h' = data <$> heap s.
Proof.
  intros Ht Hk H0 Hc Hn. unfold destroy_unlink, timer_cb_h2tmr. rewrite (proj2 (Z.eqb_neq h 0)) by done.
  assert ((t ← load h; if negb (check_ptr t) then mret None else mret (Some h)) s = Ret (Some h, s)) as E.
  { run_step (load_tmr h s t Ht). by rewrite Hk. }
  run_step E. run_get.
  set (s1 := set_service _ s).
  assert ((if bool_decide (pTMR_InService s = Some h) then modify (set_service None) else mret tt) s = Ret (tt, s1)) as E1.
  { subst s1. case_bool_decide; [done|]. by destruct s. }
  run_step E1. destruct (unlink_run s1 h t l Ht Hc Hn) as (h' & a' & E2 & Hc' & Hd & Hh).
  change (heap s) with (heap s1).
  unfold mbind, M_bind in E2 |- *. exists h', a'. split; [|done].
  destruct (find_walk _ _ _ s1) as [[sl s2]| |]; cbn in E2 |- *; [|done..]. by rewrite E2.
Qed.

(** ** The code follows the schedule *)

Section Refinement.
Variables (P L : Z).
Hypothesis HPL : 0 <= L /\ 1 <= P /\ P + L < 2 ^ 31.

Definition in_window (t : Z) (e : entry) : Prop := t - L <= e_due e <= t + P.
Definition period_ok (e : entry) : Prop := 1 <= e_period e <= P.

Record sim (s : timers) (sp : sched) : Prop := MkSim {
  sm_chain : chain (heap s) (pTMR_ActiveList s) (ptrs (pending sp));
  sm_nodup : NoDup (ptrs (pending sp));
  sm_holds : Forall (holds (heap s) (epoch_of s)) (pending sp);
  sm_window : Forall (in_window (now sp)) (pending sp);
  sm_period : Forall period_ok (pending sp);
  sm_epoch : epoch_msecs s = 0 -> pending sp = [];
  sm_service : pTMR_InService s = e_ptr <$> serving sp;
  sm_serving : forall e, serving sp = Some e ->
    (e_ptr e ∉ ptrs (pending sp)) /\ e_ptr e ∈ live sp /\ period_ok e /\ exists t, heap s !! e_ptr e = Some t /\ shows t e;
  sm_calling : forall p, phase sp = Calling p -> exists e, taken sp = Some e /\ e_ptr e = p /\ p < fresh sp /\
    forall t, heap s !! p = Some t -> callback t = e_cb e /\ cookie t = e_cookie e;
  sm_check : forall p t, heap s !! p = Some t -> check_ptr t = true /\ 0 < p < fresh sp;
  sm_live : live sp ∪ leaving sp = dom (heap s);
  sm_apart : live sp ## leaving sp;
  sm_active : forall p, p ∈ ptrs (pending sp) -> p ∈ live sp;
  sm_fresh : next_ptr s = fresh sp /\ 0 < fresh sp;
  sm_sem : sem_count s = posts sp;
  sm_thread : thread s = phase sp;
  sm_once : timer_done_once s = match phase sp with NotStarted => false | _ => true end;
  sm_now : abs_now s = now sp;
  sm_clock : clock_ok s
}.

Lemma sim0 t : 0 < t < 2 ^ 64 -> sim (timers0 t) (sched0 t).
Proof.
  intros Ht. constructor; cbn; try done; try constructor; try lia; auto using NoDup_nil_2.
  all: try (intros; simplify_map_eq; done). all: try (cbn; lia). all: set_solver.
Qed.

Lemma sim_epoch s sp : sim s sp -> epoch_of (set_epoch (epoch_of s) s) = epoch_of s /\ clock_ok (set_epoch (epoch_of s) s).
Proof.
  intros Hs. pose proof (sm_clock _ _ Hs) as [H1 H2]. unfold epoch_of, clock_ok. cbn [set_epoch epoch_msecs abs_now].
  destruct (Z.eqb_spec (epoch_msecs s) 0); [rewrite (proj2 (Z.eqb_neq (abs_now s) 0)) by lia; lia|].
  rewrite (proj2 (Z.eqb_neq (epoch_msecs s) 0)) by lia. lia.
Qed.

Lemma insert_due_perm e l : insert_due e l ≡ₚ e :: l.
Proof.
  induction l as [|y l IH]; cbn [insert_due]; [done|]. destruct (_ <=? _); [done|]. rewrite IH. apply Permutation_swap.
Qed.

Lemma Forall_insert_due Q e l : Q e -> Forall Q l -> Forall Q (insert_due e l).
Proof. intros He Hl. rewrite insert_due_perm. by constructor. Qed.

(** A timer that is not pending is put into the list. *)
Lemma insert_sim s sp e t :
  sim s sp -> heap s !! e_ptr e = Some t -> shows t e -> period_ok e -> (e_ptr e ∉ ptrs (pending sp)) -> e_ptr e ∈ live sp ->
  (forall e', serving sp = Some e' -> e_ptr e' <> e_ptr e) ->
  exists s', _timer_insert (e_ptr e) s = Ret (tt, s') /\
    sim s' (MkSched (insert_due (rearmed (now sp) e) (pending sp)) (serving sp) (taken sp) (live sp) (leaving sp) (fresh sp) (posts sp)
              (owed sp) (phase sp) (now sp)).
Proof.
  intros Hs Ht Hsh Hp Hni Hlv Hsv. destruct (sim_epoch s sp Hs) as [Ee Hk]. pose proof Hs as [].
  destruct (timer_insert_run s (e_ptr e) t e (pending sp)) as (h' & a' & E & Hc & Hho & Hd); try done.
  { by apply NoDup_cons. }
  { eapply Forall_impl; [exact sm_window0|]. unfold in_window, period_ok in *. cbn. rewrite sm_now0. lia. }
  rewrite sm_now0 in Hc, Hho. eexists. split; [exact E|]. constructor; cbn [with_list set_epoch heap next_ptr pTMR_InService
    pTMR_ActiveList timer_done_once sem_count thread abs_now epoch_msecs pending serving taken live leaving fresh posts owed phase now]; try done.
  - rewrite insert_due_perm. cbn. by apply NoDup_cons.
  - change (Forall (holds h' (epoch_of (set_epoch (epoch_of s) s))) (insert_due (rearmed (now sp) e) (pending sp))).
    rewrite Ee. apply Forall_insert_due; [done|]. rewrite Forall_forall in sm_holds0 |- *. intros x Hx.
    eapply holds_data; [|by apply sm_holds0]. apply Hd. intros Ex. apply Hni. rewrite <- Ex. by apply list_elem_of_fmap_2.
  - apply Forall_insert_due; [|done]. unfold in_window, period_ok in *. cbn. lia.
  - by apply Forall_insert_due.
  - intros E0. unfold clock_ok in Hk. cbn in Hk. destruct Hk as [Hk1 Hk2]. unfold epoch_of in E0. destruct (Z.eqb_spec (epoch_msecs s) 0); lia.
  - intros e' Ee'. destruct (sm_serving0 e' Ee') as (Hn' & Hl' & Hp' & t' & Ht' & Hs'). pose proof (Hsv e' Ee') as Hne. split_and!; [|done|done|].
    + rewrite insert_due_perm. cbn. rewrite not_elem_of_cons. done.
    + destruct (data_lookup (Hd (e_ptr e') Hne) Ht') as (t2 & Ht2 & Ed). exists t2. by destruct (shows_data t' t2 e' Ed Hs').
  - intros p Hph. destruct (sm_calling0 p Hph) as (e' & Et & Ep & Hlt & Hcb). exists e'. split_and!; [done..|]. intros t2 Ht2.
    destruct (decide (p = e_ptr e)) as [->|Hpe].
    + destruct Hho as (t3 & Ht3 & Hs3 & _). cbn in Ht3. rewrite Ht3 in Ht2. injection Ht2 as <-. destruct (Hcb t Ht) as [<- <-].
      destruct Hs3 as (_ & _ & _ & -> & ->), Hsh as (_ & _ & _ & -> & ->). done.
    + destruct (data_lookup (eq_sym (Hd p Hpe)) Ht2) as (t3 & Ht3 & Ed). destruct (Hcb t3 Ht3) as [<- <-].
      destruct t2, t3. by injection Ed as -> -> -> -> -> -> ->.
  - intros p t2 Ht2. destruct (decide (p = e_ptr e)) as [->|Hpe].
    + split; [|by eapply sm_check0]. destruct Hho as (t3 & Ht3 & Hs3 & _). cbn in Ht3. rewrite Ht3 in Ht2. injection Ht2 as <-. apply Hs3.
    + destruct (data_lookup (eq_sym (Hd p Hpe)) Ht2) as (t3 & Ht3 & Ed). destruct (sm_check0 p t3 Ht3) as [Hk3 ?].
      split; [|done]. destruct t2, t3. by injection Ed as -> -> -> -> -> -> ->.
  - rewrite sm_live0. apply set_eq. intros p. rewrite !elem_of_dom. destruct (decide (p = e_ptr e)) as [->|Hpe].
    + destruct Hho as (t3 & Ht3 & _). cbn in Ht3. rewrite Ht, Ht3. by split.
    + split; intros [t4 H4]; [destruct (data_lookup (Hd p Hpe) H4) as (t5 & ? & _)|
        destruct (data_lookup (eq_sym (Hd p Hpe)) H4) as (t5 & ? & _)]; by exists t5.
  - intros p. rewrite insert_due_perm. cbn. rewrite elem_of_cons. intros [->|?]; auto.
Qed.

Lemma sim_pending_dom s sp p : sim s sp -> p ∈ ptrs (pending sp) -> is_Some (heap s !! p).
Proof. intros [] Hp. by eapply chain_in. Qed.

Lemma once_sim s sp : sim s sp -> exists s', timer_once_routine s = Ret (tt, s') /\ sim s' (start sp).
Proof.
  intros []. unfold timer_once_routine, start. run_get. rewrite sm_once0. destruct (phase sp) eqn:E.
  - eexists. split; [reflexivity|]. by constructor.
  - exists s. split; [done|]. constructor; by rewrite ?E.
  - exists s. split; [done|]. constructor; by rewrite ?E.
  - exists s. split; [done|]. constructor; by rewrite ?E.
  - exists s. split; [done|]. constructor; by rewrite ?E.
Qed.

(** A record on the heap that no list knows yet. *)
Lemma alloc_sim s sp t :
  sim s sp -> check_ptr t = true ->
  sim (MkTimers (<[fresh sp := t]> (heap s)) (fresh sp + 1) (pTMR_InService s) (pTMR_ActiveList s) (timer_done_once s)
         (sem_count s) (thread s) (abs_now s) (epoch_msecs s))
    (MkSched (pending sp) (serving sp) (taken sp) ({[fresh sp]} ∪ live sp) (leaving sp) (fresh sp + 1) (posts sp) (owed sp) (phase sp) (now sp)).
Proof.
  intros Hs Hk. pose proof Hs as [].
  assert (forall p, is_Some (heap s !! p) -> p <> fresh sp) as Hf by (intros p [x Hx]; apply sm_check0 in Hx; lia).
  constructor; try done; cbn [heap pending serving taken live leaving fresh posts owed phase now].
  - eapply chain_ext; [|done]. intros p Hp. apply lookup_insert_ne. intros <-. eapply Hf; [|done]. by eapply sim_pending_dom.
  - rewrite Forall_forall in sm_holds0 |- *. intros x Hx. eapply holds_data; [|by apply sm_holds0]. f_equal.
    apply lookup_insert_ne. intros Ex. eapply Hf; [|symmetry; exact Ex]. eapply sim_pending_dom; [done|]. by apply list_elem_of_fmap_2.
  - intros e Ee. destruct (sm_serving0 e Ee) as (? & ? & ? & t' & Ht' & ?). split_and!; [done|set_solver|done|]. exists t'. split; [|done].
    rewrite lookup_insert_ne; [done|]. intros Ex. eapply Hf; [|symmetry; exact Ex]. by exists t'.
  - intros p Hph. destruct (sm_calling0 p Hph) as (e & Et & Ep & Hlt & Hcb). exists e. split_and!; [done|done|lia|].
    rewrite lookup_insert_ne by lia. done.
  - intros p t' Hp. destruct (decide (p = fresh sp)) as [->|Hne].
    + rewrite lookup_insert_eq in Hp. injection Hp as <-. split; [done|lia].
    + rewrite lookup_insert_ne in Hp by done. apply sm_check0 in Hp. split; [tauto|lia].
  - rewrite dom_insert_L, <- sm_live0. set_solver.
  - apply disjoint_union_l. split; [|done]. apply disjoint_singleton_l. intros Hin.
    assert (fresh sp ∈ dom (heap s)) as [x Hx]%elem_of_dom by (rewrite <- sm_live0; set_solver). by eapply Hf.
  - intros p Hp. apply elem_of_union_r. by apply sm_active0.
  - cbn. lia.
Qed.

Lemma Forall_filter_l (Q : entry -> Prop) h l : Forall Q l -> Forall Q (filter (fun e => e_ptr e <> h) l).
Proof. rewrite !Forall_forall. intros H x [_ Hx]%list_elem_of_filter. by apply H. Qed.

(** Run a call inside a step. *)
Lemma in_step {A B} (m : M timers A) (k : A -> B) s a (Q : timers -> Prop) :
  (exists s', m s = Ret (a, s') /\ Q s') -> exists s', (x ← m; mret (k x)) s = Ret (k a, s') /\ Q s'.
Proof. intros (s' & E & HQ). exists s'. split; [|done]. by run_step E. Qed.

Lemma create_sim s sp mem dup name cb ck period per :
  sim s sp -> 0 <= period <= P ->
  exists s', create_insert mem dup name cb ck period per s = Ret (if mem then fresh sp else 0, s') /\
    sim s' (snd (spec_step (Create mem dup name cb ck period per) sp)).
Proof.
  intros Hs Hok. unfold create_insert. destruct (once_sim s sp Hs) as (s1 & E1 & Hs1). cbn [spec_step].
  assert (fresh sp = fresh (start sp)) as -> by (unfold start; by destruct (phase sp)). set (sp1 := start sp) in *.
  run_step E1. destruct mem; cbn [negb]; [|by exists s1].
  run_get. pose proof Hs1 as []. destruct sm_fresh0 as [-> Hf].
  assert ((if period =? 0 then 1 else period) = Z.max 1 period) as -> by (destruct (Z.eqb_spec period 0); lia).
  run_modify. set (t := MkTmr _ _ _ _ _ _ _ _). set (s2 := MkTimers _ _ _ _ _ _ _ _ _).
  pose proof (alloc_sim s1 sp1 t Hs1 eq_refl) as Hs2. fold s2 in Hs2.
  destruct (insert_sim s2 _ (MkEntry (fresh sp1) 0 (Z.max 1 period) per cb ck) t Hs2) as (s3 & E3 & Hs3).
  { apply lookup_insert_eq. }
  { done. }
  { unfold period_ok. cbn. lia. }
  { cbn. intros Hp. eapply sim_pending_dom in Hp as [x Hx]; [|exact Hs1]. apply sm_check0 in Hx. lia. }
  { cbn. set_solver. }
  { cbn. intros e Ee Hp. destruct (sm_serving0 e Ee) as (_ & _ & _ & x & Hx & _). apply sm_check0 in Hx. lia. }
  cbn [e_ptr] in E3. run_step E3. cbn [fst snd].
  eexists. split; [reflexivity|]. by destruct Hs3.
Qed.

Lemma post_sim s sp : sim s sp -> exists s', SEMAPHORE_put s = Ret (tt, s') /\ sim s' (snd (spec_step Post sp)).
Proof. intros []. eexists. split; [reflexivity|]. constructor; try done. cbn. by rewrite sm_sem0. Qed.

Lemma destroy_sim s sp h :
  sim s sp -> ok_action P L sp (Destroy h) ->
  exists o s', destroy_unlink h s = Ret (o, s') /\ sim s' (snd (spec_step (Destroy h) sp)).
Proof.
  intros Hs Hok. pose proof Hs as []. cbn [spec_step ok_action] in *. case_bool_decide as H0; [subst; by exists None, s|]. cbn [snd].
  destruct Hok as [Hok|Hl]; [done|]. assert (h ∈ dom (heap s)) as [t Ht]%elem_of_dom by (rewrite <- sm_live0; set_solver).
  destruct (destroy_unlink_run s h t (pending sp)) as (h' & a' & E & Hc' & Hd); try done; [by eapply sm_check0|].
  eexists _, _. split; [exact E|].
  assert (forall q, data <$> h' !! q = data <$> heap s !! q) as Hq by (intros q; by apply data_all).
  constructor; cbn [with_list set_service heap pTMR_ActiveList pTMR_InService pending serving taken live leaving fresh posts owed phase now]; try done.
  - eapply sublist_NoDup; [exact sm_nodup0|]. apply fmap_sublist, sublist_filter.
  - rewrite Forall_forall in sm_holds0 |- *. intros x [Hxh Hx]%list_elem_of_filter. eapply holds_data; [|by apply sm_holds0]. by apply Hq.
  - by apply Forall_filter_l.
  - by apply Forall_filter_l.
  - intros E0. by rewrite sm_epoch0.
  - rewrite sm_service0. by repeat case_bool_decide.
  - intros e Ee. case_bool_decide as Eb; [done|]. destruct (sm_serving0 e Ee) as (H1 & Hl1 & H2 & x & Hx & Hsh).
    assert (e_ptr e <> h) as Hne by (intros Eh; apply Eb; by rewrite Ee, <- Eh). split_and!; [|set_solver|done|].
    + intros Hin. apply H1. apply list_elem_of_fmap in Hin as (y & -> & [_ Hy]%list_elem_of_filter). by apply list_elem_of_fmap_2.
    + destruct (data_lookup (Hq _) Hx) as (x' & Hx' & Ed). exists x'. by destruct (shows_data x x' e Ed Hsh).
  - intros p Hp. destruct (sm_calling0 p Hp) as (e & Ee & Ep & Hlt & Hcb). exists e. split_and!; [done..|]. intros x Hx.
    destruct (data_lookup (eq_sym (Hq p)) Hx) as (y & Hy & Ed). destruct (Hcb y Hy) as [<- <-]. destruct x, y. by injection Ed as -> -> -> -> -> -> ->.
  - intros p x Hx. destruct (data_lookup (eq_sym (Hq p)) Hx) as (y & Hy & Ed). destruct (sm_check0 p y Hy) as [Hk ?].
    split; [|done]. destruct x, y. by injection Ed as -> -> -> -> -> -> ->.
  - rewrite <- (dom_fmap_L data), Hd, dom_fmap_L, <- sm_live0. apply set_eq. intros p. destruct (decide (p = h)); set_solver.
  - set_solver.
  - intros p (y & -> & [Hy1 Hy2]%list_elem_of_filter)%list_elem_of_fmap. apply elem_of_difference. split; [|set_solver].
    by apply sm_active0, list_elem_of_fmap_2.
Qed.

(** A destroyed timer is freed: the thread may still be about to call it. *)
Lemma free_sim s sp h :
  sim s sp -> h ∈ leaving sp -> exists s', destroy_free h s = Ret (tt, s') /\ sim s' (snd (spec_step (Free h) sp)).
Proof.
  intros Hs Hl. pose proof Hs as []. assert (h ∈ dom (heap s)) as [t Ht]%elem_of_dom by (rewrite <- sm_live0; set_solver).
  unfold destroy_free. run_step (load_tmr h s t Ht). eexists. split; [reflexivity|]. cbn [spec_step snd].
  assert (forall q, q ∈ live sp -> q <> h) as Hne by set_solver.
  constructor; cbn [with_list heap pTMR_ActiveList pTMR_InService pending serving taken live leaving fresh posts owed phase now]; try done.
  - eapply chain_ext; [|exact sm_chain0]. intros q Hq. apply lookup_delete_ne. intros <-. by apply (Hne h); [apply sm_active0|].
  - rewrite Forall_forall in sm_holds0 |- *. intros x Hx. eapply holds_data; [|by apply sm_holds0]. f_equal. apply lookup_delete_ne.
    intros Ex. apply (Hne (e_ptr x)); [|done]. by apply sm_active0, list_elem_of_fmap_2.
  - intros e Ee. destruct (sm_serving0 e Ee) as (H1 & Hl1 & H2 & x & Hx & Hsh). split_and!; [done..|]. exists x. split; [|done].
    rewrite lookup_delete_ne; [done|]. intros Ex. by apply (Hne (e_ptr e)).
  - intros p Hp. destruct (sm_calling0 p Hp) as (e & Ee & Ep & Hlt & Hcb). exists e. split_and!; [done..|]. intros x [_ Hx]%lookup_delete_Some. by apply Hcb.
  - intros p x [_ Hx]%lookup_delete_Some. by apply sm_check0.
  - rewrite dom_delete_L, <- sm_live0. set_solver.
  - set_solver.
Qed.

(** What is left of a pending timer. *)
Lemma left_run s sp e t :
  sim s sp -> e ∈ pending sp -> heap s !! e_ptr e = Some t ->
  int32 (u32 (expire_time t - u32 (abs_now s - epoch_of s))) = e_due e - now sp.
Proof.
  intros [] He Ht. rewrite Forall_forall in sm_holds0, sm_window0. destruct (sm_holds0 e He) as (t' & Ht' & _ & Ex).
  rewrite Ht' in Ht. injection Ht as ->. rewrite Ex, sm_now0. apply int32_diff. specialize (sm_window0 e He).
  unfold in_window in sm_window0. lia.
Qed.

Lemma set_epoch_sim s sp : sim s sp -> sim (set_epoch (epoch_of s) s) sp.
Proof.
  intros Hs. destruct (sim_epoch s sp Hs) as [Ee Hk]. destruct Hs. constructor; try done.
  - by rewrite Ee.
  - intros E0. destruct Hk as [Hk1 Hk2]. cbn in *. unfold epoch_of in E0. destruct (Z.eqb_spec (epoch_msecs s) 0); [by apply sm_epoch0|lia].
Qed.

Lemma remain_sim s sp h :
  sim s sp -> h ∈ ptrs (pending sp) ->
  exists s', TIMER_CB_getRemain h s =
    Ret (from_option (fun e => e_due e - now sp) (-1) (head (filter (fun e => e_ptr e = h) (pending sp))), s') /\ sim s' sp.
Proof.
  intros Hs Hh. pose proof (sim_pending_dom s sp h Hs Hh) as [t Ht]. exists (set_epoch (epoch_of s) s).
  split; [|by apply set_epoch_sim]. unfold TIMER_CB_getRemain, timer_cb_h2tmr. pose proof Hs as [].
  destruct (sm_check0 h t Ht) as [Hk Hp]. rewrite (proj2 (Z.eqb_neq h 0)) by lia.
  assert ((t ← load h; if negb (check_ptr t) then mret None else mret (Some h)) s = Ret (Some h, s)) as E.
  { run_step (load_tmr h s t Ht). by rewrite Hk. }
  run_step E. run_step (load_tmr h s t Ht). run_step (getNow_run s).
  destruct (head (filter (fun e => e_ptr e = h) (pending sp))) as [e|] eqn:Ef.
  - apply head_Some_elem_of, list_elem_of_filter in Ef as [<- He]. cbn [from_option].
    by rewrite (left_run s sp e t Hs He Ht).
  - exfalso. apply list_elem_of_fmap in Hh as (e & -> & He). apply head_None in Ef.
    by apply (filter_nil_not_elem_of _ _ e) in Ef.
Qed.

(** The thread moves on without touching the list. *)
Lemma goto_sim s sp pc :
  sim s sp -> phase sp <> NotStarted -> pc <> NotStarted -> (forall p, pc <> Calling p) -> sim (set_thread pc s) (goto pc sp).
Proof.
  intros [] Hs Hpc Hp. constructor; try done; cbn [goto phase set_thread timer_done_once]; [intros p Ep; by destruct (Hp p)|].
  rewrite sm_once0. by destruct (phase sp), pc.
Qed.

Lemma look_sim s sp :
  sim s sp -> phase sp = Top ->
  exists s', thread_look s = Ret (tt, s') /\ sim s' (snd (spec_step Look sp)).
Proof.
  intros Hs Hph. pose proof (set_epoch_sim s sp Hs) as Hs1. pose proof Hs as []. unfold thread_look. run_get. cbn [spec_step]. rewrite Hph.
  destruct (pending sp) as [|e l] eqn:Ep.
  - cbn in sm_chain0. rewrite sm_chain0. cbn [snd]. rewrite sm_now0. eexists. split; [reflexivity|].
    apply goto_sim; [done|by rewrite Hph|done|done].
  - destruct sm_chain0 as (Ha & t & Ht & Hc). rewrite Ha.
    assert ((t ← load (e_ptr e); tnow ← TIMER_getNow; mret (int32 (u32 (expire_time t - tnow)))) s =
      Ret (e_due e - now sp, set_epoch (epoch_of s) s)) as E.
    { run_step (load_tmr _ s t Ht). run_step (getNow_run s). rewrite (left_run s sp e t Hs); [done| |done]. rewrite Ep. by left. }
    run_step E. clear E. set (s1 := set_epoch (epoch_of s) s) in *. rewrite sm_now0.
    destruct (Z.ltb_spec 0 (e_due e - now sp)), (Z.ltb_spec (now sp) (e_due e)); try lia.
    + eexists. split; [reflexivity|]. cbn [snd]. replace (now sp + (e_due e - now sp)) with (e_due e) by lia.
      apply goto_sim; [done|by rewrite Hph|done|done].
    + unfold deref. cbn [lift]. assert (lift (Ret (e_ptr e)) s1 = Ret (e_ptr e, s1)) as E by done. run_step E.
      run_step (load_tmr (e_ptr e) s1 t Ht). cbn [write_slot]. run_modify. unfold store. run_modify. run_modify.
      eexists. split; [reflexivity|]. cbn [snd]. destruct (sim_epoch s sp Hs) as [Ee Hk].
      apply NoDup_cons in sm_nodup0 as [Hne Hnd]. apply Forall_cons in sm_holds0 as [Hh1 Hh]. apply Forall_cons in sm_window0 as [Hw1 Hw].
      apply Forall_cons in sm_period0 as [Hp1 Hp]. change (list_fmap entry Z e_ptr l) with (ptrs l) in *.
      assert (forall q, data <$> <[e_ptr e := set_next None t]> (heap s) !! q = data <$> heap s !! q) as Hd.
      { intros q. destruct (decide (q = e_ptr e)) as [->|Hq]; [by rewrite lookup_insert_eq, Ht|by rewrite lookup_insert_ne]. }
      constructor; cbn [set_thread set_service with_list s1 set_epoch heap pTMR_ActiveList pTMR_InService thread next_ptr
        sem_count abs_now timer_done_once pending serving taken live leaving fresh posts owed phase now]; try done.
      * eapply chain_ext; [|exact Hc]. intros q Hq. apply lookup_insert_ne. by intros <-.
      * change (Forall (holds (<[e_ptr e:=set_next None t]> (heap s)) (epoch_of (set_epoch (epoch_of s) s))) l).
        rewrite Ee. eapply Forall_impl; [exact Hh|]. intros x. apply holds_data. apply Hd.
      * intros E0. destruct Hk as [_ Hk2]. destruct Hs1. specialize (sm_epoch1 E0). congruence.
      * intros e' [= <-]. split_and!; [done|by apply sm_active0; left|done|]. exists (set_next None t). split; [apply lookup_insert_eq|].
        destruct Hh1 as (t' & Ht' & Hsh & _). rewrite Ht' in Ht. injection Ht as ->. done.
      * intros p [= <-]. exists e. destruct Hh1 as (t' & Ht' & Hsh & _). rewrite Ht' in Ht. injection Ht as ->. destruct (sm_check0 _ _ Ht') as [_ Hlt].
        split_and!; [done|done|lia|]. intros t2. rewrite lookup_insert_eq. intros [= <-]. by destruct Hsh as (_ & _ & _ & ? & ?).
      * intros p x Hx. destruct (decide (p = e_ptr e)) as [->|Hq].
        -- rewrite lookup_insert_eq in Hx. injection Hx as <-. by apply (sm_check0 _ t).
        -- rewrite lookup_insert_ne in Hx by done. by apply sm_check0.
      * rewrite dom_insert_L, sm_live0. apply set_eq. intros p. rewrite elem_of_union, elem_of_singleton.
        split; [auto|]. intros [->|]; [|done]. apply elem_of_dom. by exists t.
      * intros p Hp'. apply sm_active0. by right.
      * by rewrite sm_once0, Hph.
Qed.

Lemma wake_sim s sp u :
  sim s sp -> phase sp = Sleeping u -> exists s', thread_wake u s = Ret (tt, s') /\ sim s' (snd (spec_step Wake sp)).
Proof.
  intros Hs Hph. pose proof Hs as []. unfold thread_wake. run_get. cbn [spec_step]. rewrite Hph, sm_sem0, sm_now0.
  destruct (0 <? posts sp).
  - eexists. split; [reflexivity|]. apply (goto_sim (set_sem (posts sp - 1) s)
      (MkSched (pending sp) (serving sp) (taken sp) (live sp) (leaving sp) (fresh sp) (posts sp - 1) (owed sp) (phase sp) (now sp)) Top);
      [by constructor|cbn; by rewrite Hph|done|done].
  - destruct (u <=? now sp); [|by exists s]. eexists. split; [reflexivity|]. apply goto_sim; [done|by rewrite Hph|done|done].
Qed.

Lemma call_sim s sp p :
  sim s sp -> phase sp = Calling p ->
  if bool_decide (p ∈ live sp ∪ leaving sp) then
    exists s' e, taken sp = Some e /\ thread_call p s = Ret ((e_cb e, e_ptr e, e_cookie e), s') /\ sim s' (goto InCallback sp)
  else thread_call p s = Undef Dangling.
Proof.
  intros Hs Hph. pose proof Hs as []. destruct (sm_calling0 p Hph) as (e & Ee & Ep & _ & Hcb). rewrite sm_live0. unfold thread_call.
  case_bool_decide as Hin.
  - apply elem_of_dom in Hin as [t Ht]. run_step (load_tmr _ s t Ht). run_modify. destruct (Hcb t Ht) as [-> ->]. rewrite <- Ep. eexists _, e. split_and!; [done|done|].
    apply goto_sim; [done|by rewrite Hph|done|done].
  - apply not_elem_of_dom in Hin. apply M_bind_Undef. unfold load. run_get. by rewrite Hin.
Qed.

Lemma return_sim s sp :
  sim s sp -> phase sp = InCallback -> exists s', thread_return s = Ret (tt, s') /\ sim s' (snd (spec_step Return sp)).
Proof.
  intros Hs Hph. pose proof Hs as []. unfold thread_return. run_get. cbn [spec_step]. rewrite Hph, sm_service0. cbv zeta. run_modify.
  assert (sim (set_service None s) (MkSched (pending sp) None (taken sp) (live sp) (leaving sp) (fresh sp) (posts sp) (owed sp) (phase sp) (now sp))) as Hs1.
  { by constructor. }
  set (s1 := set_service None s) in *. set (sp1 := MkSched _ _ _ _ _ _ _ _ _ _) in Hs1.
  assert (exists s2 l, (match e_ptr <$> serving sp with
      | Some p => t ← load p; if periodic t then _timer_insert p else mret tt | None => mret tt end) s1 = Ret (tt, s2) /\
    l = (match serving sp with
      | Some e => if e_periodic e then insert_due (rearmed (now sp) e) (pending sp) else pending sp | None => pending sp end) /\
    sim s2 (MkSched l None (taken sp) (live sp) (leaving sp) (fresh sp) (posts sp) (owed sp) (phase sp) (now sp))) as (s2 & l & E & <- & Hs2).
  { destruct (serving sp) as [e|]; [|by exists s1, (pending sp)]. cbn [fmap option_fmap option_map].
    destruct (sm_serving0 e eq_refl) as (Hn & Hlv & Hp & t & Ht & Hsh). run_step (load_tmr (e_ptr e) s1 t Ht).
    pose proof Hsh as (_ & _ & Hper & _). rewrite Hper. destruct (e_periodic e); [|by exists s1, (pending sp)].
    destruct (insert_sim s1 sp1 e t Hs1 Ht) as (s2 & E2 & Hs2); try done. by exists s2, (insert_due (rearmed (now sp) e) (pending sp)). }
  run_step E. eexists. split; [reflexivity|]. cbn [snd].
  apply (goto_sim s2 (MkSched l None (taken sp) (live sp) (leaving sp) (fresh sp) (posts sp) (owed sp) (phase sp) (now sp)) Top); try done. cbn. by rewrite Hph.
Qed.

Lemma tick_sim s sp d :
  sim s sp -> ok_action P L sp (Tick d) -> sim (set_now (abs_now s + d) s) (snd (spec_step (Tick d) sp)).
Proof.
  intros [] (Hd & Hb & Hl). constructor; try done; cbn [snd spec_step pending now set_now abs_now].
  - destruct (Z.eqb_spec (epoch_msecs s) 0) as [E0|E0]; [by rewrite sm_epoch0|]. revert sm_holds0. unfold epoch_of. cbn.
    by rewrite (proj2 (Z.eqb_neq _ _) E0).
  - rewrite Forall_forall in *. intros e He. specialize (sm_window0 e He). specialize (Hl e He). unfold in_window in *. lia.
  - by rewrite sm_now0.
  - unfold clock_ok in *. cbn. lia.
Qed.

Lemma step_sim s sp a :
  sim s sp -> ok_action P L sp a -> faults a sp = false ->
  exists s', sys_step a s = Ret (fst (spec_step a sp), s') /\ sim s' (snd (spec_step a sp)).
Proof.
  intros Hs Hok Hf. pose proof (sm_thread s sp Hs) as Hth. unfold sys_step. run_get. destruct a as [d|mem dup name cb ck period per| |h|h|h| | | |].
  - run_modify. eexists. split; [reflexivity|]. by apply tick_sim.
  - replace (fst _) with (Created (if mem then fresh sp else 0))
      by (cbn; assert (fresh (start sp) = fresh sp) as -> by (unfold start; by destruct (phase sp)); by destruct mem).
    eapply (in_step _ Created). by apply create_sim.
  - eapply (in_step _ (fun _ => Silent)). by apply post_sim.
  - destruct (destroy_sim s sp h Hs Hok) as (o & s' & E & Hs'). replace (fst _) with Silent by (cbn; by case_bool_decide).
    exists s'. split; [|done]. by run_step E.
  - eapply (in_step _ (fun _ => Silent)). by apply free_sim.
  - eapply (in_step _ Remains). by apply remain_sim.
  - rewrite Hth. destruct (phase sp) eqn:E; try (exists s; cbn; rewrite E; done).
    replace (fst _) with Silent by (cbn; rewrite E; by destruct (0 <? posts sp), (until <=? now sp)).
    eapply (in_step _ (fun _ => Silent)). by apply wake_sim.
  - rewrite Hth. destruct (phase sp) eqn:E; try (exists s; cbn; rewrite E; done).
    replace (fst _) with Silent by (cbn; rewrite E; destruct (pending sp) as [|e l]; [done|by destruct (now sp <? e_due e)]).
    eapply (in_step _ (fun _ => Silent)). by apply look_sim.
  - rewrite Hth. destruct (phase sp) eqn:E; try (exists s; cbn; rewrite E; done).
    pose proof (call_sim s sp p Hs E) as Hc. cbn [faults] in Hf. rewrite E in Hf. apply bool_decide_eq_false in Hf. apply dec_stable in Hf.
    rewrite bool_decide_eq_true_2 in Hc by done. destruct Hc as (s' & e & Ee & Ec & Hs'). exists s'. cbn. rewrite E, Ee. split; [|done]. by run_step Ec.
  - rewrite Hth. destruct (phase sp) eqn:E; try (exists s; cbn; rewrite E; done).
    replace (fst _) with Silent by (cbn; by rewrite E). eapply (in_step _ (fun _ => Silent)). by apply return_sim.
Qed.

(** The one step that cannot be done is the use of freed memory. *)
Lemma fault_sim s sp a : sim s sp -> faults a sp = true -> sys_step a s = Undef Dangling.
Proof.
  intros Hs Hf. destruct a; try done. cbn [faults] in Hf. destruct (phase sp) eqn:E; try done. apply bool_decide_eq_true in Hf.
  pose proof (call_sim s sp p Hs E) as Hc. rewrite bool_decide_eq_false_2 in Hc by done.
  unfold sys_step. run_get. rewrite (sm_thread s sp Hs), E. by apply M_bind_Undef.
Qed.

Lemma run_sim l : forall s sp,
  sim s sp -> ok_run P L sp l ->
  match spec_run l sp with
  | Ret (es, sp') => exists s', sys_run l s = Ret (es, s') /\ sim s' sp'
  | Undef u => sys_run l s = Undef u
  | NoFuel => False
  end.
Proof.
  induction l as [|a l IH]; intros s sp Hs Hok; [by exists s|]. destruct Hok as [Ha Hok]. cbn [sys_run spec_run].
  destruct (faults a sp) eqn:Ef.
  { rewrite (M_bind_Undef _ _ s Dangling); [done|]. by apply (fault_sim s sp). }
  destruct (step_sim s sp a Hs Ha Ef) as (s1 & E1 & H1). specialize (Hok eq_refl). run_step E1.
  destruct (spec_step a sp) as [e sp1]. cbn [fst snd] in *. specialize (IH s1 sp1 H1 Hok).
  destruct (spec_run l sp1) as [[es sp2]|u|]; cbn [mbind outcome_bind]; [|by apply M_bind_Undef|done].
  destruct IH as (s2 & E2 & H2). run_step E2. by exists s2.
Qed.

End Refinement.

(** ** What the schedule guarantees *)

Definition before (x y : entry) : Prop := e_due x <= e_due y.

Record sched_ok (sp : sched) : Prop := MkSchedOk {
  so_sorted : StronglySorted before (pending sp);
  so_period : Forall (fun e => 0 < e_period e) (pending sp) /\ (forall e, serving sp = Some e -> 0 < e_period e);
  so_posts : 0 <= posts sp /\ 0 <= owed sp;
  so_asleep : forall u, phase sp = Sleeping u -> posts sp = 0 -> owed sp = 0 -> Forall (fun e => u <= e_due e) (pending sp)
}.

Lemma insert_due_sorted e l : StronglySorted before l -> StronglySorted before (insert_due e l).
Proof.
  induction 1 as [|x l Hl IH Hx]; cbn [insert_due]; [repeat constructor|].
  destruct (Z.leb_spec (e_due e) (e_due x)).
  - repeat constructor; try done. eapply Forall_impl; [exact Hx|]. unfold before. lia.
  - constructor; [done|]. apply Forall_insert_due; [unfold before; lia|done].
Qed.

Lemma filter_sorted h l : StronglySorted before l -> StronglySorted before (filter (fun e => e_ptr e <> h) l).
Proof.
  induction 1 as [|x l Hl IH Hx]; [constructor|]. rewrite filter_cons. case_decide; [|done]. constructor; [done|].
  by apply Forall_filter_l.
Qed.

Lemma sched_ok_start sp : sched_ok sp -> sched_ok (start sp).
Proof. intros []. unfold start. destruct (phase sp) eqn:E; constructor; cbn; rewrite ?E; try done; lia. Qed.

Lemma sched_ok_step P L sp a : sched_ok sp -> ok_action P L sp a -> sched_ok (snd (spec_step a sp)).
Proof.
  intros Hs Ha. destruct a as [d|mem dup name cb ck period per| |h|h|h| | | |]; cbn [spec_step ok_action] in *.
  - destruct Hs. by constructor.
  - apply sched_ok_start in Hs. destruct mem; [|done]. destruct Hs, so_period0. constructor; cbn [snd pending serving posts owed phase].
    + by apply insert_due_sorted.
    + split; [|done]. apply Forall_insert_due; [cbn; lia|done].
    + lia.
    + lia.
  - destruct Hs. constructor; cbn [snd pending serving posts owed phase]; try done; lia.
  - case_bool_decide; [done|]. destruct Hs, so_period0. constructor; cbn [snd pending serving posts owed phase]; [by apply filter_sorted| |done|].
    + split; [by apply Forall_filter_l|]. case_bool_decide; done.
    + intros u Hu Hp Ho. by apply Forall_filter_l, so_asleep0.
  - destruct Hs. by constructor.
  - done.
  - destruct (phase sp) eqn:E; try done. destruct (Z.ltb_spec 0 (posts sp)); [|destruct (until <=? now sp)]; destruct Hs; constructor; cbn; try done; lia.
  - destruct (phase sp) eqn:E; try done. destruct (pending sp) as [|e l] eqn:Ep.
    + destruct Hs. rewrite Ep in *. constructor; cbn; rewrite ?Ep; try done.
    + destruct Hs, so_period0 as [Hp1 Hp2]. rewrite Ep in *. destruct (Z.ltb_spec (now sp) (e_due e)); constructor; cbn; rewrite ?Ep; try done.
      * intros u [= <-] _ _. inversion so_sorted0; subst. constructor; [lia|done].
      * by inversion so_sorted0.
      * split; [by inversion Hp1|]. intros e' [= <-]. by inversion Hp1.
  - destruct (phase sp) eqn:E; try done. destruct (taken sp) eqn:Es; [|done]. destruct Hs. constructor; cbn; rewrite ?Es in *; done.
  - destruct (phase sp) eqn:E; try done. destruct Hs, so_period0 as [Hp1 Hp2]. constructor; cbn; try done.
    + destruct (serving sp) as [e|]; [|done]. destruct (e_periodic e); [|done]. by apply insert_due_sorted.
    + split; [|done]. destruct (serving sp) as [e|]; [|done]. destruct (e_periodic e); [|done].
      apply Forall_insert_due; [cbn; by apply Hp2|done].
Qed.

Lemma sched_ok_run P L l : forall sp es sp', sched_ok sp -> ok_run P L sp l -> spec_run l sp = Ret (es, sp') -> sched_ok sp'.
Proof.
  induction l as [|a l IH]; intros sp es sp' Hs Hr; cbn [spec_run]; [by intros [= _ <-]|]. destruct Hr as [Ha Hr].
  destruct (faults a sp); [done|]. specialize (Hr eq_refl).
  apply (sched_ok_step P L sp a Hs) in Ha. destruct (spec_step a sp) as [e sp1]. cbn [snd] in *.
  destruct (spec_run l sp1) as [[es1 sp2]| |] eqn:E; [|done..]. intros [= _ <-]. by apply (IH sp1 es1 sp2).
Qed.

(** The creations of a run whose wake-up is still to come. *)
Fixpoint unposted (l : list action) : Z :=
  match l with
  | [] => 0
  | Create true _ _ _ _ _ _ :: l => unposted l + 1
  | Post :: l => unposted l - 1
  | _ :: l => unposted l
  end.

Lemma unposted_owed l : forall sp es sp', spec_run l sp = Ret (es, sp') -> owed sp' = owed sp + unposted l.
Proof.
  induction l as [|a l IH]; intros sp es sp'; cbn [spec_run unposted]; [intros [= _ <-]; lia|].
  destruct (faults a sp); [done|]. destruct (spec_step a sp) as [e sp1] eqn:Es.
  destruct (spec_run l sp1) as [[es1 sp2]| |] eqn:E; [|done..]. intros [= _ <-]. apply IH in E. rewrite E. clear E.
  assert (owed (start sp) = owed sp) as H0 by (unfold start; by destruct (phase sp)).
  destruct a as [d|[] dup name cb ck period per| |h|h|h| | | |]; cbn [spec_step] in Es; repeat case_match; simplify_eq/=; try lia.
Qed.

Lemma sched0_ok t : sched_ok (sched0 t).
Proof. constructor; cbn; try done. constructor. Qed.

Lemma sys_run_cons a l s e s1 es s2 :
  sys_step a s = Ret (e, s1) -> sys_run l s1 = Ret (es, s2) -> sys_run (a :: l) s = Ret (e :: es, s2).
Proof. intros E1 E2. cbn [sys_run]. run_step E1. by run_step E2. Qed.

(** A timer just created. *)
Lemma create_long_run t cb ck period per :
  0 < t < 2 ^ 64 -> 2 ^ 31 <= period < 2 ^ 32 ->
  exists s1, create_insert true true None cb ck period per (timers0 t) = Ret (1, s1) /\ thread s1 = Top /\
    pTMR_ActiveList s1 = Some 1 /\ exists x, heap s1 !! 1 = Some x /\ expire_time x = period /\ callback x = cb /\
    cookie x = ck /\ abs_now s1 = t /\ epoch_msecs s1 = t /\ epoch_of s1 = t.
Proof.
  intros Ht Hp. unfold create_insert.
  set (s0 := MkTimers ∅ 1 None None true 1 Top t 0).
  assert (timer_once_routine (timers0 t) = Ret (tt, s0)) as E by done. run_step E. cbn [negb]. run_get. rewrite (proj2 (Z.eqb_neq period 0)) by lia. run_modify. set (x := MkTmr _ _ _ _ _ _ _ _).
  set (s2 := MkTimers _ _ _ _ _ _ _ _ _).
  destruct (timer_insert_run s2 1 x (MkEntry 1 0 period per cb ck) []) as (h' & a' & Ei & Hc & (y & Hy & Hsh & Hex) & _); try done;
    [apply NoDup_singleton|]. change (next_ptr s0) with 1. run_step Ei.
  eexists. split; [reflexivity|]. destruct Hc as [Ha _]. destruct Hsh as (_ & _ & _ & Hcb & Hck).
  split_and!; [done|exact Ha|]. exists y. split_and!; try done.
  - rewrite Hex. cbn. unfold epoch_of. cbn. replace (t + period - t) with period by lia. unfold u32. apply Z.mod_small. lia.
  - unfold epoch_of. cbn. by rewrite (proj2 (Z.eqb_neq t 0)) by lia.
Qed.

(** A timer at the head whose time left is not positive is taken. *)
Lemma look_negative s p x :
  pTMR_ActiveList s = Some p -> heap s !! p = Some x ->
  int32 (u32 (expire_time x - u32 (abs_now s - epoch_of s))) <= 0 ->
  exists s', thread_look s = Ret (tt, s') /\ thread s' = Calling p /\ heap s' !! p = Some (set_next None x).
Proof.
  intros Ha Hx Hl. unfold thread_look. run_get. rewrite Ha.
  assert ((t ← load p; tnow ← TIMER_getNow; mret (int32 (u32 (expire_time t - tnow)))) s =
    Ret (int32 (u32 (expire_time x - u32 (abs_now s - epoch_of s))), set_epoch (epoch_of s) s)) as E.
  { run_step (load_tmr p s x Hx). by run_step (getNow_run s). }
  run_step E. rewrite (proj2 (Z.ltb_ge 0 _)) by done. set (s1 := set_epoch _ s).
  assert (lift (deref (Some p)) s1 = Ret (p, s1)) as E1 by done. run_step E1. run_step (load_tmr p s1 x Hx).
  cbn [write_slot]. run_modify. unfold store. run_modify. run_modify. eexists. split; [reflexivity|]. split; [done|]. apply lookup_insert_eq.
Qed.

(** ** Claims *)

Section Claims.
Variables (P L : Z).
Hypothesis HPL : 0 <= L /\ 1 <= P /\ P + L < 2 ^ 31.

(** C18: the timers keep a schedule.  For every order of the steps of the clients,
    the clock and the timer thread, where a step is what is done with the list
    locked and what is done behind that, the code does what an ideal schedule with
    unbounded time does: the same timers are called in the same order with their
    cookies, the time left is the true one however often the 32-bit clock wrapped
    around, a destroyed timer is not called again, also if its own callback destroys
    it, and the linked list never faults.  The only exception is the one the
    schedule names: a timer that is destroyed and freed after the thread took it
    from the list and before it calls it is used after it was freed.  Periods and
    delays together stay below 2^31 milliseconds, and clients destroy a timer once. *)
Theorem timer_refines_schedule (t : Z) (l : list action) :
  0 < t < 2 ^ 64 -> ok_run P L (sched0 t) l ->
  match spec_run l (sched0 t) with
  | Ret (es, _) => exists s', sys_run l (timers0 t) = Ret (es, s')
  | Undef u => sys_run l (timers0 t) = Undef u
  | NoFuel => False
  end.
Proof.
  intros Ht Hok. pose proof (run_sim P L HPL l (timers0 t) (sched0 t) (sim0 P L HPL t Ht) Hok) as H.
  destruct (spec_run l (sched0 t)) as [[es sp]| |]; [|done..]. destruct H as (s' & E & _). by exists s'.
Qed.

(** The time left of a pending timer. *)
Lemma remain_due s sp e : sim P L s sp -> e ∈ pending sp -> exists s2, TIMER_CB_getRemain (e_ptr e) s = Ret (e_due e - abs_now s, s2).
Proof.
  intros Hs He. pose proof Hs as []. destruct (remain_sim P L HPL s sp (e_ptr e) Hs) as (s2 & E2 & _); [by apply list_elem_of_fmap_2|].
  exists s2. rewrite E2. destruct (head (filter (fun x => e_ptr x = e_ptr e) (pending sp))) as [x|] eqn:Ex.
  - apply head_Some_elem_of, list_elem_of_filter in Ex as [Ex Hx].
    apply list_elem_of_lookup in Hx as [i Hi], He as [j Hj].
    assert (i = j) as <-; [|rewrite Hi in Hj; injection Hj as ->; cbn; by rewrite sm_now0].
    eapply (NoDup_lookup (ptrs (pending sp))); [done|rewrite list_lookup_fmap, Hi; done|rewrite list_lookup_fmap, Hj; cbn; by rewrite Ex].
  - apply head_None in Ex. by apply (filter_nil_not_elem_of _ _ e) in Ex.
Qed.

(** A thread that is asleep or at the top of its loop gets on to the first timer,
    if that is due, and calls it. *)
Lemma round_sim s sp e k :
  sim P L s sp -> sched_ok sp -> pending sp = e :: k -> e_due e <= now sp -> owed sp = 0 ->
  (exists u, phase sp = Sleeping u) \/ phase sp = Top ->
  exists s', sys_run [Wake; Look; Call] s = Ret ([Silent; Silent; Called (e_cb e) (e_ptr e) (e_cookie e)], s').
Proof.
  intros Hs Hso Hp Hd Ho Hph.
  assert (exists n, spec_step Wake sp = (Silent, MkSched (pending sp) (serving sp) (taken sp) (live sp) (leaving sp) (fresh sp) n (owed sp) Top (now sp)) /\ n <= posts sp) as (n & Ew & _).
  { cbn [spec_step]. destruct Hph as [[u Hu]|Hph].
    - rewrite Hu. destruct (Z.ltb_spec 0 (posts sp)); [exists (posts sp - 1); split; [done|lia]|]. exists (posts sp). split; [|done].
      destruct Hso. assert (posts sp = 0) as Hz by lia. pose proof (so_asleep0 u Hu Hz Ho) as Ha. rewrite Hp in Ha. apply Forall_cons in Ha as [Ha _].
      rewrite (proj2 (Z.leb_le u (now sp))) by lia. done.
    - rewrite Hph. exists (posts sp). split; [|done]. destruct sp. cbn in *. by subst. }
  destruct (step_sim P L HPL s sp Wake Hs I eq_refl) as (s1 & E1 & H1). rewrite Ew in E1, H1. cbn [fst snd] in *. set (sp1 := MkSched _ _ _ _ _ _ _ _ _ _) in H1.
  assert (spec_step Look sp1 = (Silent, MkSched k (Some e) (Some e) (live sp) (leaving sp) (fresh sp) n (owed sp) (Calling (e_ptr e)) (now sp))) as El.
  { cbn [spec_step sp1 phase pending]. rewrite Hp. cbn [now sp1]. rewrite (proj2 (Z.ltb_ge (now sp) (e_due e))) by lia. done. }
  destruct (step_sim P L HPL s1 sp1 Look H1 I eq_refl) as (s2 & E2 & H2). rewrite El in E2, H2. cbn [fst snd] in *. set (sp2 := MkSched _ _ _ _ _ _ _ _ _ _) in H2.
  destruct (step_sim P L HPL s2 sp2 Call H2 I) as (s3 & E3 & H3).
  { cbn [faults sp2 phase live leaving]. apply bool_decide_eq_false_2. intros Hn. apply Hn, elem_of_union_l.
    apply (sm_active _ _ _ _ Hs). rewrite Hp. by left. }
  exists s3. eapply sys_run_cons; [exact E1|]. eapply sys_run_cons; [exact E2|]. by eapply sys_run_cons; [exact E3|].
Qed.

(** C30: the thread loses no wake-up and calls the earliest timer in time.  In every
    state that is reached, unless the fault of C18 occurs, and once every creation has posted its wake-up: when the
    thread sleeps without a wake-up pending, no active timer expires before the end
    of its sleep, so a timer created meanwhile is not missed; and when the thread
    sleeps or is at the top of its loop and an active timer has expired, its next
    round (it wakes, looks at the list, calls) calls an active timer, and one before which no active timer
    expired. *)
Theorem timer_thread_punctual (t : Z) (l : list action) (es : list event) (s : timers) :
  0 < t < 2 ^ 64 -> ok_run P L (sched0 t) l -> sys_run l (timers0 t) = Ret (es, s) -> unposted l = 0 ->
  exists ps, chain (heap s) (pTMR_ActiveList s) ps /\
    (forall u p, thread s = Sleeping u -> sem_count s = 0 -> p ∈ ps ->
      exists r s2, TIMER_CB_getRemain p s = Ret (r, s2) /\ u <= abs_now s + r) /\
    (forall p r s2, (exists u, thread s = Sleeping u) \/ thread s = Top -> p ∈ ps -> TIMER_CB_getRemain p s = Ret (r, s2) -> r <= 0 ->
      exists cb q ck s', sys_run [Wake; Look; Call] s = Ret ([Silent; Silent; Called cb q ck], s') /\ q ∈ ps /\
        exists rq s3, TIMER_CB_getRemain q s = Ret (rq, s3) /\
        forall p', p' ∈ ps -> exists r' s4, TIMER_CB_getRemain p' s = Ret (r', s4) /\ rq <= r').
Proof.
  intros Ht Hok Er Hun. pose proof (run_sim P L HPL l (timers0 t) (sched0 t) (sim0 P L HPL t Ht) Hok) as H.
  destruct (spec_run l (sched0 t)) as [[es' sp]| |] eqn:Esp; [|congruence|done]. destruct H as (s' & E & Hs). rewrite Er in E. injection E as <- <-.
  pose proof (sched_ok_run P L l (sched0 t) es sp (sched0_ok t) Hok Esp) as Hso. pose proof (unposted_owed l _ _ _ Esp) as Ho. cbn in Ho.
  assert (owed sp = 0) as Ho0 by lia. pose proof (sm_now _ _ _ _ Hs) as Hn. pose proof (sm_thread _ _ _ _ Hs) as Hth.
  exists (ptrs (pending sp)). split; [apply Hs|]. split.
  - intros u p Hu Hp Hin. apply list_elem_of_fmap in Hin as (e & -> & He). destruct (remain_due s sp e Hs He) as (s2 & E2).
    exists (e_due e - abs_now s), s2. split; [done|]. rewrite Hth in Hu. rewrite (sm_sem _ _ _ _ Hs) in Hp.
    pose proof (so_asleep _ Hso u Hu Hp Ho0) as Ha. rewrite Forall_forall in Ha. specialize (Ha e He). lia.
  - intros p r s2 Hph Hin Hrem Hr. apply list_elem_of_fmap in Hin as (x & -> & Hx). destruct (remain_due s sp x Hs Hx) as (s2' & E2). rewrite Hrem in E2. injection E2 as -> _.
    destruct (pending sp) as [|e k] eqn:Ep; [by apply not_elem_of_nil in Hx|].
    assert (forall y, y ∈ e :: k -> e_due e <= e_due y) as Hmin.
    { intros y Hy. pose proof (so_sorted _ Hso) as Hsrt. rewrite Ep in Hsrt. apply elem_of_cons in Hy as [->|Hy]; [lia|]. inversion Hsrt as [|? ? ? Hb]; subst.
      rewrite Forall_forall in Hb. exact (Hb y Hy). }
    destruct (round_sim s sp e k Hs Hso Ep) as (s' & E'); [specialize (Hmin x Hx); lia|done|by rewrite <- Hth|].
    exists (e_cb e), (e_ptr e), (e_cookie e), s'. split; [done|]. split; [by left|].
    destruct (remain_due s sp e Hs) as (s3 & E3); [rewrite Ep; by left|]. exists (e_due e - abs_now s), s3. split; [done|].
    intros p' Hp'. apply (list_elem_of_fmap e_ptr (e :: k)) in Hp' as (y & -> & Hy). destruct (remain_due s sp y Hs) as (s4 & E4); [by rewrite Ep|].
    exists (e_due y - abs_now s), s4. split; [done|]. specialize (Hmin y Hy). lia.
Qed.

End Claims.

(** a period of 2^31 milliseconds or more is not waited for.  The time left is
    computed as a signed difference of 32 bits, which is negative for such a timer,
    so it is called as soon as the thread looks at the list. *)
Theorem timer_long_period_fires_now (t cb ck period : Z) (per : bool) :
  0 < t < 2 ^ 64 -> 2 ^ 31 <= period < 2 ^ 32 ->
  exists s', sys_run [Create true true None cb ck period per; Look; Call] (timers0 t) =
    Ret ([Created 1; Silent; Called cb 1 ck], s').
Proof.
  intros Ht Hp. destruct (create_long_run t cb ck period per Ht Hp) as (s1 & E1 & Hth & Ha & x & Hx & Hex & Hcb & Hck & Hn & He & Hep).
  assert (sys_step (Create true true None cb ck period per) (timers0 t) = Ret (Created 1, s1)) as F1.
  { unfold sys_step. run_get. by run_step E1. }
  destruct (look_negative s1 1 x Ha Hx) as (s2 & E2 & Ht2 & Hx2).
  { rewrite Hn, Hep, Z.sub_diag. change (u32 0) with 0. rewrite Hex, Z.sub_0_r, int32_mod. unfold int32.
    replace (period + 2 ^ 31) with (period - 2 ^ 31 + 1 * 2 ^ 32) by lia. rewrite Z.mod_add, Z.mod_small by lia. lia. }
  assert (sys_step Look s1 = Ret (Silent, s2)) as F2.
  { unfold sys_step. run_get. rewrite Hth. by run_step E2. }
  assert (sys_step Call s2 = Ret (Called cb 1 ck, set_thread InCallback s2)) as F3.
  { unfold sys_step. run_get. rewrite Ht2. unfold thread_call. unfold mbind at 1, M_bind at 1. run_step (load_tmr 1 s2 _ Hx2).
    by cbn; rewrite Hcb, Hck. }
  eexists. eapply sys_run_cons; [exact F1|]. eapply sys_run_cons; [exact F2|]. by eapply sys_run_cons; [exact F3|].
Qed.

(** time-outs.  For a time-out of [v] milliseconds (less than 2^31) taken at
    any time, the test says that it has expired exactly if more than [v]
    milliseconds have passed, across wrap-arounds of the clock; but 2^31
    milliseconds (24 days) after its end it says for as long again that it has not
    expired.  A negative time-out never expires, one of zero always has. *)
Theorem timeout_is_expired (s : timers) (v d : Z) :
  clock_ok s -> 0 < v < 2 ^ 31 -> 0 <= d < 2 ^ 32 + v ->
  exists s', (tok ← TIMER_timeoutStart; modify (fun s => set_now (abs_now s + d) s);; TIMER_timeoutIsExpired tok v) s =
    Ret ((v <? d) && (d <=? v + 2 ^ 31), s') /\
  (forall tok w, w < 0 -> TIMER_timeoutIsExpired tok w s = Ret (false, s)) /\
  (forall tok, TIMER_timeoutIsExpired tok 0 s = Ret (true, s)).
Proof.
  intros [Hk1 Hk2] Hv Hd. unfold TIMER_timeoutStart. run_step (getNow_run s). run_modify.
  unfold TIMER_timeoutIsExpired at 1. rewrite (proj2 (Z.ltb_ge v 0)), (proj2 (Z.eqb_neq v 0)) by lia. cbv zeta.
  set (s1 := set_now _ _). run_step (getNow_run s1).
  assert (epoch_of s1 = epoch_of s) as ->.
  { assert (epoch_of s <> 0) as H0 by (unfold epoch_of; destruct (Z.eqb_spec (epoch_msecs s) 0); lia).
    unfold epoch_of at 1. cbn [s1 set_now set_epoch epoch_msecs]. by rewrite (proj2 (Z.eqb_neq _ _) H0). }
  set (e := epoch_of s). cbn [s1 set_now set_epoch abs_now].
  assert (int32 (u32 (u32 (u32 (abs_now s - e) + v) - u32 (abs_now s + d - e))) = int32 (v - d)) as ->.
  { rewrite int32_mod. unfold u32, int32. rewrite Z.add_mod_idemp_l by lia. f_equal.
    rewrite <- (Z.add_mod_idemp_l (_ - _)) by lia. rewrite <- Zminus_mod. rewrite Z.add_mod_idemp_l by lia. f_equal. lia. }
  exists (set_epoch e s1). split_and!.
  - assert ((int32 (v - d) <? 0) = (v <? d) && (d <=? v + 2 ^ 31)) as ->; [|by destruct (_ && _)].
    unfold int32. destruct (Z.ltb_spec v d), (Z.leb_spec d (v + 2 ^ 31)); cbn [andb].
    + rewrite Z.mod_small by lia. apply Z.ltb_lt. lia.
    + replace (v - d + 2 ^ 31) with (v - d + 2 ^ 31 + 2 ^ 32 + (-1) * 2 ^ 32) by lia. rewrite Z.mod_add, Z.mod_small by lia.
      apply Z.ltb_ge. lia.
    + rewrite Z.mod_small by lia. apply Z.ltb_ge. lia.
    + rewrite Z.mod_small by lia. apply Z.ltb_ge. lia.
  - intros tok w Hw. unfold TIMER_timeoutIsExpired. by rewrite (proj2 (Z.ltb_lt w 0)) by lia.
  - done.
Qed.

(** ** The claims at work *)

(** A periodic timer that destroys itself in its second call, and a later one. *)
Definition demo : list action :=
  [Create true true None 7 42 10 true; Look; Post; Create true true None 8 43 25 false; Post; Wake; Look; Tick 12; Wake; Look; Call; Return;
   Look; Tick 11; Remain 2; Wake; Wake; Look; Call; Destroy 1; Free 1; Return; Look; Tick 10; Wake; Wake; Look; Call; Return; Look].

Lemma timer_refines_schedule_witness :
  exists s', sys_run demo (timers0 (2 ^ 32 - 8)) =
    Ret ([Created 1; Silent; Silent; Created 2; Silent; Silent; Silent; Silent; Silent; Silent; Called 7 1 42; Silent;
          Silent; Silent; Remains 2; Silent; Silent; Silent; Called 7 1 42; Silent; Silent; Silent; Silent; Silent; Silent; Silent; Silent;
          Called 8 2 43; Silent; Silent], s').
Proof.
  pose proof (timer_refines_schedule 1000 5000 ltac:(lia) (2 ^ 32 - 8) demo ltac:(lia)
    ltac:(apply (bool_decide_unpack _); vm_compute; exact I)) as E.
  vm_compute in E |- *. exact E.
Defined.

Definition asleep : list action := [Create true true None 7 42 10 true; Post; Look; Wake; Look; Wake; Look; Tick 10].
Definition asleep_state : timers := match sys_run asleep (timers0 100) with Ret (_, s) => s | _ => timers0 100 end.

Lemma timer_thread_punctual_witness :
  thread asleep_state = Sleeping 110 /\ exists ps, chain (heap asleep_state) (pTMR_ActiveList asleep_state) ps /\
    (forall p r s2, (exists u, thread asleep_state = Sleeping u) \/ thread asleep_state = Top -> p ∈ ps -> TIMER_CB_getRemain p asleep_state = Ret (r, s2) -> r <= 0 ->
      exists cb q ck s', sys_run [Wake; Look; Call] asleep_state = Ret ([Silent; Silent; Called cb q ck], s') /\ q ∈ ps /\
        exists rq s3, TIMER_CB_getRemain q asleep_state = Ret (rq, s3) /\
        forall p', p' ∈ ps -> exists r' s4, TIMER_CB_getRemain p' asleep_state = Ret (r', s4) /\ rq <= r').
Proof.
  split; [vm_compute; reflexivity|].
  destruct (timer_thread_punctual 1000 5000 ltac:(lia) 100 asleep (match sys_run asleep (timers0 100) with Ret (es, _) => es | _ => [] end) asleep_state)
    as (ps & Hc & _ & Hl).
  - lia.
  - apply (bool_decide_unpack _). vm_compute. exact I.
  - vm_compute. reflexivity.
  - reflexivity.
  - exists ps. exact (conj Hc Hl).
Defined.

(** A timer that is destroyed between its selection and its call is used after it was
    freed; destroyed in its callback it is not. *)
Example timer_destroy_race :
  sys_run [Create true true None 7 42 10 false; Post; Tick 10; Look; Destroy 1; Free 1; Call] (timers0 100) = Undef Dangling /\
  exists es s, sys_run [Create true true None 7 42 10 true; Post; Tick 10; Look; Call; Destroy 1; Free 1; Return; Look] (timers0 100) = Ret (es, s) /\ heap s = ∅.
Proof. split; [vm_compute; reflexivity|]. eexists _, _. split; vm_compute; reflexivity. Qed.

Lemma timer_long_period_fires_now_witness :
  exists s', sys_run [Create true true None 7 42 3000000000 true; Look; Call] (timers0 100) =
    Ret ([Created 1; Silent; Called 7 1 42], s').
Proof. apply (timer_long_period_fires_now 100 7 42 3000000000 true); lia. Defined.

Lemma timeout_is_expired_witness :
  exists s', (tok ← TIMER_timeoutStart; modify (fun s => set_now (abs_now s + 51) s);; TIMER_timeoutIsExpired tok 50)
      (MkTimers ∅ 1 None None false 0 NotStarted (2 ^ 32 + 3) 7) = Ret (true, s').
Proof.
  destruct (timeout_is_expired (MkTimers ∅ 1 None None false 0 NotStarted (2 ^ 32 + 3) 7) 50 51) as (s' & E & _).
  - split; cbn; lia.
  - lia.
  - lia.
  - exists s'. exact E.
Defined.

End Timer.
