(* ===== verification/Threads.v ===== *)
(** * Threads (threads.c and the thread part of linux_specific.c)

    Two lists of threads are kept: those of the operating system layer
    ([all_p_threads], found by their pthread identifier) and those of the portable
    layer ([all_threads], found by the handle of the layer below).  Records are
    linked in when a thread is created and unlinked when they are freed, so the
    lists are also the memory: a record that is in no list has been freed. *)

From Stdlib Require Import ZArith Lia.
From stdpp Require Import base option numbers list gmap.
From S2P Require Import Prelude.

Open Scope Z_scope.

Module Threads.

Record p_thread : Type := MkPThread {
  p_ptr : Z;
  p_t : Z;              (* pthread_t, not zero *)
  p_cookie : Z;
  p_alive : bool
}.

Record thread : Type := MkThread {
  th_ptr : Z;
  th_os_id : Z;
  th_func : Z;
  th_cookie : Z;
  th_startflags : Z;
  th_exit_value : Z;
  th_is_alive : bool;
  th_is_dead : bool;
  th_killed : bool
}.

Record threads : Type := MkThreads {
  all_p_threads : list p_thread;
  all_threads : list thread;
  next_ptr : Z
}.

Definition set_p (l : list p_thread) (s : threads) : threads := MkThreads l (all_threads s) (next_ptr s).
Definition set_t (l : list thread) (s : threads) : threads := MkThreads (all_p_threads s) l (next_ptr s).

Definition set_os_id (x : Z) (t : thread) : thread :=
  MkThread (th_ptr t) x (th_func t) (th_cookie t) (th_startflags t) (th_exit_value t) (th_is_alive t) (th_is_dead t) (th_killed t).
Definition set_alive (b : bool) (t : thread) : thread :=
  MkThread (th_ptr t) (th_os_id t) (th_func t) (th_cookie t) (th_startflags t) (th_exit_value t) b (th_is_dead t) (th_killed t).
Definition set_exit (v : Z) (t : thread) : thread :=
  MkThread (th_ptr t) (th_os_id t) (th_func t) (th_cookie t) (th_startflags t) v false (th_is_dead t) (th_killed t).

Definition alloc : M threads Z :=
  s ← get; modify (fun s => MkThreads (all_p_threads s) (all_threads s) (next_ptr s + 1));; mret (next_ptr s).

(** ** linux_specific.c *)

(** [mem] and [r] are the results of calloc and pthread_create, [t] is the
    identifier the new thread gets. *)
Definition _THREAD_create (mem : bool) (r t cookie : Z) : M threads Z :=
  if negb mem then undefined Fatal
  else
    pT ← alloc;
    if negb (r =? 0) then undefined Fatal
    else modify (fun s => set_p (MkPThread pT t cookie false :: all_p_threads s) s);; mret pT.

Definition _THREAD_self (t : Z) : M threads Z :=
  s ← get; mret (from_option p_ptr 0 (list_find (fun p => p_t p = t) (all_p_threads s) ≫= (fun x => Some (snd x)))).

(** What is before and behind the record of a pointer; a list without it is all
    before. *)
Fixpoint split_p (h : Z) (l : list p_thread) : list p_thread * list p_thread :=
  match l with
  | [] => ([], [])
  | p :: l => if p_ptr p =? h then ([], l) else let '(a, b) := split_p h l in (p :: a, b)
  end.

(** The handle must be that of a record in the list: the code reads its link. *)
Definition _THREAD_destroy (h : Z) : M threads unit :=
  s ← get;
  if h =? 0 then undefined NullPointer
  else if bool_decide (h ∈ p_ptr <$> all_p_threads s) then
    let '(a, b) := split_p h (all_p_threads s) in modify (set_p (a ++ b))
  else undefined Dangling.

(** ** threads.c *)

Definition find_thread (h : Z) (l : list thread) : option thread :=
  list_find (fun t => th_ptr t = h) l ≫= (fun x => Some (snd x)).

Definition h2p (h : Z) : M threads (option thread) :=
  if h =? 0 then mret None
  else s ← get; match find_thread h (all_threads s) with Some t => mret (Some t) | None => undefined Dangling end.

Definition update (h : Z) (f : thread -> thread) : M threads unit :=
  modify (fun s => set_t (map (fun t => if th_ptr t =? h then f t else t) (all_threads s)) s).

(** The record is linked in before the thread is created, and told the handle of
    the thread afterwards. *)
Definition create_link (func cookie flags : Z) : M threads Z :=
  pT ← alloc;
  modify (fun s => set_t (MkThread pT 0 func cookie flags 0 false false false :: all_threads s) s);;
  mret pT.

Fixpoint remove_thread (h : Z) (l : list thread) : list thread :=
  match l with
  | [] => []
  | t :: l => if th_ptr t =? h then l else t :: remove_thread h l
  end.

Definition THREAD_destroy (h : Z) : M threads unit :=
  o ← h2p h;
  match o with
  | None => mret tt
  | Some pT =>
      (if th_is_alive pT then _THREAD_destroy (th_os_id pT) else mret tt);;
      modify (fun s => set_t (remove_thread h (all_threads s)) s)
  end.

Definition THREAD_create (mem mem2 : bool) (r t func cookie flags : Z) : M threads Z :=
  if negb mem then mret 0
  else
    pT ← create_link func cookie flags;
    os ← _THREAD_create mem2 r t pT;
    update pT (set_os_id os);;
    if os =? 0 then THREAD_destroy pT;; mret 0 else mret pT.

(** The thread function begins, and returns [r]. *)
Definition thread_wrapper_begin (pT : Z) : M threads unit := update pT (set_alive true).
Definition thread_wrapper_end (pT r : Z) : M threads unit := update pT (set_exit r).

Definition _thread_self (t : Z) : M threads (option thread) :=
  whoami ← _THREAD_self t;
  s ← get;
  mret (list_find (fun x => th_os_id x = whoami) (all_threads s) ≫= (fun x => Some (snd x))).

Definition THREAD_self (t : Z) : M threads Z := o ← _thread_self t; mret (from_option th_ptr 0 o).

Definition THREAD_getExitValue (h : Z) : M threads Z :=
  o ← h2p h; mret (from_option th_exit_value (-1) o).

Definition THREAD_exit (t value : Z) : M threads unit :=
  o ← _thread_self t;
  pT ← lift (deref o);
  update (th_ptr pT) (set_exit value).

Definition THREAD_isAlive (h : Z) : M threads bool :=
  o ← h2p h; mret (from_option th_is_alive false o).

(** ** Who am I? *)

(** Pointers are in use and distinct; every thread knows its handle below. *)
Record wf (s : threads) : Prop := MkWf {
  wf_next : 0 < next_ptr s;
  wf_p : Forall (fun p => 0 < p_ptr p < next_ptr s) (all_p_threads s);
  wf_t : Forall (fun t => 0 < th_ptr t < next_ptr s /\ 0 < th_os_id t < next_ptr s) (all_threads s);
  wf_pdup : NoDup (p_ptr <$> all_p_threads s);
  wf_tdup : NoDup (th_ptr <$> all_threads s)
}.

Definition threads0 : threads := MkThreads [] [] 1.

Lemma wf0 : wf threads0.
Proof. constructor; cbn; try constructor; done. Qed.

(** The record for a pthread identifier, and the answer of [THREAD_self]. *)
Definition os_of (t : Z) (s : threads) : Z :=
  from_option p_ptr 0 (list_find (fun p => p_t p = t) (all_p_threads s) ≫= (fun x => Some (snd x))).
Definition self_of (t : Z) (s : threads) : Z :=
  from_option th_ptr 0 (list_find (fun x => th_os_id x = os_of t s) (all_threads s) ≫= (fun x => Some (snd x))).

Lemma THREAD_self_run t s : THREAD_self t s = Ret (self_of t s, s).
Proof. reflexivity. Qed.

Lemma find_cons {A} (Q : A -> Prop) `{forall x, Decision (Q x)} x l :
  (list_find Q (x :: l) ≫= (fun y => Some (snd y))) = if decide (Q x) then Some x else list_find Q l ≫= (fun y => Some (snd y)).
Proof. cbn. destruct (decide (Q x)); [done|]. by destruct (list_find Q l) as [[]|]. Qed.

Lemma find_in {A} (Q : A -> Prop) `{forall x, Decision (Q x)} l x :
  (list_find Q l ≫= (fun y => Some (snd y))) = Some x -> x ∈ l /\ Q x.
Proof.
  destruct (list_find Q l) as [[i y]|] eqn:E; [|done]. intros [= <-]. apply list_find_Some in E as (E & HQ & _).
  split; [|done]. by eapply list_elem_of_lookup_2.
Qed.

Lemma find_none {A} (Q : A -> Prop) `{forall x, Decision (Q x)} l :
  Forall (fun x => ~ Q x) l -> (list_find Q l ≫= (fun y => Some (snd y))) = None.
Proof. intros Hl. destruct (list_find Q l) as [[i y]|] eqn:E; [|done]. apply list_find_Some in E as (E & HQ & _).
  eapply Forall_lookup_1 in Hl; [|exact E]. done.
Qed.

Lemma os_of_bound t s : wf s -> 0 <= os_of t s < next_ptr s.
Proof.
  intros []. unfold os_of. destruct (list_find _ _ ≫= _) as [p|] eqn:E; cbn [from_option]; [|lia].
  apply find_in in E as [E _]. rewrite Forall_forall in wf_p0. specialize (wf_p0 p E). lia.
Qed.

Lemma map_fresh h (f : thread -> thread) l :
  Forall (fun t => th_ptr t < h) l -> map (fun t => if th_ptr t =? h then f t else t) l = l.
Proof. induction 1 as [|t l Ht _ IH]; [done|]. cbn. by rewrite (proj2 (Z.eqb_neq _ _)), IH by lia. Qed.

(** The state while a thread is being created, and after. *)
Definition linking (func cookie flags : Z) (s : threads) : threads :=
  MkThreads (all_p_threads s) (MkThread (next_ptr s) 0 func cookie flags 0 false false false :: all_threads s) (next_ptr s + 1).
Definition started (t func cookie flags : Z) (s : threads) : threads :=
  MkThreads (MkPThread (next_ptr s + 1) t (next_ptr s) false :: all_p_threads s)
    (MkThread (next_ptr s) 0 func cookie flags 0 false false false :: all_threads s) (next_ptr s + 2).
Definition created (t func cookie flags : Z) (s : threads) : threads :=
  MkThreads (MkPThread (next_ptr s + 1) t (next_ptr s) false :: all_p_threads s)
    (MkThread (next_ptr s) (next_ptr s + 1) func cookie flags 0 false false false :: all_threads s) (next_ptr s + 2).

Lemma create_link_run func cookie flags s : create_link func cookie flags s = Ret (next_ptr s, linking func cookie flags s).
Proof. reflexivity. Qed.

Lemma os_create_run t func cookie flags s :
  _THREAD_create true 0 t (next_ptr s) (linking func cookie flags s) = Ret (next_ptr s + 1, started t func cookie flags s).
Proof.
  unfold started. replace (next_ptr s + 2) with (next_ptr s + 1 + 1) by lia. reflexivity.
Qed.

Lemma thread_create_run t func cookie flags s :
  wf s -> THREAD_create true true 0 t func cookie flags s = Ret (next_ptr s, created t func cookie flags s).
Proof.
  intros []. unfold THREAD_create. cbn [negb]. run_step (create_link_run func cookie flags s).
  run_step (os_create_run t func cookie flags s). unfold update. run_modify. rewrite (proj2 (Z.eqb_neq _ 0)) by lia.
  unfold mret, M_ret, started, created, set_t. cbn [all_threads all_p_threads next_ptr]. do 3 f_equal. cbn [map th_ptr]. rewrite Z.eqb_refl.
  f_equal. apply map_fresh. eapply Forall_impl; [exact wf_t0|]. cbn. lia.
Qed.

Lemma created_wf t func cookie flags s : wf s -> wf (created t func cookie flags s).
Proof.
  intros []. assert (forall l : list Z, Forall (fun x => 0 < x < next_ptr s) l -> Forall (fun x => x <> next_ptr s /\ x <> next_ptr s + 1) l) as Hne.
  { intros l Hl. eapply Forall_impl; [exact Hl|]. cbn. lia. }
  constructor; cbn; [lia| | | |].
  - constructor; [cbn; lia|]. eapply Forall_impl; [exact wf_p0|]. cbn. lia.
  - constructor; [cbn; lia|]. eapply Forall_impl; [exact wf_t0|]. cbn. lia.
  - constructor; [|done]. intros Hin. apply list_elem_of_fmap in Hin as (p & Ep & Hp). rewrite Forall_forall in wf_p0. specialize (wf_p0 p Hp). lia.
  - constructor; [|done]. intros Hin. apply list_elem_of_fmap in Hin as (x & Ex & Hx). rewrite Forall_forall in wf_t0. specialize (wf_t0 x Hx). lia.
Qed.

Lemma os_of_created t func cookie flags s : os_of t (created t func cookie flags s) = next_ptr s + 1.
Proof. unfold os_of. cbn [created all_p_threads]. rewrite find_cons. cbn [p_t]. by rewrite decide_True. Qed.

Lemma os_of_started t func cookie flags s : os_of t (started t func cookie flags s) = next_ptr s + 1.
Proof. exact (os_of_created t func cookie flags s). Qed.

(** a thread created with [THREAD_create] is found by [THREAD_self]: called by
    the new thread it gives the handle that was returned, which is not null and of
    no other thread, and for every other thread it gives what it gave before. *)
Theorem thread_create_self (s : threads) (t func cookie flags : Z) :
  wf s ->
  exists h s', THREAD_create true true 0 t func cookie flags s = Ret (h, s') /\ wf s' /\
    h <> 0 /\ (h ∉ th_ptr <$> all_threads s) /\ THREAD_self t s' = Ret (h, s') /\
    forall t' h', t' <> t -> THREAD_self t' s = Ret (h', s) -> THREAD_self t' s' = Ret (h', s').
Proof.
  intros Hs. pose proof Hs as []. exists (next_ptr s), (created t func cookie flags s).
  split; [by apply thread_create_run|]. split; [by apply created_wf|]. split; [lia|]. split_and!.
  - intros Hin. apply list_elem_of_fmap in Hin as (x & Ex & Hx). rewrite Forall_forall in wf_t0. specialize (wf_t0 x Hx). lia.
  - rewrite THREAD_self_run. do 2 f_equal. unfold self_of. rewrite os_of_created.
    cbn [created all_threads]. rewrite find_cons. cbn [th_os_id]. by rewrite decide_True.
  - intros t' h' Ht. rewrite !THREAD_self_run. intros [= <-]. do 2 f_equal. unfold self_of.
    assert (os_of t' (created t func cookie flags s) = os_of t' s) as ->.
    { unfold os_of. cbn [created all_p_threads]. rewrite find_cons. cbn [p_t]. by rewrite decide_False by auto. }
    cbn [created all_threads]. rewrite find_cons. cbn [th_os_id]. rewrite decide_False; [done|].
    pose proof (os_of_bound t' s Hs). lia.
Qed.

(** while a thread is being created, [THREAD_self] is wrong.  Between the
    moment in which the record is linked in and the one in which it is told its
    handle below, a thread that was not created through this interface (the main
    thread, for instance) is taken for the new one; and the new thread, which may
    already be running, gets the null handle. *)
Theorem thread_self_during_create (s : threads) (t foreign func cookie flags : Z) :
  wf s -> Forall (fun p => p_t p <> foreign) (all_p_threads s) ->
  THREAD_self foreign (linking func cookie flags s) = Ret (next_ptr s, linking func cookie flags s) /\
  THREAD_self t (started t func cookie flags s) = Ret (0, started t func cookie flags s).
Proof.
  intros Hs Hf. pose proof Hs as []. rewrite !THREAD_self_run. split.
  - do 2 f_equal. unfold self_of.
    assert (os_of foreign (linking func cookie flags s) = 0) as ->.
    { unfold os_of. cbn [linking all_p_threads]. by rewrite find_none. }
    cbn [linking all_threads]. rewrite find_cons. cbn [th_os_id]. by rewrite decide_True.
  - do 2 f_equal. unfold self_of. rewrite os_of_started. cbn [started all_threads]. rewrite find_cons. cbn [th_os_id]. rewrite decide_False by lia. rewrite find_none; [done|].
    eapply Forall_impl; [exact wf_t0|]. cbn. lia.
Qed.

(** The two layers are released together only for a running thread. *)
Lemma split_p_app h l p :
  p ∈ l -> p_ptr p = h -> NoDup (p_ptr <$> l) ->
  exists a b, l = a ++ p :: b /\ split_p h l = (a, b).
Proof.
  intros Hp Eh. induction l as [|q l IH]; [by apply not_elem_of_nil in Hp|]. intros Hn. cbn [fmap list_fmap] in Hn.
  apply NoDup_cons in Hn as [Hq Hn]. cbn [split_p]. destruct (Z.eqb_spec (p_ptr q) h) as [E|E].
  - apply elem_of_cons in Hp as [->|Hp]; [by exists [], l|]. exfalso. apply Hq. rewrite E, <- Eh. by apply list_elem_of_fmap_2.
  - apply elem_of_cons in Hp as [->|Hp]; [done|]. destruct (IH Hp Hn) as (a & b & -> & Es). exists (q :: a), b. by rewrite Es.
Qed.

(** destroying a thread that has returned from its function leaves the record
    of the layer below behind: [THREAD_destroy] only releases it for a thread that
    is still alive, so every thread that ends by itself leaks one record. *)
Theorem thread_destroy_leaks_ended (s : threads) (h : Z) (x : thread) :
  wf s -> find_thread h (all_threads s) = Some x -> (exists p, p ∈ all_p_threads s /\ p_ptr p = th_os_id x) ->
  exists s', THREAD_destroy h s = Ret (tt, s') /\
    length (all_p_threads s') = (if th_is_alive x then (length (all_p_threads s) - 1)%nat else length (all_p_threads s)).
Proof.
  intros Hs Hx (p & Hp & Ep). pose proof Hs as []. apply find_in in Hx as Hx2. destruct Hx2 as [Hin <-].
  pose proof wf_t0 as Ht. rewrite Forall_forall in Ht. specialize (Ht x Hin). unfold THREAD_destroy.
  assert (h2p (th_ptr x) s = Ret (Some x, s)) as E.
  { unfold h2p. rewrite (proj2 (Z.eqb_neq _ 0)) by lia. run_get. by rewrite Hx. }
  run_step E. destruct (th_is_alive x); [|by eexists].
  destruct (split_p_app (th_os_id x) (all_p_threads s) p Hp Ep wf_pdup0) as (a & b & El & Es).
  assert (_THREAD_destroy (th_os_id x) s = Ret (tt, set_p (a ++ b) s)) as Ed.
  { unfold _THREAD_destroy. run_get. rewrite (proj2 (Z.eqb_neq _ 0)) by lia. rewrite bool_decide_eq_true_2, Es; [done|].
    rewrite <- Ep. by apply list_elem_of_fmap_2. }
  run_step Ed. eexists. split; [reflexivity|]. cbn. rewrite El, !length_app. cbn. lia.
Qed.

(** ** The claims at work *)

Lemma thread_create_self_witness :
  exists h s', THREAD_create true true 0 11 1 2 0 threads0 = Ret (h, s') /\ THREAD_self 11 s' = Ret (h, s') /\ h <> 0.
Proof.
  destruct (thread_create_self threads0 11 1 2 0) as (h & s' & E & _ & Hh & _ & Es & _); [apply wf0|].
  exists h, s'. exact (conj E (conj Es Hh)).
Defined.

Lemma thread_self_during_create_witness :
  THREAD_self 5 (linking 1 2 0 threads0) = Ret (1, linking 1 2 0 threads0) /\
  THREAD_self 11 (started 11 1 2 0 threads0) = Ret (0, started 11 1 2 0 threads0).
Proof. apply (thread_self_during_create threads0 11 5 1 2 0); [apply wf0|constructor]. Defined.

Lemma thread_destroy_leaks_ended_witness :
  exists s', THREAD_destroy 1 (created 11 1 2 0 threads0) = Ret (tt, s') /\ length (all_p_threads s') = 1%nat.
Proof.
  apply (thread_destroy_leaks_ended (created 11 1 2 0 threads0) 1 (MkThread 1 2 1 2 0 0 false false false)).
  - apply created_wf, wf0.
  - reflexivity.
  - exists (MkPThread 2 11 1 false). split; [by left|done].
Defined.

End Threads.
