(* ===== verification/Mutex.v ===== *)
(** * Mutexes and sleeping (mutex.c, linux_specific.c)

    A recursive mutex is built in two layers: [_ATOMIC_local_lock] and
    [_ATOMIC_local_unlock] of linux_specific.c, a lock with an owner and a depth
    that are changed under a pthread mutex, and [MUTEX_lock] and [MUTEX_unLock] of
    mutex.c, which keep an owner and a depth of their own.

    The system is one mutex and the threads that use it.  What the code does
    under the pthread mutex or the global lock is one step; what it does outside
    of them is divided at every access to the shared fields.  A wait on the
    condition variable may end at any time, since the code checks again. *)

From Stdlib Require Import ZArith Lia.
From stdpp Require Import base option numbers list gmap.
From S2P Require Import Prelude Threads.

Open Scope Z_scope.

Module Mutex.
Import Threads.

(** [pA->owner] is zero when nobody owns the lock. *)
Record p_atomic : Type := MkAtomic { pa_owner : Z; lock_depth : Z }.

Record mutex : Type := MkMutex {
  m : p_atomic;
  owner : Z;
  recursive_lock : Z
}.

(** Where a thread is in [MUTEX_lock]: outside, about to take the lock below with
    a time-out, holding it but not yet entered as the owner, entered as the owner
    but not yet counted. *)
Inductive place : Type :=
| Outside
| Want (timeout : Z)
| Got
| Owned.

(** The threads by their pthread identifier, with the number of locks they hold as
    far as they know: locks that succeeded minus unlocks. *)
Record sys : Type := MkSys {
  mtx : mutex;
  ths : threads;
  clients : gmap Z (place * Z)
}.

Definition set_mtx (x : mutex) (s : sys) : sys := MkSys x (ths s) (clients s).
Definition goto (t : Z) (pl : place) (d : Z) (s : sys) : sys := MkSys (mtx s) (ths s) (<[t := (pl, d)]> (clients s)).

Definition MUTEX_create : mutex := MkMutex (MkAtomic 0 0) 0 0.

(** [pthread_self] is [t]. *)
Definition whoami (t : Z) : M sys Z := s ← get; '(h, _) ← lift (THREAD_self t (ths s)); mret h.

(** ** The lock below *)

(** One round of the loop of [_ATOMIC_local_lock], by thread [t]: the result, or
    none if the thread has to wait; [late] tells whether a positive time-out is
    over. *)
Definition atomic_round (t timeout : Z) (late : bool) (a : p_atomic) : option Z * p_atomic :=
  let r := if pa_owner a =? t then Some 0
           else if lock_depth a =? 0 then Some 0
           else if timeout =? 0 then Some (-1)
           else if timeout <? 0 then None
           else if late then Some (-1) else None in
  match r with
  | Some 0 =>
      let d := lock_depth a + 1 in
      (Some 0, MkAtomic (if d =? 1 then t else pa_owner a) d)
  | _ => (r, a)
  end.

Definition _ATOMIC_local_unlock (t : Z) (a : p_atomic) : outcome p_atomic :=
  if negb (pa_owner a =? t) then Undef Fatal
  else if lock_depth a <=? 0 then Undef Fatal
  else
    let d := lock_depth a - 1 in
    Ret (MkAtomic (if d =? 0 then 0 else pa_owner a) d).

(** ** mutex.c *)

(** Under the global lock: is this a recursive lock? *)
Definition lock_inspect (t timeout d : Z) : M sys unit :=
  me ← whoami t;
  s ← get;
  let need_lock := negb (negb (recursive_lock (mtx s) =? 0) && (owner (mtx s) =? me)) in
  modify (goto t (if need_lock then Want timeout else Got) d).

Definition lock_round (t timeout d : Z) (late : bool) : M sys unit :=
  s ← get;
  let '(r, a) := atomic_round t timeout late (m (mtx s)) in
  modify (set_mtx (MkMutex a (owner (mtx s)) (recursive_lock (mtx s))));;
  match r with
  | None => mret tt
  | Some r => modify (goto t (if r =? 0 then Got else Outside) d)
  end.

Definition lock_owner (t d : Z) : M sys unit :=
  me ← whoami t;
  s ← get;
  modify (set_mtx (MkMutex (m (mtx s)) me (recursive_lock (mtx s))));;
  modify (goto t Owned d).

Definition lock_count (t d : Z) : M sys unit :=
  s ← get;
  modify (set_mtx (MkMutex (m (mtx s)) (owner (mtx s)) (int32 (recursive_lock (mtx s) + 1))));;
  modify (goto t Outside (d + 1)).

(** The check for a count of zero expands to nothing. *)
Definition MUTEX_unLock (t d : Z) : M sys unit :=
  s ← get;
  let r := recursive_lock (mtx s) - 1 in
  (if r =? 0 then
     a ← lift (_ATOMIC_local_unlock t (m (mtx s)));
     modify (set_mtx (MkMutex a 0 r))
   else modify (set_mtx (MkMutex (m (mtx s)) (owner (mtx s)) r)));;
  modify (goto t Outside (d - 1)).

Definition MUTEX_isLocked (x : mutex) : bool := negb (recursive_lock x =? 0).

(** ** Steps *)

Inductive action : Type :=
| Lock (t timeout : Z)
| Round (t : Z) (late : bool)
| Enter (t : Z)
| Count (t : Z)
| Unlock (t : Z).

Definition step (a : action) : M sys unit :=
  s ← get;
  match a with
  | Lock t timeout =>
      match clients s !! t with Some (Outside, d) => lock_inspect t timeout d | _ => mret tt end
  | Round t late =>
      match clients s !! t with Some (Want timeout, d) => lock_round t timeout d late | _ => mret tt end
  | Enter t => match clients s !! t with Some (Got, d) => lock_owner t d | _ => mret tt end
  | Count t => match clients s !! t with Some (Owned, d) => lock_count t d | _ => mret tt end
  | Unlock t => match clients s !! t with Some (Outside, d) => MUTEX_unLock t d | _ => mret tt end
  end.
Fixpoint run (l : list action) : M sys unit :=
  match l with
  | [] => mret tt
  | a :: l => step a;; run l
  end.

(** A thread unlocks only what it has locked, and does not nest too deep. *)
Definition ok_action (s : sys) (a : action) : Prop :=
  match a with
  | Lock t _ => match clients s !! t with Some (_, d) => d < 2 ^ 31 - 1 | None => True end
  | Unlock t => match clients s !! t with Some (Outside, d) => 0 < d | _ => True end
  | _ => True
  end.
Fixpoint ok_run (l : list action) (s : sys) : Prop :=
  match l with
  | [] => True
  | a :: l => ok_action s a /\ match step a s with Ret (_, s') => ok_run l s' | _ => True end
  end.

#[export] Instance ok_action_dec s a : Decision (ok_action s a).
Proof. destruct a; cbn [ok_action]; [destruct (_ !! _) as [[]|]| | | |destruct (_ !! _) as [[[] ?]|]]; apply _. Defined.
#[export] Instance ok_run_dec l : forall s, Decision (ok_run l s).
Proof. induction l as [|a l IH]; intros s; cbn [ok_run]; [apply _|]. destruct (step a s) as [[]| |]; apply _. Defined.

(** Threads created through the interface: each has a handle of its own. *)
Definition registered (s : sys) : Prop :=
  (forall t, is_Some (clients s !! t) -> t <> 0 /\ self_of t (ths s) <> 0) /\
  (forall t t', is_Some (clients s !! t) -> is_Some (clients s !! t') -> self_of t (ths s) = self_of t' (ths s) -> t = t').

Definition sys0 (th : threads) (ts : list Z) : sys := MkSys MUTEX_create th (list_to_map ((fun t => (t, (Outside, 0))) <$> ts)).

(** ** Mutual exclusion *)

(** A thread that neither holds the lock nor is about to. *)
Definition idle (x : place * Z) : Prop := snd x = 0 /\ (fst x = Outside \/ exists timeout, fst x = Want timeout).

(** The thread [t], at [pl] with [d] locks, has the lock. *)
Definition has_lock (s : sys) (t : Z) (pl : place) (d : Z) : Prop :=
  m (mtx s) = MkAtomic t 1 /\ recursive_lock (mtx s) = d /\
  match pl with
  | Outside => 0 < d < 2 ^ 31 /\ owner (mtx s) = self_of t (ths s)
  | Got => 0 <= d < 2 ^ 31 - 1 /\ owner (mtx s) = (if d =? 0 then 0 else self_of t (ths s))
  | Owned => 0 <= d < 2 ^ 31 - 1 /\ owner (mtx s) = self_of t (ths s)
  | Want _ => False
  end.

Inductive inv (s : sys) : Prop :=
| inv_free :
    mtx s = MUTEX_create -> (forall t x, clients s !! t = Some x -> idle x) -> inv s
| inv_taken t pl d :
    clients s !! t = Some (pl, d) -> has_lock s t pl d ->
    (forall t' x, t' <> t -> clients s !! t' = Some x -> idle x) -> inv s.

Lemma whoami_run t s : whoami t s = Ret (self_of t (ths s), s).
Proof. reflexivity. Qed.

Lemma goto_idle t x s t' y :
  idle x -> (forall t' y, clients s !! t' = Some y -> idle y) -> <[t := x]> (clients s) !! t' = Some y -> idle y.
Proof.
  intros Hx Hs. destruct (decide (t' = t)) as [->|Hne]; [rewrite lookup_insert_eq; by intros [= <-]|].
  rewrite lookup_insert_ne by done. apply Hs.
Qed.

Lemma goto_other t x s t0 t' y :
  t' <> t0 -> (t <> t0 -> idle x) -> (forall t' y, t' <> t0 -> clients s !! t' = Some y -> idle y) ->
  <[t := x]> (clients s) !! t' = Some y -> idle y.
Proof.
  intros Hne Hx Hs. destruct (decide (t' = t)) as [->|Hn]; [rewrite lookup_insert_eq; intros [= <-]; auto|].
  rewrite lookup_insert_ne by done. by apply Hs.
Qed.

(** A step goes on, keeps the invariant and the set of threads. *)
Definition goes_on (a : action) (s : sys) : Prop :=
  exists s', step a s = Ret (tt, s') /\ inv s' /\ ths s' = ths s /\ dom (clients s') = dom (clients s).

Lemma dom_goto t (x : place * Z) s : is_Some (clients s !! t) -> dom (<[t := x]> (clients s)) = dom (clients s).
Proof. intros Ht. apply dom_insert_lookup_L. done. Qed.

Lemma stay a s : inv s -> step a s = Ret (tt, s) -> goes_on a s.
Proof. intros Hi E. by exists s. Qed.

Lemma lock_goes_on s t timeout : registered s -> inv s -> ok_action s (Lock t timeout) -> goes_on (Lock t timeout) s.
Proof.
  intros [Hr1 Hr2] Hi Hok. destruct (clients s !! t) as [[pl d]|] eqn:Et; [|apply stay; [done|]; unfold step; run_get; by rewrite Et].
  destruct pl; try (apply stay; [done|]; unfold step; run_get; by rewrite Et).
  unfold goes_on, step. run_get. rewrite Et. unfold lock_inspect. run_step (whoami_run t s). run_get. cbv zeta.
  eexists. split; [reflexivity|]. split; [|split; [done|by apply dom_goto]]. cbn [ok_action] in Hok. rewrite Et in Hok.
  destruct Hi as [Em Hi|t0 pl0 d0 E0 H0 Hi].
  - destruct (Hi _ _ Et) as [Hd _]. cbn in Hd. subst d. rewrite Em. cbn [MUTEX_create recursive_lock negb Z.eqb andb]. apply inv_free; [done|].
    intros t' x. apply goto_idle; [split; [done|right; by eexists]|done].
  - destruct (decide (t = t0)) as [->|Hne].
    + rewrite E0 in Et. injection Et as -> ->. destruct H0 as (Hm & Hrec & Hd & Hown). rewrite Hrec, Hown, Z.eqb_refl.
      rewrite (proj2 (Z.eqb_neq d 0)) by lia. cbn [negb andb]. apply (inv_taken _ t0 Got d); [apply lookup_insert_eq| |].
      * unfold has_lock. cbn. rewrite (proj2 (Z.eqb_neq d 0)) by lia. split_and!; try done; lia.
      * intros t' x Hn. apply (goto_other t0 _ s t0); [done|done|done].
    + destruct (Hi t _ Hne Et) as [Hd _]. cbn in Hd. subst d.
      assert (negb (negb (recursive_lock (mtx s) =? 0) && (owner (mtx s) =? self_of t (ths s))) = true) as ->.
      { destruct (Z.eqb_spec (recursive_lock (mtx s)) 0) as [|Hrec]; [done|]. cbn [negb andb]. apply negb_true_iff, Z.eqb_neq. intros Eo.
        destruct H0 as (_ & Hrd & H0). assert (owner (mtx s) = self_of t0 (ths s)) as Eo0.
        { destruct pl0; try tauto. destruct H0 as [_ ->]. by rewrite (proj2 (Z.eqb_neq d0 0)) by lia. }
        apply Hne. apply Hr2; [by eexists|by eexists|congruence]. }
      apply (inv_taken _ t0 pl0 d0); [cbn; by rewrite lookup_insert_ne|done|].
      intros t' x Hn. apply (goto_other t _ s t0); [done|intros _; split; [done|right; by eexists]|done].
Qed.

Lemma atomic_round_busy t timeout late a :
  pa_owner a <> t -> lock_depth a <> 0 ->
  exists r, atomic_round t timeout late a = (r, a) /\ (r = Some (-1) \/ r = None).
Proof.
  intros Ho Hd. unfold atomic_round. rewrite (proj2 (Z.eqb_neq _ _) Ho), (proj2 (Z.eqb_neq _ _) Hd).
  destruct (timeout =? 0), (timeout <? 0), late; eexists; (split; [reflexivity|]); auto.
Qed.

Lemma round_goes_on s t late : registered s -> inv s -> goes_on (Round t late) s.
Proof.
  intros [Hr1 Hr2] Hi. destruct (clients s !! t) as [[pl d]|] eqn:Et; [|apply stay; [done|]; unfold step; run_get; by rewrite Et].
  destruct pl; try (apply stay; [done|]; unfold step; run_get; by rewrite Et).
  unfold goes_on, step. run_get. rewrite Et. unfold lock_round. run_get. destruct (Hr1 t) as [Ht0 _]; [by eexists|].
  destruct Hi as [Em Hi|t0 pl0 d0 E0 H0 Hi].
  - destruct (Hi _ _ Et) as [Hd _]. cbn in Hd. subst d. rewrite Em. unfold atomic_round. cbn [MUTEX_create m pa_owner lock_depth].
    rewrite (proj2 (Z.eqb_neq 0 t)) by done. cbn [Z.eqb Z.add]. run_modify.
    eexists. split; [reflexivity|]. split; [|split; [done|exact (dom_goto t _ s (ex_intro _ _ Et))]]. apply (inv_taken _ t Got 0); [apply lookup_insert_eq| |].
    + unfold has_lock. cbn. split_and!; try done; lia.
    + intros t' x Hn. apply (goto_other t _ s t); [done|done|intros; by eapply Hi].
  - destruct (decide (t = t0)) as [->|Hne]; [rewrite E0 in Et; injection Et as -> ->; by destruct H0 as (_ & _ & [])|].
    destruct (Hi t _ Hne Et) as [Hd _]. cbn in Hd. subst d. pose proof H0 as (Hm & _).
    destruct (atomic_round_busy t timeout late (m (mtx s))) as (r & Er & Hr); [rewrite Hm; cbn; by auto|by rewrite Hm|].
    rewrite Er. run_modify. replace (MkMutex (m (mtx s)) (owner (mtx s)) (recursive_lock (mtx s))) with (mtx s) by (by destruct (mtx s)).
    assert (set_mtx (mtx s) s = s) as -> by (by destruct s).
    destruct Hr as [-> | ->]; (eexists; split; [reflexivity|]).
    + split; [|split; [done|exact (dom_goto t _ s (ex_intro _ _ Et))]]. apply (inv_taken _ t0 pl0 d0); [cbn; by rewrite lookup_insert_ne|done|].
      cbn. intros t' x Hn. apply (goto_other t _ s t0); [done|by split; [|left]|done].
    + split; [|done]. by apply (inv_taken _ t0 pl0 d0).
Qed.

Lemma enter_goes_on s t : registered s -> inv s -> goes_on (Enter t) s.
Proof.
  intros [Hr1 Hr2] Hi. destruct (clients s !! t) as [[pl d]|] eqn:Et; [|apply stay; [done|]; unfold step; run_get; by rewrite Et].
  destruct pl; try (apply stay; [done|]; unfold step; run_get; by rewrite Et).
  unfold goes_on, step. run_get. rewrite Et. unfold lock_owner. run_step (whoami_run t s). run_get. run_modify.
  eexists. split; [reflexivity|]. split; [|split; [done|exact (dom_goto t _ s (ex_intro _ _ Et))]].
  destruct Hi as [Em Hi|t0 pl0 d0 E0 H0 Hi].
  - destruct (Hi _ _ Et) as [_ [?|[??]]]; done.
  - destruct (decide (t = t0)) as [->|Hne]; [|destruct (Hi _ _ Hne Et) as [_ [?|[??]]]; done].
    rewrite E0 in Et. injection Et as -> ->. destruct H0 as (Hm & Hrec & Hd & _). apply (inv_taken _ t0 Owned d); [apply lookup_insert_eq| |].
    + unfold has_lock. cbn. done.
    + intros t' x Hn. apply (goto_other t0 _ s t0); [done|done|done].
Qed.

Lemma count_goes_on s t : registered s -> inv s -> goes_on (Count t) s.
Proof.
  intros [Hr1 Hr2] Hi. destruct (clients s !! t) as [[pl d]|] eqn:Et; [|apply stay; [done|]; unfold step; run_get; by rewrite Et].
  destruct pl; try (apply stay; [done|]; unfold step; run_get; by rewrite Et).
  unfold goes_on, step. run_get. rewrite Et. unfold lock_count. run_get. run_modify.
  eexists. split; [reflexivity|]. split; [|split; [done|exact (dom_goto t _ s (ex_intro _ _ Et))]].
  destruct Hi as [Em Hi|t0 pl0 d0 E0 H0 Hi].
  - destruct (Hi _ _ Et) as [_ [?|[??]]]; done.
  - destruct (decide (t = t0)) as [->|Hne]; [|destruct (Hi _ _ Hne Et) as [_ [?|[??]]]; done].
    rewrite E0 in Et. injection Et as -> ->. destruct H0 as (Hm & Hrec & Hd & Hown). apply (inv_taken _ t0 Outside (d + 1)); [apply lookup_insert_eq| |].
    + unfold has_lock. cbn. rewrite Hrec, int32_id by lia. split_and!; try done; lia.
    + intros t' x Hn. apply (goto_other t0 _ s t0); [done|done|done].
Qed.

Lemma unlock_goes_on s t : registered s -> inv s -> ok_action s (Unlock t) -> goes_on (Unlock t) s.
Proof.
  intros [Hr1 Hr2] Hi Hok. destruct (clients s !! t) as [[pl d]|] eqn:Et; [|apply stay; [done|]; unfold step; run_get; by rewrite Et].
  destruct pl; try (apply stay; [done|]; unfold step; run_get; by rewrite Et).
  cbn [ok_action] in Hok. rewrite Et in Hok. unfold goes_on, step. run_get. rewrite Et. unfold MUTEX_unLock. run_get. cbv zeta.
  destruct Hi as [Em Hi|t0 pl0 d0 E0 H0 Hi]; [destruct (Hi _ _ Et) as [Hd _]; cbn in Hd; lia|].
  destruct (decide (t = t0)) as [->|Hne]; [|destruct (Hi _ _ Hne Et) as [Hd _]; cbn in Hd; lia].
  rewrite E0 in Et. injection Et as -> ->. destruct H0 as (Hm & Hrec & Hd & Hown). rewrite Hrec.
  destruct (Z.eqb_spec (d - 1) 0).
  - assert (d = 1) as -> by lia. rewrite Hm. unfold _ATOMIC_local_unlock. cbn [pa_owner lock_depth]. rewrite Z.eqb_refl.
    eexists. split; [reflexivity|]. split; [|split; [done|exact (dom_goto t0 _ s (ex_intro _ _ E0))]]. apply inv_free; [done|].
    cbn. intros t' x. destruct (decide (t' = t0)) as [->|Hn]; [rewrite lookup_insert_eq; intros [= <-]; split; [done|by left]|].
    rewrite lookup_insert_ne by done. by apply Hi.
  - eexists. split; [reflexivity|]. split; [|split; [done|exact (dom_goto t0 _ s (ex_intro _ _ E0))]].
    apply (inv_taken _ t0 Outside (d - 1)); [apply lookup_insert_eq| |].
    + unfold has_lock. cbn. split_and!; try done; lia.
    + intros t' x Hn. apply (goto_other t0 _ s t0); [done|done|done].
Qed.

Lemma step_goes_on a s : registered s -> inv s -> ok_action s a -> goes_on a s.
Proof.
  intros Hr Hi Hok. destruct a; [by apply lock_goes_on|by apply round_goes_on|by apply enter_goes_on|by apply count_goes_on|
    by apply unlock_goes_on].
Qed.

Lemma registered_same s s' : registered s -> ths s' = ths s -> dom (clients s') = dom (clients s) -> registered s'.
Proof.
  intros [H1 H2] Et Ed. assert (forall t, is_Some (clients s' !! t) -> is_Some (clients s !! t)) as Hd.
  { intros t Ht. apply elem_of_dom in Ht. rewrite Ed in Ht. by apply elem_of_dom. }
  split; rewrite Et; intros; [by apply H1, Hd|apply H2; auto].
Qed.

Lemma run_inv l : forall s, registered s -> inv s -> ok_run l s ->
  exists s', run l s = Ret (tt, s') /\ inv s' /\ ths s' = ths s /\ dom (clients s') = dom (clients s).
Proof.
  induction l as [|a l IH]; intros s Hr Hi Hok; [by exists s|]. destruct Hok as [Ha Hok].
  destruct (step_goes_on a s Hr Hi Ha) as (s1 & E1 & Hi1 & Et1 & Ed1). cbn [run]. run_step E1.
  destruct (IH s1) as (s2 & E2 & Hi2 & Et2 & Ed2); [by eapply registered_same|done|by rewrite E1 in Hok|].
  exists s2. rewrite E2. split_and!; [done|done|congruence|congruence].
Qed.

Lemma sys0_inv th ts : inv (sys0 th ts).
Proof.
  apply inv_free; [done|]. cbn. intros t x Hx%elem_of_list_to_map_2. apply list_elem_of_fmap in Hx as (y & [= _ ->] & _).
  split; [done|by left].
Qed.

(** ** Claims *)

(** C19: mutual exclusion.  Threads created through [THREAD_create] that unlock only
    what they locked never hold a mutex together, whatever their steps, time-outs
    and wake-ups and however deep each nests: the code does not fail, the counter
    is the depth of the one thread that holds the mutex, [MUTEX_isLocked] says
    whether there is one, and a mutex nobody holds is taken by the next thread
    that tries. *)
Theorem mutex_exclusion (th : threads) (ts : list Z) (l : list action) :
  registered (sys0 th ts) -> ok_run l (sys0 th ts) ->
  exists s', run l (sys0 th ts) = Ret (tt, s') /\
    (forall t t' pl pl' d d', clients s' !! t = Some (pl, d) -> clients s' !! t' = Some (pl', d') -> 0 < d -> 0 < d' -> t = t') /\
    (forall t pl d, clients s' !! t = Some (pl, d) -> 0 < d -> recursive_lock (mtx s') = d /\ MUTEX_isLocked (mtx s') = true) /\
    (forall t timeout late, clients s' !! t = Some (Want timeout, 0) ->
      (forall t' pl d, clients s' !! t' = Some (pl, d) -> d = 0 /\ pl <> Got /\ pl <> Owned) ->
      MUTEX_isLocked (mtx s') = false /\
      exists s2, step (Round t late) s' = Ret (tt, s2) /\ clients s2 !! t = Some (Got, 0)).
Proof.
  intros Hr Hok. destruct (run_inv l (sys0 th ts) Hr (sys0_inv th ts) Hok) as (s' & E & Hi & Et & Ed). exists s'. split; [done|].
  pose proof (registered_same _ _ Hr Et Ed) as [Hr1 _]. split_and!.
  - intros t t' pl pl' d d' H1 H2 Hd Hd'. destruct Hi as [_ Hi|t0 pl0 d0 _ _ Hi]; [apply Hi in H1 as [H1 _]; cbn in H1; lia|].
    destruct (decide (t = t0)) as [->|Hn]; [|apply Hi in H1 as [H1 _]; [cbn in H1; lia|done]].
    destruct (decide (t' = t0)) as [->|Hn]; [done|apply Hi in H2 as [H2 _]; [cbn in H2; lia|done]].
  - intros t pl d H1 Hd. destruct Hi as [_ Hi|t0 pl0 d0 H0 (_ & Hrec & _) Hi]; [apply Hi in H1 as [H1 _]; cbn in H1; lia|].
    destruct (decide (t = t0)) as [->|Hn]; [|apply Hi in H1 as [H1 _]; [cbn in H1; lia|done]].
    rewrite H0 in H1. injection H1 as -> ->. split; [done|]. unfold MUTEX_isLocked. rewrite Hrec. by rewrite (proj2 (Z.eqb_neq d 0)) by lia.
  - intros t timeout late Hw Hno. destruct Hi as [Em Hi|t0 pl0 d0 H0 (_ & _ & Hl) Hi].
    + split; [by rewrite Em|]. destruct (Hr1 t) as [Ht _]; [by eexists|]. unfold step. run_get. rewrite Hw. unfold lock_round. run_get.
      rewrite Em. unfold atomic_round. cbn [MUTEX_create m pa_owner lock_depth]. rewrite (proj2 (Z.eqb_neq 0 t)) by done.
      cbn [Z.eqb]. run_modify. eexists. split; [reflexivity|]. apply lookup_insert_eq.
    + destruct (Hno _ _ _ H0) as (-> & H1 & H2). destruct pl0; [lia|done|done|done].
Qed.

(** threads from elsewhere are not kept apart.  For a thread that was not
    created through [THREAD_create], the handle is null; two such threads take each
    other for the owner, and the second enters while the first is inside.  If the
    first then leaves before the second, the second is taken for a thread that
    unlocks what it does not own, and the program ends. *)
Theorem mutex_foreign_threads_enter_together (th : threads) (t1 t2 timeout : Z) :
  t1 <> 0 -> t2 <> 0 -> t1 <> t2 -> self_of t1 th = 0 -> self_of t2 th = 0 ->
  exists s', run [Lock t1 timeout; Round t1 false; Enter t1; Count t1; Lock t2 timeout; Enter t2; Count t2] (sys0 th [t1; t2]) = Ret (tt, s') /\
    clients s' !! t1 = Some (Outside, 1) /\ clients s' !! t2 = Some (Outside, 1) /\
    run [Unlock t1; Unlock t2] s' = Undef Fatal.
Proof.
  intros H1 H2 H12 E1 E2. set (s0 := sys0 th [t1; t2]).
  assert (clients s0 !! t1 = Some (Outside, 0)) as C1 by apply lookup_insert_eq.
  assert (clients s0 !! t2 = Some (Outside, 0)) as C2 by (cbn; rewrite lookup_insert_ne by done; apply lookup_insert_eq).
  set (s1 := goto t1 (Want timeout) 0 s0).
  assert (step (Lock t1 timeout) s0 = Ret (tt, s1)) as F1 by (unfold step; run_get; by rewrite C1).
  set (s2 := goto t1 Got 0 (set_mtx (MkMutex (MkAtomic t1 1) 0 0) s1)).
  assert (step (Round t1 false) s1 = Ret (tt, s2)) as F2.
  { unfold step. run_get. cbn [s1 goto clients]. rewrite lookup_insert_eq. unfold lock_round, atomic_round. run_get.
    cbn [s1 goto s0 sys0 mtx MUTEX_create m pa_owner]. by rewrite (proj2 (Z.eqb_neq 0 t1)) by done. }
  set (s3 := goto t1 Owned 0 (set_mtx (MkMutex (MkAtomic t1 1) 0 0) s2)).
  assert (step (Enter t1) s2 = Ret (tt, s3)) as F3.
  { unfold step. run_get. cbn [s2 goto clients]. rewrite lookup_insert_eq. unfold lock_owner. run_step (whoami_run t1 s2).
    run_get. cbn [s2 s1 s0 sys0 goto set_mtx ths mtx m recursive_lock]. by rewrite E1. }
  set (s4 := goto t1 Outside 1 (set_mtx (MkMutex (MkAtomic t1 1) 0 1) s3)).
  assert (step (Count t1) s3 = Ret (tt, s4)) as F4.
  { unfold step. run_get. cbn [s3 goto clients]. rewrite lookup_insert_eq. reflexivity. }
  assert (clients s4 !! t2 = Some (Outside, 0)) as C4 by (cbn; rewrite !lookup_insert_ne by done; apply lookup_insert_eq).
  set (s5 := goto t2 Got 0 s4).
  assert (step (Lock t2 timeout) s4 = Ret (tt, s5)) as F5.
  { unfold step. run_get. rewrite C4. unfold lock_inspect. run_step (whoami_run t2 s4). run_get.
    cbn [s4 s3 s2 s1 s0 sys0 goto set_mtx ths mtx recursive_lock owner]. by rewrite E2. }
  set (s6 := goto t2 Owned 0 (set_mtx (MkMutex (MkAtomic t1 1) 0 1) s5)).
  assert (step (Enter t2) s5 = Ret (tt, s6)) as F6.
  { unfold step. run_get. cbn [s5 goto clients]. rewrite lookup_insert_eq. unfold lock_owner. run_step (whoami_run t2 s5).
    run_get. cbn [s5 s4 s3 s2 s1 s0 sys0 goto set_mtx ths mtx m recursive_lock]. by rewrite E2. }
  set (s7 := goto t2 Outside 1 (set_mtx (MkMutex (MkAtomic t1 1) 0 2) s6)).
  assert (step (Count t2) s6 = Ret (tt, s7)) as F7.
  { unfold step. run_get. cbn [s6 goto clients]. rewrite lookup_insert_eq. reflexivity. }
  assert (clients s7 !! t1 = Some (Outside, 1)) as C7 by (cbn; rewrite !lookup_insert_ne by done; apply lookup_insert_eq).
  assert (clients s7 !! t2 = Some (Outside, 1)) as C8 by apply lookup_insert_eq.
  exists s7. cbn [run]. run_step F1. run_step F2. run_step F3. run_step F4. run_step F5. run_step F6. run_step F7.
  split_and!; [done|done|done|].
  assert (step (Unlock t1) s7 = Ret (tt, goto t1 Outside 0 (set_mtx (MkMutex (MkAtomic t1 1) 0 1) s7))) as F8.
  { unfold step. run_get. by rewrite C7. }
  run_step F8. apply M_bind_Undef. unfold step. run_get. cbn [goto clients set_mtx]. rewrite lookup_insert_ne, C8 by done.
  unfold MUTEX_unLock. run_get. cbn [goto set_mtx mtx recursive_lock m]. change (1 - 1 =? 0) with true. cbv iota.
  apply M_bind_Undef. unfold lift, _ATOMIC_local_unlock. cbn [pa_owner]. by rewrite (proj2 (Z.eqb_neq t1 t2)) by done.
Qed.

(** ** Sleeping *)

(** [timeout_mSecs] after a time in seconds and nanoseconds; the carry is a loop in
    the code. *)
Fixpoint carry (fuel : nat) (tv : Z * Z) : outcome (Z * Z) :=
  match fuel with
  | O => NoFuel
  | S fuel =>
      let '(sec, nsec) := tv in
      if 1000 * 1000 * 1000 <? nsec then carry fuel (sec + 1, nsec - 1000 * 1000 * 1000) else Ret tv
  end.

Definition make_timespec (fuel : nat) (now : Z * Z) (timeout_mSecs : Z) : outcome (Z * Z) :=
  let '(sec, nsec) := now in
  let r := Z.rem timeout_mSecs 1000 in
  carry fuel (sec + Z.quot timeout_mSecs 1000, nsec + r * 1000 * 1000).

(** [clock_nanosleep] for a time, as the code calls it for the [n]th time. *)
Fixpoint sleep_loop (fuel : nat) (nanosleep : nat -> Z * Z -> Z) (n : nat) (ts : Z * Z) : outcome nat :=
  match fuel with
  | O => NoFuel
  | S fuel => if nanosleep n ts =? 0 then Ret (S n) else sleep_loop fuel nanosleep (S n) ts
  end.

Definition _TIMER_sleep (fuel : nat) (nanosleep : nat -> Z * Z -> Z) (now : Z * Z) (mSecs : Z) : outcome nat :=
  ts ← make_timespec 2 now (int32 mSecs);
  sleep_loop fuel nanosleep 0 ts.

Lemma make_timespec_run sec nsec ms :
  0 <= nsec < 10 ^ 9 -> 0 <= ms < 2 ^ 31 ->
  exists sec' nsec', make_timespec 2 (sec, nsec) ms = Ret (sec', nsec') /\ 0 <= nsec' <= 10 ^ 9 /\
    sec' * 10 ^ 9 + nsec' = sec * 10 ^ 9 + nsec + ms * 10 ^ 6 /\
    (nsec' = 10 ^ 9 <-> nsec + (ms mod 1000) * 10 ^ 6 = 10 ^ 9).
Proof.
  intros Hn Hm. unfold make_timespec. rewrite Z.rem_mod_nonneg, Z.quot_div_nonneg by lia.
  pose proof (Z.mod_pos_bound ms 1000 ltac:(lia)) as Hb. pose proof (Z.div_mod ms 1000 ltac:(lia)) as Ed.
  cbn [carry]. destruct (Z.ltb_spec (1000 * 1000 * 1000) (nsec + ms mod 1000 * 1000 * 1000)).
  - destruct (Z.ltb_spec (1000 * 1000 * 1000) (nsec + ms mod 1000 * 1000 * 1000 - 1000 * 1000 * 1000)); [lia|].
    eexists _, _. split; [reflexivity|]. lia.
  - eexists _, _. split; [reflexivity|]. lia.
Qed.

(** a sleep can last for ever.  The time of waking is computed exactly, but the
    carry leaves 10^9 nanoseconds as they are instead of making them a second.  In
    that case [clock_nanosleep] rejects the time, as documented, and the code,
    which takes every failure for an interruption, calls it again with the same
    time: no number of calls is enough.  In all other cases the sleep ends with
    the first call that succeeds. *)
Theorem timer_sleep_forever (nanosleep : nat -> Z * Z -> Z) (sec nsec ms : Z) :
  (forall n ts, 10 ^ 9 <= snd ts -> nanosleep n ts <> 0) ->
  0 <= nsec < 10 ^ 9 -> 0 <= ms < 2 ^ 31 ->
  (nsec + (ms mod 1000) * 10 ^ 6 = 10 ^ 9 -> forall fuel, _TIMER_sleep fuel nanosleep (sec, nsec) ms = NoFuel) /\
  (nsec + (ms mod 1000) * 10 ^ 6 <> 10 ^ 9 ->
    exists ts, snd ts < 10 ^ 9 /\ fst ts * 10 ^ 9 + snd ts = sec * 10 ^ 9 + nsec + ms * 10 ^ 6 /\
      forall n, nanosleep n ts = 0 -> (forall k, (k < n)%nat -> nanosleep k ts <> 0) ->
        _TIMER_sleep (S n) nanosleep (sec, nsec) ms = Ret (S n)).
Proof.
  intros Hs Hn Hm. unfold _TIMER_sleep. rewrite int32_id by lia.
  destruct (make_timespec_run sec nsec ms Hn Hm) as (sec' & nsec' & -> & Hb & Ht & Hc). cbn [mbind outcome_bind]. split.
  - intros E fuel. apply Hc in E. subst nsec'. generalize 0%nat as n. induction fuel as [|fuel IH]; intros n; [done|].
    cbn [sleep_loop]. rewrite (proj2 (Z.eqb_neq _ 0)); [apply IH|]. apply Hs. cbn. lia.
  - intros Hne. exists (sec', nsec'). cbn [fst snd]. split_and!; [|done|].
    + destruct (decide (nsec' = 10 ^ 9)); [tauto|lia].
    + intros n H0 Hk.
      assert (forall j, (j <= n)%nat -> sleep_loop (S j) nanosleep (n - j) (sec', nsec') = Ret (S n)) as Hj.
      { induction j as [|j IH]; intros Hj; cbn [sleep_loop].
        - rewrite Nat.sub_0_r, H0. done.
        - rewrite (proj2 (Z.eqb_neq _ 0)) by (apply Hk; lia). replace (S (n - S j)) with (n - j)%nat by lia. apply IH. lia. }
      specialize (Hj n ltac:(lia)). by rewrite Nat.sub_diag in Hj.
Qed.

(** ** The claims at work *)

(** Two threads with the pthread identifiers 11 and 12. *)
Definition two : threads := created 12 0 0 0 (created 11 0 0 0 threads0).

Definition contend : list action :=
  [Lock 11 (-1); Lock 12 (-1); Round 11 false; Round 12 false; Enter 11; Count 11; Lock 11 0; Enter 11; Count 11; Round 12 false;
   Unlock 11; Unlock 11; Round 12 false; Enter 12; Count 12].

Lemma mutex_exclusion_witness :
  exists s', run contend (sys0 two [11; 12]) = Ret (tt, s') /\
    (forall t t' pl pl' d d', clients s' !! t = Some (pl, d) -> clients s' !! t' = Some (pl', d') -> 0 < d -> 0 < d' -> t = t').
Proof.
  destruct (mutex_exclusion two [11; 12] contend) as (s' & E & H & _).
  - assert (forall t, is_Some (clients (sys0 two [11; 12]) !! t) -> t = 11 \/ t = 12) as Hc.
    { intros t [x Hx]. apply elem_of_list_to_map_2, list_elem_of_fmap in Hx as (y & [= -> _] & Hy).
      apply elem_of_cons in Hy as [->|Hy]; [by left|]. apply list_elem_of_singleton in Hy. by right. }
    split.
    + intros t [-> | ->]%Hc; vm_compute; done.
    + intros t t' [-> | ->]%Hc [-> | ->]%Hc; vm_compute; done.
  - apply (bool_decide_unpack _). vm_compute. exact I.
  - exists s'. exact (conj E H).
Defined.

Lemma mutex_foreign_threads_enter_together_witness :
  exists s', run [Lock 5 (-1); Round 5 false; Enter 5; Count 5; Lock 6 (-1); Enter 6; Count 6] (sys0 two [5; 6]) = Ret (tt, s') /\
    clients s' !! 5 = Some (Outside, 1) /\ clients s' !! 6 = Some (Outside, 1) /\ run [Unlock 5; Unlock 6] s' = Undef Fatal.
Proof. apply (mutex_foreign_threads_enter_together two 5 6 (-1)); [done|done|done|vm_compute; reflexivity|vm_compute; reflexivity]. Defined.

(** A system that rejects invalid times and sleeps otherwise. *)
Definition nanosleep1 (_ : nat) (ts : Z * Z) : Z := if 10 ^ 9 <=? snd ts then 22 else 0.

Lemma timer_sleep_forever_witness :
  (forall fuel, _TIMER_sleep fuel nanosleep1 (7, 900000000) 100 = NoFuel) /\
  _TIMER_sleep 1 nanosleep1 (7, 900000000) 101 = Ret 1%nat.
Proof.
  assert (forall n ts, 10 ^ 9 <= snd ts -> nanosleep1 n ts <> 0) as Hs.
  { intros n ts Hts. unfold nanosleep1. by rewrite (proj2 (Z.leb_le _ _)). }
  split.
  - apply (timer_sleep_forever nanosleep1 7 900000000 100 Hs); [lia|lia|reflexivity].
  - destruct (timer_sleep_forever nanosleep1 7 900000000 101 Hs) as [_ (ts & H1 & _ & H2)]; [lia|lia|done|].
    apply (H2 0%nat); [|lia]. unfold nanosleep1. by rewrite (proj2 (Z.leb_gt _ _)).
Defined.

End Mutex.
