(* ===== verification/FdRw.v ===== *)
(** * Reading and writing file descriptors, and the UART (unix_fdrw.c,
      linux_specific.c, linux_uart.c)

    One request structure serves four kinds of transfers: between a buffer and a
    descriptor, between a buffer and a FIFO on the side of the application, and
    between a FIFO and a descriptor on the side of a thread.

    What the operating system does is a [line]: the bytes that are still to arrive,
    the bytes that were sent, and the answers of the calls to come; when there are
    no more answers the line is quiet: nothing to read, everything can be written,
    every time-out is over.  [this_v_buf] and [this_c_buf] are the data itself:
    reading yields the bytes that were stored at [this_v_buf]. *)

From Stdlib Require Import ZArith Lia.
From stdpp Require Import base option numbers list.
From S2P Require Import Prelude Fifo.

Open Scope Z_scope.

Module FdRw.
Import Fifo.

(** ** The system *)

(** [read]: at most so many bytes, end of file, EAGAIN or EINTR, another error. *)
Inductive rd_answer : Type := RGet (k : Z) | RZero | RAgain | RFail.
Inductive wr_answer : Type := WTook (k : Z) | WAgain | WFail.
#[export] Instance wr_answer_eq : EqDecision wr_answer.
Proof. solve_decision. Defined.
(** [select]: an error (also on the descriptor), ready, or the time is over. *)
Inductive sel_answer : Type := SelFail | SelReady | SelIdle.

Record line : Type := MkLine {
  tape : list Z;
  sent : list Z;
  reads : list rd_answer;
  writes : list wr_answer;
  selects : list sel_answer;
  clock : list bool          (* is the time-out over? *)
}.

Record unix_fdrw : Type := MkFdrw {
  fd : Z;
  rw : Z;                    (* 'r' or 'w' *)
  fifo_handle : option fifo;
  c_bytes : option (list Z);
  v_bytes : option (list Z);
  n_done : Z;
  n_todo : Z;
  mSecs_timeout : Z;
  is_error : bool;
  is_connected : bool;
  type : Z
}.

Record st : Type := MkSt { ln : line; rq : unix_fdrw }.

Definition set_fifo (f : option fifo) (r : unix_fdrw) : unix_fdrw :=
  MkFdrw (fd r) (rw r) f (c_bytes r) (v_bytes r) (n_done r) (n_todo r) (mSecs_timeout r) (is_error r) (is_connected r) (type r).
Definition set_v (v : option (list Z)) (n : Z) (r : unix_fdrw) : unix_fdrw :=
  MkFdrw (fd r) (rw r) (fifo_handle r) (c_bytes r) v n (n_todo r) (mSecs_timeout r) (is_error r) (is_connected r) (type r).
Definition set_err (r : unix_fdrw) : unix_fdrw :=
  MkFdrw (fd r) (rw r) (fifo_handle r) (c_bytes r) (v_bytes r) (n_done r) (n_todo r) (mSecs_timeout r) true (is_connected r) (type r).
Definition set_dead (r : unix_fdrw) : unix_fdrw :=
  MkFdrw (fd r) (rw r) (fifo_handle r) (c_bytes r) (v_bytes r) (n_done r) (n_todo r) (mSecs_timeout r) (is_error r) false (type r).
Definition on_rq (f : unix_fdrw -> unix_fdrw) : M st unit := modify (fun s => MkSt (ln s) (f (rq s))).

(** ** System calls *)

(** The bytes, or whether an error means to try again. *)
Definition sys_read (n : Z) : M st (list Z + bool) := fun s =>
  let l := ln s in
  match reads l with
  | [] => Ret (inl [], s)
  | a :: rs =>
      let k := match a with RGet k => Z.to_nat (Z.min k n) | _ => 0%nat end in
      let l' := MkLine (drop k (tape l)) (sent l) rs (writes l) (selects l) (clock l) in
      Ret (match a with RGet _ | RZero => inl (take k (tape l)) | RAgain => inr true | RFail => inr false end, MkSt l' (rq s))
  end.

(** A read to the null pointer: the end of file is seen, data is not. *)
Definition sys_read_null : M st (list Z + bool) := fun s =>
  let l := ln s in
  match reads l with
  | [] => Ret (inl [], s)
  | a :: rs =>
      Ret (match a with RZero => inl [] | _ => inr false end,
           MkSt (MkLine (tape l) (sent l) rs (writes l) (selects l) (clock l)) (rq s))
  end.

Definition sys_write (d : list Z) : M st (Z + bool) := fun s =>
  let l := ln s in
  let '(a, ws) := match writes l with [] => (WTook (zlen d), []) | a :: ws => (a, ws) end in
  let k := match a with WTook k => Z.to_nat (Z.min k (zlen d)) | _ => 0%nat end in
  let l' := MkLine (tape l) (sent l ++ take k d) (reads l) ws (selects l) (clock l) in
  Ret (match a with WTook _ => inl (Z.of_nat k) | WAgain => inr true | WFail => inr false end, MkSt l' (rq s)).

Definition sys_select : M st sel_answer := fun s =>
  let l := ln s in
  match selects l with
  | [] => Ret (SelIdle, s)
  | a :: ss => Ret (a, MkSt (MkLine (tape l) (sent l) (reads l) (writes l) ss (clock l)) (rq s))
  end.

(** [TIMER_timeoutIsExpired] for a positive time-out; one of zero is over. *)
Definition expired : M st bool := fun s =>
  let l := ln s in
  if mSecs_timeout (rq s) =? 0 then Ret (true, s)
  else match clock l with
       | [] => Ret (true, s)
       | b :: c => Ret (b, MkSt (MkLine (tape l) (sent l) (reads l) (writes l) (selects l) c) (rq s))
       end.

(** ** linux_specific.c *)

Definition poll_common : M st Z :=
  s ← get;
  let q := rq s in
  let valid := if fd q =? 0 then type q =? 102 else 0 <? fd q in
  if negb valid then mret (-1)
  else
    r ← (if (type q =? 102) || (type q =? 115) || (type q =? 117) then sys_select else mret SelFail);
    match r with
    | SelFail => on_rq set_err;; mret (-1)
    | SelReady => mret 1
    | SelIdle => mret 0
    end.
Definition POLL_readable : M st Z := poll_common.

(** Whether the descriptor is dead, and the bytes that have shown up meanwhile.
    The request is copied for the poll, so an error of the poll is not recorded;
    in a write [this_v_buf] is null. *)
Definition is_handle_dead (n : Z) : M st (bool * list Z) :=
  s ← get;
  let q := rq s in
  if negb ((type q =? 115) || (type q =? 117)) then mret (false, [])
  else
    r ← POLL_readable;
    modify (fun s' => MkSt (ln s') q);;
    if r =? 0 then mret (false, [])
    else
      d ← (if rw q =? 114 then sys_read n else sys_read_null);
      match d with
      | inl [] => mret (true, [])
      | inl d => mret (false, d)
      | inr _ => mret (false, [])
      end.

(** The bytes read; [this_actual] is their number. *)
Fixpoint UNIX_fdRdThis (fuel : nat) (n : Z) : M st (list Z) :=
  match fuel with
  | O => out_of_fuel
  | S fuel =>
      r ← sys_read n;
      match r with
      | inl [] => '(dead, d) ← is_handle_dead n; (if (dead : bool) then on_rq set_dead else mret tt);; mret d
      | inl d => mret d
      | inr true => UNIX_fdRdThis fuel n
      | inr false =>
          '(dead, d) ← is_handle_dead n; (if (dead : bool) then on_rq set_dead else mret tt);;
          on_rq set_err;; mret d
      end
  end.

Fixpoint UNIX_fdWrThis (fuel : nat) (d : list Z) : M st Z :=
  match fuel with
  | O => out_of_fuel
  | S fuel =>
      r ← sys_write d;
      match r with
      | inl k =>
          if 0 <? k then mret k
          else '(dead, _) ← is_handle_dead (zlen d); (if (dead : bool) then on_rq set_dead else mret tt);; mret 0
      | inr true => UNIX_fdWrThis fuel d
      | inr false => on_rq set_err;; mret 0
      end
  end.

(** Enough rounds for the answers that ask to try again. *)
Definition rd_this (n : Z) : M st (list Z) := s ← get; UNIX_fdRdThis (S (length (reads (ln s)))) n.
Definition wr_this (d : list Z) : M st Z := s ← get; UNIX_fdWrThis (S (length (writes (ln s)))) d.

(** ** unix_fdrw.c *)

(** The result of the transfers by a thread; nothing sets [n_done]. *)
Definition thread_result : M st Z :=
  s ← get;
  mret (if is_error (rq s) && (n_done (rq s) =? 0) then -1 else int32 (n_done (rq s))).

Definition go_on : M st bool := s ← get; mret (is_connected (rq s) && negb (is_error (rq s))).

Fixpoint fifo_to_fd_loop (fuel : nat) : M st unit :=
  match fuel with
  | O => out_of_fuel
  | S fuel =>
      s ← get;
      let '(_, pmem, item_cnt, isize) := FIFO_removeDMA_setup (fifo_handle (rq s)) in
      if item_cnt =? 0 then mret tt
      else
        f ← lift (deref (fifo_handle (rq s)));
        off ← lift (deref pmem);
        d ← lift (mem_read (pBuf f) off (item_cnt * isize));
        r ← wr_this d;
        ok ← go_on;
        if negb ok then mret tt
        else if r <=? 0 then mret tt
        else if negb (r mod isize =? 0) then on_rq set_err
        else
          h ← lift (FIFO_removeDMA_update (fifo_handle (rq s)) (r / isize));
          on_rq (set_fifo h);;
          fifo_to_fd_loop fuel
  end.
Definition _fifo_to_fd (fuel : nat) : M st Z := fifo_to_fd_loop fuel;; thread_result.

Fixpoint fd_to_fifo_loop (fuel : nat) : M st unit :=
  match fuel with
  | O => out_of_fuel
  | S fuel =>
      s ← get;
      let '(_, pmem, item_cnt, isize) := FIFO_insertDMA_setup (fifo_handle (rq s)) in
      if item_cnt =? 0 then mret tt
      else
        d ← rd_this (item_cnt * isize);
        f ← lift (deref (fifo_handle (rq s)));
        off ← lift (deref pmem);
        buf ← lift (mem_write (pBuf f) off d);
        on_rq (set_fifo (Some (set_buf f buf)));;
        ok ← go_on;
        if negb ok then mret tt
        else if zlen d <=? 0 then mret tt
        else if negb (zlen d mod isize =? 0) then on_rq set_err
        else
          h ← lift (FIFO_insertDMA_update (Some (set_buf f buf)) (zlen d / isize));
          on_rq (set_fifo h);;
          fd_to_fifo_loop fuel
  end.
Definition _fd_to_fifo (fuel : nat) : M st Z := fd_to_fifo_loop fuel;; thread_result.

Section App.

(** What a wait on a semaphore of the FIFO answers, and what the other threads do
    meanwhile to the FIFO and the line. *)
Variable wait : fifo -> line -> Z * fifo * line.

(** The side of the application. *)
Fixpoint app_fifo_loop (fuel : nat) : M st Z :=
  match fuel with
  | O => out_of_fuel
  | S fuel =>
      s ← get;
      let q := rq s in
      if n_todo q <=? n_done q then mret 0
      else
        let n_remain := n_todo q - n_done q in
        r ← match c_bytes q with
            | Some c =>
                d ← lift (mem_read c (n_done q) (zlen c - n_done q));
                '(r, h, l) ← lift (FIFO_insertWithTimeout wait 3 (fifo_handle q) (ln s) d n_remain (mSecs_timeout q));
                modify (fun s => MkSt l (set_fifo h (rq s)));; mret r
            | None =>
                v ← lift (deref (v_bytes q));
                '(r, out, h, l) ← lift (FIFO_removeWithTimeout wait 3 (fifo_handle q) (ln s) n_remain (mSecs_timeout q));
                v ← lift (mem_write v (n_done q) out);
                modify (fun s => MkSt l (set_v (Some v) (n_done q) (set_fifo h (rq s))));; mret r
            end;
        if r =? 0 then mret 0
        else if r <? 0 then mret r
        else on_rq (fun q => set_v (v_bytes q) (n_done q + r) q);; app_fifo_loop fuel
  end.
Definition _app_fifo_rw (fuel : nat) : M st Z :=
  on_rq (fun q => set_v (v_bytes q) 0 q);;
  r ← app_fifo_loop fuel;
  s ← get;
  if negb (n_done (rq s) =? 0) then mret (int32 (n_done (rq s)))
  else if r <? 0 then on_rq set_err;; mret (-1)
  else mret 0.

End App.

Fixpoint simple_loop (fuel : nat) : M st unit :=
  match fuel with
  | O => out_of_fuel
  | S fuel =>
      s ← get;
      let q := rq s in
      if n_todo q <=? n_done q then mret tt
      else
        let n_this := n_todo q - n_done q in
        o ← (if rw q =? 119 then
               c ← lift (deref (c_bytes q));
               d ← lift (mem_read c (n_done q) n_this);
               r ← wr_this d; mret (Some r)
             else
               p ← (if 0 <? mSecs_timeout q then POLL_readable else mret 1);
               if p <? 1 then mret None
               else
                 d ← rd_this n_this;
                 v ← lift (deref (v_bytes q));
                 v ← lift (mem_write v (n_done q) d);
                 on_rq (fun q => set_v (Some v) (n_done q) q);;
                 mret (Some (zlen d)));
        match o with
        | None => mret tt
        | Some r =>
            ok ← go_on;
            if negb ok then mret tt
            else
              on_rq (fun q => set_v (v_bytes q) (n_done q + r) q);;
              if mSecs_timeout q <? 0 then simple_loop fuel
              else if r =? 0 then
                e ← expired; if (e : bool) then mret tt else simple_loop fuel
              else simple_loop fuel
        end
  end.
Definition _simple_rw (fuel : nat) : M st Z :=
  on_rq (fun q => set_v (v_bytes q) 0 q);;
  simple_loop fuel;;
  thread_result.

Definition UNIX_fdRw (wait : fifo -> line -> Z * fifo * line) (fuel : nat) : M st Z :=
  s ← get;
  let q := rq s in
  match fifo_handle q, c_bytes q, v_bytes q with
  | None, _, _ => _simple_rw fuel
  | Some _, None, None => if rw q =? 119 then _fifo_to_fd fuel else _fd_to_fifo fuel
  | Some _, _, _ => _app_fifo_rw wait fuel
  end.

(** ** The UART (linux_uart.c) *)

Inductive luts : Type := LUTS_birth | LUTS_alive | LUTS_exit | LUTS_dead.

(** A line and its reader: the descriptor, the FIFO the thread fills, the error
    flag of the stream. *)
Record linux_uart : Type := MkUart {
  u_line : line;
  u_h : Z;
  rx_fifo : option fifo;
  u_error : bool;
  thread_state : luts
}.

Definition request (u : linux_uart) (dir : Z) (f : option fifo) (c v : option (list Z)) (n timeout : Z) : unix_fdrw :=
  MkFdrw (u_h u) dir f c v 0 n timeout false true 117.

(** Run a request on the line of the UART. *)
Definition with_request {A} (q : unix_fdrw) (m : M st A) : M linux_uart (A * unix_fdrw) := fun u =>
  '(a, s) ← m (MkSt (u_line u) q);
  Ret ((a, rq s), MkUart (ln s) (u_h u) (rx_fifo u) (u_error u) (thread_state u)).

Definition set_uerr (b : bool) (u : linux_uart) : linux_uart := MkUart (u_line u) (u_h u) (rx_fifo u) b (thread_state u).
Definition set_rx (f : option fifo) (u : linux_uart) : linux_uart := MkUart (u_line u) (u_h u) f (u_error u) (thread_state u).
Definition set_state (x : luts) (u : linux_uart) : linux_uart := MkUart (u_line u) (u_h u) (rx_fifo u) (u_error u) x.

Definition uart_disconnect_check (q : unix_fdrw) : M linux_uart unit :=
  if is_error q || negb (is_connected q) then modify (set_uerr true) else mret tt.

(** No FIFO is used in a write, so nothing waits for one. *)
Definition quiet (f : fifo) (l : line) : Z * fifo * line := (0, f, l).

(** The time-out of the caller is not passed on. *)
Definition _uart_wrBytes (fuel : nat) (d : list Z) : M linux_uart Z :=
  u ← get;
  '(r, q) ← with_request (request u 119 None (Some d) None (zlen d) 0) (UNIX_fdRw quiet fuel);
  uart_disconnect_check q;;
  mret r.

(** The result and the buffer. *)
Definition _uart_rdBytes (wait : fifo -> line -> Z * fifo * line) (fuel : nat) (buf : list Z) (n timeout : Z)
  : M linux_uart (Z * list Z) :=
  u ← get;
  '(r, q) ← with_request (request u 114 (rx_fifo u) None (Some buf) n timeout) (UNIX_fdRw wait fuel);
  modify (set_rx (fifo_handle q));;
  uart_disconnect_check q;;
  mret (r, default [] (v_bytes q)).

Definition _uart_pollRxAvail : M linux_uart bool :=
  u ← get;
  match rx_fifo u with
  | Some _ => mret (negb (FIFO_getItemsAvail (rx_fifo u) =? 0))
  | None =>
      '(r, q) ← with_request (request u 114 None None None 0 0) POLL_readable;
      if (r <? 0) || is_error q then modify (set_uerr true);; mret false
      else mret (negb (r =? 0))
  end.

(** One round of the loop of the receiving thread. *)
Definition rx_round (wait : fifo -> line -> Z * fifo * line) (fuel : nat) : M linux_uart unit :=
  u ← get;
  match thread_state u with
  | LUTS_alive =>
      if u_error u then modify (set_state LUTS_dead)
      else
        '(r, q) ← with_request (request u 114 (rx_fifo u) None None 0 100) POLL_readable;
        if (r <? 0) || is_error q then modify (set_uerr true)
        else if r =? 0 then mret tt
        else
          '(r, q) ← with_request q (UNIX_fdRw wait fuel);
          modify (set_rx (fifo_handle q));;
          if (r <? 0) || is_error q then modify (set_uerr true) else mret tt
  | _ => modify (set_state LUTS_dead)
  end.

(** ** Bytes are neither lost nor invented *)

(** The request with other flags. *)
Definition flags (e c : bool) (q : unix_fdrw) : unix_fdrw :=
  MkFdrw (fd q) (rw q) (fifo_handle q) (c_bytes q) (v_bytes q) (n_done q) (n_todo q) (mSecs_timeout q) e c (type q).

Lemma flags_same q : flags (is_error q) (is_connected q) q = q.
Proof. by destruct q. Qed.

(** What reading does to a line: [d] is taken from the front of the tape. *)
Record took (l l' : line) (d : list Z) : Prop := MkTook {
  tk_tape : d ++ tape l' = tape l;
  tk_sent : sent l' = sent l;
  tk_reads : reads l' `suffix_of` reads l;
  tk_writes : writes l' = writes l;
  tk_less : d <> [] -> (length (reads l') < length (reads l))%nat
}.

Lemma took_refl l : took l l [].
Proof. by constructor. Qed.

Lemma took_trans l1 l2 l3 d1 d2 : took l1 l2 d1 -> took l2 l3 d2 -> took l1 l3 (d1 ++ d2).
Proof.
  intros [T1 S1 R1 W1 L1] [T2 S2 R2 W2 L2]. constructor; [by rewrite <- app_assoc, T2|congruence|by etrans|congruence|].
  intros Hd. apply suffix_length in R1, R2. destruct d1 as [|b d1]; [|specialize (L1 ltac:(done)); lia].
  specialize (L2 Hd). lia.
Qed.

Lemma sys_read_run n s :
  0 <= n ->
  exists r l', sys_read n s = Ret (r, MkSt l' (rq s)) /\
    took (ln s) l' (match r with inl d => d | inr _ => [] end) /\
    match r with
    | inl d => zlen d <= n
    | inr true => (length (reads l') < length (reads (ln s)))%nat
    | inr false => RFail ∈ reads (ln s)
    end.
Proof.
  intros Hn. unfold sys_read. destruct (reads (ln s)) as [|a rs] eqn:Er.
  { exists (inl []), (ln s). split; [by destruct s|]. split; [apply took_refl|]. unfold zlen. cbn. lia. }
  set (k := match a with RGet k => Z.to_nat (Z.min k n) | _ => 0%nat end).
  assert (forall d, d ++ drop k (tape (ln s)) = tape (ln s) ->
    took (ln s) (MkLine (drop k (tape (ln s))) (sent (ln s)) rs (writes (ln s)) (selects (ln s)) (clock (ln s))) d) as Ht.
  { intros d Hd. constructor; cbn; try done; rewrite Er; [by apply suffix_cons_r|cbn; lia]. }
  eexists _, _. split; [reflexivity|]. destruct a as [g| | |]; cbn [k] in *.
  - split; [apply Ht; apply take_drop|]. unfold zlen. rewrite length_take. lia.
  - split; [by apply Ht|]. change (take k (tape (ln s))) with (@nil Z). unfold zlen. cbn [length]. lia.
  - split; [by apply Ht|]. cbn. lia.
  - split; [by apply Ht|]. by left.
Qed.

Lemma poll_run s :
  exists r l' e, POLL_readable s = Ret (r, MkSt l' (flags e (is_connected (rq s)) (rq s))) /\ took (ln s) l' [] /\
    (r = 1 \/ r = 0 \/ r = -1) /\ (0 <= r -> e = is_error (rq s)).
Proof.
  unfold POLL_readable, poll_common. run_get. cbv zeta.
  assert (flags (is_error (rq s)) (is_connected (rq s)) (rq s) = rq s) as Ef by apply flags_same.
  destruct (negb _).
  { exists (-1), (ln s), (is_error (rq s)). rewrite Ef. split; [by destruct s|]. split; [apply took_refl|]. auto. }
  destruct (_ || _ || _).
  - unfold sys_select, mbind, M_bind. destruct (selects (ln s)) as [|a ss] eqn:Es; cbn [mbind outcome_bind].
    { exists 0, (ln s), (is_error (rq s)). rewrite Ef. split; [by destruct s|]. split; [apply took_refl|]. auto. }
    set (l' := MkLine _ _ _ _ _ _). assert (took (ln s) l' []) as Ht by (by constructor).
    destruct a; cbn.
    + exists (-1), l', true. split; [done|]. split; [done|]. split; [auto|lia].
    + exists 1, l', (is_error (rq s)). rewrite Ef. split_and!; auto.
    + exists 0, l', (is_error (rq s)). rewrite Ef. split_and!; auto.
  - exists (-1), (ln s), true. split; [done|]. split; [apply took_refl|]. split; [auto|lia].
Qed.

Lemma dead_run n s :
  0 <= n -> rw (rq s) = 114 ->
  exists b d l', is_handle_dead n s = Ret ((b, d), MkSt l' (rq s)) /\ took (ln s) l' d /\ zlen d <= n /\ (b = true -> d = []).
Proof.
  intros Hn Hrw. unfold is_handle_dead. run_get. cbv zeta. destruct (negb _).
  { exists false, [], (ln s). split; [by destruct s|]. split; [apply took_refl|]. unfold zlen. cbn. auto. }
  destruct (poll_run s) as (r & l1 & e & E & H1 & _ & _). run_step E. run_modify. cbn [ln].
  destruct (r =? 0).
  { exists false, [], l1. split; [done|]. split; [done|]. unfold zlen. cbn. auto. }
  rewrite Hrw. cbn [Z.eqb Pos.eqb]. destruct (sys_read_run n (MkSt l1 (rq s)) Hn) as (x & l2 & E2 & H2 & Hx). run_step E2.
  cbn [ln rq] in *. pose proof (took_trans _ _ _ _ _ H1 H2) as H3. destruct x as [d|b]; cbn [app] in H3.
  - destruct d as [|c d]; [exists true, [], l2|exists false, (c :: d), l2]; by split_and!.
  - exists false, [], l2. split; [done|]. split; [done|]. unfold zlen. cbn. auto.
Qed.

(** A read takes bytes from the tape and stores all of them; only a failure of the
    device sets the error flag, and else the connection is not declared dead when
    bytes came. *)
Definition read_flags (q : unix_fdrw) (rs : list rd_answer) (d : list Z) (e c : bool) : Prop :=
  e = is_error q /\ (d <> [] -> c = is_connected q) \/ e = true /\ RFail ∈ rs.

Lemma rd_this_run n s :
  0 <= n -> rw (rq s) = 114 ->
  exists d l' e c, rd_this n s = Ret (d, MkSt l' (flags e c (rq s))) /\ took (ln s) l' d /\ zlen d <= n /\
    read_flags (rq s) (reads (ln s)) d e c.
Proof.
  intros Hn Hrw. unfold rd_this. run_get.
  assert (forall fuel s1, ln s1 = ln s \/ took (ln s) (ln s1) [] -> rq s1 = rq s -> (length (reads (ln s1)) < fuel)%nat ->
    exists d l' e c, UNIX_fdRdThis fuel n s1 = Ret (d, MkSt l' (flags e c (rq s))) /\ took (ln s) l' d /\ zlen d <= n /\
    read_flags (rq s) (reads (ln s)) d e c) as Hgo.
  2: { apply (Hgo _ s); [by left|done|lia]. }
  induction fuel as [|fuel IH]; intros s1 Hl Hq Hf; [lia|]. cbn [UNIX_fdRdThis].
  assert (took (ln s) (ln s1) []) as Ht by (destruct Hl as [->|?]; [apply took_refl|done]).
  destruct (sys_read_run n s1 Hn) as (r & l2 & E & H2 & Hr). run_step E. rewrite Hq in *.
  pose proof (took_trans _ _ _ _ _ Ht H2) as H3. cbn [app] in H3. destruct r as [[|b d]|[]].
  - destruct (dead_run n (MkSt l2 (rq s)) Hn Hrw) as (dead & d & l3 & Ed & H4 & Hz & Hdd). run_step Ed. cbn [ln rq] in *.
    pose proof (took_trans _ _ _ _ _ H3 H4) as H5. cbn [app] in H5.
    exists d, l3, (is_error (rq s)), (if dead then false else is_connected (rq s)). split; [|split; [done|]].
    + destruct dead; [done|]. by rewrite flags_same.
    + split; [done|]. left. split; [done|]. intros Hne. destruct dead; [by rewrite Hdd in Hne|done].
  - exists (b :: d), l2, (is_error (rq s)), (is_connected (rq s)). rewrite flags_same. split_and!; try done. by left.
  - apply IH; [by right|done|cbn [ln]; lia].
  - destruct (dead_run n (MkSt l2 (rq s)) Hn Hrw) as (dead & d & l3 & Ed & H4 & Hz & Hdd). run_step Ed. cbn [ln rq] in *.
    pose proof (took_trans _ _ _ _ _ H3 H4) as H5. cbn [app] in H5.
    exists d, l3, true, (if dead then false else is_connected (rq s)). split; [|split; [done|]].
    + destruct dead; [done|]. unfold on_rq, mbind, M_bind, modify, set_err, flags. done.
    + split; [done|]. right. split; [done|]. destruct Ht as [_ _ [x Hx] _ _]. rewrite Hx. apply elem_of_app. by right.
Qed.

(** Bytes that have arrived are read. *)
Lemma rd_this_some k n rs s :
  reads (ln s) = RGet k :: rs -> 0 < k -> 0 < n -> tape (ln s) <> [] ->
  exists d l', rd_this n s = Ret (d, MkSt l' (rq s)) /\ d <> [].
Proof.
  intros Er Hk Hn Ht. destruct s as [l q]. unfold rd_this. run_get. cbn [UNIX_fdRdThis].
  destruct l as [t se rd wr sl cl]. cbn [ln rq reads tape] in *. subst rd. destruct t as [|b t]; [done|].
  destruct (Z.to_nat (Z.min k n)) as [|j] eqn:Ej; [lia|]. set (s := MkSt _ _).
  assert (sys_read n s = Ret (inl (b :: take j t), MkSt (MkLine (drop j t) se rs wr sl cl) q)) as E.
  { unfold sys_read, s. cbn [ln rq reads tape]. by rewrite Ej. }
  run_step E. eexists _, _. split; [reflexivity|done].
Qed.

Lemma set_fifo_flags h e c q : set_fifo h (flags e c q) = flags e c (set_fifo h q).
Proof. done. Qed.

(** A FIFO of bytes. *)
Definition byte_fifo (f : fifo) : Prop := fifo_wf f /\ item_size f = 1.

Lemma inserted_bytes f d :
  byte_fifo f -> zlen d <= ins_run f ->
  mem_write (pBuf f) (wr_idx f * item_size f) d = Ret (splice (offset f (wr_idx f)) d (pBuf f)) /\
  FIFO_insertDMA_update (Some (set_buf f (splice (offset f (wr_idx f)) d (pBuf f)))) (zlen d / 1) = Ret (Some (inserted f (zlen d) d)) /\
  byte_fifo (inserted f (zlen d) d) /\ contents (inserted f (zlen d) d) = contents f ++ d.
Proof.
  intros [Hf H1] Hd. pose proof (zlen_nonneg d). assert (zlen d = zlen d * item_size f) as Ed by (rewrite H1; lia).
  rewrite Z.div_1_r. split; [by apply (insert_write f (zlen d))|]. split; [by apply insert_update_eq|].
  split; [split; [by apply inserted_wf|done]|by apply inserted_contents].
Qed.

(** Bytes that are stored and not committed leave the FIFO as it is. *)
Lemma uncommitted_bytes f d :
  byte_fifo f -> zlen d <= ins_run f ->
  let f1 := set_buf f (splice (offset f (wr_idx f)) d (pBuf f)) in byte_fifo f1 /\ contents f1 = contents f.
Proof.
  intros [Hf H1] Hd f1. pose proof (zlen_nonneg d). assert (zlen d = zlen d * item_size f) as Ed by (rewrite H1; lia).
  split; [split; [|done]|by apply (contents_copy f (zlen d))]. apply set_buf_wf; [done|]. unfold zlen. f_equal. apply length_splice.
  by apply (insert_splice_fits f (zlen d)).
Qed.

(** The thread moves bytes from the line to the FIFO, in order, and stops when the
    FIFO is full, the line is quiet or the connection is dead; when the device fails
    it stops as well, and bytes that came with the failure are lost. *)
Lemma fd_to_fifo_run fuel : forall s f,
  fifo_handle (rq s) = Some f -> byte_fifo f -> rw (rq s) = 114 -> is_error (rq s) = false ->
  is_connected (rq s) = true -> (length (reads (ln s)) < fuel)%nat ->
  exists d lost l' f' e c, fd_to_fifo_loop fuel s = Ret (tt, MkSt l' (flags e c (set_fifo (Some f') (rq s)))) /\
    took (ln s) l' (d ++ lost) /\ byte_fifo f' /\ contents f' = contents f ++ d /\
    (if e then RFail ∈ reads (ln s) else lost = []) /\
    (forall k rs, reads (ln s) = RGet k :: rs -> 0 < k -> cnt f < fifo_depth f -> tape (ln s) <> [] -> d <> []).
Proof.
  induction fuel as [|fuel IH]; intros s f Eh Hb Hrw He Hc Hf; [lia|]. cbn [fd_to_fifo_loop]. run_get. rewrite Eh.
  pose proof Hb as [Hw H1]. rewrite insert_setup_eq by done. pose proof (ins_run_bounds f Hw) as (Hi0 & Hi1 & _ & _ & Hi2).
  destruct (Z.eqb_spec (ins_run f) 0) as [E0|E0].
  { exists [], [], (ln s), f, false, true. rewrite !app_nil_r. split; [|split; [apply took_refl|]].
    - rewrite <- Eh. replace (set_fifo _ _) with (rq s) by (by destruct (rq s)). rewrite <- He, <- Hc, flags_same. by destruct s.
    - split; [done|]. split; [done|]. split; [done|]. specialize (Hi2 E0). lia. }
  rewrite H1, (Z.mul_1_r (ins_run f)). destruct (rd_this_run (ins_run f) s Hi0 Hrw) as (d & l1 & e & c & E & Ht & Hz & Hok). run_step E.
  destruct (inserted_bytes f d Hb Hz) as (Ew & Eu & Hb' & Hcont). destruct (uncommitted_bytes f d Hb Hz) as [Hb1 Hct1].
  set (s1 := MkSt l1 _). assert (lift (deref (Some f)) s1 = Ret (f, s1)) as E1 by done. run_step E1.
  rewrite H1, Z.mul_1_r in Ew.
  assert (lift (deref (Some (wr_idx f * 1))) s1 = Ret (wr_idx f, s1)) as E2 by (rewrite Z.mul_1_r; done). run_step E2.
  assert (lift (mem_write (pBuf f) (wr_idx f) d) s1 = Ret (splice (offset f (wr_idx f)) d (pBuf f), s1)) as E3 by (unfold lift; by rewrite Ew).
  run_step E3. set (f1 := set_buf f _) in *. unfold on_rq. run_modify. set (s2 := MkSt _ _).
  assert (go_on s2 = Ret (c && negb e, s2)) as E4 by (unfold go_on; by run_get). run_step E4.
  assert (forall k rs, reads (ln s) = RGet k :: rs -> 0 < k -> cnt f < fifo_depth f -> tape (ln s) <> [] -> d <> [] /\ e = false) as Hprog.
  { intros k rs Er Hk Hroom Htape. destruct (rd_this_some k (ins_run f) rs s) as (d2 & l' & E' & Hd'); try done; [lia|].
    rewrite E' in E. injection E as -> _ Eq. split; [done|]. apply (f_equal is_error) in Eq. cbn in Eq. congruence. }
  destruct Hok as [[He' Hcd]|[-> Hfail]].
  2: { rewrite andb_false_r. cbn [negb]. exists [], d, l1, f1, true, c. rewrite app_nil_r. split_and!; try done. intros k rs Er Hk Hr Hta.
       by destruct (Hprog k rs Er Hk Hr Hta). }
  rewrite He in He'. subst e. cbn [negb] in *. rewrite andb_true_r in *. destruct d as [|b d].
  - change (zlen []) with 0. cbn [Z.leb Z.compare]. exists [], [], l1, f1, false, c. rewrite !app_nil_r. split; [by destruct c|].
    split_and!; try done. intros k rs Er Hk Hr Hta. by destruct (Hprog k rs Er Hk Hr Hta).
  - rewrite Hc in Hcd. specialize (Hcd ltac:(done)). subst c. cbn [negb]. set (d' := b :: d) in *.
    assert (0 < zlen d') as Hpos by (unfold zlen; cbn; lia). rewrite (proj2 (Z.leb_gt _ 0)) by done. rewrite Z.mod_1_r. cbn [Z.eqb negb].
    assert (lift (FIFO_insertDMA_update (Some f1) (zlen d' / 1)) s2 = Ret (Some (inserted f (zlen d') d'), s2)) as E5 by (unfold lift; by rewrite Eu).
    run_step E5. run_modify. set (s3 := MkSt _ _).
    destruct (IH s3 (inserted f (zlen d') d')) as (d2 & lost & l3 & f3 & e3 & c3 & E6 & Ht3 & Hb3 & Hc3 & Hl3 & _); try done.
    { change (ln s3) with l1. pose proof (tk_less _ _ _ Ht ltac:(done)). lia. }
    exists (d' ++ d2), lost, l3, f3, e3, c3. split; [exact E6|]. split; [rewrite <- app_assoc; by eapply took_trans|]. split; [done|].
    split; [by rewrite Hc3, Hcont, app_assoc|]. split; [|done]. destruct e3; [|done].
    destruct Ht as [_ _ [x Hx] _ _]. rewrite Hx. apply elem_of_app. by right.
Qed.

(** What a FIFO of bytes gives without waiting. *)
Lemma fifo_take_bytes wait f (e : line) n :
  byte_fifo f -> 0 <= n < 2 ^ 31 ->
  let k := Z.to_nat (Z.min n (cnt f)) in
  exists f', FIFO_removeWithTimeout wait 3 (Some f) e n 0 = Ret (Z.of_nat k, take k (contents f), Some f', e) /\
    byte_fifo f' /\ cnt f' = cnt f - Z.of_nat k /\ contents f' = drop k (contents f) /\ zlen (take k (contents f)) = Z.of_nat k.
Proof.
  intros [Hf H1] Hn k. unfold FIFO_removeWithTimeout. rewrite h2f_wf by done. pose proof (rounds_pos f). pose proof (wf_cnt f Hf).
  destruct (remove_loop_spec wait 3 f [] n 0 e Hf ltac:(lia) ltac:(lia)) as (f' & -> & Hf' & Hs & Hc' & Hct);
    [destruct (decide (n = 0)); lia|].
  rewrite Z.sub_0_r, Z.add_0_l in *. unfold offset in *. rewrite H1, Z.mul_1_r in *. rewrite int32_id by lia.
  pose proof (contents_length f Hf) as Hlen. unfold zlen in *. rewrite H1, Z.mul_1_r in Hlen.
  exists f'. assert (Z.of_nat k = Z.min n (cnt f)) as -> by lia. destruct Hs as [Hs _]. rewrite length_take. split_and!; try done; [split; [done|congruence]|lia].
Qed.

(** One round of the loop on the side of the application. *)
Lemma app_round wait fuel s f buf :
  fifo_handle (rq s) = Some f -> byte_fifo f -> c_bytes (rq s) = None -> v_bytes (rq s) = Some buf ->
  mSecs_timeout (rq s) = 0 -> 0 <= n_done (rq s) < n_todo (rq s) -> n_todo (rq s) <= zlen buf -> n_todo (rq s) < 2 ^ 31 ->
  let k := Z.to_nat (Z.min (n_todo (rq s) - n_done (rq s)) (cnt f)) in
  let v := Some (splice (Z.to_nat (n_done (rq s))) (take k (contents f)) buf) in
  exists f', byte_fifo f' /\ cnt f' = cnt f - Z.of_nat k /\ contents f' = drop k (contents f) /\
    app_fifo_loop wait (S fuel) s =
    (if Z.of_nat k =? 0 then mret 0 else app_fifo_loop wait fuel)
      (MkSt (ln s) (set_v v (n_done (rq s) + Z.of_nat k) (set_fifo (Some f') (rq s)))).
Proof.
  intros Eh Hb Ec Ev Et Hd Hn Hmax k v. pose proof (wf_cnt f (proj1 Hb)).
  destruct (fifo_take_bytes wait f (ln s) (n_todo (rq s) - n_done (rq s)) Hb ltac:(lia)) as (f' & E & Hb' & Hc' & Hct & Hz).
  fold k in E, Hc', Hct, Hz. exists f'. split_and!; try done. cbn [app_fifo_loop]. run_get. cbv zeta.
  rewrite (proj2 (Z.leb_gt _ _)) by lia. rewrite Ec, Ev, Eh, Et.
  cbn [deref]. rewrite E. unfold lift, on_rq, modify, mbind, M_bind. cbn [mbind outcome_bind].
  rewrite mem_write_ok by lia. unfold mret, M_ret. cbn [mbind outcome_bind].
  destruct (Z.eqb_spec (Z.of_nat k) 0) as [E0|E0]; [rewrite E0, Z.add_0_r; done|].
  destruct (Z.of_nat k <? 0) eqn:El; [apply Z.ltb_lt in El; lia|done].
Qed.

(** The application takes what the FIFO has, up to what it asked for, and does not
    wait when it gave no time. *)
Lemma app_read_run wait fuel s f buf :
  fifo_handle (rq s) = Some f -> byte_fifo f -> c_bytes (rq s) = None -> v_bytes (rq s) = Some buf ->
  mSecs_timeout (rq s) = 0 -> 0 <= n_todo (rq s) <= zlen buf -> n_todo (rq s) < 2 ^ 31 -> (2 <= fuel)%nat ->
  let k := Z.to_nat (Z.min (n_todo (rq s)) (cnt f)) in
  exists f', _app_fifo_rw wait fuel s =
      Ret (Z.of_nat k, MkSt (ln s) (set_v (Some (splice 0 (take k (contents f)) buf)) (Z.of_nat k) (set_fifo (Some f') (rq s)))) /\
    byte_fifo f' /\ contents f' = drop k (contents f).
Proof.
  intros Eh Hb Ec Ev Et Hn Hmax Hfuel k. destruct fuel as [|[|fuel]]; [lia|lia|]. pose proof (wf_cnt f (proj1 Hb)) as Hcnt.
  unfold _app_fifo_rw, on_rq. run_modify. set (s1 := MkSt _ _).
  assert (forall n v f', 0 <= n -> n < 2 ^ 31 ->
    (s ← get; if negb (n_done (rq s) =? 0) then mret (int32 (n_done (rq s))) else mret 0)
      (MkSt (ln s) (set_v v n (set_fifo f' (rq s)))) = Ret (n, MkSt (ln s) (set_v v n (set_fifo f' (rq s))))) as Hend.
  { intros n v f' Hn0 Hn1. run_get. cbn [rq set_v n_done]. rewrite int32_id by lia. by destruct (Z.eqb_spec n 0) as [->|]. }
  destruct (decide (n_todo (rq s) = 0)) as [Hz|Hz].
  { assert (k = 0%nat) as -> by lia. exists f. split; [|by rewrite drop_0]. 
    assert (app_fifo_loop wait (S (S fuel)) s1 = Ret (0, s1)) as E.
    { cbn [app_fifo_loop]. run_get. cbn [s1 rq set_v n_todo n_done]. by rewrite Hz. }
    run_step E. rewrite take_0, splice_nil, <- Ev, <- Eh. by destruct s as [? []]. }
  destruct (app_round wait (S fuel) s1 f buf) as (f1 & Hb1 & Hc1 & Hct1 & E1); try done; [cbn; lia|cbn; lia|].
  cbn [s1 rq set_v n_todo n_done] in E1, Hc1, Hct1. rewrite Z.sub_0_r in *. fold k in E1, Hc1, Hct1.
  destruct (Z.eqb_spec (Z.of_nat k) 0) as [E0|E0].
  { exists f1. split; [|done]. run_step E1. cbn [Z.ltb Z.compare]. apply Hend; lia. }
  set (s2 := MkSt _ _) in E1. destruct (decide (Z.of_nat k = n_todo (rq s))) as [Hk|Hk].
  - exists f1. split; [|done]. assert (app_fifo_loop wait (S fuel) s2 = Ret (0, s2)) as E2.
    { cbn [app_fifo_loop]. run_get. cbn [s2 rq set_v set_fifo n_todo n_done]. by rewrite (proj2 (Z.leb_le _ _)) by lia. }
    rewrite E2 in E1. run_step E1. cbn [Z.ltb Z.compare]. apply Hend; lia.
  - set (v := splice 0 (take k (contents f)) buf) in *.
    assert (zlen v = zlen buf) as Hv by (unfold v, zlen in *; rewrite length_splice; [done|rewrite length_take; lia]).
    destruct (app_round wait fuel s2 f1 v) as (f2 & Hb2 & _ & Hct2 & E2); try done; [cbn; lia|cbn; lia|].
    cbn [s2 rq ln set_v set_fifo n_todo n_done] in E2, Hct2. rewrite Hc1 in E2, Hct2.
    assert (Z.to_nat (Z.min (n_todo (rq s) - (0 + Z.of_nat k)) (cnt f - Z.of_nat k)) = 0%nat) as E0' by lia.
    rewrite E0' in E2, Hct2. rewrite drop_0 in Hct2. rewrite take_0, splice_nil, Z.add_0_r in E2. cbn [Z.of_nat Z.eqb] in E2.
    exists f2. split; [|by rewrite Hct2]. rewrite E2 in E1. run_step E1. cbn [Z.ltb Z.compare].
    apply (Hend (Z.of_nat k) (Some v) (Some f2)); lia.
Qed.


Lemma with_request_run {A} q (m : M st A) u a s :
  m (MkSt (u_line u) q) = Ret (a, s) ->
  with_request q m u = Ret ((a, rq s), MkUart (ln s) (u_h u) (rx_fifo u) (u_error u) (thread_state u)).
Proof. intros E. unfold with_request. by rewrite E. Qed.

(** ** The two sides of a UART *)

Section Port.
Variable wait : fifo -> line -> Z * fifo * line.
Variable fuel : nat.

(** A round of the receiving thread, or a read of the application that does not
    wait; the bytes the application gets. *)
Inductive op : Type := Round | Read (n : Z).
Definition port_op (o : op) : M linux_uart (list Z) :=
  match o with
  | Round => rx_round wait fuel;; mret []
  | Read n => '(r, b) ← _uart_rdBytes wait fuel (replicate (Z.to_nat n) 0) n 0; mret (take (Z.to_nat r) b)
  end.
Fixpoint port_run (os : list op) : M linux_uart (list Z) :=
  match os with
  | [] => mret []
  | o :: os => d ← port_op o; ds ← port_run os; mret (d ++ ds)
  end.
Definition op_ok (o : op) : Prop := match o with Round => True | Read n => 0 <= n < 2 ^ 31 end.

(** The UART has a FIFO of bytes. *)
Record port_ok (u : linux_uart) (f : fifo) : Prop := MkPort {
  po_fifo : rx_fifo u = Some f;
  po_bytes : byte_fifo f;
  po_fuel : (length (reads (u_line u)) < fuel)%nat
}.

Lemma port_ok_took u u' f f' d :
  port_ok u f -> took (u_line u) (u_line u') d -> rx_fifo u' = Some f' -> byte_fifo f' -> port_ok u' f'.
Proof.
  intros [_ _ Hf] [_ _ Hs _ _] E Hb. constructor; try done. apply suffix_length in Hs. lia.
Qed.

(** The thread lives, the line has bytes, and the FIFO has room. *)
Record ready (u : linux_uart) (f : fifo) : Prop := MkReady {
  rd_alive : thread_state u = LUTS_alive;
  rd_clean : u_error u = false;
  rd_open : 0 < u_h u;
  rd_poll : head (selects (u_line u)) = Some SelReady;
  rd_read : exists k, head (reads (u_line u)) = Some (RGet k) /\ 0 < k;
  rd_room : cnt f < fifo_depth f;
  rd_data : tape (u_line u) <> []
}.

(** What a round does. *)
Definition advanced (u : linux_uart) (f : fifo) (u' : linux_uart) : Prop :=
  exists f' d lost, port_ok u' f' /\ took (u_line u) (u_line u') (d ++ lost) /\ contents f' = contents f ++ d /\
    (lost <> [] -> RFail ∈ reads (u_line u) /\ u_error u' = true) /\
    (u_error u = true -> d = [] /\ lost = [] /\ u_error u' = true) /\ (ready u f -> d <> []).

Lemma advanced_idle u f u' :
  port_ok u f -> took (u_line u) (u_line u') [] -> rx_fifo u' = rx_fifo u -> (u_error u = true -> u_error u' = true) -> ~ ready u f ->
  advanced u f u'.
Proof.
  intros Hp Ht Erx He Hn. exists f, [], []. rewrite !app_nil_r. split_and!; try done; [|by auto].
  apply (port_ok_took u u' f f []); try done; [rewrite Erx|]; apply Hp.
Qed.

Lemma poll_ready l q :
  0 < fd q -> type q = 117 -> head (selects l) = Some SelReady ->
  exists l', POLL_readable (MkSt l q) = Ret (1, MkSt l' q) /\ took l l' [] /\ reads l' = reads l /\ tape l' = tape l.
Proof.
  intros Hfd Ht Hs. destruct l as [t se r w [|a ss] c]; cbn in Hs; [done|]. simplify_eq.
  exists (MkLine t se r w ss c). split; [|by split; [constructor|]].
  unfold POLL_readable, poll_common. run_get. cbv zeta. cbn [rq].
  rewrite Ht, (proj2 (Z.eqb_neq (fd q) 0)) by lia. by rewrite (proj2 (Z.ltb_lt 0 _)) by lia.
Qed.

(** The thread adds to the FIFO what it takes from the line, but for what comes with a
    failure. *)
Lemma round_run u f :
  port_ok u f -> exists u', rx_round wait fuel u = Ret (tt, u') /\ advanced u f u'.
Proof.
  intros Hp. pose proof Hp as [Ef Hb Hfu]. unfold rx_round. run_get.
  assert (forall u', took (u_line u) (u_line u') [] -> rx_fifo u' = rx_fifo u -> (u_error u = true -> u_error u' = true) -> ~ ready u f ->
    exists u2, Ret (tt, u') = Ret (tt, u2) /\ advanced u f u2) as Hidle.
  { intros u' Ht Erx He Hn. exists u'. split; [done|by apply advanced_idle]. }
  destruct (thread_state u) eqn:Ets; try (apply Hidle; [apply took_refl|done|done|intros [? _ _ _ _ _]; congruence]).
  destruct (u_error u) eqn:Eu; [apply Hidle; [apply took_refl|done|done|intros [_ ? _ _ _ _]; congruence]|].
  set (q := request _ _ _ _ _ _ _). destruct (poll_run (MkSt (u_line u) q)) as (r & l1 & e & E & Ht & Hr3 & He).
  cbn [ln rq q is_error is_connected request] in *.
  assert (ready u f -> r = 1 /\ reads l1 = reads (u_line u) /\ tape l1 = tape (u_line u)) as Hrdy.
  { intros [_ _ Hh Hs _ _]. destruct (poll_ready (u_line u) q Hh ltac:(done) Hs) as (l2 & E2 & _ & ? & ?).
    rewrite E2 in E. by simplify_eq. }
  pose proof (with_request_run q _ u _ _ E) as E1. run_step E1. cbn [rq ln]. set (u1 := MkUart _ _ _ _ _).
  destruct (Z.ltb_spec r 0) as [Hneg|Hneg]; cbn [orb].
  { apply Hidle; [done|done|done|]. intros [-> _]%Hrdy. lia. }
  rewrite (He Hneg). cbn [flags is_error]. destruct (Z.eqb_spec r 0) as [H0|H0].
  { apply Hidle; [done|done|done|]. intros [-> _]%Hrdy. lia. }
  set (s1 := MkSt l1 q). destruct (fd_to_fifo_run fuel s1 f) as (d & lost & l2 & f2 & e2 & c & E2 & Ht2 & Hb2 & Hc2 & Hl2 & Hprog); try done.
  { destruct Ht as [_ _ Hs _ _]. apply suffix_length in Hs. cbn. lia. }
  assert (UNIX_fdRw wait fuel s1 = Ret (if e2 then -1 else 0, MkSt l2 (flags e2 c (set_fifo (Some f2) q)))) as E3.
  { unfold UNIX_fdRw. run_get. cbv zeta. cbn [s1 rq q request fifo_handle c_bytes v_bytes rw]. rewrite Ef. cbn [Z.eqb Pos.eqb].
    unfold _fd_to_fifo. run_step E2. by destruct e2. }
  change (flags false true q) with q. pose proof (with_request_run q _ u1 _ _ E3) as E4. run_step E4. cbn [rq ln]. run_modify.
  cbn [flags set_fifo fifo_handle is_error].
  set (u2 := set_rx (Some f2) (MkUart l2 (u_h u1) (rx_fifo u1) (u_error u1) (thread_state u1))).
  exists (if e2 then set_uerr true u2 else u2). split; [by destruct e2|].
  assert (took (u_line u) l2 (d ++ lost)) as Ht3 by (by apply (took_trans _ l1 _ [])).
  exists f2, d, lost. split; [eapply port_ok_took; [done| |by destruct e2|done]; destruct e2; exact Ht3|].
  split; [destruct e2; exact Ht3|]. split; [done|]. split; [|split; [congruence|]].
  { destruct e2; [|by intros ?]. intros _. split; [|done]. destruct Ht as [_ _ [x ->] _ _]. apply elem_of_app. by right. }
  intros Hrd. destruct (Hrdy Hrd) as (_ & Er & Et).
  destruct Hrd as [_ _ _ _ (k & Hh & Hk) Hroom Hdata]. rewrite <- Er in Hh. destruct (reads l1) as [|a rs] eqn:El; [done|].
  cbn in Hh. simplify_eq. apply (Hprog k rs); try done. cbn. by rewrite Et.
Qed.

(** The application takes from the front of the FIFO. *)
Lemma read_run u f n :
  port_ok u f -> 0 <= n < 2 ^ 31 -> (2 <= fuel)%nat ->
  exists u' f', port_op (Read n) u = Ret (take (Z.to_nat n) (contents f), u') /\ port_ok u' f' /\
    u_line u' = u_line u /\ u_error u' = u_error u /\ contents f' = drop (Z.to_nat n) (contents f).
Proof.
  intros Hp Hn Hfuel. pose proof Hp as [Ef Hb Hfu]. unfold port_op, _uart_rdBytes.
  set (buf := replicate _ _). assert (length buf = Z.to_nat n) as Hbuf by apply length_replicate.
  unfold mbind at 1, M_bind at 1. run_get. set (q := request _ _ _ _ _ _ _).
  destruct (app_read_run wait fuel (MkSt (u_line u) q) f buf) as (f' & E & Hb' & Hct); try done.
  { cbn. unfold zlen. lia. } { cbn. lia. }
  cbn [ln rq q request n_todo] in E, Hct. set (k := Z.to_nat (Z.min n (cnt f))) in *.
  assert (UNIX_fdRw wait fuel (MkSt (u_line u) q) = _app_fifo_rw wait fuel (MkSt (u_line u) q)) as Eu.
  { unfold UNIX_fdRw. run_get. cbv zeta. cbn [rq q request fifo_handle c_bytes v_bytes]. by rewrite Ef. }
  rewrite <- Eu in E. pose proof (with_request_run q _ u _ _ E) as E1. run_step E1. cbn [rq ln]. run_modify.
  cbn [set_v set_fifo fifo_handle]. cbn [mbind outcome_bind].
  pose proof (contents_length f (proj1 Hb)) as Hlen. rewrite (proj2 Hb), Z.mul_1_r in Hlen. unfold zlen in Hlen.
  pose proof (wf_cnt f (proj1 Hb)).
  assert (take k (contents f) = take (Z.to_nat n) (contents f)) as Etk.
  { destruct (Z.min_spec n (cnt f)) as [[? Hm]|[? Hm]]; unfold k; rewrite Hm; [done|]. rewrite !take_ge by lia. done. }
  assert (drop k (contents f) = drop (Z.to_nat n) (contents f)) as Edk.
  { destruct (Z.min_spec n (cnt f)) as [[? Hm]|[? Hm]]; unfold k; rewrite Hm; [done|]. rewrite !drop_ge by lia. done. }
  exists (set_rx (Some f') u), f'. split; [|split; [|split; [reflexivity|split; [reflexivity|by rewrite Hct]]]].
  - transitivity (Ret (take (Z.to_nat (Z.of_nat k)) (splice 0 (take k (contents f)) buf), set_rx (Some f') u)); [reflexivity|].
    assert (k <= length (contents f))%nat by (unfold k; lia). rewrite Nat2Z.id, <- Etk. unfold splice. rewrite take_0, app_nil_l.
    rewrite take_app_le; [by rewrite take_take, Nat.min_id|rewrite length_take; lia].
  - constructor; try done.
Qed.

(** What [u] still has for the application has become what the application got, what
    [u'] still has for it, and what was lost between the FIFO and the line. *)
Definition accounted (u : linux_uart) (f : fifo) (out : list Z) (u' : linux_uart) (f' : fifo) (lost : list Z) : Prop :=
  out ++ contents f' ++ lost ++ tape (u_line u') = contents f ++ tape (u_line u) /\
  (lost <> [] -> RFail ∈ reads (u_line u) /\ u_error u' = true) /\
  reads (u_line u') `suffix_of` reads (u_line u) /\
  (u_error u = true -> out ++ contents f' = contents f /\ tape (u_line u') = tape (u_line u) /\ u_error u' = true).

Lemma port_op_run o u f :
  port_ok u f -> op_ok o -> (2 <= fuel)%nat ->
  exists out u' f' lost, port_op o u = Ret (out, u') /\ port_ok u' f' /\ accounted u f out u' f' lost.
Proof.
  intros Hp Ho Hfuel. destruct o as [|n].
  - destruct (round_run u f Hp) as (u' & E & f' & d & lost & Hp' & [Ht _ Hs _ _] & Hc & Hl & He & _). exists [], u', f', lost.
    split; [cbn [port_op]; by run_step E|]. split; [done|]. split_and!; try done.
    + cbn [app]. by rewrite Hc, <- app_assoc, <- Ht, <- app_assoc.
    + intros Eu. destruct (He Eu) as (-> & -> & ?). cbn [app] in *. by rewrite Hc, app_nil_r.
  - destruct (read_run u f n Hp Ho Hfuel) as (u' & f' & E & Hp' & El & Ee & Hc). eexists _, u', f', []. split; [exact E|].
    split; [done|]. unfold accounted. rewrite El, Ee, Hc. split_and!; try done; [by rewrite app_assoc, take_drop|].
    intros Eu. by rewrite take_drop.
Qed.

Lemma port_run_run os : forall u f,
  port_ok u f -> Forall op_ok os -> (2 <= fuel)%nat ->
  exists out u' f' lost, port_run os u = Ret (out, u') /\ port_ok u' f' /\ accounted u f out u' f' lost.
Proof.
  induction os as [|o os IH]; intros u f Hp Hos Hfuel.
  { exists [], u, f, []. split; [done|]. split; [done|]. by split_and!. }
  apply Forall_cons in Hos as [Ho Hos].
  destruct (port_op_run o u f Hp Ho Hfuel) as (d1 & u1 & f1 & l1 & E1 & Hp1 & H1 & L1 & S1 & D1).
  destruct (IH u1 f1 Hp1 Hos Hfuel) as (d2 & u2 & f2 & l2 & E2 & Hp2 & H2 & L2 & S2 & D2).
  assert (port_run (o :: os) u = Ret (d1 ++ d2, u2)) as E by (cbn [port_run]; run_step E1; by run_step E2).
  assert (u_error u = true -> (d1 ++ d2) ++ contents f2 = contents f /\ tape (u_line u2) = tape (u_line u) /\ u_error u2 = true) as D.
  { intros Eu. destruct (D1 Eu) as (<- & <- & Eu1). destruct (D2 Eu1) as (<- & <- & Eu2). by rewrite <- app_assoc. }
  assert (reads (u_line u2) `suffix_of` reads (u_line u)) as S by (by etrans).
  destruct (decide (l1 = [])) as [->|Hne].
  - exists (d1 ++ d2), u2, f2, l2. split; [done|]. split; [done|]. split_and!; try done.
    + by rewrite <- app_assoc, H2.
    + intros Hl. destruct (L2 Hl) as [Hin ?]. split; [|done]. destruct S1 as [x ->]. apply elem_of_app. by right.
  - destruct (L1 Hne) as [Hin Eu1]. destruct (D2 Eu1) as (Hc & Ht & Eu2).
    exists (d1 ++ d2), u2, f2, l1. split; [done|]. split; [done|]. split_and!; try done.
    by rewrite <- H1, <- Hc, Ht, <- !app_assoc.
Qed.

(** C20: The bytes of a UART reach the application in order, and complete unless the
    device fails: however whole rounds of the receiving thread and whole reads of the
    application that do not wait follow each other, however many bytes each call of
    [read] yields, and wherever the FIFO wraps or fills up, what the application got,
    followed by what is in the FIFO, what was lost and what is still on the line, is
    what was in the FIFO and on the line at the beginning; every call returns.  Bytes
    are lost only if a [read] of the device failed, and then in one piece: the bytes
    that arrived with the failure, of which the thread dies. *)
Theorem uart_in_order os u f :
  port_ok u f -> Forall op_ok os -> (2 <= fuel)%nat ->
  exists out u' f' lost, port_run os u = Ret (out, u') /\ rx_fifo u' = Some f' /\ byte_fifo f' /\
    out ++ contents f' ++ lost ++ tape (u_line u') = contents f ++ tape (u_line u) /\
    (lost <> [] -> RFail ∈ reads (u_line u) /\ u_error u' = true).
Proof.
  intros Hp Hos Hfuel. destruct (port_run_run os u f Hp Hos Hfuel) as (out & u' & f' & lost & E & [Ef Hb _] & H & Hl & _).
  by exists out, u', f', lost.
Qed.

(** A round moves bytes whenever there are some and the FIFO has room. *)
Theorem uart_round_progress u f :
  port_ok u f -> ready u f ->
  exists u' f' d, rx_round wait fuel u = Ret (tt, u') /\ rx_fifo u' = Some f' /\ contents f' = contents f ++ d /\ d <> [].
Proof.
  intros Hp Hr. destruct (round_run u f Hp) as (u' & E & f' & d & lost & [Ef _ _] & _ & Hc & _ & _ & Hd). exists u', f', d. auto.
Qed.

End Port.

(** ** Writing *)

(** What a write does to a line: a front of [d] of [r] bytes was sent. *)
Record gave (l l' : line) (d : list Z) (r : Z) : Prop := MkGave {
  gv_len : 0 <= r <= zlen d;
  gv_sent : sent l' = sent l ++ take (Z.to_nat r) d;
  gv_tape : tape l' = tape l;
  gv_writes : writes l' `suffix_of` writes l
}.

Lemma gave_nothing l l' d : sent l' = sent l -> tape l' = tape l -> writes l' `suffix_of` writes l -> gave l l' d 0.
Proof. intros Hs Ht Hw. pose proof (zlen_nonneg d). constructor; [lia|by rewrite take_0, app_nil_r|done|done]. Qed.

(** In a write the probe for a dead descriptor takes no data. *)
Lemma dead_write_run n s :
  rw (rq s) = 119 ->
  exists b d l', is_handle_dead n s = Ret ((b, d), MkSt l' (rq s)) /\ gave (ln s) l' [] 0.
Proof.
  intros Hrw. unfold is_handle_dead. run_get. cbv zeta. destruct (negb _).
  { exists false, [], (ln s). split; [by destruct s|by apply gave_nothing]. }
  destruct (poll_run s) as (r & l1 & e & E & [Ht Hs _ Hw _] & _ & _). run_step E. run_modify. cbn [ln app] in *.
  assert (gave (ln s) l1 [] 0) as Hg by (apply gave_nothing; [done|done|by rewrite Hw]).
  destruct (r =? 0); [by exists false, [], l1|]. rewrite Hrw. cbn [Z.eqb Pos.eqb].
  unfold sys_read_null, mbind, M_bind. cbn [ln rq]. destruct (reads l1) as [|a rs]; cbn [mbind outcome_bind].
  { by exists true, [], l1. }
  destruct Hg as [_ Hgs Hgt Hgw]. rewrite app_nil_r in Hgs.
  destruct a; (eexists _, _, _; split; [reflexivity|by apply gave_nothing]).
Qed.

(** A device that takes at least one byte of each write, or asks to try again. *)
Definition willing (a : wr_answer) : Prop := match a with WTook k => 0 < k | WAgain => True | WFail => False end.

Lemma sys_write_run d s :
  exists r l', sys_write d s = Ret (r, MkSt l' (rq s)) /\
    gave (ln s) l' d (match r with inl k => k | inr _ => 0 end) /\
    match r with
    | inl k => Forall willing (writes (ln s)) -> d <> [] -> 0 < k
    | inr true => (length (writes l') < length (writes (ln s)))%nat
    | inr false => WFail ∈ writes (ln s)
    end.
Proof.
  unfold sys_write. cbv zeta. pose proof (zlen_nonneg d) as Hd. destruct (writes (ln s)) as [|a ws] eqn:Ew.
  { eexists _, _. split; [reflexivity|]. split; [|intros _ Hne; destruct d; [done|unfold zlen; cbn [length]; lia]].
    constructor; cbn; try done; [lia| |by rewrite Ew]. by rewrite Z.min_id, Z2Nat.id by done. }
  eexists _, _. split; [reflexivity|]. assert (ws `suffix_of` writes (ln s)) as Hs by (rewrite Ew; by apply suffix_cons_r).
  destruct a as [k| |]; split; cbn [writes].
  - constructor; cbn; try done; [lia|]. by rewrite Nat2Z.id.
  - intros [Hk _]%Forall_cons Hne. cbn in Hk. destruct d; [done|]. unfold zlen. cbn [length]. lia.
  - apply gave_nothing; cbn; [by rewrite take_0, app_nil_r|done|done].
  - cbn. lia.
  - apply gave_nothing; cbn; [by rewrite take_0, app_nil_r|done|done].
  - by left.
Qed.

Lemma gave_after l l1 l2 d r : gave l l1 [] 0 -> gave l1 l2 d r -> gave l l2 d r.
Proof.
  intros [_ S1 T1 W1] [Hr S2 T2 W2]. rewrite app_nil_r in S1. constructor; [done|congruence|congruence|by etrans].
Qed.

Lemma gave_zero l l' d d' : gave l l' d 0 -> gave l l' d' 0.
Proof. intros [_ S T W]. rewrite take_0, app_nil_r in S. by apply gave_nothing. Qed.

Lemma gave_app l l1 l2 d r r2 :
  gave l l1 d r -> gave l1 l2 (drop (Z.to_nat r) d) r2 -> gave l l2 d (r + r2).
Proof.
  intros [Hr S1 T1 W1] [Hr2 S2 T2 W2]. unfold zlen in *. rewrite length_drop in Hr2. constructor; [unfold zlen; lia| |congruence|by etrans].
  rewrite S2, S1, <- app_assoc, take_take_drop. do 2 f_equal. lia.
Qed.

Lemma wr_this_run d s :
  rw (rq s) = 119 ->
  exists r l' e c, wr_this d s = Ret (r, MkSt l' (flags e c (rq s))) /\ gave (ln s) l' d r /\
    (0 < r -> e = is_error (rq s) /\ c = is_connected (rq s)) /\ (WFail ∉ writes (ln s) -> e = is_error (rq s)) /\
    (Forall willing (writes (ln s)) -> d <> [] -> 0 < r).
Proof.
  intros Hrw. unfold wr_this. run_get.
  assert (forall fuel s1, gave (ln s) (ln s1) [] 0 -> rq s1 = rq s -> (length (writes (ln s1)) < fuel)%nat ->
    exists r l' e c, UNIX_fdWrThis fuel d s1 = Ret (r, MkSt l' (flags e c (rq s))) /\ gave (ln s) l' d r /\
    (0 < r -> e = is_error (rq s) /\ c = is_connected (rq s)) /\ (WFail ∉ writes (ln s) -> e = is_error (rq s)) /\
    (Forall willing (writes (ln s)) -> d <> [] -> 0 < r)) as Hgo.
  2: { apply Hgo; [by apply gave_nothing|done|lia]. }
  induction fuel as [|fuel IH]; intros s1 Hg Hq Hf; [lia|]. cbn [UNIX_fdWrThis].
  assert (Forall willing (writes (ln s)) -> Forall willing (writes (ln s1))) as Hwill.
  { destruct Hg as [_ _ _ [x ->]]. by intros [_ ?]%Forall_app. }
  destruct (sys_write_run d s1) as (r & l2 & E & G & Hr). run_step E. rewrite Hq in *.
  pose proof (gave_after _ _ _ _ _ Hg G) as G2. destruct r as [k|[]].
  - destruct (Z.ltb_spec 0 k) as [Hk|Hk].
    { exists k, l2, (is_error (rq s)), (is_connected (rq s)). rewrite flags_same. by split_and!. }
    destruct (dead_write_run (zlen d) (MkSt l2 (rq s)) Hrw) as (dead & x & l3 & Ed & G3). run_step Ed. cbn [ln rq] in *.
    assert (k = 0) as -> by (destruct G; lia). apply (gave_zero _ _ _ []) in G2. apply (gave_zero _ _ _ d) in G3.
    exists 0, l3, (is_error (rq s)), (if dead then false else is_connected (rq s)). split; [|split; [by eapply gave_after|split; [lia|split; [done|by auto]]]].
    destruct dead; [done|]. by rewrite flags_same.
  - apply IH; [by apply (gave_zero _ _ d)|done|cbn [ln]; lia].
  - exists 0, l2, true, (is_connected (rq s)). split; [done|]. split; [done|]. split; [lia|]. split.
    + intros Hno. exfalso. apply Hno. destruct Hg as [_ _ _ [x Hx]]. rewrite Hx. apply elem_of_app. by right.
    + intros Hw _. apply Hwill in Hw. rewrite Forall_forall in Hw. by specialize (Hw _ Hr).
Qed.

(** One round of the loop of a write without a time-out. *)
Lemma simple_write_round fuel s d r l e c :
  rw (rq s) = 119 -> c_bytes (rq s) = Some d -> n_todo (rq s) = zlen d -> mSecs_timeout (rq s) = 0 -> 0 <= n_done (rq s) < zlen d ->
  wr_this (drop (Z.to_nat (n_done (rq s))) d) s = Ret (r, MkSt l (flags e c (rq s))) ->
  let s2 := MkSt l (flags e c (set_v (v_bytes (rq s)) (n_done (rq s) + r) (rq s))) in
  simple_loop (S fuel) s =
    if c && negb e then (if r =? 0 then Ret (tt, s2) else simple_loop fuel s2) else Ret (tt, MkSt l (flags e c (rq s))).
Proof.
  intros Hrw Ec En Et Hd E s2. cbn [simple_loop]. run_get. cbv zeta. rewrite (proj2 (Z.leb_gt _ _)) by lia.
  rewrite Hrw. cbn [Z.eqb Pos.eqb]. rewrite Ec. set (rest := drop _ d) in *.
  assert (mem_read d (n_done (rq s)) (n_todo (rq s) - n_done (rq s)) = Ret rest) as Er.
  { rewrite mem_read_ok by lia. unfold slice, rest. rewrite take_ge; [done|]. rewrite length_drop. unfold zlen in *. lia. }
  set (s1 := MkSt l (flags e c (rq s))) in *. set (piece := (lift (deref (Some d)) ≫= _ : M st (option Z))).
  assert (piece s = Ret (Some r, s1)) as E0.
  { unfold piece. assert (lift (deref (Some d)) s = Ret (d, s)) as E1 by done. run_step E1.
    assert (forall n, n = Ret rest -> lift n s = Ret (rest, s)) as E2 by (by intros n ->). rewrite Er.
    run_step (E2 _ eq_refl). by run_step E. }
  run_step E0. clear E0 piece. assert (go_on s1 = Ret (c && negb e, s1)) as E1 by done. run_step E1.
  destruct (c && negb e); cbn [negb]; [|done]. unfold on_rq. run_modify. change (MkSt _ _) with s2. rewrite Et. cbn [Z.ltb Z.compare].
  destruct (r =? 0); [|done].
  assert (expired s2 = Ret (true, s2)) as E2 by (unfold expired; cbn [s2 rq set_v flags mSecs_timeout]; by rewrite Et).
  by run_step E2.
Qed.

(** The loop of a write without a time-out: it stops when everything is written,
    when nothing could be written, or on an error. *)
Lemma simple_write_run fuel : forall s d,
  rw (rq s) = 119 -> c_bytes (rq s) = Some d -> n_todo (rq s) = zlen d -> mSecs_timeout (rq s) = 0 ->
  is_error (rq s) = false -> is_connected (rq s) = true -> 0 <= n_done (rq s) <= zlen d ->
  (Z.to_nat (zlen d - n_done (rq s)) < fuel)%nat ->
  exists r l' e c, simple_loop fuel s = Ret (tt, MkSt l' (flags e c (set_v (v_bytes (rq s)) (n_done (rq s) + r) (rq s)))) /\
    gave (ln s) l' (drop (Z.to_nat (n_done (rq s))) d) r /\ (WFail ∉ writes (ln s) -> e = false) /\
    (Forall willing (writes (ln s)) -> n_done (rq s) + r = zlen d).
Proof.
  induction fuel as [|fuel IH]; intros s d Hrw Ec En Et He Hcn Hd Hf; [lia|].
  destruct (Z.leb_spec (n_todo (rq s)) (n_done (rq s))) as [Hle|Hle].
  { exists 0, (ln s), false, true. rewrite Z.add_0_r. split; [|split; [by apply gave_nothing|split; [done|lia]]].
    cbn [simple_loop]. run_get. cbv zeta. rewrite (proj2 (Z.leb_le _ _)) by lia. rewrite <- He, <- Hcn. by destruct s as [? []]. }
  set (rest := drop (Z.to_nat (n_done (rq s))) d).
  assert (zlen rest = zlen d - n_done (rq s)) as Hrest by (unfold rest, zlen in *; rewrite length_drop; lia).
  assert (rest <> []) as Hne by (intros Hn; rewrite Hn in Hrest; change (zlen []) with 0 in Hrest; lia).
  destruct (wr_this_run rest s Hrw) as (r & l1 & e & c & E & G & Hok & Hok2 & Hfull). rewrite He in Hok2.
  pose proof (simple_write_round fuel s d r l1 e c Hrw Ec En Et ltac:(lia) E) as Eround. cbv zeta in Eround.
  destruct (c && negb e) eqn:Eok.
  2: { exists 0, l1, e, c. assert (r = 0) as ->.
       { destruct (decide (0 < r)) as [Hpos|]; [|destruct G; lia]. destruct (Hok Hpos) as [-> ->]. by rewrite He, Hcn in Eok. }
       rewrite Z.add_0_r, Eround. split; [by destruct s as [? []]|]. split; [done|]. split; [exact Hok2|].
       intros Hw. specialize (Hfull Hw Hne). lia. }
  apply andb_true_iff in Eok as [-> Ee]. apply negb_true_iff in Ee as ->.
  destruct (Z.eqb_spec r 0) as [->|Hr0].
  { exists 0, l1, false, true. split; [done|]. split; [done|]. split; [done|]. intros Hw. specialize (Hfull Hw Hne). lia. }
  set (s2 := MkSt _ _) in Eround. destruct (IH s2 d) as (r2 & l2 & e2 & c2 & E2 & G2 & Hok3 & Hfull3); try done.
  { cbn. destruct G. lia. } { cbn. destruct G. lia. }
  cbn [s2 rq ln set_v flags n_done v_bytes] in E2, G2, Hok3, Hfull3.
  exists (r + r2), l2, e2, c2. split; [rewrite Eround, E2; by rewrite Z.add_assoc|]. split.
  - apply (gave_app _ l1); [done|]. unfold rest. rewrite drop_drop. destruct G. rewrite Z2Nat.inj_add in G2 by lia. exact G2.
  - destruct G as [_ _ _ [x Hx]]. split.
    + intros Hno. apply Hok3. intros Hin. apply Hno. rewrite Hx. apply elem_of_app. by right.
    + rewrite Hx. intros [_ Hw]%Forall_app. specialize (Hfull3 Hw). lia.
Qed.

(** The request of a UART has run when its loop has. *)
Lemma simple_request fuel d u r l e c :
  0 <= r < 2 ^ 31 ->
  let q := request u 119 None (Some d) None (zlen d) 0 in
  simple_loop fuel (MkSt (u_line u) q) = Ret (tt, MkSt l (flags e c (set_v None r q))) ->
  with_request q (UNIX_fdRw quiet fuel) u =
    Ret ((if e && (r =? 0) then -1 else r, flags e c (set_v None r q)), MkUart l (u_h u) (rx_fifo u) (u_error u) (thread_state u)).
Proof.
  intros Hr q E.
  assert (UNIX_fdRw quiet fuel (MkSt (u_line u) q) = Ret (if e && (r =? 0) then -1 else r, MkSt l (flags e c (set_v None r q)))) as E1.
  { unfold UNIX_fdRw. run_get. cbv zeta. cbn [rq q request fifo_handle].
    unfold _simple_rw, on_rq. run_modify. cbn [rq]. change (MkSt _ (set_v _ 0 _)) with (MkSt (u_line u) q). run_step E.
    unfold thread_result. run_get. cbn [rq flags set_v is_error n_done]. by rewrite int32_id by lia. }
  exact (with_request_run q _ u _ _ E1).
Qed.

(** A write of a whole request to the UART. *)
Lemma write_run fuel d u :
  zlen d < 2 ^ 31 -> (length d < fuel)%nat ->
  exists r l e c,
    with_request (request u 119 None (Some d) None (zlen d) 0) (UNIX_fdRw quiet fuel) u =
      Ret ((if e && (r =? 0) then -1 else r, flags e c (set_v None r (request u 119 None (Some d) None (zlen d) 0))),
           MkUart l (u_h u) (rx_fifo u) (u_error u) (thread_state u)) /\
    gave (u_line u) l d r /\ (WFail ∉ writes (u_line u) -> e = false) /\ (Forall willing (writes (u_line u)) -> r = zlen d).
Proof.
  intros Hd Hfuel. set (q := request _ _ _ _ _ _ _).
  destruct (simple_write_run fuel (MkSt (u_line u) q) d) as (r & l & e & c & E & G & Hok & Hfull); try done.
  { cbn. pose proof (zlen_nonneg d). lia. } { cbn. unfold zlen in *. lia. }
  cbn [rq ln q request n_done v_bytes] in E, G, Hok, Hfull. change (drop (Z.to_nat 0) d) with d in G. rewrite Z.add_0_l in E.
  pose proof (gv_len _ _ _ _ G) as Hr. exists r, l, e, c. split; [apply simple_request; [lia|exact E]|]. by split.
Qed.

Lemma check_run q u :
  uart_disconnect_check q u = Ret (tt, if is_error q || negb (is_connected q) then set_uerr true u else u).
Proof. unfold uart_disconnect_check. by destruct (_ || _). Qed.

(** Writing to a UART sends a front of the data and reports its length: the call
    returns whatever the device answers, the bytes sent are the first ones, in
    order, as many as the result says, nothing that has arrived is taken, and the
    result is -1 only when the device failed before a byte was sent; a device that
    takes something of every write gets everything. *)
Theorem uart_write fuel d u :
  zlen d < 2 ^ 31 -> (length d < fuel)%nat ->
  exists r u', _uart_wrBytes fuel d u = Ret (r, u') /\ -1 <= r <= zlen d /\
    sent (u_line u') = sent (u_line u) ++ take (Z.to_nat r) d /\ tape (u_line u') = tape (u_line u) /\
    rx_fifo u' = rx_fifo u /\ (r = -1 -> WFail ∈ writes (u_line u) /\ u_error u' = true) /\
    (Forall willing (writes (u_line u)) -> d <> [] -> r = zlen d).
Proof.
  intros Hd Hfuel. destruct (write_run fuel d u Hd Hfuel) as (r & l & e & c & E & [Hr Gs Gt _] & Hok & Hfull).
  unfold _uart_wrBytes. run_get. run_step E. erewrite M_bind_Ret by apply check_run. cbn [flags set_v is_error is_connected].
  eexists _, _. split; [reflexivity|]. split; [destruct (e && (r =? 0)); lia|].
  split; [|split; [|split; [by destruct (e || negb c)|split]]].
  - destruct e; cbn [andb orb]; [|by destruct (negb c)]. destruct (Z.eqb_spec r 0) as [->|]; done.
  - by destruct (e || negb c).
  - destruct e; cbn [andb orb]; [|lia]. intros _. split; [|done]. apply dec_stable. intros Hno. by specialize (Hok Hno).
  - intros Hw Hne. specialize (Hfull Hw). subst r. rewrite (proj2 (Z.eqb_neq _ 0)), andb_false_r; [done|].
    destruct d; [done|]. unfold zlen. cbn [length]. lia.
Qed.

Definition ring : fifo := MkFifo true [0; 0; 0] 1 3 0 0 0 false (Some 0) (Some 0).
Definition demo_uart : linux_uart :=
  MkUart (MkLine [65; 66; 67; 68; 69] [] [RGet 2; RAgain; RGet 9; RGet 1; RGet 9] [] [SelReady; SelIdle; SelReady] [])
    5 (Some ring) false LUTS_alive.
Definition demo_port : list op := [Round; Round; Read 2; Round; Read 9].

Lemma demo_port_ok : port_ok 6 demo_uart ring.
Proof.
  constructor; [done|split; [by constructor|done]|cbn; lia].
Qed.

Lemma uart_in_order_witness :
  match port_run quiet 6 demo_port demo_uart with
  | Ret (out, u) => out = [65; 66; 67; 68; 69] | _ => False end /\
  exists out u' f' lost, port_run quiet 6 demo_port demo_uart = Ret (out, u') /\ rx_fifo u' = Some f' /\ byte_fifo f' /\
    out ++ contents f' ++ lost ++ tape (u_line u') = contents ring ++ tape (u_line demo_uart) /\
    (lost <> [] -> RFail ∈ reads (u_line demo_uart) /\ u_error u' = true).
Proof.
  split; [vm_compute; reflexivity|]. apply (uart_in_order quiet 6 demo_port demo_uart ring); [exact demo_port_ok| |lia].
  repeat constructor; cbn; lia.
Defined.

Lemma uart_round_progress_witness :
  exists u' f' d, rx_round quiet 6 demo_uart = Ret (tt, u') /\ rx_fifo u' = Some f' /\ contents f' = contents ring ++ d /\ d <> [].
Proof.
  apply uart_round_progress; [exact demo_port_ok|]. constructor; try done. exists 2. done.
Defined.

Definition slow_uart : linux_uart :=
  MkUart (MkLine [7] [1] [] [WTook 2; WAgain; WTook 1; WFail] [] []) 5 None false LUTS_alive.

Lemma uart_write_witness :
  zlen [10; 11; 12; 13] < 2 ^ 31 /\
  exists r u', _uart_wrBytes 5 [10; 11; 12; 13] slow_uart = Ret (r, u') /\ -1 <= r <= zlen [10; 11; 12; 13] /\
    sent (u_line u') = sent (u_line slow_uart) ++ take (Z.to_nat r) [10; 11; 12; 13] /\
    tape (u_line u') = tape (u_line slow_uart) /\ rx_fifo u' = rx_fifo slow_uart /\
    (r = -1 -> WFail ∈ writes (u_line slow_uart) /\ u_error u' = true) /\
    (Forall willing (writes (u_line slow_uart)) -> [10; 11; 12; 13] <> [] -> r = zlen [10; 11; 12; 13]).
Proof. split; [vm_compute; reflexivity|]. apply (uart_write 5 [10; 11; 12; 13] slow_uart); [vm_compute; reflexivity|cbn; lia]. Defined.

(** Three of the four bytes were sent when the device failed: the result is 3. *)
Example slow_uart_runs :
  match _uart_wrBytes 5 [10; 11; 12; 13] slow_uart with
  | Ret (r, u) => r = 3 /\ sent (u_line u) = [1; 10; 11; 12] /\ u_error u = true | _ => False end.
Proof. vm_compute. auto. Qed.

(** A failure of the device: the probe for a dead descriptor reads what has arrived,
    and the bytes are neither in the FIFO nor on the line any more. *)
Example failure_loses_bytes :
  match port_run quiet 6 [Round; Read 9] (MkUart (MkLine [65; 66] [] [RFail; RGet 9] [] [SelReady; SelReady] []) 5 (Some ring) false LUTS_alive) with
  | Ret (out, u) => out = [] /\ tape (u_line u) = [] /\ u_error u = true | _ => False end.
Proof. vm_compute. auto. Qed.

End FdRw.
