(* ===== verification/UartNli.v ===== *)
(** * The UART with HDLC frames (linux_uart.c built with NPI_USE_NLI)

    In this build a write adds the NLI byte, encodes the frame and sends it, and a
    read pulls one frame from the descriptor and drops the NLI byte.  The state and
    the transfers are those of FdRw.v, the frames those of Hdlc.v.  The answers of
    the allocators are arguments. *)

From Stdlib Require Import ZArith Lia.
From stdpp Require Import base option numbers list.
From S2P Require Import Prelude Hdlc Fifo FdRw.

Open Scope Z_scope.

Module UartNli.
Import Hdlc FdRw.

(** The length is cut to 16 bits when it is passed to [add_NLI_byte]; the local
    length variable is not initialised, and is not used when nothing was encoded. *)
Definition _uart_wrBytes_nli (malloc1 malloc2 malloc3 : bool) (fuel : nat) (d : list Z) : M linux_uart Z :=
  u ← get;
  '(nliBuffer, _) ← lift (add_NLI_byte malloc1 (take (Z.to_nat (u16 (zlen d))) d) 1 0);
  match nliBuffer with
  | None => mret (zlen d)
  | Some nliBuffer =>
      '(encodedBuffer, encodedBufferLen) ← lift (hdlc_encode malloc2 malloc3 true nliBuffer);
      match encodedBuffer with
      | None => mret (zlen d)
      | Some e =>
          '(r, q) ← with_request (request u 119 None (Some e) None encodedBufferLen 0) (UNIX_fdRw quiet fuel);
          uart_disconnect_check q;;
          mret (if r =? encodedBufferLen then zlen d else r)
      end
  end.

(** [avail] is the answer of [_uart_pollRxAvail], [wire] what the descriptor yields
    byte by byte; the size of the buffer is not looked at.  The result, the buffer,
    and what is left on the descriptor. *)
Definition _uart_rdBytes_nli (avail malloc1 malloc2 : bool) (databytes wire : list Z) : outcome (Z * list Z * list Z) :=
  if avail then
    '(decodedBytes, r, rest) ← pull_hdlc malloc1 malloc2 wire;
    match decodedBytes with
    | Some b => databytes ← mem_write databytes 0 (drop 1 b); Ret (r - 1, databytes, rest)
    | None => Ret (0, databytes, rest)
    end
  else Ret (0, databytes, wire).

(** ** What is sent for a message *)

Definition nli : Z := u8 (Z.lor NLI_FLAG_FIELD (Z.shiftl 1 4)).
Definition wire_of (d : list Z) : list Z := frame_of (sealed (nli :: d)).
Definition sendable (d : list Z) : Prop := 1 <= zlen d <= 2044.

Lemma zlen_wire d : sendable d -> 5 + zlen d <= zlen (wire_of d) <= 4096.
Proof.
  unfold sendable, wire_of. intros Hd. pose proof (zlen_escaped (sealed (nli :: d))) as He.
  rewrite zlen_sealed in He. unfold zlen in He at 1 4. rewrite zlen_frame. unfold zlen in *. cbn [length] in *. lia.
Qed.

(** The frame is built, and the request runs on it, when it fits the buffer it is
    built in. *)
Lemma nli_write_any fuel d u :
  1 <= zlen d < 2 ^ 16 - 1 ->
  _uart_wrBytes_nli true true true fuel d u =
  if zlen (wire_of d) <=? 4096 then
    ('(r, q) ← with_request (request u 119 None (Some (wire_of d)) None (zlen (wire_of d)) 0) (UNIX_fdRw quiet fuel);
     uart_disconnect_check q;;
     mret (if r =? zlen (wire_of d) then zlen d else r)) u
  else Undef OutOfBounds.
Proof.
  intros Hd. unfold _uart_wrBytes_nli. run_get.
  assert (u16 (zlen d) = zlen d) as -> by (unfold u16; rewrite Z.mod_small; lia).
  assert (take (Z.to_nat (zlen d)) d = d) as -> by (apply take_ge; unfold zlen; lia).
  assert (add_NLI_byte true d 1 0 = Ret (Some (nli :: d), zlen d + 1)) as E1.
  { unfold add_NLI_byte. assert (u16 (zlen d + 1) = zlen d + 1) as -> by (unfold u16; rewrite Z.mod_small; lia).
    rewrite (proj2 (Z.ltb_lt _ _)), Z.leb_refl by lia. done. }
  assert (forall {A} (a : A), lift (Ret a) u = Ret (a, u)) as El by done.
  rewrite E1. run_step (El _ (Some (nli :: d), zlen d + 1)).
  rewrite (proj1 (hdlc_encode_exact true (nli :: d) ltac:(unfold zlen; cbn [length]; lia))).
  change (frame_of (sealed (data_of true (nli :: d)))) with (wire_of d). destruct (zlen (wire_of d) <=? 4096); [|done].
  by run_step (El _ (Some (wire_of d), zlen (wire_of d))).
Qed.

Lemma nli_write_eq fuel d u :
  sendable d ->
  _uart_wrBytes_nli true true true fuel d u =
  ('(r, q) ← with_request (request u 119 None (Some (wire_of d)) None (zlen (wire_of d)) 0) (UNIX_fdRw quiet fuel);
   uart_disconnect_check q;;
   mret (if r =? zlen (wire_of d) then zlen d else r)) u.
Proof.
  intros Hd. pose proof (zlen_wire d Hd). unfold sendable in Hd. rewrite nli_write_any by lia. by rewrite (proj2 (Z.leb_le _ _)) by lia.
Qed.

(** A device that takes something of every write gets the whole frame. *)
Lemma nli_write_run fuel d u :
  1 <= zlen d < 2 ^ 16 - 1 -> zlen (wire_of d) <= 4096 -> Forall willing (writes (u_line u)) -> (4096 < fuel)%nat ->
  exists u', _uart_wrBytes_nli true true true fuel d u = Ret (zlen d, u') /\ sent (u_line u') = sent (u_line u) ++ wire_of d /\
    Forall willing (writes (u_line u')).
Proof.
  intros Hd Hz Hw Hf. assert (1 <= zlen (wire_of d)) as H1 by (unfold wire_of; rewrite zlen_frame; unfold zlen; lia).
  destruct (write_run fuel (wire_of d) u) as (r & l & e & c & E & [Hr Gs _ [x Hx]] & Hok & Hfull); [lia|unfold zlen in *; lia|].
  specialize (Hfull Hw). subst r. rewrite nli_write_any, (proj2 (Z.leb_le _ _)) by lia. run_step E. erewrite M_bind_Ret by apply check_run.
  rewrite (proj2 (Z.eqb_neq (zlen (wire_of d)) 0)) by lia. rewrite andb_false_r, Z.eqb_refl. eexists. split; [reflexivity|].
  assert (u_line (if is_error (flags e c (set_v None (zlen (wire_of d)) (request u 119 None (Some (wire_of d)) None (zlen (wire_of d)) 0))) ||
      negb (is_connected (flags e c (set_v None (zlen (wire_of d)) (request u 119 None (Some (wire_of d)) None (zlen (wire_of d)) 0))))
    then set_uerr true (MkUart l (u_h u) (rx_fifo u) (u_error u) (thread_state u)) else MkUart l (u_h u) (rx_fifo u) (u_error u) (thread_state u)) = l) as ->
    by (by destruct (_ || _)).
  split; [rewrite Gs; unfold zlen; by rewrite Nat2Z.id, firstn_all|]. rewrite Hx in Hw. by apply Forall_app in Hw as [_ ?].
Qed.

(** ** The link *)

(** Send messages one after the other. *)
Fixpoint nli_send (fuel : nat) (ds : list (list Z)) : M linux_uart (list Z) :=
  match ds with
  | [] => mret []
  | d :: ds => r ← _uart_wrBytes_nli true true true fuel d; rs ← nli_send fuel ds; mret (r :: rs)
  end.

(** Read so many messages into buffers of [size] bytes. *)
Fixpoint nli_recv (size : nat) (n : nat) (wire : list Z) : outcome (list (list Z) * list Z) :=
  match n with
  | O => Ret ([], wire)
  | S n =>
      '(r, buf, wire) ← _uart_rdBytes_nli true true true (replicate size 0) wire;
      '(ms, wire) ← nli_recv size n wire;
      Ret (take (Z.to_nat r) buf :: ms, wire)
  end.

Lemma nli_send_run fuel ds : forall u,
  Forall sendable ds -> Forall willing (writes (u_line u)) -> (4096 < fuel)%nat ->
  exists u', nli_send fuel ds u = Ret (map zlen ds, u') /\ sent (u_line u') = sent (u_line u) ++ concat (map wire_of ds).
Proof.
  induction ds as [|d ds IH]; intros u Hs Hw Hf; [exists u; by rewrite app_nil_r|]. apply Forall_cons in Hs as [Hd Hs].
  pose proof (zlen_wire d Hd) as Hz. cbn [nli_send].
  destruct (nli_write_run fuel d u) as (u1 & E1 & Gs & Hw1); [unfold sendable in Hd; lia|lia|done|done|].
  run_step E1. destruct (IH u1) as (u2 & E2 & H2); [done..|]. run_step E2. exists u2. split; [done|]. rewrite H2, Gs. cbn [map concat].
  by rewrite app_assoc.
Qed.

Lemma nli_recv_run size ds rest :
  Forall sendable ds -> (2044 <= size)%nat ->
  nli_recv size (length ds) (concat (map wire_of ds) ++ rest) = Ret (ds, rest).
Proof.
  intros Hs Hsize. induction Hs as [|d ds Hd Hs IH]; [done|]. cbn [length nli_recv map concat]. rewrite <- app_assoc.
  unfold _uart_rdBytes_nli. unfold sendable in Hd. change (wire_of d) with (frame_of (sealed (nli :: d))).
  rewrite pull_wire by (unfold zlen in *; cbn [length]; lia). cbn [mbind outcome_bind].
  change (drop 1 (nli :: d)) with d.
  rewrite mem_write_ok by (unfold zlen in *; rewrite ?length_replicate; lia). cbn [mbind outcome_bind]. rewrite IH.
  cbn [mbind outcome_bind]. do 3 f_equal. unfold splice. change (Z.to_nat 0) with 0%nat. rewrite take_0, app_nil_l.
  replace (Z.to_nat (zlen (nli :: d) - 1)) with (length d) by (unfold zlen; cbn [length]; lia). apply take_app_length.
Qed.

(** A read of the frame of a longer message, by which the receiver started afresh. *)
Lemma nli_read_long size d :
  2044 < zlen d -> (2047 <= size)%nat ->
  exists r buf rest, _uart_rdBytes_nli true true true (replicate size 0) (wire_of d) = Ret (r, buf, rest) /\ take (Z.to_nat r) buf <> d.
Proof.
  intros Hd Hs. unfold _uart_rdBytes_nli, wire_of, pull_hdlc.
  assert (zlen (sealed (nli :: d)) = zlen d + 3) as Hz by (rewrite zlen_sealed; unfold zlen; cbn [length]; lia).
  destruct (rx_loop_long (Rx false [] (Some 0)) (sealed (nli :: d))) as (st & rest & -> & H1 & H2); [vm_compute; discriminate|unfold MAX_FRAME_SIZE; lia|].
  rewrite Hz in H2. unfold MAX_FRAME_SIZE in *. cbn [mbind outcome_bind]. pose proof (zlen_nonneg (payload st)). destruct (Z.eqb_spec (zlen (payload st)) 0) as [E0|E0].
  { do 3 eexists. split; [done|]. intros <-. rewrite take_0 in Hd. unfold zlen in Hd. cbn in Hd. lia. }
  cbn [mbind outcome_bind]. assert (zlen (drop 1 (payload st)) = zlen (payload st) - 1) as Hdr by (unfold zlen in *; rewrite length_drop; lia).
  rewrite mem_write_ok by (rewrite ?Hdr; unfold zlen in *; rewrite ?length_replicate; lia). cbn [mbind outcome_bind].
  do 3 eexists. split; [done|]. intros E. apply (f_equal length) in E. rewrite length_take in E. unfold zlen in *. lia.
Qed.

(** C29: Messages of 1 to 2044 bytes written to a UART in HDLC frames are read back by
    the peer, one per call and in order, into buffers of at least 2044 bytes: every
    write reports the length of its message, however the device splits the frames (as
    long as it takes something of each write and the allocations succeed), and the
    reads of the peer on the bytes that were sent yield the messages and leave
    nothing.  A longer message is not carried: its frame is written beyond the 4096
    bytes it is built in when escapes make it longer than that, and else the write
    reports success and the read of the peer does not yield the message. *)
Theorem nli_link_roundtrip fuel size ds u :
  Forall willing (writes (u_line u)) -> (4096 < fuel)%nat ->
  (Forall sendable ds -> (2044 <= size)%nat ->
   exists u' wire, nli_send fuel ds u = Ret (map zlen ds, u') /\ sent (u_line u') = sent (u_line u) ++ wire /\
     nli_recv size (length ds) wire = Ret (ds, [])) /\
  (forall d, 2044 < zlen d < 2 ^ 16 - 1 -> (2047 <= size)%nat ->
   if zlen (wire_of d) <=? 4096 then
     exists u' wire r buf rest, _uart_wrBytes_nli true true true fuel d u = Ret (zlen d, u') /\ sent (u_line u') = sent (u_line u) ++ wire /\
       _uart_rdBytes_nli true true true (replicate size 0) wire = Ret (r, buf, rest) /\ take (Z.to_nat r) buf <> d
   else _uart_wrBytes_nli true true true fuel d u = Undef OutOfBounds).
Proof.
  intros Hw Hf. split.
  - intros Hs Hsize. destruct (nli_send_run fuel ds u Hs Hw Hf) as (u' & E & H). exists u', (concat (map wire_of ds)).
    split; [done|]. split; [done|]. rewrite <- (app_nil_r (concat _)). by apply nli_recv_run.
  - intros d Hd Hsize. destruct (Z.leb_spec (zlen (wire_of d)) 4096) as [Hz|Hz].
    + destruct (nli_write_run fuel d u) as (u' & E & Hs & _); [lia|done..|]. destruct (nli_read_long size d) as (r & buf & rest & Er & Hne); [lia|done|].
      by exists u', (wire_of d), r, buf, rest.
    + rewrite nli_write_any by lia. by rewrite (proj2 (Z.leb_gt _ _)).
Qed.

Definition demo_link : linux_uart := MkUart (MkLine [] [9] [] [WTook 3; WAgain; WTook 1] [] []) 5 None false LUTS_birth.

Lemma nli_link_roundtrip_witness :
  Forall sendable [[1; 126; 3]; [17]] /\ Forall willing (writes (u_line demo_link)) /\
  exists u' wire, nli_send 4097 [[1; 126; 3]; [17]] demo_link = Ret (map zlen [[1; 126; 3]; [17]], u') /\
    sent (u_line u') = sent (u_line demo_link) ++ wire /\ nli_recv 2044 2 wire = Ret ([[1; 126; 3]; [17]], []).
Proof.
  assert (Forall sendable [[1; 126; 3]; [17]]) as Hs by (repeat constructor; vm_compute; discriminate).
  assert (Forall willing (writes (u_line demo_link))) as Hw by (repeat constructor).
  split; [exact Hs|]. split; [exact Hw|].
  apply (nli_link_roundtrip 4097 2044 [[1; 126; 3]; [17]] demo_link); [exact Hw|lia|exact Hs|lia].
Defined.

(** A message of 2045 bytes is reported as sent, and nothing is read. *)
Example nli_long_lost :
  _uart_rdBytes_nli true true true (replicate 2047 0) (wire_of (replicate 2045 0)) = Ret (0, replicate 2047 0, []) /\
  zlen (wire_of (replicate 2045 0)) <= 4096.
Proof. vm_compute. split; [reflexivity|discriminate]. Qed.

(** A device that takes a part and then fails. *)
Lemma simple_write_cut fuel s d k :
  rw (rq s) = 119 -> c_bytes (rq s) = Some d -> n_todo (rq s) = zlen d -> n_done (rq s) = 0 -> mSecs_timeout (rq s) = 0 ->
  is_error (rq s) = false -> is_connected (rq s) = true -> 0 < k < zlen d -> writes (ln s) = [WTook k; WFail] ->
  exists l, simple_loop (S (S fuel)) s = Ret (tt, MkSt l (flags true true (set_v (v_bytes (rq s)) k (rq s)))) /\
    sent l = sent (ln s) ++ take (Z.to_nat k) d.
Proof.
  intros Hrw Ec En Ed Et He Hc Hk Hw. destruct s as [[t se rd wr sl cl] q]. cbn [rq ln writes sent] in *. subst wr.
  assert (wr_this (drop (Z.to_nat (n_done q)) d) (MkSt (MkLine t se rd [WTook k; WFail] sl cl) q) =
    Ret (k, MkSt (MkLine t (se ++ take (Z.to_nat k) d) rd [WFail] sl cl) (flags (is_error q) (is_connected q) q))) as E1.
  { rewrite Ed, flags_same. change (drop (Z.to_nat 0) d) with d. unfold wr_this. run_get. cbn [UNIX_fdWrThis].
    set (s := MkSt _ _). assert (sys_write d s = Ret (inl k, MkSt (MkLine t (se ++ take (Z.to_nat k) d) rd [WFail] sl cl) q)) as E.
    { unfold sys_write, s. cbv zeta. cbn [ln writes sent tape reads selects clock rq]. rewrite Z.min_l, Z2Nat.id by lia. done. }
    run_step E. by rewrite (proj2 (Z.ltb_lt 0 k)) by lia. }
  rewrite (simple_write_round (S fuel) (MkSt (MkLine t se rd [WTook k; WFail] sl cl) q) d k _ _ _ Hrw Ec En Et ltac:(cbn; lia) E1).
  cbv zeta. cbn [rq ln]. rewrite He, Hc, Ed. cbn [andb negb].
  rewrite (proj2 (Z.eqb_neq k 0)) by lia. set (s2 := MkSt _ _). set (rest := drop (Z.to_nat (n_done (rq s2))) d).
  assert (wr_this rest s2 =
    Ret (0, MkSt (MkLine t ((se ++ take (Z.to_nat k) d) ++ take 0 rest) rd [] sl cl) (flags true true (rq s2)))) as E2 by reflexivity.
  eexists. split.
  - rewrite (simple_write_round fuel s2 d 0 _ true true Hrw Ec En Et ltac:(cbn; lia) E2). cbn [andb negb]. reflexivity.
  - cbn [sent]. by rewrite take_0, app_nil_r.
Qed.

(** A write in HDLC frames reports the length of the message although the peer
    cannot get it: when an allocation fails nothing is sent, and when the device
    fails after as many bytes of the frame as the message has, the frame is cut. *)
Theorem nli_write_false_success fuel d u :
  sendable d -> writes (u_line u) = [WTook (zlen d); WFail] -> (2 <= fuel)%nat ->
  _uart_wrBytes_nli false true true fuel d u = Ret (zlen d, u) /\
  _uart_wrBytes_nli true false true fuel d u = Ret (zlen d, u) /\
  exists u', _uart_wrBytes_nli true true true fuel d u = Ret (zlen d, u') /\ u_error u' = true /\
    sent (u_line u') = sent (u_line u) ++ take (length d) (wire_of d) /\ (length d < length (wire_of d))%nat.
Proof.
  intros Hd Hw Hf. pose proof (zlen_wire d Hd) as Hz. assert (1 <= zlen d) as H1 by apply Hd.
  assert ((0 <? zlen (take (Z.to_nat (u16 (zlen d))) d)) = true) as Hne.
  { unfold sendable in Hd. unfold u16. rewrite Z.mod_small by lia. rewrite take_ge by (unfold zlen; lia). apply Z.ltb_lt. lia. }
  split; [|split].
  - unfold _uart_wrBytes_nli. run_get. unfold add_NLI_byte. by rewrite Hne.
  - unfold _uart_wrBytes_nli. run_get. unfold add_NLI_byte. rewrite Hne. cbv zeta.
    unfold sendable in Hd. unfold u16. rewrite (Z.mod_small (zlen d)) by lia. rewrite take_ge by (unfold zlen; lia).
    rewrite Z.mod_small by lia. by rewrite Z.leb_refl.
  - destruct fuel as [|[|fuel]]; [lia|lia|].
    destruct (simple_write_cut fuel (MkSt (u_line u) (request u 119 None (Some (wire_of d)) None (zlen (wire_of d)) 0)) (wire_of d) (zlen d))
      as (l & E & Hl); try done; [lia|].
    pose proof (simple_request _ _ u (zlen d) l true true ltac:(unfold sendable in Hd; lia) E) as E2. 
    rewrite nli_write_eq by done. run_step E2. erewrite M_bind_Ret by apply check_run. cbn [flags is_error is_connected orb].
    rewrite (proj2 (Z.eqb_neq (zlen d) 0)) by lia. cbn [andb]. rewrite (proj2 (Z.eqb_neq (zlen d) _)) by lia.
    eexists. split; [reflexivity|]. split; [done|]. split; [|unfold zlen in *; lia].
    cbn [set_uerr u_line ln] in *. rewrite Hl. unfold zlen. by rewrite Nat2Z.id.
Qed.

Lemma nli_write_false_success_witness :
  let u := MkUart (MkLine [] [] [] [WTook 3; WFail] [] []) 5 None false LUTS_birth in
  let d := [1; 2; 3] in
  sendable [1; 2; 3] /\
  _uart_wrBytes_nli false true true 2 [1; 2; 3] u = Ret (zlen [1; 2; 3], u) /\
  _uart_wrBytes_nli true false true 2 [1; 2; 3] u = Ret (zlen [1; 2; 3], u) /\
  exists u', _uart_wrBytes_nli true true true 2 [1; 2; 3] u = Ret (zlen [1; 2; 3], u') /\ u_error u' = true /\
    sent (u_line u') = sent (u_line u) ++ take (length d) (wire_of d) /\ (length d < length (wire_of d))%nat.
Proof.
  intros u d. assert (sendable [1; 2; 3]) as Hs by (split; vm_compute; discriminate). split; [exact Hs|].
  apply (nli_write_false_success 2 [1; 2; 3] u Hs); [reflexivity|lia].
Defined.

(** A read in HDLC frames does not look at the size of the buffer: a frame with
    more data than was asked for is written past its end. *)
Theorem nli_read_overrun d rest buf :
  sendable d -> zlen buf < zlen d -> _uart_rdBytes_nli true true true buf (wire_of d ++ rest) = Undef OutOfBounds.
Proof.
  intros Hd Hb. unfold sendable in Hd. unfold _uart_rdBytes_nli. change (wire_of d) with (frame_of (sealed (nli :: d))).
  rewrite pull_wire by (unfold zlen in *; cbn [length]; lia). cbn [mbind outcome_bind]. change (drop 1 (nli :: d)) with d.
  unfold mem_write. by rewrite (proj2 (Z.leb_gt (0 + zlen d) (zlen buf))) by lia.
Qed.

Lemma nli_read_overrun_witness :
  sendable [1; 2; 3] /\ _uart_rdBytes_nli true true true [0; 0] (wire_of [1; 2; 3] ++ []) = Undef OutOfBounds.
Proof.
  assert (sendable [1; 2; 3]) as Hs by (split; vm_compute; discriminate). split; [exact Hs|].
  apply (nli_read_overrun [1; 2; 3] [] [0; 0] Hs). vm_compute. reflexivity.
Defined.

End UartNli.
