(* ===== verification/StrUtil.v ===== *)
(** * Strings, buffers and times of the daemon (src/util/string-utils.c, time-utils.c)

    A string argument is its bytes without the terminating zero; a buffer is
    memory with bounds.  Reversing and comparing buffers, the hexadecimal form of
    data, masks of channels and of log levels, and how long it is until a time. *)

From Stdlib Require Import ZArith Lia String.
From stdpp Require Import base list option numbers.
From S2P Require Import Prelude CStr.

Open Scope Z_scope.

Module StrUtil.
Import CStr.

(** ** Buffers *)

(** [n] rounds are left of [len]. *)
Fixpoint cpyrev_loop (n : nat) (len : Z) (dest src : list Z) : outcome (list Z) :=
  match n with
  | O => Ret dest
  | S n =>
      let i := len - 1 - Z.of_nat n in
      c ← byte src (len - 1 - i);
      dest ← mem_write dest i [c];
      cpyrev_loop n len dest src
  end.
Definition memcpyrev (dest src : list Z) (len : Z) : outcome (list Z) := cpyrev_loop (Z.to_nat len) len dest src.

Fixpoint cmprev_loop (n : nat) (len ret : Z) (dest src : list Z) : outcome Z :=
  match n with
  | O => Ret ret
  | S n =>
      if negb (ret =? 0) then Ret ret
      else
        let i := len - 1 - Z.of_nat n in
        a ← byte dest i;
        b ← byte src (len - 1 - i);
        cmprev_loop n len (a - b) dest src
  end.
Definition memcmprev (dest src : list Z) (len : Z) : outcome Z := cmprev_loop (Z.to_nat len) len 0 dest src.

Fixpoint reverse_loop (n : nat) (count : Z) (bytes : list Z) : outcome (list Z) :=
  match n with
  | O => Ret bytes
  | S n =>
      let i := count / 2 - 1 - Z.of_nat n in
      x ← byte bytes i;
      y ← byte bytes (count - i - 1);
      bytes ← mem_write bytes i [y];
      bytes ← mem_write bytes (count - i - 1) [x];
      reverse_loop n count bytes
  end.
Definition reverse_bytes (bytes : list Z) (count : Z) : outcome (list Z) := reverse_loop (Z.to_nat (count / 2)) count bytes.

(** The loops that look at [len] bytes until one decides. *)
Fixpoint all_bytes (ok : Z -> bool) (n : nat) (off : Z) (buff : list Z) : outcome bool :=
  match n with
  | O => Ret true
  | S n => c ← byte buff off; if ok c then all_bytes ok n (off + 1) buff else Ret false
  end.
Definition is_digit (c : Z) : bool := (48 <=? c) && (c <=? 57).
Definition is_upper (c : Z) : bool := (65 <=? c) && (c <=? 90).
Definition is_xdigit (c : Z) : bool := match digit c with Some _ => true | None => false end.
Definition buffer_is_nonzero (buffer : list Z) (len : Z) : outcome bool :=
  r ← all_bytes (fun c => c =? 0) (Z.to_nat len) 0 buffer; Ret (negb r).
Definition is_hex (buff : list Z) (len : Z) : outcome bool := all_bytes is_xdigit (Z.to_nat len) 0 buff.
Definition is_uppercase_or_digit (buff : list Z) (len : Z) : outcome bool :=
  all_bytes (fun c => is_upper c || is_digit c) (Z.to_nat len) 0 buff.

(** ** Data as hexadecimal digits *)

(** The next byte goes to [pos]; the value of a hexadecimal digit is that of
    [tolower], [isdigit] and the range of letters. *)
Fixpoint parse_data (buffer : list Z) (pos len ret : Z) (c_str : list Z) : outcome (Z * list Z) :=
  match c_str with
  | [] => Ret (ret, buffer)
  | c1 :: s =>
      if negb (0 <? len) then Ret (ret, buffer)
      else match digit c1 with
           | None => parse_data buffer pos len ret s
           | Some h =>
               buffer ← mem_write buffer pos [u8 (Z.shiftl h 4)];
               match s with
               | [] => Ret (ret + 1, buffer)
               | c2 :: s =>
                   match digit c2 with
                   | None => parse_data buffer pos (len - 1) (ret + 1) s
                   | Some l =>
                       b ← byte buffer pos;
                       buffer ← mem_write buffer pos [Z.lor b l];
                       parse_data buffer (pos + 1) (len - 1) (ret + 1) s
                   end
               end
           end
  end.
Definition parse_string_into_data (buffer : option (list Z)) (len : Z) (c_str : list Z) : outcome (Z * option (list Z)) :=
  match buffer with
  | None => Ret (0, None)
  | Some buffer => '(ret, buffer) ← parse_data buffer 0 len 0 c_str; Ret (ret, Some buffer)
  end.

(** The letters are capital. *)
Definition int_to_hex_digit (x : Z) : Z := let v := Z.land x 15 in if v <? 10 then 48 + v else 55 + v.

(** The place to write, the room left, the bytes left to pad, the result, the string. *)
Record enc : Type := MkEnc { e_pos : Z; e_room : Z; e_pad : Z; e_ret : Z; e_str : list Z }.

Definition enc_put (d1 d2 : Z) (e : enc) : outcome enc :=
  s ← mem_write (e_str e) (e_pos e) [d1];
  s ← mem_write s (e_pos e + 1) [d2];
  Ret (MkEnc (e_pos e + 2) (e_room e - 2) (int32 (e_pad e - 1)) (int32 (e_ret e + 2)) s).

Fixpoint enc_data (buffer : list Z) (e : enc) : outcome enc :=
  match buffer with
  | [] => Ret e
  | b :: buffer =>
      if negb (2 <? e_room e) then Ret e
      else e ← enc_put (int_to_hex_digit (Z.shiftr b 4)) (int_to_hex_digit (Z.land b 15)) e; enc_data buffer e
  end.

Fixpoint enc_zeros (fuel : nat) (e : enc) : outcome enc :=
  match fuel with
  | O => NoFuel
  | S fuel =>
      if negb ((0 <? e_pad e) && (2 <? e_room e)) then Ret e
      else e ← enc_put 48 48 e; enc_zeros fuel e
  end.

(** [buffer] is the data of [len] bytes.  The padding takes one round per byte of
    the string at most. *)
Definition encode_data_into_string (buffer c_str : list Z) (c_str_max_len pad_to : Z) : outcome (Z * list Z) :=
  e ← enc_data buffer (MkEnc 0 c_str_max_len pad_to 0 c_str);
  e ← enc_zeros (S (Z.to_nat c_str_max_len)) e;
  s ← mem_write (e_str e) (e_pos e) [0];
  Ret (e_ret e, s).

(** ** Words and masks *)

Definition strtobool (s : list Z) : bool :=
  match s with
  | c :: _ =>
      if (c =? 121) || (c =? 89) || (c =? 116) || (c =? 84) then true
      else if (c =? 110) || (c =? 78) || (c =? 102) || (c =? 70) then false
      else negb (fst (strtol 0 s) =? 0)
  | [] => false
  end.

Definition atoi (s : list Z) : Z := int32 (fst (strtol 10 s)).

(** [strtok] with one separator: the runs of other characters. *)
Fixpoint tokens_from (cur : list Z) (s : list Z) : list (list Z) :=
  match s with
  | [] => match cur with [] => [] | _ => [cur] end
  | c :: s =>
      if c =? 44 then match cur with [] => tokens_from [] s | _ => cur :: tokens_from [] s end
      else tokens_from (cur ++ [c]) s
  end.
Definition strtok_commas (s : list Z) : list (list Z) := tokens_from [] s.

(** Shifting by the width of an [int] or more, or by less than nothing, is undefined;
    the compilers the program is built with give [1 << 31] its bit. *)
Definition shift1 (n : Z) : outcome Z := if (0 <=? n) && (n <? 32) then Ret (2 ^ n) else Undef SignedOverflow.

Fixpoint mask_range (n : nat) (channel_start mask : Z) : outcome Z :=
  match n with
  | O => Ret mask
  | S n => b ← shift1 channel_start; mask_range n (channel_start + 1) (Z.lor mask b)
  end.

Definition mask_token (mask : Z) (t : list Z) : outcome Z :=
  match strchr 45 t with
  | Some k =>
      let a := atoi (take k t) in
      let b := atoi (drop (S k) t) in
      let '(channel_start, channel_stop) := if a <? b then (a, b) else (b, a) in
      mask_range (Z.to_nat (channel_stop - channel_start + 1)) channel_start mask
  | None => b ← shift1 (fst (strtol 0 t)); Ret (Z.lor mask b)
  end.

Fixpoint mask_tokens (mask : Z) (ts : list (list Z)) : outcome Z :=
  match ts with
  | [] => Ret mask
  | t :: ts => mask ← mask_token mask t; mask_tokens mask ts
  end.
Definition strtomask_uint32 (in_string : list Z) : outcome Z := mask_tokens 0 (strtok_commas in_string).

Definition tolower (c : Z) : Z := if is_upper c then c + 32 else c.

(** Does the text begin with the word, or contain it, whatever the case? *)
Fixpoint starts_with (w s : list Z) : bool :=
  match w, s with
  | [], _ => true
  | a :: w, b :: s => (tolower a =? tolower b) && starts_with w s
  | _, [] => false
  end.
Fixpoint strcasestr (s w : list Z) : bool :=
  starts_with w s || match s with [] => false | _ :: s => strcasestr s w end.

(** The words, with the number of their level. *)
Definition levels : list (list Z * Z) :=
  [(str "emerg", 0); (str "alert", 1); (str "crit", 2); (str "err", 3);
   (str "warn", 4); (str "notice", 5); (str "info", 6); (str "debug", 7)].

Definition log_word (value w : list Z) (m mask : Z) : Z :=
  if strcasestr value w then
    if strcasestr value (45 :: w) then Z.land mask (Z.lnot m) else Z.lor mask m
  else mask.

Definition strtologmask (value : list Z) (prev_mask : Z) : Z :=
  let mask := int32 (fst (strtol 0 value)) in
  if mask =? 0 then
    foldl (fun mask x => log_word value (fst x) (2 ^ snd x) mask) (log_word value (str "all") (-1) prev_mask) levels
  else mask.

(** ** Times *)

Definition CMS_DISTANT_FUTURE : Z := 2 ^ 31 - 1.
Definition TIME_DISTANT_FUTURE : Z := 2 ^ 63 - 1.
Definition MSEC_PER_SEC : Z := 1000.

(** A result that does not fit a signed 64-bit integer is undefined. *)
Definition check64 (z : Z) : outcome Z := if (- 2 ^ 63 <=? z) && (z <? 2 ^ 63) then Ret z else Undef SignedOverflow.

(** [now] is the monotonic clock; a [time_t] has 64 bits. *)
Definition cms_until_time (now time : Z) : outcome Z :=
  time ← check64 (time - now);
  if TIME_DISTANT_FUTURE / MSEC_PER_SEC <? time then Ret CMS_DISTANT_FUTURE
  else ms ← check64 (time * MSEC_PER_SEC); Ret (int32 ms).

(** ** Reversed buffers *)

Lemma byte_mid a x b off : off = zlen a -> byte (a ++ x :: b) off = Ret x.
Proof. intros ->. apply byte_at. Qed.

Lemma write_mid a x b y off : off = zlen a -> mem_write (a ++ x :: b) off [y] = Ret (a ++ y :: b).
Proof. intros ->. apply mem_write_mid. Qed.

Lemma cpyrev_run n : forall a m src len,
  length m = n -> len = zlen src -> zlen a + Z.of_nat n = len -> forall rest,
  cpyrev_loop n len (a ++ m ++ rest) src = Ret (a ++ rev (take n src) ++ rest).
Proof.
  induction n as [|n IH]; intros a m src len Hm Hlen Ha rest; [by destruct m|].
  destruct m as [|x m]; [done|]. injection Hm as Hm. cbn [cpyrev_loop].
  replace (len - 1 - (len - 1 - Z.of_nat n)) with (Z.of_nat n) by lia.
  assert (n < length src)%nat as Hn by (unfold zlen in *; lia). destruct (lookup_lt_is_Some_2 src n Hn) as [y Hy].
  rewrite <- (take_drop_middle src n y Hy) at 1. rewrite byte_mid by (unfold zlen; rewrite length_take; lia).
  cbn [mbind outcome_bind app]. rewrite write_mid by (unfold zlen in *; lia). cbn [mbind outcome_bind].
  change (a ++ y :: m ++ rest) with (a ++ [y] ++ m ++ rest). rewrite app_assoc.
  rewrite (IH (a ++ [y]) m src len); [|done|done|rewrite zlen_app; change (zlen [y]) with 1; lia].
  rewrite (take_S_r _ _ _ Hy), rev_app_distr. by rewrite <- !app_assoc.
Qed.

Lemma reverse_run n : forall a m b rest count,
  length a = length b -> count = zlen a + zlen m + zlen b -> Z.of_nat n = zlen m / 2 ->
  reverse_loop n count (a ++ m ++ b ++ rest) = Ret (a ++ rev m ++ b ++ rest).
Proof.
  induction n as [|n IH]; intros a m b rest count Hab Hc Hn.
  { pose proof (Z.div_mod (zlen m) 2 ltac:(lia)) as Hdm. pose proof (Z.mod_pos_bound (zlen m) 2 ltac:(lia)) as Hmb. rewrite <- Hn in Hdm. cbn [reverse_loop]. destruct m as [|x [|y m]]; [done|done|]. unfold zlen in Hdm, Hmb. cbn [length] in Hdm, Hmb. lia. }
  assert (exists x m' y, m = x :: m' ++ [y]) as (x & m' & y & ->).
  { destruct m as [|x m]; [done|]. destruct m as [|z m _] using rev_ind; [done|]. by exists x, m, z. }
  assert (zlen (x :: m' ++ [y]) = zlen m' + 2) as Ez by (unfold zlen; cbn [length]; rewrite length_app; cbn [length]; lia).
  assert (Z.of_nat n = zlen m' / 2) as Hn' by (rewrite Ez in Hn; change 2 with (1 * 2) in Hn at 1; rewrite Z.div_add in Hn by lia; lia).
  assert (count / 2 = zlen a + zlen m' / 2 + 1) as Hc2.
  { rewrite Hc, Ez. replace (zlen a + (zlen m' + 2) + zlen b) with (zlen m' + (zlen a + 1) * 2) by (unfold zlen in *; lia).
    rewrite Z.div_add by lia. lia. }
  rewrite Ez in Hc. cbn [reverse_loop]. replace (count / 2 - 1 - Z.of_nat n) with (zlen a) by lia.
  cbn [app]. rewrite <- (app_assoc m'). cbn [app]. rewrite byte_at. cbn [mbind outcome_bind].
  replace (a ++ x :: m' ++ y :: b ++ rest) with ((a ++ x :: m') ++ y :: b ++ rest) by (by rewrite <- app_assoc).
  rewrite byte_mid by (rewrite zlen_app; unfold zlen in *; cbn [length]; lia). cbn [mbind outcome_bind].
  rewrite <- app_assoc. cbn [app]. rewrite mem_write_mid. cbn [mbind outcome_bind].
  replace (a ++ y :: m' ++ y :: b ++ rest) with ((a ++ y :: m') ++ y :: b ++ rest) by (by rewrite <- app_assoc).
  rewrite write_mid by (rewrite zlen_app; unfold zlen in *; cbn [length]; lia). cbn [mbind outcome_bind].
  replace ((a ++ y :: m') ++ x :: b ++ rest) with ((a ++ [y]) ++ m' ++ (x :: b) ++ rest) by (by rewrite <- !app_assoc).
  rewrite (IH (a ++ [y]) m' (x :: b)); [|rewrite length_app; cbn; lia|rewrite zlen_app; unfold zlen in *; cbn [length]; lia|exact Hn'].
  cbn [rev]. rewrite rev_app_distr. cbn [rev app]. by rewrite <- !app_assoc.
Qed.

Lemma cmprev_run n : forall dest src len,
  len = zlen src -> len = zlen dest -> (n <= length src)%nat ->
  exists r, cmprev_loop n len 0 dest src = Ret r /\ (r = 0 <-> drop (length src - n) dest = rev (take n src)).
Proof.
  induction n as [|n IH]; intros dest src len Hs Hd Hn; cbn [cmprev_loop].
  { exists 0. split; [done|]. rewrite Nat.sub_0_r, drop_ge by (unfold zlen in *; lia). done. }
  replace (len - 1 - (len - 1 - Z.of_nat n)) with (Z.of_nat n) by lia. set (i := (length src - S n)%nat).
  assert (length src - n = S i)%nat as Ei by lia.
  destruct (lookup_lt_is_Some_2 src n ltac:(lia)) as [y Hy].
  destruct (lookup_lt_is_Some_2 dest i ltac:(unfold zlen in *; lia)) as [x Hx].
  assert (byte dest (len - 1 - Z.of_nat n) = Ret x) as ->.
  { rewrite <- (take_drop_middle dest i x Hx). apply byte_mid. unfold zlen in *. rewrite length_take. lia. }
  assert (byte src (Z.of_nat n) = Ret y) as ->.
  { rewrite <- (take_drop_middle src n y Hy). apply byte_mid. unfold zlen in *. rewrite length_take. lia. }
  cbn [Z.eqb negb mbind outcome_bind]. rewrite (take_S_r _ _ _ Hy), rev_app_distr. cbn [rev app].
  rewrite (drop_S _ _ _ Hx), <- Ei. destruct (decide (x = y)) as [->|Hne].
  - rewrite Z.sub_diag. destruct (IH dest src len Hs Hd ltac:(lia)) as (r & E & Hr). exists r. split; [done|]. rewrite Hr.
    split; [by intros ->|congruence].
  - exists (x - y). split; [|split; [lia|congruence]]. destruct n as [|n]; [done|]. cbn [cmprev_loop].
    by rewrite (proj2 (Z.eqb_neq (x - y) 0)) by lia.
Qed.

(** Copying and reversing in place give the bytes in reversed order, and comparing
    tells whether one buffer is the other reversed. *)
Theorem reversed_buffers (src dest rest : list Z) :
  length dest = length src ->
  memcpyrev (dest ++ rest) src (zlen src) = Ret (rev src ++ rest) /\
  reverse_bytes (src ++ rest) (zlen src) = Ret (rev src ++ rest) /\
  exists r, memcmprev dest src (zlen src) = Ret r /\ (r = 0 <-> dest = rev src).
Proof.
  intros Hl. assert (Z.to_nat (zlen src) = length src) as En by (unfold zlen; lia). unfold memcpyrev, memcmprev, reverse_bytes.
  split; [|split].
  - rewrite En. pose proof (cpyrev_run (length src) [] dest src (zlen src) Hl eq_refl ltac:(unfold zlen; cbn; lia) rest) as E.
    cbn [app] in E. by rewrite E, firstn_all.
  - apply (reverse_run _ [] src [] rest); [done|unfold zlen; cbn; lia|]. pose proof (zlen_nonneg src). rewrite Z2Nat.id; [done|apply Z.div_pos; lia].
  - destruct (cmprev_run (length src) dest src (zlen src)) as (r & E & Hr); [done|unfold zlen; lia|done|].
    exists r. rewrite En. split; [done|]. by rewrite Hr, Nat.sub_diag, drop_0, firstn_all.
Qed.

Lemma reversed_buffers_witness :
  memcpyrev ([0; 0; 0] ++ [7]) [1; 2; 3] (zlen [1; 2; 3]) = Ret (rev [1; 2; 3] ++ [7]) /\
  reverse_bytes ([1; 2; 3] ++ [7]) (zlen [1; 2; 3]) = Ret (rev [1; 2; 3] ++ [7]) /\
  exists r, memcmprev [0; 0; 0] [1; 2; 3] (zlen [1; 2; 3]) = Ret r /\ (r = 0 <-> [0; 0; 0] = rev [1; 2; 3]).
Proof. apply (reversed_buffers [1; 2; 3] [0; 0; 0] [7]). reflexivity. Defined.



Lemma all_bytes_run ok n : forall pre l, (n <= length l)%nat ->
  all_bytes ok n (zlen pre) (pre ++ l) = Ret (forallb ok (take n l)).
Proof.
  induction n as [|n IH]; intros pre l Hn; [done|]. destruct l as [|c l]; [cbn in Hn; lia|]. cbn [length] in Hn. cbn [all_bytes].
  rewrite byte_at. cbn [mbind outcome_bind take forallb]. destruct (ok c); [|done]. cbn [andb].
  change (pre ++ c :: l) with (pre ++ [c] ++ l). rewrite app_assoc. replace (zlen pre + 1) with (zlen (pre ++ [c])) by (by rewrite zlen_app).
  apply IH. lia.
Qed.

(** The questions about the bytes of a buffer, answered within its bounds. *)
Theorem buffer_questions buf len :
  0 <= len <= zlen buf ->
  let l := take (Z.to_nat len) buf in
  buffer_is_nonzero buf len = Ret (existsb (fun c => negb (c =? 0)) l) /\ is_hex buf len = Ret (forallb is_xdigit l) /\
  is_uppercase_or_digit buf len = Ret (forallb (fun c => is_upper c || is_digit c) l).
Proof.
  intros Hl l. assert (Z.to_nat len <= length buf)%nat as Hn by (unfold zlen in Hl; lia).
  assert (forall ok, all_bytes ok (Z.to_nat len) 0 buf = Ret (forallb ok l)) as E by (intros ok; exact (all_bytes_run ok _ [] buf Hn)).
  unfold buffer_is_nonzero, is_hex, is_uppercase_or_digit. rewrite !E. cbn [mbind outcome_bind]. split; [|done]. f_equal.
  generalize l. clear. induction l as [|c l IH]; [done|]. cbn [forallb existsb]. by rewrite negb_andb, IH.
Qed.

Lemma buffer_questions_witness :
  let l := take (Z.to_nat 2) [0; 65; 7] in
  buffer_is_nonzero [0; 65; 7] 2 = Ret (existsb (fun c => negb (c =? 0)) l) /\ is_hex [0; 65; 7] 2 = Ret (forallb is_xdigit l) /\
  is_uppercase_or_digit [0; 65; 7] 2 = Ret (forallb (fun c => is_upper c || is_digit c) l).
Proof. apply (buffer_questions [0; 65; 7] 2). unfold zlen. cbn. lia. Defined.

(** ** Hexadecimal data *)

(** A text spells bytes when the two digits of each byte follow each other; anything
    that is not a digit may stand between the bytes. *)
Inductive spells : list Z -> list Z -> Prop :=
| spells_nil : spells [] []
| spells_skip c s d : digit c = None -> spells s d -> spells (c :: s) d
| spells_byte c1 c2 h l s d : digit c1 = Some h -> digit c2 = Some l -> spells s d -> spells (c1 :: c2 :: s) (16 * h + l :: d).

Lemma digit_range c v : digit c = Some v -> 0 <= v < 16.
Proof.
  unfold digit. destruct (Z.leb_spec 48 c), (Z.leb_spec c 57), (Z.leb_spec 97 c), (Z.leb_spec c 102), (Z.leb_spec 65 c), (Z.leb_spec c 70);
    cbn [andb]; intros [= <-]; lia.
Qed.

Lemma lor_nibbles h l : 0 <= h < 16 -> 0 <= l < 16 -> Z.lor (u8 (Z.shiftl h 4)) l = 16 * h + l.
Proof.
  intros Hh Hl. unfold u8. rewrite Z.mod_small; [|rewrite Z.shiftl_mul_pow2 by lia; lia].
  rewrite Z.lor_comm, lor_shiftl by lia. lia.
Qed.

(** Parsing stores the bytes that are spelled, as many as fit. *)
Lemma parse_data_run s d : spells s d -> forall pre old rest len ret,
  0 <= len -> (length d <= length old)%nat \/ len <= zlen old ->
  let n := Nat.min (length d) (Z.to_nat len) in
  parse_data (pre ++ old ++ rest) (zlen pre) len ret s = Ret (ret + Z.of_nat n, pre ++ take n d ++ drop n (old ++ rest)).
Proof.
  induction 1 as [|c s d Hc Hs IH|c1 c2 h l s d H1 H2 Hs IH]; intros pre old rest len ret Hlen Hroom n.
  - subst n. cbn [length Nat.min take app drop parse_data]. by rewrite Z.add_0_r.
  - cbn [parse_data]. destruct (Z.ltb_spec 0 len) as [Hl|Hl]; cbn [negb].
    + rewrite Hc. by apply IH.
    + assert (n = 0%nat) as -> by lia. rewrite Z.add_0_r, take_0, drop_0. done.
  - cbn [parse_data]. destruct (Z.ltb_spec 0 len) as [Hl|Hl]; cbn [negb].
    2: { assert (n = 0%nat) as -> by lia. rewrite Z.add_0_r, take_0, drop_0. done. }
    rewrite H1. destruct old as [|x old]; [unfold zlen in Hroom; cbn in Hroom; lia|]. cbn [app].
    rewrite mem_write_mid. cbn [mbind outcome_bind]. rewrite H2, byte_at. cbn [mbind outcome_bind].
    rewrite mem_write_mid. cbn [mbind outcome_bind].
    rewrite lor_nibbles by (eapply digit_range; eassumption).
    change (pre ++ ?b :: old ++ rest) with (pre ++ [b] ++ old ++ rest). rewrite app_assoc.
    replace (zlen pre + 1) with (zlen (pre ++ [16 * h + l])) by (rewrite zlen_app; done).
    rewrite IH; [|lia|unfold zlen in *; cbn [length] in *; lia].
    assert (n = S (Nat.min (length d) (Z.to_nat (len - 1)))) as -> by (subst n; cbn [length]; lia).
    cbn [take drop]. rewrite <- app_assoc. cbn [app]. f_equal. f_equal. lia.
Qed.

Lemma digit_of_hex v : 0 <= v < 16 -> digit (int_to_hex_digit v) = Some v.
Proof.
  intros Hv. assert (v ∈ (Z.of_nat <$> seq 0 16)) as Hin.
  { apply list_elem_of_fmap. exists (Z.to_nat v). split; [lia|]. apply elem_of_seq. lia. }
  revert Hin. cbn. rewrite !elem_of_cons, elem_of_nil. intros. destruct_or?; subst; done.
Qed.

Definition hex_byte (b : Z) : list Z := [int_to_hex_digit (Z.shiftr b 4); int_to_hex_digit (Z.land b 15)].
Definition hex_text (d : list Z) : list Z := concat (map hex_byte d).

Lemma hex_text_spells d : is_bytes d -> spells (hex_text d) d.
Proof.
  induction 1 as [|b d Hb _ IH]; [constructor|]. unfold is_byte in Hb.
  assert (Z.shiftr b 4 = b / 16) as E1 by (rewrite Z.shiftr_div_pow2 by lia; done).
  assert (Z.land b 15 = b mod 16) as E2 by (change 15 with (Z.ones 4); by rewrite Z.land_ones by lia).
  assert (0 <= b / 16 < 16 /\ 0 <= b mod 16 < 16 /\ b = 16 * (b / 16) + b mod 16) as (H1 & H2 & H3)
    by (Z.to_euclidean_division_equations; lia).
  change (hex_text (b :: d)) with (hex_byte b ++ hex_text d). unfold hex_byte. rewrite E1, E2. cbn [app].
  rewrite H3 at 3. constructor; [by apply digit_of_hex|by apply digit_of_hex|done].
Qed.

Lemma hex_text_no_zero d : no_zero (hex_text d).
Proof.
  assert (forall x, int_to_hex_digit x <> 0) as Hx.
  { intros x. unfold int_to_hex_digit. pose proof (Z.land_ones x 4 ltac:(lia)) as E. change (Z.ones 4) with 15 in E.
    pose proof (Z.mod_pos_bound x (2 ^ 4) ltac:(lia)). cbv zeta. destruct (Z.ltb_spec (Z.land x 15) 10); lia. }
  induction d as [|b d IH]; [constructor|]. change (hex_text (b :: d)) with (hex_byte b ++ hex_text d).
  apply Forall_app. split; [|done]. by repeat constructor.
Qed.

Lemma length_hex_text d : length (hex_text d) = (2 * length d)%nat.
Proof. induction d as [|b d IH]; [done|]. change (hex_text (b :: d)) with (hex_byte b ++ hex_text d). rewrite length_app, IH. cbn. lia. Qed.

(** The encoder in the middle of its work: [pre] is written. *)
Definition enc_at (pre old : list Z) (pad : Z) : enc := MkEnc (zlen pre) (zlen old) pad (zlen pre) (pre ++ old).

(** The bytes that still fit, two digits each and a zero at the end. *)
Definition fits (old : list Z) : nat := Z.to_nat ((zlen old - 1) / 2).

Lemma fits_step x y old : old <> [] -> fits (x :: y :: old) = S (fits old).
Proof.
  intros Hne. unfold fits. assert (1 <= zlen old) by (destruct old; [done|unfold zlen; cbn; lia]).
  replace (zlen (x :: y :: old) - 1) with (zlen old - 1 + 1 * 2) by (unfold zlen; cbn [length]; lia).
  rewrite Z.div_add by lia. rewrite Z2Nat.inj_add by (try apply Z.div_pos; lia). lia.
Qed.

Lemma fits_none old : zlen old <= 2 -> fits old = 0%nat.
Proof. intros H. unfold fits. pose proof (zlen_nonneg old). Z.to_euclidean_division_equations. lia. Qed.

Lemma enc_put_run pre x y old pad d1 d2 :
  zlen (pre ++ x :: y :: old) < 2 ^ 31 -> - 2 ^ 31 < pad < 2 ^ 31 ->
  enc_put d1 d2 (enc_at pre (x :: y :: old) pad) = Ret (enc_at (pre ++ [d1; d2]) old (pad - 1)).
Proof.
  intros Hz Hp. unfold enc_put, enc_at. cbn [e_str e_pos e_room e_pad e_ret]. rewrite mem_write_mid. cbn [mbind outcome_bind].
  change (pre ++ d1 :: y :: old) with (pre ++ [d1] ++ y :: old). rewrite app_assoc.
  rewrite write_mid by (rewrite zlen_app; done). cbn [mbind outcome_bind].
  rewrite zlen_app in Hz. pose proof (zlen_nonneg pre). unfold zlen in Hz at 2. cbn [length] in Hz.
  rewrite !int32_id by lia. rewrite zlen_app. change (zlen [d1; d2]) with 2.
  do 2 f_equal; [unfold zlen; cbn [length]; lia|]. by rewrite <- !app_assoc.
Qed.

Lemma enc_data_run d : forall pre old pad,
  zlen (pre ++ old) < 2 ^ 31 -> zlen old - 2 ^ 31 < pad < 2 ^ 31 ->
  let k := Nat.min (length d) (fits old) in
  enc_data d (enc_at pre old pad) = Ret (enc_at (pre ++ hex_text (take k d)) (drop (2 * k) old) (pad - Z.of_nat k)).
Proof.
  induction d as [|b d IH]; intros pre old pad Hz Hp k.
  { cbn. by rewrite app_nil_r, Z.sub_0_r. }
  cbn [enc_data]. cbn [enc_at e_room]. destruct (Z.ltb_spec 2 (zlen old)) as [Hr|Hr]; cbn [negb].
  2: { assert (k = 0%nat) as -> by (unfold k; rewrite fits_none by lia; lia). cbn [take hex_text map concat Nat.mul drop].
       by rewrite app_nil_r, Z.sub_0_r. }
  destruct old as [|x [|y old]]; [unfold zlen in Hr; cbn in Hr; lia..|].
  assert (old <> []) as Hne by (intros ->; unfold zlen in Hr; cbn in Hr; lia).
  rewrite enc_put_run by (done || (unfold zlen in *; cbn [length] in *; lia)). cbn [mbind outcome_bind].
  rewrite IH; [|rewrite !zlen_app in *; unfold zlen in *; cbn [length] in *; lia|unfold zlen in *; cbn [length] in *; lia].
  assert (k = S (Nat.min (length d) (fits old))) as -> by (unfold k; rewrite fits_step by done; cbn [length]; lia).
  set (j := Nat.min _ _). replace (2 * S j)%nat with (S (S (2 * j))) by lia. cbn [take drop].
  change (hex_text (b :: take j d)) with (hex_byte b ++ hex_text (take j d)). rewrite <- app_assoc.
  do 2 f_equal. lia.
Qed.

Lemma enc_zeros_run fuel : forall pre old pad,
  zlen (pre ++ old) < 2 ^ 31 -> zlen old - 2 ^ 31 < pad < 2 ^ 31 -> (length old < fuel)%nat ->
  let p := Nat.min (Z.to_nat pad) (fits old) in
  enc_zeros fuel (enc_at pre old pad) = Ret (enc_at (pre ++ replicate (2 * p) 48) (drop (2 * p) old) (pad - Z.of_nat p)).
Proof.
  induction fuel as [|fuel IH]; intros pre old pad Hz Hp Hf p; [lia|]. cbn [enc_zeros]. cbn [enc_at e_pad e_room].
  destruct (Z.ltb_spec 0 pad) as [H0|H0]; cbn [andb negb].
  2: { assert (p = 0%nat) as -> by lia. cbn. by rewrite app_nil_r, Z.sub_0_r. }
  destruct (Z.ltb_spec 2 (zlen old)) as [Hr|Hr]; cbn [negb].
  2: { assert (p = 0%nat) as -> by (unfold p; rewrite fits_none by lia; lia). cbn. by rewrite app_nil_r, Z.sub_0_r. }
  destruct old as [|x [|y old]]; [unfold zlen in Hr; cbn in Hr; lia..|].
  assert (old <> []) as Hne by (intros ->; unfold zlen in Hr; cbn in Hr; lia).
  rewrite enc_put_run by (done || (unfold zlen in *; cbn [length] in *; lia)). cbn [mbind outcome_bind].
  rewrite IH; [|rewrite !zlen_app in *; unfold zlen in *; cbn [length] in *; lia|unfold zlen in *; cbn [length] in *; lia|cbn [length] in Hf; lia].
  assert (p = S (Nat.min (Z.to_nat (pad - 1)) (fits old))) as -> by (unfold p; rewrite fits_step by done; lia).
  set (j := Nat.min _ _). replace (2 * S j)%nat with (S (S (2 * j))) by lia. cbn [replicate drop]. rewrite <- app_assoc.
  do 2 f_equal. lia.
Qed.

Lemma length_drop_fits old k : (k <= fits old)%nat -> old <> [] -> (1 <= length (drop (2 * k) old))%nat /\ fits (drop (2 * k) old) = (fits old - k)%nat.
Proof.
  revert old. induction k as [|k IH]; intros old Hk Hne.
  { rewrite drop_0. split; [destruct old; [done|cbn; lia]|lia]. }
  destruct (decide (zlen old <= 2)) as [H2|H2]; [rewrite fits_none in Hk by done; lia|].
  destruct old as [|x [|y old]]; [unfold zlen in H2; cbn in H2; lia..|].
  assert (old <> []) as Ho by (intros ->; unfold zlen in H2; cbn in H2; lia).
  rewrite fits_step in Hk |- * by done. replace (2 * S k)%nat with (S (S (2 * k))) by lia. cbn [drop].
  destruct (IH old ltac:(lia) Ho) as [? E]. split; [done|]. rewrite E. lia.
Qed.

(** What the encoder leaves in the string: digits of the bytes that fit, zeros up to
    the length asked for as far as they fit, and the end of the string. *)
Lemma encode_run d mem pad :
  0 < zlen mem < 2 ^ 31 -> 0 <= pad < 2 ^ 31 ->
  let k := Nat.min (length d) (fits mem) in
  let p := Nat.min (Z.to_nat pad - k) (fits mem - k) in
  encode_data_into_string d mem (zlen mem) pad =
    Ret (2 * Z.of_nat (k + p), hex_text (take k d) ++ replicate (2 * p) 48 ++ 0 :: drop (2 * (k + p) + 1) mem).
Proof.
  intros Hm Hp k p. assert (mem <> []) as Hne by (intros ->; unfold zlen in Hm; cbn in Hm; lia).
  unfold encode_data_into_string. change (MkEnc 0 (zlen mem) pad 0 mem) with (enc_at [] mem pad).
  rewrite enc_data_run by (cbn [app]; lia). cbn [mbind outcome_bind app]. fold k.
  destruct (length_drop_fits mem k ltac:(unfold k; lia) Hne) as [Hd Ef]. set (old := drop (2 * k) mem) in *.
  assert (length old = length mem - 2 * k)%nat as Hlo by (unfold old; apply length_drop).
  assert (length (hex_text (take k d)) = 2 * k)%nat as Hht by (rewrite length_hex_text, length_take; unfold k; lia).
  rewrite enc_zeros_run; [|rewrite zlen_app; unfold zlen in *; lia|unfold zlen in *; lia|unfold zlen in *; lia].
  cbn [mbind outcome_bind enc_at e_str e_pos e_ret]. rewrite Ef.
  assert (Nat.min (Z.to_nat (pad - Z.of_nat k)) (fits mem - k) = p) as -> by (unfold p; lia).
  assert (old <> []) as Hno by (intros Hn; rewrite Hn in Hd; cbn in Hd; lia).
  destruct (length_drop_fits old p ltac:(rewrite Ef; unfold p; lia) Hno) as [Hd2 _].
  destruct (drop (2 * p) old) as [|z zs] eqn:Ez; [cbn in Hd2; lia|]. rewrite mem_write_mid. cbn [mbind outcome_bind].
  assert (drop (2 * (k + p) + 1) mem = zs) as ->.
  { replace (2 * (k + p) + 1)%nat with (2 * k + (2 * p + 1))%nat by lia. rewrite <- drop_drop. fold old. rewrite <- drop_drop, Ez. done. }
  rewrite <- app_assoc. do 2 f_equal. rewrite zlen_app. unfold zlen. rewrite Hht, length_replicate. lia.
Qed.

(** Any text whose digits come in pairs is read, with anything between the pairs,
    capital or small letters, up to the length of the buffer. *)
Theorem hex_pairs_parsed s d buf len :
  spells s d -> 0 <= len <= zlen buf ->
  let n := Nat.min (length d) (Z.to_nat len) in
  parse_string_into_data (Some buf) len s = Ret (Z.of_nat n, Some (take n d ++ drop n buf)).
Proof.
  intros Hs Hl n. unfold parse_string_into_data.
  pose proof (parse_data_run s d Hs [] buf [] len 0 ltac:(lia) ltac:(lia)) as E. cbn [app] in E. rewrite app_nil_r in E.
  change (zlen []) with 0 in E. rewrite E. done.
Qed.

Lemma hex_pairs_parsed_witness :
  spells (str "de:AD") [222; 173] /\
  parse_string_into_data (Some [0; 0; 0]) 3 (str "de:AD") = Ret (2, Some (take 2 [222; 173] ++ drop 2 [0; 0; 0])).
Proof.
  assert (spells (str "de:AD") [222; 173]) as Hs.
  { apply (spells_byte _ _ 13 14); [done|done|]. apply spells_skip; [done|]. apply (spells_byte _ _ 10 13); [done|done|]. constructor. }
  split; [exact Hs|]. apply (hex_pairs_parsed _ _ [0; 0; 0] 3 Hs). unfold zlen. cbn. lia.
Defined.

(** Whatever the text, parsing stays inside the buffer and counts no more bytes than
    it was given room for. *)
Lemma parse_data_safe : forall n s, (length s <= n)%nat -> forall buf pos len ret,
  0 <= pos -> 0 <= len -> pos + len <= zlen buf ->
  exists k buf', parse_data buf pos len ret s = Ret (ret + k, buf') /\ 0 <= k <= len /\ length buf' = length buf.
Proof.
  induction n as [|n IH]; intros s Hs buf pos len ret Hp Hl Hb.
  { destruct s; [|cbn in Hs; lia]. exists 0, buf. rewrite Z.add_0_r. split; [done|lia]. }
  destruct s as [|c1 s]; [exists 0, buf; rewrite Z.add_0_r; split; [done|lia]|]. cbn [length] in Hs. cbn [parse_data].
  destruct (Z.ltb_spec 0 len) as [H0|H0]; cbn [negb]; [|exists 0, buf; rewrite Z.add_0_r; split; [done|lia]].
  destruct (digit c1) as [h|]; [|by apply IH; [lia|..]].
  assert (forall b (buf : list Z), pos + len <= zlen buf -> exists buf', mem_write buf pos [b] = Ret buf' /\ length buf' = length buf) as Hw.
  { intros b bf Hbf. rewrite mem_write_ok by (change (zlen [b]) with 1; lia). eexists. split; [done|]. apply length_splice.
    unfold zlen in *. cbn [length]. lia. }
  destruct (Hw (u8 (Z.shiftl h 4)) buf Hb) as (b1 & -> & L1). cbn [mbind outcome_bind].
  destruct s as [|c2 s]; [exists 1, b1; split; [done|lia]|]. cbn [length] in Hs.
  destruct (digit c2) as [l|].
  - assert (exists x, byte b1 pos = Ret x) as [x ->].
    { unfold byte. rewrite mem_read_ok by (unfold zlen in *; lia). cbn [mbind outcome_bind]. unfold slice.
      destruct (drop (Z.to_nat pos) b1) as [|x t] eqn:E; [|by exists x]. apply (f_equal length) in E. rewrite length_drop in E.
      unfold zlen in *. cbn in E. lia. }
    cbn [mbind outcome_bind]. destruct (Hw (Z.lor x l) b1 ltac:(unfold zlen in *; lia)) as (b2 & -> & L2). cbn [mbind outcome_bind].
    destruct (IH s ltac:(lia) b2 (pos + 1) (len - 1) (ret + 1)) as (k & b3 & -> & Hk & L3); [lia|lia|unfold zlen in *; lia|].
    exists (k + 1), b3. split; [f_equal; f_equal; lia|]. split; [lia|congruence].
  - destruct (IH s ltac:(lia) b1 pos (len - 1) (ret + 1)) as (k & b3 & -> & Hk & L3); [lia|lia|unfold zlen in *; lia|].
    exists (k + 1), b3. split; [f_equal; f_equal; lia|]. split; [lia|congruence].
Qed.

(** Data survives its hexadecimal form: what the encoder writes into a string
    that is large enough is a string of two digits a byte, padded with zeros to the
    length asked for, and parsing it gives the bytes and the padding back; on any
    text at all, parsing stays inside the buffer it is given. *)
Theorem hex_data_roundtrip d mem pad buf :
  is_bytes d -> 0 <= pad -> 2 * Z.max (zlen d) pad < zlen mem < 2 ^ 31 -> Z.max (zlen d) pad <= zlen buf ->
  let n := Z.max (zlen d) pad in
  exists mem' text, encode_data_into_string d mem (zlen mem) pad = Ret (2 * n, mem') /\ cstr mem' 0 = Ret text /\
    zlen text = 2 * n /\
    parse_string_into_data (Some buf) n text =
      Ret (n, Some (d ++ replicate (Z.to_nat (pad - zlen d)) 0 ++ drop (Z.to_nat n) buf)) /\
    forall s len, 0 <= len <= zlen buf -> exists ret buf', parse_string_into_data (Some buf) len s = Ret (ret, Some buf') /\
      0 <= ret <= len /\ length buf' = length buf.
Proof.
  intros Hd Hp Hm Hb n. pose proof (zlen_nonneg d) as H0.
  assert (n <= Z.of_nat (fits mem)) as Hf.
  { unfold fits, n in *. rewrite Z2Nat.id; [|apply Z.div_pos; lia]. apply Z.div_le_lower_bound; lia. }
  pose proof (encode_run d mem pad ltac:(lia) ltac:(lia)) as E. cbv zeta in E.
  assert (Nat.min (length d) (fits mem) = length d) as Ek by (unfold n, zlen in *; lia). rewrite Ek in E.
  set (p := Nat.min _ _) in E. assert (p = Z.to_nat (pad - zlen d)) as Ep by (subst p; unfold n, zlen in *; lia).
  rewrite Ep in E. clear p Ep. rewrite take_ge in E by done. set (p := Z.to_nat (pad - zlen d)) in *.
  set (full := d ++ replicate p 0). assert (zlen full = n) as Hn by (unfold full; rewrite zlen_app; unfold n, p, zlen in *; rewrite length_replicate; lia).
  assert (is_bytes full) as Hfull.
  { apply Forall_app. split; [done|]. apply Forall_replicate. unfold is_byte. lia. }
  assert (hex_text full = hex_text d ++ replicate (2 * p) 48) as Eh.
  { unfold full, hex_text. rewrite map_app, concat_app. f_equal. clear. induction p as [|p IH]; [done|].
    replace (2 * S p)%nat with (S (S (2 * p))) by lia. cbn [replicate map concat]. by rewrite IH. }
  pose proof (hex_text_spells full Hfull) as Hsp.
  eexists _, (hex_text full). split; [rewrite E; f_equal; f_equal; unfold n, p, zlen; lia|]. rewrite app_assoc, <- Eh. split; [|split; [|split]].
  - apply (cstr_at []). apply hex_text_no_zero.
  - unfold zlen. rewrite length_hex_text. unfold zlen in Hn. lia.
  - rewrite (hex_pairs_parsed _ _ buf n Hsp) by lia. assert (Nat.min (length full) (Z.to_nat n) = length full) as -> by (unfold zlen in Hn; lia).
    rewrite firstn_all. unfold zlen in Hn. rewrite Hn. assert (length full = Z.to_nat n) as -> by lia.
    unfold full. by rewrite <- app_assoc.
  - intros s len Hlen. unfold parse_string_into_data.
    destruct (parse_data_safe _ s (le_n _) buf 0 len 0) as (k & b & -> & Hk & Hlb); [lia..|]. by exists (0 + k), b.
Qed.

Lemma hex_data_roundtrip_witness :
  is_bytes [18; 171] /\
  exists mem' text, encode_data_into_string [18; 171] (replicate 9 1) (zlen (replicate 9 1)) 3 = Ret (2 * 3, mem') /\ cstr mem' 0 = Ret text /\
    zlen text = 2 * 3 /\
    parse_string_into_data (Some [9; 9; 9; 9]) 3 text = Ret (3, Some ([18; 171] ++ replicate (Z.to_nat (3 - zlen [18; 171])) 0 ++ drop (Z.to_nat 3) [9; 9; 9; 9])) /\
    forall s len, 0 <= len <= zlen [9; 9; 9; 9] -> exists ret buf', parse_string_into_data (Some [9; 9; 9; 9]) len s = Ret (ret, Some buf') /\
      0 <= ret <= len /\ length buf' = length [9; 9; 9; 9].
Proof.
  assert (is_bytes [18; 171]) as Hd by (repeat constructor; unfold is_byte; lia). split; [exact Hd|].
  apply (hex_data_roundtrip [18; 171] (replicate 9 1) 3 [9; 9; 9; 9] Hd); unfold zlen; cbn; lia.
Defined.

(** A digit without a partner keeps its place: the next byte overwrites it, but it
    is counted. *)
Theorem hex_single_digits_collapse c1 c2 sep h1 h2 buf :
  digit c1 = Some h1 -> digit c2 = Some h2 -> digit sep = None -> 2 <= zlen buf ->
  parse_string_into_data (Some buf) 2 [c1; sep; c2; sep] = Ret (2, Some (u8 (Z.shiftl h2 4) :: drop 1 buf)).
Proof.
  intros H1 H2 Hs Hb. destruct buf as [|x buf]; [unfold zlen in Hb; cbn in Hb; lia|].
  unfold parse_string_into_data. cbn [parse_data]. change (0 <? 2) with true. cbn [negb]. rewrite H1.
  assert (forall a y, mem_write (a :: buf) 0 [y] = Ret (y :: buf)) as Hw by (intros a y; apply (mem_write_mid [])).
  rewrite Hw. cbn [mbind outcome_bind]. rewrite Hs. change (0 <? 2 - 1) with true. cbn [negb]. rewrite H2, Hw.
  by rewrite ?Hs.
Qed.

Lemma hex_single_digits_collapse_witness :
  digit 49 = Some 1 /\ parse_string_into_data (Some [7; 7]) 2 (str "1:2:") = Ret (2, Some [32; 7]).
Proof. split; [reflexivity|]. apply (hex_single_digits_collapse 49 50 58 1 2 [7; 7]); [reflexivity..|unfold zlen; cbn; lia]. Defined.



(** ** Channel masks *)

(** A channel, or all from one to another, in either order. *)
Inductive chan : Type := One (n : Z) | Span (a b : Z).
Definition chan_ok (c : chan) : Prop :=
  match c with One n => 0 <= n < 32 | Span a b => 0 <= a < 32 /\ 0 <= b < 32 end.
Definition covers (i : Z) (c : chan) : bool :=
  match c with One n => i =? n | Span a b => (Z.min a b <=? i) && (i <=? Z.max a b) end.
Definition print_chan (c : chan) : list Z :=
  match c with One n => print_int n | Span a b => print_int a ++ 45 :: print_int b end.
Definition print_chans (cs : list chan) : list Z := concat (map (fun c => print_chan c ++ [44]) cs).

Lemma print_digits n : 0 <= n -> Forall dec_char (print_int n) /\ print_int n <> [].
Proof.
  intros Hn. unfold print_int. rewrite (proj2 (Z.ltb_ge n 0)) by lia. pose proof (print_nat_fuel n Hn) as Hf. unfold print_nat.
  split; [apply (dec_digits_ok _ n Hf)|]. cbn [dec_digits]. destruct (n <? 10); [done|]. by destruct (dec_digits _ _).
Qed.

Lemma digits_avoid c l : ~ dec_char c -> Forall dec_char l -> Forall (fun x => x <> c) l.
Proof. intros Hc Hl. induction Hl as [|x l Hx _ IH]; constructor; [by intros ->|done]. Qed.

Lemma atoi_print n : 0 <= n < 2 ^ 31 -> atoi (print_int n) = n.
Proof.
  intros Hn. unfold atoi, strtol. rewrite <- (app_nil_r (print_int n)), strtoll_print by (auto || lia || done). cbn [fst]. by apply int32_id; lia.
Qed.

Lemma tokens_run t : forall cur s, Forall (fun x => x <> 44) t -> tokens_from cur (t ++ s) = tokens_from (cur ++ t) s.
Proof.
  induction t as [|c t IH]; intros cur s Ht; [by rewrite app_nil_r|]. apply Forall_cons_iff in Ht as [Hc Ht]. cbn [app tokens_from].
  rewrite (proj2 (Z.eqb_neq c 44)) by done. rewrite IH by done. by rewrite <- app_assoc.
Qed.

Lemma print_chan_token c : chan_ok c -> Forall (fun x => x <> 44) (print_chan c) /\ print_chan c <> [].
Proof.
  assert (~ dec_char 44) as H44 by (unfold dec_char; lia). destruct c as [n|a b]; cbn [chan_ok print_chan].
  - intros H. destruct (print_digits n ltac:(lia)) as [Hd Hne]. split; [by apply digits_avoid|done].
  - intros [Ha Hb]. destruct (print_digits a ltac:(lia)) as [Da Na], (print_digits b ltac:(lia)) as [Db Nb]. split.
    + apply Forall_app. split; [by apply digits_avoid|]. constructor; [lia|by apply digits_avoid].
    + by destruct (print_int a).
Qed.

Lemma tokens_chans cs : Forall chan_ok cs -> strtok_commas (print_chans cs) = map print_chan cs.
Proof.
  unfold strtok_commas. induction 1 as [|c cs Hc Hcs IH]; [done|]. destruct (print_chan_token c Hc) as [Ht Hne].
  change (print_chans (c :: cs)) with ((print_chan c ++ [44]) ++ print_chans cs). rewrite <- app_assoc, tokens_run by done.
  cbn [app tokens_from Z.eqb Pos.eqb map]. rewrite IH. by destruct (print_chan c).
Qed.

Lemma testbit_pow2 n i : 0 <= n -> 0 <= i -> Z.testbit (2 ^ n) i = (i =? n).
Proof. intros Hn Hi. rewrite Z.pow2_bits_eqb by done. apply Z.eqb_sym. Qed.

Lemma mask_range_run n : forall start mask,
  0 <= start -> start + Z.of_nat n <= 32 ->
  exists m, mask_range n start mask = Ret m /\
    forall i, 0 <= i -> Z.testbit m i = Z.testbit mask i || ((start <=? i) && (i <? start + Z.of_nat n)).
Proof.
  induction n as [|n IH]; intros start mask H0 H1; cbn [mask_range].
  { exists mask. split; [done|]. intros i Hi. replace ((start <=? i) && _) with false; [by rewrite orb_false_r|].
    destruct (Z.leb_spec start i); [|done]. symmetry. apply Z.ltb_ge. lia. }
  unfold shift1. rewrite (proj2 (Z.leb_le 0 start)), (proj2 (Z.ltb_lt start 32)) by lia. cbn [andb mbind outcome_bind].
  destruct (IH (start + 1) (Z.lor mask (2 ^ start)) ltac:(lia) ltac:(lia)) as (m & E & Hm). exists m. split; [done|]. intros i Hi.
  rewrite Hm by done. rewrite Z.lor_spec, testbit_pow2 by lia. rewrite <- orb_assoc. f_equal.
  destruct (Z.eqb_spec i start), (Z.leb_spec (start + 1) i), (Z.leb_spec start i), (Z.ltb_spec i (start + 1 + Z.of_nat n)),
    (Z.ltb_spec i (start + Z.of_nat (S n))); cbn; try done; lia.
Qed.

Lemma mask_token_run mask c :
  chan_ok c -> exists m, mask_token mask (print_chan c) = Ret m /\
    forall i, 0 <= i -> Z.testbit m i = Z.testbit mask i || covers i c.
Proof.
  assert (~ dec_char 45) as H45 by (unfold dec_char; lia). unfold mask_token. destruct c as [n|a b]; cbn [chan_ok print_chan covers].
  - intros H. destruct (print_digits n ltac:(lia)) as [Hd _]. rewrite strchr_none by (by apply digits_avoid).
    unfold strtol. rewrite <- (app_nil_r (print_int n)), strtoll_print by (auto || lia || done). cbn [fst]. unfold shift1.
    rewrite (proj2 (Z.leb_le 0 n)), (proj2 (Z.ltb_lt n 32)) by lia. cbn [andb mbind outcome_bind]. eexists. split; [done|].
    intros i Hi. by rewrite Z.lor_spec, testbit_pow2 by lia.
  - intros [Ha Hb]. destruct (print_digits a ltac:(lia)) as [Da _]. rewrite strchr_at by (by apply digits_avoid).
    rewrite take_app_length. replace (S (length (print_int a))) with (length (print_int a ++ [45])) by (rewrite length_app; cbn; lia).
    replace (print_int a ++ 45 :: print_int b) with ((print_int a ++ [45]) ++ print_int b) by (by rewrite <- app_assoc).
    rewrite drop_app_length, !atoi_print by lia.
    destruct (Z.ltb_spec a b).
    + destruct (mask_range_run (Z.to_nat (b - a + 1)) a mask ltac:(lia) ltac:(lia)) as (m & E & Hm). exists m. split; [done|].
      intros i Hi. rewrite Hm by done. f_equal. rewrite Z.min_l, Z.max_r by lia. f_equal.
      destruct (Z.ltb_spec i (a + Z.of_nat (Z.to_nat (b - a + 1)))), (Z.leb_spec i b); (done || lia).
    + destruct (mask_range_run (Z.to_nat (a - b + 1)) b mask ltac:(lia) ltac:(lia)) as (m & E & Hm). exists m. split; [done|].
      intros i Hi. rewrite Hm by done. f_equal. rewrite Z.min_r, Z.max_l by lia. f_equal.
      destruct (Z.ltb_spec i (b + Z.of_nat (Z.to_nat (a - b + 1)))), (Z.leb_spec i a); (done || lia).
Qed.

(** A list of channels and spans of channels, in either order, between 0 and 31
    and separated by commas, is read as the mask whose bits are the channels it
    covers. *)
Theorem channel_mask_of_list cs :
  Forall chan_ok cs ->
  exists m, strtomask_uint32 (print_chans cs) = Ret m /\ forall i, 0 <= i -> Z.testbit m i = existsb (covers i) cs.
Proof.
  intros Hcs. unfold strtomask_uint32. rewrite tokens_chans by done.
  assert (forall mask, exists m, mask_tokens mask (map print_chan cs) = Ret m /\
    forall i, 0 <= i -> Z.testbit m i = Z.testbit mask i || existsb (covers i) cs) as Hgo.
  { induction Hcs as [|c cs Hc Hcs IH]; intros mask; cbn [map mask_tokens existsb].
    - exists mask. split; [done|]. intros i _. by rewrite orb_false_r.
    - destruct (mask_token_run mask c Hc) as (m1 & -> & H1). cbn [mbind outcome_bind]. destruct (IH m1) as (m & E & Hm). exists m.
      split; [done|]. intros i Hi. by rewrite Hm, H1, orb_assoc by done. }
  destruct (Hgo 0) as (m & E & Hm). exists m. split; [done|]. intros i Hi. rewrite Hm by done. by rewrite Z.testbit_0_l.
Qed.

Lemma channel_mask_of_list_witness :
  strtomask_uint32 (str "11,15-13,") = Ret 59392 /\
  exists m, strtomask_uint32 (print_chans [One 11; Span 15 13]) = Ret m /\ forall i, 0 <= i -> Z.testbit m i = existsb (covers i) [One 11; Span 15 13].
Proof.
  split; [vm_compute; reflexivity|]. apply (channel_mask_of_list [One 11; Span 15 13]). repeat constructor; cbn; lia.
Defined.

(** A channel beyond 31 is an undefined shift, and a number with a leading zero is
    octal alone but decimal in a span. *)
Example channel_beyond : strtomask_uint32 (str "40") = Undef SignedOverflow.
Proof. reflexivity. Qed.
Example channel_octal : strtomask_uint32 (str "010") = Ret (2 ^ 8) /\ strtomask_uint32 (str "010-010") = Ret (2 ^ 10).
Proof. split; reflexivity. Qed.


(** ** Log masks *)

Lemma log_word_bit value w k mask i :
  0 <= k -> 0 <= i ->
  Z.testbit (log_word value w (2 ^ k) mask) i =
  if (i =? k) && strcasestr value w then negb (strcasestr value (45 :: w)) else Z.testbit mask i.
Proof.
  intros Hk Hi. unfold log_word. destruct (strcasestr value w); [|by rewrite andb_false_r]. rewrite andb_true_r.
  destruct (strcasestr value (45 :: w)).
  - rewrite Z.land_spec, Z.lnot_spec, testbit_pow2 by done. destruct (i =? k); [by rewrite andb_false_r|by rewrite andb_true_r].
  - rewrite Z.lor_spec, testbit_pow2 by done. destruct (i =? k); [by rewrite orb_true_r|by rewrite orb_false_r].
Qed.

Lemma log_all_bit value mask i :
  0 <= i ->
  Z.testbit (log_word value (str "all") (-1) mask) i =
  if strcasestr value (str "all") then negb (strcasestr value (str "-all")) else Z.testbit mask i.
Proof.
  intros Hi. unfold log_word. change (45 :: str "all") with (str "-all"). destruct (strcasestr value (str "all")); [|done].
  destruct (strcasestr value (str "-all")); [by rewrite Z.land_0_r, Z.testbit_0_l|]. by rewrite Z.lor_m1_r, Z.bits_m1.
Qed.

(** A value that is not a number sets the bit of a level that it names, clears it
    when it names it with a minus, and else treats it as "all" or "-all" say, or
    keeps it; the case of letters does not matter.  A value that is a number other
    than zero is the mask itself. *)
Theorem log_mask_words value prev w n :
  (w, n) ∈ levels ->
  Z.testbit (strtologmask value prev) n =
  (let num := int32 (fst (strtol 0 value)) in
   if negb (num =? 0) then Z.testbit num n
   else if strcasestr value w then negb (strcasestr value (45 :: w))
   else if strcasestr value (str "all") then negb (strcasestr value (str "-all"))
   else Z.testbit prev n).
Proof.
  intros Hin. unfold strtologmask. cbv zeta. destruct (int32 (fst (strtol 0 value)) =? 0); [|done]. cbn [negb].
  unfold levels in *. rewrite !elem_of_cons, elem_of_nil in Hin. cbn [foldl fst snd].
  destruct_or?; try done; simplify_eq; rewrite !log_word_bit by lia; rewrite log_all_bit by lia; cbn [Z.eqb Pos.eqb andb];
    by destruct (strcasestr value _).
Qed.

Lemma log_mask_words_witness :
  strtologmask (str "-all Err") 255 = 8 /\
  Z.testbit (strtologmask (str "-all Err") 255) 3 =
  (let num := int32 (fst (strtol 0 (str "-all Err"))) in
   if negb (num =? 0) then Z.testbit num 3
   else if strcasestr (str "-all Err") (str "err") then negb (strcasestr (str "-all Err") (45 :: str "err"))
   else if strcasestr (str "-all Err") (str "all") then negb (strcasestr (str "-all Err") (str "-all"))
   else Z.testbit 255 3).
Proof.
  split; [vm_compute; reflexivity|]. apply (log_mask_words (str "-all Err") 255 (str "err") 3).
  unfold levels. rewrite !elem_of_cons. auto.
Defined.

(** A mask of zero cannot be given as a number. *)
Example log_mask_zero_kept prev : strtologmask (str "0") prev = prev.
Proof. reflexivity. Qed.

(** ** Times *)

(** Up to 2147483 seconds the milliseconds are right; from there to 4294967 seconds
    the check for an overflow, which compares with the range of 64 bits, does not
    help, and a time ahead counts as past. *)
Theorem cms_until_range now time :
  let d := time - now in
  (-2147483 <= d <= 2147483 -> cms_until_time now time = Ret (d * 1000)) /\
  (2147484 <= d <= 4294967 -> exists ms, cms_until_time now time = Ret ms /\ ms < 0).
Proof.
  intros d. unfold cms_until_time, check64. fold d.
  assert (-2147483 <= d <= 4294967 -> cms_until_time now time = Ret (int32 (d * 1000))) as E.
  { intros Hd. unfold cms_until_time, check64. fold d.
    rewrite (proj2 (Z.leb_le (- 2 ^ 63) d)), (proj2 (Z.ltb_lt d (2 ^ 63))) by lia. cbn [andb mbind outcome_bind].
    rewrite (proj2 (Z.ltb_ge (TIME_DISTANT_FUTURE / MSEC_PER_SEC) d)) by (change (TIME_DISTANT_FUTURE / MSEC_PER_SEC) with 9223372036854775; lia).
    unfold MSEC_PER_SEC. rewrite (proj2 (Z.leb_le (- 2 ^ 63) (d * 1000))), (proj2 (Z.ltb_lt (d * 1000) (2 ^ 63))) by lia. done. }
  unfold cms_until_time, check64 in E. fold d in E. split; intros Hd; (rewrite E by lia).
  - by rewrite int32_id by lia.
  - eexists. split; [done|]. replace (int32 (d * 1000)) with (d * 1000 - 2 ^ 32); [lia|]. symmetry. unfold int32.
    rewrite (Z.mod_eq _ (2 ^ 32)) by lia. replace ((d * 1000 + 2 ^ 31) / 2 ^ 32) with 1; [lia|].
    apply (Z.div_unique _ _ _ (d * 1000 + 2 ^ 31 - 2 ^ 32)); lia.
Qed.


End StrUtil.
