(* ===== verification/ConfigFile.v ===== *)
(** * Words of a line (src/util/config-file.c, src/wfanctl/wfanctl.c)

    [get_next_arg] cuts the next word off a string in place: quotes and backslashes
    are removed while the word is moved to the front.  Its clients are the reader
    of configuration files, which gives the first two words of each line to a
    function, and the command line of wfanctl, which collects the words of a line
    in an array.  [fgetln] of third_party/fgetln hands out a line as [getline]
    reads it, with its end and a zero behind it. *)

From Stdlib Require Import ZArith Lia String.
From stdpp Require Import base list option numbers.
From S2P Require Import Prelude CStr.

Open Scope Z_scope.

Module ConfigFile.
Import CStr.

(** ** get_next_arg *)

Fixpoint trim_white (fuel : nat) (mem : list Z) (buf : Z) : outcome Z :=
  match fuel with
  | O => NoFuel
  | S fuel => c ← byte mem buf; if is_space c then trim_white fuel mem (buf + 1) else Ret buf
  end.

(** The memory, and where [buf] and [write_iter] are at the end. *)
Fixpoint arg_loop (fuel : nat) (mem : list Z) (buf write_iter quote_type : Z) : outcome (list Z * Z * Z) :=
  match fuel with
  | O => NoFuel
  | S fuel =>
      let copy (c : Z) :=
        esc ← (if c =? 92 then d ← byte mem (buf + 1); Ret (negb (d =? 0)) else Ret false);
        let buf := if (esc : bool) then buf + 1 else buf in
        x ← byte mem buf;
        mem ← mem_write mem write_iter [x];
        arg_loop fuel mem (buf + 1) (write_iter + 1) quote_type in
      c ← byte mem buf;
      if c =? 0 then Ret (mem, buf, write_iter)
      else if negb (quote_type =? 0) then
        if c =? quote_type then arg_loop fuel mem (buf + 1) write_iter 0 else copy c
      else if (c =? 34) || (c =? 39) then arg_loop fuel mem (buf + 1) write_iter c
      else if is_space c then Ret (mem, buf + 1, write_iter)
      else copy c
  end.

(** The word, where to go on, and the memory. *)
Definition get_next_arg (mem : list Z) (buf : Z) : outcome (option Z * Z * list Z) :=
  buf ← trim_white (S (length mem)) mem buf;
  c ← byte mem buf;
  if (c =? 0) || (c =? 35) then Ret (None, buf, mem)
  else
    '(mem, rest, write_iter) ← arg_loop (S (length mem)) mem buf buf 0;
    mem ← mem_write mem write_iter [0];
    Ret (Some buf, rest, mem).

(** ** Configuration files *)

(** A line with its end, and what follows it. *)
Fixpoint getline (text : list Z) : list Z * list Z :=
  match text with
  | [] => ([], [])
  | c :: text => if c =? 10 then ([c], text) else let '(l, r) := getline text in (c :: l, r)
  end.

Definition strnlen (mem : list Z) (off n : Z) : outcome Z :=
  match until_zero (take (Z.to_nat n) (drop (Z.to_nat off) mem)) with
  | Some s => Ret (zlen s)
  | None => if off + n <=? zlen mem then Ret n else Undef OutOfBounds
  end.

Section Reader.
Context {C : Type}.
Variable setter : C -> list Z -> list Z -> Z * C.

(** The body of the loop for a line. *)
Definition config_line (line : list Z) (ctx : C) : outcome (Z * C) :=
  let line_len := zlen line in
  '(key, rest, mem) ← get_next_arg (line ++ [0]) 0;
  match key with
  | None => Ret (0, ctx)
  | Some key =>
      n ← strnlen mem key line_len;
      mem ← mem_write mem (key + n) [0];
      l ← strlen mem key;
      if line_len <=? l then Ret (0, ctx)
      else
        let line_len := line_len - l in
        '(value, rest, mem) ← get_next_arg mem rest;
        match value with
        | None => Ret (0, ctx)
        | Some value =>
            n ← strnlen mem value line_len;
            mem ← mem_write mem (value + n) [0];
            k ← cstr mem key;
            v ← cstr mem value;
            Ret (setter ctx k v)
        end
  end.

(** [eof] is the flag of the file: the last read met the end.  A line is read before
    the result of the previous one is looked at. *)
Fixpoint config_loop (fuel : nat) (text : list Z) (eof : bool) (ret : Z) (ctx : C) : outcome (Z * C) :=
  match fuel with
  | O => NoFuel
  | S fuel =>
      if eof then Ret (ret, ctx)
      else match text with
           | [] => Ret (ret, ctx)
           | _ =>
               let '(line, rest) := getline text in
               if negb (ret =? 0) then Ret (ret, ctx)
               else
                 '(ret, ctx) ← config_line line ctx;
                 config_loop fuel rest (negb (existsb (Z.eqb 10) line)) ret ctx
           end
  end.

(** [file] is none for a null pointer. *)
Definition fread_config (file : option (list Z)) (ctx : C) : outcome (Z * C) :=
  match file with
  | None => Ret (-1, ctx)
  | Some text => config_loop (S (S (length text))) text false 0 ctx
  end.

(** A file that cannot be opened is none as well. *)
Definition read_config (file : option (list Z)) (ctx : C) : outcome (Z * C) :=
  match file with
  | None => Ret (-1, ctx)
  | Some _ => fread_config file ctx
  end.

End Reader.

(** ** The command line *)

Definition argv2_size : Z := 100.

(** The places of the words, in order. *)
Fixpoint input_loop (fuel : nat) (mem : list Z) (buf : Z) (ap : list Z) : outcome (list Z * list Z) :=
  match fuel with
  | O => NoFuel
  | S fuel =>
      '(w, buf, mem) ← get_next_arg mem buf;
      if argv2_size <=? zlen ap then Undef OutOfBounds
      else match w with
           | None => Ret (ap, mem)
           | Some p =>
               c ← byte mem p;
               input_loop fuel mem buf (if negb (c =? 0) then ap ++ [p] else ap)
           end
  end.

Fixpoint strings_at (mem : list Z) (ps : list Z) : outcome (list (list Z)) :=
  match ps with
  | [] => Ret []
  | p :: ps => s ← cstr mem p; ss ← strings_at mem ps; Ret (s :: ss)
  end.

(** The words the command is run with; none for an empty line. *)
Definition process_input_line (l : list Z) : outcome (list (list Z)) :=
  match l with
  | [] => Ret []
  | _ =>
      '(argv, mem) ← input_loop (S (S (length l))) (l ++ [0]) 0 [];
      strings_at mem argv
  end.

(** ** What a word is

    The same on lists, without memory: the word that begins here and what is behind
    it. *)

Fixpoint lex_arg (quote_type : Z) (s : list Z) : list Z * list Z :=
  match s with
  | [] => ([], [])
  | c :: s' =>
      let copy :=
        match s' with
        | d :: s'' => if c =? 92 then let '(a, r) := lex_arg quote_type s'' in (d :: a, r)
                      else let '(a, r) := lex_arg quote_type s' in (c :: a, r)
        | [] => ([c], [])
        end in
      if negb (quote_type =? 0) then if c =? quote_type then lex_arg 0 s' else copy
      else if (c =? 34) || (c =? 39) then lex_arg c s'
      else if is_space c then ([], s')
      else copy
  end.

Definition lex (s : list Z) : option (list Z * list Z) :=
  match drop (skip_spaces s) s with
  | [] => None
  | c :: s' => if c =? 35 then None else Some (lex_arg 0 (c :: s'))
  end.

(** *** The work in place *)

Lemma byte_in a x b off : off = zlen a -> byte (a ++ x :: b) off = Ret x.
Proof. intros ->. apply byte_at. Qed.

(** A string in memory: nothing but its last byte is zero. *)
Lemma trim_run fuel : forall pre s post,
  no_zero s -> (length s < fuel)%nat ->
  trim_white fuel (pre ++ s ++ 0 :: post) (zlen pre) = Ret (zlen pre + Z.of_nat (skip_spaces s)).
Proof.
  induction fuel as [|fuel IH]; intros pre s post Hs Hf; [lia|]. cbn [trim_white].
  destruct s as [|c s]; cbn [app skip_spaces].
  { rewrite byte_at. cbn [mbind outcome_bind]. change (is_space 0) with false. by rewrite Z.add_0_r. }
  apply Forall_cons_iff in Hs as [Hc Hs]. cbn [length] in Hf. rewrite byte_at. cbn [mbind outcome_bind].
  destruct (is_space c); [|by rewrite Z.add_0_r].
  change (pre ++ c :: s ++ 0 :: post) with (pre ++ [c] ++ s ++ 0 :: post). rewrite app_assoc.
  replace (zlen pre + 1) with (zlen (pre ++ [c])) by (by rewrite zlen_app). rewrite IH by (done || lia). rewrite zlen_app.
  change (zlen [c]) with 1. f_equal. lia.
Qed.

(** Storing the next character of a word that was written up to the end of [a]. *)
Lemma store_char (p a junk mid r : list Z) x :
  junk ++ mid <> [] ->
  exists junk', mem_write (p ++ a ++ junk ++ mid ++ r) (zlen (p ++ a)) [x] = Ret (p ++ (a ++ [x]) ++ junk' ++ r) /\
    zlen (p ++ (a ++ [x]) ++ junk') = zlen (p ++ a ++ junk ++ mid).
Proof.
  intros Hne. destruct (junk ++ mid) as [|y l] eqn:E; [done|]. exists l.
  rewrite (app_assoc junk mid r), E, (app_assoc p a). cbn [app].
  rewrite mem_write_mid. split; [by rewrite <- !app_assoc|]. rewrite !zlen_app. unfold zlen. cbn [length]. lia.
Qed.

Lemma lex_cons_copy q c s' :
  (if negb (q =? 0) then negb (c =? q) else negb ((c =? 34) || (c =? 39)) && negb (is_space c)) = true ->
  lex_arg q (c :: s') =
  match s' with
  | d :: s'' => if c =? 92 then let '(a, r) := lex_arg q s'' in (d :: a, r) else let '(a, r) := lex_arg q s' in (c :: a, r)
  | [] => ([c], [])
  end.
Proof.
  intros H. cbn [lex_arg]. destruct (negb (q =? 0)); [by apply negb_true_iff in H as ->|].
  apply andb_true_iff in H as [H1 H2]. apply negb_true_iff in H1 as ->, H2 as ->. done.
Qed.

(** The loop cuts the word the lexer cuts; there is something between the word and
    the rest, unless there is no rest. *)
Lemma arg_loop_run n : forall s q fuel p a junk post,
  (length s <= n)%nat -> no_zero s -> (length s < fuel)%nat ->
  let '(w, r) := lex_arg q s in
  exists junk', arg_loop fuel (p ++ a ++ junk ++ s ++ 0 :: post) (zlen (p ++ a ++ junk)) (zlen (p ++ a)) q =
      Ret (p ++ (a ++ w) ++ junk' ++ r ++ 0 :: post, zlen (p ++ (a ++ w) ++ junk'), zlen (p ++ a ++ w)) /\
    (junk' = [] -> r = []) /\ no_zero w /\ no_zero r /\ (length w + length r <= length s)%nat.
Proof.
  induction n as [|n IH]; intros s q fuel p a junk post Hn Hs Hf;
    assert (forall x, p ++ a ++ junk ++ x = (p ++ a ++ junk) ++ x) as Hassoc by (intros; by rewrite <- !app_assoc).
  { destruct s; [|cbn in Hn; lia]. cbn [lex_arg]. destruct fuel as [|fuel]; [lia|]. cbn [arg_loop app].
    rewrite Hassoc, byte_at. cbn [mbind outcome_bind Z.eqb]. exists junk. rewrite !app_nil_r, <- Hassoc.
    split; [done|]. by repeat constructor. }
  destruct s as [|c s]; [by apply (IH [] q fuel p a junk post ltac:(cbn; lia) Hs Hf)|].
  apply Forall_cons_iff in Hs as [Hc Hs]. cbn [length] in Hn, Hf. destruct fuel as [|fuel]; [lia|].
  (* a character that is dropped *)
  assert (forall q', let '(w, r) := lex_arg q' s in
    exists junk', arg_loop fuel (p ++ a ++ junk ++ (c :: s) ++ 0 :: post) (zlen (p ++ a ++ junk) + 1) (zlen (p ++ a)) q' =
      Ret (p ++ (a ++ w) ++ junk' ++ r ++ 0 :: post, zlen (p ++ (a ++ w) ++ junk'), zlen (p ++ a ++ w)) /\
    (junk' = [] -> r = []) /\ no_zero w /\ no_zero r /\ (length w + length r <= S (length s))%nat) as Hskip.
  { intros q'. specialize (IH s q' fuel p a (junk ++ [c]) post ltac:(lia) Hs ltac:(lia)). destruct (lex_arg q' s) as [w r].
    destruct IH as (j & E & Hj & Hw & Hr & Hl). exists j. split; [|split_and!; try done; lia]. rewrite <- E.
    f_equal; [by rewrite <- !app_assoc|]. rewrite !zlen_app. change (zlen [c]) with 1. lia. }
  (* a character that is copied, from [mid] *)
  assert (forall x mid s2, c :: s = mid ++ s2 -> mid <> [] -> x <> 0 -> let '(w, r) := lex_arg q s2 in
    exists junk', (mem ← mem_write (p ++ a ++ junk ++ (c :: s) ++ 0 :: post) (zlen (p ++ a)) [x];
                   arg_loop fuel mem (zlen (p ++ a ++ junk ++ mid)) (zlen (p ++ a) + 1) q) =
      Ret (p ++ (a ++ x :: w) ++ junk' ++ r ++ 0 :: post, zlen (p ++ (a ++ x :: w) ++ junk'), zlen (p ++ a ++ x :: w)) /\
    (junk' = [] -> r = []) /\ no_zero (x :: w) /\ no_zero r /\ (length (x :: w) + length r <= S (length s))%nat) as Hcopy.
  { intros x mid s2 Emid Hmid Hx. destruct (store_char p a junk mid (s2 ++ 0 :: post) x) as (j & E & Ez); [by destruct junk|].
    assert (length s2 <= length s)%nat as Hl2.
    { apply (f_equal length) in Emid. rewrite length_app in Emid. destruct mid; [done|]. cbn in Emid. lia. }
    assert (no_zero s2) as Hs2.
    { destruct mid as [|m mid]; [done|]. injection Emid as -> ->. by apply Forall_app in Hs as [_ ?]. }
    specialize (IH s2 q fuel p (a ++ [x]) j post ltac:(lia) Hs2 ltac:(lia)). destruct (lex_arg q s2) as [w r].
    destruct IH as (j' & E' & Hj & Hw & Hr & Hl). exists j'. split; [|split_and!; try done; [by constructor|cbn [length]; lia]].
    rewrite Emid, <- (app_assoc mid), E. cbn [mbind outcome_bind]. rewrite <- Ez.
    replace (zlen (p ++ a) + 1) with (zlen (p ++ a ++ [x])) by (rewrite (app_assoc p), (zlen_app _ [x]); done).
    rewrite E'. rewrite <- !(app_assoc a). done. }
  assert (byte (p ++ a ++ junk ++ (c :: s) ++ 0 :: post) (zlen (p ++ a ++ junk)) = Ret c) as Eb by (rewrite Hassoc; apply byte_at).
  (* the code that copies *)
  assert ((if negb (q =? 0) then negb (c =? q) else negb ((c =? 34) || (c =? 39)) && negb (is_space c)) = true ->
    let '(w, r) := lex_arg q (c :: s) in
    exists junk', (esc ← (if c =? 92 then d ← byte (p ++ a ++ junk ++ (c :: s) ++ 0 :: post) (zlen (p ++ a ++ junk) + 1); Ret (negb (d =? 0)) else Ret false);
        let buf := if (esc : bool) then zlen (p ++ a ++ junk) + 1 else zlen (p ++ a ++ junk) in
        x ← byte (p ++ a ++ junk ++ (c :: s) ++ 0 :: post) buf;
        mem ← mem_write (p ++ a ++ junk ++ (c :: s) ++ 0 :: post) (zlen (p ++ a)) [x];
        arg_loop fuel mem (buf + 1) (zlen (p ++ a) + 1) q) =
      Ret (p ++ (a ++ w) ++ junk' ++ r ++ 0 :: post, zlen (p ++ (a ++ w) ++ junk'), zlen (p ++ a ++ w)) /\
    (junk' = [] -> r = []) /\ no_zero w /\ no_zero r /\ (length w + length r <= S (length s))%nat) as Hcode.
  { intros Hcp. rewrite lex_cons_copy by done.
    assert (forall l, zlen (p ++ a ++ junk) + zlen l = zlen (p ++ a ++ junk ++ l)) as Hz by (intros l; by rewrite Hassoc, (zlen_app _ l)).
    pose proof (Hcopy c [c] s eq_refl ltac:(done) Hc) as H1. rewrite <- (Hz [c]) in H1. change (zlen [c]) with 1 in H1.
    destruct s as [|d s'].
    - cbn [lex_arg] in H1. destruct (c =? 92) eqn:E92; cbn [mbind outcome_bind].
      + assert (byte (p ++ a ++ junk ++ [c] ++ 0 :: post) (zlen (p ++ a ++ junk) + 1) = Ret 0) as ->.
        { rewrite Hassoc, app_assoc. apply byte_in. by rewrite (zlen_app _ [c]). }
        cbn [mbind outcome_bind negb Z.eqb]. rewrite Eb. exact H1.
      + rewrite Eb. exact H1.
    - apply Forall_cons_iff in Hs as [Hd Hs']. destruct (c =? 92) eqn:E92; cbn [mbind outcome_bind].
      + assert (byte (p ++ a ++ junk ++ (c :: d :: s') ++ 0 :: post) (zlen (p ++ a ++ junk) + 1) = Ret d) as Ed.
        { rewrite Hassoc. change ((c :: d :: s') ++ 0 :: post) with ([c] ++ d :: s' ++ 0 :: post). rewrite app_assoc. apply byte_in. by rewrite (zlen_app _ [c]). }
        rewrite Ed. cbn [mbind outcome_bind]. rewrite (proj2 (Z.eqb_neq d 0)) by done. cbn [negb]. rewrite Ed. cbn [mbind outcome_bind].
        pose proof (Hcopy d [c; d] s' eq_refl ltac:(done) Hd) as H2. rewrite <- (Hz [c; d]) in H2. change (zlen [c; d]) with 2 in H2.
        destruct (lex_arg q s') as [w r]. rewrite <- Z.add_assoc. change (1 + 1) with 2. exact H2.
      + rewrite Eb. cbn [mbind outcome_bind]. destruct (lex_arg q (d :: s')) as [w r]. exact H1. }
  cbn [arg_loop]. rewrite Eb. cbn [mbind outcome_bind]. rewrite (proj2 (Z.eqb_neq c 0)) by done.
  destruct (negb (q =? 0)) eqn:Eq.
  - destruct (c =? q) eqn:Ecq; [|exact (Hcode eq_refl)]. cbn [lex_arg]. rewrite Eq, Ecq. exact (Hskip 0).
  - destruct ((c =? 34) || (c =? 39)) eqn:Equ; [cbn [lex_arg]; rewrite Eq, Equ; exact (Hskip c)|].
    destruct (is_space c) eqn:Esp; [|exact (Hcode eq_refl)]. cbn [lex_arg]. rewrite Eq, Equ, Esp.
    exists (junk ++ [c]). split; [|split; [by destruct junk|]].
    + rewrite !app_nil_r. rewrite <- (app_assoc junk). cbn [app]. do 3 f_equal. rewrite Hassoc, (zlen_app _ [c]). done.
    + split; [constructor|]. split; [done|cbn; lia].
Qed.

(** *** The word, and the rest, in memory *)

Lemma drop_spaces s : exists sp, s = sp ++ drop (skip_spaces s) s /\ length sp = skip_spaces s.
Proof.
  exists (take (skip_spaces s) s). split; [by rewrite take_drop|]. rewrite length_take.
  assert (skip_spaces s <= length s)%nat; [|lia]. induction s as [|c s IH]; [done|]. cbn [skip_spaces length]. destruct (is_space c); lia.
Qed.

(** Memory behind [pre] keeps its shape: the word is a string at [p], the rest
    begins at [off]. *)
Lemma next_arg_run pre s post :
  no_zero s ->
  match lex s with
  | None => exists off, get_next_arg (pre ++ s ++ 0 :: post) (zlen pre) = Ret (None, off, pre ++ s ++ 0 :: post)
  | Some (w, r) =>
      exists pre1 junk, get_next_arg (pre ++ s ++ 0 :: post) (zlen pre) =
        Ret (Some (zlen (pre ++ pre1)), zlen (pre ++ pre1 ++ w ++ 0 :: junk), pre ++ pre1 ++ w ++ 0 :: junk ++ r ++ 0 :: post) /\
      no_zero w /\ no_zero r /\ (length w + length r <= length s)%nat
      \/ r = [] /\ get_next_arg (pre ++ s ++ 0 :: post) (zlen pre) =
        Ret (Some (zlen (pre ++ pre1)), zlen (pre ++ pre1 ++ w), pre ++ pre1 ++ w ++ 0 :: post) /\
      no_zero w /\ (length w <= length s)%nat
  end.
Proof.
  intros Hs. unfold get_next_arg, lex. destruct (drop_spaces s) as (sp & Es & Hsp).
  rewrite trim_run by (done || (rewrite !length_app; cbn; lia)). cbn [mbind outcome_bind].
  assert (zlen pre + Z.of_nat (skip_spaces s) = zlen (pre ++ sp)) as -> by (rewrite zlen_app; unfold zlen; lia).
  destruct (drop (skip_spaces s) s) as [|c s'] eqn:Ed.
  { rewrite app_nil_r in Es. subst sp. exists (zlen (pre ++ s)). rewrite (app_assoc pre), byte_at. done. }
  assert (no_zero (c :: s')) as Hcs by (rewrite Es in Hs; by apply Forall_app in Hs as [_ ?]).
  pose proof (proj1 (Forall_cons_iff _ _ _) Hcs) as [Hc _].
  assert (pre ++ s ++ 0 :: post = (pre ++ sp) ++ (c :: s') ++ 0 :: post) as Em by (rewrite Es at 1; by rewrite <- !app_assoc).
  rewrite Em. cbn [app]. rewrite byte_at. cbn [mbind outcome_bind]. rewrite (proj2 (Z.eqb_neq c 0)) by done. cbn [orb].
  destruct (c =? 35); [by eexists|].
  pose proof (arg_loop_run _ (c :: s') 0 (S (length ((pre ++ sp) ++ c :: s' ++ 0 :: post))) (pre ++ sp) [] [] post (le_n _) Hcs) as H.
  rewrite !app_nil_r in H. cbn [app] in H. destruct (lex_arg 0 (c :: s')) as [w r].
  destruct H as (j & E & Hj & Hw & Hr & Hl); [rewrite !length_app; cbn [length]; rewrite length_app; lia|].
  assert (length (c :: s') <= length s)%nat as Hls by (rewrite Es, length_app; lia).
  rewrite E. cbn [mbind outcome_bind]. destruct j as [|y j].
  - specialize (Hj eq_refl). subst r. exists sp, []. right. split; [done|]. cbn [app].
    rewrite (app_assoc (pre ++ sp) w (0 :: post)), mem_write_mid. cbn [mbind outcome_bind].
    split; [|split; [done|lia]]. rewrite !app_nil_r, <- !app_assoc. done.
  - exists sp, j. left. cbn [app]. rewrite (app_assoc (pre ++ sp) w (y :: j ++ r ++ 0 :: post)), mem_write_mid. cbn [mbind outcome_bind].
    split; [|split_and!; try done; lia].
    rewrite <- !app_assoc. do 3 f_equal. rewrite !zlen_app. unfold zlen. cbn [length]. lia.
Qed.

(** The word is a string where the result says. *)
Lemma cstr_in pre s rest off : no_zero s -> off = zlen pre -> cstr (pre ++ s ++ 0 :: rest) off = Ret s.
Proof. intros Hs ->. by apply cstr_at. Qed.

Lemma mem_write_length l off d b : mem_write l off d = Ret b -> length b = length l.
Proof. intros (H1 & H2 & ->)%mem_write_inv. apply length_splice. unfold zlen in H2. lia. Qed.

Lemma arg_loop_length fuel : forall mem b w q mem' b' w',
  arg_loop fuel mem b w q = Ret (mem', b', w') -> length mem' = length mem.
Proof.
  induction fuel as [|fuel IH]; intros mem b w q mem' b' w'; [done|]. cbn [arg_loop]. intros (c & _ & H)%bind_Ret_inv.
  assert (forall o : outcome bool, (esc ← o; let buf := if (esc : bool) then b + 1 else b in
    x ← byte mem buf; m ← mem_write mem w [x]; arg_loop fuel m (buf + 1) (w + 1) q) = Ret (mem', b', w') -> length mem' = length mem) as Hcopy.
  { intros o (e & _ & (x & _ & (m & Hm & Hr)%bind_Ret_inv)%bind_Ret_inv)%bind_Ret_inv. apply IH in Hr. apply mem_write_length in Hm. congruence. }
  destruct (c =? 0); [by simplify_eq|]. destruct (negb (q =? 0)).
  - destruct (c =? q); [by eapply IH|by eapply Hcopy].
  - destruct ((c =? 34) || (c =? 39)); [by eapply IH|]. destruct (is_space c); [by simplify_eq|by eapply Hcopy].
Qed.

Lemma next_arg_length mem b o off mem' : get_next_arg mem b = Ret (o, off, mem') -> length mem' = length mem.
Proof.
  unfold get_next_arg. intros (b1 & _ & (c & _ & H)%bind_Ret_inv)%bind_Ret_inv. destruct (_ || _); [by simplify_eq|].
  apply bind_Ret_inv in H as ([[m r] w] & E & H). apply arg_loop_length in E. apply bind_Ret_inv in H as (m2 & Hm & H).
  apply mem_write_length in Hm. simplify_eq. congruence.
Qed.

(** Cutting a word off a string in place is what the lexer does on lists: for
    every string, behind any memory, [get_next_arg] returns, stays inside the
    string, yields null when there is no word and else a pointer to a string that
    is the word, and a pointer to the rest of the string; memory in front of the
    string and behind it is not changed. *)
Theorem next_arg_in_place pre s post :
  no_zero s ->
  exists o off mem, get_next_arg (pre ++ s ++ 0 :: post) (zlen pre) = Ret (o, off, mem) /\
    take (length pre) mem = pre /\ length mem = length (pre ++ s ++ 0 :: post) /\ drop (length (pre ++ s)) mem = 0 :: post /\
    match lex s with
    | None => o = None /\ mem = pre ++ s ++ 0 :: post
    | Some (w, r) => exists p, o = Some p /\ cstr mem p = Ret w /\ cstr mem off = Ret r
    end.
Proof.
  intros Hs. pose proof (next_arg_run pre s post Hs) as H.
  assert (forall o off front r, get_next_arg (pre ++ s ++ 0 :: post) (zlen pre) = Ret (o, off, front ++ r ++ 0 :: post) ->
    length (front ++ r ++ 0 :: post) = length (pre ++ s ++ 0 :: post) /\ drop (length (pre ++ s)) (front ++ r ++ 0 :: post) = 0 :: post) as Hkeep.
  { intros o off front r E. apply next_arg_length in E. split; [done|].
    assert (length (pre ++ s) = length (front ++ r)) as -> by (rewrite !length_app in *; cbn [length] in *; lia).
    rewrite (app_assoc front). apply drop_app_length. }
  destruct (lex s) as [[w r]|].
  - destruct H as (pre1 & junk & [(E & Hw & Hr & _)|(-> & E & Hw & _)]).
    + destruct (Hkeep (Some (zlen (pre ++ pre1))) (zlen (pre ++ pre1 ++ w ++ 0 :: junk)) (pre ++ pre1 ++ w ++ 0 :: junk) r) as [L D];
        [rewrite E; by rewrite <- !app_assoc|].
      eexists _, _, _. split; [exact E|]. split; [apply take_app_length|].
      assert (pre ++ pre1 ++ w ++ 0 :: junk ++ r ++ 0 :: post = (pre ++ pre1 ++ w ++ 0 :: junk) ++ r ++ 0 :: post) as Em by (by rewrite <- !app_assoc).
      rewrite Em. split; [done|]. split; [done|]. eexists. split; [done|]. split; [|by apply cstr_at].
      rewrite <- Em, (app_assoc pre). by apply cstr_at.
    + destruct (Hkeep (Some (zlen (pre ++ pre1))) (zlen (pre ++ pre1 ++ w)) (pre ++ pre1 ++ w) []) as [L D];
        [rewrite E; by rewrite <- !app_assoc|].
      eexists _, _, _. split; [exact E|]. split; [apply take_app_length|].
      assert (pre ++ pre1 ++ w ++ 0 :: post = (pre ++ pre1 ++ w) ++ [] ++ 0 :: post) as Em by (by rewrite <- !app_assoc).
      rewrite Em. split; [done|]. split; [done|]. eexists. split; [done|]. split; [|apply cstr_at; constructor].
      rewrite <- Em, (app_assoc pre). by apply cstr_at.
  - destruct H as (off & E). eexists _, _, _. split; [exact E|]. split; [apply take_app_length|]. split; [done|].
    split; [|done]. rewrite (app_assoc pre). apply drop_app_length.
Qed.

Lemma next_arg_in_place_witness :
  lex (str " a'b c'\d e") = Some (str "ab cd", str "e") /\
  exists o off mem, get_next_arg ([7] ++ str " a'b c'\d e" ++ 0 :: [8]) (zlen [7]) = Ret (o, off, mem) /\
    take (length [7]) mem = [7] /\ length mem = length ([7] ++ str " a'b c'\d e" ++ 0 :: [8]) /\
    drop (length ([7] ++ str " a'b c'\d e")) mem = 0 :: [8] /\
    match lex (str " a'b c'\d e") with
    | None => o = None /\ mem = [7] ++ str " a'b c'\d e" ++ 0 :: [8]
    | Some (w, r) => exists p, o = Some p /\ cstr mem p = Ret w /\ cstr mem off = Ret r
    end.
Proof.
  split; [vm_compute; reflexivity|]. apply (next_arg_in_place [7] (str " a'b c'\d e") [8]). repeat constructor; discriminate.
Defined.

(** ** The words of a line *)

Lemma lex_arg_shorter n : forall q c s', (length s' <= n)%nat -> (length (snd (lex_arg q (c :: s'))) <= length s')%nat.
Proof.
  assert (forall q s, (forall c s', s = c :: s' -> (length (snd (lex_arg q s)) <= length s')%nat) -> (length (snd (lex_arg q s)) <= length s)%nat) as Hw.
  { intros q [|c s'] H; [done|]. specialize (H c s' eq_refl). cbn [length]. lia. }
  induction n as [|n IH]; intros q c s' Hn.
  { destruct s'; [|cbn in Hn; lia]. cbn [lex_arg]. destruct (negb (q =? 0)); [by destruct (c =? q)|].
    destruct ((c =? 34) || (c =? 39)); [done|]. by destruct (is_space c). }
  assert (forall q s, (length s <= S n)%nat -> (length (snd (lex_arg q s)) <= length s)%nat) as Hr.
  { intros q2 s2 H2. apply Hw. intros c2 s3 ->. apply IH. cbn in H2. lia. }
  assert (forall q s, (length s <= S n)%nat -> forall x, (length (snd (let '(a, r) := lex_arg q s in (x :: a, r))) <= length s)%nat) as Hr2.
  { intros q2 s2 H2 x. specialize (Hr q2 s2 H2). by destruct (lex_arg q2 s2). }
  assert (le (length (snd match s' with
    | d :: s'' => if c =? 92 then let '(a, r) := lex_arg q s'' in (d :: a, r) else let '(a, r) := lex_arg q s' in (c :: a, r)
    | [] => ([c], []) end)) (length s')) as Hcopy.
  { destruct s' as [|d s'']; [done|]. cbn [length] in *. destruct (c =? 92).
    - specialize (Hr2 q s'' ltac:(lia) d). lia.
    - apply (Hr2 q (d :: s'')). cbn. lia. }
  change (lex_arg q (c :: s')) with
    (if negb (q =? 0) then if c =? q then lex_arg 0 s' else match s' with
       | d :: s'' => if c =? 92 then let '(a, r) := lex_arg q s'' in (d :: a, r) else let '(a, r) := lex_arg q s' in (c :: a, r)
       | [] => ([c], []) end
     else if (c =? 34) || (c =? 39) then lex_arg c s' else if is_space c then ([], s') else match s' with
       | d :: s'' => if c =? 92 then let '(a, r) := lex_arg q s'' in (d :: a, r) else let '(a, r) := lex_arg q s' in (c :: a, r)
       | [] => ([c], []) end).
  destruct (negb (q =? 0)); [destruct (c =? q); [by apply Hr|done]|].
  destruct ((c =? 34) || (c =? 39)); [by apply Hr|]. by destruct (is_space c).
Qed.

Lemma lex_shorter s w r : lex s = Some (w, r) -> (length r < length s)%nat.
Proof.
  unfold lex. intros H. pose proof (length_drop s (skip_spaces s)) as Hd. destruct (drop (skip_spaces s) s) as [|c s']; [done|].
  destruct (c =? 35); [done|]. assert (lex_arg 0 (c :: s') = (w, r)) as E by congruence.
  pose proof (lex_arg_shorter (length s') 0 c s' (le_n _)) as Hl. rewrite E in Hl.
  cbn [snd length] in *. lia.
Qed.

Fixpoint lex_all (fuel : nat) (s : list Z) : list (list Z) :=
  match fuel with
  | O => []
  | S fuel => match lex s with None => [] | Some (w, r) => w :: lex_all fuel r end
  end.
(** Every word uses up a character. *)
Definition words (s : list Z) : list (list Z) := lex_all (S (length s)) s.

Definition nonempty (w : list Z) : bool := negb (length w =? 0)%nat.

(** A word that stays where it is while the rest of the line is cut. *)
Definition held (pre : list Z) (p : Z) (w : list Z) : Prop := exists a b, pre = a ++ w ++ 0 :: b /\ p = zlen a /\ no_zero w.

Lemma held_string pre p w x : held pre p w -> cstr (pre ++ x) p = Ret w.
Proof. intros (a & b & -> & -> & Hw). rewrite <- !app_assoc. by apply (cstr_at a w (b ++ x)). Qed.

Lemma held_app pre p w x : held pre p w -> held (pre ++ x) p w.
Proof. intros (a & b & -> & -> & Hw). exists a, (b ++ x). by rewrite <- !app_assoc. Qed.

Lemma first_byte a w b : no_zero w -> exists c, byte (a ++ w ++ 0 :: b) (zlen a) = Ret c /\ negb (c =? 0) = nonempty w.
Proof.
  intros Hw. destruct w as [|c w]; cbn [app]; rewrite byte_at; [by exists 0|]. exists c. split; [done|].
  apply Forall_cons_iff in Hw as [Hc _]. by rewrite (proj2 (Z.eqb_neq c 0)).
Qed.

Lemma input_end fuel pre s post ap :
  lex s = None -> no_zero s ->
  input_loop (S fuel) (pre ++ s ++ 0 :: post) (zlen pre) ap =
  if (length ap <=? 99)%nat then Ret (ap, pre ++ s ++ 0 :: post) else Undef OutOfBounds.
Proof.
  intros El Hs. pose proof (next_arg_run pre s post Hs) as H. rewrite El in H. destruct H as (off & E).
  cbn [input_loop]. rewrite E. cbn [mbind outcome_bind]. unfold argv2_size, zlen.
  destruct (Nat.leb_spec (length ap) 99), (Z.leb_spec 100 (Z.of_nat (length ap))); (done || lia).
Qed.

Lemma input_run n : forall s fuel pre post ap ws,
  (length s <= n)%nat -> no_zero s -> (length s < fuel)%nat -> Forall2 (held pre) ap ws ->
  let more := filter (fun w => nonempty w = true) (lex_all (S n) s) in
  if (length ap + length more <=? 99)%nat then
    exists ap' mem, input_loop fuel (pre ++ s ++ 0 :: post) (zlen pre) ap = Ret (ap', mem) /\
      Forall2 (fun p w => cstr mem p = Ret w) ap' (ws ++ more)
  else input_loop fuel (pre ++ s ++ 0 :: post) (zlen pre) ap = Undef OutOfBounds.
Proof.
  assert (forall pre x ap ws, Forall2 (held pre) ap ws -> Forall2 (fun p w => cstr (pre ++ x) p = Ret w) ap ws) as Hstr.
  { intros pre x ap ws H. eapply Forall2_impl; [|exact H]. intros p w. apply held_string. }
  induction n as [|n IH]; intros s fuel pre post ap ws Hn Hs Hf Hheld; (destruct fuel as [|fuel]; [lia|]).
  { destruct s; [|cbn in Hn; lia]. cbn [lex_all]. change (lex []) with (@None (list Z * list Z)). cbv zeta.
    rewrite input_end by done. change (filter _ []) with (@nil (list Z)). rewrite Nat.add_0_r, app_nil_r.
    destruct (length ap <=? 99)%nat; [|done]. eexists _, _. split; [done|]. by apply Hstr. }
  cbn [lex_all]. destruct (lex s) as [[w r]|] eqn:El.
  2: { cbv zeta. rewrite input_end by done. change (filter _ []) with (@nil (list Z)). rewrite Nat.add_0_r, app_nil_r.
       destruct (length ap <=? 99)%nat; [|done]. eexists _, _. split; [done|]. by apply Hstr. }
  pose proof (lex_shorter s w r El) as Hlr. pose proof (next_arg_run pre s post Hs) as H. rewrite El in H. cbv zeta.
  change (match lex r with None => [] | Some (w0, r0) => w0 :: lex_all n r0 end) with (lex_all (S n) r). rewrite filter_cons.
  destruct H as (pre1 & junk & [(E & Hw & Hr & _)|(-> & E & Hw & _)]).
  - set (pre' := pre ++ pre1 ++ w ++ 0 :: junk). set (more := filter _ (lex_all (S n) r)).
    assert (held pre' (zlen (pre ++ pre1)) w) as Hh by (exists (pre ++ pre1), junk; unfold pre'; by rewrite <- app_assoc).
    assert (Forall2 (held pre') ap ws) as Hheld'.
    { eapply Forall2_impl; [|exact Hheld]. intros p v. apply held_app. }
    assert (pre ++ pre1 ++ w ++ 0 :: junk ++ r ++ 0 :: post = pre' ++ r ++ 0 :: post) as Em by (unfold pre'; by rewrite <- !app_assoc).
    cbn [input_loop]. rewrite E. cbn [mbind outcome_bind].
    destruct (Z.leb_spec argv2_size (zlen ap)) as [Hfull|Hfull].
    { destruct (Nat.leb_spec (length ap + length (if decide (nonempty w = true) then w :: more else more)) 99); [|done].
      unfold argv2_size, zlen in Hfull. lia. }
    destruct (first_byte (pre ++ pre1) w (junk ++ r ++ 0 :: post) Hw) as (c & Eb & Hc). rewrite <- app_assoc in Eb. rewrite Eb.
    cbn [mbind outcome_bind]. rewrite Em, Hc. fold pre'. destruct (nonempty w).
    + rewrite decide_True by done. specialize (IH r fuel pre' post (ap ++ [zlen (pre ++ pre1)]) (ws ++ [w]) ltac:(lia) Hr ltac:(lia)).
      cbv zeta in IH. fold more in IH. rewrite length_app, <- (app_assoc ws), <- Nat.add_assoc in IH. apply IH. apply Forall2_app; [done|]. by repeat constructor.
    + rewrite decide_False by done. by apply (IH r fuel pre' post ap ws ltac:(lia) Hr ltac:(lia)).
  - assert (lex_all (S n) [] = []) as -> by done. change (filter _ []) with (@nil (list Z)).
    cbn [input_loop]. rewrite E. cbn [mbind outcome_bind].
    destruct (Z.leb_spec argv2_size (zlen ap)) as [Hfull|Hfull].
    { destruct (Nat.leb_spec (length ap + length (if decide (nonempty w = true) then [w] else [])) 99); [|done].
      unfold argv2_size, zlen in Hfull. lia. }
    destruct (first_byte (pre ++ pre1) w post Hw) as (c & Eb & Hc). rewrite <- app_assoc in Eb. rewrite Eb.
    cbn [mbind outcome_bind]. rewrite Hc. destruct fuel as [|fuel]; [destruct s; [done|cbn in Hf; lia]|].
    pose proof (input_end fuel (pre ++ pre1 ++ w) [] post) as Hend. cbn [app] in Hend. rewrite <- !app_assoc in Hend.
    rewrite Hend by (done || constructor). clear Hend.
    assert (Forall2 (fun p v => cstr (pre ++ pre1 ++ w ++ 0 :: post) p = Ret v) ap ws) as Hold by (by apply Hstr).
    assert (cstr (pre ++ pre1 ++ w ++ 0 :: post) (zlen (pre ++ pre1)) = Ret w) as Hnew by (rewrite (app_assoc pre); by apply cstr_at).
    destruct (nonempty w).
    + rewrite decide_True by done. rewrite length_app. cbn [length]. destruct (length ap + 1 <=? 99)%nat; [|done].
      eexists _, _. split; [done|]. apply Forall2_app; [done|]. by repeat constructor.
    + rewrite decide_False by done. cbn [length]. rewrite Nat.add_0_r. destruct (length ap <=? 99)%nat; [|done].
      eexists _, _. split; [done|]. by rewrite app_nil_r.
Qed.

Lemma strings_run mem ps ws : Forall2 (fun p w => cstr mem p = Ret w) ps ws -> strings_at mem ps = Ret ws.
Proof. induction 1 as [|p w ps ws E _ IH]; [done|]. cbn [strings_at]. rewrite E. cbn [mbind outcome_bind]. by rewrite IH. Qed.

(** The command line is cut into the words of the lexer that are not empty, for
    every line; a line with a hundred of them or more writes past the array of
    pointers. *)
Theorem command_line_words l :
  no_zero l ->
  let ws := filter (fun w => nonempty w = true) (words l) in
  process_input_line l = if (length ws <=? 99)%nat then Ret ws else Undef OutOfBounds.
Proof.
  intros Hl ws. unfold process_input_line. destruct l as [|c l]; [done|]. set (s := c :: l) in *.
  pose proof (input_run (length s) s (S (S (length s))) [] [] [] [] (le_n _) Hl ltac:(lia) ltac:(constructor)) as H.
  cbv zeta in H. cbn [app length Nat.add] in H. change (zlen []) with 0 in H. fold (words s) in H. fold ws in H.
  destruct (length ws <=? 99)%nat; [|by rewrite H]. destruct H as (ap & mem & -> & Hap). cbn [mbind outcome_bind].
  by apply strings_run.
Qed.

Lemma command_line_words_witness :
  words (str "set 'a b' \x '' # no") = [str "set"; str "a b"; str "x"; []] /\
  (let ws := filter (fun w => nonempty w = true) (words (str "set 'a b' \x '' # no")) in
   process_input_line (str "set 'a b' \x '' # no") = if (length ws <=? 99)%nat then Ret ws else Undef OutOfBounds).
Proof.
  split; [vm_compute; reflexivity|]. apply (command_line_words (str "set 'a b' \x '' # no")). repeat constructor; discriminate.
Defined.

Example command_line_overrun :
  process_input_line (concat (replicate 100 (str "a "))) = Undef OutOfBounds.
Proof. vm_compute. reflexivity. Qed.

(** ** What a configuration file says *)

(** The setting of a line: its first two words. *)
Definition entry_of (line : list Z) : option (list Z * list Z) :=
  match lex line with
  | None => None
  | Some (k, r) => match lex r with None => None | Some (v, _) => Some (k, v) end
  end.

Lemma strnlen_run pre k rest n : no_zero k -> zlen k <= n -> strnlen (pre ++ k ++ 0 :: rest) (zlen pre) n = Ret (zlen k).
Proof.
  intros Hk Hn. unfold strnlen. assert (Z.to_nat (zlen pre) = length pre) as -> by (unfold zlen; lia). rewrite drop_app_length.
  destruct (decide (zlen k = n)) as [<-|Hne].
  - assert (Z.to_nat (zlen k) = length k) as -> by (unfold zlen; lia). rewrite take_app_length.
    assert (until_zero k = None) as ->.
    { clear Hn. induction Hk as [|c k Hc _ IH]; [done|]. cbn [until_zero]. by rewrite (proj2 (Z.eqb_neq c 0)), IH by done. }
    rewrite (proj2 (Z.leb_le _ _)); [done|]. rewrite !zlen_app. pose proof (zlen_nonneg (0 :: rest)). lia.
  - rewrite take_app_ge by (unfold zlen in *; lia). destruct (Z.to_nat n - length k)%nat as [|m] eqn:Em; [unfold zlen in *; lia|].
    cbn [take]. by rewrite until_zero_app.
Qed.

Lemma rewrite_end pre (k rest : list Z) : mem_write (pre ++ k ++ 0 :: rest) (zlen pre + zlen k) [0] = Ret (pre ++ k ++ 0 :: rest).
Proof. rewrite (app_assoc pre), <- zlen_app. apply mem_write_mid. Qed.

Section ReaderFacts.
Context {C : Type}.
Variable setter : C -> list Z -> list Z -> Z * C.

Lemma config_line_run line ctx :
  no_zero line ->
  config_line setter line ctx = Ret (match entry_of line with None => (0, ctx) | Some (k, v) => setter ctx k v end).
Proof.
  intros Hl. unfold config_line, entry_of. cbv zeta. pose proof (next_arg_run [] line [] Hl) as H. cbn [app] in H. change (zlen []) with 0 in H.
  destruct (lex line) as [[k r]|]; [|by destruct H as (off & ->)].
  destruct H as (pre1 & junk & [(E & Hk & Hr & Hlen)|(-> & E & Hk & Hlen)]); rewrite E; cbn [mbind outcome_bind].
  - rewrite strnlen_run by (done || (unfold zlen; lia)). cbn [mbind outcome_bind]. rewrite rewrite_end. cbn [mbind outcome_bind].
    rewrite strlen_at by done. cbn [mbind outcome_bind]. destruct (Z.leb_spec (zlen line) (zlen k)) as [Hle|Hle].
    { assert (r = []) as -> by (destruct r; [done|unfold zlen in Hle; cbn in Hlen; lia]). done. }
    set (pre := pre1 ++ k ++ 0 :: junk).
    assert (pre1 ++ k ++ 0 :: junk ++ r ++ [0] = pre ++ r ++ 0 :: []) as -> by (unfold pre; by rewrite <- !app_assoc).
    assert (held pre (zlen pre1) k) as Hh by (by exists pre1, junk).
    pose proof (next_arg_run pre r [] Hr) as H2. destruct (lex r) as [[v r2]|]; [|by destruct H2 as (off & ->)].
    destruct H2 as (pre2 & junk2 & [(E2 & Hv & _ & Hlen2)|(-> & E2 & Hv & Hlen2)]); rewrite E2; cbn [mbind outcome_bind].
    + rewrite (app_assoc pre pre2). rewrite strnlen_run by (done || (unfold zlen in *; lia)). cbn [mbind outcome_bind].
      rewrite rewrite_end. cbn [mbind outcome_bind]. rewrite <- app_assoc, (held_string _ _ _ _ Hh). cbn [mbind outcome_bind].
      rewrite (app_assoc pre pre2). by rewrite cstr_at.
    + rewrite (app_assoc pre pre2). rewrite strnlen_run by (done || (unfold zlen in *; lia)). cbn [mbind outcome_bind].
      rewrite rewrite_end. cbn [mbind outcome_bind]. rewrite <- app_assoc, (held_string _ _ _ _ Hh). cbn [mbind outcome_bind].
      rewrite (app_assoc pre pre2). by rewrite cstr_at.
  - rewrite strnlen_run by (done || (unfold zlen; lia)). cbn [mbind outcome_bind]. rewrite rewrite_end. cbn [mbind outcome_bind].
    rewrite strlen_at by done. cbn [mbind outcome_bind]. change (lex []) with (@None (list Z * list Z)).
    destruct (zlen line <=? zlen k); [done|]. pose proof (next_arg_run (pre1 ++ k) [] [] ltac:(constructor)) as H2.
    change (lex []) with (@None (list Z * list Z)) in H2. destruct H2 as (off & H2). cbn [app] in H2. rewrite <- app_assoc in H2. by rewrite H2.
Qed.

(** The settings of a file, and what the function makes of them until it fails. *)
Fixpoint entries (fuel : nat) (text : list Z) : list (list Z * list Z) :=
  match fuel with
  | O => []
  | S fuel =>
      match text with
      | [] => []
      | _ => let '(line, rest) := getline text in
             match entry_of line with None => entries fuel rest | Some e => e :: entries fuel rest end
      end
  end.
Fixpoint apply_settings (es : list (list Z * list Z)) (ctx : C) : Z * C :=
  match es with
  | [] => (0, ctx)
  | (k, v) :: es => let '(r, ctx) := setter ctx k v in if r =? 0 then apply_settings es ctx else (r, ctx)
  end.

Lemma getline_split text line rest :
  getline text = (line, rest) -> text = line ++ rest /\ (text <> [] -> line <> []) /\ (existsb (Z.eqb 10) line = false -> rest = []).
Proof.
  revert line rest. induction text as [|c text IH]; intros line rest H; cbn [getline] in H; [by simplify_eq|].
  destruct (Z.eqb_spec c 10) as [->|Hc]; [by simplify_eq|]. destruct (getline text) as [l r]. simplify_eq.
  destruct (IH l rest eq_refl) as (-> & _ & H3). split; [done|]. split; [done|]. cbn [existsb].
  rewrite (proj2 (Z.eqb_neq 10 c)) by done. apply H3.
Qed.

Lemma config_loop_run n : forall text fuel ctx,
  (length text <= n)%nat -> no_zero text -> (S n < fuel)%nat ->
  config_loop setter fuel text false 0 ctx = Ret (apply_settings (entries n text) ctx).
Proof.
  induction n as [|n IH]; intros text fuel ctx Hn Ht Hf; (destruct fuel as [|fuel]; [lia|]).
  { destruct text; [done|cbn in Hn; lia]. }
  destruct text as [|c text]; [done|]. cbn [config_loop entries].
  destruct (getline (c :: text)) as [line rest] eqn:Eg. destruct (getline_split _ _ _ Eg) as (Et & Hne & Heof). specialize (Hne ltac:(done)).
  assert (no_zero line /\ no_zero rest) as [Hl Hr] by (rewrite Et in Ht; by apply Forall_app in Ht).
  assert (length rest <= n)%nat as Hlr by (rewrite Et, length_app in Hn; destruct line; [done|cbn in Hn; lia]).
  cbn [Z.eqb negb]. rewrite config_line_run by done. cbn [mbind outcome_bind].
  assert (forall ctx, config_loop setter fuel rest (negb (existsb (Z.eqb 10) line)) 0 ctx = Ret (apply_settings (entries n rest) ctx)) as Hgo.
  { intros ctx'. destruct (existsb (Z.eqb 10) line) eqn:Ee; cbn [negb]; [by apply IH; [..|lia]|]. rewrite (Heof eq_refl).
    destruct fuel; [lia|]. cbn [config_loop]. destruct n; done. }
  destruct (entry_of line) as [[k v]|]; [|apply Hgo]. cbn [apply_settings]. destruct (setter ctx k v) as [r ctx'].
  destruct (Z.eqb_spec r 0) as [->|Hr0]; [apply Hgo|]. destruct fuel as [|fuel]; [lia|]. cbn [config_loop].
  destruct (negb (existsb (Z.eqb 10) line)); [done|]. destruct rest as [|z rest]; [done|].
  rewrite (proj2 (Z.eqb_neq r 0)) by done. by destruct (getline (z :: rest)).
Qed.

End ReaderFacts.

(** *** Printing settings *)

(** A word in double quotes. *)
Definition quoted (w : list Z) : list Z := 34 :: concat (map (fun c => if (c =? 34) || (c =? 92) then [92; c] else [c]) w) ++ [34].
Definition print_settings (es : list (list Z * list Z)) : list Z :=
  concat (map (fun '(k, v) => quoted k ++ 32 :: quoted v ++ [10]) es).

(** Words are without zeros and line ends. *)
Definition plain (w : list Z) : Prop := Forall (fun c => c <> 0 /\ c <> 10) w.

Lemma lex_quoted w rest : lex_arg 34 (concat (map (fun c => if (c =? 34) || (c =? 92) then [92; c] else [c]) w) ++ 34 :: rest) =
  let '(a, r) := lex_arg 0 rest in (w ++ a, r).
Proof.
  induction w as [|c w IH]; cbn [map concat app]; [cbn [lex_arg Z.eqb Pos.eqb negb]; by destruct (lex_arg 0 rest)|].
  destruct ((c =? 34) || (c =? 92)) eqn:E; cbn [app].
  - rewrite lex_cons_copy by done. cbn [Z.eqb Pos.eqb]. rewrite IH. by destruct (lex_arg 0 rest).
  - apply orb_false_iff in E as [E1 E2]. rewrite lex_cons_copy by (cbn [Z.eqb Pos.eqb negb]; by rewrite E1).
    rewrite E2, IH. destruct (lex_arg 0 rest) as [a r]. destruct w as [|c' w]; cbn [map concat app]; [done|]. by destruct (_ || _).
Qed.

Lemma lex_quoted_word w c rest : is_space c = true -> lex (quoted w ++ c :: rest) = Some (w, rest).
Proof.
  intros Hc. unfold lex, quoted. cbn [app skip_spaces]. change (is_space 34) with false. cbn [drop]. cbn [Z.eqb Pos.eqb].
  assert (forall s, lex_arg 0 (34 :: s) = lex_arg 34 s) as -> by done. rewrite <- app_assoc. cbn [app]. rewrite lex_quoted.
  cbn [lex_arg]. change (negb (0 =? 0)) with false. destruct ((c =? 34) || (c =? 39)) eqn:E.
  { apply orb_true_iff in E as [->%Z.eqb_eq| ->%Z.eqb_eq]; done. }
  rewrite Hc. by rewrite app_nil_r.
Qed.

Lemma getline_line l rest : Forall (fun c => c <> 10) l -> getline (l ++ 10 :: rest) = (l ++ [10], rest).
Proof.
  induction 1 as [|c l Hc _ IH]; [done|]. cbn [app getline]. by rewrite (proj2 (Z.eqb_neq c 10)), IH by done.
Qed.

Lemma quoted_chars (P : Z -> Prop) w : P 34 -> P 92 -> Forall P w -> Forall P (quoted w).
Proof.
  intros H1 H2 Hw. unfold quoted. constructor; [done|]. apply Forall_app. split; [|by repeat constructor].
  induction Hw as [|c w Hc _ IH]; [constructor|]. cbn [map concat]. apply Forall_app. split; [|done]. destruct (_ || _); by repeat constructor.
Qed.

Definition plain_setting (e : list Z * list Z) : Prop := plain (fst e) /\ plain (snd e).

Lemma plain_parts w : plain w -> no_zero w /\ Forall (fun c => c <> 10) w.
Proof. induction 1 as [|c w [H1 H2] _ [IH1 IH2]]; split; by constructor. Qed.

Lemma entries_print es : forall n,
  Forall plain_setting es -> (length (print_settings es) <= n)%nat -> entries n (print_settings es) = es /\ no_zero (print_settings es).
Proof.
  induction es as [|[k v] es IH]; intros n He Hn; [split; [by destruct n|constructor]|].
  apply Forall_cons_iff in He as [[Hk Hv] He]. cbn [fst snd] in Hk, Hv.
  destruct (plain_parts k Hk) as [Hk0 Hk1], (plain_parts v Hv) as [Hv0 Hv1].
  change (print_settings ((k, v) :: es)) with ((quoted k ++ 32 :: quoted v ++ [10]) ++ print_settings es) in *.
  assert (Forall (fun c => c <> 10) (quoted k ++ 32 :: quoted v)) as H10.
  { apply Forall_app. split; [by apply quoted_chars|]. constructor; [lia|by apply quoted_chars]. }
  rewrite length_app in Hn. destruct n as [|n]; [cbn in Hn; lia|].
  destruct (IH n He ltac:(cbn in Hn; lia)) as [IH1 IH2]. split.
  - assert ((quoted k ++ 32 :: quoted v ++ [10]) ++ print_settings es = (quoted k ++ 32 :: quoted v) ++ 10 :: print_settings es) as ->
      by (rewrite <- !app_assoc; cbn [app]; by rewrite <- app_assoc).
    cbn [entries]. rewrite getline_line by done. rewrite IH1.
    assert (entry_of ((quoted k ++ 32 :: quoted v) ++ [10]) = Some (k, v)) as ->.
    { unfold entry_of. rewrite <- app_assoc. cbn [app]. rewrite lex_quoted_word by done. by rewrite lex_quoted_word. }
    by destruct (quoted k).
  - apply Forall_app. split; [|done]. apply Forall_app. split; [by apply quoted_chars|]. constructor; [lia|].
    apply Forall_app. split; [by apply quoted_chars|]. by repeat constructor.
Qed.

(** C35: Reading a configuration file gives the function the first two words of every
    line that has them, in order, until the function fails, for every file without
    zeros; a file printed from settings, whatever characters other than zeros and
    line ends they hold, gives these settings back. *)
Theorem config_file_settings {C} (setter : C -> list Z -> list Z -> Z * C) text es ctx :
  no_zero text -> Forall plain_setting es ->
  fread_config setter (Some text) ctx = Ret (apply_settings setter (entries (length text) text) ctx) /\
  fread_config setter (Some (print_settings es)) ctx = Ret (apply_settings setter es ctx).
Proof.
  intros Ht He. unfold fread_config. split; [by apply config_loop_run; [..|lia]|].
  destruct (entries_print es (length (print_settings es)) He (le_n _)) as [E Hz].
  rewrite (config_loop_run setter (length (print_settings es))) by (done || lia). by rewrite E.
Qed.

Definition collect (ctx : list (list Z * list Z)) (k v : list Z) : Z * list (list Z * list Z) := (0, ctx ++ [(k, v)]).

Lemma config_file_settings_witness :
  let text := str "a 1" ++ [10] ++ str "# x" ++ [10; 10] ++ str "b 'q r' z" in
  let es := [(str "k", str "x 'y'")] in
  fread_config collect (Some text) [] = Ret (0, [(str "a", str "1"); (str "b", str "q r")]) /\
  fread_config collect (Some text) [] = Ret (apply_settings collect (entries (length text) text) []) /\
  fread_config collect (Some (print_settings es)) [] = Ret (apply_settings collect es []).
Proof.
  intros text es. split; [vm_compute; reflexivity|].
  apply (config_file_settings collect text es []); [repeat constructor; discriminate|].
  repeat constructor; discriminate.
Defined.

End ConfigFile.
