(* ===== verification/IniClients.v ===== *)
(** * Settings filled in from configuration files

    The clients of the configuration file parser: the settings of UARTs
    (gateway_common/src/stream_uart_ini.c), of sockets (stream_socket_ini.c) and of
    the message interface (mt_interface/api/src/mt_msg_ini.c).  A client is given
    the parser, the flag that tells whether the item was handled, and its settings;
    [IniClient] states what the parser needs of it, and each client is an instance. *)

From Stdlib Require Import ZArith Lia String.
From stdpp Require Import base list option numbers.
From S2P Require Import Prelude CStr IoStream Ini IniValue MtMsg MtIface.

Open Scope Z_scope.

Module IniClients.
Import CStr IoStream Ini IniValue MtMsg MtIface.

(** Does the item have this name, in any section? *)
Definition named (d : ini_parser) (name : string) : outcome bool := INI_itemMatches d None (Some (str name)).

(** The string at the value. *)
Definition value_str (d : ini_parser) : outcome (list Z) := iv ← value_at d; cstr (workbuf d) iv.

(** ** UARTs *)

Record uart_cfg : Type := MkUart { devname : option (list Z); baudrate : Z; open_flags : Z }.

Definition set_devname (s : option (list Z)) (u : uart_cfg) : uart_cfg := MkUart s (baudrate u) (open_flags u).
Definition set_baudrate (n : Z) (u : uart_cfg) : uart_cfg := MkUart (devname u) n (open_flags u).
Definition set_open_flags (n : Z) (u : uart_cfg) : uart_cfg := MkUart (devname u) (baudrate u) n.

Definition STREAM_UART_FLAG_rd_thread : Z := 1.
Definition STREAM_UART_FLAG_hw_handshake : Z := 2.
Definition STREAM_UART_FLAG_default : Z := 0.
Definition INI_MAX_UARTS : Z := 10.

Definition uart_ini_cfg_flags : list ini_flag_name :=
  [MkFlag (str "rd_thread") STREAM_UART_FLAG_rd_thread; MkFlag (str "hw_handshake") STREAM_UART_FLAG_hw_handshake;
   MkFlag (str "default") STREAM_UART_FLAG_default].

(** The branch for a flag. *)
Definition uart_flag (d : ini_parser) (pCFG : uart_cfg) : outcome (ini_parser * uart_cfg) :=
  s ← value_str d;
  let '(pF, is_not) := INI_flagLookup uart_ini_cfg_flags s in
  match pF with
  | None => Ret (INI_syntaxError d, pCFG)
  | Some f =>
      Ret (d, set_open_flags (int32 (if is_not then Z.land (open_flags pCFG) (Z.lnot (flag_value f))
                                     else Z.lor (open_flags pCFG) (flag_value f))) pCFG)
  end.

(** [mem] tells whether [strdup] gets memory.  The result, whether the item was
    handled, the parser and the settings. *)
Definition UART_INI_settingsOne (mem : bool) (d : ini_parser) (handled : bool) (pCFG : uart_cfg)
  : outcome (Z * bool * ini_parser * uart_cfg) :=
  match item_name d with
  | None => Ret (0, handled, d, pCFG)
  | Some _ =>
      let r := -1 in
      m ← named d "devname";
      '(r, d, pCFG) ←
        (if (m : bool) then
           '(_, d) ← INI_dequote d; '(s, d) ← INI_itemValue_strdup mem d; Ret (0, d, set_devname s pCFG)
         else Ret (r, d, pCFG));
      m ← named d "baudrate";
      '(r, d, pCFG) ←
        (if (m : bool) then '(n, d) ← INI_valueAsInt d; Ret (0, d, set_baudrate n pCFG) else Ret (r, d, pCFG));
      m ← named d "flag";
      '(r, d, pCFG) ←
        (if (m : bool) then '(d, pCFG) ← uart_flag d pCFG; Ret (0, d, pCFG) else Ret (r, d, pCFG));
      if r =? 0 then Ret (r, true, d, pCFG) else Ret (r, handled, INI_syntaxError d, pCFG)
  end.

(** [all] is the array [ALL_INI_UARTS]. *)
Definition UART_INI_settingsNth (mem : bool) (d : ini_parser) (handled : bool) (all : list uart_cfg)
  : outcome (Z * bool * ini_parser * list uart_cfg) :=
  match item_name d with
  | None => Ret (0, handled, d, all)
  | Some _ =>
      let '(nth, ok, d) := INI_isNth d (str "uart-") in
      if negb ok then Ret (0, handled, d, all)
      else if INI_MAX_UARTS <=? nth then Ret (-1, handled, INI_syntaxError d, all)
      else match all !! Z.to_nat nth with
           | None => Undef OutOfBounds
           | Some pCFG =>
               '(r, handled, d, pCFG) ← UART_INI_settingsOne mem d handled pCFG;
               Ret (r, handled, d, <[Z.to_nat nth := pCFG]> all)
           end
  end.

(** ** Sockets *)

Record socket_cfg : Type := MkSocket {
  inet_4or6 : Z;
  ascp : Z;
  host : option (list Z);
  service : option (list Z);
  server_backlog : Z;
  device_binding : option (list Z)
}.

Definition set_inet (n : Z) (c : socket_cfg) : socket_cfg :=
  MkSocket n (ascp c) (host c) (service c) (server_backlog c) (device_binding c).
Definition set_ascp (n : Z) (c : socket_cfg) : socket_cfg :=
  MkSocket (inet_4or6 c) n (host c) (service c) (server_backlog c) (device_binding c).
Definition set_host (s : option (list Z)) (c : socket_cfg) : socket_cfg :=
  MkSocket (inet_4or6 c) (ascp c) s (service c) (server_backlog c) (device_binding c).
Definition set_service (s : option (list Z)) (c : socket_cfg) : socket_cfg :=
  MkSocket (inet_4or6 c) (ascp c) (host c) s (server_backlog c) (device_binding c).
Definition set_backlog (n : Z) (c : socket_cfg) : socket_cfg :=
  MkSocket (inet_4or6 c) (ascp c) (host c) (service c) n (device_binding c).
Definition set_binding (s : option (list Z)) (c : socket_cfg) : socket_cfg :=
  MkSocket (inet_4or6 c) (ascp c) (host c) (service c) (server_backlog c) s.

Definition INI_MAX_SOCKETS : Z := 10.

Definition socket_types : list ini_flag_name := [MkFlag (str "server") 115; MkFlag (str "client") 99].

(** The branch for the type. *)
Definition socket_type (d : ini_parser) (pCFG : socket_cfg) : outcome (ini_parser * socket_cfg) :=
  '(_, d) ← INI_dequote d;
  s ← value_str d;
  Ret (match fst (INI_flagLookup socket_types s) with
       | None => (INI_syntaxError d, pCFG)
       | Some f => (d, set_ascp (int32 (flag_value f)) pCFG)
       end).

(** The branch for the protocol: whether it jumps to [bad_inet46]. *)
Definition socket_inet (d : ini_parser) (pCFG : socket_cfg) : outcome (bool * ini_parser * socket_cfg) :=
  '(r, d) ← INI_isValueInt d;
  match r with
  | Some n => Ret (negb ((n =? 4) || (n =? 6)), d, set_inet n pCFG)
  | None =>
      s ← value_str d;
      if bool_decide (s = str "any") then Ret (false, d, set_inet 0 pCFG) else Ret (true, d, pCFG)
  end.

(** A branch that copies the value. *)
Definition copy_value (mem : bool) (name : string) (set : option (list Z) -> socket_cfg -> socket_cfg)
    (st : Z * ini_parser * socket_cfg) : outcome (Z * ini_parser * socket_cfg) :=
  let '(r, d, pCFG) := st in
  m ← named d name;
  if (m : bool) then '(s, d) ← INI_itemValue_strdup mem d; Ret (0, d, set s pCFG) else Ret (r, d, pCFG).

Definition SOCKET_INI_settingsOne (mem : bool) (d : ini_parser) (handled : bool) (pCFG : socket_cfg)
  : outcome (Z * bool * ini_parser * socket_cfg) :=
  match item_name d with
  | None => Ret (0, handled, d, pCFG)
  | Some _ =>
      let r := -1 in
      m ← named d "type";
      '(r, d, pCFG) ← (if (m : bool) then '(d, pCFG) ← socket_type d pCFG; Ret (0, d, pCFG) else Ret (r, d, pCFG));
      '(r, d, pCFG) ← copy_value mem "host" set_host (r, d, pCFG);
      '(r, d, pCFG) ← copy_value mem "service" set_service (r, d, pCFG);
      '(r, d, pCFG) ← copy_value mem "devicename" set_binding (r, d, pCFG);
      m ← named d "server_backlog";
      '(r, d, pCFG) ←
        (if (m : bool) then '(n, d) ← INI_valueAsU64 d; Ret (0, d, set_backlog (int32 (u32 n)) pCFG) else Ret (r, d, pCFG));
      m ← named d "inet";
      '(bad, r, d, pCFG) ←
        (if (m : bool) then '(bad, d, pCFG) ← socket_inet d pCFG; Ret (bad, 0, d, pCFG) else Ret (false, r, d, pCFG));
      if (bad : bool) then Ret (-1, handled, INI_syntaxError d, pCFG)
      else if r =? 0 then Ret (r, true, d, pCFG)
      else Ret (r, handled, INI_syntaxError d, pCFG)
  end.

(** [all] is the array [ALL_INI_SOCKETS]. *)
Definition SOCKET_INI_settingsNth (mem : bool) (d : ini_parser) (handled : bool) (all : list socket_cfg)
  : outcome (Z * bool * ini_parser * list socket_cfg) :=
  match item_name d with
  | None => Ret (0, handled, d, all)
  | Some _ =>
      let '(nth, ok, d) := INI_isNth d (str "socket-") in
      if negb ok then Ret (0, handled, d, all)
      else if INI_MAX_SOCKETS <=? nth then Ret (-1, handled, INI_syntaxError d, all)
      else match all !! Z.to_nat nth with
           | None => Undef OutOfBounds
           | Some pCFG =>
               '(r, handled, d, pCFG) ← SOCKET_INI_settingsOne mem d handled pCFG;
               Ret (r, handled, d, <[Z.to_nat nth := pCFG]> all)
           end
  end.

(** ** The message interface *)

(** The fields of [struct mt_msg_interface] that can be set: those of the models of
    messages and of the life cycle, and the flush at start-up. *)
Record mt_cfg : Type := MkMtCfg { mc_iface : mt_iface; mc_tmo : timeouts; startup_flush : bool }.

Definition upd_iface (f : mt_iface -> mt_iface) (c : mt_cfg) : mt_cfg := MkMtCfg (f (mc_iface c)) (mc_tmo c) (startup_flush c).
Definition upd_tmo (f : timeouts -> timeouts) (c : mt_cfg) : mt_cfg := MkMtCfg (mc_iface c) (f (mc_tmo c)) (startup_flush c).

(** The names with the field that [bptr] points to. *)
Definition bool_fields : list (string * (bool -> mt_cfg -> mt_cfg)) :=
  [("include-chksum"%string, fun b => upd_iface (fun i => MkIface (frame_sync i) b (len_2bytes i) (is_socket i) (stack_id i) (tx_frag_size i) (retry_max i)));
   ("startup-flush"%string, fun b c => MkMtCfg (mc_iface c) (mc_tmo c) b);
   ("frame-sync"%string, fun b => upd_iface (fun i => MkIface b (include_chksum i) (len_2bytes i) (is_socket i) (stack_id i) (tx_frag_size i) (retry_max i)))].

(** The names with the field that [iptr] points to. *)
Definition int_fields : list (string * (Z -> mt_cfg -> mt_cfg)) :=
  [("fragmentation-size"%string, fun n => upd_iface (fun i => MkIface (frame_sync i) (include_chksum i) (len_2bytes i) (is_socket i) (stack_id i) n (retry_max i)));
   ("retry-max"%string, fun n => upd_iface (fun i => MkIface (frame_sync i) (include_chksum i) (len_2bytes i) (is_socket i) (stack_id i) (tx_frag_size i) n));
   ("fragmentation-timeout-msecs"%string, fun n => upd_tmo (fun t => MkTimeouts n (intersymbol_timeout_mSecs t) (srsp_timeout_mSecs t) (flush_timeout_mSecs t) (intermsg_timeout_mSecs t) (tx_lock_timeout t)));
   ("intersymbol-timeout-msecs"%string, fun n => upd_tmo (fun t => MkTimeouts (frag_timeout_mSecs t) n (srsp_timeout_mSecs t) (flush_timeout_mSecs t) (intermsg_timeout_mSecs t) (tx_lock_timeout t)));
   ("srsp-timeout-msecs"%string, fun n => upd_tmo (fun t => MkTimeouts (frag_timeout_mSecs t) (intersymbol_timeout_mSecs t) n (flush_timeout_mSecs t) (intermsg_timeout_mSecs t) (tx_lock_timeout t)));
   ("intermsg-timeout-msecs"%string, fun n => upd_tmo (fun t => MkTimeouts (frag_timeout_mSecs t) (intersymbol_timeout_mSecs t) (srsp_timeout_mSecs t) (flush_timeout_mSecs t) n (tx_lock_timeout t)));
   ("flush-timeout-msecs"%string, fun n => upd_tmo (fun t => MkTimeouts (frag_timeout_mSecs t) (intersymbol_timeout_mSecs t) (srsp_timeout_mSecs t) n (intermsg_timeout_mSecs t) (tx_lock_timeout t)))].

(** The last two, in the order of the code. *)
Definition len_2bytes_field : string * (bool -> mt_cfg -> mt_cfg) :=
  ("len-2bytes"%string, fun b => upd_iface (fun i => MkIface (frame_sync i) (include_chksum i) b (is_socket i) (stack_id i) (tx_frag_size i) (retry_max i))).
Definition tx_lock_field : string * (Z -> mt_cfg -> mt_cfg) :=
  ("tx-lock-timeout"%string, fun n => upd_tmo (fun t => MkTimeouts (frag_timeout_mSecs t) (intersymbol_timeout_mSecs t) (srsp_timeout_mSecs t) (flush_timeout_mSecs t) (intermsg_timeout_mSecs t) n)).

(** The tests for the names [fields], one after the other; [good] is the code at the
    label, [next] what follows them. *)
Fixpoint try_fields {A} (good : ini_parser -> outcome (A * ini_parser)) (fields : list (string * (A -> mt_cfg -> mt_cfg)))
    (d : ini_parser) (pMI : mt_cfg) (next : outcome (Z * bool * ini_parser * mt_cfg)) : outcome (Z * bool * ini_parser * mt_cfg) :=
  match fields with
  | [] => next
  | (name, set) :: fields =>
      m ← named d name;
      if (m : bool) then '(v, d) ← good d; Ret (0, true, d, set v pMI) else try_fields good fields d pMI next
  end.

Definition MT_MSG_INI_settings (d : ini_parser) (handled : bool) (pMI : mt_cfg) : outcome (Z * bool * ini_parser * mt_cfg) :=
  match item_name d with
  | None => Ret (0, handled, d, pMI)
  | Some _ =>
      try_fields INI_valueAsBool bool_fields d pMI
        (try_fields INI_valueAsInt int_fields d pMI
           (try_fields INI_valueAsBool [len_2bytes_field] d pMI
              (try_fields INI_valueAsInt [tx_lock_field] d pMI (Ret (0, handled, d, pMI)))))
  end.

(** ** What the parser needs of a client

    [means] relates the settings before and after an item of a section, [refuses] the
    settings before and after an item the client reports as an error. *)

Section Clients.
Context {C : Type}.
Implicit Types (cb : ini_parser -> C -> outcome (Z * bool * ini_parser * C)).
Implicit Types (means refuses : list Z -> list Z -> list Z -> C -> C -> Prop).

Class IniClient cb means refuses : Prop := {
  client_section d c : item_name d = None -> exists h, cb d c = Ret (0, h, d, c);
  client_item d sec n v c c' :
    shows d sec (PItem n v) -> ini_error d = false -> did_dequote d = false -> means sec n v c c' ->
    exists d', cb d c = Ret (0, true, d', c') /\ ini_error d' = false /\ cur_section d' = cur_section d;
  client_refuses d sec n v c c' :
    shows d sec (PItem n v) -> ini_error d = false -> did_dequote d = false -> refuses sec n v c c' ->
    exists r h d', cb d c = Ret (r, h, d', c') /\ (r = 0 /\ h = false /\ item_name d' = item_name d \/ ini_error d' = true)
}.

(** The settings after the entries of a file. *)
Inductive loads means : list Z -> list entry -> C -> C -> Prop :=
| loads_nil sec c : loads means sec [] c c
| loads_skip sec e es c c' : entry_parsed e = PSkip -> loads means sec es c c' -> loads means sec (e :: es) c c'
| loads_section sec e name es c c' : entry_parsed e = PSection name -> loads means name es c c' -> loads means sec (e :: es) c c'
| loads_item sec e n v es c c1 c' :
    entry_parsed e = PItem n v -> means sec n v c c1 -> loads means sec es c1 c' -> loads means sec (e :: es) c c'.

(** The section the entries end in. *)
Fixpoint last_section (sec : list Z) (es : list entry) : list Z :=
  match es with
  | [] => sec
  | e :: es => last_section (match entry_parsed e with PSection n => n | _ => sec end) es
  end.

Context {D : Type} `{Source D} cb means refuses `{!IniClient cb means refuses}.

(** A printed line, up to the call. *)
Lemma scan_entry d e k post :
  ini_error d = false -> entry_ok e ->
  exists d', ini_scan (set_workbuf d (line_bytes (print_entry e, k) ++ 0 :: post)) =
      Ret (d', match entry_parsed e with PSkip => Continue | PBad => Break | _ => Call end) /\
    did_dequote d' = false /\ ini_error d' = false /\ shows d' (cur_section d) (entry_parsed e).
Proof.
  intros He Hok. pose proof (print_plain e Hok) as Hp.
  assert (no_zero (line_bytes (print_entry e, k))) as Hz.
  { apply Forall_app. split; [revert Hp; apply Forall_impl; by intros c []|destruct k; by repeat constructor]. }
  destruct (ini_scan_run (set_workbuf d (line_bytes (print_entry e, k) ++ 0 :: post)) _ post eq_refl Hz (has_eol_line _) (line_shorter _) He)
    as (d' & E & _ & Hq & Hr & Hs).
  rewrite parse_line_eol in *. cbn [fst] in *. rewrite parse_print_entry in * by done. exists d'. split; [done|]. split; [done|].
  split; [|done]. by destruct e.
Qed.

(** One line and the rest of the loop. *)
Lemma loop_entry fuel d c p e k es :
  stream_ok p -> ini_error d = false -> entry_ok e -> text_ok 4095 (print_file ((e, k) :: es)) ->
  stream_pending p = concat (map line_bytes (print_file ((e, k) :: es))) ->
  exists d1 p1, stream_ok p1 /\ stream_pending p1 = concat (map line_bytes (print_file es)) /\
    did_dequote d1 = false /\ ini_error d1 = false /\ shows d1 (cur_section d) (entry_parsed e) /\
    ini_loop cb (S fuel) d c p =
      match entry_parsed e with
      | PSkip => ini_loop cb fuel d1 c p1
      | PBad => Ret (d1, c, p1)
      | _ => '(d2, c2, more) ← ini_call cb d1 c; if (more : bool) then ini_loop cb fuel d2 c2 p1 else Ret (d2, c2, p1)
      end.
Proof.
  intros Hp He Hok Ht Hpd. cbn [print_file map fst snd] in *. fold (print_file es) in *. destruct Ht as (Hs & Hl & Hm & Ht).
  cbn [map concat] in Hpd.
  destruct (ini_loop_step cb fuel d c p (line_bytes (print_entry e, k)) (concat (map line_bytes (print_file es))) Hp He)
    as (p1 & post & Hp1 & Hr & E).
  { rewrite Hpd. unfold line_bytes at 1 3. cbn [fst snd]. rewrite <- app_assoc. apply next_line_line; [done|done|].
    intros ->. specialize (Hm eq_refl). destruct (print_file es) as [|[s2 e2] ls]; [done|]. cbn [map concat] in *. by destruct s2, e2. }
  destruct (scan_entry d e k post He Hok) as (d1 & E1 & Hq & Hr1 & Hsh). exists d1, p1. repeat (split; [done|]).
  rewrite E, bool_decide_eq_false_2 by (by destruct (print_entry e), k). unfold ini_line. rewrite E1. cbn [mbind outcome_bind].
  by destruct (entry_parsed e).
Qed.

(** *** Running a file *)

Lemma client_loop es2 : forall es fuel d c c' p,
  stream_ok p -> ini_error d = false -> Forall (fun e => entry_ok (fst e)) es -> text_ok 4095 (print_file (es ++ es2)) ->
  stream_pending p = concat (map line_bytes (print_file (es ++ es2))) -> loads means (cur_section d) (map fst es) c c' ->
  exists d' p', ini_loop cb (length es + fuel) d c p = ini_loop cb fuel d' c' p' /\ stream_ok p' /\ ini_error d' = false /\
    text_ok 4095 (print_file es2) /\ stream_pending p' = concat (map line_bytes (print_file es2)) /\
    cur_section d' = last_section (cur_section d) (map fst es).
Proof.
  induction es as [|[e k] es IH]; intros fuel d c c' p Hp He Hok Ht Hpd Hl; cbn [app map fst last_section length Nat.add] in *.
  { inversion Hl; subst. by exists d, p. }
  apply Forall_cons_iff in Hok as [Hk Hok]. cbn [fst] in Hk.
  destruct (loop_entry (length es + fuel) d c p e k (es ++ es2) Hp He Hk Ht Hpd) as (d1 & p1 & Hp1 & Hr & Hq & He1 & Hsh & ->).
  assert (text_ok 4095 (print_file (es ++ es2))) as Ht1 by (cbn [print_file map] in Ht; by destruct Ht as (_ & _ & _ & ?)).
  inversion Hl as [|? ? ? ? ? Ee Hl'|? ? ? ? ? ? Ee Hl'|? ? ? ? ? ? c1 ? Ee Hm Hl']; subst; rewrite Ee in *; cbn [shows] in Hsh.
  - rewrite <- Hsh in *. by apply IH.
  - destruct Hsh as (Hc & Hn & _). destruct (client_section d1 c Hn) as (h & E). unfold ini_call. rewrite E.
    cbn [mbind outcome_bind Z.ltb Z.compare]. rewrite Hn, <- Hc in *. destruct h; cbn [mbind outcome_bind]; by apply IH.
  - destruct (client_item d1 (cur_section d) n v c c1 Hsh He1 Hq Hm) as (d2 & E & He2 & Hc). unfold ini_call. rewrite E.
    cbn [mbind outcome_bind Z.ltb Z.compare]. destruct Hsh as (Hs & _). rewrite <- Hs, <- Hc in *. by apply IH.
Qed.

Lemma client_parse es c c' p fuel :
  stream_ok p -> Forall (fun e => entry_ok (fst e)) es -> text_ok 4095 (print_file es) ->
  stream_pending p = concat (map line_bytes (print_file es)) -> (length es + 1 <= fuel)%nat ->
  loads means [] (map fst es) c c' -> exists p', INI_parse cb fuel c p = Ret (0, c', p').
Proof.
  intros Hp Hok Ht Hpd Hf Hl. rewrite <- (app_nil_r es) in Ht, Hpd.
  destruct (client_loop [] es (fuel - length es) ini_init c c' p Hp eq_refl Hok Ht Hpd Hl) as (d' & p' & E & Hp' & He & _ & Hr & _).
  replace (length es + (fuel - length es))%nat with fuel in E by lia. unfold INI_parse. rewrite E.
  destruct (fuel - length es)%nat as [|f] eqn:Ef; [lia|].
  destruct (ini_loop_step cb f d' c' p' [] [] Hp' He) as (p2 & post & _ & _ & ->); [by rewrite Hr|].
  cbn. rewrite He. by eexists.
Qed.

Lemma client_error es e k es2 n v c c1 c' p fuel :
  stream_ok p -> Forall (fun e => entry_ok (fst e)) (es ++ [(e, k)]) -> text_ok 4095 (print_file (es ++ (e, k) :: es2)) ->
  stream_pending p = concat (map line_bytes (print_file (es ++ (e, k) :: es2))) -> (length es + 2 <= fuel)%nat ->
  loads means [] (map fst es) c c1 -> entry_parsed e = PItem n v -> refuses (last_section [] (map fst es)) n v c1 c' ->
  exists p', INI_parse cb fuel c p = Ret (-1, c', p').
Proof.
  intros Hp [Hok Hk]%Forall_app Ht Hpd Hf Hl Ee Hr. apply Forall_cons_iff in Hk as [Hk _]. cbn [fst] in Hk.
  destruct (client_loop ((e, k) :: es2) es (fuel - length es) ini_init c c1 p Hp eq_refl Hok Ht Hpd Hl) as (d' & p' & E & Hp' & He & Ht' & Hpd' & Hc).
  replace (length es + (fuel - length es))%nat with fuel in E by lia. unfold INI_parse. rewrite E.
  destruct (fuel - length es)%nat as [|[|f]] eqn:Ef; [lia|lia|].
  destruct (loop_entry (S f) d' c1 p' e k es2 Hp' He Hk Ht' Hpd') as (d1 & p1 & Hp1 & _ & Hq & He1 & Hsh & ->). rewrite Ee in *.
  cbn [cur_section ini_init] in Hc. rewrite <- Hc in Hr. destruct (client_refuses d1 _ n v c1 c' Hsh He1 Hq Hr) as (r & h & d2 & E2 & Hcase). unfold ini_call. rewrite E2.
  cbn [mbind outcome_bind]. destruct Hsh as (_ & Hn & _). destruct Hcase as [(-> & -> & Hi)|Herr].
  - rewrite Hi, Hn. cbn. by eexists.
  - destruct (r <? 0); cbn [mbind outcome_bind]; [rewrite Herr; by eexists|]. destruct h; [|destruct (item_name d2)];
      cbn [mbind outcome_bind ini_loop INI_syntaxError INI_vsyntaxError ini_error]; rewrite ?Herr; cbn [mbind outcome_bind]; rewrite ?Herr; by eexists.
Qed.

End Clients.

(** ** Reading an item *)

(** The name is at the front of the work buffer. *)
Definition has_name (d : ini_parser) (n : list Z) : Prop :=
  item_name d = Some 0 /\ no_zero n /\ exists r, workbuf d = n ++ 0 :: r.

Lemma shows_named d n v : item_name d = Some 0 -> shows_item d n v -> has_name d n.
Proof. intros Hi (Hn & _ & j & post & _ & Hw & _). split; [done|]. split; [done|]. exists (j ++ v ++ 0 :: post). rewrite Hw. by rewrite <- app_assoc. Qed.

Lemma named_run d n s : has_name d n -> bool_decide (str s = str "*") = false -> named d s = Ret (bool_decide (n = str s)).
Proof.
  intros (Hi & Hn & r & Hw) Hs. unfold named, INI_itemMatches. cbv zeta. unfold default, from_option, id.
  rewrite Hs, Hi, Hw. rewrite (cstr_at [] n r Hn : cstr (n ++ 0 :: r) 0 = _). by rewrite (bool_decide_eq_true_2 (str "*" = str "*")).
Qed.

Lemma value_run d n v : shows_item d n v -> value_str d = Ret v.
Proof. intros (o & Ho & _ & Hv)%shows_item_value. unfold value_str, value_at. by rewrite Ho. Qed.

Lemma item_holds d n v : shows_item d n v -> exists pre post, holds d pre v post /\ post <> [].
Proof. intros (Hn & Hv & j & post & Ho & Hw & Hp). by exists (n ++ 0 :: j), post. Qed.

(** The texts that stand for a string. *)
Inductive string_value : list Z -> list Z -> Prop :=
| plain_string v : hd 0 v <> 34 -> hd 0 v <> 39 -> string_value v v
| quoted_string s : is_bytes s -> no_zero s -> zlen s < 2 ^ 31 -> string_value (quote s) s.

Lemma dequote_value d n v s :
  item_name d = Some 0 -> shows_item d n v -> ini_error d = false -> did_dequote d = false -> string_value v s ->
  exists k d', INI_dequote d = Ret (k, d') /\ did_dequote d' = true /\ ini_error d' = false /\
    cur_section d' = cur_section d /\ has_name d' n /\ value_str d' = Ret s.
Proof.
  intros Hi Hsh He Hq Hs. pose proof (value_run d n v Hsh) as Hval. pose proof (shows_named d n v Hi Hsh) as Hnm.
  pose proof Hsh as (Hn & Hv & j & post & Ho & Hw & Hp). destruct Hs as [v H34 H39|s Hb Hz Hl].
  - exists (int32 (zlen v)), (set_dequote d true). split; [|done].
    unfold INI_dequote, value_at. rewrite Hq. cbn [set_dequote item_value workbuf]. rewrite Ho, Hw. cbn [deref mbind outcome_bind].
    assert (byte ((n ++ 0 :: j) ++ v ++ 0 :: post) (zlen (n ++ 0 :: j)) = Ret (hd 0 v)) as -> by (destruct v; apply byte_at).
    cbn [mbind outcome_bind]. rewrite (proj2 (Z.eqb_neq _ 34)), (proj2 (Z.eqb_neq _ 39)) by done. cbn [orb negb].
    rewrite strlen_at by done. by destruct d.
  - destruct (dequote_quoted d (n ++ 0 :: j) s post Hb Hl) as (d' & rest & E & Hiv & Hwb & _ & Hq' & He' & Hc & Hi'); try done.
    exists (zlen s), d'. split; [done|]. split; [done|]. split; [done|]. split; [done|]. split.
    + split; [by rewrite Hi'|]. split; [done|]. exists (j ++ [34] ++ s ++ 0 :: rest). rewrite Hwb. by rewrite <- !app_assoc.
    + unfold value_str, value_at. rewrite Hiv, Hwb. cbn [deref mbind outcome_bind].
      replace (zlen (n ++ 0 :: j) + 1) with (zlen ((n ++ 0 :: j) ++ [34])) by (by rewrite (zlen_app _ [34])). by apply cstr_at.
Qed.

Lemma strdup_dequoted d s : did_dequote d = true -> value_str d = Ret s -> INI_itemValue_strdup true d = Ret (Some s, d).
Proof.
  intros Hq Hv. unfold INI_itemValue_strdup, INI_dequote. rewrite Hq. cbn [mbind outcome_bind]. unfold value_str in Hv.
  apply bind_Ret_inv in Hv as (iv & -> & Hc). cbn [mbind outcome_bind]. by rewrite Hc.
Qed.

Lemma strdup_value d n v s :
  item_name d = Some 0 -> shows_item d n v -> ini_error d = false -> did_dequote d = false -> string_value v s ->
  exists d', INI_itemValue_strdup true d = Ret (Some s, d') /\ ini_error d' = false /\ cur_section d' = cur_section d /\ has_name d' n.
Proof.
  intros Hi Hsh He Hq Hs. destruct (dequote_value d n v s Hi Hsh He Hq Hs) as (k & d' & E & Hq' & He' & Hc & Hnm & Hv). exists d'.
  split; [|done]. pose proof (strdup_dequoted d' s Hq' Hv) as Hx. unfold INI_itemValue_strdup in *. rewrite E. cbn [mbind outcome_bind].
  unfold INI_dequote in Hx. by rewrite Hq' in Hx.
Qed.

(** The number of an indexed section. *)
Lemma isNth_run d pre k : cur_section d = pre ++ print_int k -> - 2 ^ 31 <= k < 2 ^ 31 -> INI_isNth d pre = (u32 k, true, d).
Proof.
  intros Hc Hk. unfold INI_isNth. rewrite Hc, take_app_length, drop_app_length, bool_decide_eq_true_2 by done. cbn [negb].
  pose proof (strtoll_print 10 k [] ltac:(by right) I ltac:(lia)) as E. rewrite app_nil_r in E. unfold strtol. rewrite E.
  rewrite Nat.eqb_refl, int32_id by lia. destruct (print_int_cons k) as (c & r & -> & _). done.
Qed.

(** A section that does not have the prefix. *)
Lemma isNth_other d pre : take (length pre) (cur_section d) <> pre -> INI_isNth d pre = (0, false, d).
Proof. intros Hc. unfold INI_isNth. by rewrite bool_decide_eq_false_2. Qed.

Ltac run_names H := repeat (rewrite (named_run _ _ _ H) by (vm_compute; reflexivity); eval_strings).

(** ** UARTs: the settings of a file *)

Inductive uart_value : list Z -> list Z -> (uart_cfg -> uart_cfg) -> Prop :=
| uv_devname v s : string_value v s -> uart_value (str "devname") v (set_devname (Some s))
| uv_baudrate n : INT_MIN <= n <= INT_MAX -> uart_value (str "baudrate") (print_int n) (set_baudrate n)
| uv_flag f : In f uart_ini_cfg_flags -> flag_name f <> str "default" ->
    uart_value (str "flag") (flag_name f) (fun u => set_open_flags (int32 (Z.lor (open_flags u) (flag_value f))) u)
| uv_not_flag f : In f uart_ini_cfg_flags -> flag_name f <> str "default" ->
    uart_value (str "flag") (str "not-" ++ flag_name f) (fun u => set_open_flags (int32 (Z.land (open_flags u) (Z.lnot (flag_value f)))) u).

(** Entry [k] of an array is changed by an item of section [prefix k]. *)
Inductive nth_means {A} (prefix : string) (value : list Z -> list Z -> (A -> A) -> Prop)
  (sec n v : list Z) (all : list A) : list A -> Prop :=
| nth_item k f x : 0 <= k < 10 -> sec = str prefix ++ print_int k -> value n v f -> all !! Z.to_nat k = Some x ->
    nth_means prefix value sec n v all (<[Z.to_nat k := f x]> all).

Inductive uart_refuses (sec n v : list Z) (all : list uart_cfg) : list uart_cfg -> Prop :=
| ur_section : take 5 sec <> str "uart-" -> uart_refuses sec n v all all
| ur_index k : - 2 ^ 31 <= k < 2 ^ 31 -> ~ 0 <= k < 10 -> sec = str "uart-" ++ print_int k -> uart_refuses sec n v all all
| ur_name k u : 0 <= k < 10 -> sec = str "uart-" ++ print_int k -> all !! Z.to_nat k = Some u ->
    ~ In n (map str ["devname"; "baudrate"; "flag"]%string) -> uart_refuses sec n v all all
| ur_flag k u : 0 <= k < 10 -> sec = str "uart-" ++ print_int k -> all !! Z.to_nat k = Some u ->
    n = str "flag" -> fst (INI_flagLookup uart_ini_cfg_flags v) = None -> uart_refuses sec n v all all.

Definition flags_ok (flags : list ini_flag_name) : Prop :=
  NoDup (map flag_name flags) /\ Forall (fun n => take 4 n <> str "not-") (map flag_name flags).

Lemma uart_flags_ok : flags_ok uart_ini_cfg_flags.
Proof. split; apply (bool_decide_unpack _); vm_compute; exact I. Qed.
Lemma socket_types_ok : flags_ok socket_types.
Proof. split; apply (bool_decide_unpack _); vm_compute; exact I. Qed.

Lemma flag_found flags f (neg : bool) :
  In f flags -> flags_ok flags ->
  INI_flagLookup flags (if neg then str "not-" ++ flag_name f else flag_name f) = (Some f, neg).
Proof.
  intros Hf [Hd Hn]. unfold INI_flagLookup.
  assert (List.find (fun g => bool_decide (flag_name g = flag_name f)) flags = Some f) as E.
  { clear Hn. induction flags as [|g flags IH]; [done|]. cbn [List.find]. inversion Hd as [|? ? Hx Hd']; subst. destruct Hf as [->|Hf].
    - by rewrite bool_decide_eq_true_2.
    - rewrite bool_decide_eq_false_2; [by apply IH|]. intros Hg. apply Hx. rewrite Hg. by apply list_elem_of_In, in_map. }
  destruct neg.
  - change 4%nat with (length (str "not-")). rewrite take_app_length, bool_decide_eq_true_2, drop_app_length by done. by rewrite E.
  - rewrite bool_decide_eq_false_2; [by rewrite E|]. apply List.Forall_forall with (x := flag_name f) in Hn; [done|by apply in_map].
Qed.

Lemma uart_one d sec n v f u h :
  shows d sec (PItem n v) -> ini_error d = false -> did_dequote d = false -> uart_value n v f ->
  exists d', UART_INI_settingsOne true d h u = Ret (0, true, d', f u) /\ ini_error d' = false /\ cur_section d' = cur_section d.
Proof.
  intros (_ & Hi & Hsh) He Hq Hv. pose proof (shows_named d n v Hi Hsh) as Hn. unfold UART_INI_settingsOne. rewrite Hi.
  destruct Hv as [v s Hs|m Hm|g Hg|g Hg].
  - run_names Hn. destruct (dequote_value d _ v s Hi Hsh He Hq Hs) as (k & d' & -> & Hq' & He' & Hc & Hn' & Hv'). cbn [mbind outcome_bind].
    rewrite (strdup_dequoted d' s Hq' Hv'). cbn [mbind outcome_bind]. run_names Hn'. by exists d'.
  - run_names Hn. destruct (item_holds d _ _ Hsh) as (pre & post & Hh & _). unfold INT_MIN, INT_MAX in Hm.
    destruct (int_print d pre m post Hh ltac:(lia)) as [_ E]. unfold INI_valueAsInt. rewrite E. cbn [mbind outcome_bind number_or_error].
    rewrite int32_id by lia. run_names Hn. by exists d.
  - run_names Hn. unfold uart_flag. rewrite (value_run d _ _ Hsh). cbn [mbind outcome_bind].
    rewrite (flag_found uart_ini_cfg_flags g false Hg uart_flags_ok).
    cbn [mbind outcome_bind Z.eqb]. by exists d.
  - run_names Hn. unfold uart_flag. rewrite (value_run d _ _ Hsh). cbn [mbind outcome_bind].
    rewrite (flag_found uart_ini_cfg_flags g true Hg uart_flags_ok).
    cbn [mbind outcome_bind Z.eqb]. by exists d.
Qed.

Lemma index_in k : 0 <= k < 10 -> u32 k = k /\ (10 <=? k) = false.
Proof. intros Hk. split; [apply Z.mod_small; lia|apply Z.leb_gt; lia]. Qed.

Lemma index_out k : - 2 ^ 31 <= k < 2 ^ 31 -> ~ 0 <= k < 10 -> (10 <=? u32 k) = true.
Proof.
  intros Hk Hn. apply Z.leb_le. unfold u32. destruct (decide (0 <= k)); [rewrite Z.mod_small; lia|].
  rewrite <- (Z.mod_unique k (2 ^ 32) (-1) (k + 2 ^ 32)); lia.
Qed.

Lemma named_other d n s names : has_name d n -> In s names -> ~ In n (map str names) -> bool_decide (str s = str "*") = false ->
  named d s = Ret false.
Proof.
  intros Hn Hs Hx Hst. rewrite (named_run d n s Hn Hst), bool_decide_eq_false_2; [done|]. intros ->. apply Hx. by apply in_map.
Qed.

Ltac run_other Hn Hx :=
  repeat (erewrite (named_other _ _ _ _ Hn); [|..|exact Hx|vm_compute; reflexivity]; [|cbn; tauto]; cbn [mbind outcome_bind]).

#[export] Instance uart_client :
  IniClient (fun d => UART_INI_settingsNth true d false) (nth_means "uart-" uart_value) uart_refuses.
Proof.
  split.
  - intros d c Hi. exists false. unfold UART_INI_settingsNth. by rewrite Hi.
  - intros d sec n v c c' Hsh He Hq [k f u Hk -> Hv Hu]. pose proof Hsh as (Hc & Hi & _). unfold UART_INI_settingsNth. rewrite Hi.
    rewrite (isNth_run d (str "uart-") k Hc) by lia. destruct (index_in k Hk) as [-> Hlt]. unfold INI_MAX_UARTS. rewrite Hlt, Hu. cbn [negb].
    destruct (uart_one d _ n v f u false Hsh He Hq Hv) as (d' & -> & He' & Hc'). cbn [mbind outcome_bind]. by exists d'.
  - intros d sec n v c c' Hsh He Hq Hr. pose proof Hsh as (Hc & Hi & Hit). pose proof (shows_named d n v Hi Hit) as Hn.
    unfold UART_INI_settingsNth. rewrite Hi. unfold INI_MAX_UARTS. destruct Hr as [Hs|k Hk Hx ->|k u Hk -> Hu Hx|k u Hk -> Hu -> Hf].
    + rewrite isNth_other by (by rewrite Hc). cbn [negb]. eexists _, _, _. split; [done|]. by left.
    + rewrite (isNth_run d (str "uart-") k Hc Hk), (index_out k Hk Hx). cbn [negb]. eexists _, _, _. split; [done|]. by right.
    + rewrite (isNth_run d (str "uart-") k Hc) by lia. destruct (index_in k Hk) as [-> ->]. rewrite Hu. cbn [negb].
      unfold UART_INI_settingsOne. rewrite Hi. run_other Hn Hx.
      cbn [mbind outcome_bind Z.eqb Pos.eqb]. rewrite list_insert_id by done. eexists _, _, _. split; [done|]. by right.
    + rewrite (isNth_run d (str "uart-") k Hc) by lia. destruct (index_in k Hk) as [-> ->]. rewrite Hu. cbn [negb].
      unfold UART_INI_settingsOne. rewrite Hi. run_names Hn. unfold uart_flag. rewrite (value_run d _ _ Hit). cbn [mbind outcome_bind].
      destruct (INI_flagLookup uart_ini_cfg_flags v) as [o b]. cbn [fst] in Hf. subst o. cbn [mbind outcome_bind Z.eqb Pos.eqb].
      rewrite list_insert_id by done. eexists _, _, _. split; [done|]. by right.
Qed.

(** ** Sockets: the settings of a file *)

Inductive socket_value : list Z -> list Z -> (socket_cfg -> socket_cfg) -> Prop :=
| sv_type f v : In f socket_types -> string_value v (flag_name f) -> socket_value (str "type") v (set_ascp (flag_value f))
| sv_host v s : string_value v s -> socket_value (str "host") v (set_host (Some s))
| sv_service v s : string_value v s -> socket_value (str "service") v (set_service (Some s))
| sv_devicename v s : string_value v s -> socket_value (str "devicename") v (set_binding (Some s))
| sv_backlog n : 0 <= n < 2 ^ 31 -> socket_value (str "server_backlog") (print_int n) (set_backlog n)
| sv_inet n : n = 4 \/ n = 6 -> socket_value (str "inet") (print_int n) (set_inet n)
| sv_any : socket_value (str "inet") (str "any") (set_inet 0).

Inductive socket_refuses (sec n v : list Z) (all : list socket_cfg) : list socket_cfg -> Prop :=
| sr_section : take 7 sec <> str "socket-" -> socket_refuses sec n v all all
| sr_index k : - 2 ^ 31 <= k < 2 ^ 31 -> ~ 0 <= k < 10 -> sec = str "socket-" ++ print_int k -> socket_refuses sec n v all all
| sr_name k c : 0 <= k < 10 -> sec = str "socket-" ++ print_int k -> all !! Z.to_nat k = Some c ->
    ~ In n (map str ["type"; "host"; "service"; "devicename"; "server_backlog"; "inet"]%string) -> socket_refuses sec n v all all
| sr_inet k c m : 0 <= k < 10 -> sec = str "socket-" ++ print_int k -> all !! Z.to_nat k = Some c ->
    n = str "inet" -> v = print_int m -> INT_MIN <= m <= INT_MAX -> m <> 4 -> m <> 6 ->
    socket_refuses sec n v all (<[Z.to_nat k := set_inet m c]> all).

Lemma any_not_int d n : shows_item d n (str "any") -> INI_isValueInt d = Ret (None, d).
Proof.
  intros (Hn & Hv & j & post & Ho & Hw & _). unfold INI_isValueInt, INI_isValueS64, whole_number, value_at.
  rewrite Ho, Hw. cbn [deref mbind outcome_bind]. set (pre := n ++ 0 :: j).
  rewrite (byte_at pre 97 (str "ny" ++ 0 :: post) : byte (pre ++ str "any" ++ 0 :: post) (zlen pre) = Ret 97). cbn [mbind outcome_bind Z.eqb Pos.eqb].
  rewrite cstr_at by done. cbn [mbind outcome_bind]. change (strtoll 0 (str "any")) with (0, 0%nat). cbv beta iota. change (Z.of_nat 0) with 0.
  rewrite Z.add_0_r.
  rewrite (byte_at pre 97 (str "ny" ++ 0 :: post) : byte (pre ++ str "any" ++ 0 :: post) (zlen pre) = Ret 97). done.
Qed.

(** A value that is copied, and the names that follow. *)
Lemma copy_hit d n v s name set r c :
  item_name d = Some 0 -> shows_item d n v -> ini_error d = false -> did_dequote d = false -> string_value v s ->
  n = str name -> bool_decide (str name = str "*") = false ->
  exists d', copy_value true name set (r, d, c) = Ret (0, d', set (Some s) c) /\
    ini_error d' = false /\ cur_section d' = cur_section d /\ has_name d' n.
Proof.
  intros Hi Hsh He Hq Hs -> Hst. pose proof (shows_named d _ v Hi Hsh) as Hn. unfold copy_value.
  rewrite (named_run d _ name Hn Hst), bool_decide_eq_true_2 by done. cbn [mbind outcome_bind].
  destruct (strdup_value d _ v s Hi Hsh He Hq Hs) as (d' & -> & He' & Hc & Hn'). cbn [mbind outcome_bind]. by exists d'.
Qed.

Lemma copy_miss d n name set r c :
  has_name d n -> bool_decide (str name = str "*") = false -> bool_decide (n = str name) = false ->
  copy_value true name set (r, d, c) = Ret (r, d, c).
Proof. intros Hn Hst Hne. unfold copy_value. by rewrite (named_run d n name Hn Hst), Hne. Qed.

(** The next test, for a name that is not the one of the item. *)
Ltac skip_names H :=
  repeat first [ rewrite (named_run _ _ _ H) by (vm_compute; reflexivity); eval_strings
               | rewrite (copy_miss _ _ _ _ _ _ H) by (vm_compute; reflexivity); cbn [mbind outcome_bind] ].

Lemma socket_one d sec n v f c h :
  shows d sec (PItem n v) -> ini_error d = false -> did_dequote d = false -> socket_value n v f ->
  exists d', SOCKET_INI_settingsOne true d h c = Ret (0, true, d', f c) /\ ini_error d' = false /\ cur_section d' = cur_section d.
Proof.
  intros (_ & Hi & Hsh) He Hq Hv. pose proof (shows_named d n v Hi Hsh) as Hn. unfold SOCKET_INI_settingsOne. rewrite Hi.
  destruct Hv as [g v Hg Hs|v s Hs|v s Hs|v s Hs|m Hm|m Hm|].
  - skip_names Hn. unfold socket_type.
    destruct (dequote_value d _ v _ Hi Hsh He Hq Hs) as (k & d' & -> & _ & He' & Hc & Hn' & Hv'). cbn [mbind outcome_bind].
    rewrite Hv'. cbn [mbind outcome_bind]. rewrite (flag_found socket_types g false Hg socket_types_ok). cbn [fst mbind outcome_bind].
    skip_names Hn'. exists d'. by destruct Hg as [<-|[<-|[]]].
  - skip_names Hn. destruct (copy_hit d _ v s "host" set_host (-1) c Hi Hsh He Hq Hs eq_refl eq_refl) as (d' & -> & He' & Hc & Hn').
    cbn [mbind outcome_bind]. skip_names Hn'. by exists d'.
  - skip_names Hn. destruct (copy_hit d _ v s "service" set_service (-1) c Hi Hsh He Hq Hs eq_refl eq_refl) as (d' & -> & He' & Hc & Hn').
    cbn [mbind outcome_bind]. skip_names Hn'. by exists d'.
  - skip_names Hn. destruct (copy_hit d _ v s "devicename" set_binding (-1) c Hi Hsh He Hq Hs eq_refl eq_refl) as (d' & -> & He' & Hc & Hn').
    cbn [mbind outcome_bind]. skip_names Hn'. by exists d'.
  - skip_names Hn. destruct (item_holds d _ _ Hsh) as (pre & post & Hh & _). unfold INI_valueAsU64, INI_isValueU64.
    rewrite (whole_number_print d pre m post _ Hh)
      by (pose proof (strtoull_print 0 m [] ltac:(by left) I ltac:(lia)) as E; by rewrite app_nil_r in E).
    cbn [mbind outcome_bind option_map number_or_error]. rewrite u64_id by lia.
    assert (int32 (u32 m) = m) as -> by (unfold u32; rewrite Z.mod_small by lia; apply int32_id; lia). skip_names Hn. by exists d.
  - skip_names Hn. destruct (item_holds d _ _ Hsh) as (pre & post & Hh & _). unfold socket_inet.
    destruct (int_print d pre m post Hh ltac:(lia)) as [_ ->]. cbn [mbind outcome_bind]. rewrite int32_id by lia.
    exists d. by destruct Hm as [-> | ->].
  - skip_names Hn. unfold socket_inet. rewrite (any_not_int d _ Hsh). cbn [mbind outcome_bind]. rewrite (value_run d _ _ Hsh).
    cbn [mbind outcome_bind]. eval_strings. by exists d.
Qed.

Lemma copy_other d n name set r c names :
  has_name d n -> In name names -> ~ In n (map str names) -> bool_decide (str name = str "*") = false ->
  copy_value true name set (r, d, c) = Ret (r, d, c).
Proof. intros Hn Hi Hx Hst. unfold copy_value. by rewrite (named_other d n name names Hn Hi Hx Hst). Qed.

#[export] Instance socket_client :
  IniClient (fun d => SOCKET_INI_settingsNth true d false) (nth_means "socket-" socket_value) socket_refuses.
Proof.
  split.
  - intros d c Hi. exists false. unfold SOCKET_INI_settingsNth. by rewrite Hi.
  - intros d sec n v c c' Hsh He Hq [k f u Hk -> Hv Hu]. pose proof Hsh as (Hc & Hi & _). unfold SOCKET_INI_settingsNth. rewrite Hi.
    rewrite (isNth_run d (str "socket-") k Hc) by lia. destruct (index_in k Hk) as [-> Hlt]. unfold INI_MAX_SOCKETS. rewrite Hlt, Hu. cbn [negb].
    destruct (socket_one d _ n v f u false Hsh He Hq Hv) as (d' & -> & He' & Hc'). cbn [mbind outcome_bind]. by exists d'.
  - intros d sec n v c c' Hsh He Hq Hr. pose proof Hsh as (Hc & Hi & Hit). pose proof (shows_named d n v Hi Hit) as Hn.
    unfold SOCKET_INI_settingsNth. rewrite Hi. unfold INI_MAX_SOCKETS.
    destruct Hr as [Hs|k Hk Hx ->|k u Hk -> Hu Hx|k u m Hk -> Hu -> -> Hm H4 H6].
    + rewrite isNth_other by (by rewrite Hc). cbn [negb]. eexists _, _, _. split; [done|]. by left.
    + rewrite (isNth_run d (str "socket-") k Hc Hk), (index_out k Hk Hx). cbn [negb]. eexists _, _, _. split; [done|]. by right.
    + rewrite (isNth_run d (str "socket-") k Hc) by lia. destruct (index_in k Hk) as [-> ->]. rewrite Hu. cbn [negb].
      unfold SOCKET_INI_settingsOne. rewrite Hi.
      repeat (first [ erewrite (named_other _ _ _ _ Hn); [|..|exact Hx|vm_compute; reflexivity]; [|cbn; tauto]
                    | erewrite (copy_other _ _ _ _ _ _ _ Hn); [|..|exact Hx|vm_compute; reflexivity]; [|cbn; tauto] ]; cbn [mbind outcome_bind]).
      cbn [Z.eqb Pos.eqb mbind outcome_bind]. rewrite list_insert_id by done. eexists _, _, _. split; [done|]. by right.
    + rewrite (isNth_run d (str "socket-") k Hc) by lia. destruct (index_in k Hk) as [-> ->]. rewrite Hu. cbn [negb].
      unfold SOCKET_INI_settingsOne. rewrite Hi. skip_names Hn. destruct (item_holds d _ _ Hit) as (pre & post & Hh & _). unfold socket_inet.
      unfold INT_MIN, INT_MAX in Hm. destruct (int_print d pre m post Hh ltac:(lia)) as [_ ->]. cbn [mbind outcome_bind]. rewrite int32_id by lia.
      rewrite (proj2 (Z.eqb_neq m 4)), (proj2 (Z.eqb_neq m 6)) by done. cbn [orb negb mbind outcome_bind].
      eexists _, _, _. split; [done|]. by right.
Qed.

(** ** The message interface: the settings of a file *)

Definition all_bools : list (string * (bool -> mt_cfg -> mt_cfg)) := bool_fields ++ [len_2bytes_field].
Definition all_ints : list (string * (Z -> mt_cfg -> mt_cfg)) := int_fields ++ [tx_lock_field].
Definition mt_names : list string := map fst all_bools ++ map fst all_ints.

(** A word for a boolean, in any case of its letters. *)
Definition bool_word (v : list Z) (b : bool) : Prop := map tolower v ∈ (if b then t_strs else f_strs).
#[export] Instance bool_word_dec v b : Decision (bool_word v b).
Proof. unfold bool_word. apply _. Defined.

Inductive mt_means (sec n v : list Z) (c : mt_cfg) : mt_cfg -> Prop :=
| mt_bool name set b : In (name, set) all_bools -> n = str name -> bool_word v b -> mt_means sec n v c (set b c)
| mt_int name set m : In (name, set) all_ints -> n = str name -> INT_MIN <= m <= INT_MAX -> v = print_int m -> mt_means sec n v c (set m c).

(** A word that is no boolean sets the field to false before it is reported. *)
Inductive mt_refuses (sec n v : list Z) (c : mt_cfg) : mt_cfg -> Prop :=
| mr_name : ~ In n (map str mt_names) -> mt_refuses sec n v c c
| mr_bool name set : In (name, set) all_bools -> n = str name -> ~ bool_word v true -> ~ bool_word v false ->
    mt_refuses sec n v c (set false c).

Lemma word_in v l : Forall (fun t => map tolower t = t) l -> existsb (fun t => strcaseeq t v) l = bool_decide (map tolower v ∈ l).
Proof.
  intros Hl. destruct (existsb _ l) eqn:E.
  - apply existsb_exists in E as (t & Ht & He%bool_decide_eq_true). rewrite bool_decide_eq_true_2; [done|]. apply list_elem_of_In.
    pose proof (proj1 (List.Forall_forall _ _) Hl t Ht) as Hlow. cbn beta in Hlow. by rewrite <- He, Hlow.
  - rewrite bool_decide_eq_false_2; [done|]. intros Hi%list_elem_of_In. apply not_true_iff_false in E. apply E. apply existsb_exists.
    exists (map tolower v). split; [done|]. apply bool_decide_eq_true. by apply (proj1 (List.Forall_forall _ _) Hl).
Qed.

Lemma isValueBool_run d n v : shows_item d n v ->
  INI_isValueBool d = Ret (if bool_decide (bool_word v true) then Some true else if bool_decide (bool_word v false) then Some false else None).
Proof.
  intros Hsh. pose proof (value_run d n v Hsh) as Hv. unfold value_str in Hv. apply bind_Ret_inv in Hv as (iv & Hiv & Hv).
  unfold INI_isValueBool. rewrite Hiv. cbn [mbind outcome_bind]. rewrite Hv. cbn [mbind outcome_bind].
  rewrite !word_in by (apply (bool_decide_unpack _); vm_compute; exact I). done.
Qed.

Lemma words_disjoint v : bool_word v true -> bool_word v false -> False.
Proof.
  unfold bool_word. intros Ht%list_elem_of_In Hf%list_elem_of_In.
  repeat (destruct Ht as [E|Ht]; [rewrite <- E in Hf; vm_compute in Hf; intuition discriminate|]). done.
Qed.

Lemma valueAsBool_run d n v b : shows_item d n v -> bool_word v b -> INI_valueAsBool d = Ret (b, d).
Proof.
  intros Hsh Hb. unfold INI_valueAsBool. rewrite (isValueBool_run d n v Hsh). cbn [mbind outcome_bind]. destruct b.
  - by rewrite bool_decide_eq_true_2.
  - rewrite bool_decide_eq_false_2, bool_decide_eq_true_2; [done|done|]. intros Ht. by apply (words_disjoint v).
Qed.

Lemma try_miss {A} (good : ini_parser -> outcome (A * ini_parser)) fields d n c next :
  has_name d n -> ~ In n (map str (map fst fields)) -> Forall (fun s => str s <> str "*") (map fst fields) ->
  try_fields good fields d c next = next.
Proof.
  intros Hn. induction fields as [|[name set] fields IH]; [done|]. cbn [map fst try_fields In]. intros Hx [Hs Hst]%Forall_cons_iff.
  rewrite (named_run d n name Hn) by (by apply bool_decide_eq_false_2). rewrite bool_decide_eq_false_2 by (intros ->; tauto).
  cbn [mbind outcome_bind]. apply IH; tauto.
Qed.

Lemma try_hit {A} (good : ini_parser -> outcome (A * ini_parser)) fields name set d v d' c next :
  has_name d (str name) -> In (name, set) fields -> NoDup (map str (map fst fields)) -> Forall (fun s => str s <> str "*") (map fst fields) ->
  good d = Ret (v, d') -> try_fields good fields d c next = Ret (0, true, d', set v c).
Proof.
  intros Hn Hi Hd Hst Hg. induction fields as [|[name' set'] fields IH]; [done|]. cbn [map fst try_fields] in *.
  inversion Hd as [|? ? Hx Hd']; subst. apply Forall_cons_iff in Hst as [Hs Hst].
  rewrite (named_run d _ name' Hn) by (by apply bool_decide_eq_false_2). destruct Hi as [[= -> ->]|Hi].
  - rewrite bool_decide_eq_true_2 by done. cbn [mbind outcome_bind]. by rewrite Hg.
  - rewrite bool_decide_eq_false_2; [cbn [mbind outcome_bind]; by apply IH|]. intros E. apply Hx. rewrite <- E.
    by apply list_elem_of_In, in_map, (in_map fst fields (name, set)).
Qed.

(** Conditions on concrete names. *)
Ltac by_names := first [ done | by left | apply (bool_decide_unpack _); vm_compute; exact I | by vm_compute; intuition discriminate ].

Lemma mt_bool_run d name set v d' c h :
  item_name d = Some 0 -> has_name d (str name) -> In (name, set) all_bools -> INI_valueAsBool d = Ret (v, d') ->
  MT_MSG_INI_settings d h c = Ret (0, true, d', set v c).
Proof.
  intros Hi Hn Hin Hg. unfold MT_MSG_INI_settings. rewrite Hi. apply in_app_or in Hin as [Hin|[[= <- <-]|[]]].
  - apply try_hit with name; by_names.
  - rewrite (try_miss _ bool_fields d _ c _ Hn), (try_miss _ int_fields d _ c _ Hn) by by_names.
    apply (try_hit _ [len_2bytes_field] "len-2bytes"%string (snd len_2bytes_field)); by_names.
Qed.

Lemma mt_int_run d name set v d' c h :
  item_name d = Some 0 -> has_name d (str name) -> In (name, set) all_ints -> INI_valueAsInt d = Ret (v, d') ->
  MT_MSG_INI_settings d h c = Ret (0, true, d', set v c).
Proof.
  intros Hi Hn Hin Hg. unfold MT_MSG_INI_settings. rewrite Hi. apply in_app_or in Hin as [Hin|[[= <- <-]|[]]].
  - rewrite (try_miss _ bool_fields d _ c _ Hn).
    + apply try_hit with name; by_names.
    + apply (in_map fst) in Hin. cbn [fst] in Hin. clear -Hin. repeat (destruct Hin as [<-|Hin]; [by_names|]). done.
    + by_names.
  - rewrite (try_miss _ bool_fields d _ c _ Hn), (try_miss _ int_fields d _ c _ Hn), (try_miss _ [len_2bytes_field] d _ c _ Hn) by by_names.
    apply (try_hit _ [tx_lock_field] "tx-lock-timeout"%string (snd tx_lock_field)); by_names.
Qed.

#[export] Instance mt_client : IniClient (fun d => MT_MSG_INI_settings d false) mt_means mt_refuses.
Proof.
  split.
  - intros d c Hi. exists false. unfold MT_MSG_INI_settings. by rewrite Hi.
  - intros d sec n v c c' (_ & Hi & Hsh) He Hq Hm. pose proof (shows_named d n v Hi Hsh) as Hn. exists d. split; [|done].
    destruct Hm as [name set b Hin -> Hb|name set m Hin -> Hm ->].
    + apply (mt_bool_run d name set b d); auto. by eapply valueAsBool_run.
    + apply (mt_int_run d name set m d); auto. destruct (item_holds d _ _ Hsh) as (pre & post & Hh & _). unfold INT_MIN, INT_MAX in Hm.
      destruct (int_print d pre m post Hh ltac:(lia)) as [_ E]. unfold INI_valueAsInt. rewrite E. cbn. by rewrite int32_id by lia.
  - intros d sec n v c c' (_ & Hi & Hsh) He Hq Hr. pose proof (shows_named d n v Hi Hsh) as Hn. destruct Hr as [Hx|name set Hin -> Ht Hf].
    + exists 0, false, d. split; [|by left]. unfold MT_MSG_INI_settings. rewrite Hi. unfold mt_names, all_bools, all_ints in Hx.
      rewrite !map_app, !in_app_iff in Hx.
      rewrite (try_miss _ bool_fields d n c _ Hn), (try_miss _ int_fields d n c _ Hn), (try_miss _ [len_2bytes_field] d n c _ Hn),
        (try_miss _ [tx_lock_field] d n c _ Hn) by (tauto || by_names). done.
    + exists 0, true, (INI_syntaxError d). split; [|by right]. apply (mt_bool_run d name set false); auto.
      unfold INI_valueAsBool. rewrite (isValueBool_run d _ v Hsh). cbn [mbind outcome_bind]. by rewrite !bool_decide_eq_false_2.
Qed.

(** ** Properties *)

(** C34: A configuration file all of whose items mean something to the client fills in
    the settings they mean: for every file of blank lines, comments, sections and items
    (with the blanks of [ini_print_parse], at most one in front of a line and of a
    value, lines of at most 4093 bytes, any line ends), on every back end, parsing with
    the client of the UARTs, of the sockets or of the message interface ends without an
    error and leaves the settings that the items mean when they are applied one after
    the other: names of devices and hosts plain or quoted, numbers in decimal, flags
    with and without negation, booleans in any spelling.  The flag [default] of a UART
    is not among the items with a meaning: it is documented to stand for input and
    output without a thread, and the code changes nothing for it
    ([default_flag_ignored]). *)
Theorem settings_loaded {D} `{Source D} es (p : io_stream D) fuel :
  stream_ok p -> Forall (fun e => entry_ok (fst e)) es -> text_ok 4095 (print_file es) ->
  stream_pending p = concat (map line_bytes (print_file es)) -> (length es + 1 <= fuel)%nat ->
  (forall us us', loads (nth_means "uart-" uart_value) [] (map fst es) us us' ->
     exists p', INI_parse (fun d => UART_INI_settingsNth true d false) fuel us p = Ret (0, us', p')) /\
  (forall cs cs', loads (nth_means "socket-" socket_value) [] (map fst es) cs cs' ->
     exists p', INI_parse (fun d => SOCKET_INI_settingsNth true d false) fuel cs p = Ret (0, cs', p')) /\
  (forall c c', loads mt_means [] (map fst es) c c' ->
     exists p', INI_parse (fun d => MT_MSG_INI_settings d false) fuel c p = Ret (0, c', p')).
Proof.
  intros Hp Hok Ht Hpd Hf. split; [|split]; intros c c' Hl.
  - by apply (client_parse _ _ uart_refuses es).
  - by apply (client_parse _ _ socket_refuses es).
  - by apply (client_parse _ _ mt_refuses es).
Qed.

(** A setting that is wrong is reported: an item in a section of another kind or
    of an index out of range, an item of an unknown name, an unknown flag, a
    protocol that is not 4, 6 or any, a word that is no boolean, each makes parsing
    end with -1 at its line; the settings of the lines before it stay, and those
    behind it are not read. *)
Theorem settings_refused {D} `{Source D} es e k rest n v (p : io_stream D) fuel :
  stream_ok p -> Forall (fun e => entry_ok (fst e)) (es ++ [(e, k)]) -> text_ok 4095 (print_file (es ++ (e, k) :: rest)) ->
  stream_pending p = concat (map line_bytes (print_file (es ++ (e, k) :: rest))) -> (length es + 2 <= fuel)%nat ->
  entry_parsed e = PItem n v ->
  let sec := last_section [] (map fst es) in
  (forall us us1 us', loads (nth_means "uart-" uart_value) [] (map fst es) us us1 -> uart_refuses sec n v us1 us' ->
     exists p', INI_parse (fun d => UART_INI_settingsNth true d false) fuel us p = Ret (-1, us', p')) /\
  (forall cs cs1 cs', loads (nth_means "socket-" socket_value) [] (map fst es) cs cs1 -> socket_refuses sec n v cs1 cs' ->
     exists p', INI_parse (fun d => SOCKET_INI_settingsNth true d false) fuel cs p = Ret (-1, cs', p')) /\
  (forall c c1 c', loads mt_means [] (map fst es) c c1 -> mt_refuses sec n v c1 c' ->
     exists p', INI_parse (fun d => MT_MSG_INI_settings d false) fuel c p = Ret (-1, c', p')).
Proof.
  intros Hp Hok Ht Hpd Hf Ee sec. split; [|split]; intros c c1 c' Hl Hr.
  - by apply (client_error _ _ uart_refuses es e k rest n v c c1).
  - by apply (client_error _ _ socket_refuses es e k rest n v c c1).
  - by apply (client_error _ _ mt_refuses es e k rest n v c c1).
Qed.

(** ** Instances *)

Definition no_uart : uart_cfg := MkUart None 0 0.

Definition demo_uarts : list (entry * eol) :=
  [(Comment [] Hash (str " the radio"), Unix); (Section' [] (str "uart-1") [] [], Dos);
   (Item [9] (str "devname") [32] [32] (quote (str "/dev/ttyACM0")) [], Unix);
   (Item [] (str "baudrate") [] [] (str "115200") [32], Unix);
   (Item [] (str "flag") [] [] (str "rd_thread") [], Mac); (Item [] (str "flag") [] [] (str "not-hw_handshake") [], Unix)].

Definition demo_uart_text : list Z := concat (map line_bytes (print_file demo_uarts)).

Lemma settings_loaded_witness :
  exists p', INI_parse (fun d => UART_INI_settingsNth true d false) 7 (replicate 10 (MkUart None 0 2)) (text_stream demo_uart_text) =
    Ret (0, <[1%nat := MkUart (Some (str "/dev/ttyACM0")) 115200 1]> (replicate 10 (MkUart None 0 2)), p').
Proof.
  apply (settings_loaded demo_uarts (text_stream demo_uart_text) 7).
  - apply demo_stream_ok. unfold is_bytes. by_forall.
  - repeat (apply Forall_cons_2; [by_entry|]). apply Forall_nil_2.
  - unfold demo_uarts. by_entry.
  - reflexivity.
  - cbn. lia.
  - apply loads_skip; [done|]. apply loads_section with (str "uart-1"); [done|].
    eapply loads_item; [done|eapply (nth_item _ _ _ _ _ _ 1); [lia|done|apply uv_devname, (quoted_string (str "/dev/ttyACM0")); [by_bytes|unfold no_zero; by_forall|done]|done]|].
    eapply loads_item; [done|eapply (nth_item _ _ _ _ _ _ 1); [lia|done|apply (uv_baudrate 115200); unfold INT_MIN, INT_MAX; lia|done]|].
    eapply loads_item; [done|eapply (nth_item _ _ _ _ _ _ 1); [lia|done|apply (uv_flag (MkFlag (str "rd_thread") 1)); [by left|discriminate]|done]|].
    eapply loads_item; [done|eapply (nth_item _ _ _ _ _ _ 1); [lia|done|apply (uv_not_flag (MkFlag (str "hw_handshake") 2)); [right; by left|discriminate]|done]|].
    apply loads_nil.
Defined.

Definition demo_bad : entry := Item [] (str "flag") [] [] (str "parity") [].

Definition demo_bad_text : list Z := concat (map line_bytes (print_file [(Section' [] (str "uart-0") [] [], Unix); (demo_bad, Unix)])).

Lemma settings_refused_witness :
  exists p', INI_parse (fun d => UART_INI_settingsNth true d false) 3 [no_uart] (text_stream demo_bad_text) = Ret (-1, [no_uart], p').
Proof.
  apply (settings_refused [(Section' [] (str "uart-0") [] [], Unix)] demo_bad Unix [] (str "flag") (str "parity") (text_stream demo_bad_text) 3) with [no_uart].
  - apply demo_stream_ok. unfold is_bytes. by_forall.
  - repeat (apply Forall_cons_2; [unfold demo_bad; by_entry|]). apply Forall_nil_2.
  - unfold demo_bad. cbn [app]. by_entry.
  - reflexivity.
  - cbn. lia.
  - reflexivity.
  - apply loads_section with (str "uart-0"); [done|]. apply loads_nil.
  - apply (ur_flag _ _ _ _ 0 no_uart); [lia|reflexivity..].
Defined.

(** The flag [default] leaves the flags of a UART as they are. *)
Example default_flag_ignored :
  let text := concat (map line_bytes (print_file [(Section' [] (str "uart-0") [] [], Unix); (Item [] (str "flag") [] [] (str "default") [], Unix)])) in
  match INI_parse (fun d => UART_INI_settingsNth true d false) 3 [MkUart None 0 STREAM_UART_FLAG_rd_thread] (text_stream text) with
  | Ret (r, us, _) => r = 0 /\ us = [MkUart None 0 STREAM_UART_FLAG_rd_thread] | _ => False end.
Proof. vm_compute. auto. Qed.

(** A value at the very end of the work buffer that is a quote and a backslash is
    read past the end of the buffer: it is what a line of 4095 bytes leaves there
    that ends in these two and a line end. *)
Example escape_overrun :
  INI_valueAsInt (MkIni false false 1 (str "retry-max" ++ replicate 4083 0 ++ [39; 92; 0; 0]) [] (Some 0) (Some 4092)) = Undef OutOfBounds.
Proof. vm_compute. reflexivity. Qed.

End IniClients.
