(* ===== verification/MtDbg.v ===== *)
(** * Descriptions of messages (mt_interface/api/src/mt_msg_dbg_load.c, mt_msg_dbg_core.c)

    A text file describes the messages of the interface: their names, their
    commands, their fields.  The loader reads it line by line into a small buffer,
    cuts the line into words in place and runs a state machine of two states; the
    decoder walks over a message along the fields of its description.  The lists of
    descriptions are Rocq lists; pointers to words are offsets into the buffer, and
    an entry of the array of words that no word was stored in keeps its value. *)

From Stdlib Require Import ZArith Lia String.
From stdpp Require Import base list option numbers.
From S2P Require Import Prelude CStr IoStream Ini IniValue MtMsg.

Open Scope Z_scope.

Module MtDbg.
Import CStr IoStream MtMsg.

Record mt_msg_dbg_field : Type := MkField { m_fieldtype : Z; m_name : option (list Z) }.
Record mt_msg_dbg : Type := MkDbg {
  m_cmd0 : Z;
  m_cmd1 : Z;
  m_pktName : option (list Z);
  m_pFields : list mt_msg_dbg_field
}.

Definition FIELDTYPE_U8 : Z := 1.
Definition FIELDTYPE_U16 : Z := 2.
Definition FIELDTYPE_U32 : Z := 3.
Definition FIELDTYPE_MAXBYTES (n : Z) : Z := 10000 + n.
Definition IS_FIELDTYPE_MAXBYTES (x : Z) : bool := (10000 <=? x) && (x <=? 19999).
Definition FIELDTYPE_BYTES_N (n : Z) : Z := 20000 + n.
Definition IS_FIELDTYPE_BYTES_N (x : Z) : bool := (20000 <=? x) && (x <=? 29999).

(** ** Lines and words *)

(** The function a line is given to. *)
Inductive parse_func_t : Type := Parse_no_msg | Parse_fields.

Definition BUF_SIZE : Z := 100.
Definition ARGV_SIZE : Z := 100.

(** [answers] is what the next requests for memory get; they succeed when it is
    used up. *)
Record dbg_load_info : Type := MkDli {
  m_is_error : bool;
  m_buf : list Z;
  m_lineno : Z;
  m_arg_count : Z;
  m_arg_idx : Z;
  m_argv : list (option Z);
  pCurParseFunc : parse_func_t;
  m_pAllMsgs : list mt_msg_dbg;
  answers : list bool
}.

Definition dli_error (d : dbg_load_info) : dbg_load_info :=
  MkDli true (m_buf d) (m_lineno d) (m_arg_count d) (m_arg_idx d) (m_argv d) (pCurParseFunc d) (m_pAllMsgs d) (answers d).
Definition dli_buf (d : dbg_load_info) (b : list Z) : dbg_load_info :=
  MkDli (m_is_error d) b (m_lineno d) (m_arg_count d) (m_arg_idx d) (m_argv d) (pCurParseFunc d) (m_pAllMsgs d) (answers d).
Definition dli_line (d : dbg_load_info) (n : Z) : dbg_load_info :=
  MkDli (m_is_error d) (m_buf d) n (m_arg_count d) (m_arg_idx d) (m_argv d) (pCurParseFunc d) (m_pAllMsgs d) (answers d).
Definition dli_args (d : dbg_load_info) (c i : Z) (v : list (option Z)) : dbg_load_info :=
  MkDli (m_is_error d) (m_buf d) (m_lineno d) c i v (pCurParseFunc d) (m_pAllMsgs d) (answers d).
Definition dli_idx (d : dbg_load_info) (i : Z) : dbg_load_info := dli_args d (m_arg_count d) i (m_argv d).
Definition dli_func (d : dbg_load_info) (f : parse_func_t) : dbg_load_info :=
  MkDli (m_is_error d) (m_buf d) (m_lineno d) (m_arg_count d) (m_arg_idx d) (m_argv d) f (m_pAllMsgs d) (answers d).
Definition dli_msgs (d : dbg_load_info) (l : list mt_msg_dbg) : dbg_load_info :=
  MkDli (m_is_error d) (m_buf d) (m_lineno d) (m_arg_count d) (m_arg_idx d) (m_argv d) (pCurParseFunc d) l (answers d).
Definition dli_answers (d : dbg_load_info) (l : list bool) : dbg_load_info :=
  MkDli (m_is_error d) (m_buf d) (m_lineno d) (m_arg_count d) (m_arg_idx d) (m_argv d) (pCurParseFunc d) (m_pAllMsgs d) l.

(** A request for memory. *)
Definition get_mem (d : dbg_load_info) : bool * dbg_load_info :=
  match answers d with [] => (true, d) | b :: l => (b, dli_answers d l) end.

(** Cut at the first character [c]. *)
Definition cut_at (c : Z) (mem : list Z) : outcome (list Z) :=
  s ← cstr mem 0;
  match strchr c s with Some k => mem_write mem (Z.of_nat k) [0] | None => Ret mem end.

Definition my_chomp (mem : list Z) : outcome (list Z) := mem ← cut_at LF mem; cut_at CR mem.

(** The two loops of [my_strtrim]. *)
Fixpoint trim_leading (fuel : nat) (mem : list Z) : outcome (list Z) :=
  match fuel with
  | O => NoFuel
  | S fuel =>
      c ← byte mem 0;
      if c =? 0 then Ret mem
      else if is_space c then
        n ← strlen mem 1;
        d ← mem_read mem 1 (n + 1);
        mem ← mem_write mem 0 d;
        trim_leading fuel mem
      else Ret mem
  end.
Fixpoint trim_trailing (fuel : nat) (mem : list Z) : outcome (list Z) :=
  match fuel with
  | O => NoFuel
  | S fuel =>
      c ← byte mem 0;
      if c =? 0 then Ret mem
      else
        n ← strlen mem 0;
        e ← byte mem (n - 1);
        if is_space e then mem ← mem_write mem (n - 1) [0]; trim_trailing fuel mem else Ret mem
  end.
Definition my_strtrim (mem : list Z) : outcome (list Z) :=
  mem ← trim_leading (S (length mem)) mem;
  trim_trailing (S (length mem)) mem.

Definition is_delim (c : Z) : bool := (c =? 32) || (c =? 9).
Fixpoint count_while (f : Z -> bool) (s : list Z) : nat :=
  match s with c :: s => if f c then S (count_while f s) else O | [] => O end.

(** [strtok] with blanks and tabs, from [save]: the word, where to go on, and the
    memory. *)
Definition strtok (mem : list Z) (save : Z) : outcome (option Z * Z * list Z) :=
  s ← cstr mem save;
  let k := count_while is_delim s in
  let t := drop k s in
  match t with
  | [] => Ret (None, save + Z.of_nat k, mem)
  | _ =>
      let p := save + Z.of_nat k in
      let n := count_while (fun c => negb (is_delim c)) t in
      if (n =? length t)%nat then Ret (Some p, p + Z.of_nat n, mem)
      else mem ← mem_write mem (p + Z.of_nat n) [0]; Ret (Some p, p + Z.of_nat n + 1, mem)
  end.

(** Storing and reading an entry of the array of words. *)
Definition store_arg (v : list (option Z)) (i : Z) (p : option Z) : outcome (list (option Z)) :=
  if (0 <=? i) && (i <? zlen v) then Ret (<[Z.to_nat i := p]> v) else Undef OutOfBounds.
Definition arg_at (d : dbg_load_info) (i : Z) : outcome (option Z) :=
  if 0 <=? i then match m_argv d !! Z.to_nat i with Some p => Ret p | None => Undef OutOfBounds end else Undef OutOfBounds.

Fixpoint tokenize (fuel : nat) (cp : Z) (d : dbg_load_info) : outcome dbg_load_info :=
  match fuel with
  | O => NoFuel
  | S fuel =>
      '(p, cp, b) ← strtok (m_buf d) cp;
      v ← store_arg (m_argv d) (m_arg_count d) p;
      let d := dli_buf d b in
      match p with
      | Some _ => tokenize fuel cp (dli_args d (m_arg_count d + 1) (m_arg_idx d) v)
      | None => Ret (dli_args d (m_arg_count d) (m_arg_idx d) v)
      end
  end.

(** Is the line a comment? *)
Definition dbg_comment (mem : list Z) : outcome bool :=
  c ← byte mem 0;
  if (c =? 59) || (c =? 35) then Ret true
  else if c =? 47 then c1 ← byte mem 1; Ret (c1 =? 47)
  else Ret false.

(** The next line: false at the end of the text. *)
Definition next_line {D} `{io_stream_funcs D} (d : dbg_load_info) (s : io_stream D)
  : outcome (bool * dbg_load_info * io_stream D) :=
  v ← store_arg (m_argv d) 0 None;
  let d := dli_args d 0 0 v in
  '(ok, b, s) ← STREAM_fgets (m_buf d) BUF_SIZE s;
  let d := dli_buf d b in
  if negb ok then Ret (false, d, s)
  else
    let d := dli_line d (m_lineno d + 1) in
    b ← my_chomp (m_buf d);
    b ← my_strtrim b;
    let d := dli_buf d b in
    skip ← dbg_comment b;
    if (skip : bool) then b ← mem_write b 0 [0]; Ret (true, dli_buf d b, s)
    else d ← tokenize (S (length b)) 0 d; Ret (true, d, s).

(** ** The words of a line *)

Definition do_error (d : dbg_load_info) : dbg_load_info := dli_error d.

Definition arg_str (d : dbg_load_info) : outcome (option (list Z) * dbg_load_info) :=
  p ← arg_at d (m_arg_idx d);
  match p with
  | None => Ret (None, do_error d)
  | Some p =>
      s ← cstr (m_buf d) p;
      let '(ok, d) := get_mem d in
      let d := if (ok : bool) then d else do_error d in
      Ret (if (ok : bool) then Some s else None, dli_idx d (m_arg_idx d + 1))
  end.

Definition arg_long (d : dbg_load_info) : outcome (Z * dbg_load_info) :=
  p ← arg_at d (m_arg_idx d);
  let d := dli_idx d (m_arg_idx d + 1) in
  match p with
  | None => Ret (0, do_error d)
  | Some p =>
      s ← cstr (m_buf d) p;
      let '(r, n) := strtol 0 s in
      if negb (n =? 0)%nat && (n =? length s)%nat then Ret (r, d) else Ret (0, do_error d)
  end.

Definition arg_u8 (d : dbg_load_info) : outcome (Z * dbg_load_info) :=
  '(r, d) ← arg_long d;
  let r := int32 r in
  Ret (r, if (r <? 0) || (255 <? r) then do_error d else d).

(** The first word, as [strcmp] sees it. *)
Definition word0 (d : dbg_load_info) : outcome (list Z) :=
  p ← arg_at d 0;
  p ← deref p;
  cstr (m_buf d) p.

(** ** The two states *)

(** The field is at the end of the list of the newest message. *)
Definition add_field (f : mt_msg_dbg_field) (l : list mt_msg_dbg) : outcome (list mt_msg_dbg) :=
  match l with
  | [] => Undef NullPointer
  | m :: l => Ret (MkDbg (m_cmd0 m) (m_cmd1 m) (m_pktName m) (m_pFields m ++ [f]) :: l)
  end.

(** The result and the state. *)
Definition parse_fields (d : dbg_load_info) : outcome (Z * dbg_load_info) :=
  w ← word0 d;
  if bool_decide (w = str "end") then Ret (0, dli_func d Parse_no_msg)
  else
    let '(ok, d) := get_mem d in
    if negb ok then Ret (-1, do_error d)
    else
      let finish t name d :=
        l ← add_field (MkField t name) (m_pAllMsgs d); Ret (dli_msgs d l) in
      '(name, d) ← arg_str (dli_idx d (m_arg_idx d + 1));
      w ← word0 d;
      if bool_decide (w = str "u8") then d ← finish FIELDTYPE_U8 name d; Ret (0, d)
      else if bool_decide (w = str "u16") then d ← finish FIELDTYPE_U16 name d; Ret (0, d)
      else if bool_decide (w = str "u32") then d ← finish FIELDTYPE_U32 name d; Ret (0, d)
      else if bool_decide (w = str "bytes") then
        '(n, d) ← arg_long d;
        d ← finish (int32 (FIELDTYPE_BYTES_N 0 + n)) name d; Ret (0, d)
      else if bool_decide (w = str "max-bytes") then
        '(n, d) ← arg_long d;
        d ← finish (int32 (FIELDTYPE_MAXBYTES 0 + n)) name d; Ret (0, d)
      else d ← finish 0 name d; Ret (-1, do_error d).

(** Without memory for the message the code goes on with the null pointer: the
    macro that should report it expands to nothing. *)
Definition parse_state_no_msg (d : dbg_load_info) : outcome (Z * dbg_load_info) :=
  w ← word0 d;
  let simple := bool_decide (w = str "simple-msg") in
  let complex := bool_decide (w = str "complex-msg") in
  let d := if complex then dli_func d Parse_fields else d in
  if negb (simple || complex) then Ret (-1, do_error d)
  else
    let d := dli_idx d 1 in
    let '(ok, d) := get_mem d in
    if negb ok then Undef NullPointer
    else
      '(name, d) ← arg_str d;
      '(c0, d) ← arg_u8 d;
      '(c1, d) ← arg_u8 d;
      Ret (0, dli_msgs d (MkDbg c0 c1 name [] :: m_pAllMsgs d)).

Definition parse_func (d : dbg_load_info) : outcome (Z * dbg_load_info) :=
  match pCurParseFunc d with Parse_no_msg => parse_state_no_msg d | Parse_fields => parse_fields d end.

Fixpoint load_loop {D} `{io_stream_funcs D} (fuel : nat) (d : dbg_load_info) (s : io_stream D)
  : outcome (dbg_load_info * io_stream D) :=
  match fuel with
  | O => NoFuel
  | S fuel =>
      '(more, d, s) ← next_line d s;
      if negb more then Ret (d, s)
      else if m_arg_count d =? 0 then load_loop fuel d s
      else
        '(r, d) ← parse_func d;
        if r =? -1 then Ret (d, s) else load_loop fuel d s
  end.

Definition dli_init (answers : list bool) : dbg_load_info :=
  MkDli false (replicate (Z.to_nat BUF_SIZE) 0) 0 0 0 (replicate (Z.to_nat ARGV_SIZE) None) Parse_no_msg [] answers.

(** The file system, the standard files and the memory of the stream are arguments.
    The empty list is the null pointer: after an error the descriptions are freed
    and the result is null. *)
Definition MT_MSG_dbg_load (fopen : list Z -> option FILE) (std : std_file -> FILE) (mem : bool) (answers : list bool)
    (fuel : nat) (filename : list Z) : outcome (list mt_msg_dbg) :=
  match STREAM_createRdFile fopen std mem filename with
  | None => Ret []
  | Some s =>
      '(d, s) ← load_loop fuel (dli_init answers) s;
      '(_, s) ← STREAM_close s;
      Ret (if m_is_error d then [] else m_pAllMsgs d)
  end.

(** ** Decoding a message *)

(** The value of the field [f] at [cursor], none for an array of bytes, which is
    only printed, and for an unknown type, which is passed over; and the new
    cursor. *)
Definition print_field (iobuf : list Z) (idx_end : Z) (f : mt_msg_dbg_field) (cursor : Z) : outcome (option Z * Z) :=
  let t := m_fieldtype f in
  let n := if IS_FIELDTYPE_BYTES_N t then t - FIELDTYPE_BYTES_N 0 else -1 in
  let n := if IS_FIELDTYPE_MAXBYTES t then Z.min (t - FIELDTYPE_MAXBYTES 0) (idx_end - cursor) else n in
  if 0 <=? n then Ret (None, cursor)
  else if t =? FIELDTYPE_U8 then
    a ← byte iobuf cursor;
    Ret (Some a, cursor + 1)
  else if t =? FIELDTYPE_U16 then
    a ← byte iobuf cursor;
    b ← byte iobuf (cursor + 1);
    Ret (Some (u32 (a + Z.shiftl b 8)), cursor + 2)
  else if t =? FIELDTYPE_U32 then
    a ← byte iobuf cursor;
    b ← byte iobuf (cursor + 1);
    c ← byte iobuf (cursor + 2);
    d ← byte iobuf (cursor + 3);
    Ret (Some (u32 (a + Z.shiftl b 8 + Z.shiftl c 16 + Z.shiftl d 24)), cursor + 4)
  else Ret (None, cursor).

Fixpoint print_fields (iobuf : list Z) (idx_end : Z) (fs : list mt_msg_dbg_field) (cursor : Z)
  : outcome (list (mt_msg_dbg_field * option Z)) :=
  match fs with
  | [] => Ret []
  | f :: fs =>
      '(v, cursor) ← print_field iobuf idx_end f cursor;
      l ← print_fields iobuf idx_end fs cursor;
      Ret ((f, v) :: l)
  end.

(** Does a description fit the commands?  -1 fits all. *)
Definition dbg_matches (m : mt_msg) (p : mt_msg_dbg) : bool :=
  ((m_cmd0 p =? -1) || (cmd0 m =? m_cmd0 p)) && ((m_cmd1 p =? -1) || (cmd1 m =? m_cmd1 p)).

(** [enabled] is the log flag.  The description found, and the fields with their
    values. *)
Definition MT_MSG_dbg_decode (enabled : bool) (pMsg : mt_msg) (pIface : mt_iface) (pDbg : list mt_msg_dbg)
  : outcome (option (mt_msg_dbg * list (mt_msg_dbg_field * option Z))) :=
  if bool_decide (pDbg = []) || negb enabled then Ret None
  else
    let idx_start := (if frame_sync pIface then 1 else 0) + (if len_2bytes pIface then 2 else 1) + 2 in
    let idx_end := idx_start + expected_len pMsg in
    match List.find (dbg_matches pMsg) pDbg with
    | None => Ret None
    | Some p => l ← print_fields (iobuf pMsg) idx_end (m_pFields p) idx_start; Ret (Some (p, l))
    end.

(** ** Words of a line *)

Definition word (w : list Z) : Prop := w <> [] /\ Forall (fun c => is_space c = false /\ c <> 0) w.
Definition blanks (b : list Z) : Prop := Forall (fun c => is_delim c = true) b.

(** A line as blanks and words that alternate. *)
Definition layout : Type := list (list Z * list Z).
Definition text_of (l : layout) : list Z := concat (map (fun bw => fst bw ++ snd bw) l).
Definition piece_ok (bw : list Z * list Z) : Prop := blanks (fst bw) /\ word (snd bw).
(** Only the first word may have no blanks in front of it. *)
Definition layout_ok (l : layout) : Prop := Forall piece_ok l /\ Forall (fun bw => fst bw <> []) (tail l).

Lemma delim_space c : is_delim c = true -> is_space c = true.
Proof. unfold is_delim, is_space. by intros [->%Z.eqb_eq| ->%Z.eqb_eq]%orb_true_iff. Qed.

Lemma word_delim c : is_space c = false -> is_delim c = false.
Proof. intros Hc. apply not_true_iff_false. intros H%delim_space. congruence. Qed.

Lemma blanks_no_zero b : blanks b -> no_zero b.
Proof. apply Forall_impl. by intros c H ->. Qed.

Lemma word_no_zero w : word w -> no_zero w.
Proof. intros [_ H]. revert H. apply Forall_impl. by intros c []. Qed.

Ltac by_no_zero := repeat (apply Forall_app; split); first [by apply blanks_no_zero | by apply word_no_zero | done].

Lemma text_no_zero l : Forall piece_ok l -> no_zero (text_of l).
Proof.
  induction 1 as [|[b w] l [Hb Hw] _ IH]; [constructor|]. change (text_of ((b, w) :: l)) with ((b ++ w) ++ text_of l).
  cbn [fst snd] in *. rewrite <- app_assoc. by_no_zero.
Qed.

Lemma count_blanks b s : blanks b -> match s with c :: _ => is_delim c = false | [] => True end ->
  count_while is_delim (b ++ s) = length b.
Proof. intros Hb Hs. induction Hb as [|c b Hc _ IH]; cbn [app count_while length]; [destruct s; [done|by cbn; rewrite Hs]|by rewrite Hc, IH]. Qed.

Lemma count_word w s : word w -> match s with c :: _ => is_delim c = true | [] => True end ->
  count_while (fun c => negb (is_delim c)) (w ++ s) = length w.
Proof.
  intros [_ Hw] Hs. induction Hw as [|c w [Hc _] _ IH]; cbn [app count_while length].
  - destruct s; [done|]. cbn. by rewrite Hs.
  - rewrite (word_delim c Hc). cbn [negb]. by rewrite IH.
Qed.

Lemma strtok_end pre post : strtok (pre ++ 0 :: post) (zlen pre) = Ret (None, zlen pre, pre ++ 0 :: post).
Proof. unfold strtok. rewrite (cstr_at pre [] post ltac:(constructor) : cstr (pre ++ 0 :: post) _ = _). cbn. by rewrite Z.add_0_r. Qed.

Lemma strtok_word pre b w rest post :
  blanks b -> word w -> no_zero rest -> match rest with c :: _ => is_delim c = true | [] => True end ->
  strtok (pre ++ (b ++ w ++ rest) ++ 0 :: post) (zlen pre) =
    Ret (Some (zlen (pre ++ b)),
         match rest with [] => zlen (pre ++ b ++ w) | _ => zlen (pre ++ b ++ w) + 1 end,
         match rest with [] => pre ++ (b ++ w) ++ 0 :: post | _ :: r => pre ++ (b ++ w ++ 0 :: r) ++ 0 :: post end).
Proof.
  intros Hb Hw Hr Hd. unfold strtok.
  rewrite cstr_at by by_no_zero. cbn [mbind outcome_bind].
  assert (exists c w', w = c :: w' /\ is_delim c = false) as (c & w' & Ew & Hc).
  { destruct Hw as [Hne Hw]. destruct Hw as [|c w [Hc _] _]; [done|]. exists c, w. split; [done|by apply word_delim]. }
  rewrite count_blanks by (done || by rewrite Ew). rewrite drop_app_length. rewrite count_word by done.
  replace (zlen pre + Z.of_nat (length b)) with (zlen (pre ++ b)) by (by rewrite zlen_app).
  replace (zlen (pre ++ b) + Z.of_nat (length w)) with (zlen (pre ++ b ++ w)) by (rewrite !zlen_app; unfold zlen; lia).
  destruct (w ++ rest) as [|y l] eqn:E; [by rewrite Ew in E|]. rewrite <- E.
  rewrite length_app. destruct rest as [|x rest].
  - cbn [length]. rewrite Nat.add_0_r, Nat.eqb_refl. by rewrite app_nil_r.
  - rewrite (proj2 (Nat.eqb_neq _ _)) by (cbn [length]; lia).
    replace (pre ++ (b ++ w ++ x :: rest) ++ 0 :: post) with ((pre ++ b ++ w) ++ x :: rest ++ 0 :: post) by (rewrite <- !app_assoc; done).
    rewrite mem_write_mid. cbn [mbind outcome_bind]. by rewrite <- !app_assoc; cbn [app]; rewrite <- ?app_assoc.
Qed.

(** The words [ws] are stored from entry [c] on, with a null behind them. *)
Definition words_at (d : dbg_load_info) (c : nat) (ws : list (list Z)) : Prop :=
  (forall j w, ws !! j = Some w -> exists o, m_argv d !! (c + j)%nat = Some (Some o) /\ cstr (m_buf d) o = Ret w) /\
  m_argv d !! (c + length ws)%nat = Some None.

Lemma store_ok v c p : (c < length v)%nat -> store_arg v (Z.of_nat c) p = Ret (<[c := p]> v).
Proof.
  intros Hc. unfold store_arg. rewrite (proj2 (Z.leb_le 0 _)), (proj2 (Z.ltb_lt _ (zlen v))) by (unfold zlen; lia).
  cbn [andb]. by rewrite Nat2Z.id.
Qed.

(** What cutting into words leaves alone. *)
Record same_rest (d d' : dbg_load_info) : Prop := MkSame {
  sr_error : m_is_error d' = m_is_error d;
  sr_idx : m_arg_idx d' = m_arg_idx d;
  sr_argv : length (m_argv d') = length (m_argv d);
  sr_buf : length (m_buf d') = length (m_buf d);
  sr_func : pCurParseFunc d' = pCurParseFunc d;
  sr_msgs : m_pAllMsgs d' = m_pAllMsgs d;
  sr_answers : answers d' = answers d
}.

Lemma text_cons b w l : text_of ((b, w) :: l) = b ++ w ++ text_of l.
Proof. unfold text_of. cbn [map concat fst snd]. by rewrite <- app_assoc. Qed.

Lemma tokenize_run n : forall l fuel d pre post c,
  length l = n -> layout_ok l -> m_buf d = pre ++ text_of l ++ 0 :: post -> m_arg_count d = Z.of_nat c ->
  (c + length l < length (m_argv d))%nat -> (length l < fuel)%nat ->
  exists d' mid, tokenize fuel (zlen pre) d = Ret d' /\ same_rest d d' /\ m_arg_count d' = Z.of_nat (c + length l) /\
    m_buf d' = pre ++ mid ++ 0 :: post /\ length mid = length (text_of l) /\ words_at d' c (map snd l) /\
    forall k, (k < c)%nat -> m_argv d' !! k = m_argv d !! k.
Proof.
  induction n as [|n IH]; intros [|[b w] l] fuel d pre post c Hn Hok Hb Hc Hl Hf; try discriminate Hn; destruct fuel as [|fuel];
    try (cbn in Hf; lia); cbn [tokenize].
  - change (text_of []) with (@nil Z) in Hb. cbn [app length map] in *. rewrite Hb, strtok_end. cbn [mbind outcome_bind].
    rewrite Hc, store_ok by lia. cbn [mbind outcome_bind]. eexists _, []. split; [done|]. cbn. rewrite Nat.add_0_r.
    split; [constructor; cbn; rewrite ?length_insert, ?Hb; done|]. do 3 (split; [done|]). split.
    + split; [by intros ? ?|]. cbn. rewrite Nat.add_0_r. apply list_lookup_insert_eq. lia.
    + intros k Hk. apply list_lookup_insert_ne. lia.
  - destruct Hok as [[[Hbl Hw] Hps]%Forall_cons_iff Hne]. cbn [fst snd tail] in *. rewrite text_cons in Hb.
    assert (layout_ok l) as Hok' by (split; [done|destruct Hne; [constructor|done]]).
    assert (match text_of l with ch :: _ => is_delim ch = true | [] => True end) as Hhd.
    { destruct Hne as [|[b2 w2] l' Hb2 _]; [done|]. cbn [fst] in Hb2. rewrite text_cons. destruct b2 as [|x b2]; [done|].
      apply Forall_cons_iff in Hps as [[Hx _] _]. by apply Forall_cons_iff in Hx as [Hx _]. }
    rewrite Hb, (strtok_word pre b w (text_of l) post Hbl Hw (text_no_zero l Hps) Hhd). cbn [mbind outcome_bind].
    rewrite Hc, store_ok by lia. cbn [mbind outcome_bind].
    (* what is left: the same words, without their first blank *)
    assert (exists l2 x pre2, layout_ok l2 /\ length l2 = length l /\ map snd l2 = map snd l /\
      match text_of l with [] => zlen (pre ++ b ++ w) | _ => zlen (pre ++ b ++ w) + 1 end = zlen pre2 /\
      match text_of l with [] => pre ++ (b ++ w) ++ 0 :: post | _ :: r => pre ++ (b ++ w ++ 0 :: r) ++ 0 :: post end = pre2 ++ text_of l2 ++ 0 :: post /\
      pre2 = pre ++ b ++ w ++ x /\ (x = [0] \/ x = [] /\ l2 = [])) as (l2 & x & pre2 & Hok2 & Hlen & Hmap & -> & Em & Hpre2 & Hx).
    { destruct l as [|[b2 w2] l'].
      - exists [], [], (pre ++ b ++ w). rewrite app_nil_r. split; [split; constructor|]. do 3 (split; [done|]).
        split; [by cbn; rewrite <- !app_assoc|]. split; [done|by right].
      - rewrite text_cons in Hhd |- *. apply Forall_cons_iff in Hne as [Hb2 Hne]. cbn [fst] in Hb2. destruct b2 as [|y b2]; [done|].
        apply Forall_cons_iff in Hps as [[Hy Hw2] Hps]. cbn [fst snd] in *. apply Forall_cons_iff in Hy as [_ Hy].
        exists ((b2, w2) :: l'), [0], (pre ++ b ++ w ++ [0]). split; [split; [by constructor|done]|]. split; [done|]. split; [done|].
        split; [rewrite !zlen_app; unfold zlen; cbn; lia|]. split; [|by auto]. cbn [app]. rewrite text_cons, <- !app_assoc. cbn [app].
        by rewrite <- !app_assoc. }
    cbn [length map snd] in *. rewrite Em.
    set (d1 := dli_args (dli_buf d (pre2 ++ text_of l2 ++ 0 :: post)) (Z.of_nat c + 1) (m_arg_idx d) (<[c:=Some (zlen (pre ++ b))]> (m_argv d))).
    destruct (IH l2 fuel d1 pre2 post (S c)) as (d' & mid & E & Hs & Hcnt & Hb' & Hmid & [Hws Hnull] & Hold);
      [lia|done|done|cbn; lia|cbn; rewrite length_insert; lia|lia|]. clear IH. exists d', (b ++ w ++ x ++ mid).
    change (m_arg_count (dli_buf d _)) with (m_arg_count d). change (m_arg_idx (dli_buf d _)) with (m_arg_idx d). rewrite Hc.
    fold d1. rewrite E. split; [done|]. destruct Hs; cbn in *.
    rewrite Hmap in *. rewrite length_map in Hnull.
    assert (length (b ++ w ++ x ++ mid) = length (text_of ((b, w) :: l))) as Hlm.
    { rewrite text_cons, !length_app, Hmid. apply (f_equal length) in Em. destruct Hx as [-> |[-> ->]]; cbn [length app] in *.
      - destruct (text_of l); rewrite Hpre2 in Em; repeat (rewrite !length_app in Em; cbn [length] in Em); cbn [length]; lia.
      - destruct l; [done|discriminate Hlen]. }
    split; [|split; [|split; [|split; [exact Hlm|split; [split|]]]]].
    + constructor; try done; [by rewrite sr_argv0, length_insert|]. rewrite Hb', Hb, Hpre2. rewrite text_cons, !length_app in Hlm.
      rewrite !length_app. cbn [length]. lia.
    + rewrite Hcnt. f_equal. lia.
    + rewrite Hb', Hpre2. by rewrite <- !app_assoc.
    + intros [|j] u Hj.
      * injection Hj as <-. exists (zlen (pre ++ b)). rewrite Nat.add_0_r, Hold by lia. rewrite list_lookup_insert_eq by lia. split; [done|].
        assert (exists q, x ++ mid ++ 0 :: post = 0 :: q) as (q & Eq).
        { destruct Hx as [-> |[-> ->]]; [by eexists|]. destruct mid; [by eexists|discriminate Hmid]. }
        rewrite Hb', Hpre2. rewrite <- !app_assoc, Eq, app_assoc. apply cstr_at. by apply word_no_zero.
      * destruct (Hws j u Hj) as (o & Ho & Hcs). exists o. by replace (c + S j)%nat with (S c + j)%nat by lia.
    + cbn [length]. rewrite length_map. by replace (c + S (length l))%nat with (S c + length l)%nat by lia.
    + intros k Hk. rewrite Hold by lia. apply list_lookup_insert_ne. lia.
Qed.

(** ** Trimming *)

Definition lspace (s : list Z) : list Z := drop (count_while is_space s) s.
Fixpoint rspace (s : list Z) : list Z :=
  match s with
  | [] => []
  | c :: s => match rspace s with [] => if is_space c then [] else [c] | t => c :: t end
  end.

Lemma rspace_spaces a w : Forall (fun c => is_space c = true) w -> rspace (a ++ w) = rspace a.
Proof.
  intros Hw. assert (rspace w = []) as E by (induction Hw as [|c w Hc _ IH]; [done|]; cbn; by rewrite IH, Hc).
  induction a as [|c a IH]; [done|]. cbn. by rewrite IH.
Qed.
Lemma rspace_snoc a c : is_space c = false -> rspace (a ++ [c]) = a ++ [c].
Proof. intros Hc. induction a as [|x a IH]; cbn; [by rewrite Hc|]. rewrite IH. by destruct a. Qed.
Lemma rspace_cons c s : is_space c = false -> rspace (c :: s) = c :: rspace s.
Proof. intros Hc. cbn. destruct (rspace s); [by rewrite Hc|done]. Qed.
Lemma rspace_length s : (length (rspace s) <= length s)%nat.
Proof. induction s as [|c s IH]; cbn; [lia|]. destruct (rspace s); [destruct (is_space c)|]; cbn in *; lia. Qed.
Lemma rspace_no_zero s : no_zero s -> no_zero (rspace s).
Proof.
  induction 1 as [|c s Hc _ IH]; [constructor|]. cbn. destruct (rspace s); [destruct (is_space c); by repeat constructor|by constructor].
Qed.
Lemma lspace_spaces w s : Forall (fun c => is_space c = true) w -> lspace (w ++ s) = lspace s.
Proof. intros Hw. induction Hw as [|c w Hc _ IH]; [done|]. unfold lspace. cbn. by rewrite Hc. Qed.
Lemma lspace_stop c s : is_space c = false -> lspace (c :: s) = c :: s.
Proof. intros Hc. unfold lspace. cbn. by rewrite Hc. Qed.

Lemma trim_leading_run fuel : forall s post,
  no_zero s -> (length s < fuel)%nat ->
  exists junk, trim_leading fuel (s ++ 0 :: post) = Ret (lspace s ++ 0 :: junk) /\
    length (lspace s ++ 0 :: junk) = length (s ++ 0 :: post).
Proof.
  induction fuel as [|fuel IH]; intros s post Hs Hf; [lia|]. cbn [trim_leading]. destruct Hs as [|c s Hc Hs].
  { exists post. rewrite (byte_at [] 0 post : byte ([] ++ 0 :: post) 0 = _). done. }
  rewrite (byte_at [] c (s ++ 0 :: post) : byte ((c :: s) ++ 0 :: post) 0 = _). cbn [mbind outcome_bind].
  rewrite (proj2 (Z.eqb_neq c 0)) by done. destruct (is_space c) eqn:E; [|rewrite lspace_stop by done; by exists post].
  rewrite (strlen_at [c] s post Hs : strlen ((c :: s) ++ 0 :: post) 1 = _). cbn [mbind outcome_bind].
  replace ((c :: s) ++ 0 :: post) with ([c] ++ (s ++ [0]) ++ post) by (cbn; by rewrite <- app_assoc).
  replace (zlen s + 1) with (zlen (s ++ [0])) by (by rewrite zlen_app).
  rewrite (mem_read_mid [c] (s ++ [0]) post : mem_read _ 1 _ = _). cbn [mbind outcome_bind].
  replace ([c] ++ (s ++ [0]) ++ post) with ([] ++ (c :: s) ++ (0 :: post)) by (cbn; by rewrite <- app_assoc).
  rewrite (mem_write_piece [] (c :: s) (0 :: post) (s ++ [0]) : _ -> mem_write _ 0 _ = _) by (rewrite length_app; cbn; lia).
  cbn [mbind outcome_bind app]. rewrite <- app_assoc. cbn [app].
  destruct (IH s (0 :: post) Hs ltac:(cbn in Hf; lia)) as (junk & -> & Hl). exists junk.
  assert (lspace (c :: s) = lspace s) as -> by (unfold lspace; cbn; by rewrite E). split; [done|]. rewrite Hl. cbn [app length]. repeat (rewrite !length_app; cbn [length]). lia.
Qed.

Lemma trim_trailing_run fuel : forall s post,
  no_zero s -> (length s < fuel)%nat ->
  exists junk, trim_trailing fuel (s ++ 0 :: post) = Ret (rspace s ++ 0 :: junk) /\
    length (rspace s ++ 0 :: junk) = length (s ++ 0 :: post).
Proof.
  induction fuel as [|fuel IH]; intros s post Hs Hf; [lia|]. cbn [trim_trailing]. destruct s as [|c s _] using rev_ind.
  { exists post. rewrite (byte_at [] 0 post : byte ([] ++ 0 :: post) 0 = _). done. }
  pose proof Hs as [Hs' [Hc _]%Forall_cons_iff]%Forall_app.
  assert (byte ((s ++ [c]) ++ 0 :: post) 0 = Ret (hd c s)) as -> by (destruct s as [|x s]; cbn; apply (byte_at [])).
  cbn [mbind outcome_bind]. rewrite (proj2 (Z.eqb_neq _ 0)) by (by destruct Hs').
  rewrite (strlen_at [] (s ++ [c]) post Hs : strlen ((s ++ [c]) ++ 0 :: post) 0 = _). cbn [mbind outcome_bind].
  replace (zlen (s ++ [c]) - 1) with (zlen s) by (rewrite zlen_app; unfold zlen; cbn; lia). rewrite <- app_assoc. cbn [app].
  rewrite byte_at. cbn [mbind outcome_bind]. destruct (is_space c) eqn:E.
  - rewrite mem_write_mid. cbn [mbind outcome_bind]. destruct (IH s (0 :: post) Hs' ltac:(rewrite length_app in Hf; cbn in Hf; lia)) as (junk & -> & Hl).
    exists junk. rewrite rspace_spaces by (by repeat constructor). split; [done|]. rewrite Hl, !length_app. done.
  - exists post. rewrite rspace_snoc by done. rewrite <- app_assoc. done.
Qed.

Lemma my_strtrim_run s post : no_zero s ->
  exists junk, my_strtrim (s ++ 0 :: post) = Ret (rspace (lspace s) ++ 0 :: junk) /\
    length (rspace (lspace s) ++ 0 :: junk) = length (s ++ 0 :: post).
Proof.
  intros Hs. unfold my_strtrim.
  destruct (trim_leading_run (S (length (s ++ 0 :: post))) s post Hs) as (j1 & -> & L1); [rewrite length_app; lia|]. cbn [mbind outcome_bind].
  destruct (trim_trailing_run (S (length (lspace s ++ 0 :: j1))) (lspace s) j1) as (j2 & -> & L2); [by apply Forall_drop|rewrite length_app; lia|].
  exists j2. split; [done|]. by rewrite L2.
Qed.

Lemma cut_at_run c s post : no_zero s -> c <> 0 ->
  (forall a r, s = a ++ c :: r -> Forall (fun x => x <> c) a -> cut_at c (s ++ 0 :: post) = Ret (a ++ 0 :: r ++ 0 :: post)) /\
  (Forall (fun x => x <> c) s -> cut_at c (s ++ 0 :: post) = Ret (s ++ 0 :: post)).
Proof.
  intros Hs Hc. unfold cut_at. rewrite (cstr_at [] s post Hs : cstr (s ++ 0 :: post) 0 = _). cbn [mbind outcome_bind]. split.
  - intros a r -> Ha. rewrite strchr_at by done. rewrite <- app_assoc. cbn [app]. change (Z.of_nat (length a)) with (zlen a). apply mem_write_mid.
  - intros Hn. by rewrite strchr_none.
Qed.

Lemma chomp_run s e post : Forall in_line s -> no_zero s ->
  exists junk, my_chomp ((s ++ eol_bytes e) ++ 0 :: post) = Ret (s ++ 0 :: junk) /\
    length (s ++ 0 :: junk) = length ((s ++ eol_bytes e) ++ 0 :: post).
Proof.
  intros Hi Hz. assert (Forall (fun x => x <> LF) s) as Hlf by (revert Hi; apply Forall_impl; by intros ? []).
  assert (Forall (fun x => x <> CR) s) as Hcr by (revert Hi; apply Forall_impl; by intros ? []).
  assert (forall r, no_zero r -> no_zero (s ++ r)) as Hz' by (intros r Hr; by apply Forall_app).
  unfold my_chomp. destruct e; cbn [eol_bytes].
  - rewrite (proj1 (cut_at_run LF (s ++ [LF]) post (Hz' [LF] ltac:(by repeat constructor)) ltac:(done)) s []) by done. cbn [mbind outcome_bind app].
    rewrite (proj2 (cut_at_run CR s (0 :: post) Hz ltac:(done)) Hcr). eexists. split; [done|]. rewrite !length_app. cbn. lia.
  - rewrite (proj1 (cut_at_run LF (s ++ [CR; LF]) post (Hz' [CR; LF] ltac:(by repeat constructor)) ltac:(done)) (s ++ [CR]) [])
      by (first [by rewrite <- app_assoc | apply Forall_app; split; [done|by repeat constructor]]). cbn [mbind outcome_bind app].
    rewrite (proj1 (cut_at_run CR (s ++ [CR]) (0 :: post) (Hz' [CR] ltac:(by repeat constructor)) ltac:(done)) s []) by done.
    eexists. split; [done|]. rewrite !length_app. cbn. lia.
  - rewrite (proj2 (cut_at_run LF (s ++ [CR]) post (Hz' [CR] ltac:(by repeat constructor)) ltac:(done)))
      by (apply Forall_app; split; [done|by repeat constructor]). cbn [mbind outcome_bind].
    rewrite (proj1 (cut_at_run CR (s ++ [CR]) post (Hz' [CR] ltac:(by repeat constructor)) ltac:(done)) s []) by done.
    eexists. split; [done|]. rewrite !length_app. cbn. lia.
Qed.

(** ** Reading a line *)

(** The state before a line is cut into words. *)
Record fresh (d d0 : dbg_load_info) : Prop := MkFresh {
  fr_error : m_is_error d0 = m_is_error d;
  fr_count : m_arg_count d0 = 0;
  fr_idx : m_arg_idx d0 = 0;
  fr_argv : length (m_argv d0) = length (m_argv d);
  fr_buf : length (m_buf d0) = length (m_buf d);
  fr_func : pCurParseFunc d0 = pCurParseFunc d;
  fr_msgs : m_pAllMsgs d0 = m_pAllMsgs d;
  fr_answers : answers d0 = answers d
}.

(** The arrays have their sizes. *)
Definition sized (d : dbg_load_info) : Prop := length (m_buf d) = 100%nat /\ length (m_argv d) = 100%nat.

Section Lines.
Context {D : Type} `{Source D}.

Lemma next_line_run d (p : io_stream D) s e rest :
  stream_ok p -> sized d -> Forall in_line s -> no_zero s -> (length s + 2 <= 99)%nat ->
  stream_pending p = (s ++ eol_bytes e) ++ rest -> (e = Mac -> head rest <> Some LF) ->
  exists d0 junk p', stream_ok p' /\ stream_pending p' = rest /\ m_buf d0 = rspace (lspace s) ++ 0 :: junk /\ fresh d d0 /\
    next_line d p =
      (skip ← dbg_comment (m_buf d0);
       if (skip : bool) then b ← mem_write (m_buf d0) 0 [0]; Ret (true, dli_buf d0 b, p')
       else d ← tokenize (S (length (m_buf d0))) 0 d0; Ret (true, d, p')).
Proof.
  intros Hp [Hb Hv] Hi Hz Hl Hpd Hm. unfold next_line. rewrite (store_ok (m_argv d) 0 None ltac:(lia) : store_arg (m_argv d) 0 None = _). cbn [mbind outcome_bind].
  destruct (m_buf d) as [|x tl] eqn:Eb; [done|]. cbn [dli_args m_buf]. rewrite Eb.
  pose proof (fgets_run 99 x tl p Hp ltac:(cbn in Hb; lia)) as Hf.
  rewrite Hpd, <- app_assoc in Hf.
  rewrite (next_line_line 99 s e rest Hi Hl Hm) in Hf. destruct Hf as (tl' & p' & E & Hp' & Hr & Htl & _).
  change (Z.of_nat 99 + 1) with BUF_SIZE in E. rewrite E. cbn [mbind outcome_bind].
  rewrite bool_decide_eq_false_2 by (by destruct s, e). cbn [negb dli_line dli_buf m_buf].
  set (post := drop (length (s ++ eol_bytes e)) tl').
  destruct (chomp_run s e post Hi Hz) as (j1 & -> & L1). cbn [mbind outcome_bind].
  destruct (my_strtrim_run s j1 Hz) as (j2 & -> & L2). cbn [mbind outcome_bind].
  eexists (dli_buf (dli_line (dli_buf (dli_args d 0 0 (<[0%nat:=None]> (m_argv d))) ((s ++ eol_bytes e) ++ 0 :: post)) (m_lineno d + 1)) (rspace (lspace s) ++ 0 :: j2)), j2, p'.
  split; [done|]. split; [done|]. split; [done|]. split; [|done]. constructor; cbn; try done; [by rewrite length_insert|].
  rewrite L2, L1, Eb. unfold post. rewrite length_app. cbn [length]. rewrite length_drop, length_app. assert (length (eol_bytes e) <= 2)%nat by (destruct e; cbn; lia). cbn in Hb. lia.
Qed.

(** A line that was read: its words, and what it leaves alone. *)
Record line_read (d d1 : dbg_load_info) (ws : list (list Z)) : Prop := MkRead {
  lr_error : m_is_error d1 = m_is_error d;
  lr_count : m_arg_count d1 = Z.of_nat (length ws);
  lr_idx : m_arg_idx d1 = 0;
  lr_sized : sized d1;
  lr_func : pCurParseFunc d1 = pCurParseFunc d;
  lr_msgs : m_pAllMsgs d1 = m_pAllMsgs d;
  lr_answers : answers d1 = answers d;
  lr_words : ws <> [] -> words_at d1 0 ws
}.

(** Blank lines and comments. *)
Definition skipped (s : list Z) : Prop :=
  match rspace (lspace s) with
  | [] => True
  | c :: t => c = 59 \/ c = 35 \/ (c = 47 /\ head t = Some 47)
  end.

(** The lines of a file: those without words, and those with words and blanks
    behind them. *)
Inductive dline : Type := DSkip (s : list Z) | DWords (l : layout) (tl : list Z).
Definition print_dline (x : dline) : list Z := match x with DSkip s => s | DWords l tl => text_of l ++ tl end.
Definition dline_words (x : dline) : list (list Z) := match x with DSkip _ => [] | DWords l _ => map snd l end.
Definition dline_ok (x : dline) : Prop :=
  match x with
  | DSkip s => Forall in_line s /\ no_zero s /\ skipped s
  | DWords l tl => layout_ok l /\ l <> [] /\ blanks tl /\
      match map snd l with (c :: _) :: _ => c <> 59 /\ c <> 35 /\ c <> 47 | _ => True end
  end.

Lemma piece_in_line l : Forall piece_ok l -> Forall in_line (text_of l).
Proof.
  assert (forall c, is_delim c = true -> in_line c) as Hd by (intros c [->%Z.eqb_eq| ->%Z.eqb_eq]%orb_true_iff; by split).
  induction 1 as [|[b w] l [Hb [_ Hw]] _ IH]; [constructor|]. rewrite text_cons. cbn [fst snd] in *.
  apply Forall_app. split; [by revert Hb; apply Forall_impl|]. apply Forall_app. split; [|done]. revert Hw. apply Forall_impl.
  intros c [Hc _]. split; intros ->; done.
Qed.

Lemma text_last l : Forall piece_ok l -> l <> [] -> exists a c, text_of l = a ++ [c] /\ is_space c = false.
Proof.
  intros Hl Hne. induction Hl as [|[b w] l [_ [Hw Hc]] _ IH]; [done|]. rewrite text_cons. cbn [snd] in *. destruct l as [|x l].
  - destruct w as [|c w _] using rev_ind; [done|]. apply Forall_app in Hc as [_ [[Hc _] _]%Forall_cons_iff]. exists (b ++ w), c.
    split; [|done]. cbn. by rewrite app_nil_r, <- app_assoc.
  - destruct IH as (a & c & -> & Hs); [done|]. exists (b ++ w ++ a), c. split; [by rewrite <- !app_assoc|done].
Qed.

(** Trimming leaves the words without the blanks around them. *)
Lemma trim_layout b w l tl : layout_ok ((b, w) :: l) -> blanks tl ->
  rspace (lspace (text_of ((b, w) :: l) ++ tl)) = text_of (([], w) :: l).
Proof.
  intros [Hps _] Htl. assert (forall x, blanks x -> Forall (fun c => is_space c = true) x) as Hsp by (intros x; apply Forall_impl; apply delim_space).
  pose proof Hps as [[Hb [Hw Hc]] Hl]%Forall_cons_iff. cbn [fst snd] in *. destruct w as [|c w]; [done|].
  apply Forall_cons_iff in Hc as [[Hs Hz] Hc]. rewrite !text_cons, <- app_assoc, lspace_spaces by auto. cbn [app]. rewrite lspace_stop by done.
  change (c :: (w ++ text_of l) ++ tl) with ((c :: w ++ text_of l) ++ tl). rewrite rspace_spaces by auto.
  destruct (text_last (([], c :: w) :: l)) as (a & z & E & Hz'); [|done|].
  - constructor; [|done]. split; [constructor|]. split; [done|by constructor].
  - rewrite text_cons in E. cbn [app] in E. rewrite E. by apply rspace_snoc.
Qed.

Lemma dline_read d (p : io_stream D) x e rest :
  stream_ok p -> sized d -> dline_ok x -> (length (print_dline x) + 2 <= 99)%nat ->
  stream_pending p = (print_dline x ++ eol_bytes e) ++ rest -> (e = Mac -> head rest <> Some LF) ->
  exists d1 p', next_line d p = Ret (true, d1, p') /\ stream_ok p' /\ stream_pending p' = rest /\ line_read d d1 (dline_words x).
Proof.
  intros Hp [Hsb Hsv] Hx Hlen Hpd Hm. destruct x as [s|l tl]; cbn [print_dline dline_words dline_ok] in *.
  - destruct Hx as (Hi & Hz & Hsk). destruct (next_line_run d p s e rest Hp (conj Hsb Hsv) Hi Hz Hlen Hpd Hm) as (d0 & junk & p' & Hp' & Hr & Hb & Hf & ->).
    destruct Hf. unfold skipped in Hsk. destruct (rspace (lspace s)) as [|c t] eqn:E; cbn [app] in Hb.
    + assert (dbg_comment (m_buf d0) = Ret false) as -> by (rewrite Hb; unfold dbg_comment; by rewrite (byte_at [] 0 junk : byte (0 :: junk) 0 = _)).
      cbn [mbind outcome_bind tokenize]. rewrite Hb, (strtok_end [] junk : strtok (0 :: junk) 0 = _). cbn [mbind outcome_bind].
      rewrite fr_count0, (store_ok (m_argv d0) 0 None ltac:(lia) : store_arg _ 0 _ = _). cbn [mbind outcome_bind].
      eexists _, p'. split; [done|]. split; [done|]. split; [done|]. constructor; cbn; try done. split; cbn; rewrite ?length_insert; [|lia].
      rewrite Hb in fr_buf0. cbn in fr_buf0. lia.
    + assert (dbg_comment (m_buf d0) = Ret true) as ->.
      { rewrite Hb. unfold dbg_comment. rewrite (byte_at [] c (t ++ 0 :: junk) : byte (c :: t ++ 0 :: junk) 0 = _). cbn [mbind outcome_bind].
        destruct Hsk as [-> |[-> |[-> Ht]]]; [done|done|]. cbn [Z.eqb Pos.eqb orb]. destruct t as [|c1 t]; [done|]. injection Ht as ->.
        cbn [app]. by rewrite (byte_at [47] 47 (t ++ 0 :: junk) : byte (47 :: 47 :: t ++ 0 :: junk) 1 = _). }
      cbn [mbind outcome_bind]. rewrite Hb, (mem_write_mid [] c (t ++ 0 :: junk) 0 : mem_write (c :: t ++ 0 :: junk) 0 [0] = _). cbn [mbind outcome_bind].
      eexists _, p'. split; [done|]. split; [done|]. split; [done|]. constructor; cbn; try done. split; cbn; [|lia].
      rewrite Hb in fr_buf0. cbn in fr_buf0. lia.
  - destruct Hx as (Hl & Hne & Htl & Hw0). pose proof Hl as [Hps _]. assert (Forall in_line (text_of l ++ tl)) as Hi.
    { apply Forall_app. split; [by apply piece_in_line|]. revert Htl. apply Forall_impl. intros c [->%Z.eqb_eq| ->%Z.eqb_eq]%orb_true_iff; by split. }
    assert (no_zero (text_of l ++ tl)) as Hz by (apply Forall_app; split; [by apply text_no_zero|by apply blanks_no_zero]).
    destruct (next_line_run d p _ e rest Hp (conj Hsb Hsv) Hi Hz Hlen Hpd Hm) as (d0 & junk & p' & Hp' & Hr & Hb & Hf & ->).
    destruct l as [|[b w] l]; [done|]. rewrite trim_layout in Hb by done.
    assert (layout_ok (([], w) :: l)) as Hl2.
    { destruct Hl as [[[_ Hw] Hl]%Forall_cons_iff Ht]. split; [constructor; [|done]; split; [constructor|done]|done]. }
    destruct Hf. assert (length (([], w) :: l) < 99)%nat as Hcnt.
    { assert (forall l, Forall piece_ok l -> (length l <= length (text_of l))%nat) as Hc.
      { clear. induction 1 as [|[b w] l [_ [Hw _]] _ IH]; [cbn; lia|]. rewrite text_cons, !length_app. cbn [snd] in Hw. destruct w; [done|]. cbn in *. lia. }
      specialize (Hc _ Hps). rewrite length_app in Hlen. cbn [length] in *. lia. }
    assert (dbg_comment (m_buf d0) = Ret false) as ->.
    { rewrite Hb. apply Forall_cons_iff in Hps as [[_ [Hw _]] _]. cbn [snd] in Hw. destruct w as [|c w]; [done|]. rewrite text_cons. cbn [app].
      unfold dbg_comment. rewrite (byte_at [] c _ : byte (c :: _) 0 = _). cbn [mbind outcome_bind map snd] in *.
      rewrite !(proj2 (Z.eqb_neq c _)) by tauto. done. }
    cbn [mbind outcome_bind].
    destruct (tokenize_run (S (length l)) (([], w) :: l) (S (length (m_buf d0))) d0 [] junk 0 eq_refl Hl2 Hb fr_count0)
      as (d1 & mid & E & Hs & Hc & _ & _ & Hws & _); [lia|lia|]. rewrite (E : tokenize _ 0 d0 = _). cbn [mbind outcome_bind].
    exists d1, p'. split; [done|]. split; [done|]. split; [done|]. destruct Hs. constructor; try congruence; [|split; lia|done].
    rewrite Hc. cbn [map length]. by rewrite length_map.
Qed.

End Lines.

(** ** Lines that are understood *)

Inductive field_kind : Type := KU8 | KU16 | KU32 | KBytes (n : Z) | KMaxBytes (n : Z).

Definition kind_type (k : field_kind) : Z :=
  match k with
  | KU8 => FIELDTYPE_U8 | KU16 => FIELDTYPE_U16 | KU32 => FIELDTYPE_U32
  | KBytes n => FIELDTYPE_BYTES_N n | KMaxBytes n => FIELDTYPE_MAXBYTES n
  end.
Definition kind_words (k : field_kind) (name : list Z) : list (list Z) :=
  match k with
  | KU8 => [str "u8"; name] | KU16 => [str "u16"; name] | KU32 => [str "u32"; name]
  | KBytes n => [str "bytes"; name; print_int n] | KMaxBytes n => [str "max-bytes"; name; print_int n]
  end.
Definition kind_ok (k : field_kind) : Prop := match k with KBytes n | KMaxBytes n => 0 <= n <= 9999 | _ => True end.

Definition push_field (m : mt_msg_dbg) (f : mt_msg_dbg_field) : mt_msg_dbg :=
  MkDbg (m_cmd0 m) (m_cmd1 m) (m_pktName m) (m_pFields m ++ [f]).

Inductive good_line : parse_func_t -> list mt_msg_dbg -> list (list Z) -> parse_func_t -> list mt_msg_dbg -> Prop :=
| gl_msg (complex : bool) msgs name c0 c1 : is_byte c0 -> is_byte c1 ->
    good_line Parse_no_msg msgs [str (if complex then "complex-msg" else "simple-msg"); name; print_int c0; print_int c1]
      (if complex then Parse_fields else Parse_no_msg) (MkDbg c0 c1 (Some name) [] :: msgs)
| gl_field m msgs k name : kind_ok k ->
    good_line Parse_fields (m :: msgs) (kind_words k name) Parse_fields (push_field m (MkField (kind_type k) (Some name)) :: msgs)
| gl_end msgs : good_line Parse_fields msgs [str "end"] Parse_no_msg msgs.

Lemma words_at_same d d' c ws : m_buf d' = m_buf d -> m_argv d' = m_argv d -> words_at d c ws -> words_at d' c ws.
Proof. intros Hb Hv. unfold words_at. by rewrite Hb, Hv. Qed.

Lemma arg_at_run d ws i w : words_at d 0 ws -> ws !! i = Some w ->
  exists o, arg_at d (Z.of_nat i) = Ret (Some o) /\ cstr (m_buf d) o = Ret w.
Proof.
  intros [Hw _] Hi. destruct (Hw i w Hi) as (o & Ho & Hc). exists o. split; [|done]. unfold arg_at.
  rewrite (proj2 (Z.leb_le 0 _)), Nat2Z.id by lia. by rewrite (Ho : m_argv d !! i = _).
Qed.

Lemma word0_run d w ws : words_at d 0 (w :: ws) -> word0 d = Ret w.
Proof.
  intros Hw. destruct (arg_at_run d _ 0 w Hw eq_refl) as (o & Ho & Hc). unfold word0. rewrite (Ho : arg_at d 0 = _). cbn. by rewrite Hc.
Qed.

Lemma arg_str_run d ws i w : words_at d 0 ws -> ws !! i = Some w -> m_arg_idx d = Z.of_nat i -> answers d = [] ->
  arg_str d = Ret (Some w, dli_idx d (Z.of_nat (S i))).
Proof.
  intros Hw Hi Hx Ha. destruct (arg_at_run d ws i w Hw Hi) as (o & Ho & Hc). unfold arg_str, get_mem. rewrite Hx, Ho. cbn [mbind outcome_bind].
  rewrite Hc. cbn [mbind outcome_bind]. rewrite Ha, Hx. do 3 f_equal. lia.
Qed.

Lemma arg_long_run d ws i n : words_at d 0 ws -> ws !! i = Some (print_int n) -> m_arg_idx d = Z.of_nat i -> - 2 ^ 63 <= n < 2 ^ 63 ->
  arg_long d = Ret (n, dli_idx d (Z.of_nat (S i))).
Proof.
  intros Hw Hi Hx Hn. destruct (arg_at_run d ws i _ Hw Hi) as (o & Ho & Hc). unfold arg_long. rewrite Hx, Ho. cbn [mbind outcome_bind dli_idx dli_args m_buf].
  rewrite Hc. cbn [mbind outcome_bind]. pose proof (strtoll_print 0 n [] ltac:(by left) I Hn) as E. rewrite app_nil_r in E. unfold strtol. rewrite E.
  destruct (IniValue.print_int_cons n) as (c & r & -> & _). cbn [length Nat.eqb negb andb]. rewrite Nat.eqb_refl. do 3 f_equal. lia.
Qed.

Lemma arg_u8_run d ws i n : words_at d 0 ws -> ws !! i = Some (print_int n) -> m_arg_idx d = Z.of_nat i -> is_byte n ->
  arg_u8 d = Ret (n, dli_idx d (Z.of_nat (S i))).
Proof.
  intros Hw Hi Hx Hn. unfold is_byte in Hn. unfold arg_u8. rewrite (arg_long_run d ws i n Hw Hi Hx) by lia. cbn [mbind outcome_bind].
  rewrite int32_id by lia. rewrite (proj2 (Z.ltb_ge n 0)), (proj2 (Z.ltb_ge 255 n)) by lia. done.
Qed.

Lemma parse_good d d1 ws f' msgs' :
  line_read d d1 ws -> good_line (pCurParseFunc d) (m_pAllMsgs d) ws f' msgs' -> m_is_error d = false -> answers d = [] ->
  exists d2, parse_func d1 = Ret (0, d2) /\ m_is_error d2 = false /\ answers d2 = [] /\ sized d2 /\ pCurParseFunc d2 = f' /\ m_pAllMsgs d2 = msgs'.
Proof.
  intros [He Hc Hx Hs Hf Hm Ha Hw] Hg Herr Hans. rewrite Hans in Ha. rewrite Herr in He. unfold parse_func. rewrite Hf.
  inversion Hg as [cx msgs name c0 c1 H0 H1 E1 E2 E3|m msgs k name Hk E1 E2 E3|msgs E1 E2 E3]; subst ws.
  - specialize (Hw ltac:(done)). unfold parse_state_no_msg. rewrite (word0_run d1 _ _ Hw). cbn [mbind outcome_bind].
    pose proof (words_at_same d1) as Hsame. destruct cx; eval_strings; cbv beta iota zeta delta [orb negb];
      unfold get_mem; cbn [dli_idx dli_args dli_func answers]; rewrite Ha; cbv beta iota zeta delta [negb];
      (match goal with |- context [arg_str ?x] => set (d3 := x) end);
      pose proof (Hsame d3 0%nat _ eq_refl eq_refl Hw) as Hw3;
      (rewrite (arg_str_run d3 _ 1 name Hw3) by done); cbn [mbind outcome_bind];
      (rewrite (arg_u8_run (dli_idx d3 (Z.of_nat 2)) _ 2 c0 Hw3) by done); cbn [mbind outcome_bind];
      (rewrite (arg_u8_run (dli_idx (dli_idx d3 (Z.of_nat 2)) (Z.of_nat 3)) _ 3 c1 Hw3) by done); cbn [mbind outcome_bind];
      eexists; (split; [done|]); cbn; by rewrite ?He, ?Hf, ?Hm, <- ?E1.
  - specialize (Hw ltac:(by destruct k)). unfold parse_fields.
    assert (exists w0, kind_words k name = w0 :: name :: match k with KBytes n | KMaxBytes n => [print_int n] | _ => [] end /\ bool_decide (w0 = str "end") = false)
      as (w0 & Ek & Hend) by (destruct k; eexists; (split; [done|]); reflexivity).
    rewrite Ek in Hw. rewrite (word0_run d1 _ _ Hw). cbn [mbind outcome_bind]. rewrite Hend. unfold get_mem. rewrite Ha. cbv beta iota zeta delta [negb].
    rewrite Hx. set (d3 := dli_idx d1 (0 + 1)). pose proof (words_at_same d1 d3 0%nat _ eq_refl eq_refl Hw) as Hw3.
    rewrite (arg_str_run d3 _ 1 name Hw3) by done. cbn [mbind outcome_bind]. set (d4 := dli_idx d3 (Z.of_nat 2)).
    assert (words_at d4 0 (kind_words k name)) as Hw4 by (by rewrite Ek). rewrite Ek in Hw4.
    rewrite (word0_run d4 _ _ Hw4). cbn [mbind outcome_bind]. clear Hend.
    destruct k as [| | |n|n]; cbn [kind_words] in Ek; injection Ek as <-; eval_strings;
      try (rewrite (arg_long_run d4 _ 2 n Hw4) by (done || cbn in Hk; lia); cbn [mbind outcome_bind]);
      cbn [m_pAllMsgs d4 d3 dli_idx dli_args]; rewrite Hm, <- E2; cbn [add_field mbind outcome_bind];
      eexists; (split; [done|]); cbn; rewrite ?He, ?Hf, ?Ha, <- ?E1; (do 2 (split; [done|])); (split; [exact Hs|]); (split; [done|]);
      unfold push_field, FIELDTYPE_BYTES_N, FIELDTYPE_MAXBYTES; rewrite ?int32_id by (cbn in Hk; lia); done.
  - specialize (Hw ltac:(done)). unfold parse_fields. rewrite (word0_run d1 _ _ Hw). cbn [mbind outcome_bind]. eval_strings.
    eexists. split; [done|]. cbn. by rewrite He, Ha, Hm.
Qed.

(** ** Loading a file *)

Inductive good_lines : parse_func_t -> list mt_msg_dbg -> list (list (list Z)) -> parse_func_t -> list mt_msg_dbg -> Prop :=
| gls_nil f ms : good_lines f ms [] f ms
| gls_skip f ms l f' ms' : good_lines f ms l f' ms' -> good_lines f ms ([] :: l) f' ms'
| gls_line f ms ws l f1 ms1 f' ms' : good_line f ms ws f1 ms1 -> good_lines f1 ms1 l f' ms' -> good_lines f ms (ws :: l) f' ms'.

Definition print_dlines (ls : list (dline * eol)) : list line := map (fun x => (print_dline (fst x), snd x)) ls.

Lemma good_line_words f ms ws f' ms' : good_line f ms ws f' ms' -> ws <> [].
Proof. destruct 1; try done. by destruct k. Qed.

Section Load.
Context {D : Type} `{Source D}.

Lemma next_line_end d (p : io_stream D) : stream_ok p -> sized d -> stream_pending p = [] ->
  exists d' p', next_line d p = Ret (false, d', p') /\ stream_ok p' /\ m_is_error d' = m_is_error d /\ m_pAllMsgs d' = m_pAllMsgs d.
Proof.
  intros Hp [Hb Hv] Hpd. unfold next_line. rewrite (store_ok (m_argv d) 0 None ltac:(lia) : store_arg (m_argv d) 0 None = _). cbn [mbind outcome_bind].
  destruct (m_buf d) as [|x tl] eqn:Eb; [done|]. cbn [dli_args m_buf]. rewrite Eb.
  pose proof (fgets_run 99 x tl p Hp ltac:(cbn in Hb; lia)) as Hf. rewrite Hpd in Hf. destruct Hf as (tl' & p' & E & Hp' & _).
  change (Z.of_nat 99 + 1) with BUF_SIZE in E. rewrite E. cbn. by eexists _, p'.
Qed.

Lemma load_loop_run ls : forall fuel d (p : io_stream D) f' ms',
  stream_ok p -> sized d -> m_is_error d = false -> answers d = [] -> Forall (fun x => dline_ok (fst x)) ls -> text_ok 99 (print_dlines ls) ->
  stream_pending p = concat (map line_bytes (print_dlines ls)) -> (length ls < fuel)%nat ->
  good_lines (pCurParseFunc d) (m_pAllMsgs d) (map (fun x => dline_words (fst x)) ls) f' ms' ->
  exists d' p', load_loop fuel d p = Ret (d', p') /\ stream_ok p' /\ m_is_error d' = false /\ m_pAllMsgs d' = ms'.
Proof.
  induction ls as [|[x e] ls IH]; intros fuel d p f' ms' Hp Hs He Ha Hok Ht Hpd Hf Hg; destruct fuel as [|fuel]; try (cbn in Hf; lia); cbn [load_loop].
  - destruct (next_line_end d p Hp Hs Hpd) as (d' & p' & -> & Hp' & He' & Hm). cbn [mbind outcome_bind negb]. exists d', p'.
    inversion Hg; subst. by rewrite He', Hm.
  - apply Forall_cons_iff in Hok as [Hx Hok]. destruct Ht as (_ & Hl & Hm & Ht). cbn [print_dlines map fst snd concat] in *. fold (print_dlines ls) in *.
    assert (e = Mac -> head (concat (map line_bytes (print_dlines ls))) <> Some LF) as Hm' by (intros ->; by apply Hm).
    destruct (dline_read d p x e _ Hp Hs Hx Hl Hpd Hm') as (d1 & p1 & -> & Hp1 & Hr & Hrd). cbn [mbind outcome_bind negb].
    cbn [length] in Hf. remember (dline_words x) as ws0 eqn:Ew. clear Ew. inversion Hg as [|? ? ? ? ? Hg' E1|? ? ws ? f1 ms1 ? ? Hl1 Hg']; subst.
    + pose proof Hrd as [Her Hc _ Hsz Hfu Hms Han _]. cbn [length] in Hc. rewrite Hc. cbn [Z.of_nat Z.eqb].
      apply (IH fuel d1 p1 f'); first [done | congruence | lia | by rewrite Hfu, Hms].
    + pose proof Hrd as [_ Hc _ _ _ _ _ _]. pose proof (good_line_words _ _ _ _ _ Hl1) as Hne.
      rewrite (proj2 (Z.eqb_neq (m_arg_count d1) 0)) by (rewrite Hc; destruct ws0; [done|cbn [length]; lia]).
      destruct (parse_good d d1 _ f1 ms1 Hrd Hl1 He Ha) as (d2 & -> & He2 & Ha2 & Hs2 & <- & <-). cbn [mbind outcome_bind Z.eqb].
      apply (IH fuel d2 p1 f'); first [done | lia].
Qed.

End Load.

(** ** Descriptions *)

(** A message: whether it is described by one line, its name, commands and fields. *)
Record desc : Type := MkDesc {
  ds_simple : bool;
  ds_name : list Z;
  ds_cmd0 : Z;
  ds_cmd1 : Z;
  ds_fields : list (field_kind * list Z)
}.

Definition desc_ok (x : desc) : Prop :=
  is_byte (ds_cmd0 x) /\ is_byte (ds_cmd1 x) /\ (ds_simple x = true -> ds_fields x = []) /\ Forall (fun f => kind_ok (fst f)) (ds_fields x).
Definition desc_lines (x : desc) : list (list (list Z)) :=
  [str (if ds_simple x then "simple-msg" else "complex-msg"); ds_name x; print_int (ds_cmd0 x); print_int (ds_cmd1 x)] ::
  if ds_simple x then [] else map (fun f => kind_words (fst f) (snd f)) (ds_fields x) ++ [[str "end"]].
Definition field_of (f : field_kind * list Z) : mt_msg_dbg_field := MkField (kind_type (fst f)) (Some (snd f)).
Definition desc_dbg (x : desc) : mt_msg_dbg := MkDbg (ds_cmd0 x) (ds_cmd1 x) (Some (ds_name x)) (map field_of (ds_fields x)).

Lemma good_lines_app f ms l1 f1 ms1 l2 f' ms' :
  good_lines f ms l1 f1 ms1 -> good_lines f1 ms1 l2 f' ms' -> good_lines f ms (l1 ++ l2) f' ms'.
Proof. induction 1; intros Hg; cbn; [done|constructor; auto|econstructor; eauto]. Qed.

Lemma good_fields m ms fs : Forall (fun f => kind_ok (fst f)) fs ->
  good_lines Parse_fields (m :: ms) (map (fun f => kind_words (fst f) (snd f)) fs) Parse_fields
    (MkDbg (m_cmd0 m) (m_cmd1 m) (m_pktName m) (m_pFields m ++ map field_of fs) :: ms).
Proof.
  intros Hf. revert m. induction Hf as [|[k n] fs Hk _ IH]; intros m; cbn [map].
  - rewrite app_nil_r. destruct m. constructor.
  - econstructor; [by apply gl_field|]. cbn [fst snd]. pose proof (IH (push_field m (MkField (kind_type k) (Some n)))) as Hg. cbn in Hg.
    rewrite <- app_assoc in Hg. exact Hg.
Qed.

Lemma good_desc x ms : desc_ok x -> good_lines Parse_no_msg ms (desc_lines x) Parse_no_msg (desc_dbg x :: ms).
Proof.
  intros (H0 & H1 & Hs & Hf). unfold desc_lines, desc_dbg. destruct (ds_simple x).
  - rewrite Hs by done. econstructor; [by apply (gl_msg false)|constructor].
  - econstructor; [by apply (gl_msg true)|]. eapply good_lines_app; [by apply good_fields|]. econstructor; [apply gl_end|constructor].
Qed.

Lemma good_descs ds : forall ms, Forall desc_ok ds ->
  good_lines Parse_no_msg ms (concat (map desc_lines ds)) Parse_no_msg (rev (map desc_dbg ds) ++ ms).
Proof.
  induction ds as [|x ds IH]; intros ms Hd; [constructor|]. apply Forall_cons_iff in Hd as [Hx Hd]. cbn [map concat rev].
  eapply good_lines_app; [by apply good_desc|]. rewrite <- app_assoc. by apply IH.
Qed.

(** Lines without words do not count. *)
Lemma good_unfilter l : forall f ms f' ms',
  good_lines f ms (filter (fun ws => ws <> []) l) f' ms' -> good_lines f ms l f' ms'.
Proof.
  induction l as [|ws l IH]; intros f ms f' ms'; [done|]. destruct ws as [|w ws].
  - rewrite filter_cons_False by auto. intros Hg. apply gls_skip. by apply IH.
  - rewrite filter_cons_True by done. inversion 1; subst. eapply gls_line; [done|by apply IH].
Qed.

(** C36: A file of descriptions is loaded as it was written: for every list of
    messages and every file whose lines with words are those of the messages, with
    any blanks between and around the words, blank lines, comments and line ends,
    the loader returns the descriptions with their names, commands and fields, the
    last one first.  No line of the file, comments included, is longer than 97
    bytes, so that it fits the buffer with its end (see [long_comment_refused]); an
    empty line that ends with a line feed does not follow a line that ends with a
    carriage return alone; commands are bytes, arrays have at most 9999 bytes; and
    memory does not run out. *)
Theorem dbg_load_roundtrip fopen std f filename ls ds fuel :
  fopen filename = Some f -> is_dev_std filename = None -> is_bytes (f_rest f) ->
  f_rest f = concat (map line_bytes (print_dlines ls)) -> Forall (fun x => dline_ok (fst x)) ls -> text_ok 99 (print_dlines ls) ->
  Forall desc_ok ds -> filter (fun ws => ws <> []) (map (fun x => dline_words (fst x)) ls) = concat (map desc_lines ds) ->
  (length ls < fuel)%nat ->
  MT_MSG_dbg_load fopen std true [] fuel filename = Ret (rev (map desc_dbg ds)).
Proof.
  intros Ho Hstd Hby Htext Hok Ht Hd Hw Hf. unfold MT_MSG_dbg_load, STREAM_createRdFile. rewrite Hstd, Ho. cbn [STREAM_createFpFile STREAM_createPrivate].
  set (p := MkIo Live (Some f) 0 false).
  assert (stream_ok p) as Hp by (split; [done|]; split; [by exists f|cbn; lia]).
  pose proof (good_unfilter (map (fun x => dline_words (fst x)) ls) Parse_no_msg [] Parse_no_msg (rev (map desc_dbg ds))) as Hg. rewrite Hw in Hg.
  pose proof (good_descs ds [] Hd) as Hgd. rewrite app_nil_r in Hgd.
  destruct (load_loop_run ls fuel (dli_init []) p Parse_no_msg (rev (map desc_dbg ds)) Hp) as (d' & p' & -> & (Hlive & _) & He & Hm); try done.
  { by apply Hg. }
  cbn [mbind outcome_bind]. assert (STREAM_hToStruct p' = Ret (true, p')) as Eh by (unfold STREAM_hToStruct; by rewrite Hlive).
  unfold STREAM_close. run_step Eh. cbn. by rewrite He, Hm.
Qed.

(** ** Fields of a message *)

(** The bytes of a value; arrays of bytes are not decoded. *)
Definition kind_size (k : field_kind) : option nat :=
  match k with KU8 => Some 1%nat | KU16 => Some 2%nat | KU32 => Some 4%nat | _ => None end.

(** A field and its value. *)
Record valued : Type := MkValued { vl_kind : field_kind; vl_name : list Z; vl_value : Z }.

Definition vl_size (x : valued) : nat := default 0%nat (kind_size (vl_kind x)).
Definition vl_ok (x : valued) : Prop := is_Some (kind_size (vl_kind x)) /\ 0 <= vl_value x < 2 ^ (8 * Z.of_nat (vl_size x)).
Definition vl_bytes (x : valued) : list Z := le_bytes (vl_size x) (vl_value x).
Definition vl_field (x : valued) : mt_msg_dbg_field := field_of (vl_kind x, vl_name x).
Definition vl_result (x : valued) : mt_msg_dbg_field * option Z := (vl_field x, Some (vl_value x)).

Lemma byte_past pre s k b rest : s !! k = Some b -> byte (pre ++ s ++ rest) (zlen pre + Z.of_nat k) = Ret b.
Proof.
  intros Hk. rewrite <- (take_drop_middle s k b Hk), <- app_assoc, app_assoc. cbn [app].
  replace (zlen pre + Z.of_nat k) with (zlen (pre ++ take k s)); [apply byte_at|].
  apply lookup_lt_Some in Hk. unfold zlen. rewrite length_app, length_take. lia.
Qed.

(** The bytes added up with shifts give the value. *)
Ltac byte_sum :=
  intros; rewrite ?Z.shiftl_mul_pow2, ?Z.shiftr_div_pow2 by lia; unfold u32, u8;
  change (2 ^ 8) with 256; change (2 ^ 16) with 65536 in *; change (2 ^ 24) with 16777216; change (2 ^ 32) with 4294967296 in *;
  Z.to_euclidean_division_equations; lia.

Lemma le_sum2 v : 0 <= v < 2 ^ 16 -> u32 (u8 v + Z.shiftl (u8 (Z.shiftr v 8)) 8) = v.
Proof. byte_sum. Qed.

Lemma le_sum4 v : 0 <= v < 2 ^ 32 ->
  u32 (u8 v + Z.shiftl (u8 (Z.shiftr v 8)) 8 + Z.shiftl (u8 (Z.shiftr (Z.shiftr v 8) 8)) 16 +
    Z.shiftl (u8 (Z.shiftr (Z.shiftr (Z.shiftr v 8) 8) 8)) 24) = v.
Proof. byte_sum. Qed.

Lemma print_field_run x pre rest e : vl_ok x ->
  print_field (pre ++ vl_bytes x ++ rest) e (vl_field x) (zlen pre) = Ret (Some (vl_value x), zlen (pre ++ vl_bytes x)).
Proof.
  intros [[n Hn] Hv]. destruct x as [k name v]. unfold vl_bytes, vl_field, field_of, vl_size in *. cbn [vl_kind vl_name vl_value fst snd] in *.
  rewrite zlen_app. unfold zlen at 3. rewrite length_le_bytes.
  pose proof (fun j b => byte_past pre (le_bytes (default 0%nat (kind_size k)) v) j b rest) as Hb.
  pose proof (Hb 0%nat) as Hb0. rewrite Z.add_0_r in Hb0.
  destruct k; try discriminate Hn; unfold print_field; cbn [kind_type m_fieldtype]; cbn -[Z.shiftl Z.shiftr byte zlen app u8 u32] in *.
  all: rewrite (Hb0 _ eq_refl); cbn [mbind outcome_bind].
  - unfold u8. by rewrite Z.mod_small by lia.
  - rewrite (Hb 1%nat _ eq_refl : byte _ (zlen pre + 1) = _). cbn [mbind outcome_bind]. by rewrite le_sum2.
  - rewrite (Hb 1%nat _ eq_refl : byte _ (zlen pre + 1) = _). cbn [mbind outcome_bind].
    rewrite (Hb 2%nat _ eq_refl : byte _ (zlen pre + 2) = _). cbn [mbind outcome_bind].
    rewrite (Hb 3%nat _ eq_refl : byte _ (zlen pre + 3) = _). cbn [mbind outcome_bind]. by rewrite le_sum4.
Qed.

Lemma print_fields_run xs : forall pre rest e, Forall vl_ok xs ->
  print_fields (pre ++ concat (map vl_bytes xs) ++ rest) e (map vl_field xs) (zlen pre) = Ret (map vl_result xs).
Proof.
  induction xs as [|x xs IH]; intros pre rest e Hx; [done|]. apply Forall_cons_iff in Hx as [Hx Hxs]. cbn [map concat print_fields].
  rewrite <- app_assoc, print_field_run by done. cbn [mbind outcome_bind]. rewrite app_assoc, IH by done. done.
Qed.

(** The header in front of the fields. *)
Definition header_size (i : mt_iface) : nat := ((if frame_sync i then 1 else 0) + (if len_2bytes i then 2 else 1) + 2)%nat.

(** A message is decoded to what it carries: with the first description that fits
    its commands, and the values of its fields in the buffer behind the header, least
    significant byte first, the decoder finds the description and the values, and
    reads no byte outside the buffer. *)
Theorem dbg_decode_values m i l1 p l2 hdr xs rest :
  Forall (fun q => dbg_matches m q = false) l1 -> dbg_matches m p = true -> m_pFields p = map vl_field xs -> Forall vl_ok xs ->
  iobuf m = hdr ++ concat (map vl_bytes xs) ++ rest -> length hdr = header_size i ->
  MT_MSG_dbg_decode true m i (l1 ++ p :: l2) = Ret (Some (p, map vl_result xs)).
Proof.
  intros H1 Hp Hf Hx Hb Hh. unfold MT_MSG_dbg_decode. rewrite bool_decide_eq_false_2 by (by destruct l1). cbn [orb negb].
  assert (List.find (dbg_matches m) (l1 ++ p :: l2) = Some p) as ->.
  { induction H1 as [|q l1 Hq _ IH]; cbn; [by rewrite Hp|by rewrite Hq]. }
  rewrite Hf, Hb. replace (_ + 2) with (zlen hdr) by (unfold zlen; rewrite Hh; unfold header_size; destruct (frame_sync i), (len_2bytes i); done).
  by rewrite print_fields_run.
Qed.

(** ** Any text *)

(** A step that returns with [P], or uses a null pointer because one of the requests
    for memory was refused. *)
Definition safe (A : list bool) {X} (P : X -> Prop) (o : outcome X) : Prop :=
  match o with Ret x => P x | Undef NullPointer => false ∈ A | _ => False end.

Lemma load_safe_bind A {X Y} (P : X -> Prop) (Q : Y -> Prop) (f : X -> outcome Y) o :
  safe A P o -> (forall x, P x -> safe A Q (f x)) -> safe A Q (o ≫= f).
Proof. destruct o as [x|[]|]; cbn; auto. Qed.

(** The line buffer ends with a zero. *)
Definition buf_ok (b : list Z) : Prop := length b = 100%nat /\ b !! 99%nat = Some 0.

Record dli_ok (A : list bool) (d : dbg_load_info) : Prop := MkDliOk {
  do_buf : buf_ok (m_buf d);
  do_argv : length (m_argv d) = 100%nat;
  do_offs : forall i o, m_argv d !! i = Some (Some o) -> 0 <= o < 100;
  do_answers : false ∈ answers d -> false ∈ A
}.

Lemma buf_cstr b o : buf_ok b -> 0 <= o < 100 ->
  exists s, cstr b o = Ret s /\ o + zlen s <= 99 /\ no_zero s /\ drop (Z.to_nat o) b = s ++ 0 :: drop (Z.to_nat o + length s + 1) b.
Proof.
  intros [Hl Hz] Ho. unfold cstr. rewrite (proj2 (Z.leb_le 0 o)) by lia.
  assert (forall l, list.last l = Some 0 -> exists s r, until_zero l = Some s /\ no_zero s /\ l = s ++ 0 :: r) as Hu.
  { induction l as [|x l IH]; [done|]. intros Hx. cbn [until_zero]. destruct (Z.eqb_spec x 0) as [->|Hne].
    - exists [], l. split; [done|]. split; [constructor|done].
    - destruct l as [|y l]; [by injection Hx as ->|]. destruct (IH Hx) as (s & r & -> & Hs & ->). exists (x :: s), r.
      split; [done|]. split; [by constructor|done]. }
  destruct (Hu (drop (Z.to_nat o) b)) as (s & r & -> & Hs & E).
  { rewrite last_lookup, lookup_drop, length_drop, Hl. by replace (Z.to_nat o + pred (100 - Z.to_nat o))%nat with 99%nat by lia. }
  exists s. split; [done|]. pose proof (f_equal length E) as El. rewrite length_drop, length_app in El. cbn [length] in El.
  split; [unfold zlen; lia|]. split; [done|]. rewrite E at 1. do 2 f_equal.
  rewrite <- drop_drop, <- drop_drop, E, drop_app_length. done.
Qed.

Lemma buf_write b o : buf_ok b -> 0 <= o < 100 -> exists b', mem_write b o [0] = Ret b' /\ buf_ok b'.
Proof.
  intros [Hl Hz] Ho. rewrite mem_write_ok by (unfold zlen; cbn; lia). eexists. split; [done|].
  split; [rewrite length_splice; cbn; lia|]. destruct (decide (o = 99)) as [->|Hne].
  - apply (lookup_splice_in 99 [0] b 0); cbn; lia.
  - rewrite lookup_splice_out by (cbn; lia). done.
Qed.

Lemma buf_split b : buf_ok b -> exists s post, b = s ++ 0 :: post /\ no_zero s.
Proof. intros Hb. destruct (buf_cstr b 0 Hb ltac:(lia)) as (s & _ & _ & Hs & E). by eexists s, _. Qed.

Lemma buf_cut c b : buf_ok b -> exists b', cut_at c b = Ret b' /\ buf_ok b'.
Proof.
  intros Hb. unfold cut_at. destruct (buf_cstr b 0 Hb ltac:(lia)) as (s & -> & Hs & _). cbn [mbind outcome_bind].
  destruct (strchr c s) as [k|] eqn:E; [|by exists b]. apply buf_write; [done|].
  assert (k < length s)%nat; [|unfold zlen in Hs; lia]. clear -E. revert k E. induction s as [|x s IH]; intros k E; [done|]. cbn in *.
  destruct (x =? c); [injection E as <-; lia|]. destruct (strchr c s) as [j|]; [|done]. injection E as <-. specialize (IH j eq_refl). lia.
Qed.

(** Trimming returns, and leaves the last byte alone. *)
Lemma trim_leading_keeps fuel : forall b b', trim_leading fuel b = Ret b' -> buf_ok b -> buf_ok b'.
Proof.
  induction fuel as [|fuel IH]; intros b b' E Hb; [done|]. cbn [trim_leading] in E.
  destruct (byte b 0) as [c| |]; [|done..]. cbn [mbind outcome_bind] in E. destruct (c =? 0); [by injection E as <-|].
  destruct (is_space c); [|by injection E as <-]. unfold strlen in E.
  destruct (buf_cstr b 1 Hb ltac:(lia)) as (s & Es & Hs & _). rewrite Es in E. cbn [mbind outcome_bind] in E. pose proof (zlen_nonneg s).
  destruct Hb as [Hl Hz]. rewrite mem_read_ok in E by (unfold zlen in *; lia). cbn [mbind outcome_bind] in E.
  assert (length (slice (Z.to_nat 1) (Z.to_nat (zlen s + 1)) b) = Z.to_nat (zlen s + 1)) as Hd by (apply length_slice; lia).
  rewrite mem_write_ok in E by (unfold zlen in *; lia). cbn [mbind outcome_bind] in E. apply (IH _ _ E). split.
  - rewrite length_splice; lia.
  - rewrite lookup_splice_out by lia. done.
Qed.

Lemma trim_trailing_keeps fuel : forall b b', trim_trailing fuel b = Ret b' -> buf_ok b -> buf_ok b'.
Proof.
  induction fuel as [|fuel IH]; intros b b' E Hb; [done|]. cbn [trim_trailing] in E.
  destruct (byte b 0) as [c| |]; [|done..]. cbn [mbind outcome_bind] in E. destruct (c =? 0); [by injection E as <-|].
  unfold strlen in E. destruct (buf_cstr b 0 Hb ltac:(lia)) as (s & Es & Hs & _). rewrite Es in E. cbn [mbind outcome_bind] in E.
  destruct (byte b (zlen s - 1)) as [e| |] eqn:Eb; [|done..]. cbn [mbind outcome_bind] in E.
  destruct (is_space e); [|by injection E as <-].
  assert (0 <= zlen s - 1).
  { unfold byte in Eb. destruct (mem_read b (zlen s - 1) 1) eqn:Er; [|done..]. by apply mem_read_inv in Er as (? & _). }
  destruct (buf_write b (zlen s - 1) Hb ltac:(lia)) as (b1 & W & Hb1). rewrite W in E. by apply (IH _ _ E).
Qed.

Lemma buf_trim b : buf_ok b -> exists b', my_strtrim b = Ret b' /\ buf_ok b'.
Proof.
  intros Hb. destruct (buf_split b Hb) as (s & post & E & Hs). destruct (my_strtrim_run s post Hs) as (junk & Er & _). rewrite <- E in Er.
  rewrite Er. eexists. split; [done|]. unfold my_strtrim in Er. destruct (trim_leading _ b) as [b1| |] eqn:E1; [|done..].
  apply trim_leading_keeps in E1; [|done]. by apply (trim_trailing_keeps _ _ _ Er).
Qed.

Lemma count_while_le f s : (count_while f s <= length s)%nat.
Proof. induction s as [|c s IH]; cbn; [lia|]. destruct (f c); cbn; lia. Qed.

Lemma buf_strtok b cp : buf_ok b -> 0 <= cp < 100 -> exists p cp' b', strtok b cp = Ret (p, cp', b') /\ buf_ok b' /\
  match p with Some o => cp <= o /\ o < cp' < 100 | None => True end.
Proof.
  intros Hb Hc. unfold strtok. destruct (buf_cstr b cp Hb Hc) as (s & -> & Hs & _). cbn [mbind outcome_bind].
  pose proof (count_while_le is_delim s) as Hk. set (k := count_while is_delim s) in *.
  destruct (drop k s) as [|x t] eqn:E; [by eexists None, _, b|].
  assert (is_delim x = false) as Hx.
  { clear -E. subst k. revert E. induction s as [|c s IH]; [done|]. cbn [count_while]. destruct (is_delim c) eqn:Ec; [exact IH|]. by injection 1 as -> _. }
  pose proof (f_equal length E) as El. rewrite length_drop in El.
  cbn [count_while]. rewrite Hx. cbn [negb length Nat.eqb]. pose proof (count_while_le (fun c => negb (is_delim c)) t) as Hn.
  set (n := count_while _ t) in *. cbn [length] in El. unfold zlen in Hs. destruct (Nat.eqb_spec n (length t)).
  - eexists (Some _), _, b. split; [done|]. split; [done|]. lia.
  - destruct (buf_write b (cp + Z.of_nat k + Z.of_nat (S n)) Hb ltac:(lia)) as (b' & -> & Hb'). cbn [mbind outcome_bind].
    eexists (Some _), _, b'. split; [done|]. split; [done|]. lia.
Qed.

(** The state of the parser and the messages are left alone. *)
Definition same_msgs (d d' : dbg_load_info) : Prop := pCurParseFunc d' = pCurParseFunc d /\ m_pAllMsgs d' = m_pAllMsgs d.

(** The first entry holds a word when there is one. *)
Definition has_word (d : dbg_load_info) : Prop := exists o, m_argv d !! 0%nat = Some (Some o).

Lemma dli_ok_args A d c i v : dli_ok A d -> length v = 100%nat -> (forall j o, v !! j = Some (Some o) -> 0 <= o < 100) -> dli_ok A (dli_args d c i v).
Proof. intros [] ? ?. by constructor. Qed.
Lemma dli_ok_buf A d b : dli_ok A d -> buf_ok b -> dli_ok A (dli_buf d b).
Proof. intros [] ?. by constructor. Qed.
Lemma dli_ok_idx A d i : dli_ok A d -> dli_ok A (dli_idx d i).
Proof. intros []. by constructor. Qed.
Lemma dli_ok_error A d : dli_ok A d -> dli_ok A (do_error d).
Proof. intros []. by constructor. Qed.
Lemma dli_ok_msgs A d l : dli_ok A d -> dli_ok A (dli_msgs d l).
Proof. intros []. by constructor. Qed.
Lemma dli_ok_if A d d' (b : bool) : dli_ok A d -> dli_ok A d' -> dli_ok A (if b then d else d').
Proof. by destruct b. Qed.
Lemma dli_ok_func A d f : dli_ok A d -> dli_ok A (dli_func d f).
Proof. intros []. by constructor. Qed.
Create HintDb dli.
#[local] Hint Resolve dli_ok_buf dli_ok_idx dli_ok_error dli_ok_msgs dli_ok_if dli_ok_func : dli.

Lemma store_offs (v : list (option Z)) (c : nat) (p : option Z) : (forall (j : nat) o, v !! j = Some (Some o) -> 0 <= o < 100) -> (forall o, p = Some o -> 0 <= o < 100) ->
  forall (j : nat) o, <[c := p]> v !! j = Some (Some o) -> 0 <= o < 100.
Proof. intros Hv Hp j o [(-> & -> & _)|[_ Hj]]%list_lookup_insert_Some; [by apply Hp|by apply (Hv j)]. Qed.

Lemma tokenize_safe A fuel : forall cp d c, dli_ok A d -> m_arg_count d = Z.of_nat c -> Z.of_nat c <= cp < 100 -> (Z.to_nat (99 - cp) < fuel)%nat ->
  (c <> 0%nat -> has_word d) ->
  exists d', tokenize fuel cp d = Ret d' /\ dli_ok A d' /\ same_msgs d d' /\ m_arg_idx d' = m_arg_idx d /\ (m_arg_count d' <> 0 -> has_word d').
Proof.
  induction fuel as [|fuel IH]; intros cp d c Hd Hc Hcp Hf Hw; [lia|]. pose proof Hd as [Hb Hv Ho _]. cbn [tokenize].
  destruct (buf_strtok (m_buf d) cp Hb ltac:(lia)) as (p & cp' & b' & -> & Hb' & Hp). cbn [mbind outcome_bind].
  rewrite Hc, store_ok by lia. cbn [mbind outcome_bind]. destruct p as [o|].
  - match goal with |- context [tokenize fuel _ ?x] => apply (IH cp' x (S c)) end; [| cbn; rewrite Hc; lia|lia|lia|].
    + apply dli_ok_args; [by auto with dli|by rewrite length_insert|]. apply store_offs; [done|]. intros ? [= <-]. lia.
    + intros _. unfold has_word. cbn. destruct c as [|c]; [exists o; apply list_lookup_insert_eq; lia|].
      destruct (Hw ltac:(done)) as (o' & E). exists o'. by rewrite list_lookup_insert_ne.
  - eexists. split; [done|]. split; [|split; [done|split; [done|]]].
    + apply dli_ok_args; [by auto with dli|by rewrite length_insert|]. by apply store_offs.
    + unfold has_word. cbn. rewrite Hc. intros Hne. destruct (Hw ltac:(lia)) as (o & E). exists o. rewrite list_lookup_insert_ne by lia. done.
Qed.

Lemma comment_safe b : buf_ok b -> exists r, dbg_comment b = Ret r.
Proof.
  intros [Hl _]. unfold dbg_comment. assert (forall k, (k < 100)%nat -> exists c, byte b (Z.of_nat k) = Ret c) as Hby.
  { intros k Hk. destruct (lookup_lt_is_Some_2 b k ltac:(lia)) as [c Hc]. exists c.
    pose proof (byte_past [] b k c [] Hc) as E. rewrite app_nil_r in E. exact E. }
  destruct (Hby 0%nat ltac:(lia)) as [c Ec]. rewrite (Ec : byte b 0 = _). cbn [mbind outcome_bind]. destruct (_ || _); [by eexists|].
  destruct (c =? 47); [|by eexists]. destruct (Hby 1%nat ltac:(lia)) as [c1 Ec1]. rewrite (Ec1 : byte b 1 = _). by eexists.
Qed.

Lemma fgets_buf l tl : (length l <= 99)%nat -> length tl = 99%nat -> list.last (0 :: tl) = Some 0 -> buf_ok (l ++ 0 :: drop (length l) tl).
Proof.
  intros Hl Ht Hz. split; [rewrite length_app; cbn; rewrite length_drop; lia|].
  rewrite last_lookup in Hz. cbn [length pred] in Hz. rewrite Ht in Hz. rewrite lookup_app_r by lia.
  destruct (decide (length l = 99%nat)) as [E|E]; [by rewrite E|].
  replace (99 - length l)%nat with (S (98 - length l)) by lia. cbn [lookup list_lookup].
  change (drop (length l) tl !! (98 - length l)%nat = Some 0). rewrite lookup_drop. by replace (length l + (98 - length l))%nat with 98%nat by lia.
Qed.

Lemma next_line_length k bs : (length (fst (IoStream.next_line k bs)) <= k)%nat.
Proof.
  unfold IoStream.next_line, join_lf. pose proof (line_of_length k bs). destruct (line_of k bs) as [l [|b r]]; [done|]. cbn [fst] in *.
  destruct (_ && _); [|done]. destruct (Nat.leb_spec k (length l)); [done|]. cbn. rewrite length_app. cbn. lia.
Qed.

Section AnyText.
Context {D : Type} `{Source D} (A : list bool).

(** A line of any text: the loop ends, or there is less left to read. *)
Lemma next_line_safe d (p : io_stream D) : stream_ok p -> dli_ok A d ->
  exists more d' p', next_line d p = Ret (more, d', p') /\ stream_ok p' /\ dli_ok A d' /\ same_msgs d d' /\ m_arg_idx d' = 0 /\
    (m_arg_count d' <> 0 -> has_word d') /\ (more = true -> (length (stream_pending p') < length (stream_pending p))%nat).
Proof.
  intros Hp Hd. pose proof Hd as [[Hb Hz] Hv Ho _]. unfold next_line.
  rewrite (store_ok (m_argv d) 0 None ltac:(lia) : store_arg (m_argv d) 0 None = _). cbn [mbind outcome_bind].
  assert (dli_ok A (dli_args d 0 0 (<[0%nat := None]> (m_argv d)))) as Hd0
    by (apply dli_ok_args; [done|by rewrite length_insert|by apply store_offs]).
  destruct (m_buf d) as [|x tl] eqn:Eb; [done|]. cbn [dli_args m_buf]. rewrite Eb.
  pose proof (fgets_run 99 x tl p Hp ltac:(cbn in Hb; lia)) as Hf. pose proof (next_line_length 99 (stream_pending p)) as Hlen.
  pose proof (Ini.next_line_consumes 99 (stream_pending p) ltac:(lia)) as Hcons.
  destruct (IoStream.next_line 99 (stream_pending p)) as [l rest] eqn:El. destruct Hf as (tl' & p' & E & Hp' & Hr & Hl' & _ & Hz').
  change (Z.of_nat 99 + 1) with BUF_SIZE in E. rewrite E. cbn [mbind outcome_bind fst snd] in *.
  pose proof (fgets_buf l tl' Hlen Hl' Hz') as Hb1. case_bool_decide as Hne; cbn [negb].
  { eexists false, _, p'. split; [done|]. split; [done|]. split; [by apply (dli_ok_buf A _ _ Hd0)|done]. }
  assert (length (stream_pending p') < length (stream_pending p))%nat as Hshort.
  { rewrite Hr. apply Hcons. intros En. rewrite En in El. cbv in El. injection El as <- <-. done. }
  cbn [dli_line dli_buf m_buf]. unfold my_chomp. destruct (buf_cut LF _ Hb1) as (b2 & -> & Hb2). cbn [mbind outcome_bind].
  destruct (buf_cut CR _ Hb2) as (b3 & -> & Hb3). cbn [mbind outcome_bind]. destruct (buf_trim _ Hb3) as (b4 & -> & Hb4). cbn [mbind outcome_bind].
  destruct (comment_safe b4 Hb4) as ([] & ->); cbn [mbind outcome_bind].
  - destruct (buf_write b4 0 Hb4 ltac:(lia)) as (b5 & -> & Hb5). cbn [mbind outcome_bind]. eexists true, _, p'. split; [done|]. split; [done|].
    split; [|done]. destruct Hd0. by constructor.
  - match goal with |- context [tokenize _ _ ?x] => set (d1 := x) end.
    assert (dli_ok A d1) as Hd1 by (destruct Hd0; by constructor).
    destruct (tokenize_safe A (S (length b4)) 0 d1 0 Hd1 eq_refl) as (d2 & -> & Hd2 & Hm & Hi & Hw); [lia|destruct Hb4; lia|done|].
    cbn [mbind outcome_bind]. by eexists true, d2, p'.
Qed.

(** What reading a word keeps. *)
Definition kept (d d' : dbg_load_info) : Prop :=
  dli_ok A d' /\ m_arg_idx d <= m_arg_idx d' <= m_arg_idx d + 1 /\ m_argv d' = m_argv d /\ same_msgs d d'.

Lemma arg_at_safe d i : dli_ok A d -> 0 <= i < 100 -> safe A (fun p => forall o, p = Some o -> 0 <= o < 100) (arg_at d i).
Proof.
  intros [_ Hv Ho _] Hi. unfold arg_at. rewrite (proj2 (Z.leb_le 0 i)) by lia.
  destruct (lookup_lt_is_Some_2 (m_argv d) (Z.to_nat i) ltac:(lia)) as [p Ep]. rewrite Ep. cbn. intros o ->. by apply (Ho _ _ Ep).
Qed.

Lemma cstr_safe d o : dli_ok A d -> 0 <= o < 100 -> safe A (fun _ => True) (cstr (m_buf d) o).
Proof. intros [Hb _ _ _] Ho. by destruct (buf_cstr _ o Hb Ho) as (s & -> & _). Qed.

Lemma get_mem_safe d : dli_ok A d -> let '(ok, d') := get_mem d in
  dli_ok A d' /\ (ok = false -> false ∈ A) /\ m_arg_idx d' = m_arg_idx d /\ m_argv d' = m_argv d /\ same_msgs d d'.
Proof.
  intros Hd. unfold get_mem. destruct (answers d) as [|b l] eqn:E; [done|]. destruct Hd. rewrite E in *.
  split; [constructor; try done; intros; apply do_answers0; by right|]. split; [intros ->; apply do_answers0; by left|done].
Qed.

Lemma arg_str_safe d : dli_ok A d -> 0 <= m_arg_idx d < 100 -> safe A (fun r => kept d (snd r)) (arg_str d).
Proof.
  intros Hd Hi. unfold arg_str. eapply load_safe_bind; [by apply arg_at_safe|]. intros [o|] Ho; cbn beta iota.
  - eapply load_safe_bind; [by apply (cstr_safe d o Hd), Ho|]. intros s _. pose proof (get_mem_safe d Hd) as Hg. destruct (get_mem d) as [ok d1].
    destruct Hg as (Hd1 & _ & Hx & Hv & Hm). unfold kept. destruct ok; cbn; rewrite Hx; (split; [by auto with dli|]); (split; [lia|done]).
  - unfold kept. cbn. split; [by auto with dli|]. split; [lia|done].
Qed.

Lemma arg_long_safe d : dli_ok A d -> 0 <= m_arg_idx d < 100 -> safe A (fun r => kept d (snd r)) (arg_long d).
Proof.
  intros Hd Hi. unfold arg_long. eapply load_safe_bind; [by apply arg_at_safe|]. intros [o|] Ho; cbn beta iota.
  - eapply load_safe_bind; [by apply (cstr_safe d o Hd), Ho|]. intros s _. destruct (strtol 0 s) as [r n].
    destruct (_ && _); unfold kept; cbn; (split; [by auto with dli|]); (split; [lia|done]).
  - unfold kept. cbn. split; [by auto with dli|]. split; [lia|done].
Qed.

Lemma arg_u8_safe d : dli_ok A d -> 0 <= m_arg_idx d < 100 -> safe A (fun r => kept d (snd r)) (arg_u8 d).
Proof.
  intros Hd Hi. unfold arg_u8. eapply load_safe_bind; [by apply arg_long_safe|]. intros [r d1] (H1 & H2 & H3). cbn [snd] in *.
  cbn. unfold kept. destruct (_ || _); [|done]. split; [by auto with dli|done].
Qed.

Lemma word0_safe d : dli_ok A d -> has_word d -> safe A (fun _ => True) (word0 d).
Proof.
  intros Hd (o & Ho). unfold word0, arg_at. change (0 <=? 0) with true. change (Z.to_nat 0) with 0%nat. rewrite Ho. cbn [mbind outcome_bind deref].
  apply cstr_safe; [done|]. by apply (do_offs _ _ Hd _ _ Ho).
Qed.

(** Reading a number or a name. *)
Ltac read_arg :=
  eapply load_safe_bind; [first [apply arg_str_safe | apply arg_long_safe | apply arg_u8_safe]; [by auto with dli|cbn in *; lia]|];
  let d := fresh "d" in let Hd := fresh "Hd" in intros [? d] (Hd & ? & ? & ? & ?); cbn [snd] in *; cbn beta iota.

(** The messages have a newest one while fields are read. *)
Definition fields_ok (d : dbg_load_info) : Prop := pCurParseFunc d = Parse_fields -> m_pAllMsgs d <> [].

Lemma parse_state_no_msg_safe d : dli_ok A d -> has_word d -> pCurParseFunc d = Parse_no_msg ->
  safe A (fun r => dli_ok A (snd r) /\ (fst r <> -1 -> fields_ok (snd r))) (parse_state_no_msg d).
Proof.
  intros Hd Hw Hf. unfold parse_state_no_msg. eapply load_safe_bind; [by apply word0_safe|]. intros w _. cbv zeta.
  set (d1 := if bool_decide (w = str "complex-msg") then dli_func d Parse_fields else d).
  assert (dli_ok A d1) as Hd1 by (by subst d1; auto with dli).
  destruct (negb _); [cbn; split; [by auto with dli|done]|].
  pose proof (get_mem_safe (dli_idx d1 1) ltac:(by auto with dli)) as Hg. destruct (get_mem (dli_idx d1 1)) as [ok d2].
  destruct Hg as (Hd2 & Hok & Hx & _). destruct ok; [|by apply Hok]. cbn in Hx. do 3 read_arg. cbn. split; [by auto with dli|].
  intros _ _. done.
Qed.

Lemma add_field_safe f l : l <> [] -> safe A (fun l' => l' <> []) (add_field f l).
Proof. by destruct l. Qed.

Lemma parse_fields_safe d : dli_ok A d -> has_word d -> m_arg_idx d = 0 -> m_pAllMsgs d <> [] ->
  safe A (fun r => dli_ok A (snd r) /\ (fst r <> -1 -> fields_ok (snd r))) (parse_fields d).
Proof.
  intros Hd Hw Hi Hm. unfold parse_fields. eapply load_safe_bind; [by apply word0_safe|]. intros w _. cbv zeta.
  case_bool_decide; [cbn; split; [by auto with dli|by intros _]|].
  pose proof (get_mem_safe d Hd) as Hg. destruct (get_mem d) as [ok d1]. destruct Hg as (Hd1 & _ & Hx & Hv & _ & Hm1).
  destruct ok; [|cbn; split; [by auto with dli|done]]. cbn [negb]. rewrite Hx, Hi.
  read_arg. cbn in *. rewrite <- Hm1 in Hm.
  assert (m_pAllMsgs d0 <> []) as Hm0 by congruence.
  assert (forall t n d', dli_ok A d' -> m_pAllMsgs d' <> [] ->
    safe A (fun d => dli_ok A d /\ m_pAllMsgs d <> []) (l ← add_field (MkField t n) (m_pAllMsgs d'); Ret (dli_msgs d' l))) as Hfin.
  { intros t n d' Hd' Hn. eapply load_safe_bind; [by apply add_field_safe|]. intros l Hl. cbn. split; [by auto with dli|done]. }
  eapply load_safe_bind; [apply word0_safe; [done|]; destruct Hw as [o1 Ho1]; exists o1; congruence|]. intros w' _.
  repeat case_bool_decide; try read_arg;
    (eapply load_safe_bind; [apply Hfin; [by auto with dli|congruence]|]); intros d9 [Hd9 Hm9]; cbn; (split; [by auto with dli|]); first [by intros _ _ | done].
Qed.

Lemma load_loop_safe fuel : forall d (p : io_stream D), stream_ok p -> dli_ok A d -> fields_ok d -> (length (stream_pending p) < fuel)%nat ->
  safe A (fun r => stream_ok (snd r)) (load_loop fuel d p).
Proof.
  induction fuel as [|fuel IH]; intros d p Hp Hd Hf Hl; [lia|]. cbn [load_loop].
  destruct (next_line_safe d p Hp Hd) as (more & d1 & p1 & -> & Hp1 & Hd1 & [Hfn Hms] & Hi & Hw & Hs). cbn [mbind outcome_bind].
  assert (fields_ok d1) as Hf1 by (unfold fields_ok; by rewrite Hfn, Hms).
  destruct more; [|exact Hp1]. specialize (Hs eq_refl). cbn [negb]. destruct (Z.eqb_spec (m_arg_count d1) 0); [apply IH; try done; lia|].
  eapply load_safe_bind with (P := fun r => dli_ok A (snd r) /\ (fst r <> -1 -> fields_ok (snd r))).
  { unfold parse_func. destruct (pCurParseFunc d1) eqn:Ef; [apply parse_state_no_msg_safe|apply parse_fields_safe]; auto. }
  intros [r d2] [Hd2 Hf2]. cbn [fst snd] in *. destruct (Z.eqb_spec r (-1)); [exact Hp1|]. apply IH; auto. lia.
Qed.

End AnyText.

(** Loading ends on every text and never leaves the line buffer or the array of
    words, whatever bytes the file holds: it returns, with one round per byte of the
    file and one more, unless a request for memory was refused, which can lead to the
    use of a null pointer. *)
Theorem dbg_load_any_text fopen std mem answers filename f :
  fopen filename = Some f -> is_dev_std filename = None -> is_bytes (f_rest f) ->
  safe answers (fun _ => True) (MT_MSG_dbg_load fopen std mem answers (S (length (f_rest f))) filename).
Proof.
  intros Ho Hstd Hby. unfold MT_MSG_dbg_load, STREAM_createRdFile. rewrite Hstd, Ho. destruct mem; [|done].
  cbn [STREAM_createFpFile STREAM_createPrivate]. set (p := MkIo Live (Some f) 0 false).
  assert (stream_ok p) as Hp by (split; [done|]; split; [by exists f|cbn; lia]).
  assert (dli_ok answers (dli_init answers)) as Hd.
  { constructor; cbn; try done. intros i o [Hr _]%lookup_replicate_1. done. }
  eapply load_safe_bind; [apply (load_loop_safe answers _ _ p Hp Hd); [done|cbn; lia]|].
  intros [d1 p1] (Hlive & _). cbn [snd] in *. assert (STREAM_hToStruct p1 = Ret (true, p1)) as Eh by (unfold STREAM_hToStruct; by rewrite Hlive).
  unfold STREAM_close. run_step Eh. done.
Qed.


(** ** Instances *)

Definition demo_layout (l : list string) : layout := map (fun w => ([32], str w)) l.
Definition demo_lines : list (dline * eol) :=
  [(DSkip (str "// a message"), Unix); (DWords (demo_layout ["complex-msg"; "data"; "65"; "5"]%string) [9], Dos);
   (DWords (demo_layout ["u8"; "handle"]%string) [], Unix); (DSkip [], Unix); (DWords (demo_layout ["u16"; "pan"]%string) [32], Mac);
   (DWords (demo_layout ["max-bytes"; "rest"; "20"]%string) [], Unix); (DWords (demo_layout ["end"]%string) [], Unix);
   (DWords (demo_layout ["simple-msg"; "reset"; "65"; "0"]%string) [], Unix)].
Definition demo_text : list Z := concat (map line_bytes (print_dlines demo_lines)).
Definition demo_file (t : list Z) : FILE := MkFile t [] 0 false false true.

Definition demo_descs : list desc :=
  [MkDesc false (str "data") 65 5 [(KU8, str "handle"); (KU16, str "pan"); (KMaxBytes 20, str "rest")]; MkDesc true (str "reset") 65 0 []].

#[local] Instance word_char_dec (c : Z) : Decision (is_space c = false /\ c <> 0) := _.

Ltac by_line :=
  cbn [dline_ok fst snd text_ok print_dlines map print_dline]; unfold layout_ok, piece_ok, blanks, word, no_zero, skipped;
  repeat match goal with |- _ /\ _ => split end;
  try solve [Ini.by_forall | apply Nat.leb_le; vm_compute; reflexivity | done | vm_compute; tauto | intros; done].

Lemma dbg_load_roundtrip_witness :
  MT_MSG_dbg_load (fun _ => Some (demo_file demo_text)) (fun _ => demo_file []) true [] 9 (str "mt.txt") =
    Ret [MkDbg 65 0 (Some (str "reset")) [];
         MkDbg 65 5 (Some (str "data")) [MkField FIELDTYPE_U8 (Some (str "handle")); MkField FIELDTYPE_U16 (Some (str "pan"));
           MkField (FIELDTYPE_MAXBYTES 20) (Some (str "rest"))]].
Proof.
  apply (dbg_load_roundtrip (fun _ => Some (demo_file demo_text)) (fun _ => demo_file []) (demo_file demo_text) (str "mt.txt") demo_lines demo_descs 9).
  - reflexivity.
  - reflexivity.
  - unfold is_bytes. Ini.by_forall.
  - reflexivity.
  - repeat (apply Forall_cons_2; [by_line|]). apply Forall_nil_2.
  - unfold demo_lines. by_line.
  - unfold demo_descs, desc_ok. repeat (apply Forall_cons_2 || apply Forall_nil_2 || split); by_eval.
  - reflexivity.
  - cbn. lia.
Defined.

Definition demo_dbg : mt_msg_dbg := MkDbg 65 5 (Some (str "data")) [MkField FIELDTYPE_U8 (Some (str "handle")); MkField FIELDTYPE_U16 (Some (str "pan"))].
Definition demo_iface : mt_iface := MkIface true true false false 0 0 0.
Definition demo_decode (buf : list Z) : mt_msg := MkMsg 0 None None T_areq false 3 65 5 0 false 5 5 IOBUF_SIZE buf None None.

Lemma dbg_decode_values_witness :
  MT_MSG_dbg_decode true (demo_decode [254; 3; 65; 5; 7; 205; 171; 99]) demo_iface [MkDbg 65 0 None []; demo_dbg] =
    Ret (Some (demo_dbg, [(MkField FIELDTYPE_U8 (Some (str "handle")), Some 7); (MkField FIELDTYPE_U16 (Some (str "pan")), Some 0xABCD)])).
Proof.
  apply (dbg_decode_values (demo_decode [254; 3; 65; 5; 7; 205; 171; 99]) demo_iface [MkDbg 65 0 None []] demo_dbg [] [254; 3; 65; 5]
           [MkValued KU8 (str "handle") 7; MkValued KU16 (str "pan") 0xABCD] [99]).
  - repeat constructor.
  - reflexivity.
  - reflexivity.
  - repeat constructor; try (by eexists); cbn; lia.
  - reflexivity.
  - reflexivity.
Defined.

(** A zero, a stray carriage return, a word that is no keyword. *)
Lemma dbg_load_any_text_witness :
  safe [true; false] (fun _ => True)
    (MT_MSG_dbg_load (fun _ => Some (demo_file [0; 13; 255; 32; 47; 10])) (fun _ => demo_file []) true [true; false] 7 (str "mt.txt")).
Proof.
  apply (dbg_load_any_text (fun _ => Some (demo_file [0; 13; 255; 32; 47; 10])) (fun _ => demo_file []) true [true; false] (str "mt.txt")
           (demo_file [0; 13; 255; 32; 47; 10])).
  - reflexivity.
  - reflexivity.
  - unfold is_bytes. Ini.by_forall.
Defined.

Definition load_text (t : list Z) : outcome (list mt_msg_dbg) :=
  MT_MSG_dbg_load (fun _ => Some (demo_file t)) (fun _ => demo_file []) true [] 50 (str "mt.txt").

(** The decoder takes -1 as a command that fits all, the loader refuses it. *)
Example match_all_not_loaded :
  dbg_matches (demo_decode []) (MkDbg (-1) 5 None []) = true /\ load_text (str "simple-msg any -1 5" ++ [LF]) = Ret [].
Proof. split; vm_compute; reflexivity. Qed.

(** A comment that does not fit the line buffer is cut, and what is left of it is
    taken for a line of its own: the file is refused, although the same file with a
    shorter comment is loaded. *)
Example long_comment_refused :
  load_text (str "simple-msg reset 65 0" ++ [LF] ++ str "// " ++ replicate 96 45 ++ str " the end" ++ [LF]) = Ret [] /\
  load_text (str "simple-msg reset 65 0" ++ [LF] ++ str "// " ++ replicate 86 45 ++ str " the end" ++ [LF]) =
    Ret [MkDbg 65 0 (Some (str "reset")) []].
Proof. split; vm_compute; reflexivity. Qed.

(** A command is cut to 32 bits before its range is checked. *)
Example command_truncated : load_text (str "simple-msg big 4294967297 0" ++ [LF]) = Ret [MkDbg 1 0 (Some (str "big")) []].
Proof. vm_compute. reflexivity. Qed.

(** The field behind an array of bytes is read where the array begins. *)
Example array_not_skipped :
  MT_MSG_dbg_decode true (demo_decode [254; 3; 65; 5; 1; 2; 3]) demo_iface
    [MkDbg 65 5 None [MkField (FIELDTYPE_BYTES_N 2) None; MkField FIELDTYPE_U8 None]] =
  Ret (Some (MkDbg 65 5 None [MkField (FIELDTYPE_BYTES_N 2) None; MkField FIELDTYPE_U8 None],
    [(MkField (FIELDTYPE_BYTES_N 2) None, None); (MkField FIELDTYPE_U8 None, Some 1)])).
Proof. vm_compute. reflexivity. Qed.

(** The fields are read without regard to the length of the message: a description
    with more bytes than the buffer is read past its end. *)
Example decode_overrun :
  MT_MSG_dbg_decode true (demo_decode (replicate (Z.to_nat IOBUF_SIZE) 0)) demo_iface
    [MkDbg 65 5 None (replicate 1024 (MkField FIELDTYPE_U32 None))] = Undef OutOfBounds.
Proof. vm_compute. reflexivity. Qed.

End MtDbg.
