(* ===== verification/NcpTypes.v ===== *)
(** * States and types of the co-processor (src/wfantund/NCPTypes.cpp, NCPTypes.h)

    The states the daemon attributes to its network co-processor, what the rest of
    the daemon asks about a state, and the text of states, node types and flags.
    [ti] says whether TI_WISUN_FAN is defined, as the build does by default. *)

From Stdlib Require Import ZArith Lia String.
From stdpp Require Import base list option numbers.
From S2P Require Import Prelude CStr StrUtil.

Open Scope Z_scope.

Module NcpTypes.
Import CStr.

Inductive NCPState : Type :=
| UNINITIALIZED | FAULT | UPGRADING | DEEP_SLEEP | OFFLINE | COMMISSIONED | ASSOCIATING
| CREDENTIALS_NEEDED | ASSOCIATED | ISOLATED | NET_WAKE_WAKING | NET_WAKE_ASLEEP.

#[export] Instance NCPState_eq_dec : EqDecision NCPState.
Proof. solve_decision. Defined.

Inductive NodeType : Type := UNKNOWN | ROUTER | END_DEVICE | SLEEPY_END_DEVICE | COMMISSIONER | LURKER | LEADER.

#[export] Instance NodeType_eq_dec : EqDecision NodeType.
Proof. solve_decision. Defined.

Definition GA_AM_GATEWAY : Z := 0x01.
Definition GA_AM_DHCP_SERVER : Z := 0x02.
Definition GA_AM_SLAAC_SERVER : Z := 0x04.
Definition GA_DHCP : Z := 0x08.
Definition GA_SLAAC : Z := 0x10.
Definition GA_CONFIGURED : Z := 0x20.
Definition GA_REQUEST_SENT : Z := 0x40.
Definition GA_REQUEST_FAILED : Z := 0x80.

Definition MAC_FILTER_LIST_SIZE : nat := 10.

(** ** Questions about a state *)

Definition ncp_state_is_sleeping (ti : bool) (x : NCPState) : bool :=
  if ti then false else match x with DEEP_SLEEP | NET_WAKE_ASLEEP => true | _ => false end.

Definition ncp_state_has_joined (ti : bool) (x : NCPState) : bool :=
  if ti then true else match x with ASSOCIATED | ISOLATED | NET_WAKE_ASLEEP | NET_WAKE_WAKING => true | _ => false end.

Definition ncp_state_is_joining (ti : bool) (x : NCPState) : bool :=
  if ti then false else match x with ASSOCIATING | CREDENTIALS_NEEDED => true | _ => false end.

Definition ncp_state_is_interface_up (x : NCPState) : bool :=
  match x with CREDENTIALS_NEEDED | ASSOCIATED | NET_WAKE_ASLEEP => true | _ => false end.

Definition ncp_state_is_commissioned (x : NCPState) : bool :=
  match x with COMMISSIONED | ASSOCIATED | NET_WAKE_ASLEEP | ISOLATED | NET_WAKE_WAKING => true | _ => false end.

Definition ncp_state_is_initializing (x : NCPState) : bool :=
  match x with UNINITIALIZED | UPGRADING => true | _ => false end.

Definition ncp_state_is_joining_or_joined (x : NCPState) : bool :=
  match x with
  | CREDENTIALS_NEEDED | ASSOCIATING | ASSOCIATED | ISOLATED | NET_WAKE_WAKING | NET_WAKE_ASLEEP => true
  | _ => false
  end.

Definition ncp_state_is_associated (x : NCPState) : bool :=
  match x with ASSOCIATED | ISOLATED | NET_WAKE_WAKING | NET_WAKE_ASLEEP => true | _ => false end.

Definition ncp_state_is_detached_from_ncp (x : NCPState) : bool :=
  match x with FAULT | UPGRADING => true | _ => false end.

Definition ncp_state_is_busy (x : NCPState) : bool :=
  match x with DEEP_SLEEP | OFFLINE | NET_WAKE_ASLEEP | ISOLATED | ASSOCIATED | FAULT => false | _ => true end.

(** ** Text *)

Definition kWPANTUNDStateUninitialized : list Z := str "uninitialized".
Definition kWPANTUNDStateFault : list Z := str "uninitialized:fault".
Definition kWPANTUNDStateUpgrading : list Z := str "uninitialized:upgrading".
Definition kWPANTUNDStateDeepSleep : list Z := str "offline:deep-sleep".
Definition kWPANTUNDStateOffline : list Z := str "offline".
Definition kWPANTUNDStateCommissioned : list Z := str "offline:commissioned".
Definition kWPANTUNDStateAssociating : list Z := str "associating".
Definition kWPANTUNDStateCredentialsNeeded : list Z := str "associating:credentials-needed".
Definition kWPANTUNDStateAssociated : list Z := str "associated".
Definition kWPANTUNDStateIsolated : list Z := str "associated:no-parent".
Definition kWPANTUNDStateNetWake_Asleep : list Z := str "associated:netwake-asleep".
Definition kWPANTUNDStateNetWake_Waking : list Z := str "associated:netwake-waking".

Definition ncp_state_to_string (state : NCPState) : list Z :=
  match state with
  | UNINITIALIZED => kWPANTUNDStateUninitialized
  | FAULT => kWPANTUNDStateFault
  | UPGRADING => kWPANTUNDStateUpgrading
  | DEEP_SLEEP => kWPANTUNDStateDeepSleep
  | OFFLINE => kWPANTUNDStateOffline
  | COMMISSIONED => kWPANTUNDStateCommissioned
  | ASSOCIATING => kWPANTUNDStateAssociating
  | CREDENTIALS_NEEDED => kWPANTUNDStateCredentialsNeeded
  | ASSOCIATED => kWPANTUNDStateAssociated
  | ISOLATED => kWPANTUNDStateIsolated
  | NET_WAKE_ASLEEP => kWPANTUNDStateNetWake_Asleep
  | NET_WAKE_WAKING => kWPANTUNDStateNetWake_Waking
  end.

(** [strnequal] with the length of the second string: on the bytes up to a zero. *)
Definition cpart (s : list Z) : list Z := default s (until_zero s).
Definition strnequal (s t : list Z) : bool := bool_decide (take (length t) (cpart s) = t).

Definition string_to_ncp_state (s : list Z) : NCPState :=
  if bool_decide (s = kWPANTUNDStateFault) then FAULT
  else if bool_decide (s = kWPANTUNDStateUpgrading) then UPGRADING
  else if bool_decide (s = kWPANTUNDStateDeepSleep) then DEEP_SLEEP
  else if bool_decide (s = kWPANTUNDStateCommissioned) then COMMISSIONED
  else if bool_decide (s = kWPANTUNDStateCredentialsNeeded) then CREDENTIALS_NEEDED
  else if bool_decide (s = kWPANTUNDStateIsolated) then ISOLATED
  else if bool_decide (s = kWPANTUNDStateNetWake_Asleep) then NET_WAKE_ASLEEP
  else if bool_decide (s = kWPANTUNDStateNetWake_Waking) then NET_WAKE_WAKING
  else if strnequal s kWPANTUNDStateUninitialized then UNINITIALIZED
  else if strnequal s kWPANTUNDStateOffline then OFFLINE
  else if strnequal s kWPANTUNDStateAssociating then ASSOCIATING
  else if strnequal s kWPANTUNDStateAssociated then ASSOCIATED
  else UNINITIALIZED.

Definition kWPANTUNDNodeType_BorderRouter : list Z := str "0 : Border Router".
Definition kWPANTUNDNodeType_Router : list Z := str "1 : Router".
Definition kWPANTUNDNodeType_EndDevice : list Z := str "end-device".
Definition kWPANTUNDNodeType_SleepyEndDevice : list Z := str "sleepy-end-device".
Definition kWPANTUNDNodeType_NestLurker : list Z := str "nl-lurker".
Definition kWPANTUNDNodeType_Commissioner : list Z := str "commissioner".
Definition kWPANTUNDNodeType_Leader : list Z := str "leader".

(** The default branch, for a number that is no node type, cannot be taken here. *)
Definition node_type_to_string (node_type : NodeType) : list Z :=
  match node_type with
  | UNKNOWN => kWPANTUNDNodeType_BorderRouter
  | END_DEVICE => kWPANTUNDNodeType_EndDevice
  | SLEEPY_END_DEVICE => kWPANTUNDNodeType_SleepyEndDevice
  | ROUTER => kWPANTUNDNodeType_Router
  | LURKER => kWPANTUNDNodeType_NestLurker
  | LEADER => kWPANTUNDNodeType_Leader
  | COMMISSIONER => kWPANTUNDNodeType_Commissioner
  end.

Definition strcaseequal (s t : list Z) : bool := bool_decide (map StrUtil.tolower (cpart s) = map StrUtil.tolower t).

Definition string_to_node_type (s : list Z) : NodeType :=
  if strcaseequal s kWPANTUNDNodeType_EndDevice || strcaseequal s (str "end") || strcaseequal s (str "e") || bool_decide (s = str "3")
  then END_DEVICE
  else if strcaseequal s kWPANTUNDNodeType_SleepyEndDevice || strcaseequal s (str "sleepy") || strcaseequal s (str "sed") ||
    strcaseequal s (str "s") || bool_decide (s = str "4")
  then SLEEPY_END_DEVICE
  else if strcaseequal s kWPANTUNDNodeType_Router || strcaseequal s (str "r") || bool_decide (s = str "2") then ROUTER
  else if strcaseequal s kWPANTUNDNodeType_Leader then LEADER
  else if strcaseequal s kWPANTUNDNodeType_NestLurker || strcaseequal s (str "lurker") || bool_decide (s = str "6") then LURKER
  else UNKNOWN.

(** [std::to_string] of an int is the decimal numeral. *)
Definition ncp_protocol_version_to_string (major minor : Z) : list Z :=
  str "Wi-SUNFAN/" ++ print_int major ++ str "." ++ print_int minor.
Definition ch_spacing_to_string (ch_spacing : Z) : list Z := print_int ch_spacing ++ str " kHz".
Definition ch0_center_freq_to_string (ch0_mhz ch0_khz : Z) : list Z :=
  str "{" ++ print_int ch0_mhz ++ str " MHz, " ++ print_int ch0_khz ++ str " kHz}".

(** The array has [MAC_FILTER_LIST_SIZE] strings; a shorter one is read past its end. *)
Definition mac_filter_list_to_string (filter_list : list (list Z)) : outcome (list Z) :=
  if (MAC_FILTER_LIST_SIZE <=? length filter_list)%nat
  then Ret (10 :: concat (map (fun s => s ++ [10]) (take MAC_FILTER_LIST_SIZE filter_list)))
  else Undef OutOfBounds.

Definition ncp_region_to_string (region : Z) : list Z :=
  if region =? 1 then str "1 : North-America"
  else if region =? 2 then str "2 : Japan"
  else if region =? 3 then str "3 : Europe"
  else if region =? 7 then str "7 : Brazil"
  else print_int region ++ str " : UNKNOWN REGION".

(** The loops over the bits, from bit [i - 1] down. *)
Definition address_flag (mask i : Z) : Z :=
  if mask =? GA_AM_GATEWAY then 71
  else if mask =? GA_AM_DHCP_SERVER then 68
  else if mask =? GA_AM_SLAAC_SERVER then 83
  else if mask =? GA_DHCP then 100
  else if mask =? GA_SLAAC then 115
  else if mask =? GA_CONFIGURED then 67
  else if mask =? GA_REQUEST_SENT then 82
  else if mask =? GA_REQUEST_FAILED then 70
  else 48 + i.

Fixpoint flags_loop (letter : Z -> Z -> Z) (flags : Z) (n : nat) : list Z :=
  match n with
  | O => []
  | S n =>
      let i := Z.of_nat n in
      let mask := u8 (Z.shiftl 1 i) in
      (if i =? 3 then [32] else []) ++
      [if Z.land mask flags =? 0 then 45 else letter mask i] ++
      flags_loop letter flags n
  end.

Definition address_flags_to_string (flags : Z) : list Z := flags_loop address_flag flags 8.

(** [flag_lookup] has eight characters; a null pointer stands for the digits. *)
Definition flags_to_string (flags : Z) (flag_lookup : option (list Z)) : list Z :=
  let lookup := default (str "76543210") flag_lookup in
  flags_loop (fun _ i => nth (Z.to_nat (7 - i)) lookup 0) flags 8.

(** ** Properties *)

(** A letter in a text of flags. *)
Definition shown (c : Z) : bool := negb (c =? 45).

(** Reading a text of flags back: the letters are the bits set. *)
Fixpoint read_flags (s : list Z) (v : Z) : Z :=
  match s with
  | [] => v
  | c :: s => read_flags s (if c =? 32 then v else 2 * v + Z.b2z (shown c))
  end.

Lemma every_byte (P : Z -> bool) :
  forallb (fun i => P (Z.of_nat i)) (seq 0 256) = true -> forall b, is_byte b -> P b = true.
Proof.
  intros H b Hb. rewrite forallb_forall in H. specialize (H (Z.to_nat b)).
  rewrite Z2Nat.id in H by (unfold is_byte in Hb; lia). apply H, in_seq. unfold is_byte in Hb. lia.
Qed.

(** The bits are read back whatever letters stand for them. *)
Lemma flags_read letter flags n : forall v,
  (forall mask i, letter mask i <> 45 /\ letter mask i <> 32) -> 0 <= flags -> (n <= 8)%nat ->
  read_flags (flags_loop letter flags n) v = 2 ^ Z.of_nat n * v + flags mod 2 ^ Z.of_nat n.
Proof.
  intros v Hl Hf. revert v. induction n as [|n IH]; intros v Hn; [cbn; rewrite Z.mod_1_r; lia|].
  cbn [flags_loop]. assert (forall t, read_flags ((if Z.of_nat n =? 3 then [32] else []) ++ t) v = read_flags t v) as ->
    by (intros t; by destruct (Z.of_nat n =? 3)).
  assert (u8 (Z.shiftl 1 (Z.of_nat n)) = 2 ^ Z.of_nat n) as ->.
  { rewrite Z.shiftl_1_l. unfold u8. apply Z.mod_small. split; [lia|]. apply Z.pow_lt_mono_r; lia. }
  set (c := if _ =? 0 then _ else _). assert (c <> 32 /\ shown c = Z.testbit flags (Z.of_nat n)) as [Hc Hs].
  { assert ((Z.land (2 ^ Z.of_nat n) flags =? 0) = negb (Z.testbit flags (Z.of_nat n))) as E.
    { rewrite Z.land_comm. destruct (Z.testbit flags (Z.of_nat n)) eqn:Et; cbn.
      - apply Z.eqb_neq. intros E. apply (f_equal (fun z => Z.testbit z (Z.of_nat n))) in E.
        rewrite Z.land_spec, Et, Z.pow2_bits_true, Z.bits_0 in E by lia. done.
      - apply Z.eqb_eq, Z.bits_inj'. intros j Hj. rewrite Z.land_spec, Z.bits_0. destruct (decide (j = Z.of_nat n)) as [->|Hne]; [by rewrite Et|].
        rewrite Z.pow2_bits_false by done. apply andb_false_r. }
    subst c. rewrite E. destruct (Z.testbit flags (Z.of_nat n)); cbn; [|done]. destruct (Hl (2 ^ Z.of_nat n) (Z.of_nat n)). split; [done|].
    unfold shown. by rewrite (proj2 (Z.eqb_neq _ 45)). }
  cbn [app read_flags]. rewrite (proj2 (Z.eqb_neq c 32)), Hs, IH by (done || lia).
  rewrite Z.testbit_spec' by lia. rewrite Nat2Z.inj_succ, Z.pow_succ_r by lia. rewrite (Z.mul_comm 2 (2 ^ _)), Z.rem_mul_r by lia. lia.
Qed.

Definition same_address_text (b : Z) : bool :=
  bool_decide (address_flags_to_string b = flags_to_string b (Some (str "FRCsdSDG"))).

(** States, node types and flags survive their text.  A state printed is read back
    as the state; a node type is read back as itself, but for the commissioner, which
    becomes an unknown type; the text of flags with letters other than blanks and
    hyphens determines the flags; and the text of address flags is the text of flags
    with the letters FRCsdSDG. *)
Theorem ncp_text_roundtrip x t flags lookup :
  is_byte flags -> length lookup = 8%nat -> Forall (fun c => c <> 45 /\ c <> 32) lookup ->
  string_to_ncp_state (ncp_state_to_string x) = x /\
  string_to_node_type (node_type_to_string t) = (if bool_decide (t = COMMISSIONER) then UNKNOWN else t) /\
  read_flags (flags_to_string flags (Some lookup)) 0 = flags /\
  address_flags_to_string flags = flags_to_string flags (Some (str "FRCsdSDG")).
Proof.
  intros Hf Hl Hlk. split; [by destruct x|]. split; [by destruct t|]. split.
  - unfold flags_to_string. cbn [default]. rewrite flags_read; [rewrite Z.mul_0_r, Z.add_0_l; by apply Z.mod_small|..|by destruct Hf|lia].
    intros _ i. assert (forall n, nth n lookup 0 <> 45 /\ nth n lookup 0 <> 32) as Hn; [|apply Hn].
    intros n. destruct (nth_in_or_default n lookup 0) as [Hin| ->]; [|done]. rewrite List.Forall_forall in Hlk. by apply Hlk.
  - pose proof (every_byte same_address_text ltac:(vm_compute; reflexivity) flags Hf) as E. by apply bool_decide_eq_true in E.
Qed.

Lemma ncp_text_roundtrip_witness :
  string_to_ncp_state (str "associated:no-parent") = ISOLATED /\ string_to_node_type (str "commissioner") = UNKNOWN /\
  read_flags (str "F-C- -2--") 0 = 0xA4 /\ address_flags_to_string 0xA4 = str "F-C- -S--".
Proof.
  apply (ncp_text_roundtrip ISOLATED COMMISSIONER 0xA4 (str "FRC43210")); [done|done|]. repeat (apply Forall_cons_2; [done|]). apply Forall_nil_2.
Defined.

(** The states split: one that has an interface that is up is neither detached nor
    initialising; an associated one is commissioned and joined. *)
Theorem ncp_state_facts x :
  (ncp_state_is_interface_up x = true -> ncp_state_is_detached_from_ncp x = false /\ ncp_state_is_initializing x = false) /\
  (ncp_state_is_associated x = true -> ncp_state_is_commissioned x = true /\ ncp_state_is_joining_or_joined x = true) /\
  ncp_state_is_joining_or_joined x = ncp_state_is_joining false x || ncp_state_has_joined false x.
Proof. by destruct x. Qed.

(** Built for Wi-SUN, every state counts as joined, a fault as well. *)
Example fault_has_joined : ncp_state_has_joined true FAULT = true /\ ncp_state_is_joining_or_joined FAULT = false.
Proof. done. Qed.

End NcpTypes.
