(* ===== verification/SpinelPump.v ===== *)
(** * The data pumps of the daemon (src/ncp-spinel/SpinelNCPInstance-DataPump.cpp)

    Two protothreads carry frames between the daemon and its co-processor: one takes
    bytes off the serial line, undoes the framing and hands frames to the daemon, the
    other takes frames and network packets, frames them and writes them to the line.
    A protothread is a function that is called again and again and goes on where it
    left off: its place is a value of the state, and a call runs until it has to wait.
    What the rest of the daemon does with a frame is a parameter ([ncp]); the serial
    line and the network interfaces are the answers of their reads and writes.

    The build options are those of the source tree: no frame lengths
    (WPANTUND_SPINEL_USE_FLEN), no encrypter, no fuzzing mode, no libudev. *)

From Stdlib Require Import ZArith Lia.
From stdpp Require Import base list option numbers.
From S2P Require Import Prelude Hdlc CStr NcpTypes.

Open Scope Z_scope.

Module SpinelPump.
Import CStr NcpTypes.

(** ** Framing *)

Definition HDLC_BYTE_FLAG : Z := 0x7E.
Definition HDLC_BYTE_ESC : Z := 0x7D.
Definition HDLC_BYTE_XON : Z := 0x11.
Definition HDLC_BYTE_XOFF : Z := 0x13.
Definition HDLC_BYTE_SPECIAL : Z := 0xF8.
Definition HDLC_ESCAPE_XFORM : Z := 0x20.

Definition hdlc_byte_needs_escape (byte : Z) : bool :=
  (byte =? HDLC_BYTE_SPECIAL) || (byte =? HDLC_BYTE_ESC) || (byte =? HDLC_BYTE_FLAG) ||
  (byte =? HDLC_BYTE_XOFF) || (byte =? HDLC_BYTE_XON).

Definition sFcsTable : list Z :=
  [0x0000; 0x1189; 0x2312; 0x329b; 0x4624; 0x57ad; 0x6536; 0x74bf;
   0x8c48; 0x9dc1; 0xaf5a; 0xbed3; 0xca6c; 0xdbe5; 0xe97e; 0xf8f7;
   0x1081; 0x0108; 0x3393; 0x221a; 0x56a5; 0x472c; 0x75b7; 0x643e;
   0x9cc9; 0x8d40; 0xbfdb; 0xae52; 0xdaed; 0xcb64; 0xf9ff; 0xe876;
   0x2102; 0x308b; 0x0210; 0x1399; 0x6726; 0x76af; 0x4434; 0x55bd;
   0xad4a; 0xbcc3; 0x8e58; 0x9fd1; 0xeb6e; 0xfae7; 0xc87c; 0xd9f5;
   0x3183; 0x200a; 0x1291; 0x0318; 0x77a7; 0x662e; 0x54b5; 0x453c;
   0xbdcb; 0xac42; 0x9ed9; 0x8f50; 0xfbef; 0xea66; 0xd8fd; 0xc974;
   0x4204; 0x538d; 0x6116; 0x709f; 0x0420; 0x15a9; 0x2732; 0x36bb;
   0xce4c; 0xdfc5; 0xed5e; 0xfcd7; 0x8868; 0x99e1; 0xab7a; 0xbaf3;
   0x5285; 0x430c; 0x7197; 0x601e; 0x14a1; 0x0528; 0x37b3; 0x263a;
   0xdecd; 0xcf44; 0xfddf; 0xec56; 0x98e9; 0x8960; 0xbbfb; 0xaa72;
   0x6306; 0x728f; 0x4014; 0x519d; 0x2522; 0x34ab; 0x0630; 0x17b9;
   0xef4e; 0xfec7; 0xcc5c; 0xddd5; 0xa96a; 0xb8e3; 0x8a78; 0x9bf1;
   0x7387; 0x620e; 0x5095; 0x411c; 0x35a3; 0x242a; 0x16b1; 0x0738;
   0xffcf; 0xee46; 0xdcdd; 0xcd54; 0xb9eb; 0xa862; 0x9af9; 0x8b70;
   0x8408; 0x9581; 0xa71a; 0xb693; 0xc22c; 0xd3a5; 0xe13e; 0xf0b7;
   0x0840; 0x19c9; 0x2b52; 0x3adb; 0x4e64; 0x5fed; 0x6d76; 0x7cff;
   0x9489; 0x8500; 0xb79b; 0xa612; 0xd2ad; 0xc324; 0xf1bf; 0xe036;
   0x18c1; 0x0948; 0x3bd3; 0x2a5a; 0x5ee5; 0x4f6c; 0x7df7; 0x6c7e;
   0xa50a; 0xb483; 0x8618; 0x9791; 0xe32e; 0xf2a7; 0xc03c; 0xd1b5;
   0x2942; 0x38cb; 0x0a50; 0x1bd9; 0x6f66; 0x7eef; 0x4c74; 0x5dfd;
   0xb58b; 0xa402; 0x9699; 0x8710; 0xf3af; 0xe226; 0xd0bd; 0xc134;
   0x39c3; 0x284a; 0x1ad1; 0x0b58; 0x7fe7; 0x6e6e; 0x5cf5; 0x4d7c;
   0xc60c; 0xd785; 0xe51e; 0xf497; 0x8028; 0x91a1; 0xa33a; 0xb2b3;
   0x4a44; 0x5bcd; 0x6956; 0x78df; 0x0c60; 0x1de9; 0x2f72; 0x3efb;
   0xd68d; 0xc704; 0xf59f; 0xe416; 0x90a9; 0x8120; 0xb3bb; 0xa232;
   0x5ac5; 0x4b4c; 0x79d7; 0x685e; 0x1ce1; 0x0d68; 0x3ff3; 0x2e7a;
   0xe70e; 0xf687; 0xc41c; 0xd595; 0xa12a; 0xb0a3; 0x8238; 0x93b1;
   0x6b46; 0x7acf; 0x4854; 0x59dd; 0x2d62; 0x3ceb; 0x0e70; 0x1ff9;
   0xf78f; 0xe606; 0xd49d; 0xc514; 0xb1ab; 0xa022; 0x92b9; 0x8330;
   0x7bc7; 0x6a4e; 0x58d5; 0x495c; 0x3de3; 0x2c6a; 0x1ef1; 0x0f78].

Definition hdlc_crc16 (aFcs aByte : Z) : Z :=
  Z.lxor (Z.shiftr aFcs 8) (nth (Z.to_nat (Z.land (Z.lxor aFcs aByte) 0xff)) sFcsTable 0).

(** ** Constants of spinel.h *)

Definition SPINEL_FRAME_MAX_SIZE : Z := 1300.
Definition SPINEL_FRAME_BUFFER_SIZE : Z := SPINEL_FRAME_MAX_SIZE.
Definition SPINEL_HEADER_FLAG : Z := 0x80.
Definition SPINEL_HEADER_IID_0 : Z := Z.shiftl 0 4.
Definition SPINEL_HEADER_IID_1 : Z := Z.shiftl 1 4.
Definition SPINEL_HEADER_GET_IID (x : Z) : Z := Z.shiftr (Z.land x (Z.shiftl 3 4)) 4.
Definition SPINEL_CMD_PROP_VALUE_SET : Z := 3.
Definition SPINEL_PROP_STREAM_NET : Z := 0x72.
Definition SPINEL_PROP_STREAM_NET_INSECURE : Z := 0x73.
Definition SPINEL_MAX_UINT_PACKED : Z := 2097151.

(** [spinel_packed_uint_decode]: the number of bytes and the value; none for -1. *)
Fixpoint uint_decode (bytes : list Z) (i value ret : Z) : option (Z * Z) :=
  match bytes with
  | [] => None
  | b :: bytes =>
      if 32 <=? i then None
      else
        let value := Z.lor value (u32 (Z.shiftl (Z.land b 0x7F) i)) in
        if Z.land b 0x80 =? 0x80 then uint_decode bytes (i + 7) value (ret + 1) else Some (ret + 1, value)
  end.

(** [spinel_datatype_unpack] with the format "Ci": the result, the header and the
    command, which keep their values where nothing is stored. *)
Definition unpack_Ci (data : list Z) (header command : Z) : Z * Z * Z :=
  match data with
  | [] => (-1, header, command)
  | h :: rest =>
      match uint_decode rest 0 0 0 with
      | Some (n, v) => if v <? SPINEL_MAX_UINT_PACKED then (1 + n, h, v) else (-1, h, v)
      | None => if command <? SPINEL_MAX_UINT_PACKED then (1, h, command) else (-1, h, command)
      end
  end.

(** ** Protothreads *)

Inductive pt_ret : Type := PT_WAITING | PT_YIELDED | PT_EXITED | PT_ENDED.

(** [struct nlpt] without its sets of descriptors. *)
Record nlpt (P : Type) : Type := MkPt { lc : P; byte_count : Z; last_errno : Z }.
Arguments MkPt {P}.
Arguments lc {P}.
Arguments byte_count {P}.
Arguments last_errno {P}.

Definition NLPT_INIT {P} (start : P) : nlpt P := MkPt start 0 0.
Definition LC_SET {P} (p : P) (t : nlpt P) : nlpt P := MkPt p (byte_count t) (last_errno t).

(** The rest of the daemon: the state of the co-processor, and what is done with a
    frame, with text on the line, with an error of the line and with its reset. *)
Record ncp (S : Type) : Type := MkNcp {
  get_ncp_state : S -> NCPState;
  handle_ncp_spinel_callback : Z -> list Z -> S -> S;
  handle_ncp_debug_stream : list Z -> S -> S;
  signal_fatal_error : S -> S;
  event_ncp_conn_reset : S -> S
}.
Arguments MkNcp {S}.
Arguments get_ncp_state {S}.
Arguments handle_ncp_spinel_callback {S}.
Arguments handle_ncp_debug_stream {S}.
Arguments signal_fatal_error {S}.
Arguments event_ncp_conn_reset {S}.

(** ** From the co-processor *)

(** A read of one byte from the serial adapter: a byte, nothing, an error. *)
Inductive serial_rd : Type := Got (b : Z) | Nothing | Failed.

(** Where the pump goes on: at its start, at the yield of a round, at the reading of
    a byte, at the reading of the byte behind an escape. *)
Inductive in_lc : Type := In_start | In_yield | In_byte | In_esc.

#[export] Instance in_lc_eq_dec : EqDecision in_lc.
Proof. solve_decision. Defined.

Record inbound : Type := MkIn {
  mNCPToDriverPumpPT : nlpt in_lc;
  mInboundFrame : list Z;
  mInboundFrameSize : Z;
  mInboundFrameHDLCCRC : Z;
  mInboundHeader : Z
}.

Definition in_at (p : in_lc) (i : inbound) : inbound :=
  MkIn (LC_SET p (mNCPToDriverPumpPT i)) (mInboundFrame i) (mInboundFrameSize i) (mInboundFrameHDLCCRC i) (mInboundHeader i).
Definition in_frame (f : list Z) (n crc : Z) (i : inbound) : inbound :=
  MkIn (mNCPToDriverPumpPT i) f n crc (mInboundHeader i).
Definition in_header (h : Z) (i : inbound) : inbound :=
  MkIn (mNCPToDriverPumpPT i) (mInboundFrame i) (mInboundFrameSize i) (mInboundFrameHDLCCRC i) h.

(** Storing a byte of a frame: false when it does not fit. *)
Definition store_byte (byte : Z) (i : inbound) : outcome (bool * inbound) :=
  let n := mInboundFrameSize i in
  crc ← (if 2 <=? n then c ← CStr.byte (mInboundFrame i) (n - 2); Ret (hdlc_crc16 (mInboundFrameHDLCCRC i) c)
         else Ret (mInboundFrameHDLCCRC i));
  if n <? zlen (mInboundFrame i) then
    f ← mem_write (mInboundFrame i) n [byte];
    Ret (true, in_frame f (u32 (n + 1)) crc i)
  else Ret (false, in_frame (mInboundFrame i) n crc i).

(** The characters of a backtrace. *)
Definition is_ascii (c : Z) : bool :=
  ((7 <=? c) && (c <=? 13)) || (c =? 0) || ((32 <=? c) && (c <=? 127)).

Inductive next : Type := Continue | Break.

Section Inbound.
Context {S : Type} (I : ncp S).

(** A flag was read: what follows in the round. *)
Definition frame_end (i : inbound) (s : S) : outcome (next * inbound * S) :=
  if mInboundFrameSize i <=? 2 then Ret (Continue, i, s)
  else
    let n := mInboundFrameSize i - 2 in
    let crc := Z.lxor (mInboundFrameHDLCCRC i) 0xFFFF in
    let i := in_frame (mInboundFrame i) n crc i in
    a ← CStr.byte (mInboundFrame i) n;
    b ← CStr.byte (mInboundFrame i) (n + 1);
    let frame_crc := u16 (Z.lor a (Z.shiftl b 8)) in
    if negb (crc =? frame_crc) then
      let i := in_frame (mInboundFrame i) (n + 2) crc i in
      d ← mem_read (mInboundFrame i) 0 (n + 2);
      Ret (Continue, i, if forallb is_ascii d then handle_ncp_debug_stream I d s else s)
    else if negb (last_errno (mNCPToDriverPumpPT i) =? 0) then Ret (Break, i, signal_fatal_error I s)
    else
      d ← mem_read (mInboundFrame i) 0 n;
      let '(ret, header, command_value) := unpack_Ci d (mInboundHeader i) 0 in
      let i := in_header header i in
      if 0 <? ret then
        if negb (Z.land header SPINEL_HEADER_FLAG =? SPINEL_HEADER_FLAG) then Ret (Break, i, s)
        else if negb (SPINEL_HEADER_GET_IID header =? 0) then Ret (Break, i, s)
        else Ret (Continue, i, handle_ncp_spinel_callback I command_value d s)
      else Ret (Continue, i, s).

(** The head of the loop: a round begins with a yield. *)
Definition in_round (i : inbound) (s : S) : pt_ret * inbound * S :=
  if ncp_state_is_detached_from_ncp (get_ncp_state I s) then (PT_ENDED, in_at In_start i, s)
  else (PT_YIELDED, in_at In_yield (in_header 0 (in_frame (mInboundFrame i) 0 (mInboundFrameHDLCCRC i) i)), s).

(** The loop over the bytes of a frame; [esc] tells that an escape was read.  What is
    not read stays for the next call. *)
Fixpoint read_loop (avail : list serial_rd) (esc : bool) (i : inbound) (s : S) : outcome (pt_ret * inbound * S * list serial_rd) :=
  match avail with
  | [] => Ret (PT_WAITING, in_at (if esc then In_esc else In_byte) i, s, [])
  | Nothing :: avail => read_loop avail esc i s
  | Failed :: avail => Ret (PT_ENDED, in_at In_start i, signal_fatal_error I s, avail)
  | Got byte :: avail =>
      if byte =? HDLC_BYTE_FLAG then
        '(n, i, s) ← frame_end i s;
        match n with
        | Continue => Ret (in_round i s, avail)
        | Break => Ret (PT_ENDED, in_at In_start i, s, avail)
        end
      else if negb esc && (byte =? HDLC_BYTE_ESC) then read_loop avail true i s
      else
        let byte := if esc then Z.lxor byte HDLC_ESCAPE_XFORM else byte in
        '(ok, i) ← store_byte byte i;
        if (ok : bool) then read_loop avail false i s else Ret (PT_ENDED, in_at In_start i, s, avail)
  end.

(** A call: [did_reset] tells whether the line was reset; [O] is the start of the other
    pump, which is restarted as well then. *)
Definition ncp_to_driver_pump {O} (out_start : O) (did_reset : bool) (avail : list serial_rd) (i : inbound) (o : nlpt O) (s : S)
  : outcome (pt_ret * inbound * nlpt O * S * list serial_rd) :=
  let i := if did_reset then MkIn (NLPT_INIT In_start) (mInboundFrame i) (mInboundFrameSize i) (mInboundFrameHDLCCRC i) (mInboundHeader i) else i in
  let o := if did_reset then NLPT_INIT out_start else o in
  let s := if did_reset then event_ncp_conn_reset I s else s in
  '(r, i, s, avail) ←
    match lc (mNCPToDriverPumpPT i) with
    | In_start => Ret (in_round i s, avail)
    | In_yield =>
        if bool_decide (avail = []) then Ret (PT_YIELDED, i, s, [])
        else read_loop avail false (in_frame (mInboundFrame i) 0 0xffff i) s
    | In_byte => read_loop avail false i s
    | In_esc => read_loop avail true i s
    end;
  Ret (r, i, o, s, avail).

End Inbound.

(** ** To the co-processor *)

Definition FRAME_TYPE_DATA : Z := 2.
Definition FRAME_TYPE_INSECURE_DATA : Z := 3.
Definition FRAME_TYPE_LEGACY_DATA : Z := 4.

Inductive cb_status : Type := kWPANTUNDStatus_Ok | kWPANTUNDStatus_Canceled | kWPANTUNDStatus_Failure.

(** A write to the serial adapter: the number of bytes it takes, or an error. *)
Inductive wr : Type := Wrote (n : Z) | WrFailed (errno : Z).

(** Where the pump goes on: at its start, at the yield for one or for two interfaces,
    at the writing of a frame. *)
Inductive out_lc : Type := Out_start | Out_yield | Out_yield2 | Out_write.

(** The callback for the frame in the buffer is set or not. *)
Record outbound : Type := MkOut {
  mDriverToNCPPumpPT : nlpt out_lc;
  mOutboundBuffer : list Z;
  mOutboundBufferType : Z;
  mOutboundBufferLen : Z;
  mOutboundBufferSent : Z;
  mOutboundBufferEscaped : list Z;
  mOutboundBufferEscapedLen : Z;
  mOutboundCallback : bool
}.

Definition out_pt (t : nlpt out_lc) (o : outbound) : outbound :=
  MkOut t (mOutboundBuffer o) (mOutboundBufferType o) (mOutboundBufferLen o) (mOutboundBufferSent o) (mOutboundBufferEscaped o)
    (mOutboundBufferEscapedLen o) (mOutboundCallback o).
Definition out_at (p : out_lc) (o : outbound) : outbound := out_pt (LC_SET p (mDriverToNCPPumpPT o)) o.
Definition out_buffer (b : list Z) (t n : Z) (o : outbound) : outbound :=
  MkOut (mDriverToNCPPumpPT o) b t n (mOutboundBufferSent o) (mOutboundBufferEscaped o) (mOutboundBufferEscapedLen o) (mOutboundCallback o).
Definition out_len (n : Z) (o : outbound) : outbound := out_buffer (mOutboundBuffer o) (mOutboundBufferType o) n o.
Definition out_sent (n : Z) (o : outbound) : outbound :=
  MkOut (mDriverToNCPPumpPT o) (mOutboundBuffer o) (mOutboundBufferType o) (mOutboundBufferLen o) n (mOutboundBufferEscaped o)
    (mOutboundBufferEscapedLen o) (mOutboundCallback o).
Definition out_escaped (b : list Z) (n : Z) (o : outbound) : outbound :=
  MkOut (mDriverToNCPPumpPT o) (mOutboundBuffer o) (mOutboundBufferType o) (mOutboundBufferLen o) (mOutboundBufferSent o) b n (mOutboundCallback o).
Definition out_callback (c : bool) (o : outbound) : outbound :=
  MkOut (mDriverToNCPPumpPT o) (mOutboundBuffer o) (mOutboundBufferType o) (mOutboundBufferLen o) (mOutboundBufferSent o) (mOutboundBufferEscaped o)
    (mOutboundBufferEscapedLen o) c.

(** A store [mOutboundBufferEscaped[mOutboundBufferEscapedLen++] = b]. *)
Definition put (o : outbound) (b : Z) : outcome outbound :=
  e ← mem_write (mOutboundBufferEscaped o) (mOutboundBufferEscapedLen o) [b];
  Ret (out_escaped e (mOutboundBufferEscapedLen o + 1) o).

Definition put_escaped (o : outbound) (byte : Z) : outcome outbound :=
  if hdlc_byte_needs_escape byte then o ← put o HDLC_BYTE_ESC; put o (Z.lxor byte HDLC_ESCAPE_XFORM) else put o byte.

Fixpoint escape_loop (data : list Z) (crc : Z) (o : outbound) : outcome (Z * outbound) :=
  match data with
  | [] => Ret (crc, o)
  | byte :: data => o ← put_escaped o byte; escape_loop data (hdlc_crc16 crc byte) o
  end.

(** The frame is put into the second buffer. *)
Definition frame_out (o : outbound) : outcome outbound :=
  o ← put (out_escaped (mOutboundBufferEscaped o) 0 o) HDLC_BYTE_FLAG;
  data ← mem_read (mOutboundBuffer o) 0 (mOutboundBufferLen o);
  '(crc, o) ← escape_loop data 0xFFFF o;
  let crc := Z.lxor crc 0xFFFF in
  o ← put_escaped o (Z.land crc 0xFF);
  o ← put_escaped o (Z.land (Z.shiftr crc 8) 0xFF);
  o ← put o HDLC_BYTE_FLAG;
  Ret (out_sent 0 o).

(** The rest of the daemon, as this pump sees it: the two interfaces, the filter of
    packets with the type it chooses, and the callback. *)
Record net (S : Type) : Type := MkNet {
  n_ncp : ncp S;
  mLegacyInterface : bool;
  is_legacy_interface_enabled : S -> bool;
  should_forward_ncpbound_frame : Z -> list Z -> S -> bool * Z * S;
  outbound_callback : cb_status -> S -> S
}.
Arguments MkNet {S}.
Arguments n_ncp {S}.
Arguments mLegacyInterface {S}.
Arguments is_legacy_interface_enabled {S}.
Arguments should_forward_ncpbound_frame {S}.
Arguments outbound_callback {S}.

(** What the devices answer: packets or errors of the two interfaces, the writes. *)
Record devices : Type := MkDev { d_primary : list (option (list Z)); d_legacy : list (option (list Z)); d_writes : list wr }.

Section Outbound.
Context {S : Type} (N : net S).

Definition fire (c : cb_status) (o : outbound) (s : S) : outbound * S :=
  if mOutboundCallback o then (out_callback false o, outbound_callback N c s) else (o, s).

(** Behind [on_error]. *)
Definition out_end (o : outbound) (s : S) : pt_ret * outbound * S :=
  let '(o, s) := fire kWPANTUNDStatus_Failure o s in (PT_ENDED, out_at Out_start o, s).

(** The head of the loop: it ends, goes on to a frame that waits, or yields. *)
Definition out_round (o : outbound) (s : S) : (pt_ret * outbound * S) + (outbound * S) :=
  if ncp_state_is_detached_from_ncp (get_ncp_state (n_ncp N) s) then inl (out_end o s)
  else
    let '(o, s) := fire kWPANTUNDStatus_Canceled o s in
    if 0 <? mOutboundBufferLen o then inr (o, s)
    else if mLegacyInterface N && is_legacy_interface_enabled N s then inl (PT_YIELDED, out_at Out_yield2 o, s)
    else inl (PT_YIELDED, out_at Out_yield o, s).

(** The end of a round, with nothing left to send. *)
Definition out_next (o : outbound) (s : S) : pt_ret * outbound * S :=
  match out_round o s with inl r => r | inr (o, s) => (PT_YIELDED, out_at Out_yield o, s) end.

Definition write_end (o : outbound) (s : S) : pt_ret * outbound * S :=
  let o := out_sent (mOutboundBufferSent o + byte_count (mDriverToNCPPumpPT o)) o in
  let o := out_len 0 o in
  if negb (last_errno (mDriverToNCPPumpPT o) =? 0) then out_end o s
  else let '(o, s) := fire kWPANTUNDStatus_Ok o s in out_next o s.

(** [write_stream_pt]: what is left of the writes, and the bytes written. *)
Fixpoint write_loop (ws : list wr) (o : outbound) (s : S) : outcome (pt_ret * outbound * S * list wr * list Z) :=
  let t := mDriverToNCPPumpPT o in
  let left := mOutboundBufferEscapedLen o - byte_count t in
  if 0 <? left then
    match ws with
    | [] => Ret (PT_WAITING, out_at Out_write o, s, [], [])
    | WrFailed e :: ws => Ret (write_end (out_pt (MkPt (lc t) (byte_count t) e) o) s, ws, [])
    | Wrote n :: ws =>
        let n := Z.max 0 (Z.min n left) in
        d ← mem_read (mOutboundBufferEscaped o) (byte_count t) n;
        '(r, o, s, ws, l) ← write_loop ws (out_pt (MkPt (lc t) (byte_count t + n) (last_errno t)) o) s;
        Ret (r, o, s, ws, d ++ l)
    end
  else Ret (write_end o s, ws, []).

(** A frame is framed, and its writing begins. *)
Definition send_frame (ws : list wr) (o : outbound) (s : S) : outcome (pt_ret * outbound * S * list wr * list Z) :=
  o ← frame_out o;
  write_loop ws (out_pt (MkPt (lc (mDriverToNCPPumpPT o)) 0 0) o) s.

Inductive picked : Type := Send | Again | Stop.

(** A packet is read to offset 5; none is an error. *)
Definition read_packet (r : option (list Z)) (type : Z) (o : outbound) : outcome outbound :=
  match r with
  | None => Ret (out_buffer (mOutboundBuffer o) type (-1) o)
  | Some p =>
      let d := take (Z.to_nat (SPINEL_FRAME_BUFFER_SIZE - 5)) p in
      b ← mem_write (mOutboundBuffer o) 5 d;
      Ret (out_buffer b type (zlen d) o)
  end.

(** The frame to send: one that waits, or a packet. *)
Definition pick (dv : devices) (o : outbound) (s : S) : outcome (picked * outbound * S * devices) :=
  if 0 <? mOutboundBufferLen o then Ret (Send, o, s, dv)
  else
    '(o, dv) ←
      match d_primary dv, d_legacy dv with
      | r :: ps, _ => o ← read_packet r FRAME_TYPE_DATA o; Ret (o, MkDev ps (d_legacy dv) (d_writes dv))
      | [], r :: ls => if mLegacyInterface N then o ← read_packet r FRAME_TYPE_LEGACY_DATA o; Ret (o, MkDev [] ls (d_writes dv)) else Ret (o, dv)
      | [], [] => Ret (o, dv)
      end;
    let n := mOutboundBufferLen o in
    if n <? 0 then Ret (Stop, o, signal_fatal_error (n_ncp N) s, dv)
    else if n <=? 0 then Ret (Again, out_len 0 o, s, dv)
    else
      pkt ← mem_read (mOutboundBuffer o) 5 n;
      let '(fwd, type, s) := should_forward_ncpbound_frame N (mOutboundBufferType o) pkt s in
      if negb fwd then Ret (Again, out_buffer (mOutboundBuffer o) type 0 o, s, dv)
      else
        let type := if bool_decide (get_ncp_state (n_ncp N) s = CREDENTIALS_NEEDED) then FRAME_TYPE_INSECURE_DATA else type in
        let iid := if (type =? FRAME_TYPE_DATA) || (type =? FRAME_TYPE_INSECURE_DATA) then SPINEL_HEADER_IID_0 else SPINEL_HEADER_IID_1 in
        let prop := if type =? FRAME_TYPE_INSECURE_DATA then SPINEL_PROP_STREAM_NET_INSECURE else SPINEL_PROP_STREAM_NET in
        b ← mem_write (mOutboundBuffer o) 3 [Z.land n 0xFF; Z.land (Z.shiftr n 8) 0xFF];
        b ← mem_write b 0 [Z.lor SPINEL_HEADER_FLAG iid; SPINEL_CMD_PROP_VALUE_SET; prop];
        Ret (Send, out_buffer b type (n + 5) o, s, dv).

(** Behind the yield. *)
Definition out_body (dv : devices) (o : outbound) (s : S) : outcome (pt_ret * outbound * S * devices * list Z) :=
  '(p, o, s, dv) ← pick dv o s;
  match p with
  | Send => '(r, o, s, ws, l) ← send_frame (d_writes dv) o s; Ret (r, o, s, MkDev (d_primary dv) (d_legacy dv) ws, l)
  | Again => Ret (out_next o s, dv, [])
  | Stop => Ret (out_end o s, dv, [])
  end.

Definition driver_to_ncp_pump (dv : devices) (o : outbound) (s : S) : outcome (pt_ret * outbound * S * devices * list Z) :=
  let ready := (0 <? mOutboundBufferLen o) || negb (bool_decide (d_primary dv = [])) in
  match lc (mDriverToNCPPumpPT o) with
  | Out_start => match out_round o s with inl r => Ret (r, dv, []) | inr (o, s) => out_body dv o s end
  | Out_yield => if ready then out_body dv o s else Ret (PT_YIELDED, o, s, dv, [])
  | Out_yield2 => if ready || negb (bool_decide (d_legacy dv = [])) then out_body dv o s else Ret (PT_YIELDED, o, s, dv, [])
  | Out_write => '(r, o, s, ws, l) ← write_loop (d_writes dv) o s; Ret (r, o, s, MkDev (d_primary dv) (d_legacy dv) ws, l)
  end.

End Outbound.

(** ** The line as a receiver of frames *)

(** What the calls take off the line, in order. *)
Inductive item : Type := It (r : serial_rd) | ItReset.

Definition accepted (d : list Z) : option Z :=
  let '(ret, header, command) := unpack_Ci d 0 0 in
  if (0 <? ret) && (Z.land header SPINEL_HEADER_FLAG =? SPINEL_HEADER_FLAG) && (SPINEL_HEADER_GET_IID header =? 0)
  then Some command else None.

Section Receiver.
Context {S : Type} (I : ncp S).

(** The content of a frame with a correct checksum is handed over. *)
Definition dispatch (d : list Z) (s : S) : S :=
  match accepted d with Some command => handle_ncp_spinel_callback I command d s | None => s end.

Definition hand_over (raw : list Z) (s : S) : S :=
  if (length raw <=? 2)%nat then s
  else
    let d := take (length raw - 2) raw in
    if bool_decide (raw = Hdlc.sealed d) then dispatch d s
    else if forallb is_ascii raw then handle_ncp_debug_stream I raw s
    else s.

(** The receiver: whether an escape was read, the bytes since the last flag. *)
Definition receiver : Type := bool * list Z * S.

Definition receive (x : receiver) (it : item) : receiver :=
  let '(esc, raw, s) := x in
  match it with
  | ItReset => (false, [], event_ncp_conn_reset I s)
  | It Nothing => x
  | It Failed => (false, [], signal_fatal_error I s)
  | It (Got b) =>
      if b =? HDLC_BYTE_FLAG then (false, [], hand_over raw s)
      else if negb esc && (b =? HDLC_BYTE_ESC) then (true, raw, s)
      else if (1300 <=? length raw)%nat then (false, [], s)
      else (false, raw ++ [if esc then Z.lxor b HDLC_ESCAPE_XFORM else b], s)
  end.

End Receiver.

Lemma crc16_same f b : hdlc_crc16 f b = Hdlc.hdlc_crc16 f b.
Proof. reflexivity. Qed.

(** The frame buffer holds [raw], and the checksum runs two bytes behind. *)
Record holds (i : inbound) (raw : list Z) : Prop := MkHolds {
  ho_size : mInboundFrameSize i = zlen raw;
  ho_fits : (length raw <= 1300)%nat;
  ho_bytes : is_bytes raw;
  ho_frame : take (length raw) (mInboundFrame i) = raw;
  ho_crc : mInboundFrameHDLCCRC i = Hdlc.fcs_of (take (length raw - 2) raw)
}.

Definition in_ok (i : inbound) : Prop := length (mInboundFrame i) = 1300%nat /\ last_errno (mNCPToDriverPumpPT i) = 0.

Definition in_rel (i : inbound) (esc : bool) (raw : list Z) : Prop :=
  in_ok i /\
  match lc (mNCPToDriverPumpPT i) with
  | In_start | In_yield => esc = false /\ raw = []
  | In_byte => esc = false /\ holds i raw
  | In_esc => esc = true /\ holds i raw
  end.

Lemma byte_take l n k b : take n l !! k = Some b -> CStr.byte l (Z.of_nat k) = Ret b.
Proof.
  intros Hk. apply lookup_take_Some in Hk as [Hk _]. rewrite <- (take_drop_middle l k b Hk).
  replace (Z.of_nat k) with (zlen (take k l)); [apply byte_at|]. apply lookup_lt_Some in Hk. unfold zlen. rewrite length_take. lia.
Qed.

Lemma store_byte_run b i raw : in_ok i -> holds i raw -> is_byte b ->
  exists ok i', store_byte b i = Ret (ok, i') /\ in_ok i' /\ lc (mNCPToDriverPumpPT i') = lc (mNCPToDriverPumpPT i) /\
    ok = (length raw <? 1300)%nat /\ (ok = true -> holds i' (raw ++ [b])).
Proof.
  intros [Hl He] [Hs Hf Hb Ht Hc] Hby. unfold store_byte. rewrite Hs.
  assert ((if 2 <=? zlen raw then c ← CStr.byte (mInboundFrame i) (zlen raw - 2); Ret (hdlc_crc16 (mInboundFrameHDLCCRC i) c)
    else Ret (mInboundFrameHDLCCRC i)) = Ret (Hdlc.fcs_of (take (length raw - 1) raw))) as ->.
  { unfold zlen. destruct (Z.leb_spec 2 (Z.of_nat (length raw))) as [H2|H2].
    - destruct (lookup_lt_is_Some_2 raw (length raw - 2) ltac:(lia)) as [c Ec].
      replace (Z.of_nat (length raw) - 2) with (Z.of_nat (length raw - 2)) by lia.
      rewrite (byte_take _ (length raw) _ c) by (by rewrite Ht). cbn [mbind outcome_bind].
      rewrite Hc, crc16_same. replace (length raw - 1)%nat with (Datatypes.S (length raw - 2)) by lia.
      rewrite (take_S_r _ _ _ Ec). unfold Hdlc.fcs_of. by rewrite Hdlc.fcs_of_app.
    - rewrite Hc. destruct raw as [|x [|y raw]]; [done|done|cbn in H2; lia]. }
  cbn [mbind outcome_bind]. unfold zlen. rewrite Hl.
  destruct (Z.ltb_spec (Z.of_nat (length raw)) (Z.of_nat 1300)), (Nat.ltb_spec (length raw) 1300); try lia.
  - assert (length raw < length (mInboundFrame i))%nat as Hlt by lia. destruct (lookup_lt_is_Some_2 _ _ Hlt) as [x Ex].
    pose proof (take_drop_middle _ _ _ Ex) as Em. rewrite Ht in Em. rewrite <- Em.
    rewrite (mem_write_mid raw x _ b : mem_write _ (Z.of_nat (length raw)) _ = _). cbn [mbind outcome_bind].
    eexists true, _. split; [done|]. split; [|split; [done|split; [done|intros _]]].
    + split; [|done]. cbn. apply (f_equal length) in Em. rewrite length_app in Em |- *. cbn [length] in *. lia.
    + constructor; cbn; rewrite ?length_app; cbn [length].
      * unfold zlen, u32. rewrite length_app. cbn [length]. rewrite Z.mod_small; lia.
      * lia.
      * apply Forall_app. split; [done|]. by apply Forall_singleton.
      * replace (raw ++ b :: drop (Datatypes.S (length raw)) (mInboundFrame i)) with ((raw ++ [b]) ++ drop (Datatypes.S (length raw)) (mInboundFrame i)) by (by rewrite <- app_assoc).
        rewrite take_app_le by (rewrite length_app; cbn; lia). apply take_ge. rewrite length_app. cbn. lia.
      * replace (length raw + 1 - 2)%nat with (length raw - 1)%nat by lia. rewrite take_app_le by lia. done.
  - eexists false, _. split; [done|]. split; [done|]. split; [done|]. done.
Qed.

(** The checksum in a frame is the one computed when its content is sealed. *)
Lemma crc_sealed d a b : is_byte a -> is_byte b ->
  (Z.lxor (Hdlc.fcs_of d) 0xFFFF =? u16 (Z.lor a (Z.shiftl b 8))) = bool_decide (d ++ [a; b] = Hdlc.sealed d).
Proof.
  intros Ha Hb. unfold is_byte in *. rewrite lor_shiftl by lia. unfold u16. rewrite Z.mod_small by lia.
  assert (is_u16 (Z.lxor (Hdlc.fcs_of d) 65535)) as Hf by (apply (lxor_bound _ _ 16); [lia|apply Hdlc.fcs_of_u16|lia]).
  unfold is_u16 in Hf. apply eq_true_iff_eq. rewrite Z.eqb_eq, bool_decide_eq_true. unfold Hdlc.sealed, Hdlc.crc_bytes.
  set (f := Z.lxor _ _) in *. rewrite shiftr8, !land_ff. split.
  - intros E. do 2 f_equal; [|f_equal]; Z.to_euclidean_division_equations; lia.
  - intros E%app_inv_head. injection E as -> ->. Z.to_euclidean_division_equations; lia.
Qed.

Section Refinement.
Context {S : Type} (I : ncp S).

Lemma dispatch_unpack d (s : S) h r hd c : unpack_Ci d h 0 = (r, hd, c) -> h = 0 \/ d <> [] ->
  dispatch I d s = if (0 <? r) && (Z.land hd SPINEL_HEADER_FLAG =? SPINEL_HEADER_FLAG) && (SPINEL_HEADER_GET_IID hd =? 0)
                   then handle_ncp_spinel_callback I c d s else s.
Proof.
  intros E Hd. assert (unpack_Ci d 0 0 = (r, hd, c)) as E0 by (destruct Hd as [->|Hd]; [done|]; by destruct d).
  unfold dispatch, accepted. rewrite E0. by destruct (_ && _).
Qed.

Lemma frame_end_run i raw (s : S) : in_ok i -> holds i raw ->
  exists n i', frame_end I i s = Ret (n, i', hand_over I raw s) /\ in_ok i'.
Proof.
  intros [Hl He] [Hs Hf Hb Ht Hc]. unfold frame_end, hand_over. rewrite Hs. unfold zlen.
  destruct (Z.leb_spec (Z.of_nat (length raw)) 2), (Nat.leb_spec (length raw) 2); try lia; [by eexists _, _|].
  set (d := take (length raw - 2) raw). assert (exists a b, raw = d ++ [a; b]) as (a & b & E).
  { pose proof (take_drop (length raw - 2) raw) as E. pose proof (length_drop raw (length raw - 2)) as El.
    destruct (drop _ raw) as [|a [|b [|]]]; cbn in El; try lia. by exists a, b. }
  assert (length d = length raw - 2)%nat as Hd by (apply length_take_le; lia).
  assert (is_byte a /\ is_byte b) as [Ha Hbb].
  { rewrite E in Hb. apply Forall_app in Hb as [_ Hb]. apply Forall_cons_iff in Hb as [? Hb]. by apply Forall_cons_iff in Hb as [? _]. }
  replace (Z.of_nat (length raw) - 2) with (Z.of_nat (length d)) by lia.
  assert (forall k, (k <= length raw)%nat -> mem_read (mInboundFrame i) 0 (Z.of_nat k) = Ret (take k raw)) as Hread.
  { intros k Hk. rewrite mem_read_ok by (unfold zlen; lia). unfold slice. rewrite Nat2Z.id. cbn [Z.to_nat drop].
    rewrite <- Ht at 1. rewrite take_take. by rewrite Nat.min_l by lia. }
  cbn [in_frame mInboundFrame mInboundFrameHDLCCRC mInboundFrameSize mNCPToDriverPumpPT mInboundHeader].
  rewrite (byte_take _ (length raw) (length d) a) by (rewrite Ht, E at 1; rewrite lookup_app_r, Nat.sub_diag by lia; done).
  cbn [mbind outcome_bind]. replace (Z.of_nat (length d) + 1) with (Z.of_nat (Datatypes.S (length d))) by lia.
  rewrite (byte_take _ (length raw) (Datatypes.S (length d)) b)
    by (rewrite Ht, E at 1; rewrite lookup_app_r by lia; by replace (Datatypes.S (length d) - length d)%nat with 1%nat by lia).
  cbn [mbind outcome_bind]. rewrite Hc. fold d. rewrite crc_sealed by done. rewrite <- E. case_bool_decide as Hsl; cbn [negb].
  - rewrite He. cbn [Z.eqb negb]. rewrite Hread by lia. cbn [mbind outcome_bind].
    replace (take (length d) raw) with d by (by rewrite Hd).
    destruct (unpack_Ci d (mInboundHeader i) 0) as [[r hd] c] eqn:Eu.
    rewrite (dispatch_unpack d s _ _ _ _ Eu) by (right; intros E0; rewrite E0 in Hd; cbn in Hd; lia).
    destruct (0 <? r); cbn [andb]; [|by eexists _, _].
    destruct (_ =? SPINEL_HEADER_FLAG); cbn [andb negb]; [|by eexists _, _].
    destruct (_ =? 0); cbn [negb]; by eexists _, _.
  - replace (Z.of_nat (length d) + 2) with (Z.of_nat (length raw)) by lia. rewrite Hread by lia. rewrite firstn_all.
    cbn [mbind outcome_bind]. by eexists _, _.
Qed.

Definition bytes_in (l : list serial_rd) : Prop := Forall (fun r => match r with Got b => is_byte b | _ => True end) l.

Lemma in_round_rel i (s : S) : in_ok i -> let '(_, i', s') := in_round I i s in s' = s /\ in_rel i' false [].
Proof. intros [Hl He]. unfold in_round. by destruct (ncp_state_is_detached_from_ncp _). Qed.

(** The loop over the bytes takes a prefix of what there is, as the receiver does. *)
Lemma read_loop_run avail : forall esc i raw (s : S), in_ok i -> holds i raw -> bytes_in avail ->
  exists r i' s' pre q esc' raw', read_loop I avail esc i s = Ret (r, i', s', q) /\ avail = pre ++ q /\
    foldl (receive I) (esc, raw, s) (map It pre) = (esc', raw', s') /\ in_rel i' esc' raw' /\ (avail <> [] -> pre <> []) /\
    (ncp_state_is_detached_from_ncp (get_ncp_state I s') = false \/ lc (mNCPToDriverPumpPT i') <> In_yield).
Proof.
  induction avail as [|x avail IH]; intros esc i raw s Hi Hh Hb.
  - eexists _, _, s, [], [], esc, raw. split; [done|]. split; [done|]. split; [done|]. split; [|split; [done|by right; destruct esc]].
    destruct Hi. split; [done|]. destruct esc; cbn; (split; [done|]); destruct Hh; by constructor.
  - apply Forall_cons_iff in Hb as [Hx Hb]. cbn [read_loop]. destruct x as [b| |].
    + destruct (Z.eqb_spec b HDLC_BYTE_FLAG) as [->|Hfl].
      { destruct (frame_end_run i raw s Hi Hh) as (n & i1 & -> & Hi1). cbn [mbind outcome_bind]. destruct n.
        - pose proof (in_round_rel i1 (hand_over I raw s) Hi1) as Hr. unfold in_round in *. destruct (ncp_state_is_detached_from_ncp _) eqn:Ed;
            destruct Hr as [_ Hr]; eexists _, _, (hand_over I raw s), [_], avail, false, []; (split; [done|]); (split; [done|]); (split; [done|]);
            (split; [exact Hr|]); (split; [done|]); [by right|by left].
        - eexists _, _, (hand_over I raw s), [_], avail, false, []. do 3 (split; [done|]). split; [by destruct Hi1|]. split; [done|by right]. }
      apply Z.eqb_neq in Hfl. destruct (negb esc && (b =? HDLC_BYTE_ESC)) eqn:Ee.
      { destruct (IH true i raw s Hi Hh Hb) as (r & i' & s' & pre & q & e' & raw' & -> & -> & Hf & Hr & _ & Hd).
        eexists r, i', s', (Got b :: pre), q, e', raw'. split; [done|]. split; [done|]. split; [|done]. cbn [map foldl receive]. by rewrite Hfl, Ee. }
      set (c := if esc then _ else _). assert (is_byte c) as Hc by (unfold c; destruct esc; [|done]; apply lxor_byte; [done|done]).
      destruct (store_byte_run c i raw Hi Hh Hc) as (ok & i1 & -> & Hi1 & _ & Hok & Hh1). cbn [mbind outcome_bind]. destruct ok.
      * destruct (IH false i1 _ s Hi1 (Hh1 eq_refl) Hb) as (r & i' & s' & pre & q & e' & raw' & -> & -> & Hf & Hr & _ & Hd).
        eexists r, i', s', (Got b :: pre), q, e', raw'. split; [done|]. split; [done|]. split; [|done]. cbn [map foldl receive]. rewrite Hfl, Ee.
        destruct (Nat.leb_spec 1300 (length raw)), (Nat.ltb_spec (length raw) 1300); try lia; done.
      * eexists _, _, s, [Got b], avail, false, []. split; [done|]. split; [done|]. split; [|split; [by destruct Hi1|split; [done|by right]]].
        cbn [map foldl receive]. rewrite Hfl, Ee. destruct (Nat.leb_spec 1300 (length raw)), (Nat.ltb_spec (length raw) 1300); try lia; done.
    + destruct (IH esc i raw s Hi Hh Hb) as (r & i' & s' & pre & q & e' & raw' & -> & -> & Hf & Hr & _ & Hd).
      by eexists r, i', s', (Nothing :: pre), q, e', raw'.
    + eexists _, _, _, [Failed], avail, false, []. do 3 (split; [done|]). split; [by destruct Hi|]. split; [done|by right].
Qed.

(** A call: the reset comes first, then a prefix of what there is. *)
Lemma pump_run {O} (out_start : O) (reset : bool) avail i o (s : S) esc raw :
  in_rel i esc raw -> bytes_in avail ->
  exists r i' s' pre q esc' raw',
    ncp_to_driver_pump I out_start reset avail i o s = Ret (r, i', if reset then NLPT_INIT out_start else o, s', q) /\ avail = pre ++ q /\
    foldl (receive I) (esc, raw, s) ((if reset then [ItReset] else []) ++ map It pre) = (esc', raw', s') /\ in_rel i' esc' raw' /\
    (reset = false -> lc (mNCPToDriverPumpPT i) <> In_start -> avail <> [] -> pre <> []) /\
    (lc (mNCPToDriverPumpPT i) = In_start -> ncp_state_is_detached_from_ncp (get_ncp_state I s') = false -> lc (mNCPToDriverPumpPT i') = In_yield).
Proof.
  intros [Hi Hr] Hb. unfold ncp_to_driver_pump.
  assert (forall i (s : S), in_ok i -> lc (mNCPToDriverPumpPT i) = In_start -> exists r i', in_round I i s = (r, i', s) /\ in_rel i' false [] /\
    (ncp_state_is_detached_from_ncp (get_ncp_state I s) = false -> lc (mNCPToDriverPumpPT i') = In_yield)) as Hstart.
  { intros i0 s0 Hi0 _. pose proof (in_round_rel i0 s0 Hi0) as Hx. unfold in_round in *.
    destruct (ncp_state_is_detached_from_ncp _); destruct Hx as [_ Hx]; by eexists _, _. }
  destruct reset.
  { set (i0 := MkIn _ _ _ _ _). destruct (Hstart i0 (event_ncp_conn_reset I s)) as (r & i' & E & Hrel & Hy); [by destruct Hi|done|].
    change (lc (mNCPToDriverPumpPT i0)) with In_start. cbv iota zeta. rewrite E. cbn [mbind outcome_bind].
    eexists r, i', _, [], avail, false, []. do 3 (split; [done|]). split; [done|]. split; [done|]. done. }
  destruct (lc (mNCPToDriverPumpPT i)) eqn:El.
  - destruct Hr as [-> ->]. destruct (Hstart i s Hi El) as (r & i' & E & Hrel & Hy). rewrite E. cbn [mbind outcome_bind].
    eexists r, i', s, [], avail, false, []. do 3 (split; [done|]). split; [done|]. done.
  - destruct Hr as [-> ->]. case_bool_decide as Ha; cbn [mbind outcome_bind].
    + subst. eexists _, i, s, [], [], false, []. do 3 (split; [done|]). split; [|done]. split; [done|]. by rewrite El.
    + destruct (read_loop_run avail false (in_frame (mInboundFrame i) 0 65535 i) [] s) as (r & i' & s' & pre & q & e' & raw' & -> & -> & Hf & Hrel & Hp & _);
        [by destruct Hi| |done|]. { constructor; cbn; done || lia || constructor. }
      cbn [mbind outcome_bind]. eexists r, i', s', pre, q, e', raw'. do 3 (split; [done|]). split; [done|]. split; [by auto|done].
  - destruct Hr as [-> Hh]. destruct (read_loop_run avail false i raw s Hi Hh Hb) as (r & i' & s' & pre & q & e' & raw' & -> & -> & Hf & Hrel & Hp & _).
    cbn [mbind outcome_bind]. eexists r, i', s', pre, q, e', raw'. do 3 (split; [done|]). split; [done|]. split; [by auto|done].
  - destruct Hr as [-> Hh]. destruct (read_loop_run avail true i raw s Hi Hh Hb) as (r & i' & s' & pre & q & e' & raw' & -> & -> & Hf & Hrel & Hp & _).
    cbn [mbind outcome_bind]. eexists r, i', s', pre, q, e', raw'. do 3 (split; [done|]). split; [done|]. split; [by auto|done].
Qed.

(** ** Calls in a row *)

(** A call of the main loop: whether the line was reset, and what arrived. *)
Record call : Type := MkCall { c_reset : bool; c_new : list serial_rd }.

Fixpoint pump_calls {O} (out_start : O) (cs : list call) (q : list serial_rd) (i : inbound) (o : nlpt O) (s : S)
  : outcome (inbound * nlpt O * S * list serial_rd) :=
  match cs with
  | [] => Ret (i, o, s, q)
  | c :: cs =>
      '(_, i, o, s, q) ← ncp_to_driver_pump I out_start (c_reset c) (q ++ c_new c) i o s;
      pump_calls out_start cs q i o s
  end.

(** What a call that takes [pre] means to the receiver. *)
Definition call_items (c : call) (pre : list serial_rd) : list item := (if c_reset c then [ItReset] else []) ++ map It pre.
Definition taken (cs : list call) (pres : list (list serial_rd)) : list item := concat (zip_with call_items cs pres).

Lemma bytes_in_app a b : bytes_in (a ++ b) <-> bytes_in a /\ bytes_in b.
Proof. apply Forall_app. Qed.

Lemma pump_calls_run {O} (out_start : O) cs : forall q i o (s : S) esc raw,
  in_rel i esc raw -> bytes_in (q ++ concat (map c_new cs)) ->
  exists i' o' s' q' pres esc' raw', pump_calls out_start cs q i o s = Ret (i', o', s', q') /\ length pres = length cs /\
    concat pres ++ q' = q ++ concat (map c_new cs) /\ foldl (receive I) (esc, raw, s) (taken cs pres) = (esc', raw', s') /\ in_rel i' esc' raw'.
Proof.
  induction cs as [|c cs IH]; intros q i o s esc raw Hr Hb.
  { exists i, o, s, q, [], esc, raw. cbn. by rewrite app_nil_r. }
  cbn [map concat] in Hb. rewrite app_assoc in Hb. apply bytes_in_app in Hb as [Hb1 Hb2]. cbn [pump_calls].
  destruct (pump_run out_start (c_reset c) (q ++ c_new c) i o s esc raw Hr Hb1) as (r & i1 & s1 & pre & q1 & e1 & raw1 & -> & Eq & Hf & Hr1 & _).
  cbn [mbind outcome_bind]. rewrite Eq in Hb1. apply bytes_in_app in Hb1 as [_ Hb1].
  destruct (IH q1 i1 (if c_reset c then NLPT_INIT out_start else o) s1 e1 raw1 Hr1) as (i' & o' & s' & q' & pres & e' & raw' & -> & Hl & Hc & Hf' & Hr').
  { apply bytes_in_app. by split. }
  exists i', o', s', q', (pre :: pres), e', raw'. split; [done|]. split; [by cbn; rewrite Hl|]. split; [|split; [|done]].
  - cbn [concat map]. rewrite <- app_assoc, Hc, app_assoc, <- Eq, <- app_assoc. done.
  - unfold taken. cbn [zip_with concat]. rewrite foldl_app. by rewrite (Hf : foldl (receive I) (esc, raw, s) (call_items c pre) = _).
Qed.

(** ** Delivery *)

Definition idle : call := MkCall false [].

Lemma taken_plain cs pres : Forall (fun c => c_reset c = false) cs -> length pres = length cs -> taken cs pres = map It (concat pres).
Proof.
  intros Hc. revert pres. induction Hc as [|c cs Hc _ IH]; intros [|p pres] Hl; try done. unfold taken in *. cbn [zip_with concat].
  rewrite IH by (cbn in Hl; lia). unfold call_items. rewrite Hc. by rewrite map_app.
Qed.

Lemma pump_calls_app {O} (out_start : O) cs1 : forall cs2 q i o (s : S), pump_calls out_start (cs1 ++ cs2) q i o s =
  ('(i, o, s, q) ← pump_calls out_start cs1 q i o s; pump_calls out_start cs2 q i o s).
Proof.
  induction cs1 as [|c cs1 IH]; intros; [done|]. cbn [app pump_calls].
  destruct (ncp_to_driver_pump _ _ _ _ _ _ _) as [[[[[r i1] o1] s1] q1]| |]; [apply IH|done|done].
Qed.

(** Without new input the queue is emptied: a call takes something off it, or leaves
    the start. *)
Definition backlog (i : inbound) (q : list serial_rd) : nat :=
  (2 * length q + if decide (lc (mNCPToDriverPumpPT i) = In_start) then 1 else 0)%nat.

Lemma drain n : forall i (o : nlpt unit) (s : S) q esc raw,
  (forall s, ncp_state_is_detached_from_ncp (get_ncp_state I s) = false) ->
  in_rel i esc raw -> bytes_in q -> (backlog i q <= n)%nat ->
  exists i' o' s', pump_calls tt (replicate n idle) q i o s = Ret (i', o', s', []).
Proof.
  induction n as [|n IH]; intros i o s q esc raw Hup Hr Hb Hn.
  { unfold backlog in Hn. destruct q; [|cbn in Hn; lia]. by exists i, o, s. }
  destruct q as [|x q].
  { destruct (pump_calls_run tt (replicate (Datatypes.S n) idle) [] i o s esc raw Hr) as (i' & o' & s' & q' & pres & e' & raw' & E & _ & Hc & _).
    { apply bytes_in_app. split; [constructor|]. clear. induction n; [constructor|done]. }
    assert (concat (map c_new (replicate (Datatypes.S n) idle)) = []) as E0 by (clear; induction n; [done|exact IHn]).
    rewrite E0 in Hc. apply app_eq_nil in Hc as [_ ->]. by exists i', o', s'. }
  cbn [replicate pump_calls c_reset c_new idle]. rewrite app_nil_r.
  destruct (pump_run tt false (x :: q) i o s esc raw Hr Hb) as (r & i1 & s1 & pre & q1 & e1 & raw1 & -> & Eq & _ & Hr1 & Hp & Hs).
  rewrite Eq in Hb. cbn [mbind outcome_bind]. apply (IH i1 o s1 q1 e1 raw1 Hup Hr1); [by apply bytes_in_app in Hb as [_ Hb]|].
  unfold backlog in *. rewrite Eq, length_app in Hn. destruct (decide (lc (mNCPToDriverPumpPT i) = In_start)) as [E|E].
  - rewrite (Hs E (Hup s1)). destruct (decide (In_yield = In_start)); [done|lia].
  - specialize (Hp eq_refl E ltac:(done)). destruct pre as [|y pre]; [done|]. cbn [length] in Hn. destruct (decide (_ = In_start)); lia.
Qed.

(** ** Frames on the line *)

Definition wire (d : list Z) : list serial_rd := map Got (Hdlc.frame_of (Hdlc.sealed d)).

Lemma receive_escaped l : forall raw (s : S), (length raw + length l <= 1300)%nat ->
  foldl (receive I) (false, raw, s) (map (fun b => It (Got b)) (Hdlc.escaped l)) = (false, raw ++ l, s).
Proof.
  induction l as [|c l IH]; intros raw s Hl; [by rewrite app_nil_r|]. change (Hdlc.escaped (c :: l)) with (Hdlc.esc c ++ Hdlc.escaped l).
  cbn [length] in Hl. rewrite map_app, foldl_app.
  assert (foldl (receive I) (false, raw, s) (map (fun b => It (Got b)) (Hdlc.esc c)) = (false, raw ++ [c], s)) as ->.
  { unfold Hdlc.esc. assert ((1300 <=? length raw)%nat = false) as El by (apply Nat.leb_gt; lia). destruct (Hdlc.hdlc_byte_needs_escape c) eqn:E.
    - apply Hdlc.needs_escape_cases in E. destruct E as [->|[->|[->|[->| ->]]]]; cbn -[Nat.leb app]; rewrite El; reflexivity.
    - apply Hdlc.no_escape_neq in E as [E1 E2]. cbn [map foldl receive]. rewrite (E1 : (c =? HDLC_BYTE_FLAG) = false), (E2 : (c =? HDLC_BYTE_ESC) = false).
      cbn [negb andb]. by rewrite El. }
  rewrite IH by (rewrite length_app; cbn; lia). by rewrite <- app_assoc.
Qed.

Lemma receive_frame d (s : S) : (0 < length d <= 1298)%nat ->
  foldl (receive I) (false, [], s) (map It (wire d)) = (false, [], dispatch I d s).
Proof.
  intros Hd. unfold wire, Hdlc.frame_of. rewrite map_map. cbn [map foldl]. change (receive I (false, [], s) (It (Got Hdlc.HDLC_BYTE_FLAG))) with (false, @nil Z, s).
  assert (length (Hdlc.sealed d) = length d + 2)%nat as Hl by (unfold Hdlc.sealed; by rewrite length_app).
  rewrite map_app, foldl_app, receive_escaped by (cbn [length]; lia). cbn [map foldl app].
  change (receive I (false, Hdlc.sealed d, s) (It (Got Hdlc.HDLC_BYTE_FLAG))) with (false, @nil Z, hand_over I (Hdlc.sealed d) s). f_equal.
  unfold hand_over. rewrite (proj2 (Nat.leb_gt _ _)) by lia. rewrite Hdlc.sealed_clip. by rewrite bool_decide_eq_true_2.
Qed.

(** A frame of 1299 or 1300 bytes, for which there is no room with its checksum, is
    dropped, and the receiver is ready for the next. *)
Lemma receive_long d (s : S) : (1298 < length d <= 1300)%nat ->
  foldl (receive I) (false, [], s) (map It (wire d)) = (false, [], s).
Proof.
  intros Hd. unfold wire, Hdlc.frame_of. rewrite map_map. cbn [map foldl]. change (receive I (false, [], s) (It (Got Hdlc.HDLC_BYTE_FLAG))) with (false, @nil Z, s).
  assert (length (Hdlc.sealed d) = length d + 2)%nat as Hl by (unfold Hdlc.sealed; by rewrite length_app).
  assert (exists l c r, Hdlc.sealed d = l ++ c :: r /\ length l = 1300%nat /\ (length r <= 1)%nat) as (l & c & r & -> & Hl1 & Hr).
  { exists (take 1300 (Hdlc.sealed d)). destruct (drop 1300 (Hdlc.sealed d)) as [|c r] eqn:E; apply (f_equal length) in E as El;
      rewrite length_drop in El; cbn [length] in El; [lia|]. exists c, r. rewrite <- E, take_drop, length_take. split; [done|lia]. }
  change (l ++ c :: r) with (l ++ [c] ++ r). rewrite !Hdlc.escaped_app, !map_app, !foldl_app, receive_escaped by (cbn [length]; lia).
  assert (foldl (receive I) (false, [] ++ l, s) (map (fun b => It (Got b)) (Hdlc.escaped [c])) = (false, [], s)) as ->.
  { cbn [app]. assert ((1300 <=? length l)%nat = true) as El by (apply Nat.leb_le; lia). unfold Hdlc.escaped. cbn [map concat]. rewrite app_nil_r. unfold Hdlc.esc.
    destruct (Hdlc.hdlc_byte_needs_escape c) eqn:E.
    - apply Hdlc.needs_escape_cases in E. destruct E as [->|[->|[->|[->| ->]]]]; cbn -[Nat.leb app]; rewrite El; reflexivity.
    - apply Hdlc.no_escape_neq in E as [E1 E2]. cbn [map foldl receive]. rewrite (E1 : (c =? HDLC_BYTE_FLAG) = false), (E2 : (c =? HDLC_BYTE_ESC) = false).
      cbn [negb andb]. by rewrite El. }
  rewrite receive_escaped by (cbn [length]; lia). cbn [map foldl app].
  change (receive I (false, r, s) (It (Got Hdlc.HDLC_BYTE_FLAG))) with (false, @nil Z, hand_over I r s).
  unfold hand_over. by rewrite (proj2 (Nat.leb_le _ _)) by lia.
Qed.

(** *** Messages of Spinel *)

(** The first byte holds the flag, the interface 0 and a transaction; the command
    follows, seven bits to a byte, and then what belongs to it. *)
Record message : Type := MkMsg { m_tid : Z; m_command : Z; m_body : list Z }.

Definition packed (n : Z) : list Z :=
  if n <? 128 then [n]
  else if n <? 16384 then [128 + n mod 128; n / 128]
  else [128 + n mod 128; 128 + n / 128 mod 128; n / 16384].

Definition spinel_message (m : message) : list Z := (0x80 + m_tid m) :: packed (m_command m) ++ m_body m.

(** A message as a co-processor may send it: a frame has at most 1300 bytes. *)
Record message_ok (m : message) : Prop := MkMessageOk {
  mo_tid : 0 <= m_tid m < 16;
  mo_command : 0 <= m_command m < SPINEL_MAX_UINT_PACKED;
  mo_body : is_bytes (m_body m);
  mo_size : zlen (spinel_message m) <= SPINEL_FRAME_MAX_SIZE
}.

Definition fits (m : message) : bool := zlen (spinel_message m) <=? 1298.

Definition deliver (s : S) (m : message) : S := handle_ncp_spinel_callback I (m_command m) (spinel_message m) s.

Lemma land_7f b : Z.land b 0x7F = b mod 128.
Proof. apply (Z.land_ones b 7). lia. Qed.

Lemma land_80 b : 0 <= b < 256 -> Z.land b 0x80 = if b <? 128 then 0 else 0x80.
Proof.
  intros Hb. assert (forallb (fun n => Z.land (Z.of_nat n) 0x80 =? if Z.of_nat n <? 128 then 0 else 0x80) (seq 0 256) = true) as E by reflexivity.
  rewrite forallb_forall in E. specialize (E (Z.to_nat b)). rewrite Z2Nat.id in E by lia. apply Z.eqb_eq, E. apply in_seq. lia.
Qed.

(** One step of the decoder, on a byte below or above 128. *)
Lemma uint_decode_step b rest i v k : 0 <= b < 256 -> 0 <= i <= 14 -> 0 <= v < 2 ^ i ->
  uint_decode (b :: rest) i v k =
    if b <? 128 then Some (k + 1, v + b * 2 ^ i) else uint_decode rest (i + 7) (v + (b - 128) * 2 ^ i) (k + 1).
Proof.
  intros Hb Hi Hv. cbn [uint_decode]. rewrite (proj2 (Z.leb_gt 32 i)) by lia. rewrite land_7f, land_80 by done.
  assert (2 ^ i <= 2 ^ 14) as Hp by (apply Z.pow_le_mono_r; lia). change (2 ^ 14) with 16384 in Hp. pose proof (Z.mod_pos_bound b 128 ltac:(lia)).
  assert (u32 (Z.shiftl (b mod 128) i) = Z.shiftl (b mod 128) i) as ->.
  { unfold u32. apply Z.mod_small. rewrite Z.shiftl_mul_pow2 by lia. change (2 ^ 32) with 4294967296. nia. }
  rewrite lor_shiftl by lia. destruct (Z.ltb_spec b 128).
  - by rewrite (Z.mod_small b 128) by lia.
  - rewrite Z.eqb_refl. do 2 f_equal. replace (b mod 128) with (b - 128); [done|]. apply (Z.mod_unique b 128 1); lia.
Qed.

Lemma uint_decode_packed n body : 0 <= n < SPINEL_MAX_UINT_PACKED ->
  exists k, 0 < k /\ uint_decode (packed n ++ body) 0 0 0 = Some (k, n).
Proof.
  unfold SPINEL_MAX_UINT_PACKED, packed. intros Hn. pose proof (Z.div_mod n 128 ltac:(lia)). pose proof (Z.mod_pos_bound n 128 ltac:(lia)).
  pose proof (Z.div_mod (n / 128) 128 ltac:(lia)). pose proof (Z.mod_pos_bound (n / 128) 128 ltac:(lia)).
  assert (n / 128 / 128 = n / 16384) as E by (by rewrite Z.div_div by lia).
  destruct (Z.ltb_spec n 128); [|destruct (Z.ltb_spec n 16384)]; cbn [app].
  - exists 1. split; [done|]. rewrite uint_decode_step by (cbn; lia). rewrite (proj2 (Z.ltb_lt n 128)) by done. do 2 f_equal. cbn. lia.
  - exists 2. split; [done|]. assert (0 <= n / 128 < 128) by lia.
    rewrite uint_decode_step by (cbn; lia). rewrite (proj2 (Z.ltb_ge _ 128)) by lia.
    rewrite uint_decode_step by (cbn; lia). rewrite (proj2 (Z.ltb_lt (n / 128) 128)) by lia. do 2 f_equal. cbn. lia.
  - exists 3. split; [done|]. assert (0 <= n / 16384 < 128) by lia.
    rewrite uint_decode_step by (cbn; lia). rewrite (proj2 (Z.ltb_ge _ 128)) by lia.
    rewrite uint_decode_step by (cbn; lia). rewrite (proj2 (Z.ltb_ge _ 128)) by lia.
    rewrite uint_decode_step by (cbn; lia). rewrite (proj2 (Z.ltb_lt (n / 16384) 128)) by lia. do 2 f_equal. cbn. lia.
Qed.

Lemma message_bytes m : message_ok m -> is_bytes (spinel_message m).
Proof.
  intros [Ht Hc Hb _]. unfold spinel_message, SPINEL_MAX_UINT_PACKED in *. apply Forall_cons_2; [unfold is_byte; lia|]. apply Forall_app. split; [|done].
  unfold packed, is_byte. pose proof (Z.mod_pos_bound (m_command m) 128 ltac:(lia)). pose proof (Z.mod_pos_bound (m_command m / 128) 128 ltac:(lia)).
  assert (m_command m / 16384 < 128) by (apply Z.div_lt_upper_bound; lia). pose proof (Z.div_pos (m_command m) 16384). pose proof (Z.div_pos (m_command m) 128).
  destruct (Z.ltb_spec (m_command m) 128); [|destruct (Z.ltb_spec (m_command m) 16384)];
    repeat (apply Forall_cons_2; [unfold is_byte; try lia|]); try apply Forall_nil_2.
  assert (m_command m / 128 < 128) by (apply Z.div_lt_upper_bound; lia). lia.
Qed.

Lemma dispatch_message m (s : S) : message_ok m -> dispatch I (spinel_message m) s = deliver s m.
Proof.
  intros [Ht Hc _ _]. unfold dispatch, accepted, deliver. destruct (uint_decode_packed (m_command m) (m_body m) Hc) as (k & Hk & E).
  unfold spinel_message at 1. cbn [unpack_Ci]. rewrite E, (proj2 (Z.ltb_lt (m_command m) _)) by lia. rewrite (proj2 (Z.ltb_lt 0 (1 + k))) by lia.
  assert (forallb (fun n => let h := 0x80 + Z.of_nat n in (Z.land h SPINEL_HEADER_FLAG =? SPINEL_HEADER_FLAG) && (SPINEL_HEADER_GET_IID h =? 0)) (seq 0 16) = true)
    as Eh by reflexivity.
  rewrite forallb_forall in Eh. specialize (Eh (Z.to_nat (m_tid m)) ltac:(apply in_seq; lia)). cbn beta zeta in Eh. rewrite Z2Nat.id in Eh by lia.
  apply andb_true_iff in Eh as [-> ->]. done.
Qed.

Lemma receive_messages ms : forall s : S, Forall message_ok ms ->
  foldl (receive I) (false, [], s) (map It (concat (map (wire ∘ spinel_message) ms))) = (false, [], foldl deliver s (List.filter fits ms)).
Proof.
  induction ms as [|m ms IH]; intros s Hm; [done|]. apply Forall_cons_iff in Hm as [Hm Hms]. cbn [map concat List.filter compose].
  pose proof (mo_size m Hm) as Hsz. unfold zlen, SPINEL_FRAME_MAX_SIZE in Hsz.
  assert (0 < length (spinel_message m))%nat by (cbn; lia).
  rewrite map_app, foldl_app. unfold fits at 1, zlen. destruct (Z.leb_spec (Z.of_nat (length (spinel_message m))) 1298).
  - unfold compose. rewrite receive_frame by lia. cbn [foldl]. rewrite dispatch_message by done. by apply IH.
  - unfold compose. rewrite receive_long by lia. by apply IH.
Qed.

Lemma esc_bytes c : is_byte c -> is_bytes (Hdlc.esc c).
Proof. intros Hc. unfold Hdlc.esc. destruct (Hdlc.hdlc_byte_needs_escape c); [apply Forall_cons_2; [done|]|]; apply Forall_singleton; [by apply lxor_byte|done]. Qed.

Lemma wire_frame_bytes d : is_bytes d -> is_bytes (Hdlc.frame_of (Hdlc.sealed d)).
Proof.
  intros Hd. assert (is_bytes (Hdlc.sealed d)) as Hs.
  { apply Forall_app. split; [done|]. unfold Hdlc.crc_bytes. apply Forall_cons_2; [apply land_ff_byte|]. apply Forall_singleton, land_ff_byte. }
  unfold Hdlc.frame_of. apply Forall_cons_2; [done|]. apply Forall_app. split; [|by apply Forall_singleton].
  unfold Hdlc.escaped. induction Hs as [|c l Hc _ IH]; [constructor|]. cbn [map concat]. apply Forall_app. split; [by apply esc_bytes|done].
Qed.

(** C3: Whatever arrives and however it is cut into calls, the inbound pump of the
    daemon acts as a receiver of frames: every call returns, takes a prefix of what has
    arrived, and the rest of the daemon is given exactly the frames with a correct
    checksum, the text, the errors and the resets that the receiver finds in what was
    taken; nothing arrived is lost or read twice, and no byte is stored outside the
    frame buffer. *)
Theorem ncp_pump_refines_receiver {O} (out_start : O) cs i o (s : S) :
  in_ok i -> lc (mNCPToDriverPumpPT i) = In_start -> bytes_in (concat (map c_new cs)) ->
  exists i' o' s' q' pres esc' raw', pump_calls out_start cs [] i o s = Ret (i', o', s', q') /\ length pres = length cs /\
    concat pres ++ q' = concat (map c_new cs) /\ foldl (receive I) (false, [], s) (taken cs pres) = (esc', raw', s') /\
    length (mInboundFrame i') = 1300%nat.
Proof.
  intros Hi Hl Hb. destruct (pump_calls_run out_start cs [] i o s false []) as (i' & o' & s' & q' & pres & e' & raw' & E & Hp & Hc & Hf & [Hlen _] & _);
    [split; [done|]; by rewrite Hl|done|]. by exists i', o', s', q', pres, e', raw'.
Qed.

(** C2: Messages sent to a daemon that stays attached are delivered: when the frames of
    a list of Spinel messages, each of at most 1300 bytes as the protocol allows, arrive on a line
    without errors and resets, in pieces of any size, and the main loop goes on calling
    the pump, the handler of the daemon is called for every message of up to 1298 bytes,
    with its command and its bytes, in the order they were sent, and for nothing else;
    messages of 1299 and 1300 bytes, which do not fit with their checksum, are dropped
    without harm to the others.  Nothing is left unread after two calls per byte and one
    more. *)
Theorem ncp_pump_delivers ms cs n i (o : nlpt unit) (s : S) :
  (forall s, ncp_state_is_detached_from_ncp (get_ncp_state I s) = false) ->
  in_ok i -> lc (mNCPToDriverPumpPT i) = In_start -> Forall message_ok ms ->
  let sent := concat (map (wire ∘ spinel_message) ms) in
  concat (map c_new cs) = sent -> Forall (fun c => c_reset c = false) cs ->
  (2 * length sent + 1 <= n)%nat ->
  exists i' o', pump_calls tt (cs ++ replicate n idle) [] i o s = Ret (i', o', foldl deliver s (List.filter fits ms), []).
Proof.
  intros Hup Hi Hl Hd sent Hc Hnr Hn.
  assert (bytes_in sent) as Hb.
  { clear -Hd. subst sent. induction Hd as [|m ms Hm _ IH]; [constructor|]. cbn [map concat]. apply bytes_in_app. split; [|done].
    apply Forall_map. by apply wire_frame_bytes, message_bytes. }
  assert (in_rel i false []) as Hr by (split; [done|]; by rewrite Hl). rewrite <- Hc in Hb.
  destruct (pump_calls_run tt cs [] i o s false [] Hr Hb) as (i1 & o1 & s1 & q1 & pres & e1 & raw1 & E & Hp & Hcon & Hf & Hr1).
  cbn [app] in Hcon. rewrite <- Hcon in Hb. apply bytes_in_app in Hb as [_ Hb].
  destruct (drain n i1 o1 s1 q1 e1 raw1 Hup Hr1 Hb) as (i' & o' & s' & E').
  { unfold backlog. rewrite <- Hc, <- Hcon, length_app in Hn. destruct (decide _); lia. }
  destruct (pump_calls_run tt (replicate n idle) q1 i1 o1 s1 e1 raw1 Hr1) as (i2 & o2 & s2 & q2 & pres2 & e2 & raw2 & E2 & Hp2 & Hcon2 & Hf2 & _).
  { apply bytes_in_app. split; [done|]. clear. induction n; [constructor|done]. }
  rewrite E' in E2. injection E2 as <- <- <- <-.
  assert (concat (map c_new (replicate n idle)) = []) as E0 by (clear; induction n; [done|exact IHn]). rewrite E0, !app_nil_r in Hcon2.
  rewrite taken_plain in Hf, Hf2 by (done || (clear; induction n; by constructor)).
  exists i', o'. rewrite pump_calls_app, E. cbn [mbind outcome_bind]. rewrite E'. do 2 f_equal. f_equal.
  pose proof (receive_messages ms s Hd) as Hfr. fold sent in Hfr. rewrite <- Hc, <- Hcon, map_app, foldl_app, Hf, <- Hcon2, Hf2 in Hfr.
  by injection Hfr as _ _ ->.
Qed.
End Refinement.



(** ** Framing into the buffer *)

Section Framing.
Context (o : outbound) (Ho : length (mOutboundBufferEscaped o) = 2600%nat).

(** The bytes [pre] are in the buffer, and [l] is added. *)
Definition filled (pre : list Z) : outbound := out_escaped (pre ++ drop (length pre) (mOutboundBufferEscaped o)) (zlen pre) o.
Definition emit (pre l : list Z) : outcome outbound :=
  if zlen pre + zlen l <=? 2600 then Ret (filled (pre ++ l)) else Undef OutOfBounds.

Lemma emit_then {A} pre l1 l2 (f : outbound -> outcome A) (g : outbound -> outcome A) :
  (zlen pre + zlen l1 <= 2600 -> f (filled (pre ++ l1)) = (o ← emit (pre ++ l1) l2; g o)) ->
  (o ← emit pre l1; f o) = (o ← emit pre (l1 ++ l2); g o).
Proof.
  intros Hf. unfold emit in *. rewrite (zlen_app pre l1) in Hf. rewrite (zlen_app l1 l2). pose proof (zlen_nonneg l2).
  destruct (Z.leb_spec (zlen pre + zlen l1) 2600) as [Hl|Hl]; cbn [mbind outcome_bind].
  - rewrite (Hf Hl). replace (zlen pre + zlen l1 + zlen l2) with (zlen pre + (zlen l1 + zlen l2)) by lia.
    by rewrite <- app_assoc.
  - destruct (Z.leb_spec (zlen pre + (zlen l1 + zlen l2)) 2600); [lia|done].
Qed.

Lemma put_run pre b : zlen pre <= 2600 -> put (filled pre) b = emit pre [b].
Proof.
  intros Hp. unfold put, emit. change (zlen [b]) with 1. cbn [filled out_escaped mOutboundBufferEscaped mOutboundBufferEscapedLen].
  destruct (Z.leb_spec (zlen pre + 1) 2600) as [Hl|Hl].
  - destruct (drop (length pre) (mOutboundBufferEscaped o)) as [|x post] eqn:E.
    { apply (f_equal length) in E. rewrite length_drop, Ho in E. cbn in E. unfold zlen in Hl. lia. }
    rewrite mem_write_mid. cbn [mbind outcome_bind]. unfold filled. rewrite zlen_app, length_app, <- app_assoc. cbn [length app].
    rewrite Nat.add_1_r. replace (drop (Datatypes.S (length pre)) (mOutboundBufferEscaped o)) with post; [done|].
    replace (Datatypes.S (length pre)) with (length pre + 1)%nat by lia. rewrite <- drop_drop, E. done.
  - unfold mem_write. rewrite !zlen_app. change (zlen [b]) with 1. assert (zlen (drop (length pre) (mOutboundBufferEscaped o)) = 0) as ->
      by (unfold zlen in *; rewrite length_drop; lia). rewrite Z.add_0_r. rewrite (proj2 (Z.leb_gt (zlen pre + 1) (zlen pre))) by lia. by rewrite andb_false_r.
Qed.

Lemma put_escaped_run pre c : zlen pre <= 2600 -> put_escaped (filled pre) c = emit pre (Hdlc.esc c).
Proof.
  intros Hp. unfold put_escaped, Hdlc.esc. change (hdlc_byte_needs_escape c) with (Hdlc.hdlc_byte_needs_escape c).
  destruct (Hdlc.hdlc_byte_needs_escape c); [|by apply put_run]. rewrite put_run by done.
  change [Hdlc.HDLC_BYTE_ESC; ?x] with ([Hdlc.HDLC_BYTE_ESC] ++ [x]).
  transitivity (o ← emit pre ([Hdlc.HDLC_BYTE_ESC] ++ [Z.lxor c Hdlc.HDLC_ESCAPE_XFORM]); Ret o); [|by destruct (emit _ _)].
  apply emit_then. intros Hl. rewrite put_run by (by rewrite zlen_app). by destruct (emit _ _).
Qed.

Lemma escape_loop_run data : forall pre crc, zlen pre <= 2600 ->
  escape_loop data crc (filled pre) = (o ← emit pre (Hdlc.escaped data); Ret (foldl Hdlc.hdlc_crc16 crc data, o)).
Proof.
  induction data as [|c data IH]; intros pre crc Hp; cbn [escape_loop].
  { unfold emit. change (zlen (Hdlc.escaped [])) with 0. rewrite (proj2 (Z.leb_le _ _)) by lia. cbn. by rewrite app_nil_r. }
  rewrite put_escaped_run by done. change (Hdlc.escaped (c :: data)) with (Hdlc.esc c ++ Hdlc.escaped data).
  apply emit_then. intros Hl. rewrite IH by (by rewrite zlen_app). done.
Qed.

(** The whole frame is in the buffer if it fits; otherwise the code writes past it. *)
Lemma frame_out_run d :
  mem_read (mOutboundBuffer o) 0 (mOutboundBufferLen o) = Ret d ->
  frame_out o = (o ← emit [] (Hdlc.frame_of (Hdlc.sealed d)); Ret (out_sent 0 o)).
Proof.
  intros Hd. unfold frame_out. assert (out_escaped (mOutboundBufferEscaped o) 0 o = filled []) as -> by done.
  rewrite put_run by done. unfold Hdlc.frame_of, Hdlc.sealed. rewrite Hdlc.escaped_app.
  change (Hdlc.HDLC_BYTE_FLAG :: ?l) with ([HDLC_BYTE_FLAG] ++ l). apply emit_then. intros H1.
  cbn [filled out_escaped mOutboundBuffer mOutboundBufferLen]. rewrite Hd. cbn [mbind outcome_bind app].
  change (out_escaped ([HDLC_BYTE_FLAG] ++ _) _ o) with (filled [HDLC_BYTE_FLAG]).
  rewrite escape_loop_run by done. rewrite bind_assoc_out. rewrite <- !app_assoc. apply emit_then. intros H2.
  cbn [mbind outcome_bind]. fold (Hdlc.fcs_of d). rewrite put_escaped_run by (by rewrite zlen_app).
  unfold Hdlc.crc_bytes. cbn [Hdlc.escaped map concat]. rewrite app_nil_r, <- app_assoc. apply emit_then. intros H3.
  rewrite put_escaped_run by (rewrite zlen_app; by rewrite zlen_app in H3 |- *). apply emit_then. intros H4.
  rewrite put_run by (by rewrite zlen_app). done.
Qed.

End Framing.

(** ** Sending *)

(** Calls in a row: each with the answers of the devices that are new. *)
Section Sending.
Context {S : Type} (N : net S).

Definition more (dv new : devices) : devices :=
  MkDev (d_primary dv ++ d_primary new) (d_legacy dv ++ d_legacy new) (d_writes dv ++ d_writes new).

Fixpoint out_calls (cs : list devices) (dv : devices) (o : outbound) (s : S) : outcome (outbound * S * devices * list Z) :=
  match cs with
  | [] => Ret (o, s, dv, [])
  | c :: cs =>
      '(_, o, s, dv, l) ← driver_to_ncp_pump N (more dv c) o s;
      '(o, s, dv, l') ← out_calls cs dv o s;
      Ret (o, s, dv, l ++ l')
  end.

(** The line only: writes that take some bytes each. *)
Definition writing (ns : list Z) : devices := MkDev [] [] (map Wrote ns).

Lemma more_writing a b : more (writing a) (writing b) = writing (a ++ b).
Proof. unfold more, writing. cbn. by rewrite map_app. Qed.

(** A frame is in the second buffer, and [k] bytes of it are written. *)
Record mid_frame (w : list Z) (k : nat) (o : outbound) : Prop := MkMid {
  mf_frame : take (length w) (mOutboundBufferEscaped o) = w;
  mf_size : length (mOutboundBufferEscaped o) = 2600%nat;
  mf_len : mOutboundBufferEscapedLen o = zlen w;
  mf_fits : (k <= length w)%nat;
  mf_count : byte_count (mDriverToNCPPumpPT o) = Z.of_nat k;
  mf_errno : last_errno (mDriverToNCPPumpPT o) = 0
}.

Definition sum (ns : list Z) : Z := foldr Z.add 0 ns.
Definition positive (ns : list Z) : Prop := Forall (fun n => 0 < n) ns.

(** The frame is out, and the pump waits for the next. *)
Record sent (c : bool) (s : S) (o' : outbound) (s' : S) : Prop := MkSent {
  sn_lc : lc (mDriverToNCPPumpPT o') = Out_yield \/ lc (mDriverToNCPPumpPT o') = Out_yield2;
  sn_len : mOutboundBufferLen o' = 0;
  sn_callback : mOutboundCallback o' = false;
  sn_size : length (mOutboundBufferEscaped o') = 2600%nat;
  sn_state : s' = if c then outbound_callback N kWPANTUNDStatus_Ok s else s
}.

Context (Hup : forall s, ncp_state_is_detached_from_ncp (get_ncp_state (n_ncp N) s) = false).

Lemma write_end_run w k o s : mid_frame w k o ->
  exists r o' s', write_end N o s = (r, o', s') /\ sent (mOutboundCallback o) s o' s'.
Proof.
  intros [_ Hsz _ _ _ He]. unfold write_end. cbn [out_sent out_len out_buffer mDriverToNCPPumpPT]. rewrite He. cbn [Z.eqb negb].
  unfold out_next, out_round, fire. cbn [out_sent out_len out_buffer mOutboundCallback].
  destruct (mOutboundCallback o) eqn:Ec; rewrite Hup; cbn; rewrite ?Ec; cbn;
    (destruct (_ && _); eexists _, _, _; (split; [done|]); constructor; cbn; auto).
Qed.

Lemma write_loop_run w ns : forall k o s, mid_frame w k o -> positive ns ->
  if Z.of_nat k + sum ns <? zlen w then
    exists o', write_loop N (map Wrote ns) o s = Ret (PT_WAITING, o', s, [], take (Z.to_nat (sum ns)) (drop k w)) /\
      mid_frame w (k + Z.to_nat (sum ns)) o' /\ lc (mDriverToNCPPumpPT o') = Out_write /\ mOutboundCallback o' = mOutboundCallback o /\
      0 <= sum ns
  else exists r o' s' ns', write_loop N (map Wrote ns) o s = Ret (r, o', s', map Wrote ns', drop k w) /\ sent (mOutboundCallback o) s o' s' /\ positive ns'.
Proof.
  induction ns as [|n ns IH]; intros k o s Hm Hp; pose proof Hm as [Hf Hsz Hl Hk Hc He].
  - cbn [sum foldr map write_loop]. rewrite Z.add_0_r, Hl, Hc. destruct (Z.ltb_spec (Z.of_nat k) (zlen w)), (Z.ltb_spec 0 (zlen w - Z.of_nat k)); try lia.
    + eexists. split; [done|]. rewrite Nat.add_0_r. split; [by constructor|]. done.
    + destruct (write_end_run w k o s Hm) as (r & o' & s' & -> & Hs). exists r, o', s', []. split; [|done].
      rewrite (drop_ge w) by (unfold zlen in *; lia). done.
  - apply Forall_cons_iff in Hp as [Hn Hp]. cbn [sum foldr]. fold (sum ns). cbn [map write_loop]. rewrite Hl, Hc.
    assert (0 <= sum ns) as Hpos by (clear -Hp; induction Hp as [|x l Hx _ IH]; [done|]; cbn; unfold sum in IH; lia).
    destruct (Z.ltb_spec 0 (zlen w - Z.of_nat k)) as [Hleft|Hleft].
    2:{ rewrite (proj2 (Z.ltb_ge _ _)) by lia. destruct (write_end_run w k o s Hm) as (r & o' & s' & -> & Hs). exists r, o', s', (n :: ns).
        rewrite (drop_ge w) by (unfold zlen in *; lia). split; [done|]. split; [done|by constructor]. }
    set (m := Z.max 0 (Z.min n (zlen w - Z.of_nat k))). assert (0 < m <= n /\ Z.of_nat k + m <= zlen w) as Hm1 by lia.
    assert (mem_read (mOutboundBufferEscaped o) (Z.of_nat k) m = Ret (take (Z.to_nat m) (drop k w))) as ->.
    { pose proof (f_equal length Hf) as Hlw. rewrite length_take in Hlw. rewrite mem_read_ok by (unfold zlen in *; lia). unfold slice. rewrite Nat2Z.id. f_equal.
      rewrite <- Hf at 1. rewrite !take_drop_commute, take_take. do 2 f_equal. unfold zlen in *. lia. }
    cbn [mbind outcome_bind]. set (o1 := out_pt _ o). assert (mid_frame w (k + Z.to_nat m) o1) as Hmid.
    { constructor; cbn; try done; unfold zlen in *; lia. }
    specialize (IH (k + Z.to_nat m)%nat o1 s Hmid Hp). change (mOutboundCallback o1) with (mOutboundCallback o) in IH.
    assert (Z.of_nat (k + Z.to_nat m) = Z.of_nat k + m) as Ek by lia. rewrite Ek in IH.
    destruct (Z.ltb_spec (Z.of_nat k + m + sum ns) (zlen w)), (Z.ltb_spec (Z.of_nat k + (n + sum ns)) (zlen w)); try lia.
    + destruct IH as (o' & -> & Hm' & Hlc & Hcb & _). cbn [mbind outcome_bind]. assert (m = n) as -> by lia. eexists. split; [|split; [|split; [done|split; [done|lia]]]].
      * rewrite Z2Nat.inj_add by lia. rewrite <- drop_drop, take_take_drop. done.
      * by replace (k + Z.to_nat (n + sum ns))%nat with (k + Z.to_nat n + Z.to_nat (sum ns))%nat by lia.
    + destruct IH as (r & o' & s' & ns' & -> & Hs & Hp'). cbn [mbind outcome_bind]. exists r, o', s', ns'. split; [|done].
      by rewrite <- drop_drop, take_drop.
Qed.

(** ** The frame that is sent *)

(** The header of a packet of the network: the property it is sent to. *)
Definition net_frame (type : Z) (p : list Z) : list Z :=
  [Z.lor SPINEL_HEADER_FLAG (if (type =? FRAME_TYPE_DATA) || (type =? FRAME_TYPE_INSECURE_DATA) then SPINEL_HEADER_IID_0 else SPINEL_HEADER_IID_1);
   SPINEL_CMD_PROP_VALUE_SET; if type =? FRAME_TYPE_INSECURE_DATA then SPINEL_PROP_STREAM_NET_INSECURE else SPINEL_PROP_STREAM_NET;
   Z.land (zlen p) 0xFF; Z.land (Z.shiftr (zlen p) 8) 0xFF] ++ p.

(** What is sent first, and what the filter leaves of the daemon: the frame in the
    buffer, or the packet the primary or the legacy interface has, cut to the 1295 bytes
    that are read, with the type the filter gives it unless credentials are needed. *)
Inductive sends (o : outbound) (s : S) : list (option (list Z)) -> list (option (list Z)) -> list Z -> S -> Prop :=
| sends_waiting d : 0 < mOutboundBufferLen o -> mem_read (mOutboundBuffer o) 0 (mOutboundBufferLen o) = Ret d -> sends o s [] [] d s
| sends_packet (legacy : bool) p type s1 : mOutboundBufferLen o <= 0 -> (0 < length p)%nat -> length (mOutboundBuffer o) = 1300%nat ->
    (legacy = true -> mLegacyInterface N = true /\ lc (mDriverToNCPPumpPT o) = Out_yield2) ->
    should_forward_ncpbound_frame N (if legacy then FRAME_TYPE_LEGACY_DATA else FRAME_TYPE_DATA) (take 1295 p) s = (true, type, s1) ->
    sends o s (if legacy then [] else [Some p]) (if legacy then [Some p] else [])
      (net_frame (if bool_decide (get_ncp_state (n_ncp N) s1 = CREDENTIALS_NEEDED) then FRAME_TYPE_INSECURE_DATA else type) (take 1295 p)) s1.

Lemma pick_run o s ps ls d s1 ws : sends o s ps ls d s1 ->
  exists o1, pick N (MkDev ps ls ws) o s = Ret (Send, o1, s1, MkDev [] [] ws) /\ mem_read (mOutboundBuffer o1) 0 (mOutboundBufferLen o1) = Ret d /\
    mOutboundBufferEscaped o1 = mOutboundBufferEscaped o /\ mOutboundCallback o1 = mOutboundCallback o.
Proof.
  destruct 1 as [d Hl Hr|legacy p0 type s1 Hl Hp0 Hb Hleg Hfwd]; unfold pick.
  { rewrite (proj2 (Z.ltb_lt 0 _)) by done. by exists o. }
  rewrite (proj2 (Z.ltb_ge 0 _)) by done. set (p := take 1295 p0) in *.
  assert (0 < length p <= 1295)%nat as Hp by (unfold p; rewrite length_take; lia).
  match goal with |- context [mbind _ ?m] => assert (m = ('b ← mem_write (mOutboundBuffer o) 5 p;
    Ret (out_buffer b (if legacy then FRAME_TYPE_LEGACY_DATA else FRAME_TYPE_DATA) (zlen p) o, MkDev [] [] ws))) as -> end.
  { destruct legacy; [rewrite (proj1 (Hleg eq_refl))|]; cbn [d_primary d_legacy d_writes read_packet];
      change (take (Z.to_nat (SPINEL_FRAME_BUFFER_SIZE - 5)) p0) with p; by destruct (mem_write _ _ _). }
  assert (exists h r, mOutboundBuffer o = h ++ r /\ length h = 5%nat) as (h & r & Eb & Hh)
    by (exists (take 5 (mOutboundBuffer o)), (drop 5 (mOutboundBuffer o)); split; [by rewrite take_drop|by rewrite length_take, Hb]).
  assert (exists x y, r = x ++ y /\ length x = length p) as (x & y & -> & Hx).
  { exists (take (length p) r), (drop (length p) r). split; [by rewrite take_drop|]. rewrite length_take. rewrite Eb, length_app in Hb. lia. }
  assert (mem_write (mOutboundBuffer o) 5 p = Ret (h ++ p ++ y)) as ->.
  { rewrite Eb. replace 5 with (zlen h) by (unfold zlen; lia). by apply mem_write_piece. }
  cbn [mbind outcome_bind out_buffer mOutboundBufferLen mOutboundBuffer mOutboundBufferType].
  rewrite (proj2 (Z.ltb_ge _ 0)), (proj2 (Z.leb_gt _ 0)) by (unfold zlen; lia).
  assert (mem_read (h ++ p ++ y) 5 (zlen p) = Ret p) as -> by (replace 5 with (zlen h) by (unfold zlen; lia); apply mem_read_mid).
  cbn [mbind outcome_bind]. rewrite Hfwd. cbn [negb].
  destruct h as [|h0 [|h1 [|h2 [|h3 [|h4 [|]]]]]]; try discriminate Hh. set (t := if bool_decide _ then _ else _).
  change ([h0; h1; h2; h3; h4] ++ p ++ y) with ([h0; h1; h2] ++ [h3; h4] ++ p ++ y).
  rewrite (mem_write_piece [h0; h1; h2] [h3; h4] (p ++ y) [Z.land (zlen p) 0xFF; Z.land (Z.shiftr (zlen p) 8) 0xFF] eq_refl : mem_write _ 3 _ = _). cbn [mbind outcome_bind].
  match goal with |- context [mem_write ([h0; h1; h2] ++ ?b) 0 ?d'] => rewrite (mem_write_piece [] [h0; h1; h2] b d' eq_refl : mem_write ([h0; h1; h2] ++ b) 0 d' = _) end. cbn [mbind outcome_bind].
  eexists. split; [done|]. split; [|done]. cbn [out_buffer mOutboundBuffer mOutboundBufferLen].
  rewrite <- (mem_read_mid [] (net_frame t p) y). f_equal. unfold net_frame. rewrite zlen_app. unfold zlen at 2. cbn [length]. lia.
Qed.

(** ** Calls until the frame is out *)

Lemma idle_calls nss : forall ns c s o s', sent c s o s' -> positive ns ->
  Forall positive nss -> exists ns', out_calls (map writing nss) (writing ns) o s' = Ret (o, s', writing ns', []).
Proof.
  induction nss as [|ms nss IH]; intros ns c s o s' Hs Hp Hps; [by exists ns|]. apply Forall_cons_iff in Hps as [Hm Hps].
  cbn [map out_calls]. rewrite more_writing. pose proof Hs as [Hlc Hlen _ _ _].
  assert (driver_to_ncp_pump N (writing (ns ++ ms)) o s' = Ret (PT_YIELDED, o, s', writing (ns ++ ms), [])) as ->.
  { unfold driver_to_ncp_pump. rewrite Hlen. destruct Hlc as [-> | ->]; done. }
  cbn [mbind outcome_bind]. destruct (IH (ns ++ ms) c s o s' Hs ltac:(by apply Forall_app) Hps) as (ns' & ->). by exists ns'.
Qed.

Lemma writing_calls w nss : forall k o s, mid_frame w k o -> lc (mDriverToNCPPumpPT o) = Out_write -> Forall positive nss ->
  zlen w <= Z.of_nat k + sum (concat nss) -> (k < length w)%nat ->
  exists o' s' ns', out_calls (map writing nss) (writing []) o s = Ret (o', s', writing ns', drop k w) /\ sent (mOutboundCallback o) s o' s'.
Proof.
  induction nss as [|ms nss IH]; intros k o s Hm Hlc Hps Hsum Hk.
  { cbn in Hsum. unfold zlen in Hsum. lia. }
  apply Forall_cons_iff in Hps as [Hp Hps]. cbn [map out_calls]. rewrite more_writing. cbn [app]. unfold driver_to_ncp_pump. rewrite Hlc.
  cbn [writing d_primary d_legacy d_writes]. pose proof (write_loop_run w ms k o s Hm Hp) as Hw.
  assert (sum (concat (ms :: nss)) = sum ms + sum (concat nss)) as Es.
  { cbn [concat]. clear. unfold sum. induction ms as [|x ms IH]; [done|]. cbn. lia. }
  destruct (Z.ltb_spec (Z.of_nat k + sum ms) (zlen w)) as [Hlt|Hge].
  - destruct Hw as (o1 & -> & Hm1 & Hlc1 & Hcb & Hpos). cbn [mbind outcome_bind].
    destruct (IH (k + Z.to_nat (sum ms))%nat o1 s Hm1 Hlc1 Hps) as (o' & s' & ns' & E & Hs); [lia|unfold zlen in *; lia|].
    change (MkDev [] [] []) with (writing []). rewrite E. cbn [mbind outcome_bind]. exists o', s', ns'. rewrite Hcb in Hs. split; [|done].
    by rewrite <- drop_drop, take_drop.
  - destruct Hw as (r & o1 & s1 & ns' & -> & Hs & Hp'). cbn [mbind outcome_bind].
    destruct (idle_calls nss ns' _ _ o1 s1 Hs Hp' Hps) as (ns2 & E). change (MkDev [] [] (map Wrote ns')) with (writing ns'). rewrite E.
    cbn [mbind outcome_bind]. exists o1, s1, ns2. by rewrite app_nil_r.
Qed.

(** A frame or a packet is picked up at the next call. *)
Lemma pump_picks o s ps ls d s1 ws : sends o s ps ls d s1 ->
  lc (mDriverToNCPPumpPT o) = Out_yield \/ lc (mDriverToNCPPumpPT o) = Out_yield2 ->
  driver_to_ncp_pump N (MkDev ps ls ws) o s = out_body N (MkDev ps ls ws) o s.
Proof.
  intros Hsd Hlc. unfold driver_to_ncp_pump. destruct Hsd as [? Hl _|legacy p ? ? _ _ _ Hleg _].
  - rewrite (proj2 (Z.ltb_lt 0 _)) by done. by destruct Hlc as [-> | ->].
  - destruct legacy; cbn [d_primary d_legacy].
    + rewrite (proj2 (Hleg eq_refl)). by rewrite orb_true_r.
    + rewrite orb_true_r. by destruct Hlc as [-> | ->].
Qed.


End Sending.

(** C5: The buffer for the escaped frame holds every frame of up to 1297 bytes and,
    whatever the length, exactly those whose framed form has at most 2600 bytes; any
    other is written past its end.  Commands of up to 1299 bytes are let through. *)
Theorem outbound_buffer_bound o d :
  length (mOutboundBufferEscaped o) = 2600%nat -> mem_read (mOutboundBuffer o) 0 (mOutboundBufferLen o) = Ret d ->
  (zlen d <= 1297 -> zlen (Hdlc.frame_of (Hdlc.sealed d)) <= 2600) /\
  (zlen (Hdlc.frame_of (Hdlc.sealed d)) <= 2600 -> exists o', frame_out o = Ret o' /\
     mOutboundBufferEscapedLen o' = zlen (Hdlc.frame_of (Hdlc.sealed d)) /\
     take (length (Hdlc.frame_of (Hdlc.sealed d))) (mOutboundBufferEscaped o') = Hdlc.frame_of (Hdlc.sealed d)) /\
  (2600 < zlen (Hdlc.frame_of (Hdlc.sealed d)) -> frame_out o = Undef OutOfBounds).
Proof.
  intros He Hr. rewrite (frame_out_run o He d Hr). unfold emit. change (zlen []) with 0. cbn [app]. rewrite Z.add_0_l. split; [|split].
  - intros Hd. rewrite Hdlc.zlen_frame. pose proof (Hdlc.zlen_escaped (Hdlc.sealed d)). rewrite Hdlc.zlen_sealed in *. lia.
  - intros Hl. rewrite (proj2 (Z.leb_le _ _)) by lia. cbn [mbind outcome_bind]. eexists. split; [done|]. split; [done|].
    cbn [out_sent filled out_escaped mOutboundBufferEscaped]. rewrite take_app_le by lia. by apply take_ge.
  - intros Hl. by rewrite (proj2 (Z.leb_gt _ _)) by lia.
Qed.

(** ** Instances *)

(** A daemon that keeps a record of what it is given. *)
Inductive event : Type := EvFrame (command : Z) (d : list Z) | EvText (d : list Z) | EvError | EvReset | EvSent (c : cb_status).

Definition recorder : ncp (list event) :=
  MkNcp (fun _ => ASSOCIATED) (fun c d s => s ++ [EvFrame c d]) (fun d s => s ++ [EvText d]) (fun s => s ++ [EvError]) (fun s => s ++ [EvReset]).
Definition recorder_net : net (list event) :=
  MkNet recorder false (fun _ => false) (fun t p s => (bool_decide (head p = Some 0x60), t, s)) (fun c s => s ++ [EvSent c]).

Definition fresh_in : inbound := MkIn (NLPT_INIT In_start) (replicate 1300 0) 0 0 0.
Definition fresh_out (lc : out_lc) (b : list Z) (callback : bool) : outbound :=
  MkOut (NLPT_INIT lc) (b ++ replicate (1300 - length b) 0) 0 (zlen b) 0 (replicate 2600 0) 0 callback.

Lemma ncp_pump_refines_receiver_witness :
  let cs := [MkCall false []; MkCall false [Got 0x7E; Got 1]; MkCall false [Got 0x7D]; MkCall true [Failed; Got 0x7D]; MkCall false [Nothing; Got 0x7E]] in
  exists i' o' s' q' pres esc' raw', pump_calls recorder Out_start cs [] fresh_in (NLPT_INIT Out_write) [] = Ret (i', o', s', q') /\ length pres = 5%nat /\
    concat pres ++ q' = concat (map c_new cs) /\ foldl (receive recorder) (false, [], []) (taken cs pres) = (esc', raw', s') /\
    length (mInboundFrame i') = 1300%nat.
Proof.
  intros cs. apply (ncp_pump_refines_receiver recorder Out_start cs fresh_in (NLPT_INIT Out_write) []).
  - done.
  - done.
  - unfold bytes_in. cbn [cs map concat c_new app]. repeat (apply Forall_cons_2; [done|]). apply Forall_nil_2.
Defined.

Lemma ncp_pump_delivers_witness :
  let ms := [MkMsg 0 6 [0; 0x70]; MkMsg 1 300 [0x7E]] in
  let sent := concat (map (wire ∘ spinel_message) ms) in
  exists i' o', pump_calls recorder tt ([MkCall false (take 3 sent); MkCall false (drop 3 sent)] ++ replicate 50 idle)
    [] fresh_in (NLPT_INIT tt) [] = Ret (i', o', [EvFrame 6 [0x80; 6; 0; 0x70]; EvFrame 300 [0x81; 0xAC; 2; 0x7E]], []).
Proof.
  intros ms sent. apply (ncp_pump_delivers recorder ms [MkCall false (take 3 sent); MkCall false (drop 3 sent)] 50 fresh_in (NLPT_INIT tt) []).
  - done.
  - done.
  - done.
  - repeat (apply Forall_cons_2; [constructor; [cbn; lia|cbn; unfold SPINEL_MAX_UINT_PACKED; lia|by_bytes|by_eval]|]). apply Forall_nil_2.
  - reflexivity.
  - repeat constructor.
  - apply Nat.leb_le. vm_compute. reflexivity.
Defined.


Lemma outbound_buffer_bound_witness :
  let o := fresh_out Out_yield [0x80; 1] true in
  (zlen [0x80; 1] <= 1297 -> zlen (Hdlc.frame_of (Hdlc.sealed [0x80; 1])) <= 2600) /\
  (zlen (Hdlc.frame_of (Hdlc.sealed [0x80; 1])) <= 2600 -> exists o', frame_out o = Ret o' /\
     mOutboundBufferEscapedLen o' = zlen (Hdlc.frame_of (Hdlc.sealed [0x80; 1])) /\
     take (length (Hdlc.frame_of (Hdlc.sealed [0x80; 1]))) (mOutboundBufferEscaped o') = Hdlc.frame_of (Hdlc.sealed [0x80; 1])) /\
  (2600 < zlen (Hdlc.frame_of (Hdlc.sealed [0x80; 1])) -> frame_out o = Undef OutOfBounds).
Proof. intros o. apply (outbound_buffer_bound o [0x80; 1]); reflexivity. Defined.

(** A command of 1299 bytes, which is let through, can overrun the buffer. *)
Example escaped_overrun : frame_out (fresh_out Out_yield (replicate 1299 0x7E) true) = Undef OutOfBounds.
Proof. vm_compute. reflexivity. Qed.

(** A frame that is cut off behind its header is passed on as the command 0. *)
Example header_only_frame :
  exists i' o', pump_calls recorder tt (MkCall false (wire [0x80]) :: replicate 9 idle) [] fresh_in (NLPT_INIT tt) [] =
    Ret (i', o', [EvFrame 0 [0x80]], []).
Proof. eexists _, _. vm_compute. reflexivity. Qed.

(** A pump that starts over with a frame in its buffer tells its sender that the frame
    was canceled, and sends it. *)
Example canceled_but_sent :
  exists o' dv', out_calls recorder_net [MkDev [] [] [Wrote 100]] (writing []) (fresh_out Out_start [0x80; 1] true) [] =
    Ret (o', [EvSent kWPANTUNDStatus_Canceled], dv', Hdlc.frame_of (Hdlc.sealed [0x80; 1])).
Proof. eexists _, _. vm_compute. reflexivity. Qed.

End SpinelPump.
