(* ===== verification/RingBuffer.v ===== *)
(** * The ring buffer of the daemon (src/util/RingBuffer.h)

    A buffer of fixed size with a read index, a write index and a count, which keeps the
    history of packets and states and the bytes of streams.  The class is a template over
    the type of the elements and the size: [A] and [n] here.  Indices and counts are ints
    that stay between zero and the size.  The operations are related to a list of at most
    [n] elements and the place of its first one. *)

From Stdlib Require Import Arith Lia.
From stdpp Require Import base list option numbers.
From S2P Require Import Prelude.

Open Scope nat_scope.

Module RingBuffer.

Section Ring.
Context {A : Type} (n : nat).

Record ring : Type := MkRing { mReadIdx : nat; mWriteIdx : nat; mCount : nat; mBuffer : list A }.

(** ** The code *)

Definition clear (r : ring) : ring := MkRing 0 0 0 (mBuffer r).
Definition size (r : ring) : nat := mCount r.
Definition space_available (r : ring) : nat := n - mCount r.
Definition empty (r : ring) : bool := (mCount r =? 0)%nat.
Definition full (r : ring) : bool := (mCount r =? n)%nat.

(** [data_ptr] with [size_of_data_ptr]: the elements that lie in a row. *)
Definition size_of_data_ptr (r : ring) : nat :=
  if (mReadIdx r <=? mWriteIdx r)%nat then mWriteIdx r - mReadIdx r else n - mReadIdx r.
Definition data_ptr (r : ring) : list A := drop (mReadIdx r) (mBuffer r).

(** A store at the write index. *)
Definition store (v : A) (r : ring) : outcome ring :=
  if (mWriteIdx r <? length (mBuffer r))%nat
  then Ret (MkRing (mReadIdx r) ((mWriteIdx r + 1) mod n) (mCount r) (<[mWriteIdx r := v]> (mBuffer r)))
  else Undef OutOfBounds.
Definition counted (c : nat) (r : ring) : ring := MkRing (mReadIdx r) (mWriteIdx r) c (mBuffer r).

(** [push] throws when there is not enough room: none. *)
Fixpoint push_loop (values : list A) (r : ring) : outcome ring :=
  match values with
  | [] => Ret r
  | v :: values => r ← store v r; push_loop values (counted (mCount r + 1) r)
  end.
Definition push (values : list A) (r : ring) : outcome (option ring) :=
  if (space_available r <? length values)%nat then Ret None
  else r ← push_loop values r; Ret (Some r).

Definition advance_read (r : ring) : ring := MkRing ((mReadIdx r + 1) mod n) (mWriteIdx r) (mCount r - 1) (mBuffer r).

(** [pop]: the number of elements removed. *)
Definition pop (value_count : nat) (r : ring) : nat * ring :=
  let bytes_read := Nat.min value_count (size r) in
  let r := Nat.iter bytes_read advance_read r in
  (bytes_read, if (mReadIdx r =? mWriteIdx r)%nat then MkRing 0 0 (mCount r) (mBuffer r) else r).

Definition at_read (r : ring) : outcome A :=
  match mBuffer r !! mReadIdx r with Some x => Ret x | None => Undef OutOfBounds end.

Fixpoint pull_loop (k : nat) (r : ring) : outcome (list A * ring) :=
  match k with
  | O => Ret ([], r)
  | S k => x ← at_read r; '(l, r) ← pull_loop k (advance_read r); Ret (x :: l, r)
  end.
Definition pull (value_count : nat) (r : ring) : outcome (list A * ring) := pull_loop (Nat.min value_count (size r)) r.

(** A pointer to an element is its index. *)
Definition front (r : ring) : option nat := if (mCount r =? 0)%nat then None else Some (mReadIdx r).
Definition back (r : ring) : option nat :=
  if (mCount r =? 0)%nat then None else if (mWriteIdx r =? 0)%nat then Some (n - 1) else Some (mWriteIdx r - 1).

Definition write (value : A) (r : ring) : outcome (bool * ring) :=
  if (mCount r =? n)%nat then Ret (false, r) else r ← store value r; Ret (true, counted (mCount r + 1) r).

Definition force_write (value : A) (r : ring) : outcome ring :=
  r ← store value r;
  Ret (if (mCount r =? n)%nat then MkRing (mWriteIdx r) (mWriteIdx r) (mCount r) (mBuffer r) else counted (mCount r + 1) r).

Definition remove (r : ring) : bool * ring := if (mCount r =? 0)%nat then (false, r) else (true, advance_read r).

(** The iterators, from front to back and from back to front. *)
Definition begin (r : ring) : option nat := front r.
Definition rbegin (r : ring) : option nat := back r.
Definition iter_advance (r : ring) (p : nat) : option nat :=
  let p := (p + 1)%nat in
  let p := if (p =? n)%nat then 0%nat else p in
  if (p =? mWriteIdx r)%nat then None else Some p.
Definition riter_advance (r : ring) (p : nat) : option nat :=
  if (p =? mReadIdx r)%nat then None else if (p =? 0)%nat then Some (n - 1) else Some (p - 1).

(** A loop over an iterator: the elements it points to. *)
Fixpoint iterate (fuel : nat) (step : nat -> option nat) (r : ring) (p : option nat) : outcome (list A) :=
  match p with
  | None => Ret []
  | Some i =>
      match fuel, mBuffer r !! i with
      | O, _ => NoFuel
      | S fuel, Some x => l ← iterate fuel step r (step i); Ret (x :: l)
      | S _, None => Undef OutOfBounds
      end
  end.

(** ** The contents *)

Record rep (r : ring) (l : list A) : Prop := MkRep {
  rp_size : length (mBuffer r) = n;
  rp_pos : (0 < n)%nat;
  rp_read : (mReadIdx r < n)%nat;
  rp_count : mCount r = length l;
  rp_fits : (length l <= n)%nat;
  rp_write : mWriteIdx r = (mReadIdx r + length l) mod n;
  rp_elems : forall i x, l !! i = Some x -> mBuffer r !! ((mReadIdx r + i) mod n) = Some x
}.

Lemma mod_inj r i j : (i < n)%nat -> (j < n)%nat -> (r + i) mod n = (r + j) mod n -> i = j.
Proof.
  intros Hi Hj E. pose proof (Nat.div_mod_eq (r + i) n). pose proof (Nat.div_mod_eq (r + j) n).
  assert ((r + i) / n = (r + j) / n \/ (r + i) / n < (r + j) / n \/ (r + j) / n < (r + i) / n)%nat as [Hq|[Hq|Hq]] by lia; nia.
Qed.

Lemma mod_lt k : (0 < n)%nat -> (k mod n < n)%nat.
Proof. intros. apply Nat.mod_upper_bound. lia. Qed.

Lemma mod_succ r i : ((r mod n + i) mod n = (r + i) mod n)%nat.
Proof. apply Nat.Div0.add_mod_idemp_l. Qed.

Lemma store_run v r l : rep r l ->
  exists r', store v r = Ret r' /\ mReadIdx r' = mReadIdx r /\ mCount r' = mCount r /\ length (mBuffer r') = n /\
    mWriteIdx r' = (mReadIdx r + (length l + 1)) mod n /\ mBuffer r' !! ((mReadIdx r + length l) mod n) = Some v /\
    forall i x, l !! i = Some x -> i <> (length l - n)%nat \/ (length l < n)%nat -> mBuffer r' !! ((mReadIdx r + i) mod n) = Some x.
Proof.
  intros [Hs Hp Hr Hc Hf Hw He]. unfold store. assert (mWriteIdx r < length (mBuffer r))%nat as Hlt by (rewrite Hw, Hs; by apply mod_lt).
  rewrite (proj2 (Nat.ltb_lt _ _) Hlt). eexists. split; [done|]. cbn. do 2 (split; [done|]). split; [by rewrite length_insert|].
  split; [rewrite Hw, mod_succ; f_equal; lia|]. split; [rewrite <- Hw; by apply list_lookup_insert_eq|].
  intros i x Hi Hne. rewrite list_lookup_insert_ne; [by apply He|]. rewrite Hw. pose proof (lookup_lt_Some _ _ _ Hi) as Hil.
  destruct (decide (length l < n)%nat).
  - intros E. apply mod_inj in E; lia.
  - replace (length l) with n by lia. intros E. replace ((mReadIdx r + n) mod n)%nat with ((mReadIdx r + 0) mod n)%nat in E.
    + apply mod_inj in E; [|lia..]. lia.
    + rewrite Nat.add_0_r. by rewrite <- (Nat.Div0.mod_add (mReadIdx r) 1 n), Nat.mul_1_l.
Qed.

Lemma advance_rep r x l : rep r (x :: l) -> rep (advance_read r) l.
Proof.
  intros [Hs Hp Hr Hc Hf Hw He]. cbn [length] in *. constructor; cbn; try done; try lia.
  - by apply mod_lt.
  - rewrite Hw, mod_succ. f_equal. lia.
  - intros i y Hi. rewrite mod_succ. replace (mReadIdx r + 1 + i)%nat with (mReadIdx r + S i)%nat by lia. by apply He.
Qed.

Lemma at_read_run r x l : rep r (x :: l) -> at_read r = Ret x.
Proof.
  intros [Hs Hp Hr Hc Hf Hw He]. unfold at_read. pose proof (He 0%nat x eq_refl) as E. rewrite Nat.add_0_r, Nat.mod_small in E by done. by rewrite E.
Qed.

Lemma append_rep v r l : rep r l -> length l < n ->
  exists r', store v r = Ret r' /\ rep (counted (mCount r' + 1) r') (l ++ [v]) /\ mReadIdx r' = mReadIdx r.
Proof.
  intros Hr Hl. destruct (store_run v r l Hr) as (r' & E & H1 & H2 & H3 & H4 & H5 & H6). exists r'. split; [done|]. split; [|done]. destruct Hr.
  constructor; cbn; rewrite ?length_app; cbn [length]; try done; try congruence; try lia.
  intros i x Hi. rewrite H1. apply lookup_app_Some in Hi as [Hi|[Hi Hx]]; [apply H6; auto|].
  destruct (i - length l) eqn:Ei; [|done]. injection Hx as <-. by replace i with (length l) by lia.
Qed.

Lemma push_loop_run vs : forall r l, rep r l -> length l + length vs <= n -> 
  exists r', push_loop vs r = Ret r' /\ rep r' (l ++ vs) /\ mReadIdx r' = mReadIdx r.
Proof.
  induction vs as [|v vs IH]; intros r l Hr Hl; cbn [push_loop length] in *; [exists r; by rewrite app_nil_r|].
  destruct (append_rep v r l Hr ltac:(lia)) as (r1 & -> & Hr1 & E1). cbn [mbind outcome_bind].
  destruct (IH _ _ Hr1) as (r' & -> & Hr' & E'); [rewrite length_app; cbn; lia|]. exists r'. rewrite <- app_assoc in Hr'.
  split; [done|]. split; [done|]. rewrite E'. exact E1.
Qed.

Lemma force_rep v r l : rep r l ->
  exists r', force_write v r = Ret r' /\ rep r' (if decide (length l = n) then tail l ++ [v] else l ++ [v]) /\
    mReadIdx r' = (if decide (length l = n) then (mReadIdx r + 1) mod n else mReadIdx r).
Proof.
  intros Hr. pose proof Hr as [Hs Hp Hrd Hc Hf Hw He]. unfold force_write. destruct (decide (length l = n)) as [En|En].
  - destruct (store_run v r l Hr) as (r1 & -> & H1 & H2 & H3 & H4 & H5 & H6). cbn [mbind outcome_bind]. rewrite H2, Hc, (proj2 (Nat.eqb_eq _ _) En).
    eexists. split; [done|]. destruct l as [|x l]; [cbn in En; lia|]. cbn [tail length] in *.
    assert (mWriteIdx r1 = (mReadIdx r + 1) mod n) as Ew.
    { rewrite H4. replace (mReadIdx r + (S (length l) + 1)) with (mReadIdx r + 1 + 1 * n) by lia. apply Nat.Div0.mod_add. }
    split; [|exact Ew]. constructor; cbn; rewrite ?length_app; cbn [length]; try done; try lia.
    + rewrite Ew. by apply mod_lt.
    + rewrite Ew, mod_succ. replace (mReadIdx r + 1 + (length l + 1)) with (mReadIdx r + 1 + 1 * n) by lia. by rewrite Nat.Div0.mod_add.
    + intros i y Hi. rewrite Ew, mod_succ. replace (mReadIdx r + 1 + i) with (mReadIdx r + S i) by lia. apply lookup_app_Some in Hi as [Hi|[Hi Hx]].
      * apply (H6 (S i)); [done|]. left. lia.
      * destruct (i - length l) eqn:Ei; [|done]. injection Hx as <-. by replace (S i) with (S (length l)) by lia.
  - destruct (append_rep v r l Hr ltac:(lia)) as (r1 & E & Hr1 & E1). rewrite E. cbn [mbind outcome_bind].
    destruct (store_run v r l Hr) as (r2 & E2 & _ & H2 & _). rewrite E in E2. injection E2 as <-. rewrite H2, Hc, (proj2 (Nat.eqb_neq _ _) En).
    rewrite H2, Hc in Hr1. by eexists.
Qed.

Lemma advance_index k r : mReadIdx r < n -> mReadIdx (Nat.iter k advance_read r) = (mReadIdx r + k) mod n.
Proof.
  intros Hr. induction k as [|k IH]; [by rewrite Nat.add_0_r, Nat.mod_small|]. 
  change (mReadIdx (Nat.iter (S k) advance_read r)) with ((mReadIdx (Nat.iter k advance_read r) + 1) mod n). rewrite IH, mod_succ. f_equal. lia.
Qed.

Lemma advance_rep_n k : forall r l, rep r l -> k <= length l -> rep (Nat.iter k advance_read r) (drop k l).
Proof.
  intros r l Hr Hk. induction k as [|k IH]; [by rewrite drop_0|]. cbn [Nat.iter]. destruct (lookup_lt_is_Some_2 l k ltac:(lia)) as [x Hx].
  rewrite (drop_S l x k Hx) in IH. by apply (advance_rep _ x), IH; lia.
Qed.

(** The elements of a full buffer as they lie in memory. *)
Definition rotated (at_ : nat) (l : list A) : list A := drop (n - at_) l ++ take (n - at_) l.

Lemma length_rotated k l : length (rotated k l) = length l.
Proof. unfold rotated. rewrite length_app, length_drop, length_take. lia. Qed.

Lemma rotated_rep r l : rep r l -> length l = n -> rep (MkRing 0 0 (mCount r) (mBuffer r)) (rotated (mReadIdx r) l).
Proof.
  intros [Hs Hp Hrd Hc Hf Hw He] Hl. constructor; cbn; rewrite ?length_rotated; try done; [rewrite Hl; symmetry; apply Nat.Div0.mod_same|].
  intros i x Hi. pose proof (lookup_lt_Some _ _ _ Hi) as Hlt. rewrite length_rotated in Hlt. rewrite Nat.mod_small by lia. unfold rotated in Hi.
  apply lookup_app_Some in Hi as [Hi|[Hge Hi]].
  - rewrite lookup_drop in Hi. apply He in Hi. replace (mReadIdx r + (n - mReadIdx r + i)) with (i + 1 * n) in Hi by lia.
    by rewrite Nat.Div0.mod_add, Nat.mod_small in Hi by lia.
  - rewrite length_drop in Hge, Hi. apply lookup_take_Some in Hi as [Hi _]. apply He in Hi.
    replace (mReadIdx r + (i - (length l - (n - mReadIdx r)))) with i in Hi by lia. by rewrite Nat.mod_small in Hi by lia.
Qed.

(** What [pop] leaves: both indices are set to zero when they are equal, that is when
    nothing is left, or when nothing was removed from a full buffer. *)
Lemma pop_rep k r l : rep r l ->
  let m := Nat.min k (length l) in
  fst (pop k r) = m /\
  if decide (drop m l = []) then rep (snd (pop k r)) [] /\ mReadIdx (snd (pop k r)) = 0
  else if decide (length (drop m l) = n) then rep (snd (pop k r)) (rotated (mReadIdx r) l) /\ mReadIdx (snd (pop k r)) = 0
  else rep (snd (pop k r)) (drop m l) /\ mReadIdx (snd (pop k r)) = (mReadIdx r + m) mod n.
Proof.
  intros Hr m. pose proof Hr as [Hs Hp Hrd Hc Hf Hw He]. unfold pop, size. rewrite Hc. split; [done|]. cbn [snd]. fold m.
  pose proof (advance_rep_n m r l Hr ltac:(lia)) as Hm. pose proof (advance_index m r Hrd) as Hi. set (r1 := Nat.iter m advance_read r) in *.
  pose proof Hm as [Hs1 _ Hrd1 Hc1 Hf1 Hw1 He1].
  assert (mReadIdx r1 = (mReadIdx r1 + 0) mod n) as E0 by (rewrite Nat.add_0_r; by rewrite Nat.mod_small).
  destruct (decide (drop m l = [])) as [Ed|Ed].
  { rewrite Ed in *. cbn [length] in Hw1. rewrite <- E0 in Hw1. rewrite Hw1, Nat.eqb_refl. split; [|done]. constructor; cbn; try done. symmetry. apply Nat.Div0.mod_0_l. }
  assert (length (drop m l) <> 0) by (by destruct (drop m l)). destruct (decide (length (drop m l) = n)) as [En|En].
  - assert (m = 0) as Em by (rewrite length_drop in En; lia). clearbody m. subst m. subst r1. change (Nat.iter 0 advance_read r) with r in *. rewrite drop_0 in En.
    assert (mWriteIdx r = mReadIdx r) as ->.
    { rewrite Hw, En. replace (mReadIdx r + n) with (mReadIdx r + 1 * n) by lia. rewrite Nat.Div0.mod_add. by apply Nat.mod_small. }
    rewrite Nat.eqb_refl. split; [|done]. by apply rotated_rep.
  - rewrite (proj2 (Nat.eqb_neq _ _)); [done|]. intros E. rewrite Hw1 in E. rewrite E0 in E at 1. apply mod_inj in E; [lia|lia|lia].
Qed.

Lemma pull_loop_run k : forall r l, rep r l -> k <= length l -> 
  exists r', pull_loop k r = Ret (take k l, r') /\ rep r' (drop k l) /\ mReadIdx r' = (mReadIdx r + k) mod n.
Proof.
  induction k as [|k IH]; intros r l Hr Hk; cbn [pull_loop].
  { exists r. rewrite drop_0, Nat.add_0_r, Nat.mod_small; [done|apply Hr]. }
  destruct l as [|x l]; [cbn in Hk; lia|]. rewrite (at_read_run r x l Hr). cbn [mbind outcome_bind].
  destruct (IH _ _ (advance_rep _ _ _ Hr)) as (r' & -> & Hr' & E'); [cbn in Hk; lia|]. exists r'. split; [done|]. split; [done|].
  rewrite E'. cbn [advance_read mReadIdx]. rewrite mod_succ. f_equal. lia.
Qed.

(** ** Iterators *)

Lemma next_index k : k < n -> (if k + 1 =? n then 0 else k + 1) = (k + 1) mod n.
Proof.
  intros Hk. destruct (Nat.eqb_spec (k + 1) n) as [->|E]; [by rewrite Nat.Div0.mod_same|]. by rewrite Nat.mod_small by lia.
Qed.

Lemma prev_index k : 0 < n -> (if (k + 1) mod n =? 0 then n - 1 else (k + 1) mod n - 1) = k mod n.
Proof.
  intros Hn. pose proof (mod_lt k Hn) as Hk. rewrite <- mod_succ. rewrite <- next_index by done.
  destruct (Nat.eqb_spec (k mod n + 1) n); [cbn; lia|]. rewrite (proj2 (Nat.eqb_neq _ 0)) by lia. lia.
Qed.

Lemma iterate_run r l : rep r l -> forall k fuel, k < length l -> length l <= fuel + k ->
  iterate fuel (iter_advance r) r (Some ((mReadIdx r + k) mod n)) = Ret (drop k l).
Proof.
  intros Hr. pose proof Hr as [Hs Hp Hrd Hc Hf Hw He]. intros k fuel. revert k. induction fuel as [|fuel IH]; intros k Hk Hl; [lia|]. cbn [iterate].
  destruct (lookup_lt_is_Some_2 l k Hk) as [x Hx]. rewrite (He k x Hx). unfold iter_advance at 2. rewrite next_index by (by apply mod_lt).
  rewrite mod_succ, Hw. rewrite (drop_S l x k Hx). destruct (decide (S k = length l)) as [El|El].
  - replace (mReadIdx r + k + 1) with (mReadIdx r + length l) by lia. rewrite Nat.eqb_refl. cbn [mbind outcome_bind].
    destruct fuel; cbn; rewrite (drop_ge l (S k)) by lia; done.
  - rewrite (proj2 (Nat.eqb_neq _ _)).
    + rewrite <- Nat.add_assoc, Nat.add_1_r, IH by lia. done.
    + intros E. replace (mReadIdx r + k + 1) with (mReadIdx r + S k) in E by lia.
      destruct (decide (length l = n)) as [En|En].
      * rewrite En in E. replace ((mReadIdx r + n) mod n) with ((mReadIdx r + 0) mod n) in E.
        -- apply mod_inj in E; lia.
        -- rewrite Nat.add_0_r. by rewrite <- (Nat.Div0.mod_add (mReadIdx r) 1 n), Nat.mul_1_l.
      * apply mod_inj in E; lia.
Qed.

Lemma riterate_run r l : rep r l -> forall k fuel, k < length l -> k < fuel ->
  iterate fuel (riter_advance r) r (Some ((mReadIdx r + k) mod n)) = Ret (rev (take (S k) l)).
Proof.
  intros Hr. pose proof Hr as [Hs Hp Hrd Hc Hf Hw He]. intros k fuel. revert k. induction fuel as [|fuel IH]; intros k Hk Hl; [lia|]. cbn [iterate].
  destruct (lookup_lt_is_Some_2 l k Hk) as [x Hx]. rewrite (He k x Hx), (take_S_r l k x Hx), rev_app_distr. cbn [rev app]. unfold riter_advance at 2.
  assert (mReadIdx r = (mReadIdx r + 0) mod n) as Er by (rewrite Nat.add_0_r; by rewrite Nat.mod_small).
  destruct k as [|k].
  - rewrite <- Er, Nat.eqb_refl. by destruct fuel.
  - rewrite (proj2 (Nat.eqb_neq _ _)) by (intros E; rewrite Er in E at 2; apply mod_inj in E; lia).
    replace (mReadIdx r + S k) with (mReadIdx r + k + 1) by lia. pose proof (prev_index (mReadIdx r + k) Hp) as Ep.
    destruct ((mReadIdx r + k + 1) mod n =? 0); rewrite Ep, IH by lia; done.
Qed.

(** ** A queue of at most [n] elements *)

Inductive op : Type :=
| OpWrite (v : A) | OpForce (v : A) | OpPush (vs : list A) | OpRemove | OpPop (k : nat) | OpPull (k : nat)
| OpClear | OpSize | OpSpace | OpEmpty | OpFull | OpFront | OpBack | OpIterate | OpReverse.

Inductive answer : Type :=
| ABool (b : bool) | ANum (k : nat) | AElem (x : option A) | AList (l : list A) | AThrow | ANone.

(** The element a pointer points to. *)
Definition follow (r : ring) (p : option nat) : outcome (option A) :=
  match p with
  | None => Ret None
  | Some i => match mBuffer r !! i with Some x => Ret (Some x) | None => Undef OutOfBounds end
  end.

Definition run_op (o : op) (r : ring) : outcome (answer * ring) :=
  match o with
  | OpWrite v => '(b, r) ← write v r; Ret (ABool b, r)
  | OpForce v => r ← force_write v r; Ret (ANone, r)
  | OpPush vs => x ← push vs r; Ret (match x with Some r => (ANone, r) | None => (AThrow, r) end)
  | OpRemove => let '(b, r) := remove r in Ret (ABool b, r)
  | OpPop k => let '(k, r) := pop k r in Ret (ANum k, r)
  | OpPull k => '(l, r) ← pull k r; Ret (AList l, r)
  | OpClear => Ret (ANone, clear r)
  | OpSize => Ret (ANum (size r), r)
  | OpSpace => Ret (ANum (space_available r), r)
  | OpEmpty => Ret (ABool (empty r), r)
  | OpFull => Ret (ABool (full r), r)
  | OpFront => x ← follow r (front r); Ret (AElem x, r)
  | OpBack => x ← follow r (back r); Ret (AElem x, r)
  | OpIterate => l ← iterate n (iter_advance r) r (begin r); Ret (AList l, r)
  | OpReverse => l ← iterate n (riter_advance r) r (rbegin r); Ret (AList l, r)
  end.

(** A list, and where its first element lies. *)
Record queue : Type := MkQueue { q_at : nat; q_list : list A }.

(** The list alone says what is answered and what is left, but for one case: a [pop]
    of nothing off a full buffer turns the list round. *)
Definition queue_op (o : op) (q : queue) : answer * queue :=
  let '(MkQueue i l) := q in
  match o with
  | OpWrite v => if decide (length l = n) then (ABool false, q) else (ABool true, MkQueue i (l ++ [v]))
  | OpForce v => (ANone, if decide (length l = n) then MkQueue ((i + 1) mod n) (tail l ++ [v]) else MkQueue i (l ++ [v]))
  | OpPush vs => if decide (n < length l + length vs) then (AThrow, q) else (ANone, MkQueue i (l ++ vs))
  | OpRemove => match l with [] => (ABool false, q) | _ :: l => (ABool true, MkQueue ((i + 1) mod n) l) end
  | OpPop k =>
      (ANum (Nat.min k (length l)),
       if decide (length l <= k) then MkQueue 0 []
       else if decide (k = 0 /\ length l = n) then MkQueue 0 (rotated i l)
       else MkQueue ((i + k) mod n) (drop k l))
  | OpPull k => (AList (take k l), MkQueue ((i + Nat.min k (length l)) mod n) (drop k l))
  | OpClear => (ANone, MkQueue 0 [])
  | OpSize => (ANum (length l), q)
  | OpSpace => (ANum (n - length l), q)
  | OpEmpty => (ABool (length l =? 0), q)
  | OpFull => (ABool (length l =? n), q)
  | OpFront => (AElem (head l), q)
  | OpBack => (AElem (list.last l), q)
  | OpIterate => (AList l, q)
  | OpReverse => (AList (rev l), q)
  end.

Lemma back_index r l : rep r l -> l <> [] -> back r = Some ((mReadIdx r + (length l - 1)) mod n).
Proof.
  intros [Hs Hp Hrd Hc Hf Hw He] Hl. unfold back. rewrite Hc. assert (length l <> 0) as Hne by (by destruct l).
  rewrite (proj2 (Nat.eqb_neq _ 0) Hne), Hw. pose proof (prev_index (mReadIdx r + (length l - 1)) Hp) as E.
  replace (mReadIdx r + (length l - 1) + 1) with (mReadIdx r + length l) in E by lia. by destruct ((mReadIdx r + length l) mod n =? 0); rewrite E.
Qed.

Definition holds (r : ring) (q : queue) : Prop := rep r (q_list q) /\ mReadIdx r = q_at q.

Lemma run_op_rep o r q : holds r q ->
  exists r', run_op o r = Ret (fst (queue_op o q), r') /\ holds r' (snd (queue_op o q)).
Proof.
  destruct q as [j l]. intros [Hr Hj]. cbn [q_list q_at] in Hr, Hj. subst j. pose proof Hr as [Hs Hp Hrd Hc Hf Hw He]. assert (mReadIdx r = (mReadIdx r + 0) mod n) as E0 by (rewrite Nat.add_0_r; by rewrite Nat.mod_small).
  assert (holds r (MkQueue (mReadIdx r) l)) as Hq by done.
  destruct o as [v|v|vs| |k|k| | | | | | | | |]; cbn [run_op queue_op].
  - unfold write. rewrite Hc. destruct (Nat.eqb_spec (length l) n), (decide (length l = n)); try lia; [by exists r|].
    destruct (append_rep v r l Hr ltac:(lia)) as (r1 & -> & Hr1 & E1). cbn [mbind outcome_bind]. eexists. split; [done|]. by split.
  - destruct (force_rep v r l Hr) as (r1 & -> & Hr1 & E1). cbn [mbind outcome_bind fst snd]. eexists. split; [done|]. by destruct (decide _).
  - unfold push, space_available. rewrite Hc. destruct (Nat.ltb_spec (n - length l) (length vs)), (decide (n < length l + length vs)); try lia; [by exists r|].
    destruct (push_loop_run vs r l Hr ltac:(lia)) as (r1 & -> & Hr1 & E1). by exists r1.
  - unfold remove. rewrite Hc. destruct l as [|x l]; [by exists r|]. cbn [length Nat.eqb]. eexists. split; [done|]. split; [|done]. by apply advance_rep with x.
  - destruct (pop_rep k r l Hr) as [E Hr1]. destruct (pop k r) as [m r1]. cbn [fst snd] in *. exists r1. rewrite E. split; [done|].
    destruct (decide (length l <= k)) as [Hk|Hk].
    { rewrite (drop_ge l (Nat.min k (length l))) in Hr1 by lia. by rewrite decide_True in Hr1. }
    rewrite Nat.min_l, (decide_False (P := drop k l = [])) in Hr1 by (lia || (intros Hd; apply (f_equal length) in Hd; rewrite length_drop in Hd; cbn in Hd; lia)).
    rewrite length_drop in Hr1. destruct (decide (k = 0 /\ length l = n)) as [[-> Hn]|Hn]; [by rewrite decide_True in Hr1 by lia|].
    by rewrite decide_False in Hr1 by lia.
  - unfold pull, size. rewrite Hc. destruct (pull_loop_run (Nat.min k (length l)) r l Hr ltac:(lia)) as (r1 & -> & Hr1 & E1). cbn [mbind outcome_bind fst snd]. exists r1.
    destruct (Nat.min_spec k (length l)) as [[_ Em]|[Hle Em]]; rewrite Em in *; [done|]. rewrite (drop_ge l (length l)) in Hr1 by lia.
    by rewrite (take_ge l (length l)), (take_ge l k), (drop_ge l k) by lia.
  - eexists. split; [done|]. split; [|done]. constructor; cbn; try done; try lia. symmetry. apply Nat.Div0.mod_0_l.
  - exists r. unfold size. by rewrite Hc.
  - exists r. unfold space_available. by rewrite Hc.
  - exists r. unfold empty. by rewrite Hc.
  - exists r. unfold full. by rewrite Hc.
  - exists r. unfold front. rewrite Hc. destruct l as [|x l]; [done|]. cbn [length Nat.eqb follow]. rewrite E0, (He 0 x eq_refl). done.
  - exists r. destruct (decide (l = [])) as [->|Hl]; [unfold back; by rewrite Hc|]. rewrite (back_index r l Hr Hl). cbn [follow].
    assert (length l <> 0) by (by destruct l). destruct (lookup_lt_is_Some_2 l (length l - 1) ltac:(lia)) as [x Hx]. rewrite (He _ x Hx).
    rewrite last_lookup, <- Nat.sub_1_r, Hx. done.
  - exists r. unfold begin, front. rewrite Hc. destruct l as [|x l]; [by destruct n|]. cbn [length Nat.eqb]. rewrite E0.
    rewrite (iterate_run r _ Hr 0 n) by (cbn [length] in *; lia). done.
  - exists r. unfold rbegin. destruct (decide (l = [])) as [->|Hl]; [unfold back; rewrite Hc; by destruct n|]. rewrite (back_index r l Hr Hl).
    assert (length l <> 0) by (by destruct l). rewrite (riterate_run r l Hr (length l - 1) n) by lia. cbn [mbind outcome_bind].
    by rewrite take_ge by lia.
Qed.

Fixpoint run_ops (os : list op) (r : ring) : outcome (list answer * ring) :=
  match os with
  | [] => Ret ([], r)
  | o :: os => '(a, r) ← run_op o r; '(l, r) ← run_ops os r; Ret (a :: l, r)
  end.
Fixpoint queue_ops (os : list op) (q : queue) : list answer * queue :=
  match os with
  | [] => ([], q)
  | o :: os => let '(a, q) := queue_op o q in let '(s, q) := queue_ops os q in (a :: s, q)
  end.

(** C24: The ring buffer is a queue of at most [n] elements: every sequence of writes,
    forced writes, pushes, removals, pops, pulls, clearings, questions and walks over the
    iterators on a cleared buffer is answered as by a list, in the order of arrival, with
    a forced write on a full buffer displacing the oldest element; no index leaves the
    buffer, and the walks end.  In one case the order is not that of arrival: a pop of
    nothing off a full buffer turns the list round, the element in the first place of the
    memory coming first from then on. *)
Theorem ring_refines_queue os r :
  length (mBuffer r) = n -> 0 < n ->
  exists r', run_ops os (clear r) = Ret (fst (queue_ops os (MkQueue 0 [])), r') /\
    mCount r' = length (q_list (snd (queue_ops os (MkQueue 0 [])))).
Proof.
  intros Hb Hn. assert (holds (clear r) (MkQueue 0 [])) as Hr.
  { split; [|done]. constructor; cbn; try done; try lia; symmetry; apply Nat.Div0.mod_0_l. }
  generalize dependent (clear r). generalize (MkQueue 0 []). induction os as [|o os IH]; intros q r0 Hr; [by exists r0; destruct Hr as [[] _]|].
  cbn [run_ops queue_ops]. destruct (run_op_rep o r0 q Hr) as (r1 & -> & Hr1). cbn [mbind outcome_bind].
  destruct (queue_op o q) as [a q1]. cbn [fst snd] in *. destruct (IH q1 r1 Hr1) as (r' & -> & Hc). exists r'.
  destruct (queue_ops os q1) as [s q2]. cbn [fst snd mbind outcome_bind] in *. done.
Qed.

End Ring.

Definition demo_ring : ring := MkRing 0 0 0 [0; 0; 0].

Lemma ring_refines_queue_witness :
  exists r', run_ops 3 [OpPush [1; 2]; OpForce 3; OpForce 4; OpIterate; OpReverse; OpPull 2; OpWrite 5; OpBack; OpPop 9; OpPush [1; 2; 3; 4]]
      (clear demo_ring) =
    Ret ([ANone; ANone; ANone; AList [2; 3; 4]; AList [4; 3; 2]; AList [2; 3]; ABool true; AElem (Some 5); ANum 2; AThrow], r') /\ mCount r' = 0.
Proof.
  apply (ring_refines_queue 3 [OpPush [1; 2]; OpForce 3; OpForce 4; OpIterate; OpReverse; OpPull 2; OpWrite 5; OpBack; OpPop 9; OpPush [1; 2; 3; 4]]
           demo_ring).
  - reflexivity.
  - lia.
Defined.

(** Popping nothing off a full buffer turns its elements round. *)
Example pop_nothing_rotates :
  exists r, run_ops 3 [OpPush [1; 2; 3]; OpRemove; OpWrite 4; OpIterate; OpPop 0; OpIterate] (clear demo_ring) =
    Ret ([ANone; ABool true; ABool true; AList [2; 3; 4]; ANum 0; AList [4; 2; 3]], r).
Proof. eexists. vm_compute. reflexivity. Qed.

(** A full buffer reports that no elements lie at its data pointer. *)
Example full_has_no_data : exists r, push 3 [1; 2; 3] (clear demo_ring) = Ret (Some r) /\ size r = 3 /\ size_of_data_ptr 3 r = 0.
Proof. eexists. split; vm_compute; [reflexivity|]. done. Qed.

End RingBuffer.
