(* ===== verification/DaemonTimer.v ===== *)
(** * Timers of the daemon (src/util/Timer.cpp, Timer.h)

    The running timers are on one list in the order of their fire times, linked through
    the timers themselves; a timer that is not on the list has a null link, and the last
    one a link to a marker.  Times are milliseconds in a signed 32-bit integer, and their
    differences and sums are computed in it, where an overflow is undefined.  A callback
    is a number; what it does with the timers is a parameter that sees all that ran before
    it.  The clock is an argument of each call that reads it. *)

From Stdlib Require Import ZArith Lia Sorting.Sorted.
From stdpp Require Import base list option numbers gmap.
From S2P Require Import Prelude StrUtil.

Open Scope Z_scope.

Module DaemonTimer.

Inductive Type' : Type := kOneShot | kPeriodicFixedRate | kPeriodicFixedDelay.

(** A link: null, the marker of the end, a timer. *)
Inductive link : Type := Null | End_ | At (p : positive).

#[export] Instance link_eq_dec : EqDecision link.
Proof. solve_decision. Defined.

Record timer : Type := MkTimer { mFireTime : Z; mInterval : Z; mType : Type'; mNext : link; mCallback : Z }.

Record timers : Type := MkTimers { heap : gmap positive timer; mListHead : link }.

(** A timer that was constructed. *)
Definition Timer_init : timer := MkTimer 0 0 kOneShot Null 0.

Definition cms (z : Z) : outcome Z := if (- 2 ^ 31 <=? z) && (z <? 2 ^ 31) then Ret z else Undef SignedOverflow.

(** The order of clock times. *)
Definition time_lt (a b : Z) : outcome bool := d ← cms (a - b); Ret (d <? 0).
Definition time_le (a b : Z) : outcome bool := d ← cms (a - b); Ret (d <=? 0).

Definition deref_link (l : link) (t : timers) : outcome (positive * timer) :=
  match l with
  | Null => Undef NullPointer
  | End_ => Undef Dangling
  | At p => match heap t !! p with Some x => Ret (p, x) | None => Undef Dangling end
  end.

Definition with_next (n : link) (x : timer) : timer := MkTimer (mFireTime x) (mInterval x) (mType x) n (mCallback x).
Definition put_timer (p : positive) (x : timer) (t : timers) : timers := MkTimers (<[p := x]> (heap t)) (mListHead t).
Definition set_next (p : positive) (n : link) (t : timers) : outcome timers :=
  '(_, x) ← deref_link (At p) t; Ret (put_timer p (with_next n x) t).
Definition set_head (l : link) (t : timers) : timers := MkTimers (heap t) l.

(** The loop of [add]. *)
Fixpoint add_loop (fuel : nat) (p : positive) (fires : Z) (cur : link) (t : timers) : outcome timers :=
  match fuel with
  | O => NoFuel
  | S fuel =>
      '(c, x) ← deref_link cur t;
      if bool_decide (mNext x = End_) then t ← set_next p End_ t; set_next c (At p) t
      else
        '(_, y) ← deref_link (mNext x) t;
        b ← time_lt fires (mFireTime y);
        if (b : bool) then t ← set_next p (mNext x) t; set_next c (At p) t
        else add_loop fuel p fires (mNext x) t
  end.

Definition add (p : positive) (t : timers) : outcome timers :=
  if bool_decide (mListHead t = End_) then t ← set_next p End_ t; Ret (set_head (At p) t)
  else
    '(_, x) ← deref_link (At p) t;
    '(_, h) ← deref_link (mListHead t) t;
    b ← time_lt (mFireTime x) (mFireTime h);
    if (b : bool) then t' ← set_next p (mListHead t) t; Ret (set_head (At p) t')
    else add_loop (S (size (heap t))) p (mFireTime x) (mListHead t) t.

(** The loop of [remove]; at the end of the list the code complains and goes on. *)
Fixpoint remove_loop (fuel : nat) (p : positive) (cur : link) (t : timers) : outcome timers :=
  match fuel with
  | O => NoFuel
  | S fuel =>
      if bool_decide (cur = End_) then Ret t
      else
        '(c, x) ← deref_link cur t;
        if bool_decide (mNext x = At p) then
          '(_, y) ← deref_link (At p) t;
          t ← set_next c (mNext y) t;
          set_next p Null t
        else remove_loop fuel p (mNext x) t
  end.

Definition remove (p : positive) (t : timers) : outcome timers :=
  '(_, x) ← deref_link (At p) t;
  if bool_decide (mNext x = Null) then Ret t
  else if bool_decide (mListHead t = At p) then set_next p Null (set_head (mNext x) t)
  else remove_loop (S (size (heap t))) p (mListHead t) t.

Definition schedule (p : positive) (interval callback : Z) (type : Type') (now : Z) (t : timers) : outcome timers :=
  t ← remove p t;
  if 0 <? interval then
    '(_, x) ← deref_link (At p) t;
    f ← cms (interval + now);
    add p (put_timer p (MkTimer f interval type (mNext x) callback) t)
  else Ret t.

Definition cancel (p : positive) (t : timers) : outcome timers := remove p t.

Definition is_expired (x : timer) (now : Z) : outcome bool := time_le (mFireTime x) now.

Definition get_ms_to_next_event (now : Z) (t : timers) : outcome Z :=
  if bool_decide (mListHead t = End_) then Ret StrUtil.CMS_DISTANT_FUTURE
  else '(_, x) ← deref_link (mListHead t) t; c ← cms (mFireTime x - now); Ret (if c <? 0 then 0 else c).

Definition update_timeout (timeout : option Z) (now : Z) (t : timers) : outcome (option Z) :=
  match timeout with
  | None => Ret None
  | Some v => c ← get_ms_to_next_event now t; Ret (Some (if c <? v then c else v))
  end.

Section Process.
(** What a callback does to the timers. *)
Context {S : Type} (callback : Z -> positive -> timers * S -> outcome (timers * S)).

(** One expired timer: off the list, on again if it is periodic, then its callback. *)
Definition fire_one (p : positive) (x : timer) (now : Z) (t : timers) : outcome timers :=
  t ← set_next p Null (set_head (mNext x) t);
  match mType x with
  | kOneShot => Ret t
  | kPeriodicFixedRate =>
      f ← cms (mInterval x + mFireTime x);
      add p (put_timer p (MkTimer f (mInterval x) (mType x) Null (mCallback x)) t)
  | kPeriodicFixedDelay =>
      f ← cms (mInterval x + now);
      add p (put_timer p (MkTimer f (mInterval x) (mType x) Null (mCallback x)) t)
  end.

(** [process]; the clock is read for each timer when its time is looked at, and once more
    if it starts again from the present. *)
Fixpoint process (clock : list (Z * Z)) (t : timers) (s : S) : outcome (timers * S) :=
  match clock with
  | [] => NoFuel
  | (now, later) :: clock =>
      if bool_decide (mListHead t = End_) then Ret (t, s)
      else
        '(p, x) ← deref_link (mListHead t) t;
        e ← is_expired x now;
        if (e : bool) then
          t ← fire_one p x later t;
          '(t, s) ← callback (mCallback x) p (t, s);
          process clock t s
        else Ret (t, s)
  end.
End Process.


(** ** The agenda *)

(** What a timer was given, without its link. *)
Record params : Type := MkParams { fires : Z; interval : Z; ptype : Type'; pcb : Z }.

Definition timer_of (e : params) (n : link) : timer := MkTimer (fires e) (interval e) (ptype e) n (pcb e).

(** The links from [l] on run through [es] to the marker. *)
Fixpoint chain (h : gmap positive timer) (l : link) (es : list (positive * params)) : Prop :=
  match es with
  | [] => l = End_
  | (p, e) :: es => l = At p /\ exists n, h !! p = Some (timer_of e n) /\ chain h n es
  end.

(** The timers that exist and, in the order of their fire times, those that run. *)
Record book : Type := MkBook { known : gset positive; running : list (positive * params) }.

(** Behind those that fire no later. *)
Fixpoint put (p : positive) (e : params) (es : list (positive * params)) : list (positive * params) :=
  match es with
  | [] => [(p, e)]
  | (q, f) :: es => if fires e <? fires f then (p, e) :: (q, f) :: es else (q, f) :: put p e es
  end.

Definition drop_id (p : positive) (es : list (positive * params)) : list (positive * params) := filter (fun x => x.1 <> p) es.

(** Times at which nothing overflows. *)
Definition in_time (z : Z) : option Z := if (0 <=? z) && (z <? 2 ^ 31) then Some z else None.

Definition fine (x : positive * params) : Prop := 0 <= fires x.2 < 2 ^ 31 /\ 0 < interval x.2.
Definition no_later (x y : positive * params) : Prop := fires x.2 <= fires y.2.

Record agenda (t : timers) (b : book) : Prop := MkAgenda {
  ag_chain : chain (heap t) (mListHead t) (running b);
  ag_nodup : NoDup (running b).*1;
  ag_dom : dom (heap t) = known b;
  ag_null : forall p x, heap t !! p = Some x -> p ∉ (running b).*1 -> mNext x = Null;
  ag_fine : Forall fine (running b);
  ag_sorted : StronglySorted no_later (running b)
}.

(** Who is on a list and who is not. *)
Ltac ids := cbn [fmap list_fmap fst] in *; rewrite ?NoDup_cons in *; rewrite ?elem_of_cons, ?not_elem_of_cons in *; intuition congruence.

(** ** Chains *)

Lemma dchain_in h es : forall l q, chain h l es -> q ∈ es.*1 -> is_Some (h !! q).
Proof.
  induction es as [|[p e] es IH]; intros l q Hc Hq; [by apply not_elem_of_nil in Hq|]. destruct Hc as (-> & n & Hx & Hc).
  cbn in Hq. apply elem_of_cons in Hq as [->|Hq]; [by eexists|by eapply IH].
Qed.

(** Timers that are not on the list do not matter. *)
Lemma chain_frame h h' es : forall l, (forall q, q ∈ es.*1 -> h' !! q = h !! q) -> chain h l es -> chain h' l es.
Proof.
  induction es as [|[q e] es IH]; intros l Hf Hc; [done|]. destruct Hc as (-> & n & Hy & Hc).
  split; [done|]. exists n. rewrite Hf by ids. split; [done|]. apply IH; [|done]. intros q' Hq. apply Hf. cbn. by apply elem_of_cons; right.
Qed.

Lemma dchain_size h l es : chain h l es -> NoDup es.*1 -> (length es <= size h)%nat.
Proof.
  intros Hc Hn. rewrite <- (length_fmap fst), <- (size_list_to_set (C:=gset positive)) by done. rewrite <- size_dom. apply subseteq_size.
  intros q Hq. apply elem_of_list_to_set in Hq. apply elem_of_dom. by eapply dchain_in.
Qed.

Lemma put_perm p e es : put p e es ≡ₚ (p, e) :: es.
Proof. induction es as [|[q f] es IH]; cbn; [done|]. case_match; [done|]. rewrite IH. apply Permutation_swap. Qed.

Lemma put_sorted p e es : StronglySorted no_later es -> StronglySorted no_later (put p e es).
Proof.
  induction 1 as [|[q f] es Hs IH Hf]; cbn; [by repeat constructor|]. case_match eqn:E.
  - constructor; [by constructor|]. apply Z.ltb_lt in E. constructor; [unfold no_later; cbn; lia|].
    eapply Forall_impl; [exact Hf|]. unfold no_later. cbn. intros; lia.
  - constructor; [done|]. rewrite put_perm. constructor; [|done]. unfold no_later. cbn. lia.
Qed.

Lemma put_ids p e es q : q ∈ (put p e es).*1 <-> q = p \/ q ∈ es.*1.
Proof. rewrite (fmap_Permutation _ _ _ (put_perm p e es)). cbn. by rewrite elem_of_cons. Qed.

Lemma drop_ids p es q : q ∈ (drop_id p es).*1 <-> q <> p /\ q ∈ es.*1.
Proof.
  rewrite !list_elem_of_fmap. unfold drop_id. split.
  - intros (x & -> & Hx). apply list_elem_of_filter in Hx as [Hne Hx]. eauto.
  - intros (Hne & x & -> & Hx). exists x. split; [done|]. by apply list_elem_of_filter.
Qed.

Lemma drop_cons p q e es : drop_id p ((q, e) :: es) = if bool_decide (q = p) then drop_id p es else (q, e) :: drop_id p es.
Proof. unfold drop_id. rewrite filter_cons. cbn. repeat case_decide; repeat case_bool_decide; naive_solver. Qed.

Lemma drop_notin p es : p ∉ es.*1 -> drop_id p es = es.
Proof.
  induction es as [|[q e] es IH]; intros Hp; [done|]. cbn in Hp. apply not_elem_of_cons in Hp as [Hne Hp].
  rewrite drop_cons, bool_decide_eq_false_2, IH by done. done.
Qed.

Lemma drop_forall (P : positive * params -> Prop) p es : Forall P es -> Forall P (drop_id p es).
Proof. induction 1 as [|[q e] es H Hf IH]; [constructor|]. rewrite drop_cons. case_bool_decide; [done|by constructor]. Qed.

Lemma drop_sorted p es : StronglySorted no_later es -> StronglySorted no_later (drop_id p es).
Proof.
  induction 1 as [|[q f] es Hs IH Hf]; [constructor|]. rewrite drop_cons. case_bool_decide; [done|]. constructor; [done|].
  by apply drop_forall.
Qed.

Lemma drop_nodup p es : NoDup es.*1 -> NoDup (drop_id p es).*1.
Proof.
  induction es as [|[q e] es IH]; intros Hn; [done|]. cbn in Hn. apply NoDup_cons in Hn as [Hq Hn]. rewrite drop_cons.
  case_bool_decide; [by apply IH|]. cbn. constructor; [|by apply IH]. rewrite drop_ids. tauto.
Qed.

(** ** Adding *)

Lemma cms_in z : - 2 ^ 31 <= z < 2 ^ 31 -> cms z = Ret z.
Proof. intros H. unfold cms. by replace ((- 2 ^ 31 <=? z) && (z <? 2 ^ 31)) with true by lia. Qed.

Lemma time_lt_in a b : 0 <= a < 2 ^ 31 -> 0 <= b < 2 ^ 31 -> time_lt a b = Ret (a <? b).
Proof. intros Ha Hb. unfold time_lt. rewrite cms_in by lia. cbn. f_equal. lia. Qed.

Lemma time_le_in a b : 0 <= a < 2 ^ 31 -> 0 <= b < 2 ^ 31 -> time_le a b = Ret (a <=? b).
Proof. intros Ha Hb. unfold time_le. rewrite cms_in by lia. cbn. f_equal. lia. Qed.

Lemma deref_at p h hd x : h !! p = Some x -> deref_link (At p) (MkTimers h hd) = Ret (p, x).
Proof. intros H. cbn. by rewrite H. Qed.

Lemma set_next_at p n h hd x : h !! p = Some x -> set_next p n (MkTimers h hd) = Ret (MkTimers (<[p := with_next n x]> h) hd).
Proof. intros H. unfold set_next. rewrite (deref_at p _ _ x) by done. done. Qed.

Lemma with_next_of n e n' : with_next n (timer_of e n') = timer_of e n.
Proof. done. Qed.

(** A timer put behind [c], in front of the rest. *)
Lemma link_behind p e n0 c ec n h hd es : h !! p = Some (timer_of e n0) -> h !! c = Some (timer_of ec n) -> chain h n es ->
  p <> c -> p ∉ es.*1 -> c ∉ es.*1 -> exists h', (t ← set_next p n (MkTimers h hd); set_next c (At p) t) = Ret (MkTimers h' hd) /\
    chain h' (At c) ((c, ec) :: (p, e) :: es) /\ forall q, q <> p -> q <> c -> h' !! q = h !! q.
Proof.
  intros Hp Hc Hch Hne Hpe Hce. rewrite (set_next_at _ _ _ _ _ Hp). cbn [mbind outcome_bind].
  rewrite (set_next_at c _ _ _ (timer_of ec n)) by (by rewrite lookup_insert_ne). rewrite !with_next_of.
  eexists. split; [done|]. split; [|intros q H1 H2; by rewrite !lookup_insert_ne]. cbn. split; [done|].
  exists (At p). rewrite lookup_insert_eq. split; [done|]. split; [done|]. exists n. rewrite lookup_insert_ne, lookup_insert_eq by done. split; [done|].
  eapply chain_frame; [|exact Hch]. intros q Hq. rewrite !lookup_insert_ne by (intros ->; done). done.
Qed.

Lemma add_loop_run p e n0 hd : 0 <= fires e < 2 ^ 31 -> forall es c ec h fuel, (length es < fuel)%nat -> h !! p = Some (timer_of e n0) ->
  chain h (At c) ((c, ec) :: es) -> p ∉ c :: es.*1 -> NoDup (c :: es.*1) -> Forall fine es ->
  exists h', add_loop fuel p (fires e) (At c) (MkTimers h hd) = Ret (MkTimers h' hd) /\ chain h' (At c) ((c, ec) :: put p e es) /\
    forall q, q <> p -> q ∉ c :: es.*1 -> h' !! q = h !! q.
Proof.
  intros He. induction es as [|[q f] es IH]; intros c ec h [|fuel] Hl Hp (_ & n & Hc & Hch) Hpe Hnd Hfi; cbn [length] in Hl; try lia.
  - cbn in Hch. subst n. cbn [add_loop]. rewrite (deref_at c _ _ _ Hc). cbn [mbind outcome_bind]. rewrite bool_decide_eq_true_2 by done.
    destruct (link_behind p e n0 c ec End_ h hd [] Hp Hc) as (h' & E & Hch' & Hfr); try done; [ids..|].
    exists h'. split; [done|]. split; [done|]. intros q H1 H2. apply Hfr; ids.
  - destruct (id Hch) as (-> & n2 & Hq & Hch2). cbn [add_loop]. rewrite (deref_at c _ _ _ Hc). cbn [mbind outcome_bind].
    rewrite bool_decide_eq_false_2 by done. cbn [mNext timer_of]. rewrite (deref_at q _ _ _ Hq). cbn [mbind outcome_bind mFireTime timer_of].
    apply Forall_cons in Hfi as [[Hf _] Hfi]. rewrite time_lt_in by done. cbn [mbind outcome_bind put]. cbn in Hpe, Hnd.
    destruct (fires e <? fires f) eqn:E.
    + destruct (link_behind p e n0 c ec (At q) h hd ((q, f) :: es) Hp Hc) as (h' & -> & Hch' & Hfr); cbn; try done; [ids..| |].
      { by apply NoDup_cons in Hnd as [? _]. }
      exists h'. split; [done|]. split; [done|]. intros q' H1 H2. apply Hfr; ids.
    + apply NoDup_cons in Hnd as [Hcn Hnd]. destruct (IH q f h fuel) as (h' & -> & Hch' & Hfr); try done; try lia; [ids|].
      exists h'. split; [done|]. split; [|intros q' H1 H2; apply Hfr; cbn in *; ids].
      split; [done|]. exists (At q). rewrite Hfr by ids. done.
Qed.

Lemma chain_head h l es : chain h l es -> l = match es with [] => End_ | (p, _) :: _ => At p end.
Proof. destruct es as [|[p e] es]; cbn; tauto. Qed.

Lemma add_agenda p e h hd b : agenda (MkTimers h hd) b -> h !! p = Some (timer_of e Null) -> p ∉ (running b).*1 -> fine (p, e) ->
  exists t', add p (MkTimers h hd) = Ret t' /\ agenda t' (MkBook (known b) (put p e (running b))).
Proof.
  intros [Hch Hnd Hdom Hnull Hfi Hs] Hp Hpn Hf. cbn [heap mListHead] in *.
  assert (Hrest : exists h' hd', add p (MkTimers h hd) = Ret (MkTimers h' hd') /\ chain h' hd' (put p e (running b)) /\
    forall q, q <> p -> q ∉ (running b).*1 -> h' !! q = h !! q).
  { destruct (running b) as [|[q f] es] eqn:Eb.
    - cbn in Hch. subst hd. unfold add. cbn [mListHead]. rewrite bool_decide_eq_true_2, (set_next_at _ _ _ _ _ Hp) by done.
      exists (<[p := timer_of e End_]> h), (At p). split; [done|]. split; [|intros; by rewrite lookup_insert_ne]. cbn. split; [done|]. exists End_. by rewrite lookup_insert_eq.
    - destruct (id Hch) as (-> & n & Hq & Hch2). apply Forall_cons in Hfi as [[Hq2 _] Hfi]. unfold add. cbn [mListHead].
      rewrite bool_decide_eq_false_2 by done. rewrite (deref_at p _ _ _ Hp). cbn [mbind outcome_bind]. rewrite (deref_at q _ _ _ Hq).
      cbn [mbind outcome_bind mFireTime timer_of]. destruct Hf as [Hf _]. cbn in Hf. rewrite time_lt_in by done. cbn [mbind outcome_bind put].
      destruct (fires e <? fires f).
      + rewrite (set_next_at _ _ _ _ _ Hp). exists (<[p := timer_of e (At q)]> h), (At p). split; [done|]. split; [|intros; by rewrite lookup_insert_ne]. split; [done|].
        exists (At q). rewrite lookup_insert_eq. split; [done|]. eapply chain_frame; [|exact Hch]. intros q' Hq'. apply lookup_insert_ne. by intros ->.
      + cbn [heap]. destruct (add_loop_run p e Null (At q) Hf es q f h (S (size h))) as (h' & -> & Hch' & Hfr); try done.
        { apply dchain_size in Hch; [|done]. cbn in Hch. lia. }
        eauto. }
  destruct Hrest as (h' & hd' & -> & Hch' & Hfr). eexists. split; [done|]. constructor; cbn [heap mListHead known running].
  - done.
  - rewrite (fmap_Permutation _ _ _ (put_perm p e _)). by constructor.
  - rewrite <- Hdom. apply set_eq. intros q. rewrite !elem_of_dom. destruct (decide (q ∈ p :: (running b).*1)) as [Hq|Hq]; [|rewrite Hfr; [done|ids..]].
    split; intros _; [|eapply dchain_in, put_ids; [exact Hch'|ids]].
    apply elem_of_cons in Hq as [->|Hq]; [by eexists|by eapply dchain_in].
  - intros q x Hx Hq. rewrite put_ids in Hq. eapply Hnull; [|intros ?; apply Hq; by right]. rewrite <- Hfr; [done|tauto..].
  - rewrite put_perm. by constructor.
  - by apply put_sorted.
Qed.

(** ** Removing *)

Lemma remove_loop_run p hd : forall es c ec h fuel, (length es < fuel)%nat -> p ∈ es.*1 -> chain h (At c) ((c, ec) :: es) -> NoDup (c :: es.*1) ->
  exists h' e, remove_loop fuel p (At c) (MkTimers h hd) = Ret (MkTimers h' hd) /\ chain h' (At c) ((c, ec) :: drop_id p es) /\
    h' !! p = Some (timer_of e Null) /\ forall q, q ∉ c :: es.*1 -> h' !! q = h !! q.
Proof.
  induction es as [|[q f] es IH]; intros c ec h [|fuel] Hl Hp (_ & n & Hc & Hch) Hnd; cbn [length] in Hl; try lia; [by apply not_elem_of_nil in Hp|].
  destruct (id Hch) as (-> & n2 & Hq & Hch2). cbn [remove_loop]. rewrite bool_decide_eq_false_2 by done. rewrite (deref_at c _ _ _ Hc).
  cbn [mbind outcome_bind mNext timer_of]. rewrite drop_cons. destruct (decide (q = p)) as [->|Hne].
  - rewrite !bool_decide_eq_true_2 by done. rewrite (deref_at p _ _ _ Hq). cbn [mbind outcome_bind mNext timer_of]. rewrite (set_next_at _ _ _ _ _ Hc).
    cbn [mbind outcome_bind]. rewrite (set_next_at p _ _ _ (timer_of f n2)) by (rewrite lookup_insert_ne by ids; done). rewrite !with_next_of.
    assert (Hpe : p ∉ es.*1) by ids. assert (Hce : c ∉ es.*1) by ids. assert (c <> p) by ids. rewrite drop_notin by done.
    exists (<[p:=timer_of f Null]> (<[c:=timer_of ec n2]> h)), f. split; [done|]. split; [|split; [apply lookup_insert_eq|]].
    + split; [done|]. exists n2. rewrite lookup_insert_ne, lookup_insert_eq by done. split; [done|]. eapply chain_frame; [|exact Hch2].
      intros q Hq'. rewrite !lookup_insert_ne by (intros ->; done). done.
    + intros q Hq'. rewrite !lookup_insert_ne; [done|ids..].
  - rewrite !bool_decide_eq_false_2 by congruence. destruct (IH q f h fuel) as (h' & e & -> & Hch' & Hp' & Hfr); [lia|ids|done|ids|].
    exists h', e. split; [done|]. split; [|split; [done|intros; apply Hfr; ids]]. split; [done|]. exists (At q). rewrite Hfr by ids. done.
Qed.

(** A timer on the list has a link. *)
Lemma chain_linked h es : forall l p x, chain h l es -> p ∈ es.*1 -> h !! p = Some x -> mNext x <> Null.
Proof.
  induction es as [|[q f] es IH]; intros l p x Hch Hp Hx; [by apply not_elem_of_nil in Hp|]. destruct Hch as (-> & n & Hq & Hch).
  cbn in Hp. apply elem_of_cons in Hp as [->|Hp]; [|by eapply IH]. rewrite Hx in Hq. injection Hq as ->. cbn. rewrite (chain_head _ _ _ Hch). by destruct es as [|[??]].
Qed.

(** A timer that is on the list is taken off it. *)
Lemma remove_linked p h hd es x : chain h hd es -> NoDup es.*1 -> h !! p = Some x -> p ∈ es.*1 ->
  exists h' hd' e, remove p (MkTimers h hd) = Ret (MkTimers h' hd') /\ chain h' hd' (drop_id p es) /\ h' !! p = Some (timer_of e Null) /\
    forall q, q ∉ es.*1 -> h' !! q = h !! q.
Proof.
  intros Hch Hnd Hx Hp. unfold remove. rewrite (deref_at p _ _ _ Hx). cbn [mbind outcome_bind mListHead heap].
  rewrite bool_decide_eq_false_2 by (by eapply chain_linked). destruct es as [|[q f] es]; [by apply not_elem_of_nil in Hp|].
  destruct (id Hch) as (-> & n & Hq & Hch2). rewrite drop_cons. destruct (decide (q = p)) as [->|Hne].
  - rewrite Hx in Hq. injection Hq as ->. rewrite !bool_decide_eq_true_2 by done. unfold set_head. cbn [heap mNext timer_of]. rewrite (set_next_at _ _ _ _ _ Hx).
    exists (<[p := timer_of f Null]> h), n, f. assert (p ∉ es.*1) by ids. rewrite drop_notin by done. split; [done|].
    split; [|split; [apply lookup_insert_eq|intros; apply lookup_insert_ne; ids]]. eapply chain_frame; [|exact Hch2].
    intros q Hq. apply lookup_insert_ne. by intros ->.
  - rewrite !bool_decide_eq_false_2 by congruence. destruct (remove_loop_run p (At q) es q f h (S (size h))) as (h' & e & -> & H); try done.
    + apply dchain_size in Hch; [|done]. cbn in Hch. lia.
    + ids.
    + exists h', (At q), e. split; [done|]. exact H.
Qed.

Definition params_of (x : timer) : params := MkParams (mFireTime x) (mInterval x) (mType x) (mCallback x).

Lemma remove_agenda p t b : agenda t b -> p ∈ known b ->
  exists h' hd' e, remove p t = Ret (MkTimers h' hd') /\ agenda (MkTimers h' hd') (MkBook (known b) (drop_id p (running b))) /\ h' !! p = Some (timer_of e Null).
Proof.
  destruct t as [h hd]. intros Ha Hk. destruct (id Ha) as [Hch Hnd Hdom Hnull Hfi Hs]. cbn [heap mListHead] in *.
  rewrite <- Hdom in Hk. apply elem_of_dom in Hk as [x Hx]. destruct (decide (p ∈ (running b).*1)) as [Hp|Hp].
  - destruct (remove_linked p h hd (running b) x) as (h' & hd' & e & E & Hch' & Hp' & Hfr); try done. exists h', hd', e. split; [done|]. split; [|done].
    constructor; cbn [heap mListHead known running]; [done|by apply drop_nodup| | |by apply drop_forall|by apply drop_sorted].
    + rewrite <- Hdom. apply set_eq. intros q. rewrite !elem_of_dom. destruct (decide (q ∈ (running b).*1)) as [Hq|Hq]; [|by rewrite Hfr].
      split; intros _; [by eapply dchain_in|]. destruct (decide (q = p)) as [->|Hne]; [by eexists|]. eapply dchain_in; [exact Hch'|]. by apply drop_ids.
    + intros q y Hy Hq. rewrite drop_ids in Hq. destruct (decide (q = p)) as [->|Hne]; [rewrite Hp' in Hy; by injection Hy as <-|].
      eapply Hnull; [rewrite <- Hfr; [exact Hy|]|]; tauto.
  - exists h, hd, (params_of x). assert (Hxn : mNext x = Null) by (by eapply Hnull). unfold remove. rewrite (deref_at p _ _ _ Hx).
    cbn [mbind outcome_bind]. rewrite bool_decide_eq_true_2 by done. split; [done|]. rewrite drop_notin by done. split; [by destruct b|].
    rewrite Hx. destruct x. cbn in *. by subst.
Qed.

(** ** What the operations mean *)

Definition a_remove (p : positive) (b : book) : option book :=
  if bool_decide (p ∈ known b) then Some (MkBook (known b) (drop_id p (running b))) else None.

Definition a_start (p : positive) (f : Z) (e : params) (b : book) : option book :=
  f ← in_time f; Some (MkBook (known b) (put p (MkParams f (interval e) (ptype e) (pcb e)) (running b))).

Definition a_schedule (p : positive) (i cb : Z) (ty : Type') (now : Z) (b : book) : option book :=
  b ← a_remove p b; if 0 <? i then now ← in_time now; a_start p (i + now) (MkParams 0 i ty cb) b else Some b.

Definition a_fire (p : positive) (e : params) (now : Z) (b : book) : option book :=
  match ptype e with
  | kOneShot => Some b
  | kPeriodicFixedRate => a_start p (interval e + fires e) e b
  | kPeriodicFixedDelay => now ← in_time now; a_start p (interval e + now) e b
  end.

Lemma in_time_Some z y : in_time z = Some y -> y = z /\ 0 <= z < 2 ^ 31.
Proof. unfold in_time. case_match eqn:E; intros [= <-]. lia. Qed.

Lemma in_time_in z : 0 <= z < 2 ^ 31 -> in_time z = Some z.
Proof. intros H. unfold in_time. by replace ((0 <=? z) && (z <? 2 ^ 31)) with true by lia. Qed.

(** A timer that does not run may change, or come to be. *)
Lemma agenda_insert h hd b p e : agenda (MkTimers h hd) b -> p ∉ (running b).*1 ->
  agenda (MkTimers (<[p := timer_of e Null]> h) hd) (MkBook (known b ∪ {[p]}) (running b)).
Proof.
  intros [Hch Hnd Hdom Hnull Hfi Hs] Hp. constructor; cbn [heap mListHead known running] in *; try done.
  - eapply chain_frame; [|exact Hch]. intros q Hq. apply lookup_insert_ne. by intros ->.
  - by rewrite dom_insert_L, Hdom, union_comm_L.
  - intros q x Hx Hq. destruct (decide (q = p)) as [->|Hne]; [rewrite lookup_insert_eq in Hx; by injection Hx as <-|].
    rewrite lookup_insert_ne in Hx by done. by eapply Hnull.
Qed.

Lemma start_agenda h hd b b' p f e : agenda (MkTimers h hd) b -> p ∈ known b -> p ∉ (running b).*1 -> 0 < interval e -> a_start p f e b = Some b' ->
  exists t', (f ← cms f; add p (put_timer p (MkTimer f (interval e) (ptype e) Null (pcb e)) (MkTimers h hd))) = Ret t' /\ agenda t' b'.
Proof.
  intros Ha Hk Hp Hi H. unfold a_start in H. apply bind_Some in H as (g & [-> Hf]%in_time_Some & [= <-]). rewrite cms_in by lia. cbn [mbind outcome_bind].
  apply (add_agenda p (MkParams f (interval e) (ptype e) (pcb e)) (<[p := timer_of (MkParams f (interval e) (ptype e) (pcb e)) Null]> h) hd); [|apply lookup_insert_eq|done|done].
  replace b with (MkBook (known b ∪ {[p]}) (running b)); [by apply agenda_insert|]. destruct b. cbn in *. f_equal.
  rewrite union_comm_L. apply subseteq_union_L. by apply singleton_subseteq_l.
Qed.

Lemma schedule_refines p i cb ty now t b b' : agenda t b -> a_schedule p i cb ty now b = Some b' ->
  exists t', schedule p i cb ty now t = Ret t' /\ agenda t' b'.
Proof.
  intros Ha H. unfold a_schedule, a_remove in H. case_bool_decide as Hk; [|done]. cbn [mbind option_bind] in H.
  destruct (remove_agenda p t b Ha Hk) as (h & hd & e & E & Ha' & Hx). unfold schedule. rewrite E. cbn [mbind outcome_bind].
  destruct (0 <? i) eqn:Ei; [|injection H as <-; eauto]. apply bind_Some in H as (n & [-> Hn]%in_time_Some & H). rewrite (deref_at p _ _ _ Hx).
  cbn [mbind outcome_bind]. eapply (start_agenda h hd _ b' p (i + now) (MkParams 0 i ty cb)); try done; [|cbn; lia]. cbn. rewrite drop_ids. tauto.
Qed.

Lemma cancel_refines p t b b' : agenda t b -> a_remove p b = Some b' -> exists t', cancel p t = Ret t' /\ agenda t' b'.
Proof.
  intros Ha H. unfold a_remove in H. case_bool_decide as Hk; [|done]. injection H as <-.
  destruct (remove_agenda p t b Ha Hk) as (h & hd & e & E & Ha' & _). eauto.
Qed.

Lemma fire_refines p e es k n now h b' : agenda (MkTimers h (At p)) (MkBook k ((p, e) :: es)) -> h !! p = Some (timer_of e n) ->
  a_fire p e now (MkBook k es) = Some b' -> exists t', fire_one p (timer_of e n) now (MkTimers h (At p)) = Ret t' /\ agenda t' b'.
Proof.
  intros Ha Hx H. assert (Hk : p ∈ k). { destruct Ha as [_ _ Hd _ _ _]. cbn in Hd. rewrite <- Hd. apply elem_of_dom. by eexists. }
  assert (Hlink : n <> Null). { destruct Ha as [Hch _ _ _ _ _]. eapply (chain_linked h _ _ p (timer_of e n) Hch); [cbn; ids|done]. }
  assert (Hi : 0 < interval e). { destruct Ha as [_ _ _ _ Hf _]. apply Forall_cons in Hf as [[_ Hi] _]. done. }
  assert (Hp : p ∉ es.*1). { destruct Ha as [_ Hnd _ _ _ _]. cbn in Hnd. ids. }
  destruct (remove_agenda p _ _ Ha Hk) as (h' & hd' & e' & E & Ha' & _). unfold remove in E. rewrite (deref_at p _ _ _ Hx) in E.
  cbn [mbind outcome_bind mNext timer_of mListHead] in E. rewrite bool_decide_eq_false_2, bool_decide_eq_true_2 in E by done. unfold fire_one. cbn [mNext timer_of].
  rewrite E. cbn [mbind outcome_bind mType timer_of mInterval mFireTime mCallback]. cbn [running known] in Ha'. rewrite drop_cons, bool_decide_eq_true_2, drop_notin in Ha' by done.
  unfold a_fire in H. destruct (ptype e) eqn:Et; [injection H as <-; eauto|..]; rewrite <- Et.
  - by eapply start_agenda.
  - apply bind_Some in H as (m & [-> Hn]%in_time_Some & H). by eapply start_agenda.
Qed.

(** ** The timers in use *)

(** What callbacks and the rest of the daemon do with timers, with the time at which they
    do it: timers are made and destroyed, scheduled and canceled, and the due ones run. *)
Inductive action : Type :=
| New (p : positive)
| Delete (p : positive)
| Schedule (p : positive) (i cb : Z) (ty : Type') (now : Z)
| Cancel (p : positive)
| Process (clock : list (Z * Z)).

(** The callbacks that have run, and for which timer. *)
Abbreviation history := (list (Z * positive)).

(** The destructor. *)
Definition Timer_delete (p : positive) (t : timers) : outcome timers := t ← remove p t; Ret (MkTimers (delete p (heap t)) (mListHead t)).

Section Use.
(** What a callback does when it runs for a timer; it may depend on all that has run. *)
Context (prog : history -> Z -> positive -> list action).

Fixpoint perform (f : action -> timers * history -> outcome (timers * history)) (acts : list action) (x : timers * history)
  : outcome (timers * history) :=
  match acts with [] => Ret x | a :: acts => x ← f a x; perform f acts x end.

(** A callback acts by way of [f]. *)
Definition run_callback (f : action -> timers * history -> outcome (timers * history)) (cb : Z) (p : positive)
  (ts : timers * history) : outcome (timers * history) :=
  let '(t, log) := ts in let log := log ++ [(cb, p)] in perform f (prog log cb p) (t, log).

(** [fuel] bounds how deep calls of [process] are nested. *)
Fixpoint step (fuel : nat) (a : action) (ts : timers * history) : outcome (timers * history) :=
  let '(t, log) := ts in
  match a with
  | New p => Ret (MkTimers (<[p := Timer_init]> (heap t)) (mListHead t), log)
  | Delete p => t ← Timer_delete p t; Ret (t, log)
  | Schedule p i cb ty now => t ← schedule p i cb ty now t; Ret (t, log)
  | Cancel p => t ← cancel p t; Ret (t, log)
  | Process clock => match fuel with O => NoFuel | S fuel => process (run_callback (step fuel)) clock t log end
  end.

(** The same on the agenda. *)
Fixpoint a_perform (f : action -> book * history -> option (book * history)) (acts : list action) (x : book * history)
  : option (book * history) :=
  match acts with [] => Some x | a :: acts => x ← f a x; a_perform f acts x end.
Definition a_callback (f : action -> book * history -> option (book * history)) (cb : Z) (p : positive) (b : book) (log : history)
  : option (book * history) :=
  let log := log ++ [(cb, p)] in a_perform f (prog log cb p) (b, log).

Fixpoint a_process (cb : Z -> positive -> book -> history -> option (book * history)) (clock : list (Z * Z)) (b : book) (log : history)
  : option (book * history) :=
  match clock with
  | [] => None
  | (now, later) :: clock =>
      match running b with
      | [] => Some (b, log)
      | (p, e) :: es =>
          now ← in_time now;
          if fires e <=? now then
            b ← a_fire p e later (MkBook (known b) es);
            '(b, log) ← cb (pcb e) p b log;
            a_process cb clock b log
          else Some (b, log)
      end
  end.

(** Only a timer that does not exist is made, and only one that exists is used. *)
Fixpoint a_step (fuel : nat) (a : action) (bl : book * history) : option (book * history) :=
  let '(b, log) := bl in
  match a with
  | New p => if bool_decide (p ∈ known b) then None else Some (MkBook (known b ∪ {[p]}) (running b), log)
  | Delete p => b ← a_remove p b; Some (MkBook (known b ∖ {[p]}) (running b), log)
  | Schedule p i cb ty now => b ← a_schedule p i cb ty now b; Some (b, log)
  | Cancel p => b ← a_remove p b; Some (b, log)
  | Process clock => match fuel with O => None | S fuel => a_process (a_callback (a_step fuel)) clock b log end
  end.

(** [f] does to the list what [g] does to the agenda. *)
Definition refines {A} (f : A -> timers * history -> outcome (timers * history)) (g : A -> book * history -> option (book * history)) : Prop :=
  forall a t b log b' log', agenda t b -> g a (b, log) = Some (b', log') -> exists t', f a (t, log) = Ret (t', log') /\ agenda t' b'.

Lemma perform_refines f g : refines f g -> refines (perform f) (a_perform g).
Proof.
  intros Hf acts. induction acts as [|a acts IH]; intros t b log b' log' Ha H; [injection H as <- <-; eauto|]. cbn [a_perform] in H.
  apply bind_Some in H as ([b1 log1] & H1 & H). destruct (Hf _ _ _ _ _ _ Ha H1) as (t1 & E & Ha1). cbn [perform]. rewrite E. cbn [mbind outcome_bind]. by eapply IH.
Qed.

Lemma process_refines f g : refines f g -> refines (fun clock '(t, log) => process (run_callback f) clock t log) (fun clock '(b, log) => a_process (a_callback g) clock b log).
Proof.
  intros Hf clock. induction clock as [|[now later] clock IH]; intros [h hd] [k es] log b' log' Ha H; [done|]. cbn [a_process running known] in H. cbn [process].
  pose proof (ag_chain _ _ Ha) as Hch. cbn [running heap mListHead] in Hch. destruct es as [|[p e] es].
  - cbn in Hch. subst hd. injection H as <- <-. rewrite bool_decide_eq_true_2 by done. eauto.
  - destruct (id Hch) as (-> & n & Hx & _). apply bind_Some in H as (y & [-> Hn]%in_time_Some & H). rewrite bool_decide_eq_false_2 by done. cbn [mListHead].
    rewrite (deref_at p _ _ _ Hx). cbn [mbind outcome_bind]. unfold is_expired. cbn [mFireTime timer_of].
    destruct (Forall_inv (ag_fine _ _ Ha)) as [Hfi _]. cbn in Hfi. rewrite time_le_in by done. cbn [mbind outcome_bind].
    destruct (fires e <=? now); [|injection H as <- <-; eauto]. apply bind_Some in H as (b1 & H1 & H). apply bind_Some in H as ([b2 log2] & H2 & H).
    destruct (fire_refines p e es k n later h b1 Ha Hx H1) as (t1 & -> & Ha1). cbn [mbind outcome_bind mCallback timer_of run_callback].
    destruct (perform_refines f g Hf _ _ _ _ _ _ Ha1 H2) as (t2 & -> & Ha2). cbn [mbind outcome_bind]. by eapply IH.
Qed.

Lemma delete_refines p t b b1 : agenda t b -> a_remove p b = Some b1 ->
  exists t', Timer_delete p t = Ret t' /\ agenda t' (MkBook (known b1 ∖ {[p]}) (running b1)).
Proof.
  intros Ha H1. unfold a_remove in H1. case_bool_decide as Hk; [|done]. injection H1 as <-.
  destruct (remove_agenda p t b Ha Hk) as (h & hd & e & E & [Hch Hnd Hdom Hnull Hfi Hs] & Hx). unfold Timer_delete. rewrite E. cbn [mbind outcome_bind heap mListHead known running] in *.
  eexists. split; [done|]. constructor; cbn [heap mListHead known running]; try done.
  - eapply chain_frame; [|exact Hch]. intros q Hq. apply lookup_delete_ne. apply drop_ids in Hq as [Hne _]. by apply not_eq_sym.
  - by rewrite dom_delete_L, Hdom.
  - intros q y Hy Hq. apply lookup_delete_Some in Hy as [_ Hy]. by eapply Hnull.
Qed.

Lemma step_refines fuel : refines (step fuel) (a_step fuel).
Proof.
  induction fuel as [|fuel IH]; intros [p|p|p i cb ty now|p|clock] t b log b' log' Ha H; cbn [step a_step] in *; try done.
  all: try (case_bool_decide as Hk; [done|]; injection H as <- <-; eexists; split; [done|]; destruct t as [h hd];
    apply (agenda_insert h hd b p (params_of Timer_init)); [done|]; intros Hp; apply Hk; rewrite <- (ag_dom _ _ Ha); apply elem_of_dom;
    by eapply dchain_in, Hp; apply (ag_chain _ _ Ha)).
  all: try (apply bind_Some in H as (b1 & H1 & [= <- <-]);
    first [destruct (delete_refines _ _ _ _ Ha H1) as (t' & -> & Ha')|destruct (schedule_refines _ _ _ _ _ _ _ _ Ha H1) as (t' & -> & Ha')
          |destruct (cancel_refines _ _ _ _ Ha H1) as (t' & -> & Ha')]; cbn [mbind outcome_bind]; by eauto).
  by eapply (process_refines _ _ IH clock).
Qed.

(** *** Timers nobody touches *)

(** Does the action name the timer [p]? *)
Definition touches (p : positive) (a : action) : Prop :=
  match a with New q | Delete q | Schedule q _ _ _ _ | Cancel q => q = p | Process _ => False end.

Section Untouched.
Context (p : positive) (e : params).
Hypothesis alone : forall log cb q a, a ∈ prog log cb q -> ~ touches p a.

(** The timer still runs, or its callback has run since [n] callbacks had. *)
Definition served (n : nat) (bl : book * history) : Prop := (n <= length bl.2)%nat /\ ((p, e) ∈ running bl.1 \/ (pcb e, p) ∈ drop n bl.2).

Lemma drop_kept q es : q <> p -> (p, e) ∈ es -> (p, e) ∈ drop_id q es.
Proof. intros Hq He. unfold drop_id. apply list_elem_of_filter. cbn. by split; [apply not_eq_sym|]. Qed.

Lemma put_kept q f es : (p, e) ∈ es -> (p, e) ∈ put q f es.
Proof. intros He. rewrite put_perm. by right. Qed.

Lemma remove_kept q b b' : q <> p -> a_remove q b = Some b' -> (p, e) ∈ running b -> (p, e) ∈ running b'.
Proof. intros Hq H He. unfold a_remove in H. case_bool_decide; [|done]. injection H as <-. by apply drop_kept. Qed.

Lemma start_kept q f x b b' : a_start q f x b = Some b' -> (p, e) ∈ running b -> (p, e) ∈ running b'.
Proof. intros H He. unfold a_start in H. apply bind_Some in H as (g & _ & [= <-]). by apply put_kept. Qed.

Lemma fire_kept q f now b b' : a_fire q f now b = Some b' -> (p, e) ∈ running b -> (p, e) ∈ running b'.
Proof.
  intros H He. unfold a_fire in H. destruct (ptype f); [by injection H as <-|by eapply start_kept|].
  apply bind_Some in H as (g & _ & H). by eapply start_kept.
Qed.

Lemma perform_served f n acts : (forall a x x', a ∈ acts -> f a x = Some x' -> served n x -> served n x') ->
  forall x x', a_perform f acts x = Some x' -> served n x -> served n x'.
Proof.
  induction acts as [|a acts IH]; intros Hf x x' H Hx; [by injection H as <-|]. cbn [a_perform] in H. apply bind_Some in H as (y & H1 & H).
  eapply IH; [|exact H|]; [|eapply Hf; [by left|exact H1|done]]. intros a' y1 y2 Ha'. apply Hf. by right.
Qed.

Lemma process_served f n : (forall log cb q a x x', a ∈ prog log cb q -> f a x = Some x' -> served n x -> served n x') ->
  forall clock b log x', a_process (a_callback f) clock b log = Some x' -> served n (b, log) -> served n x'.
Proof.
  intros Hf clock. induction clock as [|[now later] clock IH]; intros [k es] log x' H Hs; [done|]. cbn [a_process running known] in H.
  destruct es as [|[q g] es]; [by injection H as <-|]. apply bind_Some in H as (y & _ & H). destruct (fires g <=? y); [|by injection H as <-].
  apply bind_Some in H as (b1 & H1 & H). apply bind_Some in H as ([b2 log2] & H2 & H). eapply IH; [exact H|].
  unfold a_callback in H2. cbn in H2. eapply perform_served; [|exact H2|]; [intros a x x1 Ha; by eapply Hf|].
  destruct Hs as [Hn Hs]. cbn [fst snd running] in *. split; cbn [fst snd]; [rewrite length_app; lia|]. rewrite drop_app_le, elem_of_app by done.
  destruct Hs as [Hs|Hs]; [|tauto]. apply elem_of_cons in Hs as [[= <- <-]|Hs]; [right; right; by left|]. left. by eapply fire_kept.
Qed.

Lemma step_served fuel n : forall a x x', ~ touches p a -> a_step fuel a x = Some x' -> served n x -> served n x'.
Proof.
  induction fuel as [|fuel IH]; intros [q|q|q i cb ty now|q|clock] [b log] x' Ht H Hs; cbn [a_step touches] in *; try done.
  all: try (case_bool_decide; [done|]; injection H as <-; exact Hs).
  all: try (apply bind_Some in H as (b1 & H1 & [= <-]); destruct Hs as [Hn Hs]; split; [exact Hn|]; cbn [fst snd running] in *; destruct Hs as [Hs|Hs]; [left|by right]).
  all: try (by eapply remove_kept).
  all: try (unfold a_schedule in H1; apply bind_Some in H1 as (b2 & H2 & H3); destruct (0 <? i); [|injection H3 as <-; by eapply remove_kept];
    apply bind_Some in H3 as (g & _ & H3); eapply start_kept; [exact H3|]; by eapply remove_kept).
  eapply process_served; [|exact H|done]. intros l cb q a y y' Ha. eapply IH. by eapply alone.
Qed.

End Untouched.

(** What a call of [process] leaves is due after its last look at the clock. *)
Lemma a_process_left f now clock : Forall (fun c => now <= c.1) clock -> forall b log b' log',
  a_process (a_callback f) clock b log = Some (b', log') -> match running b' with [] => True | (_, e) :: _ => now < fires e end.
Proof.
  induction 1 as [|[x later] clock Hx Hc IH]; intros [k es] log b' log' H; [done|]. cbn [a_process running known fst] in *.
  destruct es as [|[q g] es]; [by injection H as <- <-|]. apply bind_Some in H as (y & [-> _]%in_time_Some & H). destruct (fires g <=? x) eqn:E.
  - apply bind_Some in H as (b1 & H1 & H). apply bind_Some in H as ([b2 log2] & H2 & H). by eapply IH.
  - injection H as <- <-. cbn. lia.
Qed.

End Use.

Lemma agenda_start : agenda (MkTimers ∅ End_) (MkBook ∅ []).
Proof. constructor; cbn; try done; constructor. Qed.

(** ** All that is due *)

(** Callbacks that leave the timers alone. *)
Definition idle (_ : history) (_ : Z) (_ : positive) : list action := [].

(** The milliseconds by which the timers are late, with one for each that is due. *)
Definition lateness (now : Z) (es : list (positive * params)) : nat := sum_list_with (fun x => Z.to_nat (now + 1 - fires x.2)) es.

Lemma lateness_put now p e es : lateness now (put p e es) = (Z.to_nat (now + 1 - fires e) + lateness now es)%nat.
Proof. unfold lateness. induction es as [|[q f] es IH]; cbn; [done|]. case_match; cbn; lia. Qed.

Definition restartable (now : Z) (x : positive * params) : Prop := 0 < interval x.2 /\ interval x.2 + now < 2 ^ 31.

(** Firing the first timer leaves less to do and takes no other timer off the list. *)
Lemma a_fire_progress now p e es k : 0 <= fires e <= now -> restartable now (p, e) -> Forall (restartable now) es -> StronglySorted no_later es -> Forall fine es ->
  exists es', a_fire p e now (MkBook k es) = Some (MkBook k es') /\ (lateness now es' < lateness now ((p, e) :: es))%nat /\
    Forall (restartable now) es' /\ StronglySorted no_later es' /\ Forall fine es' /\ es ⊆ es'.
Proof.
  intros Hf [Hi Hr] Hres Hs Hfi. cbn in Hi, Hr. unfold a_fire, a_start.
  assert (Hput : forall f, fires e < f < 2 ^ 31 -> f <= interval e + now -> exists es', (f ← in_time f; Some (MkBook k (put p (MkParams f (interval e) (ptype e) (pcb e)) es))) = Some (MkBook k es') /\
    (lateness now es' < lateness now ((p, e) :: es))%nat /\ Forall (restartable now) es' /\ StronglySorted no_later es' /\ Forall fine es' /\ es ⊆ es').
  { intros f Hlt Hle. rewrite in_time_in by lia. eexists. split; [done|]. rewrite lateness_put.
    split; [unfold lateness; cbn; lia|]. split; [rewrite put_perm; by constructor|]. split; [by apply put_sorted|]. split; [rewrite put_perm; constructor; [split; cbn; lia|done]|].
    intros x Hx. rewrite put_perm. by right. }
  destruct (ptype e); cbn [known running].
  - exists es. split; [done|]. split; [unfold lateness; cbn; lia|done].
  - apply Hput; lia.
  - rewrite (in_time_in now) by lia. apply Hput; lia.
Qed.

Lemma a_process_ends now : 0 <= now < 2 ^ 31 -> forall n k es log, (lateness now es < n)%nat -> Forall (restartable now) es -> StronglySorted no_later es -> Forall fine es ->
  exists es' log', a_process (a_callback idle (a_step idle 0)) (replicate n (now, now)) (MkBook k es) log = Some (MkBook k es', log ++ log').
Proof.
  intros Hnow. induction n as [|n IH]; intros k es log Hn Hres Hs Hfi; [lia|]. cbn [replicate a_process running known]. destruct es as [|[p e] es].
  - exists [], []. by rewrite app_nil_r.
  - rewrite in_time_in by lia. cbn [mbind option_bind].
    apply Forall_cons in Hfi as [[Hf _] Hfi]. apply Forall_cons in Hres as [Hr Hres]. apply StronglySorted_inv in Hs as [Hs Hle]. cbn in Hf.
    destruct (fires e <=? now) eqn:E.
    + destruct (a_fire_progress now p e es k) as (es1 & -> & Hlt & H1 & H2 & H3 & Hsub); try done; [lia|]. cbn [mbind option_bind a_callback a_perform idle].
      destruct (IH k es1 (log ++ [(pcb e, p)])) as (es' & log' & ->); try done; [lia|]. exists es', ((pcb e, p) :: log'). by rewrite <- app_assoc.
    + exists ((p, e) :: es), []. by rewrite app_nil_r.
Qed.

(** How long the main loop may wait: until the first timer, or as it was told. *)
Lemma update_timeout_spec v now t b : agenda t b -> 0 <= now < 2 ^ 31 -> exists c, update_timeout (Some v) now t = Ret (Some (Z.min c v)) /\
  match running b with [] => c = StrUtil.CMS_DISTANT_FUTURE | (_, e) :: _ => c = Z.max 0 (fires e - now) end /\
  Forall (fun x => c <= Z.max 0 (fires x.2 - now)) (running b).
Proof.
  destruct t as [h hd]. intros [Hch _ _ _ Hfi Hs] Hn. cbn [heap mListHead] in Hch. unfold update_timeout, get_ms_to_next_event. cbn [mListHead].
  destruct (running b) as [|[p e] es].
  - cbn in Hch. subst hd. rewrite bool_decide_eq_true_2 by done. cbn [mbind outcome_bind]. eexists. split; [|done]. do 2 f_equal. case_match; lia.
  - destruct Hch as (-> & n & Hx & _). destruct (Forall_inv Hfi) as [Hf _]. cbn in Hf. rewrite bool_decide_eq_false_2, (deref_at p _ _ _ Hx) by done.
    cbn [mbind outcome_bind mFireTime timer_of]. rewrite cms_in by lia. cbn [mbind outcome_bind]. apply StronglySorted_inv in Hs as [_ Hle].
    exists (Z.max 0 (fires e - now)). split; [do 2 f_equal; repeat case_match; lia|]. split; [done|]. constructor; [done|].
    eapply Forall_impl; [exact Hle|]. unfold no_later. cbn. intros; lia.
Qed.

(** ** What the timers guarantee *)

(** C25: However timers are created, scheduled, canceled, destroyed and processed, by the
    daemon and by the callbacks themselves, which may do any of this, in a way that depends
    on all the callbacks that ran before, [process] within [process] included: the linked
    list answers as an agenda ordered by fire time does: the same callbacks run for the
    same timers in the same order, no link is followed to a timer that is not there, and
    the list holds exactly the running timers in the order of their fire times; as long as
    only timers that exist are used, times and fire times are between 0 and 2^31 ms, and
    the calls of [process] end. *)
Theorem timers_refine_agenda prog fuel acts b log : a_perform (a_step prog fuel) acts (MkBook ∅ [], []) = Some (b, log) ->
  exists t, perform (step prog fuel) acts (MkTimers ∅ End_, []) = Ret (t, log) /\ agenda t b.
Proof. apply (perform_refines _ _ (step_refines prog fuel)), agenda_start. Qed.

(** Four timers; the callback of the second schedules the third, cancels the first,
    destroys itself and, the first time it runs, makes a timer and processes the list. *)
Definition sample_prog (log : history) (cb : Z) (p : positive) : list action :=
  if cb =? 2 then [Schedule 3 5 3 kOneShot 120; Cancel 1; Delete p] ++ (if bool_decide (length log = 1%nat) then [New 4; Process [(126, 126); (126, 126)]] else [])
  else [].
Definition sample_acts : list action :=
  [New 1; New 2; New 3; Schedule 1 50 1 kPeriodicFixedRate 100; Schedule 2 20 2 kPeriodicFixedDelay 100;
   Process [(110, 110)]; Process [(120, 121); (126, 126)]].

Lemma timers_refine_agenda_witness :
  exists t, perform (step sample_prog 2) sample_acts (MkTimers ∅ End_, []) = Ret (t, [(2, 2%positive); (3, 3%positive)]) /\
    agenda t (MkBook {[1%positive; 3%positive; 4%positive]} []).
Proof. apply (timers_refine_agenda sample_prog 2 sample_acts). vm_compute. reflexivity. Defined.

(** C26: A call of [process] all of whose looks at the clock are at [now] or later leaves
    nothing due at [now], whatever the callbacks do, and every timer that was due at [now]
    and that no callback touches (schedules, cancels or destroys) has got its callback.
    And it ends, if the callbacks leave the timers alone, the clock stands still and no
    restart passes 2^31 ms: one look at the clock for each millisecond of lateness and one
    more suffice. *)
Theorem process_fires_all_due prog fuel now clock t b log : agenda t b ->
  (forall b' log', Forall (fun c => now <= c.1) clock -> a_step prog (S fuel) (Process clock) (b, log) = Some (b', log') ->
     exists t', step prog (S fuel) (Process clock) (t, log) = Ret (t', log') /\ agenda t' b' /\
       Forall (fun x => now < fires x.2) (running b') /\
       forall p e, (p, e) ∈ running b -> fires e <= now -> (forall l cb q a, a ∈ prog l cb q -> ~ touches p a) ->
         (pcb e, p) ∈ drop (length log) log') /\
  (forall n, 0 <= now < 2 ^ 31 -> Forall (restartable now) (running b) -> (lateness now (running b) < n)%nat ->
     exists b' log', a_step idle 1 (Process (replicate n (now, now))) (b, log) = Some (b', log')).
Proof.
  intros Ha. split.
  - intros b' log' Hc H. destruct (step_refines prog (S fuel) (Process clock) t b log b' log' Ha H) as (t' & E & Ha'). exists t'. split; [done|]. split; [done|].
    assert (Forall (fun x => now < fires x.2) (running b')) as Hdue.
    { cbn [a_step] in H. pose proof (a_process_left prog _ now clock Hc b log b' log' H) as Hl. pose proof (ag_sorted _ _ Ha') as Hs.
      destruct (running b') as [|[q g] es]; [done|]. apply StronglySorted_inv in Hs as [_ Hs]. constructor; [done|].
      eapply Forall_impl; [exact Hs|]. unfold no_later. cbn. intros; lia. }
    split; [done|]. intros p e He Hf Halone.
    assert (served p e (length log) (b, log)) as Hs0 by (split; [done|by left]).
    destruct (step_served prog p e Halone (S fuel) (length log) (Process clock) (b, log) (b', log') (fun x => x) H Hs0) as [_ [Hin|Hin]]; [|done].
    rewrite Forall_forall in Hdue. specialize (Hdue _ Hin). cbn in Hdue. lia.
  - intros n Hn Hr Hl. destruct b as [k es]. destruct (a_process_ends now Hn n k es log Hl Hr (ag_sorted _ _ Ha) (ag_fine _ _ Ha)) as (es' & log' & E).
    exists (MkBook k es'), (log ++ log'). exact E.
Qed.

Definition one_late : book := MkBook {[1%positive]} [(1%positive, MkParams 100 30 kPeriodicFixedRate 7)].
Definition one_late_timers : timers := MkTimers {[1%positive := MkTimer 100 30 kPeriodicFixedRate End_ 7]} (At 1).

Lemma one_late_agenda : agenda one_late_timers one_late.
Proof.
  constructor; cbn.
  - split; [done|]. exists End_. done.
  - apply NoDup_singleton.
  - vm_compute. reflexivity.
  - intros p x Hx Hp. apply lookup_singleton_Some in Hx as [<- _]. exfalso. apply Hp. by left.
  - repeat constructor; cbn; lia.
  - repeat constructor.
Qed.

Lemma process_fires_all_due_witness :
  (exists b' log', a_step idle 1 (Process (replicate 72 (170, 170))) (one_late, []) = Some (b', log')) /\
  exists t', step idle 1 (Process (replicate 4 (170, 170))) (one_late_timers, []) = Ret (t', replicate 3 (7, 1%positive)).
Proof.
  split.
  - apply (process_fires_all_due idle 0 170 [] one_late_timers one_late [] one_late_agenda); [lia|repeat constructor; cbn; lia|vm_compute; lia].
  - destruct (proj1 (process_fires_all_due idle 0 170 (replicate 4 (170, 170)) one_late_timers one_late [] one_late_agenda)
      (MkBook {[1%positive]} [(1%positive, MkParams 190 30 kPeriodicFixedRate 7)]) (replicate 3 (7, 1%positive))) as (t' & E & _).
    + repeat constructor; cbn; lia.
    + vm_compute. reflexivity.
    + by exists t'.
Defined.

(** ** Where the comments and the code part *)

(** A canceled timer whose time has not come is not expired, though the header says of
    [is_expired] that it is true of a timer that is not running. *)
Example canceled_not_expired : exists t x, (t ← schedule 1 50 7 kOneShot 100 (MkTimers {[1%positive := Timer_init]} End_); cancel 1 t) = Ret t /\
  heap t !! 1%positive = Some x /\ mNext x = Null /\ is_expired x 120 = Ret false.
Proof. eexists _, _. split; [vm_compute; reflexivity|]. split; [reflexivity|]. split; reflexivity. Qed.

(** A clock near the end of its range: the fire time overflows. *)
Example schedule_overflows : schedule 1 1000 7 kOneShot (2 ^ 31 - 500) (MkTimers {[1%positive := Timer_init]} End_) = Undef SignedOverflow.
Proof. reflexivity. Qed.

End DaemonTimer.
