(* ===== verification/HexLine.v ===== *)
(** * Memory dumps as lines of text (gateway_common/src/hexline.c)

    A line shows an address, up to sixteen bytes in hexadecimal, each in the column its
    address asks for, and the same bytes as characters.  [struct hexline] is a record whose
    data is the memory behind its pointer; the digits of a number are written from the
    last to the first as in the code.  The loop around it is that of LOG_hexdump of log.c,
    and keeps the lines, which the code formats but no longer prints. *)

From Stdlib Require Import ZArith Lia.
From stdpp Require Import base list option numbers.
From S2P Require Import Prelude CStr.

Open Scope Z_scope.

Import CStr.

Module HexLine.

Record hexline : Type := MkHexline { addr : Z; pBytes : list Z; nbytes : Z; ndone : Z; buf : list Z }.

Definition HEXLINE_init (addr : Z) (pBytes : list Z) (nbytes : Z) : hexline := MkHexline addr pBytes nbytes 0 (replicate 90 0).

Definition hexify (v : Z) : Z := let v := Z.land v 15 + 48 in if 57 <? v then v - 48 - 10 + 97 else v.

(** [n] digits at [off], the last one first. *)
Fixpoint hexdigits (b : list Z) (off : Z) (n : nat) (v : Z) : outcome (list Z) :=
  match n with
  | O => Ret b
  | S n => b ← mem_write b (off + Z.of_nat n) [hexify (int32 v)]; hexdigits b off n (Z.shiftr v 4)
  end.

(** The columns from the [n]th before the last on. *)
Fixpoint line_loop (n : nat) (wr : Z) (h : hexline) : outcome hexline :=
  match n with
  | O => Ret h
  | S n' =>
      let x := 16 - Z.of_nat n in
      v ← byte (pBytes h) (ndone h);
      b ← hexdigits (buf h) (wr + 1 + 1 + x * 3) 2 v;
      b ← mem_write b (wr + 59 - 8 + x) [if (v <? 0x20) || (0x7e <? v) then 46 else v];
      let done := u64 (ndone h + 1) in
      let h := MkHexline (addr h) (pBytes h) (nbytes h) done b in
      if nbytes h <=? done then Ret h else line_loop n' wr h
  end.

Definition HEXLINE_format (h : hexline) : outcome hexline :=
  let b := replicate 89 32 ++ [0] in
  let a := Z.land (u64 (addr h + ndone h)) (u64 (Z.lnot 0x0f)) in
  let wr := if 0x100000000 <? a then 16 else 8 in
  b ← hexdigits b 0 (Z.to_nat wr) a;
  b ← mem_write b (wr + 8 - 8) [58];
  b ← mem_write b (wr + 33 - 8) [45];
  b ← mem_write b (wr + 58 - 8) [124];
  b ← mem_write b (wr + 75 - 8) [124];
  b ← mem_write b (wr + 76 - 8) [0];
  let x := Z.land (u64 (addr h + ndone h)) 0x0f in
  line_loop (Z.to_nat (16 - x)) wr (MkHexline (addr h) (pBytes h) (nbytes h) (ndone h) b).

(** The loop over the lines. *)
Fixpoint hexdump (fuel : nat) (h : hexline) : outcome (list (list Z)) :=
  match fuel with
  | O => NoFuel
  | S fuel =>
      if ndone h <? nbytes h then
        h ← HEXLINE_format h;
        s ← cstr (buf h) 0;
        ls ← hexdump fuel h;
        Ret (s :: ls)
      else Ret []
  end.

(** ** Reading a line *)

Definition hexval (s : list Z) : Z := fold_left (fun v c => 16 * v + default 0 (digit c)) s 0.

Fixpoint read_cells (n : nat) (s : list Z) : list Z :=
  match n, s with
  | S n, a :: b :: _ :: s =>
      match digit a, digit b with Some u, Some v => (16 * u + v) :: read_cells n s | _, _ => read_cells n s end
  | _, _ => []
  end.

(** The address in front of the colon and the bytes of the sixteen columns. *)
Definition read_line (s : list Z) : Z * list Z :=
  match strchr 58 s with
  | Some wr => (hexval (take wr s), read_cells 16 (drop (wr + 2) s))
  | None => (0, [])
  end.

(** The address a line shows for [a]. *)
Definition shown (a : Z) : Z := if a =? 2 ^ 32 then 0 else a.

(** The data cut at the multiples of sixteen. *)
Fixpoint rows (fuel : nat) (a : Z) (d : list Z) : list (Z * list Z) :=
  match fuel, d with
  | S fuel, _ :: _ => let k := Z.to_nat (16 - a mod 16) in (shown (a - a mod 16), take k d) :: rows fuel (a + Z.of_nat k) (drop k d)
  | _, _ => []
  end.

(** ** Digits *)

Fixpoint hexs (n : nat) (v : Z) : list Z := match n with O => [] | S n => hexs n (Z.shiftr v 4) ++ [hexify (int32 v)] end.

Lemma hexs_length n : forall v, length (hexs n v) = n.
Proof. induction n; intros v; cbn; [done|]. rewrite length_app, IHn. cbn. lia. Qed.

Lemma hexdigits_run n : forall a d b v, length d = n -> hexdigits (a ++ d ++ b) (zlen a) n v = Ret (a ++ hexs n v ++ b).
Proof.
  induction n as [|n IH]; intros a d b v Hd; [by apply nil_length_inv in Hd as ->|]. destruct d as [|y d' _] using rev_ind; [done|].
  rewrite length_app in Hd. cbn [length] in Hd. cbn [hexdigits hexs]. replace (zlen a + Z.of_nat n) with (zlen (a ++ d')) by (rewrite zlen_app; unfold zlen; lia).
  replace (a ++ (d' ++ [y]) ++ b) with ((a ++ d') ++ y :: b) by (by rewrite <- !app_assoc). rewrite mem_write_mid. cbn [mbind outcome_bind].
  rewrite <- app_assoc, IH by lia. by rewrite <- app_assoc.
Qed.

Lemma land15 v : Z.land v 15 = v mod 16.
Proof. change 15 with (Z.ones 4). by rewrite Z.land_ones by lia. Qed.

Lemma land_line p : 0 <= p < 2 ^ 64 -> Z.land p (u64 (Z.lnot 15)) = p - p mod 16.
Proof.
  intros Hp. unfold u64. rewrite <- Z.land_ones, (Z.land_comm (Z.lnot 15)), Z.land_assoc, Z.land_ones, Z.mod_small by lia.
  rewrite <- Z.ldiff_land. change 15 with (Z.ones 4). rewrite Z.ldiff_ones_r, Z.shiftl_mul_pow2, Z.shiftr_div_pow2 by lia. change (2 ^ 4) with 16.
  pose proof (Z.div_mod p 16). lia.
Qed.

Lemma hexify_int32 v : hexify (int32 v) = hexify v.
Proof.
  unfold hexify. rewrite !land15. replace (int32 v mod 16) with (v mod 16); [done|]. unfold int32. Z.div_mod_to_equations. lia.
Qed.

Lemma hexify_digit v : digit (hexify v) = Some (v mod 16).
Proof.
  unfold hexify, digit. rewrite land15. pose proof (Z.mod_pos_bound v 16 ltac:(lia)).
  repeat case_match; try (f_equal; lia); lia.
Qed.

Lemma hexval_hexs n : forall v, hexval (hexs n v) = v mod 16 ^ Z.of_nat n.
Proof.
  induction n as [|n IH]; intros v; [by rewrite Z.mod_1_r|]. cbn [hexs]. unfold hexval. rewrite fold_left_app. cbn [fold_left]. fold (hexval (hexs n (Z.shiftr v 4))).
  rewrite IH, hexify_int32, hexify_digit. cbn [default]. rewrite Z.shiftr_div_pow2 by lia. change (2 ^ 4) with 16.
  rewrite Nat2Z.inj_succ, Z.pow_succ_r by lia. rewrite (Z.rem_mul_r v 16) by (try apply Z.pow_pos_nonneg; lia). cbn [id]. lia.
Qed.

Lemma hexify_ne c v : c < 48 \/ 57 < c < 97 -> hexify v <> c.
Proof.
  intros Hc E. unfold hexify in E. rewrite land15 in E. pose proof (Z.mod_pos_bound v 16 ltac:(lia)). case_match; lia.
Qed.

Lemma hexs_ne c n : c < 48 \/ 57 < c < 97 -> forall v, Forall (fun x => x <> c) (hexs n v).
Proof. intros Hc. induction n; intros v; cbn; [done|]. apply Forall_app. split; [done|]. constructor; [by apply hexify_ne|done]. Qed.

(** ** The line as a whole *)

(** A column: two digits or blanks, and what follows them. *)
Definition two (c : option Z) : list Z := match c with Some v => hexs 2 v | None => [32; 32] end.
Definition ascii (c : option Z) : Z := match c with Some v => if (v <? 0x20) || (0x7e <? v) then 46 else v | None => 32 end.
Fixpoint cells_text (x : nat) (cs : list (option Z)) : list Z :=
  match cs with [] => [] | c :: cs => two c ++ [if (x =? 7)%nat then 45 else 32] ++ cells_text (S x) cs end.

(** The text behind the address [s], and the buffer. *)
Definition line_text (s : list Z) (cs : list (option Z)) : list Z := s ++ [58; 32] ++ cells_text 0 cs ++ [124] ++ (ascii <$> cs) ++ [124].
Definition image (s : list Z) (cs : list (option Z)) : list Z := line_text s cs ++ [0] ++ replicate (20 - length s) 32 ++ [0].

Lemma cells_text_app l : forall x r, cells_text x (l ++ r) = cells_text x l ++ cells_text (x + length l) r.
Proof.
  induction l as [|c l IH]; intros x r; cbn [app cells_text length]; [by rewrite Nat.add_0_r|]. rewrite IH, <- !app_assoc, Nat.add_succ_r. done.
Qed.

Lemma two_length c : length (two c) = 2%nat.
Proof. destruct c; [apply hexs_length|done]. Qed.

Lemma cells_text_length l : forall x, length (cells_text x l) = (3 * length l)%nat.
Proof. induction l as [|c l IH]; intros x; cbn [cells_text length]; [done|]. rewrite !length_app, IH, two_length. cbn. lia. Qed.

(** The blank line with its address. *)
Definition decorated (s : list Z) : outcome (list Z) :=
  let wr := zlen s in let b := s ++ replicate (89 - length s) 32 ++ [0] in
  b ← mem_write b (wr + 8 - 8) [58];
  b ← mem_write b (wr + 33 - 8) [45];
  b ← mem_write b (wr + 58 - 8) [124];
  b ← mem_write b (wr + 75 - 8) [124];
  mem_write b (wr + 76 - 8) [0].

Lemma decorated_blank s : length s = 8%nat \/ length s = 16%nat -> decorated s = Ret (image s (replicate 16 None)).
Proof.
  intros [Hs|Hs]; repeat (destruct s as [|? s]; [discriminate Hs|]); (destruct s; [|discriminate Hs]); reflexivity.
Qed.

(** One column filled in. *)
Lemma column_run s l r v h : buf h = image s (l ++ None :: r) -> length (l ++ None :: r) = 16%nat ->
  (b ← hexdigits (buf h) (zlen s + 1 + 1 + zlen l * 3) 2 v; mem_write b (zlen s + 59 - 8 + zlen l) [ascii (Some v)]) = Ret (image s (l ++ Some v :: r)).
Proof.
  intros -> Hl. rewrite length_app in Hl. cbn [length] in Hl. unfold image, line_text. rewrite !cells_text_app. cbn [cells_text two].
  set (t1 := s ++ [58; 32] ++ cells_text 0 l). set (t2 := [if (0 + length l =? 7)%nat then 45 else 32] ++ cells_text (S (0 + length l)) r).
  rewrite !fmap_app, !fmap_cons. set (fin := (ascii <$> r) ++ [124]). set (tl := [0] ++ replicate (20 - length s) 32 ++ [0]).
  assert (Ht1 : zlen t1 = zlen s + 1 + 1 + zlen l * 3). { subst t1. rewrite !zlen_app. unfold zlen. rewrite cells_text_length. cbn [length]. lia. }
  transitivity (b ← hexdigits (t1 ++ [32; 32] ++ (t2 ++ [124] ++ (ascii <$> l) ++ ascii None :: fin ++ tl)) (zlen t1) 2 v;
    mem_write b (zlen s + 59 - 8 + zlen l) [ascii (Some v)]).
  { rewrite Ht1. do 2 f_equal. subst t1 t2 fin tl. by rewrite <- !app_assoc. }
  rewrite hexdigits_run by done. cbn [mbind outcome_bind]. transitivity (mem_write ((t1 ++ hexs 2 v ++ t2 ++ [124] ++ (ascii <$> l)) ++ ascii None :: fin ++ tl)
    (zlen (t1 ++ hexs 2 v ++ t2 ++ [124] ++ (ascii <$> l))) [ascii (Some v)]).
  { f_equal; [by rewrite <- !app_assoc|]. rewrite !zlen_app, Ht1. subst t2. unfold zlen. rewrite length_app, hexs_length, cells_text_length, length_fmap. cbn [length]. lia. }
  rewrite mem_write_mid. f_equal. subst t1 t2 fin tl. by rewrite <- !app_assoc.
Qed.

Lemma line_loop_run s ad n : forall l pre rest, (length l + n = 16)%nat -> rest <> [] -> zlen (pre ++ rest) < 2 ^ 64 ->
  line_loop n (zlen s) (MkHexline ad (pre ++ rest) (zlen (pre ++ rest)) (zlen pre) (image s (l ++ replicate n None))) =
  Ret (MkHexline ad (pre ++ rest) (zlen (pre ++ rest)) (zlen (pre ++ take n rest)) (image s (l ++ (Some <$> take n rest) ++ replicate (n - length rest) None))).
Proof.
  induction n as [|n IH]; intros l pre rest Hl Hr Hz; [by rewrite take_0, (app_nil_r pre)|]. destruct rest as [|v rest]; [done|].
  cbn [line_loop pBytes ndone nbytes addr buf]. rewrite byte_at. cbn [mbind outcome_bind]. replace (16 - Z.of_nat (S n)) with (zlen l) by (unfold zlen; lia).
  pose proof (column_run s l (replicate n None) v (MkHexline ad [] 0 0 (image s (l ++ None :: replicate n None))) eq_refl) as E.
  cbn [buf] in E. specialize (E ltac:(rewrite length_app; cbn; rewrite length_replicate; lia)). apply bind_Ret_inv in E as (b & E1 & E2). cbn [replicate]. rewrite E1. cbn [mbind outcome_bind].
  cbn [ascii] in E2. rewrite E2. cbn [mbind outcome_bind]. assert (Hu : u64 (zlen pre + 1) = zlen (pre ++ [v])).
  { rewrite zlen_app in *. unfold u64. unfold zlen in *. cbn [length] in *. apply Z.mod_small. lia. }
  rewrite Hu. cbn [take length fmap list_fmap]. replace (pre ++ v :: rest) with ((pre ++ [v]) ++ rest) in * by (by rewrite <- app_assoc).
  destruct rest as [|w rest].
  - rewrite app_nil_r, take_nil, Z.leb_refl. cbn [length]. rewrite Nat.sub_succ, Nat.sub_0_r. done.
  - replace (zlen ((pre ++ [v]) ++ w :: rest) <=? zlen (pre ++ [v])) with false by (symmetry; apply Z.leb_gt; rewrite !zlen_app; unfold zlen; cbn [length]; lia).
    replace (l ++ Some v :: replicate n None) with ((l ++ [Some v]) ++ replicate n None) by (by rewrite <- app_assoc).
    rewrite IH by (try done; rewrite length_app; cbn; lia). rewrite <- !app_assoc, Nat.sub_succ. done.
Qed.

(** What is on the line of [ad]. *)
Definition row_cells (ad : Z) (rest : list Z) : list (option Z) :=
  let x := Z.to_nat (ad mod 16) in let k := Z.to_nat (16 - ad mod 16) in replicate x None ++ (Some <$> take k rest) ++ replicate (k - length rest) None.
Definition row_addr (ad : Z) : list Z := let a := ad - ad mod 16 in hexs (if 2 ^ 32 <? a then 16 else 8) a.

Lemma format_run ad pre rest b : 0 <= ad -> ad + zlen (pre ++ rest) < 2 ^ 64 -> rest <> [] ->
  HEXLINE_format (MkHexline ad (pre ++ rest) (zlen (pre ++ rest)) (zlen pre) b) =
  Ret (MkHexline ad (pre ++ rest) (zlen (pre ++ rest)) (zlen (pre ++ take (Z.to_nat (16 - (ad + zlen pre) mod 16)) rest))
    (image (row_addr (ad + zlen pre)) (row_cells (ad + zlen pre) rest))).
Proof.
  intros Ha Hz Hr. unfold HEXLINE_format. cbn [addr ndone pBytes nbytes]. rewrite zlen_app in Hz. set (p := ad + zlen pre). pose proof (zlen_nonneg rest). pose proof (zlen_nonneg pre).
  assert (Hu : u64 p = p) by (unfold u64; apply Z.mod_small; subst p; lia). rewrite Hu, land15. pose proof (Z.mod_pos_bound p 16 ltac:(lia)) as Hm.
  rewrite land_line by (subst p; lia). set (s := row_addr p). assert (Hs : length s = 8%nat \/ length s = 16%nat) by (subst s; unfold row_addr; rewrite hexs_length; case_match; lia).
  assert (Hwr : (if 4294967296 <? p - p mod 16 then 16 else 8) = zlen s) by (subst s; unfold row_addr, zlen; rewrite hexs_length; change (2 ^ 32) with 4294967296; by case_match).
  rewrite Hwr. replace (Z.to_nat (zlen s)) with (length s) by (unfold zlen; lia).
  replace (replicate 89 32 ++ [0]) with ([] ++ replicate (length s) 32 ++ (replicate (89 - length s) 32 ++ [0])) by (destruct Hs as [-> | ->]; reflexivity).
  change (hexdigits ?x 0 ?n ?v) with (hexdigits x (zlen (@nil Z)) n v). rewrite hexdigits_run by apply length_replicate.
  replace (hexs (length s) (p - p mod 16)) with s by (subst s; unfold row_addr; by rewrite hexs_length).
  pose proof (decorated_blank s Hs) as E. unfold decorated in E. cbn [app mbind outcome_bind]. 
  repeat (apply bind_Ret_inv in E as (? & E1 & E); cbn [mbind outcome_bind]; rewrite E1; cbn [mbind outcome_bind]; clear E1). rewrite E. cbn [mbind outcome_bind].
  pose proof (line_loop_run s ad (Z.to_nat (16 - p mod 16)) (replicate (Z.to_nat (p mod 16)) None) pre rest) as L.
  rewrite <- replicate_add in L. replace (Z.to_nat (p mod 16) + Z.to_nat (16 - p mod 16))%nat with 16%nat in L by lia.
  rewrite L; [done|rewrite length_replicate; lia|done|rewrite zlen_app; lia].
Qed.

(** ** Reading back *)

Lemma hexs_no_zero n v : no_zero (hexs n v).
Proof. apply hexs_ne. lia. Qed.

Lemma cells_no_zero cs : forall x, no_zero (cells_text x cs).
Proof.
  unfold no_zero. induction cs as [|c cs IH]; intros x; cbn [cells_text]; [done|]. apply Forall_app. split; [destruct c; [apply hexs_no_zero|by repeat constructor]|].
  constructor; [by case_match|done].
Qed.

Lemma line_no_zero s cs : no_zero s -> no_zero (line_text s cs).
Proof.
  unfold no_zero, line_text. intros Hs. rewrite !Forall_app. split; [done|]. split; [by repeat constructor|]. split; [apply cells_no_zero|].
  split; [by repeat constructor|]. split; [|by repeat constructor]. apply Forall_fmap. apply Forall_forall. intros [v|] _; cbn; [case_match; lia|lia].
Qed.

Lemma image_cstr s cs : no_zero s -> cstr (image s cs) 0 = Ret (line_text s cs).
Proof. intros Hs. apply (cstr_at [] (line_text s cs)). by apply line_no_zero. Qed.

Lemma read_cells_text cs : forall x rest, Forall (fun c => match c with Some v => is_byte v | None => True end) cs ->
  read_cells (length cs) (cells_text x cs ++ rest) = omap id cs.
Proof.
  induction cs as [|c cs IH]; intros x rest Hf; [done|]. apply Forall_cons_1 in Hf as [Hc Hf]. cbn [length cells_text]. destruct c as [v|].
  - cbn [two hexs app read_cells]. rewrite !hexify_int32, !hexify_digit, Z.shiftr_div_pow2 by lia. cbn [app omap list_omap id].
    rewrite IH by done. f_equal. unfold is_byte in Hc. change (2 ^ 4) with 16. Z.div_mod_to_equations. lia.
  - cbn [two app read_cells]. change (digit 32) with (@None Z). cbn [omap list_omap id]. by rewrite IH.
Qed.

Lemma omap_none n : omap id (replicate n (@None Z)) = [].
Proof. by induction n. Qed.

Lemma omap_some (l : list Z) : omap id (Some <$> l) = l.
Proof. induction l as [|x l IH]; cbn; [done|]. by rewrite <- IH at 2. Qed.

Lemma row_cells_length p rest : length (row_cells p rest) = 16%nat.
Proof.
  unfold row_cells. rewrite !length_app, !length_replicate, length_fmap, length_take. pose proof (Z.mod_pos_bound p 16 ltac:(lia)). lia.
Qed.

Lemma row_addr_val p : 0 <= p < 2 ^ 64 -> hexval (row_addr p) = shown (p - p mod 16).
Proof.
  intros Hp. unfold row_addr, shown. rewrite hexval_hexs. pose proof (Z.mod_pos_bound p 16 ltac:(lia)). pose proof (Z.mod_le p 16 ltac:(lia) ltac:(lia)).
  destruct (Z.ltb_spec (2 ^ 32) (p - p mod 16)) as [Hlt|Hle].
  - rewrite (proj2 (Z.eqb_neq _ _)) by lia. apply Z.mod_small. change (16 ^ Z.of_nat 16) with (2 ^ 64). lia.
  - change (16 ^ Z.of_nat 8) with (2 ^ 32). destruct (Z.eqb_spec (p - p mod 16) (2 ^ 32)) as [->|]; [done|]. apply Z.mod_small. lia.
Qed.

Lemma read_row p rest : 0 <= p < 2 ^ 64 -> is_bytes rest -> read_line (line_text (row_addr p) (row_cells p rest)) = (shown (p - p mod 16), take (Z.to_nat (16 - p mod 16)) rest).
Proof.
  intros Hp Hb. unfold read_line, line_text. set (tl := [124] ++ _). change ([58; 32] ++ cells_text 0 (row_cells p rest) ++ tl) with (58 :: 32 :: cells_text 0 (row_cells p rest) ++ tl).
  rewrite strchr_at by (apply hexs_ne; lia). rewrite take_app_length. f_equal; [by apply row_addr_val|].
  replace (drop _ _) with (cells_text 0 (row_cells p rest) ++ tl) by (rewrite drop_app_add; done).
  rewrite <- (row_cells_length p rest) at 1. rewrite read_cells_text.
  - unfold row_cells. by rewrite !omap_app, !omap_none, omap_some, app_nil_r.
  - unfold row_cells. rewrite !Forall_app. split; [by apply Forall_replicate|]. split; [|by apply Forall_replicate]. apply Forall_fmap. by apply Forall_take.
Qed.

Lemma hexdump_rows ad fuel : forall pre rest b, 0 <= ad -> ad + zlen (pre ++ rest) < 2 ^ 64 -> is_bytes rest -> (length rest < fuel)%nat ->
  exists ls, hexdump fuel (MkHexline ad (pre ++ rest) (zlen (pre ++ rest)) (zlen pre) b) = Ret ls /\ read_line <$> ls = rows fuel (ad + zlen pre) rest.
Proof.
  induction fuel as [|fuel IH]; intros pre rest b Ha Hz Hb Hf; [lia|]. cbn [hexdump ndone nbytes rows]. rewrite zlen_app in Hz. pose proof (zlen_nonneg rest). pose proof (zlen_nonneg pre).
  destruct rest as [|v rest]; [exists []; by rewrite app_nil_r, Z.ltb_irrefl|].
  replace (zlen pre <? zlen (pre ++ v :: rest)) with true by (symmetry; apply Z.ltb_lt; rewrite zlen_app; unfold zlen; cbn [length]; lia).
  rewrite format_run by (try done; rewrite zlen_app; lia). set (p := ad + zlen pre). set (k := Z.to_nat (16 - p mod 16)). cbn [mbind outcome_bind buf].
  rewrite image_cstr by apply hexs_no_zero. cbn [mbind outcome_bind]. pose proof (Z.mod_pos_bound p 16 ltac:(lia)) as Hm.
  set (im := image _ _).
  assert (Epre : (pre ++ take k (v :: rest)) ++ drop k (v :: rest) = pre ++ v :: rest) by (by rewrite <- app_assoc, take_drop).
  destruct (IH (pre ++ take k (v :: rest)) (drop k (v :: rest)) im) as (ls & E & Hls); try done.
  { rewrite Epre, zlen_app. done. }
  { by apply Forall_drop. }
  { rewrite length_drop. subst k. cbn [length] in *. lia. }
  rewrite Epre in E. rewrite E. cbn [mbind outcome_bind]. eexists. split; [done|]. rewrite fmap_cons, read_row, Hls by (done || (subst p; unfold zlen in *; cbn [length] in *; lia)). f_equal.
  destruct (Nat.le_gt_cases k (length (v :: rest))) as [Hk|Hk].
  - rewrite zlen_app. unfold zlen at 2. by rewrite length_take_le, Z.add_assoc by done.
  - rewrite drop_ge by lia. by destruct fuel.
Qed.

Lemma rows_concat fuel : forall a d, (length d < fuel)%nat -> concat (rows fuel a d).*2 = d.
Proof.
  induction fuel as [|fuel IH]; intros a d Hd; [lia|]. destruct d as [|x d]; [done|]. cbn [rows fmap list_fmap concat snd].
  pose proof (Z.mod_pos_bound a 16 ltac:(lia)). rewrite IH by (rewrite length_drop; cbn [length] in *; lia). apply take_drop.
Qed.

(** ** What a dump shows *)

(** C37: A dump can be read back: for any data at any address, the lines end, stay in the
    buffer of the line, and show row by row, from the address of the first, which is rounded
    down to a multiple of sixteen, exactly the bytes of that row, so that together they are
    the data; but for the row at 2^32, which shows the address zero. *)
Theorem hexdump_reads_back ad data : 0 <= ad -> ad + zlen data < 2 ^ 64 -> is_bytes data ->
  exists ls, hexdump (S (length data)) (HEXLINE_init ad data (zlen data)) = Ret ls /\
    read_line <$> ls = rows (S (length data)) ad data /\ concat (read_line <$> ls).*2 = data.
Proof.
  intros Ha Hz Hb. destruct (hexdump_rows ad (S (length data)) [] data (replicate 90 0)) as (ls & E & Hls); try done; [lia|].
  exists ls. split; [exact E|]. change (zlen []) with 0 in Hls. rewrite Z.add_0_r in Hls. rewrite Hls. split; [done|]. apply rows_concat. lia.
Qed.

Definition sample_data : list Z := Z.of_nat <$> seq 40 20.

Lemma hexdump_reads_back_witness : exists ls, hexdump 21 (HEXLINE_init 0x1000C sample_data 20) = Ret ls /\
  read_line <$> ls = [(0x10000, [40; 41; 42; 43]); (0x10010, Z.of_nat <$> seq 44 16)] /\ concat (read_line <$> ls).*2 = sample_data.
Proof.
  apply (hexdump_reads_back 0x1000C sample_data); [lia|vm_compute; reflexivity|unfold is_bytes, is_byte; cbn; repeat constructor; lia].
Defined.

(** The line at 2^32 is marked with eight digits. *)
Example line_at_4G : exists h, HEXLINE_format (HEXLINE_init (2 ^ 32) [65] 1) = Ret h /\ take 14 (buf h) = [48; 48; 48; 48; 48; 48; 48; 48; 58; 32; 52; 49; 32; 32].
Proof. eexists. split; vm_compute; reflexivity. Qed.

(** A dump of nothing: a line formatted without asking reads a byte all the same. *)
Example format_without_data : HEXLINE_format (HEXLINE_init 0 [] 0) = Undef OutOfBounds.
Proof. reflexivity. Qed.

End HexLine.
