(* ===== verification/NcpAddresses.v ===== *)
(** * Addresses, prefixes and routes (src/wfantund/NCPInstanceBase-Addresses.cpp)

    The daemon keeps tables of the addresses, prefixes, routes and services that the
    co-processor, the host interface and the user know of, and tells each side what the
    others added.  A [std::map] is a list of pairs in the order of its keys, a
    [std::multimap] as well, with equal keys in the order of insertion; an address is its
    sixteen bytes.  What the tables make the interface and the co-processor do is a log of
    effects; the answer to a request of the co-processor is a later call of the callback
    that went with it.  [ti] says whether TI_WISUN_FAN is defined, as the build does. *)

From Stdlib Require Import ZArith Lia.
From stdpp Require Import base option numbers list.
From S2P Require Import Prelude.

Open Scope Z_scope.

Module NcpAddresses.

(** ** Ordered maps *)

Section Maps.
Context {K V : Type} `{EqDecision K} (lt : K -> K -> bool).

(** [map::count] and [map::operator[]]. *)
Fixpoint map_find (k : K) (l : list (K * V)) : option V :=
  match l with [] => None | (k', v) :: l => if bool_decide (k' = k) then Some v else map_find k l end.

Fixpoint map_set (k : K) (v : V) (l : list (K * V)) : list (K * V) :=
  match l with
  | [] => [(k, v)]
  | (k', v') :: l' =>
      if lt k k' then (k, v) :: l
      else if bool_decide (k' = k) then (k, v) :: l'
      else (k', v') :: map_set k v l'
  end.

Definition map_erase (k : K) (l : list (K * V)) : list (K * V) := filter (fun x => x.1 <> k) l.

(** [multimap::insert] puts a pair behind those with the same key. *)
Fixpoint multimap_insert (k : K) (v : V) (l : list (K * V)) : list (K * V) :=
  match l with
  | [] => [(k, v)]
  | (k', v') :: l' => if lt k k' then (k, v) :: l else (k', v') :: multimap_insert k v l'
  end.

(** The pairs between [lower_bound] and [upper_bound]. *)
Definition equal_range (k : K) (l : list (K * V)) : list (K * V) := filter (fun x => x.1 = k) l.

End Maps.

(** Erasing the first element that satisfies a test. *)
Fixpoint erase_first {A} (f : A -> bool) (l : list A) : list A :=
  match l with [] => [] | x :: l => if f x then l else x :: erase_first f l end.

(** ** Addresses and prefixes *)

Abbreviation in6_addr := (list Z).

Fixpoint memcmp_lt (a b : list Z) : bool :=
  match a, b with
  | x :: a, y :: b => if x <? y then true else if x =? y then memcmp_lt a b else false
  | _, _ => false
  end.

Definition in6_addr_apply_mask (address : in6_addr) (mask : Z) : in6_addr :=
  let mask := if 128 <? mask then 128 else mask in
  let n := Z.to_nat ((mask + 7) / 8) in
  let address := take n address ++ replicate (16 - n) 0 in
  if mask mod 8 =? 0 then address
  else alter (fun b => Z.land b (u8 (Z.lnot (Z.shiftr 0xFF (mask mod 8))))) (Z.to_nat (mask / 8)) address.

Definition make_slaac_addr_from_eui64 (prefix eui64 : list Z) : in6_addr :=
  alter (fun b => Z.lxor b 0x02) 8%nat (take 8 prefix ++ take 8 eui64).

Definition IN6_IS_ADDR_LINKLOCAL (a : in6_addr) : bool := (default 0 (a !! 0%nat) =? 0xfe) && (Z.land (default 0 (a !! 1%nat)) 0xc0 =? 0x80).

Record IPv6Prefix : Type := MkPrefix { mPrefix : in6_addr; mLength : Z }.

#[export] Instance IPv6Prefix_eq_dec : EqDecision IPv6Prefix.
Proof. solve_decision. Defined.

(** The constructor. *)
Definition IPv6Prefix_init (prefix : in6_addr) (len : Z) : IPv6Prefix := MkPrefix (in6_addr_apply_mask prefix len) len.

Definition prefix_lt (a b : IPv6Prefix) : bool :=
  if mLength a <? mLength b then true else if mLength a =? mLength b then memcmp_lt (mPrefix a) (mPrefix b) else false.

(** ** Entries *)

Inductive Origin : Type := kOriginThreadNCP | kOriginPrimaryInterface | kOriginUser.

#[export] Instance Origin_eq_dec : EqDecision Origin.
Proof. solve_decision. Defined.

Definition is_from_ncp (o : Origin) : bool := match o with kOriginThreadNCP => true | _ => false end.
Definition is_from_interface (o : Origin) : bool := match o with kOriginPrimaryInterface => true | _ => false end.
Definition is_from_user (o : Origin) : bool := match o with kOriginUser => true | _ => false end.

Record UnicastAddressEntry : Type := MkUnicast { u_origin : Origin; mPrefixLen : Z; mValidLifetime : Z; mPreferredLifetime : Z }.

Definition kFlagOnMesh : Z := Z.shiftl 1 0.
Definition kFlagDefaultRoute : Z := Z.shiftl 1 1.
Definition kFlagConfigure : Z := Z.shiftl 1 2.
Definition kFlagDHCP : Z := Z.shiftl 1 3.
Definition kFlagSLAAC : Z := Z.shiftl 1 4.
Definition kFlagPreferred : Z := Z.shiftl 1 5.
Definition kPreferenceOffset : Z := 6.
Definition kPreferenceMask : Z := Z.shiftl 3 kPreferenceOffset.
Definition kPreferenceHigh : Z := Z.shiftl 1 kPreferenceOffset.
Definition kPreferenceMedium : Z := Z.shiftl 0 kPreferenceOffset.
Definition kPreferenceLow : Z := Z.shiftl 3 kPreferenceOffset.
Definition kExtendedByteOffset : Z := 8.
Definition kFlagExtDP : Z := Z.shiftl 1 (kExtendedByteOffset + 6).
Definition kFlagExtNdDns : Z := Z.shiftl 1 (kExtendedByteOffset + 7).

Record OnMeshPrefixEntry : Type := MkOnMesh { p_origin : Origin; mFlags : Z; p_stable : bool; p_rloc : Z }.

Definition is_on_mesh (e : OnMeshPrefixEntry) : bool := Z.land (mFlags e) kFlagOnMesh =? kFlagOnMesh.
Definition is_slaac (e : OnMeshPrefixEntry) : bool := Z.land (mFlags e) kFlagSLAAC =? kFlagSLAAC.

(** The comparison of prefix entries: all but those of the co-processor are told apart by
    their origin only. *)
Definition on_mesh_eqb (a b : OnMeshPrefixEntry) : bool :=
  if negb (bool_decide (p_origin a = p_origin b)) then false
  else if is_from_ncp (p_origin a) then
    negb (negb (mFlags a =? mFlags b) || negb (bool_decide (p_stable a = p_stable b)) || negb (p_rloc a =? p_rloc b))
  else true.

(** Preferences are -1, 0 and 1. *)
Inductive RoutePreference : Type := ROUTE_LOW_PREFRENCE | ROUTE_MEDIUM_PREFERENCE | ROUTE_HIGH_PREFERENCE.

Definition preference (p : RoutePreference) : Z :=
  match p with ROUTE_LOW_PREFRENCE => -1 | ROUTE_MEDIUM_PREFERENCE => 0 | ROUTE_HIGH_PREFERENCE => 1 end.

Record OffMeshRouteEntry : Type :=
  MkOffMesh { r_origin : Origin; mPreference : RoutePreference; r_stable : bool; r_rloc : Z; mNextHopIsHost : bool }.

Definition off_mesh_eqb (a b : OffMeshRouteEntry) : bool :=
  if negb (bool_decide (r_origin a = r_origin b)) then false
  else if is_from_ncp (r_origin a) then
    negb (negb (preference (mPreference a) =? preference (mPreference b)) || negb (bool_decide (r_stable a = r_stable b)) || negb (r_rloc a =? r_rloc b))
  else true.

Record ServiceEntry : Type :=
  MkService { s_origin : Origin; mEnterpriseNumber : Z; mServiceData : list Z; s_stable : bool; mServerData : list Z }.

Definition service_eqb (e : ServiceEntry) (number : Z) (data : list Z) : bool :=
  (mEnterpriseNumber e =? number) && bool_decide (mServiceData e = data).

Definition kRouteMetricHigh : Z := 1.
Definition kRouteMetricMedium : Z := 256.
Definition kRouteMetricLow : Z := 512.
Definition kSLAACPrefixLength : Z := 64.

Definition kWPANTUNDStatus_Ok : Z := 0.
Definition kWPANTUNDStatus_InvalidArgument : Z := 2.
Definition kWPANTUNDStatus_Already : Z := 10.

(** ** State and effects *)

(** Callbacks: none, one of a client, and the two functions that are bound around one. *)
Inductive CallbackWithStatus : Type :=
| NilReturn
| Client (k : Z)
| CheckUpdateStatus (cb : CallbackWithStatus)
| CheckMulticastAddStatus (address : in6_addr) (cb : CallbackWithStatus).

Inductive effect : Type :=
| add_address (a : in6_addr) (len : Z)
| remove_address (a : in6_addr) (len : Z)
| join_multicast_address (a : in6_addr)
| leave_multicast_address (a : in6_addr)
| add_route (p : IPv6Prefix) (metric : Z)
| remove_route (p : IPv6Prefix) (metric : Z)
| add_unicast_address_on_ncp (a : in6_addr) (len : Z) (cb : CallbackWithStatus)
| remove_unicast_address_on_ncp (a : in6_addr) (len : Z) (cb : CallbackWithStatus)
| add_multicast_address_on_ncp (a : in6_addr) (cb : CallbackWithStatus)
| remove_multicast_address_on_ncp (a : in6_addr) (cb : CallbackWithStatus)
| add_on_mesh_prefix_on_ncp (a : in6_addr) (len flags : Z) (stable : bool) (cb : CallbackWithStatus)
| remove_on_mesh_prefix_on_ncp (a : in6_addr) (len flags : Z) (stable : bool) (cb : CallbackWithStatus)
| add_route_on_ncp (a : in6_addr) (len : Z) (p : RoutePreference) (stable : bool) (cb : CallbackWithStatus)
| remove_route_on_ncp (a : in6_addr) (len : Z) (p : RoutePreference) (stable : bool) (cb : CallbackWithStatus)
| add_service_on_ncp (number : Z) (data : list Z) (stable : bool) (server : list Z) (cb : CallbackWithStatus)
| remove_service_on_ncp (number : Z) (data : list Z) (cb : CallbackWithStatus)
| ncp_is_misbehaving
| reply (k status : Z).

Record config : Type := MkConfig {
  ti : bool;
  mAutoUpdateInterfaceIPv6AddrsOnNCP : bool;
  mFilterUserAddedLinkLocalIPv6Address : bool;
  mAutoAddSLAACAddress : bool;
  mNCPHandlesSLAAC : bool;
  mSetDefaultRouteForAutoAddedPrefix : bool;
  mSetSLAACForAutoAddedPrefix : bool;
  mAutoAddOffMeshRoutesOnInterface : bool;
  mFilterSelfAutoAddedOffMeshRoutes : bool;
  mAutoAddOnMeshPrefixesAsInterfaceRoutes : bool;
  mMACAddress : list Z
}.

Record state : Type := MkState {
  mUnicastAddresses : list (in6_addr * UnicastAddressEntry);
  mMulticastAddresses : list (in6_addr * Origin);
  mOnMeshPrefixes : list (IPv6Prefix * OnMeshPrefixEntry);
  mOffMeshRoutes : list (IPv6Prefix * OffMeshRouteEntry);
  mInterfaceRoutes : list (IPv6Prefix * Z);
  mServiceEntries : list ServiceEntry;
  mRequestRouteRefresh : bool;
  mNCPLinkLocalAddress : in6_addr;
  mNCPMeshLocalAddress : in6_addr;
  log : list effect
}.

Definition emit (e : effect) (s : state) : state :=
  MkState (mUnicastAddresses s) (mMulticastAddresses s) (mOnMeshPrefixes s) (mOffMeshRoutes s) (mInterfaceRoutes s) (mServiceEntries s)
    (mRequestRouteRefresh s) (mNCPLinkLocalAddress s) (mNCPMeshLocalAddress s) (log s ++ [e]).
Definition set_unicast (x : list (in6_addr * UnicastAddressEntry)) (s : state) : state :=
  MkState x (mMulticastAddresses s) (mOnMeshPrefixes s) (mOffMeshRoutes s) (mInterfaceRoutes s) (mServiceEntries s)
    (mRequestRouteRefresh s) (mNCPLinkLocalAddress s) (mNCPMeshLocalAddress s) (log s).
Definition set_multicast (x : list (in6_addr * Origin)) (s : state) : state :=
  MkState (mUnicastAddresses s) x (mOnMeshPrefixes s) (mOffMeshRoutes s) (mInterfaceRoutes s) (mServiceEntries s)
    (mRequestRouteRefresh s) (mNCPLinkLocalAddress s) (mNCPMeshLocalAddress s) (log s).
Definition set_on_mesh (x : list (IPv6Prefix * OnMeshPrefixEntry)) (s : state) : state :=
  MkState (mUnicastAddresses s) (mMulticastAddresses s) x (mOffMeshRoutes s) (mInterfaceRoutes s) (mServiceEntries s)
    (mRequestRouteRefresh s) (mNCPLinkLocalAddress s) (mNCPMeshLocalAddress s) (log s).
Definition set_off_mesh (x : list (IPv6Prefix * OffMeshRouteEntry)) (s : state) : state :=
  MkState (mUnicastAddresses s) (mMulticastAddresses s) (mOnMeshPrefixes s) x (mInterfaceRoutes s) (mServiceEntries s)
    (mRequestRouteRefresh s) (mNCPLinkLocalAddress s) (mNCPMeshLocalAddress s) (log s).
Definition set_routes (x : list (IPv6Prefix * Z)) (s : state) : state :=
  MkState (mUnicastAddresses s) (mMulticastAddresses s) (mOnMeshPrefixes s) (mOffMeshRoutes s) x (mServiceEntries s)
    (mRequestRouteRefresh s) (mNCPLinkLocalAddress s) (mNCPMeshLocalAddress s) (log s).
Definition set_services (x : list ServiceEntry) (s : state) : state :=
  MkState (mUnicastAddresses s) (mMulticastAddresses s) (mOnMeshPrefixes s) (mOffMeshRoutes s) (mInterfaceRoutes s) x
    (mRequestRouteRefresh s) (mNCPLinkLocalAddress s) (mNCPMeshLocalAddress s) (log s).
Definition set_refresh (x : bool) (s : state) : state :=
  MkState (mUnicastAddresses s) (mMulticastAddresses s) (mOnMeshPrefixes s) (mOffMeshRoutes s) (mInterfaceRoutes s) (mServiceEntries s)
    x (mNCPLinkLocalAddress s) (mNCPMeshLocalAddress s) (log s).

(** ** Multicast addresses *)

(** The body of [multicast_address_was_left], with the status its callback is to be called
    with, unless it was passed on to the co-processor. *)
Definition multicast_left (origin : Origin) (address : in6_addr) (cb : CallbackWithStatus) (s : state) : state * option Z :=
  match map_find address (mMulticastAddresses s) with
  | Some entry =>
      if is_from_user origin || bool_decide (origin = entry) then
        let s := set_multicast (map_erase address (mMulticastAddresses s)) s in
        let s := if is_from_ncp origin || is_from_user origin then emit (leave_multicast_address address) s else s in
        if is_from_interface origin || is_from_user origin
        then (emit (remove_multicast_address_on_ncp address (CheckUpdateStatus cb)) s, None)
        else (s, Some kWPANTUNDStatus_Ok)
      else (s, Some kWPANTUNDStatus_InvalidArgument)
  | None => (s, Some kWPANTUNDStatus_Already)
  end.

(** The two functions that are bound around a callback, up to its call; the second leaves
    the address without a callback. *)
Definition check_ncp_entry_update_status (status : Z) (s : state) : state :=
  if status =? kWPANTUNDStatus_Ok then s else emit ncp_is_misbehaving s.
Definition check_multicast_address_add_status (status : Z) (address : in6_addr) (s : state) : state :=
  if status =? kWPANTUNDStatus_Ok then s else (multicast_left kOriginUser address NilReturn s).1.

(** A callback is called. *)
Fixpoint call (cb : CallbackWithStatus) (status : Z) (s : state) : state :=
  match cb with
  | NilReturn => s
  | Client k => emit (reply k status) s
  | CheckUpdateStatus cb => call cb status (check_ncp_entry_update_status status s)
  | CheckMulticastAddStatus address cb => call cb status (check_multicast_address_add_status status address s)
  end.

Definition multicast_address_was_left (origin : Origin) (address : in6_addr) (cb : CallbackWithStatus) (s : state) : state :=
  let '(s, status) := multicast_left origin address cb s in
  match status with Some status => call cb status s | None => s end.

Definition multicast_address_was_joined (origin : Origin) (address : in6_addr) (cb : CallbackWithStatus) (s : state) : state :=
  match map_find address (mMulticastAddresses s) with
  | None =>
      let s := set_multicast (map_set memcmp_lt address origin (mMulticastAddresses s)) s in
      let s := if is_from_ncp origin || is_from_user origin then emit (join_multicast_address address) s else s in
      if is_from_interface origin then emit (add_multicast_address_on_ncp address (CheckUpdateStatus cb)) s
      else if is_from_user origin then emit (add_multicast_address_on_ncp address (CheckMulticastAddStatus address cb)) s
      else call cb kWPANTUNDStatus_Ok s
  | Some _ => call cb kWPANTUNDStatus_Already s
  end.

(** ** Searches *)

Definition has_address_with_prefix (prefix : IPv6Prefix) (s : state) : bool :=
  existsb (fun x => bool_decide (IPv6Prefix_init x.1 (mPrefixLen x.2) = prefix)) (mUnicastAddresses s).

Definition find_address_with_prefix (prefix : IPv6Prefix) (origin : Origin) (s : state) : option (in6_addr * UnicastAddressEntry) :=
  List.find (fun x => bool_decide (u_origin x.2 = origin) && bool_decide (IPv6Prefix_init x.1 (mPrefixLen x.2) = prefix)) (mUnicastAddresses s).

Definition has_slaac_on_mesh_prefix (prefix : IPv6Prefix) (s : state) : bool :=
  existsb (fun x => is_slaac x.2 && is_on_mesh x.2) (equal_range prefix (mOnMeshPrefixes s)).

Definition find_prefix_entry (prefix : IPv6Prefix) (entry : OnMeshPrefixEntry) (s : state) : bool :=
  existsb (fun x => on_mesh_eqb x.2 entry) (equal_range prefix (mOnMeshPrefixes s)).

(** The iterator a search found is erased. *)
Definition erase_prefix_entry (prefix : IPv6Prefix) (entry : OnMeshPrefixEntry) (s : state) : state :=
  set_on_mesh (erase_first (fun x => bool_decide (x.1 = prefix) && on_mesh_eqb x.2 entry) (mOnMeshPrefixes s)) s.

Definition is_domain_prefix_configured (s : state) : bool :=
  existsb (fun x => negb (Z.land (mFlags x.2) kFlagExtDP =? 0)) (mOnMeshPrefixes s).

Definition find_route_entry (route : IPv6Prefix) (entry : OffMeshRouteEntry) (s : state) : bool :=
  existsb (fun x => off_mesh_eqb x.2 entry) (equal_range route (mOffMeshRoutes s)).

Definition erase_route_entry (route : IPv6Prefix) (entry : OffMeshRouteEntry) (s : state) : state :=
  set_off_mesh (erase_first (fun x => bool_decide (x.1 = route) && off_mesh_eqb x.2 entry) (mOffMeshRoutes s)) s.

(** ** Unicast addresses and prefixes

    The operations on addresses and on prefixes call each other, at most once each way:
    the address that a prefix brings comes from the co-processor, and such an address does
    not bring a prefix.  [unicast_added_with] and [unicast_removed_with] have the call that
    leads to prefixes as an argument. *)

Definition unicast_added_with (update : in6_addr -> UnicastAddressEntry -> state -> state) (c : config)
    (origin : Origin) (address : in6_addr) (prefix_len valid_lifetime preferred_lifetime : Z) (s : state) : state :=
  if (is_from_interface origin || is_from_user origin) && mFilterUserAddedLinkLocalIPv6Address c && IN6_IS_ADDR_LINKLOCAL address then s
  else
    match map_find address (mUnicastAddresses s) with
    | Some _ => s
    | None =>
        let entry := MkUnicast origin prefix_len valid_lifetime preferred_lifetime in
        let s := set_unicast (map_set memcmp_lt address entry (mUnicastAddresses s)) s in
        let s := if is_from_ncp origin || is_from_user origin then emit (add_address address prefix_len) s else s in
        if negb (ti c) && ((is_from_interface origin && mAutoUpdateInterfaceIPv6AddrsOnNCP c) || is_from_user origin)
        then update address entry s else s
    end.

Definition unicast_removed_with (update : in6_addr -> UnicastAddressEntry -> state -> state) (origin : Origin) (address : in6_addr) (s : state) : state :=
  match map_find address (mUnicastAddresses s) with
  | None => s
  | Some entry =>
      if is_from_user origin || bool_decide (origin = u_origin entry) then
        let s := set_unicast (map_erase address (mUnicastAddresses s)) s in
        let s := if is_from_ncp origin || is_from_user origin then emit (remove_address address (mPrefixLen entry)) s else s in
        if is_from_interface origin || is_from_user origin then update address entry s else s
      else s
  end.

Definition no_update (_ : in6_addr) (_ : UnicastAddressEntry) (s : state) : state := s.

Definition UINT32_MAX : Z := 2 ^ 32 - 1.

Definition on_mesh_prefix_was_added (c : config) (origin : Origin) (prefix_address : in6_addr) (prefix_len flags : Z) (stable : bool) (rloc16 : Z)
    (cb : CallbackWithStatus) (s : state) : state :=
  let prefix := IPv6Prefix_init prefix_address prefix_len in
  let entry := MkOnMesh origin flags stable rloc16 in
  let s :=
    if find_prefix_entry prefix entry s then call cb kWPANTUNDStatus_Ok s
    else
      let s := set_on_mesh (multimap_insert prefix_lt prefix entry (mOnMeshPrefixes s)) s in
      let s := if negb (is_from_ncp origin)
               then emit (add_on_mesh_prefix_on_ncp (mPrefix prefix) (mLength prefix) flags stable (CheckUpdateStatus cb)) s
               else call cb kWPANTUNDStatus_Ok s in
      if mAutoAddOnMeshPrefixesAsInterfaceRoutes c then set_refresh true s else s in
  if mAutoAddSLAACAddress c && negb (mNCPHandlesSLAAC c) && is_on_mesh entry && is_slaac entry
     && (mLength prefix =? kSLAACPrefixLength) && negb (has_address_with_prefix prefix s) then
    let address := make_slaac_addr_from_eui64 (mPrefix prefix) (mMACAddress c) in
    let s := emit (add_unicast_address_on_ncp address prefix_len (CheckUpdateStatus NilReturn)) s in
    unicast_added_with no_update c kOriginThreadNCP address prefix_len UINT32_MAX UINT32_MAX s
  else s.

Definition on_mesh_prefix_was_removed (c : config) (origin : Origin) (prefix_address : in6_addr) (prefix_len flags : Z) (stable : bool) (rloc16 : Z)
    (cb : CallbackWithStatus) (s : state) : state :=
  let prefix := IPv6Prefix_init prefix_address prefix_len in
  let entry := MkOnMesh origin flags stable rloc16 in
  if find_prefix_entry prefix entry s then
    let s := erase_prefix_entry prefix entry s in
    let s := if negb (is_from_ncp origin)
             then emit (remove_on_mesh_prefix_on_ncp (mPrefix prefix) (mLength prefix) flags stable (CheckUpdateStatus cb)) s
             else call cb kWPANTUNDStatus_Ok s in
    let s := if mAutoAddOnMeshPrefixesAsInterfaceRoutes c then set_refresh true s else s in
    if is_on_mesh entry && is_slaac entry && (mLength prefix =? kSLAACPrefixLength) && negb (has_slaac_on_mesh_prefix prefix s) then
      match find_address_with_prefix prefix kOriginThreadNCP s with
      | Some (address, _) =>
          let s := emit (remove_unicast_address_on_ncp address prefix_len (CheckUpdateStatus NilReturn)) s in
          unicast_removed_with no_update kOriginThreadNCP address s
      | None => s
      end
    else s
  else call cb kWPANTUNDStatus_Ok s.

(** Whether an address brings its prefix, and with which flags. *)
Definition updates_prefix (address : in6_addr) (entry : UnicastAddressEntry) (s : state) : bool :=
  let v6 := take 8 (mNCPMeshLocalAddress s) in
  negb (is_from_ncp (u_origin entry)) && negb (IN6_IS_ADDR_LINKLOCAL address)
  && (negb (existsb (fun b => negb (b =? 0)) v6) || negb (bool_decide (v6 = take 8 address))).

Definition auto_flags (c : config) : Z :=
  let flags := Z.lor kFlagOnMesh kFlagPreferred in
  let flags := if mSetDefaultRouteForAutoAddedPrefix c then Z.lor flags kFlagDefaultRoute else flags in
  if mSetSLAACForAutoAddedPrefix c then Z.lor flags kFlagSLAAC else flags.

Definition add_address_on_ncp_and_update_prefixes (c : config) (address : in6_addr) (entry : UnicastAddressEntry) (s : state) : state :=
  let s := emit (add_unicast_address_on_ncp address (mPrefixLen entry) (CheckUpdateStatus NilReturn)) s in
  if updates_prefix address entry s
  then on_mesh_prefix_was_added c (u_origin entry) address (mPrefixLen entry) (auto_flags c) true 0 NilReturn s
  else s.

Definition remove_address_on_ncp_and_update_prefixes (c : config) (address : in6_addr) (entry : UnicastAddressEntry) (s : state) : state :=
  let s := emit (remove_unicast_address_on_ncp address (mPrefixLen entry) (CheckUpdateStatus NilReturn)) s in
  if updates_prefix address entry s
  then on_mesh_prefix_was_removed c (u_origin entry) address (mPrefixLen entry) (auto_flags c) true 0 NilReturn s
  else s.

Definition unicast_address_was_added (c : config) := unicast_added_with (add_address_on_ncp_and_update_prefixes c) c.
Definition unicast_address_was_removed (c : config) := unicast_removed_with (remove_address_on_ncp_and_update_prefixes c).

(** ** Routes *)

Definition route_was_added (origin : Origin) (route_prefix : in6_addr) (prefix_len : Z) (pref : RoutePreference) (stable : bool) (rloc16 : Z)
    (next_hop_is_host : bool) (cb : CallbackWithStatus) (s : state) : state :=
  let entry := MkOffMesh origin pref stable rloc16 next_hop_is_host in
  let route := IPv6Prefix_init route_prefix prefix_len in
  if find_route_entry route entry s then call cb kWPANTUNDStatus_Ok s
  else
    let s := set_off_mesh (multimap_insert prefix_lt route entry (mOffMeshRoutes s)) s in
    let s := set_refresh true s in
    if negb (is_from_ncp origin) then emit (add_route_on_ncp (mPrefix route) prefix_len pref stable (CheckUpdateStatus cb)) s
    else call cb kWPANTUNDStatus_Ok s.

Definition route_was_removed (origin : Origin) (route_prefix : in6_addr) (prefix_len : Z) (pref : RoutePreference) (stable : bool) (rloc16 : Z)
    (cb : CallbackWithStatus) (s : state) : state :=
  let entry := MkOffMesh origin pref stable rloc16 false in
  let route := IPv6Prefix_init route_prefix prefix_len in
  if find_route_entry route entry s then
    let s := set_refresh true (erase_route_entry route entry s) in
    if negb (is_from_ncp origin) then emit (remove_route_on_ncp (mPrefix route) prefix_len pref stable (CheckUpdateStatus cb)) s
    else call cb kWPANTUNDStatus_Ok s
  else call cb kWPANTUNDStatus_Ok s.

(** What the entries for a route amount to: by this device and by others, whether there
    is one and the highest preference. *)
Record tally : Type := MkTally { route_added_by_device : bool; preference_device : Z; route_added_by_others : bool; preference_others : Z }.

Definition tally_step (route : IPv6Prefix) (t : tally) (x : IPv6Prefix * OffMeshRouteEntry) : tally :=
  if negb (bool_decide (x.1 = route)) then t
  else
    let p := preference (mPreference x.2) in
    if negb (is_from_ncp (r_origin x.2)) || mNextHopIsHost x.2
    then MkTally true (if preference_device t <? p then p else preference_device t) (route_added_by_others t) (preference_others t)
    else MkTally (route_added_by_device t) (preference_device t) true (if preference_others t <? p then p else preference_others t).

Definition metric_of (p : Z) : Z := if p =? -1 then kRouteMetricLow else if p =? 0 then kRouteMetricMedium else kRouteMetricHigh.

(** The metric of a route that should be on the interface. *)
Definition should_add_route_on_interface (c : config) (s : state) (route : IPv6Prefix) : option Z :=
  let off :=
    if mAutoAddOffMeshRoutesOnInterface c then
      let low := preference ROUTE_LOW_PREFRENCE in
      let t := fold_left (tally_step route) (mOffMeshRoutes s) (MkTally false low false low) in
      if route_added_by_others t
         && (negb (route_added_by_device t) || (negb (mFilterSelfAutoAddedOffMeshRoutes c) && (preference_device t <? preference_others t)))
      then Some (metric_of (preference_others t)) else None
    else None in
  match off with
  | Some m => Some m
  | None =>
      if mAutoAddOnMeshPrefixesAsInterfaceRoutes c
         && existsb (fun x => bool_decide (x.1 = route) && is_from_ncp (p_origin x.2) && is_on_mesh x.2) (mOnMeshPrefixes s)
      then Some kRouteMetricMedium else None
  end.

(** A route on the interface that should not be there, or not with its metric. *)
Definition stale (c : config) (s : state) (x : IPv6Prefix * Z) : bool := negb (bool_decide (should_add_route_on_interface c s x.1 = Some x.2)).

(** Walks that erase the first element of a kind and start over, until there is none. *)
Fixpoint erase_each {A} (fuel : nat) (kind : state -> A -> bool) (get : state -> list A) (act : A -> state -> state) (s : state) : outcome state :=
  match fuel with
  | O => NoFuel
  | S fuel => match List.find (kind s) (get s) with Some x => erase_each fuel kind get act (act x s) | None => Ret s end
  end.

Definition remove_stale (c : config) (x : IPv6Prefix * Z) (s : state) : state :=
  set_routes (erase_first (stale c s) (mInterfaceRoutes s)) (emit (remove_route x.1 x.2) s).

Definition add_missing (c : config) (s : state) (route : IPv6Prefix) : state :=
  match should_add_route_on_interface c s route, map_find route (mInterfaceRoutes s) with
  | Some metric, None => set_routes (map_set prefix_lt route metric (mInterfaceRoutes s)) (emit (add_route route metric) s)
  | _, _ => s
  end.

(** The first pair of each key. *)
Fixpoint first_of_each {V} (last : option IPv6Prefix) (l : list (IPv6Prefix * V)) : list IPv6Prefix :=
  match l with
  | [] => []
  | (k, _) :: l => if bool_decide (last = Some k) then first_of_each last l else k :: first_of_each (Some k) l
  end.

Definition refresh_routes_on_interface (c : config) (s : state) : outcome state :=
  s ← erase_each (S (length (mInterfaceRoutes s))) (stale c) mInterfaceRoutes (remove_stale c) s;
  let s := if mAutoAddOffMeshRoutesOnInterface c then fold_left (add_missing c) (first_of_each None (mOffMeshRoutes s)) s else s in
  Ret (if mAutoAddOnMeshPrefixesAsInterfaceRoutes c then fold_left (add_missing c) (mOnMeshPrefixes s).*1 s else s).

Definition refresh_address_route_prefix_entries (c : config) (s : state) : outcome state :=
  if mRequestRouteRefresh s then refresh_routes_on_interface c (set_refresh false s) else Ret s.

(** ** Services *)

Definition service_was_added (origin : Origin) (number : Z) (data : list Z) (stable : bool) (server : list Z) (cb : CallbackWithStatus) (s : state) : state :=
  if existsb (fun e => service_eqb e number data) (mServiceEntries s) then call cb kWPANTUNDStatus_Ok s
  else
    let s := set_services (mServiceEntries s ++ [MkService origin number data stable server]) s in
    if negb (is_from_ncp origin) then emit (add_service_on_ncp number data stable server (CheckUpdateStatus cb)) s
    else call cb kWPANTUNDStatus_Ok s.

Definition service_was_removed (origin : Origin) (number : Z) (data : list Z) (cb : CallbackWithStatus) (s : state) : state :=
  if existsb (fun e => service_eqb e number data) (mServiceEntries s) then
    let s := set_services (erase_first (fun e => service_eqb e number data) (mServiceEntries s)) s in
    if negb (is_from_ncp origin) then emit (remove_service_on_ncp number data (CheckUpdateStatus cb)) s
    else call cb kWPANTUNDStatus_Ok s
  else call cb kWPANTUNDStatus_Ok s.

(** ** All entries *)

Definition remove_all_address_prefix_route_entries (s : state) : state :=
  let s := fold_left (fun s x => emit (remove_address x.1 (mPrefixLen x.2)) s) (mUnicastAddresses s) s in
  let s := fold_left (fun s x => emit (leave_multicast_address x.1) s) (mMulticastAddresses s) s in
  let s := fold_left (fun s x => emit (remove_route x.1 x.2) s) (mInterfaceRoutes s) s in
  MkState [] [] [] [] [] [] (mRequestRouteRefresh s) (replicate 16 0) (replicate 16 0) (log s).

Definition ncp_unicast (s : state) (x : in6_addr * UnicastAddressEntry) : bool := is_from_ncp (u_origin x.2).
Definition ncp_multicast (s : state) (x : in6_addr * Origin) : bool := is_from_ncp x.2.
Definition ncp_on_mesh (s : state) (x : IPv6Prefix * OnMeshPrefixEntry) : bool := is_from_ncp (p_origin x.2).
Definition ncp_off_mesh (s : state) (x : IPv6Prefix * OffMeshRouteEntry) : bool := is_from_ncp (r_origin x.2).
Definition ncp_service (s : state) (x : ServiceEntry) : bool := is_from_ncp (s_origin x).

Definition remove_ncp_originated_address_prefix_route_entries (s : state) : outcome state :=
  s ← erase_each (S (length (mUnicastAddresses s))) ncp_unicast mUnicastAddresses
        (fun x s => set_unicast (erase_first (ncp_unicast s) (mUnicastAddresses s)) (emit (remove_address x.1 (mPrefixLen x.2)) s)) s;
  s ← erase_each (S (length (mMulticastAddresses s))) ncp_multicast mMulticastAddresses
        (fun x s => set_multicast (erase_first (ncp_multicast s) (mMulticastAddresses s)) (emit (leave_multicast_address x.1) s)) s;
  s ← erase_each (S (length (mOnMeshPrefixes s))) ncp_on_mesh mOnMeshPrefixes
        (fun _ s => set_on_mesh (erase_first (ncp_on_mesh s) (mOnMeshPrefixes s)) s) s;
  s ← erase_each (S (length (mOffMeshRoutes s))) ncp_off_mesh mOffMeshRoutes
        (fun _ s => set_refresh true (set_off_mesh (erase_first (ncp_off_mesh s) (mOffMeshRoutes s)) s)) s;
  erase_each (S (length (mServiceEntries s))) ncp_service mServiceEntries
    (fun _ s => set_services (erase_first (ncp_service s) (mServiceEntries s)) s) s.

(** What the host knows is sent to the co-processor again.  An address that appears during
    the first walk comes from the co-processor, so the walk passes over it. *)
Definition restore_address_prefix_route_entries_on_ncp (c : config) (s : state) : state :=
  let ours o := is_from_interface o || is_from_user o in
  let s := fold_left (fun s x => if ours (u_origin x.2) then add_address_on_ncp_and_update_prefixes c x.1 x.2 s else s) (mUnicastAddresses s) s in
  let s := fold_left (fun s x => if ours x.2 then emit (add_multicast_address_on_ncp x.1 (CheckUpdateStatus NilReturn)) s else s) (mMulticastAddresses s) s in
  let s := fold_left (fun s x => if ours (p_origin x.2)
    then emit (add_on_mesh_prefix_on_ncp (mPrefix x.1) (mLength x.1) (mFlags x.2) (p_stable x.2) (CheckUpdateStatus NilReturn)) s else s) (mOnMeshPrefixes s) s in
  let s := fold_left (fun s x => if ours (r_origin x.2)
    then emit (add_route_on_ncp (mPrefix x.1) (mLength x.1) (mPreference x.2) (r_stable x.2) (CheckUpdateStatus NilReturn)) s else s) (mOffMeshRoutes s) s in
  fold_left (fun s x => if ours (s_origin x)
    then emit (add_service_on_ncp (mEnterpriseNumber x) (mServiceData x) (s_stable x) (mServerData x) (CheckUpdateStatus NilReturn)) s else s) (mServiceEntries s) s.

(** ** Flags of a prefix *)

Inductive PrefixFlag : Type :=
| PREFIX_FLAG_PREFERRED | PREFIX_FLAG_SLAAC | PREFIX_FLAG_DHCP | PREFIX_FLAG_CONFIGURE
| PREFIX_FLAG_DEFAULT_ROUTE | PREFIX_FLAG_ON_MESH | PREFIX_FLAG_DOMAIN_PREFIX | PREFIX_FLAG_ND_DNS.

#[export] Instance PrefixFlag_eq_dec : EqDecision PrefixFlag.
Proof. solve_decision. Defined.

Inductive OnMeshPrefixPriority : Type := PREFIX_LOW_PREFRENCE | PREFIX_MEDIUM_PREFERENCE | PREFIX_HIGH_PREFERENCE.

Definition encode_flag_set (fs : list PrefixFlag) (priority : OnMeshPrefixPriority) : Z :=
  let flags := match priority with
    | PREFIX_HIGH_PREFERENCE => kPreferenceHigh | PREFIX_MEDIUM_PREFERENCE => kPreferenceMedium | PREFIX_LOW_PREFRENCE => kPreferenceLow end in
  let add f bit flags := if bool_decide (f ∈ fs) then Z.lor flags bit else flags in
  let flags := add PREFIX_FLAG_ON_MESH kFlagOnMesh flags in
  let flags := add PREFIX_FLAG_DEFAULT_ROUTE kFlagDefaultRoute flags in
  let flags := add PREFIX_FLAG_CONFIGURE kFlagConfigure flags in
  let flags := add PREFIX_FLAG_DHCP kFlagDHCP flags in
  let flags := add PREFIX_FLAG_SLAAC kFlagSLAAC flags in
  let flags := add PREFIX_FLAG_PREFERRED kFlagPreferred flags in
  let flags := add PREFIX_FLAG_DOMAIN_PREFIX kFlagExtDP flags in
  add PREFIX_FLAG_ND_DNS kFlagExtNdDns flags.

(** ** The operations together *)

Inductive op : Type :=
| UnicastAdded (o : Origin) (a : in6_addr) (len valid preferred : Z)
| UnicastRemoved (o : Origin) (a : in6_addr)
| MulticastJoined (o : Origin) (a : in6_addr) (cb : CallbackWithStatus)
| MulticastLeft (o : Origin) (a : in6_addr) (cb : CallbackWithStatus)
| PrefixAdded (o : Origin) (a : in6_addr) (len flags : Z) (stable : bool) (rloc : Z) (cb : CallbackWithStatus)
| PrefixRemoved (o : Origin) (a : in6_addr) (len flags : Z) (stable : bool) (rloc : Z) (cb : CallbackWithStatus)
| RouteAdded (o : Origin) (a : in6_addr) (len : Z) (p : RoutePreference) (stable : bool) (rloc : Z) (host : bool) (cb : CallbackWithStatus)
| RouteRemoved (o : Origin) (a : in6_addr) (len : Z) (p : RoutePreference) (stable : bool) (rloc : Z) (cb : CallbackWithStatus)
| ServiceAdded (o : Origin) (number : Z) (data : list Z) (stable : bool) (server : list Z) (cb : CallbackWithStatus)
| ServiceRemoved (o : Origin) (number : Z) (data : list Z) (cb : CallbackWithStatus)
| Completed (cb : CallbackWithStatus) (status : Z)
| Refresh | RemoveAll | RemoveNcp | Restore.

Definition exec (c : config) (s : state) (x : op) : outcome state :=
  match x with
  | UnicastAdded o a len v p => Ret (unicast_address_was_added c o a len v p s)
  | UnicastRemoved o a => Ret (unicast_address_was_removed c o a s)
  | MulticastJoined o a cb => Ret (multicast_address_was_joined o a cb s)
  | MulticastLeft o a cb => Ret (multicast_address_was_left o a cb s)
  | PrefixAdded o a len f st r cb => Ret (on_mesh_prefix_was_added c o a len f st r cb s)
  | PrefixRemoved o a len f st r cb => Ret (on_mesh_prefix_was_removed c o a len f st r cb s)
  | RouteAdded o a len p st r h cb => Ret (route_was_added o a len p st r h cb s)
  | RouteRemoved o a len p st r cb => Ret (route_was_removed o a len p st r cb s)
  | ServiceAdded o n d st sv cb => Ret (service_was_added o n d st sv cb s)
  | ServiceRemoved o n d cb => Ret (service_was_removed o n d cb s)
  | Completed cb status => Ret (call cb status s)
  | Refresh => refresh_address_route_prefix_entries c s
  | RemoveAll => Ret (remove_all_address_prefix_route_entries s)
  | RemoveNcp => remove_ncp_originated_address_prefix_route_entries s
  | Restore => Ret (restore_address_prefix_route_entries_on_ncp c s)
  end.

Fixpoint execs (c : config) (s : state) (l : list op) : outcome state :=
  match l with [] => Ret s | x :: l => s ← exec c s x; execs c s l end.

(** The tables of a new instance.  The log begins behind the constructor: the group ff03::1,
    which the constructor joins directly on the interface, past the tables, is not in it. *)
Definition start : state := MkState [] [] [] [] [] [] false (replicate 16 0) (replicate 16 0) [].

(** ** Lemmas on maps *)

Section MapLemmas.
Context {K V : Type} `{EqDecision K}.
Implicit Types (l : list (K * V)) (k : K).

Lemma map_erase_cons k k0 v0 l : map_erase k ((k0, v0) :: l) = if bool_decide (k0 = k) then map_erase k l else (k0, v0) :: map_erase k l.
Proof. unfold map_erase. rewrite filter_cons. cbn. repeat case_decide; repeat case_bool_decide; naive_solver. Qed.

Lemma map_find_erase k l k' : map_find k' (map_erase k l) = if bool_decide (k = k') then None else map_find k' l.
Proof.
  induction l as [|[k0 v0] l IH]; [by case_bool_decide|]. rewrite map_erase_cons. destruct (decide (k0 = k)) as [->|Hne].
  - rewrite (bool_decide_eq_true_2 (k = k)) by done. rewrite IH. cbn. by case_bool_decide.
  - rewrite (bool_decide_eq_false_2 (k0 = k)) by done. cbn. rewrite IH. repeat case_bool_decide; congruence.
Qed.

Lemma map_find_None k l : map_find k l = None <-> k ∉ l.*1.
Proof.
  induction l as [|[k0 v0] l IH]; cbn; [split; [intros _; apply not_elem_of_nil|done]|]. rewrite not_elem_of_cons.
  case_bool_decide; [split; [done|intros []; congruence]|]. rewrite IH. intuition congruence.
Qed.

Lemma map_erase_keys k l k' : k' ∈ (map_erase k l).*1 -> k' ∈ l.*1.
Proof. intros Hin. destruct (decide (k' ∈ l.*1)) as [|Hn]; [done|]. exfalso. apply map_find_None in Hn. revert Hin. apply map_find_None. rewrite map_find_erase. by case_bool_decide. Qed.

Lemma map_erase_nodup k l : NoDup l.*1 -> NoDup (map_erase k l).*1.
Proof.
  induction l as [|[k0 v0] l IH]; [done|]. intros [Hk Hn]%NoDup_cons. rewrite map_erase_cons. case_bool_decide; [by apply IH|].
  cbn. constructor; [|by apply IH]. intros Hin. apply Hk. by apply map_erase_keys in Hin.
Qed.

Lemma map_erase_notin k l : map_find k l = None -> map_erase k l = l.
Proof.
  induction l as [|[k0 v0] l IH]; [done|]. cbn [map_find]. rewrite map_erase_cons. case_bool_decide; [done|]. intros Hf. by rewrite IH.
Qed.

(** The first pair of some kind is erased: its key is gone, all others stay. *)
Lemma erase_first_find (f : K * V -> bool) k v l : NoDup l.*1 -> List.find f l = Some (k, v) ->
  map_find k l = Some v /\ NoDup (erase_first f l).*1 /\ (forall k', k' ∈ (erase_first f l).*1 -> k' ∈ l.*1) /\
  forall k', map_find k' (erase_first f l) = if bool_decide (k = k') then None else map_find k' l.
Proof.
  induction l as [|[k0 v0] l IH]; [done|]. intros [Hk Hn]%NoDup_cons. cbn. intros Hf. destruct (f (k0, v0)).
  - injection Hf as -> ->. rewrite bool_decide_eq_true_2 by done. split; [done|]. split; [done|]. split; [by right|]. intros k'.
    case_bool_decide as E; [subst; by apply map_find_None|done].
  - destruct (IH Hn Hf) as (H1 & H2 & H3 & H4). assert (k0 <> k). { intros ->. assert (map_find k l = None) by (by apply map_find_None). congruence. }
    rewrite bool_decide_eq_false_2 by done. split; [done|]. cbn. split; [constructor; [|done]; intros Hin; apply Hk; by apply H3|]. split.
    + intros k'. rewrite !elem_of_cons. intros [->|Hin]; [by left|right; by apply H3].
    + intros k'. rewrite H4. repeat case_bool_decide; congruence.
Qed.

Context (lt : K -> K -> bool).

Lemma map_find_set k v l k' : map_find k' (map_set lt k v l) = if bool_decide (k = k') then Some v else map_find k' l.
Proof.
  induction l as [|[k0 v0] l IH]; cbn; [done|]. destruct (lt k k0); cbn; [done|]. destruct (decide (k0 = k)) as [->|Hne].
  - rewrite (bool_decide_eq_true_2 (k = k)) by done. cbn. by case_bool_decide.
  - rewrite (bool_decide_eq_false_2 (k0 = k)) by done. cbn. rewrite IH. repeat case_bool_decide; congruence.
Qed.

Lemma map_set_keys k v l : map_find k l = None -> (map_set lt k v l).*1 ≡ₚ k :: l.*1.
Proof.
  induction l as [|[k0 v0] l IH]; cbn; [done|]. case_bool_decide as Hk; [done|]. intros Hf. destruct (lt k k0); cbn; [done|].
  rewrite IH by done. apply Permutation_swap.
Qed.

Lemma map_set_nodup k v l : map_find k l = None -> NoDup l.*1 -> NoDup (map_set lt k v l).*1.
Proof. intros Hf Hn. rewrite map_set_keys by done. constructor; [by apply map_find_None|done]. Qed.

Lemma map_erase_set k v l : map_find k l = None -> map_erase k (map_set lt k v l) = l.
Proof.
  induction l as [|[k0 v0] l IH]; cbn [map_find map_set].
  - intros _. by rewrite map_erase_cons, bool_decide_eq_true_2.
  - case_bool_decide as Hk; [done|]. intros Hf.
    destruct (lt k k0); rewrite !map_erase_cons, ?(bool_decide_eq_true_2 (k = k)), ?(bool_decide_eq_false_2 (k0 = k)) by done; [by rewrite map_erase_notin|by rewrite IH].
Qed.

End MapLemmas.

Lemma erase_first_length {A} (f : A -> bool) (l : list A) x : List.find f l = Some x -> (length (erase_first f l) < length l)%nat.
Proof. induction l as [|y l IH]; cbn; [done|]. destruct (f y); cbn; [lia|]. intros H. specialize (IH H). lia. Qed.

(** A walk that erases ends, keeps what each erasure keeps and leaves none of the kind. *)
Lemma erase_each_ind {A} (kind : state -> A -> bool) (get : state -> list A) (act : A -> state -> state) (P : state -> Prop) :
  (forall x s, P s -> List.find (kind s) (get s) = Some x -> P (act x s)) ->
  (forall x s, get (act x s) = erase_first (kind s) (get s)) ->
  forall n s, P s -> (length (get s) < n)%nat -> exists s', erase_each n kind get act s = Ret s' /\ P s' /\ List.find (kind s') (get s') = None.
Proof.
  intros HP Hget. induction n as [|n IH]; intros s Hs Hn; [lia|]. cbn [erase_each]. destruct (List.find (kind s) (get s)) as [x|] eqn:E; [|by eauto].
  apply IH; [by apply HP|]. rewrite Hget. apply erase_first_length in E. lia.
Qed.

(** ** The interface *)

(** What the effects leave on the interface. *)
Definition addr_step (a : in6_addr) (b : bool) (e : effect) : bool :=
  match e with
  | add_address a' _ => if bool_decide (a' = a) then true else b
  | remove_address a' _ => if bool_decide (a' = a) then false else b
  | _ => b
  end.
Definition group_step (a : in6_addr) (b : bool) (e : effect) : bool :=
  match e with
  | join_multicast_address a' => if bool_decide (a' = a) then true else b
  | leave_multicast_address a' => if bool_decide (a' = a) then false else b
  | _ => b
  end.
Definition route_step (p : IPv6Prefix) (r : option Z) (e : effect) : option Z :=
  match e with
  | add_route p' m => if bool_decide (p' = p) then Some m else r
  | remove_route p' m => if bool_decide (p' = p) && bool_decide (r = Some m) then None else r
  | _ => r
  end.

Definition on_interface (l : list effect) (a : in6_addr) : bool := fold_left (addr_step a) l false.
Definition in_group (l : list effect) (a : in6_addr) : bool := fold_left (group_step a) l false.
Definition route_on (l : list effect) (p : IPv6Prefix) : option Z := fold_left (route_step p) l None.

(** Entries that did not come from the interface were put there. *)
Definition put_there (o : option Origin) : bool := match o with Some o => negb (is_from_interface o) | None => false end.

Record Mirror (s : state) : Prop := MkMirror {
  mi_unicast : forall a, on_interface (log s) a = put_there (u_origin <$> map_find a (mUnicastAddresses s));
  mi_multicast : forall a, in_group (log s) a = put_there (map_find a (mMulticastAddresses s));
  mi_routes : forall p, route_on (log s) p = map_find p (mInterfaceRoutes s);
  mi_nodup_u : NoDup (mUnicastAddresses s).*1;
  mi_nodup_m : NoDup (mMulticastAddresses s).*1;
  mi_nodup_r : NoDup (mInterfaceRoutes s).*1
}.

Lemma on_interface_snoc l e a : on_interface (l ++ [e]) a = addr_step a (on_interface l a) e.
Proof. unfold on_interface. by rewrite fold_left_app. Qed.
Lemma in_group_snoc l e a : in_group (l ++ [e]) a = group_step a (in_group l a) e.
Proof. unfold in_group. by rewrite fold_left_app. Qed.
Lemma route_on_snoc l e p : route_on (l ++ [e]) p = route_step p (route_on l p) e.
Proof. unfold route_on. by rewrite fold_left_app. Qed.

(** Effects that do not concern the interface. *)
Definition quiet (e : effect) : bool :=
  match e with
  | add_address _ _ | remove_address _ _ | join_multicast_address _ | leave_multicast_address _ | add_route _ _ | remove_route _ _ => false
  | _ => true
  end.

Lemma mirror_emit e s : quiet e = true -> Mirror s -> Mirror (emit e s).
Proof.
  intros Hq [H1 H2 H3 H4 H5 H6]. constructor; try done; intros; unfold emit; cbn [log mUnicastAddresses mMulticastAddresses mInterfaceRoutes];
    rewrite ?on_interface_snoc, ?in_group_snoc, ?route_on_snoc, ?H1, ?H2, ?H3; by destruct e.
Qed.

Lemma mirror_on_mesh x s : Mirror s -> Mirror (set_on_mesh x s).
Proof. by intros []. Qed.
Lemma mirror_off_mesh x s : Mirror s -> Mirror (set_off_mesh x s).
Proof. by intros []. Qed.
Lemma mirror_services x s : Mirror s -> Mirror (set_services x s).
Proof. by intros []. Qed.
Lemma mirror_refresh x s : Mirror s -> Mirror (set_refresh x s).
Proof. by intros []. Qed.

Create HintDb mirror.
#[export] Hint Resolve mirror_emit mirror_on_mesh mirror_off_mesh mirror_services mirror_refresh : mirror.
#[export] Hint Extern 0 (quiet _ = true) => reflexivity : mirror.

(** Cases of the code, each of which keeps the mirror. *)
Ltac mirror := repeat case_match; simplify_eq/=; eauto with mirror.

(** One of the three tables changes, with the log. *)
Lemma mirror_u s s' : Mirror s -> mMulticastAddresses s' = mMulticastAddresses s -> mInterfaceRoutes s' = mInterfaceRoutes s ->
  (forall a, in_group (log s') a = in_group (log s) a) -> (forall p, route_on (log s') p = route_on (log s) p) -> NoDup (mUnicastAddresses s').*1 ->
  (forall a, on_interface (log s') a = put_there (u_origin <$> map_find a (mUnicastAddresses s'))) -> Mirror s'.
Proof. intros [] E1 E2 H1 H2 H3 H4. constructor; rewrite ?E1, ?E2; try done; intros; rewrite ?H1, ?H2; auto. Qed.

Lemma mirror_m s s' : Mirror s -> mUnicastAddresses s' = mUnicastAddresses s -> mInterfaceRoutes s' = mInterfaceRoutes s ->
  (forall a, on_interface (log s') a = on_interface (log s) a) -> (forall p, route_on (log s') p = route_on (log s) p) -> NoDup (mMulticastAddresses s').*1 ->
  (forall a, in_group (log s') a = put_there (map_find a (mMulticastAddresses s'))) -> Mirror s'.
Proof. intros [] E1 E2 H1 H2 H3 H4. constructor; rewrite ?E1, ?E2; try done; intros; rewrite ?H1, ?H2; auto. Qed.

Lemma mirror_r s s' : Mirror s -> mUnicastAddresses s' = mUnicastAddresses s -> mMulticastAddresses s' = mMulticastAddresses s ->
  (forall a, on_interface (log s') a = on_interface (log s) a) -> (forall a, in_group (log s') a = in_group (log s) a) -> NoDup (mInterfaceRoutes s').*1 ->
  (forall p, route_on (log s') p = map_find p (mInterfaceRoutes s')) -> Mirror s'.
Proof. intros [] E1 E2 H1 H2 H3 H4. constructor; rewrite ?E1, ?E2; try done; intros; rewrite ?H1, ?H2; auto. Qed.

(** The log behind an effect, looked at from one side. *)
Ltac replay := intros; unfold remove_stale, emit; cbn [log set_unicast set_multicast set_routes]; rewrite ?on_interface_snoc, ?in_group_snoc, ?route_on_snoc; reflexivity.

(** A new entry, with the effect if it does not come from the interface. *)
Lemma mirror_unicast_new o a e len s : Mirror s -> map_find a (mUnicastAddresses s) = None -> u_origin e = o ->
  let s1 := set_unicast (map_set memcmp_lt a e (mUnicastAddresses s)) s in
  Mirror (if is_from_ncp o || is_from_user o then emit (add_address a len) s1 else s1).
Proof.
  intros HM Hf Ho s1. assert (Hn := map_set_nodup memcmp_lt a e _ Hf (mi_nodup_u _ HM)). pose proof (mi_unicast _ HM) as H1.
  destruct o; cbn [is_from_ncp is_from_user orb]; eapply (mirror_u s); try done; try replay; intros a'; subst s1; unfold emit; cbn [log set_unicast mUnicastAddresses];
    rewrite ?on_interface_snoc; cbn [addr_step]; rewrite map_find_set, H1; case_bool_decide; try done; subst; by rewrite ?Hf; cbn; rewrite Ho.
Qed.

Lemma mirror_unicast_gone a e len s : Mirror s -> map_find a (mUnicastAddresses s) = Some e ->
  let s1 := set_unicast (map_erase a (mUnicastAddresses s)) s in Mirror (emit (remove_address a len) s1) /\ (u_origin e = kOriginPrimaryInterface -> Mirror s1).
Proof.
  intros HM Hf s1. assert (Hn := map_erase_nodup a _ (mi_nodup_u _ HM)). pose proof (mi_unicast _ HM) as H1. split; [|intros Ho].
  all: eapply (mirror_u s); try done; try replay; intros a'; subst s1; unfold emit; cbn [log set_unicast mUnicastAddresses].
  - rewrite on_interface_snoc. cbn [addr_step]. rewrite map_find_erase, H1. by case_bool_decide.
  - rewrite map_find_erase, H1. case_bool_decide; [subst; rewrite Hf; cbn; by rewrite Ho|done].
Qed.

Lemma mirror_left o a cb s : Mirror s -> Mirror (multicast_left o a cb s).1.
Proof.
  intros HM. unfold multicast_left. destruct (map_find a (mMulticastAddresses s)) as [e|] eqn:Hf; [|done]. destruct (_ || _) eqn:Ho; [|done].
  assert (Hn := map_erase_nodup a _ (mi_nodup_m _ HM)). pose proof (mi_multicast _ HM) as H2.
  set (s1 := set_multicast (map_erase a (mMulticastAddresses s)) s).
  assert (Mirror (if is_from_ncp o || is_from_user o then emit (leave_multicast_address a) s1 else s1)); [|by destruct o; cbn [is_from_ncp is_from_interface is_from_user orb fst] in *; auto with mirror].
  destruct o; cbn [is_from_ncp is_from_user orb]; eapply (mirror_m s); try done; try replay; intros a'; subst s1; unfold emit; cbn [log set_multicast mMulticastAddresses].
  - rewrite in_group_snoc. cbn [group_step]. rewrite map_find_erase, H2. by destruct (bool_decide (a = a')).
  - cbn in Ho. apply bool_decide_eq_true in Ho as <-. rewrite map_find_erase, H2. case_bool_decide; [|done]. subst. by rewrite Hf.
  - rewrite in_group_snoc. cbn [group_step]. rewrite map_find_erase, H2. by destruct (bool_decide (a = a')).
Qed.

Lemma mirror_call cb status : forall s, Mirror s -> Mirror (call cb status s).
Proof.
  induction cb as [| |cb IH|a cb IH]; intros s HM; cbn [call]; auto with mirror; apply IH; unfold check_ncp_entry_update_status, check_multicast_address_add_status; case_match; auto using mirror_left with mirror.
Qed.

#[export] Hint Resolve mirror_call mirror_left : mirror.

Lemma mirror_multicast_left o a cb s : Mirror s -> Mirror (multicast_address_was_left o a cb s).
Proof.
  intros HM. unfold multicast_address_was_left. pose proof (mirror_left o a cb s HM) as H. destruct (multicast_left o a cb s) as [s1 [st|]]; cbn in H; auto with mirror.
Qed.

Lemma mirror_joined o a cb s : Mirror s -> Mirror (multicast_address_was_joined o a cb s).
Proof.
  intros HM. unfold multicast_address_was_joined. destruct (map_find a (mMulticastAddresses s)) as [e|] eqn:Hf; [auto with mirror|].
  assert (Hn := map_set_nodup memcmp_lt a o _ Hf (mi_nodup_m _ HM)). pose proof (mi_multicast _ HM) as H2.
  set (s1 := set_multicast (map_set memcmp_lt a o (mMulticastAddresses s)) s).
  assert (Mirror (if is_from_ncp o || is_from_user o then emit (join_multicast_address a) s1 else s1));
    [|by destruct o; cbn [is_from_ncp is_from_interface is_from_user orb] in *; auto with mirror].
  destruct o; cbn [is_from_ncp is_from_user orb]; eapply (mirror_m s); try done; try replay; intros a'; subst s1; unfold emit; cbn [log set_multicast mMulticastAddresses];
    rewrite ?in_group_snoc; cbn [group_step]; rewrite map_find_set, H2; case_bool_decide; try done; subst; by rewrite ?Hf.
Qed.

Lemma mirror_unicast_added upd c o a len v p s : (forall a e s, Mirror s -> Mirror (upd a e s)) -> Mirror s -> Mirror (unicast_added_with upd c o a len v p s).
Proof.
  intros Hu HM. unfold unicast_added_with. destruct (_ && _ && _); [done|]. destruct (map_find a (mUnicastAddresses s)) as [e|] eqn:Hf; [done|].
  pose proof (mirror_unicast_new o a (MkUnicast o len v p) len s HM Hf eq_refl) as H. cbv zeta in H. destruct (negb (ti c) && _); auto.
Qed.

Lemma mirror_unicast_removed upd o a s : (forall a e s, Mirror s -> Mirror (upd a e s)) -> Mirror s -> Mirror (unicast_removed_with upd o a s).
Proof.
  intros Hu HM. unfold unicast_removed_with. destruct (map_find a (mUnicastAddresses s)) as [e|] eqn:Hf; [|done]. destruct (_ || _) eqn:Ho; [|done].
  destruct (mirror_unicast_gone a e (mPrefixLen e) s HM Hf) as [H1 H2].
  destruct o; cbn [is_from_ncp is_from_interface is_from_user orb] in *; auto. apply bool_decide_eq_true in Ho. auto.
Qed.

Lemma mirror_prefix_added c o a len f st r cb s : Mirror s -> Mirror (on_mesh_prefix_was_added c o a len f st r cb s).
Proof.
  intros HM. unfold on_mesh_prefix_was_added.
  set (s1 := if find_prefix_entry _ _ _ then _ else _). assert (H1 : Mirror s1). { subst s1. repeat case_match; auto 6 with mirror. }
  clearbody s1. destruct (_ && _); [|done]. apply mirror_unicast_added; auto with mirror.
Qed.

Lemma mirror_prefix_removed c o a len f st r cb s : Mirror s -> Mirror (on_mesh_prefix_was_removed c o a len f st r cb s).
Proof.
  intros HM. unfold on_mesh_prefix_was_removed, erase_prefix_entry. destruct (find_prefix_entry _ _ _); [|auto with mirror].
  set (s1 := if mAutoAddOnMeshPrefixesAsInterfaceRoutes c then _ else _). assert (H1 : Mirror s1). { subst s1. repeat case_match; auto 6 with mirror. }
  clearbody s1. destruct (_ && _); [|done]. destruct (find_address_with_prefix _ _ _) as [[a' e]|]; [|done]. apply mirror_unicast_removed; auto with mirror.
Qed.

#[export] Hint Resolve mirror_prefix_added mirror_prefix_removed : mirror.

Lemma mirror_add_on_ncp c a e s : Mirror s -> Mirror (add_address_on_ncp_and_update_prefixes c a e s).
Proof. intros HM. unfold add_address_on_ncp_and_update_prefixes. case_match; auto with mirror. Qed.

Lemma mirror_remove_on_ncp c a e s : Mirror s -> Mirror (remove_address_on_ncp_and_update_prefixes c a e s).
Proof. intros HM. unfold remove_address_on_ncp_and_update_prefixes. case_match; auto with mirror. Qed.

Lemma mirror_route_added o a len p st r h cb s : Mirror s -> Mirror (route_was_added o a len p st r h cb s).
Proof. intros HM. unfold route_was_added. repeat case_match; auto 6 with mirror. Qed.

Lemma mirror_route_removed o a len p st r cb s : Mirror s -> Mirror (route_was_removed o a len p st r cb s).
Proof. intros HM. unfold route_was_removed, erase_route_entry. repeat case_match; auto 6 with mirror. Qed.

Lemma mirror_service_added o n d st sv cb s : Mirror s -> Mirror (service_was_added o n d st sv cb s).
Proof. intros HM. unfold service_was_added. repeat case_match; auto 6 with mirror. Qed.

Lemma mirror_service_removed o n d cb s : Mirror s -> Mirror (service_was_removed o n d cb s).
Proof. intros HM. unfold service_was_removed. repeat case_match; auto 6 with mirror. Qed.

(** ** Routes on the interface *)

Lemma mirror_remove_stale c x s : Mirror s -> List.find (stale c s) (mInterfaceRoutes s) = Some x -> Mirror (remove_stale c x s).
Proof.
  intros HM Hf. destruct x as [p m]. destruct (erase_first_find _ p m _ (mi_nodup_r _ HM) Hf) as (H1 & H2 & _ & H4).
  eapply (mirror_r s); try done; try replay. intros p'. unfold remove_stale, emit. cbn [log set_routes mInterfaceRoutes fst snd].
  rewrite route_on_snoc, (mi_routes _ HM). cbn [route_step]. rewrite H4. case_bool_decide as E; [subst|done]. rewrite H1. by rewrite bool_decide_eq_true_2.
Qed.

Lemma mirror_add_missing c p s : Mirror s -> Mirror (add_missing c s p).
Proof.
  intros HM. unfold add_missing. destruct (should_add_route_on_interface c s p) as [m|]; [|done]. destruct (map_find p (mInterfaceRoutes s)) eqn:Hf; [done|].
  eapply (mirror_r s); try done; try replay; [by apply map_set_nodup, (mi_nodup_r _ HM)|]. intros p'. unfold emit. cbn [log set_routes mInterfaceRoutes].
  rewrite route_on_snoc, (mi_routes _ HM), map_find_set. cbn [route_step]. by case_bool_decide.
Qed.

Lemma mirror_fold {A} (f : state -> A -> state) l : (forall s x, Mirror s -> Mirror (f s x)) -> forall s, Mirror s -> Mirror (fold_left f l s).
Proof. intros Hf. induction l as [|x l IH]; intros s HM; cbn; auto. Qed.

Lemma mirror_refresh_routes c s : Mirror s -> exists s', refresh_routes_on_interface c s = Ret s' /\ Mirror s'.
Proof.
  intros HM. unfold refresh_routes_on_interface.
  destruct (erase_each_ind (stale c) mInterfaceRoutes (remove_stale c) Mirror (mirror_remove_stale c) (fun _ _ => eq_refl) (S (length (mInterfaceRoutes s))) s HM ltac:(lia)) as (s1 & -> & HM1 & _).
  cbn [mbind outcome_bind]. eexists. split; [done|].
  assert (H : forall l s, Mirror s -> Mirror (fold_left (add_missing c) l s)) by (intros; apply mirror_fold; auto using mirror_add_missing).
  repeat case_match; auto.
Qed.

(** ** All entries *)

Lemma mirror_erase_unicast x s : Mirror s -> List.find (ncp_unicast s) (mUnicastAddresses s) = Some x ->
  Mirror (set_unicast (erase_first (ncp_unicast s) (mUnicastAddresses s)) (emit (remove_address x.1 (mPrefixLen x.2)) s)).
Proof.
  intros HM Hf. destruct x as [a e]. destruct (erase_first_find _ a e _ (mi_nodup_u _ HM) Hf) as (H1 & H2 & _ & H4).
  eapply (mirror_u s); try done; try replay. intros a'. unfold emit. cbn [log set_unicast mUnicastAddresses fst snd].
  rewrite on_interface_snoc, (mi_unicast _ HM). cbn [addr_step]. rewrite H4. by case_bool_decide.
Qed.

Lemma mirror_erase_multicast x s : Mirror s -> List.find (ncp_multicast s) (mMulticastAddresses s) = Some x ->
  Mirror (set_multicast (erase_first (ncp_multicast s) (mMulticastAddresses s)) (emit (leave_multicast_address x.1) s)).
Proof.
  intros HM Hf. destruct x as [a o]. destruct (erase_first_find _ a o _ (mi_nodup_m _ HM) Hf) as (H1 & H2 & _ & H4).
  eapply (mirror_m s); try done; try replay. intros a'. unfold emit. cbn [log set_multicast mMulticastAddresses fst snd].
  rewrite in_group_snoc, (mi_multicast _ HM). cbn [group_step]. rewrite H4. by case_bool_decide.
Qed.

(** The next walk, from a state of which [P] holds. *)
Ltac walk P Hs :=
  match goal with |- context[erase_each (S (length (?g ?st))) ?k ?g ?a ?st] =>
    destruct (erase_each_ind k g a P) with (n := S (length (g st))) (s := st) as (? & -> & Hs & ?);
      [intros; eauto using mirror_erase_unicast, mirror_erase_multicast with mirror|done|done|lia|cbn [mbind outcome_bind]]
  end.

Lemma mirror_remove_ncp s : Mirror s -> exists s', remove_ncp_originated_address_prefix_route_entries s = Ret s' /\ Mirror s'.
Proof.
  intros HM. unfold remove_ncp_originated_address_prefix_route_entries.
  walk Mirror Hm1. walk Mirror Hm2. walk Mirror Hm3. walk Mirror Hm4. walk Mirror Hm5. eauto.
Qed.

Definition with_log (l : list effect) (s : state) : state :=
  MkState (mUnicastAddresses s) (mMulticastAddresses s) (mOnMeshPrefixes s) (mOffMeshRoutes s) (mInterfaceRoutes s) (mServiceEntries s)
    (mRequestRouteRefresh s) (mNCPLinkLocalAddress s) (mNCPMeshLocalAddress s) l.

Lemma fold_emit {A} (f : A -> effect) l : forall s, fold_left (fun s x => emit (f x) s) l s = with_log (log s ++ (f <$> l)) s.
Proof.
  induction l as [|x l IH]; intros s; cbn; [rewrite app_nil_r; by destruct s|]. rewrite IH. unfold with_log, emit. cbn. by rewrite <- app_assoc.
Qed.

Lemma remove_all_eq s : remove_all_address_prefix_route_entries s =
  MkState [] [] [] [] [] [] (mRequestRouteRefresh s) (replicate 16 0) (replicate 16 0)
    (log s ++ ((fun x => remove_address x.1 (mPrefixLen x.2)) <$> mUnicastAddresses s) ++ ((fun x => leave_multicast_address x.1) <$> mMulticastAddresses s)
     ++ ((fun x => remove_route x.1 x.2) <$> mInterfaceRoutes s)).
Proof. unfold remove_all_address_prefix_route_entries. rewrite !fold_emit. cbn. by rewrite <- !app_assoc. Qed.

(** Effects that a view does not see leave it as it is. *)
Lemma fold_unseen {A B C} (step : B -> A -> B) (f : C -> A) (l : list C) b : (forall b x, step b (f x) = b) -> fold_left step (f <$> l) b = b.
Proof. intros H. induction l as [|x l IH]; cbn; [done|]. by rewrite H. Qed.

Lemma fold_clear {A B} (step : bool -> A -> bool) (f : B -> A) (k : B -> in6_addr) a (l : list B) :
  (forall b x, step b (f x) = if bool_decide (k x = a) then false else b) -> forall b, (a ∉ k <$> l -> b = false) -> fold_left step (f <$> l) b = false.
Proof.
  intros H. induction l as [|x l IH]; intros b Hb; cbn; [apply Hb, not_elem_of_nil|]. apply IH. intros Hl. rewrite H. case_bool_decide; [done|]. apply Hb.
  cbn. rewrite not_elem_of_cons. split; [congruence|done].
Qed.

Lemma fold_routes p (l : list (IPv6Prefix * Z)) : NoDup l.*1 -> fold_left (route_step p) ((fun x => remove_route x.1 x.2) <$> l) (map_find p l) = None.
Proof.
  induction l as [|[q m] l IH]; cbn [fmap list_fmap map_find fold_left]; [done|]. intros [Hq Hn]%NoDup_cons. cbn [route_step fst snd]. destruct (decide (q = p)) as [->|Hne].
  - rewrite !bool_decide_eq_true_2 by done. cbn [andb]. specialize (IH Hn). by rewrite (proj2 (map_find_None p l) Hq) in IH.
  - rewrite (bool_decide_eq_false_2 (q = p)) by done. cbn. by apply IH.
Qed.

Lemma mirror_remove_all s : Mirror s -> Mirror (remove_all_address_prefix_route_entries s).
Proof.
  intros HM. rewrite remove_all_eq. constructor; cbn [log mUnicastAddresses mMulticastAddresses mInterfaceRoutes]; try (by constructor).
  - intros a. unfold on_interface. rewrite !fold_left_app. rewrite (fold_unseen _ (fun x => remove_route x.1 x.2)), (fold_unseen _ (fun x => leave_multicast_address x.1)) by done.
    apply (fold_clear _ _ fst a); [done|]. intros Ha. apply map_find_None in Ha. fold (on_interface (log s) a). by rewrite (mi_unicast _ HM), Ha.
  - intros a. unfold in_group. rewrite !fold_left_app. rewrite (fold_unseen _ (fun x => remove_route x.1 x.2)), (fold_unseen _ (fun x => remove_address x.1 (mPrefixLen x.2))) by done.
    apply (fold_clear _ _ fst a); [done|]. intros Ha. apply map_find_None in Ha. fold (in_group (log s) a). by rewrite (mi_multicast _ HM), Ha.
  - intros p. unfold route_on. rewrite !fold_left_app. rewrite (fold_unseen _ (fun x => leave_multicast_address x.1)), (fold_unseen _ (fun x => remove_address x.1 (mPrefixLen x.2))) by done.
    fold (route_on (log s) p). rewrite (mi_routes _ HM). apply fold_routes, (mi_nodup_r _ HM).
Qed.

Lemma mirror_restore c s : Mirror s -> Mirror (restore_address_prefix_route_entries_on_ncp c s).
Proof.
  intros HM. unfold restore_address_prefix_route_entries_on_ncp. repeat (apply mirror_fold; [intros; case_match; auto using mirror_add_on_ncp with mirror|]). done.
Qed.

Lemma mirror_exec c s x : Mirror s -> exists s', exec c s x = Ret s' /\ Mirror s'.
Proof.
  intros HM. destruct x; cbn [exec]; eauto using mirror_multicast_left, mirror_joined, mirror_prefix_added, mirror_prefix_removed, mirror_route_added, mirror_route_removed,
    mirror_service_added, mirror_service_removed, mirror_call, mirror_remove_all, mirror_remove_ncp, mirror_restore.
  - eexists. split; [done|]. apply mirror_unicast_added; auto using mirror_add_on_ncp.
  - eexists. split; [done|]. apply mirror_unicast_removed; auto using mirror_remove_on_ncp.
  - unfold refresh_address_route_prefix_entries. case_match; eauto using mirror_refresh_routes with mirror.
Qed.

Lemma mirror_execs c l : forall s, Mirror s -> exists s', execs c s l = Ret s' /\ Mirror s'.
Proof.
  induction l as [|x l IH]; intros s HM; cbn [execs]; [by eauto|]. destruct (mirror_exec c s x HM) as (s1 & -> & HM1). cbn [mbind outcome_bind]. by apply IH.
Qed.

Lemma mirror_start : Mirror start.
Proof. constructor; try done; constructor. Qed.

(** ** Which routes belong on the interface *)

(** Routes this device announces itself. *)
Definition by_device (e : OffMeshRouteEntry) : bool := negb (is_from_ncp (r_origin e)) || mNextHopIsHost e.
Definition entries_for (route : IPv6Prefix) (device : bool) (s : state) : list (IPv6Prefix * OffMeshRouteEntry) :=
  List.filter (fun x => bool_decide (x.1 = route) && Bool.eqb (by_device x.2) device) (mOffMeshRoutes s).
Definition top (l : list (IPv6Prefix * OffMeshRouteEntry)) : Z := foldr (fun x m => Z.max (preference (mPreference x.2)) m) (-1) l.
Definition nonempty {A} (l : list A) : bool := match l with [] => false | _ => true end.

(** A route that others announce is wanted with the metric of their highest preference,
    unless this device announces it too, at least as strongly or with its own routes
    filtered; else a prefix the co-processor has on the mesh is wanted. *)
Definition wanted (c : config) (s : state) (route : IPv6Prefix) : option Z :=
  let others := entries_for route false s in
  let ours := entries_for route true s in
  if mAutoAddOffMeshRoutesOnInterface c && nonempty others && (negb (nonempty ours) || (negb (mFilterSelfAutoAddedOffMeshRoutes c) && (top ours <? top others)))
  then Some (metric_of (top others))
  else if mAutoAddOnMeshPrefixesAsInterfaceRoutes c
          && existsb (fun x => bool_decide (x.1 = route) && is_from_ncp (p_origin x.2) && is_on_mesh x.2) (mOnMeshPrefixes s)
  then Some kRouteMetricMedium else None.

Lemma top_cons x l : top (x :: l) = Z.max (preference (mPreference x.2)) (top l).
Proof. done. Qed.

Lemma top_low l : -1 <= top l.
Proof. induction l as [|x l IH]; [done|]. rewrite top_cons. lia. Qed.

Lemma tally_fold route l : forall t, -1 <= preference_device t -> -1 <= preference_others t ->
  let f d := List.filter (fun x => bool_decide (x.1 = route) && Bool.eqb (by_device x.2) d) l in
  fold_left (tally_step route) l t = MkTally (route_added_by_device t || nonempty (f true)) (Z.max (preference_device t) (top (f true)))
    (route_added_by_others t || nonempty (f false)) (Z.max (preference_others t) (top (f false))).
Proof.
  induction l as [|[p e] l IH]; intros [d pd o po] Hd Ho; cbn [preference_device preference_others] in Hd, Ho.
  - cbn. rewrite !orb_false_r. f_equal; lia.
  - cbn [fold_left List.filter fst snd]. unfold tally_step at 2. cbn [fst snd]. fold (by_device e). destruct (bool_decide (p = route)); cbn [negb andb].
    + assert (-1 <= preference (mPreference e)) by (by destruct (mPreference e)).
      destruct (by_device e); cbn [Bool.eqb]; rewrite IH by (cbn; repeat case_match; lia);
        cbn [route_added_by_device route_added_by_others preference_device preference_others nonempty orb]; rewrite ?top_cons; cbn [snd]; f_equal; rewrite ?orb_true_r; try done; repeat case_match; lia.
    + by rewrite IH.
Qed.

Lemma should_add_wanted c s route : should_add_route_on_interface c s route = wanted c s route.
Proof.
  unfold should_add_route_on_interface, wanted. destruct (mAutoAddOffMeshRoutesOnInterface c); [|done].
  rewrite tally_fold by (cbn; lia). fold (entries_for route true s). fold (entries_for route false s). cbn [route_added_by_device route_added_by_others preference_device preference_others preference orb andb].
  assert (Htop : forall l, Z.max (-1) (top l) = top l). { intros l. pose proof (top_low l). lia. }
  rewrite !Htop. by destruct (nonempty (entries_for route false s) && _).
Qed.

Lemma wanted_listed c s route : wanted c s route <> None ->
  (mAutoAddOffMeshRoutesOnInterface c = true /\ route ∈ (mOffMeshRoutes s).*1) \/ (mAutoAddOnMeshPrefixesAsInterfaceRoutes c = true /\ route ∈ (mOnMeshPrefixes s).*1).
Proof.
  unfold wanted. destruct (mAutoAddOffMeshRoutesOnInterface c && _ && _) eqn:E.
  - intros _. left. apply andb_prop in E as [[-> E]%andb_prop _]. split; [done|]. unfold entries_for in E.
    induction (mOffMeshRoutes s) as [|[p e] l IH]; cbn in *; [done|]. apply elem_of_cons. case_bool_decide; [by left|right; by apply IH].
  - destruct (mAutoAddOnMeshPrefixesAsInterfaceRoutes c && _) eqn:E2; [|done]. intros _. right. apply andb_prop in E2 as [-> E2]. split; [done|].
    apply existsb_exists in E2 as ([p e] & Hin & Hx). apply andb_prop in Hx as [[Hp%bool_decide_eq_true _]%andb_prop _]. cbn in Hp. subst.
    apply list_elem_of_fmap. exists (route, e). split; [done|]. by apply list_elem_of_In.
Qed.

Lemma wanted_ext c s s' : mOffMeshRoutes s' = mOffMeshRoutes s -> mOnMeshPrefixes s' = mOnMeshPrefixes s -> forall r, wanted c s' r = wanted c s r.
Proof. intros E1 E2 r. unfold wanted, entries_for. by rewrite E1, E2. Qed.

Lemma first_of_each_all {V} (l : list (IPv6Prefix * V)) : forall last k, k ∈ l.*1 -> last = Some k \/ k ∈ first_of_each last l.
Proof.
  induction l as [|[q v] l IH]; intros last k Hk; [by apply not_elem_of_nil in Hk|]. cbn in Hk |- *. apply elem_of_cons in Hk. case_bool_decide as E.
  - destruct Hk as [->|Hk]; [by left|by apply IH].
  - right. apply elem_of_cons. destruct Hk as [->|Hk]; [by left|]. destruct (IH (Some q) k Hk) as [[= ->]|?]; [by left|by right].
Qed.

(** ** The refresh *)

(** Effects on routes of which [P] holds. *)
Definition route_effects (P : IPv6Prefix -> Prop) (l : list effect) : Prop :=
  Forall (fun e => match e with add_route p _ | remove_route p _ => P p | _ => False end) l.

(** From [s] to [s'] only routes changed for which [P] holds. *)
Record Changed (P : IPv6Prefix -> Prop) (s s' : state) : Prop := MkChanged {
  ch_off : mOffMeshRoutes s' = mOffMeshRoutes s;
  ch_on : mOnMeshPrefixes s' = mOnMeshPrefixes s;
  ch_log : exists l, log s' = log s ++ l /\ route_effects P l
}.

Lemma changed_refl P s : Changed P s s.
Proof. constructor; [done|done|]. exists []. rewrite app_nil_r. split; [done|constructor]. Qed.

Lemma changed_emit (P : IPv6Prefix -> Prop) s s' e x : Changed P s s' -> match e with add_route p _ | remove_route p _ => P p | _ => False end -> Changed P s (set_routes x (emit e s')).
Proof.
  intros [H1 H2 (l & H3 & H4)] He. constructor; [done|done|]. exists (l ++ [e]). cbn. rewrite H3, <- app_assoc. split; [done|]. apply Forall_app. split; [done|]. by constructor.
Qed.

Lemma find_none_forall {A} (f : A -> bool) l : List.find f l = None -> forall x, x ∈ l -> f x = false.
Proof. intros H x Hx. apply (find_none f l H). by apply list_elem_of_In. Qed.

Lemma map_find_elem {K V} `{EqDecision K} (k : K) (l : list (K * V)) v : map_find k l = Some v -> (k, v) ∈ l.
Proof. induction l as [|[k0 v0] l IH]; cbn; [done|]. case_bool_decide; [intros [= <-]; subst; by left|right; auto]. Qed.

Definition wrong (c : config) (s : state) (p : IPv6Prefix) : Prop := map_find p (mInterfaceRoutes s) <> wanted c s p.

(** Removing: what is left is right, and what was right is left. *)
Lemma remove_stale_run c s : NoDup (mInterfaceRoutes s).*1 -> exists s1, erase_each (S (length (mInterfaceRoutes s))) (stale c) mInterfaceRoutes (remove_stale c) s = Ret s1 /\
  Changed (wrong c s) s s1 /\
  forall p, map_find p (mInterfaceRoutes s1) = (if bool_decide (map_find p (mInterfaceRoutes s) = wanted c s p) then wanted c s p else None).
Proof.
  intros Hn.
  destruct (erase_each_ind (stale c) mInterfaceRoutes (remove_stale c) (fun s' => Changed (wrong c s) s s' /\ NoDup (mInterfaceRoutes s').*1 /\
    forall p, map_find p (mInterfaceRoutes s') = map_find p (mInterfaceRoutes s) \/ (map_find p (mInterfaceRoutes s') = None /\ wrong c s p)))
    with (n := S (length (mInterfaceRoutes s))) (s := s) as (s1 & E & (Hc & Hn1 & Hp) & Hnone); [|done|split; [apply changed_refl|split; [done|by left]]|lia|].
  - intros [p m] s' (Hc & Hn' & Hp) Hf. destruct (erase_first_find _ p m _ Hn' Hf) as (H1 & H2 & _ & H4).
    apply find_some in Hf as [_ Hst]. unfold stale in Hst. cbn in Hst. apply negb_true_iff, bool_decide_eq_false in Hst.
    rewrite should_add_wanted, (wanted_ext c s s' (ch_off _ _ _ Hc) (ch_on _ _ _ Hc)) in Hst.
    assert (Hw : wrong c s p). { destruct (Hp p) as [Hq|[_ ?]]; [|done]. unfold wrong. rewrite <- Hq, H1. congruence. }
    split; [by apply changed_emit|]. split; [done|]. intros p'. cbn [remove_stale set_routes mInterfaceRoutes]. rewrite H4. case_bool_decide; [subst; by right|apply Hp].
  - exists s1. split; [done|]. split; [done|]. intros p. destruct (Hp p) as [Hq|[Hq Hw]]; rewrite Hq.
    + case_bool_decide as Ew; [done|]. destruct (map_find p (mInterfaceRoutes s)) as [m|] eqn:Em; [|done]. exfalso. apply Ew.
      apply map_find_elem in Hq. pose proof (find_none_forall _ _ Hnone _ Hq) as Hst. unfold stale in Hst. cbn in Hst. apply negb_false_iff, bool_decide_eq_true in Hst.
      rewrite should_add_wanted, (wanted_ext c s s1 (ch_off _ _ _ Hc) (ch_on _ _ _ Hc)) in Hst. done.
    + by rewrite bool_decide_eq_false_2.
Qed.

(** Adding: routes that are wanted and not there, those on the list in particular. *)
Lemma add_missing_run c s0 l : forall s, Changed (wrong c s0) s0 s ->
  (forall p, map_find p (mInterfaceRoutes s) = wanted c s0 p \/ (map_find p (mInterfaceRoutes s) = None /\ wrong c s0 p)) ->
  let s' := fold_left (add_missing c) l s in Changed (wrong c s0) s0 s' /\
  (forall p, map_find p (mInterfaceRoutes s') = wanted c s0 p \/ (map_find p (mInterfaceRoutes s') = None /\ wrong c s0 p /\ p ∉ l)) /\
  (forall p, map_find p (mInterfaceRoutes s) = wanted c s0 p -> map_find p (mInterfaceRoutes s') = wanted c s0 p).
Proof.
  induction l as [|q l IH]; intros s Hc Hp; cbn [fold_left].
  - split; [done|]. split; [|done]. intros p. destruct (Hp p) as [?|[? ?]]; [by left|right]. split; [done|]. split; [done|apply not_elem_of_nil].
  - assert (Hstep : Changed (wrong c s0) s0 (add_missing c s q) /\ map_find q (mInterfaceRoutes (add_missing c s q)) = wanted c s0 q /\
      forall p, p <> q -> map_find p (mInterfaceRoutes (add_missing c s q)) = map_find p (mInterfaceRoutes s)).
    { unfold add_missing. rewrite should_add_wanted, (wanted_ext c s0 s (ch_off _ _ _ Hc) (ch_on _ _ _ Hc)). destruct (Hp q) as [Hq|[Hq Hw]]; rewrite Hq.
      - destruct (wanted c s0 q) eqn:Ew; done.
      - destruct (wanted c s0 q) as [m|]; [|done]. split; [by apply changed_emit|]. cbn [set_routes mInterfaceRoutes]. split; [|intros p Hne]; rewrite map_find_set.
        + by rewrite bool_decide_eq_true_2.
        + by rewrite bool_decide_eq_false_2. }
    destruct Hstep as (Hc1 & Hq1 & Hp1). destruct (IH (add_missing c s q) Hc1) as (Hc2 & Hp2 & Hk2).
    { intros p. destruct (decide (p = q)) as [->|Hne]; [by left|]. rewrite Hp1 by done. apply Hp. }
    split; [done|]. split.
    + intros p. destruct (decide (p = q)) as [->|Hne]; [left; by apply Hk2|]. destruct (Hp2 p) as [?|(? & ? & ?)]; [by left|right].
      split; [done|]. split; [done|]. rewrite not_elem_of_cons. done.
    + intros p Hpp. apply Hk2. destruct (decide (p = q)) as [->|Hne]; [done|]. by rewrite Hp1.
Qed.

Lemma refresh_routes_run c s : NoDup (mInterfaceRoutes s).*1 -> exists s', refresh_routes_on_interface c s = Ret s' /\ Changed (wrong c s) s s' /\
  forall p, map_find p (mInterfaceRoutes s') = wanted c s p.
Proof.
  intros Hn. destruct (remove_stale_run c s Hn) as (s1 & E & Hc1 & Hp1). unfold refresh_routes_on_interface. rewrite E. cbn [mbind outcome_bind]. eexists. split; [done|].
  assert (Hi : forall p, map_find p (mInterfaceRoutes s1) = wanted c s p \/ (map_find p (mInterfaceRoutes s1) = None /\ wrong c s p)).
  { intros p. rewrite Hp1. case_bool_decide; [by left|by right]. }
  set (s2 := if mAutoAddOffMeshRoutesOnInterface c then _ else _).
  assert (H2 : Changed (wrong c s) s s2 /\ forall p, map_find p (mInterfaceRoutes s2) = wanted c s p \/ (map_find p (mInterfaceRoutes s2) = None /\ wrong c s p /\
    (mAutoAddOffMeshRoutesOnInterface c = true -> p ∉ (mOffMeshRoutes s).*1))).
  { subst s2. destruct (mAutoAddOffMeshRoutesOnInterface c).
    - destruct (add_missing_run c s (first_of_each None (mOffMeshRoutes s1)) s1 Hc1 Hi) as (H1 & H2 & _). split; [done|]. intros p. destruct (H2 p) as [?|(? & ? & Hl)]; [by left|right].
      split; [done|]. split; [done|]. intros _ Hin. rewrite <- (ch_off _ _ _ Hc1) in Hin. destruct (first_of_each_all _ None p Hin); done.
    - split; [done|]. intros p. destruct (Hi p) as [?|[? ?]]; [by left|by right]. }
  clearbody s2. destruct H2 as [Hc2 Hp2]. assert (Hfin : forall s3, (forall p, map_find p (mInterfaceRoutes s3) = wanted c s p \/ (map_find p (mInterfaceRoutes s3) = None /\ wrong c s p /\
    (mAutoAddOffMeshRoutesOnInterface c = true -> p ∉ (mOffMeshRoutes s).*1) /\ (mAutoAddOnMeshPrefixesAsInterfaceRoutes c = true -> p ∉ (mOnMeshPrefixes s).*1))) ->
    forall p, map_find p (mInterfaceRoutes s3) = wanted c s p).
  { intros s3 H p. destruct (H p) as [?|(-> & _ & Ho & Hm)]; [done|]. destruct (wanted c s p) eqn:Ew; [|done]. exfalso.
    destruct (wanted_listed c s p) as [[A1 A2]|[A1 A2]]; [congruence|by apply Ho|by apply Hm]. }
  destruct (mAutoAddOnMeshPrefixesAsInterfaceRoutes c) eqn:Eon.
  - destruct (add_missing_run c s (mOnMeshPrefixes s2).*1 s2 Hc2) as (H1 & H2 & H3). { intros p. destruct (Hp2 p) as [?|(? & ? & _)]; [by left|by right]. }
    split; [done|]. apply Hfin. intros p. destruct (H2 p) as [?|(Hnone & Hw & Hl)]; [by left|]. destruct (Hp2 p) as [Hq|(_ & _ & Ho)]; [left; by apply H3|].
    right. split; [done|]. split; [done|]. split; [done|]. intros _. by rewrite <- (ch_on _ _ _ Hc2).
  - split; [done|]. apply Hfin. intros p. destruct (Hp2 p) as [?|(? & ? & ?)]; [by left|right]. done.
Qed.

(** Nothing to do. *)
Lemma refresh_routes_idle c s : NoDup (mInterfaceRoutes s).*1 -> (forall p, map_find p (mInterfaceRoutes s) = wanted c s p) -> refresh_routes_on_interface c s = Ret s.
Proof.
  intros Hn Hp. assert (Hfold : forall l, fold_left (add_missing c) l s = s).
  { induction l as [|q l IH]; [done|]. cbn [fold_left]. replace (add_missing c s q) with s; [done|]. unfold add_missing. rewrite should_add_wanted, Hp. by destruct (wanted c s q). }
  unfold refresh_routes_on_interface. cbn [erase_each]. destruct (List.find (stale c s) (mInterfaceRoutes s)) as [[p m]|] eqn:E.
  - destruct (erase_first_find _ p m _ Hn E) as (H1 & _). apply find_some in E as [_ Hst]. unfold stale in Hst. cbn in Hst. apply negb_true_iff, bool_decide_eq_false in Hst.
    exfalso. apply Hst. by rewrite should_add_wanted, <- Hp.
  - cbn [mbind outcome_bind]. destruct (mAutoAddOffMeshRoutesOnInterface c), (mAutoAddOnMeshPrefixesAsInterfaceRoutes c); by rewrite ?Hfold.
Qed.

(** ** What the tables guarantee *)

(** C6: Whatever the co-processor, the interface, the user and the answers of the
    co-processor bring, in any order, every operation ends, and the interface has what the
    tables say: the addresses and groups that were put on it and not taken off again are
    those of the tables that did not come from the interface itself, and its routes are
    the table of routes, with their metrics.  (The group ff03::1, which the constructor joins
    past the tables, is not counted.) *)
Theorem interface_mirrors_tables c ops : exists s, execs c start ops = Ret s /\
  (forall a, on_interface (log s) a = put_there (u_origin <$> map_find a (mUnicastAddresses s))) /\
  (forall a, in_group (log s) a = put_there (map_find a (mMulticastAddresses s))) /\
  (forall p, route_on (log s) p = map_find p (mInterfaceRoutes s)).
Proof. destruct (mirror_execs c ops start mirror_start) as (s & E & []). by exists s. Qed.

(** C7: In every state that can be reached, refreshing the routes leaves on the interface
    exactly the routes that are wanted, with their metrics; it touches no route that was
    right before, changes nothing but routes, and a second refresh does nothing. *)
Theorem refresh_routes_exact c ops s : execs c start ops = Ret s ->
  exists s' l, refresh_routes_on_interface c s = Ret s' /\ (forall p, map_find p (mInterfaceRoutes s') = wanted c s p) /\
    log s' = log s ++ l /\ route_effects (fun p => map_find p (mInterfaceRoutes s) <> wanted c s p) l /\ refresh_routes_on_interface c s' = Ret s'.
Proof.
  intros E. destruct (mirror_execs c ops start mirror_start) as (s0 & E0 & HM). rewrite E in E0. injection E0 as <-.
  destruct (refresh_routes_run c s (mi_nodup_r _ HM)) as (s' & E' & Hc & Hp). destruct (ch_log _ _ _ Hc) as (l & Hl & Hr). exists s', l. split; [done|]. split; [done|]. split; [done|]. split; [done|].
  destruct (mirror_refresh_routes c s HM) as (s2 & E2 & HM2). rewrite E' in E2. injection E2 as <-. apply refresh_routes_idle; [apply (mi_nodup_r _ HM2)|].
  intros p. rewrite Hp. symmetry. apply wanted_ext; [apply (ch_off _ _ _ Hc)|apply (ch_on _ _ _ Hc)].
Qed.

Definition sample_config : config := MkConfig false true true true false false true true false true [1; 2; 3; 4; 5; 6; 7; 8].
Definition net (n : Z) : in6_addr := [0xfd; n] ++ replicate 14 0.
Definition sample_ops : list op :=
  [PrefixAdded kOriginThreadNCP (net 1) 64 0x31 true 0 NilReturn; RouteAdded kOriginThreadNCP (net 2) 48 ROUTE_HIGH_PREFERENCE true 1 false NilReturn;
   RouteAdded kOriginUser (net 2) 48 ROUTE_LOW_PREFRENCE true 0 true (Client 7); Refresh; UnicastAdded kOriginUser (net 3) 64 0 0; RouteRemoved kOriginUser (net 2) 48 ROUTE_LOW_PREFRENCE true 0 NilReturn].
Definition sample_state : state := Eval vm_compute in match execs sample_config start sample_ops with Ret s => s | _ => start end.

Lemma refresh_routes_exact_witness : exists s' l, refresh_routes_on_interface sample_config sample_state = Ret s' /\
  (forall p, map_find p (mInterfaceRoutes s') = wanted sample_config sample_state p) /\ log s' = log sample_state ++ l /\
  route_effects (fun p => map_find p (mInterfaceRoutes sample_state) <> wanted sample_config sample_state p) l /\ refresh_routes_on_interface sample_config s' = Ret s'.
Proof. apply (refresh_routes_exact sample_config sample_ops). vm_compute. reflexivity. Defined.

(** ** Prefixes and the addresses they bring *)

(** A callback that hears of a success leaves the tables alone. *)
Lemma call_ok cb : forall s, exists l, call cb kWPANTUNDStatus_Ok s = with_log (log s ++ l) s.
Proof.
  induction cb as [|k|cb IH|a cb IH]; intros s; cbn [call]; [exists []; rewrite app_nil_r; by destruct s|by exists [reply k 0]|apply IH|apply IH].
Qed.

Lemma on_mesh_eqb_refl e : on_mesh_eqb e e = true.
Proof. unfold on_mesh_eqb. rewrite !bool_decide_eq_true_2, !Z.eqb_refl by done. by destruct (is_from_ncp _). Qed.

Lemma erase_insert {K V} (lt : K -> K -> bool) (f : K * V -> bool) k v l : f (k, v) = true -> (forall x, x ∈ l -> f x = false) -> erase_first f (multimap_insert lt k v l) = l.
Proof.
  intros Hk. induction l as [|[k0 v0] l IH]; intros Hl; cbn; [by rewrite Hk|]. destruct (lt k k0); cbn; [by rewrite Hk|]. rewrite (Hl (k0, v0)) by (by left). f_equal. apply IH.
  intros x Hx. apply Hl. by right.
Qed.

Lemma find_map_set {K V} `{EqDecision K} (lt : K -> K -> bool) (f : K * V -> bool) k v l : f (k, v) = true -> (forall x, x ∈ l -> f x = false) -> map_find k l = None ->
  List.find f (map_set lt k v l) = Some (k, v).
Proof.
  intros Hk. induction l as [|[k0 v0] l IH]; intros Hl Hf; cbn; [by rewrite Hk|]. cbn in Hf. case_bool_decide; [done|]. destruct (lt k k0); cbn; [by rewrite Hk|].
  rewrite (Hl (k0, v0)) by (by left). apply IH; [|done]. intros x Hx. apply Hl. by right.
Qed.

Lemma existsb_false {A} (f : A -> bool) l : existsb f l = false -> forall x, x ∈ l -> f x = false.
Proof. intros H x Hx. destruct (f x) eqn:E; [|done]. rewrite <- H. symmetry. apply existsb_exists. exists x. split; [by apply list_elem_of_In|done]. Qed.

(** The address made from a prefix has this prefix. *)
Lemma slaac_prefix a mac : length a = 16%nat -> IPv6Prefix_init (make_slaac_addr_from_eui64 (mPrefix (IPv6Prefix_init a 64)) mac) 64 = IPv6Prefix_init a 64.
Proof.
  intros Ha. unfold IPv6Prefix_init, make_slaac_addr_from_eui64. cbn [mPrefix]. f_equal. unfold in6_addr_apply_mask. cbn -[take drop alter].
  change (Pos.to_nat 8) with 8%nat. do 16 (destruct a as [|? a]; [done|]). destruct a; [|done]. reflexivity.
Qed.

Lemma find_prefix_entry_false p e s : find_prefix_entry p e s = false <-> forall x, x ∈ mOnMeshPrefixes s -> bool_decide (x.1 = p) && on_mesh_eqb x.2 e = false.
Proof.
  unfold find_prefix_entry, equal_range. split.
  - intros H x Hx. destruct (bool_decide (x.1 = p)) eqn:E; [|done]. apply bool_decide_eq_true in E. apply (existsb_false _ _ H). by apply list_elem_of_filter.
  - intros H. apply not_true_iff_false. intros (x & Hx & Hf)%existsb_exists. apply list_elem_of_In, list_elem_of_filter in Hx as [E Hx]. specialize (H x Hx).
    rewrite bool_decide_eq_true_2, Hf in H by done. done.
Qed.

Lemma multimap_insert_elem {K V} (lt : K -> K -> bool) (k : K) (v : V) l : (k, v) ∈ multimap_insert lt k v l.
Proof. induction l as [|[k0 v0] l IH]; cbn; [by left|]. destruct (lt k k0); [by left|by right]. Qed.

(** What adding a new prefix does to the tables. *)
Lemma added_tables c o a len flags stable rloc cb s (p := IPv6Prefix_init a len) (e := MkOnMesh o flags stable rloc)
    (addr := make_slaac_addr_from_eui64 (mPrefix p) (mMACAddress c)) : find_prefix_entry p e s = false ->
  let s1 := on_mesh_prefix_was_added c o a len flags stable rloc cb s in
  mOnMeshPrefixes s1 = multimap_insert prefix_lt p e (mOnMeshPrefixes s) /\
  (mUnicastAddresses s1 = mUnicastAddresses s \/
   (len = 64 /\ is_on_mesh e && is_slaac e = true /\ map_find addr (mUnicastAddresses s) = None /\
    mUnicastAddresses s1 = map_set memcmp_lt addr (MkUnicast kOriginThreadNCP len UINT32_MAX UINT32_MAX) (mUnicastAddresses s))).
Proof.
  intros Hf s1. subst s1. unfold on_mesh_prefix_was_added. fold p. fold e. rewrite Hf.
  set (s0 := if mAutoAddOnMeshPrefixesAsInterfaceRoutes c then _ else _).
  assert (H0 : mOnMeshPrefixes s0 = multimap_insert prefix_lt p e (mOnMeshPrefixes s) /\ mUnicastAddresses s0 = mUnicastAddresses s).
  { subst s0. destruct (call_ok cb (set_on_mesh (multimap_insert prefix_lt p e (mOnMeshPrefixes s)) s)) as (l & ->). by repeat case_match. }
  clearbody s0. destruct H0 as [Ho Hu]. destruct (_ && negb _) eqn:Ec; [|by split; [|left]]. fold addr. unfold unicast_added_with. cbn [is_from_interface is_from_user is_from_ncp orb andb emit mUnicastAddresses].
  rewrite Hu. destruct (map_find addr (mUnicastAddresses s)) eqn:Em; [by split; [|left]|]. rewrite andb_false_r. split; [done|]. right.
  repeat (apply andb_prop in Ec as [Ec ?]). subst p. cbn in *. split; [by apply Z.eqb_eq|]. split; [by apply andb_true_intro|]. done.
Qed.

(** What removing it again does, with or without its address. *)
Lemma removed_tables c o a len flags stable rloc cb s s1 (p := IPv6Prefix_init a len) (e := MkOnMesh o flags stable rloc) : find_prefix_entry p e s = false ->
  mOnMeshPrefixes s1 = multimap_insert prefix_lt p e (mOnMeshPrefixes s) ->
  let s2 := on_mesh_prefix_was_removed c o a len flags stable rloc cb s1 in mOnMeshPrefixes s2 = mOnMeshPrefixes s /\
  mUnicastAddresses s2 = (if is_on_mesh e && is_slaac e && (len =? 64) && negb (has_slaac_on_mesh_prefix p s) then
    match List.find (fun x => bool_decide (u_origin x.2 = kOriginThreadNCP) && bool_decide (IPv6Prefix_init x.1 (mPrefixLen x.2) = p)) (mUnicastAddresses s1) with
    | Some (addr, _) => mUnicastAddresses (unicast_removed_with no_update kOriginThreadNCP addr s1)
    | None => mUnicastAddresses s1 end else mUnicastAddresses s1).
Proof.
  intros Hf Hins s2. subst s2. unfold on_mesh_prefix_was_removed. fold p. fold e. assert (Hf1 : find_prefix_entry p e s1 = true).
  { destruct (find_prefix_entry p e s1) eqn:E; [done|]. apply (proj1 (find_prefix_entry_false p e s1)) with (x := (p, e)) in E; [|rewrite Hins; apply multimap_insert_elem].
    cbn in E. by rewrite bool_decide_eq_true_2, on_mesh_eqb_refl in E by done. }
  rewrite Hf1. set (s0 := if mAutoAddOnMeshPrefixesAsInterfaceRoutes c then _ else _).
  assert (H0 : mOnMeshPrefixes s0 = mOnMeshPrefixes s /\ mUnicastAddresses s0 = mUnicastAddresses s1).
  { assert (He : mOnMeshPrefixes (erase_prefix_entry p e s1) = mOnMeshPrefixes s).
    { cbn. rewrite Hins. apply erase_insert; [cbn; by rewrite bool_decide_eq_true_2, on_mesh_eqb_refl|by apply find_prefix_entry_false]. }
    rewrite <- He. subst s0. destruct (call_ok cb (erase_prefix_entry p e s1)) as (l & ->). by repeat case_match. }
  clearbody s0. destruct H0 as [Ho Hu]. assert (Hs0 : has_slaac_on_mesh_prefix p s0 = has_slaac_on_mesh_prefix p s) by (unfold has_slaac_on_mesh_prefix in *; by rewrite Ho).
  rewrite Hs0. change (mLength p) with len. change kSLAACPrefixLength with 64. destruct (is_on_mesh e && is_slaac e && (len =? 64) && negb _); [|done].
  unfold find_address_with_prefix. rewrite Hu. destruct (List.find _ (mUnicastAddresses s1)) as [[addr x]|]; [|done].
  unfold unicast_removed_with, no_update. cbn [emit mUnicastAddresses]. rewrite Hu. destruct (map_find addr (mUnicastAddresses s1)); [|done]. by destruct (_ || _).
Qed.

(** C8: An entry for a prefix that was not in the table, once added and removed again,
    leaves the table of prefixes as it was, whatever the settings.  The table of addresses is
    as it was too, the address made for the prefix gone with it, if the table had no address of that prefix and
    no other entry that asks for one; if another entry does ask for one, the addresses
    stay as the adding left them. *)
Theorem prefix_added_removed c o a len flags stable rloc cb cb' s : length a = 16%nat ->
  let p := IPv6Prefix_init a len in
  find_prefix_entry p (MkOnMesh o flags stable rloc) s = false ->
  let s1 := on_mesh_prefix_was_added c o a len flags stable rloc cb s in
  let s2 := on_mesh_prefix_was_removed c o a len flags stable rloc cb' s1 in
  mOnMeshPrefixes s2 = mOnMeshPrefixes s /\
  (if has_slaac_on_mesh_prefix p s then mUnicastAddresses s2 = mUnicastAddresses s1
   else has_address_with_prefix p s = false -> mUnicastAddresses s2 = mUnicastAddresses s).
Proof.
  intros Ha p Hf s1 s2. set (e := MkOnMesh o flags stable rloc) in *.
  destruct (added_tables c o a len flags stable rloc cb s Hf) as [Hon Hun]. destruct (removed_tables c o a len flags stable rloc cb' s _ Hf Hon) as [H1 H2].
  split; [exact H1|]. subst s2. fold s1 p e in H2, Hun |- *. destruct (has_slaac_on_mesh_prefix p s).
  { by rewrite andb_false_r in H2. }
  intros Hadr. rewrite andb_true_r in H2. rewrite H2. clear H1 H2. fold p e in Hon, Hun |- *.
  pose proof (existsb_false _ _ Hadr) as Hno. cbn beta in Hno. destruct Hun as [->|(-> & Hfl & Hm & Hset)].
  - destruct (_ && _); [|done]. destruct (List.find _ _) as [[addr x]|] eqn:E; [|done]. apply find_some in E as [Hin Hx]. apply list_elem_of_In in Hin.
    rewrite (Hno _ Hin), andb_false_r in Hx. done.
  - rewrite Hfl. cbn [andb Z.eqb]. set (addr := make_slaac_addr_from_eui64 _ _) in *. rewrite Hset, find_map_set; [| |intros x Hx; rewrite (Hno _ Hx); apply andb_false_r|done].
    + unfold unicast_removed_with, no_update. rewrite Hset, map_find_set, bool_decide_eq_true_2 by done. cbn. by rewrite map_erase_set.
    + cbn [fst snd u_origin mPrefixLen]. subst addr p. rewrite slaac_prefix by done. by rewrite !bool_decide_eq_true_2.
Qed.

Lemma prefix_added_removed_witness :
  let p := IPv6Prefix_init (net 5) 64 in
  let s1 := on_mesh_prefix_was_added sample_config kOriginUser (net 5) 64 0x31 true 0 (Client 1) sample_state in
  let s2 := on_mesh_prefix_was_removed sample_config kOriginUser (net 5) 64 0x31 true 0 NilReturn s1 in
  mOnMeshPrefixes s2 = mOnMeshPrefixes sample_state /\
  (if has_slaac_on_mesh_prefix p sample_state then mUnicastAddresses s2 = mUnicastAddresses s1
   else has_address_with_prefix p sample_state = false -> mUnicastAddresses s2 = mUnicastAddresses sample_state).
Proof. apply (prefix_added_removed sample_config kOriginUser (net 5) 64 0x31 true 0 (Client 1) NilReturn sample_state); vm_compute; reflexivity. Defined.

(** ** Failures *)

(** C9: A group the user joins but the co-processor refuses is left again: the table is as
    it was, the interface has joined and left, the co-processor is told to forget it, and
    the client hears of the failure once. *)
Theorem multicast_join_refused a k status s : map_find a (mMulticastAddresses s) = None -> status <> kWPANTUNDStatus_Ok ->
  let s1 := multicast_address_was_joined kOriginUser a (Client k) s in
  let s2 := call (CheckMulticastAddStatus a (Client k)) status s1 in
  log s1 = log s ++ [join_multicast_address a; add_multicast_address_on_ncp a (CheckMulticastAddStatus a (Client k))] /\
  log s2 = log s1 ++ [leave_multicast_address a; remove_multicast_address_on_ncp a (CheckUpdateStatus NilReturn); reply k status] /\
  s2 = with_log (log s2) s.
Proof.
  intros Hf Hst s1 s2. assert (E1 : s1 = with_log (log s ++ [join_multicast_address a; add_multicast_address_on_ncp a (CheckMulticastAddStatus a (Client k))])
    (set_multicast (map_set memcmp_lt a kOriginUser (mMulticastAddresses s)) s)).
  { subst s1. unfold multicast_address_was_joined. rewrite Hf. unfold with_log, emit. cbn. by rewrite <- app_assoc. }
  assert (E2 : s2 = with_log (log s1 ++ [leave_multicast_address a; remove_multicast_address_on_ncp a (CheckUpdateStatus NilReturn); reply k status]) s).
  { subst s2. cbn [call]. unfold check_multicast_address_add_status. rewrite (proj2 (Z.eqb_neq _ _) Hst). unfold multicast_left. rewrite E1. cbn [with_log set_multicast mMulticastAddresses log].
    rewrite map_find_set, bool_decide_eq_true_2 by done. cbn [is_from_ncp is_from_user is_from_interface orb fst]. unfold emit, with_log, set_multicast. cbn.
    rewrite map_erase_set by done. f_equal. by rewrite <- !app_assoc. }
  split; [by rewrite E1|]. split; [by rewrite E2|]. by rewrite E2 at 1 2.
Qed.

Lemma multicast_join_refused_witness : let a := [0xff; 2] ++ replicate 14 0 in
  let s1 := multicast_address_was_joined kOriginUser a (Client 9) start in
  let s2 := call (CheckMulticastAddStatus a (Client 9)) 1 s1 in
  log s1 = log start ++ [join_multicast_address a; add_multicast_address_on_ncp a (CheckMulticastAddStatus a (Client 9))] /\
  log s2 = log s1 ++ [leave_multicast_address a; remove_multicast_address_on_ncp a (CheckUpdateStatus NilReturn); reply 9 1] /\
  s2 = with_log (log s2) start.
Proof. apply (multicast_join_refused ([0xff; 2] ++ replicate 14 0) 9 1 start); [reflexivity|discriminate]. Defined.

(** ** Forgetting what the co-processor said *)

Lemma erase_first_keep {A} (f : A -> bool) l : List.filter (fun x => negb (f x)) (erase_first f l) = List.filter (fun x => negb (f x)) l.
Proof. induction l as [|x l IH]; cbn; [done|]. destruct (f x) eqn:E; cbn; [done|]. by rewrite E, IH. Qed.

Lemma filter_none {A} (f : A -> bool) l : List.find f l = None -> List.filter (fun x => negb (f x)) l = l.
Proof. induction l as [|x l IH]; cbn; [done|]. destruct (f x) eqn:E; cbn; [done|]. intros H. by rewrite IH. Qed.

Definition kept_unicast (s : state) := List.filter (fun x => negb (is_from_ncp (u_origin x.2))) (mUnicastAddresses s).
Definition kept_multicast (s : state) := List.filter (fun x => negb (is_from_ncp x.2)) (mMulticastAddresses s).
Definition kept_on_mesh (s : state) := List.filter (fun x => negb (is_from_ncp (p_origin x.2))) (mOnMeshPrefixes s).
Definition kept_off_mesh (s : state) := List.filter (fun x => negb (is_from_ncp (r_origin x.2))) (mOffMeshRoutes s).
Definition kept_services (s : state) := List.filter (fun x => negb (is_from_ncp (s_origin x))) (mServiceEntries s).

(** A walk that erases takes out what it looks for and leaves what no erasure touches. *)
Lemma erase_each_filter {A T} (f : A -> bool) (kind : state -> A -> bool) (get : state -> list A) (act : A -> state -> state) (frame : state -> T) s :
  (forall s, kind s = f) -> (forall x s, get (act x s) = erase_first (kind s) (get s)) -> (forall x s, frame (act x s) = frame s) ->
  exists s', erase_each (S (length (get s))) kind get act s = Ret s' /\ get s' = List.filter (fun x => negb (f x)) (get s) /\ frame s' = frame s.
Proof.
  intros Hk Hg Hfr. destruct (erase_each_ind kind get act (fun s' => List.filter (fun x => negb (f x)) (get s') = List.filter (fun x => negb (f x)) (get s) /\ frame s' = frame s))
    with (n := S (length (get s))) (s := s) as (s' & E & (H1 & H2) & H3); [|done|done|lia|].
  - intros x s' [H1 H2] _. rewrite Hg, Hfr, Hk, erase_first_keep. done.
  - exists s'. split; [done|]. split; [|done]. rewrite <- H1. rewrite Hk in H3. symmetry. by apply filter_none.
Qed.

(** The next walk, with what it looks for and what it leaves alone. *)
Ltac sweep f fr s1 :=
  match goal with |- context[erase_each (S (length (?g ?st))) ?k ?g ?a ?st] =>
    destruct (erase_each_filter f k g a fr st) as (s1 & -> & ? & ?); [done|done|done|cbn [mbind outcome_bind]]
  end.


Definition tables (s : state) := (mUnicastAddresses s, mMulticastAddresses s, mOnMeshPrefixes s, mOffMeshRoutes s, mServiceEntries s, mInterfaceRoutes s).

(** Forgetting what came from the co-processor ends and leaves exactly the entries of
    the interface and of the user, in their order, and the routes of the interface. *)
Theorem remove_ncp_exact s : exists s', remove_ncp_originated_address_prefix_route_entries s = Ret s' /\
  tables s' = (kept_unicast s, kept_multicast s, kept_on_mesh s, kept_off_mesh s, kept_services s, mInterfaceRoutes s).
Proof.
  unfold remove_ncp_originated_address_prefix_route_entries, kept_unicast, kept_multicast, kept_on_mesh, kept_off_mesh, kept_services, tables.
  sweep (fun x : in6_addr * UnicastAddressEntry => is_from_ncp (u_origin x.2)) (fun s => (mMulticastAddresses s, mOnMeshPrefixes s, mOffMeshRoutes s, mServiceEntries s, mInterfaceRoutes s)) s1.
  sweep (fun x : in6_addr * Origin => is_from_ncp x.2) (fun s => (mUnicastAddresses s, mOnMeshPrefixes s, mOffMeshRoutes s, mServiceEntries s, mInterfaceRoutes s)) s2.
  sweep (fun x : IPv6Prefix * OnMeshPrefixEntry => is_from_ncp (p_origin x.2)) (fun s => (mUnicastAddresses s, mMulticastAddresses s, mOffMeshRoutes s, mServiceEntries s, mInterfaceRoutes s)) s3.
  sweep (fun x : IPv6Prefix * OffMeshRouteEntry => is_from_ncp (r_origin x.2)) (fun s => (mUnicastAddresses s, mMulticastAddresses s, mOnMeshPrefixes s, mServiceEntries s, mInterfaceRoutes s)) s4.
  sweep (fun x => is_from_ncp (s_origin x)) (fun s => (mUnicastAddresses s, mMulticastAddresses s, mOnMeshPrefixes s, mOffMeshRoutes s, mInterfaceRoutes s)) s5.
  exists s5. split; [done|]. simplify_eq/=. congruence.
Qed.

(** ** Where the code falls short *)

(** The routes of the prefixes that are forgotten stay on the interface, and no refresh is
    asked for. *)
Example forgotten_prefix_keeps_route : exists s s', execs sample_config start [PrefixAdded kOriginThreadNCP (net 1) 64 0x31 true 0 NilReturn; Refresh; RemoveNcp] = Ret s /\
  mInterfaceRoutes s = [(IPv6Prefix_init (net 1) 64, 256)] /\ wanted sample_config s (IPv6Prefix_init (net 1) 64) = None /\
  exec sample_config s Refresh = Ret s' /\ mInterfaceRoutes s' = mInterfaceRoutes s.
Proof. eexists _, _. split; [vm_compute; reflexivity|]. split; [vm_compute; reflexivity|]. split; [vm_compute; reflexivity|]. split; [vm_compute; reflexivity|]. reflexivity. Qed.

(** As it is built, an address of the user is not given to the co-processor, which is told
    to remove it all the same. *)
Example user_address_not_sent : exists s s', let c := MkConfig true true true true false false true true false true [1; 2; 3; 4; 5; 6; 7; 8] in
  exec c start (UnicastAdded kOriginUser (net 3) 64 0 0) = Ret s /\ log s = [add_address (net 3) 64] /\
  exec c s (UnicastRemoved kOriginUser (net 3)) = Ret s' /\ log s' = [add_address (net 3) 64; remove_address (net 3) 64; remove_unicast_address_on_ncp (net 3) 64 (CheckUpdateStatus NilReturn)].
Proof. eexists _, _. repeat split; vm_compute; reflexivity. Qed.

(** ** Flags *)

Definition flag_bit (f : PrefixFlag) : Z :=
  match f with
  | PREFIX_FLAG_ON_MESH => 0 | PREFIX_FLAG_DEFAULT_ROUTE => 1 | PREFIX_FLAG_CONFIGURE => 2 | PREFIX_FLAG_DHCP => 3
  | PREFIX_FLAG_SLAAC => 4 | PREFIX_FLAG_PREFERRED => 5 | PREFIX_FLAG_DOMAIN_PREFIX => 14 | PREFIX_FLAG_ND_DNS => 15
  end.

(** The flags of a prefix can be read off again, and its priority. *)
Lemma encode_flag_set_bits fs p f : Z.testbit (encode_flag_set fs p) (flag_bit f) = bool_decide (f ∈ fs) /\
  Z.land (encode_flag_set fs p) kPreferenceMask = match p with PREFIX_HIGH_PREFERENCE => kPreferenceHigh | PREFIX_MEDIUM_PREFERENCE => kPreferenceMedium | PREFIX_LOW_PREFRENCE => kPreferenceLow end.
Proof.
  unfold encode_flag_set. destruct (bool_decide (PREFIX_FLAG_ON_MESH ∈ fs)) eqn:E1, (bool_decide (PREFIX_FLAG_DEFAULT_ROUTE ∈ fs)) eqn:E2,
    (bool_decide (PREFIX_FLAG_CONFIGURE ∈ fs)) eqn:E3, (bool_decide (PREFIX_FLAG_DHCP ∈ fs)) eqn:E4, (bool_decide (PREFIX_FLAG_SLAAC ∈ fs)) eqn:E5,
    (bool_decide (PREFIX_FLAG_PREFERRED ∈ fs)) eqn:E6, (bool_decide (PREFIX_FLAG_DOMAIN_PREFIX ∈ fs)) eqn:E7, (bool_decide (PREFIX_FLAG_ND_DNS ∈ fs)) eqn:E8;
    destruct p; (split; [destruct f; rewrite ?E1, ?E2, ?E3, ?E4, ?E5, ?E6, ?E7, ?E8; reflexivity|reflexivity]).
Qed.

End NcpAddresses.
