(* ===== verification/Firewall.v ===== *)
(** * The packet filter of the daemon (src/util/IPv6PacketMatcher.cpp,
      src/wfantund/NCPInstanceBase-NetInterface.cpp)

    Packets between the host and the co-processor pass two filters, one each way.  While a
    new device is commissioned, some packets of the insecure channel are let through: the
    flows they belong to are kept as rules in a set, a list in the order of the rules.
    A packet is the memory behind its pointer; a port is loaded as it lies in memory, on a
    little-endian host.  The clock and the state of the co-processor are arguments; calls
    to the rest of the daemon are events.  [ti] says whether TI_WISUN_FAN is defined. *)

From Stdlib Require Import ZArith Lia.
From stdpp Require Import base option numbers list.
From S2P Require Import Prelude CStr NcpTypes SpinelPump NcpAddresses.

Open Scope Z_scope.

Module Firewall.
Import CStr NcpTypes.
Abbreviation FRAME_TYPE_DATA := SpinelPump.FRAME_TYPE_DATA.
Abbreviation FRAME_TYPE_INSECURE_DATA := SpinelPump.FRAME_TYPE_INSECURE_DATA.
Abbreviation FRAME_TYPE_LEGACY_DATA := SpinelPump.FRAME_TYPE_LEGACY_DATA.

Definition TYPE_ALL : Z := 0xFF.
Definition TYPE_NONE : Z := 0xFE.
Definition TYPE_UDP : Z := 17.
Definition TYPE_TCP : Z := 6.
Definition TYPE_ICMP : Z := 58.
Definition TYPE_HOP_BY_HOP : Z := 0.
Definition SUBTYPE_ALL : Z := 0xFF.
Definition SUBTYPE_ICMP_NEIGHBOR_ADV : Z := 136.
Definition SUBTYPE_ICMP_NEIGHBOR_SOL : Z := 135.
Definition SUBTYPE_ICMP_ROUTER_SOL : Z := 133.
Definition SUBTYPE_ICMP_ROUTER_ADV : Z := 134.
Definition SUBTYPE_ICMP_REDIRECT : Z := 137.

(** ** Fields of a packet *)

Definition PACKET_IS_IPV6 (p : list Z) : outcome bool := b ← byte p 0; Ret (Z.land b 0xF0 =? 0x60).
Definition IPV6_GET_TYPE (p : list Z) : outcome Z := byte p 6.
Definition load16 (p : list Z) (off : Z) : outcome Z := a ← byte p off; b ← byte p (off + 1); Ret (a + 256 * b).
Definition IPV6_GET_SRC_PORT (p : list Z) : outcome Z := load16 p 40.
Definition IPV6_GET_DEST_PORT (p : list Z) : outcome Z := load16 p 42.
Definition IPV6_GET_SRC_ADDR (p : list Z) : outcome (list Z) := mem_read p 8 16.
Definition IPV6_GET_DEST_ADDR (p : list Z) : outcome (list Z) := mem_read p 24 16.
Definition IPV6_ICMP_GET_SUBTYPE (p : list Z) : outcome Z := byte p 40.
Definition is_valid_ipv6_packet (p : list Z) (len : Z) : outcome bool := if 40 <? len then PACKET_IS_IPV6 p else Ret false.
Definition IN6_IS_ADDR_MULTICAST (a : list Z) : bool := default 0 (a !! 0%nat) =? 0xff.

(** ** Rules *)

Record rule : Type := MkRule {
  r_type : Z; subtype : Z;
  local_port : Z; local_port_match : bool; local_address : list Z; local_match_mask : Z;
  remote_port : Z; remote_port_match : bool; remote_address : list Z; remote_match_mask : Z
}.

#[export] Instance rule_eq_dec : EqDecision rule.
Proof. solve_decision. Defined.

Definition clear : rule := MkRule TYPE_ALL SUBTYPE_ALL 0 false (replicate 16 0) 0 0 false (replicate 16 0) 0.

Definition has_ports (t : Z) : bool := (t =? TYPE_TCP) || (t =? TYPE_UDP).

Definition update_from_inbound_packet (p : list Z) : outcome rule :=
  v6 ← PACKET_IS_IPV6 p;
  if negb v6 then Ret clear
  else
    t ← IPV6_GET_TYPE p;
    '(rp, lp, sub) ← (if has_ports t then rp ← IPV6_GET_SRC_PORT p; lp ← IPV6_GET_DEST_PORT p; Ret (rp, lp, SUBTYPE_ALL)
                      else if t =? TYPE_ICMP then s ← IPV6_ICMP_GET_SUBTYPE p; Ret (0, 0, s) else Ret (0, 0, SUBTYPE_ALL));
    dest ← IPV6_GET_DEST_ADDR p;
    let '(la, lm) := if negb (IN6_IS_ADDR_MULTICAST dest) then (dest, 128) else (replicate 16 0, 0) in
    src ← IPV6_GET_SRC_ADDR p;
    Ret (MkRule t sub lp (has_ports t) la lm rp (has_ports t) src 128).

Definition update_from_outbound_packet (p : list Z) : outcome rule :=
  v6 ← PACKET_IS_IPV6 p;
  if negb v6 then Ret clear
  else
    t ← IPV6_GET_TYPE p;
    '(rp, lp, sub) ← (if has_ports t then rp ← IPV6_GET_DEST_PORT p; lp ← IPV6_GET_SRC_PORT p; Ret (rp, lp, SUBTYPE_ALL)
                      else if t =? TYPE_ICMP then s ← IPV6_ICMP_GET_SUBTYPE p; Ret (0, 0, s) else Ret (0, 0, SUBTYPE_ALL));
    src ← IPV6_GET_SRC_ADDR p;
    dest ← IPV6_GET_DEST_ADDR p;
    Ret (MkRule t sub lp (has_ports t) src 128 rp (has_ports t) dest 128).

(** The checks of a rule, in their order; [port] and [addr] read the local and remote
    fields of a packet, which depend on its direction. *)
Definition check_type (r : rule) (p : list Z) : outcome bool :=
  if r_type r =? TYPE_ALL then Ret true
  else
    t ← IPV6_GET_TYPE p;
    if negb (r_type r =? t) then Ret false
    else if subtype r =? SUBTYPE_ALL then Ret true
    else s ← IPV6_ICMP_GET_SUBTYPE p; Ret (subtype r =? s).
Definition check_port (wanted : bool) (port : Z) (get : list Z -> outcome Z) (p : list Z) : outcome bool :=
  if wanted then x ← get p; Ret (x =? port) else Ret true.
Definition check_addr (mask : Z) (address : list Z) (get : list Z -> outcome (list Z)) (p : list Z) : outcome bool :=
  if mask =? 0 then Ret true
  else a ← get p; Ret (bool_decide (NcpAddresses.in6_addr_apply_mask a mask = address)).

Definition andthen (a b : outcome bool) : outcome bool := x ← a; if (x : bool) then b else Ret false.

Definition match_inbound (r : rule) (p : list Z) : outcome bool :=
  andthen (PACKET_IS_IPV6 p)
    (if r_type r =? TYPE_NONE then Ret false
     else andthen (check_type r p)
       (andthen (check_port (local_port_match r) (local_port r) IPV6_GET_DEST_PORT p)
         (andthen (check_port (remote_port_match r) (remote_port r) IPV6_GET_SRC_PORT p)
           (andthen (check_addr (local_match_mask r) (local_address r) IPV6_GET_DEST_ADDR p)
             (check_addr (remote_match_mask r) (remote_address r) IPV6_GET_SRC_ADDR p))))).

Definition match_outbound (r : rule) (p : list Z) : outcome bool :=
  andthen (PACKET_IS_IPV6 p)
    (if r_type r =? TYPE_NONE then Ret false
     else andthen (check_type r p)
       (andthen (check_port (local_port_match r) (local_port r) IPV6_GET_SRC_PORT p)
         (andthen (check_port (remote_port_match r) (remote_port r) IPV6_GET_DEST_PORT p)
           (andthen (check_addr (local_match_mask r) (local_address r) IPV6_GET_SRC_ADDR p)
             (check_addr (remote_match_mask r) (remote_address r) IPV6_GET_DEST_ADDR p))))).

(** ** The order of rules *)

Definition by_z (a b : Z) (k : bool) : bool := if a <? b then true else if b <? a then false else k.
Definition by_bool (a b : bool) (k : bool) : bool := by_z (Z.b2z a) (Z.b2z b) k.
Definition by_addr (a b : list Z) (k : bool) : bool :=
  if NcpAddresses.memcmp_lt a b then true else if NcpAddresses.memcmp_lt b a then false else k.

Definition rule_lt (a b : rule) : bool :=
  by_z (r_type a) (r_type b) (by_z (subtype a) (subtype b)
    (by_z (local_port a) (local_port b) (by_bool (local_port_match a) (local_port_match b)
      (by_z (local_match_mask a) (local_match_mask b) (by_addr (local_address a) (local_address b)
        (by_z (remote_port a) (remote_port b) (by_bool (remote_port_match a) (remote_port_match b)
          (by_z (remote_match_mask a) (remote_match_mask b) (by_addr (remote_address a) (remote_address b) false))))))))).

Definition rule_eqb (a b : rule) : bool :=
  (r_type a =? r_type b) && (subtype a =? subtype b) && (local_port a =? local_port b) && Bool.eqb (local_port_match a) (local_port_match b)
  && (local_match_mask a =? local_match_mask b) && bool_decide (local_address a = local_address b) && (remote_port a =? remote_port b)
  && Bool.eqb (remote_port_match a) (remote_port_match b) && (remote_match_mask a =? remote_match_mask b) && bool_decide (remote_address a = remote_address b).

(** Sets of rules: [std::set] tells elements apart by their order only. *)
Definition equivalent (a b : rule) : bool := negb (rule_lt a b) && negb (rule_lt b a).
Definition set_count (r : rule) (s : list rule) : bool := existsb (equivalent r) s.
Fixpoint set_insert (r : rule) (s : list rule) : list rule :=
  match s with
  | [] => [r]
  | x :: s' => if rule_lt r x then r :: s else if rule_lt x r then x :: set_insert r s' else s
  end.
Definition set_erase (r : rule) (s : list rule) : list rule := List.filter (fun x => negb (equivalent r x)) s.

(** [IPv6PacketMatcher::match_outbound]: the first rule of a set that matches. *)
Fixpoint matcher_outbound (s : list rule) (p : list Z) : outcome (option rule) :=
  match s with
  | [] => Ret None
  | r :: s => b ← match_outbound r p; if (b : bool) then Ret (Some r) else matcher_outbound s p
  end.

Fixpoint matcher_inbound (s : list rule) (p : list Z) : outcome (option rule) :=
  match s with
  | [] => Ret None
  | r :: s => b ← match_inbound r p; if (b : bool) then Ret (Some r) else matcher_inbound s p
  end.

(** ** The filters *)

Inductive event : Type := Misbehaving | RecordInbound (p : list Z) | RecordOutbound (p : list Z).

Record state : Type := MkState {
  mInsecureFirewall : list rule;
  mDropFirewall : list rule;
  mLegacyCommissioningMatcher : list rule;
  mCommissioningRule : rule;
  mCommissioningExpiration : Z;
  events : list event
}.

Definition set_insecure (x : list rule) (s : state) : state :=
  MkState x (mDropFirewall s) (mLegacyCommissioningMatcher s) (mCommissioningRule s) (mCommissioningExpiration s) (events s).
Definition set_legacy (x : list rule) (s : state) : state :=
  MkState (mInsecureFirewall s) (mDropFirewall s) x (mCommissioningRule s) (mCommissioningExpiration s) (events s).
Definition set_commissioning (r : rule) (x : Z) (s : state) : state :=
  MkState (mInsecureFirewall s) (mDropFirewall s) (mLegacyCommissioningMatcher s) r x (events s).
Definition record (e : event) (s : state) : state :=
  MkState (mInsecureFirewall s) (mDropFirewall s) (mLegacyCommissioningMatcher s) (mCommissioningRule s) (mCommissioningExpiration s) (events s ++ [e]).

(** The end of commissioning. *)
Definition end_commissioning (s : state) : state := set_insecure [] (set_commissioning (mCommissioningRule s) 0 s).

Definition with_subtype (x : Z) (r : rule) : rule :=
  MkRule (r_type r) x (local_port r) (local_port_match r) (local_address r) (local_match_mask r) (remote_port r) (remote_port_match r) (remote_address r) (remote_match_mask r).

Definition set_commissioniner (seconds traffic_type traffic_port now : Z) (s : state) : Z * state :=
  let s := set_commissioning clear (mCommissioningExpiration s) s in
  if (0 <? seconds) && (traffic_port =? 0) then (NcpAddresses.kWPANTUNDStatus_InvalidArgument, s)
  else if (0 <? seconds) && negb (traffic_port =? 0) then
    (NcpAddresses.kWPANTUNDStatus_Ok,
     set_commissioning (MkRule traffic_type SUBTYPE_ALL traffic_port true ([0xFE; 0x80] ++ replicate 14 0) 10 0 false (replicate 16 0) 0) (now + seconds) s)
  else (NcpAddresses.kWPANTUNDStatus_Ok, end_commissioning s).

(** An insecure packet: whether it is dropped. *)
Definition insecure_inbound (ti : bool) (ncp : NCPState) (now : Z) (p : list Z) (r : rule) (s : state) : outcome (bool * rule * state) :=
  if ncp_state_is_joining ti ncp then Ret (false, r, s)
  else if mCommissioningExpiration s =? 0 then Ret (true, r, s)
  else if now <? mCommissioningExpiration s then
    if set_count r (mInsecureFirewall s) then Ret (false, r, s)
    else
      b ← match_inbound (mCommissioningRule s) p;
      if (b : bool) then
        let r := with_subtype SUBTYPE_ALL r in
        Ret (false, r, set_insecure (set_insert r (mInsecureFirewall s)) s)
      else if r_type r =? TYPE_ICMP then Ret (false, r, set_insecure (set_insert r (mInsecureFirewall s)) s)
      else Ret (true, r, s)
  else Ret (true, r, end_commissioning s).

(** A secure packet of a flow that was insecure takes the flow over. *)
Definition secure_inbound (type : Z) (r : rule) (s : state) : state :=
  if set_count r (mInsecureFirewall s) then
    let s := set_insecure (set_erase r (mInsecureFirewall s)) s in
    if type =? FRAME_TYPE_LEGACY_DATA then set_legacy (set_insert r (mLegacyCommissioningMatcher s)) s else s
  else s.

Definition should_forward_hostbound_frame (ti : bool) (ncp : NCPState) (legacy_enabled : bool) (now : Z) (type : Z) (p : list Z) (s : state)
  : outcome (bool * Z * state) :=
  r ← update_from_inbound_packet p;
  '(dropped, r, s) ← (if type =? FRAME_TYPE_INSECURE_DATA then insecure_inbound ti ncp now p r s
                      else if ((type =? FRAME_TYPE_DATA) || (type =? FRAME_TYPE_LEGACY_DATA)) && (0 <? zlen (mInsecureFirewall s))
                      then Ret (false, r, secure_inbound type r s) else Ret (false, r, s));
  let dropped := if type =? FRAME_TYPE_LEGACY_DATA then dropped || negb legacy_enabled else dropped in
  let '(dropped, s) :=
    if negb (ncp_state_is_interface_up ncp) then (true, if ncp_state_is_sleeping ti ncp then record Misbehaving s else s) else (dropped, s) in
  let type := if (type =? FRAME_TYPE_LEGACY_DATA) && set_count r (mLegacyCommissioningMatcher s) then FRAME_TYPE_DATA else type in
  let s := if negb dropped then record (RecordInbound p) s else s in
  Ret (negb dropped, type, s).

Definition should_forward_ncpbound_frame (ti : bool) (ncp : NCPState) (now : Z) (type : Z) (p : list Z) (len : Z) (s : state) : outcome (bool * Z * state) :=
  if negb (ncp_state_is_interface_up ncp) then Ret (false, type, s)
  else
    v6 ← is_valid_ipv6_packet p len;
    if negb v6 then Ret (false, type, s)
    else
      r ← update_from_outbound_packet p;
      d ← matcher_outbound (mDropFirewall s) p;
      match d with
      | Some _ => Ret (false, type, s)
      | None =>
          let '(type, s) :=
            if set_count r (mLegacyCommissioningMatcher s) then
              if type =? FRAME_TYPE_LEGACY_DATA then (FRAME_TYPE_DATA, s) else (type, set_legacy (set_erase r (mLegacyCommissioningMatcher s)) s)
            else (type, s) in
          let r := with_subtype SUBTYPE_ALL r in
          let type := if set_count r (mInsecureFirewall s) then FRAME_TYPE_INSECURE_DATA else type in
          let '(type, s) :=
            if ncp_state_is_joining ti ncp then (FRAME_TYPE_INSECURE_DATA, s)
            else if negb (mCommissioningExpiration s =? 0) && (mCommissioningExpiration s <? now) then (type, end_commissioning s)
            else (type, s) in
          Ret (true, type, record (RecordOutbound p) s)
      end.

(** The rules for packets that are not sent. *)
Definition drop_rules : list rule :=
  let z := replicate 16 0 in let group x := [0xFF; 2] ++ replicate 13 0 ++ [x] in
  let to_group t sub x := MkRule t sub 0 false z 0 0 false (group x) 128 in let icmp sub := MkRule TYPE_ICMP sub 0 false z 0 0 false z 0 in
  set_insert (icmp SUBTYPE_ICMP_REDIRECT) (set_insert (icmp SUBTYPE_ICMP_NEIGHBOR_SOL) (set_insert (icmp SUBTYPE_ICMP_NEIGHBOR_ADV)
    (set_insert (to_group TYPE_ICMP SUBTYPE_ICMP_ROUTER_SOL 2) (set_insert (to_group TYPE_ICMP SUBTYPE_ICMP_ROUTER_ADV 2)
      (set_insert (to_group TYPE_HOP_BY_HOP SUBTYPE_ALL 0x16) []))))).

Definition start : state := MkState [] drop_rules [] clear 0 [].

(** ** The order is total *)

Definition wf_rule (r : rule) : Prop := length (local_address r) = 16%nat /\ length (remote_address r) = 16%nat.

Lemma by_z_neither a b k k' : by_z a b k = false -> by_z b a k' = false -> a = b /\ k = false /\ k' = false.
Proof. unfold by_z. destruct (Z.ltb_spec a b), (Z.ltb_spec b a); intros; try done; split; [lia|done]. Qed.

Lemma memcmp_neither a : forall b, length a = length b -> NcpAddresses.memcmp_lt a b = false -> NcpAddresses.memcmp_lt b a = false -> a = b.
Proof.
  induction a as [|x a IH]; intros [|y b] Hl; cbn; try done. destruct (Z.ltb_spec x y), (Z.ltb_spec y x); try done; try lia.
  rewrite (Z.eqb_sym y x). destruct (Z.eqb_spec x y); [|lia]. intros. f_equal; [done|]. apply IH; [by injection Hl|done|done].
Qed.

Lemma by_addr_neither a b k k' : length a = length b -> by_addr a b k = false -> by_addr b a k' = false -> a = b /\ k = false /\ k' = false.
Proof.
  unfold by_addr. intros Hl. destruct (NcpAddresses.memcmp_lt a b) eqn:E1, (NcpAddresses.memcmp_lt b a) eqn:E2; try done. intros. split; [by apply memcmp_neither|done].
Qed.

Lemma by_z_irrefl a k : by_z a a k = k.
Proof. unfold by_z. by rewrite Z.ltb_irrefl. Qed.
Lemma memcmp_irrefl a : NcpAddresses.memcmp_lt a a = false.
Proof. induction a as [|x a IH]; cbn; [done|]. by rewrite Z.ltb_irrefl, Z.eqb_refl. Qed.
Lemma by_addr_irrefl a k : by_addr a a k = k.
Proof. unfold by_addr. by rewrite memcmp_irrefl. Qed.

(** What the set takes for equal is equal. *)
Lemma equivalent_eq a b : wf_rule a -> wf_rule b -> equivalent a b = true <-> a = b.
Proof.
  intros [Hl Hr] [Hl' Hr']. unfold equivalent. rewrite andb_true_iff, !negb_true_iff. split.
  - intros [H1 H2]. unfold rule_lt, by_bool in H1, H2.
    apply (by_z_neither _ _ _ _ H1) in H2 as (E1 & H1' & H2). apply (by_z_neither _ _ _ _ H1') in H2 as (E2 & H3 & H2). apply (by_z_neither _ _ _ _ H3) in H2 as (E3 & H4 & H2).
    apply (by_z_neither _ _ _ _ H4) in H2 as (E4 & H5 & H2). apply (by_z_neither _ _ _ _ H5) in H2 as (E5 & H6 & H2). apply (by_addr_neither _ _ _ _ (eq_trans Hl (eq_sym Hl')) H6) in H2 as (E6 & H7 & H2).
    apply (by_z_neither _ _ _ _ H7) in H2 as (E7 & H8 & H2). apply (by_z_neither _ _ _ _ H8) in H2 as (E8 & H9 & H2). apply (by_z_neither _ _ _ _ H9) in H2 as (E9 & H10 & H2).
    apply (by_addr_neither _ _ _ _ (eq_trans Hr (eq_sym Hr')) H10) in H2 as (E10 & _ & _). destruct a, b. cbn in *. apply Z.b2z_inj in E4, E8. by subst.
  - intros ->. unfold rule_lt, by_bool. by rewrite !by_z_irrefl, !by_addr_irrefl.
Qed.

(** The comparison for equality agrees with the order. *)
Lemma rule_eqb_equivalent a b : wf_rule a -> wf_rule b -> rule_eqb a b = equivalent a b.
Proof.
  intros Ha Hb. apply eq_true_iff_eq. rewrite equivalent_eq by done. unfold rule_eqb. rewrite !andb_true_iff, !Z.eqb_eq, !bool_decide_eq_true, !eqb_true_iff.
  destruct a, b; cbn. intuition congruence.
Qed.

Lemma by_z_trans a b c k k' k'' : (k = true -> k' = true -> k'' = true) -> by_z a b k = true -> by_z b c k' = true -> by_z a c k'' = true.
Proof. unfold by_z. intros H. destruct (Z.ltb_spec a b), (Z.ltb_spec b a), (Z.ltb_spec b c), (Z.ltb_spec c b), (Z.ltb_spec a c), (Z.ltb_spec c a); intros; try done; try lia; auto. Qed.

Lemma memcmp_trans a : forall b c, NcpAddresses.memcmp_lt a b = true -> NcpAddresses.memcmp_lt b c = true -> NcpAddresses.memcmp_lt a c = true.
Proof.
  induction a as [|x a IH]; intros [|y b] [|z c]; cbn; try done. destruct (Z.ltb_spec x y), (Z.eqb_spec x y), (Z.ltb_spec y z), (Z.eqb_spec y z), (Z.ltb_spec x z), (Z.eqb_spec x z);
    intros; try done; try lia; eauto.
Qed.

Lemma memcmp_asym a : forall b, NcpAddresses.memcmp_lt a b = true -> NcpAddresses.memcmp_lt b a = false.
Proof.
  induction a as [|x a IH]; intros [|y b]; cbn; try done. destruct (Z.ltb_spec x y), (Z.eqb_spec x y), (Z.ltb_spec y x), (Z.eqb_spec y x); intros; try done; try lia; auto.
Qed.

Lemma by_addr_trans a b c k k' k'' : length a = length b -> length b = length c -> (k = true -> k' = true -> k'' = true) -> by_addr a b k = true -> by_addr b c k' = true -> by_addr a c k'' = true.
Proof.
  unfold by_addr. intros Hab Hbc H. destruct (NcpAddresses.memcmp_lt a b) eqn:E1.
  - destruct (NcpAddresses.memcmp_lt b c) eqn:E2; [by rewrite (memcmp_trans a b c)|]. destruct (NcpAddresses.memcmp_lt c b) eqn:E3; [done|].
    apply (memcmp_neither b c) in E2 as ->; [|done|done]. by rewrite E1.
  - destruct (NcpAddresses.memcmp_lt b a) eqn:E2; [done|]. apply (memcmp_neither a b) in E1 as ->; [|done|done].
    destruct (NcpAddresses.memcmp_lt b c); [done|]. destruct (NcpAddresses.memcmp_lt c b); [done|]. auto.
Qed.

(** The order is a strict one. *)
Lemma rule_lt_trans a b c : wf_rule a -> wf_rule b -> wf_rule c -> rule_lt a b = true -> rule_lt b c = true -> rule_lt a c = true.
Proof.
  intros [] [] []. unfold rule_lt, by_bool. repeat (first [apply by_z_trans|apply by_addr_trans; [congruence|congruence|]]). done.
Qed.

Lemma set_count_in r s : wf_rule r -> Forall wf_rule s -> set_count r s = true <-> r ∈ s.
Proof.
  intros Hr Hs. unfold set_count. rewrite existsb_exists. rewrite Forall_forall in Hs. split.
  - intros (x & Hx%list_elem_of_In & E). apply equivalent_eq in E; [by subst|done|by apply Hs].
  - intros Hx. exists r. split; [by apply list_elem_of_In|by apply equivalent_eq].
Qed.

Lemma set_insert_in r s x : x ∈ set_insert r s -> x = r \/ x ∈ s.
Proof.
  induction s as [|y s IH]; cbn; [rewrite list_elem_of_singleton; by left|]. case_match; [rewrite elem_of_cons; tauto|]. case_match; [|by right].
  rewrite !elem_of_cons. tauto.
Qed.

Lemma set_insert_has r s : wf_rule r -> Forall wf_rule s -> r ∈ set_insert r s.
Proof.
  intros Hr. induction 1 as [|y s Hy Hs IH]; cbn; [by left|]. destruct (rule_lt r y) eqn:E1; [by left|]. destruct (rule_lt y r) eqn:E2; [by right|].
  assert (r = y) as ->; [|by left]. apply equivalent_eq; [done|done|]. unfold equivalent. by rewrite E1, E2.
Qed.

Lemma set_insert_wf r s : wf_rule r -> Forall wf_rule s -> Forall wf_rule (set_insert r s).
Proof. intros Hr Hs. apply Forall_forall. intros x [->|Hx]%set_insert_in; [done|]. rewrite Forall_forall in Hs. by apply Hs. Qed.

Lemma set_erase_in r s x : wf_rule r -> Forall wf_rule s -> x ∈ set_erase r s <-> x ∈ s /\ x <> r.
Proof.
  intros Hr Hs. rewrite Forall_forall in Hs. unfold set_erase. rewrite !list_elem_of_In, filter_In, negb_true_iff, <- not_true_iff_false, <- list_elem_of_In. split.
  - intros [Hx E]. split; [done|]. intros ->. apply E. by apply equivalent_eq.
  - intros [Hx Hne]. split; [done|]. rewrite equivalent_eq by auto. congruence.
Qed.

Lemma set_erase_wf r s : wf_rule r -> Forall wf_rule s -> Forall wf_rule (set_erase r s).
Proof. intros Hr Hs. apply Forall_forall. intros x [Hx _]%set_erase_in; [|done|done]. rewrite Forall_forall in Hs. by apply Hs. Qed.

(** ** Packets by their fields *)

(** The front of the header up to the addresses, the addresses, the two words behind them,
    which are the ports if there are any, and the rest. *)
Record packet : Type := MkPacket { front : list Z; src : list Z; dst : list Z; word1 : list Z; word2 : list Z; rest : list Z }.

Definition wf_packet (q : packet) : Prop :=
  length (front q) = 8%nat /\ length (src q) = 16%nat /\ length (dst q) = 16%nat /\ length (word1 q) = 2%nat /\ length (word2 q) = 2%nat.

Definition bytes (q : packet) : list Z := front q ++ src q ++ dst q ++ word1 q ++ word2 q ++ rest q.

Definition at_ (l : list Z) (i : nat) : Z := default 0 (l !! i).
Definition word (l : list Z) : Z := at_ l 0 + 256 * at_ l 1.
Definition ipv6 (q : packet) : bool := Z.land (at_ (front q) 0) 0xF0 =? 0x60.
Definition kind (q : packet) : Z := at_ (front q) 6.

(** The answer to a packet: the same with source and destination exchanged. *)
Definition reply (q : packet) : packet := MkPacket (front q) (dst q) (src q) (word2 q) (word1 q) (rest q).

Lemma reply_wf q : wf_packet q -> wf_packet (reply q).
Proof. intros (? & ? & ? & ? & ?). done. Qed.

Lemma pbyte_in l i r : (i < length l)%nat -> byte (l ++ r) (Z.of_nat i) = Ret (at_ l i).
Proof.
  intros Hi. unfold at_. destruct (lookup_lt_is_Some_2 l i Hi) as [x Hx]. rewrite Hx. cbn. apply take_drop_middle in Hx. rewrite <- Hx at 1. rewrite <- app_assoc. cbn [app].
  replace (Z.of_nat i) with (zlen (take i l)) by (unfold zlen; rewrite length_take; lia). apply byte_at.
Qed.

(** Bytes behind a part of known length. *)
Lemma byte_behind a l i r : (i < length l)%nat -> byte (a ++ l ++ r) (zlen a + Z.of_nat i) = Ret (at_ l i).
Proof.
  intros Hi. pose proof (pbyte_in (a ++ l) (length a + i) r ltac:(rewrite length_app; lia)) as E. rewrite <- app_assoc in E.
  replace (zlen a + Z.of_nat i) with (Z.of_nat (length a + i)) by (unfold zlen; lia). rewrite E. unfold at_. rewrite lookup_app_r by lia. do 3 f_equal. lia.
Qed.

Section Fields.
Context (q : packet) (Hq : wf_packet q).

Lemma get_v6 : PACKET_IS_IPV6 (bytes q) = Ret (ipv6 q).
Proof. destruct Hq as (Hf & _). unfold PACKET_IS_IPV6, bytes. change 0 with (Z.of_nat 0) at 1. rewrite pbyte_in by lia. done. Qed.
Lemma get_type : IPV6_GET_TYPE (bytes q) = Ret (kind q).
Proof. destruct Hq as (Hf & _). unfold IPV6_GET_TYPE, bytes. change 6 with (Z.of_nat 6). rewrite pbyte_in by lia. done. Qed.
Lemma get_src : IPV6_GET_SRC_ADDR (bytes q) = Ret (src q).
Proof.
  destruct Hq as (Hf & Hs & _). unfold IPV6_GET_SRC_ADDR, bytes. replace 8 with (zlen (front q)) by (unfold zlen; lia). replace 16 with (zlen (src q)) by (unfold zlen; lia). apply mem_read_mid.
Qed.
Lemma get_dst : IPV6_GET_DEST_ADDR (bytes q) = Ret (dst q).
Proof.
  destruct Hq as (Hf & Hs & Hd & _). unfold IPV6_GET_DEST_ADDR, bytes. rewrite app_assoc. replace 24 with (zlen (front q ++ src q)) by (rewrite zlen_app; unfold zlen; lia).
  replace 16 with (zlen (dst q)) by (unfold zlen; lia). apply mem_read_mid.
Qed.

Lemma byte_word1 i : (i < 2)%nat -> byte (bytes q) (40 + Z.of_nat i) = Ret (at_ (word1 q) i).
Proof.
  destruct Hq as (Hf & Hs & Hd & H1 & _). intros Hi.
  replace (bytes q) with (((front q ++ src q) ++ dst q) ++ word1 q ++ (word2 q ++ rest q)) by (unfold bytes; by rewrite <- !app_assoc).
  replace 40 with (zlen ((front q ++ src q) ++ dst q)) by (rewrite !zlen_app; unfold zlen; lia). apply byte_behind. lia.
Qed.
Lemma byte_word2 i : (i < 2)%nat -> byte (bytes q) (42 + Z.of_nat i) = Ret (at_ (word2 q) i).
Proof.
  destruct Hq as (Hf & Hs & Hd & H1 & H2). intros Hi.
  replace (bytes q) with ((((front q ++ src q) ++ dst q) ++ word1 q) ++ word2 q ++ rest q) by (unfold bytes; by rewrite <- !app_assoc).
  replace 42 with (zlen (((front q ++ src q) ++ dst q) ++ word1 q)) by (rewrite !zlen_app; unfold zlen; lia). apply byte_behind. lia.
Qed.

Lemma get_src_port : IPV6_GET_SRC_PORT (bytes q) = Ret (word (word1 q)).
Proof. unfold IPV6_GET_SRC_PORT, load16.
  assert (E0 : byte (bytes q) 40 = Ret (at_ (word1 q) 0)) by (apply (byte_word1 0); lia). assert (E1 : byte (bytes q) (40 + 1) = Ret (at_ (word1 q) 1)) by (apply (byte_word1 1); lia).
  rewrite E0. cbn [mbind outcome_bind]. by rewrite E1. Qed.
Lemma get_dest_port : IPV6_GET_DEST_PORT (bytes q) = Ret (word (word2 q)).
Proof. unfold IPV6_GET_DEST_PORT, load16.
  assert (E0 : byte (bytes q) 42 = Ret (at_ (word2 q) 0)) by (apply (byte_word2 0); lia). assert (E1 : byte (bytes q) (42 + 1) = Ret (at_ (word2 q) 1)) by (apply (byte_word2 1); lia).
  rewrite E0. cbn [mbind outcome_bind]. by rewrite E1. Qed.
Lemma get_subtype : IPV6_ICMP_GET_SUBTYPE (bytes q) = Ret (at_ (word1 q) 0).
Proof. apply (byte_word1 0). lia. Qed.

End Fields.

(** ** Rules of packets *)

Definition sub_of (q : packet) : Z := if has_ports (kind q) then SUBTYPE_ALL else if kind q =? TYPE_ICMP then at_ (word1 q) 0 else SUBTYPE_ALL.
Definition port_of (q : packet) (w : list Z) : Z := if has_ports (kind q) then word w else 0.

Definition rule_in (q : packet) : rule :=
  if negb (ipv6 q) then clear
  else MkRule (kind q) (sub_of q) (port_of q (word2 q)) (has_ports (kind q)) (if IN6_IS_ADDR_MULTICAST (dst q) then replicate 16 0 else dst q)
    (if IN6_IS_ADDR_MULTICAST (dst q) then 0 else 128) (port_of q (word1 q)) (has_ports (kind q)) (src q) 128.
Definition rule_out (q : packet) : rule :=
  if negb (ipv6 q) then clear
  else MkRule (kind q) (sub_of q) (port_of q (word1 q)) (has_ports (kind q)) (src q) 128 (port_of q (word2 q)) (has_ports (kind q)) (dst q) 128.

Lemma update_inbound q : wf_packet q -> update_from_inbound_packet (bytes q) = Ret (rule_in q).
Proof.
  intros Hq. unfold update_from_inbound_packet, rule_in, sub_of, port_of. rewrite get_v6 by done. cbn [mbind outcome_bind]. destruct (ipv6 q); [|done]. cbn [negb].
  rewrite get_type by done. cbn [mbind outcome_bind]. rewrite get_src_port, get_dest_port, get_subtype, get_dst, get_src by done.
  destruct (has_ports (kind q)), (kind q =? TYPE_ICMP); cbn [mbind outcome_bind]; by destruct (IN6_IS_ADDR_MULTICAST (dst q)).
Qed.

Lemma update_outbound q : wf_packet q -> update_from_outbound_packet (bytes q) = Ret (rule_out q).
Proof.
  intros Hq. unfold update_from_outbound_packet, rule_out, sub_of, port_of. rewrite get_v6 by done. cbn [mbind outcome_bind]. destruct (ipv6 q); [|done]. cbn [negb].
  rewrite get_type by done. cbn [mbind outcome_bind]. rewrite get_src_port, get_dest_port, get_subtype, get_dst, get_src by done.
  by destruct (has_ports (kind q)), (kind q =? TYPE_ICMP).
Qed.

Lemma clear_wf : wf_rule clear.
Proof. done. Qed.
Lemma rule_in_wf q : wf_packet q -> wf_rule (rule_in q).
Proof. intros (? & ? & ? & _). unfold rule_in. destruct (ipv6 q); [|done]. split; cbn; by destruct (IN6_IS_ADDR_MULTICAST (dst q)). Qed.
Lemma rule_out_wf q : wf_packet q -> wf_rule (rule_out q).
Proof. intros (? & ? & ? & _). unfold rule_out. by destruct (ipv6 q). Qed.
Lemma with_subtype_wf x r : wf_rule r -> wf_rule (with_subtype x r).
Proof. by intros []. Qed.

(** The answer to a packet belongs to its flow, if it was sent to one host. *)
Lemma reply_rule q : IN6_IS_ADDR_MULTICAST (dst q) = false -> with_subtype SUBTYPE_ALL (rule_out (reply q)) = with_subtype SUBTYPE_ALL (rule_in q).
Proof. intros Hm. unfold rule_out, rule_in, port_of. cbn. rewrite Hm. change (ipv6 (reply q)) with (ipv6 q). by destruct (ipv6 q). Qed.

(** ** Matching *)

Lemma andthen_Ret a b x y : a = Ret x -> b = Ret y -> andthen a b = Ret (x && y).
Proof. intros -> ->. by destruct x. Qed.

Lemma andthen_true a b : andthen a b = Ret true -> a = Ret true /\ b = Ret true.
Proof. unfold andthen. destruct a as [[]| |]; cbn; done. Qed.

Lemma check_type_total r q : wf_packet q -> exists b, check_type r (bytes q) = Ret b.
Proof.
  intros Hq. unfold check_type. rewrite get_type by done. cbn [mbind outcome_bind]. rewrite get_subtype by done. cbn [mbind outcome_bind]. repeat case_match; eauto.
Qed.
Lemma check_port_total w x get q v : get (bytes q) = Ret v -> exists b, check_port w x get (bytes q) = Ret b.
Proof. intros E. unfold check_port. rewrite E. cbn. destruct w; eauto. Qed.
Lemma check_addr_total m a get q v : get (bytes q) = Ret v -> exists b, check_addr m a get (bytes q) = Ret b.
Proof. intros E. unfold check_addr. rewrite E. cbn. case_match; eauto. Qed.

Lemma match_total r q : wf_packet q -> (exists b, match_inbound r (bytes q) = Ret b) /\ exists b, match_outbound r (bytes q) = Ret b.
Proof.
  intros Hq. destruct (check_type_total r q Hq) as [b1 E1]. unfold match_inbound, match_outbound. split.
  - destruct (check_port_total (local_port_match r) (local_port r) _ q _ (get_dest_port q Hq)) as [b2 E2]. destruct (check_port_total (remote_port_match r) (remote_port r) _ q _ (get_src_port q Hq)) as [b3 E3].
    destruct (check_addr_total (local_match_mask r) (local_address r) _ q _ (get_dst q Hq)) as [b4 E4]. destruct (check_addr_total (remote_match_mask r) (remote_address r) _ q _ (get_src q Hq)) as [b5 E5].
    rewrite get_v6, E1, E2, E3, E4, E5 by done. unfold andthen. cbn. destruct (ipv6 q), (r_type r =? TYPE_NONE), b1, b2, b3, b4; cbn; eauto.
  - destruct (check_port_total (local_port_match r) (local_port r) _ q _ (get_src_port q Hq)) as [b2 E2]. destruct (check_port_total (remote_port_match r) (remote_port r) _ q _ (get_dest_port q Hq)) as [b3 E3].
    destruct (check_addr_total (local_match_mask r) (local_address r) _ q _ (get_src q Hq)) as [b4 E4]. destruct (check_addr_total (remote_match_mask r) (remote_address r) _ q _ (get_dst q Hq)) as [b5 E5].
    rewrite get_v6, E1, E2, E3, E4, E5 by done. unfold andthen. cbn. destruct (ipv6 q), (r_type r =? TYPE_NONE), b1, b2, b3, b4; cbn; eauto.
Qed.

Lemma matcher_total s q : wf_packet q -> exists o, matcher_outbound s (bytes q) = Ret o.
Proof.
  intros Hq. induction s as [|r s [o IH]]; cbn [matcher_outbound]; [by eauto|]. destruct (match_total r q Hq) as [_ [[] ->]]; cbn [mbind outcome_bind]; eauto.
Qed.

(** ** The rule of a commissioning *)

Definition link_local : list Z := [0xFE; 0x80] ++ replicate 14 0.
Definition commissioning_rule (ty port : Z) : rule := MkRule ty SUBTYPE_ALL port true link_local 10 0 false (replicate 16 0) 0.

(** Protocol, port and destination of a packet that is asked for; a commissioning can be for
    every protocol, and the port is that of protocols that have one. *)
Definition asked_for (ty port : Z) (q : packet) : Prop :=
  (ty = TYPE_ALL \/ kind q = ty) /\ (has_ports (kind q) = true -> word (word2 q) = port) /\ NcpAddresses.in6_addr_apply_mask (dst q) 10 = link_local.

Lemma match_ipv6 r q : wf_packet q -> match_inbound r (bytes q) = Ret true -> ipv6 q = true.
Proof. intros Hq H. apply andthen_true in H as [H1 _]. rewrite get_v6 in H1 by done. by injection H1. Qed.

Lemma commissioning_match ty port q : wf_packet q -> match_inbound (commissioning_rule ty port) (bytes q) = Ret true -> asked_for ty port q.
Proof.
  intros Hq H. apply andthen_true in H as [_ H]. cbn [commissioning_rule r_type] in H. destruct (ty =? TYPE_NONE); [done|].
  apply andthen_true in H as [Ht H]. apply andthen_true in H as [Hp H]. apply andthen_true in H as [_ H]. apply andthen_true in H as [Hd _].
  split; [|split].
  - unfold check_type in Ht. cbn [commissioning_rule r_type subtype] in Ht. destruct (Z.eqb_spec ty TYPE_ALL); [by left|right].
    rewrite get_type in Ht by done. cbn [mbind outcome_bind] in Ht. by destruct (Z.eqb_spec ty (kind q)).
  - intros _. unfold check_port in Hp. cbn [commissioning_rule local_port_match local_port] in Hp. rewrite get_dest_port in Hp by done. by injection Hp as Hp%Z.eqb_eq.
  - unfold check_addr in Hd. cbn [commissioning_rule local_match_mask local_address Z.eqb] in Hd. rewrite get_dst in Hd by done. by injection Hd as Hd%bool_decide_eq_true.
Qed.

Lemma link_local_unicast a : NcpAddresses.in6_addr_apply_mask a 10 = link_local -> IN6_IS_ADDR_MULTICAST a = false.
Proof.
  unfold NcpAddresses.in6_addr_apply_mask, IN6_IS_ADDR_MULTICAST. destruct a as [|x [|y a]]; cbn; intros [= E]; try done. by rewrite E.
Qed.

(** ** Runs *)

Inductive op : Type :=
| HostBound (ncp : NCPState) (legacy : bool) (now type : Z) (q : packet)
| NcpBound (ncp : NCPState) (now type : Z) (q : packet) (len : Z)
| Commission (seconds ty port now : Z).

Definition exec (ti : bool) (s : state) (x : op) : outcome state :=
  match x with
  | HostBound ncp legacy now type q => '(_, _, s) ← should_forward_hostbound_frame ti ncp legacy now type (bytes q) s; Ret s
  | NcpBound ncp now type q len => '(_, _, s) ← should_forward_ncpbound_frame ti ncp now type (bytes q) len s; Ret s
  | Commission seconds ty port now => Ret (set_commissioniner seconds ty port now s).2
  end.

Fixpoint execs (ti : bool) (s : state) (l : list op) : outcome state :=
  match l with [] => Ret s | x :: l => s ← exec ti s x; execs ti s l end.

(** Packets have all their fields. *)
Definition fair (x : op) : Prop :=
  match x with HostBound _ _ _ _ q | NcpBound _ _ _ q _ => wf_packet q | Commission _ _ _ _ => True end.

(** What the commissionings of a run ask for, and whether one was refused for its port. *)
Definition asked (l : list op) (P : Z -> Z -> Prop) : Prop := exists seconds ty port now, Commission seconds ty port now ∈ l /\ 0 < seconds /\ port <> 0 /\ P ty port.
Definition refused (l : list op) : Prop := exists seconds ty now, Commission seconds ty 0 now ∈ l /\ 0 < seconds.

(** A flow that may pass: of ICMP, one that was asked for, or any after a refused call. *)
Definition passable (l : list op) (r : rule) : Prop :=
  remote_match_mask r = 128 /\
  (r_type r = TYPE_ICMP \/ refused l \/
   asked l (fun ty port => (ty = TYPE_ALL \/ r_type r = ty) /\ (has_ports (r_type r) = true -> local_port r = port) /\ local_match_mask r = 128 /\
     NcpAddresses.in6_addr_apply_mask (local_address r) 10 = link_local)).

Record Inv (l : list op) (s : state) : Prop := MkInv {
  in_insecure : Forall wf_rule (mInsecureFirewall s);
  in_legacy : Forall wf_rule (mLegacyCommissioningMatcher s);
  in_drop : mDropFirewall s = drop_rules;
  in_rule : mCommissioningExpiration s <> 0 -> refused l \/ asked l (fun ty port => mCommissioningRule s = commissioning_rule ty port);
  in_passable : forall r, r ∈ mInsecureFirewall s -> passable l r
}.

Lemma asked_more l l' P : (forall x, x ∈ l -> x ∈ l') -> asked l P -> asked l' P.
Proof. intros H (sec & ty & port & now & Hin & Hrest). exists sec, ty, port, now. auto. Qed.
Lemma refused_more l l' : (forall x, x ∈ l -> x ∈ l') -> refused l -> refused l'.
Proof. intros H (sec & ty & now & Hin & Hrest). exists sec, ty, now. auto. Qed.

Lemma inv_more l l' s : (forall x, x ∈ l -> x ∈ l') -> Inv l s -> Inv l' s.
Proof.
  intros H [? ? ? Hr Hp]. constructor; try done.
  - intros Hx. destruct (Hr Hx); [left; by eapply refused_more|right; by eapply asked_more].
  - intros r Hin. destruct (Hp r Hin) as [Hm [?|[?|?]]]; (split; [done|]); eauto using refused_more, asked_more.
Qed.

Lemma inv_record l e s : Inv l s -> Inv l (record e s).
Proof. by intros []. Qed.
Lemma inv_end l s : Inv l s -> Inv l (end_commissioning s).
Proof. intros []. constructor; try done; try (by constructor). intros r Hr. by apply not_elem_of_nil in Hr. Qed.
Lemma inv_legacy l x s : Forall wf_rule x -> Inv l s -> Inv l (set_legacy x s).
Proof. by intros ? []. Qed.
Lemma inv_insert l r s : wf_rule r -> passable l r -> Inv l s -> Inv l (set_insecure (set_insert r (mInsecureFirewall s)) s).
Proof. intros Hr Hp [? ? ? ? H]. constructor; try done; [by apply set_insert_wf|]. intros x [->|Hx]%set_insert_in; auto. Qed.
Lemma inv_erase l r s : wf_rule r -> Inv l s -> Inv l (set_insecure (set_erase r (mInsecureFirewall s)) s).
Proof. intros Hr [? ? ? ? H]. constructor; try done; [by apply set_erase_wf|]. intros x [Hx _]%set_erase_in; auto. Qed.

(** The flow of a packet that was asked for may pass. *)
Lemma asked_passable l q : ipv6 q = true -> refused l \/ asked l (fun ty port => asked_for ty port q) -> passable l (with_subtype SUBTYPE_ALL (rule_in q)).
Proof.
  intros Hv Hl. unfold passable, rule_in. rewrite Hv. cbn. split; [done|]. right. destruct Hl as [Hl|(sec & ty & port & now & Hin & Hs & Hp & Hk & Hw & Hd)]; [by left|right].
  exists sec, ty, port, now. do 3 (split; [done|]). pose proof (link_local_unicast _ Hd) as Hm. rewrite Hm. split; [done|]. split; [|done].
  intros E. unfold port_of. rewrite E. by apply Hw.
Qed.

(** A packet of a flow that may pass is of ICMP or was asked for. *)
Lemma passable_asked l q : ipv6 q = true -> passable l (rule_in q) -> kind q = TYPE_ICMP \/ refused l \/ asked l (fun ty port => asked_for ty port q).
Proof.
  intros Hv. unfold rule_in, passable. rewrite Hv. cbn. intros [_ [?|[?|(sec & ty & port & now & Hin & Hs & Hp & Hk & Hw & Hm & Hd)]]]; [by left|by right; left|right; right].
  exists sec, ty, port, now. do 3 (split; [done|]). split; [done|]. destruct (IN6_IS_ADDR_MULTICAST (dst q)); [done|]. split; [|done].
  intros E. specialize (Hw E). unfold port_of in Hw. by rewrite E in Hw.
Qed.

Lemma clear_not_passable l : ~ passable l clear.
Proof. by intros [? _]. Qed.

(** An insecure packet, while the co-processor is not joining. *)
Lemma insecure_spec l ti ncp now q s : Inv l s -> wf_packet q -> ncp_state_is_joining ti ncp = false ->
  exists d r' s', insecure_inbound ti ncp now (bytes q) (rule_in q) s = Ret (d, r', s') /\ Inv l s' /\
    (d = false -> mCommissioningExpiration s <> 0 /\ now < mCommissioningExpiration s /\ ipv6 q = true /\ (kind q = TYPE_ICMP \/ refused l \/ asked l (fun ty port => asked_for ty port q))).
Proof.
  intros HI Hq Hj. pose proof (rule_in_wf q Hq) as Hwf. unfold insecure_inbound. rewrite Hj. destruct (Z.eqb_spec (mCommissioningExpiration s) 0) as [|Hx]; [by eexists _, _, _|].
  destruct (Z.ltb_spec now (mCommissioningExpiration s)); [|eexists _, _, _; split; [done|]; split; [by apply inv_end|done]].
  destruct (set_count (rule_in q) (mInsecureFirewall s)) eqn:Ec.
  - apply set_count_in in Ec; [|done|by apply (in_insecure _ _ HI)]. apply (in_passable _ _ HI) in Ec. eexists _, _, _. split; [done|]. split; [done|]. intros _. do 2 (split; [done|]).
    destruct (ipv6 q) eqn:Hv; [split; [done|by apply passable_asked]|]. exfalso. unfold rule_in in Ec. rewrite Hv in Ec. by apply clear_not_passable in Ec.
  - destruct (match_total (mCommissioningRule s) q Hq) as [[b Eb] _]. rewrite Eb. cbn [mbind outcome_bind]. destruct b.
    + pose proof (match_ipv6 _ q Hq Eb) as Hv.
      assert (Ha : refused l \/ asked l (fun ty port => asked_for ty port q)).
      { destruct (in_rule _ _ HI Hx) as [|(sec & ty & port & now0 & Hin & Hs & Hp & Er)]; [by left|right]. rewrite Er in Eb. apply commissioning_match in Eb; [|done]. by exists sec, ty, port, now0. }
      eexists _, _, _. split; [done|]. split; [apply inv_insert; [by apply with_subtype_wf|by apply asked_passable|done]|].
      intros _. do 3 (split; [done|]). by right.
    + destruct (Z.eqb_spec (r_type (rule_in q)) TYPE_ICMP) as [Ei|]; [|by eexists _, _, _]. eexists _, _, _. split; [done|]. unfold rule_in in Ei. destruct (ipv6 q) eqn:Hv; [|done].
      split; [apply inv_insert; [done| |done]; split; unfold rule_in; rewrite Hv; [done|by left]|].
      intros _. do 2 (split; [done|]). split; [done|by left].
Qed.

Lemma hostbound_spec l ti ncp legacy now type q s : Inv l s -> wf_packet q ->
  exists f t s', should_forward_hostbound_frame ti ncp legacy now type (bytes q) s = Ret (f, t, s') /\ Inv l s' /\
    (type = FRAME_TYPE_INSECURE_DATA -> f = true -> ncp_state_is_joining ti ncp = false ->
     mCommissioningExpiration s <> 0 /\ now < mCommissioningExpiration s /\ ipv6 q = true /\ (kind q = TYPE_ICMP \/ refused l \/ asked l (fun ty port => asked_for ty port q))).
Proof.
  intros HI Hq. unfold should_forward_hostbound_frame. rewrite update_inbound by done. cbn [mbind outcome_bind]. pose proof (rule_in_wf q Hq) as Hwf.
  assert (H1 : exists d r' s', (if type =? FRAME_TYPE_INSECURE_DATA then insecure_inbound ti ncp now (bytes q) (rule_in q) s
      else if ((type =? FRAME_TYPE_DATA) || (type =? FRAME_TYPE_LEGACY_DATA)) && (0 <? zlen (mInsecureFirewall s)) then Ret (false, rule_in q, secure_inbound type (rule_in q) s)
      else Ret (false, rule_in q, s)) = Ret (d, r', s') /\ Inv l s' /\ (type = FRAME_TYPE_INSECURE_DATA -> d = false -> ncp_state_is_joining ti ncp = false ->
     mCommissioningExpiration s <> 0 /\ now < mCommissioningExpiration s /\ ipv6 q = true /\ (kind q = TYPE_ICMP \/ refused l \/ asked l (fun ty port => asked_for ty port q)))).
  { destruct (Z.eqb_spec type FRAME_TYPE_INSECURE_DATA).
    - destruct (ncp_state_is_joining ti ncp) eqn:Ej; [unfold insecure_inbound; rewrite Ej; by eexists _, _, _|].
      destruct (insecure_spec l ti ncp now q s HI Hq Ej) as (d & r' & s' & -> & ? & ?). exists d, r', s'. split; [done|]. split; [done|]. auto.
    - destruct (_ && _); eexists _, _, _; (split; [done|]); (split; [|intros; congruence]); [|done]. unfold secure_inbound. destruct (set_count _ _); [|done].
      case_match; [|by apply inv_erase]. apply inv_legacy; [|by apply inv_erase]. apply set_insert_wf; [done|apply (in_legacy _ _ HI)]. }
  destruct H1 as (d & r' & s1 & -> & HI1 & Hs1). cbn [mbind outcome_bind]. destruct (negb (ncp_state_is_interface_up ncp)).
  - eexists _, _, _. split; [done|]. split; [|done]. repeat case_match; auto using inv_record.
  - eexists _, _, _. split; [done|]. split; [repeat case_match; auto using inv_record|]. intros -> Hf Hj. apply Hs1; [done| |done]. cbn in Hf. by destruct d.
Qed.

Lemma ncpbound_spec l ti ncp now type q len s : Inv l s -> wf_packet q -> exists f t s', should_forward_ncpbound_frame ti ncp now type (bytes q) len s = Ret (f, t, s') /\ Inv l s'.
Proof.
  intros HI Hq. unfold should_forward_ncpbound_frame, is_valid_ipv6_packet. destruct (negb (ncp_state_is_interface_up ncp)); [by eexists _, _, _|].
  destruct (40 <? len); [|by eexists _, _, _]. rewrite get_v6 by done. cbn [mbind outcome_bind]. destruct (negb (ipv6 q)); [by eexists _, _, _|]. rewrite update_outbound by done. cbn [mbind outcome_bind].
  destruct (matcher_total (mDropFirewall s) q Hq) as [[r|] ->]; cbn [mbind outcome_bind]; [by eexists _, _, _|].
  assert (HI1 : Inv l (set_legacy (set_erase (rule_out q) (mLegacyCommissioningMatcher s)) s)) by (apply inv_legacy; [apply set_erase_wf; [by apply rule_out_wf|apply (in_legacy _ _ HI)]|done]).
  repeat case_match; simplify_eq/=; eexists _, _, _; (split; [reflexivity|]); apply inv_record; auto using inv_end.
Qed.

Lemma commission_spec l seconds ty port now s : Inv l s -> Inv (l ++ [Commission seconds ty port now]) (set_commissioniner seconds ty port now s).2.
Proof.
  intros HI. assert (HI' : Inv (l ++ [Commission seconds ty port now]) s) by (eapply inv_more; [|exact HI]; intros x Hx; apply elem_of_app; by left).
  assert (Hin : Commission seconds ty port now ∈ l ++ [Commission seconds ty port now]) by (apply elem_of_app; right; by apply list_elem_of_singleton).
  unfold set_commissioniner. destruct (Z.ltb_spec 0 seconds) as [Hs|Hs]; cbn [andb].
  - destruct (Z.eqb_spec port 0) as [->|Hne]; cbn; destruct HI'; constructor; try done; intros _; [left|right].
    + by exists seconds, ty, now.
    + by exists seconds, ty, port, now.
  - cbn. destruct HI'. constructor; try done; try (by constructor). intros r Hr. by apply not_elem_of_nil in Hr.
Qed.

Lemma start_inv : Inv [] start.
Proof. constructor; try done; try (by constructor). intros r Hr. by apply not_elem_of_nil in Hr. Qed.

Lemma execs_inv ti l : forall pre s, Inv pre s -> Forall fair l -> exists s', execs ti s l = Ret s' /\ Inv (pre ++ l) s'.
Proof.
  induction l as [|x l IH]; intros pre s HI Hf; cbn [execs]; [rewrite app_nil_r; by eauto|]. apply Forall_cons in Hf as [Hx Hf].
  assert (H1 : exists s1, exec ti s x = Ret s1 /\ Inv (pre ++ [x]) s1).
  { assert (Hm : forall s1, Inv pre s1 -> Inv (pre ++ [x]) s1) by (intros s1; apply inv_more; intros y Hy; apply elem_of_app; by left).
    destruct x as [ncp legacy now type q|ncp now type q len|sec ty port now]; cbn [exec].
    - destruct (hostbound_spec pre ti ncp legacy now type q s HI Hx) as (f & t & s1 & -> & HI1 & _). cbn. eauto.
    - destruct (ncpbound_spec pre ti ncp now type q len s HI Hx) as (f & t & s1 & -> & HI1). cbn. eauto.
    - eexists. split; [done|]. by apply commission_spec. }
  destruct H1 as (s1 & -> & HI1). cbn [mbind outcome_bind]. destruct (IH _ _ HI1 Hf) as (s' & -> & HI'). exists s'. by rewrite <- app_assoc in HI'.
Qed.

(** ** What the filter guarantees *)

(** C10: What comes over the insecure channel is contained: after any calls of the two
    filters and any commissionings, whatever their protocols and ports, no operation reads outside of a packet that has
    all its fields (44 bytes), and a packet of the insecure channel reaches the host, while
    the co-processor is not joining, only before the commissioning expires, and only if it is
    an IPv6 packet of ICMP, or goes to a link-local address with the protocol of a commissioning (any
    for the type 0xFF) and, where its protocol has ports, the port of that commissioning,
    or a call for a commissioning was refused because its port was 0: such a call leaves a
    rule that every packet fits. *)
Theorem insecure_packets_contained ti ops ncp legacy now q : Forall fair ops -> wf_packet q ->
  exists s f t s', execs ti start ops = Ret s /\ should_forward_hostbound_frame ti ncp legacy now FRAME_TYPE_INSECURE_DATA (bytes q) s = Ret (f, t, s') /\
    (f = true -> ncp_state_is_joining ti ncp = false ->
     now < mCommissioningExpiration s /\ ipv6 q = true /\ (kind q = TYPE_ICMP \/ refused ops \/ asked ops (fun ty port => asked_for ty port q))).
Proof.
  intros Hf Hq. destruct (execs_inv ti ops [] start start_inv Hf) as (s & E & HI). destruct (hostbound_spec ops ti ncp legacy now FRAME_TYPE_INSECURE_DATA q s HI Hq) as (f & t & s' & E' & _ & H).
  exists s, f, t, s'. split; [done|]. split; [done|]. intros Hft Hj. by destruct (H eq_refl Hft Hj) as (_ & ?).
Qed.

Definition sample_packet (ty sport dport : Z) : packet :=
  MkPacket [0x60; 0; 0; 0; 0; 8; ty; 64] ([0xFE; 0x80] ++ replicate 13 0 ++ [1]) ([0xFE; 0x80] ++ replicate 13 0 ++ [2]) [sport; 0] [dport; 0] [0; 8; 0; 0].
Definition sample_ops : list op := [Commission 60 TYPE_UDP 99 100; HostBound ASSOCIATED false 110 FRAME_TYPE_INSECURE_DATA (sample_packet TYPE_UDP 7 99)].

Lemma insecure_packets_contained_witness : exists s f t s', execs true start sample_ops = Ret s /\
  should_forward_hostbound_frame true ASSOCIATED false 120 FRAME_TYPE_INSECURE_DATA (bytes (sample_packet TYPE_UDP 8 99)) s = Ret (f, t, s') /\
  (f = true -> ncp_state_is_joining true ASSOCIATED = false ->
   120 < mCommissioningExpiration s /\ ipv6 (sample_packet TYPE_UDP 8 99) = true /\ (kind (sample_packet TYPE_UDP 8 99) = TYPE_ICMP \/ refused sample_ops \/ asked sample_ops (fun ty port => asked_for ty port (sample_packet TYPE_UDP 8 99)))).
Proof. apply (insecure_packets_contained true sample_ops ASSOCIATED false 120 (sample_packet TYPE_UDP 8 99)); [repeat constructor; done|done]. Defined.

(** *** Sessions *)

(** The packets of TCP and UDP are never dropped by the rules for packets that are not sent. *)
Lemma not_dropped q : wf_packet q -> has_ports (kind q) = true -> matcher_outbound drop_rules (bytes q) = Ret None.
Proof.
  intros Hq Hp. assert (Hk : kind q = TYPE_TCP \/ kind q = TYPE_UDP) by (unfold has_ports in Hp; lia).
  assert (Hr : forall r, r_type r = TYPE_ICMP \/ r_type r = TYPE_HOP_BY_HOP -> match_outbound r (bytes q) = Ret false).
  { intros r Hr. unfold match_outbound. rewrite get_v6 by done. unfold andthen at 1. cbn [mbind outcome_bind]. destruct (ipv6 q); [|done].
    unfold check_type. rewrite get_type by done. by destruct Hr as [-> | ->], Hk as [-> | ->]. }
  assert (Hall : forall l, Forall (fun r => r_type r = TYPE_ICMP \/ r_type r = TYPE_HOP_BY_HOP) l -> matcher_outbound l (bytes q) = Ret None).
  { induction 1 as [|r l H _ IH]; cbn [matcher_outbound]; [done|]. rewrite Hr by done. cbn [mbind outcome_bind]. exact IH. }
  apply Hall. vm_compute. repeat (apply Forall_cons_2; [first [by left|by right]|]). apply Forall_nil_2.
Qed.

(** The answer of a tracked flow goes out the way the set of flows says. *)
Lemma reply_routed l ti ncp now len q s : Inv l s -> wf_packet q -> ipv6 q = true -> has_ports (kind q) = true -> IN6_IS_ADDR_MULTICAST (dst q) = false ->
  ncp_state_is_interface_up ncp = true -> ncp_state_is_joining ti ncp = false -> 40 < len ->
  exists s', should_forward_ncpbound_frame ti ncp now FRAME_TYPE_DATA (bytes (reply q)) len s =
    Ret (true, if bool_decide (rule_in q ∈ mInsecureFirewall s) then FRAME_TYPE_INSECURE_DATA else FRAME_TYPE_DATA, s').
Proof.
  intros HI Hq Hv Hp Hm Hup Hj Hlen. unfold should_forward_ncpbound_frame, is_valid_ipv6_packet. rewrite Hup. cbn [negb]. rewrite (proj2 (Z.ltb_lt _ _) Hlen).
  rewrite get_v6, update_outbound by (by apply reply_wf). change (ipv6 (reply q)) with (ipv6 q). rewrite Hv. cbn [mbind outcome_bind negb].
  rewrite (in_drop _ _ HI), not_dropped by (done || by apply reply_wf). cbn [mbind outcome_bind].
  rewrite reply_rule by done. assert (Hr : with_subtype SUBTYPE_ALL (rule_in q) = rule_in q) by (unfold rule_in, sub_of; rewrite Hv, Hp; done). rewrite Hr.
  set (s1 := if set_count (rule_out (reply q)) (mLegacyCommissioningMatcher s) then set_legacy (set_erase (rule_out (reply q)) (mLegacyCommissioningMatcher s)) s else s).
  replace (if set_count (rule_out (reply q)) (mLegacyCommissioningMatcher s) then _ else _) with (FRAME_TYPE_DATA, s1) by (subst s1; by destruct (set_count _ _)).
  assert (Hi1 : mInsecureFirewall s1 = mInsecureFirewall s) by (subst s1; by case_match). rewrite Hi1, Hj.
  pose proof (set_count_in (rule_in q) (mInsecureFirewall s) (rule_in_wf q Hq) (in_insecure _ _ HI)) as Hc.
  assert (Hc' : set_count (rule_in q) (mInsecureFirewall s) = bool_decide (rule_in q ∈ mInsecureFirewall s)).
  { apply eq_true_iff_eq. by rewrite Hc, bool_decide_eq_true. }
  rewrite Hc'. destruct (negb (_ =? 0) && _); eexists; reflexivity.
Qed.

(** Packets of one flow. *)
Definition same_flow (q q' : packet) : Prop := rule_in q' = rule_in q.

(** Operations that leave a tracked flow alone: nothing happens after the expiry, no packet
    of the flow comes over a secure channel, and there is no further call for a commissioning. *)
Definition keeps (expiry : Z) (q : packet) (x : op) : Prop :=
  match x with
  | HostBound _ _ now type q' => (type = FRAME_TYPE_INSECURE_DATA -> now < expiry) /\ (type <> FRAME_TYPE_INSECURE_DATA -> ~ same_flow q q')
  | NcpBound _ now _ _ _ => now <= expiry
  | Commission _ _ _ _ => False
  end.

(** Operations that do not track a flow anew: no packet of it comes over the insecure channel. *)
Definition avoids (q : packet) (x : op) : Prop :=
  match x with HostBound _ _ _ type q' => type = FRAME_TYPE_INSECURE_DATA -> ~ same_flow q q' | NcpBound _ _ _ _ _ | Commission _ _ _ _ => True end.

Lemma set_insert_keeps r s x : x ∈ s -> x ∈ set_insert r s.
Proof. induction s as [|y s IH]; cbn; [by intros ?%not_elem_of_nil|]. repeat case_match; rewrite ?elem_of_cons; tauto. Qed.

(** The flows after a packet for the host: they stay, but for the flow of a secure packet
    and at the expiry; new is only the flow of an insecure packet. *)
Lemma hostbound_flows ti ncp legacy now type q s f t s' (flows := mInsecureFirewall) : wf_packet q -> Forall wf_rule (flows s) ->
  should_forward_hostbound_frame ti ncp legacy now type (bytes q) s = Ret (f, t, s') ->
  mCommissioningExpiration s' = mCommissioningExpiration s /\ (forall r, r ∈ flows s -> type <> FRAME_TYPE_INSECURE_DATA -> r <> rule_in q -> r ∈ flows s') /\
    (forall r, r ∈ flows s -> type = FRAME_TYPE_INSECURE_DATA -> r ∈ flows s') /\
    (forall r, r ∈ flows s' -> r ∈ flows s \/ (type = FRAME_TYPE_INSECURE_DATA /\ (r = rule_in q \/ r = with_subtype SUBTYPE_ALL (rule_in q))))
  \/ (type = FRAME_TYPE_INSECURE_DATA /\ mCommissioningExpiration s <= now /\ flows s' = []).
Proof.
  intros Hq Hw. unfold should_forward_hostbound_frame. rewrite update_inbound by done. cbn [mbind outcome_bind]. pose proof (rule_in_wf q Hq) as Hwf.
  intros H. apply bind_Ret_inv in H as ([[d r1] s1] & E & H).
  assert (Hs : flows s' = flows s1 /\ mCommissioningExpiration s' = mCommissioningExpiration s1).
  { unfold flows. destruct (negb (ncp_state_is_interface_up ncp)); injection H as _ _ <-; by repeat case_match. }
  destruct Hs as [-> ->]. clear H. destruct (Z.eqb_spec type FRAME_TYPE_INSECURE_DATA) as [->|Hne].
  - unfold insecure_inbound in E. destruct (ncp_state_is_joining ti ncp); [injection E as _ _ <-; left; naive_solver|].
    destruct (_ =? 0); [injection E as _ _ <-; left; naive_solver|]. destruct (Z.ltb_spec now (mCommissioningExpiration s)); [|injection E as _ _ <-; right; done].
    left. destruct (set_count _ _); [injection E as _ _ <-; naive_solver|]. apply bind_Ret_inv in E as (b & _ & E).
    destruct b; [|destruct (_ =? TYPE_ICMP)]; injection E as _ _ <-; unfold flows; cbn; try naive_solver; (split; [done|]); (split; [done|]);
      (split; [intros; by apply set_insert_keeps|]); intros r [->|?]%set_insert_in; naive_solver.
  - left. destruct (_ && _); [|injection E as _ _ <-; naive_solver]. injection E as _ _ <-. unfold secure_inbound. destruct (set_count _ _); [|naive_solver].
    assert (Hf : forall s0, mInsecureFirewall (if type =? FRAME_TYPE_LEGACY_DATA then set_legacy (set_insert (rule_in q) (mLegacyCommissioningMatcher s0)) s0 else s0) = mInsecureFirewall s0 /\
      mCommissioningExpiration (if type =? FRAME_TYPE_LEGACY_DATA then set_legacy (set_insert (rule_in q) (mLegacyCommissioningMatcher s0)) s0 else s0) = mCommissioningExpiration s0) by (intros; by case_match).
    unfold flows. rewrite (proj1 (Hf _)), (proj2 (Hf _)). cbn [set_insecure mInsecureFirewall mCommissioningExpiration]. split; [done|].
    assert (Hi : forall r, r ∈ set_erase (rule_in q) (mInsecureFirewall s) <-> r ∈ mInsecureFirewall s /\ r <> rule_in q) by (intros; by apply set_erase_in).
    split; [intros r Hr _ Hn; by apply Hi|]. split; [intros; congruence|]. intros r [Hr _]%Hi. by left.
Qed.

Lemma ncpbound_flows ti ncp now type q len s f t s' (flows := mInsecureFirewall) :
  should_forward_ncpbound_frame ti ncp now type (bytes q) len s = Ret (f, t, s') ->
  flows s' = flows s /\ mCommissioningExpiration s' = mCommissioningExpiration s \/ (mCommissioningExpiration s < now /\ flows s' = []).
Proof.
  unfold should_forward_ncpbound_frame. destruct (negb _); [intros [= _ _ <-]; by left|]. intros H. apply bind_Ret_inv in H as (v6 & _ & H).
  destruct (negb v6); [injection H as _ _ <-; by left|]. apply bind_Ret_inv in H as (r & _ & H). apply bind_Ret_inv in H as ([?|] & _ & H); [injection H as _ _ <-; by left|].
  set (ts := if set_count r (mLegacyCommissioningMatcher s) then _ else _) in H. assert (Hts : flows ts.2 = flows s /\ mCommissioningExpiration ts.2 = mCommissioningExpiration s)
    by (subst ts; unfold flows; destruct (set_count r _); [by destruct (type =? _)|done]). destruct ts as [t1 s1]. cbn [snd] in Hts. destruct Hts as [<- <-].
  destruct (ncp_state_is_joining ti ncp); [injection H as _ _ <-; by left|]. destruct (negb (_ =? 0) && _) eqn:E; injection H as _ _ <-; [right|by left].
  split; [|done]. apply andb_true_iff in E as [_ E]. by apply Z.ltb_lt.
Qed.

(** A tracked flow stays tracked. *)
Lemma execs_keep ti q more : forall l s, Inv l s -> Forall fair more -> Forall (keeps (mCommissioningExpiration s) q) more -> rule_in q ∈ mInsecureFirewall s ->
  exists s' l', execs ti s more = Ret s' /\ Inv l' s' /\ rule_in q ∈ mInsecureFirewall s'.
Proof.
  induction more as [|x more IH]; intros l s HI Hf Hk Hin; cbn [execs]; [by exists s, l|]. apply Forall_cons in Hf as [Hx Hf]. apply Forall_cons in Hk as [Hkx Hk].
  assert (H1 : exists s1, exec ti s x = Ret s1 /\ Inv l s1 /\ rule_in q ∈ mInsecureFirewall s1 /\ mCommissioningExpiration s1 = mCommissioningExpiration s).
  { destruct x as [ncp legacy now type q'|ncp now type q' len|]; cbn [exec]; [| |done].
    - destruct (hostbound_spec l ti ncp legacy now type q' s HI Hx) as (f & t & s1 & E & HI1 & _). rewrite E. eexists. split; [done|]. split; [done|].
      destruct Hkx as [Hn Hs]. apply hostbound_flows in E as [(-> & Ho & Hi & _)|(Ht & Hle & _)]; [|specialize (Hn Ht); lia|done|apply (in_insecure _ _ HI)]. split; [|done].
      destruct (decide (type = FRAME_TYPE_INSECURE_DATA)) as [E|E]; [by apply Hi|]. apply Ho; [done|done|]. specialize (Hs E). unfold same_flow in Hs. congruence.
    - destruct (ncpbound_spec l ti ncp now type q' len s HI Hx) as (f & t & s1 & E & HI1). rewrite E. eexists. split; [done|]. split; [done|].
      apply ncpbound_flows in E as [[-> ->]|[Hlt _]]; [done|]. cbn in Hkx. lia. }
  destruct H1 as (s1 & -> & HI1 & Hin1 & Hx1). cbn [mbind outcome_bind]. apply (IH l s1); [done|done|by rewrite Hx1|done].
Qed.

(** A flow that is not tracked is not, until a packet of it comes over the insecure channel. *)
Lemma execs_avoid ti q later : wf_packet q -> ipv6 q = true -> has_ports (kind q) = true -> forall l s, Inv l s -> Forall fair later -> Forall (avoids q) later -> rule_in q ∉ mInsecureFirewall s ->
  exists s' l', execs ti s later = Ret s' /\ Inv l' s' /\ rule_in q ∉ mInsecureFirewall s'.
Proof.
  intros Hq Hv Hp. assert (Hsub : forall q', rule_in q = with_subtype SUBTYPE_ALL (rule_in q') -> same_flow q q').
  { intros q'. unfold same_flow, rule_in. rewrite Hv. destruct (ipv6 q'); [|done]. cbn. intros E. rewrite E. f_equal. injection E as Ek _ _ _ _ _ _ _ _. unfold sub_of. rewrite <- Ek, Hp. done. }
  induction later as [|x later IH]; intros l s HI Hf Ha Hin; cbn [execs]; [by exists s, l|]. apply Forall_cons in Hf as [Hx Hf]. apply Forall_cons in Ha as [Hax Ha].
  assert (H1 : exists s1 l1, exec ti s x = Ret s1 /\ Inv l1 s1 /\ rule_in q ∉ mInsecureFirewall s1).
  { destruct x as [ncp legacy now type q'|ncp now type q' len|sec ty port now]; cbn [exec].
    - destruct (hostbound_spec l ti ncp legacy now type q' s HI Hx) as (f & t & s1 & E & HI1 & _). rewrite E. exists s1, l. split; [done|]. split; [done|]. cbn in Hax.
      apply hostbound_flows in E as [(_ & _ & _ & Hn)|(_ & _ & ->)]; [|apply not_elem_of_nil|done|apply (in_insecure _ _ HI)].
      intros [?|[Ht [Hr|Hr]]]%Hn; [done|by apply (Hax Ht)|by apply (Hax Ht), Hsub].
    - destruct (ncpbound_spec l ti ncp now type q' len s HI Hx) as (f & t & s1 & E & HI1). rewrite E. exists s1, l. split; [done|]. split; [done|].
      apply ncpbound_flows in E as [[-> _]|[_ ->]]; [done|apply not_elem_of_nil].
    - eexists _, _. split; [done|]. split; [by apply commission_spec|]. unfold set_commissioniner. repeat case_match; cbn; [done|done|apply not_elem_of_nil]. }
  destruct H1 as (s1 & l1 & -> & HI1 & Hin1). cbn [mbind outcome_bind]. by apply (IH l1 s1).
Qed.

(** An insecure packet that fits is tracked, and a secure one of its flow ends that. *)
Lemma packet_tracked l ti ncp legacy now q s : Inv l s -> wf_packet q -> has_ports (kind q) = true -> ncp_state_is_interface_up ncp = true -> ncp_state_is_joining ti ncp = false ->
  mCommissioningExpiration s <> 0 -> now < mCommissioningExpiration s -> match_inbound (mCommissioningRule s) (bytes q) = Ret true ->
  exists s1, should_forward_hostbound_frame ti ncp legacy now FRAME_TYPE_INSECURE_DATA (bytes q) s = Ret (true, FRAME_TYPE_INSECURE_DATA, s1) /\ Inv l s1 /\
    rule_in q ∈ mInsecureFirewall s1 /\ mCommissioningExpiration s1 = mCommissioningExpiration s.
Proof.
  intros HI Hq Hp Hup Hj Hx Hnow Hmatch. pose proof (match_ipv6 _ q Hq Hmatch) as Hv. pose proof (rule_in_wf q Hq) as Hwf.
  assert (Hr : with_subtype SUBTYPE_ALL (rule_in q) = rule_in q) by (unfold rule_in, sub_of; rewrite Hv, Hp; done).
  assert (H1 : exists s1, should_forward_hostbound_frame ti ncp legacy now FRAME_TYPE_INSECURE_DATA (bytes q) s = Ret (true, FRAME_TYPE_INSECURE_DATA, s1) /\
    rule_in q ∈ mInsecureFirewall s1 /\ mCommissioningExpiration s1 = mCommissioningExpiration s).
  { unfold should_forward_hostbound_frame. rewrite update_inbound by done. cbn [mbind outcome_bind]. unfold insecure_inbound. rewrite Z.eqb_refl, Hj, (proj2 (Z.eqb_neq _ _) Hx), (proj2 (Z.ltb_lt _ _) Hnow), Hmatch, Hup.
    destruct (set_count (rule_in q) (mInsecureFirewall s)) eqn:Ec; cbn; eexists; (split; [done|]); cbn.
    - split; [|done]. apply set_count_in in Ec; [done|done|apply (in_insecure _ _ HI)].
    - rewrite Hr. split; [|done]. apply set_insert_has; [done|apply (in_insecure _ _ HI)]. }
  destruct H1 as (s1 & E1 & Hin & Hx1). exists s1. split; [done|]. split; [|done].
  destruct (hostbound_spec l ti ncp legacy now FRAME_TYPE_INSECURE_DATA q s HI Hq) as (f & t & s1' & E1' & HI1 & _). rewrite E1 in E1'. by injection E1' as <- <- <-.
Qed.

Lemma packet_secured l ti ncp legacy now q s : Inv l s -> wf_packet q -> ncp_state_is_interface_up ncp = true -> rule_in q ∈ mInsecureFirewall s ->
  exists s1, should_forward_hostbound_frame ti ncp legacy now FRAME_TYPE_DATA (bytes q) s = Ret (true, FRAME_TYPE_DATA, s1) /\ Inv l s1 /\ rule_in q ∉ mInsecureFirewall s1.
Proof.
  intros HI Hq Hup Hin. pose proof (rule_in_wf q Hq) as Hwf.
  assert (H2 : exists s1, should_forward_hostbound_frame ti ncp legacy now FRAME_TYPE_DATA (bytes q) s = Ret (true, FRAME_TYPE_DATA, s1) /\ rule_in q ∉ mInsecureFirewall s1).
  { unfold should_forward_hostbound_frame. rewrite update_inbound by done. cbn [mbind outcome_bind]. unfold secure_inbound. rewrite Hup.
    assert (Hc : set_count (rule_in q) (mInsecureFirewall s) = true) by (apply set_count_in; [done|apply (in_insecure _ _ HI)|done]). rewrite Hc.
    assert (Hz : (0 <? zlen (mInsecureFirewall s)) = true) by (destruct (mInsecureFirewall s); [by apply not_elem_of_nil in Hin|]; unfold zlen; cbn [length]; apply Z.ltb_lt; lia). rewrite Hz. cbn.
    eexists. split; [done|]. cbn. rewrite set_erase_in; [tauto|done|apply (in_insecure _ _ HI)]. }
  destruct H2 as (s1 & E1 & Hin1). exists s1. split; [done|]. split; [|done].
  destruct (hostbound_spec l ti ncp legacy now FRAME_TYPE_DATA q s HI Hq) as (f & t & s1' & E1' & HI1 & _). rewrite E1 in E1'. by injection E1' as <- <- <-.
Qed.

(** C11: A commissioning carries a connection through: after any calls of the filters and any
    commissionings, a TCP or UDP packet to one host that fits the rule and comes over the
    insecure channel before the commissioning expires reaches the host.  Until the expiry,
    after any other traffic without a packet of the connection on a secure channel
    and without another call for a commissioning, the answers to it go out on the insecure channel; once a packet
    of the connection came over the secure channel they go out there, whatever happens until
    a packet of it comes over the insecure channel again.  The interface is up and the co-processor not joining when the
    packets of the connection are handled. *)
Theorem commissioning_session ti ops s ncp legacy now q : Forall fair ops -> execs ti start ops = Ret s -> wf_packet q ->
  has_ports (kind q) = true -> IN6_IS_ADDR_MULTICAST (dst q) = false ->
  ncp_state_is_interface_up ncp = true -> ncp_state_is_joining ti ncp = false -> mCommissioningExpiration s <> 0 -> now < mCommissioningExpiration s ->
  match_inbound (mCommissioningRule s) (bytes q) = Ret true ->
  exists s1, should_forward_hostbound_frame ti ncp legacy now FRAME_TYPE_INSECURE_DATA (bytes q) s = Ret (true, FRAME_TYPE_INSECURE_DATA, s1) /\
    forall more, Forall fair more -> Forall (keeps (mCommissioningExpiration s) q) more ->
    exists s2, execs ti s1 more = Ret s2 /\
      (forall now' len, 40 < len -> exists s', should_forward_ncpbound_frame ti ncp now' FRAME_TYPE_DATA (bytes (reply q)) len s2 = Ret (true, FRAME_TYPE_INSECURE_DATA, s')) /\
      forall now', exists s3, should_forward_hostbound_frame ti ncp legacy now' FRAME_TYPE_DATA (bytes q) s2 = Ret (true, FRAME_TYPE_DATA, s3) /\
        forall later, Forall fair later -> Forall (avoids q) later ->
        exists s4, execs ti s3 later = Ret s4 /\
          forall now' len, 40 < len -> exists s', should_forward_ncpbound_frame ti ncp now' FRAME_TYPE_DATA (bytes (reply q)) len s4 = Ret (true, FRAME_TYPE_DATA, s').
Proof.
  intros Hf E Hq Hp Hm Hup Hj Hx Hnow Hmatch. destruct (execs_inv ti ops [] start start_inv Hf) as (s0 & E0 & HI). rewrite E in E0. injection E0 as <-. cbn [app] in HI.
  pose proof (match_ipv6 _ q Hq Hmatch) as Hv. destruct (packet_tracked ops ti ncp legacy now q s HI Hq Hp Hup Hj Hx Hnow Hmatch) as (s1 & E1 & HI1 & Hin1 & Hx1).
  exists s1. split; [done|]. intros more Hfm Hk. rewrite <- Hx1 in Hk. destruct (execs_keep ti q more ops s1 HI1 Hfm Hk Hin1) as (s2 & l2 & E2 & HI2 & Hin2).
  exists s2. split; [done|]. split.
  { intros now' len Hl. destruct (reply_routed l2 ti ncp now' len q s2) as [s' ->]; try done. rewrite bool_decide_eq_true_2 by done. by exists s'. }
  intros now'. destruct (packet_secured l2 ti ncp legacy now' q s2 HI2 Hq Hup Hin2) as (s3 & E3 & HI3 & Hin3). exists s3. split; [done|]. intros later Hfl Ha.
  destruct (execs_avoid ti q later Hq Hv Hp l2 s3 HI3 Hfl Ha Hin3) as (s4 & l4 & E4 & HI4 & Hin4). exists s4. split; [done|].
  intros now'' len Hl. destruct (reply_routed l4 ti ncp now'' len q s4) as [s' ->]; try done. rewrite bool_decide_eq_false_2 by done. by exists s'.
Qed.

Definition sample_state : state := Eval vm_compute in match execs true start [Commission 60 TYPE_ALL 99 100] with Ret s => s | _ => start end.

Lemma commissioning_session_witness : let q := sample_packet TYPE_UDP 7 99 in
  exists s1, should_forward_hostbound_frame true ASSOCIATED false 110 FRAME_TYPE_INSECURE_DATA (bytes q) sample_state = Ret (true, FRAME_TYPE_INSECURE_DATA, s1) /\
    forall more, Forall fair more -> Forall (keeps (mCommissioningExpiration sample_state) q) more ->
    exists s2, execs true s1 more = Ret s2 /\
      (forall now' len, 40 < len -> exists s', should_forward_ncpbound_frame true ASSOCIATED now' FRAME_TYPE_DATA (bytes (reply q)) len s2 = Ret (true, FRAME_TYPE_INSECURE_DATA, s')) /\
      forall now', exists s3, should_forward_hostbound_frame true ASSOCIATED false now' FRAME_TYPE_DATA (bytes q) s2 = Ret (true, FRAME_TYPE_DATA, s3) /\
        forall later, Forall fair later -> Forall (avoids q) later ->
        exists s4, execs true s3 later = Ret s4 /\
          forall now' len, 40 < len -> exists s', should_forward_ncpbound_frame true ASSOCIATED now' FRAME_TYPE_DATA (bytes (reply q)) len s4 = Ret (true, FRAME_TYPE_DATA, s').
Proof.
  apply (commissioning_session true [Commission 60 TYPE_ALL 99 100] sample_state ASSOCIATED false 110 (sample_packet TYPE_UDP 7 99));
    [repeat constructor; done|vm_compute; reflexivity|done|done|done|done|done|done|vm_compute; reflexivity|vm_compute; reflexivity].
Defined.

(** Other traffic that leaves the flow of the sample alone. *)
Example sample_keeps : Forall (keeps (mCommissioningExpiration sample_state) (sample_packet TYPE_UDP 7 99))
  [HostBound ASSOCIATED false 111 FRAME_TYPE_INSECURE_DATA (sample_packet TYPE_UDP 8 99); HostBound ASSOCIATED false 112 FRAME_TYPE_DATA (sample_packet TYPE_TCP 7 99);
   NcpBound ASSOCIATED 113 FRAME_TYPE_DATA (reply (sample_packet TYPE_UDP 7 99)) 48].
Proof. repeat (apply Forall_cons_2; [cbn; try split; done|]). apply Forall_nil_2. Qed.

(** ** Where the filter falls short *)

(** The answer to a ping that is let in goes out on the secure channel: the flow is kept with
    the type of the request, and the answer looked up without one. *)
Example ping_not_answered : let ping := MkPacket [0x60; 0; 0; 0; 0; 8; TYPE_ICMP; 64] (src (sample_packet 0 0 0)) (dst (sample_packet 0 0 0)) [128; 0] [1; 2] [0; 0; 0; 0] in
  let pong := MkPacket (front ping) (dst ping) (src ping) [129; 0] [1; 2] [0; 0; 0; 0] in
  exists s1 s2, should_forward_hostbound_frame true ASSOCIATED false 110 FRAME_TYPE_INSECURE_DATA (bytes ping) sample_state = Ret (true, FRAME_TYPE_INSECURE_DATA, s1) /\
    length (mInsecureFirewall s1) = 1%nat /\ should_forward_ncpbound_frame true ASSOCIATED 110 FRAME_TYPE_DATA (bytes pong) 48 s1 = Ret (true, FRAME_TYPE_DATA, s2).
Proof. eexists _, _. split; [vm_compute; reflexivity|]. split; vm_compute; reflexivity. Qed.

(** The first packet after the end of the commissioning is still sent on the insecure
    channel: the set of flows is looked at before the clock. *)
Example late_packet_insecure : let q := sample_packet TYPE_UDP 7 99 in exists s1 s2,
  should_forward_hostbound_frame true ASSOCIATED false 110 FRAME_TYPE_INSECURE_DATA (bytes q) sample_state = Ret (true, FRAME_TYPE_INSECURE_DATA, s1) /\ mCommissioningExpiration s1 = 160 /\
  should_forward_ncpbound_frame true ASSOCIATED 1000 FRAME_TYPE_DATA (bytes (reply q)) 48 s1 = Ret (true, FRAME_TYPE_INSECURE_DATA, s2) /\ mInsecureFirewall s2 = [].
Proof. eexists _, _. split; [vm_compute; reflexivity|]. split; [reflexivity|]. split; vm_compute; reflexivity. Qed.

(** A call without a port is refused, but in the middle of a commissioning it leaves a rule
    behind that every packet fits: any packet of the insecure channel reaches the host. *)
Example refused_call_opens_filter : let q := MkPacket [0x60; 0; 0; 0; 0; 8; TYPE_TCP; 64] ([0x20; 1] ++ replicate 14 9) ([0x20; 1] ++ replicate 14 8) [5; 5] [22; 0] [0; 0; 0; 0] in
  let '(status, s1) := set_commissioniner 60 TYPE_UDP 0 105 sample_state in
  status = NcpAddresses.kWPANTUNDStatus_InvalidArgument /\ (exists s2, should_forward_hostbound_frame true ASSOCIATED false 110 FRAME_TYPE_INSECURE_DATA (bytes q) sample_state = Ret (false, FRAME_TYPE_INSECURE_DATA, s2)) /\
  exists s2, should_forward_hostbound_frame true ASSOCIATED false 110 FRAME_TYPE_INSECURE_DATA (bytes q) s1 = Ret (true, FRAME_TYPE_INSECURE_DATA, s2).
Proof. split; [reflexivity|]. split; eexists; vm_compute; reflexivity. Qed.

(** A router advertisement to all nodes is sent: the rule against it is for packets to all
    routers only. *)
Example router_advertisement_sent : let q := MkPacket [0x60; 0; 0; 0; 0; 8; TYPE_ICMP; 255] (src (sample_packet 0 0 0)) ([0xFF; 2] ++ replicate 13 0 ++ [1]) [SUBTYPE_ICMP_ROUTER_ADV; 0] [0; 0] [0; 0; 0; 0] in
  exists s, should_forward_ncpbound_frame true ASSOCIATED 110 FRAME_TYPE_DATA (bytes q) 48 start = Ret (true, FRAME_TYPE_DATA, s).
Proof. eexists. vm_compute. reflexivity. Qed.

(** A packet that is too short is read past its end. *)
Example short_packet : should_forward_hostbound_frame true ASSOCIATED false 110 FRAME_TYPE_DATA [0x60; 0; 0; 0; 0; 0; TYPE_UDP; 64] start = Undef OutOfBounds.
Proof. reflexivity. Qed.

End Firewall.
